(* ===== verification/_CoqProject ===== *)
-Q . S2P
Prelude.v
StringTable.v
Value.v
ZeroRle.v
Encoder.v
Decoder.v
PackedOrder.v
DecoderSafety.v
MarshalRoundtrip.v
MarshalSpec.v
Framing.v
SessionCrypto.v
Packet.v
Dispatcher.v
Handshake.v
Connection.v
Client.v
ScratchAllocator.v
FrameSlot.v
FrameSlotLeases.v
FramePacketChannel.v
EcsWorld.v
RenderGraph.v
RenderGraphOrder.v
RenderGraphSpec.v
GraphRecorder.v
GraphRecorderSpec.v
ThreadBudget.v
JobRuntime.v
RuntimeSupervisor.v
RuntimeSupervisorInv.v
RuntimeSupervisorSpec.v
VulkanFormats.v
Vulkan.v
VulkanContext.v
VulkanUsage.v
VulkanMemory.v
VulkanQueryRules.v
VulkanPipelineRules.v
VulkanRenderRules.v
VulkanDriver.v
VulkanObject.v
VulkanBuffer.v
VulkanBufferSpec.v
VulkanConstantBufferSpec.v
VulkanQueries.v
VulkanQueriesSpec.v
VulkanPipelines.v
VulkanVertexLayout.v
VulkanTexture.v
VulkanTextureRows.v
VulkanTextureInv.v
VulkanTextureSpec.v
VulkanResourceScenarios.v
VulkanResourceSet.v
VulkanPresentation.v
VulkanPresentationSpec.v
VulkanRenderContext.v
VulkanPipelinesSpec.v
VulkanVertexLayoutSpec.v
VulkanResourceSetSpec.v
VulkanDrawing.v
VulkanRenderContextSpec.v
VulkanRenderScenarios.v
VulkanPipelineScenarios.v
VulkanQuiet.v
VulkanFrameInv.v
VulkanSwapchain.v
VulkanFrames.v
VulkanSession.v
VulkanScenarios.v
VulkanSpec.v
