(* ===== verification/Prelude.v ===== *)
(** * Ithax: a verification library

    A model of the core of the Ithax client, written after the C++ of
    [src/src/], with the theorems that make its components correct. Paths below
    are relative to [src/src/].

    ** The program

    The client speaks the MachoNet protocol of its server over one connection
    ([network/]): Python values are marshalled to bytes, the bytes of a session
    encrypted, the result framed with a length prefix and sent over a loopback
    socket; a handshake of several messages sets the session up; packets with
    addresses carry calls, answers, notifications and pings. Beside it stands a
    runtime for a multi-threaded engine: a supervisor of jobs with a lifecycle
    ([runtime/], [jobs/], [thread_budget.cpp]), an entity world whose update is
    split over workers ([ecs/]), the threading primitives between the simulation
    and the render thread ([threading/]), and the renderer ([trinityal-vulkan/]):
    its frame graph, which orders the passes of a frame and places its barriers,
    the Vulkan context that owns the device, the swap chain and the frames in
    flight, the buffers, textures, fences, queries, samplers, shaders, vertex layouts
    and resource sets that are made of it, and the render context, through which the
    engine binds them and draws.

    ** The files

    - [Prelude]: integers of fixed width as [Z] with the casts written out, bytes,
      little-endian words, outcomes and exceptions ([res]), stateful code
      ([M S A], a function from a state to an outcome and a state), the weakest
      precondition [wp] of such code, threads, and the shared lemmas and tactics.
    - [StringTable]: [network/marshal/string_table.cpp], the table of well-known
      strings and its two lookups.
    - [Value]: the value trees, opcodes, column types and limits of
      [network/marshal/marshal.h], and the accessors.
    - [ZeroRle]: [Encoder::ZeroCompress] and [Decoder::ZeroDecompress].
    - [Encoder], [Decoder]: the classes of those names of
      [network/marshal/marshal.cpp], one definition per member function.
    - [PackedOrder], [DecoderSafety], [MarshalRoundtrip]: the lemmas behind the
      marshal theorems: the order of a packed row's columns, the invariant of
      the decoder, and the inversion of every encoding.
    - [MarshalSpec]: the theorems about [Encode] and [Decode].
    - [Framing], [SessionCrypto], [Packet], [Dispatcher], [Handshake],
      [Connection], [Client]: the files of those names of [network/], each with
      its theorems; a later file calls the earlier ones as the code does.
    - [ScratchAllocator], [FrameSlot] (with its theorems in [FrameSlotLeases])
      and [FramePacketChannel]: the files of those names of [threading/].
    - [EcsWorld]: [ecs/ecs_world.cpp].
    - [RenderGraph]: [trinityal-vulkan/Tr2RenderGraphALVulkan.cpp], the
      declarations of a frame graph and [Compile], a definition per phase.
      [RenderGraphOrder]: Kahn's loop, the well-formedness of declared graphs,
      and what [schedule] returns. [RenderGraphSpec]: the theorems about
      [Compile].
    - [GraphRecorder]: the operations of a graph frame of
      [trinityal-vulkan/Tr2RenderContextVulkan.cpp], which record a compiled graph
      into a command buffer; [GraphRecorderSpec] follows the layouts of the images
      through the recording of a compiled graph.
    - [ThreadBudget]: [thread_budget.cpp], with the measurements of both systems
      as instances of an interface; [JobRuntime]: [jobs/job_runtime.cpp], over an
      executor.
    - [RuntimeSupervisor]: [runtime/runtime_supervisor.cpp], its critical sections
      and the steps its calls take between them; [RuntimeSupervisorInv], the
      invariant; [RuntimeSupervisorSpec], the theorems.
    - [VulkanFormats]: the conversions between the enumerations of the engine and
      those of Vulkan, at the end of [trinityal-vulkan/Tr2VulkanContext.cpp].
    - [Vulkan]: the interface of the Vulkan calls, the driver that answers them,
      and code that makes them; [VulkanContext]: the class of that name of
      [trinityal-vulkan/Tr2VulkanContext.cpp], a definition per member function.
    - [VulkanUsage]: the rules of Vulkan on fences, semaphores, command buffers and
      swap chains as an automaton over the calls made, the laws of a driver, and a
      program logic for code that calls one; [VulkanDriver]: a concrete driver.
    - [VulkanQuiet], [VulkanFrameInv], [VulkanSwapchain], [VulkanFrames],
      [VulkanSession]: what the operations do to those objects, from the calls that
      leave them alone over one call, the swap chain and one frame to whole
      sessions. [VulkanSpec]: the theorems; [VulkanScenarios]: runs that break the
      rules.
    - [VulkanMemory]: the memory of images and buffers as an automaton over the calls
      made (what is alive, mapped and written, the layouts of images, the copies
      recorded), the laws of an allocator, and the account of who owns what;
      [VulkanQueryRules]: the states of queries likewise. [VulkanObject]: objects
      whose functions are given the context.
    - [VulkanBuffer]: [trinityal-vulkan/Tr2BufferALVulkan.cpp] and
      [Tr2ConstantBufferALVulkan.cpp], with their theorems in [VulkanBufferSpec] and
      [VulkanConstantBufferSpec]. [VulkanQueries]: [Tr2FenceALVulkan.cpp],
      [Tr2OcclusionQueryALVulkan.cpp], [Tr2GpuTimerALVulkan.cpp] and
      [Tr2PipelineStatsQueryALVulkan.cpp]; [VulkanQueriesSpec].
    - [VulkanTexture]: [Tr2TextureALVulkan.cpp]; [VulkanTextureRows], the loops that
      copy rows; [VulkanTextureInv], the invariant and what each function does to it;
      [VulkanTextureSpec], the theorems. [VulkanResourceScenarios]: runs that break
      the rules.
    - [VulkanPipelineRules]: shaders, samplers, layouts, pipelines and descriptor sets
      as an automaton over the calls made. [VulkanPipelines]: [Tr2SamplerStateALVulkan.cpp],
      [Tr2ShaderALVulkan.cpp] and [Tr2ShaderProgramALVulkan.cpp]; [VulkanVertexLayout]:
      [Tr2VertexLayoutALVulkan.cpp], with the pipeline a layout keeps, and
      [Tr2CapsALVulkan.cpp]; [VulkanResourceSet]: [Tr2ResourceSetALVulkan.cpp], with the
      vectors whose elements its writes point to. [VulkanPipelinesSpec],
      [VulkanVertexLayoutSpec], [VulkanResourceSetSpec]: their theorems;
      [VulkanPipelineScenarios]: runs that break the rules.
    - [VulkanRenderRules]: what is recorded into command buffers and the layouts of
      images, as an automaton likewise. [VulkanRenderContext]: the rest of
      [Tr2RenderContextVulkan.cpp]: what is bound, clearing, drawing, the frame and the
      device. [VulkanDrawing]: the invariant of a frame that is recorded, and what each
      part of drawing does to it; [VulkanRenderContextSpec]: the operations of a frame as
      steps, and the theorems; [VulkanRenderScenarios]: runs.
    - [VulkanPresentation]: [Tr2SwapChainALVulkan.cpp], swap chains of other windows, and
      [Tr2VideoAdapterInfoALVulkan.cpp], adapters; [VulkanPresentationSpec], their theorems.

    ** How the code is modelled

    A member function of a class is a definition of the same name in [M] of the
    class's record, in the order of the source: its guards, its early returns,
    its throws with class and message, its assignments. What an exception leaves
    changed stays changed. An operation the language leaves undefined (an index
    out of range, a null dereference) or that calls [std::terminate] is the
    outcome [Undefined]; [OutOfFuel] is the model's own. A theorem that excludes
    both says the code neither goes wrong nor runs for ever.

    Recursion on depth takes fuel. [encode_fuel] is 66: the encoder throws
    below depth 64, so no call tree is deeper, and [Encode_total] states that
    the budget is never used up. The decoder's loops over a stream take the
    stream's length plus one, and each iteration consumes a byte
    ([Decode_total]). Kahn's loop takes the number of passes, and each
    iteration orders another pass ([Compile_accepts]). The loops of [Connection]
    and [Client] take the fuel as an argument, and their theorems say how much
    suffices.

    A value tree is immutable and shared in the source, so a pointer to it is the
    value. Floating-point numbers are their 64-bit patterns: the code stores
    them, compares them with zero and narrows them to single precision, all of
    which are definitions on the patterns. The enumerations of Vulkan are the
    enumerators the code names, and its flag masks lists of them.

    Code outside the repository is a parameter with its documented behaviour as
    hypotheses: the cipher ([Evp], [EvpSpec]), the entity registry ([Registry],
    [RegistrySpec]), and Taskflow's executor ([Executor], [ExecutorLaws]); each
    has a concrete instance, in which the theorems' examples are evaluated.
    Sockets, name resolution, the clock, the console and the measurements of the
    operating system are environments: the outcomes the system calls will have,
    and a record of what was asked of them. The commands recorded for the device
    are a list. The Vulkan driver is a function from the calls made so far and a
    call to its answer ([Driver]), with the laws of [DriverLaws]; code runs on the
    object and the trace of its calls, and the theorems are about that trace: what an
    automaton over it accepts ([usage], [memory_after], [queries_after],
    [objects_after], [commands_after]). What is
    copied to memory that is mapped is a call too, so the automaton has the bytes.
    The formats, dimensions and regions of the engine's bitmaps are a class of
    parameters ([ImageIO], [TextureTypes]), and so are its types of shaders, register
    maps, vertices and viewports ([ShaderTypes], [RegisterMaps], [Tr2VertexDefinition],
    [ContextTypes]) and how a vector grows ([VectorGrowth]). The wrappers of the engine
    are numbers of objects in stores of the render context; an object stays there when
    the last of its wrappers is gone.

    Threads: each member function of [FrameSlotPool] and [FramePacketChannel]
    holds a mutex, so it is one step of the thread that calls it; a wait on a
    condition variable splits it into steps; in [FramePacketChannel] the
    notification after the unlock is a step too. A call of the supervisor takes
    and leaves its mutexes several times: where a thread is in a call is a value
    ([action]), and what it does between two of those points is one step; an access
    outside the mutex races with those of the other threads, and a race is undefined. The
    theorems quantify over every sequence of steps, spurious wakeups included.

    ** What the theorems show

    - Marshalling: encoding and decoding are total, a decoded stream is the
      encoded value (up to the normal form [canon], which names what the format
      does not carry), trailing bytes are rejected exactly when asked, decoded
      values re-encode to the same bytes; the string table's lookups and the
      zero run-length code are inverses.
    - Framing: the frames popped do not depend on how the bytes were chunked,
      and popping inverts framing.
    - Session: two peers that take turns stay in step, and two that cross do not;
      the runs of the handshake's handlers that reach a session are those of one
      regular form, and all others stop at the first event out of place; a login that
      returns put exactly the frames of its messages on the wire and took those of the
      answers it asks for off it.
    - Packets: addresses, packets and calls survive the wire; whatever a peer
      sends, decoding is safe; the dispatcher runs the handler last registered.
    - Connection and client: what one end sends the other receives, byte
      boundaries and encryption included; connecting either starts afresh or
      changes nothing; the retry policy; calls and pings.
    - Threading: an active lease excludes every other lease from its slot and no
      lease of a well-behaved program terminates it; a frame is read as it was
      published; the channel is a queue and loses no wakeup; allocations are
      aligned, inside the block and disjoint.
    - Entities: creation appends, and the parallel update is the sequential one,
      for any number of workers and any order of the journals.
    - Frame graph: whatever is declared the graph stays well-formed; [Compile]
      always returns, accepts exactly the valid acyclic graphs, orders every pass
      after the passes it depends on and otherwise by index, keeps exactly the
      passes that are needed, and separates consecutive uses, by the order of their
      passes and the barrier before the second, when no two neighbours among the
      declarations both only read, and by the barrier alone otherwise; recording a
      compiled graph whose users are in order, and whose images are in the layouts they
      were declared with, succeeds and finds every image in the layout its pass
      expects; the users are in order in every graph declared in the order of its
      passes.
    - Runtime: workers start only where the processors measured have room for
      them; a supervisor that has stopped has waited for every task and lost no
      failure; its lifecycle goes one way; its calls throw exactly when they must, a
      wait only the failure of its own task, and every one of them ends; the one data
      race is between a drain that clears the pending tasks and a look at them.
    - Vulkan context: where waits for the device succeed, images are not suboptimal when
      they are acquired and every queue family presents, and whatever else the driver
      answers, a session of frames makes only calls that Vulkan allows, and destroying
      the context after it leaves nothing alive; the functions of the frame keep the invariant of the frame contexts;
      deferred objects are bounded and destroyed when they are due; the chosen
      extent lies within the surface's; the format tables are inverse.
    - Buffers, textures, fences and queries: updates and uploads write the bytes
      given where they were to be, at once or by a copy that the command buffer
      holds, and touch nothing else; a pointer given is to memory that is mapped; the
      layout a texture says its image is in is the one it is in; from creation to
      destruction, whatever the driver answers, the calls of a buffer or texture use
      memory as the host may and none is left behind (that the device may still copy
      from or to what they destroy is shown beside). If a mapping fails an update reports
      success and writes nothing. The values of a fence grow, and it waits for what was
      submitted; a query is reset, begun and ended in turn.
    - Pipelines: a vertex layout describes its vertices, and answers a pipeline that is
      alive and made as it was asked for; a program has the layouts of its descriptors
      and gives them back; a resource set writes what it was given at every register, as
      long as its vectors have room.
    - Drawing: from the image that a frame acquired ([begun] says what there is then)
      to its end, whatever is done in whatever order of the permitted steps, what is
      recorded keeps the rules of rendering and layouts, and the image is ready to be
      presented when the frame ends, while a copy, a clearing or a change of layout
      inside rendering breaks the rules; a draw that succeeds draws what is bound.
    - Presentation: a swap chain of another window is created, or nothing is left of it;
      adapters are those of the last enumeration.

    Some theorems state a weakness as the code has it: floating-point fields
    that packed rows cannot carry, the depth limit that saved elements pass, the
    frame bound that rejects pipelined frames, the shared IV, the retry loop
    without end, the loopback policy that the peer can evade, a merge that is not
    atomic, a reader that the frame graph orders before its writer, a pass
    culled although its output is loaded, and the runs of [VulkanScenarios]: a
    pointer that dangles where one family draws and another presents, an image acquired
    twice with one semaphore, fences that are waited for and never
    signaled, a buffer destroyed while the device reads it, a swap chain that is
    forgotten; and those of [VulkanResourceScenarios]: an update whose range wraps
    around, one that copies what nothing has written, a second reading that leaks the
    first, a texture copied to itself, buffers and images destroyed while the commands of
    the frame name them, a fence that waits for a refused submission; of
    [VulkanPipelineScenarios]: a pipeline of the program before, a second texture of a
    set whose vector moves, a pool that is full after two sets; and of
    [VulkanRenderScenarios]: a clearing or a copy while rendering, a render target that
    is not rendered to, a pipeline destroyed while it is drawn with, a frame that cannot
    be presented once its image is detached.

    ** What is not modelled

    Of the render context, the functions that only answer a failure, the drawing of
    data of the caller, which a helper of the engine does, and what becomes of a frame
    that is drawn while the swap chain is made anew. Of the Vulkan context, its messages
    and the contents of the reports of a lost device; the members of create infos that
    are constants. Copies of images are recorded, not carried out: what an image holds
    is not followed. The remaining programs of [src/src/] are tests, smoke tests and
    measurements. *)

From stdpp Require Import base numbers list option strings sets.
From Stdlib Require Import Strings.Byte.
From Stdlib Require Strings.String.

#[local] Open Scope Z_scope.

(** ** Tactics *)

(** Case analysis on every integer comparison of the goal. *)
Ltac zcases :=
  repeat match goal with
  | |- context [Z.leb ?a ?b] => destruct (Z.leb_spec a b); simpl
  | |- context [Z.ltb ?a ?b] => destruct (Z.ltb_spec a b); simpl
  | |- context [Z.eqb ?a ?b] => destruct (Z.eqb_spec a b); simpl
  end.

(** ** Fixed-width integers

    A C++ integer is a [Z] kept in the range of its type by the casts below. *)

Definition wrap_u (w z : Z) : Z := z mod 2 ^ w.
Definition wrap_s (w z : Z) : Z := (z + 2 ^ (w - 1)) mod 2 ^ w - 2 ^ (w - 1).

Abbreviation u16 := (wrap_u 16).
Abbreviation u32 := (wrap_u 32).
Abbreviation u64 := (wrap_u 64).
Abbreviation i8 := (wrap_s 8).
Abbreviation i16 := (wrap_s 16).
Abbreviation i32 := (wrap_s 32).
Abbreviation i64 := (wrap_s 64).

Definition in_u (w z : Z) : Prop := 0 <= z < 2 ^ w.
Definition in_s (w z : Z) : Prop := - 2 ^ (w - 1) <= z < 2 ^ (w - 1).

#[export] Instance in_u_dec w z : Decision (in_u w z).
Proof. unfold in_u. apply _. Defined.
#[export] Instance in_s_dec w z : Decision (in_s w z).
Proof. unfold in_s. apply _. Defined.

Lemma wrap_u_small w z : in_u w z -> wrap_u w z = z.
Proof. apply Z.mod_small. Qed.

Lemma wrap_u_range w z : 0 <= w -> in_u w (wrap_u w z).
Proof. intros Hw. apply Z.mod_pos_bound. by apply Z.pow_pos_nonneg. Qed.

Lemma pow2_half w : 0 < w -> 2 ^ w = 2 * 2 ^ (w - 1).
Proof. intros Hw. rewrite <- Z.pow_succ_r by lia. f_equal. lia. Qed.

Lemma wrap_s_small w z : 0 < w -> in_s w z -> wrap_s w z = z.
Proof.
  intros Hw Hz. unfold wrap_s, in_s in *. rewrite Z.mod_small; [lia|].
  rewrite (pow2_half w) by done. lia.
Qed.

Lemma wrap_s_range w z : 0 < w -> in_s w (wrap_s w z).
Proof.
  intros Hw. unfold wrap_s, in_s.
  assert (0 < 2 ^ (w - 1)) by (apply Z.pow_pos_nonneg; lia).
  pose proof (Z.mod_pos_bound (z + 2 ^ (w - 1)) (2 ^ w)).
  rewrite (pow2_half w) in * by done. lia.
Qed.

(** Casting to unsigned and back to signed of the same width is the signed
    cast: what writing and then reading a signed integer do. *)
Lemma wrap_s_wrap_u w z : wrap_s w (wrap_u w z) = wrap_s w z.
Proof. unfold wrap_s, wrap_u. by rewrite Zplus_mod_idemp_l. Qed.

(** ** Bytes

    [std::uint8_t] is [byte]; [u8] reads it as an integer and [to_u8] is
    [static_cast<std::uint8_t>]. *)

#[export] Instance byte_eq_dec : EqDecision byte := Byte.byte_eq_dec.

Definition u8 (b : byte) : Z := Z.of_N (Byte.to_N b).

Definition to_u8 (z : Z) : byte :=
  match Byte.of_N (Z.to_N (z mod 256)) with Some b => b | None => x00 end.

Lemma u8_range b : 0 <= u8 b < 256.
Proof. unfold u8. pose proof (Byte.to_N_bounded b). lia. Qed.

Lemma u8_to_u8 z : u8 (to_u8 z) = z mod 256.
Proof.
  unfold u8, to_u8. pose proof (Z.mod_pos_bound z 256 ltac:(lia)).
  destruct (Byte.of_N _) as [b|] eqn:Hb.
  - apply Byte.to_of_N in Hb. rewrite Hb. lia.
  - apply Byte.of_N_None_iff in Hb. lia.
Qed.

Lemma to_u8_u8 b : to_u8 (u8 b) = b.
Proof.
  unfold to_u8, u8. pose proof (Byte.to_N_bounded b).
  rewrite Z.mod_small, N2Z.id by lia. by rewrite Byte.of_to_N.
Qed.

Lemma u8_inj b1 b2 : u8 b1 = u8 b2 -> b1 = b2.
Proof. intros H. rewrite <- (to_u8_u8 b1), <- (to_u8_u8 b2). by f_equal. Qed.

(** ** Little-endian words

    [le_bytes i n v] is the loop that appends [(v >> (j * 8)) & 0xFF] for
    [j = i .. i + n - 1]; [le_value i bs] is the loop that ors
    [bytes[j] << (j * 8)] into an accumulator. *)

Fixpoint le_bytes (i : Z) (n : nat) (v : Z) : list byte :=
  match n with
  | O => []
  | S n => to_u8 (Z.land (Z.shiftr v (i * 8)) 0xFF) :: le_bytes (i + 1) n v
  end.

Fixpoint le_value (i : Z) (bs : list byte) : Z :=
  match bs with
  | [] => 0
  | b :: bs => Z.lor (Z.shiftl (u8 b) (i * 8)) (le_value (i + 1) bs)
  end.

Lemma length_le_bytes i n v : length (le_bytes i n v) = n.
Proof. revert i. induction n; intros; simpl; [done|]. by rewrite IHn. Qed.

Lemma testbit_u8 b k : 8 <= k -> Z.testbit (u8 b) k = false.
Proof.
  intros Hk. pose proof (u8_range b).
  rewrite <- (Z.mod_small (u8 b) (2 ^ 8)) by lia.
  apply Z.mod_pow2_bits_high. lia.
Qed.

Lemma testbit_byte_of v i k : 0 <= i ->
  Z.testbit (u8 (to_u8 (Z.land (Z.shiftr v (i * 8)) 0xFF))) k =
    ((0 <=? k) && (k <? 8) && Z.testbit v (k + i * 8))%bool.
Proof.
  intros Hi. rewrite u8_to_u8. change 0xFF with (Z.ones 8).
  rewrite Z.land_ones, Z.mod_mod by lia. change (2 ^ 8) with 256.
  destruct (Z.leb_spec 0 k) as [Hk|Hk]; simpl; [|apply Z.testbit_neg_r; lia].
  change 256 with (2 ^ 8). destruct (Z.ltb_spec k 8); simpl.
  - rewrite Z.mod_pow2_bits_low by lia. by rewrite Z.shiftr_spec.
  - apply Z.mod_pow2_bits_high. lia.
Qed.

Lemma testbit_le_value_bytes i n v k : 0 <= i -> 0 <= k ->
  Z.testbit (le_value i (le_bytes i n v)) k =
    ((i * 8 <=? k) && (k <? (i + Z.of_nat n) * 8) && Z.testbit v k)%bool.
Proof.
  revert i. induction n as [|n IH]; intros i Hi Hk; simpl.
  { rewrite Z.bits_0. zcases; done || lia. }
  rewrite Z.lor_spec, Z.shiftl_spec, testbit_byte_of, IH by lia.
  replace (k - i * 8 + i * 8) with k by lia.
  destruct (Z.testbit v k); [|by rewrite !andb_false_r]. rewrite !andb_true_r.
  zcases; done || lia.
Qed.

(** Writing an [n]-byte word and reading it back is reduction modulo its size. *)
Lemma le_value_bytes n v : le_value 0 (le_bytes 0 n v) = v mod 2 ^ (8 * Z.of_nat n).
Proof.
  apply Z.bits_inj'. intros k Hk. rewrite testbit_le_value_bytes by lia.
  zcases; try lia.
  - by rewrite Z.mod_pow2_bits_low by lia.
  - by rewrite Z.mod_pow2_bits_high by lia.
Qed.

Lemma testbit_le_value_high i bs k : 0 <= i ->
  (i + Z.of_nat (length bs)) * 8 <= k -> Z.testbit (le_value i bs) k = false.
Proof.
  revert i. induction bs as [|b bs IH]; intros i Hi Hk; simpl in *; [apply Z.bits_0|].
  rewrite Z.lor_spec, Z.shiftl_spec by lia.
  rewrite testbit_u8 by lia. simpl. apply IH; lia.
Qed.

Lemma le_value_nonneg i bs : 0 <= i -> 0 <= le_value i bs.
Proof.
  revert i. induction bs as [|b bs IH]; intros i Hi; simpl; [lia|].
  apply Z.lor_nonneg. split; [|apply IH; lia].
  apply Z.shiftl_nonneg. pose proof (u8_range b). lia.
Qed.

Lemma le_value_range bs : in_u (8 * Z.of_nat (length bs)) (le_value 0 bs).
Proof.
  pose proof (le_value_nonneg 0 bs ltac:(lia)) as Hn. split; [done|].
  rewrite <- (Z.mod_small (le_value 0 bs) (2 ^ (8 * Z.of_nat (length bs)))) at 1.
  { apply Z.mod_pos_bound, Z.pow_pos_nonneg; lia. }
  split; [done|]. destruct (Z.eq_dec (le_value 0 bs) 0) as [->|Hnz].
  { apply Z.pow_pos_nonneg; lia. }
  apply Z.log2_lt_pow2; [lia|].
  destruct (Z.lt_ge_cases (Z.log2 (le_value 0 bs)) (8 * Z.of_nat (length bs))) as [|Hge]; [done|].
  exfalso. pose proof (Z.bit_log2 (le_value 0 bs) ltac:(lia)) as Hbit.
  rewrite testbit_le_value_high in Hbit by lia. done.
Qed.

Lemma testbit_le_value_low i bs k : 0 <= i -> k < i * 8 -> Z.testbit (le_value i bs) k = false.
Proof.
  revert i. induction bs as [|b bs IH]; intros i Hi Hk; simpl; [apply Z.bits_0|].
  destruct (Z.lt_ge_cases k 0); [by apply Z.testbit_neg_r|].
  rewrite Z.lor_spec, Z.shiftl_spec, IH by lia. by rewrite Z.testbit_neg_r by lia.
Qed.

(** Writing what was read gives the bytes back. *)
Lemma le_bytes_of_bits i v bs :
  0 <= i -> (forall k, i * 8 <= k -> Z.testbit v k = Z.testbit (le_value i bs) k) ->
  le_bytes i (length bs) v = bs.
Proof.
  revert i. induction bs as [|b bs IH]; intros i Hi Hv; [done|]. cbn [length le_bytes].
  f_equal.
  - apply u8_inj, Z.bits_inj'. intros k Hk. rewrite testbit_byte_of by lia.
    destruct (Z.ltb_spec k 8); [|by rewrite testbit_u8, andb_false_r by lia].
    rewrite (proj2 (Z.leb_le _ _)) by lia. cbn [andb]. rewrite Hv by lia. cbn [le_value].
    rewrite Z.lor_spec, Z.shiftl_spec, (testbit_le_value_low (i + 1)), orb_false_r by lia.
    f_equal. lia.
  - apply IH; [lia|]. intros k Hk. rewrite Hv by lia. cbn [le_value].
    rewrite Z.lor_spec, Z.shiftl_spec by lia. by rewrite testbit_u8 by lia.
Qed.

Lemma le_bytes_value bs : le_bytes 0 (length bs) (le_value 0 bs) = bs.
Proof. by apply le_bytes_of_bits. Qed.

(** ** Lists *)

Lemma filter_all {A} (P : A -> Prop) `{!forall x, Decision (P x)} (l : list A) :
  (forall x, x ∈ l -> P x) -> filter P l = l.
Proof.
  induction l as [|x l IH]; intros Hall; [done|]. rewrite filter_cons, decide_True by set_solver.
  rewrite IH by set_solver. done.
Qed.

Lemma filter_none {A} (P : A -> Prop) `{!forall x, Decision (P x)} (l : list A) :
  (forall x, x ∈ l -> ~ P x) -> filter P l = [].
Proof.
  induction l as [|x l IH]; intros Hall; [done|]. rewrite filter_cons, decide_False by set_solver.
  apply IH. set_solver.
Qed.

(** ** Strings

    [std::string] is [string]; the source converts between it and byte vectors
    with iterator ranges. *)

Definition bytes_of_string (s : string) : list byte := String.list_byte_of_string s.
Definition string_of_bytes (bs : list byte) : string := String.string_of_list_byte bs.

Lemma string_of_bytes_of_string s : string_of_bytes (bytes_of_string s) = s.
Proof. apply String.string_of_list_byte_of_string. Qed.

Lemma bytes_of_string_of_bytes bs : bytes_of_string (string_of_bytes bs) = bs.
Proof. apply String.list_byte_of_string_of_list_byte. Qed.

(** [std::string::size]. *)
Definition str_size (s : string) : Z := Z.of_nat (length (bytes_of_string s)).

Definition str_empty (s : string) : bool :=
  match s with String.EmptyString => true | _ => false end.


(** ** Outcomes and exceptions

    The exception classes the components throw, one constructor per class. *)

Inductive exn_class :=
| MarshalTruncatedError | MarshalDepthError | MarshalLimitError
| MarshalFormatError | MarshalStringTableError
| FrameTooLargeError
| PacketFormatError
| DispatcherError | DispatcherUnknownMethodError
| HandshakeProtocolError | HandshakeStateError
| SessionCryptoError
| ConnectionError | ConnectionLoopbackError | ConnectionClosedError
| ConnectionTimeoutError
| ClientError | ClientReconnectError
| FramePacketChannelError
| FrameSlotCapacityError | FrameSlotGenerationError | FrameSlotOwnershipError
| FrameSlotStateError
| ScratchAllocatorCapacityError | ScratchAllocatorAlignmentError
| ScratchAllocatorOverflowError | ScratchAllocatorOwnershipError
| EcsError | EcsOwnershipError
| ThreadBudgetError
| JobRuntimeError | JobExecutionError
| RuntimeSupervisorError
| OtherException.

#[export] Instance exn_class_eq_dec : EqDecision exn_class.
Proof. solve_decision. Defined.

(** An exception object: its class, the text [what()] returns, and the exception
    [std::throw_with_nested] was called in the handler of, if it was. *)
Inductive exn := NestedExn (cls : exn_class) (what : string) (nested : option exn).

Abbreviation Exn cls what := (NestedExn cls what None).

Definition exn_cls (e : exn) : exn_class := let 'NestedExn cls _ _ := e in cls.
Definition exn_what (e : exn) : string := let 'NestedExn _ what _ := e in what.
Definition exn_nested (e : exn) : option exn := let 'NestedExn _ _ nested := e in nested.

(** What running a piece of code can come to: a result, an exception, an
    operation whose behaviour the language leaves undefined (an index out of
    range, a null dereference) or that calls [std::terminate], or the model's recursion budget used up. The
    last two are what the safety and termination theorems exclude. *)
Inductive res (A : Type) :=
| Ok (a : A)
| Throw (e : exn)
| Undefined
| OutOfFuel.
Arguments Ok {A} a.
Arguments Throw {A} e.
Arguments Undefined {A}.
Arguments OutOfFuel {A}.

Definition raise {A} (c : exn_class) (what : string) : res A := Throw (Exn c what).

#[export] Instance res_ret : MRet res := fun A => Ok.
#[export] Instance res_bind : MBind res := fun A B k m =>
  match m with
  | Ok a => k a
  | Throw e => Throw e
  | Undefined => Undefined
  | OutOfFuel => OutOfFuel
  end.

(** [defined r]: the code returned or threw. *)
Definition defined {A} (r : res A) : Prop :=
  match r with Ok _ | Throw _ => True | Undefined | OutOfFuel => False end.

(** [throws_only P r]: the code returned, or threw an exception of class [P]. *)
Definition throws_only {A} (P : exn_class -> bool) (r : res A) : Prop :=
  match r with
  | Ok _ => True
  | Throw e => P (exn_cls e) = true
  | Undefined | OutOfFuel => False
  end.

Lemma throws_only_bind {A B} P (r : res A) (k : A -> res B) :
  throws_only P r -> (forall a, r = Ok a -> throws_only P (k a)) -> throws_only P (r ≫= k).
Proof. destruct r; simpl; auto. Qed.

Lemma throws_only_defined {A} P (r : res A) : throws_only P r -> defined r.
Proof. by destruct r. Qed.

(** [v[index]] on a vector: out of range is undefined. *)
Definition index_at {A} (v : list A) (index : nat) : res A :=
  match v !! index with Some a => Ok a | None => Undefined end.

(** [for (x : v) if (f(x)) return true; return false]. *)
Fixpoint exists_res {A} (f : A -> res bool) (v : list A) : res bool :=
  match v with
  | [] => Ok false
  | x :: v => b ← f x; if b : bool then Ok true else exists_res f v
  end.

Lemma exists_res_pure {A} (f : A -> res bool) g (v : list A) :
  (forall x, x ∈ v -> f x = Ok (g x)) -> exists_res f v = Ok (existsb g v).
Proof.
  induction v as [|x v IH]; intros Hf; [done|]. cbn [exists_res existsb].
  rewrite Hf by set_solver. cbn. destruct (g x); [done|].
  apply IH. intros y Hy. apply Hf. set_solver.
Qed.

Lemma Ok_inj {A} (a b : A) : Ok a = Ok b -> a = b.
Proof. by intros [=]. Qed.

Lemma res_bind_ok {A B} (m : res A) (k : A -> res B) b :
  m ≫= k = Ok b -> exists a, m = Ok a /\ k a = Ok b.
Proof. destruct m; simpl; intros H; try done. eauto. Qed.

(** Splits [m ≫= k = Ok b] hypotheses into their steps. *)
Ltac res_inv :=
  repeat match goal with
  | H : mbind _ ?m = Ok _ |- _ =>
      let a := fresh "a" in let Ha := fresh "Ha" in
      apply res_bind_ok in H as (a & Ha & H)
  | H : mret _ = Ok _ |- _ => injection H as H
  | H : Ok _ = Ok _ |- _ => injection H as H
  | H : raise _ _ = Ok _ |- _ => discriminate H
  | H : Throw _ = Ok _ |- _ => discriminate H
  | H : Undefined = Ok _ |- _ => discriminate H
  | H : OutOfFuel = Ok _ |- _ => discriminate H
  end.

(** ** Stateful code

    A member function is a function from the object it runs on to an outcome
    and the object it leaves, which an exception keeps as it is at the throw. *)

Definition M (S A : Type) : Type := S -> res A * S.

#[export] Instance M_ret {S} : MRet (M S) := fun A a s => (Ok a, s).
#[export] Instance M_bind {S} : MBind (M S) := fun A B k m s =>
  match m s with
  | (Ok a, s') => k a s'
  | (Throw e, s') => (Throw e, s')
  | (Undefined, s') => (Undefined, s')
  | (OutOfFuel, s') => (OutOfFuel, s')
  end.

Definition throw {S A} (c : exn_class) (what : string) : M S A :=
  fun s => (Throw (Exn c what), s).
Definition undefined {S A} : M S A := fun s => (Undefined, s).
(** [std::terminate]: there is no state to continue from. *)
Definition terminate {S A} : M S A := fun s => (Undefined, s).
Definition out_of_fuel {S A} : M S A := fun s => (OutOfFuel, s).
Definition get {S} : M S S := fun s => (Ok s, s).
Definition gets {S A} (f : S -> A) : M S A := fun s => (Ok (f s), s).
Definition modify {S} (f : S -> S) : M S unit := fun s => (Ok tt, f s).
Definition lift {S A} (r : res A) : M S A := fun s => (r, s).

(** Run a member function of a sub-object. *)
Definition on {S T A} (proj : S -> T) (upd : T -> S -> S) (m : M T A) : M S A :=
  fun s => let '(r, t) := m (proj s) in (r, upd t s).

Lemma bind_eq {S A B} (m : M S A) (k : A -> M S B) s a s' :
  m s = (Ok a, s') -> (m ≫= k) s = k a s'.
Proof. unfold mbind, M_bind. by intros ->. Qed.

Lemma bind_Ok {S A B} (m : M S A) (k : A -> M S B) s b s'' :
  (m ≫= k) s = (Ok b, s'') -> exists a s', m s = (Ok a, s') /\ k a s' = (Ok b, s'').
Proof. unfold mbind, M_bind. destruct (m s) as [[a|e| |] s']; try done. eauto. Qed.

(** [wp m Q E s]: run from [s], [m] neither goes wrong nor runs out of fuel;
    if it returns, [Q] holds of the result and the state it leaves, and if it
    throws, [E] holds of the exception and the state at the throw. *)
Definition wp {S A} (m : M S A) (Q : A -> S -> Prop) (E : exn -> S -> Prop) (s : S) : Prop :=
  match m s with
  | (Ok a, s') => Q a s'
  | (Throw e, s') => E e s'
  | (Undefined, _) | (OutOfFuel, _) => False
  end.

Section wp.
Context {S : Type}.
Implicit Types (s : S) (E : exn -> S -> Prop).

Lemma wp_ret {A} (a : A) Q E s : Q a s -> wp (mret a) Q E s.
Proof. done. Qed.

Lemma wp_bind {A B} (m : M S A) (k : A -> M S B) Q E s :
  wp m (fun a => wp (k a) Q E) E s -> wp (m ≫= k) Q E s.
Proof.
  unfold wp, mbind, M_bind. destruct (m s) as [[a|e| |] s']; done.
Qed.

Lemma wp_mono {A} (m : M S A) Q Q' E s :
  wp m Q E s -> (forall a s', Q a s' -> Q' a s') -> wp m Q' E s.
Proof. unfold wp. destruct (m s) as [[a|e| |] s']; naive_solver. Qed.

Lemma wp_throw {A} c what (Q : A -> S -> Prop) E s :
  E (Exn c what) s -> wp (throw c what) Q E s.
Proof. done. Qed.

Lemma wp_get Q E s : Q s s -> wp get Q E s.
Proof. done. Qed.

Lemma wp_gets {A} (f : S -> A) Q E s : Q (f s) s -> wp (gets f) Q E s.
Proof. done. Qed.

Lemma wp_modify (f : S -> S) Q E s : Q tt (f s) -> wp (modify f) Q E s.
Proof. done. Qed.

Lemma wp_lift {A} (r : res A) Q E s :
  defined r -> (forall a, r = Ok a -> Q a s) -> (forall e, r = Throw e -> E e s) ->
  wp (lift r) Q E s.
Proof. unfold wp, lift. destruct r; naive_solver. Qed.

Lemma wp_on {T A} (proj : S -> T) upd (m : M T A) Q E s :
  wp m (fun a t => Q a (upd t s)) (fun e t => E e (upd t s)) (proj s) ->
  wp (on proj upd m) Q E s.
Proof. unfold wp, on. destruct (m (proj s)) as [[a|e| |] t]; done. Qed.
End wp.

(** ** Threads

    [std::thread::id]. The components that several threads call hold a mutex
    for the whole of each operation, so an operation is one step of one thread,
    and the thread is an argument. *)

Definition thread_id : Type := Z.

Create HintDb ithax discriminated.
#[export] Hint Resolve u8_range le_value_nonneg : ithax.

(** One step of symbolic execution of a goal [wp m Q E s]. *)
Ltac wp_step :=
  match goal with
  | |- wp (mbind _ _) _ _ _ => apply wp_bind
  | |- wp (mret _) _ _ _ => apply wp_ret
  | |- wp (throw _ _) _ _ _ => apply wp_throw
  | |- wp get _ _ _ => apply wp_get
  | |- wp (gets _) _ _ _ => apply wp_gets
  | |- wp (modify _) _ _ _ => apply wp_modify
  | |- wp (on _ _ _) _ _ _ => apply wp_on
  | |- wp (match ?x with _ => _ end) _ _ _ => destruct x eqn:?
  end.
