(* ===== verification/StringTable.v ===== *)
(** * The marshal string table

    [src/network/marshal/string_table.{h,cpp}]: the 195 strings the wire
    format replaces by a one-byte index, and the two lookups. The theorems say
    that the lookups are inverse to each other. *)

From stdpp Require Import base numbers list option strings.
From Stdlib Require Import Strings.Byte.
From S2P Require Import Prelude.

#[local] Open Scope Z_scope.

Definition STRING_TABLE_ERROR : Z := 0.
Definition STRING_TABLE_SIZE : Z := 195.

Definition kStringTable : list string :=
  [ "*corpid";
    "*locationid";
    "age";
    "Asteroid";
    "authentication";
    "ballID";
    "beyonce";
    "bloodlineID";
    "capacity";
    "categoryID";
    "character";
    "characterID";
    "characterName";
    "characterType";
    "charID";
    "chatx";
    "clientID";
    "config";
    "contraband";
    "corporationDateTime";
    "corporationID";
    "createDateTime";
    "customInfo";
    "description";
    "divisionID";
    "DoDestinyUpdate";
    "dogmaIM";
    "EVE System";
    "flag";
    "foo.SlimItem";
    "gangID";
    "Gemini";
    "gender";
    "graphicID";
    "groupID";
    "header";
    "idName";
    "invbroker";
    "itemID";
    "items";
    "jumps";
    "line";
    "lines";
    "locationID";
    "locationName";
    "macho.CallReq";
    "macho.CallRsp";
    "macho.MachoAddress";
    "macho.Notification";
    "macho.SessionChangeNotification";
    "modules";
    "name";
    "objectCaching";
    "objectCaching.CachedObject";
    "OnChatJoin";
    "OnChatLeave";
    "OnChatSpeak";
    "OnGodmaShipEffect";
    "OnItemChange";
    "OnModuleAttributeChange";
    "OnMultiEvent";
    "orbitID";
    "ownerID";
    "ownerName";
    "quantity";
    "raceID";
    "RowClass";
    "securityStatus";
    "Sentry Gun";
    "sessionchange";
    "singleton";
    "skillEffect";
    "squadronID";
    "typeID";
    "used";
    "userID";
    "util.CachedObject";
    "util.IndexRowset";
    "util.Moniker";
    "util.Row";
    "util.Rowset";
    "*multicastID";
    "AddBalls";
    "AttackHit3";
    "AttackHit3R";
    "AttackHit4R";
    "DoDestinyUpdates";
    "GetLocationsEx";
    "InvalidateCachedObjects";
    "JoinChannel";
    "LSC";
    "LaunchMissile";
    "LeaveChannel";
    "OID+";
    "OID-";
    "OnAggressionChange";
    "OnCharGangChange";
    "OnCharNoLongerInStation";
    "OnCharNowInStation";
    "OnDamageMessage";
    "OnDamageStateChange";
    "OnEffectHit";
    "OnGangDamageStateChange";
    "OnLSC";
    "OnSpecialFX";
    "OnTarget";
    "RemoveBalls";
    "SendMessage";
    "SetMaxSpeed";
    "SetSpeedFraction";
    "TerminalExplosion";
    "address";
    "alert";
    "allianceID";
    "allianceid";
    "bid";
    "bookmark";
    "bounty";
    "channel";
    "charid";
    "constellationid";
    "corpID";
    "corpid";
    "corprole";
    "damage";
    "duration";
    "effects.Laser";
    "gangid";
    "gangrole";
    "hqID";
    "issued";
    "jit";
    "languageID";
    "locationid";
    "machoVersion";
    "marketProxy";
    "minVolume";
    "orderID";
    "price";
    "range";
    "regionID";
    "regionid";
    "role";
    "rolesAtAll";
    "rolesAtBase";
    "rolesAtHQ";
    "rolesAtOther";
    "shipid";
    "sn";
    "solarSystemID";
    "solarsystemid";
    "solarsystemid2";
    "source";
    "splash";
    "stationID";
    "stationid";
    "target";
    "userType";
    "userid";
    "volEntered";
    "volRemaining";
    "weapon";
    "agent.missionTemplatizedContent_BasicKillMission";
    "agent.missionTemplatizedContent_ResearchKillMission";
    "agent.missionTemplatizedContent_StorylineKillMission";
    "agent.missionTemplatizedContent_GenericStorylineKillMission";
    "agent.missionTemplatizedContent_BasicCourierMission";
    "agent.missionTemplatizedContent_ResearchCourierMission";
    "agent.missionTemplatizedContent_StorylineCourierMission";
    "agent.missionTemplatizedContent_GenericStorylineCourierMission";
    "agent.missionTemplatizedContent_BasicTradeMission";
    "agent.missionTemplatizedContent_ResearchTradeMission";
    "agent.missionTemplatizedContent_StorylineTradeMission";
    "agent.missionTemplatizedContent_GenericStorylineTradeMission";
    "agent.offerTemplatizedContent_BasicExchangeOffer";
    "agent.offerTemplatizedContent_BasicExchangeOffer_ContrabandDemand";
    "agent.offerTemplatizedContent_BasicExchangeOffer_Crafting";
    "agent.LoyaltyPoints";
    "agent.ResearchPoints";
    "agent.Credits";
    "agent.Item";
    "agent.Entity";
    "agent.Objective";
    "agent.FetchObjective";
    "agent.EncounterObjective";
    "agent.DungeonObjective";
    "agent.TransportObjective";
    "agent.Reward";
    "agent.TimeBonusReward";
    "agent.MissionReferral";
    "agent.Location";
    "agent.StandardMissionDetails";
    "agent.OfferDetails";
    "agent.ResearchMissionDetails";
    "agent.StorylineMissionDetails" ]%string.

(** [hash = ((hash << 5) + hash) + c], in 32 bits. *)
Fixpoint djb2_loop (hash : Z) (text : list byte) : Z :=
  match text with
  | [] => hash
  | c :: text => djb2_loop (u32 (u32 (u32 (Z.shiftl hash 5) + hash) + u8 c)) text
  end.

Definition Djb2Hash (text : string) : Z := djb2_loop 5381 (bytes_of_string text).

(** The scan of [LookupStringIndex] from position [i] on. *)
Fixpoint lookup_index_loop (target : Z) (text : string) (i : Z) (table : list string)
    : option byte :=
  match table with
  | [] => None
  | entry :: table =>
      if bool_decide (Djb2Hash entry = target) && bool_decide (text = entry)
      then Some (to_u8 (i + 1))
      else lookup_index_loop target text (i + 1) table
  end.

Definition LookupStringIndex (text : string) : option byte :=
  lookup_index_loop (Djb2Hash text) text 0 kStringTable.

Definition LookupString (index : byte) : option string :=
  if (u8 index =? STRING_TABLE_ERROR) || (STRING_TABLE_SIZE <? u8 index)
  then None
  else kStringTable !! Z.to_nat (u8 index - 1).

(** ** The lookups are inverse *)

Lemma length_kStringTable : Z.of_nat (length kStringTable) = STRING_TABLE_SIZE.
Proof. vm_compute. reflexivity. Qed.

Lemma NoDup_kStringTable : NoDup kStringTable.
Proof. apply (bool_decide_unpack _). vm_compute. exact I. Qed.

#[local] Opaque kStringTable Djb2Hash.

Lemma lookup_index_loop_Some text i table b :
  lookup_index_loop (Djb2Hash text) text i table = Some b ->
  exists j, table !! j = Some text /\ b = to_u8 (i + Z.of_nat j + 1).
Proof.
  revert i. induction table as [|entry table IH]; intros i; simpl; [done|].
  destruct (bool_decide _ && bool_decide _) eqn:Hc.
  - intros [= <-]. apply andb_true_iff in Hc as [_ Hc%bool_decide_eq_true].
    subst. exists 0%nat. split; [done|]. f_equal. lia.
  - intros (j & Hj & ->)%IH. exists (S j). split; [done|]. f_equal. lia.
Qed.

(** The scan stops at the first occurrence, which in a table without
    duplicates is the only one. *)
Lemma lookup_index_loop_lookup text i table j :
  NoDup table -> table !! j = Some text ->
  lookup_index_loop (Djb2Hash text) text i table = Some (to_u8 (i + Z.of_nat j + 1)).
Proof.
  revert i j. induction table as [|entry table IH]; intros i j Hnd Hj; [done|].
  apply NoDup_cons in Hnd as [Hni Hnd]. simpl. destruct j as [|j]; simpl in Hj.
  - injection Hj as ->. rewrite !bool_decide_true by done. simpl. do 2 f_equal. lia.
  - rewrite (bool_decide_false (text = entry)), andb_false_r.
    2:{ intros ->. apply Hni. by eapply list_elem_of_lookup_2. }
    rewrite (IH _ _ Hnd Hj). do 2 f_equal. lia.
Qed.

Lemma u8_of_index (j : nat) :
  (j < length kStringTable)%nat -> u8 (to_u8 (0 + Z.of_nat j + 1)) = Z.of_nat j + 1.
Proof.
  intros Hj. pose proof length_kStringTable as Hlen. unfold STRING_TABLE_SIZE in Hlen.
  rewrite u8_to_u8, Z.mod_small; lia.
Qed.

Lemma LookupString_of_index text b :
  LookupStringIndex text = Some b -> LookupString b = Some text.
Proof.
  unfold LookupStringIndex, LookupString. intros (j & Hj & ->)%lookup_index_loop_Some.
  pose proof (lookup_lt_Some _ _ _ Hj) as Hlt. rewrite u8_of_index by done.
  pose proof length_kStringTable as Hlen. unfold STRING_TABLE_ERROR.
  destruct (Z.eqb_spec (Z.of_nat j + 1) 0), (Z.ltb_spec STRING_TABLE_SIZE (Z.of_nat j + 1));
    simpl; try lia.
  by replace (Z.to_nat (Z.of_nat j + 1 - 1)) with j by lia.
Qed.

(** The two string-table lookups are inverse: a string has index [b]
    exactly when [b] names that string, so a string sent as a table index is
    read back unchanged and no two strings share an index. *)
Theorem LookupStringIndex_inverse (text : string) (b : byte) :
  LookupStringIndex text = Some b <-> LookupString b = Some text.
Proof.
  split; [apply LookupString_of_index|]. unfold LookupStringIndex, LookupString.
  unfold STRING_TABLE_ERROR. destruct (Z.eqb_spec (u8 b) 0); simpl; [done|].
  destruct (Z.ltb_spec STRING_TABLE_SIZE (u8 b)); [done|]. intros Hj.
  rewrite (lookup_index_loop_lookup _ _ _ _ NoDup_kStringTable Hj). f_equal.
  pose proof (u8_range b). rewrite <- (to_u8_u8 b) at 2. f_equal. lia.
Qed.
