(* ===== verification/Value.v ===== *)
(** * Marshal values

    [src/network/marshal/marshal.h] and the [Value] part of [marshal.cpp]: the
    limits, the opcodes, the column types and the immutable value trees with
    their factories ([None], [Bool], ...: here the constructors) and their
    checked accessors. A [ValuePtr] inside a value is never null (every
    factory and the decoder store live values), so it is the value itself. *)

From stdpp Require Import base numbers list option strings.
From Stdlib Require Import Strings.Byte.
From S2P Require Import Prelude.

#[local] Open Scope Z_scope.

(** ** Limits *)

Definition MARSHAL_HEADER_BYTE : Z := 0x7E.
Definition OPCODE_MASK : Z := 0x3F.
Definition SAVE_MASK : Z := 0x40.
Definition UNKNOWN_MASK : Z := 0x80.
Definition MAX_MARSHAL_DEPTH : Z := 64.
Definition MAX_CONTAINER_COUNT : Z := 65536.
Definition MAX_STRING_BYTES : Z := 1 * 1024 * 1024.
Definition MAX_STREAM_BYTES : Z := 1 * 1024 * 1024.
Definition MAX_SAVED_OBJECTS : Z := 65536.

(** ** Opcodes *)

Inductive Opcode :=
| PyNone | PyToken | PyLongLong | PyLong | PySignedShort | PyByte
| PyMinusOne | PyZeroInteger | PyOneInteger | PyReal | PyZeroReal | PyBuffer
| PyEmptyString | PyCharString | PyShortString | PyStringTableItem
| PyWStringUCS2 | PyLongString | PyTuple | PyList | PyDict | PyObject
| PySubStruct | PySavedStreamElement | PyChecksumedStream | PyTrue | PyFalse
| cPicked | PyObjectEx1 | PyObjectEx2 | PyEmptyTuple | PyOneTuple
| PyEmptyList | PyOneList | PyEmptyWString | PyWStringUCS2Char | PyPackedRow
| PySubStream | PyTwoTuple | PackedTerminator | PyWStringUTF8 | PyVarInteger.

#[export] Instance Opcode_eq_dec : EqDecision Opcode.
Proof. solve_decision. Defined.

(** The enumerators' values. *)
Definition opcode_value (op : Opcode) : Z :=
  match op with
  | PyNone => 0x01 | PyToken => 0x02 | PyLongLong => 0x03 | PyLong => 0x04
  | PySignedShort => 0x05 | PyByte => 0x06 | PyMinusOne => 0x07
  | PyZeroInteger => 0x08 | PyOneInteger => 0x09 | PyReal => 0x0A
  | PyZeroReal => 0x0B | PyBuffer => 0x0D | PyEmptyString => 0x0E
  | PyCharString => 0x0F | PyShortString => 0x10 | PyStringTableItem => 0x11
  | PyWStringUCS2 => 0x12 | PyLongString => 0x13 | PyTuple => 0x14
  | PyList => 0x15 | PyDict => 0x16 | PyObject => 0x17 | PySubStruct => 0x19
  | PySavedStreamElement => 0x1B | PyChecksumedStream => 0x1C | PyTrue => 0x1F
  | PyFalse => 0x20 | cPicked => 0x21 | PyObjectEx1 => 0x22
  | PyObjectEx2 => 0x23 | PyEmptyTuple => 0x24 | PyOneTuple => 0x25
  | PyEmptyList => 0x26 | PyOneList => 0x27 | PyEmptyWString => 0x28
  | PyWStringUCS2Char => 0x29 | PyPackedRow => 0x2A | PySubStream => 0x2B
  | PyTwoTuple => 0x2C | PackedTerminator => 0x2D | PyWStringUTF8 => 0x2E
  | PyVarInteger => 0x2F
  end.

Definition all_opcodes : list Opcode :=
  [ PyNone; PyToken; PyLongLong; PyLong; PySignedShort; PyByte; PyMinusOne;
    PyZeroInteger; PyOneInteger; PyReal; PyZeroReal; PyBuffer; PyEmptyString;
    PyCharString; PyShortString; PyStringTableItem; PyWStringUCS2;
    PyLongString; PyTuple; PyList; PyDict; PyObject; PySubStruct;
    PySavedStreamElement; PyChecksumedStream; PyTrue; PyFalse; cPicked;
    PyObjectEx1; PyObjectEx2; PyEmptyTuple; PyOneTuple; PyEmptyList; PyOneList;
    PyEmptyWString; PyWStringUCS2Char; PyPackedRow; PySubStream; PyTwoTuple;
    PackedTerminator; PyWStringUTF8; PyVarInteger ].

(** The enumerator a switch on [static_cast<Opcode>(z)] selects, if any. *)
Definition opcode_of (z : Z) : option Opcode :=
  List.find (fun op => opcode_value op =? z) all_opcodes.

Lemma opcode_of_value op : opcode_of (opcode_value op) = Some op.
Proof. by destruct op. Qed.

(** The byte [static_cast<std::uint8_t>(op)] of an enumerator. *)
Definition op_byte (op : Opcode) : byte := to_u8 (opcode_value op).

(** An opcode byte carries neither the save flag nor the unknown flag. *)
Lemma op_byte_flags op :
  Z.land (u8 (op_byte op)) SAVE_MASK = 0 /\
  Z.land (u8 (op_byte op)) UNKNOWN_MASK = 0 /\
  Z.land (u8 (op_byte op)) OPCODE_MASK = opcode_value op.
Proof. by destruct op. Qed.

(** ** Column types

    [DbType] is an enumeration over [std::uint8_t] into which the decoder
    casts any byte: it is the byte, and the enumerators are constants. *)

Definition DbType : Type := byte.

Module Db.
Definition Empty : DbType := x00.
Definition I2 : DbType := x02.
Definition I4 : DbType := x03.
Definition R4 : DbType := x04.
Definition R8 : DbType := x05.
Definition Cy : DbType := x06.
Definition Error : DbType := x0a.
Definition Bool : DbType := x0b.
Definition I1 : DbType := x10.
Definition Ui1 : DbType := x11.
Definition Ui2 : DbType := x12.
Definition Ui4 : DbType := x13.
Definition I8 : DbType := x14.
Definition Ui8 : DbType := x15.
Definition FileTime : DbType := x40.
Definition Bytes : DbType := x80.
Definition Str : DbType := x81.
Definition WStr : DbType := x82.
End Db.

(** [switch] on a column type: is it one of these [case] labels? *)
Definition is_case (t : DbType) (labels : list DbType) : bool :=
  existsb (Byte.eqb t) labels.

(** [DbTypeSizeBits] and its implementation [DbTypeSizeBitsImpl]. *)
Definition DbTypeSizeBits (type : DbType) : Z :=
  if is_case type [Db.Cy; Db.I8; Db.Ui8; Db.FileTime; Db.R8] then 64
  else if is_case type [Db.I4; Db.Ui4; Db.R4] then 32
  else if is_case type [Db.I2; Db.Ui2] then 16
  else if is_case type [Db.I1; Db.Ui1] then 8
  else if is_case type [Db.Bool] then 1
  else 0.

(** ** Values *)

Record PackedColumn := mkColumn { col_name : string; col_type : DbType }.

(** A [double] is its 64-bit pattern: the source only copies it, compares it
    with [0.0] and narrows or widens it (see [Packed]). *)
Inductive Value :=
| VNone
| VBool (value : bool)
| VInt (value : Z)
| VReal (bits : Z)
| VString (value : string)
| VWString (value : string)
| VToken (value : string)
| VBuffer (value : list byte)
| VTuple (items : list Value)
| VList (items : list Value)
| VDict (entries : list (Value * Value))
| VObject (type : string) (args : Value)
| VObjectEx (is_type2 : bool) (header : Value) (items : list Value)
    (entries : list (Value * Value))
| VSubStruct (value : Value)
| VSubStream (data : list byte)
| VChecksumedStream (checksum : Z) (value : Value)
| VPackedRow (columns : list PackedColumn) (values : list Value)
| VCPicked (data : list byte).

Inductive ValueKind :=
| KNone | KBool | KInt | KReal | KString | KWString | KToken | KBuffer
| KTuple | KList | KDict | KObject | KObjectEx | KSubStruct | KSubStream
| KChecksumedStream | KPackedRow | KCPicked.

#[export] Instance ValueKind_eq_dec : EqDecision ValueKind.
Proof. solve_decision. Defined.

Definition Kind (v : Value) : ValueKind :=
  match v with
  | VNone => KNone | VBool _ => KBool | VInt _ => KInt | VReal _ => KReal
  | VString _ => KString | VWString _ => KWString | VToken _ => KToken
  | VBuffer _ => KBuffer | VTuple _ => KTuple | VList _ => KList
  | VDict _ => KDict | VObject _ _ => KObject | VObjectEx _ _ _ _ => KObjectEx
  | VSubStruct _ => KSubStruct | VSubStream _ => KSubStream
  | VChecksumedStream _ _ => KChecksumedStream
  | VPackedRow _ _ => KPackedRow | VCPicked _ => KCPicked
  end.

Definition is_kind (k : ValueKind) (v : Value) : bool := bool_decide (Kind v = k).

Abbreviation IsNone := (is_kind KNone).
Abbreviation IsInt := (is_kind KInt).
Abbreviation IsString := (is_kind KString).
Abbreviation IsToken := (is_kind KToken).
Abbreviation IsTuple := (is_kind KTuple).
Abbreviation IsDict := (is_kind KDict).
Abbreviation IsObject := (is_kind KObject).
Abbreviation IsObjectEx := (is_kind KObjectEx).
Abbreviation IsSubStream := (is_kind KSubStream).

(** ** Checked accessors *)

Definition BoolValue (v : Value) : res bool :=
  match v with VBool b => Ok b | _ => raise MarshalFormatError "value is not a bool" end.
Definition IntValue (v : Value) : res Z :=
  match v with VInt z => Ok z | _ => raise MarshalFormatError "value is not an int" end.
Definition RealValue (v : Value) : res Z :=
  match v with VReal r => Ok r | _ => raise MarshalFormatError "value is not a real" end.
Definition StringValue (v : Value) : res string :=
  match v with VString s => Ok s | _ => raise MarshalFormatError "value is not a string" end.
Definition WStringValue (v : Value) : res string :=
  match v with
  | VWString s => Ok s
  | _ => raise MarshalFormatError "value is not a wide string"
  end.
Definition TokenValue (v : Value) : res string :=
  match v with VToken s => Ok s | _ => raise MarshalFormatError "value is not a token" end.
Definition BufferValue (v : Value) : res (list byte) :=
  match v with VBuffer d => Ok d | _ => raise MarshalFormatError "value is not a buffer" end.
Definition TupleValue (v : Value) : res (list Value) :=
  match v with VTuple l => Ok l | _ => raise MarshalFormatError "value is not a tuple" end.
Definition ListValue (v : Value) : res (list Value) :=
  match v with VList l => Ok l | _ => raise MarshalFormatError "value is not a list" end.
Definition DictValue (v : Value) : res (list (Value * Value)) :=
  match v with VDict d => Ok d | _ => raise MarshalFormatError "value is not a dict" end.
Definition ObjectType (v : Value) : res string :=
  match v with
  | VObject t _ => Ok t
  | _ => raise MarshalFormatError "value is not an object"
  end.
Definition ObjectArgs (v : Value) : res Value :=
  match v with
  | VObject _ a => Ok a
  | _ => raise MarshalFormatError "value is not an object"
  end.
Definition ObjectExValue (v : Value) : res (Value * list Value * list (Value * Value)) :=
  match v with
  | VObjectEx _ h l d => Ok (h, l, d)
  | _ => raise MarshalFormatError "value is not an object ex"
  end.
Definition SubStructValue (v : Value) : res Value :=
  match v with
  | VSubStruct w => Ok w
  | _ => raise MarshalFormatError "value is not a sub struct"
  end.
Definition SubStreamData (v : Value) : res (list byte) :=
  match v with
  | VSubStream d => Ok d
  | _ => raise MarshalFormatError "value is not a sub stream"
  end.
Definition PackedRowValue (v : Value) : res (list PackedColumn * list Value) :=
  match v with
  | VPackedRow c vs => Ok (c, vs)
  | _ => raise MarshalFormatError "value is not a packed row"
  end.
Definition Checksum (v : Value) : res Z :=
  match v with
  | VChecksumedStream c _ => Ok c
  | _ => raise MarshalFormatError "value is not a checksumed stream"
  end.
Definition ChecksumedValue (v : Value) : res Value :=
  match v with
  | VChecksumedStream _ w => Ok w
  | _ => raise MarshalFormatError "value is not a checksumed stream"
  end.
Definition CPickedData (v : Value) : res (list byte) :=
  match v with
  | VCPicked d => Ok d
  | _ => raise MarshalFormatError "value is not a picked value"
  end.

(** ** The type invariant of values

    The integers of a value fit the members they are stored in. *)
Fixpoint value_ok (v : Value) : Prop :=
  match v with
  | VNone | VBool _ | VString _ | VWString _ | VToken _ | VBuffer _
  | VSubStream _ | VCPicked _ => True
  | VInt z => in_s 64 z
  | VReal bits => in_u 64 bits
  | VTuple items | VList items => foldr (fun v P => value_ok v /\ P) True items
  | VDict entries =>
      foldr (fun e P => (value_ok e.1 /\ value_ok e.2) /\ P) True entries
  | VObject _ args => value_ok args
  | VObjectEx _ header items entries =>
      value_ok header /\ foldr (fun v P => value_ok v /\ P) True items /\
      foldr (fun e P => (value_ok e.1 /\ value_ok e.2) /\ P) True entries
  | VSubStruct w => value_ok w
  | VChecksumedStream c w => in_u 32 c /\ value_ok w
  | VPackedRow _ values => foldr (fun v P => value_ok v /\ P) True values
  end.

Definition entry_ok (e : Value * Value) : Prop := value_ok e.1 /\ value_ok e.2.

Lemma foldr_Forall {A} (P : A -> Prop) l :
  foldr (fun x Q => P x /\ Q) True l <-> Forall P l.
Proof. induction l as [|x l IH]; simpl; [by rewrite Forall_nil|by rewrite Forall_cons, IH]. Qed.

Lemma value_ok_tuple items : value_ok (VTuple items) <-> Forall value_ok items.
Proof. apply (foldr_Forall value_ok). Qed.
Lemma value_ok_list items : value_ok (VList items) <-> Forall value_ok items.
Proof. apply (foldr_Forall value_ok). Qed.
Lemma value_ok_dict entries : value_ok (VDict entries) <-> Forall entry_ok entries.
Proof. apply (foldr_Forall entry_ok). Qed.
Lemma value_ok_objectex b h items entries :
  value_ok (VObjectEx b h items entries) <->
  value_ok h /\ Forall value_ok items /\ Forall entry_ok entries.
Proof. simpl. by rewrite (foldr_Forall value_ok), (foldr_Forall entry_ok). Qed.
Lemma value_ok_packedrow cols values :
  value_ok (VPackedRow cols values) <-> Forall value_ok values.
Proof. apply (foldr_Forall value_ok). Qed.
