(* ===== verification/ZeroRle.v ===== *)
(** * Packed-row zero compression

    [Encoder::ZeroCompress] and the run loop of [Decoder::ZeroDecompress]
    ([src/network/marshal/marshal.cpp]). A control byte holds two nibbles,
    each a run: below 8, [8 - n] literal bytes follow; from 8 on, [n - 7] zero
    bytes are meant. The theorem says that decompressing a compressed input of
    the expected length gives the input back. *)

From stdpp Require Import base numbers list option strings.
From Stdlib Require Import Strings.Byte.
From S2P Require Import Prelude.

#[local] Open Scope Z_scope.

(** ** Compression *)

(** The run loop: how many further bytes of [input] satisfy the run's test,
    [run < 8] being its other condition. *)
Fixpoint run_length (in_run : byte -> bool) (run : nat) (input : list byte) : nat :=
  match input with
  | b :: input => if (run <? 8)%nat && in_run b then run_length in_run (S run) input else run
  | [] => run
  end.

(** The [for] over the two nibbles: [input] is what is left to compress,
    [control] the control byte so far, [lits] the literals appended after it. *)
Fixpoint compress_nibbles (nibbles : list Z) (control : Z) (lits input : list byte)
    : Z * list byte * list byte :=
  match nibbles, input with
  | nibble :: nibbles, b :: rest =>
      if u8 b =? 0 then
        let run := run_length (fun c => u8 c =? 0) 1 rest in
        let encoded := Z.of_nat run + 7 in
        compress_nibbles nibbles (Z.lor control (Z.shiftl encoded (nibble * 4)))
          lits (drop run input)
      else
        let run := run_length (fun c => negb (u8 c =? 0)) 1 rest in
        let encoded := 8 - Z.of_nat run in
        compress_nibbles nibbles (Z.lor control (Z.shiftl encoded (nibble * 4)))
          (lits ++ take run input) (drop run input)
  | _, _ => (control, lits, input)
  end.

(** The outer [while (i < input.size())]. *)
Fixpoint compress_loop (fuel : nat) (input : list byte) : res (list byte) :=
  match input with
  | [] => Ok []
  | _ =>
      match fuel with
      | O => OutOfFuel
      | S fuel =>
          let '(control, lits, input) := compress_nibbles [0; 1] 0 [] input in
          out ← compress_loop fuel input;
          Ok (to_u8 control :: lits ++ out)
      end
  end.

Definition ZeroCompress (packed bit_data : list byte) : res (list byte) :=
  let input := packed ++ bit_data in
  compress_loop (length input) input.

(** ** Decompression *)

Fixpoint decompress_nibbles (nibbles : list Z) (control : Z) (expected : nat)
    (rle out : list byte) : res (list byte * list byte) :=
  match nibbles with
  | [] => Ok (rle, out)
  | nibble :: nibbles =>
      if (expected <=? length out)%nat then Ok (rle, out)
      else
        let encoded := Z.land (Z.shiftr control (nibble * 4)) 0x0F in
        if encoded <? 8 then
          let run := Z.to_nat (8 - encoded) in
          if (length rle <? run)%nat
          then raise MarshalTruncatedError "packed row RLE is truncated"
          else decompress_nibbles nibbles control expected (drop run rle) (out ++ take run rle)
        else
          let run := Z.to_nat (encoded - 7) in
          decompress_nibbles nibbles control expected rle (out ++ replicate run x00)
  end.

(** [while (i < rle.size() && out.size() < expected)]. *)
Fixpoint decompress_loop (fuel : nat) (expected : nat) (rle out : list byte)
    : res (list byte) :=
  match rle with
  | [] => Ok out
  | control :: rle =>
      if (expected <=? length out)%nat then Ok out
      else
        match fuel with
        | O => OutOfFuel
        | S fuel =>
            '(rle, out) ← decompress_nibbles [0; 1] (u8 control) expected rle out;
            decompress_loop fuel expected rle out
        end
  end.

(** [ZeroDecompress] from [expected] on. *)
Definition ZeroDecompressTo (expected : nat) (rle : list byte) : res (list byte) :=
  out ← decompress_loop (length rle) expected rle [];
  if (length out <? expected)%nat
  then raise MarshalTruncatedError "packed row data is truncated"
  else Ok out.

Example compress_example :
  ZeroCompress [x01; x00; x00; x00; x05] [x00; x00] = Ok [xa7; x01; x97; x05].
Proof. reflexivity. Qed.
Example decompress_example :
  ZeroDecompressTo 7 [xa7; x01; x97; x05] = Ok [x01; x00; x00; x00; x05; x00; x00].
Proof. reflexivity. Qed.

(** ** Compression terminates within its input's length *)

Lemma run_length_bounds p run input :
  (1 <= run <= 8)%nat ->
  (run <= run_length p run input <= 8)%nat /\
  (run_length p run input - run <= length input)%nat.
Proof.
  revert run. induction input as [|b input IH]; intros run Hr; simpl; [lia|].
  destruct (Nat.ltb_spec run 8); simpl; [|lia].
  destruct (p b); simpl; [|lia]. specialize (IH (S run)). lia.
Qed.

(** Every byte counted in a run passes the run's test. *)
Lemma run_length_take p run input :
  Forall (fun b => p b = true) (take (run_length p run input - run) input).
Proof.
  revert run. induction input as [|b input IH]; intros run; simpl.
  { by rewrite Nat.sub_diag. }
  destruct (Nat.ltb_spec run 8); simpl; [|by rewrite Nat.sub_diag].
  destruct (p b) eqn:Hp; simpl; [|by rewrite Nat.sub_diag].
  destruct (Nat.lt_ge_cases run (run_length p (S run) input)) as [Hlt|].
  - replace (run_length p (S run) input - run)%nat
      with (S (run_length p (S run) input - S run))%nat by lia.
    simpl. constructor; [done|apply IH].
  - replace (run_length p (S run) input - run)%nat with 0%nat by lia. constructor.
Qed.

(** The first bytes of [input], the ones a run starting at [b] covers. *)
Lemma run_prefix p b input :
  let run := run_length p 1 input in
  (1 <= run <= 8)%nat /\ (run <= length (b :: input))%nat /\
  (p b = true -> Forall (fun c => p c = true) (take run (b :: input))).
Proof.
  pose proof (run_length_bounds p 1 input ltac:(lia)) as [Hb Hl].
  pose proof (run_length_take p 1 input) as Ht. simpl in *.
  split_and!; [lia|lia|lia|]. intros Hp.
  destruct (run_length p 1 input) as [|run]; [lia|]. simpl in *.
  rewrite Nat.sub_0_r in Ht. by constructor.
Qed.

Lemma zero_bytes_replicate (bs : list byte) :
  Forall (fun b => (u8 b =? 0) = true) bs -> bs = replicate (length bs) x00.
Proof.
  induction 1 as [|b bs Hb _ IH]; [done|]. simpl. f_equal; [|done].
  apply u8_inj. apply Z.eqb_eq in Hb. by rewrite Hb.
Qed.

(** The low and the high nibble of a control byte. *)
Lemma nibble_split lo hi :
  0 <= lo < 16 -> 0 <= hi < 16 ->
  let c := Z.lor lo (Z.shiftl hi 4) in
  0 <= c < 256 /\ Z.land c 15 = lo /\ Z.land (Z.shiftr c 4) 15 = hi.
Proof.
  intros Hlo Hhi. cbv zeta.
  assert (Hc : Z.lor lo (Z.shiftl hi 4) = lo + hi * 16).
  { rewrite Z.shiftl_mul_pow2 by lia. change (2 ^ 4) with 16.
    rewrite <- Z.lxor_lor; [symmetry; apply Z.add_nocarry_lxor|]; apply Z.bits_inj';
      intros k Hk; rewrite Z.land_spec, Z.bits_0;
      change 16 with (2 ^ 4); destruct (Z.lt_ge_cases k 4) as [H4|H4];
      rewrite ?(Z.mul_pow2_bits_low hi 4 k) by lia; rewrite ?andb_false_r; try done;
      rewrite <- (Z.mod_small lo (2 ^ 4)) by lia; by rewrite Z.mod_pow2_bits_high by lia. }
  rewrite Hc. change 15 with (Z.ones 4). rewrite !Z.land_ones, Z.shiftr_div_pow2 by lia.
  change (2 ^ 4) with 16.
  rewrite Z.div_add, Z.div_small by lia. rewrite Z.add_0_l.
  rewrite Z_mod_plus_full, !Z.mod_small by lia. lia.
Qed.

(** ** One run *)

(** [encoded] with literals [lits] stands for the first [run] bytes of [input]. *)
Definition encodes_run (input : list byte) (run : nat) (encoded : Z) (lits : list byte) : Prop :=
  (1 <= run <= length input)%nat /\ 0 <= encoded < 16 /\
  ((encoded < 8 /\ run = Z.to_nat (8 - encoded) /\ lits = take run input) \/
   (8 <= encoded /\ run = Z.to_nat (encoded - 7) /\ lits = [] /\
    take run input = replicate run x00)).

Lemma compress_nibble_run nibble nibbles control lits input :
  input <> [] ->
  exists run encoded ls,
    encodes_run input run encoded ls /\
    compress_nibbles (nibble :: nibbles) control lits input =
      compress_nibbles nibbles (Z.lor control (Z.shiftl encoded (nibble * 4)))
        (lits ++ ls) (drop run input).
Proof.
  destruct input as [|b rest]; [done|]. intros _. cbn [compress_nibbles].
  destruct (u8 b =? 0) eqn:Hb.
  - destruct (run_prefix (fun c => u8 c =? 0) b rest) as (Hr & Hl & Hz).
    eexists _, _, []. split; [|by rewrite app_nil_r].
    split; [lia|]. split; [lia|]. right. split_and!; [lia|lia|done|].
    rewrite (zero_bytes_replicate _ (Hz Hb)), length_take. f_equal. lia.
  - destruct (run_prefix (fun c => negb (u8 c =? 0)) b rest) as (Hr & Hl & _).
    eexists _, _, _. split; [|done]. split; [lia|]. split; [lia|]. left.
    split_and!; [lia|lia|done].
Qed.

Lemma decompress_nibble_run nibble nibbles control expected input run encoded lits tail out :
  encodes_run input run encoded lits ->
  Z.land (Z.shiftr control (nibble * 4)) 15 = encoded ->
  (length out < expected)%nat ->
  decompress_nibbles (nibble :: nibbles) control expected (lits ++ tail) out =
    decompress_nibbles nibbles control expected tail (out ++ take run input).
Proof.
  intros (Hrun & Henc & Hcase) Hnib Hout. cbn [decompress_nibbles].
  destruct (Nat.leb_spec expected (length out)); [lia|]. rewrite Hnib.
  destruct Hcase as [(Hlt & -> & ->)|(Hge & -> & -> & Hz)].
  - rewrite (proj2 (Z.ltb_lt _ _) Hlt). rewrite length_app, length_take.
    match goal with |- context [(?a <? ?b)%nat] => destruct (Nat.ltb_spec a b) end; [lia|].
    by rewrite take_app_length', drop_app_length' by (rewrite length_take; lia).
  - rewrite (proj2 (Z.ltb_ge _ _) Hge). by rewrite Hz.
Qed.

(** One control byte: its nibbles cover a non-empty prefix of [input], and
    expanding it from that prefix's output onwards yields that prefix. *)
Lemma control_byte_roundtrip input :
  input <> [] ->
  exists n control lits,
    (1 <= n <= length input)%nat /\
    compress_nibbles [0; 1] 0 [] input = (control, lits, drop n input) /\
    forall tail out,
      decompress_nibbles [0; 1] (u8 (to_u8 control)) (length out + length input)
        (lits ++ tail) out = Ok (tail, out ++ take n input).
Proof.
  intros Hne.
  destruct (compress_nibble_run 0 [1] 0 [] input Hne) as (r1 & e1 & l1 & Hr1 & ->).
  pose proof Hr1 as (Hb1 & He1 & _). rewrite Z.lor_0_l, Z.shiftl_0_r. simpl app.
  destruct (decide (drop r1 input = [])) as [Hnil|Hne2].
  - rewrite Hnil. exists r1, e1, l1. split_and!; [lia|lia|by rewrite Hnil|].
    intros tail out. rewrite u8_to_u8, Z.mod_small by lia.
    destruct (nibble_split e1 0 He1 ltac:(lia)) as (_ & Hlo & _).
    rewrite Z.shiftl_0_l, Z.lor_0_r in Hlo.
    rewrite (decompress_nibble_run 0 _ _ _ input r1 e1 l1) by (try done; lia).
    cbn [decompress_nibbles]. apply (f_equal length) in Hnil. rewrite length_drop in Hnil.
    simpl in Hnil. rewrite length_app, length_take.
    by destruct (Nat.leb_spec (length out + length input) (length out + r1 `min` length input));
      [|lia].
  - destruct (compress_nibble_run 1 [] e1 l1 (drop r1 input) Hne2) as (r2 & e2 & l2 & Hr2 & ->).
    pose proof Hr2 as (Hb2 & He2 & _). rewrite length_drop in Hb2. change (1 * 4) with 4.
    cbn [compress_nibbles]. exists (r1 + r2)%nat, (Z.lor e1 (Z.shiftl e2 4)), (l1 ++ l2).
    split_and!; [lia|lia|by rewrite drop_drop|]. intros tail out.
    destruct (nibble_split e1 e2 He1 He2) as (Hc & Hlo & Hhi).
    rewrite u8_to_u8, Z.mod_small, <- app_assoc by lia.
    rewrite (decompress_nibble_run 0 _ _ _ input r1 e1 l1) by (try done; lia).
    rewrite (decompress_nibble_run 1 _ _ _ (drop r1 input) r2 e2 l2); [|done|done|].
    2:{ rewrite length_app, length_take. lia. }
    cbn [decompress_nibbles]. by rewrite <- app_assoc, take_take_drop.
Qed.

(** ** The round trip *)

Lemma compress_loop_roundtrip fuel input :
  (length input <= fuel)%nat ->
  exists rle, compress_loop fuel input = Ok rle /\
    forall fuel' out, (length rle <= fuel')%nat ->
      decompress_loop fuel' (length out + length input) rle out = Ok (out ++ input).
Proof.
  revert input. induction fuel as [|fuel IH]; intros input Hf.
  { destruct input; [|simpl in Hf; lia]. exists []. split; [done|].
    intros [] out _; simpl; by rewrite app_nil_r. }
  destruct input as [|b input'].
  { exists []. split; [done|]. intros [] out _; simpl; by rewrite app_nil_r. }
  cbn [compress_loop]. assert (Hne : b :: input' <> []) by done.
  revert Hf Hne. generalize (b :: input'). clear b input'. intros input Hf Hne.
  destruct (control_byte_roundtrip input Hne) as (n & control & lits & Hn & -> & Hd).
  destruct (IH (drop n input)) as (rle & -> & Hrle). { rewrite length_drop. lia. }
  exists (to_u8 control :: lits ++ rle). split; [done|]. intros fuel' out Hf'.
  simpl in Hf'. destruct fuel' as [|fuel']; [lia|]. cbn [decompress_loop].
  destruct (Nat.leb_spec (length out + length input) (length out)); [lia|].
  rewrite Hd. simpl. rewrite length_app in Hf'.
  specialize (Hrle fuel' (out ++ take n input) ltac:(lia)).
  rewrite length_app, length_take, length_drop in Hrle.
  replace (length out + length input)%nat
    with (length out + n `min` length input + (length input - n))%nat by lia.
  rewrite Hrle, <- app_assoc. by rewrite take_drop.
Qed.

Lemma ZeroCompress_total packed bit_data :
  exists rle, ZeroCompress packed bit_data = Ok rle.
Proof.
  destruct (compress_loop_roundtrip (length (packed ++ bit_data)) (packed ++ bit_data))
    as (rle & H & _); [done|]. by exists rle.
Qed.

(** What compression wrote, decompression reads. *)
Lemma ZeroCompress_inverse packed bit_data rle :
  ZeroCompress packed bit_data = Ok rle ->
  ZeroDecompressTo (length packed + length bit_data) rle = Ok (packed ++ bit_data).
Proof.
  unfold ZeroCompress, ZeroDecompressTo.
  destruct (compress_loop_roundtrip (length (packed ++ bit_data)) (packed ++ bit_data))
    as (rle' & -> & Hd); [done|]. intros [= <-].
  specialize (Hd (length rle') [] ltac:(done)).
  cbn [length Nat.add app] in Hd. rewrite <- length_app, Hd. cbn [mbind res_bind].
  by rewrite Nat.ltb_irrefl.
Qed.

(** Zero compression always produces an encoding, and decompressing that
    encoding with the length of its input expected gives the input back. *)
Theorem ZeroCompress_roundtrip (packed bit_data : list byte) :
  exists rle,
    ZeroCompress packed bit_data = Ok rle /\
    ZeroDecompressTo (length packed + length bit_data) rle = Ok (packed ++ bit_data).
Proof.
  destruct (ZeroCompress_total packed bit_data) as [rle Hrle]. exists rle.
  split; [done|]. by apply ZeroCompress_inverse.
Qed.

(** Decompression never runs out of steps, and what it returns is at least as
    long as expected. *)
Lemma decompress_nibbles_spec nibbles control expected rle out :
  match decompress_nibbles nibbles control expected rle out with
  | Ok (rle', out') => (length rle' <= length rle)%nat
  | Throw _ => True
  | Undefined | OutOfFuel => False
  end.
Proof.
  revert rle out. induction nibbles as [|nib nibbles IH]; intros rle out; simpl; [done|].
  destruct (_ <=? _)%nat; [done|]. destruct (_ <? 8).
  - destruct (_ <? _)%nat; [done|]. specialize (IH (drop (Z.to_nat (8 - Z.land (Z.shiftr control (nib * 4)) 15)) rle)).
    match goal with |- context [decompress_nibbles nibbles control expected ?r ?o] =>
      specialize (IH o); destruct (decompress_nibbles nibbles control expected r o) as [[]|?| |] end;
      try done. rewrite length_drop in IH. lia.
  - apply IH.
Qed.

Lemma decompress_loop_defined fuel expected rle out :
  (length rle <= fuel)%nat -> defined (decompress_loop fuel expected rle out).
Proof.
  revert rle out. induction fuel as [|fuel IH]; intros [|c rle] out Hf;
    cbn [decompress_loop length] in *; try done; [lia|].
  destruct (_ <=? _)%nat; [done|].
  pose proof (decompress_nibbles_spec [0; 1] (u8 c) expected rle out) as Hn.
  destruct (decompress_nibbles _ _ _ _ _) as [[rle' out']|?| |]; cbn [mbind res_bind]; try done.
  apply IH. lia.
Qed.

Lemma ZeroDecompressTo_spec expected rle :
  defined (ZeroDecompressTo expected rle) /\
  forall out, ZeroDecompressTo expected rle = Ok out -> (expected <= length out)%nat.
Proof.
  unfold ZeroDecompressTo. pose proof (decompress_loop_defined (length rle) expected rle [] ltac:(done)).
  destruct (decompress_loop _ _ _ _) as [out|?| |]; cbn [mbind res_bind]; try done.
  destruct (Nat.ltb_spec (length out) expected); split; try done. by intros ? [= <-].
Qed.
