(* ===== verification/Encoder.v ===== *)
(** * The marshal encoder

    [Writer] and [Encoder] of [src/network/marshal/marshal.cpp]. A writer is
    append-only, so each operation is the list of bytes it appends, and a
    function that writes several parts returns their concatenation; an
    exception discards the writer, which is local to [Encode]. The recursion of
    [EncodeValue] is bounded by the depth check: [fuel] starts at [encode_fuel]
    and [EncodeValue_defined] shows that it is never used up. *)

From stdpp Require Import base numbers list option strings.
From Stdlib Require Import Strings.Byte.
From Corelib Require SpecFloat.
From S2P Require Import Prelude StringTable Value ZeroRle.

#[local] Open Scope Z_scope.

(** ** Writer *)

Definition kSizeExEscape : Z := 0xFF.
Definition kMaxPackedRowColumns : Z := 1024.
Definition kMaxPackedRowBytes : Z := 1 * 1024 * 1024.

Definition PutU8 (value : Z) : list byte := [to_u8 value].
Definition PutU16 (value : Z) : list byte :=
  [to_u8 (Z.land value 0xFF); to_u8 (Z.land (Z.shiftr value 8) 0xFF)].
Definition PutU32 (value : Z) : list byte := le_bytes 0 4 value.
Definition PutU64 (value : Z) : list byte := le_bytes 0 8 value.
Definition PutI8 (value : Z) : list byte := [to_u8 value].
Definition PutI16 (value : Z) : list byte := PutU16 (u16 value).
Definition PutI32 (value : Z) : list byte := PutU32 (u32 value).
Definition PutI64 (value : Z) : list byte := PutU64 (u64 value).
(** The argument is the bit pattern [memcpy] takes out of the [double]. *)
Definition PutDouble (bits : Z) : list byte := PutU64 bits.
Definition PutOp (op : Opcode) : list byte := [op_byte op].

Definition PutSizeEx (size : Z) : list byte :=
  if size <? kSizeExEscape then PutU8 size
  else PutU8 kSizeExEscape ++ PutU32 size.

(** [PutSizeEx(static_cast<std::uint32_t>(bytes.size()))] then [PutBytes]. *)
Definition PutSized (bytes : list byte) : list byte :=
  PutSizeEx (u32 (Z.of_nat (length bytes))) ++ bytes.

(** ** Scalars *)

Definition EncodeInteger (value : Z) : list byte :=
  if value =? -1 then PutOp PyMinusOne
  else if value =? 0 then PutOp PyZeroInteger
  else if value =? 1 then PutOp PyOneInteger
  else if (-128 <=? value) && (value <=? 127) then PutOp PyByte ++ PutI8 (i8 value)
  else if (-32768 <=? value) && (value <=? 32767)
       then PutOp PySignedShort ++ PutI16 (i16 value)
  else if (-2147483648 <=? value) && (value <=? 2147483647)
       then PutOp PyLong ++ PutI32 (i32 value)
  else PutOp PyLongLong ++ PutI64 value.

(** [value == 0.0] on a bit pattern: both zeros compare equal. *)
Definition is_zero_real (bits : Z) : bool := Z.land bits (Z.ones 63) =? 0.

Definition EncodeReal (bits : Z) : list byte :=
  if is_zero_real bits then PutOp PyZeroReal
  else PutOp PyReal ++ PutDouble bits.

Definition EncodeString (value : string) : list byte :=
  match bytes_of_string value with
  | [] => PutOp PyEmptyString
  | [c] => PutOp PyCharString ++ PutU8 (u8 c)
  | bytes =>
      match LookupStringIndex value with
      | Some index => PutOp PyStringTableItem ++ PutU8 (u8 index)
      | None => PutOp PyLongString ++ PutSized bytes
      end
  end.

Definition EncodeWString (value : string) : list byte :=
  if str_empty value then PutOp PyEmptyWString
  else PutOp PyWStringUTF8 ++ PutSized (bytes_of_string value).

Definition EncodeToken (value : string) : list byte :=
  PutOp PyToken ++ PutSized (bytes_of_string value).

Definition EncodeBuffer (value : list byte) : list byte := PutOp PyBuffer ++ PutSized value.
Definition EncodeSubStream (data : list byte) : list byte := PutOp PySubStream ++ PutSized data.
Definition EncodeCPicked (data : list byte) : list byte := PutOp cPicked ++ PutSized data.

(** ** Packed rows *)

(** [static_cast<float>] of a [double], on bit patterns: round to nearest even. *)
Definition float_of_double (bits : Z) : Z :=
  let sign := Z.shiftr bits 63 in
  let e := Z.land (Z.shiftr bits 52) 0x7FF in
  let m := Z.land bits (Z.ones 52) in
  let signed x := sign * 2 ^ 31 + x in
  if e =? 0x7FF then
    if m =? 0 then signed 0x7F800000
    else signed (Z.lor 0x7FC00000 (Z.shiftr m 29))
  else if e =? 0 then signed 0
  else
    match SpecFloat.binary_normalize 24 128 (2 ^ 52 + m) (e - 1075) false with
    | SpecFloat.S754_finite _ p x =>
        signed (if Zpos p <? 2 ^ 23 then Zpos p else (x + 150) * 2 ^ 23 + (Zpos p - 2 ^ 23))
    | SpecFloat.S754_infinity _ => signed 0x7F800000
    | _ => signed 0
    end.

Definition AppendU16 (value : Z) : list byte := PutU16 value.
Definition AppendI16 (value : Z) : list byte := AppendU16 (u16 value).
Definition AppendU32 (value : Z) : list byte := le_bytes 0 4 value.
Definition AppendI32 (value : Z) : list byte := AppendU32 (u32 value).
Definition AppendU64 (value : Z) : list byte := le_bytes 0 8 value.
Definition AppendI64 (value : Z) : list byte := AppendU64 (u64 value).

(** The bytes one fixed-size field adds to the packed part of a row. The
    integer value is taken first, whatever the type of the column. *)
Definition AppendPackedScalar (type : DbType) (field : Value) : res (list byte) :=
  int_value ← (if IsNone field then Ok 0 else IntValue field);
  if is_case type [Db.Cy; Db.I8; Db.Ui8; Db.FileTime] then Ok (AppendI64 int_value)
  else if is_case type [Db.I4] then Ok (AppendI32 (i32 int_value))
  else if is_case type [Db.Ui4] then Ok (AppendU32 (u32 int_value))
  else if is_case type [Db.R4] then
    real_value ← (if IsNone field then Ok 0 else RealValue field);
    Ok (AppendU32 (float_of_double real_value))
  else if is_case type [Db.R8] then
    real_value ← (if IsNone field then Ok 0 else RealValue field);
    Ok (AppendU64 real_value)
  else if is_case type [Db.I2] then Ok (AppendI16 (i16 int_value))
  else if is_case type [Db.Ui2] then Ok (AppendU16 (u16 int_value))
  else if is_case type [Db.I1] then Ok [to_u8 (i8 int_value)]
  else if is_case type [Db.Ui1] then Ok [to_u8 int_value]
  else Ok [].

Definition BuildRowHeader (columns : list PackedColumn) : Value :=
  let column_tuple column := VTuple [VString (col_name column); VInt (u8 (col_type column))] in
  VObjectEx false (VToken "blue.DBRowDescriptor")
    [VTuple (map column_tuple columns)] [].

(** [std::stable_sort] of [(size, index)] pairs by decreasing size. *)
Fixpoint insert_by_size (x : Z * nat) (l : list (Z * nat)) : list (Z * nat) :=
  match l with
  | [] => [x]
  | y :: l => if y.1 <? x.1 then x :: y :: l else y :: insert_by_size x l
  end.

Definition SizeOrder (columns : list PackedColumn) : list (Z * nat) :=
  foldl (fun l x => insert_by_size x l) []
    (imap (fun i column => (DbTypeSizeBits (col_type column), i)) columns).

Definition BoolCount (columns : list PackedColumn) : nat :=
  length (filter (fun column => Byte.eqb (col_type column) Db.Bool = true) columns).

Definition BitBytes (columns : list PackedColumn) : nat :=
  ((BoolCount columns + length columns + 7) / 8)%nat.

(** [bit_data[bit / 8] |= 1 << (bit % 8)]. *)
Definition set_bit (bit_data : list byte) (bit : nat) : res (list byte) :=
  match bit_data !! (bit / 8)%nat with
  | Some b =>
      Ok (<[(bit / 8)%nat := to_u8 (Z.lor (u8 b) (Z.shiftl 1 (Z.of_nat (bit mod 8))))]> bit_data)
  | None => Undefined
  end.

(** The first loop of [EncodePackedRow] over the size order: the packed
    scalars, then the null and boolean bits. *)
Fixpoint pack_fields (columns : list PackedColumn) (values : list Value)
    (bool_count : nat) (order : list (Z * nat))
    (packed bit_data : list byte) (bool_offset : nat) : res (list byte * list byte) :=
  match order with
  | [] => Ok (packed, bit_data)
  | (size, index) :: order =>
      column ← index_at columns index;
      let type := col_type column in
      if size =? 0
      then pack_fields columns values bool_count order packed bit_data bool_offset
      else
        field ← index_at values index;
        bit_data ← (if IsNone field then set_bit bit_data (index + bool_count) else Ok bit_data);
        if Byte.eqb type Db.Bool then
          bit ← (if IsNone field then Ok false else BoolValue field);
          bit_data ← (if (bit : bool) then set_bit bit_data bool_offset else Ok bit_data);
          pack_fields columns values bool_count order packed bit_data (S bool_offset)
        else
          scalar ← AppendPackedScalar type field;
          pack_fields columns values bool_count order (packed ++ scalar) bit_data bool_offset
  end.

(** ** Values *)

(** A loop that encodes each item in turn. *)
Fixpoint encode_items (encode : Value -> res (list byte)) (items : list Value)
    : res (list byte) :=
  match items with
  | [] => Ok []
  | item :: items =>
      out ← encode item;
      rest ← encode_items encode items;
      Ok (out ++ rest)
  end.

Definition EncodeTuple (encode : Value -> res (list byte)) (items : list Value)
    : res (list byte) :=
  if MAX_CONTAINER_COUNT <? Z.of_nat (length items)
  then raise MarshalLimitError "tuple element count exceeds the limit"
  else
    let head :=
      match items with
      | [] => PutOp PyEmptyTuple
      | [_] => PutOp PyOneTuple
      | [_; _] => PutOp PyTwoTuple
      | _ => PutOp PyTuple ++ PutSizeEx (u32 (Z.of_nat (length items)))
      end in
    out ← encode_items encode items;
    Ok (head ++ out).

Definition EncodeList (encode : Value -> res (list byte)) (items : list Value)
    : res (list byte) :=
  if MAX_CONTAINER_COUNT <? Z.of_nat (length items)
  then raise MarshalLimitError "list element count exceeds the limit"
  else
    let head :=
      match items with
      | [] => PutOp PyEmptyList
      | [_] => PutOp PyOneList
      | _ => PutOp PyList ++ PutSizeEx (u32 (Z.of_nat (length items)))
      end in
    out ← encode_items encode items;
    Ok (head ++ out).

(** A dictionary writes the value of each entry before its key. *)
Definition EncodeDict (encode : Value -> res (list byte)) (entries : list (Value * Value))
    : res (list byte) :=
  if MAX_CONTAINER_COUNT <? Z.of_nat (length entries)
  then raise MarshalLimitError "dict entry count exceeds the limit"
  else
    out ← encode_items encode (entries ≫= fun e => [e.2; e.1]);
    Ok (PutOp PyDict ++ PutSizeEx (u32 (Z.of_nat (length entries))) ++ out).

Definition EncodeObject (encode : Value -> res (list byte)) (type : string) (args : Value)
    : res (list byte) :=
  out ← encode args;
  Ok (PutOp PyObject ++ EncodeString type ++ out).

(** An extended object writes the key of each entry before its value. *)
Definition EncodeObjectEx (encode : Value -> res (list byte)) (is_type2 : bool)
    (header : Value) (items : list Value) (entries : list (Value * Value)) : res (list byte) :=
  head ← encode header;
  body ← encode_items encode items;
  dict ← encode_items encode (entries ≫= fun e => [e.1; e.2]);
  Ok (PutOp (if is_type2 then PyObjectEx2 else PyObjectEx1) ++ head ++ body ++
      PutOp PackedTerminator ++ dict ++ PutOp PackedTerminator).

Definition EncodeChecksumedStream (encode : Value -> res (list byte)) (checksum : Z)
    (value : Value) : res (list byte) :=
  out ← encode value;
  Ok (PutOp PyChecksumedStream ++ PutU32 checksum ++ out).

Definition zero_size_values (order : list (Z * nat)) (values : list Value) : res (list Value) :=
  mapM (fun p => index_at values p.2) (filter (fun p => (p.1 =? 0) = true) order).

Definition EncodePackedRow (encode : Value -> res (list byte))
    (columns : list PackedColumn) (values : list Value) : res (list byte) :=
  if kMaxPackedRowColumns <? Z.of_nat (length columns)
  then raise MarshalLimitError "packed row column count exceeds the limit"
  else if negb (bool_decide (length values = length columns))
  then raise MarshalFormatError "packed row value count mismatch"
  else
    header ← encode (BuildRowHeader columns);
    let size_order := SizeOrder columns in
    let bool_count := BoolCount columns in
    '(packed, bit_data) ←
      pack_fields columns values bool_count size_order [] (replicate (BitBytes columns) x00) 0;
    rle ← ZeroCompress packed bit_data;
    loose ← zero_size_values size_order values;
    out ← encode_items encode loose;
    Ok (PutOp PyPackedRow ++ header ++ PutSized rle ++ out).

(** Enough for every recursion: the depth starts at 0, grows by one per call,
    and a call beyond [MAX_MARSHAL_DEPTH] throws. *)
Definition encode_fuel : nat := 66.

Fixpoint EncodeValue (fuel : nat) (value : Value) (depth : Z) : res (list byte) :=
  match fuel with
  | O => OutOfFuel
  | S fuel =>
      if MAX_MARSHAL_DEPTH <? depth
      then raise MarshalDepthError "marshal nesting exceeds the depth limit"
      else
        let encode v := EncodeValue fuel v (depth + 1) in
        match value with
        | VNone => Ok (PutOp PyNone)
        | VBool b => Ok (PutOp (if b then PyTrue else PyFalse))
        | VInt z => Ok (EncodeInteger z)
        | VReal bits => Ok (EncodeReal bits)
        | VString s => Ok (EncodeString s)
        | VWString s => Ok (EncodeWString s)
        | VToken s => Ok (EncodeToken s)
        | VBuffer d => Ok (EncodeBuffer d)
        | VTuple items => EncodeTuple encode items
        | VList items => EncodeList encode items
        | VDict entries => EncodeDict encode entries
        | VObject type args => EncodeObject encode type args
        | VObjectEx is_type2 header items entries =>
            EncodeObjectEx encode is_type2 header items entries
        | VSubStruct v =>
            out ← encode v;
            Ok (PutOp PySubStruct ++ out)
        | VSubStream d => Ok (EncodeSubStream d)
        | VChecksumedStream c v => EncodeChecksumedStream encode c v
        | VPackedRow columns values => EncodePackedRow encode columns values
        | VCPicked d => Ok (EncodeCPicked d)
        end
  end.

(** [marshal::Encode] and [Encoder::Encode]. *)
Definition Encode (value : Value) : res (list byte) :=
  out ← EncodeValue encode_fuel value 0;
  Ok (PutU8 MARSHAL_HEADER_BYTE ++ PutU32 0 ++ out).

Example encode_call :
  Encode (VTuple [VInt 300; VString "charID"; VDict [(VString "a", VNone)]]) =
    Ok [x7e; x00; x00; x00; x00; x14; x03; x05; x2c; x01; x11; x0f;
        x16; x01; x01; x0f; x61].
Proof. vm_compute. reflexivity. Qed.
