(* ===== verification/Decoder.v ===== *)
(** * The marshal decoder

    [Reader] and [Decoder] of [src/network/marshal/marshal.cpp], as functions
    on the decoder object. Vector subscripts and iterator ranges are checked
    and come to [Undefined] when out of range, so that their absence is a
    theorem (module [DecoderSafety]). [fuel] bounds the recursion of
    [DecodeValue], whose depth is bounded, and the loops of [DecodeObjectEx],
    each turn of which reads at least a byte. *)

From stdpp Require Import base numbers list option strings.
From Stdlib Require Import Strings.Byte.
From S2P Require Import Prelude StringTable Value ZeroRle Encoder.

#[local] Open Scope Z_scope.

(** ** Reader *)

Record Reader := mkReader { m_bytes : list byte; m_offset : nat }.

Definition set_offset (off : nat) (r : Reader) : Reader := mkReader (m_bytes r) off.

Definition Remaining (r : Reader) : nat := length (m_bytes r) - m_offset r.

(** The elements [v[off], ..., v[off + n - 1]]. *)
Definition slice (v : list byte) (off n : nat) : res (list byte) :=
  if (off + n <=? length v)%nat then Ok (take n (drop off v)) else Undefined.

Definition truncated {S A} : M S A :=
  throw MarshalTruncatedError "marshal stream ended unexpectedly".

Definition PeekU8 : M Reader byte :=
  r ← get;
  if (length (m_bytes r) <=? m_offset r)%nat then truncated
  else lift (index_at (m_bytes r) (m_offset r)).

Definition ReadU8 : M Reader byte :=
  r ← get;
  if (length (m_bytes r) <=? m_offset r)%nat then truncated
  else
    b ← lift (index_at (m_bytes r) (m_offset r));
    modify (set_offset (m_offset r + 1));;
    mret b.

Definition ReadI8 : M Reader Z := b ← ReadU8; mret (i8 (u8 b)).

Definition RequireBytes (count : Z) : M Reader unit :=
  r ← get;
  if Z.of_nat (Remaining r) <? count then truncated else mret tt.

(** The body the little-endian reads share: [n] bytes from the offset on. *)
Definition read_le (n : nat) : M Reader Z :=
  RequireBytes (Z.of_nat n);;
  r ← get;
  bs ← lift (slice (m_bytes r) (m_offset r) n);
  modify (set_offset (m_offset r + n));;
  mret (le_value 0 bs).

Definition ReadU16 : M Reader Z := read_le 2.
Definition ReadI16 : M Reader Z := v ← ReadU16; mret (i16 v).
Definition ReadU32 : M Reader Z := read_le 4.
Definition ReadI32 : M Reader Z := v ← ReadU32; mret (i32 v).
Definition ReadU64 : M Reader Z := read_le 8.
Definition ReadI64 : M Reader Z := v ← ReadU64; mret (i64 v).
(** The bit pattern [memcpy] puts into the [double]. *)
Definition ReadDouble : M Reader Z := ReadU64.

Definition ReadBytes (count : Z) : M Reader (list byte) :=
  RequireBytes count;;
  r ← get;
  bs ← lift (slice (m_bytes r) (m_offset r) (Z.to_nat count));
  modify (set_offset (m_offset r + Z.to_nat count));;
  mret bs.

Definition ReadSizeEx : M Reader Z :=
  first ← ReadU8;
  if u8 first =? kSizeExEscape then ReadU32 else mret (u8 first).

(** ** Decoder *)

Record Decoder := mkDecoder
  { m_reader : Reader; m_saved : list (option Value); m_value_end : Z }.

Definition set_reader (r : Reader) (d : Decoder) : Decoder :=
  mkDecoder r (m_saved d) (m_value_end d).
Definition set_saved (s : list (option Value)) (d : Decoder) : Decoder :=
  mkDecoder (m_reader d) s (m_value_end d).
Definition set_value_end (e : Z) (d : Decoder) : Decoder :=
  mkDecoder (m_reader d) (m_saved d) e.

(** An operation of [m_reader]. *)
Definition rd {A} (m : M Reader A) : M Decoder A := on m_reader set_reader m.

Definition Offset (d : Decoder) : Z := Z.of_nat (m_offset (m_reader d)).

Definition ReadBoundedSize : M Decoder Z :=
  size ← rd ReadSizeEx;
  if MAX_STRING_BYTES <? size
  then throw MarshalLimitError "marshal size exceeds the limit"
  else mret size.

Definition ReadBoundedCount : M Decoder Z :=
  count ← rd ReadSizeEx;
  if MAX_CONTAINER_COUNT <? count
  then throw MarshalLimitError "marshal container count exceeds the limit"
  else mret count.

Definition ReadSaveIndex : M Decoder Z :=
  d ← get;
  match m_saved d with
  | [] => throw MarshalFormatError "marshal save flag set without a store"
  | _ =>
      if m_value_end d <? Offset d + 4
      then throw MarshalTruncatedError "marshal save table is truncated"
      else rd ReadU32
  end.

Definition DecodeVarInteger : M Decoder Value :=
  len ← ReadBoundedSize;
  if len =? 0 then mret (VInt 0)
  else if 8 <? len
  then throw MarshalLimitError "var integer length exceeds 8 bytes"
  else
    bytes ← rd (ReadBytes len);
    mret (VInt (i64 (le_value 0 bytes))).

(** [ReadBytes] behind the length check of the string decoders. *)
Definition read_limited (limit : Z) (len : Z) (what : string) : M Decoder (list byte) :=
  if limit <? len then throw MarshalLimitError what else rd (ReadBytes len).

Definition DecodeString (len : Z) : M Decoder Value :=
  bytes ← read_limited MAX_STRING_BYTES len "string length exceeds the limit";
  mret (VString (string_of_bytes bytes)).

Definition DecodeStringTableItem : M Decoder Value :=
  index ← rd ReadU8;
  match LookupString index with
  | None => throw MarshalStringTableError "string table index is out of range"
  | Some text => mret (VString text)
  end.

(** [AppendUtf16Unit]: the bytes one code unit appends. *)
Definition AppendUtf16Unit (unit : Z) : list byte :=
  if unit <? 0x80 then [to_u8 unit]
  else if unit <? 0x800 then
    [to_u8 (Z.lor 0xC0 (Z.shiftr unit 6)); to_u8 (Z.lor 0x80 (Z.land unit 0x3F))]
  else
    [to_u8 (Z.lor 0xE0 (Z.shiftr unit 12));
     to_u8 (Z.lor 0x80 (Z.land (Z.shiftr unit 6) 0x3F));
     to_u8 (Z.lor 0x80 (Z.land unit 0x3F))].

(** The loop over pairs of bytes; a last odd byte would be read past the end. *)
Fixpoint utf16_to_utf8 (bytes : list byte) : res (list byte) :=
  match bytes with
  | [] => Ok []
  | [_] => Undefined
  | lo :: hi :: bytes =>
      rest ← utf16_to_utf8 bytes;
      Ok (AppendUtf16Unit (le_value 0 [lo; hi]) ++ rest)
  end.

Definition DecodeWStringUcs2 (count : Z) : M Decoder Value :=
  bytes ← (if MAX_STRING_BYTES / 2 <? count
           then throw MarshalLimitError "wide string length exceeds the limit"
           else rd (ReadBytes (count * 2)));
  utf8 ← lift (utf16_to_utf8 bytes);
  mret (VWString (string_of_bytes utf8)).

Definition DecodeWStringUtf8 (len : Z) : M Decoder Value :=
  bytes ← read_limited MAX_STRING_BYTES len "wide string length exceeds the limit";
  mret (VWString (string_of_bytes bytes)).

Definition DecodeToken (len : Z) : M Decoder Value :=
  bytes ← read_limited MAX_STRING_BYTES len "token length exceeds the limit";
  mret (VToken (string_of_bytes bytes)).

Definition DecodeBuffer (len : Z) : M Decoder Value :=
  bytes ← read_limited MAX_STRING_BYTES len "buffer length exceeds the limit";
  mret (VBuffer bytes).

Definition DecodeCPicked (len : Z) : M Decoder Value :=
  bytes ← read_limited MAX_STRING_BYTES len "pickle length exceeds the limit";
  mret (VCPicked bytes).

Definition DecodeSubStream : M Decoder Value :=
  len ← ReadBoundedSize;
  data ← rd (ReadBytes len);
  mret (VSubStream data).

Definition DecodeSavedElement : M Decoder Value :=
  index ← ReadBoundedSize;
  d ← get;
  if (index =? 0) || (Z.of_nat (length (m_saved d)) <? index)
  then throw MarshalFormatError "saved stream element index is out of range"
  else
    stored ← lift (index_at (m_saved d) (Z.to_nat (index - 1)));
    match stored with
    | None => throw MarshalFormatError "saved stream element was not stored"
    | Some v => mret v
    end.

(** *** Loops *)

Fixpoint decode_times {A} (n : nat) (decode : M Decoder A) : M Decoder (list A) :=
  match n with
  | O => mret []
  | S n =>
      v ← decode;
      vs ← decode_times n decode;
      mret (v :: vs)
  end.

Definition DecodeTuple (decode : M Decoder Value) (count : Z) : M Decoder Value :=
  items ← decode_times (Z.to_nat count) decode;
  mret (VTuple items).

Definition DecodeList (decode : M Decoder Value) (count : Z) : M Decoder Value :=
  items ← decode_times (Z.to_nat count) decode;
  mret (VList items).

Definition DecodeDict (decode : M Decoder Value) (count : Z) : M Decoder Value :=
  entries ← decode_times (Z.to_nat count)
    (value ← decode; key ← decode; mret (key, value));
  mret (VDict entries).

Definition DecodeObject (decode : M Decoder Value) : M Decoder Value :=
  type ← decode;
  if negb (IsString type) then throw MarshalFormatError "object type is not a string"
  else
    args ← decode;
    text ← lift (StringValue type);
    mret (VObject text args).

(** [while (true)] up to a terminator byte. *)
Fixpoint decode_until {A} (fuel : nat) (what : string) (decode : M Decoder A)
    : M Decoder (list A) :=
  match fuel with
  | O => out_of_fuel
  | S fuel =>
      d ← get;
      if m_value_end d <=? Offset d then throw MarshalTruncatedError what
      else
        b ← rd PeekU8;
        if Z.land (u8 b) OPCODE_MASK =? opcode_value PackedTerminator
        then rd ReadU8;; mret []
        else
          v ← decode;
          vs ← decode_until fuel what decode;
          mret (v :: vs)
  end.

(** One turn per byte of the stream, and one to see the end. *)
Definition loop_fuel (d : Decoder) : nat := S (length (m_bytes (m_reader d))).

Definition DecodeObjectEx (decode : M Decoder Value) (is_type2 : bool) : M Decoder Value :=
  header ← decode;
  fuel ← gets loop_fuel;
  items ← decode_until fuel "object ex list is unterminated" decode;
  entries ← decode_until fuel "object ex dict is unterminated"
    (key ← decode; value ← decode; mret (key, value));
  mret (VObjectEx is_type2 header items entries).

Definition DecodeChecksumedStream (decode : M Decoder Value) : M Decoder Value :=
  checksum ← rd ReadU32;
  value ← decode;
  mret (VChecksumedStream checksum value).

(** *** Packed rows *)

Definition ExtractColumn (column : Value) : res PackedColumn :=
  match column with
  | VTuple [VString name; VInt type] => Ok (mkColumn name (to_u8 type))
  | _ => raise MarshalFormatError "row descriptor column is malformed"
  end.

(** [value.IsToken() && value.TokenValue() == text]. *)
Definition is_token (value : Value) (text : string) : bool :=
  match value with VToken t => bool_decide (t = text) | _ => false end.

Definition ExtractColumns (header : Value) : res (list PackedColumn) :=
  '(head, items, _) ← ObjectExValue header;
  if negb (is_token head "blue.DBRowDescriptor")
  then raise MarshalFormatError "packed row header is not a row descriptor"
  else
    match items with
    | [VTuple columns] =>
        if kMaxPackedRowColumns <? Z.of_nat (length columns)
        then raise MarshalLimitError "row descriptor column count exceeds the limit"
        else mapM ExtractColumn columns
    | _ => raise MarshalFormatError "row descriptor args are malformed"
    end.

Definition FixedBits (columns : list PackedColumn) : Z :=
  foldr (fun column acc =>
    if Byte.eqb (col_type column) Db.Bool then acc
    else DbTypeSizeBits (col_type column) + acc) 0 columns.

Definition ZeroDecompress (rle : list byte) (columns : list PackedColumn) : res (list byte) :=
  let fixed_bytes := Z.to_nat (FixedBits columns / 8) in
  ZeroDecompressTo (fixed_bytes + BitBytes columns) rle.

(** The conversion of a [float] to [double], on bit patterns. *)
Definition double_of_float (bits : Z) : Z :=
  let sign := Z.shiftr bits 31 in
  let e := Z.land (Z.shiftr bits 23) 0xFF in
  let m := Z.land bits (Z.ones 23) in
  let signed x := sign * 2 ^ 63 + x in
  if e =? 0xFF then
    if m =? 0 then signed (0x7FF * 2 ^ 52)
    else signed (0x7FF * 2 ^ 52 + Z.lor m (2 ^ 22) * 2 ^ 29)
  else if e =? 0 then
    if m =? 0 then signed 0
    else
      let k := Z.log2 m in
      signed ((k + 874) * 2 ^ 52 + (m * 2 ^ (52 - k) - 2 ^ 52))
  else signed ((e + 896) * 2 ^ 52 + m * 2 ^ 29).

(** [ReadU16At], [ReadU32At] and [ReadU64At], by their byte count. *)
Definition read_le_at (n : nat) (data : list byte) (offset : nat) : res Z :=
  bs ← slice data offset n;
  Ok (le_value 0 bs).

Definition ReadU16At := read_le_at 2.
Definition ReadI16At (data : list byte) (offset : nat) : res Z :=
  v ← ReadU16At data offset; Ok (i16 v).
Definition ReadU32At := read_le_at 4.
Definition ReadI32At (data : list byte) (offset : nat) : res Z :=
  v ← ReadU32At data offset; Ok (i32 v).
Definition ReadU64At := read_le_at 8.
Definition ReadI64At (data : list byte) (offset : nat) : res Z :=
  v ← ReadU64At data offset; Ok (i64 v).

Definition ReadPackedScalar (data : list byte) (offset : nat) (type : DbType) : res Value :=
  if is_case type [Db.Cy; Db.I8; Db.Ui8; Db.FileTime] then
    v ← ReadI64At data offset; Ok (VInt v)
  else if is_case type [Db.I4] then v ← ReadI32At data offset; Ok (VInt v)
  else if is_case type [Db.Ui4] then v ← ReadU32At data offset; Ok (VInt v)
  else if is_case type [Db.R4] then
    bits ← ReadU32At data offset; Ok (VReal (double_of_float bits))
  else if is_case type [Db.R8] then bits ← ReadU64At data offset; Ok (VReal bits)
  else if is_case type [Db.I2] then v ← ReadI16At data offset; Ok (VInt v)
  else if is_case type [Db.Ui2] then v ← ReadU16At data offset; Ok (VInt v)
  else if is_case type [Db.I1] then b ← index_at data offset; Ok (VInt (i8 (u8 b)))
  else if is_case type [Db.Ui1] then b ← index_at data offset; Ok (VInt (u8 b))
  else if is_case type [Db.Bool; Db.Empty; Db.Error; Db.Bytes; Db.Str; Db.WStr] then
    raise MarshalFormatError "packed row scalar has no fixed size"
  else raise MarshalFormatError "packed row scalar has an unknown type".

(** [(unpacked[base + bit / 8] & (1 << (bit % 8))) != 0]. *)
Definition test_bit (unpacked : list byte) (base bit : nat) : res bool :=
  b ← index_at unpacked (base + bit / 8);
  Ok (negb (Z.land (u8 b) (Z.shiftl 1 (Z.of_nat (bit mod 8))) =? 0)).

(** [values[index] = v]. *)
Definition assign {A} (values : list (option A)) (index : nat) (v : A) : res (list (option A)) :=
  if (index <? length values)%nat then Ok (<[index := Some v]> values) else Undefined.

(** The loop over the size order that reads the fixed-size fields. *)
Fixpoint unpack_fields (columns : list PackedColumn) (unpacked : list byte)
    (data_bytes bool_count : nat) (order : list (Z * nat))
    (values : list (option Value)) (offset bool_offset : nat) : res (list (option Value)) :=
  match order with
  | [] => Ok values
  | (size, index) :: order =>
      column ← index_at columns index;
      let type := col_type column in
      if size =? 0
      then unpack_fields columns unpacked data_bytes bool_count order values offset bool_offset
      else
        is_null ← test_bit unpacked data_bytes (index + bool_count);
        if Byte.eqb type Db.Bool then
          values ←
            (if (is_null : bool) then assign values index VNone
             else bit ← test_bit unpacked data_bytes bool_offset;
                  assign values index (VBool bit));
          unpack_fields columns unpacked data_bytes bool_count order values offset
            (S bool_offset)
        else
          values ←
            (if (is_null : bool) then assign values index VNone
             else v ← ReadPackedScalar unpacked offset type; assign values index v);
          unpack_fields columns unpacked data_bytes bool_count order values
            (offset + Z.to_nat (size / 8)) bool_offset
  end.

(** The loop that decodes the columns without a fixed size. *)
Fixpoint decode_loose (decode : M Decoder Value) (order : list (Z * nat))
    (values : list (option Value)) : M Decoder (list (option Value)) :=
  match order with
  | [] => mret values
  | (size, index) :: order =>
      if size =? 0 then
        v ← decode;
        values ← lift (assign values index v);
        decode_loose decode order values
      else decode_loose decode order values
  end.

(** The pointers of a finished row, none of them null. *)
Definition all_set (values : list (option Value)) : res (list Value) :=
  mapM (fun v => match v with Some v => Ok v | None => Undefined end) values.

Definition DecodePackedRow (decode : M Decoder Value) : M Decoder Value :=
  header ← decode;
  if negb (IsObjectEx header)
  then throw MarshalFormatError "packed row header is not an object ex"
  else
    columns ← lift (ExtractColumns header);
    rle_len ← ReadBoundedSize;
    if kMaxPackedRowBytes <? rle_len
    then throw MarshalLimitError "packed row RLE length exceeds the limit"
    else
      rle ← rd (ReadBytes rle_len);
      unpacked ← lift (ZeroDecompress rle columns);
      let size_order := SizeOrder columns in
      let bool_count := BoolCount columns in
      let bit_bytes := BitBytes columns in
      if (length unpacked <? bit_bytes)%nat
      then throw MarshalTruncatedError "packed row bit data is truncated"
      else
        let data_bytes := (length unpacked - bit_bytes)%nat in
        values ← lift (unpack_fields columns unpacked data_bytes bool_count size_order
                         (replicate (length columns) None) 0 0);
        values ← decode_loose decode size_order values;
        values ← lift (all_set values);
        mret (VPackedRow columns values).

(** *** Values *)

(** The switch of [DecodeOpcode]; [decode] is [DecodeValue(depth + 1)]. *)
Definition DecodeOpcode (decode : M Decoder Value) (opcode : Z) : M Decoder Value :=
  match opcode_of opcode with
  | Some PyNone => mret VNone
  | Some PyTrue => mret (VBool true)
  | Some PyFalse => mret (VBool false)
  | Some PyZeroInteger => mret (VInt 0)
  | Some PyOneInteger => mret (VInt 1)
  | Some PyMinusOne => mret (VInt (-1))
  | Some PyByte => v ← rd ReadI8; mret (VInt v)
  | Some PySignedShort => v ← rd ReadI16; mret (VInt v)
  | Some PyLong => v ← rd ReadI32; mret (VInt v)
  | Some PyLongLong => v ← rd ReadI64; mret (VInt v)
  | Some PyVarInteger => DecodeVarInteger
  | Some PyZeroReal => mret (VReal 0)
  | Some PyReal => v ← rd ReadDouble; mret (VReal v)
  | Some PyEmptyString => mret (VString "")
  | Some PyCharString => c ← rd ReadU8; mret (VString (string_of_bytes [c]))
  | Some PyShortString => len ← rd ReadU8; DecodeString (u8 len)
  | Some PyLongString => len ← ReadBoundedSize; DecodeString len
  | Some PyStringTableItem => DecodeStringTableItem
  | Some PyEmptyWString => mret (VWString "")
  | Some PyWStringUCS2Char => DecodeWStringUcs2 1
  | Some PyWStringUCS2 => count ← ReadBoundedSize; DecodeWStringUcs2 count
  | Some PyWStringUTF8 => len ← ReadBoundedSize; DecodeWStringUtf8 len
  | Some PyToken => len ← ReadBoundedSize; DecodeToken len
  | Some PyBuffer => len ← ReadBoundedSize; DecodeBuffer len
  | Some PyEmptyTuple => mret (VTuple [])
  | Some PyOneTuple => v ← decode; mret (VTuple [v])
  | Some PyTwoTuple => v ← decode; w ← decode; mret (VTuple [v; w])
  | Some PyTuple => count ← ReadBoundedCount; DecodeTuple decode count
  | Some PyEmptyList => mret (VList [])
  | Some PyOneList => v ← decode; mret (VList [v])
  | Some PyList => count ← ReadBoundedCount; DecodeList decode count
  | Some PyDict => count ← ReadBoundedCount; DecodeDict decode count
  | Some PyObject => DecodeObject decode
  | Some PyObjectEx1 => DecodeObjectEx decode false
  | Some PyObjectEx2 => DecodeObjectEx decode true
  | Some PySubStruct => v ← decode; mret (VSubStruct v)
  | Some PySubStream => DecodeSubStream
  | Some PyChecksumedStream => DecodeChecksumedStream decode
  | Some PySavedStreamElement => DecodeSavedElement
  | Some PyPackedRow => DecodePackedRow decode
  | Some cPicked => len ← ReadBoundedSize; DecodeCPicked len
  | Some PackedTerminator => throw MarshalFormatError "unexpected packed terminator"
  | None => throw MarshalFormatError "unknown marshal opcode"
  end.

(** [m_saved[storage_index - 1] = result], behind its range check. *)
Definition store_saved (storage_index : Z) (result : Value) : M Decoder unit :=
  d ← get;
  if (storage_index =? 0) || (Z.of_nat (length (m_saved d)) <? storage_index)
  then throw MarshalFormatError "marshal save index is out of range"
  else
    saved ← lift (assign (m_saved d) (Z.to_nat (storage_index - 1)) result);
    modify (set_saved saved).

Fixpoint DecodeValue (fuel : nat) (depth : Z) : M Decoder Value :=
  match fuel with
  | O => out_of_fuel
  | S fuel =>
      if MAX_MARSHAL_DEPTH <? depth
      then throw MarshalDepthError "marshal nesting exceeds the depth limit"
      else
        raw ← rd ReadU8;
        let flag_save := negb (Z.land (u8 raw) SAVE_MASK =? 0) in
        let flag_unknown := negb (Z.land (u8 raw) UNKNOWN_MASK =? 0) in
        let opcode := Z.land (u8 raw) OPCODE_MASK in
        if flag_unknown
        then throw MarshalFormatError "marshal stream set the unknown flag"
        else
          storage_index ← (if flag_save then ReadSaveIndex else mret 0);
          result ← DecodeOpcode (DecodeValue fuel (depth + 1)) opcode;
          (if flag_save then store_saved storage_index result else mret tt);;
          mret result
  end.

(** [Decoder::Decode]: the header, the save table's size, and the root value.
    [value_end] is computed in [std::size_t]. *)
Definition DecodeStream (require_exact_end : bool) : M Decoder Value :=
  header ← rd ReadU8;
  if negb (u8 header =? MARSHAL_HEADER_BYTE)
  then throw MarshalFormatError "invalid marshal header byte"
  else
    save_count ← rd ReadU32;
    if MAX_SAVED_OBJECTS <? save_count
    then throw MarshalLimitError "marshal save count exceeds the limit"
    else
      modify (set_saved (replicate (Z.to_nat save_count) None));;
      d ← get;
      let remaining := Z.of_nat (Remaining (m_reader d)) in
      let value_end :=
        if save_count =? 0 then remaining else u64 (remaining - u64 (save_count * 4)) in
      modify (set_value_end (u64 (Offset d + value_end)));;
      result ← DecodeValue encode_fuel 0;
      d ← get;
      if require_exact_end && negb (Offset d =? m_value_end d)
      then throw MarshalFormatError "marshal stream has trailing data"
      else mret result.

(** [marshal::Decode], on a fresh [Decoder(stream)]. *)
Definition Decode (stream : list byte) (require_exact_end : bool) : res Value :=
  if MAX_STREAM_BYTES <? Z.of_nat (length stream)
  then raise MarshalLimitError "marshal stream exceeds the size limit"
  else fst (DecodeStream require_exact_end (mkDecoder (mkReader stream 0) [] 0)).

Example decode_call :
  Decode [x7e; x00; x00; x00; x00; x14; x03; x05; x2c; x01; x11; x0f;
          x16; x01; x01; x0f; x61] true =
    Ok (VTuple [VInt 300; VString "charID"; VDict [(VString "a", VNone)]]).
Proof. vm_compute. reflexivity. Qed.
