(* ===== verification/PackedOrder.v ===== *)
(** * The size order of a packed row

    Facts about [SizeOrder], [BoolCount], [BitBytes] and [FixedBits] that the
    safety proof of the decoder and the round trip share: the order visits
    every column once, and the bits and bytes the fields take add up to what
    the row allots. *)

From stdpp Require Import base numbers list option strings.
From Stdlib Require Import Strings.Byte.
From S2P Require Import Prelude Value Encoder Decoder.

#[local] Open Scope Z_scope.

(** ** Column sizes *)

Lemma DbTypeSizeBits_cases type :
  (Byte.eqb type Db.Bool = true /\ DbTypeSizeBits type = 1) \/
  (Byte.eqb type Db.Bool = false /\
   (DbTypeSizeBits type = 0 \/ DbTypeSizeBits type = 8 \/ DbTypeSizeBits type = 16 \/
    DbTypeSizeBits type = 32 \/ DbTypeSizeBits type = 64)).
Proof. destruct type; vm_compute; tauto. Qed.

(** The bytes a field takes in the packed part. *)
Definition field_bytes (type : DbType) : nat :=
  if Byte.eqb type Db.Bool then 0 else Z.to_nat (DbTypeSizeBits type / 8).

Lemma field_bytes_bits type :
  Byte.eqb type Db.Bool = false -> 8 * Z.of_nat (field_bytes type) = DbTypeSizeBits type.
Proof.
  intros Hb. unfold field_bytes. rewrite Hb.
  destruct (DbTypeSizeBits_cases type) as [[? _]|[_ H]]; [congruence|].
  by destruct H as [->|[->|[->|[->| ->]]]].
Qed.

Definition field_bool (type : DbType) : nat := if Byte.eqb type Db.Bool then 1 else 0.

(** The column types with a fixed size of whole bytes. *)
Definition scalar_types : list DbType :=
  [Db.Cy; Db.I8; Db.Ui8; Db.FileTime; Db.I4; Db.Ui4; Db.R4; Db.R8; Db.I2; Db.Ui2;
   Db.I1; Db.Ui1].

Lemma scalar_type_cases type :
  Byte.eqb type Db.Bool = false -> DbTypeSizeBits type <> 0 -> In type scalar_types.
Proof.
  intros Hb Hs. assert (Hc : is_case type scalar_types = true).
  { destruct type; first [reflexivity|discriminate Hb|by exfalso; apply Hs]. }
  unfold is_case in Hc. apply List.existsb_exists in Hc as (t & Ht & Heq).
  by apply Byte.byte_dec_bl in Heq as ->.
Qed.

(** Sums over the columns an order visits. *)
Definition order_sum (f : DbType -> nat) (columns : list PackedColumn)
    (order : list (Z * nat)) : nat :=
  sum_list_with (fun p => from_option (fun c => f (col_type c)) 0%nat (columns !! p.2)) order.

Definition column_sum (f : DbType -> nat) (columns : list PackedColumn) : nat :=
  sum_list_with (fun c => f (col_type c)) columns.

Lemma order_sum_cons f columns size i order c :
  columns !! i = Some c ->
  order_sum f columns ((size, i) :: order) = (f (col_type c) + order_sum f columns order)%nat.
Proof. intros Hc. unfold order_sum. cbn [sum_list_with]. simpl. by rewrite Hc. Qed.

(** ** The order is a permutation *)

Definition index_order (columns : list PackedColumn) : list (Z * nat) :=
  imap (fun i column => (DbTypeSizeBits (col_type column), i)) columns.

Lemma insert_by_size_Permutation x l : insert_by_size x l ≡ₚ x :: l.
Proof.
  induction l as [|y l IH]; simpl; [done|]. destruct (y.1 <? x.1); [done|].
  rewrite IH. apply Permutation_swap.
Qed.

Lemma foldl_insert_Permutation l acc :
  foldl (fun l x => insert_by_size x l) acc l ≡ₚ l ++ acc.
Proof.
  revert acc. induction l as [|x l IH]; intros acc; simpl; [done|].
  rewrite IH, insert_by_size_Permutation. symmetry. apply Permutation_middle.
Qed.

Lemma SizeOrder_Permutation columns : SizeOrder columns ≡ₚ index_order columns.
Proof. unfold SizeOrder. by rewrite foldl_insert_Permutation, app_nil_r. Qed.

Lemma elem_of_index_order columns size i :
  (size, i) ∈ index_order columns <->
  exists c, columns !! i = Some c /\ size = DbTypeSizeBits (col_type c).
Proof.
  unfold index_order. rewrite elem_of_lookup_imap. split.
  - intros (j & c & [= -> ->] & Hj). eauto.
  - intros (c & Hc & ->). exists i, c. done.
Qed.

Lemma elem_of_SizeOrder columns size i :
  (size, i) ∈ SizeOrder columns <->
  exists c, columns !! i = Some c /\ size = DbTypeSizeBits (col_type c).
Proof. rewrite SizeOrder_Permutation. apply elem_of_index_order. Qed.

Lemma order_sum_Permutation f columns o1 o2 :
  o1 ≡ₚ o2 -> order_sum f columns o1 = order_sum f columns o2.
Proof. unfold order_sum. by intros ->. Qed.

Lemma order_sum_index f columns :
  order_sum f columns (index_order columns) = column_sum f columns.
Proof.
  unfold order_sum, column_sum, index_order.
  assert (Hgen : forall rest seen,
    sum_list_with (fun p => from_option (fun c => f (col_type c)) 0%nat ((seen ++ rest) !! p.2))
      (imap (fun i c => (DbTypeSizeBits (col_type c), (length seen + i)%nat)) rest) =
    sum_list_with (fun c => f (col_type c)) rest).
  { induction rest as [|c rest IH]; intros seen; [done|]. simpl.
    rewrite Nat.add_0_r, list_lookup_middle by done. simpl. f_equal.
    specialize (IH (seen ++ [c])). rewrite <- app_assoc in IH. simpl in IH.
    rewrite <- IH. f_equal. apply imap_ext. intros i c' _. simpl.
    rewrite length_app. simpl. f_equal. lia. }
  apply (Hgen columns []).
Qed.

Lemma order_sum_SizeOrder f columns :
  order_sum f columns (SizeOrder columns) = column_sum f columns.
Proof. rewrite <- order_sum_index. apply order_sum_Permutation, SizeOrder_Permutation. Qed.

(** ** Allotments *)

Lemma BoolCount_sum columns : BoolCount columns = column_sum field_bool columns.
Proof.
  unfold BoolCount, column_sum, field_bool. induction columns as [|c cs IH]; [done|].
  rewrite filter_cons. cbn [sum_list_with].
  case_decide as Hc; simpl; [rewrite Hc|apply not_true_is_false in Hc; rewrite Hc]; simpl; congruence.
Qed.

Lemma FixedBits_sum columns : FixedBits columns = 8 * Z.of_nat (column_sum field_bytes columns).
Proof.
  unfold FixedBits, column_sum. induction columns as [|c cs IH]; [done|]. cbn [foldr sum_list_with].
  rewrite IH. destruct (Byte.eqb (col_type c) Db.Bool) eqn:Hb.
  - unfold field_bytes at 2. rewrite Hb. lia.
  - rewrite Nat2Z.inj_add, Z.mul_add_distr_l, field_bytes_bits by done. lia.
Qed.

Lemma FixedBits_bytes columns : Z.to_nat (FixedBits columns / 8) = column_sum field_bytes columns.
Proof. rewrite FixedBits_sum, Z.mul_comm, Z.div_mul by lia. lia. Qed.

(** The null bit of a column, and each boolean bit, lie in the bit data. *)
Lemma null_bit_in_range columns index :
  (index < length columns)%nat ->
  ((index + BoolCount columns) / 8 < BitBytes columns)%nat.
Proof.
  intros Hi. unfold BitBytes. apply Nat.Div0.div_lt_upper_bound.
  pose proof (Nat.div_mod_eq (BoolCount columns + length columns + 7) 8) as Hd.
  pose proof (Nat.mod_upper_bound (BoolCount columns + length columns + 7) 8 ltac:(lia)). lia.
Qed.

Lemma bool_bit_in_range columns bit :
  (bit < BoolCount columns)%nat -> (bit / 8 < BitBytes columns)%nat.
Proof.
  intros Hi. unfold BitBytes. apply Nat.Div0.div_lt_upper_bound.
  pose proof (Nat.div_mod_eq (BoolCount columns + length columns + 7) 8) as Hd.
  pose proof (Nat.mod_upper_bound (BoolCount columns + length columns + 7) 8 ltac:(lia)). lia.
Qed.
