(* ===== verification/DecoderSafety.v ===== *)
(** * Safety and termination of the decoder

    Whatever the input, decoding returns a value or throws: it never reads out
    of range (a subscript, an iterator range, a null pointer) and its recursion
    and loops end. Both follow from one judgement, [dsafe bs m k Q]: on a
    decoder over the bytes [bs], [m] keeps the decoder's invariant, reads at
    least [k] bytes when it returns, and returns only values satisfying [Q]. *)

From stdpp Require Import base numbers list option strings.
From Stdlib Require Import Strings.Byte.
From S2P Require Import Prelude StringTable Value ZeroRle Encoder Decoder PackedOrder.

#[local] Open Scope Z_scope.

(** ** The judgements *)

Definition any_exn {S} : exn -> S -> Prop := fun _ _ => True.

(** What every step of a reader keeps: the bytes, and an offset within them. *)
Definition reader_step (k : nat) (r r' : Reader) : Prop :=
  m_bytes r' = m_bytes r /\ (m_offset r + k <= m_offset r' <= length (m_bytes r))%nat.

Definition rsafe {A} (m : M Reader A) (k : nat) (Q : A -> Prop) : Prop :=
  forall r, (m_offset r <= length (m_bytes r))%nat ->
    wp m (fun a r' => reader_step k r r' /\ Q a) any_exn r.

Definition saved_ok (s : list (option Value)) : Prop :=
  Forall (fun o => forall v, o = Some v -> value_ok v) s.

Definition dec_inv (bs : list byte) (d : Decoder) : Prop :=
  m_bytes (m_reader d) = bs /\ (m_offset (m_reader d) <= length bs)%nat /\
  saved_ok (m_saved d).

Definition dec_step (bs : list byte) (k : nat) (d d' : Decoder) : Prop :=
  dec_inv bs d' /\ m_value_end d' = m_value_end d /\
  (m_offset (m_reader d) + k <= m_offset (m_reader d'))%nat.

Definition dsafe (bs : list byte) {A} (m : M Decoder A) (k : nat) (Q : A -> Prop) : Prop :=
  forall d, dec_inv bs d -> wp m (fun a d' => dec_step bs k d d' /\ Q a) any_exn d.

(** ** Rules *)

Section reader_rules.
Lemma rsafe_ret {A} (a : A) (Q : A -> Prop) : Q a -> rsafe (mret a) 0 Q.
Proof. intros HQ r Hr. apply wp_ret. split; [split; [done|lia]|done]. Qed.

Lemma rsafe_bind {A B} (m : M Reader A) (f : A -> M Reader B) k1 k2 P Q :
  rsafe m k1 P -> (forall a, P a -> rsafe (f a) k2 Q) -> rsafe (m ≫= f) (k1 + k2) Q.
Proof.
  intros Hm Hf r Hr. apply wp_bind. eapply wp_mono; [by apply Hm|].
  intros a r1 [[Hb1 Ho1] HP]. eapply wp_mono; [apply Hf; [done|rewrite Hb1; lia]|].
  intros b r2 [[Hb2 Ho2] HQ]. rewrite Hb1 in *. split; [split; [congruence|lia]|done].
Qed.

Lemma rsafe_truncated {A} k (Q : A -> Prop) : rsafe truncated k Q.
Proof. intros r _. by apply wp_throw. Qed.

Lemma rsafe_map {A B} (m : M Reader A) (g : A -> B) k (P : A -> Prop) (Q : B -> Prop) :
  rsafe m k P -> (forall a, P a -> Q (g a)) -> rsafe (a ← m; mret (g a)) k Q.
Proof.
  intros Hm HPQ. rewrite <- (Nat.add_0_r k). eapply rsafe_bind; [exact Hm|].
  intros a Ha. apply rsafe_ret. auto.
Qed.
End reader_rules.

Lemma index_at_lt {A} (v : list A) i :
  (i < length v)%nat -> exists a, index_at v i = Ok a /\ v !! i = Some a.
Proof.
  intros Hi. destruct (lookup_lt_is_Some_2 v i Hi) as [a Ha]. exists a.
  unfold index_at. by rewrite Ha.
Qed.

Lemma slice_ok (v : list byte) off n :
  (off + n <= length v)%nat -> slice v off n = Ok (take n (drop off v)).
Proof. intros H. unfold slice. by rewrite (proj2 (Nat.leb_le _ _) H). Qed.

Lemma length_slice (v : list byte) off n :
  (off + n <= length v)%nat -> length (take n (drop off v)) = n.
Proof. intros H. rewrite length_take, length_drop. lia. Qed.

Lemma rsafe_ReadU8 : rsafe ReadU8 1 (fun _ => True).
Proof.
  intros r Hr. unfold ReadU8. wp_step. wp_step.
  destruct (Nat.leb_spec (length (m_bytes r)) (m_offset r)); [by apply wp_throw|].
  destruct (index_at_lt (m_bytes r) (m_offset r)) as (b & Hb & _); [done|].
  wp_step. rewrite Hb. apply wp_lift; [done| |done]. intros b' [= <-].
  repeat wp_step. split; [split; simpl; [done|lia]|done].
Qed.

Lemma rsafe_PeekU8 : rsafe PeekU8 0 (fun _ => True).
Proof.
  intros r Hr. unfold PeekU8. wp_step. wp_step.
  destruct (Nat.leb_spec (length (m_bytes r)) (m_offset r)); [by apply wp_throw|].
  destruct (index_at_lt (m_bytes r) (m_offset r)) as (b & Hb & _); [done|].
  rewrite Hb. apply wp_lift; [done| |done]. intros b' [= <-].
  split; [split; [done|lia]|done].
Qed.

(** [RequireBytes] makes the reads after it fall inside the stream. *)
Lemma wp_RequireBytes count Q r :
  (m_offset r <= length (m_bytes r))%nat ->
  ((m_offset r + Z.to_nat count <= length (m_bytes r))%nat -> Q tt r) ->
  wp (RequireBytes count) Q any_exn r.
Proof.
  intros Hr HQ. unfold RequireBytes. wp_step. wp_step.
  destruct (Z.ltb_spec (Z.of_nat (Remaining r)) count); [by apply wp_throw|].
  apply wp_ret, HQ. unfold Remaining in *. lia.
Qed.

Lemma rsafe_read_le n : rsafe (read_le n) n (in_u (8 * Z.of_nat n)).
Proof.
  intros r Hr. unfold read_le. wp_step. apply wp_RequireBytes; [done|].
  rewrite Nat2Z.id. intros Hn. wp_step. wp_step. wp_step. rewrite slice_ok by done.
  apply wp_lift; [done| |done]. intros bs [= <-]. repeat wp_step.
  split; [split; simpl; [done|lia]|].
  pose proof (le_value_range (take n (drop (m_offset r) (m_bytes r)))) as Hrange.
  by rewrite length_slice in Hrange.
Qed.

Lemma rsafe_ReadBytes count :
  rsafe (ReadBytes count) (Z.to_nat count) (fun bs => length bs = Z.to_nat count).
Proof.
  intros r Hr. unfold ReadBytes. wp_step. apply wp_RequireBytes; [done|].
  intros Hn. wp_step. wp_step. wp_step. rewrite slice_ok by done.
  apply wp_lift; [done| |done]. intros bs [= <-]. repeat wp_step.
  split; [split; simpl; [done|lia]|]. by apply length_slice.
Qed.

Lemma rsafe_weaken {A} (m : M Reader A) k k' (Q Q' : A -> Prop) :
  rsafe m k Q -> (k' <= k)%nat -> (forall a, Q a -> Q' a) -> rsafe m k' Q'.
Proof.
  intros Hm Hk HQ r Hr. eapply wp_mono; [by apply Hm|].
  intros a r' [[? ?] ?]. split; [split; [done|lia]|auto].
Qed.

Lemma rsafe_ReadSizeEx : rsafe ReadSizeEx 1 (in_u 32).
Proof.
  unfold ReadSizeEx. change 1%nat with (1 + 0)%nat. eapply rsafe_bind; [apply rsafe_ReadU8|].
  intros b _. destruct (_ =? _).
  - eapply rsafe_weaken; [apply rsafe_read_le|lia|done].
  - apply rsafe_ret. pose proof (u8_range b). split; [lia|]. change (2 ^ 32) with 4294967296. lia.
Qed.

Section decoder_rules.
Context (bs : list byte).
#[local] Abbreviation dsafe := (dsafe bs).

Lemma dec_step_trans k1 k2 d d1 d2 :
  dec_step bs k1 d d1 -> dec_step bs k2 d1 d2 -> dec_step bs (k1 + k2) d d2.
Proof. intros (_ & He1 & Ho1) (Hi & He2 & Ho2). split_and!; [done|congruence|lia]. Qed.

Lemma dec_step_refl d : dec_inv bs d -> dec_step bs 0 d d.
Proof. intros Hd. split_and!; [done|done|lia]. Qed.

Lemma dsafe_ret {A} (a : A) (Q : A -> Prop) : Q a -> dsafe (mret a) 0 Q.
Proof. intros HQ d Hd. apply wp_ret. split; [by apply dec_step_refl|done]. Qed.

Lemma dsafe_bind {A B} (m : M Decoder A) (f : A -> M Decoder B) k1 k2 (P : A -> Prop) Q :
  dsafe m k1 P -> (forall a, P a -> dsafe (f a) k2 Q) -> dsafe (m ≫= f) (k1 + k2) Q.
Proof.
  intros Hm Hf d Hd. apply wp_bind. eapply wp_mono; [by apply Hm|].
  intros a d1 [Hs1 HP]. eapply wp_mono; [apply Hf; [done|apply Hs1]|].
  intros b d2 [Hs2 HQ]. split; [by eapply dec_step_trans|done].
Qed.

Lemma dsafe_weaken {A} (m : M Decoder A) k k' (Q Q' : A -> Prop) :
  dsafe m k Q -> (k' <= k)%nat -> (forall a, Q a -> Q' a) -> dsafe m k' Q'.
Proof.
  intros Hm Hk HQ d Hd. eapply wp_mono; [by apply Hm|].
  intros a d' [(? & ? & ?) ?]. split; [split_and!; [done|done|lia]|auto].
Qed.

(** Sequencing whose first part is only known to read [k1] bytes. *)
Lemma dsafe_bind_l {A B} (m : M Decoder A) (f : A -> M Decoder B) k (P : A -> Prop) Q :
  dsafe m k P -> (forall a, P a -> dsafe (f a) 0 Q) -> dsafe (m ≫= f) k Q.
Proof.
  intros Hm Hf. eapply dsafe_weaken; [by eapply dsafe_bind|lia|done].
Qed.

Lemma dsafe_bind_r {A B} (m : M Decoder A) (f : A -> M Decoder B) k (P : A -> Prop) Q :
  dsafe m 0 P -> (forall a, P a -> dsafe (f a) k Q) -> dsafe (m ≫= f) k Q.
Proof. intros Hm Hf. by apply (dsafe_bind m f 0 k P). Qed.

Lemma dsafe_throw {A} c what k (Q : A -> Prop) : dsafe (throw c what) k Q.
Proof. intros d _. by apply wp_throw. Qed.

Lemma dsafe_lift {A} (r : res A) (Q : A -> Prop) :
  defined r -> (forall a, r = Ok a -> Q a) -> dsafe (lift r) 0 Q.
Proof.
  intros Hr HQ d Hd. apply wp_lift; [done| |done]. intros a Ha.
  split; [by apply dec_step_refl|auto].
Qed.

Lemma dsafe_rd {A} (m : M Reader A) k (Q : A -> Prop) : rsafe m k Q -> dsafe (rd m) k Q.
Proof.
  intros Hm d (Hb & Ho & Hs). apply wp_on. eapply wp_mono; [apply Hm; by rewrite Hb|].
  intros a r' [[Hb' Ho'] HQ]. rewrite Hb in *. split; [|done].
  split; [|split; [done|simpl; lia]]. split_and!; simpl; [done|lia|done].
Qed.

Lemma dsafe_if {A} (b : bool) (m1 m2 : M Decoder A) k Q :
  (b = true -> dsafe m1 k Q) -> (b = false -> dsafe m2 k Q) ->
  dsafe (if b then m1 else m2) k Q.
Proof. destruct b; auto. Qed.
End decoder_rules.

#[export] Hint Resolve rsafe_ReadU8 rsafe_PeekU8 rsafe_ReadSizeEx rsafe_read_le
  rsafe_ReadBytes : ithax.

(** Applies the rule for the head of a [dsafe] goal. The postcondition of the
    first part of a sequence is taken from its lemma. *)
Ltac ds :=
  match goal with
  | |- dsafe _ (throw _ _) _ _ => apply dsafe_throw
  | |- dsafe _ (mret _) 0 _ => apply dsafe_ret
  | |- dsafe _ (if _ then _ else _) _ _ => apply dsafe_if; intros ?
  | |- dsafe _ (rd _) _ _ => eapply dsafe_rd; eauto with ithax
  end.

(** Sequencing where the first part accounts for all the progress. *)
Ltac ds_first lem := eapply dsafe_bind_l; [lem|].

Section decoder_leaves.
Context (bs : list byte).
#[local] Abbreviation dsafe := (dsafe bs).

Lemma dsafe_rd_u8 : dsafe (rd ReadU8) 1 (fun _ => True).
Proof. apply dsafe_rd, rsafe_ReadU8. Qed.

Lemma dsafe_ReadBoundedSize :
  dsafe ReadBoundedSize 1 (fun n => 0 <= n <= MAX_STRING_BYTES).
Proof.
  unfold ReadBoundedSize. eapply dsafe_bind_l; [apply dsafe_rd, rsafe_ReadSizeEx|].
  intros size Hs. ds; [ds|]. ds. destruct Hs. lia.
Qed.

Lemma dsafe_ReadBoundedCount :
  dsafe ReadBoundedCount 1 (fun n => 0 <= n <= MAX_CONTAINER_COUNT).
Proof.
  unfold ReadBoundedCount. eapply dsafe_bind_l; [apply dsafe_rd, rsafe_ReadSizeEx|].
  intros size Hs. ds; [ds|]. ds. destruct Hs. lia.
Qed.

Lemma dsafe_rd_bytes len : dsafe (rd (ReadBytes len)) 0 (fun l => length l = Z.to_nat len).
Proof.
  apply dsafe_rd. eapply rsafe_weaken; [apply rsafe_ReadBytes|lia|done].
Qed.

Lemma dsafe_read_limited limit len what :
  dsafe (read_limited limit len what) 0 (fun _ => True).
Proof.
  unfold read_limited. ds; [ds|]. eapply dsafe_weaken; [apply dsafe_rd_bytes|lia|done].
Qed.

Lemma dsafe_string {A} limit len what (f : list byte -> A) (Q : A -> Prop) :
  (forall l, Q (f l)) -> dsafe (l ← read_limited limit len what; mret (f l)) 0 Q.
Proof.
  intros HQ. eapply dsafe_bind_l; [apply dsafe_read_limited|]. intros. ds. apply HQ.
Qed.

Lemma le_value_8 l : (length l <= 8)%nat -> in_s 64 (i64 (le_value 0 l)).
Proof. intros _. apply wrap_s_range. lia. Qed.

Lemma dsafe_DecodeVarInteger : dsafe DecodeVarInteger 0 value_ok.
Proof.
  unfold DecodeVarInteger.
  eapply dsafe_weaken; [eapply dsafe_bind_l; [apply dsafe_ReadBoundedSize|]|lia|done].
  intros len Hlen. simpl. ds; [ds; done|]. ds; [ds|].
  eapply dsafe_bind_l; [apply dsafe_rd_bytes|]. intros l Hl. ds. apply wrap_s_range. lia.
Qed.

Lemma dsafe_DecodeStringTableItem : dsafe DecodeStringTableItem 0 value_ok.
Proof.
  unfold DecodeStringTableItem.
  eapply dsafe_weaken; [eapply dsafe_bind_l; [apply dsafe_rd_u8|]|lia|done].
  intros b _. destruct (LookupString b); ds. done.
Qed.

Lemma utf16_to_utf8_even (l : list byte) n :
  length l = (2 * n)%nat -> exists out, utf16_to_utf8 l = Ok out.
Proof.
  revert l. induction n as [|n IH]; intros l Hl.
  { destruct l; [|done]. by exists []. }
  destruct l as [|lo [|hi l]]; simpl in Hl; try lia.
  destruct (IH l) as [out Hout]; [lia|]. cbn [utf16_to_utf8]. rewrite Hout. by eexists.
Qed.

Lemma dsafe_DecodeWStringUcs2 count :
  0 <= count -> dsafe (DecodeWStringUcs2 count) 0 value_ok.
Proof.
  intros Hc. unfold DecodeWStringUcs2. eapply dsafe_bind_l.
  { instantiate (1 := fun l => length l = Z.to_nat (count * 2)).
    ds; [ds|]. apply dsafe_rd_bytes. }
  intros l Hl. simpl in Hl. destruct (utf16_to_utf8_even l (Z.to_nat count)) as [out Hout]; [lia|].
  rewrite Hout. eapply dsafe_bind_l; [by apply (dsafe_lift _ _ (fun _ => True))|].
  intros. ds. done.
Qed.

Lemma dsafe_DecodeSubStream : dsafe DecodeSubStream 0 value_ok.
Proof.
  unfold DecodeSubStream.
  eapply dsafe_weaken; [eapply dsafe_bind_l; [apply dsafe_ReadBoundedSize|]|lia|done].
  intros len Hlen. simpl. eapply dsafe_bind_l; [apply dsafe_rd_bytes|]. intros. ds. done.
Qed.

Lemma dsafe_get_bind {A} (f : Decoder -> M Decoder A) k Q :
  (forall d, dec_inv bs d -> wp (f d) (fun a d' => dec_step bs k d d' /\ Q a) any_exn d) ->
  dsafe (d ← get; f d) k Q.
Proof. intros Hf d Hd. wp_step. wp_step. by apply Hf. Qed.

Lemma dsafe_DecodeSavedElement : dsafe DecodeSavedElement 0 value_ok.
Proof.
  unfold DecodeSavedElement.
  eapply dsafe_weaken; [eapply dsafe_bind_l; [apply dsafe_ReadBoundedSize|]|lia|done].
  intros index Hi. simpl in *. apply dsafe_get_bind. intros d Hd.
  destruct (Z.eqb_spec index 0); simpl; [by apply wp_throw|].
  destruct (Z.ltb_spec (Z.of_nat (length (m_saved d))) index); [by apply wp_throw|].
  destruct (index_at_lt (m_saved d) (Z.to_nat (index - 1))) as (o & Ho & Hl); [lia|].
  rewrite Ho. wp_step. apply wp_lift; [done| |done]. intros o' [= <-].
  destruct o as [v|]; [|by apply wp_throw]. wp_step. split; [by apply dec_step_refl|].
  destruct Hd as (_ & _ & Hs). unfold saved_ok in Hs.
  rewrite Forall_lookup in Hs. by eapply Hs.
Qed.

Lemma dsafe_ReadSaveIndex : dsafe ReadSaveIndex 0 (in_u 32).
Proof.
  unfold ReadSaveIndex. apply dsafe_get_bind. intros d Hd.
  destruct (m_saved d); [by apply wp_throw|].
  destruct (_ <? _); [by apply wp_throw|].
  assert (H : dsafe (rd ReadU32) 0 (in_u 32)) by
    (eapply dsafe_weaken; [apply dsafe_rd, (rsafe_read_le 4)|lia|done]).
  by apply H.
Qed.

Lemma dsafe_store_saved i v : 0 <= i -> value_ok v -> dsafe (store_saved i v) 0 (fun _ => True).
Proof.
  intros Hi Hv. unfold store_saved. apply dsafe_get_bind. intros d Hd.
  destruct (Z.eqb_spec i 0); simpl; [by apply wp_throw|].
  destruct (Z.ltb_spec (Z.of_nat (length (m_saved d))) i); [by apply wp_throw|].
  unfold assign. destruct (Nat.ltb_spec (Z.to_nat (i - 1)) (length (m_saved d))); [|lia].
  wp_step. apply wp_lift; [done| |done]. intros s [= <-]. wp_step. split; [|done].
  destruct Hd as (Hb & Ho & Hs). split_and!; simpl; [|done|lia]. split_and!; simpl; [done|done|].
  apply Forall_insert; [done|]. by intros ? [= <-].
Qed.
End decoder_leaves.

(** ** Containers *)

Section decoder_containers.
Context (bs : list byte).
#[local] Abbreviation dsafe := (dsafe bs).
Context (decode : M Decoder Value).
Hypothesis Hdecode : dsafe decode 1 value_ok.

(** [decode] where its progress is not counted. *)
Lemma dsafe_decode_0 : dsafe decode 0 value_ok.
Proof using Hdecode. eapply dsafe_weaken; [exact Hdecode|lia|done]. Qed.

Lemma dsafe_decode_times {A} n (m : M Decoder A) Q :
  dsafe m 0 Q -> dsafe (decode_times n m) 0 (Forall Q).
Proof.
  intros Hm. induction n as [|n IH]; simpl; [ds; constructor|].
  eapply dsafe_bind_l; [exact Hm|]. intros v Hv.
  eapply dsafe_bind_l; [exact IH|]. intros vs Hvs. ds. by constructor.
Qed.

Lemma dsafe_entry_vk :
  dsafe (value ← decode; key ← decode; mret (key, value)) 0 entry_ok.
Proof using Hdecode.
  eapply dsafe_bind_l; [apply dsafe_decode_0|]. intros v Hv.
  eapply dsafe_bind_l; [apply dsafe_decode_0|]. intros k Hk. by ds.
Qed.

Lemma dsafe_entry_kv :
  dsafe (key ← decode; value ← decode; mret (key, value)) 1 entry_ok.
Proof using Hdecode.
  eapply dsafe_bind_l; [exact Hdecode|]. intros k Hk.
  eapply dsafe_bind_l; [apply dsafe_decode_0|]. intros v Hv. by ds.
Qed.

Lemma dsafe_DecodeTuple count : dsafe (DecodeTuple decode count) 0 value_ok.
Proof using Hdecode.
  unfold DecodeTuple. eapply dsafe_bind_l; [apply dsafe_decode_times, dsafe_decode_0|].
  intros vs Hvs. ds. by apply value_ok_tuple.
Qed.

Lemma dsafe_DecodeList count : dsafe (DecodeList decode count) 0 value_ok.
Proof using Hdecode.
  unfold DecodeList. eapply dsafe_bind_l; [apply dsafe_decode_times, dsafe_decode_0|].
  intros vs Hvs. ds. by apply value_ok_list.
Qed.

Lemma dsafe_DecodeDict count : dsafe (DecodeDict decode count) 0 value_ok.
Proof using Hdecode.
  unfold DecodeDict. eapply dsafe_bind_l; [apply dsafe_decode_times, dsafe_entry_vk|].
  intros vs Hvs. ds. by apply value_ok_dict.
Qed.

Lemma dsafe_DecodeObject : dsafe (DecodeObject decode) 0 value_ok.
Proof using Hdecode.
  unfold DecodeObject. eapply dsafe_bind_l; [apply dsafe_decode_0|]. intros t Ht.
  destruct (IsString t) eqn:Hk; simpl; [|ds].
  apply bool_decide_eq_true in Hk. destruct t; try done. simpl.
  eapply dsafe_bind_l; [apply dsafe_decode_0|]. intros args Hargs.
  eapply dsafe_bind_l; [by apply (dsafe_lift _ _ (fun _ => True))|].
  intros s _. by ds.
Qed.

(** The loop ends because each turn reads at least one of the bytes left. *)
Lemma dsafe_decode_until {A} fuel what (m : M Decoder A) Q d :
  dsafe m 1 Q -> dec_inv bs d ->
  (length bs - m_offset (m_reader d) < fuel)%nat ->
  wp (decode_until fuel what m) (fun a d' => dec_step bs 0 d d' /\ Forall Q a) any_exn d.
Proof.
  intros Hm. revert d. induction fuel as [|fuel IH]; intros d Hd Hf; [lia|]. simpl.
  wp_step. wp_step. destruct (_ <=? _); [by apply wp_throw|]. wp_step.
  eapply wp_mono; [apply (dsafe_rd bs _ _ _ rsafe_PeekU8 d Hd)|]. intros b d1 [Hs1 _].
  destruct (_ =? _).
  - wp_step. eapply wp_mono; [apply (dsafe_rd_u8 bs); apply Hs1|]. intros _ d2 [Hs2 _].
    wp_step. split; [|constructor]. pose proof (dec_step_trans _ _ _ _ _ _ Hs1 Hs2) as (? & ? & ?).
    split_and!; [done|done|lia].
  - wp_step. eapply wp_mono; [apply Hm; apply Hs1|]. intros v d2 [Hs2 Hv].
    wp_step. pose proof (dec_step_trans _ _ _ _ _ _ Hs1 Hs2) as Hs3.
    eapply wp_mono; [apply IH; [apply Hs3|]|].
    { destruct Hs3 as ((? & Hle & ?) & _ & Ho). destruct Hd as (_ & Hd & _). lia. }
    intros vs d3 [Hs4 Hvs]. wp_step. split; [|by constructor].
    pose proof (dec_step_trans _ _ _ _ _ _ Hs3 Hs4) as (? & ? & ?). split_and!; [done|done|lia].
Qed.

Lemma dsafe_DecodeObjectEx is_type2 : dsafe (DecodeObjectEx decode is_type2) 0 value_ok.
Proof using Hdecode.
  unfold DecodeObjectEx. eapply dsafe_bind_l; [apply dsafe_decode_0|]. intros h Hh d Hd.
  wp_step. wp_step. wp_step.
  assert (Hfuel : loop_fuel d = S (length bs)) by (unfold loop_fuel; by rewrite (proj1 Hd)).
  rewrite Hfuel.
  eapply wp_mono; [apply (dsafe_decode_until _ _ _ value_ok); [done|done|lia]|].
  intros items d1 [Hs1 Hitems]. wp_step.
  eapply wp_mono;
    [apply (dsafe_decode_until _ _ _ entry_ok); [apply dsafe_entry_kv|apply Hs1|lia]|].
  intros entries d2 [Hs2 Hentries]. wp_step.
  split; [by apply (dec_step_trans bs 0 0 _ _ _ Hs1)|]. by apply value_ok_objectex.
Qed.

Lemma dsafe_DecodeChecksumedStream : dsafe (DecodeChecksumedStream decode) 0 value_ok.
Proof using Hdecode.
  unfold DecodeChecksumedStream.
  eapply dsafe_weaken; [eapply dsafe_bind_l; [apply dsafe_rd, (rsafe_read_le 4)|]|lia|done].
  intros c Hc. simpl. eapply dsafe_bind_l; [apply dsafe_decode_0|]. intros v Hv. by ds.
Qed.
End decoder_containers.

(** ** Packed rows *)

Lemma mapM_res_defined {A B} (f : A -> res B) l :
  Forall (fun x => defined (f x)) l -> defined (mapM f l).
Proof.
  induction 1 as [|x l Hx _ IH]; [done|]. cbn. destruct (f x); try done.
  cbn. by destruct (mapM f l).
Qed.

Lemma ExtractColumns_defined header : defined (ExtractColumns header).
Proof.
  unfold ExtractColumns. destruct header; try done. cbn.
  destruct (is_token _ _); [|done]. simpl.
  destruct items as [|[] [|]]; try done. destruct (_ <? _); [done|].
  apply mapM_res_defined, Forall_forall. intros c _.
  unfold ExtractColumn. repeat case_match; done.
Qed.

Lemma read_le_at_ok n data off :
  (off + n <= length data)%nat ->
  exists v, read_le_at n data off = Ok v /\ in_u (8 * Z.of_nat n) v.
Proof.
  intros H. unfold read_le_at. rewrite slice_ok by done. eexists. split; [done|].
  pose proof (le_value_range (take n (drop off data))) as Hr. by rewrite length_slice in Hr.
Qed.

Lemma double_of_float_range bits : in_u 32 bits -> in_u 64 (double_of_float bits).
Proof.
  intros Hb. unfold double_of_float.
  assert (Hs : 0 <= Z.shiftr bits 31 <= 1).
  { rewrite Z.shiftr_div_pow2 by lia. unfold in_u in Hb. split; [apply Z.div_pos; lia|].
    apply Z.lt_succ_r, Z.div_lt_upper_bound; lia. }
  assert (He : 0 <= Z.land (Z.shiftr bits 23) 255 <= 255).
  { change 255 with (Z.ones 8) at 1 2. rewrite Z.land_ones by lia.
    pose proof (Z.mod_pos_bound (Z.shiftr bits 23) (2 ^ 8) ltac:(lia)). lia. }
  assert (Hm : 0 <= Z.land bits (Z.ones 23) < 2 ^ 23).
  { rewrite Z.land_ones by lia. apply Z.mod_pos_bound. lia. }
  assert (Hq : 0 <= Z.lor (Z.land bits (Z.ones 23)) (2 ^ 22) < 2 ^ 23).
  { split; [apply Z.lor_nonneg; lia|]. apply Z.log2_lt_pow2; [|rewrite Z.log2_lor by lia].
    - assert (Z.lor (Z.land bits (Z.ones 23)) (2 ^ 22) <> 0);
        [|pose proof (proj2 (Z.lor_nonneg (Z.land bits (Z.ones 23)) (2 ^ 22))); lia].
      intros H%Z.lor_eq_0_iff. lia.
    - apply Z.max_lub_lt; [|done].
      destruct (Z.eq_dec (Z.land bits (Z.ones 23)) 0) as [->|]; [done|].
      apply Z.log2_lt_pow2; lia. }
  revert Hs He Hm Hq. generalize (Z.shiftr bits 31) (Z.land (Z.shiftr bits 23) 255)
    (Z.lor (Z.land bits (Z.ones 23)) (2 ^ 22)) (Z.land bits (Z.ones 23)).
  intros s e q m Hs He Hm Hq. unfold in_u.
  destruct (Z.eqb_spec e 255); [destruct (Z.eqb_spec m 0); lia|].
  destruct (Z.eqb_spec e 0); [|lia]. destruct (Z.eqb_spec m 0); [lia|].
  assert (Hk : 0 <= Z.log2 m < 23) by (split; [apply Z.log2_nonneg|apply Z.log2_lt_pow2; lia]).
  pose proof (Z.log2_spec m ltac:(lia)) as [Hlo Hhi].
  assert (2 ^ 52 <= m * 2 ^ (52 - Z.log2 m) < 2 ^ 53).
  { replace (2 ^ 52) with (2 ^ Z.log2 m * 2 ^ (52 - Z.log2 m))
      by (rewrite <- Z.pow_add_r by lia; f_equal; lia).
    replace (2 ^ 53) with (2 ^ Z.succ (Z.log2 m) * 2 ^ (52 - Z.log2 m))
      by (rewrite <- Z.pow_add_r by lia; f_equal; lia).
    assert (0 < 2 ^ (52 - Z.log2 m)) by (apply Z.pow_pos_nonneg; lia). nia. }
  lia.
Qed.

(** A scalar of a fixed-size column is read inside the packed part. *)
Lemma ReadPackedScalar_safe data off type :
  Byte.eqb type Db.Bool = false -> DbTypeSizeBits type <> 0 ->
  (off + field_bytes type <= length data)%nat ->
  defined (ReadPackedScalar data off type) /\
  forall v, ReadPackedScalar data off type = Ok v -> value_ok v.
Proof.
  intros Hb Hnz Hlen.
  assert (Hint : forall n (g : Z -> Z), (off + n <= length data)%nat ->
    (forall z, in_u (8 * Z.of_nat n) z -> in_s 64 (g z)) ->
    let r := v ← (v ← read_le_at n data off; Ok (g v)); Ok (VInt v) in
    defined r /\ forall v, r = Ok v -> value_ok v).
  { intros n g Hn Hg. destruct (read_le_at_ok n data off Hn) as (z & -> & Hz).
    simpl. split; [done|]. intros v [= <-]. by apply Hg. }
  assert (Hone : forall g : Z -> Z, (off + 1 <= length data)%nat ->
    (forall b, in_s 64 (g (u8 b))) ->
    let r := b ← index_at data off; Ok (VInt (g (u8 b))) in
    defined r /\ forall v, r = Ok v -> value_ok v).
  { intros g Hn Hg. destruct (index_at_lt data off) as (b & -> & _); [lia|].
    simpl. split; [done|]. intros v [= <-]. apply Hg. }
  assert (Hwiden : forall w z, 0 < w <= 64 -> in_s w z -> in_s 64 z).
  { unfold in_s. intros w z Hw Hz.
    assert (2 ^ (w - 1) <= 2 ^ (64 - 1)) by (apply Z.pow_le_mono_r; lia). lia. }
  assert (Hunsigned : forall w z, 0 <= w < 64 -> in_u w z -> in_s 64 z).
  { unfold in_s, in_u. intros w z Hw Hz.
    assert (2 ^ w <= 2 ^ (64 - 1)) by (apply Z.pow_le_mono_r; lia). lia. }
  pose proof (scalar_type_cases type Hb Hnz) as Hin.
  repeat (destruct Hin as [<-|Hin]); try done; clear Hb Hnz.
  - apply (Hint 8%nat i64 Hlen). intros; apply wrap_s_range; lia.
  - apply (Hint 8%nat i64 Hlen). intros; apply wrap_s_range; lia.
  - apply (Hint 8%nat i64 Hlen). intros; apply wrap_s_range; lia.
  - apply (Hint 8%nat i64 Hlen). intros; apply wrap_s_range; lia.
  - apply (Hint 4%nat i32 Hlen). intros. apply (Hwiden 32), wrap_s_range; lia.
  - destruct (read_le_at_ok 4 data off Hlen) as (z & Hz & Hr).
    change (ReadPackedScalar data off Db.Ui4) with
      (v ← read_le_at 4 data off; Ok (VInt v)).
    rewrite Hz. split; [done|]. intros v [= <-]. by apply (Hunsigned 32).
  - destruct (read_le_at_ok 4 data off Hlen) as (z & Hz & Hr).
    change (ReadPackedScalar data off Db.R4) with
      (v ← read_le_at 4 data off; Ok (VReal (double_of_float v))).
    rewrite Hz. split; [done|]. intros v [= <-]. by apply double_of_float_range.
  - destruct (read_le_at_ok 8 data off Hlen) as (z & Hz & Hr).
    change (ReadPackedScalar data off Db.R8) with
      (v ← read_le_at 8 data off; Ok (VReal v)).
    rewrite Hz. split; [done|]. by intros v [= <-].
  - apply (Hint 2%nat i16 Hlen). intros. apply (Hwiden 16), wrap_s_range; lia.
  - destruct (read_le_at_ok 2 data off Hlen) as (z & Hz & Hr).
    change (ReadPackedScalar data off Db.Ui2) with
      (v ← read_le_at 2 data off; Ok (VInt v)).
    rewrite Hz. split; [done|]. intros v [= <-]. by apply (Hunsigned 16).
  - apply (Hone i8 Hlen). intros. apply (Hwiden 8), wrap_s_range; lia.
  - apply (Hone (fun z => z) Hlen). intros b. apply (Hunsigned 8); [lia|apply u8_range].
Qed.

(** *** The row under construction *)

(** The pointer at [index] is not null. *)
Definition set_at (values : list (option Value)) (index : nat) : Prop :=
  exists v, values !! index = Some (Some v).

(** A row of [n] pointers, the non-null ones to well-formed values. *)
Definition row_inv (n : nat) (values : list (option Value)) : Prop :=
  length values = n /\ saved_ok values.

(** From [values] to [values'], the positions of [order] with a size that
    satisfies [P] are filled and nothing is emptied. *)
Definition row_step (P : Z -> Prop) (order : list (Z * nat))
    (values values' : list (option Value)) : Prop :=
  (forall i, set_at values i -> set_at values' i) /\
  (forall size i, (size, i) ∈ order -> P size -> set_at values' i).

Lemma assign_ok n (values : list (option Value)) i v :
  row_inv n values -> (i < n)%nat -> value_ok v ->
  exists values', assign values i v = Ok values' /\ row_inv n values' /\
    set_at values' i /\ forall j, set_at values j -> set_at values' j.
Proof.
  intros [Hlen Hs] Hi Hv. unfold assign.
  destruct (Nat.ltb_spec i (length values)); [|lia]. eexists. split; [done|]. split_and!.
  - split; [by rewrite length_insert|]. apply Forall_insert; [done|]. by intros ? [= <-].
  - exists v. by apply list_lookup_insert_eq.
  - intros j [w Hw]. destruct (decide (i = j)) as [<-|].
    + exists v. by apply list_lookup_insert_eq.
    + exists w. by rewrite list_lookup_insert_ne.
Qed.

Lemma row_step_nil P values : row_step P [] values values.
Proof. split; [done|]. by intros ? ? ?%not_elem_of_nil. Qed.

Lemma row_step_skip (P : Z -> Prop) size i order values values' :
  ~ P size -> row_step P order values values' ->
  row_step P ((size, i) :: order) values values'.
Proof.
  intros HP [Hm Ho]. split; [done|]. intros s j [[= -> ->]|Hin]%elem_of_cons Hs; eauto. done.
Qed.

Lemma row_step_cons P size i order values values1 values' :
  set_at values1 i -> (forall j, set_at values j -> set_at values1 j) ->
  row_step P order values1 values' -> row_step P ((size, i) :: order) values values'.
Proof.
  intros Hi Hv [Hm Ho]. split; [auto|]. intros s j [[= -> ->]|Hin]%elem_of_cons Hs; eauto.
Qed.

Lemma test_bit_ok unpacked base bit :
  (base + bit / 8 < length unpacked)%nat -> exists b, test_bit unpacked base bit = Ok b.
Proof.
  intros H. unfold test_bit. destruct (index_at_lt unpacked _ H) as (b & -> & _). by eexists.
Qed.

(** A defined computation whose results satisfy [Q]. *)
Definition rspec {A} (r : res A) (Q : A -> Prop) : Prop :=
  defined r /\ forall a, r = Ok a -> Q a.

Lemma rspec_ok {A} (a : A) (Q : A -> Prop) : Q a -> rspec (Ok a) Q.
Proof. intros HQ. split; [done|]. by intros ? [= <-]. Qed.

Lemma rspec_bind {A B} (r : res A) (k : A -> res B) P Q :
  rspec r P -> (forall a, P a -> rspec (k a) Q) -> rspec (r ≫= k) Q.
Proof.
  intros [Hd HP] Hk. destruct r as [a| | |]; try done. apply Hk. auto.
Qed.

Lemma rspec_mono {A} (r : res A) (P Q : A -> Prop) :
  rspec r P -> (forall a, P a -> Q a) -> rspec r Q.
Proof. intros [Hd HP] HPQ. split; [done|]. auto. Qed.

Section unpack.
Context (columns : list PackedColumn) (unpacked : list byte) (data_bytes : nat).
Hypothesis Hlen : length unpacked = (data_bytes + BitBytes columns)%nat.

Definition order_ok (order : list (Z * nat)) : Prop :=
  forall size i, (size, i) ∈ order ->
    exists c, columns !! i = Some c /\ size = DbTypeSizeBits (col_type c).

(** The room the fields of the rest of the order take. *)
Definition room (order : list (Z * nat)) (offset bool_offset : nat) : Prop :=
  (offset + order_sum field_bytes columns order <= data_bytes)%nat /\
  (bool_offset + order_sum field_bool columns order <= BoolCount columns)%nat.

Lemma room_cons size i order c offset bool_offset :
  columns !! i = Some c -> room ((size, i) :: order) offset bool_offset ->
  room order (offset + field_bytes (col_type c)) (bool_offset + field_bool (col_type c)) /\
  (offset + field_bytes (col_type c) <= data_bytes)%nat /\
  (bool_offset + field_bool (col_type c) <= BoolCount columns)%nat.
Proof.
  intros Hc [H1 H2]. rewrite (order_sum_cons _ _ _ _ _ _ Hc) in H1.
  rewrite (order_sum_cons _ _ _ _ _ _ Hc) in H2.
  unfold room. split_and!; lia.
Qed.

(** A field of fixed size is null, a bit or a scalar, all within the row. *)
Lemma unpack_fields_safe order values offset bool_offset :
  order_ok order -> room order offset bool_offset -> row_inv (length columns) values ->
  rspec (unpack_fields columns unpacked data_bytes (BoolCount columns) order values
           offset bool_offset)
    (fun values' => row_inv (length columns) values' /\
                    row_step (fun size => size <> 0) order values values').
Proof using Hlen.
  revert values offset bool_offset.
  induction order as [|[size i] order IH]; intros values offset bool_offset Ho Hr Hv.
  { apply rspec_ok. split; [done|apply row_step_nil]. }
  destruct (Ho size i) as (c & Hc & ->); [apply elem_of_cons; by left|].
  assert (Ho' : order_ok order) by (intros s j ?; apply Ho, elem_of_cons; by right).
  destruct (room_cons _ _ _ _ _ _ Hc Hr) as (Hr' & Hoff & Hbool).
  assert (Hi : (i < length columns)%nat) by (by eapply lookup_lt_Some).
  cbn [unpack_fields]. unfold index_at at 1. rewrite Hc. cbn [mbind res_bind].
  destruct (Z.eqb_spec (DbTypeSizeBits (col_type c)) 0) as [Hz|Hz].
  { assert (room order offset bool_offset) by (destruct Hr'; split; lia).
    eapply rspec_mono; [by apply IH|]. intros values' [? ?]. split; [done|].
    apply row_step_skip; [by intros []|done]. }
  destruct (test_bit_ok unpacked data_bytes (i + BoolCount columns)) as [null ->].
  { pose proof (null_bit_in_range columns i Hi). lia. }
  cbn [mbind res_bind].
  assert (Hstep : forall r : res (list (option Value)),
    rspec r (fun v1 => exists v, value_ok v /\ assign values i v = Ok v1) ->
    forall o b, room order o b ->
    rspec (v1 ← r; unpack_fields columns unpacked data_bytes (BoolCount columns) order v1 o b)
      (fun values' => row_inv (length columns) values' /\
         row_step (fun size => size <> 0) ((DbTypeSizeBits (col_type c), i) :: order)
           values values')).
  { intros r Hspec o b Hroom. eapply rspec_bind; [exact Hspec|].
    intros v1 (v & Hvok & Ha). destruct (assign_ok _ values i v Hv Hi Hvok)
      as (v1' & Ha' & Hv1 & Hset & Hmono). assert (v1' = v1) as -> by congruence.
    eapply rspec_mono; [by apply IH|]. intros values' [? ?]. split; [done|].
    by eapply row_step_cons. }
  assert (Hassign : forall v, value_ok v ->
    rspec (assign values i v) (fun v1 => exists v, value_ok v /\ assign values i v = Ok v1)).
  { intros v Hvok. destruct (assign_ok _ values i v Hv Hi Hvok) as (v1 & Ha & _).
    rewrite Ha. apply rspec_ok. eauto. }
  destruct (Byte.eqb (col_type c) Db.Bool) eqn:Hb; apply Hstep.
  - destruct null; [by apply Hassign|].
    destruct (test_bit_ok unpacked data_bytes bool_offset) as [bit ->].
    { unfold field_bool in Hbool. rewrite Hb in Hbool.
      pose proof (bool_bit_in_range columns bool_offset ltac:(lia)). lia. }
    by apply Hassign.
  - unfold field_bool, field_bytes in Hr'. rewrite Hb in Hr'.
    replace (S bool_offset) with (bool_offset + 1)%nat by lia.
    by rewrite Nat.add_0_r in Hr'.
  - destruct null; [by apply Hassign|].
    destruct (ReadPackedScalar_safe unpacked offset (col_type c) Hb Hz) as [Hd Hok]; [lia|].
    eapply rspec_bind; [by split; [exact Hd|exact Hok]|]. intros v Hvok. by apply Hassign.
  - unfold field_bool, field_bytes in Hr'. rewrite Hb in Hr'.
    by rewrite Nat.add_0_r in Hr'.
Qed.
End unpack.

Lemma order_ok_SizeOrder columns : order_ok columns (SizeOrder columns).
Proof. intros size i Hin. by apply elem_of_SizeOrder. Qed.

(** Every pointer of a row is set once both loops have visited the order. *)
Lemma all_set_ok n values :
  row_inv n values -> (forall i, (i < n)%nat -> set_at values i) ->
  rspec (all_set values) (Forall value_ok).
Proof.
  intros [Hlen Hs] Hset. unfold all_set. subst n. revert Hs Hset.
  induction values as [|o values IH]; intros Hs Hset; cbn; [apply rspec_ok; constructor|].
  destruct (Hset 0%nat) as [v Hv]; [simpl; lia|]. injection Hv as ->.
  apply Forall_cons in Hs as [Hv Hs]. cbn.
  eapply rspec_bind; [apply IH; [done|]|].
  - intros i Hi. destruct (Hset (S i)) as [w Hw]; [simpl; lia|]. by exists w.
  - intros vs Hvs. apply rspec_ok. constructor; auto.
Qed.

Section decode_row.
Context (bs : list byte).
#[local] Abbreviation dsafe := (dsafe bs).

Lemma dsafe_spec {A} (r : res A) (Q : A -> Prop) : rspec r Q -> dsafe (lift r) 0 Q.
Proof. intros [Hd HQ]. by apply dsafe_lift. Qed.

Lemma dsafe_decode_loose (decode : M Decoder Value) n order values :
  dsafe decode 0 value_ok -> (forall size i, (size, i) ∈ order -> (i < n)%nat) ->
  row_inv n values ->
  dsafe (decode_loose decode order values) 0
    (fun values' => row_inv n values' /\ row_step (fun size => size = 0) order values values').
Proof.
  intros Hdec. revert values. induction order as [|[size i] order IH]; intros values Ho Hv.
  { apply dsafe_ret. split; [done|apply row_step_nil]. }
  assert (Ho' : forall s j, (s, j) ∈ order -> (j < n)%nat)
    by (intros s j Hj; apply (Ho s), elem_of_cons; by right).
  assert (Hi : (i < n)%nat) by (apply (Ho size), elem_of_cons; by left).
  cbn [decode_loose]. destruct (Z.eqb_spec size 0) as [->|Hnz].
  - eapply dsafe_bind_l; [exact Hdec|]. intros v Hvok.
    destruct (assign_ok n values i v Hv Hi Hvok) as (v1 & -> & Hv1 & Hset & Hmono).
    eapply dsafe_bind_l; [apply dsafe_spec, (rspec_ok _ (fun v => v = v1)); done|].
    intros ? ->. eapply dsafe_weaken; [by apply IH|lia|]. intros v2 [? ?].
    split; [done|]. by eapply row_step_cons.
  - eapply dsafe_weaken; [by apply IH|lia|]. intros v2 [? ?].
    split; [done|]. by apply row_step_skip.
Qed.

Lemma dsafe_DecodePackedRow (decode : M Decoder Value) :
  dsafe decode 0 value_ok -> dsafe (DecodePackedRow decode) 0 value_ok.
Proof.
  intros Hdec. unfold DecodePackedRow. eapply dsafe_bind_l; [exact Hdec|].
  intros header Hh. ds; [ds|]. eapply dsafe_bind_l.
  { apply (dsafe_lift bs _ (fun _ => True)); [apply ExtractColumns_defined|done]. }
  intros columns _. eapply dsafe_bind_l.
  { eapply dsafe_weaken; [apply dsafe_ReadBoundedSize|lia|done]. }
  intros rle_len Hrle. simpl in Hrle. ds; [ds|].
  eapply dsafe_bind_l; [apply dsafe_rd_bytes|]. intros rle _.
  eapply dsafe_bind_l; [apply dsafe_spec, ZeroDecompressTo_spec|].
  intros unpacked Hlen. simpl in Hlen. rewrite FixedBits_bytes in Hlen.
  ds; [ds|]. cbn zeta. eapply dsafe_bind_l.
  { apply dsafe_spec, (unpack_fields_safe columns unpacked (length unpacked - BitBytes columns)%nat ltac:(lia)).
    - apply order_ok_SizeOrder.
    - split; rewrite order_sum_SizeOrder; [lia|by rewrite BoolCount_sum].
    - split; [apply length_replicate|]. apply Forall_replicate. by intros. }
  intros v1 [Hv1 [_ Hs1]]. eapply dsafe_bind_l.
  { apply dsafe_decode_loose; [exact Hdec| |exact Hv1]. intros size i Hin.
    apply elem_of_SizeOrder in Hin as (c & Hc & _). by eapply lookup_lt_Some. }
  intros v2 [Hv2 [Hm2 Hs2]]. eapply dsafe_bind_l.
  { apply dsafe_spec, (all_set_ok _ _ Hv2). intros i Hi.
    destruct (lookup_lt_is_Some_2 columns i Hi) as [c Hc].
    assert (Hin : (DbTypeSizeBits (col_type c), i) ∈ SizeOrder columns)
      by (apply elem_of_SizeOrder; eauto).
    destruct (Z.eq_dec (DbTypeSizeBits (col_type c)) 0); [by eapply Hs2|].
    apply Hm2. by eapply Hs1. }
  intros vs Hvs. ds. by apply value_ok_packedrow.
Qed.

Lemma dsafe_rd_int {A} (m : M Reader A) k (P : A -> Prop) (f : A -> Value) :
  rsafe m k P -> (forall a, P a -> value_ok (f a)) ->
  dsafe (v ← rd m; mret (f v)) 0 value_ok.
Proof.
  intros Hm Hf. eapply dsafe_bind_l.
  { eapply dsafe_weaken; [by apply dsafe_rd|lia|done]. }
  intros a Ha. ds. by apply Hf.
Qed.

Lemma rsafe_signed (m : M Reader Z) k w :
  0 < w -> rsafe m k (fun _ => True) -> rsafe (v ← m; mret (wrap_s w v)) k (in_s w).
Proof. intros Hw Hm. eapply rsafe_map; [exact Hm|]. intros. by apply wrap_s_range. Qed.

Lemma in_s_widen w z : 0 < w <= 64 -> in_s w z -> in_s 64 z.
Proof.
  unfold in_s. intros Hw Hz.
  assert (2 ^ (w - 1) <= 2 ^ (64 - 1)) by (apply Z.pow_le_mono_r; lia). lia.
Qed.

Lemma dsafe_sized {A} (size : M Decoder A) (P : A -> Prop) (k : A -> M Decoder Value) n :
  dsafe size n P -> (forall a, P a -> dsafe (k a) 0 value_ok) ->
  dsafe (a ← size; k a) 0 value_ok.
Proof.
  intros Hs Hk. eapply dsafe_weaken; [by eapply dsafe_bind_l|lia|done].
Qed.

Lemma dsafe_DecodeOpcode (decode : M Decoder Value) opcode :
  dsafe decode 1 value_ok -> dsafe (DecodeOpcode decode opcode) 0 value_ok.
Proof.
  intros Hdec. assert (Hdec0 : dsafe decode 0 value_ok)
    by (eapply dsafe_weaken; [exact Hdec|lia|done]).
  assert (Hsigned : forall n w, 0 < w <= 64 ->
    dsafe (v ← rd (v ← read_le n; mret (wrap_s w v)); mret (VInt v)) 0 value_ok).
  { intros n w Hw. eapply dsafe_rd_int.
    - apply (rsafe_signed _ n); [lia|]. eapply rsafe_weaken; [apply rsafe_read_le|done|done].
    - intros v Hv. by apply (in_s_widen w). }
  unfold DecodeOpcode. destruct (opcode_of opcode) as [[]|];
    try (by apply dsafe_ret); try apply dsafe_throw.
  - eapply dsafe_sized; [apply dsafe_ReadBoundedSize|]. intros. by apply dsafe_string.
  - apply Hsigned. lia.
  - apply Hsigned. lia.
  - apply Hsigned. lia.
  - eapply dsafe_rd_int.
    + eapply (rsafe_map ReadU8 (fun b => i8 (u8 b)) 1 _ (in_s 8)); [apply rsafe_ReadU8|].
      intros. apply wrap_s_range. lia.
    + intros v Hv. by apply (in_s_widen 8).
  - eapply dsafe_rd_int; [apply rsafe_read_le|]. by intros.
  - eapply dsafe_sized; [apply dsafe_ReadBoundedSize|]. intros. by apply dsafe_string.
  - eapply dsafe_sized; [apply dsafe_rd_u8|]. intros. by apply dsafe_ret.
  - eapply dsafe_sized; [apply dsafe_rd_u8|]. intros. by apply dsafe_string.
  - apply dsafe_DecodeStringTableItem.
  - eapply dsafe_sized; [apply dsafe_ReadBoundedSize|]. intros ? [? _].
    by apply dsafe_DecodeWStringUcs2.
  - eapply dsafe_sized; [apply dsafe_ReadBoundedSize|]. intros. by apply dsafe_string.
  - eapply dsafe_sized; [apply dsafe_ReadBoundedCount|]. intros. by apply dsafe_DecodeTuple.
  - eapply dsafe_sized; [apply dsafe_ReadBoundedCount|]. intros. by apply dsafe_DecodeList.
  - eapply dsafe_sized; [apply dsafe_ReadBoundedCount|]. intros. by apply dsafe_DecodeDict.
  - by apply dsafe_DecodeObject.
  - eapply dsafe_sized; [exact Hdec|]. intros v Hv. by apply dsafe_ret.
  - apply dsafe_DecodeSavedElement.
  - by apply dsafe_DecodeChecksumedStream.
  - eapply dsafe_sized; [apply dsafe_ReadBoundedSize|]. intros. by apply dsafe_string.
  - by apply dsafe_DecodeObjectEx.
  - by apply dsafe_DecodeObjectEx.
  - eapply dsafe_sized; [exact Hdec|]. intros v Hv. apply dsafe_ret. by split.
  - eapply dsafe_sized; [exact Hdec|]. intros v Hv. apply dsafe_ret. by split.
  - by apply dsafe_DecodeWStringUcs2.
  - by apply dsafe_DecodePackedRow.
  - apply dsafe_DecodeSubStream.
  - eapply dsafe_sized; [exact Hdec|]. intros v Hv.
    eapply dsafe_bind_l; [exact Hdec0|]. intros w Hw. apply dsafe_ret. by split_and!.
  - eapply dsafe_sized; [apply dsafe_ReadBoundedSize|]. intros. by apply dsafe_string.
  - eapply dsafe_weaken; [apply dsafe_DecodeVarInteger|lia|done].
Qed.

(** The depth check bounds the recursion: [fuel] covers what is left of it. *)
Lemma dsafe_DecodeValue fuel depth :
  0 <= depth -> MAX_MARSHAL_DEPTH + 2 <= Z.of_nat fuel + depth ->
  depth <= MAX_MARSHAL_DEPTH + 1 -> dsafe (DecodeValue fuel depth) 1 value_ok.
Proof.
  revert depth. induction fuel as [|fuel IH]; intros depth Hd Hf Hm; [unfold MAX_MARSHAL_DEPTH in *; lia|].
  cbn [DecodeValue]. destruct (Z.ltb_spec MAX_MARSHAL_DEPTH depth); [apply dsafe_throw|].
  eapply dsafe_bind_l; [apply dsafe_rd_u8|]. intros raw _. cbn zeta. ds; [ds|].
  eapply dsafe_bind_l.
  { instantiate (1 := in_u 32). ds; [apply dsafe_ReadSaveIndex|ds]. done. }
  intros index Hindex. eapply dsafe_bind_l; [apply dsafe_DecodeOpcode, IH; lia|].
  intros v Hv. eapply dsafe_bind_l; [|intros _ _; by ds].
  instantiate (1 := fun _ => True). ds; [|by ds]. apply dsafe_store_saved; [apply Hindex|done].
Qed.
End decode_row.

(** ** The decoder *)

Lemma Decode_safe stream require_exact_end :
  rspec (Decode stream require_exact_end) value_ok.
Proof.
  unfold Decode. destruct (_ <? _); [done|].
  assert (H : wp (DecodeStream require_exact_end) (fun v _ => value_ok v) any_exn
                (mkDecoder (mkReader stream 0) [] 0)).
  2: { unfold wp in H. destruct (DecodeStream _ _) as [[v|e| |] d]; simpl; try done.
       by apply rspec_ok. }
  assert (Hinv : dec_inv stream (mkDecoder (mkReader stream 0) [] 0))
    by (split_and!; [done|simpl; lia|constructor]).
  unfold DecodeStream. wp_step. eapply wp_mono; [by apply (dsafe_rd_u8 stream)|].
  intros header d1 [[Hd1 _] _]. destruct (negb _); [by wp_step|]. wp_step.
  eapply wp_mono; [apply (dsafe_rd stream _ _ _ (rsafe_read_le 4)), Hd1|].
  intros count d2 [[Hd2 _] _]. destruct (_ <? _); [by wp_step|]. do 6 wp_step.
  set (d3 := set_value_end _ _). assert (Hd3 : dec_inv stream d3).
  { destruct Hd2 as (? & ? & ?). split_and!; simpl; [done|done|].
    apply Forall_replicate. by intros. }
  wp_step. eapply wp_mono;
    [apply (dsafe_DecodeValue stream encode_fuel 0); unfold MAX_MARSHAL_DEPTH; simpl; lia || done|].
  intros v d4 [_ Hv]. do 2 wp_step. destruct (_ && _); by wp_step.
Qed.
