(* ===== verification/MarshalRoundtrip.v ===== *)
(** * The marshal round trip

    Decoding what [Encode] wrote gives the value back, up to [canon]: a
    negative zero is written as zero, and the integers of a packed row are
    truncated to the width of their column. The proof goes through one
    judgement, [decodes m out a]: wherever the bytes [out] lie in a stream
    without saved objects, [m] reads exactly them and returns [a]. *)

From stdpp Require Import base numbers list option strings.
From Stdlib Require Import Strings.Byte.
From S2P Require Import Prelude StringTable Value ZeroRle Encoder Decoder PackedOrder DecoderSafety.

#[local] Open Scope Z_scope.

(** ** The judgement *)

(** A decoder at offset [off] of a stream with no save table. *)
Definition at_offset (bytes : list byte) (off : nat) : Decoder :=
  mkDecoder (mkReader bytes off) [] (Z.of_nat (length bytes)).

(** The bytes [out] lie at [off]. *)
Definition here (bytes : list byte) (off : nat) (out : list byte) : Prop :=
  (off <= length bytes)%nat /\ exists post, drop off bytes = out ++ post.

Definition reads {A} (m : M Reader A) (out : list byte) (a : A) : Prop :=
  forall bytes off, here bytes off out ->
    m (mkReader bytes off) = (Ok a, mkReader bytes (off + length out)).

Definition decodes {A} (m : M Decoder A) (out : list byte) (a : A) : Prop :=
  forall bytes off, here bytes off out -> Z.of_nat (length bytes) <= MAX_STREAM_BYTES ->
    m (at_offset bytes off) = (Ok a, at_offset bytes (off + length out)).

Lemma here_length bytes off out : here bytes off out -> (off + length out <= length bytes)%nat.
Proof.
  intros [Ho [post H]]. apply (f_equal length) in H. rewrite length_drop, length_app in H. lia.
Qed.

Lemma here_app bytes off out1 out2 :
  here bytes off (out1 ++ out2) -> here bytes off out1 /\ here bytes (off + length out1) out2.
Proof.
  intros Hh. pose proof (here_length _ _ _ Hh) as Hl. rewrite length_app in Hl.
  destruct Hh as [Ho [post H]]. rewrite <- app_assoc in H. split; (split; [lia|]).
  - eauto.
  - exists post. by rewrite <- drop_drop, H, drop_app_length.
Qed.

Lemma here_slice bytes off out : here bytes off out -> slice bytes off (length out) = Ok out.
Proof.
  intros Hh. rewrite slice_ok by (by apply here_length). destruct Hh as [_ [post ->]].
  by rewrite take_app_length.
Qed.

Section rules.
Lemma reads_ret {A} (a : A) : reads (mret a) [] a.
Proof. intros bytes off _. simpl. by rewrite Nat.add_0_r. Qed.

Lemma reads_bind {A B} (m : M Reader A) (f : A -> M Reader B) out1 out2 a b :
  reads m out1 a -> reads (f a) out2 b -> reads (m ≫= f) (out1 ++ out2) b.
Proof.
  intros Hm Hf bytes off [H1 H2]%here_app.
  unfold mbind, M_bind. rewrite (Hm _ _ H1), (Hf _ _ H2).
  by rewrite length_app, Nat.add_assoc.
Qed.

Lemma reads_map {A B} (m : M Reader A) (g : A -> B) out a :
  reads m out a -> reads (v ← m; mret (g v)) out (g a).
Proof.
  intros Hm. rewrite <- (app_nil_r out). eapply reads_bind; [exact Hm|apply reads_ret].
Qed.

Lemma decodes_ret {A} (a : A) : decodes (mret a) [] a.
Proof. intros bytes off _ _. simpl. by rewrite Nat.add_0_r. Qed.

Lemma decodes_bind {A B} (m : M Decoder A) (f : A -> M Decoder B) out1 out2 a b :
  decodes m out1 a -> decodes (f a) out2 b -> decodes (m ≫= f) (out1 ++ out2) b.
Proof.
  intros Hm Hf bytes off [H1 H2]%here_app Hlen.
  unfold mbind, M_bind. rewrite (Hm _ _ H1 Hlen), (Hf _ _ H2 Hlen).
  by rewrite length_app, Nat.add_assoc.
Qed.

Lemma decodes_map {A B} (m : M Decoder A) (g : A -> B) out a :
  decodes m out a -> decodes (v ← m; mret (g v)) out (g a).
Proof.
  intros Hm. rewrite <- (app_nil_r out). eapply decodes_bind; [exact Hm|apply decodes_ret].
Qed.

(** A step that reads nothing. *)
Lemma decodes_bind_0 {A B} (m : M Decoder A) (f : A -> M Decoder B) out a b :
  decodes m [] a -> decodes (f a) out b -> decodes (m ≫= f) out b.
Proof. intros Hm Hf. apply (decodes_bind m f [] out a b Hm Hf). Qed.

Lemma decodes_lift {A} (r : res A) a : r = Ok a -> decodes (lift r) [] a.
Proof. intros -> bytes off _ _. unfold lift. simpl. by rewrite Nat.add_0_r. Qed.

Lemma decodes_rd {A} (m : M Reader A) out a : reads m out a -> decodes (rd m) out a.
Proof. intros Hm bytes off H _. unfold rd, on. simpl. by rewrite (Hm _ _ H). Qed.

(** What is read fits the stream. *)
Lemma decodes_bounded {A} (m : M Decoder A) out a :
  (Z.of_nat (length out) <= MAX_STREAM_BYTES -> decodes m out a) -> decodes m out a.
Proof.
  intros Hm bytes off H Hlen. apply Hm; [|done..].
  pose proof (here_length _ _ _ H). lia.
Qed.
End rules.

(** ** Reader operations *)

Lemma here_lookup bytes off b : here bytes off [b] -> bytes !! off = Some b.
Proof. intros [_ [post H]]. by rewrite <- (Nat.add_0_r off), <- lookup_drop, H. Qed.

Lemma reads_ReadU8 b : reads ReadU8 [b] b.
Proof.
  intros bytes off H%here_lookup. unfold ReadU8, mbind, M_bind, get. simpl.
  pose proof (lookup_lt_Some _ _ _ H) as Hlt.
  destruct (Nat.leb_spec (length bytes) off); [lia|]. unfold lift, index_at. by rewrite H.
Qed.

Lemma RequireBytes_here bytes off out :
  here bytes off out ->
  RequireBytes (Z.of_nat (length out)) (mkReader bytes off) = (Ok tt, mkReader bytes off).
Proof.
  intros H%here_length. unfold RequireBytes, mbind, M_bind, get, Remaining. simpl.
  by rewrite (proj2 (Z.ltb_ge _ _)) by lia.
Qed.

Lemma reads_read_le bs : reads (read_le (length bs)) bs (le_value 0 bs).
Proof.
  intros bytes off H. unfold read_le. unfold mbind at 1, M_bind at 1.
  rewrite RequireBytes_here by done. unfold mbind, M_bind, get, lift. simpl.
  by rewrite here_slice by done.
Qed.

Lemma reads_ReadBytes bs : reads (ReadBytes (Z.of_nat (length bs))) bs bs.
Proof.
  intros bytes off H. unfold ReadBytes. unfold mbind at 1, M_bind at 1.
  rewrite RequireBytes_here by done. unfold mbind, M_bind, get, lift. simpl.
  by rewrite Nat2Z.id, here_slice by done.
Qed.

(** An [n]-byte word as [le_bytes] writes it. *)
Lemma reads_word n v : reads (read_le n) (le_bytes 0 n v) (v mod 2 ^ (8 * Z.of_nat n)).
Proof.
  rewrite <- le_value_bytes. pose proof (reads_read_le (le_bytes 0 n v)) as H.
  by rewrite length_le_bytes in H.
Qed.

Lemma PutU16_le v : PutU16 v = le_bytes 0 2 v.
Proof. unfold PutU16. simpl. by rewrite Z.shiftr_0_r. Qed.

Lemma reads_PutU32 v : in_u 32 v -> reads ReadU32 (PutU32 v) v.
Proof.
  intros Hv. rewrite <- (wrap_u_small 32 v Hv) at 2. apply (reads_word 4).
Qed.

Lemma reads_PutU64 v : in_u 64 v -> reads ReadU64 (PutU64 v) v.
Proof.
  intros Hv. rewrite <- (wrap_u_small 64 v Hv) at 2. apply (reads_word 8).
Qed.

Lemma reads_PutI64 v : in_s 64 v -> reads ReadI64 (PutI64 v) v.
Proof.
  intros Hv. unfold ReadI64. rewrite <- (wrap_s_small 64 v ltac:(lia) Hv) at 2.
  rewrite <- wrap_s_wrap_u. apply reads_map, reads_PutU64, wrap_u_range. lia.
Qed.

Lemma reads_PutI32 v : in_s 32 v -> reads ReadI32 (PutI32 (i32 v)) v.
Proof.
  intros Hv. rewrite wrap_s_small by (done || lia). unfold ReadI32.
  rewrite <- (wrap_s_small 32 v ltac:(lia) Hv) at 2.
  rewrite <- wrap_s_wrap_u. apply reads_map, reads_PutU32, wrap_u_range. lia.
Qed.

Lemma reads_PutI16 v : in_s 16 v -> reads ReadI16 (PutI16 (i16 v)) v.
Proof.
  intros Hv. rewrite wrap_s_small by (done || lia). unfold ReadI16, PutI16.
  rewrite <- (wrap_s_small 16 v ltac:(lia) Hv) at 2.
  rewrite <- wrap_s_wrap_u, PutU16_le.
  replace (wrap_u 16 v) with (wrap_u 16 (wrap_u 16 v)) at 2
    by (apply wrap_u_small, wrap_u_range; lia).
  apply reads_map, (reads_word 2).
Qed.

Lemma reads_PutI8 v : in_s 8 v -> reads ReadI8 (PutI8 (i8 v)) v.
Proof.
  intros Hv. rewrite wrap_s_small by (done || lia). unfold ReadI8, PutI8.
  rewrite <- (wrap_s_small 8 v ltac:(lia) Hv) at 2. rewrite <- wrap_s_wrap_u.
  unfold wrap_u. change (2 ^ 8) with 256. rewrite <- u8_to_u8.
  apply (reads_map ReadU8 (fun b => i8 (u8 b))), reads_ReadU8.
Qed.

Lemma reads_PutSizeEx n : in_u 32 n -> reads ReadSizeEx (PutSizeEx n) n.
Proof.
  intros Hn. unfold ReadSizeEx, PutSizeEx.
  destruct (Z.ltb_spec n kSizeExEscape) as [Hs|Hs]; unfold kSizeExEscape in *.
  - rewrite <- (app_nil_r (PutU8 n)). eapply reads_bind; [apply reads_ReadU8|].
    unfold in_u in Hn. rewrite u8_to_u8, Z.mod_small by lia.
    destruct (Z.eqb_spec n 255); [lia|]. apply reads_ret.
  - eapply reads_bind; [apply reads_ReadU8|]. rewrite u8_to_u8.
    simpl. by apply reads_PutU32.
Qed.

(** ** Canonical values *)

(** An integer field of a packed row, truncated to its column. *)
Definition truncate_field (type : DbType) (z : Z) : Z :=
  if is_case type [Db.I4] then i32 z
  else if is_case type [Db.Ui4] then u32 z
  else if is_case type [Db.I2] then i16 z
  else if is_case type [Db.Ui2] then u16 z
  else if is_case type [Db.I1] then i8 z
  else if is_case type [Db.Ui1] then wrap_u 8 z
  else z.

Definition canon_field (column : PackedColumn) (field : Value) : Value :=
  match field with
  | VInt z =>
      if DbTypeSizeBits (col_type column) =? 0 then VInt z
      else VInt (truncate_field (col_type column) z)
  | _ => field
  end.

Fixpoint canon (v : Value) : Value :=
  match v with
  | VReal bits => VReal (if is_zero_real bits then 0 else bits)
  | VTuple items => VTuple (map canon items)
  | VList items => VList (map canon items)
  | VDict entries => VDict (map (fun e => (canon e.1, canon e.2)) entries)
  | VObject type args => VObject type (canon args)
  | VObjectEx is_type2 header items entries =>
      VObjectEx is_type2 (canon header) (map canon items)
        (map (fun e => (canon e.1, canon e.2)) entries)
  | VSubStruct w => VSubStruct (canon w)
  | VChecksumedStream c w => VChecksumedStream c (canon w)
  | VPackedRow columns values =>
      VPackedRow columns (zip_with canon_field columns (map canon values))
  | _ => v
  end.

Definition canon_entry (e : Value * Value) : Value * Value := (canon e.1, canon e.2).

(** ** Leaves *)

Lemma u32_length (bytes : list byte) :
  Z.of_nat (length bytes) <= MAX_STREAM_BYTES ->
  u32 (Z.of_nat (length bytes)) = Z.of_nat (length bytes).
Proof. unfold MAX_STREAM_BYTES. intros H. apply wrap_u_small. unfold in_u. lia. Qed.

Lemma decodes_ReadBoundedSize n :
  0 <= n <= MAX_STRING_BYTES -> decodes ReadBoundedSize (PutSizeEx n) n.
Proof.
  intros Hn. unfold ReadBoundedSize. rewrite <- (app_nil_r (PutSizeEx n)).
  eapply decodes_bind; [apply decodes_rd, reads_PutSizeEx; unfold in_u, MAX_STRING_BYTES in *; lia|].
  rewrite (proj2 (Z.ltb_ge _ _)) by lia. apply decodes_ret.
Qed.

Lemma decodes_ReadBoundedCount n :
  0 <= n <= MAX_CONTAINER_COUNT -> decodes ReadBoundedCount (PutSizeEx n) n.
Proof.
  intros Hn. unfold ReadBoundedCount. rewrite <- (app_nil_r (PutSizeEx n)).
  eapply decodes_bind; [apply decodes_rd, reads_PutSizeEx; unfold in_u, MAX_CONTAINER_COUNT in *; lia|].
  rewrite (proj2 (Z.ltb_ge _ _)) by lia. apply decodes_ret.
Qed.

(** A size and then the bytes it counts. *)
Lemma decodes_PutSized {A} (k : Z -> M Decoder A) bytes a :
  (Z.of_nat (length bytes) <= MAX_STRING_BYTES ->
   decodes (k (Z.of_nat (length bytes))) bytes a) ->
  decodes (len ← ReadBoundedSize; k len) (PutSized bytes) a.
Proof.
  intros Hk. apply decodes_bounded. intros Hb. unfold PutSized in *.
  rewrite length_app in Hb. unfold MAX_STREAM_BYTES, MAX_STRING_BYTES in *.
  rewrite u32_length by (unfold MAX_STREAM_BYTES; lia).
  eapply decodes_bind; [apply decodes_ReadBoundedSize; unfold MAX_STRING_BYTES; lia|].
  apply Hk. lia.
Qed.

Lemma decodes_read_limited limit bytes what :
  Z.of_nat (length bytes) <= limit ->
  decodes (read_limited limit (Z.of_nat (length bytes)) what) bytes bytes.
Proof.
  intros H. unfold read_limited. rewrite (proj2 (Z.ltb_ge _ _)) by lia.
  apply decodes_rd, reads_ReadBytes.
Qed.

(** The sized byte strings: [f] makes the value of the bytes. *)
Lemma decodes_sized_string (f : list byte -> Value) what bytes :
  decodes (len ← ReadBoundedSize;
           bytes ← read_limited MAX_STRING_BYTES len what; mret (f bytes))
    (PutSized bytes) (f bytes).
Proof. apply decodes_PutSized. intros H. by apply decodes_map, decodes_read_limited. Qed.

Lemma decodes_text (f : string -> Value) what s :
  decodes (len ← ReadBoundedSize;
           bytes ← read_limited MAX_STRING_BYTES len what; mret (f (string_of_bytes bytes)))
    (PutSized (bytes_of_string s)) (f s).
Proof.
  rewrite <- (string_of_bytes_of_string s) at 2.
  apply (decodes_sized_string (fun bytes => f (string_of_bytes bytes))).
Qed.

Section values.
Context (fuel : nat) (depth : Z).
Hypothesis Hdepth : depth <= MAX_MARSHAL_DEPTH.
#[local] Abbreviation decode := (DecodeValue fuel (depth + 1)).
#[local] Abbreviation dec := (decodes (DecodeValue (S fuel) depth)).

(** A value without the save flag: its opcode, then what the opcode takes. *)
Lemma decodes_op op out v :
  decodes (DecodeOpcode decode (opcode_value op)) out v -> dec (PutOp op ++ out) v.
Proof using Hdepth.
  intros Hop. cbn [DecodeValue]. rewrite (proj2 (Z.ltb_ge _ _)) by lia.
  eapply decodes_bind; [apply decodes_rd, reads_ReadU8|]. cbn zeta.
  destruct (op_byte_flags op) as (-> & -> & ->). cbn [negb Z.eqb].
  eapply decodes_bind_0; [apply decodes_ret|]. cbn beta.
  rewrite <- (app_nil_r out). eapply decodes_bind; [exact Hop|].
  eapply decodes_bind_0; apply decodes_ret.
Qed.

Lemma decodes_op_nil op v :
  DecodeOpcode decode (opcode_value op) = mret v -> dec (PutOp op) v.
Proof using Hdepth.
  intros Hop. rewrite <- (app_nil_r (PutOp op)). apply decodes_op. rewrite Hop. apply decodes_ret.
Qed.

Lemma decodes_EncodeInteger z : in_s 64 z -> dec (EncodeInteger z) (VInt z).
Proof using Hdepth.
  intros Hz. unfold EncodeInteger.
  destruct (Z.eqb_spec z (-1)) as [->|]; [by apply decodes_op_nil|].
  destruct (Z.eqb_spec z 0) as [->|]; [by apply decodes_op_nil|].
  destruct (Z.eqb_spec z 1) as [->|]; [by apply decodes_op_nil|].
  destruct ((-128 <=? z) && (z <=? 127)) eqn:H8.
  { apply decodes_op, (decodes_map (rd ReadI8)), decodes_rd, reads_PutI8. unfold in_s. lia. }
  destruct ((-32768 <=? z) && (z <=? 32767)) eqn:H16.
  { apply decodes_op, (decodes_map (rd ReadI16)), decodes_rd, reads_PutI16. unfold in_s. lia. }
  destruct ((-2147483648 <=? z) && (z <=? 2147483647)) eqn:H32.
  { apply decodes_op, (decodes_map (rd ReadI32)), decodes_rd, reads_PutI32. unfold in_s. lia. }
  by apply decodes_op, (decodes_map (rd ReadI64)), decodes_rd, reads_PutI64.
Qed.

Lemma decodes_EncodeReal bits :
  in_u 64 bits -> dec (EncodeReal bits) (canon (VReal bits)).
Proof using Hdepth.
  intros Hb. unfold EncodeReal. simpl canon. destruct (is_zero_real bits).
  - by apply decodes_op_nil.
  - by apply decodes_op, (decodes_map (rd ReadDouble)), decodes_rd, reads_PutU64.
Qed.

Lemma decodes_EncodeString s : dec (EncodeString s) (VString s).
Proof using Hdepth.
  unfold EncodeString. pose proof (string_of_bytes_of_string s) as Hs.
  destruct (bytes_of_string s) as [|c [|c' bytes]] eqn:Hb.
  - rewrite <- Hs. by apply decodes_op_nil.
  - rewrite <- Hs. apply decodes_op. unfold PutU8. rewrite to_u8_u8.
    apply (decodes_map (rd ReadU8) (fun c => VString (string_of_bytes [c]))), decodes_rd,
      reads_ReadU8.
  - destruct (LookupStringIndex s) as [index|] eqn:Hi; apply decodes_op.
    + unfold PutU8. rewrite to_u8_u8, <- (app_nil_r [index]).
      eapply decodes_bind; [apply decodes_rd, reads_ReadU8|].
      rewrite (LookupString_of_index _ _ Hi). apply decodes_ret.
    + rewrite <- Hb. apply (decodes_text VString).
Qed.

Lemma decodes_EncodeWString s : dec (EncodeWString s) (VWString s).
Proof using Hdepth.
  unfold EncodeWString. destruct s as [|c s]; simpl str_empty.
  - by apply decodes_op_nil.
  - apply decodes_op, (decodes_text VWString).
Qed.

Lemma decodes_EncodeSubStream data : dec (EncodeSubStream data) (VSubStream data).
Proof using Hdepth.
  apply decodes_op, decodes_PutSized. intros _. by apply decodes_map, decodes_rd, reads_ReadBytes.
Qed.
End values.

(** ** Sequences *)

(** The encoding of a sequence is the concatenation of its parts. *)
Lemma encode_items_bind {A} (encode : Value -> res (list byte)) (f : A -> list Value) l out :
  encode_items encode (l ≫= f) = Ok out ->
  exists outs, Forall2 (fun x o => encode_items encode (f x) = Ok o) l outs /\
               out = concat outs.
Proof.
  assert (Happ : forall l1 l2 o, encode_items encode (l1 ++ l2) = Ok o ->
    exists o1 o2, encode_items encode l1 = Ok o1 /\ encode_items encode l2 = Ok o2 /\
                  o = o1 ++ o2).
  { induction l1 as [|x l1 IH]; intros l2 o H; [by exists [], o|]. cbn in H. res_inv. subst o.
    apply IH in Ha0 as (o1 & o2 & H1 & H2 & ->). exists (a ++ o1), o2. cbn. rewrite Ha, H1. cbn.
    by rewrite app_assoc. }
  revert out. induction l as [|x l IH]; intros out H; [injection H as <-; by exists []|].
  cbn in H. apply Happ in H as (o1 & o2 & H1 & (outs & Houts & ->)%IH & ->).
  exists (o1 :: outs). split; [by constructor|done].
Qed.

Lemma encode_items_concat encode l out :
  encode_items encode l = Ok out ->
  exists outs, Forall2 (fun v o => encode v = Ok o) l outs /\ out = concat outs.
Proof.
  revert out. induction l as [|x l IH]; intros out H; [injection H as <-; by exists []|].
  cbn in H. res_inv. subst out. apply IH in Ha0 as (outs & Houts & ->).
  exists (a :: outs). split; [by constructor|done].
Qed.

Lemma decodes_times {A} (m : M Decoder A) outs l :
  Forall2 (decodes m) outs l -> decodes (decode_times (length l) m) (concat outs) l.
Proof.
  induction 1 as [|o a outs l Ho _ IH]; cbn; [apply decodes_ret|].
  eapply decodes_bind; [exact Ho|]. by apply decodes_map.
Qed.

(** The first byte is an opcode other than the terminator. *)
Definition op_head (out : list byte) : Prop :=
  exists op rest, out = op_byte op :: rest /\ op <> PackedTerminator.

Lemma op_head_app op out : op <> PackedTerminator -> op_head (PutOp op ++ out).
Proof. intros H. by exists op, out. Qed.

Lemma op_head_app_l out1 out2 : op_head out1 -> op_head (out1 ++ out2).
Proof. intros (op & rest & -> & H). by exists op, (rest ++ out2). Qed.

Lemma opcode_value_inj op1 op2 : opcode_value op1 = opcode_value op2 -> op1 = op2.
Proof.
  intros H. apply (inj Some). by rewrite <- (opcode_of_value op1), <- (opcode_of_value op2), H.
Qed.

Lemma PeekU8_here bytes off b rest :
  here bytes off (b :: rest) -> Z.of_nat (length bytes) <= MAX_STREAM_BYTES ->
  rd PeekU8 (at_offset bytes off) = (Ok b, at_offset bytes off).
Proof.
  intros Hh _. apply (here_app _ _ [b]) in Hh as [H%here_lookup _].
  pose proof (lookup_lt_Some _ _ _ H) as Hlt.
  unfold rd, on, PeekU8, mbind, M_bind, get. simpl.
  destruct (Nat.leb_spec (length bytes) off); [lia|]. unfold lift, index_at. by rewrite H.
Qed.

(** One turn of the loop, up to the byte it looks at. *)
Lemma decode_until_step {A} fuel what (m : M Decoder A) b rest out a :
  out = b :: rest ->
  decodes (if Z.land (u8 b) OPCODE_MASK =? opcode_value PackedTerminator
           then rd ReadU8;; mret []
           else v ← m; vs ← decode_until fuel what m; mret (v :: vs)) out a ->
  decodes (decode_until (S fuel) what m) out a.
Proof.
  intros -> Hd bytes off Hh Hlen. cbn [decode_until].
  unfold mbind at 1, M_bind at 1, get. pose proof (here_length _ _ _ Hh) as Hl. simpl in Hl.
  rewrite (proj2 (Z.leb_gt _ _)) by (unfold Offset; simpl; lia).
  unfold mbind at 1, M_bind at 1. rewrite (PeekU8_here _ _ _ _ Hh Hlen).
  by apply Hd.
Qed.

Lemma decodes_until {A} fuel what (m : M Decoder A) outs l :
  Forall2 (decodes m) outs l -> Forall op_head outs ->
  (length (concat outs) < fuel)%nat ->
  decodes (decode_until fuel what m) (concat outs ++ PutOp PackedTerminator) l.
Proof.
  intros HF. revert fuel. induction HF as [|o a outs l Ho HF IH]; intros fuel Hh Hf;
    destruct fuel as [|fuel]; cbn in Hf; try lia.
  - eapply decode_until_step; [done|]. destruct (op_byte_flags PackedTerminator) as (_ & _ & ->).
    rewrite Z.eqb_refl.
    change (concat [] ++ PutOp PackedTerminator) with (PutOp PackedTerminator ++ []).
    eapply decodes_bind; [apply decodes_rd, reads_ReadU8|apply decodes_ret].
  - apply Forall_cons in Hh as [(op & rest & -> & Hop) Hh].
    eapply decode_until_step; [done|]. destruct (op_byte_flags op) as (_ & _ & ->).
    destruct (Z.eqb_spec (opcode_value op) (opcode_value PackedTerminator)) as [He|_].
    { by apply opcode_value_inj in He. }
    cbn [concat]. rewrite <- app_assoc. eapply decodes_bind; [exact Ho|].
    apply decodes_map, IH; [done|]. rewrite length_app in Hf. simpl in Hf. lia.
Qed.

(** The loops' fuel exceeds what is left to read. *)
Lemma decodes_loop_fuel {A} (k : nat -> M Decoder A) out a :
  (forall fuel, (length out < fuel)%nat -> decodes (k fuel) out a) ->
  decodes (fuel ← gets loop_fuel; k fuel) out a.
Proof.
  intros Hk bytes off Hh Hlen. unfold mbind, M_bind, gets. apply Hk; [|done..].
  unfold loop_fuel. simpl. pose proof (here_length _ _ _ Hh). lia.
Qed.

Lemma op_head_op op : op <> PackedTerminator -> op_head (PutOp op).
Proof. intros H. by exists op, []. Qed.

Lemma op_head_if (b : bool) out1 out2 :
  op_head out1 -> op_head out2 -> op_head (if b then out1 else out2).
Proof. by destruct b. Qed.

#[local] Hint Resolve op_head_op op_head_app op_head_if op_head_app_l : ithax.
#[local] Hint Extern 1 (_ <> PackedTerminator) => discriminate : ithax.

Lemma EncodeInteger_head z : op_head (EncodeInteger z).
Proof. unfold EncodeInteger. repeat apply op_head_if; auto with ithax. Qed.

Lemma EncodeString_head s : op_head (EncodeString s).
Proof.
  unfold EncodeString. destruct (bytes_of_string s) as [|? []]; [auto with ithax..|].
  destruct (LookupStringIndex s); auto with ithax.
Qed.

Lemma bind_head {A} (r : res A) (k : A -> res (list byte)) out :
  r ≫= k = Ok out -> (forall a out, k a = Ok out -> op_head out) -> op_head out.
Proof. intros (a & _ & H)%res_bind_ok Hk. eauto. Qed.

Lemma EncodePackedRow_head encode columns values out :
  EncodePackedRow encode columns values = Ok out -> op_head out.
Proof.
  unfold EncodePackedRow. destruct (_ <? _); [done|]. destruct (negb _); [done|].
  intros H. do 2 (eapply bind_head; [exact H|]; clear H out; intros ? out H).
  destruct a0. do 3 (eapply bind_head; [exact H|]; clear H out; intros ? out H).
  injection H as <-. by apply op_head_app.
Qed.

Lemma EncodeValue_head fuel v depth out : EncodeValue fuel v depth = Ok out -> op_head out.
Proof.
  destruct fuel; [done|]. cbn [EncodeValue]. destruct (_ <? _); [done|]. cbn zeta.
  destruct v; intros H; try (injection H as <-; first [by apply op_head_app|auto with ithax]).
  - by destruct value; apply op_head_op.
  - apply EncodeInteger_head.
  - unfold EncodeReal. apply op_head_if; auto with ithax.
  - apply EncodeString_head.
  - unfold EncodeWString. apply op_head_if; auto with ithax.
  - unfold EncodeTuple in H. destruct (_ <? _); [done|]. res_inv. subst out.
    apply op_head_app_l. destruct items as [|? [|? []]]; first [by apply op_head_app|by apply op_head_op].
  - unfold EncodeList in H. destruct (_ <? _); [done|]. res_inv. subst out.
    apply op_head_app_l. destruct items as [|? []]; first [by apply op_head_app|by apply op_head_op].
  - unfold EncodeDict in H. destruct (_ <? _); [done|]. res_inv. subst out. by apply op_head_app.
  - unfold EncodeObject in H. res_inv. subst out. by apply op_head_app.
  - unfold EncodeObjectEx in H. res_inv. subst out. destruct is_type2; by apply op_head_app.
  - res_inv. subst out. by apply op_head_app.
  - unfold EncodeChecksumedStream in H. res_inv. subst out. by apply op_head_app.
  - by eapply EncodePackedRow_head.
Qed.

(** ** Containers *)

Lemma list_count {A} (l : list A) :
  (MAX_CONTAINER_COUNT <? Z.of_nat (length l)) = false ->
  u32 (Z.of_nat (length l)) = Z.of_nat (length l) /\
  0 <= Z.of_nat (length l) <= MAX_CONTAINER_COUNT.
Proof.
  intros H%Z.ltb_ge. unfold MAX_CONTAINER_COUNT in *.
  rewrite wrap_u_small by (unfold in_u; lia). lia.
Qed.

Section containers.
Context (encode : Value -> res (list byte)) (decode : M Decoder Value).
Hypothesis Hrec : forall v out, value_ok v -> encode v = Ok out -> decodes decode out (canon v).
Hypothesis Hhead : forall v out, encode v = Ok out -> op_head out.

Lemma items_parts items out :
  Forall value_ok items -> encode_items encode items = Ok out ->
  exists outs, Forall2 (decodes decode) outs (map canon items) /\
               Forall op_head outs /\ out = concat outs.
Proof using Hrec Hhead.
  intros Hok (outs & HF & ->)%encode_items_concat. exists outs.
  induction HF as [|v o items outs Hv HF IH]; [by split_and!|].
  apply Forall_cons in Hok as [Hv' Hok]. destruct IH as (? & ? & _); [done|].
  split_and!; [constructor; [by apply Hrec|done]|constructor; [by eapply Hhead|done]|done].
Qed.

Lemma decodes_items {B} items out (k : list Value -> B) :
  Forall value_ok items -> encode_items encode items = Ok out ->
  decodes (l ← decode_times (length items) decode; mret (k l)) out (k (map canon items)).
Proof using Hrec Hhead.
  intros Hok H. destruct (items_parts items out Hok H) as (outs & HF & _ & ->).
  apply decodes_map. rewrite <- (length_map canon items). by apply decodes_times.
Qed.

Lemma decodes_one v out :
  value_ok v -> encode_items encode [v] = Ok out -> decodes decode out (canon v).
Proof using Hrec.
  intros Hv H. cbn in H. res_inv. subst. rewrite app_nil_r. by apply Hrec.
Qed.

Lemma decodes_pair v w out :
  value_ok v -> value_ok w -> encode_items encode [v; w] = Ok out ->
  forall (B : Type) (f : Value -> Value -> B),
  decodes (a ← decode; b ← decode; mret (f a b)) out (f (canon v) (canon w)).
Proof using Hrec.
  intros Hv Hw H B f. cbn in H. res_inv. subst. rewrite app_nil_r.
  eapply decodes_bind; [by apply (Hrec v)|]. apply decodes_map. by apply (Hrec w).
Qed.

Lemma decodes_EncodeTuple items out :
  Forall value_ok items -> EncodeTuple encode items = Ok out ->
  exists op body, op <> PackedTerminator /\ out = PutOp op ++ body /\
    decodes (DecodeOpcode decode (opcode_value op)) body (VTuple (map canon items)).
Proof using Hrec Hhead.
  intros Hok H. unfold EncodeTuple in H.
  destruct (_ <? _) eqn:Hn; [done|]. apply list_count in Hn as [Hu Hn].
  res_inv. subst out. destruct items as [|v [|w [|x items]]].
  - injection Ha as <-. exists PyEmptyTuple, []. split_and!; [done..|apply decodes_ret].
  - exists PyOneTuple, a. split_and!; [done..|]. apply Forall_cons in Hok as [Hv _].
    apply (decodes_map decode (fun v => VTuple [v])). by apply decodes_one.
  - exists PyTwoTuple, a. split_and!; [done..|].
    apply Forall_cons in Hok as [Hv Hok]. apply Forall_cons in Hok as [Hw _].
    by apply (decodes_pair v w a Hv Hw Ha _ (fun v w => VTuple [v; w])).
  - rewrite Hu. exists PyTuple, (PutSizeEx (Z.of_nat (length (v :: w :: x :: items))) ++ a).
    split_and!; [done|by rewrite app_assoc|].
    eapply decodes_bind; [by apply decodes_ReadBoundedCount|].
    unfold DecodeTuple. rewrite Nat2Z.id. by apply decodes_items.
Qed.

Lemma decodes_EncodeList items out :
  Forall value_ok items -> EncodeList encode items = Ok out ->
  exists op body, op <> PackedTerminator /\ out = PutOp op ++ body /\
    decodes (DecodeOpcode decode (opcode_value op)) body (VList (map canon items)).
Proof using Hrec Hhead.
  intros Hok H. unfold EncodeList in H.
  destruct (_ <? _) eqn:Hn; [done|]. apply list_count in Hn as [Hu Hn].
  res_inv. subst out. destruct items as [|v [|w items]].
  - injection Ha as <-. exists PyEmptyList, []. split_and!; [done..|apply decodes_ret].
  - exists PyOneList, a. split_and!; [done..|]. apply Forall_cons in Hok as [Hv _].
    apply (decodes_map decode (fun v => VList [v])). by apply decodes_one.
  - rewrite Hu. exists PyList, (PutSizeEx (Z.of_nat (length (v :: w :: items))) ++ a).
    split_and!; [done|by rewrite app_assoc|].
    eapply decodes_bind; [by apply decodes_ReadBoundedCount|].
    unfold DecodeList. rewrite Nat2Z.id. by apply decodes_items.
Qed.

(** Entries, whose two values are written and read in the same order. *)
Lemma entries_parts (f : Value * Value -> list Value) (m : M Decoder (Value * Value))
    entries out :
  (forall e o, entry_ok e -> encode_items encode (f e) = Ok o -> decodes m o (canon_entry e)) ->
  (forall e, f e <> []) ->
  Forall entry_ok entries -> encode_items encode (entries ≫= f) = Ok out ->
  exists outs, Forall2 (decodes m) outs (map canon_entry entries) /\
               Forall op_head outs /\ out = concat outs.
Proof using Hhead.
  intros Hm Hf Hok (outs & HF & ->)%encode_items_bind. exists outs.
  induction HF as [|e o entries outs He HF IH]; [by split_and!|].
  apply Forall_cons in Hok as [He' Hok]. destruct IH as (? & ? & _); [done|].
  split_and!; [by constructor; [apply Hm|]| |done]. constructor; [|done].
  specialize (Hf e). destruct (f e) as [|v l]; [done|]. cbn in He. res_inv. subst o.
  by eapply op_head_app_l, Hhead.
Qed.

Lemma decodes_EncodeDict entries out :
  Forall entry_ok entries -> EncodeDict encode entries = Ok out ->
  exists body, out = PutOp PyDict ++ body /\
    decodes (DecodeOpcode decode (opcode_value PyDict)) body
      (VDict (map canon_entry entries)).
Proof using Hrec Hhead.
  intros Hok H. unfold EncodeDict in H.
  destruct (_ <? _) eqn:Hn; [done|]. apply list_count in Hn as [Hu Hn].
  res_inv. subst out. rewrite Hu. eexists. split; [reflexivity|].
  eapply decodes_bind; [by apply decodes_ReadBoundedCount|].
  unfold DecodeDict. rewrite Nat2Z.id.
  apply (entries_parts _ (value ← decode; key ← decode; mret (key, value)))
    in Ha as (outs & HF & _ & ->); [|intros e o [Hk Hv] He|done..].
  - apply decodes_map. rewrite <- (length_map canon_entry entries). by apply decodes_times.
  - by apply (decodes_pair e.2 e.1 o Hv Hk He _ (fun v k => (k, v))).
Qed.

Lemma decodes_EncodeObjectEx b header items entries out :
  value_ok header -> Forall value_ok items -> Forall entry_ok entries ->
  EncodeObjectEx encode b header items entries = Ok out ->
  exists op body, op <> PackedTerminator /\ out = PutOp op ++ body /\
    decodes (DecodeOpcode decode (opcode_value op)) body
      (VObjectEx b (canon header) (map canon items) (map canon_entry entries)).
Proof using Hrec Hhead.
  intros Hh Hi He H. unfold EncodeObjectEx in H. res_inv. subst out.
  exists (if b then PyObjectEx2 else PyObjectEx1). eexists.
  split_and!; [by destruct b|reflexivity|].
  assert (Hd : decodes (DecodeObjectEx decode b)
    (a ++ a0 ++ PutOp PackedTerminator ++ a1 ++ PutOp PackedTerminator)
    (VObjectEx b (canon header) (map canon items) (map canon_entry entries)));
    [|by destruct b].
  destruct (items_parts items a0 Hi Ha0) as (outs & HF & Hop & ->).
  apply (entries_parts _ (key ← decode; value ← decode; mret (key, value)))
    in Ha1 as (outs' & HF' & Hop' & ->); [|intros e o [Hk Hv] Ho|done..].
  2: by apply (decodes_pair e.1 e.2 o Hk Hv Ho _ (fun k v => (k, v))).
  unfold DecodeObjectEx. eapply decodes_bind; [by apply Hrec|].
  apply decodes_loop_fuel. intros fuel Hfuel. rewrite !length_app in Hfuel.
  rewrite app_assoc. eapply decodes_bind; [apply decodes_until; [done|done|lia]|].
  apply decodes_map, decodes_until; [done|done|lia].
Qed.
End containers.

(** ** Packed rows *)

(** *** Bits *)

Definition getbit (bits : list byte) (k : nat) : bool :=
  match bits !! (k / 8)%nat with
  | Some b => Z.testbit (u8 b) (Z.of_nat (k mod 8))
  | None => false
  end.

Lemma land_pow2_testbit z k : 0 <= k -> negb (Z.land z (Z.shiftl 1 k) =? 0) = Z.testbit z k.
Proof.
  intros Hk. rewrite Z.shiftl_1_l. destruct (Z.testbit z k) eqn:Hb.
  - destruct (Z.eqb_spec (Z.land z (2 ^ k)) 0) as [H|]; [|done].
    apply (f_equal (fun x => Z.testbit x k)) in H.
    by rewrite Z.land_spec, Hb, Z.pow2_bits_true, Z.bits_0 in H by lia.
  - destruct (Z.eqb_spec (Z.land z (2 ^ k)) 0) as [|H]; [done|]. exfalso. apply H.
    apply Z.bits_inj'. intros j Hj. rewrite Z.land_spec, Z.bits_0, Z.pow2_bits_eqb by lia.
    destruct (Z.eqb_spec k j) as [<-|]; [by rewrite Hb|by rewrite andb_false_r].
Qed.

Lemma test_bit_getbit P B k :
  (k / 8 < length B)%nat -> test_bit (P ++ B) (length P) k = Ok (getbit B k).
Proof.
  intros Hk. unfold test_bit, index_at, getbit.
  rewrite lookup_app_r by lia. replace (length P + k / 8 - length P)%nat with (k / 8)%nat by lia.
  destruct (lookup_lt_is_Some_2 B _ Hk) as [b ->]. cbn. by rewrite land_pow2_testbit by lia.
Qed.

Lemma set_bit_spec bits k bits' :
  set_bit bits k = Ok bits' ->
  length bits' = length bits /\ forall j, getbit bits' j = bool_decide (j = k) || getbit bits j.
Proof.
  unfold set_bit. destruct (bits !! (k / 8)%nat) as [b|] eqn:Hb; [|done].
  intros <-%Ok_inj. split; [by rewrite length_insert|]. intros j. unfold getbit.
  pose proof (lookup_lt_Some _ _ _ Hb) as Hlt.
  destruct (decide (k / 8 = j / 8)%nat) as [Hq|Hq].
  - rewrite <- Hq, list_lookup_insert_eq, Hb by done. rewrite u8_to_u8. change 256 with (2 ^ 8).
    pose proof (Nat.mod_upper_bound j 8 ltac:(lia)).
    rewrite Z.mod_pow2_bits_low, Z.lor_spec, Z.shiftl_1_l, Z.pow2_bits_eqb by lia.
    rewrite orb_comm. destruct (Z.eqb_spec (Z.of_nat (k mod 8)) (Z.of_nat (j mod 8))) as [He|He].
    + apply Nat2Z.inj in He. rewrite (bool_decide_true (j = k)); [done|].
      rewrite (Nat.div_mod_eq j 8), (Nat.div_mod_eq k 8). lia.
    + rewrite (bool_decide_false (j = k)); [done|]. by intros ->.
  - rewrite list_lookup_insert_ne by done. rewrite bool_decide_false; [done|]. by intros ->.
Qed.

Lemma getbit_replicate n k : getbit (replicate n x00) k = false.
Proof.
  unfold getbit. destruct (replicate n x00 !! _) as [b|] eqn:Hb; [|done].
  apply lookup_replicate in Hb as [-> _]. apply Z.bits_0.
Qed.

(** *** Scalars *)

Lemma read_le_at_here n v data off :
  here data off (le_bytes 0 n v) -> read_le_at n data off = Ok (v mod 2 ^ (8 * Z.of_nat n)).
Proof.
  intros Hh%here_slice. rewrite length_le_bytes in Hh. unfold read_le_at. rewrite Hh. cbn.
  by rewrite le_value_bytes.
Qed.

Lemma index_at_here b data off : here data off [b] -> index_at data off = Ok b.
Proof. intros H%here_lookup. unfold index_at. by rewrite H. Qed.

(** A signed field: written as unsigned, read back and sign-extended. *)
Lemma wrap_s_written w z : 0 < w -> wrap_s w (wrap_u w (wrap_s w z) mod 2 ^ w) = wrap_s w z.
Proof.
  intros Hw. fold (wrap_u w (wrap_u w (wrap_s w z))). rewrite !wrap_s_wrap_u.
  by apply wrap_s_small, wrap_s_range.
Qed.

Lemma AppendPackedScalar_length type field scalar :
  Byte.eqb type Db.Bool = false -> DbTypeSizeBits type <> 0 ->
  AppendPackedScalar type field = Ok scalar -> length scalar = field_bytes type.
Proof.
  intros Hb Hnz. unfold AppendPackedScalar. generalize (if IsNone field then Ok 0 else IntValue field).
  intros [z| | |]; try done. cbn [mbind res_bind].
  generalize (if IsNone field then Ok 0 else RealValue field). intros r.
  pose proof (scalar_type_cases type Hb Hnz) as Hin.
  repeat (destruct Hin as [<-|Hin]); try done; cbn; try (by intros [= <-]);
    destruct r; try done; by intros [= <-].
Qed.

(** A field that is not null is an integer and reads back truncated; in a
    column of floating-point numbers the encoder has no such field. *)
Lemma AppendPackedScalar_read type field scalar :
  Byte.eqb type Db.Bool = false -> DbTypeSizeBits type <> 0 -> value_ok field ->
  IsNone field = false -> AppendPackedScalar type field = Ok scalar ->
  exists z, field = VInt z /\ forall data off, here data off scalar ->
    ReadPackedScalar data off type = Ok (VInt (truncate_field type z)).
Proof.
  intros Hb Hnz Hok Hnone. unfold AppendPackedScalar. rewrite Hnone.
  destruct field as [| |z| | | | | | | | | | | | | | |]; try done.
  cbn [IntValue mbind res_bind RealValue]. intros H. exists z. split; [done|].
  intros data off Hh. simpl in Hok.
  assert (Hword : forall n (g : Z -> Z) w, here data off (le_bytes 0 n w) ->
    (v ← (v ← read_le_at n data off; Ok (g v)); Ok (VInt v)) =
      Ok (VInt (g (w mod 2 ^ (8 * Z.of_nat n))))).
  { intros n g w Hw. by rewrite (read_le_at_here _ _ _ _ Hw). }
  assert (Hlong : here data off (AppendI64 z) ->
    (v ← (v ← read_le_at 8 data off; Ok (i64 v)); Ok (VInt v)) = Ok (VInt z)).
  { intros Hw. rewrite (Hword 8%nat i64 _ Hw). do 2 f_equal.
    rewrite <- (wrap_s_small 64 z) by (done || lia). apply (wrap_s_written 64 z). lia. }
  pose proof (scalar_type_cases type Hb Hnz) as Hin.
  repeat (destruct Hin as [<-|Hin]); try done; injection H as <-; clear Hb Hnz.
  - by apply Hlong.
  - by apply Hlong.
  - by apply Hlong.
  - by apply Hlong.
  - change (truncate_field Db.I4 z) with (i32 z). rewrite <- (wrap_s_written 32 z) by lia.
    apply (Hword 4%nat i32 _ Hh).
  - etrans; [apply (f_equal (fun r => r ≫= _)), (read_le_at_here 4 _ _ _ Hh)|]. cbn -[Z.pow].
    do 2 f_equal. apply wrap_u_small, wrap_u_range. lia.
  - unfold AppendI16, AppendU16 in Hh. rewrite PutU16_le in Hh.
    change (truncate_field Db.I2 z) with (i16 z). rewrite <- (wrap_s_written 16 z) by lia.
    apply (Hword 2%nat i16 _ Hh).
  - unfold AppendU16 in Hh. rewrite PutU16_le in Hh.
    etrans; [apply (f_equal (fun r => r ≫= _)), (read_le_at_here 2 _ _ _ Hh)|]. cbn -[Z.pow].
    do 2 f_equal. apply wrap_u_small, wrap_u_range. lia.
  - change (ReadPackedScalar data off Db.I1) with (b ← index_at data off; Ok (VInt (i8 (u8 b)))).
    rewrite (index_at_here _ _ _ Hh). cbn -[Z.pow]. rewrite u8_to_u8. change 256 with (2 ^ 8).
    fold (wrap_u 8 (i8 z)). rewrite wrap_s_wrap_u. do 2 f_equal.
    by apply wrap_s_small, wrap_s_range.
  - change (ReadPackedScalar data off Db.Ui1) with (b ← index_at data off; Ok (VInt (u8 b))).
    rewrite (index_at_here _ _ _ Hh). cbn -[Z.pow]. by rewrite u8_to_u8.
Qed.

(** *** The two loops over the size order *)

Lemma index_at_Some {A} (l : list A) i a : l !! i = Some a -> index_at l i = Ok a.
Proof. unfold index_at. by intros ->. Qed.

Lemma set_bit_if (b : bool) bits k bits' :
  (if b then set_bit bits k else Ok bits) = Ok bits' ->
  length bits' = length bits /\
  forall j, getbit bits' j = (b && bool_decide (j = k)) || getbit bits j.
Proof. destruct b; [apply set_bit_spec|]. by intros <-%Ok_inj. Qed.

Section pack.
Context (columns : list PackedColumn) (values : list Value).
Hypothesis Hlen : length values = length columns.
Hypothesis Hok : Forall value_ok values.
#[local] Abbreviation bool_count := (BoolCount columns).

Definition row_target : list Value := zip_with canon_field columns (map canon values).

(** The pointers set so far are those of the target. *)
Definition row_le (row : list (option Value)) : Prop :=
  length row = length columns /\
  forall i v, row !! i = Some (Some v) -> row_target !! i = Some v.

Lemma row_target_lookup i c f :
  columns !! i = Some c -> values !! i = Some f ->
  row_target !! i = Some (canon_field c (canon f)).
Proof using Type.
  intros Hc Hf. unfold row_target. apply lookup_zip_with_Some. exists c, (canon f).
  split_and!; [done|done|]. by rewrite list_lookup_fmap, Hf.
Qed.

Lemma assign_target row i v :
  row_le row -> row_target !! i = Some v ->
  exists row', assign row i v = Ok row' /\ row_le row' /\ set_at row' i /\
    forall j, set_at row j -> set_at row' j.
Proof using Hlen.
  intros [Hl Hle] Hv. pose proof (lookup_lt_Some _ _ _ Hv) as Hi.
  unfold row_target in Hi. rewrite length_zip_with, length_map, Hlen, Nat.min_id in Hi.
  unfold assign. rewrite (proj2 (Nat.ltb_lt _ _)) by lia. eexists. split; [done|]. split_and!.
  - split; [by rewrite length_insert|]. intros j w.
    destruct (decide (i = j)) as [<-|]; [|rewrite list_lookup_insert_ne by done; by apply Hle].
    rewrite list_lookup_insert_eq by lia. by intros [= <-].
  - exists v. apply list_lookup_insert_eq. lia.
  - intros j [w Hw]. destruct (decide (i = j)) as [<-|].
    + exists v. apply list_lookup_insert_eq. lia.
    + exists w. by rewrite list_lookup_insert_ne.
Qed.

(** The bits the rest of the order will set are still clear. *)
Definition clean (order : list (Z * nat)) (bool_offset : nat) (bits : list byte) : Prop :=
  (forall size i, (size, i) ∈ order -> getbit bits (i + bool_count) = false) /\
  (forall k, (bool_offset <= k < bool_count)%nat -> getbit bits k = false).

Definition untouched (order : list (Z * nat)) (bool_offset k : nat) : Prop :=
  (forall size i, (size, i) ∈ order -> k <> (i + bool_count)%nat) /\
  (k < bool_offset \/ bool_count <= k)%nat.

(** What one field contributes to the bits: its null bit, and for a boolean
    its bit. *)
Lemma bits_step size i order bo bo' null bit bits bits1 bits2 :
  NoDup (i :: order.*2) -> clean ((size, i) :: order) bo bits ->
  (bo <= bo')%nat -> (bit = true -> bo < bo' /\ bo < bool_count)%nat ->
  (if null : bool then set_bit bits (i + bool_count) else Ok bits) = Ok bits1 ->
  (if bit : bool then set_bit bits1 bo else Ok bits1) = Ok bits2 ->
  length bits2 = length bits /\ clean order bo' bits2 /\
  getbit bits2 (i + bool_count) = null /\
  ((bo < bool_count)%nat -> getbit bits2 bo = bit) /\
  forall k, untouched ((size, i) :: order) bo k -> getbit bits2 k = getbit bits k.
Proof using Hlen.
  intros [Hni _]%NoDup_cons [Hc1 Hc2] Hbo Hbit [Hl1 H1]%set_bit_if [Hl2 H2]%set_bit_if.
  assert (H12 : forall j, getbit bits2 j =
    (bit && bool_decide (j = bo)) || ((null && bool_decide (j = i + bool_count)%nat) || getbit bits j))
    by (intros j; by rewrite H2, H1).
  assert (Hnot : forall j, j <> bo -> j <> (i + bool_count)%nat -> getbit bits2 j = getbit bits j).
  { intros j Hj1 Hj2. rewrite H12, !bool_decide_false by done. by rewrite !andb_false_r. }
  assert (Hbool : bit = false \/ (bo < bo' /\ bo < bool_count)%nat)
    by (destruct bit; [right; by apply Hbit|by left]).
  split_and!; [lia|split| | |].
  - intros s j Hj. rewrite H12, (Hc1 s j) by (apply elem_of_cons; by right).
    rewrite (bool_decide_false (j + bool_count = i + bool_count)%nat).
    2:{ intros ?. apply Hni. apply list_elem_of_fmap. exists (s, j). simpl. split; [lia|done]. }
    destruct Hbool as [-> | ?]; [by destruct null|].
    rewrite bool_decide_false by lia. by destruct bit, null.
  - intros k Hk. rewrite H12, Hc2 by lia.
    rewrite (bool_decide_false (k = i + bool_count)%nat) by lia.
    destruct Hbool as [-> | ?]; [by destruct null|].
    rewrite bool_decide_false by lia. by destruct bit, null.
  - rewrite H12, (Hc1 size i) by (apply elem_of_cons; by left).
    rewrite (bool_decide_true (i + bool_count = i + bool_count)%nat) by done.
    destruct Hbool as [-> | ?]; [by destruct null|].
    rewrite bool_decide_false by lia. by destruct bit, null.
  - intros Hlt. rewrite H12, Hc2, (bool_decide_true (bo = bo)) by lia || done.
    rewrite bool_decide_false by lia. by destruct bit, null.
  - intros k [Hk1 Hk2]. pose proof (Hk1 size i ltac:(apply elem_of_cons; by left)).
    destruct Hbool as [-> | ?]; [|apply Hnot; lia].
    rewrite H12, (bool_decide_false (k = i + bool_count)%nat) by done. by destruct null.
Qed.

(** What [pack_fields] writes, [unpack_fields] reads back. *)
Definition unpacks (P B : list byte) (order : list (Z * nat)) (offset bool_offset : nat) : Prop :=
  forall row, row_le row -> exists row',
    unpack_fields columns (P ++ B) (length P) bool_count order row offset bool_offset = Ok row' /\
    row_le row' /\ row_step (fun size => size <> 0) order row row'.

(** A boolean field, null or a bit, is what its bits say. *)
Lemma field_bool_value c f bit :
  (if IsNone f then Ok false else BoolValue f) = Ok bit ->
  canon_field c (canon f) = if IsNone f then VNone else VBool bit.
Proof using Type.
  destruct f; try done. simpl. by intros ->%Ok_inj.
Qed.

Lemma null_field_value c f : IsNone f = true -> canon_field c (canon f) = VNone.
Proof using Type. by destruct f. Qed.

(** One field read back, in the decoder's terms. *)
Lemma unpacks_field P B size i c f order offset bo :
  length B = BitBytes columns -> columns !! i = Some c -> values !! i = Some f ->
  size = DbTypeSizeBits (col_type c) -> size <> 0 ->
  getbit B (i + bool_count) = IsNone f ->
  (if Byte.eqb (col_type c) Db.Bool then
     (bo < bool_count)%nat /\
     canon_field c (canon f) = (if IsNone f then VNone else VBool (getbit B bo)) /\
     unpacks P B order offset (S bo)
   else
     (IsNone f = false ->
      ReadPackedScalar (P ++ B) offset (col_type c) = Ok (canon_field c (canon f))) /\
     unpacks P B order (offset + field_bytes (col_type c)) bo) ->
  unpacks P B ((size, i) :: order) offset bo.
Proof using Hlen.
  intros HB Hc Hf -> Hnz Hnull Hfield row Hrow. cbn [unpack_fields].
  rewrite (index_at_Some _ _ _ Hc). cbn [mbind res_bind].
  rewrite (proj2 (Z.eqb_neq _ _) Hnz).
  rewrite (test_bit_getbit _ _ (i + bool_count)), Hnull.
  2:{ rewrite HB. apply null_bit_in_range. by eapply lookup_lt_Some. }
  cbn [mbind res_bind].
  destruct (assign_target row i _ Hrow (row_target_lookup _ _ _ Hc Hf))
    as (row1 & Ha & Hrow1 & Hset & Hmono).
  assert (Hrest : forall o b, unpacks P B order o b -> exists row',
    unpack_fields columns (P ++ B) (length P) bool_count order row1 o b = Ok row' /\
    row_le row' /\
    row_step (fun size => size <> 0) ((DbTypeSizeBits (col_type c), i) :: order) row row').
  { intros o b Hu. destruct (Hu row1 Hrow1) as (row' & -> & ? & ?). exists row'.
    split_and!; [done|done|by eapply row_step_cons]. }
  destruct (Byte.eqb (col_type c) Db.Bool) eqn:Hb.
  - destruct Hfield as (Hbo & Hcan & Hu).
    rewrite Hcan in Ha. destruct (IsNone f).
    + rewrite Ha. by apply Hrest.
    + rewrite test_bit_getbit by (rewrite HB; by apply bool_bit_in_range).
      cbn [mbind res_bind]. rewrite Ha. by apply Hrest.
  - destruct Hfield as (Hread & Hu). unfold field_bytes in Hu. rewrite Hb in Hu.
    destruct (IsNone f) eqn:Hnone.
    + rewrite (null_field_value c f Hnone) in Ha. rewrite Ha. by apply Hrest.
    + rewrite Hread by done. cbn [mbind res_bind]. rewrite Ha. by apply Hrest.
Qed.

Lemma pack_fields_spec order packed bits bo P B :
  order_ok columns order -> NoDup (order.*2) ->
  (bo + order_sum field_bool columns order <= bool_count)%nat ->
  clean order bo bits -> length bits = BitBytes columns ->
  pack_fields columns values bool_count order packed bits bo = Ok (P, B) ->
  (exists tail, P = packed ++ tail /\ length tail = order_sum field_bytes columns order) /\
  length B = BitBytes columns /\
  (forall k, untouched order bo k -> getbit B k = getbit bits k) /\
  unpacks P B order (length packed) bo.
Proof using Hlen Hok.
  revert packed bits bo. induction order as [|[size i] order IH];
    intros packed bits bo Ho Hnd Hroom Hclean HB H.
  { injection H as <- <-. split_and!; [exists []; by rewrite app_nil_r|done|done|].
    intros row Hrow. exists row. split_and!; [done|done|apply row_step_nil]. }
  destruct (Ho size i) as (c & Hc & Hsize); [apply elem_of_cons; by left|].
  assert (Ho' : order_ok columns order) by (intros s j ?; apply Ho, elem_of_cons; by right).
  pose proof (NoDup_cons_1_2 _ _ Hnd) as Hnd'.
  rewrite (order_sum_cons _ _ _ _ _ _ Hc) in Hroom. rewrite (order_sum_cons _ _ _ _ _ _ Hc).
  cbn [pack_fields] in H.
  rewrite (index_at_Some _ _ _ Hc) in H. cbn [mbind res_bind] in H.
  assert (Hwiden : forall k, untouched ((size, i) :: order) bo k -> untouched order bo k)
    by (intros k [Hk ?]; split; [intros s j ?; apply (Hk s), elem_of_cons; by right|done]).
  destruct (Z.eqb_spec size 0) as [Hz|Hnz].
  { assert (Hfb : field_bytes (col_type c) = 0%nat)
      by (unfold field_bytes; destruct (Byte.eqb _ _); [done|]; by rewrite <- Hsize, Hz).
    rewrite Hfb. cbn [Nat.add].
    assert (Hclean' : clean order bo bits)
      by (destruct Hclean as [Hc1 Hc2]; split; [intros s j ?; apply (Hc1 s), elem_of_cons; by right|done]).
    destruct (IH packed bits bo Ho' Hnd' ltac:(lia) Hclean' HB H) as (Htail & HB' & Hun & Hu).
    split_and!; [done|done|auto|]. intros row Hrow. destruct (Hu row Hrow) as (row' & Hrow' & ? & ?).
    exists row'. cbn [unpack_fields]. rewrite (index_at_Some _ _ _ Hc). cbn [mbind res_bind].
    rewrite Hz. split_and!; [done|done|]. apply row_step_skip; [by intros []|done]. }
  apply res_bind_ok in H as (f & Hf & H).
  assert (Hf' : values !! i = Some f)
    by (unfold index_at in Hf; destruct (values !! i); [by apply Ok_inj in Hf as ->|done]).
  assert (Hfok : value_ok f) by (by eapply Forall_lookup_1 in Hok).
  apply res_bind_ok in H as (bits1 & Hb1 & H).
  assert (Hfar : untouched order bo (i + bool_count)).
  { split; [|lia]. intros s j Hj Hij. apply NoDup_cons in Hnd as [Hni _]. apply Hni.
    apply list_elem_of_fmap. exists (s, j). simpl. split; [lia|done]. }
  destruct (Byte.eqb (col_type c) Db.Bool) eqn:Hbool.
  - unfold field_bool in Hroom at 1. rewrite Hbool in Hroom.
    apply res_bind_ok in H as (bit & Hbit & H). apply res_bind_ok in H as (bits2 & Hb2 & H).
    destruct (bits_step size i order bo (S bo) (IsNone f) bit bits bits1 bits2)
      as (Hl2 & Hcl2 & Hnull & Hbo & Hun2); [done|done|lia|lia|done|done|].
    destruct (IH packed bits2 (S bo) Ho' Hnd' ltac:(lia) Hcl2 ltac:(lia) H) as ((tail & HP & Ht) & HB' & Hun & Hu).
    assert (HbitB : getbit B bo = bit).
    { rewrite Hun; [apply Hbo; lia|]. split; [|lia]. intros s j _. lia. }
    split_and!; [|done| |].
    + exists tail. split; [done|]. unfold field_bytes. by rewrite Hbool.
    + intros k Hk. rewrite Hun, Hun2; [done|done|]. apply Hwiden in Hk as [Hk1 Hk2].
      split; [done|lia].
    + eapply unpacks_field; [done..| |]; [|rewrite Hbool].
      { rewrite Hun, Hnull; [done|]. destruct Hfar. split; [done|lia]. }
      rewrite HbitB. split_and!; [lia|by apply field_bool_value|done].
  - unfold field_bool in Hroom at 1. rewrite Hbool in Hroom.
    apply res_bind_ok in H as (scalar & Hscalar & H).
    destruct (bits_step size i order bo bo (IsNone f) false bits bits1 bits1)
      as (Hl1 & Hcl1 & Hnull & _ & Hun1); [done|done|lia|done|done|done|].
    destruct (IH (packed ++ scalar) bits1 bo Ho' Hnd' ltac:(lia) Hcl1 ltac:(lia) H) as ((tail & HP & Ht) & HB' & Hun & Hu).
    rewrite Hsize in Hnz. pose proof (AppendPackedScalar_length _ _ _ Hbool Hnz Hscalar) as Hsl.
    split_and!; [|done| |].
    + exists (scalar ++ tail). by rewrite HP, <- app_assoc, length_app, Ht, Hsl.
    + intros k Hk. rewrite Hun, Hun1; auto.
    + eapply unpacks_field; [done..|by rewrite Hsize| |].
      { rewrite Hun, Hnull; done. }
      rewrite Hbool. rewrite length_app, Hsl in Hu. split; [|done]. intros Hnone.
      destruct (AppendPackedScalar_read _ _ _ Hbool Hnz Hfok Hnone Hscalar) as (z & -> & Hread).
      simpl. rewrite (proj2 (Z.eqb_neq _ _) Hnz). apply Hread. rewrite HP, <- !app_assoc.
      split; [rewrite length_app; lia|]. exists (tail ++ B). by rewrite drop_app_length.
Qed.
End pack.

(** *** The row *)

Lemma ExtractColumns_BuildRowHeader columns :
  (kMaxPackedRowColumns <? Z.of_nat (length columns)) = false ->
  ExtractColumns (BuildRowHeader columns) = Ok columns.
Proof.
  intros Hn. unfold ExtractColumns, BuildRowHeader. cbn [ObjectExValue mbind res_bind].
  change (negb (is_token (VToken "blue.DBRowDescriptor") "blue.DBRowDescriptor")) with false.
  cbn iota. rewrite length_map, Hn.
  induction columns as [|[name type] columns IH]; [done|]. cbn. rewrite to_u8_u8. cbn.
  assert (Hn' : (kMaxPackedRowColumns <? Z.of_nat (length columns)) = false)
    by (apply Z.ltb_ge in Hn; apply Z.ltb_ge; simpl in Hn; lia).
  by rewrite (IH Hn').
Qed.

Lemma canon_BuildRowHeader columns : canon (BuildRowHeader columns) = BuildRowHeader columns.
Proof.
  unfold BuildRowHeader. cbn. do 3 f_equal. rewrite map_map. by apply map_ext.
Qed.

Lemma value_ok_BuildRowHeader columns : value_ok (BuildRowHeader columns).
Proof.
  apply value_ok_objectex. split_and!; [done| |constructor]. constructor; [|constructor].
  apply value_ok_tuple, Forall_map, Forall_forall. intros c _. split_and!; try done.
  simpl. pose proof (u8_range (col_type c)). unfold in_s. lia.
Qed.

Lemma NoDup_SizeOrder columns : NoDup ((SizeOrder columns).*2).
Proof.
  rewrite SizeOrder_Permutation. unfold index_order.
  assert (Hgen : forall n, NoDup ((imap (fun i c => (DbTypeSizeBits (col_type c), (n + i)%nat)) columns).*2)).
  { induction columns as [|c cs IH]; intros n; cbn; [constructor|]. constructor.
    - intros ((s & j) & Heq & Hj)%list_elem_of_fmap. simpl in Heq.
      apply elem_of_lookup_imap in Hj as (k & ? & [= _ Hk] & _). lia.
    - specialize (IH (S n)). erewrite imap_ext; [exact IH|]. intros i ? _. simpl. f_equal. lia. }
  apply (Hgen 0%nat).
Qed.

Section rows.
Context (encode : Value -> res (list byte)) (decode : M Decoder Value).
Hypothesis Hrec : forall v out, value_ok v -> encode v = Ok out -> decodes decode out (canon v).
Context (columns : list PackedColumn) (values : list Value).
Hypothesis Hlen : length values = length columns.
Hypothesis Hok : Forall value_ok values.
#[local] Abbreviation row_le := (row_le columns values).
#[local] Abbreviation target := (row_target columns values).

Lemma decodes_loose order loose out row :
  order_ok columns order -> zero_size_values order values = Ok loose ->
  encode_items encode loose = Ok out -> row_le row ->
  exists row', decodes (decode_loose decode order row) out row' /\ row_le row' /\
    row_step (fun size => size = 0) order row row'.
Proof using Hrec Hlen Hok.
  revert loose out row. induction order as [|[size i] order IH]; intros loose out row Ho Hl He Hrow.
  { injection Hl as <-. injection He as <-. exists row.
    split_and!; [apply decodes_ret|done|apply row_step_nil]. }
  destruct (Ho size i) as (c & Hc & Hsize); [apply elem_of_cons; by left|].
  assert (Ho' : order_ok columns order) by (intros s j ?; apply Ho, elem_of_cons; by right).
  unfold zero_size_values in Hl. rewrite filter_cons in Hl. cbn [decode_loose].
  destruct (Z.eqb_spec size 0) as [Hz|Hz].
  - rewrite decide_True in Hl by (by apply Z.eqb_eq). cbn in Hl.
    apply res_bind_ok in Hl as (f & Hf & Hl). apply res_bind_ok in Hl as (loose' & Hl & [= <-]).
    assert (Hf' : values !! i = Some f)
      by (unfold index_at in Hf; destruct (values !! i); [by apply Ok_inj in Hf as ->|done]).
    cbn in He. apply res_bind_ok in He as (o & Ho1 & He).
    apply res_bind_ok in He as (out' & He & [= <-]).
    destruct (assign_target columns values Hlen row i _ Hrow
                (row_target_lookup _ _ _ _ _ Hc Hf')) as (row1 & Ha & Hrow1 & Hset & Hmono).
    destruct (IH _ _ _ Ho' Hl He Hrow1) as (row' & Hd & ? & ?). exists row'.
    split_and!; [|done|by eapply row_step_cons].
    eapply decodes_bind; [apply Hrec; [by eapply Forall_lookup_1 in Hok|exact Ho1]|].
    eapply decodes_bind_0; [|exact Hd]. apply decodes_lift. rewrite <- Ha. f_equal.
    destruct f; try done. cbn. by rewrite <- Hsize, Hz.
  - rewrite decide_False in Hl by (by rewrite Z.eqb_eq).
    destruct (IH _ _ _ Ho' Hl He Hrow) as (row' & Hd & ? & ?). exists row'.
    split_and!; [done|done|by apply row_step_skip].
Qed.

Lemma all_set_target row :
  row_le row -> (forall i, (i < length columns)%nat -> set_at row i) ->
  all_set row = Ok target.
Proof using Hlen.
  assert (Htl : length target = length columns)
    by (unfold row_target; rewrite length_zip_with, length_map; lia).
  intros [Hl Hle] Hset. rewrite <- Htl in Hl, Hset. clear Htl. revert Hl Hle Hset.
  generalize target. unfold all_set. induction row as [|o row IH];
    intros [|t ts] Hl Hle Hset; try done.
  destruct (Hset 0%nat) as [v Hv]; [simpl; lia|]. injection Hv as ->.
  pose proof (Hle 0%nat v eq_refl) as [= ->]. cbn.
  rewrite (IH ts); [done|by injection Hl|intros i; apply (Hle (S i))|].
  intros i Hi. destruct (Hset (S i)) as [w Hw]; [simpl; lia|]. by exists w.
Qed.

Lemma decodes_EncodePackedRow out :
  EncodePackedRow encode columns values = Ok out ->
  exists body, out = PutOp PyPackedRow ++ body /\
    decodes (DecodePackedRow decode) body (canon (VPackedRow columns values)).
Proof using Hrec Hlen Hok.
  unfold EncodePackedRow. destruct (_ <? _) eqn:Hn; [done|]. destruct (negb _); [done|].
  intros H. apply res_bind_ok in H as (header & Hheader & H).
  apply res_bind_ok in H as ([P B] & Hpack & H). apply res_bind_ok in H as (rle & Hrle & H).
  apply res_bind_ok in H as (loose & Hloose & H). apply res_bind_ok in H as (lo & Hlo & H).
  injection H as <-. eexists. split; [done|].
  destruct (pack_fields_spec columns values Hlen Hok (SizeOrder columns) []
    (replicate (BitBytes columns) x00) 0 P B) as ((tail & HP & Ht) & HB & _ & Hu); [| | | | |done|].
  { apply order_ok_SizeOrder. } { apply NoDup_SizeOrder. }
  { rewrite order_sum_SizeOrder, BoolCount_sum. lia. }
  { split; intros; apply getbit_replicate. } { apply length_replicate. }
  rewrite order_sum_SizeOrder in Ht. simpl in HP. subst tail.
  destruct (Hu (replicate (length columns) None)) as (row1 & Hrow1 & Hle1 & [_ Hs1]).
  { split; [apply length_replicate|]. by intros i v [? _]%lookup_replicate. }
  destruct (decodes_loose (SizeOrder columns) loose lo row1) as (row2 & Hd2 & Hle2 & [Hm2 Hs2]);
    [apply order_ok_SizeOrder|done..|].
  unfold DecodePackedRow. eapply decodes_bind.
  { apply Hrec; [apply value_ok_BuildRowHeader|done]. }
  rewrite canon_BuildRowHeader. cbn [negb BuildRowHeader].
  change (negb (IsObjectEx (BuildRowHeader columns))) with false. cbn iota.
  eapply decodes_bind_0; [by apply decodes_lift, ExtractColumns_BuildRowHeader|].
  apply decodes_bounded. intros Hb. unfold PutSized in *. rewrite !length_app in Hb.
  rewrite u32_length by lia. rewrite <- app_assoc. unfold MAX_STREAM_BYTES in Hb.
  eapply decodes_bind; [apply decodes_ReadBoundedSize; unfold MAX_STRING_BYTES; lia|].
  rewrite (proj2 (Z.ltb_ge _ _)) by (unfold kMaxPackedRowBytes; lia).
  eapply decodes_bind; [apply decodes_rd, reads_ReadBytes|].
  eapply decodes_bind_0.
  { apply decodes_lift. unfold ZeroDecompress. rewrite FixedBits_bytes, <- Ht, <- HB.
    by apply ZeroCompress_inverse. }
  cbn zeta. rewrite length_app, HB.
  destruct (Nat.ltb_spec (length P + BitBytes columns) (BitBytes columns)); [lia|].
  rewrite Nat.add_sub. eapply decodes_bind_0; [by apply decodes_lift|].
  rewrite <- (app_nil_r lo). eapply decodes_bind; [exact Hd2|].
  eapply decodes_bind_0; [apply decodes_lift, (all_set_target _ Hle2)|apply decodes_ret].
  intros i Hi. destruct (lookup_lt_is_Some_2 columns i Hi) as [c Hc].
  assert (Hin : (DbTypeSizeBits (col_type c), i) ∈ SizeOrder columns)
    by (apply elem_of_SizeOrder; eauto).
  destruct (Z.eq_dec (DbTypeSizeBits (col_type c)) 0); [by eapply Hs2|].
  apply Hm2. by eapply Hs1.
Qed.
End rows.

(** ** Values and streams *)

Lemma EncodeValue_inv fuel v depth out :
  EncodeValue fuel v depth = Ok out ->
  exists fuel', fuel = S fuel' /\ depth <= MAX_MARSHAL_DEPTH.
Proof.
  destruct fuel as [|fuel]; [done|]. cbn [EncodeValue].
  destruct (Z.ltb_spec MAX_MARSHAL_DEPTH depth); [done|]. eauto.
Qed.

Lemma EncodeValue_decodes fuel v depth out :
  value_ok v -> EncodeValue fuel v depth = Ok out ->
  decodes (DecodeValue fuel depth) out (canon v).
Proof.
  revert v depth out. induction fuel as [|fuel IH]; intros v depth out Hok H; [done|].
  destruct (EncodeValue_inv _ _ _ _ H) as (? & _ & Hd). cbn [EncodeValue] in H.
  rewrite (proj2 (Z.ltb_ge _ _)) in H by done. cbn zeta in H.
  pose proof (fun w o (Hw : value_ok w) (He : EncodeValue fuel w (depth + 1) = Ok o) =>
    IH w (depth + 1) o Hw He) as Hrec.
  pose proof (fun w o (He : EncodeValue fuel w (depth + 1) = Ok o) =>
    EncodeValue_head fuel w (depth + 1) o He) as Hhead.
  destruct v; try (apply Ok_inj in H as <-).
  - by apply decodes_op_nil.
  - destruct value; by apply decodes_op_nil.
  - by apply decodes_EncodeInteger.
  - by apply decodes_EncodeReal.
  - by apply decodes_EncodeString.
  - by apply decodes_EncodeWString.
  - apply decodes_op; [done|]. apply (decodes_text VToken).
  - apply decodes_op; [done|]. apply (decodes_sized_string VBuffer).
  - apply value_ok_tuple in Hok.
    apply (decodes_EncodeTuple _ _ Hrec Hhead) in H as (op & body & _ & -> & Hb); [|done].
    by apply decodes_op.
  - apply value_ok_list in Hok.
    apply (decodes_EncodeList _ _ Hrec Hhead) in H as (op & body & _ & -> & Hb); [|done].
    by apply decodes_op.
  - apply value_ok_dict in Hok.
    apply (decodes_EncodeDict _ _ Hrec Hhead) in H as (body & -> & Hb); [|done].
    by apply decodes_op.
  - unfold EncodeObject in H. apply res_bind_ok in H as (o & Ho & H). apply Ok_inj in H as <-.
    apply decodes_op; [done|]. destruct (EncodeValue_inv _ _ _ _ Ho) as (fuel' & -> & Hd').
    change (DecodeOpcode ?d (opcode_value PyObject)) with (DecodeObject d).
    unfold DecodeObject. eapply decodes_bind; [by apply decodes_EncodeString|].
    change (negb (IsString (VString type))) with false. cbn iota.
    rewrite <- (app_nil_r o). eapply decodes_bind; [by apply (Hrec v)|].
    eapply decodes_bind_0; [by apply decodes_lift|apply decodes_ret].
  - apply value_ok_objectex in Hok as (? & ? & ?).
    apply (decodes_EncodeObjectEx _ _ Hrec Hhead) in H as (op & body & _ & -> & Hb); [|done..].
    by apply decodes_op.
  - apply res_bind_ok in H as (o & Ho & H). apply Ok_inj in H as <-.
    apply decodes_op; [done|]. apply (decodes_map _ VSubStruct). by apply (Hrec v).
  - by apply decodes_EncodeSubStream.
  - destruct Hok as [Hc Hok]. apply res_bind_ok in H as (o & Ho & H). apply Ok_inj in H as <-.
    apply decodes_op; [done|].
    eapply (decodes_bind (rd ReadU32)); [by apply decodes_rd, reads_PutU32|].
    apply (decodes_map _ (VChecksumedStream checksum)). by apply (Hrec v).
  - apply value_ok_packedrow in Hok.
    assert (Hlen : length values = length columns).
    { unfold EncodePackedRow in H. destruct (_ <? _); [done|].
      destruct (bool_decide _) eqn:Hl; [|done]. by apply bool_decide_eq_true in Hl. }
    apply (decodes_EncodePackedRow _ _ Hrec _ _ Hlen Hok) in H as (body & -> & Hb).
    by apply decodes_op.
  - apply decodes_op; [done|]. apply (decodes_sized_string VCPicked).
Qed.

Lemma rd_reads {A} (m : M Reader A) out a bytes off saved value_end :
  reads m out a -> here bytes off out ->
  rd m (mkDecoder (mkReader bytes off) saved value_end) =
    (Ok a, mkDecoder (mkReader bytes (off + length out)) saved value_end).
Proof. intros Hm Hh. unfold rd, on. cbn [m_reader]. by rewrite (Hm _ _ Hh). Qed.

(** The header, the empty save table, the root value, and what follows it. *)
Definition after_value (require_exact_end : bool) (extra : list byte) (v : Value) : res Value :=
  match extra with
  | _ :: _ =>
      if require_exact_end then raise MarshalFormatError "marshal stream has trailing data"
      else Ok v
  | [] => Ok v
  end.

Lemma DecodeStream_roundtrip v out extra bs require_exact_end :
  value_ok v -> EncodeValue encode_fuel v 0 = Ok out ->
  bs = PutU8 MARSHAL_HEADER_BYTE ++ PutU32 0 ++ out ++ extra ->
  Z.of_nat (length bs) <= MAX_STREAM_BYTES ->
  fst (DecodeStream require_exact_end (mkDecoder (mkReader bs 0) [] 0)) =
    after_value require_exact_end extra (canon v).
Proof.
  intros Hok Hout Hbs Hlen. pose proof (EncodeValue_decodes _ _ _ _ Hok Hout) as Hd.
  assert (Hh : here bs 0 (PutU8 MARSHAL_HEADER_BYTE ++ PutU32 0 ++ out)).
  { split; [lia|]. exists extra. by rewrite Hbs. }
  apply here_app in Hh as [H1 Hh]. apply here_app in Hh as [H2 H3]. simpl in H2, H3.
  assert (Hl : (5 + length out + length extra = length bs)%nat)
    by (rewrite Hbs, !length_app; simpl; lia).
  unfold DecodeStream. rewrite (bind_eq _ _ _ _ _ (rd_reads _ _ _ _ _ _ _ (reads_ReadU8 _) H1)).
  change (negb (u8 (to_u8 MARSHAL_HEADER_BYTE) =? MARSHAL_HEADER_BYTE)) with false. cbn iota.
  rewrite (bind_eq _ _ _ _ _ (rd_reads _ _ _ _ _ _ _ (reads_PutU32 0 ltac:(done)) H2)).
  change (MAX_SAVED_OBJECTS <? 0) with false. cbn iota.
  rewrite (bind_eq (modify _) _ _ tt _ eq_refl).
  rewrite (bind_eq get _ _ _ _ eq_refl). cbn zeta. rewrite Z.eqb_refl.
  rewrite (bind_eq (modify _) _ _ tt _ eq_refl).
  set (d := set_value_end _ _). assert (d = at_offset bs 5) as ->.
  { unfold d, at_offset, set_value_end, Offset, Remaining. simpl. f_equal.
    rewrite wrap_u_small; [lia|]. unfold in_u, MAX_STREAM_BYTES in *. lia. }
  rewrite (bind_eq _ _ _ _ _ (Hd _ _ H3 Hlen)). rewrite (bind_eq get _ _ _ _ eq_refl).
  unfold Offset, at_offset, after_value. cbn [m_reader m_offset m_value_end]. rewrite <- Hl.
  destruct extra as [|b extra], require_exact_end; cbn [andb negb length]; try done.
  - rewrite (proj2 (Z.eqb_eq _ _)) by lia. done.
  - rewrite (proj2 (Z.eqb_neq _ _)) by lia. done.
Qed.

(** [Encode] is the header followed by the value. *)
Lemma Encode_inv v bs :
  Encode v = Ok bs -> exists out, EncodeValue encode_fuel v 0 = Ok out /\
    bs = PutU8 MARSHAL_HEADER_BYTE ++ PutU32 0 ++ out.
Proof.
  unfold Encode. destruct (EncodeValue encode_fuel v 0) as [out| | |]; try done.
  intros [= <-]. by exists out.
Qed.

Lemma Decode_small bs require_exact_end :
  Z.of_nat (length bs) <= MAX_STREAM_BYTES ->
  Decode bs require_exact_end =
    fst (DecodeStream require_exact_end (mkDecoder (mkReader bs 0) [] 0)).
Proof. intros H. unfold Decode. by rewrite (proj2 (Z.ltb_ge _ _) H). Qed.

(** Decoding an encoding, with or without bytes after it. *)
Lemma Decode_Encode v bs extra require_exact_end :
  value_ok v -> Encode v = Ok bs -> Z.of_nat (length (bs ++ extra)) <= MAX_STREAM_BYTES ->
  Decode (bs ++ extra) require_exact_end = after_value require_exact_end extra (canon v).
Proof.
  intros Hok (out & Hout & Hbs)%Encode_inv Hlen. rewrite (Decode_small _ _ Hlen).
  apply (DecodeStream_roundtrip v out); [done|done| |done]. by rewrite Hbs, <- !app_assoc.
Qed.
