(* ===== verification/MarshalSpec.v ===== *)
(** * What the marshal library promises

    The encoder always returns or throws one of its exceptions; decoding an
    encoding gives the canonical value back; re-encoding what was decoded gives
    the same bytes; and the limits of both. *)

From stdpp Require Import base numbers list option strings.
From Stdlib Require Import Strings.Byte.
From S2P Require Import Prelude StringTable Value ZeroRle Encoder Decoder PackedOrder DecoderSafety MarshalRoundtrip.

#[local] Open Scope Z_scope.

(** ** The encoder is total *)

(** The exceptions [Encode] documents. *)
Definition encode_exn (c : exn_class) : bool :=
  match c with MarshalDepthError | MarshalLimitError | MarshalFormatError => true | _ => false end.

#[local] Abbreviation esafe := (throws_only encode_exn).

Lemma encode_items_safe encode items :
  (forall v, esafe (encode v)) -> esafe (encode_items encode items).
Proof.
  intros He. induction items as [|v items IH]; [done|]. cbn.
  apply throws_only_bind; [done|]. intros out _. by apply throws_only_bind.
Qed.

Lemma AppendPackedScalar_safe type field : esafe (AppendPackedScalar type field).
Proof.
  unfold AppendPackedScalar. apply throws_only_bind.
  { destruct (IsNone field); [done|]. by destruct field. }
  intros z _. assert (Hreal : forall (k : Z -> list byte),
    esafe (r ← (if IsNone field then Ok 0 else RealValue field); Ok (k r))).
  { intros k. apply throws_only_bind; [|done]. destruct (IsNone field); [done|]. by destruct field. }
  repeat (destruct (is_case type _); [try apply Hreal; done|]). done.
Qed.

Lemma set_bit_safe bits k : (k / 8 < length bits)%nat -> esafe (set_bit bits k).
Proof. intros Hk. unfold set_bit. by destruct (lookup_lt_is_Some_2 bits _ Hk) as [b ->]. Qed.

Lemma set_bit_if_safe (b : bool) bits k :
  (b = true -> k / 8 < length bits)%nat -> esafe (if b then set_bit bits k else Ok bits).
Proof. destruct b; [|done]. intros H. by apply set_bit_safe, H. Qed.

(** Every bit the encoder sets lies in the bit data. *)
Lemma pack_fields_safe columns values order packed bits bo :
  length values = length columns -> order_ok columns order ->
  (bo + order_sum field_bool columns order <= BoolCount columns)%nat ->
  length bits = BitBytes columns ->
  esafe (pack_fields columns values (BoolCount columns) order packed bits bo).
Proof.
  intros Hlen. revert packed bits bo.
  induction order as [|[size i] order IH]; intros packed bits bo Ho Hroom Hb; [done|].
  destruct (Ho size i) as (c & Hc & _); [apply elem_of_cons; by left|].
  assert (Ho' : order_ok columns order) by (intros s j ?; apply Ho, elem_of_cons; by right).
  assert (Hi : (i < length columns)%nat) by (by eapply lookup_lt_Some).
  rewrite (order_sum_cons _ _ _ _ _ _ Hc) in Hroom.
  cbn [pack_fields]. rewrite (index_at_Some _ _ _ Hc). cbn [mbind res_bind].
  destruct (_ =? _); [apply IH; [done|lia|done]|].
  destruct (lookup_lt_is_Some_2 values i) as [f Hf]; [lia|].
  rewrite (index_at_Some _ _ _ Hf). cbn [mbind res_bind].
  apply throws_only_bind; [apply set_bit_if_safe; intros _; rewrite Hb; by apply null_bit_in_range|].
  intros bits1 [Hl1 _]%set_bit_if.
  unfold field_bool in Hroom at 1. destruct (Byte.eqb (col_type c) Db.Bool).
  - apply throws_only_bind; [destruct (IsNone f); [done|]; by destruct f|]. intros bit _.
    apply throws_only_bind.
    { apply set_bit_if_safe. intros _. rewrite Hl1, Hb. apply bool_bit_in_range. lia. }
    intros bits2 [Hl2 _]%set_bit_if. apply IH; [done|lia|congruence].
  - apply throws_only_bind; [apply AppendPackedScalar_safe|]. intros scalar _.
    apply IH; [done|lia|congruence].
Qed.

Lemma zero_size_values_safe columns values order :
  length values = length columns -> order_ok columns order ->
  esafe (zero_size_values order values).
Proof.
  intros Hlen. unfold zero_size_values. induction order as [|[size i] order IH]; intros Ho; [done|].
  assert (Ho' : order_ok columns order) by (intros s j ?; apply Ho, elem_of_cons; by right).
  rewrite filter_cons. case_decide; [|by apply IH]. cbn.
  destruct (Ho size i) as (c & Hc & _); [apply elem_of_cons; by left|].
  apply lookup_lt_Some in Hc. destruct (lookup_lt_is_Some_2 values i) as [f Hf]; [lia|].
  rewrite (index_at_Some _ _ _ Hf). cbn. apply throws_only_bind; [by apply IH|done].
Qed.

Lemma EncodePackedRow_safe encode columns values :
  (forall v, esafe (encode v)) -> esafe (EncodePackedRow encode columns values).
Proof.
  intros He. unfold EncodePackedRow. destruct (_ <? _); [done|].
  destruct (bool_decide _) eqn:Hl; simpl; [|done]. apply bool_decide_eq_true in Hl.
  apply throws_only_bind; [done|]. intros header _. apply throws_only_bind.
  { apply pack_fields_safe; [done|apply order_ok_SizeOrder| |apply length_replicate].
    rewrite order_sum_SizeOrder, BoolCount_sum. lia. }
  intros [P B] _. apply throws_only_bind; [by destruct (ZeroCompress_total P B) as [rle ->]|].
  intros rle _. apply throws_only_bind.
  { apply (zero_size_values_safe columns); [done|apply order_ok_SizeOrder]. }
  intros loose _. apply throws_only_bind; [by apply encode_items_safe|done].
Qed.

(** The depth check bounds the recursion. *)
Lemma EncodeValue_safe fuel v depth :
  MAX_MARSHAL_DEPTH + 2 <= Z.of_nat fuel + depth -> depth <= MAX_MARSHAL_DEPTH + 1 ->
  esafe (EncodeValue fuel v depth).
Proof.
  revert v depth. induction fuel as [|fuel IH]; intros v depth Hf Hd; [lia|].
  cbn [EncodeValue]. destruct (Z.ltb_spec MAX_MARSHAL_DEPTH depth); [done|]. cbn zeta.
  assert (He : forall w, esafe (EncodeValue fuel w (depth + 1))) by (intros w; apply IH; lia).
  assert (Hitems : forall items (k : list byte -> list byte),
    esafe (out ← encode_items (fun w => EncodeValue fuel w (depth + 1)) items; Ok (k out)))
    by (intros; by apply throws_only_bind; [apply encode_items_safe|]).
  assert (Hone : forall w (k : list byte -> list byte),
    esafe (out ← EncodeValue fuel w (depth + 1); Ok (k out)))
    by (intros; by apply throws_only_bind).
  destruct v; try done.
  - unfold EncodeTuple. destruct (_ <? _); [done|]. apply Hitems.
  - unfold EncodeList. destruct (_ <? _); [done|]. apply Hitems.
  - unfold EncodeDict. destruct (_ <? _); [done|]. apply Hitems.
  - apply Hone.
  - unfold EncodeObjectEx. apply throws_only_bind; [done|]. intros head _.
    apply throws_only_bind; [by apply encode_items_safe|]. intros body _. apply Hitems.
  - apply Hone.
  - by apply EncodePackedRow_safe.
Qed.

(** Encoding any value terminates within the recursion bound and either
    returns the stream or throws a depth, limit or format exception; it never
    indexes out of range, whatever the shape of a packed row. *)
Theorem Encode_total (v : Value) :
  match Encode v with
  | Ok bs => exists out, bs = PutU8 MARSHAL_HEADER_BYTE ++ PutU32 0 ++ out
  | Throw e => encode_exn (exn_cls e) = true
  | Undefined | OutOfFuel => False
  end.
Proof.
  unfold Encode. pose proof (EncodeValue_safe encode_fuel v 0 ltac:(done) ltac:(done)) as H.
  destruct (EncodeValue encode_fuel v 0) as [out| | |]; try done. by exists out.
Qed.

(** C2. Decoding any byte sequence terminates and either throws or returns a
    well-formed value: no subscript or iterator range of the decoder is out of
    range, no null pointer reaches a row, and the recursion and the loops end
    within their bounds. *)
Theorem Decode_total (stream : list byte) (require_exact_end : bool) :
  match Decode stream require_exact_end with
  | Ok v => value_ok v
  | Throw _ => True
  | Undefined | OutOfFuel => False
  end.
Proof.
  destruct (Decode_safe stream require_exact_end) as [Hd Hok].
  destruct (Decode _ _); [by apply Hok|done..].
Qed.

(** C1. The round trip: a stream [Encode] produced for a well-formed value and
    that is within the size limit decodes to that value in canonical form,
    with the exact end required or not. *)
Theorem Encode_Decode_roundtrip (v : Value) (bs : list byte) (require_exact_end : bool)
    (Hok : value_ok v) (Henc : Encode v = Ok bs)
    (Hlen : Z.of_nat (length bs) <= MAX_STREAM_BYTES) :
  Decode bs require_exact_end = Ok (canon v).
Proof.
  pose proof (Decode_Encode v bs [] require_exact_end Hok Henc) as H.
  rewrite app_nil_r in H. by apply H.
Qed.

(** Bytes after the value are rejected exactly when the caller requires the
    stream to end with it, and are ignored otherwise. *)
Theorem Decode_trailing_data (v : Value) (bs extra : list byte) (require_exact_end : bool)
    (Hok : value_ok v) (Henc : Encode v = Ok bs) (Hextra : extra <> [])
    (Hlen : Z.of_nat (length (bs ++ extra)) <= MAX_STREAM_BYTES) :
  Decode (bs ++ extra) require_exact_end =
    if require_exact_end then raise MarshalFormatError "marshal stream has trailing data"
    else Ok (canon v).
Proof.
  rewrite (Decode_Encode v bs extra require_exact_end Hok Henc Hlen). by destruct extra.
Qed.

(** ** Re-encoding *)

Section reencode.
Context (encode : Value -> res (list byte)).
Hypothesis Hcanon : forall v out, encode v = Ok out -> encode (canon v) = Ok out.

Lemma encode_items_canon items out :
  encode_items encode items = Ok out -> encode_items encode (map canon items) = Ok out.
Proof using Hcanon.
  revert out. induction items as [|v items IH]; intros out H; [done|]. cbn in *. res_inv.
  by rewrite (Hcanon _ _ Ha), (IH _ Ha0), <- H.
Qed.

(** The values of the entries, in the order [f] lists them. *)
Lemma encode_entries_canon (f : Value * Value -> list Value) entries out :
  (forall e, f (canon_entry e) = map canon (f e)) ->
  encode_items encode (entries ≫= f) = Ok out ->
  encode_items encode (map canon_entry entries ≫= f) = Ok out.
Proof using Hcanon.
  intros Hf H. apply encode_items_canon in H. rewrite <- H. f_equal. clear H.
  induction entries as [|e entries IH]; [done|]. cbn. by rewrite Hf, map_app, <- IH.
Qed.

Lemma IsNone_canon_field c f : IsNone (canon_field c (canon f)) = IsNone f.
Proof using Type. destruct f; try done. simpl. by destruct (_ =? _). Qed.

Lemma wrap_s_idemp w z : 0 < w -> wrap_s w (wrap_s w z) = wrap_s w z.
Proof using Type. intros Hw. by apply wrap_s_small, wrap_s_range. Qed.

Lemma wrap_u_idemp w z : 0 <= w -> wrap_u w (wrap_u w z) = wrap_u w z.
Proof using Type. intros Hw. by apply wrap_u_small, wrap_u_range. Qed.

(** Truncating a field first does not change what is written. *)
Lemma AppendPackedScalar_canon c f out :
  Byte.eqb (col_type c) Db.Bool = false -> DbTypeSizeBits (col_type c) <> 0 ->
  AppendPackedScalar (col_type c) f = Ok out ->
  AppendPackedScalar (col_type c) (canon_field c (canon f)) = Ok out.
Proof using Type.
  intros Hb Hnz H. destruct f; try done. cbn [canon canon_field].
  rewrite (proj2 (Z.eqb_neq _ _) Hnz), <- H. clear H. destruct c as [name type].
  cbn [col_type] in *. pose proof (scalar_type_cases type Hb Hnz) as Hin. clear Hb Hnz.
  repeat (destruct Hin as [<-|Hin]); try done; clear out.
  - change (Ok (AppendI32 (i32 (i32 value))) = Ok (AppendI32 (i32 value))).
    by rewrite wrap_s_idemp.
  - change (Ok (AppendU32 (u32 (u32 value))) = Ok (AppendU32 (u32 value))).
    by rewrite wrap_u_idemp.
  - change (Ok (AppendI16 (i16 (i16 value))) = Ok (AppendI16 (i16 value))).
    by rewrite wrap_s_idemp.
  - change (Ok (AppendU16 (u16 (u16 value))) = Ok (AppendU16 (u16 value))).
    by rewrite wrap_u_idemp.
  - change (Ok [to_u8 (i8 (i8 value))] = Ok [to_u8 (i8 value)]). by rewrite wrap_s_idemp.
  - change (Ok [to_u8 (wrap_u 8 value)] = Ok [to_u8 value]). do 2 f_equal.
    apply u8_inj. rewrite !u8_to_u8. unfold wrap_u. by rewrite Z.mod_mod.
Qed.

Lemma index_at_Ok {A} (l : list A) i a : index_at l i = Ok a -> l !! i = Some a.
Proof using Type. unfold index_at. destruct (l !! i); [by intros ->%Ok_inj|done]. Qed.

Lemma pack_fields_canon columns values order packed bits bo r :
  order_ok columns order ->
  pack_fields columns values (BoolCount columns) order packed bits bo = Ok r ->
  pack_fields columns (row_target columns values) (BoolCount columns) order packed bits bo = Ok r.
Proof using Type.
  revert packed bits bo. induction order as [|[size i] order IH];
    intros packed bits bo Ho H; [done|]. cbn [pack_fields] in *.
  destruct (Ho size i) as (c & Hc & Hsize); [apply elem_of_cons; by left|].
  assert (Ho' : order_ok columns order) by (intros s j ?; apply Ho, elem_of_cons; by right).
  rewrite (index_at_Some _ _ _ Hc) in H |- *. cbn [mbind res_bind] in *.
  destruct (Z.eqb_spec size 0) as [Hz|Hz]; [by apply IH|].
  apply res_bind_ok in H as (f & Hf%index_at_Ok & H).
  rewrite (index_at_Some _ _ _ (row_target_lookup _ _ _ _ _ Hc Hf)). cbn [mbind res_bind].
  rewrite IsNone_canon_field. apply res_bind_ok in H as (bits1 & Hb1 & H).
  rewrite Hb1. cbn [mbind res_bind].
  destruct (Byte.eqb (col_type c) Db.Bool) eqn:Hbool.
  - apply res_bind_ok in H as (bit & Hbit & H). apply res_bind_ok in H as (bits2 & Hb2 & H).
    assert (Hsame : (if IsNone f then Ok false else BoolValue (canon_field c (canon f))) = Ok bit)
      by (destruct f; done).
    rewrite Hsame. cbn [mbind res_bind]. rewrite Hb2. cbn [mbind res_bind]. by apply IH.
  - apply res_bind_ok in H as (scalar & Hs & H).
    rewrite (AppendPackedScalar_canon c f scalar Hbool ltac:(congruence) Hs).
    cbn [mbind res_bind]. by apply IH.
Qed.

Lemma zero_size_values_canon columns values order loose :
  order_ok columns order -> zero_size_values order values = Ok loose ->
  zero_size_values order (row_target columns values) = Ok (map canon loose).
Proof using Type.
  unfold zero_size_values. revert loose.
  induction order as [|[size i] order IH]; intros loose Ho H; [by apply Ok_inj in H as <-|].
  assert (Ho' : order_ok columns order) by (intros s j ?; apply Ho, elem_of_cons; by right).
  rewrite filter_cons in *. case_decide as Hz; [|by apply IH].
  destruct (Ho size i) as (c & Hc & Hsize); [apply elem_of_cons; by left|].
  cbn [mapM] in *. apply res_bind_ok in H as (f & Hf%index_at_Ok & H).
  apply res_bind_ok in H as (loose' & Hl & H). apply Ok_inj in H as <-. cbn [snd] in *.
  rewrite (index_at_Some _ _ _ (row_target_lookup _ _ _ _ _ Hc Hf)), (IH _ Ho' Hl). cbn.
  do 2 f_equal. destruct f; try done. simpl in *. by rewrite <- Hsize, Hz.
Qed.

Lemma EncodePackedRow_canon columns values out :
  EncodePackedRow encode columns values = Ok out ->
  EncodePackedRow encode columns (row_target columns values) = Ok out.
Proof using Hcanon.
  unfold EncodePackedRow. destruct (_ <? _); [done|]. intros H.
  destruct (bool_decide (length values = length columns)) eqn:Hl; [|done].
  apply bool_decide_eq_true in Hl. simpl in H.
  rewrite bool_decide_true.
  2:{ unfold row_target. rewrite length_zip_with, length_map. lia. }
  cbn [negb]. apply res_bind_ok in H as (header & -> & H). cbn [mbind res_bind].
  apply res_bind_ok in H as ([P B] & Hp & H).
  rewrite (pack_fields_canon _ _ _ _ _ _ _ (order_ok_SizeOrder columns) Hp). cbn [mbind res_bind].
  apply res_bind_ok in H as (rle & -> & H). cbn [mbind res_bind].
  apply res_bind_ok in H as (loose & Hlo & H).
  rewrite (zero_size_values_canon _ _ _ _ (order_ok_SizeOrder columns) Hlo). cbn [mbind res_bind].
  apply res_bind_ok in H as (lo & Hlo' & H).
  by rewrite (encode_items_canon _ _ Hlo').
Qed.
End reencode.

Lemma EncodeValue_canon fuel v depth out :
  EncodeValue fuel v depth = Ok out -> EncodeValue fuel (canon v) depth = Ok out.
Proof.
  revert v depth out. induction fuel as [|fuel IH]; intros v depth out H; [done|].
  cbn [EncodeValue] in *. destruct (_ <? _); [done|]. cbn zeta in *.
  pose proof (fun w o (He : EncodeValue fuel w (depth + 1) = Ok o) => IH w (depth + 1) o He) as Hc.
  destruct v; cbn [canon]; try done.
  - unfold EncodeReal in *. by destruct (is_zero_real bits) eqn:Hz; [|rewrite Hz].
  - unfold EncodeTuple in *. rewrite length_map. destruct (_ <? _); [done|]. res_inv. subst out.
    rewrite (encode_items_canon _ Hc _ _ Ha). by destruct items as [|? [|? []]].
  - unfold EncodeList in *. rewrite length_map. destruct (_ <? _); [done|]. res_inv. subst out.
    rewrite (encode_items_canon _ Hc _ _ Ha). by destruct items as [|? []].
  - fold canon_entry. change (map (fun e => (canon e.1, canon e.2)) entries) with (map canon_entry entries).
    unfold EncodeDict in *. rewrite length_map. destruct (_ <? _); [done|]. res_inv. subst out.
    by rewrite (encode_entries_canon _ Hc _ _ _ (fun _ => eq_refl) Ha).
  - unfold EncodeObject in *. res_inv. subst out. by rewrite (Hc _ _ Ha).
  - change (map (fun e => (canon e.1, canon e.2)) entries) with (map canon_entry entries).
    unfold EncodeObjectEx in *. res_inv. subst out.
    rewrite (Hc _ _ Ha), (encode_items_canon _ Hc _ _ Ha0).
    by rewrite (encode_entries_canon _ Hc _ _ _ (fun _ => eq_refl) Ha1).
  - res_inv. subst out. by rewrite (Hc _ _ Ha).
  - unfold EncodeChecksumedStream in *. res_inv. subst out. by rewrite (Hc _ _ Ha).
  - by apply (EncodePackedRow_canon _ Hc).
Qed.

(** What is decoded re-encodes to the same bytes: the stream of a value is
    a fixed point of decoding and encoding, although the value itself may have
    been normalised. *)
Theorem Decode_Encode_stable (v : Value) (bs : list byte)
    (Hok : value_ok v) (Henc : Encode v = Ok bs)
    (Hlen : Z.of_nat (length bs) <= MAX_STREAM_BYTES) :
  exists w, Decode bs true = Ok w /\ Encode w = Ok bs.
Proof.
  exists (canon v). split.
  - pose proof (Decode_Encode v bs [] true Hok Henc) as H. rewrite app_nil_r in H. by apply H.
  - destruct (Encode_inv _ _ Henc) as (out & Hout & ->).
    apply EncodeValue_canon in Hout. unfold Encode. by rewrite Hout.
Qed.

(** *** Concrete values *)

(** A call's argument tuple with every kind of value in it, and a packed row
    with a field of each kind and one too large for its column. *)
Definition example_row : Value :=
  VPackedRow [mkColumn "id" Db.I4; mkColumn "ok" Db.Bool; mkColumn "name" Db.Str;
              mkColumn "rate" Db.R8; mkColumn "flag" Db.Ui1]
    [VInt 70000; VBool true; VWString "x"; VNone; VInt 300].

Definition example_value : Value :=
  VTuple [VNone; VInt (-7); VReal (2 ^ 63); VString "charID"; VString "solar"; VToken "t";
          VDict [(VString "a", VList [VInt 1]); (VInt 2, VBuffer [x01; x02])];
          VObject "util.Row" (VTuple [VInt 1; VInt 2; VInt 3]);
          VObjectEx true (VToken "t") [VInt 40000] [(VString "k", VBool false)];
          VSubStream [x7e; x00]; VChecksumedStream 5 (VInt (2 ^ 40)); VSubStruct VNone;
          VCPicked []; example_row].

Lemma example_value_ok : value_ok example_value.
Proof. repeat split; done. Qed.

Definition example_bytes : list byte :=
  Eval vm_compute in match Encode example_value with Ok bs => bs | _ => [] end.

Lemma Encode_Decode_roundtrip_witness :
  Decode example_bytes true = Ok (canon example_value) /\ canon example_value <> example_value.
Proof.
  split; [|by vm_compute].
  apply (Encode_Decode_roundtrip example_value example_bytes true);
    [repeat split; done|vm_compute; reflexivity|vm_compute; done].
Defined.

Lemma Decode_trailing_data_witness :
  Decode (example_bytes ++ [x00]) true =
    raise MarshalFormatError "marshal stream has trailing data".
Proof.
  apply (Decode_trailing_data example_value example_bytes [x00] true);
    [repeat split; done|vm_compute; reflexivity|done|vm_compute; done].
Defined.

Lemma Decode_Encode_stable_witness :
  exists w, Decode example_bytes true = Ok w /\ Encode w = Ok example_bytes.
Proof.
  apply (Decode_Encode_stable example_value example_bytes);
    [repeat split; done|vm_compute; reflexivity|vm_compute; done].
Defined.

(** ** Limits of the codec *)

(** A field of the row is a real number that is not null. *)
Definition has_real (columns : list PackedColumn) (values : list Value) : Prop :=
  exists i c bits, columns !! i = Some c /\ values !! i = Some (VReal bits) /\
    col_type c <> Db.Bool /\ DbTypeSizeBits (col_type c) <> 0.

Lemma pack_fields_real columns values order packed bits bo size i c r :
  order_ok columns order -> (size, i) ∈ order -> columns !! i = Some c ->
  values !! i = Some (VReal r) -> Byte.eqb (col_type c) Db.Bool = false -> size <> 0 ->
  forall out, pack_fields columns values (BoolCount columns) order packed bits bo <> Ok out.
Proof.
  intros Ho Hin Hc Hv Hb Hnz. revert packed bits bo.
  induction order as [|[s j] order IH]; intros packed bits bo out H; [by apply not_elem_of_nil in Hin|].
  assert (Ho' : order_ok columns order) by (intros s' j' ?; apply Ho, elem_of_cons; by right).
  cbn [pack_fields] in H. apply res_bind_ok in H as (c' & Hc' & H).
  apply elem_of_cons in Hin as [[= <- <-]|Hin].
  - rewrite (index_at_Some _ _ _ Hc) in Hc'. apply Ok_inj in Hc' as <-.
    rewrite (proj2 (Z.eqb_neq _ _) Hnz), (index_at_Some _ _ _ Hv) in H. cbn [mbind res_bind] in H.
    rewrite Hb in H. apply res_bind_ok in H as (? & _ & H).
    apply res_bind_ok in H as (? & Hs & _). done.
  - specialize (IH Ho' Hin). destruct (s =? 0); [by eapply IH|].
    apply res_bind_ok in H as (f & _ & H). apply res_bind_ok in H as (b1 & _ & H).
    destruct (Byte.eqb (col_type c') Db.Bool).
    + apply res_bind_ok in H as (? & _ & H). apply res_bind_ok in H as (? & _ & H). by eapply IH.
    + apply res_bind_ok in H as (? & _ & H). by eapply IH.
Qed.

(** A packed row with a floating-point field that is not null cannot be
    encoded: the scalar is first taken as an integer, so the columns [R4] and
    [R8] accept only null fields, although the decoder reads numbers there. *)
Theorem EncodePackedRow_real_rejected (encode : Value -> res (list byte))
    (columns : list PackedColumn) (values : list Value) (out : list byte)
    (Hreal : has_real columns values) :
  EncodePackedRow encode columns values <> Ok out.
Proof.
  destruct Hreal as (i & c & r & Hc & Hv & Hb & Hnz). intros H. unfold EncodePackedRow in H.
  destruct (_ <? _); [done|]. destruct (negb _); [done|].
  apply res_bind_ok in H as (header & _ & H). apply res_bind_ok in H as ([P B] & Hp & _).
  eapply pack_fields_real in Hp; [done|apply order_ok_SizeOrder| |done|done| |done].
  - apply elem_of_SizeOrder. eauto.
  - destruct (Byte.eqb (col_type c) Db.Bool) eqn:Heq; [|done].
    by apply Byte.byte_dec_bl in Heq.
Qed.

Lemma EncodePackedRow_real_rejected_witness :
  EncodePackedRow (fun _ => Ok []) [mkColumn "x" Db.R8] [VReal 4607182418800017408] <> Ok [].
Proof.
  apply EncodePackedRow_real_rejected. exists 0%nat, (mkColumn "x" Db.R8), 4607182418800017408.
  repeat split; done.
Defined.

(** A stream of [n] nested one-element lists that are saved, and then the use
    of the saved list inside [n] more. *)
Definition nested (n : nat) : list byte := concat (replicate n [x27]).
Definition deep_stream : list byte :=
  [x7e; x01; x00; x00; x00; x2c; x67; x01; x00; x00; x00] ++ nested 40 ++ [x01] ++ nested 40 ++
  [x1b; x01; x01; x00; x00; x00].

(** The depth limit does not bound decoded values: saved stream elements
    share subtrees, so a decoded value can be deeper than any the encoder
    accepts, and the server cannot re-encode what it decoded. *)
Theorem Decode_saved_exceeds_depth :
  exists stream v, Decode stream true = Ok v /\
    Encode v = raise MarshalDepthError "marshal nesting exceeds the depth limit".
Proof.
  exists deep_stream. eexists. split; [vm_compute; reflexivity|]. vm_compute. reflexivity.
Qed.
