(* ===== verification/Framing.v ===== *)
(** * Length-prefixed frames

    [src/src/network/framing.h] and [framing.cpp]: [EncodeFrame] and the
    [FrameDecoder], whose state is the bytes received and not yet popped. The
    theorems state that popping inverts framing whatever the boundaries of the
    chunks pushed, as long as no [Push] exceeds the bound, and when it does. *)

From stdpp Require Import base numbers list option strings.
From Stdlib Require Import Strings.Byte.
From S2P Require Import Prelude.

#[local] Open Scope Z_scope.

Definition MAX_FRAME_PAYLOAD_BYTES : Z := 1 * 1024 * 1024.
Definition FRAME_LENGTH_PREFIX_BYTES : Z := 4.

(** ** The prefix *)

(** [bytes[offset + i] << (i * 8)], or-ed for [i < 4]. *)
Definition ReadU32Le (bytes : list byte) (offset : nat) : res Z :=
  if (offset + 4 <=? length bytes)%nat
  then Ok (le_value 0 (take 4 (drop offset bytes))) else Undefined.

Definition AppendU32Le (value : Z) : list byte := le_bytes 0 4 value.

(** ** Frames *)

Definition EncodeFrame (payload : list byte) : res (list byte) :=
  if MAX_FRAME_PAYLOAD_BYTES <? Z.of_nat (length payload)
  then raise FrameTooLargeError "frame payload exceeds the size limit"
  else Ok (AppendU32Le (u32 (Z.of_nat (length payload))) ++ payload).

Record FrameDecoder := mkFrameDecoder { m_buffer : list byte }.

Definition new_FrameDecoder : FrameDecoder := mkFrameDecoder [].

Definition Push (bytes : list byte) : M FrameDecoder unit :=
  modify (fun d => mkFrameDecoder (m_buffer d ++ bytes));;
  d ← get;
  if MAX_FRAME_PAYLOAD_BYTES + FRAME_LENGTH_PREFIX_BYTES <? Z.of_nat (length (m_buffer d))
  then throw FrameTooLargeError "buffered frame data exceeds the size limit"
  else mret tt.

Definition TryPopFrame : M FrameDecoder (option (list byte)) :=
  d ← get;
  let size := Z.of_nat (length (m_buffer d)) in
  if size <? FRAME_LENGTH_PREFIX_BYTES then mret None
  else
    length ← lift (ReadU32Le (m_buffer d) 0);
    if MAX_FRAME_PAYLOAD_BYTES <? length
    then throw FrameTooLargeError "frame length exceeds the size limit"
    else if size <? FRAME_LENGTH_PREFIX_BYTES + length then mret None
    else
      let last := Z.to_nat (FRAME_LENGTH_PREFIX_BYTES + length) in
      let payload := take (last - 4) (drop 4 (m_buffer d)) in
      modify (fun d => mkFrameDecoder (drop last (m_buffer d)));;
      mret (Some payload).

Definition BufferedBytes (d : FrameDecoder) : nat := length (m_buffer d).

Example pop_two :
  TryPopFrame (mkFrameDecoder [x02; x00; x00; x00; x61; x62; x01; x00; x00; x00]) =
    (Ok (Some [x61; x62]), mkFrameDecoder [x01; x00; x00; x00]).
Proof. vm_compute. reflexivity. Qed.

(** ** Popping *)

(** A legal frame. *)
Definition frame (payload : list byte) : list byte :=
  AppendU32Le (Z.of_nat (length payload)) ++ payload.

Definition legal (payload : list byte) : Prop :=
  Z.of_nat (length payload) <= MAX_FRAME_PAYLOAD_BYTES.

Lemma EncodeFrame_legal payload : legal payload -> EncodeFrame payload = Ok (frame payload).
Proof.
  intros H. unfold EncodeFrame, frame. rewrite (proj2 (Z.ltb_ge _ _)) by done.
  rewrite wrap_u_small; [done|]. unfold legal, MAX_FRAME_PAYLOAD_BYTES, in_u in *. lia.
Qed.

Lemma EncodeFrame_Ok payload bytes :
  EncodeFrame payload = Ok bytes -> legal payload /\ bytes = frame payload.
Proof.
  intros H. assert (Hl : legal payload).
  { unfold EncodeFrame in H. destruct (Z.ltb_spec MAX_FRAME_PAYLOAD_BYTES (Z.of_nat (length payload)));
      [done|]. unfold legal. lia. }
  split; [done|]. rewrite EncodeFrame_legal in H by done. by apply Ok_inj in H.
Qed.

Lemma length_frame payload : length (frame payload) = (4 + length payload)%nat.
Proof. unfold frame, AppendU32Le. rewrite length_app, length_le_bytes. lia. Qed.

Lemma frame_app payload rest :
  frame payload ++ rest = AppendU32Le (Z.of_nat (length payload)) ++ (payload ++ rest).
Proof. unfold frame. by rewrite <- app_assoc. Qed.

(** The prefix of a buffer that starts with a frame. *)
Lemma ReadU32Le_prefix n rest :
  in_u 32 n -> ReadU32Le (AppendU32Le n ++ rest) 0 = Ok n.
Proof.
  intros Hn. unfold ReadU32Le, AppendU32Le. rewrite length_app, length_le_bytes.
  rewrite (proj2 (Nat.leb_le _ _)) by lia. rewrite drop_0.
  assert (Htake : take 4 (le_bytes 0 4 n ++ rest) = le_bytes 0 4 n)
    by (rewrite <- (length_le_bytes 0 4 n) at 1; apply take_app_length).
  rewrite Htake, le_value_bytes. f_equal. by apply (wrap_u_small 32).
Qed.

Lemma TryPopFrame_frame payload rest :
  legal payload ->
  TryPopFrame (mkFrameDecoder (frame payload ++ rest)) = (Ok (Some payload), mkFrameDecoder rest).
Proof.
  intros Hl. unfold TryPopFrame, mbind, M_bind, get, lift, modify. cbn [m_buffer].
  pose proof (length_frame payload) as Hf. rewrite length_app.
  rewrite (proj2 (Z.ltb_ge _ _)) by (unfold FRAME_LENGTH_PREFIX_BYTES; lia).
  rewrite frame_app, ReadU32Le_prefix by (unfold legal, MAX_FRAME_PAYLOAD_BYTES, in_u in *; lia).
  rewrite (proj2 (Z.ltb_ge _ _)) by done.
  rewrite (proj2 (Z.ltb_ge _ _)) by (unfold FRAME_LENGTH_PREFIX_BYTES; lia).
  replace (Z.to_nat (FRAME_LENGTH_PREFIX_BYTES + Z.of_nat (length payload)))
    with (4 + length payload)%nat by (unfold FRAME_LENGTH_PREFIX_BYTES; lia).
  assert (H4 : drop 4 (AppendU32Le (Z.of_nat (length payload)) ++ payload ++ rest) = payload ++ rest)
    by (rewrite <- (length_le_bytes 0 4 (Z.of_nat (length payload))) at 1; apply drop_app_length).
  rewrite <- drop_drop. cbn [m_buffer]. rewrite H4. replace (4 + length payload - 4)%nat with (length payload) by lia.
  by rewrite take_app_length, drop_app_length.
Qed.

(** A buffer that is a proper prefix of a frame of at most [limit] bytes. *)
Definition incomplete (limit : Z) (buffer : list byte) : Prop :=
  exists payload missing, Z.of_nat (length payload) <= limit /\
    frame payload = buffer ++ missing /\ missing <> [].

Lemma incomplete_length limit buffer :
  incomplete limit buffer -> Z.of_nat (length buffer) < 4 + limit.
Proof.
  intros (payload & missing & Hl & Hf & Hm). apply (f_equal length) in Hf.
  rewrite length_frame, length_app in Hf. destruct missing; [done|]. simpl in Hf. lia.
Qed.

Lemma incomplete_nil limit : 0 <= limit -> incomplete limit [].
Proof. intros H. by exists [], (frame []). Qed.

Lemma incomplete_prefix limit l r : incomplete limit (l ++ r) -> incomplete limit l.
Proof.
  intros (payload & missing & Hl & Hf & Hm). exists payload, (r ++ missing).
  split_and!; [done|by rewrite Hf, <- app_assoc|by intros [_ ?]%app_eq_nil].
Qed.

Lemma TryPopFrame_incomplete limit buffer :
  limit <= MAX_FRAME_PAYLOAD_BYTES -> incomplete limit buffer ->
  TryPopFrame (mkFrameDecoder buffer) = (Ok None, mkFrameDecoder buffer).
Proof.
  intros Hlimit (payload & missing & Hl' & Hf & Hm). assert (Hl : legal payload) by (unfold legal; lia).
  pose proof (f_equal length Hf) as Hlen.
  rewrite length_frame, length_app in Hlen. destruct missing as [|m missing]; [done|].
  simpl in Hlen. unfold TryPopFrame, mbind, M_bind, get, lift. cbn [m_buffer].
  destruct (Z.ltb_spec (Z.of_nat (length buffer)) FRAME_LENGTH_PREFIX_BYTES) as [|H4]; [done|].
  unfold FRAME_LENGTH_PREFIX_BYTES in H4.
  assert (Hr : ReadU32Le buffer 0 = Ok (Z.of_nat (length payload))).
  { rewrite <- (ReadU32Le_prefix (Z.of_nat (length payload)) payload)
      by (unfold legal, MAX_FRAME_PAYLOAD_BYTES, in_u in *; lia).
    change (AppendU32Le (Z.of_nat (length payload)) ++ payload) with (frame payload).
    rewrite Hf. unfold ReadU32Le. rewrite length_app, !drop_0.
    rewrite !(proj2 (Nat.leb_le _ _)) by lia. by rewrite take_app_le by lia. }
  rewrite Hr. rewrite (proj2 (Z.ltb_ge _ _)) by done.
  rewrite (proj2 (Z.ltb_lt _ _)) by (unfold FRAME_LENGTH_PREFIX_BYTES; lia). done.
Qed.

(** ** A stream of frames *)

(** A reader that pops what a chunk completed before it asks for the next, as
    [Connection::ReceiveMarshal] does. *)
Fixpoint pop_all (fuel : nat) : M FrameDecoder (list (list byte)) :=
  match fuel with
  | O => out_of_fuel
  | S fuel =>
      popped ← TryPopFrame;
      match popped with
      | None => mret []
      | Some payload => rest ← pop_all fuel; mret (payload :: rest)
      end
  end.

Definition feed (chunk : list byte) : M FrameDecoder (list (list byte)) :=
  Push chunk;;
  fuel ← gets (fun d => S (BufferedBytes d));
  pop_all fuel.

Fixpoint feed_all (chunks : list (list byte)) : M FrameDecoder (list (list byte)) :=
  match chunks with
  | [] => mret []
  | chunk :: chunks =>
      popped ← feed chunk;
      rest ← feed_all chunks;
      mret (popped ++ rest)
  end.

Definition frames (payloads : list (list byte)) : list byte := concat (map frame payloads).

Lemma length_frames payloads : (length payloads <= length (frames payloads))%nat.
Proof.
  induction payloads as [|p ps IH]; [done|]. unfold frames in *. cbn [map concat].
  rewrite length_app, length_frame. simpl. lia.
Qed.

Section stream.
Context (limit : Z).
Hypothesis Hlimit : limit <= MAX_FRAME_PAYLOAD_BYTES.
#[local] Abbreviation small := (Forall (fun p : list byte => Z.of_nat (length p) <= limit)).

Lemma pop_all_frames fuel payloads rest :
  small payloads -> incomplete limit rest -> (length payloads < fuel)%nat ->
  pop_all fuel (mkFrameDecoder (frames payloads ++ rest)) = (Ok payloads, mkFrameDecoder rest).
Proof using Hlimit.
  revert fuel. induction payloads as [|p ps IH]; intros [|fuel] Hs Hr Hf;
    cbn [length] in Hf; try lia; cbn [pop_all].
  - unfold frames. cbn [map concat app]. unfold mbind, M_bind.
    by rewrite (TryPopFrame_incomplete limit) by done.
  - apply Forall_cons in Hs as [Hp Hs]. unfold frames. cbn [map concat]. rewrite <- app_assoc.
    unfold mbind at 1, M_bind at 1. rewrite TryPopFrame_frame by (unfold legal; lia).
    unfold mbind, M_bind. fold (frames ps). by rewrite IH by (done || lia).
Qed.

(** A prefix of a stream of frames is whole frames and an incomplete one. *)
Lemma frames_split payloads tail l r :
  small payloads -> incomplete limit tail -> l ++ r = frames payloads ++ tail ->
  exists ps1 ps2 l', payloads = ps1 ++ ps2 /\ l = frames ps1 ++ l' /\ incomplete limit l' /\
    l' ++ r = frames ps2 ++ tail.
Proof using Type.
  revert l. induction payloads as [|p ps IH]; intros l Hs Ht H.
  { exists [], [], l. split_and!; [done..| |done]. apply (incomplete_prefix limit l r).
    by rewrite H. }
  apply Forall_cons in Hs as [Hp Hs]. unfold frames in H. cbn [map concat] in H.
  rewrite <- app_assoc in H. fold (frames ps) in H.
  destruct (decide (length l < length (frame p))%nat) as [Hlt|Hge].
  - exists [], (p :: ps), l. split_and!; [done..| |].
    + exists p, (drop (length l) (frame p)). split_and!; [done| |].
      * apply (f_equal (take (length (frame p)))) in H. rewrite take_app_length in H.
        rewrite <- H at 1. rewrite take_app_ge by lia. f_equal.
        apply (f_equal (drop (length l))) in H.
        rewrite take_app_ge, drop_app_length in H by lia. done.
      * intros Hd%(f_equal length). rewrite length_drop in Hd. cbn [length] in Hd. lia.
    + unfold frames. cbn [map concat]. by rewrite <- app_assoc.
  - pose proof (f_equal (take (length (frame p))) H) as Hl.
    rewrite take_app_length, take_app_le in Hl by lia.
    pose proof (f_equal (drop (length (frame p))) H) as Hr.
    rewrite drop_app_length, drop_app_le in Hr by lia.
    destruct (IH _ Hs Ht Hr) as (ps1 & ps2 & l' & -> & Hl' & Hi & Hrest).
    exists (p :: ps1), ps2, l'. split_and!; [done| |done|done].
    rewrite <- (take_drop (length (frame p)) l), Hl, Hl'. unfold frames. cbn [map concat].
    by rewrite <- app_assoc.
Qed.

Lemma feed_all_frames chunk_limit chunks payloads buffer tail :
  limit + chunk_limit <= MAX_FRAME_PAYLOAD_BYTES ->
  Forall (fun c : list byte => Z.of_nat (length c) <= chunk_limit) chunks ->
  small payloads -> incomplete limit buffer -> incomplete limit tail ->
  buffer ++ concat chunks = frames payloads ++ tail ->
  feed_all chunks (mkFrameDecoder buffer) = (Ok payloads, mkFrameDecoder tail).
Proof using Hlimit.
  intros Hsum. revert payloads buffer. induction chunks as [|c chunks IH];
    intros payloads buffer Hc Hs Hb Ht H; cbn [feed_all concat] in *.
  - rewrite app_nil_r in H. subst buffer. destruct payloads as [|p ps]; [done|].
    exfalso. destruct Hb as (q & missing & Hq & Hf & Hm).
    unfold frames in Hf. cbn [map concat] in Hf. rewrite <- !app_assoc in Hf.
    unfold frame in Hf at 1. rewrite frame_app in Hf.
    apply app_inj_1 in Hf as [Hpre Hf]; [|unfold AppendU32Le; by rewrite !length_le_bytes].
    apply (f_equal (le_value 0)) in Hpre. unfold AppendU32Le in Hpre.
    apply Forall_cons in Hs as [Hp _]. unfold MAX_FRAME_PAYLOAD_BYTES in *.
    rewrite !le_value_bytes, !Z.mod_small in Hpre by (simpl Z.of_nat; lia).
    apply (f_equal length) in Hf. rewrite !length_app in Hf.
    destruct missing; [done|]. simpl in Hf. lia.
  - apply Forall_cons in Hc as [Hc Hcs]. rewrite app_assoc in H.
    destruct (frames_split _ _ _ _ Hs Ht H) as (ps1 & ps2 & b' & -> & Hbc & Hb' & Hrest).
    apply Forall_app in Hs as [Hs1 Hs2].
    pose proof (incomplete_length _ _ Hb) as Hlen.
    unfold feed, Push. unfold mbind, M_bind, modify, get, gets. cbn [m_buffer].
    rewrite (proj2 (Z.ltb_ge _ _))
      by (rewrite length_app; unfold FRAME_LENGTH_PREFIX_BYTES; lia).
    unfold mret, M_ret. rewrite Hbc. unfold BufferedBytes. cbn [m_buffer].
    rewrite pop_all_frames; [|done|done|].
    2:{ rewrite length_app. pose proof (length_frames ps1). lia. }
    by rewrite (IH ps2 b').
Qed.
End stream.

(** C29. Framing is independent of chunking: if every payload and every chunk
    leave room for each other in the bound, pushing the concatenated frames in
    any chunks and popping after each gives exactly the payloads in order, and
    leaves exactly the bytes of the last incomplete frame. *)
Theorem FrameDecoder_chunking (limit chunk_limit : Z) (chunks payloads : list (list byte))
    (tail : list byte)
    (Hroom : limit + chunk_limit <= MAX_FRAME_PAYLOAD_BYTES)
    (Hpos : 0 <= limit) (Hpos' : 0 <= chunk_limit)
    (Hchunks : Forall (fun c => Z.of_nat (length c) <= chunk_limit) chunks)
    (Hpayloads : Forall (fun p => Z.of_nat (length p) <= limit) payloads)
    (Htail : incomplete limit tail)
    (Hstream : concat chunks = concat (map frame payloads) ++ tail) :
  Forall (fun p => EncodeFrame p = Ok (frame p)) payloads /\
  feed_all chunks new_FrameDecoder = (Ok payloads, mkFrameDecoder tail).
Proof.
  split.
  - eapply Forall_impl; [exact Hpayloads|]. intros p Hp. cbn beta in Hp. apply EncodeFrame_legal.
    unfold legal. lia.
  - apply (feed_all_frames limit ltac:(lia) chunk_limit); try done. by apply incomplete_nil.
Qed.

Lemma FrameDecoder_chunking_witness :
  Forall (fun p => EncodeFrame p = Ok (frame p)) [[x61; x62]; []; [x63]] /\
  feed_all [[x02; x00]; [x00; x00; x61]; [x62; x00; x00; x00; x00; x01; x00; x00; x00; x63; x09];
            []; [x00]] new_FrameDecoder =
    (Ok [[x61; x62]; []; [x63]], mkFrameDecoder [x09; x00]).
Proof.
  apply (FrameDecoder_chunking 1024 1024); try done; try (apply (bool_decide_unpack _); by vm_compute).
  exists (replicate 9 x00), (drop 2 (frame (replicate 9 x00))). by split_and!.
Defined.

(** [TryPopFrame] is total and inverts [EncodeFrame]: it returns a payload
    exactly when the buffer starts with that payload's frame, which it then
    removes, and in every other case it leaves the buffer alone; it throws
    only on a length prefix beyond the limit. *)
Theorem TryPopFrame_spec (d : FrameDecoder) :
  match TryPopFrame d with
  | (Ok (Some payload), d') =>
      exists bytes, EncodeFrame payload = Ok bytes /\ m_buffer d = bytes ++ m_buffer d'
  | (Ok None, d') => d' = d /\
      forall payload bytes rest, EncodeFrame payload = Ok bytes -> m_buffer d <> bytes ++ rest
  | (Throw e, d') => d' = d /\ exn_cls e = FrameTooLargeError /\
      MAX_FRAME_PAYLOAD_BYTES < le_value 0 (take 4 (m_buffer d))
  | _ => False
  end.
Proof.
  destruct d as [buffer].
  assert (Hno : forall d', TryPopFrame (mkFrameDecoder buffer) = (Ok None, d') ->
    forall payload bytes rest, EncodeFrame payload = Ok bytes -> buffer <> bytes ++ rest).
  { intros d' H payload bytes rest [Hl ->]%EncodeFrame_Ok ->. by rewrite TryPopFrame_frame in H. }
  revert Hno. unfold TryPopFrame, mbind, M_bind, get, lift, modify, ReadU32Le. cbn [m_buffer].
  destruct (Z.ltb_spec (Z.of_nat (length buffer)) FRAME_LENGTH_PREFIX_BYTES) as [H4|H4];
    [intros Hno; split; [done|by eapply Hno]|].
  unfold FRAME_LENGTH_PREFIX_BYTES in *. rewrite (proj2 (Nat.leb_le _ _)) by lia. rewrite drop_0.
  set (n := le_value 0 (take 4 buffer)).
  assert (Hn : 0 <= n) by (apply le_value_nonneg; lia).
  destruct (Z.ltb_spec MAX_FRAME_PAYLOAD_BYTES n) as [Hbig|Hsmall]; [done|].
  destruct (Z.ltb_spec (Z.of_nat (length buffer)) (4 + n)) as [Hshort|Hlong];
    [intros Hno; split; [done|by eapply Hno]|].
  intros _. set (payload := take _ (drop 4 buffer)). set (last := Z.to_nat (4 + n)).
  assert (Hlen : length payload = Z.to_nat n)
    by (unfold payload; rewrite length_take, length_drop; lia).
  exists (frame payload). split; [apply EncodeFrame_legal; unfold legal; lia|].
  unfold frame, AppendU32Le. rewrite Hlen, Z2Nat.id by lia.
  assert (Hpre : le_bytes 0 4 n = take 4 buffer).
  { pose proof (le_bytes_value (take 4 buffer)) as Hb. rewrite length_take in Hb.
    by replace (4 `min` length buffer)%nat with 4%nat in Hb by lia. }
  rewrite Hpre, <- app_assoc. unfold payload, last. cbn [m_buffer].
  replace (drop (Z.to_nat (4 + n)) buffer) with (drop (Z.to_nat (4 + n) - 4) (drop 4 buffer))
    by (rewrite drop_drop; f_equal; lia).
  by rewrite take_drop, take_drop.
Qed.

(** The bound is checked on what is buffered, not on a frame: when a chunk
    brings the end of a legal frame of maximal size and the beginning of the
    next legal frame, [Push] throws, with the completed frame left unpopped. *)
Theorem Push_rejects_pipelined (p q : list byte)
    (Hp : Z.of_nat (length p) = MAX_FRAME_PAYLOAD_BYTES)
    (Hq : Z.of_nat (length q) <= MAX_FRAME_PAYLOAD_BYTES) :
  exists received chunk later,
    received ++ chunk ++ later = frame p ++ frame q /\ length chunk = 2%nat /\
    TryPopFrame (mkFrameDecoder received) = (Ok None, mkFrameDecoder received) /\
    Push chunk (mkFrameDecoder received) =
      (raise FrameTooLargeError "buffered frame data exceeds the size limit",
       mkFrameDecoder (received ++ chunk)) /\
    TryPopFrame (mkFrameDecoder (received ++ chunk)) = (Ok (Some p), mkFrameDecoder (take 1 (frame q))).
Proof.
  pose proof (length_frame p) as Hlp. pose proof (length_frame q) as Hlq.
  set (n := length p) in *. exists (take (n + 3) (frame p)), (drop (n + 3) (frame p) ++ take 1 (frame q)),
    (drop 1 (frame q)).
  assert (Hrec : take (n + 3) (frame p) ++ drop (n + 3) (frame p) ++ take 1 (frame q) =
                 frame p ++ take 1 (frame q)) by (by rewrite app_assoc, take_drop).
  split_and!.
  - rewrite app_assoc, Hrec, <- app_assoc. by rewrite take_drop.
  - rewrite length_app, length_drop, length_take. lia.
  - apply (TryPopFrame_incomplete MAX_FRAME_PAYLOAD_BYTES); [lia|].
    exists p, (drop (n + 3) (frame p)). split_and!; [lia|by rewrite take_drop|].
    intros H%(f_equal length). rewrite length_drop in H. cbn [length] in H. lia.
  - unfold Push, mbind, M_bind, modify, get. cbn [m_buffer]. rewrite Hrec.
    rewrite (proj2 (Z.ltb_lt _ _)); [done|].
    rewrite length_app, length_take. unfold FRAME_LENGTH_PREFIX_BYTES. lia.
  - rewrite Hrec. apply TryPopFrame_frame. unfold legal. lia.
Qed.

Lemma Push_rejects_pipelined_witness :
  exists received chunk later,
    received ++ chunk ++ later =
      frame (replicate (Z.to_nat MAX_FRAME_PAYLOAD_BYTES) x00) ++ frame [] /\
    length chunk = 2%nat /\
    TryPopFrame (mkFrameDecoder received) = (Ok None, mkFrameDecoder received) /\
    Push chunk (mkFrameDecoder received) =
      (raise FrameTooLargeError "buffered frame data exceeds the size limit",
       mkFrameDecoder (received ++ chunk)) /\
    TryPopFrame (mkFrameDecoder (received ++ chunk)) =
      (Ok (Some (replicate (Z.to_nat MAX_FRAME_PAYLOAD_BYTES) x00)), mkFrameDecoder (take 1 (frame []))).
Proof.
  apply Push_rejects_pipelined; [|done].
  rewrite length_replicate, Z2Nat.id; [reflexivity|]. unfold MAX_FRAME_PAYLOAD_BYTES. lia.
Defined.
