(* ===== verification/SessionCrypto.v ===== *)
(** * Session encryption

    [src/src/network/session_crypto.h] and [session_crypto.cpp]: AES-256-CBC
    over OpenSSL's EVP calls, with an IV that follows the last ciphertext
    block in either direction. The cipher is not code of this repository: it
    is a parameter, the outcome of the EVP calls of one [Encrypt] or
    [Decrypt], and its documented behaviour a class of hypotheses. The theorems
    are about what this code adds: when two peers' IVs agree. *)

From stdpp Require Import base numbers list option strings.
From Stdlib Require Import Strings.Byte.
From S2P Require Import Prelude.

#[local] Open Scope Z_scope.

Definition AES_KEY_BYTES : Z := 32.
Definition AES_IV_BYTES : Z := 16.
Definition AES_BLOCK_BYTES : Z := 16.

(** How the sequence of EVP calls of one operation ends. *)
Inductive EvpResult :=
| EvpNoContext
| EvpInitFailed
| EvpPaddingFailed
| EvpUpdateFailed
| EvpFinalFailed
| EvpDone (output : list byte).

(** The cipher: its outcome on a key, an IV and an input. *)
Class Evp := {
  evp_encrypt : list byte -> list byte -> list byte -> EvpResult;
  evp_decrypt : list byte -> list byte -> list byte -> EvpResult }.

(** What the EVP manual promises of CBC with PKCS#7 padding: a ciphertext is
    whole blocks, at least one, and decrypts under the key and IV that made it. *)
Class EvpSpec `{Evp} : Prop := {
  evp_blocks key iv plaintext ciphertext :
    evp_encrypt key iv plaintext = EvpDone ciphertext ->
    ciphertext <> [] /\ Z.of_nat (length ciphertext) mod AES_BLOCK_BYTES = 0;
  evp_inverse key iv plaintext ciphertext :
    evp_encrypt key iv plaintext = EvpDone ciphertext ->
    evp_decrypt key iv ciphertext = EvpDone plaintext }.

Record SessionCrypto := mkSessionCrypto { m_key : list byte; m_iv : list byte }.

(** [std::copy_n] of the last [AES_IV_BYTES] bytes into [m_iv]. *)
Definition UpdateIv (ciphertext : list byte) (c : SessionCrypto) : SessionCrypto :=
  if Z.of_nat (length ciphertext) <? AES_IV_BYTES then c
  else mkSessionCrypto (m_key c)
         (drop (length ciphertext - Z.to_nat AES_IV_BYTES) ciphertext).

Section operations.
Context {cipher : Evp}.

Definition Encrypt (plaintext : list byte) : M SessionCrypto (list byte) :=
  c ← get;
  match evp_encrypt (m_key c) (m_iv c) plaintext with
  | EvpNoContext => throw SessionCryptoError "failed to allocate the cipher context"
  | EvpInitFailed => throw SessionCryptoError "failed to initialize the cipher"
  | EvpPaddingFailed => throw SessionCryptoError "failed to configure PKCS#7 padding"
  | EvpUpdateFailed => throw SessionCryptoError "failed to encrypt the payload"
  | EvpFinalFailed => throw SessionCryptoError "failed to finalize the cipher"
  | EvpDone output => modify (UpdateIv output);; mret output
  end.

Definition Decrypt (ciphertext : list byte) : M SessionCrypto (list byte) :=
  if (match ciphertext with [] => true | _ => false end)
     || negb (Z.of_nat (length ciphertext) mod AES_BLOCK_BYTES =? 0)
  then throw SessionCryptoError "ciphertext length is not block aligned"
  else
    c ← get;
    match evp_decrypt (m_key c) (m_iv c) ciphertext with
    | EvpNoContext => throw SessionCryptoError "failed to allocate the cipher context"
    | EvpInitFailed => throw SessionCryptoError "failed to initialize the decipher"
    | EvpPaddingFailed => throw SessionCryptoError "failed to configure PKCS#7 padding"
    | EvpUpdateFailed => throw SessionCryptoError "failed to decrypt the payload"
    | EvpFinalFailed => throw SessionCryptoError "padding validation failed"
    | EvpDone output => modify (UpdateIv ciphertext);; mret output
    end.
End operations.

Definition CurrentIv (c : SessionCrypto) : list byte := m_iv c.

(** ** Peers in step *)

Section peers.
Context {cipher : Evp} {spec : EvpSpec}.

Lemma Encrypt_Ok plaintext c ciphertext c' :
  Encrypt plaintext c = (Ok ciphertext, c') ->
  evp_encrypt (m_key c) (m_iv c) plaintext = EvpDone ciphertext /\ c' = UpdateIv ciphertext c.
Proof using Type.
  unfold Encrypt, mbind, M_bind, get. destruct (evp_encrypt _ _ _) as [| | | | |out]; try done.
  intros Heq. unfold modify, mret, M_ret in Heq. by injection Heq as <- <-.
Qed.

(** What one peer encrypts, a peer in the same state decrypts, and both move
    to the same next state. *)
Lemma Encrypt_Decrypt plaintext c ciphertext c' :
  Encrypt plaintext c = (Ok ciphertext, c') -> Decrypt ciphertext c = (Ok plaintext, c').
Proof using All.
  intros [Henc ->]%Encrypt_Ok. destruct (evp_blocks _ _ _ _ Henc) as [Hne Hblocks].
  unfold Decrypt. destruct ciphertext as [|b ciphertext]; [done|].
  rewrite Hblocks. cbn [Z.eqb negb orb]. unfold mbind, M_bind, get.
  by rewrite (evp_inverse _ _ _ _ Henc).
Qed.

(** A conversation: each message is encrypted by one of the two peers and
    decrypted by the other before the next is sent. [true]: from the first. *)
Fixpoint converse (messages : list (bool * list byte)) (a b : SessionCrypto)
    : res (list (list byte)) * SessionCrypto * SessionCrypto :=
  match messages with
  | [] => (Ok [], a, b)
  | (from_a, plaintext) :: messages =>
      let '(sender, receiver) := if from_a : bool then (a, b) else (b, a) in
      match Encrypt plaintext sender with
      | (Ok ciphertext, sender) =>
          match Decrypt ciphertext receiver with
          | (Ok received, receiver) =>
              let '(a, b) := if from_a then (sender, receiver) else (receiver, sender) in
              let '(rest, a, b) := converse messages a b in
              (received' ← rest; Ok (received :: received'), a, b)
          | (Throw e, receiver) =>
              let '(a, b) := if from_a then (sender, receiver) else (receiver, sender) in
              (Throw e, a, b)
          | (_, _) => (Undefined, a, b)
          end
      | (Throw e, sender) => (Throw e, a, b)
      | (_, _) => (Undefined, a, b)
      end
  end.

(** Two sessions created with the same key and IV stay in step whatever
    the direction of the messages, provided each is received before the next
    is sent: every message is received as it was sent, unless a cipher call
    of a sender fails, and the two IVs are equal throughout. *)
Theorem SessionCrypto_in_step (messages : list (bool * list byte)) (c : SessionCrypto) :
  let '(received, a, b) := converse messages c c in
  a = b /\ match received with
           | Ok plaintexts => plaintexts = map snd messages
           | Throw e => exn_cls e = SessionCryptoError
           | _ => False
           end.
Proof using All.
  revert c. induction messages as [|[from_a plaintext] messages IH]; intros c; [done|].
  cbn [converse]. assert (Hsame : (if from_a then (c, c) else (c, c)) = (c, c)) by (by destruct from_a).
  rewrite Hsame. destruct (Encrypt plaintext c) as [[ciphertext|e| |] c'] eqn:Henc.
  - rewrite (Encrypt_Decrypt _ _ _ _ Henc).
    assert (Hsame' : (if from_a then (c', c') else (c', c')) = (c', c')) by (by destruct from_a).
    rewrite Hsame'. specialize (IH c'). destruct (converse messages c' c') as [[received a] b].
    destruct IH as [-> IH]. split; [done|]. destruct received; [|done..]. cbn in *. by subst.
  - split; [done|]. unfold Encrypt, mbind, M_bind, get in Henc.
    destruct (evp_encrypt _ _ _); try (by injection Henc as <- _). done.
  - unfold Encrypt, mbind, M_bind, get in Henc. by destruct (evp_encrypt _ _ _).
  - unfold Encrypt, mbind, M_bind, get in Henc. by destruct (evp_encrypt _ _ _).
Qed.

(** Messages that cross break the session: when both peers encrypt before
    receiving, each deciphers with the IV its own message left, which is the
    last block of its ciphertext and not the IV the other used; afterwards
    the IVs are exchanged, equal only if the last blocks are. *)
Theorem SessionCrypto_crossing (c a b a' b' : SessionCrypto) (p q cp cq p' q' : list byte)
    (Ha : Encrypt p c = (Ok cp, a)) (Hb : Encrypt q c = (Ok cq, b))
    (Hq : Decrypt cq a = (Ok q', a')) (Hp : Decrypt cp b = (Ok p', b')) :
  evp_decrypt (m_key c) (drop (length cp - 16) cp) cq = EvpDone q' /\
  evp_decrypt (m_key c) (drop (length cq - 16) cq) cp = EvpDone p' /\
  m_iv a' = drop (length cq - 16) cq /\ m_iv b' = drop (length cp - 16) cp.
Proof using All.
  apply Encrypt_Ok in Ha as [Ea ->]. apply Encrypt_Ok in Hb as [Eb ->].
  assert (Hlen : forall p cp, evp_encrypt (m_key c) (m_iv c) p = EvpDone cp ->
    forall d, m_key (UpdateIv cp d) = m_key d /\ m_iv (UpdateIv cp d) = drop (length cp - 16) cp).
  { intros x cx Hx d. destruct (evp_blocks _ _ _ _ Hx) as [Hne Hm]. unfold UpdateIv.
    destruct (Z.ltb_spec (Z.of_nat (length cx)) AES_IV_BYTES) as [Hlt|]; [|done].
    exfalso. unfold AES_IV_BYTES, AES_BLOCK_BYTES in *. rewrite Z.mod_small in Hm by lia.
    destruct cx; [done|]. simpl in Hm. lia. }
  assert (Hdec : forall x y d d', Decrypt x d = (Ok y, d') ->
    evp_decrypt (m_key d) (m_iv d) x = EvpDone y /\ d' = UpdateIv x d).
  { intros x y d d'. unfold Decrypt. destruct (_ || _); [done|]. unfold mbind, M_bind, get.
    destruct (evp_decrypt _ _ _); try done. intros Heq. unfold modify, mret, M_ret in Heq.
    by injection Heq as <- <-. }
  apply Hdec in Hq as [Dq ->]. apply Hdec in Hp as [Dp ->].
  destruct (Hlen _ _ Ea c) as [Ka Ia]. destruct (Hlen _ _ Eb c) as [Kb Ib].
  rewrite Ka, Ia in Dq. rewrite Kb, Ib in Dp.
  split_and!; [done..| |]; [by apply (Hlen q)|by apply (Hlen p)].
Qed.
End peers.

(** ** A concrete cipher

    The hypotheses on the cipher can hold: padding without encryption meets
    them. It serves the witnesses of the theorems about sessions. *)

Module PaddingOnly.
Definition pad (plaintext : list byte) : list byte :=
  let n := (16 - length plaintext mod 16)%nat in
  plaintext ++ replicate n (to_u8 (Z.of_nat n)).

Definition unpad (ciphertext : list byte) : EvpResult :=
  match last ciphertext with
  | Some b => EvpDone (take (length ciphertext - Z.to_nat (u8 b)) ciphertext)
  | None => EvpFinalFailed
  end.

#[export] Instance evp : Evp :=
  {| evp_encrypt _ _ plaintext := EvpDone (pad plaintext);
     evp_decrypt _ _ ciphertext := unpad ciphertext |}.

#[export] Instance evp_spec : @EvpSpec evp.
Proof.
  assert (Hn : forall p : list byte, (0 < 16 - length p mod 16 <= 16)%nat).
  { intros p. pose proof (Nat.mod_upper_bound (length p) 16 ltac:(lia)). lia. }
  split; intros ? ? p c; simpl; intros [= <-]; unfold pad; specialize (Hn p).
  - split; [intros [_ Hr]%app_eq_nil; destruct (16 - length p mod 16)%nat; [lia|done]|].
    rewrite length_app, length_replicate. unfold AES_BLOCK_BYTES.
    pose proof (Nat.div_mod_eq (length p) 16) as Hd.
    replace (Z.of_nat (length p + (16 - length p mod 16)))
      with (Z.of_nat (length p / 16 + 1) * 16) by lia. by apply Z.mod_mul.
  - unfold unpad. set (n := (16 - length p mod 16)%nat) in *.
    assert (Hlast : last (p ++ replicate n (to_u8 (Z.of_nat n))) = Some (to_u8 (Z.of_nat n))).
    { destruct n as [|n]; [lia|]. rewrite replicate_S_end, app_assoc. apply last_snoc. }
    rewrite Hlast, u8_to_u8, length_app, length_replicate.
    rewrite Z.mod_small, Nat2Z.id, Nat.add_sub by lia. by rewrite take_app_length.
Qed.
End PaddingOnly.

Definition example_session : SessionCrypto :=
  mkSessionCrypto (replicate 32 x55) (replicate 16 x66).

Lemma SessionCrypto_in_step_witness :
  let '(received, a, b) :=
    converse (cipher := PaddingOnly.evp) [(true, [x01]); (false, []); (true, replicate 40 x07)]
      example_session example_session in
  a = b /\ match received with
           | Ok plaintexts => plaintexts = [[x01]; []; replicate 40 x07]
           | Throw e => exn_cls e = SessionCryptoError
           | _ => False
           end.
Proof.
  apply (SessionCrypto_in_step (cipher := PaddingOnly.evp) (spec := PaddingOnly.evp_spec)
           [(true, [x01]); (false, []); (true, replicate 40 x07)] example_session).
Defined.

Lemma SessionCrypto_crossing_witness :
  let key := replicate 32 x55 in
  evp_decrypt (Evp := PaddingOnly.evp) key (PaddingOnly.pad [x01]) (PaddingOnly.pad [x02]) =
    EvpDone [x02] /\
  evp_decrypt (Evp := PaddingOnly.evp) key (PaddingOnly.pad [x02]) (PaddingOnly.pad [x01]) =
    EvpDone [x01] /\
  PaddingOnly.pad [x02] = PaddingOnly.pad [x02] /\ PaddingOnly.pad [x01] = PaddingOnly.pad [x01].
Proof.
  pose (after p := mkSessionCrypto (replicate 32 x55) (PaddingOnly.pad p)).
  apply (SessionCrypto_crossing (cipher := PaddingOnly.evp) (spec := PaddingOnly.evp_spec)
           example_session (after [x01]) (after [x02]) (after [x02]) (after [x01])
           [x01] [x02] (PaddingOnly.pad [x01]) (PaddingOnly.pad [x02]) [x01] [x02]);
    vm_compute; reflexivity.
Defined.
