(* ===== verification/Packet.v ===== *)
(** * Packets, addresses and call requests

    [src/src/network/packet.h] and [packet.cpp]. [MessageType] and
    [AddressType] are enumerations over [std::int64_t] into which any integer
    of a message is cast: they are the integer. A null [ValuePtr] of a packet
    is [None]. *)

From stdpp Require Import base numbers list option strings pretty.
From Stdlib Require Import Strings.Byte.
From S2P Require Import Prelude Value Encoder Decoder DecoderSafety MarshalRoundtrip.

#[local] Open Scope Z_scope.

Module MessageType.
Definition AuthenticationReq : Z := 0.
Definition AuthenticationRsp : Z := 1.
Definition IdentificationReq : Z := 2.
Definition IdentificationRsp : Z := 3.
Definition CallReq : Z := 6.
Definition CallRsp : Z := 7.
Definition TransportClosed : Z := 8.
Definition ResolveReq : Z := 10.
Definition ResolveRsp : Z := 11.
Definition Notification : Z := 12.
Definition ErrorResponse : Z := 15.
Definition SessionChangeNotification : Z := 16.
Definition SessionInitialStateNotification : Z := 18.
Definition PingReq : Z := 20.
Definition PingRsp : Z := 21.
End MessageType.

Module AddressType.
Definition Node : Z := 1.
Definition Client : Z := 2.
Definition Broadcast : Z := 4.
Definition Any : Z := 8.
Definition Invalid : Z := 0.
End AddressType.

Definition MessageTypeName (type : Z) : string :=
  if type =? MessageType.AuthenticationReq then "AUTHENTICATION_REQ"
  else if type =? MessageType.AuthenticationRsp then "AUTHENTICATION_RSP"
  else if type =? MessageType.IdentificationReq then "IDENTIFICATION_REQ"
  else if type =? MessageType.IdentificationRsp then "IDENTIFICATION_RSP"
  else if type =? MessageType.CallReq then "CALL_REQ"
  else if type =? MessageType.CallRsp then "CALL_RSP"
  else if type =? MessageType.TransportClosed then "TRANSPORTCLOSED"
  else if type =? MessageType.ResolveReq then "RESOLVE_REQ"
  else if type =? MessageType.ResolveRsp then "RESOLVE_RSP"
  else if type =? MessageType.Notification then "NOTIFICATION"
  else if type =? MessageType.ErrorResponse then "ERRORRESPONSE"
  else if type =? MessageType.SessionChangeNotification then "SESSIONCHANGENOTIFICATION"
  else if type =? MessageType.SessionInitialStateNotification
       then "SESSIONINITIALSTATENOTIFICATION"
  else if type =? MessageType.PingReq then "PING_REQ"
  else if type =? MessageType.PingRsp then "PING_RSP"
  else "UNKNOWN".

(** ** Data *)

Record Address := mkAddress
  { addr_type : Z; object_id : Z; addr_call_id : Z; addr_service : string;
    broadcast_idtype : string }.

Definition new_Address : Address := mkAddress AddressType.Invalid 0 0 "" "".

Record Packet := mkPacket
  { type_string : string; type : Z; source : Address; dest : Address; user_id : Z;
    payload : option Value; named_payload : option Value; generation : Z }.

Definition new_Packet : Packet :=
  mkPacket "" MessageType.CallReq new_Address new_Address 0 None None 0.

Record CallRequest := mkCallRequest
  { service : string; method : string; args : list Value; kwargs : option Value;
    call_id : Z }.

(** ** Checks *)

Definition kMinPacketTupleSize : nat := 7.
Definition kMaxPacketTupleSize : nat := 14.
Definition kAddressTypeName : string := "macho.MachoAddress".
Definition kModernAddressTypeName : string :=
  "carbon.common.script.net.machoNetPacket.MachoAddress".

Definition RequireTuple (value : Value) (min_size : nat) : res (list Value) :=
  match value with
  | VTuple items =>
      if (length items <? min_size)%nat
      then raise PacketFormatError "packet body is not a tuple" else Ok items
  | _ => raise PacketFormatError "packet body is not a tuple"
  end.

Definition RequireInt (value : Value) : res Z :=
  match value with VInt z => Ok z | _ => raise PacketFormatError "expected an int" end.

Definition RequireString (value : Value) : res string :=
  match value with VString s => Ok s | _ => raise PacketFormatError "expected a string" end.

(** [if (!item->IsNone()) field = Require...], on a field that is
    [default] until then. *)
Definition unless_none {A} (default : A) (require : Value -> res A) (item : Value) : res A :=
  if IsNone item then Ok default else require item.

(** ** Addresses *)

(** [x == 0 ? None : Int(x)] and [s.empty() ? None : String(s)]. *)
Definition opt_int (x : Z) : Value := if x =? 0 then VNone else VInt x.
Definition opt_string (s : string) : Value := if str_empty s then VNone else VString s.

Definition Address_Encode (a : Address) : Value :=
  let fields :=
    if addr_type a =? AddressType.Any
    then [opt_string (addr_service a); opt_int (object_id a)]
    else if addr_type a =? AddressType.Node
    then [VInt (object_id a); opt_string (addr_service a); opt_int (addr_call_id a)]
    else if addr_type a =? AddressType.Client
    then [VInt (object_id a); opt_int (addr_call_id a); opt_string (addr_service a)]
    else if addr_type a =? AddressType.Broadcast
    then [opt_string (addr_service a); VList []; VString (broadcast_idtype a)]
    else if addr_type a =? AddressType.Invalid then [VNone]
    else [] in
  VObject kAddressTypeName (VTuple (VInt (addr_type a) :: fields)).

Definition Address_Decode (value : Value) : res Address :=
  match value with
  | VObject type args =>
      if negb (bool_decide (type = kAddressTypeName)) &&
         negb (bool_decide (type = kModernAddressTypeName))
      then raise PacketFormatError "address is not a macho address object"
      else
        match args with
        | VTuple items =>
            if (length items <? 3)%nat
            then raise PacketFormatError "address tuple is too short"
            else
              item0 ← index_at items 0;
              item1 ← index_at items 1;
              item2 ← index_at items 2;
              type ← RequireInt item0;
              if type =? AddressType.Any then
                if negb (length items =? 3)%nat
                then raise PacketFormatError "any address tuple has the wrong size"
                else
                  service ← unless_none "" RequireString item1;
                  object_id ← unless_none 0 RequireInt item2;
                  Ok (mkAddress type object_id 0 service "")
              else if type =? AddressType.Node then
                if negb (length items =? 4)%nat
                then raise PacketFormatError "node address tuple has the wrong size"
                else
                  object_id ← RequireInt item1;
                  service ← unless_none "" RequireString item2;
                  item3 ← index_at items 3;
                  call_id ← unless_none 0 RequireInt item3;
                  Ok (mkAddress type object_id call_id service "")
              else if type =? AddressType.Client then
                if negb (length items =? 4)%nat
                then raise PacketFormatError "client address tuple has the wrong size"
                else
                  object_id ← RequireInt item1;
                  call_id ← unless_none 0 RequireInt item2;
                  item3 ← index_at items 3;
                  service ← unless_none "" RequireString item3;
                  Ok (mkAddress type object_id call_id service "")
              else if type =? AddressType.Broadcast then
                if negb (length items =? 4)%nat
                then raise PacketFormatError "broadcast address tuple has the wrong size"
                else
                  service ← unless_none "" RequireString item1;
                  item3 ← index_at items 3;
                  idtype ← RequireString item3;
                  Ok (mkAddress type 0 0 service idtype)
              else if type =? AddressType.Invalid then
                raise PacketFormatError "address type is invalid"
              else Ok (mkAddress type 0 0 "" "")
        | _ => raise PacketFormatError "address tuple is too short"
        end
  | _ => raise PacketFormatError "address is not a macho address object"
  end.

(** ** Packets *)

Definition Packet_Encode (p : Packet) : Value :=
  VObject (type_string p)
    (VTuple
      [VInt (type p); Address_Encode (source p); Address_Encode (dest p); opt_int (user_id p);
       match payload p with Some v => v | None => VTuple [] end;
       match named_payload p with Some v => v | None => VNone end;
       VNone]).

Definition Packet_Decode (value : Value) (generation : Z) : res Packet :=
  match value with
  | VObject type_string args =>
      items ← RequireTuple args kMinPacketTupleSize;
      if (kMaxPacketTupleSize <? length items)%nat
      then raise PacketFormatError "packet tuple is too large"
      else
        item0 ← index_at items 0;
        type ← RequireInt item0;
        item1 ← index_at items 1;
        source ← Address_Decode item1;
        item2 ← index_at items 2;
        dest ← Address_Decode item2;
        item3 ← index_at items 3;
        user_id ← unless_none 0 RequireInt item3;
        payload ← index_at items 4;
        item5 ← index_at items 5;
        let named_payload := if IsNone item5 then None else Some item5 in
        Ok (mkPacket type_string type source dest user_id (Some payload) named_payload generation)
  | _ => raise PacketFormatError "packet is not an object"
  end.

(** ** Call requests *)

(** The loop over the wrapper's items, up to the first substream. *)
Fixpoint decode_body (items : list Value) : res (option Value) :=
  match items with
  | [] => Ok None
  | VSubStream data :: _ => body ← Decode data true; Ok (Some body)
  | _ :: items => decode_body items
  end.

(** A packet whose payload is null is dereferenced. *)
Definition CallRequest_Decode (packet : Packet) : res CallRequest :=
  if negb (type packet =? MessageType.CallReq)
  then raise PacketFormatError "packet is not a call request"
  else
    match payload packet with
    | None => Undefined
    | Some (VTuple (wrapper :: _)) =>
        match wrapper with
        | VTuple wrapper_items =>
            if (length wrapper_items <? 2)%nat
            then raise PacketFormatError "call request wrapper is malformed"
            else
              decoded_body ← decode_body wrapper_items;
              match decoded_body with
              | None => raise PacketFormatError "call request has no substream"
              | Some (VTuple body_items) =>
                  if (length body_items <? 2)%nat
                  then raise PacketFormatError "call request body is malformed"
                  else
                    item0 ← index_at body_items 0;
                    let service :=
                      match item0 with VString s => s | VInt z => pretty z | _ => "" end in
                    item1 ← index_at body_items 1;
                    method ← RequireString item1;
                    let args :=
                      match body_items !! 2%nat with Some (VTuple args) => args | _ => [] end in
                    let kwargs :=
                      match body_items !! 3%nat with
                      | Some v => if IsNone v then None else Some v
                      | None => None
                      end in
                    Ok (mkCallRequest service method args kwargs (addr_call_id (source packet)))
              | Some _ => raise PacketFormatError "call request body is malformed"
              end
        | _ => raise PacketFormatError "call request wrapper is malformed"
        end
    | Some _ => raise PacketFormatError "call request payload is empty"
    end.

(** ** What survives the wire *)

(** The addresses [Address_Decode] accepts back. *)
(** The address kinds with a form of their own on the wire. *)
Definition known_type (t : Z) : bool :=
  (t =? AddressType.Any) || (t =? AddressType.Node) || (t =? AddressType.Client) ||
  (t =? AddressType.Broadcast).

(** An address without the fields its kind does not carry. *)
Definition canon_address (a : Address) : Address :=
  if addr_type a =? AddressType.Any
  then mkAddress (addr_type a) (object_id a) 0 (addr_service a) ""
  else if addr_type a =? AddressType.Broadcast
  then mkAddress (addr_type a) 0 0 (addr_service a) (broadcast_idtype a)
  else mkAddress (addr_type a) (object_id a) (addr_call_id a) (addr_service a) "".

Lemma unless_none_opt_int x : unless_none 0 RequireInt (opt_int x) = Ok x.
Proof. unfold opt_int. destruct (Z.eqb_spec x 0) as [->|]; done. Qed.

Lemma unless_none_opt_string s : unless_none "" RequireString (opt_string s) = Ok s.
Proof. by destruct s. Qed.


Lemma Address_roundtrip a :
  known_type (addr_type a) = true -> Address_Decode (Address_Encode a) = Ok (canon_address a).
Proof.
  destruct a as [t o c s b]. unfold known_type, canon_address, Address_Encode. cbn [addr_type].
  destruct (Z.eqb_spec t AddressType.Any) as [->|HAny].
  { intros _. cbn -[unless_none opt_int opt_string]. by rewrite ?unless_none_opt_int, ?unless_none_opt_string. }
  destruct (Z.eqb_spec t AddressType.Node) as [->|HNode].
  { intros _. cbn -[unless_none opt_int opt_string]. by rewrite ?unless_none_opt_int, ?unless_none_opt_string. }
  destruct (Z.eqb_spec t AddressType.Client) as [->|HClient].
  { intros _. cbn -[unless_none opt_int opt_string]. by rewrite ?unless_none_opt_int, ?unless_none_opt_string. }
  destruct (Z.eqb_spec t AddressType.Broadcast) as [->|]; [|done].
  intros _. cbn -[unless_none opt_int opt_string]. by rewrite ?unless_none_opt_int, ?unless_none_opt_string.
Qed.

Lemma Address_unknown a :
  known_type (addr_type a) = false ->
  Address_Decode (Address_Encode a) = raise PacketFormatError "address tuple is too short".
Proof.
  unfold known_type, Address_Encode. intros H.
  destruct (addr_type a =? AddressType.Any); [done|].
  destruct (addr_type a =? AddressType.Node); [done|].
  destruct (addr_type a =? AddressType.Client); [done|].
  destruct (addr_type a =? AddressType.Broadcast); [done|].
  by destruct (addr_type a =? AddressType.Invalid).
Qed.

(** Address round trip: an address of a known kind decodes to itself less
    the fields its kind does not carry (an [Any] address loses its call id),
    and an address of any other kind encodes to a tuple every receiver
    rejects as too short. *)
Theorem Address_Encode_Decode (a : Address) :
  Address_Decode (Address_Encode a) =
    if known_type (addr_type a) then Ok (canon_address a)
    else raise PacketFormatError "address tuple is too short".
Proof.
  destruct (known_type (addr_type a)) eqn:H; [by apply Address_roundtrip|by apply Address_unknown].
Qed.

Definition packet_payload (p : Packet) : Value :=
  match payload p with Some v => v | None => VTuple [] end.

Definition packet_named (p : Packet) : option Value :=
  match named_payload p with
  | Some v => if IsNone v then None else Some v
  | None => None
  end.

(** What [Packet_Decode] makes of the encoding of [p]. *)
Definition received_packet (p : Packet) (generation : Z) : Packet :=
  mkPacket (type_string p) (type p) (canon_address (source p)) (canon_address (dest p))
    (user_id p) (Some (packet_payload p)) (packet_named p) generation.

Lemma Packet_roundtrip p generation :
  known_type (addr_type (source p)) = true -> known_type (addr_type (dest p)) = true ->
  Packet_Decode (Packet_Encode p) generation = Ok (received_packet p generation).
Proof.
  intros Hs Hd. unfold Packet_Decode, Packet_Encode.
  cbn -[Address_Decode Address_Encode unless_none opt_int].
  rewrite !Address_roundtrip by done. cbn -[unless_none opt_int].
  rewrite unless_none_opt_int. cbn. unfold received_packet, packet_payload, packet_named.
  destruct (named_payload p) as [v|]; [|done]. by destruct v.
Qed.

(** Packet round trip: a packet between addresses of known kinds decodes to
    itself with its addresses reduced, a missing payload made an empty tuple,
    an explicit null keyword payload dropped, and the receiver's generation. *)
Theorem Packet_Encode_Decode (p : Packet) (generation : Z)
    (Hsource : known_type (addr_type (source p)) = true)
    (Hdest : known_type (addr_type (dest p)) = true) :
  Packet_Decode (Packet_Encode p) generation = Ok (received_packet p generation).
Proof. by apply Packet_roundtrip. Qed.

Lemma Packet_Encode_Decode_witness :
  let p := mkPacket "macho.Notification" MessageType.Notification
             (mkAddress AddressType.Node 7 9 "svc" "") (mkAddress AddressType.Broadcast 0 0 "" "x")
             5 None (Some VNone) 0 in
  Packet_Decode (Packet_Encode p) 3 =
    Ok (mkPacket "macho.Notification" MessageType.Notification
          (mkAddress AddressType.Node 7 9 "svc" "") (mkAddress AddressType.Broadcast 0 0 "" "x")
          5 (Some (VTuple [])) None 3).
Proof. intros p. apply (Packet_Encode_Decode p 3); reflexivity. Defined.

(** ** Packets on the wire *)

Definition address_ok (a : Address) : Prop :=
  in_s 64 (addr_type a) /\ in_s 64 (object_id a) /\ in_s 64 (addr_call_id a).

Definition packet_ok (p : Packet) : Prop :=
  in_s 64 (type p) /\ address_ok (source p) /\ address_ok (dest p) /\ in_s 64 (user_id p) /\
  value_ok (packet_payload p) /\ (forall v, named_payload p = Some v -> value_ok v).

Lemma value_ok_opt_int x : in_s 64 x -> value_ok (opt_int x).
Proof. unfold opt_int. by destruct (_ =? _). Qed.

Lemma value_ok_opt_string s : value_ok (opt_string s).
Proof. unfold opt_string. by destruct (str_empty s). Qed.

(** Every element of a list given by its elements. *)
Ltac each := repeat match goal with
  | |- Forall _ (_ :: _) => constructor
  | |- Forall _ [] => constructor
  end; try done; auto using value_ok_opt_int, value_ok_opt_string.

Lemma value_ok_Address a : address_ok a -> value_ok (Address_Encode a).
Proof.
  intros (Ht & Ho & Hc). unfold Address_Encode. apply (value_ok_tuple (_ :: _)).
  constructor; [done|]. repeat (destruct (_ =? _); [by each|]). by each.
Qed.

Lemma value_ok_Packet p : packet_ok p -> value_ok (Packet_Encode p).
Proof.
  intros (Ht & Hs & Hd & Hu & Hp & Hn). unfold Packet_Encode. apply value_ok_tuple.
  each; auto using value_ok_Address. destruct (named_payload p); [by apply Hn|done].
Qed.

Lemma canon_Address a : canon (Address_Encode a) = Address_Encode a.
Proof.
  unfold Address_Encode, opt_int, opt_string. cbn. do 3 f_equal. by repeat case_match.
Qed.

(** A packet whose payloads are in canonical form. *)
Definition canon_packet (p : Packet) : Packet :=
  mkPacket (type_string p) (type p) (source p) (dest p) (user_id p)
    (Some (canon (packet_payload p))) (canon <$> named_payload p) (generation p).

Lemma canon_Packet p : canon (Packet_Encode p) = Packet_Encode (canon_packet p).
Proof.
  unfold Packet_Encode, canon_packet, packet_payload. cbn [canon map].
  rewrite !canon_Address. cbn. unfold opt_int.
  destruct (user_id p =? 0), (named_payload p); done.
Qed.

(** The bytes of a packet, received. *)
Lemma Packet_on_wire p bs generation :
  packet_ok p -> known_type (addr_type (source p)) = true ->
  known_type (addr_type (dest p)) = true ->
  Encode (Packet_Encode p) = Ok bs -> Z.of_nat (length bs) <= MAX_STREAM_BYTES ->
  exists v, Decode bs true = Ok v /\
    Packet_Decode v generation = Ok (received_packet (canon_packet p) generation).
Proof.
  intros Hok Hs Hd Henc Hlen. exists (canon (Packet_Encode p)). split.
  - pose proof (Decode_Encode _ bs [] true (value_ok_Packet p Hok) Henc) as H.
    rewrite app_nil_r in H. by apply H.
  - rewrite canon_Packet. by apply Packet_roundtrip.
Qed.

(** Nothing of the packet is lost on the wire: its addresses have only the fields their
    kind carries, it has a payload, and no keyword payload that is null; its
    values are in the codec's canonical form. *)
Definition carried_whole (p : Packet) : Prop :=
  canon_address (source p) = source p /\ canon_address (dest p) = dest p /\
  (exists v, payload p = Some v /\ canon v = v) /\
  forall v, named_payload p = Some v -> IsNone v = false /\ canon v = v.

Definition set_generation (g : Z) (p : Packet) : Packet :=
  mkPacket (type_string p) (type p) (source p) (dest p) (user_id p) (payload p)
    (named_payload p) g.

Lemma received_whole p g : carried_whole p -> received_packet (canon_packet p) g = set_generation g p.
Proof.
  intros (Hs & Hd & (v & Hv & Hc) & Hn). unfold received_packet, canon_packet, set_generation, packet_named.
  cbn [type_string type source dest user_id named_payload]. unfold packet_payload. cbn [payload].
  rewrite Hs, Hd, Hv, Hc. f_equal. destruct (named_payload p) as [w|]; [|done].
  destruct (Hn w eq_refl) as [Hw Hcw]. cbn. by rewrite Hcw, Hw.
Qed.

(** C31. What is received of a packet that is sent. A packet between addresses of known
    kinds, marshalled, unmarshalled and decoded, gives a packet with the same type
    string, type and user id and the receiver's generation; each address keeps
    the fields its kind carries (an any address loses its call id and its
    broadcast type, a broadcast address its object and call id, the others their
    broadcast type); a missing payload becomes an empty tuple, a null keyword payload
    is dropped, and the values are in the codec's canonical form. So a packet
    of which none of this is lost is received as it was sent. *)
Theorem Packet_wire_roundtrip (p : Packet) (bs : list byte) (generation : Z)
    (Hok : packet_ok p) (Hsource : known_type (addr_type (source p)) = true)
    (Hdest : known_type (addr_type (dest p)) = true)
    (Henc : Encode (Packet_Encode p) = Ok bs)
    (Hlen : Z.of_nat (length bs) <= MAX_STREAM_BYTES) :
  exists v, Decode bs true = Ok v /\
    Packet_Decode v generation = Ok (received_packet (canon_packet p) generation) /\
    (carried_whole p -> Packet_Decode v generation = Ok (set_generation generation p)).
Proof.
  destruct (Packet_on_wire p bs generation) as (v & Hd & Hp); [done..|]. exists v.
  split_and!; [done..|]. intros Hw. by rewrite Hp, received_whole.
Qed.

Definition example_packet : Packet :=
  mkPacket "macho.CallRsp" MessageType.CallRsp (mkAddress AddressType.Client 3 12 "svc" "")
    (mkAddress AddressType.Any 0 0 "" "") 77 (Some (VTuple [VReal (2 ^ 63)])) None 0.

Definition example_packet_bytes : list byte :=
  Eval vm_compute in match Encode (Packet_Encode example_packet) with Ok bs => bs | _ => [] end.

Lemma Packet_wire_roundtrip_witness :
  exists v, Decode example_packet_bytes true = Ok v /\
    Packet_Decode v 4 =
      Ok (mkPacket "macho.CallRsp" MessageType.CallRsp (mkAddress AddressType.Client 3 12 "svc" "")
            (mkAddress AddressType.Any 0 0 "" "") 77 (Some (VTuple [VReal 0])) None 4).
Proof.
  destruct (Packet_wire_roundtrip example_packet example_packet_bytes 4) as (v & Hd & Hp & _);
    [repeat split; done|reflexivity|reflexivity|vm_compute; reflexivity|vm_compute; done|].
  exists v. split; [exact Hd|exact Hp].
Defined.

(** ** Call requests are checked *)

Lemma decode_body_safe items :
  match decode_body items with
  | Ok (Some v) => value_ok v | Ok None | Throw _ => True | Undefined | OutOfFuel => False
  end.
Proof.
  induction items as [|v items IH]; [done|]. destruct v; try exact IH. cbn.
  pose proof (Decode_safe data true) as [Hd Hok].
  destruct (Decode data true); try done. by apply Hok.
Qed.

Definition packet_exn (c : exn_class) : bool :=
  match c with PacketFormatError => true | _ => false end.

#[local] Abbreviation psafe := (throws_only packet_exn).

Lemma RequireInt_safe v : psafe (RequireInt v).
Proof. by destruct v. Qed.
Lemma RequireString_safe v : psafe (RequireString v).
Proof. by destruct v. Qed.
Lemma unless_none_safe {A} (a : A) (f : Value -> res A) v :
  psafe (f v) -> psafe (unless_none a f v).
Proof. unfold unless_none. by destruct (IsNone v). Qed.

#[local] Hint Resolve RequireInt_safe RequireString_safe unless_none_safe : ithax.

(** A subscript that is in range. *)
Lemma index_safe {A} (items : list Value) i (k : Value -> res A) :
  (i < length items)%nat -> (forall v, psafe (k v)) -> psafe (index_at items i ≫= k).
Proof.
  intros Hi Hk. destruct (lookup_lt_is_Some_2 items i Hi) as [v Hv].
  rewrite (index_at_Some _ _ _ Hv). apply Hk.
Qed.

(** Each step of a decoder that only requires kinds. *)
Ltac psteps :=
  repeat first
    [ apply index_safe; [lia|]; intros ?
    | apply throws_only_bind; [by auto with ithax|]; intros ? _ ]; try done.

Lemma Address_Decode_safe v : psafe (Address_Decode v).
Proof.
  destruct v; try done. unfold Address_Decode. destruct (_ && _); [done|].
  destruct v; try done. destruct (Nat.ltb_spec (length items) 3); [done|]. psteps.
  destruct (a =? AddressType.Any); [destruct (negb _); [done|psteps]|].
  assert (H4 : forall k : res Address, ((length items = 4)%nat -> psafe k) -> forall what,
    psafe (if negb (length items =? 4)%nat then raise PacketFormatError what else k)).
  { intros k Hk what. destruct (Nat.eqb_spec (length items) 4); [by apply Hk|done]. }
  repeat match goal with |- throws_only _ (if a =? ?t then _ else _) =>
    destruct (a =? t); [try done; apply H4; intros Hlen; psteps|] end. done.
Qed.

Lemma Packet_Decode_safe v generation : psafe (Packet_Decode v generation).
Proof.
  destruct v; try done. unfold Packet_Decode. apply throws_only_bind.
  { unfold RequireTuple. repeat case_match; done. }
  intros items Hitems. assert (7 <= length items)%nat.
  { unfold RequireTuple, kMinPacketTupleSize in Hitems. destruct v; try done.
    destruct (Nat.ltb_spec (length items0) 7); [done|]. by apply Ok_inj in Hitems as <-. }
  destruct (_ <? _)%nat; [done|]. pose proof Address_Decode_safe. psteps.
Qed.

Lemma Packet_Decode_payload v generation p :
  Packet_Decode v generation = Ok p -> exists w, payload p = Some w.
Proof.
  intros H. unfold Packet_Decode in H. destruct v; try done. res_inv. destruct (_ <? _)%nat; [done|].
  res_inv. subst p. by eexists.
Qed.

Lemma CallRequest_Decode_defined p w :
  payload p = Some w -> defined (CallRequest_Decode p).
Proof.
  intros Hw. unfold CallRequest_Decode. rewrite Hw. destruct (negb _); [done|].
  destruct w; try done. destruct items as [|wrapper items]; [done|].
  destruct wrapper; try done. destruct (_ <? _)%nat; [done|].
  pose proof (decode_body_safe items0) as Hb.
  destruct (decode_body items0) as [[body|]|?| |]; cbn [mbind res_bind]; try done.
  destruct body; try done. destruct items1 as [|i0 [|i1 items1]]; try done. cbn.
  by destruct i1.
Qed.

(** Decoding the packets and calls of a peer is safe: whatever value a
    packet is made of, [Packet::Decode] returns or throws its own exception; a
    packet it returns has its payload set, and [CallRequest::Decode] on it
    returns or throws. *)
Theorem Packet_CallRequest_safe (v : Value) (generation : Z) :
  match Packet_Decode v generation with
  | Ok p => (exists w, payload p = Some w) /\ defined (CallRequest_Decode p)
  | Throw e => exn_cls e = PacketFormatError
  | Undefined | OutOfFuel => False
  end.
Proof.
  pose proof (Packet_Decode_safe v generation) as Hs.
  destruct (Packet_Decode v generation) as [p|e| |] eqn:H; [|by destruct e as [[] ?]|done..].
  destruct (Packet_Decode_payload _ _ _ H) as [w Hw]. split; [by exists w|].
  by eapply CallRequest_Decode_defined.
Qed.
