(* ===== verification/Dispatcher.v ===== *)
(** * The call dispatcher

    [src/src/network/dispatcher.h] and [dispatcher.cpp]: a map from services to
    maps from methods to handlers. A [Handler] is code of the client of the
    class: a function from the call and its packet to an outcome. *)

From stdpp Require Import base numbers list option strings gmap.
From S2P Require Import Prelude Value Packet.

(** ** Data *)

(** The returned [ValuePtr] may be null. *)
Definition Handler : Type := CallRequest -> Packet -> res (option Value).

Record Dispatcher := mkDispatcher { m_handlers : gmap string (gmap string Handler) }.

Definition new_Dispatcher : Dispatcher := mkDispatcher ∅.

(** ** Operations *)

(** [m_handlers[service][method] = handler]: the first subscript inserts an
    empty map where there is none. *)
Definition Register (service method : string) (handler : Handler) (d : Dispatcher) : Dispatcher :=
  let methods := default ∅ (m_handlers d !! service) in
  mkDispatcher (<[service := <[method := handler]> methods]> (m_handlers d)).

Definition RegisterService (service : string) (methods : gmap string Handler) (d : Dispatcher)
    : Dispatcher :=
  map_fold (fun method handler d => Register service method handler d) d methods.

Definition Dispatch (packet : Packet) (d : Dispatcher) : res (option Value) :=
  if negb (Z.eqb (type packet) MessageType.CallReq)
  then raise DispatcherError "dispatcher only handles call requests"
  else
    call ← CallRequest_Decode packet;
    match m_handlers d !! service call with
    | None => raise DispatcherUnknownMethodError ("unknown service: " +:+ service call)
    | Some methods =>
        match methods !! method call with
        | None =>
            raise DispatcherUnknownMethodError
              ("unknown method: " +:+ service call +:+ "." +:+ method call)
        | Some handler => handler call packet
        end
    end.

Definition HasHandler (service method : string) (d : Dispatcher) : bool :=
  match m_handlers d !! service with
  | None => false
  | Some methods => bool_decide (is_Some (methods !! method))
  end.

(** ** The abstract view: one handler per pair of names *)

Definition handler_at (d : Dispatcher) (service method : string) : option Handler :=
  m_handlers d !! service ≫= (.!! method).

Lemma handler_at_new s m : handler_at new_Dispatcher s m = None.
Proof. done. Qed.

Lemma HasHandler_handler_at s m d : HasHandler s m d = bool_decide (is_Some (handler_at d s m)).
Proof.
  unfold HasHandler, handler_at. destruct (m_handlers d !! s); [done|].
  symmetry. apply bool_decide_false. by intros [? ?].
Qed.

Lemma handler_at_Register s m h d s' m' :
  handler_at (Register s m h d) s' m' =
    if decide (s = s' /\ m = m') then Some h else handler_at d s' m'.
Proof.
  unfold handler_at, Register. cbn [m_handlers]. destruct (decide (s = s')) as [<-|Hs].
  - rewrite lookup_insert_eq. cbn. destruct (decide (m = m')) as [<-|Hm].
    + rewrite lookup_insert_eq. by rewrite decide_True.
    + rewrite lookup_insert_ne by done. rewrite decide_False by (by intros [? ?]).
      by destruct (m_handlers d !! s).
  - rewrite lookup_insert_ne by done. by rewrite decide_False by (by intros [? ?]).
Qed.

(** Later registrations replace earlier ones. *)
Definition last_registered (registrations : list (string * string * Handler))
    (service method : string) : option Handler :=
  snd <$> last (filter (fun r => r.1 = (service, method)) registrations).

Definition register_all (registrations : list (string * string * Handler)) (d : Dispatcher)
    : Dispatcher :=
  foldl (fun d r => Register r.1.1 r.1.2 r.2 d) d registrations.

Lemma handler_at_register_all registrations d s m :
  handler_at (register_all registrations d) s m =
    match last_registered registrations s m with Some h => Some h | None => handler_at d s m end.
Proof.
  unfold last_registered, register_all. induction registrations as [|r l IH] using rev_ind; [done|].
  destruct r as [[rs rm] h]. rewrite foldl_app, filter_app. cbn [foldl fst snd].
  rewrite handler_at_Register. destruct (decide (rs = s /\ rm = m)) as [[-> ->]|Hne].
  - rewrite filter_cons_True, filter_nil by done. by rewrite last_snoc.
  - rewrite filter_cons_False by (simpl; by intros [= ? ?]; apply Hne). rewrite filter_nil, app_nil_r. apply IH.
Qed.

Lemma handler_at_RegisterService s methods d s' m' :
  handler_at (RegisterService s methods d) s' m' =
    match (if decide (s = s') then methods !! m' else None) with
    | Some h => Some h
    | None => handler_at d s' m'
    end.
Proof.
  unfold RegisterService.
  apply (map_fold_weak_ind (fun d' (methods : gmap string Handler) => handler_at d' s' m' =
    match (if decide (s = s') then methods !! m' else None) with
    | Some h => Some h | None => handler_at d s' m' end)); clear methods.
  - by destruct (decide (s = s')).
  - intros m h methods d' Hm IH. rewrite handler_at_Register, IH.
    destruct (decide (s = s')) as [<-|Hs]; [|by rewrite decide_False by (by intros [? ?])].
    destruct (decide (m = m')) as [<-|Hm'].
    + rewrite decide_True by done. by rewrite lookup_insert_eq.
    + rewrite decide_False by (by intros [? ?]). by rewrite lookup_insert_ne.
Qed.

(** ** Properties *)

(** Routing: after any sequence of registrations a call runs the handler
    registered last for exactly its service and method, on the decoded call and
    its packet, and a call nobody registered throws the unknown-method
    exception. *)
Theorem Dispatch_last_registered (registrations : list (string * string * Handler))
    (packet : Packet) (call : CallRequest) (Hcall : CallRequest_Decode packet = Ok call) :
  match last_registered registrations (service call) (method call) with
  | Some handler =>
      Dispatch packet (register_all registrations new_Dispatcher) = handler call packet
  | None => exists what,
      Dispatch packet (register_all registrations new_Dispatcher) =
        raise DispatcherUnknownMethodError what
  end.
Proof.
  pose proof (handler_at_register_all registrations new_Dispatcher (service call) (method call)) as H.
  rewrite handler_at_new in H. set (d := register_all registrations new_Dispatcher) in *.
  assert (Htype : Z.eqb (type packet) MessageType.CallReq = true).
  { unfold CallRequest_Decode in Hcall. by destruct (Z.eqb (type packet) MessageType.CallReq). }
  unfold Dispatch. rewrite Htype, Hcall. cbn [negb mbind res_bind]. unfold handler_at in H.
  destruct (last_registered _ _ _) as [h|].
  - destruct (m_handlers d !! service call) as [methods|]; [|done].
    change (methods !! method call = Some h) in H.
    match goal with |- context [match ?x with Some _ => _ | None => _ end] =>
      change x with (methods !! method call) end. by rewrite H.
  - destruct (m_handlers d !! service call) as [methods|]; [|by eexists].
    change (methods !! method call = None) in H.
    match goal with |- context [match ?x with Some _ => _ | None => _ end] =>
      change x with (methods !! method call) end. rewrite H.
    by eexists.
Qed.

Definition example_call_packet : Packet :=
  mkPacket "macho.CallReq" MessageType.CallReq (mkAddress AddressType.Any 0 0 "a" "")
    (mkAddress AddressType.Any 0 0 "machoNet" "") 0
    (Some (VTuple [VTuple [VInt 0; VSubStream
       [Byte.x7e; Byte.x00; Byte.x00; Byte.x00; Byte.x00; Byte.x2c; Byte.x0f; Byte.x61; Byte.x0f;
        Byte.x6d]]])) None 0.

Lemma Dispatch_last_registered_witness :
  Dispatch example_call_packet
    (register_all
       [(("a", "m"), fun _ _ => Ok (Some VNone)); (("b", "m"), fun _ _ => Ok None);
        (("a", "m"), fun call _ => Ok (Some (VString (method call))))] new_Dispatcher) =
    Ok (Some (VString "m")).
Proof.
  apply (Dispatch_last_registered
    [(("a", "m"), fun _ _ => Ok (Some VNone)); (("b", "m"), fun _ _ => Ok None);
     (("a", "m"), fun call _ => Ok (Some (VString (method call))))] example_call_packet
    (mkCallRequest "a" "m" [] None 0)).
  vm_compute. reflexivity.
Defined.

(** Registering a service is registering its methods: afterwards the service
    has exactly the new methods over the ones it had, and no other service
    changes. *)
Lemma RegisterService_HasHandler (s : string) (methods : gmap string Handler) (d : Dispatcher)
    (s' m' : string) :
  handler_at (RegisterService s methods d) s' m' =
    (if decide (s = s') then methods !! m' else None) ∪ handler_at d s' m' /\
  HasHandler s' m' (RegisterService s methods d) =
    (bool_decide (s = s') && bool_decide (is_Some (methods !! m'))) || HasHandler s' m' d.
Proof.
  pose proof (handler_at_RegisterService s methods d s' m') as H. split.
  - rewrite H. destruct (decide (s = s')); [|by destruct (handler_at d s' m')].
    by destruct (methods !! m'), (handler_at d s' m').
  - rewrite !HasHandler_handler_at, H. destruct (decide (s = s')) as [<-|].
    + rewrite (bool_decide_true (s = s)) by done. by destruct (methods !! m').
    + by rewrite (bool_decide_false (s = s')).
Qed.
