(* ===== verification/Handshake.v ===== *)
(** * The handshake

    [src/src/network/handshake.h] and [handshake.cpp]: the messages the client
    builds and the state machine of [Handshake], each [On...] a handler on the
    state. The theorems say which sequences of events complete the handshake. *)

From stdpp Require Import base numbers list option strings.
From Stdlib Require Import Strings.Byte.
From S2P Require Import Prelude Value.

#[local] Open Scope Z_scope.

(** ** Data *)

Inductive HandshakeState :=
| WaitVersion | WaitCommand | WaitCrypto | WaitAuth | WaitFuncResult | Session.

#[export] Instance HandshakeState_eq_dec : EqDecision HandshakeState.
Proof. solve_decision. Defined.

(** Its only member is [m_state]. *)
Definition Handshake : Type := HandshakeState.
Definition new_Handshake : Handshake := WaitVersion.

Record VersionExchange := mkVersionExchange
  { birthday : Z; macho_version : Z; user_count : Z; version_number : Z;
    build_version : Z; project_version : string }.

Record CryptoRequest := mkCryptoRequest
  { key_version : string; session_key : list byte; session_iv : list byte;
    has_session_key : bool; has_session_iv : bool }.

Record LoginChallenge := mkLoginChallenge
  { user_name : string; user_password_hash : string; user_language_id : string;
    user_affiliate_id : Z }.

Record HandshakeResult := mkHandshakeResult
  { challenge_response_hash : string; func_output : string; func_result : list byte }.

Definition kMachoVersion : Z := 496.
Definition kEveBirthday : Z := 170472.
Definition kBuildVersion : Z := 3396210.
(** The bit pattern of [24.01]. *)
Definition kClientVersion : Z := 4627451431872951747.
Definition kProjectVersion : string := "V24.01@ccp".
Definition kOkCc : string := "OK CC".

(** ** Messages *)

Definition BuildVersionExchangeClient (version : VersionExchange) : Value :=
  VTuple [VInt (birthday version); VInt (macho_version version); VInt (user_count version);
          VReal (version_number version); VInt (build_version version);
          VString (project_version version)].

Definition BuildVkCommand (vip_key : string) : Value :=
  VTuple [VNone; VString "VK"; VString vip_key].

Definition BuildCryptoRequest (request : CryptoRequest) : Value :=
  let params :=
    (if has_session_key request
     then [(VString "crypting_sessionkey", VBuffer (session_key request))] else []) ++
    (if has_session_iv request
     then [(VString "crypting_sessioniv", VBuffer (session_iv request))] else []) in
  VTuple [VString (key_version request); VDict params].

Definition BuildLoginChallenge (challenge : LoginChallenge) : Value :=
  VTuple [VString "";
    VDict [(VString "user_name", VWString (user_name challenge));
           (VString "user_password_hash", VString (user_password_hash challenge));
           (VString "user_languageid", VWString (user_language_id challenge));
           (VString "user_affiliateid", VInt (user_affiliate_id challenge));
           (VString "macho_version", VInt kMachoVersion);
           (VString "boot_version", VReal kClientVersion);
           (VString "boot_build", VInt kBuildVersion);
           (VString "boot_codename", VString "Ithax");
           (VString "boot_region", VString "ccp")]].

Definition BuildHandshakeResult (result : HandshakeResult) : Value :=
  VTuple [VString (challenge_response_hash result); VString (func_output result);
          VBuffer (func_result result)].

(** ** The state machine *)

Definition RequireState (expected : HandshakeState) : M Handshake unit :=
  actual ← get;
  if bool_decide (actual = expected) then mret tt
  else throw HandshakeStateError "handshake message arrived out of order".

Definition RequireTuple (value : Value) (min_size : nat) : M Handshake unit :=
  match value with
  | VTuple items =>
      if (length items <? min_size)%nat
      then throw HandshakeProtocolError "expected a tuple" else mret tt
  | _ => throw HandshakeProtocolError "expected a tuple"
  end.

Definition RequireDict (value : Value) : M Handshake unit :=
  match value with
  | VDict _ => mret tt | _ => throw HandshakeProtocolError "expected a dict"
  end.

Definition RequireString (value : Value) : M Handshake string :=
  match value with
  | VString s => mret s | _ => throw HandshakeProtocolError "expected a string"
  end.

Definition RequireInt (value : Value) : M Handshake Z :=
  match value with
  | VInt z => mret z | _ => throw HandshakeProtocolError "expected an int"
  end.

(** [m_state = next]. *)
Definition set_state (next : HandshakeState) : M Handshake unit := modify (fun _ => next).

Definition OnVkSent : M Handshake unit := RequireState WaitCommand;; set_state WaitCrypto.
Definition OnCryptoRequestSent : M Handshake unit := RequireState WaitCrypto.
Definition OnLoginChallengeSent : M Handshake unit := RequireState WaitAuth.
Definition OnHandshakeResultSent : M Handshake unit := RequireState WaitFuncResult.

Definition OnVersionExchangeServer (value : Value) : M Handshake unit :=
  RequireState WaitVersion;; RequireTuple value 7;; set_state WaitCommand.

Definition OnOkCc (value : Value) : M Handshake unit :=
  RequireState WaitCrypto;;
  s ← RequireString value;
  if negb (bool_decide (s = kOkCc))
  then throw HandshakeProtocolError "crypto request was not acknowledged"
  else set_state WaitAuth.

Definition OnPasswordVersion (value : Value) : M Handshake unit :=
  RequireState WaitAuth;;
  z ← RequireInt value;
  if negb (z =? 2) then throw HandshakeProtocolError "unexpected password version"
  else mret tt.

Definition OnCryptoServerHandshake (value : Value) : M Handshake unit :=
  RequireState WaitAuth;; RequireTuple value 4;; set_state WaitFuncResult.

Definition OnCryptoHandshakeAck (value : Value) : M Handshake unit :=
  RequireState WaitFuncResult;; RequireDict value;; set_state Session.

Definition IsComplete (h : Handshake) : bool := bool_decide (h = Session).

(** ** Runs *)

Inductive event :=
| VkSent | CryptoRequestSent | LoginChallengeSent | HandshakeResultSent
| VersionExchangeServer (value : Value)
| OkCc (value : Value)
| PasswordVersion (value : Value)
| CryptoServerHandshake (value : Value)
| CryptoHandshakeAck (value : Value).

Definition handle (e : event) : M Handshake unit :=
  match e with
  | VkSent => OnVkSent
  | CryptoRequestSent => OnCryptoRequestSent
  | LoginChallengeSent => OnLoginChallengeSent
  | HandshakeResultSent => OnHandshakeResultSent
  | VersionExchangeServer v => OnVersionExchangeServer v
  | OkCc v => OnOkCc v
  | PasswordVersion v => OnPasswordVersion v
  | CryptoServerHandshake v => OnCryptoServerHandshake v
  | CryptoHandshakeAck v => OnCryptoHandshakeAck v
  end.

Fixpoint run (events : list event) : M Handshake unit :=
  match events with
  | [] => mret tt
  | e :: events => handle e;; run events
  end.

(** The state machine's transition relation, as a specification: [step e s s']
    when [e] is accepted in [s] and leads to [s']. *)
Inductive step : event -> HandshakeState -> HandshakeState -> Prop :=
| step_version items : (7 <= length items)%nat ->
    step (VersionExchangeServer (VTuple items)) WaitVersion WaitCommand
| step_vk : step VkSent WaitCommand WaitCrypto
| step_crypto_request : step CryptoRequestSent WaitCrypto WaitCrypto
| step_ok_cc : step (OkCc (VString kOkCc)) WaitCrypto WaitAuth
| step_login : step LoginChallengeSent WaitAuth WaitAuth
| step_password : step (PasswordVersion (VInt 2)) WaitAuth WaitAuth
| step_server_handshake items : (4 <= length items)%nat ->
    step (CryptoServerHandshake (VTuple items)) WaitAuth WaitFuncResult
| step_result : step HandshakeResultSent WaitFuncResult WaitFuncResult
| step_ack entries : step (CryptoHandshakeAck (VDict entries)) WaitFuncResult Session.

Inductive steps : list event -> HandshakeState -> HandshakeState -> Prop :=
| steps_nil s : steps [] s s
| steps_cons e es s s' s'' : step e s s' -> steps es s' s'' -> steps (e :: es) s s''.

(** Runs a handler's definition on a concrete state. *)
Ltac run_handler := unfold handle, OnVkSent, OnCryptoRequestSent, OnLoginChallengeSent,
  OnHandshakeResultSent, OnVersionExchangeServer, OnOkCc, OnPasswordVersion,
  OnCryptoServerHandshake, OnCryptoHandshakeAck, RequireState, set_state,
  mbind, M_bind, get, modify, mret, M_ret.

(** A handler refines the relation: it returns exactly along its steps, and
    otherwise throws and leaves the state as it was. *)
Lemma handle_spec e s :
  match handle e s with
  | (Ok _, s') => step e s s'
  | (Throw ex, s') => s' = s /\ ~ (exists s'', step e s s'') /\
      (exn_cls ex = HandshakeStateError \/ exn_cls ex = HandshakeProtocolError)
  | _ => False
  end.
Proof.
  assert (Hno : forall c w, (c = HandshakeStateError \/ c = HandshakeProtocolError) ->
    (forall s'', ~ step e s s'') ->
    s = s /\ ~ (exists s'', step e s s'') /\
    (exn_cls (Exn c w) = HandshakeStateError \/ exn_cls (Exn c w) = HandshakeProtocolError))
    by (intros c w Hc H; split_and!; [done|by intros [? ?%H]|done]).
  destruct e, s; run_handler; try (apply Hno; [by auto|]; by inversion 1); try constructor.
  - destruct value; try (apply Hno; [by auto|]; by inversion 1). unfold RequireTuple.
    destruct (Nat.ltb_spec (length items) 7); [apply Hno; [by auto|]; inversion 1; lia|].
    by constructor.
  - destruct value; try (apply Hno; [by auto|]; by inversion 1). unfold RequireString.
    unfold mret, M_ret. destruct (bool_decide (value = kOkCc)) eqn:Hv.
    + apply bool_decide_eq_true in Hv as ->. constructor.
    + apply bool_decide_eq_false in Hv. apply Hno; [by auto|]. by inversion 1.
  - destruct value; try (apply Hno; [by auto|]; by inversion 1). unfold RequireInt.
    unfold mret, M_ret. destruct (Z.eqb_spec value 2) as [->|]; [constructor|].
    apply Hno; [by auto|]. by inversion 1.
  - destruct value; try (apply Hno; [by auto|]; by inversion 1). unfold RequireTuple.
    destruct (Nat.ltb_spec (length items) 4); [apply Hno; [by auto|]; inversion 1; lia|].
    by constructor.
  - destruct value; try (apply Hno; [by auto|]; by inversion 1). constructor.
Qed.

Lemma step_det e s s1 s2 : step e s s1 -> step e s s2 -> s1 = s2.
Proof. by inversion 1; inversion 1. Qed.

Lemma handle_step e s s' : handle e s = (Ok tt, s') <-> step e s s'.
Proof.
  pose proof (handle_spec e s) as H. split.
  - intros He. by rewrite He in H.
  - intros Hs. destruct (handle e s) as [[[]|ex| |] s'']; try done.
    + f_equal. by eapply step_det.
    + destruct H as (_ & Hn & _). exfalso. eauto.
Qed.

Lemma run_steps es s s' : run es s = (Ok tt, s') <-> steps es s s'.
Proof.
  revert s. induction es as [|e es IH]; intros s; cbn [run].
  - split; [intros [= <-]; constructor|by inversion 1].
  - unfold mbind, M_bind. split.
    + destruct (handle e s) as [[[]|ex| |] s1] eqn:He; try done. intros Hr.
      econstructor; [by apply handle_step|by apply IH].
    + inversion 1 as [|? ? ? s1 ? Hs Hss]; subst. apply handle_step in Hs as ->. by apply IH.
Qed.

(** An event that is not accepted throws and changes nothing. *)
Lemma handle_rejects e s ex s' :
  handle e s = (Throw ex, s') ->
  s' = s /\ (exn_cls ex = HandshakeStateError \/ exn_cls ex = HandshakeProtocolError).
Proof. intros He. pose proof (handle_spec e s) as H. rewrite He in H. by destruct H as (? & _ & ?). Qed.

(** ** Completed handshakes *)

(** A run to a session: [requests] and [results] are how often the crypto request and
    the handshake result were reported as sent, [logins] what came between the
    acknowledgement of the crypto request and the server's handshake. *)
Definition session_run (version : list Value) (requests : nat) (logins : list event)
    (server : list Value) (results : nat) (entries : list (Value * Value)) : list event :=
  VersionExchangeServer (VTuple version) :: VkSent ::
  replicate requests CryptoRequestSent ++ OkCc (VString "OK CC") ::
  logins ++ CryptoServerHandshake (VTuple server) ::
  replicate results HandshakeResultSent ++ [CryptoHandshakeAck (VDict entries)].

Definition login_event (e : event) : Prop :=
  e = LoginChallengeSent \/ e = PasswordVersion (VInt 2).

(** A session accepts nothing more. *)
Lemma steps_Session es s : steps es Session s -> es = [] /\ s = Session.
Proof. inversion 1 as [|? ? ? ? ? Hs]; [done|inversion Hs]. Qed.

Lemma steps_results es : steps es WaitFuncResult Session ->
  exists n entries, es = replicate n HandshakeResultSent ++ [CryptoHandshakeAck (VDict entries)].
Proof.
  induction es as [|e es IH]; inversion 1 as [|? ? ? s ? Hs Hss]; subst. inversion Hs; subst.
  - destruct (IH Hss) as (n & entries & ->). by exists (S n), entries.
  - apply steps_Session in Hss as [-> _]. by exists 0%nat, entries.
Qed.

Lemma steps_logins es : steps es WaitAuth Session ->
  exists logins server rest, Forall login_event logins /\ (4 <= length server)%nat /\
    es = logins ++ CryptoServerHandshake (VTuple server) :: rest /\
    steps rest WaitFuncResult Session.
Proof.
  induction es as [|e es IH]; inversion 1 as [|? ? ? s ? Hs Hss]; subst. inversion Hs; subst.
  - destruct (IH Hss) as (logins & server & rest & Hl & Hn & -> & Hrest).
    exists (LoginChallengeSent :: logins), server, rest. split_and!; [|done..].
    by constructor; [left|].
  - destruct (IH Hss) as (logins & server & rest & Hl & Hn & -> & Hrest).
    exists (PasswordVersion (VInt 2) :: logins), server, rest. split_and!; [|done..].
    by constructor; [right|].
  - by exists [], items, es.
Qed.

Lemma steps_requests es : steps es WaitCrypto Session ->
  exists n rest, es = replicate n CryptoRequestSent ++ OkCc (VString "OK CC") :: rest /\
    steps rest WaitAuth Session.
Proof.
  induction es as [|e es IH]; inversion 1 as [|? ? ? s ? Hs Hss]; subst. inversion Hs; subst.
  - destruct (IH Hss) as (n & rest & -> & Hrest). by exists (S n), rest.
  - by exists 0%nat, es.
Qed.

Lemma steps_app es es' s1 s2 s3 : steps es s1 s2 -> steps es' s2 s3 -> steps (es ++ es') s1 s3.
Proof. induction 1; [done|]. intros. econstructor; eauto. Qed.

Lemma steps_stay es s : Forall (fun e => step e s s) es -> steps es s s.
Proof. induction 1; econstructor; eauto. Qed.

Lemma session_run_steps version requests logins server results entries :
  (7 <= length version)%nat -> (4 <= length server)%nat -> Forall login_event logins ->
  steps (session_run version requests logins server results entries) WaitVersion Session.
Proof.
  intros Hv Hs Hl. unfold session_run.
  eapply steps_cons; [by constructor|]. eapply steps_cons; [by constructor|].
  eapply steps_app; [apply steps_stay, Forall_replicate; constructor|].
  eapply steps_cons; [by constructor|]. eapply steps_app.
  { apply steps_stay. eapply Forall_impl; [exact Hl|]. intros e [->| ->]; constructor. }
  eapply steps_cons; [by constructor|].
  eapply steps_app; [apply steps_stay, Forall_replicate; constructor|].
  eapply steps_cons; [by constructor|]. constructor.
Qed.

(** A run that does not return stopped at an event that was rejected, in the state
    that the events before it left. *)
Lemma run_stops events s :
  (exists s', run events s = (Ok tt, s')) \/
  exists l1 e l2 s' ex, events = l1 ++ e :: l2 /\ run l1 s = (Ok tt, s') /\
    handle e s' = (Throw ex, s') /\ run events s = (Throw ex, s') /\
    (exn_cls ex = HandshakeStateError \/ exn_cls ex = HandshakeProtocolError).
Proof.
  revert s. induction events as [|e events IH]; intros s; [left; by exists s|]. cbn [run].
  pose proof (handle_spec e s) as He. unfold mbind, M_bind.
  destruct (handle e s) as [[[]|ex| |] s1] eqn:Hh; [|right|done..].
  - destruct (IH s1) as [?|(l1 & e' & l2 & s' & ex & -> & Hr & He' & Ht & Hex)]; [by left|right].
    exists (e :: l1), e', l2, s', ex. split_and!; [done| |done..].
    cbn [run]. unfold mbind, M_bind. by rewrite Hh.
  - pose proof (handle_rejects _ _ _ _ Hh) as [-> Hex]. by exists [], e, events, s, ex.
Qed.

(** C30. The handshake reaches a session by these runs and no others: a version exchange
    of at least seven items, the command sent, the crypto request reported as sent
    any number of times, OK CC, then any mix of login challenges sent and password
    versions, each of them 2, a server handshake of at least four items, the handshake
    result reported as sent any number of times, and a dict as the acknowledgement,
    after which nothing more is accepted. Every other sequence of events either ends
    in an earlier state or is stopped by an exception of the handshake at the first
    event that is out of order or not of its form, and leaves the state as it was
    before that event. (The password version, and every report that something was
    sent but the command's, may be left out.) *)
Theorem Session_reached (events : list event) :
  (run events new_Handshake = (Ok tt, Session) <->
   exists version requests logins server results entries,
     (7 <= length version)%nat /\ (4 <= length server)%nat /\ Forall login_event logins /\
     events = session_run version requests logins server results entries) /\
  ((exists s, run events new_Handshake = (Ok tt, s)) \/
   exists l1 e l2 s ex, events = l1 ++ e :: l2 /\ run l1 new_Handshake = (Ok tt, s) /\
     handle e s = (Throw ex, s) /\ run events new_Handshake = (Throw ex, s) /\
     (exn_cls ex = HandshakeStateError \/ exn_cls ex = HandshakeProtocolError)).
Proof.
  split; [|apply run_stops]. rewrite run_steps. split.
  - intros H. inversion H as [|? ? ? s ? Hs Hss]; subst. inversion Hs; subst.
    inversion Hss as [|? ? ? s ? Hs' Hss']; subst. inversion Hs'; subst.
    apply steps_requests in Hss' as (requests & rest & -> & Hrest).
    apply steps_logins in Hrest as (logins & server & rest' & Hl & Hn & -> & Hrest).
    apply steps_results in Hrest as (results & entries & ->).
    by exists items, requests, logins, server, results, entries.
  - intros (version & requests & logins & server & results & entries & Hv & Hs & Hl & ->).
    by apply session_run_steps.
Qed.

Definition example_events : list event :=
  [VersionExchangeServer (VTuple (replicate 7 VNone)); VkSent; CryptoRequestSent;
   OkCc (VString "OK CC"); LoginChallengeSent; PasswordVersion (VInt 2);
   CryptoServerHandshake (VTuple (replicate 4 VNone)); HandshakeResultSent;
   CryptoHandshakeAck (VDict [])].

Example example_session : run example_events new_Handshake = (Ok tt, Session).
Proof. vm_compute. reflexivity. Qed.

(** The other checks can be skipped: the handshake completes without the
    password version, and without the notifications that the crypto request,
    the login challenge and the handshake result were sent, whatever the
    version exchange and the server handshake contain. *)
Theorem Session_without_password_check (version server : list Value)
    (entries : list (Value * Value))
    (Hversion : (7 <= length version)%nat) (Hserver : (4 <= length server)%nat) :
  run [VersionExchangeServer (VTuple version); VkSent; OkCc (VString "OK CC");
       CryptoServerHandshake (VTuple server); CryptoHandshakeAck (VDict entries)]
    new_Handshake = (Ok tt, Session).
Proof.
  apply run_steps. repeat (econstructor; [by constructor|]). constructor.
Qed.

Lemma Session_without_password_check_witness :
  run [VersionExchangeServer (VTuple (replicate 7 VNone)); VkSent; OkCc (VString "OK CC");
       CryptoServerHandshake (VTuple (replicate 4 VNone)); CryptoHandshakeAck (VDict [])]
    new_Handshake = (Ok tt, Session).
Proof. apply Session_without_password_check; simpl; lia. Defined.
