(* ===== verification/Connection.v ===== *)
(** * Connections

    [src/src/network/connection.h] and [connection.cpp]. The operating system
    is outside the program: the answers of the resolver and the sockets are
    scripts of the environment, consumed call by call, and what the program
    does to the outside is recorded. A script that is used up is a call that
    has not returned yet ([OutOfFuel]). The loops of [SendMarshal] and
    [ReceiveMarshal] are as in the code: a send may be partial, a receive may
    bring any part of the stream. *)

From stdpp Require Import base numbers list option strings.
From Stdlib Require Import Strings.Byte.
From S2P Require Import Prelude Value Encoder Decoder MarshalRoundtrip Framing SessionCrypto.
From stdpp Require Import pretty.

#[local] Open Scope Z_scope.

Definition kRecvChunkBytes : Z := 64 * 1024.

(** ** The outside *)

(** The addresses of a resolution: IPv4 in host order, IPv6 by its bytes. *)
Inductive SockAddr :=
| Inet (addr : Z)
| Inet6 (bytes : list byte)
| OtherFamily.

(** [socket] and [connect] on one resolved address. *)
Inductive Attempt :=
| NoSocket
| Refused (handle : Z)
| Accepted (handle : Z).

(** The outcomes of [recv]. *)
Inductive RecvResult :=
| Received (chunk : list byte)
| PeerClosed
| TimedOut
| RecvFailed.

Record Net := mkNet
  { w_resolves : list (option (list SockAddr));
    w_attempts : list Attempt;
    w_sends : list Z;
    w_recvs : list RecvResult;
    w_wire : list byte;
    w_peer : option SockAddr;
    w_closed : list Z }.

Record Connection := mkConnection
  { m_generation : Z; m_connected : bool; m_crypto : option SessionCrypto;
    m_decoder : FrameDecoder; m_socket : option Z }.

Definition new_Connection : Connection := mkConnection 0 false None new_FrameDecoder None.

(** A connection and its outside. *)
Record Env := mkEnv { e_conn : Connection; e_net : Net }.

Definition set_conn (c : Connection) (e : Env) : Env := mkEnv c (e_net e).
Definition set_net (n : Net) (e : Env) : Env := mkEnv (e_conn e) n.
Definition conn {A} (m : M Connection A) : M Env A := on e_conn set_conn m.
Definition net {A} (m : M Net A) : M Env A := on e_net set_net m.

Definition set_decoder (d : FrameDecoder) (c : Connection) : Connection :=
  mkConnection (m_generation c) (m_connected c) (m_crypto c) d (m_socket c).
Definition set_crypto (k : option SessionCrypto) (c : Connection) : Connection :=
  mkConnection (m_generation c) (m_connected c) k (m_decoder c) (m_socket c).

(** *** System calls *)

Definition getaddrinfo : M Net (option (list SockAddr)) :=
  n ← get;
  match w_resolves n with
  | [] => out_of_fuel
  | r :: rest =>
      modify (fun n => mkNet rest (w_attempts n) (w_sends n) (w_recvs n) (w_wire n) (w_peer n)
                         (w_closed n));;
      mret r
  end.

Definition attempt (addr : SockAddr) : M Net Attempt :=
  n ← get;
  match w_attempts n with
  | [] => out_of_fuel
  | a :: rest =>
      let peer := match a with Accepted _ => Some addr | _ => w_peer n end in
      modify (fun n => mkNet (w_resolves n) rest (w_sends n) (w_recvs n) (w_wire n) peer
                         (w_closed n));;
      mret a
  end.

Definition closesocket (handle : Z) : M Net unit :=
  modify (fun n => mkNet (w_resolves n) (w_attempts n) (w_sends n) (w_recvs n) (w_wire n)
                     (w_peer n) (w_closed n ++ [handle])).

(** [send] returns a count or an error; the bytes counted are on the wire. *)
Definition send (data : list byte) : M Net Z :=
  n ← get;
  match w_sends n with
  | [] => out_of_fuel
  | written :: rest =>
      modify (fun n => mkNet (w_resolves n) (w_attempts n) rest (w_recvs n)
                         (w_wire n ++ take (Z.to_nat written) data) (w_peer n) (w_closed n));;
      mret written
  end.

Definition recv : M Net RecvResult :=
  n ← get;
  match w_recvs n with
  | [] => out_of_fuel
  | r :: rest =>
      modify (fun n => mkNet (w_resolves n) (w_attempts n) (w_sends n) rest (w_wire n) (w_peer n)
                         (w_closed n));;
      mret r
  end.

(** ** The loopback policy *)

Definition is_loopback (addr : SockAddr) : bool :=
  match addr with
  | Inet addr => Z.shiftr addr 24 =? 127
  | Inet6 bytes => bool_decide (bytes = replicate 15 x00 ++ [x01])
  | OtherFamily => false
  end.

Definition IsLoopbackAddress (host : string) : M Net bool :=
  if bool_decide (host = "127.0.0.1") || bool_decide (host = "localhost")
     || bool_decide (host = "::1")
  then mret true
  else
    result ← getaddrinfo;
    match result with
    | None => mret false
    | Some entries => mret (existsb is_loopback entries)
    end.

Definition ValidateLoopbackHost (host : string) : M Net unit :=
  ok ← IsLoopbackAddress host;
  if negb ok
  then throw ConnectionLoopbackError "the client network path is loopback-only by policy"
  else mret tt.

(** ** Connecting *)

(** The loop over the resolved addresses, up to one that accepts. *)
Fixpoint connect_loop (entries : list SockAddr) : M Net (option Z) :=
  match entries with
  | [] => mret None
  | entry :: entries =>
      a ← attempt entry;
      match a with
      | NoSocket => connect_loop entries
      | Accepted handle => mret (Some handle)
      | Refused handle => closesocket handle;; connect_loop entries
      end
  end.

Definition Connect (host : string) (port : Z) : M Env unit :=
  net (ValidateLoopbackHost host);;
  c ← gets e_conn;
  if m_connected c then throw ConnectionError "connection is already established"
  else
    result ← net getaddrinfo;
    match result with
    | None => throw ConnectionError "address resolution failed"
    | Some entries =>
        socket_handle ← net (connect_loop entries);
        match socket_handle with
        | None => throw ConnectionError "connection attempt failed"
        | Some handle =>
            conn (modify (fun c =>
              mkConnection (u64 (m_generation c + 1)) true None new_FrameDecoder (Some handle)))
        end
    end.

Definition Disconnect : M Env unit :=
  c ← gets e_conn;
  (match m_socket c with
   | Some handle => net (closesocket handle)
   | None => mret tt
   end);;
  conn (modify (fun c =>
    mkConnection (m_generation c) false None (m_decoder c) None)).

Definition IsConnected (c : Connection) : bool := m_connected c.
Definition Generation (c : Connection) : Z := m_generation c.

Definition SetSessionCrypto (crypto : SessionCrypto) : M Env unit :=
  conn (modify (set_crypto (Some crypto))).
Definition HasSessionCrypto (c : Connection) : bool :=
  match m_crypto c with Some _ => true | None => false end.

(** ** Values on the stream *)

(** [while (sent < frame.size())]: [fuel] is the size of the frame, of which
    each turn that goes on sends at least a byte. *)
Fixpoint send_loop (fuel : nat) (frame : list byte) (sent : nat) : M Net unit :=
  if (sent <? length frame)%nat then
    match fuel with
    | O => out_of_fuel
    | S fuel =>
        written ← send (drop sent frame);
        if written <=? 0 then throw ConnectionClosedError "send failed"
        else send_loop fuel frame (sent + Z.to_nat written)
    end
  else mret tt.

Definition not_established {A} : M Env A :=
  throw ConnectionClosedError "connection is not established".

(** [!m_connected || m_socket == nullptr]. *)
Definition established (c : Connection) : bool :=
  m_connected c && match m_socket c with Some _ => true | None => false end.

Section marshal.
Context {cipher : Evp}.

(** An operation of [m_crypto] where there is one. *)
Definition with_crypto (f : list byte -> M SessionCrypto (list byte)) (payload : list byte)
    : M Env (list byte) :=
  c ← gets e_conn;
  match m_crypto c with
  | None => mret payload
  | Some k =>
      let '(r, k') := f payload k in
      conn (modify (set_crypto (Some k')));;
      lift r
  end.

Definition SendMarshal (value : Value) : M Env unit :=
  c ← gets e_conn;
  if negb (established c) then not_established
  else
    payload ← lift (Encode value);
    payload ← with_crypto Encrypt payload;
    frame ← lift (EncodeFrame payload);
    net (send_loop (length frame) frame 0).

(** [for (;;)]: each turn that goes on receives once. *)
Fixpoint receive_loop (fuel : nat) : M Env Value :=
  match fuel with
  | O => out_of_fuel
  | S fuel =>
      frame ← conn (on m_decoder set_decoder TryPopFrame);
      match frame with
      | Some payload =>
          payload ← with_crypto Decrypt payload;
          lift (Decode payload true)
      | None =>
          received ← net recv;
          match received with
          | PeerClosed => throw ConnectionClosedError "peer closed the connection"
          | TimedOut => throw ConnectionTimeoutError "receive timed out"
          | RecvFailed => throw ConnectionClosedError "receive failed"
          | Received chunk =>
              conn (on m_decoder set_decoder (Push chunk));;
              receive_loop fuel
          end
      end
  end.

Definition ReceiveMarshal : M Env Value :=
  c ← gets e_conn;
  if negb (established c) then not_established
  else
    n ← gets e_net;
    receive_loop (S (length (w_recvs n))).
End marshal.

(** ** Sending *)

Definition total (parts : list Z) : nat := sum_list_with Z.to_nat parts.

(** The outside after sends that took [bytes] and left the script [rest]. *)
Definition after_sends (rest : list Z) (bytes : list byte) (n : Net) : Net :=
  mkNet (w_resolves n) (w_attempts n) rest (w_recvs n) (w_wire n ++ bytes) (w_peer n) (w_closed n).

Lemma send_loop_turn fuel frame sent written rest n :
  (sent < length frame)%nat -> w_sends n = written :: rest ->
  send_loop (S fuel) frame sent n =
    (if written <=? 0 then throw ConnectionClosedError "send failed"
     else send_loop fuel frame (sent + Z.to_nat written))
      (after_sends rest (take (Z.to_nat written) (drop sent frame)) n).
Proof.
  intros Hlt Hs. cbn [send_loop]. rewrite (proj2 (Nat.ltb_lt _ _) Hlt).
  unfold mbind at 1, M_bind at 1, send, mbind at 1, M_bind at 1, get. rewrite Hs. reflexivity.
Qed.

(** Partial sends, each of at least a byte, then [k]: what is left to do. *)
Lemma send_loop_parts fuel frame sent parts rest n :
  Forall (fun p => 0 < p) parts -> (sent + total parts <= length frame)%nat ->
  (length frame - sent <= fuel)%nat -> w_sends n = parts ++ rest ->
  exists fuel', (length frame - (sent + total parts) <= fuel')%nat /\
    send_loop fuel frame sent n =
      send_loop fuel' frame (sent + total parts)
        (after_sends rest (take (total parts) (drop sent frame)) n).
Proof.
  revert fuel sent n. induction parts as [|p parts IH]; intros fuel sent n Hp Ht Hf Hs.
  { exists fuel. unfold total in *. cbn in *. rewrite Nat.add_0_r. split; [done|].
    unfold after_sends. cbn in Hs. rewrite app_nil_r. by destruct n; simpl in *; subst. }
  apply Forall_cons in Hp as [Hp Hps]. unfold total in *. cbn [sum_list_with] in *.
  destruct fuel as [|fuel]; [lia|].
  rewrite (send_loop_turn fuel frame sent p (parts ++ rest)) by (lia || done).
  rewrite (proj2 (Z.leb_gt _ _)) by lia.
  destruct (IH fuel (sent + Z.to_nat p)%nat
    (after_sends (parts ++ rest) (take (Z.to_nat p) (drop sent frame)) n)) as (fuel' & Hf' & ->);
    [done|lia|lia|done|].
  exists fuel'. split; [lia|]. rewrite Nat.add_assoc. f_equal.
  unfold after_sends. cbn. rewrite <- app_assoc. repeat f_equal.
  rewrite <- drop_drop. set (l := drop sent frame).
  rewrite <- (take_drop (Z.to_nat p) (take (Z.to_nat p + sum_list_with Z.to_nat parts) l)).
  rewrite take_take, <- take_drop_commute. repeat f_equal; lia.
Qed.

Lemma send_loop_ok frame parts rest n :
  Forall (fun p => 0 < p) parts -> total parts = length frame -> w_sends n = parts ++ rest ->
  send_loop (length frame) frame 0 n = (Ok tt, after_sends rest frame n).
Proof.
  intros Hp Ht Hs.
  destruct (send_loop_parts (length frame) frame 0 parts rest n) as (fuel' & _ & ->);
    [done|lia|lia|done|].
  cbn [Nat.add]. rewrite Ht, drop_0, take_ge by lia.
  destruct fuel'; cbn [send_loop]; by rewrite Nat.ltb_irrefl.
Qed.

Lemma send_loop_error frame parts r rest n :
  Forall (fun p => 0 < p) parts -> (total parts < length frame)%nat -> r <= 0 ->
  w_sends n = parts ++ r :: rest ->
  send_loop (length frame) frame 0 n =
    (raise ConnectionClosedError "send failed", after_sends rest (take (total parts) frame) n).
Proof.
  intros Hp Ht Hr Hs.
  destruct (send_loop_parts (length frame) frame 0 parts (r :: rest) n) as (fuel' & Hf & ->);
    [done|lia|lia|done|].
  cbn [Nat.add] in *. rewrite drop_0. destruct fuel' as [|fuel']; [lia|].
  rewrite (send_loop_turn _ _ _ r rest) by done. rewrite (proj2 (Z.leb_le _ _) Hr).
  unfold throw, raise, after_sends. cbn. do 2 f_equal.
  replace (Z.to_nat r) with 0%nat by lia. by rewrite take_0, app_nil_r.
Qed.

Section sending.
Context {cipher : Evp}.

(** Encryption where there is a session, as one function of the session. *)
Definition seal (k : option SessionCrypto) (payload : list byte)
    : res (list byte) * option SessionCrypto :=
  match k with
  | None => (Ok payload, None)
  | Some k => let '(r, k') := Encrypt payload k in (r, Some k')
  end.

Definition unseal (k : option SessionCrypto) (payload : list byte)
    : res (list byte) * option SessionCrypto :=
  match k with
  | None => (Ok payload, None)
  | Some k => let '(r, k') := Decrypt payload k in (r, Some k')
  end.

Lemma set_crypto_same c : set_crypto (m_crypto c) c = c.
Proof using Type. by destruct c. Qed.

Lemma with_crypto_Encrypt payload e :
  with_crypto Encrypt payload e =
    (fst (seal (m_crypto (e_conn e)) payload),
     set_conn (set_crypto (snd (seal (m_crypto (e_conn e)) payload)) (e_conn e)) e).
Proof using Type.
  unfold with_crypto, mbind, M_bind, gets. destruct e as [[g b [k|] d s] n]; [|done].
  cbn. by destruct (Encrypt payload k) as [[] ?].
Qed.

Lemma with_crypto_Decrypt payload e :
  with_crypto Decrypt payload e =
    (fst (unseal (m_crypto (e_conn e)) payload),
     set_conn (set_crypto (snd (unseal (m_crypto (e_conn e)) payload)) (e_conn e)) e).
Proof using Type.
  unfold with_crypto, mbind, M_bind, gets. destruct e as [[g b [k|] d s] n]; [|done].
  cbn. by destruct (Decrypt payload k) as [[] ?].
Qed.

(** What [SendMarshal] does before it sends. *)
Lemma SendMarshal_frame e v bs payload k :
  established (e_conn e) = true -> Encode v = Ok bs ->
  seal (m_crypto (e_conn e)) bs = (Ok payload, k) -> legal payload ->
  SendMarshal v e =
    net (send_loop (length (frame payload)) (frame payload) 0)
      (set_conn (set_crypto k (e_conn e)) e).
Proof using Type.
  intros He Henc Hseal Hl. unfold SendMarshal.
  rewrite (bind_eq (gets e_conn) _ e (e_conn e) e eq_refl), He. cbn [negb].
  rewrite (bind_eq _ _ e bs e); [|by unfold lift; rewrite Henc].
  rewrite (bind_eq _ _ e payload (set_conn (set_crypto k (e_conn e)) e));
    [|by rewrite with_crypto_Encrypt, Hseal].
  rewrite (bind_eq _ _ _ (frame payload) (set_conn (set_crypto k (e_conn e)) e)); [done|].
  unfold lift. by rewrite EncodeFrame_legal.
Qed.
End sending.

(** ** Receiving *)

Definition after_recvs (rest : list RecvResult) (n : Net) : Net :=
  mkNet (w_resolves n) (w_attempts n) (w_sends n) rest (w_wire n) (w_peer n) (w_closed n).

(** The environment with another receive buffer and receive script. *)
Definition receiving (buffer : list byte) (rest : list RecvResult) (e : Env) : Env :=
  mkEnv (set_decoder (mkFrameDecoder buffer) (e_conn e)) (after_recvs rest (e_net e)).

Section receiving.
Context {cipher : Evp}.

(** What [ReceiveMarshal] makes of a frame. *)
Definition process (payload : list byte) : M Env Value :=
  payload ← with_crypto Decrypt payload;
  lift (Decode payload true).

Lemma receive_loop_frame fuel payload tail e :
  legal payload -> m_buffer (m_decoder (e_conn e)) = frame payload ++ tail ->
  receive_loop (S fuel) e =
    process payload (set_conn (set_decoder (mkFrameDecoder tail) (e_conn e)) e).
Proof using Type.
  intros Hl Hb. cbn [receive_loop].
  rewrite (bind_eq _ _ e (Some payload)
    (set_conn (set_decoder (mkFrameDecoder tail) (e_conn e)) e)); [done|].
  unfold conn, on. destruct e as [[g b k [buffer] s] n]. cbn [m_buffer m_decoder e_conn] in *. subst buffer.
  by rewrite TryPopFrame_frame.
Qed.

Lemma receive_loop_chunk fuel limit chunk rest e :
  limit + Z.of_nat (length chunk) <= MAX_FRAME_PAYLOAD_BYTES ->
  incomplete limit (m_buffer (m_decoder (e_conn e))) ->
  w_recvs (e_net e) = Received chunk :: rest ->
  receive_loop (S fuel) e =
    receive_loop fuel (receiving (m_buffer (m_decoder (e_conn e)) ++ chunk) rest e).
Proof using Type.
  intros Hroom Hinc Hrecv. destruct e as [[g b k [buffer] s] n].
  cbn [m_buffer m_decoder e_conn e_net receive_loop] in *.
  pose proof (incomplete_length _ _ Hinc) as Hlen.
  rewrite (bind_eq _ _ _ None (mkEnv (mkConnection g b k (mkFrameDecoder buffer) s) n)).
  2:{ unfold conn, on. cbn [m_decoder e_conn]. rewrite (TryPopFrame_incomplete limit) by (lia || done). done. }
  rewrite (bind_eq _ _ _ (Received chunk)
    (mkEnv (mkConnection g b k (mkFrameDecoder buffer) s) (after_recvs rest n))).
  2:{ unfold net, on, recv, mbind, M_bind, get. cbn. by rewrite Hrecv. }
  rewrite (bind_eq _ _ _ tt
    (mkEnv (mkConnection g b k (mkFrameDecoder (buffer ++ chunk)) s) (after_recvs rest n)));
    [done|].
  unfold conn, on, Push, mbind, M_bind, modify, get. cbn.
  rewrite (proj2 (Z.ltb_ge _ _)); [done|].
  rewrite length_app. unfold FRAME_LENGTH_PREFIX_BYTES. lia.
Qed.

(** Chunks that complete a frame: the payload is processed when its last
    byte is in, and what was received after it stays buffered. *)
Lemma receive_loop_chunks limit chunk_limit payload chunks rest tail buffer e :
  Z.of_nat (length payload) <= limit -> 0 <= chunk_limit ->
  limit + chunk_limit <= MAX_FRAME_PAYLOAD_BYTES ->
  Forall (fun c : list byte => Z.of_nat (length c) <= chunk_limit) chunks ->
  m_buffer (m_decoder (e_conn e)) = buffer -> buffer ++ concat chunks = frame payload ++ tail ->
  w_recvs (e_net e) = map Received chunks ++ rest ->
  exists used unused tail', chunks = used ++ unused /\ tail = tail' ++ concat unused /\
    receive_loop (S (length chunks)) e =
      process payload (receiving tail' (map Received unused ++ rest) e).
Proof using Type.
  intros Hp Hc0 Hroom. revert buffer e. induction chunks as [|c chunks IH];
    intros buffer e Hc Hb Hstream Hrecv.
  - cbn [concat] in Hstream. rewrite app_nil_r in Hstream. exists [], [], tail.
    split_and!; [done|by rewrite app_nil_r|].
    rewrite (receive_loop_frame _ payload tail); [|unfold legal; lia|congruence].
    unfold receiving, set_conn. do 2 f_equal. cbn in Hrecv.
    unfold after_recvs. cbn. rewrite <- Hrecv. by destruct (e_net e).
  - apply Forall_cons in Hc as [Hc Hcs].
    destruct (decide (length (frame payload) <= length buffer)%nat) as [Hge|Hlt].
    + exists [], (c :: chunks), (drop (length (frame payload)) buffer).
      pose proof (f_equal (drop (length (frame payload))) Hstream) as Hd.
      rewrite drop_app_length, drop_app_le in Hd by lia.
      pose proof (f_equal (take (length (frame payload))) Hstream) as Ht.
      rewrite take_app_length, take_app_le in Ht by lia.
      split_and!; [done|done|].
      rewrite (receive_loop_frame _ payload (drop (length (frame payload)) buffer));
        [|unfold legal; lia|].
      2:{ rewrite Hb. rewrite <- (take_drop (length (frame payload)) buffer) at 1. by rewrite Ht. }
      unfold receiving, set_conn. do 2 f_equal. unfold after_recvs. cbn.
      change (Received c :: map Received chunks ++ rest)
        with (map Received (c :: chunks) ++ rest). rewrite <- Hrecv. by destruct (e_net e).
    + assert (Hinc : incomplete limit (m_buffer (m_decoder (e_conn e)))).
      { exists payload, (drop (length buffer) (frame payload)). rewrite Hb. split_and!; [done| |].
        - pose proof (f_equal (take (length buffer)) Hstream) as Ht.
          rewrite take_app_length, take_app_le in Ht by lia. rewrite Ht at 1.
          by rewrite take_drop.
        - intros Hd%(f_equal length). rewrite length_drop in Hd. cbn [length] in Hd. lia. }
      cbn [map app] in Hrecv.
      change (S (length (c :: chunks))) with (S (S (length chunks))).
      rewrite (receive_loop_chunk _ limit c (map Received chunks ++ rest)) by (lia || done).
      set (e' := receiving _ _ e).
      destruct (IH (buffer ++ c) e') as (used & unused & tail' & -> & Htail & Hloop);
        [done|by unfold e'; cbn; rewrite Hb|by rewrite <- app_assoc|done|].
      exists (c :: used), unused, tail'. split_and!; [done|done|]. by rewrite Hloop.
Qed.
End receiving.

(** ** Properties *)

(** A frame sent in any number of partial sends. *)
Definition sends_in_parts (frame_bytes : list byte) (parts : list Z) : Prop :=
  Forall (fun p => 0 < p) parts /\ total parts = length frame_bytes.

Section properties.
Context {cipher : Evp} {spec : EvpSpec}.

(** A value is sent whole or the failure is reported: over an established
    connection, the bytes of exactly one frame reach the wire however the
    sends are split; if a send fails first, the call throws, a proper prefix
    of that frame is on the wire, and the session cipher has already moved on. *)
Theorem SendMarshal_wire (e : Env) (v : Value) (bs payload : list byte)
    (k : option SessionCrypto) (parts rest : list Z)
    (Hest : established (e_conn e) = true) (Henc : Encode v = Ok bs)
    (Hseal : seal (m_crypto (e_conn e)) bs = (Ok payload, k)) (Hlegal : legal payload)
    (Hpos : Forall (fun p => 0 < p) parts) :
  (total parts = length (frame payload) -> w_sends (e_net e) = parts ++ rest ->
   SendMarshal v e =
     (Ok tt, mkEnv (set_crypto k (e_conn e)) (after_sends rest (frame payload) (e_net e)))) /\
  ((total parts < length (frame payload))%nat ->
   forall r, r <= 0 -> w_sends (e_net e) = parts ++ r :: rest ->
   SendMarshal v e =
     (raise ConnectionClosedError "send failed",
      mkEnv (set_crypto k (e_conn e))
        (after_sends rest (take (total parts) (frame payload)) (e_net e)))).
Proof using Type.
  split.
  - intros Ht Hs. rewrite (SendMarshal_frame e v bs payload k) by done.
    unfold net, on. cbn [e_net set_conn]. by rewrite (send_loop_ok _ parts rest).
  - intros Ht r Hr Hs. rewrite (SendMarshal_frame e v bs payload k) by done.
    unfold net, on. cbn [e_net set_conn]. by rewrite (send_loop_error _ parts r rest).
Qed.

Lemma unseal_seal k bs payload k' :
  seal k bs = (Ok payload, k') -> unseal k payload = (Ok bs, k').
Proof using All.
  destruct k as [k|]; [|by intros [= <- <-]]. unfold seal, unseal.
  destruct (Encrypt bs k) as [r k1] eqn:Henc. intros [= -> <-].
  by rewrite (Encrypt_Decrypt _ _ _ _ Henc).
Qed.

(** Exposes the first step of a run, in [H] and in the goal. *)
Ltac bind_in H :=
  unfold mbind at 1 in H; unfold M_bind at 1 in H; unfold mbind at 1; unfold M_bind at 1.

Lemma receive_loop_more fuel extra e r :
  receive_loop fuel e = r -> (match fst r with OutOfFuel => False | _ => True end) ->
  receive_loop (fuel + extra) e = r.
Proof using Type.
  revert e r. induction fuel as [|fuel IH]; intros e r Hr Hdone; [by subst r|].
  cbn [Nat.add receive_loop] in *. bind_in Hr.
  destruct (conn _ e) as [[[payload|]|ex| |] e1]; try done.
  bind_in Hr.
  destruct (net recv e1) as [[[chunk| | |]|ex| |] e2]; try done.
  bind_in Hr.
  destruct (conn _ e2) as [[[]|ex| |] e3]; try done. by apply IH.
Qed.

Lemma process_payload e bs payload k v :
  unseal (m_crypto (e_conn e)) payload = (Ok bs, k) -> Decode bs true = Ok v ->
  process payload e = (Ok v, set_conn (set_crypto k (e_conn e)) e).
Proof using Type.
  intros Hu Hd. unfold process.
  rewrite (bind_eq _ _ e bs (set_conn (set_crypto k (e_conn e)) e));
    [|by rewrite with_crypto_Decrypt, Hu].
  unfold lift. by rewrite Hd.
Qed.

(** C32. Delivery: what one end sends, the other receives, under these conditions. Both
    ends are connected, their ciphers are in the same state, the receiver has
    nothing buffered, and the value is well formed and encodes to a stream within
    the codec's limit, of which the payload, sealed, leaves room for one receive
    (64 KiB) below the largest payload of a frame. Then a value sent in any number
    of parts and received in any chunks of at most the receive size, followed by
    anything, is returned by [ReceiveMarshal] in canonical form; the ciphers
    are again in the same state, and what was received beyond the frame
    stays in the buffer, in order, before what is still to be received. *)
Theorem Send_Receive (a b : Env) (v : Value) (bs payload after : list byte)
    (k : option SessionCrypto) (parts sends : list Z) (chunks : list (list byte))
    (rest : list RecvResult)
    (Hv : value_ok v) (Henc : Encode v = Ok bs)
    (Hlen : Z.of_nat (length bs) <= MAX_STREAM_BYTES)
    (Ha : established (e_conn a) = true) (Hb : established (e_conn b) = true)
    (Hkeys : m_crypto (e_conn b) = m_crypto (e_conn a))
    (Hempty : m_buffer (m_decoder (e_conn b)) = [])
    (Hseal : seal (m_crypto (e_conn a)) bs = (Ok payload, k))
    (Hsmall : Z.of_nat (length payload) <= MAX_FRAME_PAYLOAD_BYTES - kRecvChunkBytes)
    (Hparts : sends_in_parts (frame payload) parts)
    (Hsends : w_sends (e_net a) = parts ++ sends)
    (Hchunks : Forall (fun c => Z.of_nat (length c) <= kRecvChunkBytes) chunks)
    (Hstream : concat chunks = frame payload ++ after)
    (Hrecvs : w_recvs (e_net b) = map Received chunks ++ rest) :
  SendMarshal v a =
    (Ok tt, mkEnv (set_crypto k (e_conn a)) (after_sends sends (frame payload) (e_net a))) /\
  exists unread tail,
    after = tail ++ concat unread /\
    ReceiveMarshal b =
      (Ok (canon v),
       mkEnv (set_crypto k (set_decoder (mkFrameDecoder tail) (e_conn b)))
             (after_recvs (map Received unread ++ rest) (e_net b))).
Proof using All.
  assert (Hlegal : legal payload)
    by (unfold legal, MAX_FRAME_PAYLOAD_BYTES, kRecvChunkBytes in *; lia).
  destruct Hparts as [Hpos Htotal]. split.
  { rewrite (SendMarshal_frame a v bs payload k) by done.
    unfold net, on. cbn [e_net set_conn]. by rewrite (send_loop_ok _ parts sends). }
  destruct (receive_loop_chunks (MAX_FRAME_PAYLOAD_BYTES - kRecvChunkBytes) kRecvChunkBytes
    payload chunks rest after [] b) as (used & unread & tail & _ & Hafter & Hloop);
    [done|unfold kRecvChunkBytes; lia|lia|done..|].
  exists unread, tail. split; [done|].
  unfold ReceiveMarshal. rewrite (bind_eq (gets e_conn) _ b (e_conn b) b eq_refl), Hb.
  cbn [negb]. rewrite (bind_eq (gets e_net) _ b (e_net b) b eq_refl).
  replace (S (length (w_recvs (e_net b)))) with (S (length chunks) + length rest)%nat
    by (rewrite Hrecvs, length_app, length_map; lia).
  pose proof (Decode_Encode v bs [] true Hv Henc) as Hdec. rewrite app_nil_r in Hdec.
  rewrite (process_payload _ bs payload k (canon v)) in Hloop;
    [|cbn; rewrite Hkeys; by apply unseal_seal|by apply Hdec].
  by apply (receive_loop_more (S (length chunks)) (length rest)).
Qed.
End properties.

(** ** What a call that returned has done *)

Lemma conn_Ok {A} (m : M Connection A) e a e' :
  conn m e = (Ok a, e') -> exists c, m (e_conn e) = (Ok a, c) /\ e' = mkEnv c (e_net e).
Proof. unfold conn, on. destruct (m (e_conn e)) as [r c]. intros [= -> <-]. by exists c. Qed.

Lemma net_Ok {A} (m : M Net A) e a e' :
  net m e = (Ok a, e') -> exists n, m (e_net e) = (Ok a, n) /\ e' = mkEnv (e_conn e) n.
Proof. unfold net, on. destruct (m (e_net e)) as [r n]. intros [= -> <-]. by exists n. Qed.

Lemma send_loop_Ok fuel frame sent n n' :
  send_loop fuel frame sent n = (Ok tt, n') ->
  w_wire n' = w_wire n ++ drop sent frame /\ w_recvs n' = w_recvs n.
Proof.
  revert sent n. induction fuel as [|fuel IH]; intros sent n; cbn [send_loop];
    destruct (Nat.ltb_spec sent (length frame)) as [Hlt|Hge]; try done;
    try (intros [= <-]; by rewrite drop_ge, app_nil_r).
  intros H. apply bind_Ok in H as (written & n1 & Hs & H).
  unfold send, mbind, M_bind, get in Hs. destruct (w_sends n) as [|w rest]; [done|].
  injection Hs as -> <-. destruct (written <=? 0); [done|].
  apply IH in H as [-> ->]. split; [|done]. cbn [w_wire]. rewrite <- app_assoc, <- drop_drop.
  by rewrite take_drop.
Qed.

Lemma Push_Ok chunk d d' : Push chunk d = (Ok tt, d') -> m_buffer d' = m_buffer d ++ chunk.
Proof.
  unfold Push. intros H. apply bind_Ok in H as ([] & d1 & [= <-] & H).
  apply bind_Ok in H as (d2 & d3 & [= <- <-] & H). cbn zeta in H.
  destruct (_ <? _); [done|]. by injection H as <-.
Qed.

(** The bytes that came in from [n] to [n'], in order. *)
Definition came_in (n n' : Net) (bytes : list byte) : Prop :=
  exists chunks, w_recvs n = map Received chunks ++ w_recvs n' /\ bytes = concat chunks.

Lemma came_in_refl n n' : w_recvs n' = w_recvs n -> came_in n n' [].
Proof. intros Hr. exists []. by rewrite Hr. Qed.

Lemma came_in_trans n1 n2 n3 l l' :
  came_in n1 n2 l -> came_in n2 n3 l' -> came_in n1 n3 (l ++ l').
Proof.
  intros (c & Hc & ->) (c' & Hc' & ->). exists (c ++ c').
  by rewrite Hc, Hc', map_app, concat_app, <- app_assoc.
Qed.

Section returned.
Context {cipher : Evp}.

Lemma with_crypto_Ok f sealed payload e p e' :
  (forall p e, with_crypto f p e =
     (fst (sealed (m_crypto (e_conn e)) p), set_conn (set_crypto (snd (sealed (m_crypto (e_conn e)) p)) (e_conn e)) e)) ->
  with_crypto f payload e = (Ok p, e') ->
  exists k, sealed (m_crypto (e_conn e)) payload = (Ok p, k) /\
    e' = set_conn (set_crypto k (e_conn e)) e.
Proof using Type.
  intros Hf H. rewrite Hf in H. destruct (sealed _ payload) as [r k]. injection H as <- <-. by exists k.
Qed.

(** A send that returned put the frame of the value on the wire. *)
Lemma SendMarshal_Ok v e e' :
  SendMarshal v e = (Ok tt, e') ->
  exists bs payload k, Encode v = Ok bs /\ seal (m_crypto (e_conn e)) bs = (Ok payload, k) /\
    legal payload /\ e_conn e' = set_crypto k (e_conn e) /\
    w_wire (e_net e') = w_wire (e_net e) ++ frame payload /\ w_recvs (e_net e') = w_recvs (e_net e).
Proof using Type.
  intros H. unfold SendMarshal in H. apply bind_Ok in H as (c & e1 & [= <- <-] & H).
  destruct (negb (established (e_conn e))); [done|].
  apply bind_Ok in H as (bs & e1 & Henc & H). unfold lift in Henc. injection Henc as Henc <-.
  apply bind_Ok in H as (payload & e2 & Hs & H).
  apply (with_crypto_Ok _ seal) in Hs as (k & Hs & ->); [|apply with_crypto_Encrypt].
  apply bind_Ok in H as (fr & e3 & Hf & H). unfold lift in Hf. injection Hf as [Hl ->]%EncodeFrame_Ok <-.
  apply net_Ok in H as (n & H & ->). apply send_loop_Ok in H as [Hw Hr]. by exists bs, payload, k.
Qed.

Lemma receive_loop_Ok fuel e v e' :
  receive_loop fuel e = (Ok v, e') ->
  exists payload bs k bytes, legal payload /\
    unseal (m_crypto (e_conn e)) payload = (Ok bs, k) /\ Decode bs true = Ok v /\
    came_in (e_net e) (e_net e') bytes /\ w_wire (e_net e') = w_wire (e_net e) /\
    m_buffer (m_decoder (e_conn e)) ++ bytes = frame payload ++ m_buffer (m_decoder (e_conn e')) /\
    m_crypto (e_conn e') = k.
Proof using Type.
  revert e. induction fuel as [|fuel IH]; intros e; [done|]. cbn [receive_loop]. intros H.
  apply bind_Ok in H as (fr & e1 & Hpop & H). apply conn_Ok in Hpop as (c & Hpop & ->).
  unfold on in Hpop. pose proof (TryPopFrame_spec (m_decoder (e_conn e))) as Hspec.
  destruct (TryPopFrame (m_decoder (e_conn e))) as [r d]. injection Hpop as -> <-.
  destruct fr as [payload|].
  - destruct Hspec as (bytes & [Hl ->]%EncodeFrame_Ok & Hb).
    apply bind_Ok in H as (bs & e2 & Hu & H). apply (with_crypto_Ok _ unseal) in Hu as (k & Hu & ->);
      [|apply with_crypto_Decrypt].
    unfold lift in H. injection H as Hd <-. exists payload, bs, k, [].
    split_and!; [done..|by apply came_in_refl|done| |done]. by rewrite app_nil_r.
  - destruct Hspec as [-> _]. apply bind_Ok in H as (r & e2 & Hr & H).
    apply net_Ok in Hr as (n & Hr & ->). unfold recv, mbind, M_bind, get in Hr. cbn [e_net] in Hr.
    destruct (w_recvs (e_net e)) as [|r' rest] eqn:Hrecvs; [done|]. injection Hr as -> <-.
    destruct r as [chunk| | |]; try done.
    apply bind_Ok in H as ([] & e3 & Hp & H). apply conn_Ok in Hp as (c & Hp & ->).
    unfold on in Hp. cbn [e_conn m_decoder set_decoder] in Hp.
    destruct (Push chunk (m_decoder (e_conn e))) as [r d] eqn:Hpush. injection Hp as -> <-.
    apply Push_Ok in Hpush.
    apply IH in H as (payload & bs & k & bytes & Hl & Hu & Hd & Hin & Hw & Hb & Hk).
    cbn [e_net e_conn w_wire w_recvs m_crypto set_decoder m_decoder m_buffer] in *.
    exists payload, bs, k, (chunk ++ bytes). split_and!; [done..| |done| |done].
    + destruct Hin as (cs & Hcs & ->). exists (chunk :: cs). cbn in *. by rewrite Hrecvs, Hcs.
    + by rewrite app_assoc, <- Hpush.
Qed.

(** A receive that returned took one frame off what had come in. *)
Lemma ReceiveMarshal_Ok e v e' :
  ReceiveMarshal e = (Ok v, e') ->
  exists payload bs k bytes, legal payload /\
    unseal (m_crypto (e_conn e)) payload = (Ok bs, k) /\ Decode bs true = Ok v /\
    came_in (e_net e) (e_net e') bytes /\ w_wire (e_net e') = w_wire (e_net e) /\
    m_buffer (m_decoder (e_conn e)) ++ bytes = frame payload ++ m_buffer (m_decoder (e_conn e')) /\
    m_crypto (e_conn e') = k.
Proof using Type.
  intros H. unfold ReceiveMarshal in H. apply bind_Ok in H as (c & e1 & [= <- <-] & H).
  destruct (negb (established (e_conn e))); [done|].
  apply bind_Ok in H as (n & e1 & [= <- <-] & H). by eapply receive_loop_Ok.
Qed.
End returned.

(** ** Connecting *)

Definition loopback_name (host : string) : Prop :=
  host = "127.0.0.1" \/ host = "localhost" \/ host = "::1".

(** The policy's condition, on the resolver's first answer. *)
Definition passes_policy (host : string) (n : Net) : Prop :=
  loopback_name host \/
  exists entries, head (w_resolves n) = Some (Some entries) /\ existsb is_loopback entries = true.

(** A system call's outcome keeps the connection. *)
Lemma net_bind {A B} (m : M Net A) (k : A -> M Env B) e :
  (net m ≫= k) e =
    match m (e_net e) with
    | (Ok a, n) => k a (set_net n e)
    | (Throw ex, n) => (Throw ex, set_net n e)
    | (Undefined, n) => (Undefined, set_net n e)
    | (OutOfFuel, n) => (OutOfFuel, set_net n e)
    end.
Proof. unfold net, on, mbind, M_bind. by destruct (m (e_net e)) as [[] ?]. Qed.

Lemma ValidateLoopbackHost_spec host n :
  match ValidateLoopbackHost host n with
  | (Ok _, _) => passes_policy host n
  | (Throw ex, _) => exn_cls ex = ConnectionLoopbackError
  | (Undefined, _) => False
  | (OutOfFuel, _) => w_resolves n = []
  end.
Proof.
  unfold ValidateLoopbackHost, IsLoopbackAddress, getaddrinfo, mbind, M_bind, get.
  destruct (_ || _) eqn:Hname.
  - cbn. left. unfold loopback_name. repeat (apply orb_true_iff in Hname as [Hname|Hname]);
      apply bool_decide_eq_true in Hname; auto.
  - destruct (w_resolves n) as [|[entries|] rest] eqn:Hr; [done| |done]. cbn.
    destruct (existsb is_loopback entries) eqn:Hex; [|done]. cbn.
    right. exists entries. by rewrite Hr.
Qed.

Lemma connect_loop_defined entries n :
  match connect_loop entries n with
  | (Ok _, _) | (OutOfFuel, _) => True
  | (Throw _, _) | (Undefined, _) => False
  end.
Proof.
  revert n. induction entries as [|entry entries IH]; intros n; [done|]. cbn [connect_loop].
  unfold attempt, closesocket, mbind, M_bind, get, modify.
  destruct (w_attempts n) as [|[|h|h] rest]; [done|apply IH| |done].
  unfold mret, M_ret. apply IH.
Qed.

(** The outcomes of [Connect]. *)
Lemma Connect_outcome (host : string) (port : Z) (e : Env) :
  match Connect host port e with
  | (Ok _, e') =>
      m_connected (e_conn e) = false /\ passes_policy host (e_net e) /\
      exists handle, e_conn e' =
        mkConnection (u64 (m_generation (e_conn e) + 1)) true None new_FrameDecoder (Some handle)
  | (Throw ex, e') =>
      e_conn e' = e_conn e /\
      (exn_cls ex = ConnectionLoopbackError \/ exn_cls ex = ConnectionError)
  | (Undefined, _) => False
  | (OutOfFuel, e') => e_conn e' = e_conn e
  end.
Proof.
  unfold Connect. rewrite net_bind. pose proof (ValidateLoopbackHost_spec host (e_net e)) as Hv.
  destruct (ValidateLoopbackHost host (e_net e)) as [[[]|ex| |] n1]; [|by auto|done..].
  rewrite (bind_eq (gets e_conn) _ (set_net n1 e) (e_conn e) (set_net n1 e) eq_refl).
  destruct (m_connected (e_conn e)) eqn:Hc; [by split; [|right]|].
  rewrite net_bind. cbn [e_net set_net]. unfold getaddrinfo at 1. unfold mbind at 1, M_bind at 1, get at 1.
  destruct (w_resolves n1) as [|[entries|] rest]; [done| |by split; [|right]].
  unfold mbind at 1, M_bind at 1, modify at 1. cbn [mret M_ret].
  rewrite net_bind. cbn [e_net set_net].
  set (n2 := mkNet _ _ _ _ _ _ _). pose proof (connect_loop_defined entries n2) as Hl.
  destruct (connect_loop entries n2) as [[[handle|]|ex| |] n3]; [|by split; [|right]|done..].
  cbn. split_and!; [done|done|]. by exists handle.
Qed.

(** Connecting neither sends nor receives. *)
Definition quiet {A} (m : M Net A) : Prop :=
  forall n r n', m n = (r, n') -> w_wire n' = w_wire n /\ w_recvs n' = w_recvs n.

Lemma calm_bind {A B} (m : M Net A) (k : A -> M Net B) :
  quiet m -> (forall a, quiet (k a)) -> quiet (m ≫= k).
Proof.
  intros Hm Hk n r n' H. unfold mbind, M_bind in H.
  destruct (m n) as [[a|ex| |] n1] eqn:Hn; try (injection H as <- <-; by eapply Hm).
  apply Hm in Hn as [Hw Hr]. apply Hk in H as [-> ->]. by split.
Qed.

Lemma calm_ret {A} (r : res A) : quiet (lift r).
Proof. intros n r' n' [= _ <-]. by split. Qed.

Lemma quiet_getaddrinfo : quiet getaddrinfo.
Proof.
  intros n r n'. unfold getaddrinfo, mbind, M_bind, get. by destruct (w_resolves n); intros [= _ <-].
Qed.

Lemma quiet_ValidateLoopbackHost host : quiet (ValidateLoopbackHost host).
Proof.
  apply calm_bind; [|intros b; by destruct (negb b); apply (calm_ret (A := unit) (_ : res unit))].
  unfold IsLoopbackAddress. destruct (_ || _); [apply (calm_ret (Ok true))|].
  apply calm_bind; [apply quiet_getaddrinfo|].
  intros [entries|]; [apply (calm_ret (Ok _))|apply (calm_ret (Ok false))].
Qed.

Lemma quiet_connect_loop entries : quiet (connect_loop entries).
Proof.
  induction entries as [|entry entries IH]; [apply (calm_ret (Ok None))|]. cbn [connect_loop].
  apply calm_bind.
  - intros n r n'. unfold attempt, mbind, M_bind, get. by destruct (w_attempts n); intros [= _ <-].
  - intros [|h|h]; [done| |apply (calm_ret (Ok (Some h)))].
    apply calm_bind; [by intros n r n' [= _ <-]|done].
Qed.

Lemma Connect_quiet host port e e' :
  Connect host port e = (Ok tt, e') ->
  w_wire (e_net e') = w_wire (e_net e) /\ w_recvs (e_net e') = w_recvs (e_net e).
Proof.
  unfold Connect. intros H. apply bind_Ok in H as (? & e1 & H1 & H).
  apply net_Ok in H1 as (n1 & H1%quiet_ValidateLoopbackHost & ->).
  apply bind_Ok in H as (c & e2 & [= <- <-] & H). destruct (m_connected _); [done|].
  apply bind_Ok in H as (r & e2 & H2 & H). apply net_Ok in H2 as (n2 & H2%quiet_getaddrinfo & ->).
  destruct r as [entries|]; [|done]. apply bind_Ok in H as (h & e3 & H3 & H).
  apply net_Ok in H3 as (n3 & H3%quiet_connect_loop & ->). destruct h; [|done].
  apply conn_Ok in H as (c & _ & ->). cbn [e_net] in *. destruct H1, H2, H3. split; congruence.
Qed.

(** Connecting either starts afresh or changes nothing: on success the
    generation has advanced by one (modulo its width), the receive buffer and
    the session cipher of the previous connection are gone, the connection was
    not established before and the host passed the loopback policy; on every
    exception the connection is exactly as it was. *)
Theorem Connect_fresh_or_unchanged (host : string) (port : Z) (e : Env) :
  match Connect host port e with
  | (Ok _, e') =>
      m_connected (e_conn e) = false /\ passes_policy host (e_net e) /\
      exists handle, e_conn e' =
        mkConnection (u64 (m_generation (e_conn e) + 1)) true None new_FrameDecoder (Some handle)
  | (Throw ex, e') =>
      e_conn e' = e_conn e /\
      (exn_cls ex = ConnectionLoopbackError \/ exn_cls ex = ConnectionError)
  | (Undefined, _) => False
  | (OutOfFuel, e') => e_conn e' = e_conn e
  end.
Proof. exact (Connect_outcome host port e). Qed.

(** The policy does not bind the peer: the host is validated by one
    resolution and one loopback entry in it suffices, and then every entry of
    a second resolution is tried in order, so a host name can pass the policy
    and be connected to an address that is not a loopback address. *)
Theorem Connect_non_loopback_peer :
  exists host port e e' peer,
    e_conn e = new_Connection /\ Connect host port e = (Ok tt, e') /\
    w_peer (e_net e') = Some peer /\ is_loopback peer = false.
Proof.
  set (answer := [Inet 134744072; Inet 2130706433]).
  exists "eve.example", 26000,
    (mkEnv new_Connection (mkNet [Some answer; Some answer] [Accepted 5] [] [] [] None [])).
  eexists. exists (Inet 134744072). split_and!; [done|vm_compute; reflexivity|done|done].
Qed.

(** ** Witnesses *)

Definition example_conn (k : option SessionCrypto) : Connection :=
  mkConnection 1 true k new_FrameDecoder (Some 3).

Lemma SendMarshal_wire_witness :
  let e := mkEnv (example_conn None) (mkNet [] [] [4; 6; 0] [] [x01] None []) in
  let bytes := frame [x7e; x00; x00; x00; x00; x01] in
  SendMarshal (cipher := PaddingOnly.evp) VNone e =
    (Ok tt, mkEnv (e_conn e) (after_sends [0] bytes (e_net e))) /\
  SendMarshal (cipher := PaddingOnly.evp) VNone
      (mkEnv (example_conn None) (mkNet [] [] [4; -1] [] [] None [])) =
    (raise ConnectionClosedError "send failed",
     mkEnv (example_conn None) (mkNet [] [] [] [] (take 4 bytes) None [])).
Proof.
  split.
  - apply (SendMarshal_wire (cipher := PaddingOnly.evp)
      (mkEnv (example_conn None) (mkNet [] [] [4; 6; 0] [] [x01] None [])) VNone
      [x7e; x00; x00; x00; x00; x01] [x7e; x00; x00; x00; x00; x01] None [4; 6] [0]);
      try reflexivity; [done|by repeat constructor].
  - apply (SendMarshal_wire (cipher := PaddingOnly.evp)
      (mkEnv (example_conn None) (mkNet [] [] [4; -1] [] [] None [])) VNone
      [x7e; x00; x00; x00; x00; x01] [x7e; x00; x00; x00; x00; x01] None [4] [])
      with (r := -1); try reflexivity; [done|by repeat constructor|simpl; lia|lia].
Defined.

Definition example_payload : list byte :=
  PaddingOnly.pad [x7e; x00; x00; x00; x00; x09].

Lemma Send_Receive_witness :
  let k := Some (mkSessionCrypto (replicate 32 x55) example_payload) in
  let a := mkEnv (example_conn (Some example_session)) (mkNet [] [] [13; 7] [] [] None []) in
  let chunks := [take 9 (frame example_payload); drop 9 (frame example_payload) ++ [x01]; [x02]] in
  let b := mkEnv (example_conn (Some example_session))
             (mkNet [] [] [] (map Received chunks ++ [PeerClosed]) [] None []) in
  SendMarshal (cipher := PaddingOnly.evp) (VInt 1) a =
    (Ok tt, mkEnv (set_crypto k (e_conn a)) (after_sends [] (frame example_payload) (e_net a))) /\
  exists unread tail,
    [x01; x02] = tail ++ concat unread /\
    ReceiveMarshal (cipher := PaddingOnly.evp) b =
      (Ok (VInt 1),
       mkEnv (set_crypto k (set_decoder (mkFrameDecoder tail) (e_conn b)))
             (after_recvs (map Received unread ++ [PeerClosed]) (e_net b))).
Proof.
  set (chunks := [take 9 (frame example_payload); drop 9 (frame example_payload) ++ [x01]; [x02]]).
  apply (Send_Receive (cipher := PaddingOnly.evp) (spec := PaddingOnly.evp_spec)
    (mkEnv (example_conn (Some example_session)) (mkNet [] [] [13; 7] [] [] None []))
    (mkEnv (example_conn (Some example_session))
       (mkNet [] [] [] (map Received chunks ++ [PeerClosed]) [] None []))
    (VInt 1) [x7e; x00; x00; x00; x00; x09] example_payload [x01; x02]
    (Some (mkSessionCrypto (replicate 32 x55) example_payload)) [13; 7] [] chunks [PeerClosed]);
    try reflexivity; try done; try (apply (bool_decide_unpack _); by vm_compute).
Defined.
