(* ===== verification/Client.v ===== *)
(** * The client

    [src/src/network/client.h] and [client.cpp]: the retry loop of [Connect],
    the login sequence of [EstablishSession], the packets the client sends and
    what it does with those it receives. Time, sleeping and the console are
    the outside, like the network: the clock is a script of readings in
    nanoseconds, and sleeps, prints and calls of the response handler are
    recorded. *)

From stdpp Require Import base numbers list option strings.
From Stdlib Require Import Strings.Byte.
From S2P Require Import Prelude Value Encoder Decoder DecoderSafety MarshalRoundtrip Framing SessionCrypto Packet Dispatcher Handshake Connection.

#[local] Open Scope Z_scope.

Definition DEFAULT_HEARTBEAT_INTERVAL_MS : Z := 30000.
Definition DEFAULT_RECONNECT_DELAY_MS : Z := 1000.
Definition MAX_RECONNECT_ATTEMPTS : Z := 3.

Definition kPingReqType : string := "macho.PingReq".
Definition kPingRspType : string := "macho.PingRsp".
Definition kCallReqType : string := "macho.CallReq".
Definition kNotificationType : string := "macho.Notification".

(** ** Data *)

(** The members [EstablishSession] works on: the connection and the handshake. *)
Record Login := mkLogin { l_env : Env; l_handshake : Handshake }.

(** A line on the console: its event and the packet type it names. *)
Record Line := mkLine { line_event : string; line_type : string }.

Record Outside := mkOutside
  { o_clock : list Z; o_sleeps : list Z; o_lines : list Line;
    o_responses : list (Packet * option Value) }.

Record Client := mkClient
  { m_host : string; m_port : Z; m_login : Login; m_dispatcher : Dispatcher;
    m_heartbeat_interval_ms : Z; m_reconnect_attempts : Z; m_reconnect_delay_ms : Z;
    m_last_heartbeat : Z; m_call_rsp_handler : option (Packet -> option Value -> res unit);
    c_connected : bool; c_outside : Outside }.

(** The constructor. *)
Definition new_Client (host : string) (port : Z) (n : Net) (o : Outside) : Client :=
  mkClient host port (mkLogin (mkEnv new_Connection n) new_Handshake) new_Dispatcher
    DEFAULT_HEARTBEAT_INTERVAL_MS MAX_RECONNECT_ATTEMPTS DEFAULT_RECONNECT_DELAY_MS 0 None
    false o.

Definition set_env (e : Env) (l : Login) : Login := mkLogin e (l_handshake l).
Definition set_handshake (h : Handshake) (l : Login) : Login := mkLogin (l_env l) h.

Definition set_login (l : Login) (c : Client) : Client :=
  mkClient (m_host c) (m_port c) l (m_dispatcher c) (m_heartbeat_interval_ms c)
    (m_reconnect_attempts c) (m_reconnect_delay_ms c) (m_last_heartbeat c)
    (m_call_rsp_handler c) (c_connected c) (c_outside c).
Definition set_outside (o : Outside) (c : Client) : Client :=
  mkClient (m_host c) (m_port c) (m_login c) (m_dispatcher c) (m_heartbeat_interval_ms c)
    (m_reconnect_attempts c) (m_reconnect_delay_ms c) (m_last_heartbeat c)
    (m_call_rsp_handler c) (c_connected c) o.
Definition set_connected (b : bool) (c : Client) : Client :=
  mkClient (m_host c) (m_port c) (m_login c) (m_dispatcher c) (m_heartbeat_interval_ms c)
    (m_reconnect_attempts c) (m_reconnect_delay_ms c) (m_last_heartbeat c)
    (m_call_rsp_handler c) b (c_outside c).
Definition set_last_heartbeat (t : Z) (c : Client) : Client :=
  mkClient (m_host c) (m_port c) (m_login c) (m_dispatcher c) (m_heartbeat_interval_ms c)
    (m_reconnect_attempts c) (m_reconnect_delay_ms c) t
    (m_call_rsp_handler c) (c_connected c) (c_outside c).

Definition SetHeartbeatInterval (interval_ms : Z) (c : Client) : Client :=
  mkClient (m_host c) (m_port c) (m_login c) (m_dispatcher c) interval_ms
    (m_reconnect_attempts c) (m_reconnect_delay_ms c) (m_last_heartbeat c)
    (m_call_rsp_handler c) (c_connected c) (c_outside c).
Definition SetReconnectPolicy (max_attempts delay_ms : Z) (c : Client) : Client :=
  mkClient (m_host c) (m_port c) (m_login c) (m_dispatcher c) (m_heartbeat_interval_ms c)
    max_attempts delay_ms (m_last_heartbeat c)
    (m_call_rsp_handler c) (c_connected c) (c_outside c).
Definition SetCallRspHandler (handler : option (Packet -> option Value -> res unit)) (c : Client)
    : Client :=
  mkClient (m_host c) (m_port c) (m_login c) (m_dispatcher c) (m_heartbeat_interval_ms c)
    (m_reconnect_attempts c) (m_reconnect_delay_ms c) (m_last_heartbeat c)
    handler (c_connected c) (c_outside c).

(** Operations of the members. *)
Definition on_conn {A} (m : M Env A) : M Login A := on l_env set_env m.
Definition on_handshake {A} (m : M Handshake A) : M Login A := on l_handshake set_handshake m.
Definition login {A} (m : M Login A) : M Client A := on m_login set_login m.
Definition outside {A} (m : M Outside A) : M Client A := on c_outside set_outside m.

Definition steady_now : M Outside Z :=
  o ← get;
  match o_clock o with
  | [] => out_of_fuel
  | t :: rest =>
      modify (fun o => mkOutside rest (o_sleeps o) (o_lines o) (o_responses o));; mret t
  end.

Definition sleep_for (ms : Z) : M Outside unit :=
  modify (fun o => mkOutside (o_clock o) (o_sleeps o ++ [ms]) (o_lines o) (o_responses o)).

Definition print (event type_string : string) : M Outside unit :=
  modify (fun o => mkOutside (o_clock o) (o_sleeps o) (o_lines o ++ [mkLine event type_string])
                     (o_responses o)).

Definition client_connection (c : Client) : Connection := e_conn (l_env (m_login c)).
Definition IsConnected (c : Client) : bool := c_connected c.
Definition Generation (c : Client) : Z := m_generation (client_connection c).

(** ** Packets the client makes *)

Definition MakeAnyAddress (service : string) : Address :=
  mkAddress AddressType.Any 0 0 service "".

Definition request (type_string : string) (type : Z) (source : Address) (payload : Value) : Packet :=
  mkPacket type_string type source (MakeAnyAddress "machoNet") 0 (Some payload) None 0.

Definition PingPacket : Packet :=
  request kPingReqType MessageType.PingReq (MakeAnyAddress "ping") (VTuple []).

Definition NotificationPacket (type : string) (args : list Value) : Packet :=
  request kNotificationType MessageType.Notification (MakeAnyAddress type) (VTuple args).

Definition CallPacket (service method : string) (args : list Value) (kwargs : option Value)
    : res Packet :=
  body ← Encode (VTuple [VString service; VString method; VTuple args; default VNone kwargs]);
  Ok (request kCallReqType MessageType.CallReq (MakeAnyAddress service)
        (VTuple [VTuple [VInt 0; VSubStream body]])).

Definition PingResponse (packet : Packet) : Packet :=
  mkPacket kPingRspType MessageType.PingRsp (dest packet) (source packet) (user_id packet)
    (Some (VTuple [])) None 0.

Section operations.
Context {cipher : Evp}.

(** ** Logging in *)

Definition client_version : VersionExchange :=
  mkVersionExchange 170472 496 0 kClientVersion 3396210 "V24.01@ccp".
Definition client_crypto : CryptoRequest :=
  mkCryptoRequest "placebo" (replicate 32 x55) (replicate 16 x66) true true.
Definition client_challenge : LoginChallenge := mkLoginChallenge "ithax" "ithax" "EN" 0.
Definition client_result : HandshakeResult :=
  mkHandshakeResult "55087" "" [x74; x04; x00; x00; x00; x4e; x6f; x6e; x65].

Definition EstablishSession (host : string) (port : Z) : M Login unit :=
  on_conn (Connect host port);;
  on_handshake (modify (fun _ => new_Handshake));;
  server_version ← on_conn ReceiveMarshal;
  on_handshake (OnVersionExchangeServer server_version);;
  on_conn (SendMarshal (BuildVersionExchangeClient client_version));;
  on_conn (SendMarshal (BuildVkCommand "ithax-vip-key"));;
  on_handshake OnVkSent;;
  on_conn (SendMarshal (BuildCryptoRequest client_crypto));;
  on_handshake OnCryptoRequestSent;;
  ok_cc ← on_conn ReceiveMarshal;
  on_handshake (OnOkCc ok_cc);;
  on_conn (SetSessionCrypto
    (mkSessionCrypto (session_key client_crypto) (session_iv client_crypto)));;
  on_conn (SendMarshal (BuildLoginChallenge client_challenge));;
  on_handshake OnLoginChallengeSent;;
  password_version ← on_conn ReceiveMarshal;
  on_handshake (OnPasswordVersion password_version);;
  server_handshake ← on_conn ReceiveMarshal;
  on_handshake (OnCryptoServerHandshake server_handshake);;
  on_conn (SendMarshal (BuildHandshakeResult client_result));;
  on_handshake OnHandshakeResultSent;;
  ack ← on_conn ReceiveMarshal;
  on_handshake (OnCryptoHandshakeAck ack);;
  l ← get;
  if negb (IsComplete (l_handshake l))
  then throw ClientError "handshake did not complete"
  else mret tt.

(** The body of the [try] block of [Connect]. *)
Definition try_session : M Client unit :=
  c ← get;
  login (EstablishSession (m_host c) (m_port c));;
  modify (set_connected true);;
  now ← outside steady_now;
  modify (set_last_heartbeat now).

(** [for (;;)]. The [catch] takes every exception; [attempt] is 32 bits wide. *)
Fixpoint connect_loop (fuel : nat) (attempt : Z) : M Client unit :=
  match fuel with
  | O => out_of_fuel
  | S fuel => fun c =>
      match try_session c with
      | (Throw _, c) =>
          (login (on_conn Disconnect);;
           let attempt := u32 (attempt + 1) in
           max_attempts ← gets m_reconnect_attempts;
           if max_attempts <? attempt
           then throw ClientReconnectError "connection attempts exhausted"
           else
             delay ← gets m_reconnect_delay_ms;
             outside (sleep_for delay);;
             connect_loop fuel attempt) c
      | r => r
      end
  end.

Definition Connect : M Client unit :=
  c ← get;
  if c_connected c then throw ClientError "client is already connected"
  else connect_loop (S (Z.to_nat (m_reconnect_attempts c))) 0.

Definition Disconnect : M Client unit :=
  login (on_conn Disconnect);;
  modify (set_connected false).

(** ** Sending *)

Definition SendPacket (packet : Packet) : M Client unit :=
  login (on_conn (SendMarshal (Packet_Encode packet))).

Definition require_connected {A} (m : M Client A) : M Client A :=
  c ← get;
  if negb (c_connected c) then throw ClientError "client is not connected" else m.

Definition SendCall (service method : string) (args : list Value) (kwargs : option Value)
    : M Client unit :=
  require_connected (
    packet ← lift (CallPacket service method args kwargs);
    SendPacket packet).

Definition SendPing : M Client unit := require_connected (SendPacket PingPacket).

Definition SendNotification (type : string) (args : list Value) : M Client unit :=
  require_connected (SendPacket (NotificationPacket type args)).

(** ** Receiving *)

Definition HandlePingReq (packet : Packet) : M Client unit := SendPacket (PingResponse packet).

(** The result [HandleCallRsp] passes on. *)
Definition call_result (packet : Packet) : res (option Value) :=
  match payload packet with
  | Some (VTuple (VSubStream data :: _)) => v ← Decode data true; Ok (Some v)
  | Some (VTuple (VTuple (VSubStream data :: _) :: _)) => v ← Decode data true; Ok (Some v)
  | _ => Ok None
  end.

Definition HandleCallRsp (packet : Packet) : M Client unit :=
  c ← get;
  match m_call_rsp_handler c with
  | Some handler =>
      result ← lift (call_result packet);
      outside (modify (fun o =>
        mkOutside (o_clock o) (o_sleeps o) (o_lines o) (o_responses o ++ [(packet, result)])));;
      lift (handler packet result)
  | None => outside (print "stage4_call_rsp" (type_string packet))
  end.

Definition HandleNotification (packet : Packet) : M Client unit :=
  outside (print "stage4_notification" (type_string packet)).
Definition HandleErrorResponse (packet : Packet) : M Client unit :=
  outside (print "stage4_error_response" (type_string packet)).
Definition HandleTransportClosed (packet : Packet) : M Client unit :=
  outside (print "stage4_transport_closed" (type_string packet)).
Definition HandleSessionChange (packet : Packet) : M Client unit :=
  outside (print "stage4_session_change" (type_string packet)).
Definition HandleUnknown (packet : Packet) : M Client unit :=
  outside (print "stage4_unknown_packet" (type_string packet)).

Definition HandleIncoming (value : Value) : M Client unit :=
  generation ← gets Generation;
  packet ← lift (Packet_Decode value generation);
  let type := type packet in
  if type =? MessageType.PingReq then HandlePingReq packet
  else if type =? MessageType.CallRsp then HandleCallRsp packet
  else if type =? MessageType.Notification then HandleNotification packet
  else if type =? MessageType.ErrorResponse then HandleErrorResponse packet
  else if type =? MessageType.TransportClosed then HandleTransportClosed packet
  else if type =? MessageType.SessionChangeNotification then HandleSessionChange packet
  else HandleUnknown packet.

Definition Receive : M Client Value :=
  require_connected (
    value ← login (on_conn ReceiveMarshal);
    HandleIncoming value;;
    mret value).

(** [duration_cast] to milliseconds truncates. *)
Definition PumpOnce : M Client unit :=
  c ← get;
  if negb (c_connected c) then mret tt
  else
    now ← outside steady_now;
    let elapsed := Z.quot (now - m_last_heartbeat c) 1000000 in
    if m_heartbeat_interval_ms c <=? elapsed
    then SendPing;; modify (set_last_heartbeat now)
    else mret tt.
End operations.

(** ** Logging in: what a session has seen *)

Lemma on_conn_Ok {A} (m : M Env A) l a l' :
  on_conn m l = (Ok a, l') ->
  exists e, m (l_env l) = (Ok a, e) /\ l' = mkLogin e (l_handshake l).
Proof.
  unfold on_conn, on. destruct (m (l_env l)) as [r e]. intros H. injection H as -> <-. by exists e.
Qed.

Lemma on_handshake_Ok {A} (m : M Handshake A) l a l' :
  on_handshake m l = (Ok a, l') ->
  exists h, m (l_handshake l) = (Ok a, h) /\ l' = mkLogin (l_env l) h.
Proof.
  unfold on_handshake, on. destruct (m (l_handshake l)) as [r h]. intros H.
  injection H as -> <-. by exists h.
Qed.

Lemma run_cons e es h h' h'' :
  handle e h = (Ok tt, h') -> run es h' = (Ok tt, h'') -> run (e :: es) h = (Ok tt, h'').
Proof. intros He Hes. cbn [run]. unfold mbind, M_bind. by rewrite He. Qed.

(** One step of a login: its effect on the connection or on the handshake. *)
Ltac login_step H :=
  let a := fresh "a" in let l := fresh "l" in let Hs := fresh "Hs" in let x := fresh "x" in
  apply bind_Ok in H as (a & l & Hs & H);
  first [apply on_conn_Ok in Hs | apply on_handshake_Ok in Hs];
  destruct Hs as (x & Hs & ->); cbn [l_handshake l_env] in Hs, H.

(** ** Members a send or a receive keeps *)

Definition same_session (c c' : Connection) : Prop :=
  m_generation c' = m_generation c /\ established c' = established c /\
  HasSessionCrypto c' = HasSessionCrypto c.

Definition keeps {A} (m : M Env A) : Prop :=
  forall e r e', m e = (r, e') -> same_session (e_conn e) (e_conn e').

Section keeps.
Context {cipher : Evp}.

Lemma keeps_bind {A B} (m : M Env A) (k : A -> M Env B) :
  keeps m -> (forall a, keeps (k a)) -> keeps (m ≫= k).
Proof using Type.
  intros Hm Hk e r e' H. unfold mbind, M_bind in H.
  destruct (m e) as [[a|ex| |] e1] eqn:He; try (injection H as <- <-; by eapply Hm).
  apply Hm in He as (H1 & H2 & H3). apply Hk in H as (H4 & H5 & H6).
  split_and!; congruence.
Qed.

Lemma keeps_pure {A} (m : M Env A) : (forall e, e_conn (snd (m e)) = e_conn e) -> keeps m.
Proof using Type. intros Hm e r e' H. specialize (Hm e). rewrite H in Hm. cbn in Hm. by rewrite Hm. Qed.

Lemma keeps_net {A} (m : M Net A) : keeps (net m).
Proof using Type. apply keeps_pure. intros e. unfold net, on. by destruct (m (e_net e)). Qed.

Lemma keeps_decoder {A} (m : M FrameDecoder A) : keeps (conn (on m_decoder set_decoder m)).
Proof using Type.
  intros e r e'. unfold conn, on. destruct (m _) as [r' d]. intros H. by injection H as <- <-.
Qed.

Lemma keeps_with_crypto f payload : keeps (with_crypto f payload).
Proof using Type.
  intros [[g b [k|] d s] n] r e'; unfold with_crypto, mbind, M_bind, gets; cbn; intros H.
  - destruct (f payload k) as [r' k']. cbn in H. unfold lift in H. by injection H as <- <-.
  - by injection H as <- <-.
Qed.

Lemma keeps_SendMarshal v : keeps (SendMarshal v).
Proof using Type.
  apply keeps_bind; [by apply keeps_pure|]. intros c. destruct (negb _); [by apply keeps_pure|].
  apply keeps_bind; [by apply keeps_pure|]. intros payload.
  apply keeps_bind; [apply keeps_with_crypto|]. intros payload'.
  apply keeps_bind; [by apply keeps_pure|]. intros fr. apply keeps_net.
Qed.

Lemma keeps_receive_loop fuel : keeps (receive_loop fuel).
Proof using Type.
  induction fuel as [|fuel IH]; [by apply keeps_pure|]. cbn [receive_loop].
  apply keeps_bind; [apply keeps_decoder|]. intros [payload|].
  - apply keeps_bind; [apply keeps_with_crypto|]. intros p. by apply keeps_pure.
  - apply keeps_bind; [apply keeps_net|]. intros []; try by apply keeps_pure.
    apply keeps_bind; [apply keeps_decoder|]. by intros _.
Qed.

Lemma keeps_ReceiveMarshal : keeps ReceiveMarshal.
Proof using Type.
  apply keeps_bind; [by apply keeps_pure|]. intros c. destruct (negb _); [by apply keeps_pure|].
  apply keeps_bind; [by apply keeps_pure|]. intros n. apply keeps_receive_loop.
Qed.
End keeps.

(** ** What passes between the client and its peer *)

(** What one end says and hears, and where it changes the key. *)
Inductive message := Says (value : Value) | Hears (value : Value) | Keys (crypto : SessionCrypto).

Section conversation.
Context {cipher : Evp}.

(** [conversation k ms out inp k']: from the session cipher [k], the frames of what is
    said are the bytes [out], [inp] is the frames of what is heard, each payload
    sealed or opened with the cipher as it is by then, and [k'] is the cipher in
    the end. *)
Inductive conversation : option SessionCrypto -> list message -> list byte -> list byte ->
    option SessionCrypto -> Prop :=
| conversation_nil k : conversation k [] [] [] k
| conversation_says k v bs payload k1 ms out inp k2 :
    Encode v = Ok bs -> seal k bs = (Ok payload, k1) -> legal payload ->
    conversation k1 ms out inp k2 ->
    conversation k (Says v :: ms) (frame payload ++ out) inp k2
| conversation_hears k v bs payload k1 ms out inp k2 :
    legal payload -> unseal k payload = (Ok bs, k1) -> Decode bs true = Ok v ->
    conversation k1 ms out inp k2 ->
    conversation k (Hears v :: ms) out (frame payload ++ inp) k2
| conversation_keys k c ms out inp k2 :
    conversation (Some c) ms out inp k2 -> conversation k (Keys c :: ms) out inp k2.

(** From [e] to [e'] the connection held this conversation: the bytes it put on the
    wire are what was said, and what it had buffered, with what came in,
    is what was heard and what it has buffered now. *)
Definition conversed (e : Env) (ms : list message) (e' : Env) : Prop :=
  exists out inp bytes,
    conversation (m_crypto (e_conn e)) ms out inp (m_crypto (e_conn e')) /\
    w_wire (e_net e') = w_wire (e_net e) ++ out /\
    came_in (e_net e) (e_net e') bytes /\
    m_buffer (m_decoder (e_conn e)) ++ bytes = inp ++ m_buffer (m_decoder (e_conn e')) /\
    m_generation (e_conn e') = m_generation (e_conn e).

Lemma conversed_nil e : conversed e [] e.
Proof using Type.
  exists [], [], []. split_and!; [constructor|by rewrite app_nil_r|by apply came_in_refl| |done].
  by rewrite app_nil_r.
Qed.

Lemma conversed_says e v e1 ms e' :
  SendMarshal v e = (Ok tt, e1) -> conversed e1 ms e' -> conversed e (Says v :: ms) e'.
Proof using Type.
  intros (bs & payload & k & He & Hs & Hl & Hc & Hw & Hr)%SendMarshal_Ok
    (out & inp & bytes & Hconv & Hw' & Hin & Hb & Hg).
  rewrite Hc in Hconv, Hb, Hg. exists (frame payload ++ out), inp, bytes. split_and!.
  - by eapply conversation_says.
  - by rewrite Hw', Hw, app_assoc.
  - apply (came_in_trans _ (e_net e1) _ [] bytes); [by apply came_in_refl|done].
  - done.
  - done.
Qed.

Lemma conversed_hears e v e1 ms e' :
  ReceiveMarshal e = (Ok v, e1) -> conversed e1 ms e' -> conversed e (Hears v :: ms) e'.
Proof using Type.
  intros Hrecv (out & inp & bytes & Hconv & Hw' & Hin & Hb & Hg).
  pose proof (keeps_ReceiveMarshal _ _ _ Hrecv) as (Hg1 & _).
  apply ReceiveMarshal_Ok in Hrecv as (payload & bs & k & bytes1 & Hl & Hu & Hd & Hin1 & Hw & Hb1 & Hk).
  rewrite Hk in Hconv. exists out, (frame payload ++ inp), (bytes1 ++ bytes). split_and!.
  - by eapply conversation_hears.
  - by rewrite Hw', Hw.
  - by eapply came_in_trans.
  - by rewrite app_assoc, Hb1, <- !app_assoc, Hb.
  - by rewrite Hg.
Qed.

Lemma conversed_keys e k e1 ms e' :
  SetSessionCrypto k e = (Ok tt, e1) -> conversed e1 ms e' -> conversed e (Keys k :: ms) e'.
Proof using Type.
  intros (c & [= <-] & ->)%conn_Ok (out & inp & bytes & Hconv & Hrest).
  exists out, inp, bytes. by split; [apply conversation_keys|].
Qed.
End conversation.

(** The login, as the peer sees it. *)
Definition login_script (version server : list Value) (ack : list (Value * Value)) : list message :=
  [Hears (VTuple version); Says (BuildVersionExchangeClient client_version);
   Says (BuildVkCommand "ithax-vip-key"); Says (BuildCryptoRequest client_crypto);
   Hears (VString "OK CC");
   Keys (mkSessionCrypto (session_key client_crypto) (session_iv client_crypto));
   Says (BuildLoginChallenge client_challenge); Hears (VInt 2); Hears (VTuple server);
   Says (BuildHandshakeResult client_result); Hears (VDict ack)].

Section login_proofs.
Context {cipher : Evp}.

(** The handshake at the points where a message is taken. *)
Lemma heard_version v h h' : h = new_Handshake ->
  OnVersionExchangeServer v h = (Ok tt, h') ->
  exists items, v = VTuple items /\ (7 <= length items)%nat.
Proof using Type.
  intros _ H. apply (handle_step (VersionExchangeServer v)) in H. inversion H; subst. by eexists.
Qed.

Lemma heard_ok v h h' : OnOkCc v h = (Ok tt, h') -> v = VString "OK CC".
Proof using Type. intros H. apply (handle_step (OkCc v)) in H. by inversion H. Qed.

Lemma heard_password v h h' : OnPasswordVersion v h = (Ok tt, h') -> v = VInt 2.
Proof using Type. intros H. apply (handle_step (PasswordVersion v)) in H. by inversion H. Qed.

Lemma heard_server v h h' : OnCryptoServerHandshake v h = (Ok tt, h') ->
  exists items, v = VTuple items /\ (4 <= length items)%nat.
Proof using Type.
  intros H. apply (handle_step (CryptoServerHandshake v)) in H. inversion H; subst. by eexists.
Qed.

Lemma heard_ack v h h' : OnCryptoHandshakeAck v h = (Ok tt, h') ->
  h' = Session /\ exists entries, v = VDict entries.
Proof using Type.
  intros H. apply (handle_step (CryptoHandshakeAck v)) in H. inversion H; subst. split; [done|by eexists].
Qed.

(** The conversation of a login that returned. *)
Lemma EstablishSession_run host port l l' :
  EstablishSession host port l = (Ok tt, l') ->
  exists e version server ack,
    Connection.Connect host port (l_env l) = (Ok tt, e) /\
    conversed e (login_script version server ack) (l_env l') /\
    (7 <= length version)%nat /\ (4 <= length server)%nat /\ l_handshake l' = Session.
Proof using Type.
  intros H. unfold EstablishSession in H. do 22 login_step H.
  apply bind_Ok in H as (l1 & l2 & [= <- <-] & H). cbn [l_handshake] in H.
  unfold IsComplete in H. destruct (negb _); [done|]. injection H as <-. cbn [l_handshake l_env].
  injection Hs0 as <- <-. destruct a2, a3, a4, a6, a10, a11, a17.
  apply heard_version in Hs2 as (version & -> & Hv); [|done]. destruct a9, a14, a16, a20.
  apply heard_ok in Hs9 as ->. apply heard_password in Hs14 as ->.
  apply heard_server in Hs16 as (server & -> & Hserver). apply heard_ack in Hs20 as (-> & ack & ->).
  exists x, version, server, ack. split; [by destruct a|]. split_and!; [|done..].
  eapply conversed_hears; [eassumption|]. do 3 (eapply conversed_says; [eassumption|]).
  eapply conversed_hears; [eassumption|]. eapply conversed_keys; [eassumption|].
  eapply conversed_says; [eassumption|]. do 2 (eapply conversed_hears; [eassumption|]).
  eapply conversed_says; [eassumption|]. eapply conversed_hears; [eassumption|].
  apply conversed_nil.
Qed.

(** A conversation after a change of key leaves a session cipher. *)
Lemma conversation_crypto k ms out inp k' :
  conversation k ms out inp k' -> is_Some k \/ (exists c, Keys c ∈ ms) -> is_Some k'.
Proof using Type.
  assert (Hseal : forall k bs p k1, seal k bs = (Ok p, k1) -> is_Some k -> is_Some k1).
  { intros [k1|] bs p k2 Hs; [|by intros []]. cbn in Hs. destruct (Encrypt bs k1).
    by injection Hs as _ <-. }
  assert (Hunseal : forall k bs p k1, unseal k bs = (Ok p, k1) -> is_Some k -> is_Some k1).
  { intros [k1|] bs p k2 Hs; [|by intros []]. cbn in Hs. destruct (Decrypt bs k1).
    by injection Hs as _ <-. }
  induction 1 as [k|k v bs p k1 ms out inp k2 _ Hs _ _ IH|k v bs p k1 ms out inp k2 _ Hu _ _ IH
                 |k c ms out inp k2 _ IH]; intros [Hk|[c' Hc]].
  - done.
  - by apply not_elem_of_nil in Hc.
  - apply IH. left. by eapply Hseal.
  - apply IH. right. exists c'. by apply elem_of_cons in Hc as [?|?].
  - apply IH. left. by eapply Hunseal.
  - apply IH. right. exists c'. by apply elem_of_cons in Hc as [?|?].
  - apply IH. left. by eexists.
  - apply IH. left. by eexists.
Qed.

End login_proofs.

(** ** Retrying *)

Section retry.
Context {cipher : Evp}.

(** The members no attempt changes. *)
Definition settings (c : Client) :=
  (m_host c, m_port c, m_reconnect_attempts c, m_reconnect_delay_ms c,
   m_heartbeat_interval_ms c, o_sleeps (c_outside c)).

(** What the [catch] block does, without the sleep and with it. *)
Definition gave_up (c : Client) : Client := snd (login (on_conn Connection.Disconnect) c).
Definition retry (c : Client) : Client :=
  snd (outside (sleep_for (m_reconnect_delay_ms (gave_up c))) (gave_up c)).

Lemma Disconnect_Ok e : exists e', Connection.Disconnect e = (Ok tt, e').
Proof using Type.
  unfold Connection.Disconnect, mbind, M_bind, gets. destruct (m_socket (e_conn e)); by eexists.
Qed.

Lemma gave_up_eq c : login (on_conn Connection.Disconnect) c = (Ok tt, gave_up c).
Proof using Type.
  unfold gave_up, login, on_conn, on. destruct (Disconnect_Ok (l_env (m_login c))) as [e' ->]. done.
Qed.

Lemma settings_gave_up c : settings (gave_up c) = settings c.
Proof using Type. unfold gave_up, login, on. by destruct (on_conn _ (m_login c)). Qed.

Lemma settings_try c r c' : try_session c = (r, c') -> settings c' = settings c.
Proof using Type.
  unfold try_session, mbind, M_bind, get. unfold login at 1, on at 1.
  destruct (EstablishSession _ _ (m_login c)) as [[[]|ex| |] l]; try (by intros [= <- <-]).
  unfold modify, outside, on, steady_now, mbind, M_bind, get. cbn.
  destruct (o_clock (c_outside c)); cbn; by intros [= <- <-].
Qed.

Lemma try_session_Ok c c' : try_session c = (Ok tt, c') -> c_connected c' = true.
Proof using Type.
  intros H. unfold try_session in H. apply bind_Ok in H as (? & ? & _ & H).
  apply bind_Ok in H as (? & c1 & _ & H). apply bind_Ok in H as (? & ? & [= <- <-] & H).
  apply bind_Ok in H as (now & c3 & Hnow & [= <-]).
  unfold outside, on in Hnow. destruct (steady_now _). by injection Hnow as _ <-.
Qed.

(** [n] attempts that fail in a row, each followed by a disconnect and a sleep. *)
Inductive failures : nat -> Client -> Client -> Prop :=
| failures_none c : failures 0 c c
| failures_more n c ex c1 c' :
    try_session c = (Throw ex, c1) -> failures n (retry c1) c' -> failures (S n) c c'.

Lemma connect_loop_turn fuel attempt c ex c1 :
  try_session c = (Throw ex, c1) ->
  connect_loop (S fuel) attempt c =
    if m_reconnect_attempts c <? u32 (attempt + 1)
    then (raise ClientReconnectError "connection attempts exhausted", gave_up c1)
    else connect_loop fuel (u32 (attempt + 1)) (retry c1).
Proof using Type.
  intros Ht. cbn [connect_loop]. rewrite Ht.
  rewrite (bind_eq _ _ c1 tt (gave_up c1)) by apply gave_up_eq.
  cbn zeta. rewrite (bind_eq (gets _) _ _ (m_reconnect_attempts (gave_up c1)) (gave_up c1) eq_refl).
  pose proof (settings_gave_up c1) as Hg. rewrite (settings_try _ _ _ Ht) in Hg.
  assert (Hm : m_reconnect_attempts (gave_up c1) = m_reconnect_attempts c)
    by (unfold settings in Hg; congruence).
  rewrite Hm. by destruct (_ <? _).
Qed.

Lemma settings_retry c ex c1 :
  try_session c = (Throw ex, c1) ->
  m_reconnect_attempts (retry c1) = m_reconnect_attempts c /\
  m_reconnect_delay_ms (retry c1) = m_reconnect_delay_ms c /\
  o_sleeps (c_outside (retry c1)) = o_sleeps (c_outside c) ++ [m_reconnect_delay_ms c].
Proof using Type.
  intros Ht. pose proof (settings_gave_up c1) as Hg. rewrite (settings_try _ _ _ Ht) in Hg.
  unfold settings in Hg. injection Hg as Hhost Hport Ha Hd Hh Hs.
  unfold retry. cbn. rewrite Ha, Hd, Hs. done.
Qed.

Lemma connect_loop_failures n fuel attempt c c' :
  failures n c c' -> 0 <= attempt -> attempt + Z.of_nat n <= m_reconnect_attempts c ->
  m_reconnect_attempts c < 2 ^ 32 ->
  connect_loop (n + fuel) attempt c = connect_loop fuel (attempt + Z.of_nat n) c' /\
  m_reconnect_attempts c' = m_reconnect_attempts c /\
  o_sleeps (c_outside c') = o_sleeps (c_outside c) ++ replicate n (m_reconnect_delay_ms c).
Proof using Type.
  intros Hf. revert attempt. induction Hf as [c|n c ex c1 c' Ht Hf IH]; intros attempt H0 Hn Hm.
  { rewrite Z.add_0_r, app_nil_r. done. }
  destruct (settings_retry _ _ _ Ht) as (Ha & Hd & Hs). cbn [Nat.add].
  rewrite (connect_loop_turn _ _ _ _ _ Ht), wrap_u_small by (unfold in_u; lia).
  rewrite (proj2 (Z.ltb_ge _ _)) by lia.
  destruct (IH (attempt + 1)) as (-> & -> & ->); [lia|rewrite Ha; lia|lia|].
  split_and!; [f_equal; lia|done|]. rewrite Hs, Hd, <- app_assoc. done.
Qed.

(** The retry policy: with [m] reconnect attempts, [Connect] succeeds if
    one of the first [m + 1] attempts does, in the state that attempt left;
    if they all fail it disconnects and throws the reconnect exception. It
    sleeps the configured delay between attempts, and only there. *)
Theorem Connect_retries (c c1 c2 : Client) (n : nat) (r : res unit)
    (Hnew : c_connected c = false)
    (Hpolicy : 0 <= m_reconnect_attempts c < 2 ^ 32 - 1)
    (Hfail : failures n c c1) (Hn : Z.of_nat n <= m_reconnect_attempts c)
    (Htry : try_session c1 = (r, c2)) :
  o_sleeps (c_outside c2) = o_sleeps (c_outside c) ++ replicate n (m_reconnect_delay_ms c) /\
  match r with
  | Ok _ => Connect c = (Ok tt, c2) /\ c_connected c2 = true
  | Throw _ => Z.of_nat n = m_reconnect_attempts c ->
      Connect c = (raise ClientReconnectError "connection attempts exhausted", gave_up c2)
  | _ => True
  end.
Proof using Type.
  destruct (connect_loop_failures n (S (Z.to_nat (m_reconnect_attempts c) - n)) 0 c c1 Hfail)
    as (Hloop & Ha & Hs); [lia|lia|lia|].
  split.
  { pose proof (settings_try _ _ _ Htry) as Hset. unfold settings in Hset.
    injection Hset as _ _ _ _ _ Hsl. by rewrite Hsl. }
  assert (Hconnect : Connect c =
    connect_loop (S (Z.to_nat (m_reconnect_attempts c) - n)) (0 + Z.of_nat n) c1).
  { rewrite <- Hloop. unfold Connect, mbind, M_bind, get. rewrite Hnew. f_equal. lia. }
  rewrite Hconnect. destruct r as [[]|ex| |]; [|intros Heq|done..].
  - cbn [connect_loop]. rewrite Htry. split; [done|].
    by apply try_session_Ok in Htry.
  - rewrite (connect_loop_turn _ _ _ _ _ Htry), wrap_u_small by (unfold in_u; lia).
    by rewrite (proj2 (Z.ltb_lt _ _)) by lia.
Qed.

(** With the largest reconnect policy the loop has no end: the attempt
    counter is as wide as the policy and wraps before it can exceed it, so
    after any number of failures the client tries again. *)
Theorem Connect_unbounded (c c' : Client) (n : nat)
    (Hpolicy : m_reconnect_attempts c = 2 ^ 32 - 1) (Hfail : failures n c c') :
  connect_loop n 0 c = (OutOfFuel, c').
Proof using Type.
  assert (Hgen : forall n c c', failures n c c' -> m_reconnect_attempts c = 2 ^ 32 - 1 ->
    forall attempt, connect_loop n attempt c = (OutOfFuel, c')); [|by apply Hgen].
  clear. intros n c c' Hf. induction Hf as [c|n c ex c1 c' Ht Hf IH]; intros Hm attempt; [done|].
  destruct (settings_retry _ _ _ Ht) as (Ha & _ & _).
  rewrite (connect_loop_turn _ _ _ _ _ Ht).
  pose proof (wrap_u_range 32 (attempt + 1) ltac:(lia)) as Hr. unfold in_u in Hr.
  rewrite (proj2 (Z.ltb_ge _ _)) by lia. apply IH. by rewrite Ha.
Qed.
End retry.

(** C33. A session is established only by the whole login. If [EstablishSession]
    returns, it connected afresh, and the bytes it put on the wire are exactly the
    frames of the version exchange, the command, the crypto request, the login
    challenge and the handshake result, in this order; the bytes that came in
    begin with the frames of a tuple of at least seven, the string OK CC, the
    integer 2, a tuple of at least four and a dict, in this order, and the rest is
    in the receive buffer. What follows OK CC, both ways, is sealed under the key
    and IV of the crypto request, chained from message to message; the cipher is
    left as this conversation leaves it. The handshake is in its final state and
    the connection is a new generation. *)
Theorem EstablishSession_complete {cipher : Evp} (host : string) (port : Z) (l l' : Login)
    (Hok : EstablishSession host port l = (Ok tt, l')) :
  exists version server ack out inp,
    conversation None (login_script version server ack) out inp (m_crypto (e_conn (l_env l'))) /\
    (7 <= length version)%nat /\ (4 <= length server)%nat /\
    w_wire (e_net (l_env l')) = w_wire (e_net (l_env l)) ++ out /\
    came_in (e_net (l_env l)) (e_net (l_env l')) (inp ++ m_buffer (m_decoder (e_conn (l_env l')))) /\
    HasSessionCrypto (e_conn (l_env l')) = true /\ l_handshake l' = Session /\
    m_generation (e_conn (l_env l')) = u64 (m_generation (e_conn (l_env l)) + 1).
Proof.
  destruct (EstablishSession_run _ _ _ _ Hok)
    as (e & version & server & ack & Hc & (out & inp & bytes & Hconv & Hw & Hin & Hb & Hg) & Hv & Hs & Hh).
  pose proof (Connect_quiet _ _ _ _ Hc) as [Hwe Hre].
  pose proof (Connect_outcome host port (l_env l)) as Ho. rewrite Hc in Ho.
  destruct Ho as (_ & _ & handle & He). rewrite He in Hconv, Hb, Hg. cbn in Hconv, Hb, Hg.
  exists version, server, ack, out, inp. split_and!; [exact Hconv|done|done| | | |done|done].
  - by rewrite Hw, Hwe.
  - rewrite <- Hb. apply (came_in_trans _ (e_net e) _ [] bytes); [by apply came_in_refl|done].
  - apply conversation_crypto in Hconv as [k Hk]; [|right; eexists; by do 5 right; left].
    unfold HasSessionCrypto. by rewrite Hk.
Qed.

(** ** Calls, pings and other packets *)

Lemma IsNone_canon v : IsNone (canon v) = IsNone v.
Proof. by destruct v. Qed.

Lemma canon_VSubStream data : canon (VSubStream data) = VSubStream data.
Proof. done. Qed.

(** What a service sees of a call. *)
Definition received_call (service method : string) (args : list Value) (kwargs : option Value)
    : Packet.CallRequest :=
  mkCallRequest service method (map canon args)
    (match kwargs with
     | Some k => if IsNone k then None else Some (canon k)
     | None => None
     end) 0.

Definition call_body (service method : string) (args : list Value) (kwargs : option Value) : Value :=
  VTuple [VString service; VString method; VTuple args; default VNone kwargs].

#[local] Opaque Encode Decode.

Lemma CallPacket_Ok service method args kwargs body p :
  Encode (call_body service method args kwargs) = Ok body ->
  CallPacket service method args kwargs = Ok p ->
  p = request kCallReqType MessageType.CallReq (MakeAnyAddress service)
        (VTuple [VTuple [VInt 0; VSubStream body]]).
Proof. intros Henc Hp. unfold CallPacket in Hp. fold (call_body service method args kwargs) in Hp.
  rewrite Henc in Hp. by apply Ok_inj in Hp.
Qed.

(** A call request whose substream decodes to a body of the expected shape. *)
Lemma CallRequest_Decode_body p data s m l k :
  type p = MessageType.CallReq -> payload p = Some (VTuple [VTuple [VInt 0; VSubStream data]]) ->
  Decode data true = Ok (VTuple [VString s; VString m; VTuple l; k]) ->
  CallRequest_Decode p =
    Ok (mkCallRequest s m l (if IsNone k then None else Some k) (addr_call_id (source p))).
Proof.
  intros Ht Hp Hd. unfold CallRequest_Decode. rewrite Ht, Hp. cbn [negb Z.eqb length Nat.ltb Nat.leb].
  change (negb (MessageType.CallReq =? MessageType.CallReq)) with false. cbn [decode_body].
  rewrite Hd. done.
Qed.

Lemma CallRequest_Decode_call service method args kwargs body p generation :
  Forall value_ok args -> value_ok (default VNone kwargs) ->
  Encode (call_body service method args kwargs) = Ok body ->
  Z.of_nat (length body) <= MAX_STREAM_BYTES ->
  CallPacket service method args kwargs = Ok p ->
  CallRequest_Decode (received_packet (canon_packet p) generation) =
    Ok (received_call service method args kwargs).
Proof.
  intros Hargs Hkw Henc Hlen Hp. rewrite (CallPacket_Ok _ _ _ _ _ _ Henc Hp).
  assert (Hok : value_ok (call_body service method args kwargs)).
  { unfold call_body. apply value_ok_tuple. constructor; [done|]. constructor; [done|].
    constructor; [by apply value_ok_tuple|]. by constructor. }
  pose proof (Decode_Encode _ body [] true Hok Henc) as Hd. rewrite app_nil_r in Hd.
  specialize (Hd Hlen).
  rewrite (CallRequest_Decode_body _ body service method (map canon args) (canon (default VNone kwargs)));
    [|done|done|exact Hd].
  unfold received_call. rewrite IsNone_canon. by destruct kwargs.
Qed.

(** A call arrives as it was made: the stream [SendCall] marshals decodes at
    the peer to a call request with the same service and method, the arguments
    and keywords in canonical form, a null keyword value dropped, and no call
    id. *)
Theorem SendCall_arrives (service method : string) (args : list Value) (kwargs : option Value)
    (body bs : list byte) (p : Packet) (generation : Z)
    (Hargs : Forall value_ok args) (Hkwargs : value_ok (default VNone kwargs))
    (Hbody : Encode (call_body service method args kwargs) = Ok body)
    (Hblen : Z.of_nat (length body) <= MAX_STREAM_BYTES)
    (Hp : CallPacket service method args kwargs = Ok p)
    (Henc : Encode (Packet_Encode p) = Ok bs)
    (Hlen : Z.of_nat (length bs) <= MAX_STREAM_BYTES) :
  exists v q,
    Decode bs true = Ok v /\ Packet_Decode v generation = Ok q /\
    CallRequest_Decode q = Ok (received_call service method args kwargs).
Proof.
  assert (Hpacket : packet_ok p /\ known_type (addr_type (source p)) = true /\
                    known_type (addr_type (dest p)) = true).
  { rewrite (CallPacket_Ok _ _ _ _ _ _ Hbody Hp). repeat split; done. }
  destruct Hpacket as (Hok & Hs & Hd).
  destruct (Packet_on_wire p bs generation Hok Hs Hd Henc Hlen) as (v & Hv & Hq).
  exists v. eexists. split_and!; [done|done|]. by eapply CallRequest_Decode_call.
Qed.

Lemma Address_Decode_canon v a :
  Address_Decode v = Ok a -> known_type (addr_type a) = true -> canon_address a = a.
Proof.
  intros H. unfold Address_Decode in H. destruct v; try done. destruct (_ && _); [done|].
  destruct v; try done. destruct (_ <? _)%nat; [done|]. res_inv.
  repeat match type of H with (if ?t =? ?c then _ else _) = _ =>
    destruct (Z.eqb_spec t c) as [->|?] end;
  repeat match type of H with (if ?b then _ else _) = _ => destruct b; try done end;
  res_inv; subst a; try done.
  cbn [addr_type]. unfold known_type. by rewrite !(proj2 (Z.eqb_neq _ _)) by done.
Qed.

(** A ping is answered: on a ping between addresses of known kinds the
    client sends exactly one packet, a ping response the peer decodes to the
    same user id, addressed from the ping's destination to its source. *)
Theorem PingReq_answered {cipher : Evp} (c : Client) (v : Value) (p : Packet) (generation : Z)
    (Hdec : Packet_Decode v (Generation c) = Ok p) (Htype : type p = MessageType.PingReq)
    (Hsource : known_type (addr_type (source p)) = true)
    (Hdest : known_type (addr_type (dest p)) = true) :
  HandleIncoming v c = SendPacket (PingResponse p) c /\
  Packet_Decode (Packet_Encode (PingResponse p)) generation =
    Ok (mkPacket kPingRspType MessageType.PingRsp (dest p) (source p) (user_id p)
          (Some (VTuple [])) None generation).
Proof.
  split.
  - unfold HandleIncoming. rewrite (bind_eq (gets Generation) _ c (Generation c) c eq_refl).
    rewrite (bind_eq _ _ c p c); [|by unfold lift; rewrite Hdec]. cbn zeta. by rewrite Htype.
  - rewrite Packet_roundtrip by done. unfold received_packet. cbn.
    unfold Packet_Decode in Hdec. destruct v; try done. res_inv. destruct (_ <? _)%nat; [done|].
    res_inv. subst p. cbn in *. by erewrite !Address_Decode_canon.
Qed.

(** The packet types [HandleIncoming] has a case for. *)
Definition handled (t : Z) : bool :=
  existsb (Z.eqb t)
    [MessageType.PingReq; MessageType.CallRsp; MessageType.Notification;
     MessageType.ErrorResponse; MessageType.TransportClosed;
     MessageType.SessionChangeNotification].

(** Calls to the client are never dispatched: a packet of any other type, a
    call request among them, is only reported on the console, whatever
    handlers are registered; nothing is sent and the client does not change. *)
Theorem HandleIncoming_unhandled {cipher : Evp} (c : Client) (v : Value) (p : Packet)
    (Hdec : Packet_Decode v (Generation c) = Ok p) (Htype : handled (type p) = false) :
  handled MessageType.CallReq = false /\
  HandleIncoming v c =
    (Ok tt, set_outside
       (mkOutside (o_clock (c_outside c)) (o_sleeps (c_outside c))
          (o_lines (c_outside c) ++ [mkLine "stage4_unknown_packet" (type_string p)])
          (o_responses (c_outside c))) c).
Proof.
  split; [done|]. unfold HandleIncoming.
  rewrite (bind_eq (gets Generation) _ c (Generation c) c eq_refl).
  rewrite (bind_eq _ _ c p c); [|by unfold lift; rewrite Hdec]. cbn zeta.
  unfold handled in Htype. cbn [existsb] in Htype. rewrite !orb_false_iff in Htype.
  destruct Htype as (-> & -> & -> & -> & -> & -> & _). done.
Qed.

(** ** Witnesses *)

Definition frame_of (v : Value) : list byte :=
  match Encode v with Ok bs => frame bs | _ => [] end.
Definition sealed_frame_of (v : Value) : list byte :=
  match Encode v with Ok bs => frame (PaddingOnly.pad bs) | _ => [] end.

(** A server's side of a login, and the sends that take each message whole. *)
Definition login_recvs : list RecvResult :=
  map Received
    [frame_of (VTuple (replicate 7 VNone)); frame_of (VString "OK CC");
     sealed_frame_of (VInt 2) ++ sealed_frame_of (VTuple (replicate 4 VNone));
     sealed_frame_of (VDict [])].

Definition login_sends : list Z :=
  map (fun l : list byte => Z.of_nat (length l))
    [frame_of (BuildVersionExchangeClient client_version);
     frame_of (BuildVkCommand "ithax-vip-key"); frame_of (BuildCryptoRequest client_crypto);
     sealed_frame_of (BuildLoginChallenge client_challenge);
     sealed_frame_of (BuildHandshakeResult client_result)].

Definition login_net (resolves : list (option (list SockAddr))) (attempts : list Attempt) : Net :=
  mkNet resolves attempts login_sends login_recvs [] None [].

Definition local_answer : option (list SockAddr) := Some [Inet 2130706433].

(** A client whose first attempt is refused, and the login of its second. *)
Definition example_client : Client :=
  SetReconnectPolicy 1 250
    (new_Client "127.0.0.1" 26000 (login_net [local_answer; local_answer] [Refused 4; Accepted 5])
       (mkOutside [42000000] [] [] [])).

Definition example_client_retried : Client :=
  Eval vm_compute in retry (snd (try_session (cipher := PaddingOnly.evp) example_client)).

Definition example_login : Login := Eval vm_compute in m_login example_client_retried.

Definition example_login_done : Login :=
  Eval vm_compute in snd (EstablishSession (cipher := PaddingOnly.evp) "127.0.0.1" 26000 example_login).

Lemma example_login_run :
  EstablishSession (cipher := PaddingOnly.evp) "127.0.0.1" 26000 example_login =
    (Ok tt, example_login_done).
Proof. vm_compute. reflexivity. Qed.

Lemma EstablishSession_complete_witness :
  exists version server ack out inp,
    conversation (cipher := PaddingOnly.evp) None (login_script version server ack) out inp
      (m_crypto (e_conn (l_env example_login_done))) /\
    w_wire (e_net (l_env example_login_done)) = w_wire (e_net (l_env example_login)) ++ out /\
    l_handshake example_login_done = Session.
Proof.
  destruct (EstablishSession_complete (cipher := PaddingOnly.evp) "127.0.0.1" 26000 example_login
              example_login_done example_login_run)
    as (version & server & ack & out & inp & Hconv & _ & _ & Hw & _ & _ & Hh & _).
  exists version, server, ack, out, inp. split; [exact Hconv|]. split; [exact Hw|exact Hh].
Defined.

Definition example_client_connected : Client :=
  Eval vm_compute in snd (try_session (cipher := PaddingOnly.evp) example_client_retried).

Lemma example_client_run :
  try_session (cipher := PaddingOnly.evp) example_client_retried = (Ok tt, example_client_connected).
Proof.
  unfold try_session, mbind, M_bind, get, login at 1, on at 1.
  change (m_login example_client_retried) with example_login.
  change (m_host example_client_retried) with "127.0.0.1"%string.
  change (m_port example_client_retried) with 26000.
  rewrite example_login_run. reflexivity.
Qed.

Lemma Connect_retries_witness :
  o_sleeps (c_outside example_client_connected) = [250] /\
  Connect (cipher := PaddingOnly.evp) example_client = (Ok tt, example_client_connected) /\
  c_connected example_client_connected = true.
Proof.
  apply (Connect_retries (cipher := PaddingOnly.evp) example_client example_client_retried
           example_client_connected 1 (Ok tt)).
  - reflexivity.
  - split; [vm_compute; discriminate|vm_compute; reflexivity].
  - eapply failures_more; [vm_compute; reflexivity|]. apply failures_none.
  - vm_compute. discriminate.
  - apply example_client_run.
Defined.

(** A client that never reaches a server. *)
Definition lost_client : Client :=
  SetReconnectPolicy (2 ^ 32 - 1) 0
    (new_Client "127.0.0.1" 26000 (mkNet [None; None] [] [] [] [] None []) (mkOutside [] [] [] [])).

Definition lost_client_later : Client :=
  Eval vm_compute in
    retry (snd (try_session (cipher := PaddingOnly.evp)
      (retry (snd (try_session (cipher := PaddingOnly.evp) lost_client))))).

Lemma Connect_unbounded_witness :
  connect_loop (cipher := PaddingOnly.evp) 2 0 lost_client = (OutOfFuel, lost_client_later).
Proof.
  apply (Connect_unbounded (cipher := PaddingOnly.evp) lost_client lost_client_later 2).
  - reflexivity.
  - eapply failures_more; [vm_compute; reflexivity|].
    eapply failures_more; [vm_compute; reflexivity|]. vm_compute. apply failures_none.
Defined.

Definition example_call_body : list byte :=
  Eval vm_compute in
    match Encode (call_body "station" "GetInfo" [VInt 7; VReal (2 ^ 63)] (Some VNone)) with
    | Ok bs => bs | _ => [] end.
Definition example_call : Packet :=
  request kCallReqType MessageType.CallReq (MakeAnyAddress "station")
    (VTuple [VTuple [VInt 0; VSubStream example_call_body]]).
Definition example_call_bytes : list byte :=
  Eval vm_compute in match Encode (Packet_Encode example_call) with Ok bs => bs | _ => [] end.

Lemma SendCall_arrives_witness :
  exists v q,
    Decode example_call_bytes true = Ok v /\ Packet_Decode v 9 = Ok q /\
    CallRequest_Decode q =
      Ok (mkCallRequest "station" "GetInfo" [VInt 7; VReal 0] None 0).
Proof.
  apply (SendCall_arrives "station" "GetInfo" [VInt 7; VReal (2 ^ 63)] (Some VNone)
    example_call_body example_call_bytes example_call 9);
    [by repeat constructor|done|vm_compute; reflexivity|vm_compute; done|vm_compute; reflexivity
    |vm_compute; reflexivity|vm_compute; done].
Defined.

Definition example_ping : Packet :=
  mkPacket kPingReqType MessageType.PingReq (mkAddress AddressType.Node 1 0 "ping" "")
    (mkAddress AddressType.Client 8 0 "" "") 4 (Some (VTuple [])) None 0.

Lemma PingReq_answered_witness :
  HandleIncoming (cipher := PaddingOnly.evp) (Packet_Encode example_ping) example_client =
    SendPacket (cipher := PaddingOnly.evp) (PingResponse example_ping) example_client /\
  Packet_Decode (Packet_Encode (PingResponse example_ping)) 2 =
    Ok (mkPacket kPingRspType MessageType.PingRsp (mkAddress AddressType.Client 8 0 "" "")
          (mkAddress AddressType.Node 1 0 "ping" "") 4 (Some (VTuple [])) None 2).
Proof.
  apply (PingReq_answered (cipher := PaddingOnly.evp) example_client (Packet_Encode example_ping)
           example_ping 2); vm_compute; reflexivity.
Defined.

Lemma HandleIncoming_unhandled_witness :
  handled MessageType.CallReq = false /\
  o_lines (c_outside (snd (HandleIncoming (cipher := PaddingOnly.evp) (Packet_Encode example_call)
                             example_client))) =
    [mkLine "stage4_unknown_packet" "macho.CallReq"].
Proof.
  destruct (HandleIncoming_unhandled (cipher := PaddingOnly.evp) example_client
    (Packet_Encode example_call) example_call) as [H ->];
    [vm_compute; reflexivity|reflexivity|]. split; [exact H|reflexivity].
Defined.
