(* ===== verification/ScratchAllocator.v ===== *)
(** * The scratch allocator

    [src/src/threading/scratch_allocator.h] and [scratch_allocator.cpp]: a bump
    allocator over one block of storage, used by the thread that made it. An
    address is an integer, the block's address what [operator new] returned,
    and [std::size_t] arithmetic wraps at 64 bits. The theorem is about any
    sequence of requests from any threads: the spans handed out since the last
    [Reset] are inside the block, aligned as asked, and disjoint. *)

From stdpp Require Import base numbers list option strings.
From S2P Require Import Prelude.

#[local] Open Scope Z_scope.

Definition MAX_SCRATCH_ALLOCATOR_CAPACITY : Z := 16 * 1024 * 1024.
(** [alignof(std::max_align_t)] is the platform's: a power of two of type
    [std::size_t]. *)
Class MaxAlign :=
  { alignof_max_align_t : Z;
    max_align_power : exists k, 0 <= k < 64 /\ alignof_max_align_t = 2 ^ k }.

Definition SCRATCH_ALLOCATOR_BASE_ALIGNMENT `{MaxAlign} : Z := alignof_max_align_t.

Record ScratchAllocator := mkScratchAllocator
  { m_storage : Z; m_capacity : Z; m_offset : Z; m_owner_thread : thread_id }.

(** [std::span<std::byte>]; [{}] is the null span. *)
Record span := mkSpan { span_data : Z; span_size : Z }.
Definition null_span : span := mkSpan 0 0.

(** ** The operations

    [self] is [std::this_thread::get_id()]. *)

Definition ValidateCapacity (capacity : Z) : res Z :=
  if (capacity =? 0) || (MAX_SCRATCH_ALLOCATOR_CAPACITY <? capacity)
  then raise ScratchAllocatorCapacityError "scratch allocator capacity is outside its bound"
  else Ok capacity.

(** The constructor; [storage] is the address [operator new] returns. *)
Definition new_ScratchAllocator (self : thread_id) (storage capacity : Z)
    : res ScratchAllocator :=
  valid ← ValidateCapacity capacity;
  Ok (mkScratchAllocator storage valid 0 self).

Definition ValidateAlignment `{MaxAlign} (alignment : Z) : res Z :=
  if (alignment =? 0) || (SCRATCH_ALLOCATOR_BASE_ALIGNMENT <? alignment)
     || negb (Z.land alignment (u64 (alignment - 1)) =? 0)
  then raise ScratchAllocatorAlignmentError "scratch allocator alignment is invalid"
  else Ok alignment.

Definition ComputePadding (offset alignment : Z) : Z :=
  let remainder := offset mod alignment in
  if remainder =? 0 then 0 else u64 (alignment - remainder).

Definition IsOwnerThread (self : thread_id) (a : ScratchAllocator) : bool :=
  m_owner_thread a =? self.

Definition AssertOwner (self : thread_id) : M ScratchAllocator unit :=
  a ← get;
  if negb (IsOwnerThread self a)
  then throw ScratchAllocatorOwnershipError "scratch allocator accessed by a non-owner thread"
  else mret tt.

Definition set_m_offset (offset : Z) : M ScratchAllocator unit :=
  modify (fun a => mkScratchAllocator (m_storage a) (m_capacity a) offset (m_owner_thread a)).

Definition Allocate `{MaxAlign} (self : thread_id) (size alignment : Z) : M ScratchAllocator span :=
  AssertOwner self;;
  valid_alignment ← lift (ValidateAlignment alignment);
  if size =? 0 then mret null_span
  else
    a ← get;
    let padding := ComputePadding (m_offset a) valid_alignment in
    if (u64 (m_capacity a - m_offset a) <? padding)
       || (u64 (u64 (m_capacity a - m_offset a) - padding) <? size)
    then throw ScratchAllocatorOverflowError "scratch allocation exceeds its fixed capacity"
    else
      let start := u64 (m_offset a + padding) in
      set_m_offset (u64 (start + size));;
      mret (mkSpan (m_storage a + start) size).

Definition Reset (self : thread_id) : M ScratchAllocator unit :=
  AssertOwner self;; set_m_offset 0.

Definition Capacity (a : ScratchAllocator) : Z := m_capacity a.

Definition Used (self : thread_id) : M ScratchAllocator Z :=
  AssertOwner self;; gets m_offset.

Definition Remaining (self : thread_id) : M ScratchAllocator Z :=
  AssertOwner self;; gets (fun a => u64 (m_capacity a - m_offset a)).

(** ** Sequences of requests *)

Inductive request :=
| ReqAllocate (size alignment : Z)
| ReqReset.

(** A span the program still holds, with the alignment it asked for. *)
Record allocation := mkAllocation { alloc_span : span; alloc_alignment : Z }.

(** Serve requests in order, each from its thread; a request that throws
    leaves the spans held as they are, and [Reset] invalidates them. *)
Fixpoint serve `{MaxAlign} (requests : list (thread_id * request)) (held : list allocation)
    : M ScratchAllocator (list allocation) :=
  fun a =>
  match requests with
  | [] => (Ok held, a)
  | (self, ReqAllocate size alignment) :: requests =>
      match Allocate self size alignment a with
      | (Ok s, a') =>
          serve requests (if size =? 0 then held else mkAllocation s alignment :: held) a'
      | (_, a') => serve requests held a'
      end
  | (self, ReqReset) :: requests =>
      match Reset self a with
      | (Ok _, a') => serve requests [] a'
      | (_, a') => serve requests held a'
      end
  end.

Definition request_ok (r : thread_id * request) : Prop :=
  match r.2 with ReqAllocate size alignment => in_u 64 size /\ in_u 64 alignment | ReqReset => True end.

(** The span is inside the first [used] bytes of the block. *)
Definition inside (storage used : Z) (x : allocation) : Prop :=
  storage <= span_data (alloc_span x) /\ 0 < span_size (alloc_span x) /\
  span_data (alloc_span x) + span_size (alloc_span x) <= storage + used.

Definition aligned (x : allocation) : Prop := span_data (alloc_span x) mod alloc_alignment x = 0.

Definition disjoint_allocations (x y : allocation) : Prop :=
  span_data (alloc_span x) + span_size (alloc_span x) <= span_data (alloc_span y) \/
  span_data (alloc_span y) + span_size (alloc_span y) <= span_data (alloc_span x).

(** What the allocator keeps true of itself. *)
Definition scratch_inv `{MaxAlign} (a : ScratchAllocator) : Prop :=
  m_storage a mod SCRATCH_ALLOCATOR_BASE_ALIGNMENT = 0 /\
  0 <= m_offset a <= m_capacity a /\ m_capacity a <= MAX_SCRATCH_ALLOCATOR_CAPACITY.

Definition held_inv (a : ScratchAllocator) (held : list allocation) : Prop :=
  Forall (inside (m_storage a) (m_offset a)) held /\ Forall aligned held /\
  ForallOrdPairs disjoint_allocations held.

(** An alignment that [ValidateAlignment] accepts. *)
Definition valid_alignment `{MaxAlign} (alignment : Z) : Prop :=
  0 < alignment <= SCRATCH_ALLOCATOR_BASE_ALIGNMENT /\
  exists k, 0 <= k /\ alignment = 2 ^ k.

Lemma max_align_range `{MaxAlign} : 0 < SCRATCH_ALLOCATOR_BASE_ALIGNMENT < 2 ^ 64.
Proof.
  unfold SCRATCH_ALLOCATOR_BASE_ALIGNMENT. destruct max_align_power as (k & Hk & ->).
  split; [apply Z.pow_pos_nonneg; lia|apply Z.pow_lt_mono_r; lia].
Qed.

(** The test of a power of two. *)
Lemma land_pred_power a : 0 < a -> Z.land a (a - 1) = 0 <-> exists k, 0 <= k /\ a = 2 ^ k.
Proof.
  intros Ha. split.
  - intros Hl. exists (Z.log2 a). split; [apply Z.log2_nonneg|].
    destruct (Z.log2_spec a Ha) as [Hlo Hhi]. pose proof (Z.log2_nonneg a).
    destruct (decide (a = 2 ^ Z.log2 a)) as [|Hne]; [done|]. exfalso.
    assert (Hlog : Z.log2 (a - 1) = Z.log2 a) by (apply Z.log2_unique; lia).
    assert (Hbit : Z.testbit (Z.land a (a - 1)) (Z.log2 a) = true).
    { rewrite Z.land_spec, Z.bit_log2 by done. rewrite <- Hlog, Z.bit_log2; [done|].
      assert (1 < a); [|lia]. destruct (decide (a = 1)) as [->|]; [|lia]. by destruct Hne. }
    by rewrite Hl, Z.bits_0 in Hbit.
  - intros (k & Hk & ->). replace (2 ^ k - 1) with (Z.ones k) by (rewrite Z.ones_equiv; lia).
    rewrite Z.land_ones by done. apply Z.mod_same. by apply Z.pow_nonzero.
Qed.

Lemma ValidateAlignment_spec `{MaxAlign} alignment : in_u 64 alignment ->
  ValidateAlignment alignment = Ok alignment /\ valid_alignment alignment \/
  ValidateAlignment alignment =
    raise ScratchAllocatorAlignmentError "scratch allocator alignment is invalid" /\
  ~ valid_alignment alignment.
Proof.
  intros [Hlo Hhi]. unfold ValidateAlignment, valid_alignment.
  destruct (Z.eqb_spec alignment 0); [right; split; [done|lia]|].
  destruct (Z.ltb_spec SCRATCH_ALLOCATOR_BASE_ALIGNMENT alignment); [right; split; [done|lia]|].
  cbn [orb]. rewrite wrap_u_small by (unfold in_u; lia).
  pose proof (land_pred_power alignment ltac:(lia)) as Hp.
  destruct (Z.eqb_spec (Z.land alignment (alignment - 1)) 0) as [Hz|Hz]; cbn [negb].
  - left. split; [done|]. split; [lia|]. by apply Hp.
  - right. split; [done|]. intros [_ Hk]. by apply Hz, Hp.
Qed.

(** A power of two up to the base alignment divides the base alignment. *)
Lemma alignment_divides `{MaxAlign} alignment : valid_alignment alignment ->
  0 < alignment < 2 ^ 64 /\ (alignment | SCRATCH_ALLOCATOR_BASE_ALIGNMENT).
Proof.
  intros [Hr (k & Hk & ->)]. pose proof max_align_range. split; [lia|].
  unfold SCRATCH_ALLOCATOR_BASE_ALIGNMENT in *. destruct max_align_power as (n & Hn & Heq).
  rewrite Heq in *. assert (k <= n) by (apply (Z.pow_le_mono_r_iff 2); lia).
  exists (2 ^ (n - k)). rewrite <- Z.pow_add_r by lia. f_equal. lia.
Qed.

Lemma ComputePadding_spec offset alignment : 0 <= offset -> 0 < alignment < 2 ^ 64 ->
  0 <= ComputePadding offset alignment < alignment /\
  (offset + ComputePadding offset alignment) mod alignment = 0.
Proof.
  intros Ho Ha. unfold ComputePadding.
  pose proof (Z.mod_pos_bound offset alignment ltac:(lia)).
  destruct (Z.eqb_spec (offset mod alignment) 0) as [Hz|Hz].
  - rewrite Z.add_0_r. lia.
  - rewrite wrap_u_small by (unfold in_u; lia). split; [lia|].
    rewrite Z.add_sub_assoc, Zminus_mod, Z.add_mod, Z_mod_same_full, Z.add_0_r, !Z.mod_mod by lia.
    by rewrite Z.sub_diag.
Qed.

(** What a request that neither throws nor is empty does. *)
Lemma Allocate_fits `{MaxAlign} self size alignment a :
  scratch_inv a -> in_u 64 size -> 0 < size -> m_owner_thread a = self ->
  valid_alignment alignment ->
  let padding := ComputePadding (m_offset a) alignment in
  Allocate self size alignment a =
    if m_offset a + padding + size <=? m_capacity a
    then (Ok (mkSpan (m_storage a + (m_offset a + padding)) size),
          mkScratchAllocator (m_storage a) (m_capacity a) (m_offset a + padding + size) self)
    else (raise ScratchAllocatorOverflowError "scratch allocation exceeds its fixed capacity", a).
Proof.
  intros (Hbase & Hoff & Hcap) [Hs0 Hs1] Hpos <- Hal padding.
  unfold MAX_SCRATCH_ALLOCATOR_CAPACITY in Hcap.
  destruct (alignment_divides _ Hal) as [Hrange _].
  destruct (ComputePadding_spec (m_offset a) alignment ltac:(lia) Hrange) as [Hpad _].
  fold padding in Hpad.
  unfold Allocate, AssertOwner, IsOwnerThread, mbind, M_bind, get, lift, mret, M_ret.
  rewrite Z.eqb_refl. cbn [negb].
  destruct (ValidateAlignment_spec alignment) as [[-> _]|[_ Hbad]]; [unfold in_u; lia| |done].
  destruct (Z.eqb_spec size 0); [lia|]. fold padding.
  rewrite (wrap_u_small _ (m_capacity a - m_offset a)) by (unfold in_u; lia).
  destruct (Z.ltb_spec (m_capacity a - m_offset a) padding); cbn [orb].
  { destruct (Z.leb_spec (m_offset a + padding + size) (m_capacity a)); [lia|done]. }
  rewrite (wrap_u_small _ (m_capacity a - m_offset a - padding)) by (unfold in_u; lia).
  destruct (Z.ltb_spec (m_capacity a - m_offset a - padding) size),
    (Z.leb_spec (m_offset a + padding + size) (m_capacity a)); try lia; [done|].
  cbn [set_m_offset modify].
  rewrite (wrap_u_small _ (m_offset a + padding)) by (unfold in_u; lia).
  rewrite wrap_u_small by (unfold in_u; lia). done.
Qed.

(** Every request of a well-formed allocator: it changes nothing, or it hands
    out the bytes after the padding. *)
Lemma Allocate_cases `{MaxAlign} self size alignment a :
  scratch_inv a -> in_u 64 size -> in_u 64 alignment ->
  (size = 0 /\ Allocate self size alignment a = (Ok null_span, a)) \/
  (exists c what, Allocate self size alignment a = (raise c what, a)) \/
  (let start := m_offset a + ComputePadding (m_offset a) alignment in
   valid_alignment alignment /\ 0 < size /\ start + size <= m_capacity a /\
   Allocate self size alignment a =
     (Ok (mkSpan (m_storage a + start) size),
      mkScratchAllocator (m_storage a) (m_capacity a) (start + size) self) /\
   m_owner_thread a = self).
Proof.
  intros Hinv Hs Ha. destruct (Z.eqb_spec (m_owner_thread a) self) as [Hself|Hself].
  2:{ right; left. unfold Allocate, AssertOwner, IsOwnerThread, mbind, M_bind, get.
      rewrite (proj2 (Z.eqb_neq _ _)) by done. cbn. eauto. }
  destruct (ValidateAlignment_spec alignment Ha) as [[Hval Hal]|[Hbad _]].
  - destruct (Z.eqb_spec size 0) as [Hz|Hz].
    + left. split; [done|]. unfold Allocate, AssertOwner, IsOwnerThread, mbind, M_bind, get, lift.
      rewrite Hself, Z.eqb_refl. cbn [negb mret M_ret]. rewrite Hval. by rewrite Hz.
    + right. destruct Hs. rewrite (Allocate_fits self size alignment a) by (done || lia).
      destruct (Z.leb_spec (m_offset a + ComputePadding (m_offset a) alignment + size)
        (m_capacity a)); [right|left; by eauto]. split; [exact Hal|]. repeat split; done || lia.
  - right; left. unfold Allocate, AssertOwner, IsOwnerThread, mbind, M_bind, get, lift.
    rewrite Hself, Z.eqb_refl. cbn [negb mret M_ret]. rewrite Hbad. by eauto.
Qed.

Lemma inside_grow storage used used' x :
  used <= used' -> inside storage used x -> inside storage used' x.
Proof. unfold inside. lia. Qed.

(** A span handed out is after all the ones held. *)
Lemma held_inv_grow `{MaxAlign} self size alignment a held :
  let start := m_offset a + ComputePadding (m_offset a) alignment in
  scratch_inv a -> held_inv a held -> valid_alignment alignment -> 0 < size ->
  start + size <= m_capacity a ->
  let a' := mkScratchAllocator (m_storage a) (m_capacity a) (start + size) self in
  scratch_inv a' /\
  held_inv a' (mkAllocation (mkSpan (m_storage a + start) size) alignment :: held).
Proof.
  intros start (Hbase & Hoff & Hcap) (Hin & Hal & Hdis) Halign Hsize Hfits a'.
  destruct (alignment_divides _ Halign) as [Hrange Hdiv].
  destruct (ComputePadding_spec (m_offset a) alignment ltac:(lia) Hrange) as [Hpad Hstart].
  fold start in Hstart. assert (m_offset a <= start) by lia.
  split; [unfold scratch_inv; simpl; lia|]. split; [|split].
  - constructor; [unfold inside; simpl; lia|].
    eapply Forall_impl; [exact Hin|]. intros x. apply inside_grow. simpl. lia.
  - constructor; [|done]. unfold aligned; simpl.
    assert (Hs : m_storage a mod alignment = 0).
    { apply Z.mod_divide; [lia|]. etransitivity; [exact Hdiv|]. pose proof max_align_range. apply Z.mod_divide; [lia|done]. }
    rewrite Z.add_mod, Hs, Hstart by lia. by apply Z.mod_0_l; lia.
  - constructor; [|done]. eapply Forall_impl; [exact Hin|].
    unfold inside, disjoint_allocations; simpl. lia.
Qed.

Lemma serve_inv `{MaxAlign} requests held a :
  scratch_inv a -> held_inv a held -> Forall request_ok requests ->
  exists held' a', serve requests held a = (Ok held', a') /\ scratch_inv a' /\
    held_inv a' held' /\ m_storage a' = m_storage a /\ m_capacity a' = m_capacity a /\
    m_owner_thread a' = m_owner_thread a.
Proof.
  revert held a. induction requests as [|[self [size alignment|]] requests IH];
    intros held a Hinv Hheld Hok; [by eauto 10|..];
    apply Forall_cons in Hok as [Hr Hok]; cbn [serve].
  - destruct Hr as [Hs Ha].
    destruct (Allocate_cases self size alignment a Hinv Hs Ha)
      as [[-> ->]|[(c & what & ->)|(Hal & Hpos & Hfits & -> & Hself)]].
    + by apply IH.
    + by apply IH.
    + rewrite (proj2 (Z.eqb_neq size 0)) by lia.
      destruct (held_inv_grow self size alignment a held) as [Hinv' Hheld']; try done.
      destruct (IH _ _ Hinv' Hheld' Hok) as (held' & a' & ? & ? & ? & ? & ? & Hown).
      exists held', a'. simpl in Hown. by rewrite Hself.
  - unfold Reset, AssertOwner, mbind, M_bind, get.
    destruct (IsOwnerThread self a); [|by apply IH]. cbn.
    destruct Hinv as (? & ? & ?).
    destruct (IH [] (mkScratchAllocator (m_storage a) (m_capacity a) 0 (m_owner_thread a)))
      as (held' & a' & ? & ? & ? & ? & ? & ?); [unfold scratch_inv; simpl; lia| |done|by eauto 10].
    repeat constructor.
Qed.

(** C38. Whatever requests a scratch allocator serves, from whatever threads and
    whichever of them throw: the spans handed out since the last [Reset] are
    inside its block, each aligned as it asked, no two overlapping, the offset
    never passes the capacity, and the block, capacity and owner never change. The
    alignment of [std::max_align_t] is any power of two. *)
Theorem Allocate_disjoint `{MaxAlign} self storage capacity a requests :
  storage mod SCRATCH_ALLOCATOR_BASE_ALIGNMENT = 0 ->
  0 <= capacity ->
  new_ScratchAllocator self storage capacity = Ok a ->
  Forall request_ok requests ->
  exists held a', serve requests [] a = (Ok held, a') /\
    Forall (inside storage capacity) held /\ Forall aligned held /\
    ForallOrdPairs disjoint_allocations held /\
    0 <= m_offset a' <= capacity /\
    m_storage a' = storage /\ m_capacity a' = capacity /\ m_owner_thread a' = self.
Proof.
  intros Hbase Hcap Hnew Hok. unfold new_ScratchAllocator, ValidateCapacity in Hnew.
  destruct (Z.eqb_spec capacity 0); [done|].
  destruct (Z.ltb_spec MAX_SCRATCH_ALLOCATOR_CAPACITY capacity) as [|Hmax]; [done|].
  apply Ok_inj in Hnew as <-.
  edestruct (serve_inv requests [] (mkScratchAllocator storage capacity 0 self))
    as (held & a' & Hs & (Hi & Hoff & Hc) & (Hin & Hal & Hdis) & Hst & Hca & How);
    [unfold scratch_inv; simpl; lia|repeat constructor|done|].
  simpl in Hst, Hca, How. rewrite Hst, Hca in *.
  exists held, a'. repeat split; try done; try lia.
  eapply Forall_impl; [exact Hin|]. intros x. apply inside_grow. lia.
Qed.

#[export] Instance max_align_16 : MaxAlign.
Proof. refine {| alignof_max_align_t := 16 |}. by exists 4. Defined.

Definition example_requests : list (thread_id * request) :=
  [(1, ReqAllocate 100 16); (1, ReqReset); (1, ReqAllocate 3 1); (1, ReqAllocate 8 8);
   (2, ReqAllocate 1 1); (1, ReqAllocate 5 3); (1, ReqAllocate 0 4); (1, ReqAllocate 20 16);
   (1, ReqAllocate 29 1); (1, ReqAllocate 28 1)].

Lemma Allocate_disjoint_witness :
  let a := mkScratchAllocator 4096 64 0 1 in
  new_ScratchAllocator 1 4096 64 = Ok a /\
  map alloc_span (match (serve example_requests [] a).1 with Ok held => held | _ => [] end)
    = [mkSpan 4132 28; mkSpan 4112 20; mkSpan 4104 8; mkSpan 4096 3] /\
  exists held a', serve example_requests [] a = (Ok held, a') /\
    Forall (inside 4096 64) held /\ Forall aligned held /\
    ForallOrdPairs disjoint_allocations held /\ 0 <= m_offset a' <= 64 /\
    m_storage a' = 4096 /\ m_capacity a' = 64 /\ m_owner_thread a' = 1.
Proof.
  split; [done|]. split; [by vm_compute|].
  apply (Allocate_disjoint 1 4096 64); [done|lia|done|].
  repeat constructor; by vm_compute.
Defined.
