(* ===== verification/FrameSlot.v ===== *)
(** * Frame slots

    [src/src/threading/frame_slot.h] and [frame_slot.cpp]: a pool of payload
    buffers that a producer thread fills and a consumer thread reads, each
    under a lease, and the leases themselves. Every member function of the pool
    holds its mutex, so it is one step; an operation that waits on the condition
    variable is a first step, which may end [Waits], and resumption steps,
    which may run whenever the mutex is free (a wakeup may be spurious). The
    last section puts the pool, the leases and the threads together in a world
    whose steps are the calls. The theorems are in [FrameSlotLeases]. *)

From stdpp Require Import base numbers list option strings gmap.
From Stdlib Require Import Strings.Byte.
From S2P Require Import Prelude.

#[local] Open Scope Z_scope.

Definition MAX_FRAME_SLOT_COUNT : Z := 64.
Definition MAX_FRAME_SLOT_PAYLOAD_BYTES : Z := 16 * 1024 * 1024.
Definition MAX_FRAME_SLOT_STORAGE_BYTES : Z := 64 * 1024 * 1024.

(** [std::numeric_limits<std::uint64_t>::max()]. *)
Definition uint64_max : Z := 2 ^ 64 - 1.

Record FrameSlotToken := mkFrameSlotToken { slot_id : Z; generation : Z; pool_id : Z }.

#[export] Instance FrameSlotToken_eq_dec : EqDecision FrameSlotToken.
Proof. solve_decision. Defined.

Inductive FrameSlotState := Free | Writing | Published | Reading.

#[export] Instance FrameSlotState_eq_dec : EqDecision FrameSlotState.
Proof. solve_decision. Defined.

Record SlotStorage := mkSlotStorage
  { s_state : FrameSlotState; s_generation : Z; s_payload_size : Z;
    s_was_cancelled : bool; s_payload : list byte }.

Record FrameSlotPool := mkFrameSlotPool
  { m_slots : list SlotStorage; m_payload_capacity : Z; m_pool_id : Z; m_closed : bool;
    m_has_producer : bool; m_has_consumer : bool;
    m_producer_thread : thread_id; m_consumer_thread : thread_id;
    m_active_operations : Z }.

(** A lease's [m_pool] is the pool or null: there is one pool. *)
Record FrameWriteLease := mkFrameWriteLease
  { w_pool : bool; w_token : FrameSlotToken; w_active : bool }.
Record FrameReadLease := mkFrameReadLease
  { r_pool : bool; r_token : FrameSlotToken; r_active : bool }.

(** A span over a slot's payload buffer, from its start. *)
Record payload_span := mkPayloadSpan { span_slot : nat; span_length : Z }.

(** ** The pool's private state changes *)

Definition set_m_slots (slots : list SlotStorage) (p : FrameSlotPool) : FrameSlotPool :=
  mkFrameSlotPool slots (m_payload_capacity p) (m_pool_id p) (m_closed p)
    (m_has_producer p) (m_has_consumer p) (m_producer_thread p) (m_consumer_thread p)
    (m_active_operations p).
Definition set_m_closed (closed : bool) (p : FrameSlotPool) : FrameSlotPool :=
  mkFrameSlotPool (m_slots p) (m_payload_capacity p) (m_pool_id p) closed
    (m_has_producer p) (m_has_consumer p) (m_producer_thread p) (m_consumer_thread p)
    (m_active_operations p).
Definition set_producer (self : thread_id) (p : FrameSlotPool) : FrameSlotPool :=
  mkFrameSlotPool (m_slots p) (m_payload_capacity p) (m_pool_id p) (m_closed p)
    true (m_has_consumer p) self (m_consumer_thread p) (m_active_operations p).
Definition set_consumer (self : thread_id) (p : FrameSlotPool) : FrameSlotPool :=
  mkFrameSlotPool (m_slots p) (m_payload_capacity p) (m_pool_id p) (m_closed p)
    (m_has_producer p) true (m_producer_thread p) self (m_active_operations p).
Definition set_active_operations (n : Z) (p : FrameSlotPool) : FrameSlotPool :=
  mkFrameSlotPool (m_slots p) (m_payload_capacity p) (m_pool_id p) (m_closed p)
    (m_has_producer p) (m_has_consumer p) (m_producer_thread p) (m_consumer_thread p) n.

(** [m_slots[index]], read and assigned. *)
Definition slot_at (index : nat) : M FrameSlotPool SlotStorage :=
  p ← get;
  match m_slots p !! index with Some slot => mret slot | None => undefined end.
Definition set_slot (index : nat) (slot : SlotStorage) : M FrameSlotPool unit :=
  modify (fun p => set_m_slots (<[index := slot]> (m_slots p)) p).

(** [slot.payload_size = 0; slot.was_cancelled = cancelled; slot.state = Free]. *)
Definition freed (cancelled : bool) (slot : SlotStorage) : SlotStorage :=
  mkSlotStorage Free (s_generation slot) 0 cancelled (s_payload slot).
Definition in_state (state : FrameSlotState) (slot : SlotStorage) : SlotStorage :=
  mkSlotStorage state (s_generation slot) (s_payload_size slot) (s_was_cancelled slot)
    (s_payload slot).
Definition sized (size : Z) (slot : SlotStorage) : SlotStorage :=
  mkSlotStorage (s_state slot) (s_generation slot) size (s_was_cancelled slot) (s_payload slot).
(** [++slot.generation; slot.payload_size = 0; slot.was_cancelled = false;
    slot.state = Writing]. *)
Definition claimed (slot : SlotStorage) : SlotStorage :=
  mkSlotStorage Writing (u64 (s_generation slot + 1)) 0 false (s_payload slot).

(** ** Construction *)

(** The static [next_id], changed by a compare-and-exchange that retries until
    no other thread came between its load and its store. *)
Definition AllocatePoolId : M Z Z :=
  current_id ← get;
  if (current_id =? 0) || (current_id =? uint64_max)
  then throw FrameSlotGenerationError "frame slot pool ID was exhausted"
  else modify (fun id => u64 (id + 1));; mret current_id.

Definition new_SlotStorage (payload_capacity : Z) : SlotStorage :=
  mkSlotStorage Free 0 0 false (replicate (Z.to_nat payload_capacity) x00).

Definition new_FrameSlotPool (slot_count payload_capacity : Z) : M Z FrameSlotPool :=
  if (slot_count =? 0) || (MAX_FRAME_SLOT_COUNT <? slot_count)
     || (payload_capacity =? 0) || (MAX_FRAME_SLOT_PAYLOAD_BYTES <? payload_capacity)
  then throw FrameSlotCapacityError "frame slot dimensions are outside bounds"
  else if MAX_FRAME_SLOT_STORAGE_BYTES / payload_capacity <? slot_count
  then throw FrameSlotCapacityError "frame slot storage exceeds its bound"
  else
    id ← AllocatePoolId;
    mret (mkFrameSlotPool (replicate (Z.to_nat slot_count) (new_SlotStorage payload_capacity))
            payload_capacity id false false false 0 0 0).

(** ** Owners and tokens *)

Definition RegisterProducerLocked (self : thread_id) : M FrameSlotPool unit :=
  p ← get;
  if negb (m_has_producer p) then modify (set_producer self)
  else if negb (m_producer_thread p =? self)
  then throw FrameSlotOwnershipError "frame slot pool has multiple producers"
  else mret tt.

Definition RegisterConsumerLocked (self : thread_id) : M FrameSlotPool unit :=
  p ← get;
  if negb (m_has_consumer p) then modify (set_consumer self)
  else if negb (m_consumer_thread p =? self)
  then throw FrameSlotOwnershipError "frame slot pool has multiple consumers"
  else mret tt.

Definition AssertProducerLocked (self : thread_id) : M FrameSlotPool unit :=
  p ← get;
  if negb (m_has_producer p) || negb (m_producer_thread p =? self)
  then throw FrameSlotOwnershipError "frame slot write owner mismatch"
  else mret tt.

Definition AssertConsumerLocked (self : thread_id) : M FrameSlotPool unit :=
  p ← get;
  if negb (m_has_consumer p) || negb (m_consumer_thread p =? self)
  then throw FrameSlotOwnershipError "frame slot read owner mismatch"
  else mret tt.

Fixpoint find_free (slots : list SlotStorage) : nat :=
  match slots with
  | [] => 0
  | slot :: slots => if bool_decide (s_state slot = Free) then 0 else S (find_free slots)
  end.
Definition FindFreeSlotLocked (p : FrameSlotPool) : nat := find_free (m_slots p).

(** Returns a reference to the slot: its index. *)
Definition SlotForTokenLocked (token : FrameSlotToken) : M FrameSlotPool nat :=
  p ← get;
  if negb (pool_id token =? m_pool_id p) || (generation token =? 0)
     || (Z.of_nat (length (m_slots p)) <=? slot_id token)
  then throw FrameSlotGenerationError "frame slot token is invalid"
  else
    let index := Z.to_nat (slot_id token) in
    slot ← slot_at index;
    if negb (s_generation slot =? generation token)
    then throw FrameSlotGenerationError "frame slot token is stale"
    else mret index.

Definition EndOperationLocked : M FrameSlotPool unit :=
  p ← get;
  if m_active_operations p =? 0 then terminate
  else modify (set_active_operations (u64 (m_active_operations p - 1))).

(** ** Acquiring *)

(** How a step of a blocking operation ends: in the wait, or with its result. *)
Inductive progress (A : Type) := Waits | Done (a : A).
Arguments Waits {A}.
Arguments Done {A} a.

(** [try { ... finish(); return } catch (...) { finish(); throw; }], where a
    wait is inside the block. *)
Definition finishing {A} (body : M FrameSlotPool (progress A)) : M FrameSlotPool (progress A) :=
  fun p =>
  match body p with
  | (Ok (Done a), p') => (EndOperationLocked;; mret (Done a)) p'
  | (Throw e, p') => (EndOperationLocked;; lift (Throw e)) p'
  | r => r
  end.

(** The claim of the free slot [slot_id] that both acquisitions make. *)
Definition claim (slot_id : nat) : M FrameSlotPool FrameWriteLease :=
  slot ← slot_at slot_id;
  if s_generation slot =? uint64_max
  then throw FrameSlotGenerationError "frame slot generation was exhausted"
  else
    set_slot slot_id (claimed slot);;
    p ← get;
    mret (mkFrameWriteLease true
            (mkFrameSlotToken (u32 (Z.of_nat slot_id)) (s_generation (claimed slot)) (m_pool_id p))
            true).

Definition TryAcquireWrite (self : thread_id) : M FrameSlotPool (option FrameWriteLease) :=
  RegisterProducerLocked self;;
  p ← get;
  if m_closed p then mret None
  else
    let slot_id := FindFreeSlotLocked p in
    if (slot_id =? length (m_slots p))%nat then mret None
    else lease ← claim slot_id; mret (Some lease).

(** From the wait on: the predicate, then what follows it. *)
Definition AcquireWrite_wait : M FrameSlotPool (progress (option FrameWriteLease)) :=
  p ← get;
  if m_closed p then mret (Done None)
  else if (FindFreeSlotLocked p =? length (m_slots p))%nat then mret Waits
  else lease ← claim (FindFreeSlotLocked p); mret (Done (Some lease)).

Definition AcquireWrite (self : thread_id)
    : M FrameSlotPool (progress (option FrameWriteLease)) :=
  modify (fun p => set_active_operations (u64 (m_active_operations p + 1)) p);;
  finishing (RegisterProducerLocked self;; AcquireWrite_wait).
Definition AcquireWrite_resume : M FrameSlotPool (progress (option FrameWriteLease)) :=
  finishing AcquireWrite_wait.

(** One iteration of the [for (;;)] of [AcquireReadImpl]. *)
Definition AcquireRead_iteration (token : FrameSlotToken) (blocking : bool)
    : M FrameSlotPool (progress (option FrameReadLease)) :=
  index ← SlotForTokenLocked token;
  slot ← slot_at index;
  p ← get;
  match s_state slot with
  | Published =>
      set_slot index (in_state Reading slot);;
      mret (Done (Some (mkFrameReadLease true token true)))
  | Writing => if m_closed p || negb blocking then mret (Done None) else mret Waits
  | _ =>
      if s_was_cancelled slot || m_closed p then mret (Done None)
      else throw FrameSlotStateError "frame slot is not published"
  end.

Definition AcquireReadImpl (self : thread_id) (token : FrameSlotToken) (blocking : bool)
    : M FrameSlotPool (progress (option FrameReadLease)) :=
  modify (fun p => set_active_operations (u64 (m_active_operations p + 1)) p);;
  finishing (SlotForTokenLocked token;; RegisterConsumerLocked self;;
             AcquireRead_iteration token blocking).
Definition AcquireRead_resume (token : FrameSlotToken)
    : M FrameSlotPool (progress (option FrameReadLease)) :=
  finishing (AcquireRead_iteration token true).

Definition TryAcquireRead (self : thread_id) (token : FrameSlotToken) :=
  AcquireReadImpl self token false.
Definition AcquireRead (self : thread_id) (token : FrameSlotToken) :=
  AcquireReadImpl self token true.

(** ** The rest of the pool *)

Definition Close : M FrameSlotPool unit := modify (set_m_closed true).

Definition DiscardPublished (self : thread_id) (token : FrameSlotToken) : M FrameSlotPool unit :=
  index ← SlotForTokenLocked token;
  RegisterConsumerLocked self;;
  slot ← slot_at index;
  p ← get;
  if negb (m_closed p) || negb (bool_decide (s_state slot = Published))
  then throw FrameSlotStateError "published frame slot cannot be discarded"
  else set_slot index (freed false slot).

Definition IsClosed (p : FrameSlotPool) : bool := m_closed p.
Definition all_free (p : FrameSlotPool) : bool :=
  forallb (fun slot => bool_decide (s_state slot = Free)) (m_slots p).
Definition IsQuiescent (p : FrameSlotPool) : bool :=
  if negb (m_active_operations p =? 0) then false else all_free p.
Definition SlotCount (p : FrameSlotPool) : Z := Z.of_nat (length (m_slots p)).
Definition PayloadCapacity (p : FrameSlotPool) : Z := m_payload_capacity p.

(** [~FrameSlotPool], which waits for the active operations to end. *)
Definition delete_FrameSlotPool : M FrameSlotPool (progress unit) :=
  Close;;
  p ← get;
  if negb (m_active_operations p =? 0) then mret Waits
  else if negb (all_free p) then terminate
  else mret (Done tt).

(** ** The operations behind the leases *)

Definition slot_in (state : FrameSlotState) (error : string) (token : FrameSlotToken)
    : M FrameSlotPool (nat * SlotStorage) :=
  index ← SlotForTokenLocked token;
  slot ← slot_at index;
  if negb (bool_decide (s_state slot = state)) then throw FrameSlotStateError error
  else mret (index, slot).

Definition WritePayload (self : thread_id) (token : FrameSlotToken) : M FrameSlotPool payload_span :=
  AssertProducerLocked self;;
  '(index, slot) ← slot_in Writing "frame slot is not writable" token;
  mret (mkPayloadSpan index (Z.of_nat (length (s_payload slot)))).

Definition WritePayloadSize (self : thread_id) (token : FrameSlotToken) : M FrameSlotPool Z :=
  AssertProducerLocked self;;
  '(index, slot) ← slot_in Writing "frame slot is not writable" token;
  mret (s_payload_size slot).

Definition SetWritePayloadSize (self : thread_id) (token : FrameSlotToken) (size : Z)
    : M FrameSlotPool unit :=
  AssertProducerLocked self;;
  '(index, slot) ← slot_in Writing "frame slot is not writable" token;
  p ← get;
  if m_payload_capacity p <? size
  then throw FrameSlotCapacityError "frame slot payload exceeds its capacity"
  else set_slot index (sized size slot).

Definition PublishWrite (self : thread_id) (token : FrameSlotToken) : M FrameSlotPool unit :=
  AssertProducerLocked self;;
  '(index, slot) ← slot_in Writing "frame slot is not writable" token;
  p ← get;
  if m_closed p then throw FrameSlotStateError "closed frame slot cannot be published"
  else set_slot index (in_state Published slot).

Definition CancelWrite (self : thread_id) (token : FrameSlotToken) : M FrameSlotPool unit :=
  AssertProducerLocked self;;
  '(index, slot) ← slot_in Writing "frame slot is not cancellable" token;
  set_slot index (freed true slot).

Definition ReadPayload (self : thread_id) (token : FrameSlotToken) : M FrameSlotPool payload_span :=
  AssertConsumerLocked self;;
  '(index, slot) ← slot_in Reading "frame slot is not readable" token;
  mret (mkPayloadSpan index (s_payload_size slot)).

Definition ReadPayloadSize (self : thread_id) (token : FrameSlotToken) : M FrameSlotPool Z :=
  AssertConsumerLocked self;;
  '(index, slot) ← slot_in Reading "frame slot is not readable" token;
  mret (s_payload_size slot).

Definition ReleaseRead (self : thread_id) (token : FrameSlotToken) : M FrameSlotPool unit :=
  AssertConsumerLocked self;;
  '(index, slot) ← slot_in Reading "frame slot is not releasable" token;
  set_slot index (freed false slot).

(** The buffer behind a span: the bytes read through it, and a byte stored. *)
Definition load (s : payload_span) (p : FrameSlotPool) : res (list byte) :=
  match m_slots p !! span_slot s with
  | Some slot =>
      if (Z.to_nat (span_length s) <=? length (s_payload slot))%nat
      then Ok (take (Z.to_nat (span_length s)) (s_payload slot)) else Undefined
  | None => Undefined
  end.
Definition store (s : payload_span) (offset : nat) (b : byte) : M FrameSlotPool unit :=
  slot ← slot_at (span_slot s);
  if (Z.of_nat offset <? span_length s) && (offset <? length (s_payload slot))%nat
  then set_slot (span_slot s)
         (mkSlotStorage (s_state slot) (s_generation slot) (s_payload_size slot)
            (s_was_cancelled slot) (<[offset := b]> (s_payload slot)))
  else undefined.

(** ** The leases *)

(** A lease's member function runs on the lease and on the pool it points to. *)
Definition WriteM := M (FrameWriteLease * FrameSlotPool).
Definition ReadM := M (FrameReadLease * FrameSlotPool).

Definition of_pool {L A} (m : M FrameSlotPool A) : M (L * FrameSlotPool) A :=
  on snd (fun p s => (s.1, p)) m.

Definition set_w_active (active : bool) : WriteM unit :=
  modify (fun '(l, p) => (mkFrameWriteLease (w_pool l) (w_token l) active, p)).
Definition set_r_active (active : bool) : ReadM unit :=
  modify (fun '(l, p) => (mkFrameReadLease (r_pool l) (r_token l) active, p)).

Definition Write_Token (l : FrameWriteLease) : FrameSlotToken := w_token l.
Definition Read_Token (l : FrameReadLease) : FrameSlotToken := r_token l.

Definition write_lease {A} (m : FrameSlotToken -> M FrameSlotPool A) : WriteM A :=
  '(l, _) ← get;
  if negb (w_active l) || negb (w_pool l)
  then throw FrameSlotStateError "write lease is not active"
  else of_pool (m (w_token l)).
Definition read_lease {A} (m : FrameSlotToken -> M FrameSlotPool A) : ReadM A :=
  '(l, _) ← get;
  if negb (r_active l) || negb (r_pool l)
  then throw FrameSlotStateError "read lease is not active"
  else of_pool (m (r_token l)).

Definition Write_Payload (self : thread_id) : WriteM payload_span :=
  write_lease (WritePayload self).
Definition Write_PayloadSize (self : thread_id) : WriteM Z := write_lease (WritePayloadSize self).
Definition Write_SetPayloadSize (self : thread_id) (size : Z) : WriteM unit :=
  write_lease (fun token => SetWritePayloadSize self token size).
Definition Write_Publish (self : thread_id) : WriteM unit :=
  write_lease (PublishWrite self);; set_w_active false.
Definition Read_Payload (self : thread_id) : ReadM payload_span := read_lease (ReadPayload self).
Definition Read_PayloadSize (self : thread_id) : ReadM Z := read_lease (ReadPayloadSize self).

(** [try { m; m_active = false; } catch (...) { TerminateOnLeaseError(); }]. *)
Definition or_terminate {S} (m : M S unit) : M S unit :=
  fun s => match m s with (Throw _, s') => terminate s' | r => r end.

(** [Cancel] and [Release], which are also the destructors. *)
Definition Write_Cancel (self : thread_id) : WriteM unit :=
  '(l, _) ← get;
  if negb (w_active l) || negb (w_pool l) then mret tt
  else or_terminate (of_pool (CancelWrite self (w_token l));; set_w_active false).
Definition Read_Release (self : thread_id) : ReadM unit :=
  '(l, _) ← get;
  if negb (r_active l) || negb (r_pool l) then mret tt
  else or_terminate (of_pool (ReleaseRead self (r_token l));; set_r_active false).

(** Move construction: the new lease, and what is left of [other]. *)
Definition Write_move (other : FrameWriteLease) : FrameWriteLease * FrameWriteLease :=
  (other, mkFrameWriteLease false (w_token other) false).
Definition Read_move (other : FrameReadLease) : FrameReadLease * FrameReadLease :=
  (other, mkFrameReadLease false (r_token other) false).

(** ** Programs of leases

    A program that holds the pool, the leases it was given, in order, and the
    threads that are inside a blocking operation. *)

Inductive wait_op := WaitWrite | WaitRead (token : FrameSlotToken).

Record World := mkWorld
  { pool : FrameSlotPool; writes : list FrameWriteLease; reads : list FrameReadLease;
    waits : gmap thread_id wait_op }.

Inductive event :=
| EvTryAcquireWrite | EvAcquireWrite | EvTryAcquireRead (token : FrameSlotToken)
| EvAcquireRead (token : FrameSlotToken) | EvResume
| EvStore (k : nat) (offset : nat) (b : byte) | EvSetPayloadSize (k : nat) (size : Z)
| EvPublish (k : nat) | EvCancel (k : nat) | EvMoveWrite (k : nat)
| EvRelease (k : nat) | EvMoveRead (k : nat)
| EvDiscardPublished (token : FrameSlotToken) | EvClose.

Definition set_pool (p : FrameSlotPool) (w : World) : World :=
  mkWorld p (writes w) (reads w) (waits w).
Definition with_pool {A} (m : M FrameSlotPool A) : M World A := on pool set_pool m.
Definition add_write (r : option FrameWriteLease) (w : World) : World :=
  match r with
  | Some l => mkWorld (pool w) (writes w ++ [l]) (reads w) (waits w)
  | None => w
  end.
Definition add_read (r : option FrameReadLease) (w : World) : World :=
  match r with
  | Some l => mkWorld (pool w) (writes w) (reads w ++ [l]) (waits w)
  | None => w
  end.
Definition set_waits (l : gmap thread_id wait_op) (w : World) : World :=
  mkWorld (pool w) (writes w) (reads w) l.

(** The end of a step of a blocking operation of [self]. *)
Definition settle {A} (self : thread_id) (op : wait_op) (add : A -> World -> World)
    (r : progress A) (w : World) : World :=
  match r with
  | Waits => set_waits (<[self := op]> (waits w)) w
  | Done a => add a w
  end.

(** Run a member function of the [k]-th lease. *)
Definition on_write {A} (k : nat) (m : WriteM A) : M World unit :=
  w ← get;
  match writes w !! k with
  | None => mret tt
  | Some l =>
      on (fun w => (l, pool w))
         (fun '(l, p) w => mkWorld p (<[k := l]> (writes w)) (reads w) (waits w)) m;;
      mret tt
  end.
Definition on_read {A} (k : nat) (m : ReadM A) : M World unit :=
  w ← get;
  match reads w !! k with
  | None => mret tt
  | Some l =>
      on (fun w => (l, pool w))
         (fun '(l, p) w => mkWorld p (writes w) (<[k := l]> (reads w)) (waits w)) m;;
      mret tt
  end.

(** A step of thread [self]. A thread inside a blocking operation does nothing
    but go on with it, and a program stores through a span within its length. *)
Definition perform (self : thread_id) (ev : event) : M World unit :=
  w ← get;
  match ev, waits w !! self with
  | EvResume, Some op =>
      modify (fun w => set_waits (delete self (waits w)) w);;
      match op with
      | WaitWrite =>
          r ← with_pool AcquireWrite_resume; modify (settle self op add_write r)
      | WaitRead token =>
          r ← with_pool (AcquireRead_resume token); modify (settle self op add_read r)
      end
  | EvResume, None | _, Some _ => mret tt
  | EvTryAcquireWrite, None => r ← with_pool (TryAcquireWrite self); modify (add_write r)
  | EvAcquireWrite, None =>
      r ← with_pool (AcquireWrite self); modify (settle self WaitWrite add_write r)
  | EvTryAcquireRead token, None =>
      r ← with_pool (TryAcquireRead self token);
      modify (settle self (WaitRead token) add_read r)
  | EvAcquireRead token, None =>
      r ← with_pool (AcquireRead self token);
      modify (settle self (WaitRead token) add_read r)
  | EvStore k offset b, None =>
      on_write k (s ← Write_Payload self;
                  of_pool (if Z.of_nat offset <? span_length s then store s offset b else mret tt))
  | EvSetPayloadSize k size, None => on_write k (Write_SetPayloadSize self size)
  | EvPublish k, None => on_write k (Write_Publish self)
  | EvCancel k, None => on_write k (Write_Cancel self)
  | EvMoveWrite k, None =>
      match writes w !! k with
      | None => mret tt
      | Some l => modify (fun w => mkWorld (pool w) (<[k := (Write_move l).2]> (writes w)
                                     ++ [(Write_move l).1]) (reads w) (waits w))
      end
  | EvRelease k, None => on_read k (Read_Release self)
  | EvMoveRead k, None =>
      match reads w !! k with
      | None => mret tt
      | Some l => modify (fun w => mkWorld (pool w) (writes w)
                            (<[k := (Read_move l).2]> (reads w) ++ [(Read_move l).1]) (waits w))
      end
  | EvDiscardPublished token, None => with_pool (DiscardPublished self token)
  | EvClose, None => with_pool Close
  end.

(** Cancelling and releasing are what destructors do: a program that destroys
    an active lease does so on the thread that owns its side of the pool. *)
Definition well_behaved (self : thread_id) (ev : event) (w : World) : Prop :=
  match ev with
  | EvCancel k => forall l, writes w !! k = Some l -> w_active l = true ->
      self = m_producer_thread (pool w)
  | EvRelease k => forall l, reads w !! k = Some l -> r_active l = true ->
      self = m_consumer_thread (pool w)
  | EvSetPayloadSize _ size => in_u 64 size
  | EvTryAcquireRead token | EvAcquireRead token | EvDiscardPublished token =>
      0 <= slot_id token
  | _ => True
  end.

(** A step ends normally or with an exception the program catches; a program
    that reaches neither has no next world. *)
Inductive world_step (w : World) : World -> Prop :=
| world_ok self ev w' :
    well_behaved self ev w -> perform self ev w = (Ok tt, w') -> world_step w w'
| world_caught self ev e w' :
    well_behaved self ev w -> perform self ev w = (Throw e, w') -> world_step w w'.
