(* ===== verification/FrameSlotLeases.v ===== *)
(** * What the frame leases guarantee

    The theorems about [FrameSlot], for any interleaving of the two threads'
    calls: what each operation may do to a slot, the invariant of the programs
    that hold leases, what an active lease guarantees, and that a published
    frame is read as it was written. *)

From stdpp Require Import base numbers list option strings gmap.
From Stdlib Require Import Strings.Byte.
From S2P Require Import Prelude FrameSlot.

#[local] Open Scope Z_scope.

(** ** Transitions of the pool *)

(** The token names slot [index], which is in [state] under its generation. *)
Definition at_slot (p : FrameSlotPool) (token : FrameSlotToken) (state : FrameSlotState)
    (index : nat) (slot : SlotStorage) : Prop :=
  (0 <= slot_id token /\ pool_id token = m_pool_id p /\ generation token <> 0) /\
  index = Z.to_nat (slot_id token) /\ m_slots p !! index = Some slot /\
  s_state slot = state /\ s_generation slot = generation token.

Definition holds_slot (state : FrameSlotState) (p : FrameSlotPool) (token : FrameSlotToken) : Prop :=
  exists index slot, at_slot p token state index slot.

(** The pool's dimensions and identity stay, and so does a registration. *)
Definition same_pool (p p' : FrameSlotPool) : Prop :=
  m_payload_capacity p' = m_payload_capacity p /\ m_pool_id p' = m_pool_id p /\
  (m_has_producer p = true -> m_has_producer p' = true /\ m_producer_thread p' = m_producer_thread p) /\
  (m_has_consumer p = true -> m_has_consumer p' = true /\ m_consumer_thread p' = m_consumer_thread p).

(** What one step does to the slots, with the token it acts under. *)
Inductive label :=
| LNone | LClaim (token : FrameSlotToken) | LRead (token : FrameSlotToken)
| LWrite (token : FrameSlotToken) | LPublish (token : FrameSlotToken)
| LCancel (token : FrameSlotToken) | LRelease (token : FrameSlotToken)
| LDiscard (token : FrameSlotToken).

(** The edge a label takes its slot along. *)
Definition edge (lab : label) (slot slot' : SlotStorage) : Prop :=
  match lab with
  | LNone => False
  | LClaim _ => s_state slot = Free /\ s_generation slot <> uint64_max /\ slot' = claimed slot
  | LRead _ => s_state slot = Published /\ slot' = in_state Reading slot
  | LWrite _ => s_state slot = Writing /\ s_state slot' = Writing /\
      s_generation slot' = s_generation slot /\ length (s_payload slot') = length (s_payload slot)
  | LPublish _ => s_state slot = Writing /\ slot' = in_state Published slot
  | LCancel _ => s_state slot = Writing /\ slot' = freed true slot
  | LRelease _ => s_state slot = Reading /\ slot' = freed false slot
  | LDiscard _ => s_state slot = Published /\ slot' = freed false slot
  end.

Definition label_token (lab : label) : option FrameSlotToken :=
  match lab with
  | LNone => None
  | LClaim token | LRead token | LWrite token | LPublish token | LCancel token
  | LRelease token | LDiscard token => Some token
  end.

Definition slot_ok (capacity : Z) (slot : SlotStorage) : Prop :=
  in_u 64 (s_generation slot) /\ 0 <= s_payload_size slot <= capacity /\
  length (s_payload slot) = Z.to_nat capacity.

Definition pool_inv (p : FrameSlotPool) : Prop :=
  Z.of_nat (length (m_slots p)) <= MAX_FRAME_SLOT_COUNT /\
  0 < m_payload_capacity p <= MAX_FRAME_SLOT_PAYLOAD_BYTES /\
  Forall (slot_ok (m_payload_capacity p)) (m_slots p).

(** [moves p lab p']: no slot changes, or the token's slot takes the edge; the
    token then names the slot's generation after the step. *)
Definition moves (p : FrameSlotPool) (lab : label) (p' : FrameSlotPool) : Prop :=
  same_pool p p' /\
  match label_token lab with
  | None => m_slots p' = m_slots p
  | Some token => exists index slot slot',
      m_slots p !! index = Some slot /\ edge lab slot slot' /\
      slot_ok (m_payload_capacity p) slot' /\
      m_slots p' = <[index := slot']> (m_slots p) /\
      at_slot p' token (s_state slot') index slot'
  end.

Lemma same_pool_refl p : same_pool p p.
Proof. done. Qed.

Lemma same_pool_trans p1 p2 p3 : same_pool p1 p2 -> same_pool p2 p3 -> same_pool p1 p3.
Proof. unfold same_pool. intuition congruence. Qed.

Lemma moves_none p p' : same_pool p p' -> m_slots p' = m_slots p -> moves p LNone p'.
Proof. done. Qed.

(** Steps before and after the one that moves a slot. *)
Lemma moves_before p p1 lab p' :
  same_pool p p1 -> m_slots p1 = m_slots p -> moves p1 lab p' -> moves p lab p'.
Proof.
  intros Hs Hm [Hs' H]. split; [by eapply same_pool_trans|].
  destruct Hs as [Hc _]. rewrite <- Hm, <- Hc. done.
Qed.

Lemma moves_after p lab p1 n : moves p lab p1 -> moves p lab (set_active_operations n p1).
Proof. by destruct lab. Qed.

Lemma pool_inv_moves p lab p' : pool_inv p -> moves p lab p' -> pool_inv p'.
Proof.
  intros (Hl & Hc & Hf) [(Hcap & _) Hm]. unfold pool_inv. rewrite Hcap.
  destruct (label_token lab); [|by rewrite Hm].
  destruct Hm as (i & s & s' & Hi & _ & Hok & -> & _). rewrite length_insert.
  split; [done|]. split; [done|]. by apply Forall_insert.
Qed.

(** The tactic for the operations' specifications: run the code, and let a
    registration or a check be what [wp] says of it. *)
Lemma wp_slot_at index slot (Q : SlotStorage -> FrameSlotPool -> Prop) E p :
  m_slots p !! index = Some slot -> Q slot p -> wp (slot_at index) Q E p.
Proof. intros H HQ. unfold slot_at. wp_step. wp_step. rewrite H. by wp_step. Qed.

Lemma wp_RegisterProducerLocked self (Q : unit -> FrameSlotPool -> Prop) E p :
  (forall p', same_pool p p' -> m_slots p' = m_slots p ->
     m_active_operations p' = m_active_operations p -> m_closed p' = m_closed p ->
     m_has_producer p' = true -> m_producer_thread p' = self -> Q tt p') ->
  (forall e, E e p) -> wp (RegisterProducerLocked self) Q E p.
Proof.
  intros HQ HE. unfold RegisterProducerLocked. wp_step. wp_step.
  destruct (m_has_producer p) eqn:Hp; cbn [negb].
  - destruct (Z.eqb_spec (m_producer_thread p) self); cbn [negb]; wp_step; [|apply HE].
    by apply HQ.
  - wp_step. apply HQ; try done. split; [done|]. split; [done|]. by rewrite Hp.
Qed.

Lemma wp_RegisterConsumerLocked self (Q : unit -> FrameSlotPool -> Prop) E p :
  (forall p', same_pool p p' -> m_slots p' = m_slots p ->
     m_active_operations p' = m_active_operations p -> m_closed p' = m_closed p ->
     m_has_consumer p' = true -> m_consumer_thread p' = self -> Q tt p') ->
  (forall e, E e p) -> wp (RegisterConsumerLocked self) Q E p.
Proof.
  intros HQ HE. unfold RegisterConsumerLocked. wp_step. wp_step.
  destruct (m_has_consumer p) eqn:Hp; cbn [negb].
  - destruct (Z.eqb_spec (m_consumer_thread p) self); cbn [negb]; wp_step; [|apply HE].
    by apply HQ.
  - wp_step. apply HQ; try done. split; [done|]. split; [done|]. by rewrite Hp.
Qed.

Lemma wp_AssertProducerLocked self (Q : unit -> FrameSlotPool -> Prop) E p :
  (m_has_producer p = true -> m_producer_thread p = self -> Q tt p) ->
  (~ (m_has_producer p = true /\ m_producer_thread p = self) -> forall e, E e p) ->
  wp (AssertProducerLocked self) Q E p.
Proof.
  intros HQ HE. unfold AssertProducerLocked. wp_step. wp_step.
  destruct (m_has_producer p); cbn [negb orb]; [|wp_step; apply HE; naive_solver].
  destruct (Z.eqb_spec (m_producer_thread p) self); cbn [negb]; wp_step;
    [by apply HQ|apply HE; naive_solver].
Qed.

Lemma wp_AssertConsumerLocked self (Q : unit -> FrameSlotPool -> Prop) E p :
  (m_has_consumer p = true -> m_consumer_thread p = self -> Q tt p) ->
  (~ (m_has_consumer p = true /\ m_consumer_thread p = self) -> forall e, E e p) ->
  wp (AssertConsumerLocked self) Q E p.
Proof.
  intros HQ HE. unfold AssertConsumerLocked. wp_step. wp_step.
  destruct (m_has_consumer p); cbn [negb orb]; [|wp_step; apply HE; naive_solver].
  destruct (Z.eqb_spec (m_consumer_thread p) self); cbn [negb]; wp_step;
    [by apply HQ|apply HE; naive_solver].
Qed.

Lemma wp_SlotForTokenLocked token (Q : nat -> FrameSlotPool -> Prop) E p :
  0 <= slot_id token ->
  (forall index slot, at_slot p token (s_state slot) index slot -> Q index p) ->
  ((forall state, ~ holds_slot state p token) -> forall e, E e p) ->
  wp (SlotForTokenLocked token) Q E p.
Proof.
  intros Hid HQ HE. unfold SlotForTokenLocked. wp_step. wp_step.
  assert (Hstale : forall P : Prop, (forall state, holds_slot state p token -> P) ->
    ~ P -> forall e, E e p) by (intros P HP Hn; apply HE; intros st H; by apply Hn, (HP st)).
  destruct (Z.eqb_spec (pool_id token) (m_pool_id p)) as [Hpool|Hpool]; cbn [negb orb].
  2:{ wp_step. apply (Hstale (pool_id token = m_pool_id p)); [|done].
      intros st (i & s & (_ & ? & _) & _). done. }
  destruct (Z.eqb_spec (generation token) 0) as [Hgen|Hgen]; cbn [orb].
  { wp_step. apply (Hstale (generation token <> 0)); [|naive_solver].
    intros st (i & s & (_ & _ & ?) & _). done. }
  destruct (Z.leb_spec (Z.of_nat (length (m_slots p))) (slot_id token)) as [Hlen|Hlen].
  { wp_step. apply (Hstale (slot_id token < Z.of_nat (length (m_slots p)))); [|lia].
    intros st (i & s & _ & -> & Hi & _). apply lookup_lt_Some in Hi. lia. }
  destruct (lookup_lt_is_Some_2 (m_slots p) (Z.to_nat (slot_id token)) ltac:(lia)) as [slot Hslot].
  wp_step. eapply wp_slot_at; [done|].
  destruct (Z.eqb_spec (s_generation slot) (generation token)) as [Hg|Hg]; cbn [negb]; wp_step.
  - by apply (HQ _ slot).
  - apply (Hstale (s_generation slot = generation token)); [|done].
    intros st (i & s & _ & -> & Hi & _ & Hs). congruence.
Qed.

Lemma wp_slot_in state error token (Q : nat * SlotStorage -> FrameSlotPool -> Prop) E p :
  0 <= slot_id token ->
  (forall index slot, at_slot p token state index slot -> Q (index, slot) p) ->
  (~ holds_slot state p token -> forall e, E e p) ->
  wp (slot_in state error token) Q E p.
Proof.
  intros Hid HQ HE. unfold slot_in. wp_step. apply wp_SlotForTokenLocked; [done|..].
  - intros index slot Hat. wp_step. destruct Hat as (Htok & -> & Hi & _ & Hg).
    eapply wp_slot_at; [done|]. case_bool_decide as Hst; cbn [negb]; wp_step.
    + by apply HQ.
    + apply HE. intros (i & s & _ & -> & Hi' & Hs & _). congruence.
  - intros H. apply HE, H.
Qed.

(** A slot under a token takes an edge. *)
Lemma moves_set_slot p token state lab index slot slot' :
  at_slot p token state index slot -> edge lab slot slot' ->
  label_token lab = Some token -> s_generation slot' = s_generation slot ->
  slot_ok (m_payload_capacity p) slot' ->
  moves p lab (set_m_slots (<[index := slot']> (m_slots p)) p).
Proof.
  intros (Htok & -> & Hi & Hst & Hg) Hedge Hlab Hgen Hok. split; [done|].
  rewrite Hlab. exists (Z.to_nat (slot_id token)), slot, slot'. repeat split; try done; try apply Htok.
  - apply Hok.
  - apply Hok.
  - apply Hok.
  - apply Hok.
  - apply Hok.
  - cbn [m_slots set_m_slots]. by eapply list_lookup_insert_eq, lookup_lt_Some.
  - congruence.
Qed.

(** ** What each operation does *)

Definition does (lab : label) (p p' : FrameSlotPool) : Prop :=
  moves p lab p' /\ m_active_operations p' = m_active_operations p.

(** An acquisition's result: a lease on the slot it moved, or nothing. *)
Definition write_acquired (r : option FrameWriteLease) (p p' : FrameSlotPool) : Prop :=
  match r with
  | None => does LNone p p'
  | Some l => does (LClaim (w_token l)) p p' /\ w_pool l = true /\ w_active l = true /\
      m_has_producer p' = true
  end.
Definition read_acquired (r : option FrameReadLease) (p p' : FrameSlotPool) : Prop :=
  match r with
  | None => does LNone p p'
  | Some l => does (LRead (r_token l)) p p' /\ r_pool l = true /\ r_active l = true /\
      m_has_consumer p' = true
  end.

Lemma does_none p : does LNone p p.
Proof. split; [|done]. by apply moves_none. Qed.

Lemma does_stay p p' : same_pool p p' -> m_slots p' = m_slots p ->
  m_active_operations p' = m_active_operations p -> does LNone p p'.
Proof. intros. split; [by apply moves_none|done]. Qed.

Lemma does_before p p1 lab p' : same_pool p p1 -> m_slots p1 = m_slots p ->
  m_active_operations p1 = m_active_operations p -> does lab p1 p' -> does lab p p'.
Proof. intros Hs Hm Ha [H H']. split; [by eapply moves_before|congruence]. Qed.

Lemma write_acquired_before p p1 r p' : same_pool p p1 -> m_slots p1 = m_slots p ->
  m_active_operations p1 = m_active_operations p -> write_acquired r p1 p' -> write_acquired r p p'.
Proof. destruct r; simpl; intros ??? H; [destruct H; split; [|done]|]; by eapply does_before. Qed.

Lemma read_acquired_before p p1 r p' : same_pool p p1 -> m_slots p1 = m_slots p ->
  m_active_operations p1 = m_active_operations p -> read_acquired r p1 p' -> read_acquired r p p'.
Proof. destruct r; simpl; intros ??? H; [destruct H; split; [|done]|]; by eapply does_before. Qed.

Lemma find_free_spec slots :
  (find_free slots = length slots /\ Forall (fun s => s_state s <> Free) slots) \/
  exists s, slots !! find_free slots = Some s /\ s_state s = Free.
Proof.
  induction slots as [|s slots IH]; simpl; [by left|].
  case_bool_decide as Hs; [by right; eauto|].
  destruct IH as [[-> Hf]|(s' & Hl & Hfree)]; [left; split; [done|by constructor]|right].
  simpl. eauto.
Qed.

Lemma slot_ok_lookup p index slot :
  pool_inv p -> m_slots p !! index = Some slot -> slot_ok (m_payload_capacity p) slot.
Proof. intros (_ & _ & H) Hl. by eapply Forall_lookup_1 in H. Qed.

Lemma slot_ok_claimed capacity slot : 0 < capacity ->
  s_generation slot <> uint64_max -> slot_ok capacity slot ->
  slot_ok capacity (claimed slot) /\ s_generation (claimed slot) = s_generation slot + 1.
Proof.
  unfold uint64_max. intros Hc Hm ([Hg0 Hg1] & _ & Hl). unfold slot_ok, claimed. simpl.
  rewrite wrap_u_small by (unfold in_u; lia). unfold in_u. repeat split; done || lia.
Qed.

Lemma wp_claim p index slot :
  pool_inv p -> m_slots p !! index = Some slot -> s_state slot = Free ->
  m_has_producer p = true ->
  wp (claim index) (fun l p' => write_acquired (Some l) p p') (fun _ p' => does LNone p p') p.
Proof.
  intros Hinv Hi Hfree Hprod. unfold claim. wp_step. eapply wp_slot_at; [done|].
  destruct (Z.eqb_spec (s_generation slot) uint64_max) as [|Hg]; [wp_step; apply does_none|].
  pose proof (slot_ok_lookup p index slot Hinv Hi) as Hok.
  destruct (slot_ok_claimed (m_payload_capacity p) slot) as [Hok' Hgen]; try done; [apply Hinv|].
  pose proof (lookup_lt_Some _ _ _ Hi) as Hlt.
  assert (Hlen : Z.of_nat (length (m_slots p)) <= 64) by apply Hinv.
  assert (Hu : u32 (Z.of_nat index) = Z.of_nat index) by (apply wrap_u_small; unfold in_u; lia).
  wp_step. unfold set_slot. wp_step. wp_step. wp_step. wp_step.
  split; [|done]. split; [|done]. split; [done|]. cbn [label_token w_token].
  exists index, slot, (claimed slot). repeat split; try done; try apply Hok'.
  - cbn [slot_id]. rewrite Hu. lia.
  - cbn [generation]. destruct Hok as [[? _] _]. lia.
  - cbn [slot_id]. rewrite Hu. lia.
  - cbn [m_slots set_m_slots]. by apply list_lookup_insert_eq.
Qed.

Lemma wp_TryAcquireWrite self p : pool_inv p ->
  wp (TryAcquireWrite self) (fun r p' => write_acquired r p p') (fun _ p' => does LNone p p') p.
Proof.
  intros Hinv. unfold TryAcquireWrite. wp_step.
  apply wp_RegisterProducerLocked; [|intros; apply does_none].
  intros p1 Hs Hm Ha Hc Hp Ht. wp_step. wp_step.
  assert (Hnone : does LNone p p1) by (split; [by apply moves_none|done]).
  destruct (m_closed p1); [by wp_step|]. unfold FindFreeSlotLocked. rewrite Hm.
  destruct (find_free_spec (m_slots p)) as [[-> _]|(s & Hl & Hfree)].
  { rewrite Nat.eqb_refl. by wp_step. }
  pose proof (lookup_lt_Some _ _ _ Hl). rewrite (proj2 (Nat.eqb_neq _ _)) by lia.
  wp_step. assert (pool_inv p1) by by (eapply pool_inv_moves; [|apply Hnone]).
  pose proof (wp_claim p1 (find_free (m_slots p)) s) as Hw. unfold wp in *.
  rewrite Hm in Hw. specialize (Hw ltac:(done) Hl Hfree Hp).
  destruct (claim _ p1) as [[l|e| |] p2]; try done.
  - by apply (write_acquired_before p p1 (Some l)).
  - by apply (does_before p p1).
Qed.

Lemma wp_AcquireWrite_wait p : pool_inv p -> m_has_producer p = true ->
  wp AcquireWrite_wait
    (fun r p' => match r with Waits => p' = p | Done r => write_acquired r p p' end)
    (fun _ p' => does LNone p p') p.
Proof.
  intros Hinv Hp. unfold AcquireWrite_wait. wp_step. wp_step.
  destruct (m_closed p); [wp_step; apply does_none|]. unfold FindFreeSlotLocked.
  destruct (find_free_spec (m_slots p)) as [[-> _]|(s & Hl & Hfree)].
  { rewrite Nat.eqb_refl. by wp_step. }
  pose proof (lookup_lt_Some _ _ _ Hl). rewrite (proj2 (Nat.eqb_neq _ _)) by lia.
  wp_step. eapply wp_mono; [by eapply wp_claim|]. intros l p' Hw. by wp_step.
Qed.

(** The counter: entering a blocking operation adds one, its end takes it off. *)
Lemma wp_finishing {A} (body : M FrameSlotPool (progress A)) Q E p :
  wp body (fun r p' =>
      match r with
      | Waits => Q Waits p'
      | Done a => m_active_operations p' <> 0 /\
          Q (Done a) (set_active_operations (u64 (m_active_operations p' - 1)) p')
      end)
    (fun e p' => m_active_operations p' <> 0 /\
       E e (set_active_operations (u64 (m_active_operations p' - 1)) p')) p ->
  wp (finishing body) Q E p.
Proof.
  unfold wp, finishing, EndOperationLocked, mbind, M_bind, get, modify, mret, M_ret, lift.
  destruct (body p) as [[[|a]|e| |] p']; try done; intros [Hn H];
    by rewrite (proj2 (Z.eqb_neq _ _)) by done.
Qed.

Lemma wp_AcquireRead_iteration token blocking p : pool_inv p -> 0 <= slot_id token ->
  m_has_consumer p = true ->
  wp (AcquireRead_iteration token blocking)
    (fun r p' => match r with
                 | Waits => p' = p /\ holds_slot Writing p token
                 | Done r => read_acquired r p p' end)
    (fun _ p' => does LNone p p') p.
Proof.
  intros Hinv Hid Hc. unfold AcquireRead_iteration. wp_step.
  apply wp_SlotForTokenLocked; [done| |intros; apply does_none].
  intros index slot Hat. wp_step. eapply wp_slot_at; [apply Hat|]. wp_step. wp_step.
  pose proof (slot_ok_lookup p index slot Hinv ltac:(apply Hat)) as Hok.
  destruct (s_state slot) eqn:Hst.
  - destruct (_ || _); wp_step; apply does_none.
  - destruct (_ || _); wp_step; [apply does_none|]. split; [done|]. by exists index, slot.
  - wp_step. unfold set_slot. wp_step. wp_step. split; [|done]. split; [|done].
    by eapply moves_set_slot.
  - destruct (_ || _); wp_step; apply does_none.
Qed.

(** Entering, and going on with, a blocking operation. *)
Lemma does_finish lab p n p' : does lab p p' ->
  does lab (set_active_operations n p) (set_active_operations n p').
Proof. intros [[Hs Hm] _]. split; [|done]. by destruct lab. Qed.

(** How a step of a blocking operation leaves the pool that was [p] without the
    operation: it waits, counted, and [X] holds, or it is done. *)
Definition blocking_spec {A} (acquired : A -> FrameSlotPool -> FrameSlotPool -> Prop)
    (X : FrameSlotPool -> Prop) (p : FrameSlotPool) (r : progress A) (p' : FrameSlotPool) : Prop :=
  match r with
  | Waits => moves p LNone p' /\ m_active_operations p' = m_active_operations p + 1 /\ X p'
  | Done r => acquired r p p'
  end.

(** The pool with one more operation active. *)
Definition entered (p : FrameSlotPool) : FrameSlotPool :=
  set_active_operations (m_active_operations p + 1) p.

Definition acquired_ok {A} (acquired : A -> FrameSlotPool -> FrameSlotPool -> Prop) : Prop :=
  forall r p p' n, acquired r p p' -> m_active_operations p' = m_active_operations p /\
    acquired r (set_active_operations n p) (set_active_operations n p').

Lemma write_acquired_ok : acquired_ok write_acquired.
Proof.
  intros [l|] p p' n; simpl; [intros [H ?]|intros H]; (split; [apply H|]);
    [split; [|done]|]; by apply does_finish.
Qed.

Lemma read_acquired_ok : acquired_ok read_acquired.
Proof.
  intros [l|] p p' n; simpl; [intros [H ?]|intros H]; (split; [apply H|]);
    [split; [|done]|]; by apply does_finish.
Qed.

Lemma set_active_operations_id p n :
  set_active_operations (m_active_operations p) (set_active_operations n p) = p.
Proof. by destruct p. Qed.

Lemma wp_blocking {A} acquired X (body : M FrameSlotPool (progress A)) p :
  acquired_ok acquired -> 0 <= m_active_operations p < 2 ^ 64 - 1 ->
  wp body (fun r p' => match r with
                       | Waits => does LNone (entered p) p' /\ X p'
                       | Done r => acquired r (entered p) p' end)
    (fun _ p' => does LNone (entered p) p') (entered p) ->
  wp (finishing body) (blocking_spec acquired X p) (fun _ p' => does LNone p p') (entered p).
Proof.
  intros Hok Hn Hw. apply wp_finishing. unfold wp in *.
  assert (Hwrap : u64 (m_active_operations p + 1 - 1) = m_active_operations p)
    by (rewrite Z.add_simpl_r; apply wrap_u_small; unfold in_u; lia).
  assert (Hend : forall p', does LNone (entered p) p' ->
    does LNone p (set_active_operations (m_active_operations p) p')).
  { intros p' H. apply (does_finish _ _ (m_active_operations p)) in H.
    unfold entered in H. by rewrite set_active_operations_id in H. }
  destruct (body (entered p)) as [[[|a]|e| |] p']; try done; simpl.
  - destruct Hw as [[Hm Ha] HX]. split; [|done]. apply (moves_before _ (entered p)); done.
  - destruct (Hok a _ p' (m_active_operations p) Hw) as [Ha Hacq].
    rewrite Ha. simpl. rewrite Hwrap. split; [lia|].
    unfold entered in Hacq. by rewrite set_active_operations_id in Hacq.
  - destruct Hw as [Hm Ha]. rewrite Ha. simpl. rewrite Hwrap. split; [lia|]. by apply Hend.
Qed.

Definition is_producer (self : thread_id) (p : FrameSlotPool) : Prop :=
  m_has_producer p = true /\ m_producer_thread p = self.
Definition is_consumer (self : thread_id) (p : FrameSlotPool) : Prop :=
  m_has_consumer p = true /\ m_consumer_thread p = self.

Lemma wp_AcquireWrite self p : pool_inv p -> 0 <= m_active_operations p < 2 ^ 64 - 1 ->
  wp (AcquireWrite self) (blocking_spec write_acquired (is_producer self) p)
    (fun _ p' => does LNone p p') p.
Proof.
  intros Hinv Hn. unfold AcquireWrite. wp_step. wp_step.
  rewrite wrap_u_small by (unfold in_u; lia).
  apply wp_blocking; [apply write_acquired_ok|done|].
  wp_step. apply wp_RegisterProducerLocked; [|intros; apply does_none].
  intros p1 Hs Hm Ha Hc Hp Ht. assert (does LNone (entered p) p1) by exact (does_stay (entered p) p1 Hs Hm Ha).
  assert (Hinv1 : pool_inv p1) by exact (pool_inv_moves (entered p) LNone p1 Hinv (moves_none _ _ Hs Hm)).
  pose proof (wp_AcquireWrite_wait p1 Hinv1 Hp) as Hw. unfold wp in *.
  destruct (AcquireWrite_wait p1) as [[[|r]|e| |] p2]; try done.
  - by subst p2.
  - by eapply write_acquired_before.
  - by eapply does_before.
Qed.

Lemma wp_AcquireWrite_resume self p : pool_inv p -> 0 <= m_active_operations p < 2 ^ 64 - 1 ->
  is_producer self p ->
  wp AcquireWrite_resume (blocking_spec write_acquired (is_producer self) p)
    (fun _ p' => does LNone p p') (entered p).
Proof.
  intros Hinv Hn Hp. apply wp_blocking; [apply write_acquired_ok|done|].
  pose proof (wp_AcquireWrite_wait (entered p) Hinv (proj1 Hp)) as Hw. unfold wp in *.
  destruct (AcquireWrite_wait (entered p)) as [[[|r]|e| |] p2]; try done.
  subst p2. split; [apply does_none|done].
Qed.

Lemma wp_AcquireReadImpl self token blocking p :
  pool_inv p -> 0 <= m_active_operations p < 2 ^ 64 - 1 -> 0 <= slot_id token ->
  wp (AcquireReadImpl self token blocking) (blocking_spec read_acquired (is_consumer self) p)
    (fun _ p' => does LNone p p') p.
Proof.
  intros Hinv Hn Hid. unfold AcquireReadImpl. wp_step. wp_step.
  rewrite wrap_u_small by (unfold in_u; lia).
  apply wp_blocking; [apply read_acquired_ok|done|].
  wp_step. apply wp_SlotForTokenLocked; [done| |intros; apply does_none]. intros _ _ _.
  wp_step. apply wp_RegisterConsumerLocked; [|intros; apply does_none].
  intros p1 Hs Hm Ha Hc Hp Ht. assert (does LNone (entered p) p1) by exact (does_stay (entered p) p1 Hs Hm Ha).
  assert (Hinv1 : pool_inv p1) by exact (pool_inv_moves (entered p) LNone p1 Hinv (moves_none _ _ Hs Hm)).
  pose proof (wp_AcquireRead_iteration token blocking p1 Hinv1 Hid Hp) as Hw. unfold wp in *.
  destruct (AcquireRead_iteration token blocking p1) as [[[|r]|e| |] p2]; try done.
  - by destruct Hw as [-> _].
  - by eapply read_acquired_before.
  - by eapply does_before.
Qed.

Lemma wp_AcquireRead_resume self token p :
  pool_inv p -> 0 <= m_active_operations p < 2 ^ 64 - 1 -> 0 <= slot_id token ->
  is_consumer self p ->
  wp (AcquireRead_resume token) (blocking_spec read_acquired (is_consumer self) p)
    (fun _ p' => does LNone p p') (entered p).
Proof.
  intros Hinv Hn Hid Hp. apply wp_blocking; [apply read_acquired_ok|done|].
  pose proof (wp_AcquireRead_iteration token true (entered p) Hinv Hid (proj1 Hp)) as Hw.
  unfold wp in *.
  destruct (AcquireRead_iteration token true (entered p)) as [[[|r]|e| |] p2]; try done.
  destruct Hw as [-> _]. split; [apply does_none|done].
Qed.

Lemma wp_DiscardPublished self token p : pool_inv p -> 0 <= slot_id token ->
  wp (DiscardPublished self token)
    (fun _ p' => does (LDiscard token) p p') (fun _ p' => does LNone p p') p.
Proof.
  intros Hinv Hid. unfold DiscardPublished. wp_step.
  apply wp_SlotForTokenLocked; [done| |intros; apply does_none].
  intros index slot Hat. wp_step. apply wp_RegisterConsumerLocked; [|intros; apply does_none].
  intros p1 Hs Hm Ha Hc Hp Ht. wp_step.
  assert (Hi : m_slots p1 !! index = Some slot) by (rewrite Hm; apply Hat).
  eapply wp_slot_at; [exact Hi|]. wp_step. wp_step.
  assert (does LNone p p1) by by apply does_stay.
  destruct (negb (m_closed p1)); cbn [orb]; [by wp_step|].
  case_bool_decide as Hst; cbn [negb]; [|by wp_step]. unfold set_slot. wp_step.
  apply (does_before p p1); try done. split; [|done].
  assert (Hid1 : m_pool_id p1 = m_pool_id p) by apply Hs.
  eapply (moves_set_slot p1 token (s_state slot)); try done.
  - destruct Hat as (Htok & Hidx & _ & _ & Hg). rewrite <- Hid1 in Htok.
    exact (conj Htok (conj Hidx (conj Hi (conj eq_refl Hg)))).
  - pose proof (slot_ok_lookup p index slot Hinv ltac:(apply Hat)) as (Hg & Hsz & Hl).
    assert (m_payload_capacity p1 = m_payload_capacity p) as -> by apply Hs.
    destruct Hinv as (_ & ? & _). unfold slot_ok; simpl. split; [done|]. split; [lia|done].
Qed.

(** The operations behind a write lease. *)
Lemma wp_write_op {A} self token error (k : nat * SlotStorage -> M FrameSlotPool A) Q p :
  0 <= slot_id token ->
  (forall index slot, is_producer self p -> at_slot p token Writing index slot ->
     wp (k (index, slot)) Q (fun _ p' => p' = p) p) ->
  wp (AssertProducerLocked self;; x ← slot_in Writing error token; k x) Q (fun _ p' => p' = p) p.
Proof.
  intros Hid Hk. wp_step. apply wp_AssertProducerLocked; [|done]. intros Hp Ht. wp_step.
  apply wp_slot_in; [done| |done]. intros index slot Hat. by apply Hk.
Qed.

Lemma wp_read_op {A} self token error (k : nat * SlotStorage -> M FrameSlotPool A) Q p :
  0 <= slot_id token ->
  (forall index slot, is_consumer self p -> at_slot p token Reading index slot ->
     wp (k (index, slot)) Q (fun _ p' => p' = p) p) ->
  wp (AssertConsumerLocked self;; x ← slot_in Reading error token; k x) Q (fun _ p' => p' = p) p.
Proof.
  intros Hid Hk. wp_step. apply wp_AssertConsumerLocked; [|done]. intros Hp Ht. wp_step.
  apply wp_slot_in; [done| |done]. intros index slot Hat. by apply Hk.
Qed.

Lemma slot_ok_at p token state index slot : pool_inv p -> at_slot p token state index slot ->
  slot_ok (m_payload_capacity p) slot.
Proof. intros Hinv Hat. by eapply slot_ok_lookup, Hat. Qed.

Lemma does_set_slot p token state lab index slot slot' :
  at_slot p token state index slot -> edge lab slot slot' ->
  label_token lab = Some token -> s_generation slot' = s_generation slot ->
  slot_ok (m_payload_capacity p) slot' ->
  wp (set_slot index slot') (fun _ p' => does lab p p') (fun _ p' => p' = p) p.
Proof. intros. unfold set_slot. wp_step. split; [|done]. by eapply moves_set_slot. Qed.

(** A successful one needs its owner and its slot; conversely they suffice. *)
Lemma wp_SetWritePayloadSize self token size p : pool_inv p -> 0 <= slot_id token -> 0 <= size ->
  wp (SetWritePayloadSize self token size) (fun _ p' => does (LWrite token) p p')
    (fun _ p' => p' = p) p.
Proof.
  intros Hinv Hid Hs. apply wp_write_op; [done|]. intros index slot _ Hat.
  pose proof (slot_ok_at _ _ _ _ _ Hinv Hat) as (Hg & _ & Hl).
  wp_step. wp_step. destruct (Z.ltb_spec (m_payload_capacity p) size); [by wp_step|].
  assert (s_state slot = Writing) by apply Hat.
  by eapply does_set_slot.
Qed.

Lemma wp_PublishWrite self token p : pool_inv p -> 0 <= slot_id token ->
  wp (PublishWrite self token) (fun _ p' => does (LPublish token) p p') (fun _ p' => p' = p) p.
Proof.
  intros Hinv Hid. apply wp_write_op; [done|]. intros index slot _ Hat.
  pose proof (slot_ok_at _ _ _ _ _ Hinv Hat) as Hok.
  wp_step. wp_step. destruct (m_closed p); [by wp_step|].
  assert (s_state slot = Writing) by apply Hat.
  by eapply does_set_slot.
Qed.

Lemma slot_ok_freed capacity cancelled slot : 0 < capacity -> slot_ok capacity slot ->
  slot_ok capacity (freed cancelled slot).
Proof. intros Hc (Hg & _ & Hl). split; [done|]. split; [simpl; lia|done]. Qed.

Lemma wp_CancelWrite self token p :
  pool_inv p -> is_producer self p -> holds_slot Writing p token ->
  wp (CancelWrite self token) (fun _ p' => does (LCancel token) p p') (fun _ _ => False) p.
Proof.
  intros Hinv [Hp Ht] (index & slot & Hat). unfold CancelWrite. wp_step.
  apply wp_AssertProducerLocked; [|naive_solver]. intros _ _. wp_step.
  apply wp_slot_in; [apply Hat| |intros H; exfalso; apply H; by exists index, slot].
  clear dependent index slot. intros index slot Hat. unfold set_slot. wp_step.
  split; [|done]. assert (s_state slot = Writing) by apply Hat.
  eapply moves_set_slot; try done. apply slot_ok_freed; [apply Hinv|by eapply slot_ok_at].
Qed.

Lemma wp_ReleaseRead self token p :
  pool_inv p -> is_consumer self p -> holds_slot Reading p token ->
  wp (ReleaseRead self token) (fun _ p' => does (LRelease token) p p') (fun _ _ => False) p.
Proof.
  intros Hinv [Hp Ht] (index & slot & Hat). unfold ReleaseRead. wp_step.
  apply wp_AssertConsumerLocked; [|naive_solver]. intros _ _. wp_step.
  apply wp_slot_in; [apply Hat| |intros H; exfalso; apply H; by exists index, slot].
  clear dependent index slot. intros index slot Hat. unfold set_slot. wp_step.
  split; [|done]. assert (s_state slot = Reading) by apply Hat.
  eapply moves_set_slot; try done. apply slot_ok_freed; [apply Hinv|by eapply slot_ok_at].
Qed.

(** The span of an active write lease is its slot's whole buffer, and storing
    within it changes that slot's bytes only. *)
Lemma wp_WritePayload self token p : pool_inv p -> 0 <= slot_id token ->
  wp (WritePayload self token)
    (fun s p' => p' = p /\ exists slot, at_slot p token Writing (span_slot s) slot /\
       span_length s = Z.of_nat (length (s_payload slot))) (fun _ p' => p' = p) p.
Proof.
  intros Hinv Hid. apply wp_write_op; [done|]. intros index slot _ Hat.
  wp_step. split; [done|]. by exists slot.
Qed.

Lemma wp_store p token s slot offset b : pool_inv p ->
  at_slot p token Writing (span_slot s) slot ->
  span_length s = Z.of_nat (length (s_payload slot)) -> Z.of_nat offset < span_length s ->
  wp (store s offset b) (fun _ p' => does (LWrite token) p p') (fun _ p' => p' = p) p.
Proof.
  intros Hinv Hat Hl Ho. unfold store. wp_step. eapply wp_slot_at; [apply Hat|].
  rewrite (proj2 (Z.ltb_lt _ _)), (proj2 (Nat.ltb_lt _ _)) by lia. cbn [andb].
  pose proof (slot_ok_at _ _ _ _ _ Hinv Hat) as (Hg & Hsz & Hlen).
  assert (s_state slot = Writing) by apply Hat.
  eapply does_set_slot; try done.
  - split; [done|]. split; [done|]. split; [done|]. apply length_insert.
  - split; [done|]. split; [done|]. simpl. by rewrite length_insert.
Qed.

(** ** What the leases keep *)

(** The tokens of the active leases, by position. *)
Definition write_tokens (w : World) : list (option FrameSlotToken) :=
  map (fun l => if w_active l then Some (w_token l) else None) (writes w).
Definition read_tokens (w : World) : list (option FrameSlotToken) :=
  map (fun l => if r_active l then Some (r_token l) else None) (reads w).

Definition leases_ok (state : FrameSlotState) (p : FrameSlotPool)
    (tokens : list (option FrameSlotToken)) : Prop :=
  (forall k t, tokens !! k = Some (Some t) -> holds_slot state p t) /\
  (forall k1 k2 t1 t2, tokens !! k1 = Some (Some t1) -> tokens !! k2 = Some (Some t2) ->
     k1 <> k2 -> slot_id t1 <> slot_id t2).

(** The label takes its slot out of [state]. *)
Definition leaves (state : FrameSlotState) (lab : label) : bool :=
  match lab, state with
  | LClaim _, Free | LRead _, Published | LDiscard _, Published
  | LPublish _, Writing | LCancel _, Writing | LRelease _, Reading => true
  | _, _ => false
  end.

Lemma edge_leaves lab slot slot' : edge lab slot slot' ->
  leaves (s_state slot) lab = true \/
  s_state slot' = s_state slot /\ s_generation slot' = s_generation slot.
Proof.
  destruct lab; simpl; intros H; [done|..]; destruct H as [Hs H]; rewrite Hs;
    first [by left | right; destruct H as (H1 & H2 & _); done].
Qed.

Lemma holds_moves state p lab p' t :
  holds_slot state p t -> moves p lab p' ->
  leaves state lab = false \/
    (forall t', label_token lab = Some t' -> slot_id t' <> slot_id t) ->
  holds_slot state p' t.
Proof.
  intros (i & s & (Hid & Hpid & Hg) & -> & Hi & Hst & Hgen) [(_ & Hpool & _) Hm] Hleave.
  rewrite <- Hpool in Hpid. destruct (label_token lab) as [t'|].
  2:{ exists (Z.to_nat (slot_id t)), s. rewrite <- Hm in Hi. repeat (split; [done|]). done. }
  destruct Hm as (j & s0 & s' & Hj & Hedge & _ & Hslots & (Ht' & -> & Hj' & _)).
  destruct (decide (Z.to_nat (slot_id t') = Z.to_nat (slot_id t))) as [Heq|Hne].
  - destruct Hleave as [Hleave|Hne]; [|exfalso; apply (Hne t' eq_refl); lia].
    rewrite Heq in *. assert (s0 = s) as -> by congruence.
    destruct (edge_leaves _ _ _ Hedge) as [H|[Hs Hg']]; [congruence|].
    exists (Z.to_nat (slot_id t)), s'. repeat (split; [done|]). split; congruence.
  - exists (Z.to_nat (slot_id t)), s. split; [done|]. split; [done|].
    rewrite Hslots, list_lookup_insert_ne by done. done.
Qed.

Lemma leases_ok_moves state p lab p' tokens :
  leases_ok state p tokens -> moves p lab p' -> leaves state lab = false ->
  leases_ok state p' tokens.
Proof. intros [H1 H2] Hm Hl. split; [|done]. intros k t Hk. eapply holds_moves; eauto. Qed.

(** The lease whose slot leaves the state gives it up; the others stay. *)
Lemma leases_ok_drop state p lab p' tokens k t :
  leases_ok state p tokens -> moves p lab p' -> tokens !! k = Some (Some t) ->
  label_token lab = Some t -> leases_ok state p' (<[k := None]> tokens).
Proof.
  intros [H1 H2] Hm Hk Hlab.
  assert (Hlook : forall j u, <[k := None]> tokens !! j = Some (Some u) ->
    j <> k /\ tokens !! j = Some (Some u)).
  { intros j u Hj. destruct (decide (j = k)) as [->|Hne].
    - rewrite list_lookup_insert_eq in Hj by (by eapply lookup_lt_Some). done.
    - by rewrite list_lookup_insert_ne in Hj. }
  split.
  - intros j u Hj. destruct (Hlook j u Hj) as [Hne Hj'].
    eapply holds_moves; [by eapply H1|done|right].
    intros t' Ht'. rewrite Hlab in Ht'. injection Ht' as <-. by eapply H2.
  - intros j1 j2 t1 t2 Hj1 Hj2. destruct (Hlook _ _ Hj1), (Hlook _ _ Hj2). by eapply H2.
Qed.

(** A new lease's slot was not in the state, so no active lease had it. *)
Lemma leases_ok_add state p lab p' tokens t :
  leases_ok state p tokens -> moves p lab p' -> label_token lab = Some t ->
  leaves state lab = false -> holds_slot state p' t ->
  (forall slot, m_slots p !! Z.to_nat (slot_id t) = Some slot -> s_state slot <> state) ->
  leases_ok state p' (tokens ++ [Some t]).
Proof.
  intros Hok Hm Hlab Hleave Hnew Hold.
  destruct (leases_ok_moves _ _ _ _ _ Hok Hm Hleave) as [H1 H2].
  assert (Hfresh : forall k u, tokens !! k = Some (Some u) -> slot_id u <> slot_id t).
  { intros k u Hk Heq. destruct (proj1 Hok k u Hk) as (i & s & _ & -> & Hi & Hst & _).
    rewrite Heq in Hi. by apply (Hold _ Hi). }
  assert (Hlook : forall k u, (tokens ++ [Some t]) !! k = Some (Some u) ->
    tokens !! k = Some (Some u) \/ k = length tokens /\ u = t).
  { intros k u Hk. apply lookup_app_Some in Hk as [Hk|[Hge Hk]]; [by left|right].
    apply list_lookup_singleton_Some in Hk as [Hk Hu]. split; [lia|congruence]. }
  split.
  - intros k u Hk. destruct (Hlook k u Hk) as [Hk'|[_ ->]]; [by eapply H1|done].
  - intros k1 k2 t1 t2 Hk1 Hk2 Hne.
    destruct (Hlook _ _ Hk1) as [Hk1'|[-> ->]], (Hlook _ _ Hk2) as [Hk2'|[-> ->]].
    + by eapply H2.
    + by eapply Hfresh.
    + apply not_eq_sym. by eapply Hfresh.
    + done.
Qed.

(** Moving a lease. *)
Lemma leases_ok_relocate state p tokens k x :
  leases_ok state p tokens -> tokens !! k = Some x ->
  leases_ok state p (<[k := None]> tokens ++ [x]).
Proof.
  intros [H1 H2] Hk. pose proof (lookup_lt_Some _ _ _ Hk) as Hlt.
  assert (Hlook : forall j u, (<[k := None]> tokens ++ [x]) !! j = Some (Some u) ->
    exists j', tokens !! j' = Some (Some u) /\
      (j' = j /\ j <> k /\ (j < length tokens)%nat \/ j' = k /\ j = length tokens)).
  { intros j u Hj. apply lookup_app_Some in Hj as [Hj|[Hge Hj]].
    - destruct (decide (j = k)) as [->|Hne].
      + rewrite list_lookup_insert_eq in Hj by done. done.
      + rewrite list_lookup_insert_ne in Hj by done. exists j.
        pose proof (lookup_lt_Some _ _ _ Hj). split; [done|by left].
    - apply list_lookup_singleton_Some in Hj as [Hj Hu]. rewrite length_insert in *.
      exists k. split; [by rewrite Hk, <- Hu|right; split; [done|lia]]. }
  split.
  - intros j u Hj. destruct (Hlook j u Hj) as (j' & Hj' & _). by eapply H1.
  - intros j1 j2 t1 t2 Hj1 Hj2 Hne. destruct (Hlook _ _ Hj1) as (j1' & Hj1' & ?).
    destruct (Hlook _ _ Hj2) as (j2' & Hj2' & ?). eapply (H2 j1' j2'); try done. lia.
Qed.

(** ** The invariant of programs of leases *)

Definition waits_ok (p : FrameSlotPool) (ws : gmap thread_id wait_op) : Prop :=
  forall self op, ws !! self = Some op ->
    match op with
    | WaitWrite => is_producer self p
    | WaitRead token => is_consumer self p /\ 0 <= slot_id token
    end.

Record world_inv (w : World) : Prop := {
  inv_pool : pool_inv (pool w);
  inv_count : m_active_operations (pool w) = Z.of_nat (size (waits w));
  inv_waits : waits_ok (pool w) (waits w);
  inv_writes : leases_ok Writing (pool w) (write_tokens w);
  inv_reads : leases_ok Reading (pool w) (read_tokens w);
  inv_write_pool : Forall (fun l => w_active l = true ->
    w_pool l = true /\ m_has_producer (pool w) = true) (writes w);
  inv_read_pool : Forall (fun l => r_active l = true ->
    r_pool l = true /\ m_has_consumer (pool w) = true) (reads w) }.

Lemma is_producer_same self p p' : same_pool p p' -> is_producer self p -> is_producer self p'.
Proof. intros (_ & _ & H & _) [Hp <-]. by apply H. Qed.

Lemma is_consumer_same self p p' : same_pool p p' -> is_consumer self p -> is_consumer self p'.
Proof. intros (_ & _ & _ & H) [Hp <-]. by apply H. Qed.

Lemma waits_ok_same p p' ws : same_pool p p' -> waits_ok p ws -> waits_ok p' ws.
Proof.
  intros Hs H self [|token] Hop; specialize (H self _ Hop); simpl in *.
  - by eapply is_producer_same.
  - split; [by eapply is_consumer_same, H|apply H].
Qed.

(** Only the two owners ever wait. *)
Lemma waits_bound p ws : waits_ok p ws -> (size ws <= 2)%nat.
Proof.
  intros H. rewrite <- size_dom.
  transitivity (size ({[m_producer_thread p; m_consumer_thread p]} : gset thread_id)).
  - apply subseteq_size. intros t Ht. apply elem_of_dom in Ht as [op Hop].
    specialize (H t op Hop). destruct op; [destruct H as [_ <-]|destruct H as [[_ <-] _]]; set_solver.
  - rewrite size_union_alt, size_singleton.
    assert (size ({[m_consumer_thread p]} ∖ {[m_producer_thread p]} : gset thread_id)
      <= size ({[m_consumer_thread p]} : gset thread_id))%nat by (apply subseteq_size; set_solver).
    rewrite size_singleton in *. lia.
Qed.

Lemma write_flags_same p p' (ls : list FrameWriteLease) : same_pool p p' ->
  Forall (fun l => w_active l = true -> w_pool l = true /\ m_has_producer p = true) ls ->
  Forall (fun l => w_active l = true -> w_pool l = true /\ m_has_producer p' = true) ls.
Proof.
  intros (_ & _ & Hp & _) H. eapply Forall_impl; [exact H|]. intros l Hl Ha.
  destruct (Hl Ha) as [? Hh]. split; [done|]. by apply Hp.
Qed.

Lemma read_flags_same p p' (ls : list FrameReadLease) : same_pool p p' ->
  Forall (fun l => r_active l = true -> r_pool l = true /\ m_has_consumer p = true) ls ->
  Forall (fun l => r_active l = true -> r_pool l = true /\ m_has_consumer p' = true) ls.
Proof.
  intros (_ & _ & _ & Hp) H. eapply Forall_impl; [exact H|]. intros l Hl Ha.
  destruct (Hl Ha) as [? Hh]. split; [done|]. by apply Hp.
Qed.

(** A step that changes neither a lease nor the states they rely on. *)
Lemma world_inv_does w lab p' :
  world_inv w -> does lab (pool w) p' ->
  leaves Writing lab = false -> leaves Reading lab = false -> world_inv (set_pool p' w).
Proof.
  intros [] [Hm Ha] Hlw Hlr. assert (Hs : same_pool (pool w) p') by apply Hm. constructor; cbn.
  - by eapply pool_inv_moves.
  - by rewrite Ha.
  - by eapply waits_ok_same.
  - by eapply leases_ok_moves.
  - by eapply leases_ok_moves.
  - by eapply write_flags_same.
  - by eapply read_flags_same.
Qed.

(** An acquisition adds its lease. *)
Lemma world_inv_add_write w r p' :
  world_inv w -> write_acquired r (pool w) p' -> world_inv (add_write r (set_pool p' w)).
Proof.
  intros Hinv H. destruct r as [l|]; [|by eapply world_inv_does].
  destruct H as ([Hm Ha] & Hl & Hact & Hp). destruct Hinv.
  assert (Hs : same_pool (pool w) p') by apply Hm. constructor; cbn.
  - by eapply pool_inv_moves.
  - by rewrite Ha.
  - by eapply waits_ok_same.
  - unfold write_tokens; cbn. rewrite map_app. cbn. rewrite Hact.
    pose proof Hm as [_ (i & s & s' & Hi & (Hfree & _ & ->) & _ & Hslots & Hat)].
    eapply leases_ok_add; [done|exact Hm|done|done|by exists i, (claimed s)|].
    destruct Hat as (_ & -> & _). intros slot Hslot. assert (slot = s) as -> by congruence.
    by rewrite Hfree.
  - by eapply leases_ok_moves.
  - apply Forall_app. split; [by eapply write_flags_same|]. by repeat constructor.
  - by eapply read_flags_same.
Qed.

Lemma world_inv_add_read w r p' :
  world_inv w -> read_acquired r (pool w) p' -> world_inv (add_read r (set_pool p' w)).
Proof.
  intros Hinv H. destruct r as [l|]; [|by eapply world_inv_does].
  destruct H as ([Hm Ha] & Hl & Hact & Hp). destruct Hinv.
  assert (Hs : same_pool (pool w) p') by apply Hm. constructor; cbn.
  - by eapply pool_inv_moves.
  - by rewrite Ha.
  - by eapply waits_ok_same.
  - by eapply leases_ok_moves.
  - unfold read_tokens; cbn. rewrite map_app. cbn. rewrite Hact.
    pose proof Hm as [_ (i & s & s' & Hi & (Hpub & ->) & _ & Hslots & Hat)].
    eapply leases_ok_add; [done|exact Hm|done|done|by exists i, (in_state Reading s)|].
    destruct Hat as (_ & -> & _). intros slot Hslot. assert (slot = s) as -> by congruence.
    by rewrite Hpub.
  - by eapply write_flags_same.
  - apply Forall_app. split; [by eapply read_flags_same|]. by repeat constructor.
Qed.

(** A blocking operation that waits is counted. *)
Lemma world_inv_wait w self op p' :
  world_inv w -> waits w !! self = None -> moves (pool w) LNone p' ->
  m_active_operations p' = m_active_operations (pool w) + 1 ->
  match op with
  | WaitWrite => is_producer self p'
  | WaitRead token => is_consumer self p' /\ 0 <= slot_id token
  end -> world_inv (set_waits (<[self := op]> (waits w)) (set_pool p' w)).
Proof.
  intros [] Hnone Hm Ha Hop. assert (Hs : same_pool (pool w) p') by apply Hm. constructor; cbn.
  - by eapply pool_inv_moves.
  - rewrite map_size_insert_None by done. lia.
  - intros t op' Hl. apply lookup_insert_Some in Hl as [[<- <-]|[_ Hl]]; [done|].
    by eapply (waits_ok_same (pool w)).
  - by eapply leases_ok_moves.
  - by eapply leases_ok_moves.
  - by eapply write_flags_same.
  - by eapply read_flags_same.
Qed.

(** The world without the operation [self] is inside. *)
Definition resumed (self : thread_id) (w : World) : World :=
  mkWorld (set_active_operations (Z.of_nat (size (delete self (waits w)))) (pool w))
    (writes w) (reads w) (delete self (waits w)).

Lemma world_inv_resumed self op w : world_inv w -> waits w !! self = Some op ->
  world_inv (resumed self w) /\ entered (pool (resumed self w)) = pool w.
Proof.
  intros [] Hop. split.
  - constructor; cbn; try done.
    intros t op' Hl. apply lookup_delete_Some in Hl as [_ Hl]. by apply inv_waits0.
  - assert (Hsize : size (waits w) = S (size (delete self (waits w)))).
    { rewrite <- (insert_delete_id (waits w) self op) at 1 by done.
      apply map_size_insert_None, lookup_delete_eq. }
    unfold entered, resumed. cbn. rewrite Hsize in inv_count0.
    replace (Z.of_nat (size (delete self (waits w))) + 1) with (m_active_operations (pool w)) by lia.
    by destruct (pool w).
Qed.

Definition upd_write (k : nat) (l : FrameWriteLease) (p : FrameSlotPool) (w : World) : World :=
  mkWorld p (<[k := l]> (writes w)) (reads w) (waits w).
Definition upd_read (k : nat) (l : FrameReadLease) (p : FrameSlotPool) (w : World) : World :=
  mkWorld p (writes w) (<[k := l]> (reads w)) (waits w).

Lemma upd_write_id k l p w : writes w !! k = Some l -> upd_write k l p w = set_pool p w.
Proof. intros H. unfold upd_write. by rewrite list_insert_id. Qed.
Lemma upd_read_id k l p w : reads w !! k = Some l -> upd_read k l p w = set_pool p w.
Proof. intros H. unfold upd_read. by rewrite list_insert_id. Qed.
Lemma set_pool_id w : set_pool (pool w) w = w.
Proof. by destruct w. Qed.

Lemma write_tokens_lookup w k l : writes w !! k = Some l -> w_active l = true ->
  write_tokens w !! k = Some (Some (w_token l)).
Proof. intros H Ha. unfold write_tokens. by rewrite list_lookup_fmap, H; simpl; rewrite Ha. Qed.
Lemma read_tokens_lookup w k l : reads w !! k = Some l -> r_active l = true ->
  read_tokens w !! k = Some (Some (r_token l)).
Proof. intros H Ha. unfold read_tokens. by rewrite list_lookup_fmap, H; simpl; rewrite Ha. Qed.

(** Publishing, cancelling and releasing deactivate the lease they end. *)
Lemma world_inv_drop_write w k l lab p' :
  world_inv w -> writes w !! k = Some l -> w_active l = true ->
  does lab (pool w) p' -> label_token lab = Some (w_token l) -> leaves Reading lab = false ->
  world_inv (upd_write k (mkFrameWriteLease (w_pool l) (w_token l) false) p' w).
Proof.
  intros [] Hk Hact [Hm Ha] Hlab Hleave. assert (Hs : same_pool (pool w) p') by apply Hm.
  constructor; cbn.
  - by eapply pool_inv_moves.
  - by rewrite Ha.
  - by eapply waits_ok_same.
  - unfold write_tokens; cbn. rewrite list_fmap_insert. cbn.
    eapply leases_ok_drop; [exact inv_writes0|exact Hm| |exact Hlab].
    by apply write_tokens_lookup.
  - by eapply leases_ok_moves.
  - apply Forall_insert; [by eapply write_flags_same|done].
  - by eapply read_flags_same.
Qed.

Lemma world_inv_drop_read w k l lab p' :
  world_inv w -> reads w !! k = Some l -> r_active l = true ->
  does lab (pool w) p' -> label_token lab = Some (r_token l) -> leaves Writing lab = false ->
  world_inv (upd_read k (mkFrameReadLease (r_pool l) (r_token l) false) p' w).
Proof.
  intros [] Hk Hact [Hm Ha] Hlab Hleave. assert (Hs : same_pool (pool w) p') by apply Hm.
  constructor; cbn.
  - by eapply pool_inv_moves.
  - by rewrite Ha.
  - by eapply waits_ok_same.
  - by eapply leases_ok_moves.
  - unfold read_tokens; cbn. rewrite list_fmap_insert. cbn.
    eapply leases_ok_drop; [exact inv_reads0|exact Hm| |exact Hlab].
    by apply read_tokens_lookup.
  - by eapply write_flags_same.
  - apply Forall_insert; [by eapply read_flags_same|done].
Qed.

Lemma world_inv_move_write w k l : world_inv w -> writes w !! k = Some l ->
  world_inv (mkWorld (pool w) (<[k := (Write_move l).2]> (writes w) ++ [(Write_move l).1])
    (reads w) (waits w)).
Proof.
  intros [] Hk. constructor; try done; cbn.
  - unfold write_tokens; cbn. rewrite map_app, list_fmap_insert. cbn.
    eapply leases_ok_relocate; [done|]. unfold write_tokens. by rewrite list_lookup_fmap, Hk.
  - apply Forall_app. split; [apply Forall_insert; done|].
    constructor; [by eapply (Forall_lookup_1 _ _ _ _ inv_write_pool0)|done].
Qed.

Lemma world_inv_move_read w k l : world_inv w -> reads w !! k = Some l ->
  world_inv (mkWorld (pool w) (writes w) (<[k := (Read_move l).2]> (reads w) ++ [(Read_move l).1])
    (waits w)).
Proof.
  intros [] Hk. constructor; try done; cbn.
  - unfold read_tokens; cbn. rewrite map_app, list_fmap_insert. cbn.
    eapply leases_ok_relocate; [done|]. unfold read_tokens. by rewrite list_lookup_fmap, Hk.
  - apply Forall_app. split; [apply Forall_insert; done|].
    constructor; [by eapply (Forall_lookup_1 _ _ _ _ inv_read_pool0)|done].
Qed.

(** ** Every step *)

Definition world_moves (w w' : World) : Prop :=
  world_inv w' /\ exists lab, moves (pool w) lab (pool w').

Lemma world_moves_refl w : world_inv w -> world_moves w w.
Proof. intros H. split; [done|]. exists LNone. by apply moves_none. Qed.

Lemma wp_with_pool {A} (m : M FrameSlotPool A) Q E w :
  wp m (fun a p => Q a (set_pool p w)) (fun e p => E e (set_pool p w)) (pool w) ->
  wp (with_pool m) Q E w.
Proof. apply wp_on. Qed.

Lemma wp_of_pool {L A} (m : M FrameSlotPool A) Q E (l : L) p :
  wp m (fun a p' => Q a (l, p')) (fun e p' => E e (l, p')) p -> wp (of_pool m) Q E (l, p).
Proof. intros H. by apply wp_on. Qed.

Lemma wp_on_write {A} k (m : WriteM A) Q E w :
  (writes w !! k = None -> Q tt w) ->
  (forall l, writes w !! k = Some l ->
     wp m (fun _ s => Q tt (upd_write k s.1 s.2 w)) (fun e s => E e (upd_write k s.1 s.2 w))
       (l, pool w)) ->
  wp (on_write k m) Q E w.
Proof.
  intros HN HS. unfold on_write. wp_step. wp_step.
  destruct (writes w !! k) as [l|] eqn:Hk; [|wp_step; by apply HN].
  specialize (HS l eq_refl). wp_step. wp_step. unfold wp in *.
  destruct (m (l, pool w)) as [[a|e| |] [l' p']]; done.
Qed.

Lemma wp_on_read {A} k (m : ReadM A) Q E w :
  (reads w !! k = None -> Q tt w) ->
  (forall l, reads w !! k = Some l ->
     wp m (fun _ s => Q tt (upd_read k s.1 s.2 w)) (fun e s => E e (upd_read k s.1 s.2 w))
       (l, pool w)) ->
  wp (on_read k m) Q E w.
Proof.
  intros HN HS. unfold on_read. wp_step. wp_step.
  destruct (reads w !! k) as [l|] eqn:Hk; [|wp_step; by apply HN].
  specialize (HS l eq_refl). wp_step. wp_step. unfold wp in *.
  destruct (m (l, pool w)) as [[a|e| |] [l' p']]; done.
Qed.

Lemma wp_write_lease {A} (m : FrameSlotToken -> M FrameSlotPool A) Q E l p :
  (w_active l = true -> wp (m (w_token l)) (fun a p' => Q a (l, p')) (fun e p' => E e (l, p')) p) ->
  (forall e, E e (l, p)) -> wp (write_lease m) Q E (l, p).
Proof.
  intros Hm HE. unfold write_lease. wp_step. wp_step. destruct (w_active l); cbn [negb orb].
  - destruct (w_pool l); cbn [negb]; [|wp_step; apply HE]. by apply wp_of_pool, Hm.
  - wp_step. apply HE.
Qed.

(** A step that leaves the leases as they are. *)
Lemma stays_moves w p' : world_inv w -> p' = pool w -> world_moves w (set_pool p' w).
Proof. intros H ->. rewrite set_pool_id. by apply world_moves_refl. Qed.

Lemma does_moves w lab p' : world_inv w -> does lab (pool w) p' ->
  leaves Writing lab = false -> leaves Reading lab = false -> world_moves w (set_pool p' w).
Proof. intros. split; [by eapply world_inv_does|]. exists lab. by apply H0. Qed.

(** A step of a blocking operation, from the world [wb] without it. *)
Lemma wp_settle {A} (acquired : option A -> FrameSlotPool -> FrameSlotPool -> Prop)
    (add : option A -> World -> World) (X : FrameSlotPool -> Prop) self op
    (m : M FrameSlotPool (progress (option A))) wb p0 :
  world_inv wb -> waits wb !! self = None ->
  (forall r p', acquired r (pool wb) p' ->
     world_inv (add r (set_pool p' wb)) /\ pool (add r (set_pool p' wb)) = p' /\
     exists lab, moves (pool wb) lab p') ->
  (forall p', X p' -> match op with
                      | WaitWrite => is_producer self p'
                      | WaitRead token => is_consumer self p' /\ 0 <= slot_id token
                      end) ->
  wp m (blocking_spec acquired X (pool wb)) (fun _ p' => does LNone (pool wb) p') p0 ->
  wp (r ← with_pool m; modify (settle self op add r))
    (fun _ w' => world_moves wb w') (fun _ w' => world_moves wb w') (set_pool p0 wb).
Proof.
  intros Hinv Hnone Hacq HX Hm. wp_step. apply wp_with_pool. unfold wp in *. cbn [pool set_pool].
  destruct (m p0) as [[[|r]|e| |] p']; try done; cbn.
  - destruct Hm as (Hmv & Ha & HXp). split; [|by exists LNone].
    apply (world_inv_wait wb); [done|done|done|done|by apply HX].
  - destruct (Hacq r p' Hm) as (Hw & Hpool & lab & Hlab).
    change (world_moves wb (add r (set_pool p' wb))). split; [done|].
    rewrite Hpool. by exists lab.
  - by apply (does_moves wb LNone).
Qed.

Lemma acquired_write_world w r p' : world_inv w -> write_acquired r (pool w) p' ->
  world_inv (add_write r (set_pool p' w)) /\ pool (add_write r (set_pool p' w)) = p' /\
  exists lab, moves (pool w) lab p'.
Proof.
  intros Hinv H. split; [by apply world_inv_add_write|].
  destruct r as [l|]; (split; [done|]);
    [exists (LClaim (w_token l)); apply H|exists LNone; apply H].
Qed.

Lemma acquired_read_world w r p' : world_inv w -> read_acquired r (pool w) p' ->
  world_inv (add_read r (set_pool p' w)) /\ pool (add_read r (set_pool p' w)) = p' /\
  exists lab, moves (pool w) lab p'.
Proof.
  intros Hinv H. split; [by apply world_inv_add_read|].
  destruct r as [l|]; (split; [done|]);
    [exists (LRead (r_token l)); apply H|exists LNone; apply H].
Qed.

Lemma count_range w : world_inv w -> 0 <= m_active_operations (pool w) < 2 ^ 64 - 1.
Proof. intros []. pose proof (waits_bound _ _ inv_waits0). lia. Qed.

(** [steps_ok m w]: the step [m] neither goes wrong nor ends the program, and
    keeps the invariant. *)
Definition steps_ok (m : M World unit) (w : World) : Prop :=
  wp m (fun _ w' => world_moves w w') (fun _ w' => world_moves w w') w.

Lemma steps_ok_pool m w :
  wp m (fun _ w' => world_moves w w') (fun _ w' => world_moves w w') (set_pool (pool w) w) ->
  steps_ok m w.
Proof. by rewrite set_pool_id. Qed.

Lemma steps_try_acquire_write self w : world_inv w ->
  steps_ok (r ← with_pool (TryAcquireWrite self); modify (add_write r)) w.
Proof.
  intros Hinv. unfold steps_ok. wp_step. apply wp_with_pool.
  pose proof (wp_TryAcquireWrite self (pool w) (inv_pool w Hinv)) as H. unfold wp in *.
  destruct (TryAcquireWrite self (pool w)) as [[r|e| |] p']; try done; cbn.
  - destruct (acquired_write_world w r p' Hinv H) as (? & Hp & Hl). split; [done|]. by rewrite Hp.
  - by apply (does_moves w LNone).
Qed.

Lemma steps_acquire_write self w : world_inv w -> waits w !! self = None ->
  steps_ok (r ← with_pool (AcquireWrite self); modify (settle self WaitWrite add_write r)) w.
Proof.
  intros Hinv Hnone. apply steps_ok_pool.
  eapply wp_settle; [done|done| | |apply wp_AcquireWrite; [apply Hinv|by apply count_range]].
  - intros r p'. by apply acquired_write_world.
  - done.
Qed.

Lemma steps_acquire_read self token blocking w :
  world_inv w -> waits w !! self = None -> 0 <= slot_id token ->
  steps_ok (r ← with_pool (AcquireReadImpl self token blocking);
            modify (settle self (WaitRead token) add_read r)) w.
Proof.
  intros Hinv Hnone Hid. apply steps_ok_pool.
  eapply wp_settle; [done|done| | |apply wp_AcquireReadImpl; [apply Hinv|by apply count_range|done]].
  - intros r p'. by apply acquired_read_world.
  - done.
Qed.

(** Going on with an operation: [resumed] is the world without it. *)
Lemma world_moves_resumed self w w' : world_moves (resumed self w) w' -> world_moves w w'.
Proof.
  intros [H [lab Hm]]. split; [done|]. exists lab.
  by apply (moves_before _ (pool (resumed self w))).
Qed.

Lemma steps_resume self op w : world_inv w -> waits w !! self = Some op ->
  steps_ok (perform self EvResume) w.
Proof.
  intros Hinv Hop. unfold steps_ok, perform. wp_step. wp_step. rewrite Hop. wp_step. wp_step.
  destruct (world_inv_resumed self op w Hinv Hop) as [Hinv' Hent].
  assert (Hw : forall m : M World unit, wp m (fun _ w' => world_moves (resumed self w) w')
      (fun _ w' => world_moves (resumed self w) w')
      (set_pool (entered (pool (resumed self w))) (resumed self w)) ->
    wp m (fun _ w' => world_moves w w') (fun _ w' => world_moves w w')
      (set_waits (delete self (waits w)) w)).
  { intros m. rewrite Hent. unfold wp.
    change (set_pool (pool w) (resumed self w)) with (set_waits (delete self (waits w)) w).
    destruct (m _) as [[a|e| |] w']; try done; apply world_moves_resumed. }
  assert (Hn : waits (resumed self w) !! self = None) by apply lookup_delete_eq.
  pose proof (count_range _ Hinv') as Hc. pose proof (inv_waits w Hinv self op Hop) as Hwait.
  destruct op as [|token].
  - apply Hw. eapply wp_settle; [done|done| | |apply (wp_AcquireWrite_resume self)];
      [|done|apply Hinv'|done|done].
    intros r p'. by apply acquired_write_world.
  - destruct Hwait as [Hcons Hid]. apply Hw.
    eapply wp_settle; [done|done| | |apply (wp_AcquireRead_resume self)];
      [|done|apply Hinv'|done|done|done].
    intros r p'. by apply acquired_read_world.
Qed.

Lemma write_holds w k l : world_inv w -> writes w !! k = Some l -> w_active l = true ->
  holds_slot Writing (pool w) (w_token l).
Proof. intros [] Hk Ha. eapply inv_writes0. by eapply write_tokens_lookup. Qed.

Lemma read_holds w k l : world_inv w -> reads w !! k = Some l -> r_active l = true ->
  holds_slot Reading (pool w) (r_token l).
Proof. intros [] Hk Ha. eapply inv_reads0. by eapply read_tokens_lookup. Qed.

Lemma holds_id state p token : holds_slot state p token -> 0 <= slot_id token.
Proof. intros (i & s & H). apply H. Qed.

(** A member function of a write lease that keeps the lease. *)
Lemma steps_write_op {A} k (m : FrameSlotToken -> M FrameSlotPool A)
    (f : A -> M FrameSlotPool unit) w :
  world_inv w ->
  (forall token, holds_slot Writing (pool w) token ->
     wp (x ← m token; f x) (fun _ p' => does (LWrite token) (pool w) p' \/ p' = pool w)
       (fun _ p' => p' = pool w) (pool w)) ->
  steps_ok (on_write k (x ← write_lease m; of_pool (f x))) w.
Proof.
  intros Hinv Hm. apply wp_on_write; [intros _; by apply world_moves_refl|]. intros l Hk.
  assert (Hstay : forall e : exn, world_moves w (upd_write k l (pool w) w)).
  { intros _. rewrite upd_write_id by done. by apply stays_moves. }
  wp_step. apply wp_write_lease; [|exact Hstay]. intros Hact.
  pose proof (Hm _ (write_holds w k l Hinv Hk Hact)) as H.
  unfold wp, of_pool, on in *. unfold mbind, M_bind in H.
  destruct (m (w_token l) (pool w)) as [[a|e| |] p1]; try done.
  - cbn. destruct (f a p1) as [[u|e| |] p2]; try done; cbn; rewrite upd_write_id by done.
    + destruct H as [H| ->]; [by eapply does_moves|by apply stays_moves].
    + by apply stays_moves.
  - cbn. rewrite upd_write_id by done. by apply stays_moves.
Qed.

Lemma steps_store self k offset b w : world_inv w ->
  steps_ok (on_write k (s ← Write_Payload self;
    of_pool (if Z.of_nat offset <? span_length s then store s offset b else mret tt))) w.
Proof.
  intros Hinv. apply steps_write_op; [done|]. intros token Hh. wp_step.
  eapply wp_mono; [apply wp_WritePayload; [apply Hinv|by eapply holds_id]|].
  intros s p' (-> & slot & Hat & Hl). destruct (Z.ltb_spec (Z.of_nat offset) (span_length s)).
  - eapply wp_mono; [eapply wp_store; [apply Hinv|done|done|done]|]. by left.
  - wp_step. by right.
Qed.

Lemma steps_set_size self k size w : world_inv w -> 0 <= size ->
  steps_ok (on_write k (Write_SetPayloadSize self size)) w.
Proof.
  intros Hinv Hs. apply wp_on_write; [intros _; by apply world_moves_refl|]. intros l Hk.
  apply wp_write_lease.
  - intros Hact. pose proof (write_holds w k l Hinv Hk Hact) as Hh.
    pose proof (wp_SetWritePayloadSize self (w_token l) size (pool w) (inv_pool w Hinv)
      (holds_id _ _ _ Hh) Hs) as H.
    unfold wp in *. destruct (SetWritePayloadSize _ _ _ _) as [[u|e| |] p']; try done; cbn;
      rewrite upd_write_id by done; [by eapply does_moves|by apply stays_moves].
  - intros _. cbn. rewrite upd_write_id by done. by apply stays_moves.
Qed.

Lemma steps_publish self k w : world_inv w -> steps_ok (on_write k (Write_Publish self)) w.
Proof.
  intros Hinv. apply wp_on_write; [intros _; by apply world_moves_refl|]. intros l Hk.
  unfold Write_Publish. wp_step. apply wp_write_lease.
  - intros Hact. pose proof (write_holds w k l Hinv Hk Hact) as Hh.
    pose proof (wp_PublishWrite self (w_token l) (pool w) (inv_pool w Hinv) (holds_id _ _ _ Hh)) as H.
    unfold wp in *. destruct (PublishWrite _ _ _) as [[u|e| |] p']; try done; cbn.
    + split; [by eapply world_inv_drop_write|]. exists (LPublish (w_token l)). apply H.
    + rewrite upd_write_id by done. by apply stays_moves.
  - intros _. cbn. rewrite upd_write_id by done. by apply stays_moves.
Qed.

Lemma steps_cancel self k w : world_inv w -> well_behaved self (EvCancel k) w ->
  steps_ok (on_write k (Write_Cancel self)) w.
Proof.
  intros Hinv Hself. apply wp_on_write; [intros _; by apply world_moves_refl|]. intros l Hk.
  unfold Write_Cancel. wp_step. wp_step. destruct (w_active l) eqn:Hact; cbn [negb orb].
  - destruct (Forall_lookup_1 _ _ _ _ (inv_write_pool w Hinv) Hk Hact) as [-> Hp]. cbn [negb].
    assert (is_producer self (pool w)) as Hprod by (split; [done|]; symmetry; by apply (Hself l)).
    pose proof (wp_CancelWrite self (w_token l) (pool w) (inv_pool w Hinv) Hprod
      (write_holds w k l Hinv Hk Hact)) as H.
    unfold wp, or_terminate, of_pool, on, mbind, M_bind in *. cbn [snd].
    destruct (CancelWrite _ _ _) as [[u|e| |] p']; try done; cbn.
    split; [by eapply world_inv_drop_write|]. exists (LCancel (w_token l)). apply H.
  - wp_step. cbn. rewrite upd_write_id by done. by apply stays_moves.
Qed.

Lemma steps_release self k w : world_inv w -> well_behaved self (EvRelease k) w ->
  steps_ok (on_read k (Read_Release self)) w.
Proof.
  intros Hinv Hself. apply wp_on_read; [intros _; by apply world_moves_refl|]. intros l Hk.
  unfold Read_Release. wp_step. wp_step. destruct (r_active l) eqn:Hact; cbn [negb orb].
  - destruct (Forall_lookup_1 _ _ _ _ (inv_read_pool w Hinv) Hk Hact) as [-> Hp]. cbn [negb].
    assert (is_consumer self (pool w)) as Hcons by (split; [done|]; symmetry; by apply (Hself l)).
    pose proof (wp_ReleaseRead self (r_token l) (pool w) (inv_pool w Hinv) Hcons
      (read_holds w k l Hinv Hk Hact)) as H.
    unfold wp, or_terminate, of_pool, on, mbind, M_bind in *. cbn [snd].
    destruct (ReleaseRead _ _ _) as [[u|e| |] p']; try done; cbn.
    split; [by eapply world_inv_drop_read|]. exists (LRelease (r_token l)). apply H.
  - wp_step. cbn. rewrite upd_read_id by done. by apply stays_moves.
Qed.

(** Every step of a well-behaved program keeps the invariant. *)
Lemma steps_perform self ev w : world_inv w -> well_behaved self ev w -> steps_ok (perform self ev) w.
Proof.
  intros Hinv Hev.
  destruct (waits w !! self) as [op|] eqn:Hop.
  { destruct ev; try (unfold steps_ok, perform; wp_step; wp_step; rewrite Hop; wp_step;
      by apply world_moves_refl). by eapply steps_resume. }
  unfold steps_ok, perform. wp_step. wp_step. rewrite Hop. destruct ev as
    [| |token|token| |k offset b|k size|k|k|k|k|k|token|]; cbn in Hev.
  - by apply steps_try_acquire_write.
  - by apply steps_acquire_write.
  - by apply steps_acquire_read.
  - by apply steps_acquire_read.
  - wp_step. by apply world_moves_refl.
  - by apply steps_store.
  - apply steps_set_size; [done|apply Hev].
  - by apply steps_publish.
  - by apply steps_cancel.
  - destruct (writes w !! k) as [l|] eqn:Hk; wp_step; [|by apply world_moves_refl].
    split; [by apply world_inv_move_write|]. exists LNone. by apply moves_none.
  - by apply steps_release.
  - destruct (reads w !! k) as [l|] eqn:Hk; wp_step; [|by apply world_moves_refl].
    split; [by apply world_inv_move_read|]. exists LNone. by apply moves_none.
  - apply wp_with_pool.
    pose proof (wp_DiscardPublished self token (pool w) (inv_pool w Hinv) Hev) as H.
    unfold wp in *. destruct (DiscardPublished _ _ _) as [[u|e| |] p']; try done;
      by eapply does_moves.
  - apply wp_with_pool. unfold Close. wp_step. by apply (does_moves w LNone).
Qed.

(** A pool as its constructor makes it, and a program that has just made it. *)
Lemma new_FrameSlotPool_inv slot_count payload_capacity id p id' :
  0 <= payload_capacity ->
  new_FrameSlotPool slot_count payload_capacity id = (Ok p, id') ->
  pool_inv p /\ m_active_operations p = 0.
Proof.
  intros Hc. unfold new_FrameSlotPool, AllocatePoolId.
  destruct (Z.eqb_spec slot_count 0); [done|].
  destruct (Z.ltb_spec MAX_FRAME_SLOT_COUNT slot_count); [done|].
  destruct (Z.eqb_spec payload_capacity 0); [done|].
  destruct (Z.ltb_spec MAX_FRAME_SLOT_PAYLOAD_BYTES payload_capacity); [done|]. cbn [orb].
  destruct (_ <? _); [done|]. unfold mbind, M_bind, get.
  destruct ((id =? 0) || (id =? uint64_max)); [done|]. cbn. intros [= <- _].
  split; [|done]. unfold pool_inv. cbn [m_slots m_payload_capacity]. rewrite length_replicate.
  unfold MAX_FRAME_SLOT_COUNT in *. split; [lia|]. split; [lia|].
  apply Forall_replicate. unfold slot_ok, new_SlotStorage; cbn.
  rewrite length_replicate. split; [done|]. split; [lia|done].
Qed.

Definition start (p : FrameSlotPool) : World := mkWorld p [] [] ∅.

Lemma pool_start_inv p : pool_inv p -> m_active_operations p = 0 -> world_inv (start p).
Proof.
  intros Hp Ha. by constructor.
Qed.

Lemma world_step_moves w w' : world_inv w -> world_step w w' -> world_moves w w'.
Proof.
  intros Hinv [self ev w1 Hev H|self ev e w1 Hev H];
    pose proof (steps_perform self ev w Hinv Hev) as Hs; unfold steps_ok, wp in Hs;
    by rewrite H in Hs.
Qed.

Lemma world_steps_inv w w' : world_inv w -> rtc world_step w w' -> world_inv w'.
Proof.
  intros Hinv H. induction H as [|w1 w2 w3 Hs _ IH]; [done|].
  by apply IH, (world_step_moves w1 w2).
Qed.

(** C25. Whatever the producer and the consumer do with a pool, in any order:
    no call or lease destructor of a well-behaved program meets
    [std::terminate] or undefined behaviour; every active write lease's slot
    is being written under the lease's own generation and every active read
    lease's slot read under its own; and no two active leases share a slot. *)
Theorem leases_exclusive slot_count payload_capacity id p id' w :
  0 <= payload_capacity ->
  new_FrameSlotPool slot_count payload_capacity id = (Ok p, id') ->
  rtc world_step (start p) w ->
  (forall self ev, well_behaved self ev w -> defined (perform self ev w).1) /\
  (forall k l, writes w !! k = Some l -> w_active l = true ->
     holds_slot Writing (pool w) (w_token l)) /\
  (forall k l, reads w !! k = Some l -> r_active l = true ->
     holds_slot Reading (pool w) (r_token l)) /\
  (forall k1 k2 l1 l2, writes w !! k1 = Some l1 -> writes w !! k2 = Some l2 ->
     w_active l1 = true -> w_active l2 = true -> k1 <> k2 ->
     slot_id (w_token l1) <> slot_id (w_token l2)) /\
  (forall k1 k2 l1 l2, reads w !! k1 = Some l1 -> reads w !! k2 = Some l2 ->
     r_active l1 = true -> r_active l2 = true -> k1 <> k2 ->
     slot_id (r_token l1) <> slot_id (r_token l2)) /\
  (forall k1 k2 l1 l2, writes w !! k1 = Some l1 -> reads w !! k2 = Some l2 ->
     w_active l1 = true -> r_active l2 = true ->
     slot_id (w_token l1) <> slot_id (r_token l2)).
Proof.
  intros Hc Hnew Hsteps. destruct (new_FrameSlotPool_inv _ _ _ _ _ Hc Hnew) as [Hp Ha].
  pose proof (world_steps_inv _ _ (pool_start_inv p Hp Ha) Hsteps) as Hinv.
  split; [|split; [|split; [|split; [|split]]]].
  - intros self ev Hev. pose proof (steps_perform self ev w Hinv Hev) as H.
    unfold steps_ok, wp in H. by destruct (perform self ev w) as [[u|e| |] w'].
  - intros k l. by apply write_holds.
  - intros k l. by apply read_holds.
  - intros k1 k2 l1 l2 H1 H2 A1 A2. eapply (proj2 (inv_writes w Hinv)); by apply write_tokens_lookup.
  - intros k1 k2 l1 l2 H1 H2 A1 A2. eapply (proj2 (inv_reads w Hinv)); by apply read_tokens_lookup.
  - intros k1 k2 l1 l2 H1 H2 A1 A2 Heq.
    destruct (write_holds w k1 l1 Hinv H1 A1) as (i & s & _ & -> & Hi & Hst & _).
    destruct (read_holds w k2 l2 Hinv H2 A2) as (j & s' & _ & -> & Hj & Hst' & _).
    rewrite Heq in Hi. congruence.
Qed.

(** *** A published frame *)

(** Since the frame of [token] was published with this payload, its slot still
    holds it, or is free, or has been claimed again. *)
Definition since_published (token : FrameSlotToken) (size : Z) (payload : list byte)
    (p : FrameSlotPool) : Prop :=
  exists slot, m_slots p !! Z.to_nat (slot_id token) = Some slot /\
    (generation token < s_generation slot \/
     s_generation slot = generation token /\
     (s_state slot = Free \/
      (s_state slot = Published \/ s_state slot = Reading) /\
      s_payload_size slot = size /\ s_payload slot = payload)).

Lemma since_published_moves token size payload p lab p' :
  pool_inv p -> moves p lab p' ->
  since_published token size payload p -> since_published token size payload p'.
Proof.
  intros Hinv [_ Hm] (s & Hs & Hcase). unfold since_published.
  destruct (label_token lab) as [t'|]; [|by rewrite Hm; exists s].
  destruct Hm as (j & s0 & s' & Hj & Hedge & _ & -> & _).
  destruct (decide (j = Z.to_nat (slot_id token))) as [->|Hne];
    [|rewrite list_lookup_insert_ne by done; by exists s].
  rewrite list_lookup_insert_eq by (by eapply lookup_lt_Some).
  assert (s0 = s) as -> by congruence. exists s'. split; [done|].
  pose proof (slot_ok_lookup _ _ _ Hinv Hj) as Hok.
  destruct lab; simpl in Hedge; [done|..].
  - destruct Hedge as (Hst & Hg & ->).
    destruct (slot_ok_claimed (m_payload_capacity p) s) as [_ Hgen]; try done; [apply Hinv|].
    rewrite Hgen. left. destruct Hcase as [?|[? _]]; lia.
  - destruct Hedge as [Hst ->]. cbn.
    destruct Hcase as [?|[? [?|[_ ?]]]]; [by left|congruence|right]. auto.
  - destruct Hedge as (Hst & _ & Hg & _). rewrite Hg.
    destruct Hcase as [?|[? [?|[[?|?] ?]]]]; [by left|congruence..].
  - destruct Hedge as [Hst ->]. cbn.
    destruct Hcase as [?|[? [?|[[?|?] ?]]]]; [by left|congruence..].
  - destruct Hedge as [Hst ->]. cbn.
    destruct Hcase as [?|[? [?|[[?|?] ?]]]]; [by left|congruence..].
  - destruct Hedge as [Hst ->]. cbn. destruct Hcase as [?|[? _]]; auto.
  - destruct Hedge as [Hst ->]. cbn. destruct Hcase as [?|[? _]]; auto.
Qed.

Lemma since_published_steps token size payload w w' :
  world_inv w -> rtc world_step w w' ->
  since_published token size payload (pool w) -> since_published token size payload (pool w').
Proof.
  intros Hinv H. revert Hinv. induction H as [|w1 w2 w3 Hs _ IH]; [done|]. intros Hinv Hp.
  destruct (world_step_moves _ _ Hinv Hs) as [Hinv2 [lab Hm]]. apply IH; [done|].
  by eapply since_published_moves; [apply Hinv|..].
Qed.

Lemma ReadPayload_Reading self token p index slot :
  is_consumer self p -> at_slot p token Reading index slot ->
  ReadPayload self token p = (Ok (mkPayloadSpan index (s_payload_size slot)), p).
Proof.
  intros [Hc Ht] Hat.
  assert (H : wp (ReadPayload self token) (fun s p' => p' = p /\
    s = mkPayloadSpan index (s_payload_size slot)) (fun _ _ => False) p).
  { unfold ReadPayload. wp_step. apply wp_AssertConsumerLocked; [|naive_solver]. intros _ _.
    wp_step. apply wp_slot_in; [apply Hat| |intros Hn; exfalso; apply Hn; by exists index, slot].
    intros i s (_ & -> & Hi & _). wp_step. split; [done|].
    destruct Hat as (_ & -> & Hi' & _). congruence. }
  unfold wp in H. destruct (ReadPayload self token p) as [[s|e| |] p']; try done.
  by destruct H as [-> ->].
Qed.

(** C26. A frame is read as it was published: if the [k]-th write lease was
    published, then whatever both threads do until a read lease with its token
    is active, the consumer's [Payload] is exactly the bytes, and the size, the
    slot had at that [Publish]. *)
Theorem published_frame_read slot_count payload_capacity id p id' w self k l w1 w2 j r :
  0 <= payload_capacity ->
  new_FrameSlotPool slot_count payload_capacity id = (Ok p, id') ->
  rtc world_step (start p) w ->
  writes w !! k = Some l -> waits w !! self = None ->
  perform self (EvPublish k) w = (Ok tt, w1) ->
  rtc world_step w1 w2 ->
  reads w2 !! j = Some r -> r_active r = true -> r_token r = w_token l ->
  exists index slot s,
    at_slot (pool w) (w_token l) Writing index slot /\
    Read_Payload (m_consumer_thread (pool w2)) (r, pool w2) = (Ok s, (r, pool w2)) /\
    load s (pool w2) = Ok (take (Z.to_nat (s_payload_size slot)) (s_payload slot)).
Proof.
  intros Hc Hnew Hsteps Hk Hwait Hpub Hsteps2 Hj Hact Htok.
  destruct (new_FrameSlotPool_inv _ _ _ _ _ Hc Hnew) as [Hp Ha].
  pose proof (world_steps_inv _ _ (pool_start_inv p Hp Ha) Hsteps) as Hinv.
  assert (Hs1 : world_step w w1) by (by eapply (world_ok _ self (EvPublish k))).
  destruct (world_step_moves _ _ Hinv Hs1) as [Hinv1 _].
  pose proof (world_steps_inv _ _ Hinv1 Hsteps2) as Hinv2.
  (* the publication *)
  unfold perform, mbind, M_bind, get in Hpub. rewrite Hwait in Hpub.
  unfold on_write, mbind, M_bind, get in Hpub. rewrite Hk in Hpub.
  unfold on, Write_Publish, write_lease, mbind, M_bind, get in Hpub.
  destruct (w_active l) eqn:Hwact; [|done]. cbn [negb orb] in Hpub.
  destruct (w_pool l); [|done]. cbn [negb] in Hpub.
  pose proof (write_holds w k l Hinv Hk Hwact) as Hh.
  pose proof (wp_PublishWrite self (w_token l) (pool w) (inv_pool w Hinv) (holds_id _ _ _ Hh)) as H.
  unfold wp in H. unfold of_pool, on in Hpub. cbn [snd] in Hpub.
  destruct (PublishWrite self (w_token l) (pool w)) as [[u|e| |] p1]; try done.
  cbn in Hpub. injection Hpub as <-.
  destruct H as [[_ (i & s & s' & Hi & (Hst & ->) & _ & Hslots & (_ & -> & Hi1 & _ & Hg))] _].
  destruct Hh as (i & s0 & (Hids & -> & Hi0 & Hst0 & Hg0)). assert (s0 = s) as -> by congruence.
  exists (Z.to_nat (slot_id (w_token l))), s.
  assert (Hsince : since_published (w_token l) (s_payload_size s) (s_payload s) (pool w2)).
  { apply (since_published_steps _ _ _ _ _ Hinv1 Hsteps2). exists (in_state Published s).
    split; [done|]. right. split; [done|]. right. by split; [left|]. }
  (* the read *)
  destruct (read_holds w2 j r Hinv2 Hj Hact) as (i2 & s2 & Hat2). rewrite Htok in Hat2.
  destruct (Forall_lookup_1 _ _ _ _ (inv_read_pool w2 Hinv2) Hj Hact) as [Hrp Hrc].
  assert (is_consumer (m_consumer_thread (pool w2)) (pool w2)) as Hcons by done.
  pose proof (ReadPayload_Reading _ _ _ _ _ Hcons Hat2) as Hread.
  pose proof (slot_ok_at _ _ _ _ _ (inv_pool _ Hinv2) Hat2) as (_ & Hsize & Hlen).
  destruct Hat2 as (_ & -> & Hi2 & Hst2 & Hg2).
  destruct Hsince as (s3 & Hi3 & Hcase). assert (s3 = s2) as -> by congruence.
  destruct Hcase as [Hlt|(_ & [Hfree|(_ & Hsz & Hpl)])]; [lia|congruence|].
  exists (mkPayloadSpan (Z.to_nat (slot_id (w_token l))) (s_payload_size s2)).
  split; [done|]. split.
  - unfold Read_Payload, read_lease, mbind, M_bind, get. rewrite Hact, Hrp. cbn [negb orb].
    unfold of_pool, on. cbn [snd]. rewrite Htok, Hread. done.
  - unfold load. cbn [span_slot span_length]. rewrite Hi2.
    rewrite (proj2 (Nat.leb_le _ _)) by lia. by rewrite Hsz, Hpl.
Qed.

(** *** Examples *)

Fixpoint run (events : list (thread_id * event)) (w : World) : World :=
  match events with
  | [] => w
  | (self, ev) :: events => run events (perform self ev w).2
  end.

Fixpoint runs (events : list (thread_id * event)) (w : World) : Prop :=
  match events with
  | [] => True
  | (self, ev) :: events =>
      well_behaved self ev w /\ defined (perform self ev w).1 /\ runs events (perform self ev w).2
  end.

Lemma runs_steps events w : runs events w -> rtc world_step w (run events w).
Proof.
  revert w. induction events as [|[self ev] events IH]; intros w H; [apply rtc_refl|].
  destruct H as (Hev & Hdef & H). cbn [run]. eapply rtc_l; [|by apply IH].
  destruct (perform self ev w) as [[[]|e| |] w'] eqn:Hp; try done;
    [by eapply world_ok|by eapply world_caught].
Qed.

Definition example_pool : FrameSlotPool :=
  Eval vm_compute in
    match new_FrameSlotPool 2 4 1 with
    | (Ok p, _) => p
    | _ => mkFrameSlotPool [] 0 0 true false false 0 0 0
    end.
Definition example_token : FrameSlotToken := mkFrameSlotToken 0 1 1.

(** Thread 2 asks for the frame that thread 1 is still writing. *)
Definition example_writing : list (thread_id * event) :=
  [(1, EvAcquireWrite); (2, EvAcquireRead example_token); (1, EvStore 0 0 x2a);
   (1, EvSetPayloadSize 0 1)].
Definition example_reading : list (thread_id * event) :=
  [(2, EvResume); (1, EvTryAcquireWrite); (2, EvMoveRead 0); (1, EvStore 1 0 x07)].

Lemma leases_exclusive_witness :
  let w := run (example_writing ++ [(1, EvPublish 0)] ++ example_reading) (start example_pool) in
  new_FrameSlotPool 2 4 1 = (Ok example_pool, 2) /\
  map w_active (writes w) = [false; true] /\ map r_active (reads w) = [false; true] /\
  (forall k l, reads w !! k = Some l -> r_active l = true ->
     holds_slot Reading (pool w) (r_token l)).
Proof.
  intros w. split; [by vm_compute|]. split; [by vm_compute|]. split; [by vm_compute|].
  apply (leases_exclusive 2 4 1 example_pool 2 w); [lia|by vm_compute|].
  apply runs_steps. vm_compute. repeat split; discriminate.
Defined.

Lemma published_frame_read_witness :
  let w := run example_writing (start example_pool) in
  let w1 := run [(1, EvPublish 0)] w in
  let w2 := run example_reading w1 in
  exists index slot s,
    at_slot (pool w) example_token Writing index slot /\
    Read_Payload 2 (mkFrameReadLease true example_token true, pool w2) =
      (Ok s, (mkFrameReadLease true example_token true, pool w2)) /\
    load s (pool w2) = Ok (take (Z.to_nat (s_payload_size slot)) (s_payload slot)).
Proof.
  intros w w1 w2.
  apply (published_frame_read 2 4 1 example_pool 2 w 1 0 (mkFrameWriteLease true example_token true)
           w1 w2 1 (mkFrameReadLease true example_token true));
    [lia|by vm_compute| |by vm_compute|by vm_compute|by vm_compute| |by vm_compute..];
    apply runs_steps; vm_compute; repeat split; discriminate.
Defined.
