(* ===== verification/FramePacketChannel.v ===== *)
(** * The frame packet channel

    [src/src/threading/frame_packet_channel.h] and [frame_packet_channel.cpp]:
    a bounded ring buffer between one producer and one consumer thread. Every
    member function is one step under the mutex, except that a wait on a
    condition variable splits it, and that the notification it ends with comes
    after the mutex is released: it is a step of its own, later. The theorems
    are about any interleaving of those steps: the channel is a first-in
    first-out queue, and no wakeup is lost. *)

From stdpp Require Import base numbers list option strings gmap.
From S2P Require Import Prelude FrameSlot.

#[local] Open Scope Z_scope.

Definition MAX_FRAME_PACKET_CAPACITY : Z := 1024.

Record FramePacket := mkFramePacket
  { packet_generation : Z; world_hash : Z; slot : option FrameSlotToken }.
Definition new_FramePacket : FramePacket := mkFramePacket 0 0 None.

(** The indices are below the capacity, far from the width of [std::size_t]. *)
Record FramePacketChannel := mkFramePacketChannel
  { m_buffer : list FramePacket; m_head : nat; m_tail : nat; m_size : nat; m_closed : bool;
    m_has_producer : bool; m_has_consumer : bool;
    m_producer_thread : thread_id; m_consumer_thread : thread_id }.

(** The two condition variables, and the notifications an operation ends with. *)
Inductive condition := NotEmpty | NotFull.
#[export] Instance condition_eq_dec : EqDecision condition.
Proof. solve_decision. Defined.
Inductive notification := NotifyOne (c : condition) | NotifyAll (c : condition).

(** ** The operations *)

Definition ValidateCapacity (capacity : Z) : res Z :=
  if (capacity =? 0) || (MAX_FRAME_PACKET_CAPACITY <? capacity)
  then raise FramePacketChannelError "frame channel capacity is outside its bound"
  else Ok capacity.

Definition new_FramePacketChannel (capacity : Z) : res FramePacketChannel :=
  valid ← ValidateCapacity capacity;
  Ok (mkFramePacketChannel (replicate (Z.to_nat valid) new_FramePacket) 0 0 0 false
        false false 0 0).

Definition RegisterProducer (self : thread_id) : M FramePacketChannel unit :=
  c ← get;
  if negb (m_has_producer c)
  then modify (fun c => mkFramePacketChannel (m_buffer c) (m_head c) (m_tail c) (m_size c)
                 (m_closed c) true (m_has_consumer c) self (m_consumer_thread c))
  else if negb (m_producer_thread c =? self)
  then throw FramePacketChannelError "frame channel has multiple producers"
  else mret tt.

Definition RegisterConsumer (self : thread_id) : M FramePacketChannel unit :=
  c ← get;
  if negb (m_has_consumer c)
  then modify (fun c => mkFramePacketChannel (m_buffer c) (m_head c) (m_tail c) (m_size c)
                 (m_closed c) (m_has_producer c) true (m_producer_thread c) self)
  else if negb (m_consumer_thread c =? self)
  then throw FramePacketChannelError "frame channel has multiple consumers"
  else mret tt.

(** [m_buffer[m_tail] = packet; m_tail = (m_tail + 1) % m_buffer.size(); ++m_size]. *)
Definition enqueue (packet : FramePacket) : M FramePacketChannel unit :=
  c ← get;
  if (m_tail c <? length (m_buffer c))%nat
  then modify (fun c => mkFramePacketChannel (<[m_tail c := packet]> (m_buffer c)) (m_head c)
                 ((m_tail c + 1) mod length (m_buffer c))%nat (m_size c + 1) (m_closed c)
                 (m_has_producer c) (m_has_consumer c) (m_producer_thread c) (m_consumer_thread c))
  else undefined.

(** [packet = m_buffer[m_head]; m_head = (m_head + 1) % m_buffer.size(); --m_size]. *)
Definition dequeue : M FramePacketChannel FramePacket :=
  c ← get;
  match m_buffer c !! m_head c with
  | None => undefined
  | Some packet =>
      modify (fun c => mkFramePacketChannel (m_buffer c)
                 ((m_head c + 1) mod length (m_buffer c))%nat (m_tail c) (m_size c - 1) (m_closed c)
                 (m_has_producer c) (m_has_consumer c) (m_producer_thread c) (m_consumer_thread c));;
      mret packet
  end.

(** Each operation returns its result and the notifications it makes once the
    mutex is released. *)
Definition TryPublish (self : thread_id) (packet : FramePacket)
    : M FramePacketChannel (bool * list notification) :=
  RegisterProducer self;;
  c ← get;
  if m_closed c || (m_size c =? length (m_buffer c))%nat then mret (false, [])
  else enqueue packet;; mret (true, [NotifyOne NotEmpty]).

Definition not_full (c : FramePacketChannel) : bool :=
  m_closed c || (m_size c <? length (m_buffer c))%nat.
Definition not_empty (c : FramePacketChannel) : bool := m_closed c || (0 <? m_size c)%nat.

(** From the wait on: the predicate, then what follows it. *)
Definition Publish_wait (packet : FramePacket)
    : M FramePacketChannel (progress (list notification)) :=
  c ← get;
  if negb (not_full c) then mret Waits
  else if m_closed c then throw FramePacketChannelError "publish rejected after channel close"
  else enqueue packet;; mret (Done [NotifyOne NotEmpty]).

Definition Publish (self : thread_id) (packet : FramePacket)
    : M FramePacketChannel (progress (list notification)) :=
  RegisterProducer self;; Publish_wait packet.

Definition TryConsume (self : thread_id)
    : M FramePacketChannel (option FramePacket * list notification) :=
  RegisterConsumer self;;
  c ← get;
  if (m_size c =? 0)%nat then mret (None, [])
  else packet ← dequeue; mret (Some packet, [NotifyOne NotFull]).

Definition Consume_wait
    : M FramePacketChannel (progress (option FramePacket * list notification)) :=
  c ← get;
  if negb (not_empty c) then mret Waits
  else if (m_size c =? 0)%nat then mret (Done (None, []))
  else packet ← dequeue; mret (Done (Some packet, [NotifyOne NotFull])).

Definition Consume (self : thread_id)
    : M FramePacketChannel (progress (option FramePacket * list notification)) :=
  RegisterConsumer self;; Consume_wait.

Definition Close : M FramePacketChannel (list notification) :=
  modify (fun c => mkFramePacketChannel (m_buffer c) (m_head c) (m_tail c) (m_size c) true
            (m_has_producer c) (m_has_consumer c) (m_producer_thread c) (m_consumer_thread c));;
  mret [NotifyAll NotEmpty; NotifyAll NotFull].

Definition IsClosed (c : FramePacketChannel) : bool := m_closed c.
Definition Capacity (c : FramePacketChannel) : nat := length (m_buffer c).
Definition Size (c : FramePacketChannel) : nat := m_size c.

(** ** The threads around the channel *)

(** A thread inside [Publish] or [Consume], in its wait. *)
Inductive blocked_op := InPublish (packet : FramePacket) | InConsume.

Definition waits_for (op : blocked_op) : condition :=
  match op with InPublish _ => NotFull | InConsume => NotEmpty end.
Definition predicate (op : blocked_op) (c : FramePacketChannel) : bool :=
  match op with InPublish _ => not_full c | InConsume => not_empty c end.

(** The channel, the notifications still to be made, the threads in a wait with
    whether they have been woken, and the packets accepted and handed over. *)
Record System := mkSystem
  { chan : FramePacketChannel; pending : list notification;
    blocked : gmap thread_id (blocked_op * bool);
    published : list FramePacket; consumed : list FramePacket }.

Definition start (c : FramePacketChannel) : System := mkSystem c [] ∅ [] [].

Definition set_chan (c : FramePacketChannel) (s : System) : System :=
  mkSystem c (pending s) (blocked s) (published s) (consumed s).
Definition with_chan {A} (m : M FramePacketChannel A) : M System A := on chan set_chan m.
Definition set_blocked (b : gmap thread_id (blocked_op * bool)) (s : System) : System :=
  mkSystem (chan s) (pending s) b (published s) (consumed s).
Definition set_pending (l : list notification) (s : System) : System :=
  mkSystem (chan s) l (blocked s) (published s) (consumed s).
Definition add_pending (l : list notification) (s : System) : System :=
  set_pending (pending s ++ l) s.
Definition add_published (l : list FramePacket) (s : System) : System :=
  mkSystem (chan s) (pending s) (blocked s) (published s ++ l) (consumed s).
Definition add_consumed (l : list FramePacket) (s : System) : System :=
  mkSystem (chan s) (pending s) (blocked s) (published s) (consumed s ++ l).

Inductive event :=
| EvTryPublish (packet : FramePacket) | EvPublish (packet : FramePacket)
| EvTryConsume | EvConsume | EvClose
| EvResume
| EvNotify (n : nat) (target : thread_id).

Definition asleep_on (c : condition) (e : blocked_op * bool) : bool :=
  bool_decide (waits_for e.1 = c) && negb e.2.

(** Make the [n]-th pending notification. [notify_one] wakes one of the threads
    asleep on the condition, [target], and none only if there is none. *)
Definition notify (n : nat) (target : thread_id) (s : System) : System :=
  match pending s !! n with
  | None => s
  | Some (NotifyAll c) =>
      set_pending (delete n (pending s))
        (set_blocked ((fun e => if asleep_on c e then (e.1, true) else e) <$> blocked s) s)
  | Some (NotifyOne c) =>
      match blocked s !! target with
      | Some e =>
          if asleep_on c e
          then set_pending (delete n (pending s))
                 (set_blocked (<[target := (e.1, true)]> (blocked s)) s)
          else s
      | None =>
          if decide (map_Forall (fun _ e => asleep_on c e = false) (blocked s))
          then set_pending (delete n (pending s)) s else s
      end
  end.

(** The end of an operation: what it accepted or handed over is recorded, and
    its notifications are to be made. *)
Definition settle_try_publish (packet : FramePacket) (r : bool * list notification)
    (s : System) : System :=
  add_pending r.2 (add_published (if r.1 then [packet] else []) s).
Definition settle_try_consume (r : option FramePacket * list notification) (s : System) : System :=
  add_pending r.2 (add_consumed (option_list r.1) s).
(** The end of a step of [Publish], or of [Consume], of [self]. *)
Definition settle_publish (self : thread_id) (packet : FramePacket)
    (r : progress (list notification)) (s : System) : System :=
  match r with
  | Waits => set_blocked (<[self := (InPublish packet, false)]> (blocked s)) s
  | Done l => settle_try_publish packet (true, l) s
  end.
Definition settle_consume (self : thread_id)
    (r : progress (option FramePacket * list notification)) (s : System) : System :=
  match r with
  | Waits => set_blocked (<[self := (InConsume, false)]> (blocked s)) s
  | Done r => settle_try_consume r s
  end.

(** A step of thread [self]. A thread in a wait does nothing but go on with it,
    when it was woken or spuriously. *)
Definition perform (self : thread_id) (ev : event) : M System unit :=
  s ← get;
  match ev, blocked s !! self with
  | EvNotify n target, _ => modify (notify n target)
  | EvResume, Some (op, _) =>
      modify (fun s => set_blocked (delete self (blocked s)) s);;
      match op with
      | InPublish packet =>
          r ← with_chan (Publish_wait packet); modify (settle_publish self packet r)
      | InConsume => r ← with_chan Consume_wait; modify (settle_consume self r)
      end
  | EvResume, None | _, Some _ => mret tt
  | EvTryPublish packet, None =>
      r ← with_chan (TryPublish self packet);
      modify (settle_try_publish packet r)
  | EvPublish packet, None =>
      r ← with_chan (Publish self packet); modify (settle_publish self packet r)
  | EvTryConsume, None =>
      r ← with_chan (TryConsume self);
      modify (settle_try_consume r)
  | EvConsume, None => r ← with_chan (Consume self); modify (settle_consume self r)
  | EvClose, None => l ← with_chan Close; modify (add_pending l)
  end.

Inductive system_step (s : System) : System -> Prop :=
| system_ok self ev s' : perform self ev s = (Ok tt, s') -> system_step s s'
| system_caught self ev e s' : perform self ev s = (Throw e, s') -> system_step s s'.

(** ** The ring as a queue *)

(** The packets in the buffer, from the head around to the tail. *)
Definition queue (c : FramePacketChannel) : list FramePacket :=
  take (m_size c) (drop (m_head c) (m_buffer c ++ m_buffer c)).

Definition ring (c : FramePacketChannel) : Prop :=
  (m_head c < length (m_buffer c))%nat /\ (m_size c <= length (m_buffer c))%nat /\
  m_tail c = ((m_head c + m_size c) mod length (m_buffer c))%nat.

Lemma mod_once (n i : nat) : (i < n + n)%nat ->
  (i mod n = if decide (i < n) then i else i - n)%nat.
Proof.
  intros H. destruct (decide (i < n)%nat); [by apply Nat.mod_small|].
  replace i with (i - n + 1 * n)%nat at 1 by lia. rewrite Nat.Div0.mod_add.
  apply Nat.mod_small. lia.
Qed.

Lemma lookup_double {A} (l : list A) i : (i < length l + length l)%nat ->
  (l ++ l) !! i = l !! (i mod length l)%nat.
Proof.
  intros H. rewrite mod_once by done. destruct (decide _).
  - by apply lookup_app_l.
  - apply lookup_app_r. lia.
Qed.

Lemma lookup_queue c i : ring c ->
  queue c !! i = if decide (i < m_size c)%nat
                 then m_buffer c !! ((m_head c + i) mod length (m_buffer c))%nat else None.
Proof.
  intros (Hh & Hs & _). unfold queue. destruct (decide _).
  - rewrite lookup_take_lt, lookup_drop by done. apply lookup_double. lia.
  - by rewrite lookup_take_ge by lia.
Qed.

Lemma length_queue c : ring c -> length (queue c) = m_size c.
Proof.
  intros (Hh & Hs & _). unfold queue. rewrite length_take, length_drop, length_app. lia.
Qed.

(** A registration, and the notifications to come, leave the queue alone. *)
Definition same_owners (c c' : FramePacketChannel) : Prop :=
  (m_has_producer c = true -> m_has_producer c' = true /\ m_producer_thread c' = m_producer_thread c) /\
  (m_has_consumer c = true -> m_has_consumer c' = true /\ m_consumer_thread c' = m_consumer_thread c).

Definition same_ring (c c' : FramePacketChannel) : Prop :=
  m_buffer c' = m_buffer c /\ m_head c' = m_head c /\ m_tail c' = m_tail c /\
  m_size c' = m_size c /\ m_closed c' = m_closed c.

(** What an operation does: it appends [ps] to the queue, takes [cs] from its
    front, and announces with [l] every predicate it makes true. *)
Definition announced (l : list notification) (op : blocked_op) : Prop :=
  NotifyOne (waits_for op) ∈ l \/ NotifyAll (waits_for op) ∈ l.

Definition op_spec (ps cs : list FramePacket) (l : list notification)
    (c c' : FramePacketChannel) : Prop :=
  ring c' /\ length (m_buffer c') = length (m_buffer c) /\
  queue c ++ ps = cs ++ queue c' /\ same_owners c c' /\
  (m_closed c = true -> m_closed c' = true) /\
  (forall op, predicate op c' = true -> predicate op c = true \/ announced l op).

Lemma same_ring_queue c c' : same_ring c c' -> queue c' = queue c.
Proof. intros (Hb & Hh & _ & Hs & _). unfold queue. by rewrite Hb, Hh, Hs. Qed.

Lemma same_ring_ring c c' : same_ring c c' -> ring c -> ring c'.
Proof. intros (Hb & Hh & Ht & Hs & _). unfold ring. by rewrite Hb, Hh, Ht, Hs. Qed.

Lemma same_ring_predicate op c c' : same_ring c c' -> predicate op c' = predicate op c.
Proof.
  intros (Hb & _ & _ & Hs & Hc). destruct op; simpl; unfold not_full, not_empty;
    by rewrite Hc, Hs, ?Hb.
Qed.

Lemma op_spec_none c c' : ring c -> same_ring c c' -> same_owners c c' -> op_spec [] [] [] c c'.
Proof.
  intros Hr Hs Ho. split; [by eapply same_ring_ring|]. pose proof Hs as (Hb & _ & _ & _ & Hc).
  split; [by rewrite Hb|]. split; [by rewrite app_nil_r, (same_ring_queue c c')|].
  split; [done|]. split; [by rewrite Hc|]. intros op. rewrite (same_ring_predicate op c c') by done. auto.
Qed.

Lemma same_owners_trans c1 c2 c3 : same_owners c1 c2 -> same_owners c2 c3 -> same_owners c1 c3.
Proof. unfold same_owners. intuition congruence. Qed.

(** A registration before the operation. *)
Lemma op_spec_before ps cs l c c1 c' : same_ring c c1 -> same_owners c c1 ->
  op_spec ps cs l c1 c' -> op_spec ps cs l c c'.
Proof.
  intros Hs Ho (Hr & Hl & Hq & Ho' & Hc & Hp). split; [done|].
  pose proof Hs as (Hb & _ & _ & _ & Hcl). rewrite Hb in Hl. rewrite Hcl in Hc.
  rewrite (same_ring_queue c c1) in Hq by done. split; [done|]. split; [done|].
  split; [by eapply same_owners_trans|]. split; [done|]. intros op Hop.
  rewrite <- (same_ring_predicate op c c1) by done. by apply Hp.
Qed.

Lemma wp_enqueue packet c : ring c -> (m_size c < length (m_buffer c))%nat ->
  wp (enqueue packet) (fun _ c' => op_spec [packet] [] [NotifyOne NotEmpty] c c')
    (fun _ _ => False) c.
Proof.
  intros Hr Hsz. pose proof Hr as (Hh & _ & Ht). unfold enqueue. wp_step. wp_step.
  assert (Htail : (m_tail c < length (m_buffer c))%nat)
    by (rewrite Ht; apply Nat.mod_upper_bound; lia).
  rewrite (proj2 (Nat.ltb_lt _ _)) by done. wp_step.
  set (c' := mkFramePacketChannel _ _ _ _ _ _ _ _ _).
  assert (Hr' : ring c').
  { unfold ring. cbn. rewrite length_insert. repeat split; [done|lia|].
    rewrite Ht, Nat.Div0.add_mod_idemp_l. f_equal. lia. }
  split; [done|]. split; [by apply length_insert|]. split; [|split; [done|split; [done|]]].
  - apply list_eq. intros i. rewrite (lookup_queue c') by done. cbn. rewrite length_insert.
    destruct (decide (i < m_size c)%nat) as [Hi|Hi].
    + rewrite lookup_app_l by (by rewrite length_queue). rewrite lookup_queue by done.
      rewrite !decide_True by lia. rewrite list_lookup_insert_ne; [done|].
      rewrite Ht, !mod_once by lia. repeat destruct (decide _); lia.
    + rewrite lookup_app_r by (rewrite length_queue by done; lia). rewrite length_queue by done.
      destruct (decide (i = m_size c)) as [->|Hne].
      * rewrite Nat.sub_diag, decide_True, <- Ht by lia. by rewrite list_lookup_insert_eq.
      * rewrite decide_False by lia. apply lookup_ge_None. simpl. lia.
  - intros [packet'|]; cbn [predicate]; [|right; left; apply elem_of_cons; by left].
    unfold not_full, c'. cbn [m_closed m_size m_buffer].
    rewrite length_insert, !orb_true_iff, !Nat.ltb_lt. left. right. lia.
Qed.

Lemma wp_dequeue c : ring c -> (0 < m_size c)%nat ->
  wp dequeue (fun packet c' => op_spec [] [packet] [NotifyOne NotFull] c c') (fun _ _ => False) c.
Proof.
  intros Hr Hsz. pose proof Hr as (Hh & Hs & Ht). unfold dequeue. wp_step. wp_step.
  destruct (lookup_lt_is_Some_2 (m_buffer c) (m_head c) Hh) as [packet Hp]. rewrite Hp.
  wp_step. wp_step. wp_step. set (c' := mkFramePacketChannel _ _ _ _ _ _ _ _ _).
  assert (Hr' : ring c').
  { unfold ring. cbn. repeat split; [apply Nat.mod_upper_bound; lia|lia|].
    rewrite Ht, Nat.Div0.add_mod_idemp_l. f_equal. lia. }
  split; [done|]. split; [done|]. split; [|split; [done|split; [done|]]].
  - rewrite app_nil_r. apply list_eq. change ([packet] ++ queue c') with (packet :: queue c').
    intros [|i].
    + rewrite (lookup_queue c 0 Hr), decide_True, Nat.add_0_r, Nat.mod_small by done. exact Hp.
    + change ((packet :: queue c') !! S i) with (queue c' !! i).
      rewrite !lookup_queue by done. unfold c'. cbn [m_size m_head m_buffer].
      destruct (decide (S i < m_size c)%nat).
      * rewrite decide_True by lia. f_equal. rewrite Nat.Div0.add_mod_idemp_l. f_equal. lia.
      * by rewrite decide_False by lia.
  - intros [packet'|]; cbn [predicate]; [right; left; apply elem_of_cons; by left|].
    unfold not_empty, c'. cbn [m_closed m_size].
    rewrite !orb_true_iff, !Nat.ltb_lt. left. right. lia.
Qed.

(** ** What each operation does *)

(** The thread is the one registered for its side. *)
Definition owns (op : blocked_op) (self : thread_id) (c : FramePacketChannel) : Prop :=
  match op with
  | InPublish _ => m_has_producer c = true /\ m_producer_thread c = self
  | InConsume => m_has_consumer c = true /\ m_consumer_thread c = self
  end.

Lemma wp_RegisterProducer self (Q : unit -> FramePacketChannel -> Prop) E c :
  (forall c', same_ring c c' -> same_owners c c' -> m_has_producer c' = true ->
     m_producer_thread c' = self -> Q tt c') ->
  (forall e, E e c) -> wp (RegisterProducer self) Q E c.
Proof.
  intros HQ HE. unfold RegisterProducer. wp_step. wp_step.
  destruct (m_has_producer c) eqn:Hp; cbn [negb].
  - destruct (Z.eqb_spec (m_producer_thread c) self); cbn [negb]; wp_step; [|apply HE].
    by apply HQ.
  - wp_step. apply HQ; try done. split; [by rewrite Hp|done].
Qed.

Lemma wp_RegisterConsumer self (Q : unit -> FramePacketChannel -> Prop) E c :
  (forall c', same_ring c c' -> same_owners c c' -> m_has_consumer c' = true ->
     m_consumer_thread c' = self -> Q tt c') ->
  (forall e, E e c) -> wp (RegisterConsumer self) Q E c.
Proof.
  intros HQ HE. unfold RegisterConsumer. wp_step. wp_step.
  destruct (m_has_consumer c) eqn:Hp; cbn [negb].
  - destruct (Z.eqb_spec (m_consumer_thread c) self); cbn [negb]; wp_step; [|apply HE].
    by apply HQ.
  - wp_step. apply HQ; try done. split; [done|by rewrite Hp].
Qed.

(** An operation that throws has at most registered its thread. *)
Definition thrown (c : FramePacketChannel) (_ : exn) (c' : FramePacketChannel) : Prop :=
  op_spec [] [] [] c c'.

Lemma wp_TryPublish self packet c : ring c ->
  wp (TryPublish self packet)
    (fun r c' => op_spec (if r.1 then [packet] else []) [] r.2 c c') (thrown c) c.
Proof.
  intros Hr. unfold TryPublish. wp_step.
  apply wp_RegisterProducer; [|intros; by apply op_spec_none].
  intros c1 Hs Ho _ _. wp_step. wp_step.
  pose proof (same_ring_ring _ _ Hs Hr) as Hr1.
  destruct (m_closed c1); cbn [orb]; [wp_step; by apply op_spec_none|].
  destruct (Nat.eqb_spec (m_size c1) (length (m_buffer c1))); [wp_step; by apply op_spec_none|].
  destruct Hr1 as (Hh & Hsz & Ht). wp_step.
  pose proof (wp_enqueue packet c1 (conj Hh (conj Hsz Ht)) ltac:(lia)) as H. unfold wp in *.
  destruct (enqueue packet c1) as [[u|e| |] c2]; try done. by eapply op_spec_before.
Qed.

Lemma wp_Publish_wait packet c : ring c ->
  wp (Publish_wait packet)
    (fun r c' => match r with
                 | Waits => c' = c /\ not_full c = false
                 | Done l => op_spec [packet] [] l c c' end) (thrown c) c.
Proof.
  intros Hr. unfold Publish_wait. wp_step. wp_step.
  destruct (not_full c) eqn:Hn; cbn [negb]; [|by wp_step].
  destruct (m_closed c) eqn:Hc; [wp_step; by apply op_spec_none|].
  unfold not_full in Hn. rewrite Hc in Hn. apply Nat.ltb_lt in Hn. wp_step.
  pose proof (wp_enqueue packet c Hr Hn) as H. unfold wp in *.
  by destruct (enqueue packet c) as [[u|e| |] c2].
Qed.

Lemma wp_Publish self packet c : ring c ->
  wp (Publish self packet)
    (fun r c' => match r with
                 | Waits => op_spec [] [] [] c c' /\ owns (InPublish packet) self c' /\
                            not_full c' = false
                 | Done l => op_spec [packet] [] l c c' end) (thrown c) c.
Proof.
  intros Hr. unfold Publish. wp_step.
  apply wp_RegisterProducer; [|intros; by apply op_spec_none].
  intros c1 Hs Ho Hp Ht. pose proof (wp_Publish_wait packet c1 (same_ring_ring _ _ Hs Hr)) as H.
  unfold wp in *. destruct (Publish_wait packet c1) as [[[|l]|e| |] c2]; try done.
  - destruct H as [-> Hn]. split; [by apply op_spec_none|done].
  - by eapply op_spec_before.
  - by eapply op_spec_before.
Qed.

Lemma wp_TryConsume self c : ring c ->
  wp (TryConsume self) (fun r c' => op_spec [] (option_list r.1) r.2 c c') (thrown c) c.
Proof.
  intros Hr. unfold TryConsume. wp_step.
  apply wp_RegisterConsumer; [|intros; by apply op_spec_none].
  intros c1 Hs Ho _ _. wp_step. wp_step.
  destruct (Nat.eqb_spec (m_size c1) 0); [wp_step; by apply op_spec_none|].
  wp_step. pose proof (wp_dequeue c1 (same_ring_ring _ _ Hs Hr) ltac:(lia)) as H. unfold wp in *.
  destruct (dequeue c1) as [[x|e| |] c2]; try done. by eapply op_spec_before.
Qed.

Lemma wp_Consume_wait c : ring c ->
  wp Consume_wait
    (fun r c' => match r with
                 | Waits => c' = c /\ not_empty c = false
                 | Done r => op_spec [] (option_list r.1) r.2 c c' end) (thrown c) c.
Proof.
  intros Hr. unfold Consume_wait. wp_step. wp_step.
  destruct (not_empty c) eqn:Hn; cbn [negb]; [|by wp_step].
  destruct (Nat.eqb_spec (m_size c) 0); [wp_step; by apply op_spec_none|].
  wp_step. pose proof (wp_dequeue c Hr ltac:(lia)) as H. unfold wp in *.
  by destruct (dequeue c) as [[x|e| |] c2].
Qed.

Lemma wp_Consume self c : ring c ->
  wp (Consume self)
    (fun r c' => match r with
                 | Waits => op_spec [] [] [] c c' /\ owns InConsume self c' /\ not_empty c' = false
                 | Done r => op_spec [] (option_list r.1) r.2 c c' end) (thrown c) c.
Proof.
  intros Hr. unfold Consume. wp_step.
  apply wp_RegisterConsumer; [|intros; by apply op_spec_none].
  intros c1 Hs Ho Hp Ht. pose proof (wp_Consume_wait c1 (same_ring_ring _ _ Hs Hr)) as H.
  unfold wp in *. destruct (Consume_wait c1) as [[[|r]|e| |] c2]; try done.
  - destruct H as [-> Hn]. split; [by apply op_spec_none|done].
  - by eapply op_spec_before.
  - by eapply op_spec_before.
Qed.

Lemma wp_Close c : ring c -> wp Close (fun l c' => op_spec [] [] l c c') (thrown c) c.
Proof.
  intros Hr. unfold Close. wp_step. wp_step. wp_step. split; [done|]. split; [done|].
  split; [by rewrite app_nil_r|]. split; [done|]. split; [done|].
  intros op _. right. right. apply elem_of_cons. destruct op; [right|by left].
  apply elem_of_cons. by left.
Qed.

(** ** The invariant of the threads around the channel *)

Record sys_inv (s : System) : Prop := {
  inv_ring : ring (chan s);
  inv_fifo : published s = consumed s ++ queue (chan s);
  inv_owner : forall t op woken, blocked s !! t = Some (op, woken) -> owns op t (chan s);
  inv_awake : forall t op, blocked s !! t = Some (op, false) ->
    predicate op (chan s) = true -> announced (pending s) op }.

Lemma owns_same op self c c' : same_owners c c' -> owns op self c -> owns op self c'.
Proof. intros [Hp Hc]. destruct op; intros [H <-]; [by apply Hp|by apply Hc]. Qed.

Lemma announced_app l l' op : announced l op \/ announced l' op -> announced (l ++ l') op.
Proof. unfold announced. rewrite !elem_of_app. tauto. Qed.

Lemma sys_inv_op s ps cs l c' : sys_inv s -> op_spec ps cs l (chan s) c' ->
  sys_inv (mkSystem c' (pending s ++ l) (blocked s) (published s ++ ps) (consumed s ++ cs)).
Proof.
  intros [] (Hr & _ & Hq & Ho & _ & Hp). constructor; cbn.
  - done.
  - by rewrite inv_fifo0, <- !(assoc_L (++)), Hq.
  - intros t op woken Ht. eapply owns_same; [done|]. by eapply inv_owner0.
  - intros t op Ht Hpr. apply announced_app.
    destruct (Hp op Hpr) as [Hold|Hnew]; [left|by right]. by eapply inv_awake0.
Qed.

Lemma sys_inv_wait s self op c' : sys_inv s -> op_spec [] [] [] (chan s) c' ->
  owns op self c' -> predicate op c' = false ->
  sys_inv (set_blocked (<[self := (op, false)]> (blocked s)) (set_chan c' s)).
Proof.
  intros [] (Hr & _ & Hq & Ho & _ & Hp) Hown Hpred. rewrite app_nil_r in Hq.
  constructor; cbn.
  - done.
  - by rewrite inv_fifo0, Hq.
  - intros t op' woken Ht. apply lookup_insert_Some in Ht as [[<- [= <- <-]]|[_ Ht]]; [done|].
    eapply owns_same; [done|]. by eapply inv_owner0.
  - intros t op' Ht Hpr. apply lookup_insert_Some in Ht as [[<- [= <-]]|[_ Ht]]; [congruence|].
    destruct (Hp op' Hpr) as [Hold|[H|H]]; [by eapply inv_awake0|by apply elem_of_nil in H..].
Qed.

Lemma sys_inv_unblock s self : sys_inv s -> sys_inv (set_blocked (delete self (blocked s)) s).
Proof.
  intros []. constructor; cbn; try done.
  - intros t op woken Ht. apply lookup_delete_Some in Ht as [_ Ht]. by eapply inv_owner0.
  - intros t op Ht. apply lookup_delete_Some in Ht as [_ Ht]. by eapply inv_awake0.
Qed.

Definition about (x : notification) : condition :=
  match x with NotifyOne c | NotifyAll c => c end.

(** A notification made announces nothing for the other condition. *)
Lemma announced_delete l n x op : l !! n = Some x -> about x <> waits_for op ->
  announced l op -> announced (delete n l) op.
Proof.
  intros Hn Hx.
  assert (Hkeep : forall y, y ∈ l -> y <> x -> y ∈ delete n l).
  { intros y Hy Hne. rewrite (delete_Permutation l n x Hn) in Hy.
    by apply elem_of_cons in Hy as [->|Hy]. }
  intros [H|H]; [left|right]; (apply Hkeep; [done|]); intros <-; by apply Hx.
Qed.

(** The owners make a waiting thread the only one on its condition. *)
Lemma owner_unique s t1 t2 op1 op2 w1 w2 : sys_inv s ->
  blocked s !! t1 = Some (op1, w1) -> blocked s !! t2 = Some (op2, w2) ->
  waits_for op1 = waits_for op2 -> t1 = t2.
Proof.
  intros [] H1 H2. apply inv_owner0 in H1, H2.
  destruct op1, op2; cbn; try done; intros _; destruct H1, H2; congruence.
Qed.

Lemma asleep_on_spec c op : asleep_on c (op, false) = false <-> waits_for op <> c.
Proof. unfold asleep_on. cbn. rewrite andb_true_r. by case_bool_decide. Qed.

Lemma sys_inv_notify n target s : sys_inv s -> sys_inv (notify n target s).
Proof.
  intros Hinv. unfold notify. destruct (pending s !! n) as [[c|c]|] eqn:Hn; [| |done].
  - destruct (blocked s !! target) as [[op woken]|] eqn:Ht.
    + destruct (asleep_on c (op, woken)) eqn:Ha; [|done]. pose proof Hinv as [].
      unfold asleep_on in Ha. cbn in Ha. apply andb_true_iff in Ha as [Hc Hw].
      apply bool_decide_eq_true in Hc. constructor; cbn; try done.
      * intros t op' w' H. apply lookup_insert_Some in H as [[<- [= <- <-]]|[_ H]]; by eapply inv_owner0.
      * intros t op' H Hp. apply lookup_insert_Some in H as [[_ [= _ ?]]|[Hne H]].
        eapply announced_delete; [done| |by eapply inv_awake0]. cbn. intros Heq.
        apply Hne. eapply (owner_unique s); [done|exact Ht|exact H|]. congruence.
    + destruct (decide _) as [Hall|]; [|done]. destruct Hinv. constructor; cbn; try done.
      intros t op H Hp. eapply announced_delete; [done| |by eapply inv_awake0]. cbn.
      apply not_eq_sym, asleep_on_spec. by apply (Hall t).
  - destruct Hinv. constructor; cbn; try done.
    + intros t op w H. apply lookup_fmap_Some in H as ([op' w'] & He & H).
      destruct (asleep_on c (op', w')); injection He as <- <-; by eapply inv_owner0.
    + intros t op H Hp. apply lookup_fmap_Some in H as ([op' w'] & He & H).
      destruct (asleep_on c (op', w')) eqn:Ha; [done|]. injection He as -> ->.
      eapply announced_delete; [done| |by eapply inv_awake0]. cbn.
      by apply not_eq_sym, asleep_on_spec.
Qed.

(** ** Every step *)

Definition sys_ok (m : M System unit) (s : System) : Prop :=
  wp m (fun _ s' => sys_inv s') (fun _ s' => sys_inv s') s.

(** An exception leaves only the registration. *)
Lemma sys_inv_thrown s e c' : sys_inv s -> thrown (chan s) e c' -> sys_inv (set_chan c' s).
Proof.
  intros Hinv H. pose proof (sys_inv_op s [] [] [] c' Hinv H) as H'.
  unfold set_chan. by rewrite !app_nil_r in H'.
Qed.

(** Run [m] on the channel, and settle its result. *)
Lemma sys_ok_op {A} (m : M FramePacketChannel A) (f : A -> System -> System) s :
  sys_inv s -> wp m (fun a c' => sys_inv (f a (set_chan c' s))) (thrown (chan s)) (chan s) ->
  sys_ok (a ← with_chan m; modify (f a)) s.
Proof.
  intros Hinv H. unfold sys_ok. wp_step. apply wp_on. unfold wp in *.
  destruct (m (chan s)) as [[a|e| |] c']; try done. by eapply sys_inv_thrown.
Qed.

Lemma settle_try_publish_ok s packet (r : bool * list notification) c' : sys_inv s ->
  op_spec (if r.1 then [packet] else []) [] r.2 (chan s) c' ->
  sys_inv (settle_try_publish packet r (set_chan c' s)).
Proof.
  intros Hinv H. pose proof (sys_inv_op s _ _ _ c' Hinv H) as H'. by rewrite app_nil_r in H'.
Qed.

Lemma settle_try_consume_ok s (r : option FramePacket * list notification) c' : sys_inv s ->
  op_spec [] (option_list r.1) r.2 (chan s) c' -> sys_inv (settle_try_consume r (set_chan c' s)).
Proof.
  intros Hinv H. pose proof (sys_inv_op s _ _ _ c' Hinv H) as H'. by rewrite app_nil_r in H'.
Qed.

Lemma sys_ok_perform self ev s : sys_inv s -> sys_ok (perform self ev) s.
Proof.
  intros Hinv. pose proof (inv_ring s Hinv) as Hr. unfold sys_ok, perform. wp_step. wp_step.
  destruct (blocked s !! self) as [[op woken]|] eqn:Hb; destruct ev as [packet|packet| | | | |n target];
    try (wp_step; done); try (wp_step; by apply sys_inv_notify).
  - (* resuming *)
    wp_step. wp_step. pose proof (sys_inv_unblock s self Hinv) as Hinv'.
    pose proof (inv_owner s Hinv self op woken Hb) as Hown.
    destruct op as [packet|]; (apply sys_ok_op; [done|]).
    + eapply wp_mono; [by apply wp_Publish_wait|]. intros [|l] c' H; cbn.
      * destruct H as [-> Hn]. apply sys_inv_wait; try done. by apply op_spec_none.
      * by apply (settle_try_publish_ok _ packet (true, l)).
    + eapply wp_mono; [by apply wp_Consume_wait|]. intros [|r] c' H; cbn.
      * destruct H as [-> Hn]. apply sys_inv_wait; try done. by apply op_spec_none.
      * by apply settle_try_consume_ok.
  - apply sys_ok_op; [done|]. eapply wp_mono; [by apply wp_TryPublish|].
    intros r c'. by apply settle_try_publish_ok.
  - apply sys_ok_op; [done|]. eapply wp_mono; [by apply wp_Publish|]. intros [|l] c' H; cbn.
    + destruct H as (H & Ho & Hn). by apply sys_inv_wait.
    + by apply (settle_try_publish_ok _ packet (true, l)).
  - apply sys_ok_op; [done|]. eapply wp_mono; [by apply wp_TryConsume|].
    intros r c'. by apply settle_try_consume_ok.
  - apply sys_ok_op; [done|]. eapply wp_mono; [by apply wp_Consume|]. intros [|r] c' H; cbn.
    + destruct H as (H & Ho & Hn). by apply sys_inv_wait.
    + by apply settle_try_consume_ok.
  - apply sys_ok_op; [done|]. eapply wp_mono; [by apply wp_Close|]. intros l c' H.
    pose proof (sys_inv_op s _ _ _ c' Hinv H) as H'. by rewrite !app_nil_r in H'.
Qed.

Lemma channel_start_inv capacity c : 0 <= capacity -> new_FramePacketChannel capacity = Ok c ->
  sys_inv (start c) /\ Z.of_nat (length (m_buffer c)) = capacity.
Proof.
  intros Hcap. unfold new_FramePacketChannel, ValidateCapacity.
  destruct (Z.eqb_spec capacity 0); [done|].
  destruct (Z.ltb_spec MAX_FRAME_PACKET_CAPACITY capacity); [done|]. cbn [orb].
  intros Hc. apply Ok_inj in Hc as <-. cbn [m_buffer]. rewrite length_replicate. split; [|lia].
  constructor; cbn; [|done|..]; [|intros t op w Ht; by rewrite lookup_empty in Ht|
    intros t op Ht; by rewrite lookup_empty in Ht].
  unfold ring; cbn. rewrite length_replicate. rewrite Nat.Div0.mod_0_l. lia.
Qed.

Lemma system_steps_inv s s' : sys_inv s -> rtc system_step s s' -> sys_inv s'.
Proof.
  intros Hinv H. induction H as [|s1 s2 s3 Hs _ IH]; [done|]. apply IH.
  destruct Hs as [self ev s2 H|self ev e s2 H];
    pose proof (sys_ok_perform self ev s1 Hinv) as Hok; unfold sys_ok, wp in Hok; by rewrite H in Hok.
Qed.

(** C27. The channel is a first-in first-out queue. Whatever its two threads do,
    and however their waits and wakeups interleave: the packets accepted by
    [TryPublish] and [Publish] are, in order, those handed over by [TryConsume]
    and [Consume] followed by those in the ring, of which there are [Size],
    never more than the capacity; and no step is undefined. *)
Theorem channel_fifo capacity c s :
  0 <= capacity -> new_FramePacketChannel capacity = Ok c ->
  rtc system_step (start c) s ->
  published s = consumed s ++ queue (chan s) /\
  length (queue (chan s)) = Size (chan s) /\
  (Size (chan s) <= Capacity (chan s))%nat /\
  (forall self ev, defined (perform self ev s).1).
Proof.
  intros Hcap Hnew Hsteps. destruct (channel_start_inv capacity c Hcap Hnew) as [Hinv _].
  apply (system_steps_inv _ s) in Hinv; [|done]. pose proof (inv_ring s Hinv) as Hr.
  split; [apply Hinv|]. split; [by apply length_queue|]. split; [apply Hr|].
  intros self ev. pose proof (sys_ok_perform self ev s Hinv) as H. unfold sys_ok, wp in H.
  by destruct (perform self ev s) as [[u|e| |] s'].
Qed.

(** C28. No wakeup is lost: whenever a thread sleeps in [Publish] or [Consume]
    and what it waits for holds, some notification is still to be made that can
    be made, and that wakes this very thread in whatever way it is made. *)
Theorem no_lost_wakeup capacity c s t op :
  0 <= capacity -> new_FramePacketChannel capacity = Ok c ->
  rtc system_step (start c) s ->
  blocked s !! t = Some (op, false) -> predicate op (chan s) = true ->
  exists n, blocked (notify n t s) !! t = Some (op, true) /\
    forall target, notify n target s = s \/ blocked (notify n target s) !! t = Some (op, true).
Proof.
  intros Hcap Hnew Hsteps Ht Hp. destruct (channel_start_inv capacity c Hcap Hnew) as [Hinv _].
  apply (system_steps_inv _ s) in Hinv; [|done].
  assert (Ha : asleep_on (waits_for op) (op, false) = true).
  { unfold asleep_on. cbn. by rewrite bool_decide_true. }
  destruct (inv_awake s Hinv t op Ht Hp) as [H|H]; apply list_elem_of_lookup in H as [n Hn];
    exists n; unfold notify; rewrite Hn.
  - split; [rewrite Ht, Ha; cbn; by rewrite lookup_insert_eq|]. intros target.
    destruct (blocked s !! target) as [[op' w']|] eqn:Htarget.
    + destruct (asleep_on (waits_for op) (op', w')) eqn:Ha'; [right|by left].
      apply andb_true_iff in Ha' as [Hc _]. apply bool_decide_eq_true in Hc.
      assert (target = t) as -> by exact (owner_unique s target t op' op w' false Hinv Htarget Ht Hc).
      assert (op' = op) as -> by congruence. cbn. by rewrite lookup_insert_eq.
    + destruct (decide _) as [Hall|]; [|by left]. specialize (Hall t _ Ht). cbn in Hall. congruence.
  - cbn. assert (Hw : (fun e => if asleep_on (waits_for op) e then (e.1, true) else e) <$>
      (blocked s !! t) = Some (op, true)) by (rewrite Ht; cbn; by rewrite Ha).
    rewrite lookup_fmap. split; [done|]. intros _. right. exact Hw.
Qed.

(** *** Examples *)

Fixpoint run (events : list (thread_id * event)) (s : System) : System :=
  match events with
  | [] => s
  | (self, ev) :: events => run events (perform self ev s).2
  end.

Lemma run_channel_steps events s : 
  Forall (fun r : res unit => defined r)
    (imap (fun i e => (perform (e : thread_id * event).1 e.2 (run (take i events) s)).1) events) ->
  rtc system_step s (run events s).
Proof.
  revert s. induction events as [|[self ev] events IH]; intros s H; [apply rtc_refl|].
  cbn [imap] in H. apply Forall_cons in H as [Hd H]. cbn [run]. cbn in Hd.
  eapply rtc_l; [|apply IH].
  - destruct (perform self ev s) as [[[]|e| |] s'] eqn:Hp; try done;
      [by eapply system_ok|by eapply system_caught].
  - exact H.
Qed.

Definition example_channel : FramePacketChannel :=
  mkFramePacketChannel [new_FramePacket; new_FramePacket] 0 0 0 false false false 0 0.
Definition example_packet (n : Z) : FramePacket := mkFramePacket n 0 None.

(** Thread 2 waits for a packet, which thread 1 publishes. *)
Definition example_waiting : list (thread_id * event) :=
  [(2, EvConsume); (1, EvTryPublish (example_packet 1))].

(** It is woken; thread 1 fills the ring and waits in turn. *)
Definition example_full : list (thread_id * event) :=
  [(1, EvNotify 0 2); (2, EvResume); (1, EvPublish (example_packet 2));
   (1, EvPublish (example_packet 3)); (1, EvPublish (example_packet 4)); (2, EvTryConsume);
   (3, EvTryConsume)].

Lemma channel_fifo_witness :
  let s := run (example_waiting ++ example_full) (start example_channel) in
  new_FramePacketChannel 2 = Ok example_channel /\
  published s = map example_packet [1; 2; 3] /\ consumed s = map example_packet [1; 2] /\
  published s = consumed s ++ queue (chan s).
Proof.
  intros s. split; [done|]. split; [by vm_compute|]. split; [by vm_compute|].
  apply (channel_fifo 2 example_channel s); [lia|done|].
  apply run_channel_steps. vm_compute. by repeat constructor.
Defined.

Lemma no_lost_wakeup_witness :
  let s := run example_waiting (start example_channel) in
  exists n, blocked (notify n 2 s) !! 2 = Some (InConsume, true) /\
    forall target, notify n target s = s \/ blocked (notify n target s) !! 2 = Some (InConsume, true).
Proof.
  intros s. apply (no_lost_wakeup 2 example_channel s 2 InConsume);
    [lia|done| |by vm_compute|by vm_compute].
  apply run_channel_steps. vm_compute. by repeat constructor.
Defined.
