(* ===== verification/EcsWorld.v ===== *)
(** * The entity world

    [src/src/ecs/ecs_world.h] and [ecs_world.cpp]: the world one thread owns,
    the snapshots it hands to workers, the journals the workers build from
    their part of a snapshot, and the merge of the journals into the world.
    The entity registry is not code of this repository: it is a parameter, with
    the calls this code makes, and its documented behaviour a class of
    hypotheses. The theorems: what creating entities makes, and that building
    the journals in parallel and merging them in any order of arrival is the
    sequential update of every entity. *)

From stdpp Require Import base numbers list option strings gmap sorting.
From S2P Require Import Prelude.

#[local] Open Scope Z_scope.

Definition MAX_WORLD_ENTITIES : Z := 1000000.
Definition MAX_WORLD_WORKERS : Z := 64.
Definition MAX_JOURNAL_UPDATES : Z := 1000000.

(** ** The registry *)

(** [entt::entity], as its integral value. *)
Definition entity : Type := Z.

(** [create], [valid], [emplace] and [get] of the two component types ([None]
    where the entity has no such component, in which case [get] is undefined),
    and the assignment [get<TransformComponent>(entity).value = value]. *)
Class Registry := {
  registry : Type;
  empty_registry : registry;
  create : registry -> entity * registry;
  valid : registry -> entity -> bool;
  get_transform : registry -> entity -> option Z;
  get_velocity : registry -> entity -> option Z;
  emplace_transform : registry -> entity -> Z -> registry;
  emplace_velocity : registry -> entity -> Z -> registry;
  set_transform : registry -> entity -> Z -> registry }.

(** What EnTT documents: a created entity is new and bare, a component is
    emplaced on one entity, and neither call touches anything else. *)
Class RegistrySpec `{Registry} : Prop := {
  create_fresh r : valid r (create r).1 = false;
  create_valid r e : valid (create r).2 e = if decide (e = (create r).1) then true else valid r e;
  create_transform r e : valid r e = true -> get_transform (create r).2 e = get_transform r e;
  create_velocity r e : valid r e = true -> get_velocity (create r).2 e = get_velocity r e;
  emplace_transform_valid r e v e' : valid (emplace_transform r e v) e' = valid r e';
  emplace_transform_transform r e v e' :
    get_transform (emplace_transform r e v) e' = if decide (e' = e) then Some v else get_transform r e';
  emplace_transform_velocity r e v e' : get_velocity (emplace_transform r e v) e' = get_velocity r e';
  emplace_velocity_valid r e v e' : valid (emplace_velocity r e v) e' = valid r e';
  emplace_velocity_transform r e v e' :
    get_transform (emplace_velocity r e v) e' = get_transform r e';
  emplace_velocity_velocity r e v e' :
    get_velocity (emplace_velocity r e v) e' = if decide (e' = e) then Some v else get_velocity r e';
  set_transform_valid r e v e' : valid (set_transform r e v) e' = valid r e';
  set_transform_transform r e v e' : get_transform r e <> None ->
    get_transform (set_transform r e v) e' = if decide (e' = e) then Some v else get_transform r e';
  set_transform_velocity r e v e' : get_velocity (set_transform r e v) e' = get_velocity r e' }.

(** ** Data *)

Record EntityState := mkEntityState
  { state_entity : entity; transform_value : Z; velocity_delta : Z }.
Record WorldSnapshot := mkWorldSnapshot { states : list EntityState }.
Record TransformUpdate := mkTransformUpdate
  { update_entity : entity; update_value : Z; update_sequence : Z }.
Record EcsJournal := mkEcsJournal { worker_index : Z; transforms : list TransformUpdate }.

(** ** Pure helpers *)

Definition DEFAULT_VELOCITY : Z := 1.
Definition HASH_OFFSET : Z := 14695981039346656037.
Definition HASH_PRIME : Z := 1099511628211.

Definition PartitionStart (size index count : Z) : Z :=
  let base := size / count in
  let remainder := size mod count in
  u64 (u64 (index * base) + Z.min index remainder).

Definition PartitionEnd (size index count : Z) : Z :=
  let start := PartitionStart size index count in
  let base := size / count in
  let remainder := size mod count in
  u64 (u64 (start + base) + (if index <? remainder then 1 else 0)).

Definition int64_max : Z := 2 ^ 63 - 1.
Definition int64_min : Z := - 2 ^ 63.

Definition CheckedAdd (value delta : Z) : res Z :=
  if ((0 <? delta) && (int64_max - delta <? value))
     || ((delta <? 0) && (value <? int64_min - delta))
  then raise EcsError "component update overflowed"
  else Ok (value + delta).

Definition MixHash (hash value : Z) : Z := u64 (Z.lxor hash value * HASH_PRIME).

(** ** Journals *)

(** The loop from [index] to [end], which pushes onto the journal. *)
Fixpoint build_loop (snapshot : WorldSnapshot) (begin : Z) (n : nat) (index : Z)
    : M EcsJournal unit :=
  match n with
  | O => mret tt
  | S n =>
      match states snapshot !! Z.to_nat index with
      | None => undefined
      | Some state =>
          value ← lift (CheckedAdd (transform_value state) (velocity_delta state));
          modify (fun j => mkEcsJournal (worker_index j)
            (transforms j ++ [mkTransformUpdate (state_entity state) value (index - begin)]));;
          build_loop snapshot begin n (index + 1)
      end
  end.

Definition BuildTransformJournalInto (snapshot : WorldSnapshot) (index count : Z)
    : M EcsJournal unit :=
  if (count =? 0) || (MAX_WORLD_WORKERS <? count) || (count <=? index)
  then throw EcsError "journal worker index is outside its bound"
  else
    let size := Z.of_nat (length (states snapshot)) in
    let begin := PartitionStart size index count in
    let finish := PartitionEnd size index count in
    modify (fun _ => mkEcsJournal index []);;
    build_loop snapshot begin (Z.to_nat (finish - begin)) begin.

Definition BuildTransformJournal (snapshot : WorldSnapshot) (index count : Z) : res EcsJournal :=
  match BuildTransformJournalInto snapshot index count (mkEcsJournal 0 []) with
  | (r, journal) => r ≫= fun _ => Ok journal
  end.

(** [left.worker_index < right.worker_index], for [std::sort]. *)
Definition journal_le (left right : EcsJournal) : Prop := worker_index left <= worker_index right.
#[export] Instance journal_le_dec : RelDecision journal_le.
Proof. intros l r. unfold journal_le. apply _. Defined.

(** The first pass of the merge over the [count] sorted journals: the number of
    updates. *)
Fixpoint check_journals (count : Z) (journals : list EcsJournal) (total : Z) : res Z :=
  match journals with
  | [] => Ok total
  | journal :: journals =>
      let size := Z.of_nat (length (transforms journal)) in
      if count <=? worker_index journal
      then raise EcsError "journal worker indexes are not contiguous"
      else if u64 (MAX_JOURNAL_UPDATES - total) <? size
      then raise EcsError "journal update count exceeds its bound"
      else check_journals count journals (u64 (total + size))
  end.

(** ** The world *)

Section world.
Context {reg : Registry}.

Record EcsWorld := mkEcsWorld
  { m_registry : registry; m_entity_order : list entity; m_owner_thread : thread_id;
    m_entity_count : Z }.

Definition new_EcsWorld (self : thread_id) : EcsWorld := mkEcsWorld empty_registry [] self 0.

Definition set_registry (r : registry) (w : EcsWorld) : EcsWorld :=
  mkEcsWorld r (m_entity_order w) (m_owner_thread w) (m_entity_count w).

Definition AssertOwner (self : thread_id) : M EcsWorld unit :=
  w ← get;
  if negb (self =? m_owner_thread w)
  then throw EcsOwnershipError "ECS access was attempted off the owner thread"
  else mret tt.

(** The iterations from [index] on. *)
Fixpoint create_loop (n : nat) (current_count index : Z) : M EcsWorld unit :=
  match n with
  | O => mret tt
  | S n =>
      w ← get;
      let '(e, r) := create (m_registry w) in
      let value := i64 (current_count + index) in
      let r := emplace_velocity (emplace_transform r e value) e DEFAULT_VELOCITY in
      modify (fun w => mkEcsWorld r (m_entity_order w ++ [e]) (m_owner_thread w) (m_entity_count w));;
      create_loop n current_count (index + 1)
  end.

Definition CreateEntities (self : thread_id) (count : Z) : M EcsWorld unit :=
  AssertOwner self;;
  w ← get;
  let current_count := m_entity_count w in
  if u64 (MAX_WORLD_ENTITIES - current_count) <? count
  then throw EcsError "entity count exceeds its bound"
  else
    create_loop (Z.to_nat count) current_count 0;;
    modify (fun w => mkEcsWorld (m_registry w) (m_entity_order w) (m_owner_thread w)
                       (u64 (m_entity_count w + count))).

Fixpoint copy_states (r : registry) (order : list entity) : res (list EntityState) :=
  match order with
  | [] => Ok []
  | e :: order =>
      match get_transform r e, get_velocity r e with
      | Some t, Some v => l ← copy_states r order; Ok (mkEntityState e t v :: l)
      | _, _ => Undefined
      end
  end.

(** [CopySnapshot] into a snapshot, whose earlier states it clears. *)
Definition CopySnapshot (self : thread_id) : M EcsWorld WorldSnapshot :=
  AssertOwner self;;
  w ← get;
  l ← lift (copy_states (m_registry w) (m_entity_order w));
  mret (mkWorldSnapshot l).

Definition Snapshot (self : thread_id) : M EcsWorld WorldSnapshot :=
  AssertOwner self;; CopySnapshot self.

Definition EntityCount (self : thread_id) : M EcsWorld Z :=
  AssertOwner self;; gets m_entity_count.

Definition StateHash (self : thread_id) : M EcsWorld Z :=
  snapshot ← Snapshot self;
  mret (foldl (fun hash state =>
          MixHash (MixHash (MixHash hash (state_entity state)) (u64 (transform_value state)))
            (u64 (velocity_delta state)))
          HASH_OFFSET (states snapshot)).

(** The updates of one journal from [update_index], at [offset] of the order;
    returns the offset after them. *)
Fixpoint apply_updates (updates : list TransformUpdate) (update_index offset : Z)
    : M EcsWorld Z :=
  match updates with
  | [] => mret offset
  | update :: updates =>
      w ← get;
      let e := update_entity update in
      if negb (update_sequence update =? update_index) || negb (valid (m_registry w) e)
         || negb (bool_decide (is_Some (get_transform (m_registry w) e)))
         || (Z.of_nat (length (m_entity_order w)) <=? offset)
         || negb (bool_decide (m_entity_order w !! Z.to_nat offset = Some e))
      then throw EcsError "journal update does not match stable world state"
      else
        modify (fun w => set_registry (set_transform (m_registry w) e (update_value update)) w);;
        apply_updates updates (update_index + 1) (offset + 1)
  end.

Fixpoint apply_journals (journals : list EcsJournal) (journal_index offset : Z)
    : M EcsWorld unit :=
  match journals with
  | [] => mret tt
  | journal :: journals =>
      if negb (worker_index journal =? journal_index)
      then throw EcsError "journal worker indexes are not contiguous"
      else
        offset ← apply_updates (transforms journal) 0 offset;
        apply_journals journals (journal_index + 1) offset
  end.

Definition on_world {A} (m : M EcsWorld A) : M (list EcsJournal * EcsWorld) A :=
  on snd (fun w s => (s.1, w)) m.

(** Sorts the caller's journals in place. *)
Definition MergeJournals (self : thread_id) : M (list EcsJournal * EcsWorld) unit :=
  on_world (AssertOwner self);;
  '(journals, w) ← get;
  let count := Z.of_nat (length journals) in
  if (count =? 0) || (MAX_WORLD_WORKERS <? count)
  then throw EcsError "journal count is outside its bound"
  else
    let sorted := merge_sort journal_le journals in
    modify (fun s => (sorted, s.2));;
    total_updates ← lift (check_journals count sorted 0);
    if negb (total_updates =? Z.of_nat (length (m_entity_order w)))
    then throw EcsError "journals did not cover the complete world snapshot"
    else on_world (apply_journals sorted 0 0).
End world.

(** ** Well-formed worlds *)

Section invariant.
Context {reg : Registry} {spec : RegistrySpec}.

Implicit Types (w : EcsWorld) (r : registry) (order : list entity).

Definition state_of r (e : entity) : option EntityState :=
  match get_transform r e, get_velocity r e with
  | Some t, Some v => Some (mkEntityState e t v)
  | _, _ => None
  end.

(** Every entity of the order is alive, once, with both components. *)
Definition order_ok r order : Prop :=
  NoDup order /\ Forall (fun e => valid r e = true /\ is_Some (state_of r e)) order.

Definition world_inv w : Prop :=
  order_ok (m_registry w) (m_entity_order w) /\
  m_entity_count w = Z.of_nat (length (m_entity_order w)) /\
  m_entity_count w <= MAX_WORLD_ENTITIES.

Lemma copy_states_Forall2 r order l :
  copy_states r order = Ok l <-> Forall2 (fun e s => state_of r e = Some s) order l.
Proof using Type.
  revert l. induction order as [|e order IH]; intros l; cbn.
  { split; [intros H; apply Ok_inj in H as <-; constructor|by inversion 1]. }
  unfold state_of at 1. destruct (get_transform r e) as [t|] eqn:Ht.
  2:{ split; [done|inversion 1 as [|? ? ? ? He]; unfold state_of in He; by rewrite Ht in He]. }
  destruct (get_velocity r e) as [v|] eqn:Hv.
  2:{ split; [done|inversion 1 as [|? ? ? ? He]; unfold state_of in He; by rewrite Ht, Hv in He]. }
  split.
  - intros H. apply res_bind_ok in H as (l' & Hl & H). apply Ok_inj in H as <-.
    constructor; [unfold state_of; by rewrite Ht, Hv|by apply IH].
  - inversion 1 as [|? s ? l' He Hl]; subst. unfold state_of in He. rewrite Ht, Hv in He.
    injection He as <-. apply IH in Hl. by rewrite Hl.
Qed.

Lemma copy_states_ok r order : order_ok r order -> exists l, copy_states r order = Ok l.
Proof using Type.
  intros [_ H]. induction H as [|e order [_ [s Hs]] _ [l IH]]; [by exists []|].
  exists (s :: l). apply copy_states_Forall2. constructor; [done|]. by apply copy_states_Forall2.
Qed.

Lemma copy_states_ext r r' order l :
  Forall (fun e => state_of r' e = state_of r e) order ->
  copy_states r order = Ok l -> copy_states r' order = Ok l.
Proof using Type.
  intros H. rewrite !copy_states_Forall2. revert l.
  induction H as [|e order He _ IH]; intros l Hl; inversion Hl; subst; constructor; [congruence|].
  by apply IH.
Qed.

Lemma copy_states_app r l1 l2 s1 s2 :
  copy_states r l1 = Ok s1 -> copy_states r l2 = Ok s2 -> copy_states r (l1 ++ l2) = Ok (s1 ++ s2).
Proof using Type. rewrite !copy_states_Forall2. apply Forall2_app. Qed.

Lemma copy_states_entities r order l : copy_states r order = Ok l -> map state_entity l = order.
Proof using Type.
  rewrite copy_states_Forall2. induction 1 as [|e s order l He _ IH]; [done|]. cbn.
  unfold state_of in He. destruct (get_transform r e), (get_velocity r e); try done.
  injection He as <-. cbn. by rewrite IH.
Qed.

Lemma AssertOwner_ok self w : m_owner_thread w = self -> AssertOwner self w = (Ok tt, w).
Proof using Type.
  intros <-. unfold AssertOwner, mbind, M_bind, get. by rewrite Z.eqb_refl.
Qed.

Lemma Snapshot_ok self w : m_owner_thread w = self ->
  Snapshot self w = (l ← copy_states (m_registry w) (m_entity_order w); Ok (mkWorldSnapshot l), w).
Proof using Type.
  intros Ho. unfold Snapshot, CopySnapshot. rewrite !(bind_eq _ _ w tt w) by by apply AssertOwner_ok.
  unfold mbind, M_bind, get, lift. cbn. by destruct (copy_states _ _).
Qed.

(** One entity made: what [create] and the two [emplace] calls leave. *)
Definition spawn r (value : Z) : entity * registry :=
  ((create r).1, emplace_velocity (emplace_transform (create r).2 (create r).1 value)
                   (create r).1 DEFAULT_VELOCITY).

Lemma spawn_state r value e : valid r e = true \/ e = (create r).1 ->
  state_of (spawn r value).2 e =
    if decide (e = (create r).1) then Some (mkEntityState e value DEFAULT_VELOCITY)
    else state_of r e.
Proof using spec.
  intros He. unfold state_of, spawn. cbn [snd].
  rewrite emplace_velocity_transform, emplace_velocity_velocity, emplace_transform_transform,
    emplace_transform_velocity.
  destruct (decide (e = (create r).1)) as [->|Hne]; [done|].
  destruct He as [He|]; [|done]. by rewrite create_transform, create_velocity.
Qed.

Lemma spawn_order_ok r order value : order_ok r order ->
  order_ok (spawn r value).2 (order ++ [(spawn r value).1]).
Proof using spec.
  intros [Hn Hv]. cbn [spawn fst]. pose proof (create_fresh r) as Hfresh.
  assert (Hnew : (create r).1 ∉ order).
  { intros H. rewrite Forall_forall in Hv. apply Hv in H as [H _]. congruence. }
  split.
  - apply NoDup_app. split; [done|]. split; [|apply NoDup_singleton].
    intros e He Hs. apply list_elem_of_singleton in Hs as ->. done.
  - assert (Hvalid : forall e, valid r e = true \/ e = (create r).1 ->
      valid (spawn r value).2 e = true).
    { intros e He. unfold spawn. cbn [snd].
      rewrite emplace_velocity_valid, emplace_transform_valid, create_valid.
      destruct (decide (e = (create r).1)); [done|]. by destruct He. }
    apply Forall_app. split.
    + eapply Forall_impl; [exact Hv|]. intros e [He [s Hs]]. split; [apply Hvalid; auto|].
      rewrite spawn_state by auto. destruct (decide _); [by eexists|by exists s].
    + constructor; [|constructor]. split; [apply Hvalid; auto|].
      rewrite spawn_state by auto. rewrite decide_True by done. by eexists.
Qed.

(** The creation loop, from the states there were. *)
Lemma create_loop_spec n current index w l :
  order_ok (m_registry w) (m_entity_order w) ->
  copy_states (m_registry w) (m_entity_order w) = Ok l ->
  0 <= current + index -> current + index + Z.of_nat n < 2 ^ 63 ->
  exists w' new, create_loop n current index w = (Ok tt, w') /\
    order_ok (m_registry w') (m_entity_order w') /\
    copy_states (m_registry w') (m_entity_order w') = Ok (l ++ new) /\
    map (fun s => (transform_value s, velocity_delta s)) new =
      map (fun i => (current + i, DEFAULT_VELOCITY)) (seqZ index (Z.of_nat n)) /\
    m_owner_thread w' = m_owner_thread w /\ m_entity_count w' = m_entity_count w.
Proof using spec.
  revert index w l. induction n as [|n IH]; intros index w l Hok Hl H0 H1.
  { exists w, []. by rewrite app_nil_r. }
  cbn [create_loop]. unfold mbind, M_bind, get, modify.
  destruct (create (m_registry w)) as [e r] eqn:Hc.
  rewrite (wrap_s_small 64) by (unfold in_s; lia).
  set (r' := emplace_velocity _ _ _).
  assert (Hr : (e, r') = spawn (m_registry w) (current + index))
    by (unfold spawn; by rewrite Hc).
  assert (Hok' : order_ok r' (m_entity_order w ++ [e])).
  { pose proof (spawn_order_ok _ _ (current + index) Hok) as H. by rewrite <- Hr in H. }
  assert (Hstate : forall e', valid (m_registry w) e' = true \/ e' = e ->
    state_of r' e' = if decide (e' = e) then Some (mkEntityState e' (current + index) DEFAULT_VELOCITY)
                     else state_of (m_registry w) e').
  { intros e' He'. pose proof (spawn_state (m_registry w) (current + index) e') as H.
    rewrite <- Hr, Hc in H. by apply H. }
  assert (Hfresh : e ∉ m_entity_order w).
  { destruct Hok' as [H _]. apply NoDup_app in H as (_ & H & _). intros He.
    apply (H e He). by apply list_elem_of_singleton. }
  assert (Hl' : copy_states r' (m_entity_order w ++ [e]) =
    Ok (l ++ [mkEntityState e (current + index) DEFAULT_VELOCITY])).
  { apply copy_states_app.
    - apply (copy_states_ext (m_registry w)); [|done]. destruct Hok as [_ Hv].
      rewrite Forall_forall in *. intros e' He'. rewrite Hstate by (left; by apply Hv).
      by rewrite decide_False by congruence.
    - apply copy_states_Forall2. constructor; [|constructor].
      rewrite Hstate by auto. by rewrite decide_True. }
  destruct (IH (index + 1) (mkEcsWorld r' (m_entity_order w ++ [e]) (m_owner_thread w)
    (m_entity_count w)) _ Hok' Hl' ltac:(lia) ltac:(lia))
    as (w' & new & Hrun & Hok2 & Hl2 & Hnew & Ho & Hcount).
  exists w', (mkEntityState e (current + index) DEFAULT_VELOCITY :: new).
  split; [exact Hrun|]. split; [done|]. split; [by rewrite Hl2, <- app_assoc|].
  split; [|done]. cbn [map]. rewrite Hnew, Nat2Z.inj_succ, (seqZ_cons index) by lia.
  by rewrite Z.pred_succ.
Qed.

(** [CreateEntities] on the owner thread either rejects a count past the
    bound and changes nothing, or appends exactly [count] entities: the world
    stays well-formed, earlier entities keep their state and place in the
    snapshot, and the new ones count on from the entities there were, with
    the default velocity. *)
Theorem CreateEntities_spec self w l count :
  world_inv w -> m_owner_thread w = self -> in_u 64 count ->
  Snapshot self w = (Ok (mkWorldSnapshot l), w) ->
  if MAX_WORLD_ENTITIES <? m_entity_count w + count
  then CreateEntities self count w = (raise EcsError "entity count exceeds its bound", w)
  else exists w' new,
    CreateEntities self count w = (Ok tt, w') /\ world_inv w' /\
    Snapshot self w' = (Ok (mkWorldSnapshot (l ++ new)), w') /\
    map (fun s => (transform_value s, velocity_delta s)) new =
      map (fun i => (m_entity_count w + i, DEFAULT_VELOCITY)) (seqZ 0 count).
Proof using spec.
  intros (Hok & Hcount & Hmax) Howner [Hc0 Hc1] Hsnap. unfold MAX_WORLD_ENTITIES in *.
  rewrite Snapshot_ok in Hsnap by done. injection Hsnap as Hsnap.
  apply res_bind_ok in Hsnap as (l' & Hl & Hsnap). apply Ok_inj in Hsnap. injection Hsnap as ->.
  assert (Hrun : CreateEntities self count w =
    if u64 (1000000 - m_entity_count w) <? count
    then (raise EcsError "entity count exceeds its bound", w)
    else (create_loop (Z.to_nat count) (m_entity_count w) 0;;
          modify (fun w => mkEcsWorld (m_registry w) (m_entity_order w) (m_owner_thread w)
                             (u64 (m_entity_count w + count)))) w).
  { unfold CreateEntities. rewrite (bind_eq _ _ w tt w) by by apply AssertOwner_ok.
    rewrite (bind_eq get _ w w w) by done. by destruct (_ <? _). }
  rewrite Hrun, wrap_u_small by (unfold in_u; lia).
  destruct (Z.ltb_spec (1000000 - m_entity_count w) count),
    (Z.ltb_spec 1000000 (m_entity_count w + count)); try lia; [done|].
  destruct (create_loop_spec (Z.to_nat count) (m_entity_count w) 0 w l)
    as (w' & new & Hloop & Hok' & Hl' & Hnew & Ho & Hcount'); [done|done|lia|lia|].
  unfold mbind, M_bind, modify. rewrite Hloop. eexists _, new. split; [reflexivity|].
  rewrite Hcount', wrap_u_small by (unfold in_u; lia).
  assert (Hlen : length (m_entity_order w') = (length (m_entity_order w) + Z.to_nat count)%nat).
  { apply copy_states_entities in Hl, Hl'. rewrite <- Hl', <- Hl, map_app, length_app, !length_map.
    f_equal. rewrite <- (length_map (fun s => (transform_value s, velocity_delta s)) new), Hnew.
    rewrite length_map, length_seqZ. lia. }
  split; [|split].
  - split; [done|]. cbn. rewrite Hlen. unfold MAX_WORLD_ENTITIES. lia.
  - rewrite Snapshot_ok by (cbn; congruence). cbn [m_registry m_entity_order]. by rewrite Hl'.
  - rewrite Hnew. by rewrite Z2Nat.id.
Qed.
End invariant.

(** ** Partitions *)

Section partition.
Context (size count : Z).
Hypothesis (Hsize : 0 <= size <= MAX_WORLD_ENTITIES) (Hcount : 0 < count <= MAX_WORLD_WORKERS).

Lemma PartitionStart_eq index : 0 <= index <= count ->
  PartitionStart size index count = index * (size / count) + Z.min index (size mod count) /\
  0 <= PartitionStart size index count < 2 ^ 63.
Proof using Hsize Hcount.
  unfold MAX_WORLD_ENTITIES, MAX_WORLD_WORKERS in *. intros Hi.
  assert (0 <= size / count <= 1000000) by
    (split; [apply Z.div_pos; lia|apply Z.div_le_upper_bound; nia]).
  pose proof (Z.mod_pos_bound size count ltac:(lia)).
  assert (0 <= index * (size / count) <= 64 * 1000000) by nia.
  unfold PartitionStart. set (b := size / count) in *. set (m := size mod count) in *.
  clearbody b m. rewrite (wrap_u_small 64 (index * b)) by (unfold in_u; lia).
  rewrite wrap_u_small by (unfold in_u; lia). lia.
Qed.

Lemma PartitionEnd_eq index : 0 <= index < count ->
  PartitionEnd size index count = PartitionStart size (index + 1) count.
Proof using Hsize Hcount.
  intros Hi. destruct (PartitionStart_eq index ltac:(lia)) as [Hs Hr].
  destruct (PartitionStart_eq (index + 1) ltac:(lia)) as [Hs' Hr'].
  unfold MAX_WORLD_ENTITIES, MAX_WORLD_WORKERS in *.
  assert (0 <= size / count <= 1000000) by
    (split; [apply Z.div_pos; lia|apply Z.div_le_upper_bound; nia]).
  unfold PartitionEnd. rewrite (wrap_u_small 64 (PartitionStart size index count + _))
    by (unfold in_u; lia).
  rewrite wrap_u_small by (destruct (_ <? _); unfold in_u; lia).
  rewrite Hs, Hs'. destruct (Z.ltb_spec index (size mod count)); lia.
Qed.

Lemma PartitionStart_0 : PartitionStart size 0 count = 0.
Proof using Hsize Hcount.
  destruct (PartitionStart_eq 0 ltac:(unfold MAX_WORLD_WORKERS in *; lia)) as [-> _].
  pose proof (Z.mod_pos_bound size count ltac:(unfold MAX_WORLD_WORKERS in *; lia)). lia.
Qed.

Lemma PartitionStart_count : PartitionStart size count count = size.
Proof using Hsize Hcount.
  destruct (PartitionStart_eq count ltac:(unfold MAX_WORLD_WORKERS in *; lia)) as [-> _].
  pose proof (Z.mod_pos_bound size count ltac:(unfold MAX_WORLD_WORKERS in *; lia)).
  pose proof (Z.div_mod size count ltac:(unfold MAX_WORLD_WORKERS in *; lia)). lia.
Qed.

Lemma PartitionStart_mono index : 0 <= index < count ->
  PartitionStart size index count <= PartitionStart size (index + 1) count.
Proof using Hsize Hcount.
  intros Hi. destruct (PartitionStart_eq index ltac:(lia)) as [-> _].
  destruct (PartitionStart_eq (index + 1) ltac:(lia)) as [-> _].
  assert (0 <= size / count) by (apply Z.div_pos; unfold MAX_WORLD_WORKERS in *; lia). nia.
Qed.
End partition.

(** ** Journals *)

(** The update of one entity, and a state's successor. *)
Definition no_overflow (s : EntityState) : Prop := in_s 64 (transform_value s + velocity_delta s).
Definition advance (s : EntityState) : EntityState :=
  mkEntityState (state_entity s) (transform_value s + velocity_delta s) (velocity_delta s).

Fixpoint updates_from (sequence : Z) (l : list EntityState) : list TransformUpdate :=
  match l with
  | [] => []
  | s :: l => mkTransformUpdate (state_entity s) (transform_value s + velocity_delta s) sequence
              :: updates_from (sequence + 1) l
  end.

Lemma length_updates_from sequence l : length (updates_from sequence l) = length l.
Proof. revert sequence. induction l as [|s l IH]; intros; [done|]. cbn. by rewrite IH. Qed.

Lemma CheckedAdd_ok s : in_s 64 (transform_value s) -> no_overflow s ->
  CheckedAdd (transform_value s) (velocity_delta s) = Ok (transform_value s + velocity_delta s).
Proof.
  unfold in_s, no_overflow, in_s, CheckedAdd, int64_max, int64_min. intros.
  destruct (Z.ltb_spec 0 (velocity_delta s)); cbn [andb orb].
  - destruct (Z.ltb_spec (2 ^ 63 - 1 - velocity_delta s) (transform_value s)); [lia|].
    destruct (Z.ltb_spec (velocity_delta s) 0); [lia|done].
  - destruct (Z.ltb_spec (velocity_delta s) 0); [|done].
    destruct (Z.ltb_spec (transform_value s) (- 2 ^ 63 - velocity_delta s)); [lia|done].
Qed.

Definition state_range (s : EntityState) : Prop := in_s 64 (transform_value s) /\ no_overflow s.

Lemma build_loop_spec snapshot begin part rest index j :
  0 <= index -> drop (Z.to_nat index) (states snapshot) = part ++ rest ->
  Forall state_range part ->
  build_loop snapshot begin (length part) index j =
    (Ok tt, mkEcsJournal (worker_index j) (transforms j ++ updates_from (index - begin) part)).
Proof.
  revert index j. induction part as [|s part IH]; intros index j Hi Hd Hr.
  { cbn. rewrite app_nil_r. by destruct j. }
  apply Forall_cons in Hr as [[Hs Hn] Hr]. cbn [length build_loop app] in *.
  assert (Hl : states snapshot !! Z.to_nat index = Some s).
  { rewrite <- (Nat.add_0_r (Z.to_nat index)), <- lookup_drop, Hd. done. }
  rewrite Hl. rewrite CheckedAdd_ok by done.
  unfold mbind, M_bind, lift, modify. cbn [updates_from].
  rewrite IH; [|lia| |done].
  - cbn. rewrite <- app_assoc. cbn. by replace (index - begin + 1) with (index + 1 - begin) by lia.
  - replace (Z.to_nat (index + 1)) with (S (Z.to_nat index)) by lia.
    rewrite <- Nat.add_1_r, <- drop_drop, Hd. done.
Qed.

(** The journal of worker [index] over its part of the snapshot. *)
Section journals.
Context (snapshot : WorldSnapshot) (count : Z).
Let size := Z.of_nat (length (states snapshot)).
Hypothesis (Hsize : size <= MAX_WORLD_ENTITIES) (Hcount : 0 < count <= MAX_WORLD_WORKERS)
  (Hrange : Forall state_range (states snapshot)).

Definition part_of (index : Z) : list EntityState :=
  let begin := PartitionStart size index count in
  take (Z.to_nat (PartitionStart size (index + 1) count - begin))
    (drop (Z.to_nat begin) (states snapshot)).
Definition journal_of (index : Z) : EcsJournal :=
  mkEcsJournal index (updates_from 0 (part_of index)).

Lemma parts_prefix (n : nat) : Z.of_nat n <= count ->
  concat (map part_of (seqZ 0 (Z.of_nat n))) =
    take (Z.to_nat (PartitionStart size (Z.of_nat n) count)) (states snapshot).
Proof using Hsize Hcount.
  induction n as [|n IH]; intros Hn.
  { change (Z.of_nat 0) with 0. by rewrite PartitionStart_0 by lia. }
  rewrite seqZ_S, map_app, concat_app, IH by lia. cbn [map concat]. rewrite app_nil_r.
  unfold part_of. rewrite Z.add_0_l, Nat2Z.inj_succ. unfold Z.succ.
  destruct (PartitionStart_eq size count ltac:(lia) Hcount (Z.of_nat n) ltac:(lia)) as [_ H1].
  pose proof (PartitionStart_mono size count ltac:(lia) Hcount (Z.of_nat n) ltac:(lia)).
  rewrite Z2Nat.inj_sub by lia.
  rewrite <- (take_drop (Z.to_nat (PartitionStart size (Z.of_nat n) count))
    (take (Z.to_nat (PartitionStart size (Z.of_nat n + 1) count)) (states snapshot))).
  rewrite take_take, skipn_firstn_comm, Nat.min_l by lia. done.
Qed.

Lemma parts_concat : concat (map part_of (seqZ 0 count)) = states snapshot.
Proof using Hsize Hcount.
  pose proof (parts_prefix (Z.to_nat count)) as H. rewrite Z2Nat.id in H by lia.
  rewrite H, PartitionStart_count by lia. unfold size. rewrite Nat2Z.id. apply firstn_all.
Qed.

Lemma BuildTransformJournal_ok index : 0 <= index < count ->
  BuildTransformJournal snapshot index count = Ok (journal_of index).
Proof using Hsize Hcount Hrange.
  intros Hi. unfold BuildTransformJournal, BuildTransformJournalInto.
  rewrite (proj2 (Z.eqb_neq _ _)), (proj2 (Z.ltb_ge _ _)), (proj2 (Z.leb_gt _ _)) by lia.
  cbn [orb]. fold size. rewrite PartitionEnd_eq by lia.
  set (begin := PartitionStart size index count).
  set (finish := PartitionStart size (index + 1) count).
  destruct (PartitionStart_eq size count ltac:(lia) Hcount index ltac:(lia)) as [_ Hb].
  pose proof (PartitionStart_mono size count ltac:(lia) Hcount index Hi) as Hm.
  assert (Hfin : finish <= size).
  { rewrite <- (PartitionStart_count size count ltac:(lia) Hcount).
    destruct (PartitionStart_eq size count ltac:(lia) Hcount (index + 1) ltac:(lia)) as [E1 _].
    destruct (PartitionStart_eq size count ltac:(lia) Hcount count ltac:(lia)) as [E2 _].
    unfold finish. rewrite E1, E2. assert (0 <= size / count) by (apply Z.div_pos; lia). nia. }
  fold begin finish in Hb, Hm.
  assert (Hlen : length (part_of index) = Z.to_nat (finish - begin)).
  { unfold part_of. fold begin finish. rewrite length_take, length_drop. unfold size in Hfin. lia. }
  rewrite (bind_eq (modify _) _ _ tt (mkEcsJournal index [])) by done. rewrite <- Hlen.
  rewrite (build_loop_spec _ _ _ (drop (Z.to_nat (finish - begin))
    (drop (Z.to_nat begin) (states snapshot)))).
  - cbn. by rewrite Z.sub_diag.
  - lia.
  - unfold part_of. fold begin finish. by rewrite take_drop.
  - unfold part_of. by apply Forall_take, Forall_drop.
Qed.

(** All the updates, in the order of the journals. *)
Lemma journals_updates : map update_entity (concat (map transforms (map journal_of (seqZ 0 count))))
    = map state_entity (states snapshot) /\
  map update_value (concat (map transforms (map journal_of (seqZ 0 count))))
    = map (fun s => transform_value s + velocity_delta s) (states snapshot).
Proof using Hsize Hcount.
  assert (Hu : forall k l, map update_entity (updates_from k l) = map state_entity l /\
    map update_value (updates_from k l) = map (fun s => transform_value s + velocity_delta s) l).
  { intros k l. revert k. induction l as [|s l IH]; intros k; [done|]. cbn.
    destruct (IH (k + 1)) as [-> ->]. done. }
  rewrite <- parts_concat, !concat_map, !map_map. split; f_equal; apply map_ext;
    intros i; cbn; apply Hu.
Qed.
End journals.

(** ** The merge *)

Section merge.
Context {reg : Registry} {spec : RegistrySpec}.

Implicit Types (w : EcsWorld) (r : registry).

Definition set_all (updates : list TransformUpdate) r : registry :=
  foldl (fun r u => set_transform r (update_entity u) (update_value u)) r updates.

Lemma set_transform_state r e v e' s : state_of r e = Some s ->
  state_of (set_transform r e v) e' =
    if decide (e' = e) then Some (mkEntityState e v (velocity_delta s)) else state_of r e'.
Proof using spec.
  intros He. unfold state_of in He |- *.
  rewrite set_transform_transform, set_transform_velocity
    by (destruct (get_transform r e); congruence).
  destruct (decide (e' = e)) as [->|]; [|done].
  destruct (get_transform r e), (get_velocity r e); try done. by injection He as <-.
Qed.

Lemma set_transform_order_ok r order e v : order_ok r order -> e ∈ order ->
  order_ok (set_transform r e v) order.
Proof using spec.
  intros [Hn Hv] He. split; [done|]. rewrite Forall_forall in *. intros e' He'.
  rewrite set_transform_valid. destruct (Hv e He) as [_ [s Hs]].
  rewrite (set_transform_state _ _ _ _ s) by done.
  split; [by apply Hv|]. destruct (decide _); [by eexists|by apply Hv].
Qed.

(** The updates of the entities from [offset] on, numbered from
    [update_index], are all applied. *)
Lemma apply_updates_spec updates rest update_index offset w :
  order_ok (m_registry w) (m_entity_order w) -> 0 <= offset ->
  drop (Z.to_nat offset) (m_entity_order w) = map update_entity updates ++ rest ->
  map update_sequence updates = seqZ update_index (Z.of_nat (length updates)) ->
  apply_updates updates update_index offset w =
    (Ok (offset + Z.of_nat (length updates)),
     set_registry (set_all updates (m_registry w)) w) /\
  order_ok (set_all updates (m_registry w)) (m_entity_order w).
Proof using spec.
  revert update_index offset w. induction updates as [|u updates IH];
    intros ui offset w Hok Ho Hd Hs.
  { cbn. rewrite Z.add_0_r. by destruct w. }
  cbn [length] in *. rewrite Nat2Z.inj_succ, seqZ_cons in Hs by lia. cbn [map app] in *.
  injection Hs as Hu Hs. rewrite Z.pred_succ in Hs.
  assert (Hl : m_entity_order w !! Z.to_nat offset = Some (update_entity u)).
  { rewrite <- (Nat.add_0_r (Z.to_nat offset)), <- lookup_drop, Hd. done. }
  pose proof (list_elem_of_lookup_2 _ _ _ Hl) as Hin.
  pose proof (lookup_lt_Some _ _ _ Hl) as Hlt.
  pose proof (proj2 Hok) as Hv. rewrite Forall_forall in Hv.
  destruct (Hv _ Hin) as [Hvalid [s Hst]].
  assert (Ht : is_Some (get_transform (m_registry w) (update_entity u))).
  { unfold state_of in Hst. destruct (get_transform _ _); [by eexists|done]. }
  cbn [apply_updates]. rewrite (bind_eq get _ w w w) by done.
  rewrite Hu, Z.eqb_refl, Hvalid, bool_decide_true, (proj2 (Z.leb_gt _ _)), bool_decide_true
    by (done || lia). cbn [negb orb].
  rewrite (bind_eq (modify _) _ w tt _ eq_refl).
  destruct (IH (ui + 1) (offset + 1) (set_registry (set_transform (m_registry w)
    (update_entity u) (update_value u)) w)) as [Hrun Hok'].
  - by apply set_transform_order_ok.
  - lia.
  - cbn [m_entity_order set_registry]. replace (Z.to_nat (offset + 1)) with (Z.to_nat offset + 1)%nat by lia.
    by rewrite <- drop_drop, Hd.
  - done.
  - rewrite Hrun. split; [|done]. f_equal. f_equal. lia.
Qed.

Lemma apply_journals_spec journals journal_index offset w :
  order_ok (m_registry w) (m_entity_order w) -> 0 <= offset ->
  drop (Z.to_nat offset) (m_entity_order w)
    = map update_entity (concat (map transforms journals)) ->
  map worker_index journals = seqZ journal_index (Z.of_nat (length journals)) ->
  Forall (fun j => map update_sequence (transforms j) = seqZ 0 (Z.of_nat (length (transforms j))))
    journals ->
  apply_journals journals journal_index offset w =
    (Ok tt, set_registry (set_all (concat (map transforms journals)) (m_registry w)) w) /\
  order_ok (set_all (concat (map transforms journals)) (m_registry w)) (m_entity_order w).
Proof using spec.
  revert journal_index offset w. induction journals as [|j journals IH];
    intros ji offset w Hok Ho Hd Hi Hs; [by destruct w|].
  cbn [length] in Hi. rewrite Nat2Z.inj_succ, seqZ_cons in Hi by lia. cbn [map concat] in *.
  injection Hi as Hj Hi. rewrite Z.pred_succ in Hi. apply Forall_cons in Hs as [Hsj Hs].
  rewrite map_app in Hd.
  destruct (apply_updates_spec (transforms j) _ 0 offset w Hok Ho Hd Hsj) as [Hrun Hok'].
  cbn [apply_journals]. rewrite Hj, Z.eqb_refl. cbn [negb].
  rewrite (bind_eq _ _ _ _ _ Hrun).
  assert (Hfold : set_all (transforms j ++ concat (map transforms journals)) (m_registry w)
    = set_all (concat (map transforms journals)) (set_all (transforms j) (m_registry w)))
    by apply foldl_app.
  rewrite Hfold.
  apply (IH (ji + 1) (offset + Z.of_nat (length (transforms j)))
    (set_registry (set_all (transforms j) (m_registry w)) w)); try done; [lia|].
  cbn [m_entity_order set_registry].
  rewrite Z2Nat.inj_add, Nat2Z.id by lia. rewrite <- drop_drop, Hd.
  rewrite drop_app_length' by (by rewrite length_map). done.
Qed.

Lemma check_journals_spec count journals total :
  Forall (fun j => worker_index j < count) journals -> 0 <= total ->
  total + Z.of_nat (length (concat (map transforms journals))) <= MAX_JOURNAL_UPDATES ->
  check_journals count journals total =
    Ok (total + Z.of_nat (length (concat (map transforms journals)))).
Proof using Type.
  unfold MAX_JOURNAL_UPDATES. revert total.
  induction journals as [|j journals IH]; intros total Hi Ht Hm; [cbn; by rewrite Z.add_0_r|].
  apply Forall_cons in Hi as [Hj Hi]. cbn [map concat check_journals] in *.
  rewrite length_app, Nat2Z.inj_add in *. rewrite (proj2 (Z.leb_gt _ _)) by lia.
  unfold MAX_JOURNAL_UPDATES. rewrite !wrap_u_small by (unfold in_u; lia).
  rewrite (proj2 (Z.ltb_ge _ _)) by lia. rewrite IH by (done || lia). f_equal. lia.
Qed.
End merge.

(** Journals in worker order are what sorting any arrangement of them gives. *)
Lemma journals_sorted journals sorted :
  NoDup (map worker_index sorted) -> Sorted journal_le sorted -> journals ≡ₚ sorted ->
  merge_sort journal_le journals = sorted.
Proof.
  intros Hn Hs Hp.
  assert (Htrans : Transitive journal_le) by (intros x y z; unfold journal_le; lia).
  assert (Htotal : Total journal_le) by (intros x y; unfold journal_le; lia).
  apply (Sorted_unique_strong journal_le).
  - intros x y Hx Hy Hxy Hyx. unfold journal_le in *. rewrite merge_sort_Permutation, Hp in Hx.
    apply list_elem_of_lookup in Hx as [i Hi], Hy as [k Hk].
    assert (i = k) as <-; [|congruence].
    apply (NoDup_lookup _ i k (worker_index x) Hn); rewrite list_lookup_fmap.
    + by rewrite Hi.
    + rewrite Hk. cbn. f_equal. lia.
  - by apply Sorted_merge_sort.
  - done.
  - by rewrite merge_sort_Permutation.
Qed.

Section sequential.
Context {reg : Registry} {spec : RegistrySpec}.

Lemma set_all_state updates r :
  NoDup (map update_entity updates) ->
  Forall (fun u => is_Some (state_of r (update_entity u))) updates ->
  (forall e, e ∉ map update_entity updates -> state_of (set_all updates r) e = state_of r e) /\
  forall u s, u ∈ updates -> state_of r (update_entity u) = Some s ->
    state_of (set_all updates r) (update_entity u) =
      Some (mkEntityState (update_entity u) (update_value u) (velocity_delta s)).
Proof using spec.
  revert r. induction updates as [|u updates IH]; intros r Hn Hs.
  { split; [done|]. intros u s Hu. by apply elem_of_nil in Hu. }
  cbn [map] in Hn. apply NoDup_cons in Hn as [Hu Hn]. apply Forall_cons in Hs as [[s0 Hs0] Hs].
  pose proof (fun e => set_transform_state r (update_entity u) (update_value u) e s0 Hs0) as Hset.
  set (r1 := set_transform r (update_entity u) (update_value u)) in *.
  assert (Hother : forall u', u' ∈ updates ->
    state_of r1 (update_entity u') = state_of r (update_entity u')).
  { intros u' Hu'. rewrite Hset, decide_False; [done|]. intros Heq. apply Hu.
    rewrite <- Heq. by apply list_elem_of_fmap_2. }
  destruct (IH r1) as [Hout Hin]; [done| |].
  { rewrite Forall_forall in *. intros u' Hu'. rewrite Hother by done. by apply Hs. }
  change (set_all (u :: updates) r) with (set_all updates r1). split.
  - intros e He. cbn in He. apply not_elem_of_cons in He as [Hne He].
    by rewrite Hout, Hset, decide_False.
  - intros u' s Hu' Hst. apply elem_of_cons in Hu' as [->|Hu'].
    + rewrite Hout, Hset, decide_True by done. congruence.
    + apply Hin; [done|]. by rewrite Hother.
Qed.

Lemma set_all_copy updates r order l :
  order_ok r order -> copy_states r order = Ok l ->
  map update_entity updates = order ->
  map update_value updates = map (fun s => transform_value s + velocity_delta s) l ->
  copy_states (set_all updates r) order = Ok (map advance l).
Proof using spec.
  intros [Hn Hv] Hl He Hval. rewrite copy_states_Forall2 in *. subst order.
  destruct (set_all_state updates r) as [_ Hin]; [done| |].
  { rewrite Forall_map in Hv. eapply Forall_impl; [exact Hv|]. by intros u [_ H]. }
  assert (Hlen : length updates = length l)
    by (apply (f_equal length) in Hval; by rewrite !length_map in Hval).
  apply Forall2_same_length_lookup_2; [by rewrite !length_map|].
  intros i e s Hi Hs. rewrite (list_lookup_fmap update_entity) in Hi.
  rewrite (list_lookup_fmap advance) in Hs.
  destruct (updates !! i) as [u|] eqn:Hu; [|done]. injection Hi as <-.
  destruct (l !! i) as [s0|] eqn:Hs0; [|done]. injection Hs as <-.
  assert (Hold : state_of r (update_entity u) = Some s0).
  { apply (Forall2_lookup_lr _ _ _ i _ _ Hl); [by rewrite (list_lookup_fmap update_entity), Hu|done]. }
  rewrite (Hin u s0) by (done || by eapply list_elem_of_lookup_2). f_equal.
  assert (Hx : update_value u = transform_value s0 + velocity_delta s0).
  { apply (f_equal (fun l => l !! i)) in Hval. rewrite (list_lookup_fmap update_value) in Hval.
    rewrite (list_lookup_fmap (fun s => transform_value s + velocity_delta s)), Hu, Hs0 in Hval.
    by injection Hval. }
  unfold advance. rewrite Hx. f_equal. unfold state_of in Hold.
  destruct (get_transform r _); [|done]. destruct (get_velocity r _); [|done].
  by injection Hold as <-.
Qed.

Lemma journals_of_sequences snapshot count :
  Forall (fun j => map update_sequence (transforms j) = seqZ 0 (Z.of_nat (length (transforms j))))
    (map (journal_of snapshot count) (seqZ 0 count)).
Proof using Type.
  apply Forall_map, Forall_true. intros i. cbn. generalize (part_of snapshot count i). intros l.
  rewrite length_updates_from. generalize 0. induction l as [|s l IH]; intros k; [done|].
  cbn [updates_from map length]. rewrite IH, Nat2Z.inj_succ, (seqZ_cons k) by lia.
  by rewrite Z.pred_succ.
Qed.

Lemma Sorted_seqZ_journals snapshot count n i : 
  Sorted journal_le (map (journal_of snapshot count) (seqZ i (Z.of_nat n))).
Proof using Type.
  revert i. induction n as [|n IH]; intros i; [constructor|].
  rewrite Nat2Z.inj_succ, seqZ_cons, Z.pred_succ by lia. cbn [map]. constructor; [apply IH|].
  destruct n; [constructor|]. rewrite Nat2Z.inj_succ, seqZ_cons by lia. cbn [map].
  constructor. unfold journal_le. cbn. lia.
Qed.

(** C19. Parallel update equals sequential update. From a well-formed world and
    its snapshot, where no entity's value overflows: every worker of any
    number up to the bound builds its journal, and merging the journals in
    whatever order they arrive succeeds, sorts them, and leaves one same
    well-formed world, whose snapshot is the old one with every entity
    advanced by its velocity. *)
Theorem MergeJournals_sequential self w l count :
  world_inv w -> m_owner_thread w = self ->
  Snapshot self w = (Ok (mkWorldSnapshot l), w) ->
  Forall state_range l -> 0 < count <= MAX_WORLD_WORKERS ->
  exists built w',
    Forall2 (fun index journal =>
               BuildTransformJournal (mkWorldSnapshot l) index count = Ok journal)
      (seqZ 0 count) built /\
    (forall arrived, arrived ≡ₚ built ->
       MergeJournals self (arrived, w) = (Ok tt, (built, w'))) /\
    world_inv w' /\ Snapshot self w' = (Ok (mkWorldSnapshot (map advance l)), w').
Proof using spec.
  intros (Hok & Hcount & Hmax) Howner Hsnap Hrange Hc.
  rewrite Snapshot_ok in Hsnap by done. injection Hsnap as Hsnap.
  apply res_bind_ok in Hsnap as (l' & Hl & Hsnap). apply Ok_inj in Hsnap. injection Hsnap as ->.
  pose proof (copy_states_entities _ _ _ Hl) as Hent.
  assert (Hsize : Z.of_nat (length (states (mkWorldSnapshot l))) <= MAX_WORLD_ENTITIES).
  { cbn. rewrite <- (length_map state_entity l), Hent, <- Hcount. done. }
  destruct (journals_updates (mkWorldSnapshot l) count Hsize Hc) as [Hue Huv].
  set (built := map (journal_of (mkWorldSnapshot l) count) (seqZ 0 count)) in *.
  set (updates := concat (map transforms built)) in *. cbn [states] in Hue, Huv.
  assert (Hidx : map worker_index built = seqZ 0 count).
  { unfold built. rewrite map_map. apply map_id. }
  assert (Hlenb : Z.of_nat (length built) = count).
  { unfold built. rewrite length_map, length_seqZ. lia. }
  assert (Hlenu : length updates = length (m_entity_order w)).
  { rewrite <- Hent. apply (f_equal length) in Hue. by rewrite !length_map in *. }
  destruct (apply_journals_spec built 0 0 w Hok) as [Happly Hok'];
    [lia|by rewrite <- Hent, <- Hue|by rewrite Hlenb|apply journals_of_sequences|].
  fold updates in Happly, Hok'.
  exists built, (set_registry (set_all updates (m_registry w)) w). split; [|split; [|split]].
  - unfold built. apply Forall2_fmap_r, Forall_Forall2_diag, Forall_seqZ. intros i Hi.
    apply BuildTransformJournal_ok; done || lia.
  - intros arrived Hp. unfold MergeJournals.
    rewrite (bind_eq _ _ (arrived, w) tt (arrived, w))
      by (unfold on_world, on; cbn [snd fst]; by rewrite AssertOwner_ok).
    rewrite (bind_eq get _ _ _ _ eq_refl). rewrite (Permutation_length Hp), Hlenb.
    rewrite (proj2 (Z.eqb_neq _ _)), (proj2 (Z.ltb_ge _ _)) by lia. cbn [orb].
    rewrite (journals_sorted arrived built) by
      (rewrite ?Hidx; done || apply NoDup_seqZ || (unfold built;
        rewrite <- (Z2Nat.id count) at 2 by lia; apply Sorted_seqZ_journals)).
    rewrite (bind_eq (modify _) _ _ tt (built, w)) by done.
    assert (Hchk : check_journals count built 0 = Ok (Z.of_nat (length updates))).
    { apply check_journals_spec; [|lia|].
      - apply (Forall_map worker_index (fun i => i < count)). rewrite Hidx.
        apply Forall_seqZ. lia.
      - fold updates. rewrite Hlenu. unfold MAX_WORLD_ENTITIES, MAX_JOURNAL_UPDATES in *. lia. }
    rewrite (bind_eq (lift _) _ (built, w) (Z.of_nat (length updates)) (built, w))
      by (unfold lift; by rewrite Hchk).
    rewrite Hlenu, Z.eqb_refl. cbn [negb]. unfold on_world, on. cbn [snd fst].
    by rewrite Happly.
  - split; [done|]. by split.
  - rewrite Snapshot_ok by done. cbn [m_registry m_entity_order set_registry].
    rewrite (set_all_copy updates _ _ l); try done. by rewrite Hue.
Qed.
End sequential.

(** ** A concrete registry, and examples *)

Module MapRegistry.
Record t := mk { made : nat; trs : gmap Z Z; vels : gmap Z Z }.

#[export] Instance reg : Registry := {|
  registry := t;
  empty_registry := mk 0 ∅ ∅;
  create r := (Z.of_nat (made r), mk (S (made r)) (trs r) (vels r));
  valid r e := bool_decide (0 <= e < Z.of_nat (made r));
  get_transform r e := trs r !! e;
  get_velocity r e := vels r !! e;
  emplace_transform r e v := mk (made r) (<[e := v]> (trs r)) (vels r);
  emplace_velocity r e v := mk (made r) (trs r) (<[e := v]> (vels r));
  set_transform r e v := mk (made r) (<[e := v]> (trs r)) (vels r) |}.

Lemma lookup_insert_decide (m : gmap Z Z) (e e' v : Z) :
  <[e := v]> m !! e' = if decide (e' = e) then Some v else m !! e'.
Proof.
  destruct (decide (e' = e)) as [->|]; [by rewrite lookup_insert_eq|by rewrite lookup_insert_ne].
Qed.

#[export] Instance spec : @RegistrySpec reg.
Proof.
  constructor; cbn; intros; try done; try apply lookup_insert_decide.
  - rewrite bool_decide_false; [done|lia].
  - destruct (decide _) as [->|Hne].
    + rewrite bool_decide_true; [done|lia].
    + apply bool_decide_ext. lia.
Qed.
End MapRegistry.

Definition example_world : @EcsWorld MapRegistry.reg := new_EcsWorld 7.
Definition example_created : @EcsWorld MapRegistry.reg := (CreateEntities 7 3 example_world).2.
Definition example_states : list EntityState :=
  [mkEntityState 0 0 1; mkEntityState 1 1 1; mkEntityState 2 2 1].

Lemma CreateEntities_spec_witness :
  exists w' new, CreateEntities 7 3 example_world = (Ok tt, w') /\ world_inv w' /\
    Snapshot 7 w' = (Ok (mkWorldSnapshot ([] ++ new)), w') /\
    map (fun s => (transform_value s, velocity_delta s)) new =
      map (fun i => (m_entity_count example_world + i, DEFAULT_VELOCITY)) (seqZ 0 3).
Proof.
  apply (CreateEntities_spec (spec := MapRegistry.spec) 7 example_world [] 3).
  - split; [split; constructor|]. by vm_compute.
  - done.
  - by vm_compute.
  - by vm_compute.
Defined.

Lemma MergeJournals_sequential_witness :
  exists built w',
    Forall2 (fun index journal =>
               BuildTransformJournal (mkWorldSnapshot example_states) index 2 = Ok journal)
      (seqZ 0 2) built /\
    (forall arrived, arrived ≡ₚ built ->
       MergeJournals 7 (arrived, example_created) = (Ok tt, (built, w'))) /\
    world_inv w' /\ Snapshot 7 w' = (Ok (mkWorldSnapshot (map advance example_states)), w').
Proof.
  apply (MergeJournals_sequential (spec := MapRegistry.spec) 7 example_created example_states 2).
  - split; [split|by vm_compute].
    + apply (bool_decide_unpack _). by vm_compute.
    + apply (bool_decide_unpack _). by vm_compute.
  - done.
  - by vm_compute.
  - repeat constructor; by vm_compute.
  - by vm_compute.
Defined.

Definition example_bad_journals : list EcsJournal :=
  [mkEcsJournal 0 [mkTransformUpdate 0 50 0];
   mkEcsJournal 1 [mkTransformUpdate 2 60 0; mkTransformUpdate 1 70 1]].

(** A merge is not atomic: one that throws may have changed the world
    already. Journals that cover the world, of which the second names an entity
    out of place, are rejected, and leave the first one's update behind. *)
Theorem MergeJournals_not_atomic :
  match MergeJournals 7 (example_bad_journals, example_created) with
  | (Throw e, (_, w')) => exn_cls e = EcsError /\
      (Snapshot 7 w').1 =
        Ok (mkWorldSnapshot [mkEntityState 0 50 1; mkEntityState 1 1 1; mkEntityState 2 2 1])
  | _ => False
  end.
Proof. by vm_compute. Qed.
