(* ===== verification/RenderGraph.v ===== *)
(** * The render graph

    [src/src/trinityal-vulkan/Tr2RenderGraphALVulkan.h] and
    [Tr2RenderGraphALVulkan.cpp]: the declarations of a frame's passes and
    resources, and [Compile], which orders the passes, culls the dead ones and
    computes lifetimes, attachments and barriers. This file holds the
    definitions; [RenderGraphOrder] the theorems about the schedule and
    [RenderGraphSpec] those about the rest of the result.

    The enumerators and flag bits of the Vulkan headers are named, not numbered:
    a layout is a constructor, a flag word the list of its bits, a format
    an opaque number and a clear value its bytes. *)

From stdpp Require Import base numbers list option strings.
From Stdlib Require Import Strings.Byte.
From S2P Require Import Prelude.

#[local] Open Scope Z_scope.

(** ** Names of the Vulkan headers and of [ALResult.h] *)

Inductive ALResult :=
  S_OK | E_INVALIDARG | E_INVALIDCALL | E_FAIL | E_OUTOFMEMORY | E_DEVICELOST | E_NOTIMPL.

Inductive VkImageLayout :=
| VK_IMAGE_LAYOUT_UNDEFINED
| VK_IMAGE_LAYOUT_COLOR_ATTACHMENT_OPTIMAL
| VK_IMAGE_LAYOUT_DEPTH_STENCIL_ATTACHMENT_OPTIMAL
| VK_IMAGE_LAYOUT_SHADER_READ_ONLY_OPTIMAL
| VK_IMAGE_LAYOUT_TRANSFER_DST_OPTIMAL
| VK_IMAGE_LAYOUT_TRANSFER_SRC_OPTIMAL
| VK_IMAGE_LAYOUT_PRESENT_SRC_KHR
| VK_IMAGE_LAYOUT_OTHER (value : Z).

#[export] Instance VkImageLayout_eq_dec : EqDecision VkImageLayout.
Proof. solve_decision. Defined.

Inductive stage_bit :=
| TOP_OF_PIPE_BIT | VERTEX_INPUT_BIT | VERTEX_SHADER_BIT | FRAGMENT_SHADER_BIT
| EARLY_FRAGMENT_TESTS_BIT | LATE_FRAGMENT_TESTS_BIT | COLOR_ATTACHMENT_OUTPUT_BIT
| TRANSFER_BIT | ALL_COMMANDS_BIT.

Inductive access_bit :=
| INDEX_READ_BIT | VERTEX_ATTRIBUTE_READ_BIT | UNIFORM_READ_BIT
| SHADER_SAMPLED_READ_BIT | SHADER_STORAGE_READ_BIT
| COLOR_ATTACHMENT_WRITE_BIT
| DEPTH_STENCIL_ATTACHMENT_READ_BIT | DEPTH_STENCIL_ATTACHMENT_WRITE_BIT
| TRANSFER_READ_BIT | TRANSFER_WRITE_BIT
| MEMORY_READ_BIT | MEMORY_WRITE_BIT.

#[export] Instance stage_bit_eq_dec : EqDecision stage_bit.
Proof. solve_decision. Defined.
#[export] Instance access_bit_eq_dec : EqDecision access_bit.
Proof. solve_decision. Defined.

(** A flag word is the list of the bits or-ed into it; the words of this file all
    come from the two tables below, where equal words are equal lists. *)
Definition VkPipelineStageFlags2 : Type := list stage_bit.
Definition VkAccessFlags2 : Type := list access_bit.

Inductive VkAttachmentLoadOp :=
| VK_ATTACHMENT_LOAD_OP_LOAD | VK_ATTACHMENT_LOAD_OP_CLEAR | VK_ATTACHMENT_LOAD_OP_DONT_CARE.
Inductive VkAttachmentStoreOp := VK_ATTACHMENT_STORE_OP_STORE | VK_ATTACHMENT_STORE_OP_DONT_CARE.

Abbreviation VkFormat := Z (only parsing).
Definition VkClearValue : Type := list byte.
(** [VkClearValue clearValue = {}]. *)
Definition zero_clear : VkClearValue := replicate 16 x00.

(** ** The declarations *)

Abbreviation ResourceId := Z (only parsing).
Abbreviation PassId := Z (only parsing).
Definition UINT32_MAX : Z := 2 ^ 32 - 1.
Definition INVALID_RESOURCE : ResourceId := UINT32_MAX.
Definition INVALID_PASS : PassId := UINT32_MAX.
Definition MAX_PASS_COUNT : Z := 4096.
Definition MAX_RESOURCE_COUNT : Z := 4096.

Inductive Queue := GRAPHICS.

Module ImageAccess.
Inductive type := COLOR_ATTACHMENT | DEPTH_ATTACHMENT | SHADER_READ | TRANSFER_WRITE | TRANSFER_READ.
End ImageAccess.

Module BufferAccess.
Inductive type := VERTEX_READ | INDEX_READ | SHADER_READ | TRANSFER_WRITE | TRANSFER_READ.
End BufferAccess.

#[export] Instance ImageAccess_eq_dec : EqDecision ImageAccess.type.
Proof. solve_decision. Defined.

Record ImageDesc := mkImageDesc
  { width : Z; height : Z; format : VkFormat; initialLayout : VkImageLayout; isDepth : bool }.
Record BufferDesc := mkBufferDesc { sizeBytes : Z }.

(** The initial values of the two descriptions. *)
Definition new_ImageDesc : ImageDesc := mkImageDesc 0 0 0 VK_IMAGE_LAYOUT_UNDEFINED false.
Definition new_BufferDesc : BufferDesc := mkBufferDesc 0.

Record ImageUse := mkImageUse
  { iu_pass : PassId; iu_isRead : bool; iu_access : ImageAccess.type;
    iu_loadOp : VkAttachmentLoadOp; iu_storeOp : VkAttachmentStoreOp;
    iu_clearValue : VkClearValue }.

(** [ImageUse{ pass, isRead, access }]. *)
Definition new_ImageUse (pass : PassId) (isRead : bool) (access : ImageAccess.type) : ImageUse :=
  mkImageUse pass isRead access VK_ATTACHMENT_LOAD_OP_LOAD VK_ATTACHMENT_STORE_OP_STORE zero_clear.

Record BufferUse := mkBufferUse
  { bu_pass : PassId; bu_isRead : bool; bu_access : BufferAccess.type }.

Record Resource := mkResource
  { r_name : string; isImage : bool; imageDesc : ImageDesc; bufferDesc : BufferDesc;
    presented : bool; imageUses : list ImageUse; bufferUses : list BufferUse }.

Record Pass := mkPass { p_name : string; p_queue : Queue; cullable : bool }.

Record Tr2RenderGraphAL := mkTr2RenderGraphAL
  { m_resources : list Resource; m_passes : list Pass }.

Definition new_Tr2RenderGraphAL : Tr2RenderGraphAL := mkTr2RenderGraphAL [] [].

Definition set_resources (l : list Resource) (g : Tr2RenderGraphAL) : Tr2RenderGraphAL :=
  mkTr2RenderGraphAL l (m_passes g).
Definition set_passes (l : list Pass) (g : Tr2RenderGraphAL) : Tr2RenderGraphAL :=
  mkTr2RenderGraphAL (m_resources g) l.
Definition set_presented (b : bool) (r : Resource) : Resource :=
  mkResource (r_name r) (isImage r) (imageDesc r) (bufferDesc r) b (imageUses r) (bufferUses r).
Definition set_imageUses (l : list ImageUse) (r : Resource) : Resource :=
  mkResource (r_name r) (isImage r) (imageDesc r) (bufferDesc r) (presented r) l (bufferUses r).
Definition set_bufferUses (l : list BufferUse) (r : Resource) : Resource :=
  mkResource (r_name r) (isImage r) (imageDesc r) (bufferDesc r) (presented r) (imageUses r) l.

(** [v.size()] and [v[index]] of a vector indexed with 32-bit integers. *)
Definition size {A} (v : list A) : Z := Z.of_nat (length v).
Definition vec_at {A} (v : list A) (index : Z) : res A := index_at v (Z.to_nat index).
Definition vec_set {A} (index : Z) (x : A) (v : list A) : list A := <[Z.to_nat index := x]> v.

Definition update_resource (resource : ResourceId) (f : Resource -> Resource)
    : M Tr2RenderGraphAL unit :=
  g ← get;
  r ← lift (vec_at (m_resources g) resource);
  modify (set_resources (vec_set resource (f r) (m_resources g))).

Definition add_resource (resource : Resource) : M Tr2RenderGraphAL ResourceId :=
  g ← get;
  if MAX_RESOURCE_COUNT <=? size (m_resources g) then mret INVALID_RESOURCE
  else
    modify (set_resources (m_resources g ++ [resource]));;
    g ← get;
    mret (u32 (size (m_resources g) - 1)).

Definition AddImage (name : option string) (desc : ImageDesc) : M Tr2RenderGraphAL ResourceId :=
  add_resource (mkResource (default "" name) true desc new_BufferDesc false [] []).

Definition AddBuffer (name : option string) (desc : BufferDesc) : M Tr2RenderGraphAL ResourceId :=
  add_resource (mkResource (default "" name) false new_ImageDesc desc false [] []).

Definition AddPass (name : option string) (queue : Queue) : M Tr2RenderGraphAL PassId :=
  g ← get;
  if MAX_PASS_COUNT <=? size (m_passes g) then mret INVALID_PASS
  else
    modify (set_passes (m_passes g ++ [mkPass (default "" name) queue false]));;
    g ← get;
    mret (u32 (size (m_passes g) - 1)).

(** [pass >= m_passes.size() || resource >= m_resources.size() ||
    !m_resources[resource].isImage], or for a buffer its negation. *)
Definition not_declared (pass : PassId) (resource : ResourceId) (image : bool)
    : M Tr2RenderGraphAL bool :=
  g ← get;
  if (size (m_passes g) <=? pass) || (size (m_resources g) <=? resource) then mret true
  else
    r ← lift (vec_at (m_resources g) resource);
    mret (if image then negb (isImage r) else isImage r).

Definition use_image (use : ImageUse) (resource : ResourceId) : M Tr2RenderGraphAL ALResult :=
  bad ← not_declared (iu_pass use) resource true;
  if bad : bool then mret E_INVALIDARG
  else
    update_resource resource (fun r => set_imageUses (imageUses r ++ [use]) r);;
    mret S_OK.

Definition use_buffer (use : BufferUse) (resource : ResourceId) : M Tr2RenderGraphAL ALResult :=
  bad ← not_declared (bu_pass use) resource false;
  if bad : bool then mret E_INVALIDARG
  else
    update_resource resource (fun r => set_bufferUses (bufferUses r ++ [use]) r);;
    mret S_OK.

Definition PassReadsImage (pass : PassId) (resource : ResourceId) (access : ImageAccess.type) :=
  use_image (new_ImageUse pass true access) resource.
Definition PassWritesImage (pass : PassId) (resource : ResourceId) (access : ImageAccess.type) :=
  use_image (new_ImageUse pass false access) resource.
Definition PassReadsBuffer (pass : PassId) (resource : ResourceId) (access : BufferAccess.type) :=
  use_buffer (mkBufferUse pass true access) resource.
Definition PassWritesBuffer (pass : PassId) (resource : ResourceId) (access : BufferAccess.type) :=
  use_buffer (mkBufferUse pass false access) resource.

Definition MarkPassCullable (pass : PassId) : M Tr2RenderGraphAL unit :=
  g ← get;
  if pass <? size (m_passes g) then
    p ← lift (vec_at (m_passes g) pass);
    modify (set_passes (vec_set pass (mkPass (p_name p) (p_queue p) true) (m_passes g)))
  else mret tt.

(** The loop of [SetAttachmentClear]: the first attachment write of the pass is
    changed. *)
Fixpoint clear_use (pass : PassId) (loadOp : VkAttachmentLoadOp) (clearValue : VkClearValue)
    (uses : list ImageUse) : option (list ImageUse) :=
  match uses with
  | [] => None
  | use :: uses =>
      if (iu_pass use =? pass) && negb (iu_isRead use)
         && (bool_decide (iu_access use = ImageAccess.COLOR_ATTACHMENT)
             || bool_decide (iu_access use = ImageAccess.DEPTH_ATTACHMENT))
      then Some (mkImageUse (iu_pass use) (iu_isRead use) (iu_access use) loadOp
                   VK_ATTACHMENT_STORE_OP_STORE clearValue :: uses)
      else cons use <$> clear_use pass loadOp clearValue uses
  end.

Definition SetAttachmentClear (pass : PassId) (image : ResourceId) (loadOp : VkAttachmentLoadOp)
    (clearValue : VkClearValue) : M Tr2RenderGraphAL ALResult :=
  bad ← not_declared pass image true;
  if bad : bool then mret E_INVALIDARG
  else
    g ← get;
    r ← lift (vec_at (m_resources g) image);
    match clear_use pass loadOp clearValue (imageUses r) with
    | None => mret E_INVALIDCALL
    | Some uses => update_resource image (set_imageUses uses);; mret S_OK
    end.

Definition MarkPresented (image : ResourceId) : M Tr2RenderGraphAL ALResult :=
  g ← get;
  if size (m_resources g) <=? image then mret E_INVALIDARG
  else
    r ← lift (vec_at (m_resources g) image);
    if negb (isImage r) then mret E_INVALIDARG
    else update_resource image (set_presented true);; mret S_OK.

(** ** The result of [Compile] *)

Record ImageBarrier := mkImageBarrier
  { ib_beforePass : PassId; ib_resource : ResourceId;
    ib_srcStage : VkPipelineStageFlags2; ib_srcAccess : VkAccessFlags2;
    ib_dstStage : VkPipelineStageFlags2; ib_dstAccess : VkAccessFlags2;
    oldLayout : VkImageLayout; newLayout : VkImageLayout }.

Record BufferBarrier := mkBufferBarrier
  { bb_beforePass : PassId; bb_resource : ResourceId;
    bb_srcStage : VkPipelineStageFlags2; bb_srcAccess : VkAccessFlags2;
    bb_dstStage : VkPipelineStageFlags2; bb_dstAccess : VkAccessFlags2 }.

Record ResourceLifetime := mkResourceLifetime
  { rl_resource : ResourceId; rl_isImage : bool; used : bool;
    firstPass : PassId; lastPass : PassId }.

Record PassAttachment := mkPassAttachment
  { pa_pass : PassId; pa_image : ResourceId; attachmentSlot : Z; pa_isDepth : bool;
    pa_loadOp : VkAttachmentLoadOp; pa_storeOp : VkAttachmentStoreOp;
    pa_clearValue : VkClearValue }.

Record CompiledPass := mkCompiledPass
  { passId : PassId; cp_name : string; cp_queue : Queue; culled : bool; orderIndex : Z }.

Definition new_CompiledPass : CompiledPass := mkCompiledPass INVALID_PASS "" GRAPHICS false 0.

Record CompileResult := mkCompileResult
  { passes : list CompiledPass; imageBarriers : list ImageBarrier;
    bufferBarriers : list BufferBarrier; lifetimes : list ResourceLifetime;
    passAttachments : list PassAttachment }.

Definition new_CompileResult : CompileResult := mkCompileResult [] [] [] [] [].

(** ** The access tables *)

Record ImageAccessInfo := mkImageAccessInfo
  { iai_stage : VkPipelineStageFlags2; iai_access : VkAccessFlags2; iai_layout : VkImageLayout }.
Record BufferAccessInfo := mkBufferAccessInfo
  { bai_stage : VkPipelineStageFlags2; bai_access : VkAccessFlags2 }.

Definition GetImageAccessInfo (access : ImageAccess.type) : ImageAccessInfo :=
  match access with
  | ImageAccess.COLOR_ATTACHMENT =>
      mkImageAccessInfo [COLOR_ATTACHMENT_OUTPUT_BIT] [COLOR_ATTACHMENT_WRITE_BIT]
        VK_IMAGE_LAYOUT_COLOR_ATTACHMENT_OPTIMAL
  | ImageAccess.DEPTH_ATTACHMENT =>
      mkImageAccessInfo [EARLY_FRAGMENT_TESTS_BIT; LATE_FRAGMENT_TESTS_BIT]
        [DEPTH_STENCIL_ATTACHMENT_READ_BIT; DEPTH_STENCIL_ATTACHMENT_WRITE_BIT]
        VK_IMAGE_LAYOUT_DEPTH_STENCIL_ATTACHMENT_OPTIMAL
  | ImageAccess.SHADER_READ =>
      mkImageAccessInfo [VERTEX_SHADER_BIT; FRAGMENT_SHADER_BIT] [SHADER_SAMPLED_READ_BIT]
        VK_IMAGE_LAYOUT_SHADER_READ_ONLY_OPTIMAL
  | ImageAccess.TRANSFER_WRITE =>
      mkImageAccessInfo [TRANSFER_BIT] [TRANSFER_WRITE_BIT]
        VK_IMAGE_LAYOUT_TRANSFER_DST_OPTIMAL
  | ImageAccess.TRANSFER_READ =>
      mkImageAccessInfo [TRANSFER_BIT] [TRANSFER_READ_BIT]
        VK_IMAGE_LAYOUT_TRANSFER_SRC_OPTIMAL
  end.

Definition GetBufferAccessInfo (access : BufferAccess.type) : BufferAccessInfo :=
  match access with
  | BufferAccess.VERTEX_READ =>
      mkBufferAccessInfo [VERTEX_INPUT_BIT] [VERTEX_ATTRIBUTE_READ_BIT]
  | BufferAccess.INDEX_READ => mkBufferAccessInfo [VERTEX_INPUT_BIT] [INDEX_READ_BIT]
  | BufferAccess.SHADER_READ =>
      mkBufferAccessInfo [VERTEX_SHADER_BIT; FRAGMENT_SHADER_BIT]
        [UNIFORM_READ_BIT; SHADER_STORAGE_READ_BIT]
  | BufferAccess.TRANSFER_WRITE => mkBufferAccessInfo [TRANSFER_BIT] [TRANSFER_WRITE_BIT]
  | BufferAccess.TRANSFER_READ => mkBufferAccessInfo [TRANSFER_BIT] [TRANSFER_READ_BIT]
  end.

(** ** Validation and scheduling

    [touch] is what ordering and culling look at of a use: its pass and whether
    it only reads. [touches] is the list the branch on [isImage] selects. *)

Record touch := mkTouch { t_pass : PassId; t_isRead : bool }.

Definition image_touch (u : ImageUse) : touch := mkTouch (iu_pass u) (iu_isRead u).
Definition buffer_touch (u : BufferUse) : touch := mkTouch (bu_pass u) (bu_isRead u).

Definition touches (r : Resource) : list touch :=
  if isImage r then map image_touch (imageUses r) else map buffer_touch (bufferUses r).

Definition is_nil {A} (v : list A) : bool := match v with [] => true | _ => false end.

Definition front_is_read (uses : list ImageUse) : bool :=
  match uses with [] => false | use :: _ => iu_isRead use end.

(** The validation loop: the message of the first invalid resource. *)
Fixpoint validate (resources : list Resource) : option string :=
  match resources with
  | [] => None
  | resource :: resources =>
      if isImage resource && (presented resource && is_nil (imageUses resource))
      then Some ("presented image '" +:+ r_name resource +:+ "' has no declared uses")
      else if isImage resource
              && (negb (is_nil (imageUses resource))
                  && bool_decide (initialLayout (imageDesc resource) = VK_IMAGE_LAYOUT_UNDEFINED)
                  && front_is_read (imageUses resource))
      then Some ("image '" +:+ r_name resource +:+ "' is read before its first write")
      else validate resources
  end.

Record UsePair := mkUsePair { from : PassId; to : PassId }.

(** The edges between consecutive uses of one resource. *)
Fixpoint use_pairs (uses : list touch) : list UsePair :=
  match uses with
  | previous :: (current :: _) as uses =>
      if t_isRead previous && t_isRead current then use_pairs uses
      else mkUsePair (t_pass previous) (t_pass current) :: use_pairs uses
  | _ => []
  end.

Definition edges_of (resources : list Resource) : list UsePair :=
  concat (map (fun r => use_pairs (touches r)) resources).

Record Degrees := mkDegrees { inDegree : list Z; outgoing : list (list PassId) }.

Definition new_Degrees (passCount : nat) : Degrees :=
  mkDegrees (replicate passCount 0) (replicate passCount []).

(** The loop over the edges; the message of a pass that depends on itself. *)
Fixpoint add_edges (passes : list Pass) (edges : list UsePair) (d : Degrees)
    : res (string + Degrees) :=
  match edges with
  | [] => Ok (inr d)
  | edge :: edges =>
      if from edge =? to edge then
        p ← vec_at passes (from edge);
        Ok (inl ("pass '" +:+ p_name p +:+ "' reads and writes the same resource"))
      else
        n ← vec_at (inDegree d) (to edge);
        next ← vec_at (outgoing d) (from edge);
        add_edges passes edges
          (mkDegrees (vec_set (to edge) (u32 (n + 1)) (inDegree d))
             (vec_set (from edge) (next ++ [to edge]) (outgoing d)))
  end.

(** [std::priority_queue] with [std::greater]: its elements in increasing
    order, so that [top] is the head. *)
Fixpoint push (p : PassId) (ready : list PassId) : list PassId :=
  match ready with
  | [] => [p]
  | q :: rest => if p <=? q then p :: ready else q :: push p rest
  end.

(** The first loop over the passes: those without a predecessor. *)
Fixpoint push_free (p : PassId) (degrees : list Z) (ready : list PassId) : list PassId :=
  match degrees with
  | [] => ready
  | n :: degrees => push_free (p + 1) degrees (if n =? 0 then push p ready else ready)
  end.

(** The loop over the successors of a pass that was ordered. *)
Fixpoint release (next : list PassId) (degrees : list Z) (ready : list PassId)
    : res (list Z * list PassId) :=
  match next with
  | [] => Ok (degrees, ready)
  | p :: next =>
      n ← vec_at degrees p;
      let n := u32 (n - 1) in
      release next (vec_set p n degrees) (if n =? 0 then push p ready else ready)
  end.

(** [while( !ready.empty() )]. *)
Fixpoint kahn (fuel : nat) (outgoing : list (list PassId)) (degrees : list Z)
    (ready order : list PassId) : res (list PassId) :=
  match ready with
  | [] => Ok order
  | pass :: ready =>
      match fuel with
      | O => OutOfFuel
      | S fuel =>
          next ← vec_at outgoing pass;
          '(degrees, ready) ← release next degrees ready;
          kahn fuel outgoing degrees ready (order ++ [pass])
      end
  end.

(** [Compile] up to the check for a cycle: the order, or the message. *)
Definition schedule (g : Tr2RenderGraphAL) : res (string + list PassId) :=
  if is_nil (m_passes g) then Ok (inl "render graph has no passes")
  else if is_nil (m_resources g) then Ok (inl "render graph has no resources")
  else
    match validate (m_resources g) with
    | Some message => Ok (inl message)
    | None =>
        let passCount := length (m_passes g) in
        degrees ← add_edges (m_passes g) (edges_of (m_resources g)) (new_Degrees passCount);
        match degrees with
        | inl message => Ok (inl message)
        | inr d =>
            order ← kahn passCount (outgoing d) (inDegree d) (push_free 0 (inDegree d) []) [];
            if negb (length order =? passCount)%nat then Ok (inl "render graph contains a cycle")
            else Ok (inr order)
        end
    end.

(** ** Culling *)

Definition consumed (uses : list touch) (pass : PassId) (surviving : list bool) : res bool :=
  exists_res (fun use =>
    if negb (t_pass use =? pass) || t_isRead use then Ok false
    else
      exists_res (fun reader =>
        if (t_pass reader =? pass) || negb (t_isRead reader) then Ok false
        else vec_at surviving (t_pass reader)) uses) uses.

Definition HasReasonToSurvive (g : Tr2RenderGraphAL) (pass : PassId) (surviving : list bool)
    : res bool :=
  declared ← vec_at (m_passes g) pass;
  if negb (cullable declared) then Ok true
  else
    exists_res (fun resource =>
      if presented resource && isImage resource
         && existsb (fun use => negb (iu_isRead use) && (iu_pass use =? pass)) (imageUses resource)
      then Ok true
      else
        c ← consumed (map image_touch (imageUses resource)) pass surviving;
        if c : bool then Ok true
        else consumed (map buffer_touch (bufferUses resource)) pass surviving)
      (m_resources g).

(** The loop over the order from its end. *)
Fixpoint cull (g : Tr2RenderGraphAL) (rorder : list PassId) (surviving : list bool)
    : res (list bool) :=
  match rorder with
  | [] => Ok surviving
  | pass :: rorder =>
      b ← HasReasonToSurvive g pass surviving;
      cull g rorder (if b : bool then vec_set pass true surviving else surviving)
  end.

(** The loop that fills [out.passes]. *)
Fixpoint number_passes (g : Tr2RenderGraphAL) (surviving : list bool) (order : list PassId)
    (index : Z) (out : list CompiledPass) : res (list CompiledPass) :=
  match order with
  | [] => Ok out
  | pass :: order =>
      declared ← vec_at (m_passes g) pass;
      alive ← vec_at surviving pass;
      let compiled := mkCompiledPass pass (p_name declared) (p_queue declared) (negb alive)
                        (if alive : bool then index else UINT32_MAX) in
      number_passes g surviving order (if alive : bool then u32 (index + 1) else index)
        (vec_set pass compiled out)
  end.

(** ** Lifetimes, attachments and barriers *)

Fixpoint lifetime_loop (surviving : list bool) (uses : list touch) (lifetime : ResourceLifetime)
    : res ResourceLifetime :=
  match uses with
  | [] => Ok lifetime
  | use :: uses =>
      alive ← vec_at surviving (t_pass use);
      lifetime_loop surviving uses
        (if alive : bool then
           mkResourceLifetime (rl_resource lifetime) (rl_isImage lifetime) true
             (if firstPass lifetime =? INVALID_PASS then t_pass use else firstPass lifetime)
             (t_pass use)
         else lifetime)
  end.

Definition lifetime_of (surviving : list bool) (r : ResourceId) (resource : Resource)
    : res ResourceLifetime :=
  lifetime_loop surviving (touches resource)
    (mkResourceLifetime r (isImage resource) false INVALID_PASS INVALID_PASS).

(** The loop over the resources, whose bodies do not depend on one another:
    their results in order. *)
Fixpoint for_resources {A} (f : ResourceId -> Resource -> res A) (r : ResourceId)
    (resources : list Resource) : res (list A) :=
  match resources with
  | [] => Ok []
  | resource :: resources =>
      a ← f r resource;
      rest ← for_resources f (r + 1) resources;
      Ok (a :: rest)
  end.

(** The attachments a pass has on one image, and the next color slot. *)
Fixpoint image_attachments (pass : PassId) (r : ResourceId) (uses : list ImageUse) (colorSlot : Z)
    : list PassAttachment * Z :=
  match uses with
  | [] => ([], colorSlot)
  | use :: uses =>
      let attachment slot depth :=
        mkPassAttachment pass r slot depth (iu_loadOp use) (iu_storeOp use) (iu_clearValue use) in
      if negb (iu_pass use =? pass) || iu_isRead use then image_attachments pass r uses colorSlot
      else if bool_decide (iu_access use = ImageAccess.DEPTH_ATTACHMENT) then
        let '(rest, n) := image_attachments pass r uses colorSlot in
        (attachment 4 true :: rest, n)
      else if bool_decide (iu_access use = ImageAccess.COLOR_ATTACHMENT) && (colorSlot <? 4) then
        let '(rest, n) := image_attachments pass r uses (colorSlot + 1) in
        (attachment colorSlot false :: rest, n)
      else image_attachments pass r uses colorSlot
  end.

Fixpoint pass_attachments (pass : PassId) (r : ResourceId) (resources : list Resource)
    (colorSlot : Z) : list PassAttachment :=
  match resources with
  | [] => []
  | resource :: resources =>
      let '(here, n) :=
        if negb (isImage resource) then ([], colorSlot)
        else image_attachments pass r (imageUses resource) colorSlot in
      here ++ pass_attachments pass (r + 1) resources n
  end.

(** The loop over the passes. *)
Fixpoint attachments (resources : list Resource) (pass : PassId) (surviving : list bool)
    : list PassAttachment :=
  match surviving with
  | [] => []
  | alive :: surviving =>
      (if alive : bool then pass_attachments pass 0 resources 0 else [])
      ++ attachments resources (pass + 1) surviving
  end.

(** The variables of the loop over an image's uses. *)
Record ImageCursor := mkImageCursor
  { currentLayout : VkImageLayout; previousStage : VkPipelineStageFlags2;
    previousAccess : VkAccessFlags2; previousWasWrite : bool; havePrevious : bool }.

Definition image_cursor_after (use : ImageUse) : ImageCursor :=
  let info := GetImageAccessInfo (iu_access use) in
  mkImageCursor (iai_layout info) (iai_stage info) (iai_access info) (negb (iu_isRead use)) true.

(** The barrier before a use, if it needs one. *)
Definition use_barrier (r : ResourceId) (c : ImageCursor) (use : ImageUse) : option ImageBarrier :=
  let info := GetImageAccessInfo (iu_access use) in
  let needsBarrier :=
    if havePrevious c
    then negb (bool_decide (iai_layout info = currentLayout c)) || previousWasWrite c
         || negb (iu_isRead use)
    else negb (bool_decide (iai_layout info = currentLayout c)) in
  if needsBarrier : bool then
    Some (mkImageBarrier (iu_pass use) r
            (if havePrevious c then previousStage c else [TOP_OF_PIPE_BIT])
            (if havePrevious c then previousAccess c else [])
            (iai_stage info) (iai_access info) (currentLayout c) (iai_layout info))
  else None.

Fixpoint image_barrier_loop (surviving : list bool) (r : ResourceId) (uses : list ImageUse)
    (c : ImageCursor) : res (list ImageBarrier * ImageCursor) :=
  match uses with
  | [] => Ok ([], c)
  | use :: uses =>
      alive ← vec_at surviving (iu_pass use);
      if negb alive then image_barrier_loop surviving r uses c
      else
        '(rest, last) ← image_barrier_loop surviving r uses (image_cursor_after use);
        Ok (option_list (use_barrier r c use) ++ rest, last)
  end.

Definition present_barrier (r : ResourceId) (c : ImageCursor) : ImageBarrier :=
  mkImageBarrier INVALID_PASS r (previousStage c) (previousAccess c) [ALL_COMMANDS_BIT]
    [MEMORY_READ_BIT; MEMORY_WRITE_BIT] (currentLayout c) VK_IMAGE_LAYOUT_PRESENT_SRC_KHR.

Definition image_barriers (surviving : list bool) (r : ResourceId) (resource : Resource)
    : res (list ImageBarrier) :=
  if negb (isImage resource) || is_nil (imageUses resource) then Ok []
  else
    '(l, c) ← image_barrier_loop surviving r (imageUses resource)
                (mkImageCursor (initialLayout (imageDesc resource)) [] [] true false);
    Ok (l ++ (if presented resource then [present_barrier r c] else [])).

Record BufferCursor := mkBufferCursor
  { b_previousStage : VkPipelineStageFlags2; b_previousAccess : VkAccessFlags2;
    b_previousWasWrite : bool; b_havePrevious : bool }.

Definition buffer_cursor_after (use : BufferUse) : BufferCursor :=
  let info := GetBufferAccessInfo (bu_access use) in
  mkBufferCursor (bai_stage info) (bai_access info) (negb (bu_isRead use)) true.

Definition buffer_use_barrier (r : ResourceId) (c : BufferCursor) (use : BufferUse)
    : option BufferBarrier :=
  let info := GetBufferAccessInfo (bu_access use) in
  if b_havePrevious c
     && (b_previousWasWrite c || negb (bu_isRead use)
         || negb (bool_decide (bai_stage info = b_previousStage c))
         || negb (bool_decide (bai_access info = b_previousAccess c)))
  then Some (mkBufferBarrier (bu_pass use) r (b_previousStage c) (b_previousAccess c)
               (bai_stage info) (bai_access info))
  else None.

Fixpoint buffer_barrier_loop (surviving : list bool) (r : ResourceId) (uses : list BufferUse)
    (c : BufferCursor) : res (list BufferBarrier) :=
  match uses with
  | [] => Ok []
  | use :: uses =>
      alive ← vec_at surviving (bu_pass use);
      if negb alive then buffer_barrier_loop surviving r uses c
      else
        rest ← buffer_barrier_loop surviving r uses (buffer_cursor_after use);
        Ok (option_list (buffer_use_barrier r c use) ++ rest)
  end.

Definition buffer_barriers (surviving : list bool) (r : ResourceId) (resource : Resource)
    : res (list BufferBarrier) :=
  if isImage resource || is_nil (bufferUses resource) then Ok []
  else buffer_barrier_loop surviving r (bufferUses resource) (mkBufferCursor [] [] true false).

(** [Compile( out, errorMessage )]: the result, [out] and [errorMessage]. *)
Definition Compile (g : Tr2RenderGraphAL) : res (ALResult * CompileResult * string) :=
  scheduled ← schedule g;
  match scheduled with
  | inl message => Ok (E_INVALIDCALL, new_CompileResult, message)
  | inr order =>
      let passCount := length (m_passes g) in
      surviving ← cull g (rev order) (replicate passCount false);
      compiled ← number_passes g surviving order 0 (replicate passCount new_CompiledPass);
      lifetimes ← for_resources (lifetime_of surviving) 0 (m_resources g);
      images ← for_resources (image_barriers surviving) 0 (m_resources g);
      buffers ← for_resources (buffer_barriers surviving) 0 (m_resources g);
      Ok (S_OK,
          mkCompileResult compiled (concat images) (concat buffers) lifetimes
            (attachments (m_resources g) 0 surviving), "")
  end.
