(* ===== verification/RenderGraphOrder.v ===== *)
(** * The order of a frame's passes

    The theorems about the first half of [Compile] of [RenderGraph]: what the
    declarations keep of the graph, that scheduling always ends, that it accepts
    exactly the valid acyclic graphs, and which order it chooses. *)

From stdpp Require Import base numbers list option strings gmap relations sorting.
From S2P Require Import Prelude RenderGraph.

#[local] Open Scope Z_scope.

(** ** Vectors *)

Definition in_range (n : nat) (p : Z) : Prop := 0 <= p < Z.of_nat n.

Lemma vec_at_is {A} (v : list A) p x : v !! Z.to_nat p = Some x -> vec_at v p = Ok x.
Proof. unfold vec_at, index_at. by intros ->. Qed.

Lemma vec_at_in_range {A} (v : list A) p :
  in_range (length v) p -> exists x, v !! Z.to_nat p = Some x /\ vec_at v p = Ok x.
Proof.
  intros [? ?]. destruct (lookup_lt_is_Some_2 v (Z.to_nat p)) as [x Hx]; [lia|].
  exists x. split; [done|]. by apply vec_at_is.
Qed.

Lemma length_vec_set {A} p x (v : list A) : length (vec_set p x v) = length v.
Proof. apply length_insert. Qed.

Lemma lookup_vec_set {A} (v : list A) p q x :
  in_range (length v) p -> 0 <= q ->
  vec_set p x v !! Z.to_nat q = if decide (q = p) then Some x else v !! Z.to_nat q.
Proof.
  intros [? ?] ?. unfold vec_set. destruct (decide (q = p)) as [->|].
  - apply list_lookup_insert_eq. lia.
  - apply list_lookup_insert_ne. lia.
Qed.

Lemma length_filter_zero {A} (P : A -> Prop) `{!forall x, Decision (P x)} (v : list A) :
  length (filter P v) = 0%nat <-> forall x, x ∈ v -> ~ P x.
Proof.
  split.
  - intros Hz%length_zero_iff_nil x Hx HP. by eapply filter_nil_not_elem_of.
  - intros Hn. destruct (filter P v) as [|x l] eqn:Hf; [done|].
    assert (Hx : x ∈ filter P v) by (rewrite Hf; set_solver).
    apply list_elem_of_filter in Hx as [HP Hx]. by destruct (Hn x).
Qed.

Lemma elem_of_concat {A} (x : A) vs : x ∈ concat vs <-> exists v, x ∈ v /\ v ∈ vs.
Proof. induction vs as [|v vs IH]; cbn [concat]; [|rewrite elem_of_app, IH]; set_solver. Qed.

(** ** The priority queue *)

Lemma elem_of_push p q ready : q ∈ push p ready <-> q = p \/ q ∈ ready.
Proof.
  induction ready as [|r ready IH]; cbn [push]; [set_solver|].
  destruct (p <=? r); set_solver.
Qed.

Lemma push_sorted p ready :
  p ∉ ready -> StronglySorted Z.lt ready -> StronglySorted Z.lt (push p ready).
Proof.
  induction ready as [|r ready IH]; intros Hp Hs; cbn [push]; [by repeat constructor|].
  apply StronglySorted_inv in Hs as [Hs Hr]. rewrite Forall_forall in Hr.
  destruct (Z.leb_spec p r).
  - constructor; [by constructor; [|apply Forall_forall]|]. apply Forall_forall.
    intros x [->|Hx]%elem_of_cons; [set_solver by lia|]. specialize (Hr _ Hx). lia.
  - constructor; [apply IH; set_solver|]. apply Forall_forall.
    intros x [->|Hx]%elem_of_push; [lia|auto].
Qed.

(** ** Orders

    [E] is the list of edges of a graph over the passes [0 .. n - 1]. A pass is
    free after [done] when it is not in it and all its predecessors are. *)

Section order.
Context (n : nat) (E : list UsePair).

Definition edge (p q : PassId) : Prop := mkUsePair p q ∈ E.

Definition free (done : list PassId) (p : PassId) : Prop :=
  in_range n p /\ p ∉ done /\ forall q, edge q p -> q ∈ done.

(** Each pass of [order] is the least that is free after those before it. *)
Definition least_first (order : list PassId) : Prop :=
  forall l1 p l2, order = l1 ++ p :: l2 -> free l1 p /\ forall q, free l1 q -> p <= q.

Lemma tc_of_flip p q : tc (flip edge) p q -> tc edge q p.
Proof.
  induction 1 as [a b H|a b c H _ IH]; [by apply tc_once|].
  eapply tc_r; [exact IH|exact H].
Qed.

Definition acyclic : Prop := forall p, ~ tc edge p p.

Lemma least_first_snoc order p :
  least_first order -> free order p -> (forall q, free order q -> p <= q) ->
  least_first (order ++ [p]).
Proof.
  intros Hl Hp Hmin l1 q l2 Heq.
  destruct l2 as [|x l2 _] using rev_ind.
  - apply app_inj_tail in Heq as [-> ->]. done.
  - rewrite app_comm_cons, app_assoc in Heq. apply app_inj_tail in Heq as [-> _]. by eapply Hl.
Qed.

Lemma least_first_elem order p : least_first order -> p ∈ order -> in_range n p.
Proof. intros Hl [l1 [l2 ->]]%list_elem_of_split. by destruct (Hl l1 p l2) as [[? _] _]. Qed.

Lemma least_first_NoDup order : least_first order -> NoDup order.
Proof.
  induction order as [|p order IH] using rev_ind; intros Hl; [constructor|].
  apply NoDup_app. split_and!.
  - apply IH. intros l1 q l2 ->. apply (Hl l1 q (l2 ++ [p])). by rewrite <- app_assoc.
  - destruct (Hl order p []) as [(_ & Hp & _) _]; [done|]. set_solver.
  - apply NoDup_singleton.
Qed.

Lemma least_first_edge order l1 p l2 q :
  least_first order -> order = l1 ++ p :: l2 -> edge q p -> q ∈ l1.
Proof. intros Hl Heq He. destruct (Hl _ _ _ Heq) as [(_ & _ & Hq) _]. auto. Qed.

Lemma least_first_submseteq order : least_first order -> order ⊆+ seqZ 0 (Z.of_nat n).
Proof.
  intros Hl. apply NoDup_submseteq; [by apply least_first_NoDup|].
  intros p Hp. apply elem_of_seqZ. pose proof (least_first_elem _ _ Hl Hp) as [? ?]. lia.
Qed.

Lemma length_least_first order : least_first order -> (length order <= n)%nat.
Proof. intros Hl%least_first_submseteq%submseteq_length. rewrite length_seqZ in Hl. lia. Qed.

Lemma least_first_perm order :
  least_first order -> length order = n -> order ≡ₚ seqZ 0 (Z.of_nat n).
Proof.
  intros Hl Hn. apply submseteq_length_Permutation; [by apply least_first_submseteq|].
  rewrite length_seqZ. lia.
Qed.

(** There is one such order of each length. *)
Lemma least_first_unique order order' :
  least_first order -> least_first order' -> length order = length order' -> order = order'.
Proof.
  intros Hl Hl' Hlen.
  enough (H : forall k, (k <= length order)%nat -> take k order = take k order').
  { specialize (H (length order)). rewrite !take_ge in H by lia. by apply H. }
  induction k as [|k IH]; intros Hk; [by rewrite !take_0|].
  destruct (lookup_lt_is_Some_2 order k) as [p Hp]; [lia|].
  destruct (lookup_lt_is_Some_2 order' k) as [q Hq]; [lia|].
  rewrite (take_S_r _ _ _ Hp), (take_S_r _ _ _ Hq), IH by lia. do 2 f_equal.
  destruct (Hl (take k order) p (drop (S k) order)) as [Hfp Hmp]; [by rewrite take_drop_middle|].
  destruct (Hl' (take k order') q (drop (S k) order')) as [Hfq Hmq]; [by rewrite take_drop_middle|].
  rewrite IH in Hfp, Hmp by lia. specialize (Hmp _ Hfq). specialize (Hmq _ Hfp). lia.
Qed.

(** An order that leaves nothing free out is complete when the graph has no
    cycle, and a complete order shows that it has none. *)
Lemma least_first_acyclic order :
  least_first order -> (forall e, e ∈ E -> in_range n (from e) /\ in_range n (to e)) ->
  length order = n -> acyclic.
Proof.
  intros Hl Hrange Hn p Hp.
  assert (Hbefore : forall a b, tc edge a b -> forall l1 l2, order = l1 ++ b :: l2 -> a ∈ l1).
  { induction 1 as [a b Hab|a b c Hab _ IH]; intros l1 l2 Heq.
    - by eapply least_first_edge.
    - specialize (IH _ _ Heq) as [k1 [k2 ->]]%list_elem_of_split.
      rewrite <- app_assoc in Heq. cbn in Heq.
      pose proof (least_first_edge _ _ _ _ _ Hl Heq Hab). set_solver. }
  assert (Hin : p ∈ order).
  { rewrite (least_first_perm _ Hl Hn). apply elem_of_seqZ.
    assert (exists q, edge q p) as [q Hq].
    { clear -Hp. induction Hp as [a b H|a b c _ _ IH]; eauto. }
    destruct (Hrange _ Hq) as [_ Ht]. unfold in_range in Ht. simpl in Ht. lia. }
  apply list_elem_of_split in Hin as [l1 [l2 Heq]].
  pose proof (Hbefore p p Hp l1 l2 Heq) as Hp1.
  apply least_first_NoDup in Hl. rewrite Heq in Hl.
  apply NoDup_app in Hl as (_ & Hd & _). apply (Hd p Hp1). set_solver.
Qed.

Lemma complete_of_acyclic order :
  least_first order -> (forall e, e ∈ E -> in_range n (from e) /\ in_range n (to e)) ->
  (forall p, ~ free order p) -> acyclic -> length order = n.
Proof.
  intros Hl Hrange Hnone Hac.
  assert (Hall : forall p, in_range n p -> p ∈ order).
  { intros p Hp. assert (Hsn : sn (flip edge) p).
    { apply tc_finite_sn.
      - intros x Hx. by apply (Hac x), tc_of_flip.
      - exists (map from E). intros x Hx. clear -Hx. apply list_elem_of_fmap.
        induction Hx as [a b H|a b c _ _ IH]; [|done]. by exists (mkUsePair b a). }
    induction Hsn as [p _ IH].
    destruct (decide (p ∈ order)) as [|Hnot]; [done|]. exfalso. apply (Hnone p).
    split_and!; [done..|]. intros q Hq. apply IH; [done|].
    by destruct (Hrange _ Hq) as [? _]. }
  apply Nat.le_antisymm; [by apply length_least_first|].
  assert (Hsub : seqZ 0 (Z.of_nat n) ⊆+ order).
  { apply NoDup_submseteq; [apply NoDup_seqZ|].
    intros p Hp. apply Hall. apply elem_of_seqZ in Hp. unfold in_range. lia. }
  apply submseteq_length in Hsub. rewrite length_seqZ in Hsub. lia.
Qed.

(** With edges from lesser to greater passes only, the order is the declared one. *)
Lemma least_first_increasing order :
  (forall p q, edge p q -> 0 <= p < q) -> least_first order -> length order = n ->
  order = seqZ 0 (Z.of_nat n).
Proof.
  intros Hinc Hl Hn.
  enough (H : forall k, (k <= n)%nat -> take k order = seqZ 0 (Z.of_nat k)).
  { rewrite <- (H n) by done. by rewrite take_ge by lia. }
  induction k as [|k IH]; intros Hk; [done|].
  destruct (lookup_lt_is_Some_2 order k) as [p Hp]; [lia|].
  rewrite (take_S_r _ _ _ Hp), IH by lia.
  replace (Z.of_nat (S k)) with (Z.of_nat k + 1) by lia.
  rewrite seqZ_app by lia. change (seqZ (0 + Z.of_nat k) 1) with [0 + (0 + Z.of_nat k)].
  f_equal. f_equal.
  destruct (Hl (take k order) p (drop (S k) order)) as [(Hr & Hnew & _) Hmin].
  { by rewrite take_drop_middle. }
  rewrite IH in Hnew, Hmin by lia. rewrite elem_of_seqZ in Hnew. unfold in_range in Hr.
  assert (p <= Z.of_nat k); [|lia]. apply Hmin. unfold free, in_range. split_and!; [lia..| |].
  - rewrite elem_of_seqZ. lia.
  - intros q Hq. apply elem_of_seqZ. specialize (Hinc _ _ Hq). lia.
Qed.
End order.

(** ** The degrees *)

Section kahn.
Context (n : nat) (E : list UsePair).
Context (Hrange : forall e, e ∈ E -> in_range n (from e) /\ in_range n (to e)).
Context (Hfew : size E < 2 ^ 32).

Definition succs (P : list UsePair) (p : Z) : list Z := map to (filter (fun e => from e = p) P).

(** The edges into [p] from passes outside [done]. *)
Definition preds (P : list UsePair) (done : list Z) (p : Z) : nat :=
  length (filter (fun e => to e = p /\ from e ∉ done) P).

Definition copies (p : Z) (l : list Z) : nat := length (filter (eq p) l).
#[local] Arguments succs : simpl never.
#[local] Arguments preds : simpl never.
#[local] Arguments copies : simpl never.

Lemma preds_zero done p : preds E done p = 0%nat <-> forall q, edge E q p -> q ∈ done.
Proof.
  unfold preds. rewrite length_filter_zero. split.
  - intros H q Hq. destruct (decide (q ∈ done)) as [|Hn]; [done|].
    exfalso. by apply (H _ Hq).
  - intros H [q p'] He [[= ->] Hn]. by apply Hn, H.
Qed.

Lemma preds_snoc P done p q : p ∉ done ->
  preds P done q = (preds P (done ++ [p]) q + copies q (succs P p))%nat.
Proof.
  intros Hp. unfold preds, copies, succs. induction P as [|[a b] P IH]; [done|].
  rewrite !filter_cons. cbn [from to].
  destruct (decide (a = p)) as [->|Ha].
  - rewrite (decide_False (P := b = q /\ p ∉ done ++ [p])) by set_solver.
    cbn [map]. rewrite filter_cons. cbn [to].
    destruct (decide (b = q /\ p ∉ done)), (decide (q = b)); simpl; try lia; naive_solver.
  - destruct (decide (b = q /\ a ∉ done)), (decide (b = q /\ a ∉ done ++ [p])); simpl;
      try lia; set_solver.
Qed.

Lemma preds_bound P done p : (preds P done p <= length P)%nat.
Proof. apply length_filter. Qed.

Lemma copies_pos p l : (0 < copies p l)%nat <-> p ∈ l.
Proof.
  unfold copies. split.
  - destruct (filter (eq p) l) as [|x k] eqn:Hk; [simpl; lia|]. intros _.
    assert (Hx : x ∈ filter (eq p) l) by (rewrite Hk; apply elem_of_cons; by left).
    by apply list_elem_of_filter in Hx as [-> ?].
  - intros Hp. assert (Hf : p ∈ filter (eq p) l) by by apply list_elem_of_filter.
    destruct (filter (eq p) l); [set_solver|simpl; lia].
Qed.

(** The degrees after the edges [P]. *)
Definition counted (P : list UsePair) (d : Degrees) : Prop :=
  length (inDegree d) = n /\ length (outgoing d) = n /\
  forall p, in_range n p ->
    inDegree d !! Z.to_nat p = Some (Z.of_nat (preds P [] p)) /\
    outgoing d !! Z.to_nat p = Some (succs P p).

Lemma new_Degrees_counted : counted [] (new_Degrees n).
Proof.
  unfold counted, new_Degrees. cbn. rewrite !length_replicate. split_and!; [done..|].
  intros p [? ?]. by rewrite !lookup_replicate_2 by lia.
Qed.

Lemma preds_app P P' done p : preds (P ++ P') done p = (preds P done p + preds P' done p)%nat.
Proof. unfold preds. by rewrite filter_app, length_app. Qed.

Lemma succs_app P P' p : succs (P ++ P') p = succs P p ++ succs P' p.
Proof. unfold succs. by rewrite filter_app, map_app. Qed.

(** Counting in one more edge. *)
Lemma counted_snoc P e d :
  counted P d -> in_range n (from e) -> in_range n (to e) -> size (P ++ [e]) < 2 ^ 32 ->
  exists k next, vec_at (inDegree d) (to e) = Ok k /\ vec_at (outgoing d) (from e) = Ok next /\
    counted (P ++ [e]) (mkDegrees (vec_set (to e) (u32 (k + 1)) (inDegree d))
                          (vec_set (from e) (next ++ [to e]) (outgoing d))).
Proof.
  intros (Hi & Ho & Hc) Hf Ht Hsize.
  destruct (Hc _ Ht) as [Hk _]. destruct (Hc _ Hf) as [_ Hnext].
  exists (Z.of_nat (preds P [] (to e))), (succs P (from e)).
  split_and!; [by apply vec_at_is..|]. unfold counted. cbn [inDegree outgoing].
  rewrite !length_vec_set. split_and!; [done..|]. intros p Hp.
  destruct (Hc _ Hp) as [Hkp Hnp]. rewrite !lookup_vec_set by (rewrite ?Hi, ?Ho; done || apply Hp).
  rewrite preds_app, succs_app. unfold preds at 3, succs at 3. rewrite !filter_cons, !filter_nil.
  pose proof (preds_bound P [] (to e)) as Hb. unfold size in Hsize. rewrite length_app in Hsize.
  cbn in Hsize. split.
  - destruct (decide (p = to e)) as [->|].
    + rewrite decide_True by set_solver. rewrite wrap_u_small by (unfold in_u; lia).
      f_equal. cbn. lia.
    + rewrite decide_False by naive_solver. cbn. by rewrite Nat.add_0_r.
  - destruct (decide (p = from e)) as [->|].
    + by rewrite decide_True by done.
    + rewrite decide_False by congruence. cbn. by rewrite app_nil_r.
Qed.

Definition loop_free (P : list UsePair) : Prop := Forall (fun e => from e <> to e) P.

(** The loop over the edges counts them, or finds a pass that depends on itself. *)
Lemma add_edges_spec ps P P' d :
  length ps = n -> E = P ++ P' -> counted P d -> loop_free P ->
  (exists d', add_edges ps P' d = Ok (inr d') /\ counted E d' /\ loop_free E) \/
  (exists message p, add_edges ps P' d = Ok (inl message) /\ message <> "" /\ edge E p p).
Proof.
  intros Hps. revert P d. induction P' as [|e P' IH]; intros P d HE Hd Hlf; cbn [add_edges].
  { left. exists d. rewrite app_nil_r in HE. by subst. }
  assert (He : e ∈ E) by set_solver. destruct (Hrange _ He) as [Hf Ht].
  destruct (Z.eqb_spec (from e) (to e)) as [Heq|Hne].
  - right. destruct (vec_at_in_range ps (from e)) as (pass & _ & ->); [by rewrite Hps|].
    eexists _, (from e). split_and!; [done|by destruct (p_name pass)|].
    unfold edge. rewrite Heq at 2. by destruct e.
  - destruct (counted_snoc P e d) as (k & next & -> & -> & Hd'); [done..| |].
    { rewrite HE in Hfew. unfold size in *. rewrite !length_app in *. simpl in *. lia. }
    cbn. apply (IH (P ++ [e])); [by rewrite <- app_assoc|done|].
    apply Forall_app. split; [done|by constructor].
Qed.

(** ** The loop *)

Lemma copies_cons p q l : copies p (q :: l) = ((if decide (p = q) then 1 else 0) + copies p l)%nat.
Proof. unfold copies. rewrite filter_cons. by destruct (decide (p = q)). Qed.

(** Releasing the successors [next] takes their copies off the counts [c], and
    makes ready those it takes to zero. *)
Lemma release_spec next degs ready c :
  Forall (in_range n) next -> length degs = n ->
  (forall p, in_range n p -> degs !! Z.to_nat p = Some (Z.of_nat (c p))) ->
  (forall p, in_range n p -> (copies p next <= c p)%nat /\ Z.of_nat (c p) < 2 ^ 32) ->
  StronglySorted Z.lt ready -> (forall p, p ∈ ready -> c p = 0%nat) ->
  exists degs' ready', release next degs ready = Ok (degs', ready') /\ length degs' = n /\
    (forall p, in_range n p -> degs' !! Z.to_nat p = Some (Z.of_nat (c p - copies p next))) /\
    StronglySorted Z.lt ready' /\
    (forall p, p ∈ ready' <-> p ∈ ready \/ (p ∈ next /\ c p = copies p next)).
Proof.
  revert degs ready c. induction next as [|p next IH]; intros degs ready c Hn Hlen Hd Hc Hs Hr.
  { exists degs, ready. split_and!; [done..| |done|set_solver].
    intros p Hp. rewrite Hd by done. unfold copies. rewrite filter_nil. do 2 f_equal. simpl. lia. }
  apply Forall_cons in Hn as [Hp Hn]. cbn [release]. rewrite (vec_at_is _ _ _ (Hd _ Hp)). cbn.
  pose proof (Hc p Hp) as [Hcp Hcb]. rewrite copies_cons, decide_True in Hcp by done.
  rewrite wrap_u_small by (unfold in_u; lia).
  set (ready1 := if _ =? 0 then push p ready else ready).
  assert (Hnot : p ∉ ready) by (intros Hin%Hr; lia).
  assert (Hr1 : forall q, q ∈ ready1 <-> q ∈ ready \/ (q = p /\ c p = 1%nat)).
  { intros q. unfold ready1. destruct (Z.eqb_spec (Z.of_nat (c p) - 1) 0).
    - rewrite elem_of_push. naive_solver lia.
    - naive_solver lia. }
  destruct (IH (vec_set p (Z.of_nat (c p) - 1) degs) ready1
              (fun q => if decide (q = p) then (c p - 1)%nat else c q))
    as (degs' & ready' & -> & Hlen' & Hd' & Hs' & Hr').
  - done.
  - by rewrite length_vec_set.
  - intros q Hq. rewrite lookup_vec_set by (rewrite ?Hlen; done || apply Hq).
    destruct (decide (q = p)) as [->|]; [f_equal; lia|auto].
  - intros q Hq. specialize (Hc q Hq) as [Hcq ?]. rewrite copies_cons in Hcq.
    destruct (decide (q = p)) as [->|]; lia.
  - unfold ready1. destruct (_ =? 0); [by apply push_sorted|done].
  - intros q [Hq%Hr|[? ?]]%Hr1; destruct (decide _); subst; lia || congruence.
  - exists degs', ready'. split_and!; [done..| |done|].
    + intros q Hq. rewrite Hd' by done. rewrite copies_cons.
      destruct (decide (q = p)) as [->|]; do 2 f_equal; lia.
    + intros q. rewrite Hr', Hr1, copies_cons, elem_of_cons.
      destruct (decide (q = p)) as [->|Hqp]; [|naive_solver lia].
      destruct (decide (p ∈ next)) as [Hin|Hin]; [pose proof (proj2 (copies_pos _ _) Hin)|].
      * naive_solver lia.
      * assert (copies p next = 0%nat); [|naive_solver lia].
        pose proof (copies_pos p next). destruct (copies p next); [done|].
        destruct Hin. apply H. lia.
Qed.

(** What holds each time the loop tests [ready.empty()]. *)
Definition kahn_inv (degs ready order : list Z) : Prop :=
  length degs = n /\ least_first n E order /\
  (forall p, in_range n p -> degs !! Z.to_nat p = Some (Z.of_nat (preds E order p))) /\
  StronglySorted Z.lt ready /\ (forall p, p ∈ ready <-> free n E order p).

Lemma succs_in_range p : Forall (in_range n) (succs E p).
Proof.
  apply Forall_forall. intros q [e [-> He]]%list_elem_of_fmap.
  apply list_elem_of_filter in He as [_ He]. by apply Hrange.
Qed.

Lemma elem_of_succs p q : q ∈ succs E p <-> edge E p q.
Proof.
  unfold succs, edge. rewrite list_elem_of_fmap. setoid_rewrite list_elem_of_filter. split.
  - intros ([a b] & -> & <- & He). done.
  - intros He. by exists (mkUsePair p q).
Qed.

Lemma kahn_step degs pass ready order :
  loop_free E -> kahn_inv degs (pass :: ready) order ->
  exists degs' ready', release (succs E pass) degs ready = Ok (degs', ready') /\
    kahn_inv degs' ready' (order ++ [pass]).
Proof.
  intros Hlf (Hlen & Hl & Hd & Hs & Hr).
  apply StronglySorted_inv in Hs as [Hs Hmin]. rewrite Forall_forall in Hmin.
  assert (Hpass : free n E order pass) by (apply Hr; set_solver).
  pose proof Hpass as (Hprange & Hpnew & Hppreds).
  pose proof (fun q => preds_snoc E order pass q Hpnew) as Hsnoc.
  destruct (release_spec (succs E pass) degs ready (preds E order))
    as (degs' & ready' & Hrel & Hlen' & Hd' & Hs' & Hr'); [apply succs_in_range|done..| | | |].
  { intros p _. split; [rewrite Hsnoc; lia|]. pose proof (preds_bound E order p).
    unfold size in Hfew. lia. }
  { done. }
  { intros p Hp. apply preds_zero. by apply (Hr p); set_solver. }
  exists degs', ready'. split; [done|]. split_and!; [done| | |done|].
  - apply least_first_snoc; [done..|]. intros q Hq%Hr.
    apply elem_of_cons in Hq as [->|Hq]; [lia|]. specialize (Hmin _ Hq). lia.
  - intros p Hp. rewrite Hd' by done. rewrite Hsnoc. do 2 f_equal. lia.
  - intros p. rewrite Hr'. unfold free. rewrite <- preds_zero. specialize (Hsnoc p). split.
    + intros [Hp|[Hp Heq]].
      * assert (Hfree : free n E order p) by (apply Hr; set_solver).
        destruct Hfree as (? & ? & Hq%preds_zero). specialize (Hmin _ Hp).
        split_and!; [done|set_solver by lia|lia].
      * split_and!; [by eapply Forall_forall in Hp; [|apply succs_in_range]| |lia].
        apply elem_of_succs in Hp. intros [Hin|Hin%list_elem_of_singleton]%elem_of_app.
        -- apply list_elem_of_split in Hin as (l1 & l2 & Ho).
           apply Hpnew. rewrite Ho. apply elem_of_app. left. by eapply least_first_edge.
        -- subst. unfold loop_free in Hlf. rewrite Forall_forall in Hlf. by apply (Hlf _ Hp).
    + intros (Hrp & Hnew & Hz). destruct (decide (p ∈ succs E pass)); [right; split; [done|lia]|].
      left. assert (Hin : p ∈ pass :: ready); [|set_solver].
      apply Hr. split_and!; [done|set_solver|]. apply preds_zero.
      pose proof (copies_pos p (succs E pass)). destruct (copies p (succs E pass)); [lia|].
      exfalso. naive_solver lia.
Qed.

Lemma kahn_spec fuel outgoing degs ready order :
  loop_free E -> (forall p, in_range n p -> outgoing !! Z.to_nat p = Some (succs E p)) ->
  kahn_inv degs ready order -> (n <= fuel + length order)%nat ->
  exists order', kahn fuel outgoing degs ready order = Ok order' /\
    least_first n E order' /\ forall p, ~ free n E order' p.
Proof.
  intros Hlf Hout. revert degs ready order.
  induction fuel as [|fuel IH]; intros degs [|pass ready] order Hinv Hfuel; cbn [kahn].
  1,3: exists order; destruct Hinv as (_ & ? & _ & _ & Hr); split_and!; [done..|];
    intros p Hp%Hr; set_solver.
  - destruct (kahn_step _ _ _ _ Hlf Hinv) as (? & ? & _ & (_ & Hl & _)).
    apply length_least_first in Hl. rewrite length_app in Hl. simpl in Hl. lia.
  - assert (Hp : in_range n pass).
    { destruct Hinv as (_ & _ & _ & _ & Hr). apply (Hr pass). set_solver. }
    rewrite (vec_at_is _ _ _ (Hout _ Hp)). cbn.
    destruct (kahn_step _ _ _ _ Hlf Hinv) as (degs' & ready' & -> & Hinv'). cbn.
    apply (IH degs'); [done|]. rewrite length_app. simpl. lia.
Qed.

(** The passes ready at the start. *)
Lemma push_free_spec p degs ready :
  StronglySorted Z.lt ready -> (forall q, q ∈ ready -> q < p) ->
  StronglySorted Z.lt (push_free p degs ready) /\
  forall q, q ∈ push_free p degs ready <->
    q ∈ ready \/ (p <= q /\ degs !! Z.to_nat (q - p) = Some 0).
Proof.
  revert p ready. induction degs as [|k degs IH]; intros p ready Hs Hlt; cbn [push_free].
  { split; [done|]. intros q. rewrite lookup_nil. naive_solver. }
  set (ready1 := if k =? 0 then push p ready else ready).
  assert (Hr1 : forall q, q ∈ ready1 <-> q ∈ ready \/ (q = p /\ k = 0)).
  { intros q. unfold ready1. destruct (Z.eqb_spec k 0); [rewrite elem_of_push|]; naive_solver. }
  destruct (IH (p + 1) ready1) as [Hs' Hr'].
  - unfold ready1. destruct (k =? 0); [|done]. apply push_sorted; [|done].
    intros Hin%Hlt. lia.
  - intros q [Hq%Hlt|[-> _]]%Hr1; lia.
  - split; [done|]. intros q. rewrite Hr', Hr1.
    destruct (Z.eq_dec q p) as [->|].
    + rewrite Z.sub_diag. cbn. naive_solver lia.
    + assert (Hi : p <= q -> Z.to_nat (q - p) = S (Z.to_nat (q - (p + 1)))) by lia.
      split.
      * intros [[?|[? _]]|[? Hq]]; [by left|done|]. right. split; [lia|]. by rewrite Hi by lia.
      * intros [?|[? Hq]]; [by left; left|]. right. rewrite Hi in Hq by lia. split; [lia|done].
Qed.

(** Scheduling from the counted degrees ends in an order that leaves nothing free. *)
Lemma kahn_total d :
  counted E d -> loop_free E ->
  exists order, kahn n (outgoing d) (inDegree d) (push_free 0 (inDegree d) []) [] = Ok order /\
    least_first n E order /\ forall p, ~ free n E order p.
Proof.
  intros (Hi & Ho & Hc) Hlf. apply kahn_spec; [done|by intros p Hp; apply Hc| |simpl; lia].
  destruct (push_free_spec 0 (inDegree d) []) as [Hs Hr]; [constructor|set_solver|].
  split_and!; [done| |by intros p Hp; apply Hc|done|].
  - intros l1 p l2 Heq. by destruct l1.
  - intros p. rewrite Hr. unfold free. rewrite <- preds_zero, Z.sub_0_r. split.
    + intros [?|[Hp Hz]]; [set_solver|].
      assert (in_range n p).
      { split; [done|]. apply lookup_lt_Some in Hz. lia. }
      destruct (Hc p) as [Hp' _]; [done|]. rewrite Hp' in Hz.
      split_and!; [done|set_solver|]. injection Hz. lia.
    + intros (Hp & _ & Hz). right. split; [apply Hp|]. destruct (Hc p Hp) as [-> _].
      by rewrite Hz.
Qed.
End kahn.

(** ** Well-formed graphs

    What every sequence of declarations keeps: each use names a declared pass,
    images have no buffer uses and buffers no image uses, and only images are
    presented. *)

Definition resource_ok (n : nat) (r : Resource) : Prop :=
  Forall (in_range n) (map iu_pass (imageUses r)) /\
  Forall (in_range n) (map bu_pass (bufferUses r)) /\
  if isImage r then bufferUses r = [] else imageUses r = [] /\ presented r = false.

Definition graph_ok (g : Tr2RenderGraphAL) : Prop :=
  size (m_passes g) <= MAX_PASS_COUNT /\ size (m_resources g) <= MAX_RESOURCE_COUNT /\
  Forall (resource_ok (length (m_passes g))) (m_resources g).

(** The public member functions that declare, with their arguments. *)
Inductive declaration :=
| DAddImage (name : option string) (desc : ImageDesc)
| DAddBuffer (name : option string) (desc : BufferDesc)
| DAddPass (name : option string) (queue : Queue)
| DReadsImage (pass : PassId) (resource : ResourceId) (access : ImageAccess.type)
| DWritesImage (pass : PassId) (resource : ResourceId) (access : ImageAccess.type)
| DReadsBuffer (pass : PassId) (resource : ResourceId) (access : BufferAccess.type)
| DWritesBuffer (pass : PassId) (resource : ResourceId) (access : BufferAccess.type)
| DCullable (pass : PassId)
| DClear (pass : PassId) (image : ResourceId) (op : VkAttachmentLoadOp) (value : VkClearValue)
| DPresented (image : ResourceId).

Definition declare (d : declaration) : M Tr2RenderGraphAL unit :=
  match d with
  | DAddImage name desc => AddImage name desc;; mret tt
  | DAddBuffer name desc => AddBuffer name desc;; mret tt
  | DAddPass name queue => AddPass name queue;; mret tt
  | DReadsImage pass resource access => PassReadsImage pass resource access;; mret tt
  | DWritesImage pass resource access => PassWritesImage pass resource access;; mret tt
  | DReadsBuffer pass resource access => PassReadsBuffer pass resource access;; mret tt
  | DWritesBuffer pass resource access => PassWritesBuffer pass resource access;; mret tt
  | DCullable pass => MarkPassCullable pass
  | DClear pass image op value => SetAttachmentClear pass image op value;; mret tt
  | DPresented image => MarkPresented image;; mret tt
  end.

Fixpoint declare_all (ds : list declaration) : M Tr2RenderGraphAL unit :=
  match ds with
  | [] => mret tt
  | d :: ds => declare d;; declare_all ds
  end.

(** Identifiers are unsigned: the only bound that the types give them here. *)
Definition unsigned (d : declaration) : Prop :=
  match d with
  | DReadsImage pass resource _ | DWritesImage pass resource _
  | DReadsBuffer pass resource _ | DWritesBuffer pass resource _
  | DClear pass resource _ _ => 0 <= pass /\ 0 <= resource
  | DCullable p | DPresented p => 0 <= p
  | _ => True
  end.

Definition never {S} : exn -> S -> Prop := fun _ _ => False.

Lemma resource_ok_more n m r : (n <= m)%nat -> resource_ok n r -> resource_ok m r.
Proof.
  intros Hnm (Hi & Hb & Hr). assert (Hmono : forall p, in_range n p -> in_range m p).
  { unfold in_range. lia. }
  split_and!; [by eapply Forall_impl|by eapply Forall_impl|done].
Qed.

Lemma wp_add_resource g r Q :
  graph_ok g -> resource_ok (length (m_passes g)) r ->
  (graph_ok g -> size (m_resources g) = MAX_RESOURCE_COUNT -> Q INVALID_RESOURCE g) ->
  (graph_ok (set_resources (m_resources g ++ [r]) g) ->
   Q (size (m_resources g)) (set_resources (m_resources g ++ [r]) g)) ->
  wp (add_resource r) Q never g.
Proof.
  intros (Hp & Hn & Hr) Hok Hfull Hadd. unfold add_resource. do 2 wp_step.
  destruct (Z.leb_spec MAX_RESOURCE_COUNT (size (m_resources g))).
  { apply wp_ret, Hfull; [done|lia]. }
  unfold set_resources at 1. repeat wp_step. cbn [m_resources].
  replace (u32 (size (m_resources g ++ [r]) - 1)) with (size (m_resources g)).
  - apply Hadd. unfold graph_ok, size in *. cbn. rewrite length_app. cbn.
    split_and!; [done|lia|]. apply Forall_app. split; [done|by constructor].
  - unfold size, MAX_RESOURCE_COUNT in *. rewrite length_app, wrap_u_small; cbn; [lia|].
    unfold in_u. lia.
Qed.

(** Changing a declared resource by [f]. *)
Lemma wp_update_resource g i f (Q : unit -> Tr2RenderGraphAL -> Prop) r :
  0 <= i -> m_resources g !! Z.to_nat i = Some r ->
  Q tt (set_resources (vec_set i (f r) (m_resources g)) g) ->
  wp (update_resource i f) Q never g.
Proof.
  intros Hi Hr HQ. unfold update_resource. repeat wp_step. rewrite (vec_at_is _ _ _ Hr).
  apply wp_lift; [done| |done]. intros ? [= <-]. by wp_step.
Qed.

Lemma graph_ok_update g i r r' :
  graph_ok g -> 0 <= i -> m_resources g !! Z.to_nat i = Some r ->
  (resource_ok (length (m_passes g)) r -> resource_ok (length (m_passes g)) r') ->
  graph_ok (set_resources (vec_set i r' (m_resources g)) g).
Proof.
  intros (Hp & Hn & Hr) Hi Hlook Hok. unfold graph_ok, size in *. cbn.
  rewrite length_vec_set. split_and!; [done..|]. apply Forall_insert; [done|].
  apply Hok. by eapply Forall_lookup_1.
Qed.

(** The guard of the operations on a pass and a resource: the resource, when the
    guard lets the operation go on. *)
Lemma wp_not_declared g pass resource image (Q : bool -> Tr2RenderGraphAL -> Prop) :
  0 <= pass -> 0 <= resource ->
  (Q true g) ->
  (forall r, in_range (length (m_passes g)) pass ->
     m_resources g !! Z.to_nat resource = Some r -> isImage r = image -> Q false g) ->
  wp (not_declared pass resource image) Q never g.
Proof.
  intros Hp Hr Hbad Hgood. unfold not_declared. do 2 wp_step.
  destruct (Z.leb_spec (size (m_passes g)) pass); [by wp_step|].
  destruct (Z.leb_spec (size (m_resources g)) resource); [by wp_step|]. cbn [orb].
  destruct (vec_at_in_range (m_resources g) resource) as (r & Hlook & ->);
    [by unfold in_range, size in *|].
  wp_step. apply wp_lift; [done| |done]. intros ? [= <-]. wp_step.
  destruct image, (isImage r) eqn:Hi; cbn; try done; by apply (Hgood r).
Qed.

Lemma wp_use_image g use resource :
  graph_ok g -> 0 <= iu_pass use -> 0 <= resource ->
  wp (use_image use resource) (fun _ g' => graph_ok g') never g.
Proof.
  intros Hok Hp Hr. unfold use_image. wp_step. apply wp_not_declared; [done..|by wp_step|].
  intros r Hpass Hlook Himg. cbn. wp_step. eapply wp_update_resource; [done..|]. wp_step.
  eapply graph_ok_update; [done..|]. intros (Hi & Hb & Ht). unfold resource_ok. cbn.
  rewrite Himg in Ht |- *. rewrite map_app. split_and!; [|done..].
  apply Forall_app. split; [done|by constructor].
Qed.

Lemma wp_use_buffer g use resource :
  graph_ok g -> 0 <= bu_pass use -> 0 <= resource ->
  wp (use_buffer use resource) (fun _ g' => graph_ok g') never g.
Proof.
  intros Hok Hp Hr. unfold use_buffer. wp_step. apply wp_not_declared; [done..|by wp_step|].
  intros r Hpass Hlook Himg. cbn. wp_step. eapply wp_update_resource; [done..|]. wp_step.
  eapply graph_ok_update; [done..|]. intros (Hi & Hb & Ht). unfold resource_ok. cbn.
  rewrite Himg in Ht |- *. rewrite map_app. split_and!; [done| |apply Ht..].
  apply Forall_app. split; [done|by constructor].
Qed.

Lemma clear_use_pass pass op value uses uses' :
  clear_use pass op value uses = Some uses' -> map iu_pass uses' = map iu_pass uses.
Proof.
  revert uses'. induction uses as [|use uses IH]; intros uses' H; [done|].
  cbn [clear_use] in H. destruct (_ && _); [by injection H as <-|].
  apply fmap_Some in H as (l & Hl & ->). cbn. f_equal. by apply IH.
Qed.

Lemma wp_SetAttachmentClear g pass image op value :
  graph_ok g -> 0 <= pass -> 0 <= image ->
  wp (SetAttachmentClear pass image op value) (fun _ g' => graph_ok g') never g.
Proof.
  intros Hok Hp Hr. unfold SetAttachmentClear. wp_step.
  apply wp_not_declared; [done..|by wp_step|].
  intros r Hpass Hlook Himg. cbn. do 3 wp_step. rewrite (vec_at_is _ _ _ Hlook).
  apply wp_lift; [done| |done]. intros ? [= <-].
  destruct (clear_use _ _ _ _) as [uses|] eqn:Hc; [|by wp_step].
  wp_step. eapply wp_update_resource; [done..|]. wp_step.
  eapply graph_ok_update; [done..|]. intros (Hi & Hb & Ht). unfold resource_ok. cbn.
  rewrite Himg in Ht |- *. by rewrite (clear_use_pass _ _ _ _ _ Hc).
Qed.

Lemma wp_MarkPresented g image :
  graph_ok g -> 0 <= image -> wp (MarkPresented image) (fun _ g' => graph_ok g') never g.
Proof.
  intros Hok Hr. unfold MarkPresented. do 2 wp_step.
  destruct (Z.leb_spec (size (m_resources g)) image); [by wp_step|].
  destruct (vec_at_in_range (m_resources g) image) as (r & Hlook & ->);
    [by unfold in_range, size in *|].
  wp_step. apply wp_lift; [done| |done]. intros ? [= <-].
  destruct (isImage r) eqn:Himg; cbn [negb]; [|by wp_step].
  wp_step. eapply wp_update_resource; [done..|]. wp_step.
  eapply graph_ok_update; [done..|]. intros (Hi & Hb & Ht). unfold resource_ok. cbn.
  by rewrite Himg in Ht |- *.
Qed.

Lemma wp_MarkPassCullable g pass :
  graph_ok g -> 0 <= pass -> wp (MarkPassCullable pass) (fun _ g' => graph_ok g') never g.
Proof.
  intros (Hp & Hn & Hr) Hpass. unfold MarkPassCullable. do 2 wp_step.
  destruct (Z.ltb_spec pass (size (m_passes g))); [|by wp_step].
  destruct (vec_at_in_range (m_passes g) pass) as (p & Hlook & ->);
    [by unfold in_range, size in *|].
  wp_step. apply wp_lift; [done| |done]. intros ? [= <-]. wp_step.
  unfold graph_ok, size in *. cbn. by rewrite length_vec_set.
Qed.

Lemma wp_AddPass g name queue :
  graph_ok g -> wp (AddPass name queue) (fun _ g' => graph_ok g') never g.
Proof.
  intros (Hp & Hn & Hr). unfold AddPass. do 2 wp_step.
  destruct (Z.leb_spec MAX_PASS_COUNT (size (m_passes g))); [by wp_step|].
  repeat wp_step. unfold graph_ok, size in *. cbn. rewrite length_app. cbn.
  split_and!; [lia|done|]. eapply Forall_impl; [exact Hr|].
  intros r. apply resource_ok_more. lia.
Qed.

Lemma wp_declare g d :
  graph_ok g -> unsigned d -> wp (declare d) (fun _ g' => graph_ok g') never g.
Proof.
  assert (Hseq : forall A (m : M Tr2RenderGraphAL A),
    wp m (fun _ g' => graph_ok g') never g -> wp (m;; mret tt) (fun _ g' => graph_ok g') never g).
  { intros A m Hm. apply wp_bind. eapply wp_mono; [exact Hm|]. by intros. }
  intros Hok Hd. destruct d; cbn [declare]; try apply Hseq.
  1,2: apply wp_add_resource; [done|by repeat constructor|done|done].
  - by apply wp_AddPass.
  - by apply wp_use_image; [|apply Hd..].
  - by apply wp_use_image; [|apply Hd..].
  - by apply wp_use_buffer; [|apply Hd..].
  - by apply wp_use_buffer; [|apply Hd..].
  - by apply wp_MarkPassCullable.
  - by apply wp_SetAttachmentClear; [|apply Hd..].
  - by apply wp_MarkPresented.
Qed.

(** C39. Whatever a client declares, every operation returns, and the graph stays
    well formed: at most 4096 passes and resources, every use of a declared
    pass, image uses on images only and buffer uses on buffers only. *)
Theorem declarations_well_formed (ds : list declaration) :
  Forall unsigned ds ->
  exists g, declare_all ds new_Tr2RenderGraphAL = (Ok tt, g) /\ graph_ok g.
Proof.
  intros Hds. assert (Hok : graph_ok new_Tr2RenderGraphAL) by (split_and!; [done..|constructor]).
  revert Hok. generalize new_Tr2RenderGraphAL. induction Hds as [|d ds Hd _ IH]; intros g Hok.
  { by exists g. }
  pose proof (wp_declare g d Hok Hd) as Hwp. cbn [declare_all]. unfold wp in Hwp.
  unfold mbind, M_bind. destruct (declare d g) as [[[]|e| |] g']; try done. by apply IH.
Qed.

(** ** Scheduling *)

(** What the validation loop looks for. *)
Definition invalid_resource (r : Resource) : Prop :=
  isImage r = true /\
  ((presented r = true /\ imageUses r = []) \/
   (exists use uses, imageUses r = use :: uses /\ iu_isRead use = true /\
      initialLayout (imageDesc r) = VK_IMAGE_LAYOUT_UNDEFINED)).

Lemma validate_spec rs :
  match validate rs with
  | None => forall r, r ∈ rs -> ~ invalid_resource r
  | Some message => message <> "" /\ exists r, r ∈ rs /\ invalid_resource r
  end.
Proof.
  induction rs as [|r rs IH]; [set_solver|]. cbn [validate].
  destruct (isImage r && (presented r && is_nil (imageUses r))) eqn:H1.
  { split; [done|]. exists r. split; [set_solver|].
    apply andb_true_iff in H1 as [? [? Hnil]%andb_true_iff]. split; [done|]. left.
    by destruct (imageUses r). }
  destruct (isImage r && (_ && front_is_read _)) eqn:H2.
  { split; [done|]. exists r. split; [set_solver|].
    apply andb_true_iff in H2 as [? [[? ?%bool_decide_eq_true]%andb_true_iff Hf]%andb_true_iff].
    split; [done|]. right. destruct (imageUses r) as [|u us]; [done|]. by exists u, us. }
  destruct (validate rs) as [m|].
  { destruct IH as [? (r' & ? & ?)]. split; [done|]. exists r'. split; [set_solver|done]. }
  intros r' [->|Hr']%elem_of_cons; [|by apply IH]. intros (Hi & [[Hp Hn]|(u & us & Hu & Hr & Hl)]).
  - by rewrite Hi, Hp, Hn in H1.
  - rewrite Hi, Hu, Hl in H2. cbn in H2. by rewrite Hr in H2.
Qed.

(** The edges of the graph are between declared passes. *)
Lemma use_pairs_in us e :
  e ∈ use_pairs us -> from e ∈ map t_pass us /\ to e ∈ map t_pass us.
Proof.
  induction us as [|u [|v us] IH]; [set_solver..|]. intros He.
  assert (Hcase : e = mkUsePair (t_pass u) (t_pass v) \/ e ∈ use_pairs (v :: us)).
  { cbn [use_pairs] in He. destruct (_ && _); [by right|]. by apply elem_of_cons in He. }
  destruct Hcase as [->|He']; [cbn; set_solver|].
  destruct (IH He') as [? ?]. cbn [map] in *. set_solver.
Qed.

Lemma touches_in_range n r : resource_ok n r -> Forall (in_range n) (map t_pass (touches r)).
Proof.
  intros (Hi & Hb & _). unfold touches. by destruct (isImage r); rewrite map_map.
Qed.

Lemma edges_in_range n rs e :
  Forall (resource_ok n) rs -> e ∈ edges_of rs -> in_range n (from e) /\ in_range n (to e).
Proof.
  intros Hrs He. unfold edges_of in He. apply elem_of_concat in He as (l & He & Hl).
  apply list_elem_of_fmap in Hl as (r & -> & Hr).
  rewrite Forall_forall in Hrs. pose proof (touches_in_range _ _ (Hrs _ Hr)) as Ht.
  rewrite Forall_forall in Ht. apply use_pairs_in in He as [? ?]. auto.
Qed.

Definition graph_edges (g : Tr2RenderGraphAL) : list UsePair := edges_of (m_resources g).

(** The graph has fewer than 2^32 edges: its uses fit in memory. *)
Definition few_edges (g : Tr2RenderGraphAL) : Prop := size (graph_edges g) < 2 ^ 32.

(** What [Compile] asks of a graph. *)
Definition accepted (g : Tr2RenderGraphAL) : Prop :=
  m_passes g <> [] /\ m_resources g <> [] /\
  (forall r, r ∈ m_resources g -> ~ invalid_resource r) /\ acyclic (graph_edges g).

(** The order of the passes of [g]. *)
Definition pass_order (g : Tr2RenderGraphAL) (order : list PassId) : Prop :=
  least_first (length (m_passes g)) (graph_edges g) order /\ length order = length (m_passes g).

Lemma schedule_spec g :
  graph_ok g -> few_edges g ->
  match schedule g with
  | Ok (inr order) => accepted g /\ pass_order g order
  | Ok (inl message) => message <> "" /\ ~ accepted g
  | _ => False
  end.
Proof.
  intros (Hp & Hn & Hr) Hfew. unfold schedule, accepted, pass_order.
  destruct (m_passes g) as [|p ps] eqn:Hps; [naive_solver|].
  destruct (m_resources g) as [|r rs] eqn:Hrs; [naive_solver|]. cbn [is_nil].
  rewrite <- Hps, <- Hrs in *. pose proof (validate_spec (m_resources g)) as Hval.
  destruct (validate (m_resources g)) as [message|].
  { destruct Hval as [? (r' & ? & ?)]. split; [done|]. intros (_ & _ & Hv & _). by apply (Hv r'). }
  change (edges_of (m_resources g)) with (graph_edges g).
  set (n := length (m_passes g)) in *.
  pose proof (edges_in_range n (m_resources g)) as Hrange.
  destruct (add_edges_spec n (graph_edges g) (fun e => Hrange e Hr) Hfew (m_passes g) []
              (graph_edges g) (new_Degrees n)) as [(d & -> & Hd & Hlf)|(m & q & -> & Hm & Hq)];
    [done|done|apply new_Degrees_counted|constructor| |]; cbn.
  - destruct (kahn_total n (graph_edges g) (fun e => Hrange e Hr) Hfew d Hd Hlf)
      as (order & -> & Hl & Hnone). cbn.
    destruct (Nat.eqb_spec (length order) n) as [Heq|Hne]; cbn.
    + split; [|done]. split_and!; [by rewrite Hps|by rewrite Hrs|done|].
      by eapply least_first_acyclic; [|intros e; apply Hrange|].
    + split; [done|]. intros (_ & _ & _ & Hac). apply Hne.
      by eapply complete_of_acyclic; [|intros e; apply Hrange|..].
  - split; [done|]. intros (_ & _ & _ & Hac). apply (Hac q). by apply tc_once.
Qed.
