(* ===== verification/RenderGraphSpec.v ===== *)
(** * What the render graph compiles to

    The theorems about the result of [Compile] of [RenderGraph]: which graphs it
    accepts, the numbering of the passes, which are culled, the attachments, and
    that the barriers bring every image into the layout its users need. *)

From stdpp Require Import base numbers list option strings gmap relations sorting.
From S2P Require Import Prelude RenderGraph RenderGraphOrder.

#[local] Open Scope Z_scope.

(** ** Survivors *)

Definition alive (surviving : list bool) (p : PassId) : bool :=
  default false (surviving !! Z.to_nat p).

Lemma vec_at_alive surviving p :
  in_range (length surviving) p -> vec_at surviving p = Ok (alive surviving p).
Proof. intros (b & Hb & ->)%vec_at_in_range. unfold alive. by rewrite Hb. Qed.

(** [p] writes, [q] reads the resource. *)
Definition writes (r : Resource) (p : PassId) : Prop := mkTouch p false ∈ touches r.
Definition reads (r : Resource) (p : PassId) : Prop := mkTouch p true ∈ touches r.

(** A reason for [p] to survive, when the passes in [S] do: it may not be culled,
    it writes a presented image, or one of them reads what it writes. *)
Definition needed (g : Tr2RenderGraphAL) (S : PassId -> Prop) (p : PassId) : Prop :=
  (exists pass, m_passes g !! Z.to_nat p = Some pass /\ cullable pass = false) \/
  exists r, r ∈ m_resources g /\
    ((presented r = true /\ writes r p) \/
     (writes r p /\ exists q, reads r q /\ q <> p /\ S q)).

Definition consumed_b (uses : list touch) (p : PassId) (surviving : list bool) : bool :=
  existsb (fun use => (t_pass use =? p) && negb (t_isRead use) &&
    existsb (fun reader => negb (t_pass reader =? p) && t_isRead reader
                           && alive surviving (t_pass reader)) uses) uses.

Lemma existsb_elem {A} (f : A -> bool) l : existsb f l = true <-> exists x, x ∈ l /\ f x = true.
Proof. rewrite existsb_exists. by setoid_rewrite list_elem_of_In. Qed.

Lemma consumed_pure uses p surviving :
  Forall (in_range (length surviving)) (map t_pass uses) ->
  consumed uses p surviving = Ok (consumed_b uses p surviving).
Proof.
  intros Hr. rewrite Forall_forall in Hr. apply exists_res_pure. intros use _.
  destruct (t_pass use =? p), (t_isRead use); cbn [negb orb andb]; try done.
  apply exists_res_pure. intros reader Hin.
  destruct (t_pass reader =? p), (t_isRead reader); cbn [negb orb andb]; try done.
  apply vec_at_alive, Hr. by apply list_elem_of_fmap_2.
Qed.

Lemma consumed_b_true uses p surviving :
  consumed_b uses p surviving = true <->
  mkTouch p false ∈ uses /\ exists q, mkTouch q true ∈ uses /\ q <> p /\ alive surviving q = true.
Proof.
  unfold consumed_b. rewrite existsb_elem. setoid_rewrite andb_true_iff.
  setoid_rewrite existsb_elem. split.
  - intros ([a []] & Hin & Hw & ([b []] & Hin' & Hread)); cbn in *;
      repeat rewrite ?andb_true_iff, ?negb_true_iff, ?Z.eqb_eq, ?Z.eqb_neq in *; naive_solver.
  - intros (Hin & q & Hq & Hne & Ha). exists (mkTouch p false). split_and!; [done| |].
    + cbn. by rewrite Z.eqb_refl.
    + exists (mkTouch q true). split; [done|]. cbn. by rewrite (proj2 (Z.eqb_neq _ _) Hne).
Qed.

Lemma touches_image r : isImage r = true -> touches r = map image_touch (imageUses r).
Proof. unfold touches. by intros ->. Qed.
Lemma touches_buffer r : isImage r = false -> touches r = map buffer_touch (bufferUses r).
Proof. unfold touches. by intros ->. Qed.

(** The code's test is [needed]. *)
Lemma HasReasonToSurvive_spec g p surviving :
  graph_ok g -> length surviving = length (m_passes g) -> in_range (length (m_passes g)) p ->
  exists b, HasReasonToSurvive g p surviving = Ok b /\
    (b = true <-> needed g (fun q => alive surviving q = true) p).
Proof.
  intros (_ & _ & Hok) Hlen Hp. rewrite Forall_forall in Hok. unfold HasReasonToSurvive, needed.
  destruct (vec_at_in_range (m_passes g) p Hp) as (pass & Hpass & ->). cbn.
  destruct (cullable pass) eqn:Hcull; cbn [negb].
  2: { exists true. split; [done|]. split; [|done]. intros _. left. by exists pass. }
  rewrite (exists_res_pure _ (fun r =>
    (presented r && existsb (fun u => negb (iu_isRead u) && (iu_pass u =? p)) (imageUses r))
    || consumed_b (touches r) p surviving)).
  - eexists. split; [done|]. rewrite existsb_elem. split.
    + intros (r & Hr & Hb). right. exists r. split; [done|].
      apply orb_true_iff in Hb as [[Hpr Hw]%andb_true_iff|Hb%consumed_b_true]; [|by right].
      left. split; [done|]. apply existsb_elem in Hw as (u & Hu & Hw).
      destruct (Hok _ Hr) as (_ & _ & Hi). unfold writes, touches.
      destruct (isImage r); [|destruct Hi; congruence]. apply list_elem_of_fmap. exists u.
      apply andb_true_iff in Hw as [Hw%negb_true_iff Hp'%Z.eqb_eq].
      unfold image_touch. by rewrite Hw, Hp'.
    + intros [(pass' & Hp' & Hc)|(r & Hr & Hneed)]; [congruence|]. exists r. split; [done|].
      apply orb_true_iff. destruct Hneed as [[Hpr Hw]|Hc]; [left|right; by apply consumed_b_true].
      apply andb_true_iff. split; [done|]. apply existsb_elem. unfold writes, touches in Hw.
      destruct (Hok _ Hr) as (_ & _ & Hi). destruct (isImage r); [|destruct Hi; congruence].
      apply list_elem_of_fmap in Hw as (u & Hu & Hin). exists u. split; [done|].
      injection Hu as Heq <-. by rewrite <- Heq, Z.eqb_refl.
  - intros r Hr. specialize (Hok _ Hr). pose proof (touches_in_range _ _ Hok) as Ht.
    rewrite <- Hlen in Ht. destruct Hok as (_ & _ & Hi).
    destruct (isImage r) eqn:Himg.
    + rewrite Hi, andb_true_r, <- touches_image by done.
      destruct (presented r && _); [done|]. rewrite (consumed_pure (touches r)) by done. cbn [mbind res_bind].
      by destruct (consumed_b (touches r) _ _).
    + destruct Hi as [-> Hpr]. rewrite <- touches_buffer, Hpr by done. cbn.
      by rewrite consumed_pure.
Qed.

(** ** Culling *)

Lemma alive_vec_set surviving p q b :
  in_range (length surviving) p -> 0 <= q ->
  alive (vec_set p b surviving) q = if decide (q = p) then b else alive surviving q.
Proof. intros Hp Hq. unfold alive. rewrite lookup_vec_set by done. by destruct (decide _). Qed.

Lemma needed_mono g (S S' : PassId -> Prop) p :
  (forall r q, r ∈ m_resources g -> reads r q -> S q -> S' q) -> needed g S p -> needed g S' p.
Proof.
  intros HS [?|(r & Hr & Hn)]; [by left|]. right. exists r. split; [done|].
  destruct Hn as [?|(Hw & q & Hq & Hne & HSq)]; [by left|]. right. split; [done|].
  exists q. by eauto.
Qed.

Lemma needed_iff g (S S' : PassId -> Prop) p :
  (forall q, 0 <= q -> S q <-> S' q) -> graph_ok g -> needed g S p <-> needed g S' p.
Proof.
  intros HS (_ & _ & Hok). rewrite Forall_forall in Hok.
  assert (Hq : forall r q, r ∈ m_resources g -> reads r q -> S q <-> S' q).
  { intros r q Hr Hq. apply HS. pose proof (touches_in_range _ _ (Hok _ Hr)) as Ht.
    rewrite Forall_forall in Ht. destruct (Ht q); [|done].
    apply list_elem_of_fmap. by exists (mkTouch q true). }
  split; apply needed_mono; intros r q Hr Hread; by apply (Hq r q).
Qed.

(** The survivors of [order]: a pass survives when those after it need it. *)
Definition survivors (g : Tr2RenderGraphAL) (order : list PassId) (S : PassId -> Prop) : Prop :=
  forall l1 p l2, order = l1 ++ p :: l2 -> S p <-> needed g (fun q => q ∈ l2 /\ S q) p.

Lemma cull_spec g done rest surviving :
  graph_ok g -> length surviving = length (m_passes g) ->
  Forall (in_range (length (m_passes g))) (rest ++ done) -> NoDup (rest ++ done) ->
  (forall p, 0 <= p -> alive surviving p = true -> p ∈ done) ->
  survivors g done (fun p => alive surviving p = true) ->
  exists surviving', cull g (rev rest) surviving = Ok surviving' /\
    length surviving' = length (m_passes g) /\
    survivors g (rest ++ done) (fun p => alive surviving' p = true).
Proof.
  intros Hok. revert done surviving.
  induction rest as [|p rest IH] using rev_ind; intros done surviving Hlen Hr Hnd Hin Hs.
  { by exists surviving. }
  rewrite rev_app_distr. cbn [rev app cull]. rewrite <- app_assoc in Hr, Hnd |- *.
  cbn [app] in *.
  assert (Hp : in_range (length (m_passes g)) p) by (rewrite Forall_forall in Hr; apply Hr; set_solver).
  destruct (HasReasonToSurvive_spec g p surviving Hok Hlen Hp) as (b & -> & Hb). cbn [mbind res_bind].
  set (next := if b then vec_set p true surviving else surviving).
  assert (Hpd : p ∉ done).
  { apply NoDup_app in Hnd as (_ & _ & Hnd). by apply NoDup_cons in Hnd as [? _]. }
  assert (Hnext : forall q, 0 <= q -> alive next q = if decide (q = p) then b else alive surviving q).
  { intros q Hq. unfold next. destruct b.
    - apply alive_vec_set; [by rewrite Hlen|done].
    - destruct (decide (q = p)) as [->|]; [|done].
      destruct (alive surviving p) eqn:Ha; [|done]. destruct Hpd. by apply Hin; [apply Hp|]. }
  apply IH; [|done|done| |].
  - unfold next. destruct b; [by rewrite length_vec_set|done].
  - intros q Hq. rewrite Hnext by done. destruct (decide _); [set_solver|]. intros Ha.
    specialize (Hin q Hq Ha). set_solver.
  - intros l1 q l2 Heq. destruct l1 as [|p' l1]; injection Heq as <- Heq.
    + subst l2. rewrite Hnext, decide_True, Hb by (done || apply Hp).
      apply needed_iff; [|done]. intros q Hq. rewrite Hnext by done.
      destruct (decide (q = p)) as [->|]; [|naive_solver]. split; [|naive_solver].
      intros Ha. destruct Hpd. by apply Hin.
    + assert (q <> p /\ 0 <= q) as [Hqp Hq0].
      { split; [intros ->; set_solver|]. rewrite Forall_forall in Hr.
        apply (Hr q). rewrite Heq. set_solver. }
      rewrite Hnext, decide_False, (Hs l1 q l2) by done.
      apply needed_iff; [|done]. intros q' Hq'. rewrite Hnext by done.
      destruct (decide (q' = p)) as [->|]; [|done]. set_solver.
Qed.

(** ** Numbering *)

Definition live (surviving : list bool) (l : list PassId) : list PassId :=
  filter (fun p => alive surviving p = true) l.

(** The entry of [p], with the survivors [before] it in the order. *)
Definition entry (g : Tr2RenderGraphAL) (surviving : list bool) (before : list PassId) (p : PassId)
    (c : CompiledPass) : Prop :=
  exists pass, m_passes g !! Z.to_nat p = Some pass /\
    c = mkCompiledPass p (p_name pass) (p_queue pass) (negb (alive surviving p))
          (if alive surviving p then size (live surviving before) else UINT32_MAX).

Lemma number_passes_spec g surviving done rest out :
  length surviving = length (m_passes g) -> length out = length (m_passes g) ->
  Forall (in_range (length (m_passes g))) (done ++ rest) -> NoDup (done ++ rest) ->
  size (done ++ rest) < 2 ^ 32 ->
  exists out', number_passes g surviving rest (size (live surviving done)) out = Ok out' /\
    length out' = length (m_passes g) /\
    (forall p, 0 <= p -> p ∉ rest -> out' !! Z.to_nat p = out !! Z.to_nat p) /\
    (forall l1 p l2, rest = l1 ++ p :: l2 ->
       exists c, out' !! Z.to_nat p = Some c /\ entry g surviving (done ++ l1) p c).
Proof.
  revert done out. induction rest as [|p rest IH]; intros done out Hlen Hout Hr Hnd Hsize.
  { exists out. split_and!; [done..|]. by intros []. }
  cbn [number_passes].
  assert (Hp : in_range (length (m_passes g)) p) by (rewrite Forall_forall in Hr; apply Hr; set_solver).
  destruct (vec_at_in_range (m_passes g) p Hp) as (pass & Hpass & ->).
  rewrite vec_at_alive by (by rewrite Hlen). cbn [mbind res_bind].
  set (c := mkCompiledPass _ _ _ _ _).
  assert (Hidx : (if alive surviving p then u32 (size (live surviving done) + 1)
                  else size (live surviving done)) = size (live surviving (done ++ [p]))).
  { unfold live, size. rewrite filter_app, filter_cons, filter_nil, length_app.
    destruct (alive surviving p);
      [rewrite decide_True by done|rewrite decide_False by done]; simpl; [|f_equal; lia].
    rewrite wrap_u_small; [lia|].
    pose proof (length_filter (fun p => alive surviving p = true) done).
    unfold size in Hsize. rewrite length_app in Hsize. cbn in Hsize. unfold in_u. lia. }
  rewrite Hidx. rewrite (cons_middle p done rest) in Hr, Hnd, Hsize.
  destruct (IH (done ++ [p]) (vec_set p c out)) as (out' & -> & Hlen' & Hold & Hnew);
    [done|by rewrite length_vec_set|by rewrite <- app_assoc..|].
  assert (Hprest : p ∉ rest).
  { apply NoDup_app in Hnd as (_ & _ & Hnd). by apply NoDup_cons in Hnd as [? _]. }
  exists out'. split_and!; [done..| |].
  - intros q Hq Hn. rewrite Hold by (done || set_solver).
    rewrite lookup_vec_set by (rewrite ?Hout; done).
    rewrite decide_False by set_solver. done.
  - intros [|p' l1] q l2 Heq; injection Heq as <- Heq.
    + exists c. rewrite Hold by (done || apply Hp). rewrite lookup_vec_set by (rewrite ?Hout; done || apply Hp).
      rewrite decide_True by done. split; [done|]. exists pass. split; [done|].
      by rewrite app_nil_r.
    + destruct (Hnew _ _ _ Heq) as (c' & Hc' & He). exists c'. split; [done|].
      by rewrite <- app_assoc in He.
Qed.

(** ** The loops over the resources *)

Lemma for_resources_pure {A} (f : ResourceId -> Resource -> res A) h k rs :
  (forall i r, r ∈ rs -> f i r = Ok (h i r)) ->
  for_resources f k rs = Ok (imap (fun i r => h (k + Z.of_nat i) r) rs).
Proof.
  revert k. induction rs as [|r rs IH]; intros k Hf; [done|]. cbn [for_resources].
  rewrite Hf by set_solver. cbn [mbind res_bind]. rewrite IH by set_solver. cbn [mbind res_bind].
  do 2 f_equal; cbn; rewrite Z.add_0_r; f_equal. apply imap_ext. intros i r' _.
  unfold compose. cbn. f_equal. lia.
Qed.

Definition live_uses (surviving : list bool) (us : list ImageUse) : list ImageUse :=
  filter (fun u => alive surviving (iu_pass u) = true) us.
Definition live_buffer_uses (surviving : list bool) (us : list BufferUse) : list BufferUse :=
  filter (fun u => alive surviving (bu_pass u) = true) us.

(** The surviving passes that use a resource, in the order of the declarations. *)
Definition live_touches (surviving : list bool) (r : Resource) : list PassId :=
  live surviving (map t_pass (touches r)).

Fixpoint barriers_from (r : ResourceId) (c : ImageCursor) (us : list ImageUse) : list ImageBarrier :=
  match us with
  | [] => []
  | u :: us => option_list (use_barrier r c u) ++ barriers_from r (image_cursor_after u) us
  end.

(** The loop's variables after the uses [us]. *)
Definition cursor_after (c : ImageCursor) (us : list ImageUse) : ImageCursor :=
  match last us with Some u => image_cursor_after u | None => c end.

Definition first_cursor (resource : Resource) : ImageCursor :=
  mkImageCursor (initialLayout (imageDesc resource)) [] [] true false.

Definition image_barriers_of (surviving : list bool) (r : ResourceId) (resource : Resource)
    : list ImageBarrier :=
  let us := live_uses surviving (imageUses resource) in
  barriers_from r (first_cursor resource) us ++
  (if presented resource then [present_barrier r (cursor_after (first_cursor resource) us)] else []).

Lemma image_barrier_loop_pure surviving r us c :
  Forall (in_range (length surviving)) (map iu_pass us) ->
  image_barrier_loop surviving r us c =
    Ok (barriers_from r c (live_uses surviving us), cursor_after c (live_uses surviving us)).
Proof.
  revert c. induction us as [|u us IH]; intros c Hr; [done|].
  apply Forall_cons in Hr as [Hu Hr]. cbn [image_barrier_loop].
  rewrite vec_at_alive by done. cbn [mbind res_bind]. unfold live_uses. rewrite filter_cons.
  destruct (alive surviving (iu_pass u)); cbn [negb];
    [rewrite decide_True by done|rewrite decide_False by done]; rewrite IH by done; [|done].
  cbn [mbind res_bind barriers_from]. do 2 f_equal. unfold cursor_after, live_uses.
  rewrite last_cons. by destruct (last _).
Qed.

Lemma image_barriers_pure n surviving r resource :
  resource_ok n resource -> length surviving = n -> ~ invalid_resource resource ->
  image_barriers surviving r resource = Ok (image_barriers_of surviving r resource).
Proof.
  intros (Hi & _ & Ht) Hlen Hvalid. unfold image_barriers, image_barriers_of.
  destruct (isImage resource) eqn:Himg; cbn [negb orb].
  - destruct (imageUses resource) as [|u us] eqn:Hus; cbn [is_nil].
    + destruct (presented resource) eqn:Hp; [|done]. destruct Hvalid. split; [done|]. by left.
    + rewrite image_barrier_loop_pure by by rewrite Hlen. done.
  - by destruct Ht as [-> ->].
Qed.

Fixpoint buffer_barriers_from (r : ResourceId) (c : BufferCursor) (us : list BufferUse)
    : list BufferBarrier :=
  match us with
  | [] => []
  | u :: us => option_list (buffer_use_barrier r c u)
               ++ buffer_barriers_from r (buffer_cursor_after u) us
  end.

Definition buffer_barriers_of (surviving : list bool) (r : ResourceId) (resource : Resource)
    : list BufferBarrier :=
  buffer_barriers_from r (mkBufferCursor [] [] true false)
    (live_buffer_uses surviving (bufferUses resource)).

Lemma buffer_barriers_pure n surviving r resource :
  resource_ok n resource -> length surviving = n ->
  buffer_barriers surviving r resource = Ok (buffer_barriers_of surviving r resource).
Proof.
  intros (_ & Hb & Ht) Hlen. unfold buffer_barriers, buffer_barriers_of.
  assert (Hloop : forall us c, Forall (in_range n) (map bu_pass us) ->
    buffer_barrier_loop surviving r us c =
      Ok (buffer_barriers_from r c (live_buffer_uses surviving us))).
  { induction us as [|u us IH]; intros c Hr; [done|].
    apply Forall_cons in Hr as [Hu Hr]. cbn [buffer_barrier_loop].
    rewrite vec_at_alive by by rewrite Hlen. cbn [mbind res_bind].
    unfold live_buffer_uses. rewrite filter_cons.
    destruct (alive surviving (bu_pass u)); cbn [negb];
      [rewrite decide_True by done|rewrite decide_False by done]; by rewrite IH. }
  destruct (isImage resource); cbn [orb]; [by rewrite Ht|].
  destruct (bufferUses resource) eqn:Hus; [done|]. by apply Hloop.
Qed.

(** The lifetime of a resource whose surviving users are [ps]. *)
Definition lifetime_from (r : ResourceId) (image : bool) (ps : list PassId) : ResourceLifetime :=
  match ps, last ps with
  | p :: _, Some q => mkResourceLifetime r image true p q
  | _, _ => mkResourceLifetime r image false INVALID_PASS INVALID_PASS
  end.

Lemma lifetime_of_pure n surviving r resource :
  resource_ok n resource -> length surviving = n -> Z.of_nat n < UINT32_MAX ->
  lifetime_of surviving r resource =
    Ok (lifetime_from r (isImage resource) (live_touches surviving resource)).
Proof.
  intros Hok Hlen Hn. unfold lifetime_of, live_touches.
  pose proof (touches_in_range _ _ Hok) as Hr. revert Hr.
  assert (Hloop : forall us u p q, Forall (in_range n) (map t_pass us) -> p <> INVALID_PASS ->
    lifetime_loop surviving us (mkResourceLifetime r u true p q) =
      Ok (mkResourceLifetime r u true p (default q (last (live surviving (map t_pass us)))))).
  { induction us as [|t us IH]; intros u p q Hr Hp; [done|]. cbn [map] in *.
    apply Forall_cons in Hr as [Ht Hr]. cbn [lifetime_loop].
    rewrite vec_at_alive by by rewrite Hlen. cbn [mbind res_bind].
    unfold live. rewrite filter_cons. destruct (alive surviving (t_pass t));
      [rewrite decide_True by done|rewrite decide_False by done]; [|by apply IH].
    cbn [firstPass rl_resource rl_isImage]. rewrite (proj2 (Z.eqb_neq _ _) Hp).
    rewrite IH by done. rewrite last_cons. unfold live. by destruct (last _). }
  induction (touches resource) as [|t us IH]; intros Hr; [done|]. cbn [map] in *.
  apply Forall_cons in Hr as [Ht Hr]. cbn [lifetime_loop].
  rewrite vec_at_alive by by rewrite Hlen. cbn [mbind res_bind].
  unfold live. rewrite filter_cons. destruct (alive surviving (t_pass t));
    [rewrite decide_True by done|rewrite decide_False by done]; [|by apply IH].
  cbn [firstPass rl_resource rl_isImage]. rewrite Z.eqb_refl.
  rewrite Hloop by (done || unfold in_range, INVALID_PASS in *; lia).
  unfold lifetime_from. rewrite last_cons. unfold live. by destruct (last _).
Qed.

(** ** The result *)

Record compiled (g : Tr2RenderGraphAL) (order : list PassId) (surviving : list bool)
    (out : CompileResult) : Prop := mkCompiled
  { c_order : pass_order g order;
    c_length : length surviving = length (m_passes g);
    c_survivors : survivors g order (fun p => alive surviving p = true);
    c_passes : length (passes out) = length (m_passes g);
    c_entries : forall l1 p l2, order = l1 ++ p :: l2 ->
      exists c, passes out !! Z.to_nat p = Some c /\ entry g surviving l1 p c;
    c_lifetimes : lifetimes out =
      imap (fun i r => lifetime_from (Z.of_nat i) (isImage r) (live_touches surviving r))
        (m_resources g);
    c_images : imageBarriers out =
      concat (imap (fun i r => image_barriers_of surviving (Z.of_nat i) r) (m_resources g));
    c_buffers : bufferBarriers out =
      concat (imap (fun i r => buffer_barriers_of surviving (Z.of_nat i) r) (m_resources g));
    c_attachments : passAttachments out = attachments (m_resources g) 0 surviving }.

Lemma order_in_range g order :
  pass_order g order -> Forall (in_range (length (m_passes g))) order.
Proof. intros [Hl _]. apply Forall_forall. intros p. by eapply least_first_elem. Qed.

Lemma order_NoDup g order : pass_order g order -> NoDup order.
Proof. intros [Hl _]. by eapply least_first_NoDup. Qed.

Lemma order_elem g order p :
  pass_order g order -> p ∈ order <-> in_range (length (m_passes g)) p.
Proof.
  intros [Hl Hn]. rewrite (least_first_perm _ _ _ Hl Hn), elem_of_seqZ. unfold in_range. lia.
Qed.

Lemma pass_order_unique g order order' :
  pass_order g order -> pass_order g order' -> order = order'.
Proof. intros [Hl Hn] [Hl' Hn']. by eapply least_first_unique; [..|rewrite Hn']. Qed.

Lemma alive_replicate n p : alive (replicate n false) p = false.
Proof.
  unfold alive. destruct (replicate n false !! Z.to_nat p) as [b|] eqn:Hb; [|done].
  by apply lookup_replicate in Hb as [-> _].
Qed.

Lemma Compile_spec g :
  graph_ok g -> few_edges g ->
  (accepted g /\ exists order surviving out,
     Compile g = Ok (S_OK, out, "") /\ compiled g order surviving out) \/
  (~ accepted g /\ exists message, message <> "" /\
     Compile g = Ok (E_INVALIDCALL, new_CompileResult, message)).
Proof.
  intros Hok Hfew. pose proof (schedule_spec g Hok Hfew) as Hs. unfold Compile.
  destruct (schedule g) as [[message|order]|e| |]; try done; cbn [mbind res_bind].
  { right. split; [apply Hs|]. exists message. split; [apply Hs|done]. }
  destruct Hs as [Hacc Hord]. left. split; [done|].
  pose proof Hok as (Hmax & _ & Hres). pose proof (order_NoDup _ _ Hord) as Hnd.
  pose proof (order_in_range _ _ Hord) as Hr. set (n := length (m_passes g)) in *.
  destruct (cull_spec g [] order (replicate n false)) as (surviving & -> & Hlen & Hsurv);
    [done|by rewrite length_replicate|by rewrite app_nil_r..| |by intros []|].
  { intros p _. by rewrite alive_replicate. }
  rewrite app_nil_r in Hsurv. cbn [mbind res_bind].
  destruct (number_passes_spec g surviving [] order (replicate n new_CompiledPass))
    as (ps & Hps & Hpslen & _ & Hent); [done|by rewrite length_replicate|done|done| |].
  { destruct Hord as [_ Hord]. unfold size, MAX_PASS_COUNT in *. cbn. lia. }
  change (size (live surviving [])) with 0 in Hps. rewrite Hps. cbn [mbind res_bind].
  rewrite Forall_forall in Hres.
  rewrite (for_resources_pure _ (fun i r => lifetime_from i (isImage r) (live_touches surviving r))).
  2: { intros i r Hin. eapply lifetime_of_pure; [by apply Hres|done|].
       unfold size, MAX_PASS_COUNT, UINT32_MAX, n in *. lia. }
  cbn [mbind res_bind].
  rewrite (for_resources_pure _ (image_barriers_of surviving)).
  2: { intros i r Hin. eapply image_barriers_pure; [by apply Hres|done|].
       destruct Hacc as (_ & _ & Hv & _). by apply Hv. }
  cbn [mbind res_bind].
  rewrite (for_resources_pure _ (buffer_barriers_of surviving)).
  2: { intros i r Hin. by eapply buffer_barriers_pure; [apply Hres|]. }
  cbn [mbind res_bind]. exists order, surviving. eexists. split; [done|]. by split.
Qed.

(** [p] survives in the result. *)
Definition survives (out : CompileResult) (p : PassId) : Prop :=
  match passes out !! Z.to_nat p with Some c => culled c = false | None => False end.

#[export] Instance survives_dec out p : Decision (survives out p).
Proof. unfold survives. destruct (passes out !! _); apply _. Defined.

Lemma compiled_survives g order surviving out p :
  compiled g order surviving out -> p ∈ order -> survives out p <-> alive surviving p = true.
Proof.
  intros [] [l1 [l2 Heq]]%list_elem_of_split.
  destruct (c_entries0 _ _ _ Heq) as (c & Hc & pass & Hp & ->). unfold survives.
  rewrite Hc. by destruct (alive surviving p).
Qed.

(** C21. [Compile] always returns. It accepts a graph exactly when it has passes
    and resources, every declaration is valid and no chain of dependencies leads
    back to its start; otherwise it reports an error with a message that is not
    empty and leaves the result empty. *)
Theorem Compile_accepts (g : Tr2RenderGraphAL) :
  graph_ok g -> few_edges g ->
  (accepted g /\ exists out, Compile g = Ok (S_OK, out, "")) \/
  (~ accepted g /\ exists message, message <> "" /\
     Compile g = Ok (E_INVALIDCALL, new_CompileResult, message)).
Proof.
  intros Hok Hfew. destruct (Compile_spec g Hok Hfew) as [(? & ? & ? & out & ? & _)|?]; [|by right].
  left. split; [done|]. by exists out.
Qed.

Lemma Compile_compiled g out message :
  graph_ok g -> few_edges g -> Compile g = Ok (S_OK, out, message) ->
  accepted g /\ message = "" /\ exists order surviving, compiled g order surviving out.
Proof.
  intros Hok Hfew Hc.
  destruct (Compile_spec g Hok Hfew) as [(Hacc & order & surviving & out' & Hc' & ?)|(_ & ? & _ & Hc')];
    rewrite Hc in Hc'; [|done]. injection Hc' as <- ->. split_and!; [done..|]. by eauto.
Qed.

(** C20. The order of execution: each pass is the least of those whose
    predecessors all come before it, so every dependency points forward. The
    surviving passes are numbered from 0 in that order, the others get
    [UINT32_MAX]. *)
Theorem Compile_order (g : Tr2RenderGraphAL) (out : CompileResult) (message : string) :
  graph_ok g -> few_edges g -> Compile g = Ok (S_OK, out, message) ->
  exists order, pass_order g order /\
    order ≡ₚ seqZ 0 (size (m_passes g)) /\
    forall l1 p l2, order = l1 ++ p :: l2 ->
      (forall q, edge (graph_edges g) q p -> q ∈ l1) /\
      exists pass c, m_passes g !! Z.to_nat p = Some pass /\ passes out !! Z.to_nat p = Some c /\
        passId c = p /\ cp_name c = p_name pass /\ cp_queue c = p_queue pass /\
        exists before, orderIndex c = (if culled c then UINT32_MAX else size before) /\
          NoDup before /\ forall q, q ∈ before <-> q ∈ l1 /\ survives out q.
Proof.
  intros Hok Hfew Hc.
  destruct (Compile_compiled _ _ _ Hok Hfew Hc) as (_ & _ & order & surviving & Hcomp).
  pose proof Hcomp as [Hord _ _ _ Hent _ _ _ _]. pose proof (order_NoDup _ _ Hord) as Hnd.
  exists order. destruct Hord as [Hl Hn]. split; [done|].
  split; [by eapply least_first_perm|]. intros l1 p l2 Heq.
  split; [by intros q; eapply least_first_edge|].
  destruct (Hent _ _ _ Heq) as (c & Hlook & pass & Hpass & ->).
  eexists pass, _. split_and!; [done..|]. exists (live surviving l1). cbn.
  split_and!; [by destruct (alive surviving p)| |].
  - apply NoDup_filter. rewrite Heq in Hnd. by apply NoDup_app in Hnd as [? _].
  - intros q. unfold live. rewrite list_elem_of_filter.
    assert (Hq : q ∈ l1 -> survives out q <-> alive surviving q = true); [|naive_solver].
    intros Hq. apply (compiled_survives _ _ _ _ _ Hcomp). rewrite Heq. set_solver.
Qed.

(** C22. Culling: a pass survives exactly when it may not be culled, writes the
    presented image, or writes a resource that another surviving pass reads
    later in the order. *)
Theorem Compile_culling (g : Tr2RenderGraphAL) (out : CompileResult) (message : string)
    (order : list PassId) (l1 : list PassId) (p : PassId) (l2 : list PassId) :
  graph_ok g -> few_edges g -> Compile g = Ok (S_OK, out, message) ->
  pass_order g order -> order = l1 ++ p :: l2 ->
  survives out p <-> needed g (fun q => q ∈ l2 /\ survives out q) p.
Proof.
  intros Hok Hfew Hc Hord Heq.
  destruct (Compile_compiled _ _ _ Hok Hfew Hc) as (_ & _ & order' & surviving & Hcomp).
  rewrite (pass_order_unique g order' order) in Hcomp by (done || apply Hcomp).
  rewrite (compiled_survives _ _ _ _ _ Hcomp) by (rewrite Heq; set_solver).
  rewrite (c_survivors _ _ _ _ Hcomp _ _ _ Heq).
  split; apply needed_mono; intros r q _ _ [Hq Ha]; (split; [done|]);
    by apply (compiled_survives _ _ _ _ _ Hcomp); [rewrite Heq; set_solver|].
Qed.

(** ** Barriers *)

(** The uses of a resource by surviving passes, in the order of declaration. *)
Definition surviving_uses (out : CompileResult) (r : Resource) : list ImageUse :=
  filter (fun u => survives out (iu_pass u)) (imageUses r).
Definition surviving_buffer_uses (out : CompileResult) (r : Resource) : list BufferUse :=
  filter (fun u => survives out (bu_pass u)) (bufferUses r).

Section compiled.
Context (g : Tr2RenderGraphAL) (order : list PassId) (surviving : list bool) (out : CompileResult).
Context (Hok : graph_ok g) (Hcomp : compiled g order surviving out).

Lemma survives_in_range p :
  in_range (length (m_passes g)) p -> survives out p <-> alive surviving p = true.
Proof.
  intros Hp. apply (compiled_survives _ _ _ _ _ Hcomp).
  by apply (order_elem g); [apply Hcomp|].
Qed.

Lemma surviving_uses_live r : r ∈ m_resources g ->
  surviving_uses out r = live_uses surviving (imageUses r).
Proof.
  intros Hr. unfold surviving_uses, live_uses. destruct Hok as (_ & _ & Hres).
  rewrite Forall_forall in Hres. destruct (Hres _ Hr) as (Hi & _ & _). clear Hr.
  induction (imageUses r) as [|u us IH]; [done|]. apply Forall_cons in Hi as [Hu Hi].
  rewrite !filter_cons, IH by done. pose proof (survives_in_range _ Hu).
  destruct (decide (survives out (iu_pass u))), (decide (alive surviving (iu_pass u) = true)); tauto.
Qed.

Lemma surviving_buffer_uses_live r : r ∈ m_resources g ->
  surviving_buffer_uses out r = live_buffer_uses surviving (bufferUses r).
Proof.
  intros Hr. unfold surviving_buffer_uses, live_buffer_uses. destruct Hok as (_ & _ & Hres).
  rewrite Forall_forall in Hres. destruct (Hres _ Hr) as (_ & Hb & _). clear Hr.
  induction (bufferUses r) as [|u us IH]; [done|]. apply Forall_cons in Hb as [Hu Hb].
  rewrite !filter_cons, IH by done. pose proof (survives_in_range _ Hu).
  destruct (decide (survives out (bu_pass u))), (decide (alive surviving (bu_pass u) = true)); tauto.
Qed.

Lemma image_barrier_in i r b :
  m_resources g !! i = Some r -> b ∈ image_barriers_of surviving (Z.of_nat i) r ->
  b ∈ imageBarriers out.
Proof.
  intros Hr Hb. rewrite (c_images _ _ _ _ Hcomp). apply elem_of_concat.
  eexists. split; [exact Hb|]. apply list_elem_of_lookup. exists i.
  by rewrite list_lookup_imap, Hr.
Qed.

Lemma buffer_barrier_in i r b :
  m_resources g !! i = Some r -> b ∈ buffer_barriers_of surviving (Z.of_nat i) r ->
  b ∈ bufferBarriers out.
Proof.
  intros Hr Hb. rewrite (c_buffers _ _ _ _ Hcomp). apply elem_of_concat.
  eexists. split; [exact Hb|]. apply list_elem_of_lookup. exists i.
  by rewrite list_lookup_imap, Hr.
Qed.
End compiled.

Lemma barriers_from_app r c us us' :
  barriers_from r c (us ++ us') = barriers_from r c us ++ barriers_from r (cursor_after c us) us'.
Proof.
  revert c. induction us as [|u us IH]; intros c; [done|]. cbn [barriers_from app].
  rewrite IH, <- app_assoc. do 3 f_equal. unfold cursor_after. rewrite last_cons.
  by destruct (last us).
Qed.

Lemma buffer_barriers_from_app r c us us' :
  buffer_barriers_from r c (us ++ us') =
    buffer_barriers_from r c us ++
    buffer_barriers_from r
      match last us with Some u => buffer_cursor_after u | None => c end us'.
Proof.
  revert c. induction us as [|u us IH]; intros c; [done|]. cbn [buffer_barriers_from app].
  rewrite IH, <- app_assoc. do 3 f_equal. rewrite last_cons. by destruct (last us).
Qed.

(** The transition between two uses of image [i], the one that [CompileResult]
    must hold for the second to wait for the first. *)
Definition transition (i : ResourceId) (u v : ImageUse) : ImageBarrier :=
  let a := GetImageAccessInfo (iu_access u) in
  let b := GetImageAccessInfo (iu_access v) in
  mkImageBarrier (iu_pass v) i (iai_stage a) (iai_access a) (iai_stage b) (iai_access b)
    (iai_layout a) (iai_layout b).

Definition buffer_transition (i : ResourceId) (u v : BufferUse) : BufferBarrier :=
  let a := GetBufferAccessInfo (bu_access u) in
  let b := GetBufferAccessInfo (bu_access v) in
  mkBufferBarrier (bu_pass v) i (bai_stage a) (bai_access a) (bai_stage b) (bai_access b).

(** No two neighbours of the list both only read. *)
Fixpoint chained (reads : list bool) : Prop :=
  match reads with
  | a :: (b :: _) as reads => a && b = false /\ chained reads
  | _ => True
  end.

(** Pass [p] runs before pass [q]. *)
Definition precedes (order : list PassId) (p q : PassId) : Prop :=
  exists l1 l2 l3, order = l1 ++ p :: l2 ++ q :: l3.

Lemma use_pairs_app l l' e : e ∈ use_pairs l' -> e ∈ use_pairs (l ++ l').
Proof.
  intros He. induction l as [|a l IH]; [done|]. cbn [app]. cbn [use_pairs].
  destruct (l ++ l') as [|b us]; [by apply not_elem_of_nil in IH|].
  destruct (t_isRead a && t_isRead b); [done|by right].
Qed.

Lemma use_pairs_here a b l :
  t_isRead a && t_isRead b = false -> mkUsePair (t_pass a) (t_pass b) ∈ use_pairs (a :: b :: l).
Proof. intros Hr. cbn [use_pairs]. rewrite Hr. left. Qed.

(** The pass of a use comes before that of a later one to which it is chained. *)
Lemma chained_edges E v l2 m : forall l1 u,
  (forall e, e ∈ use_pairs (l1 ++ u :: m ++ v :: l2) -> e ∈ E) ->
  chained (map t_isRead (u :: m ++ [v])) -> tc (edge E) (t_pass u) (t_pass v).
Proof.
  induction m as [|w m IH]; intros l1 u HE Hch; cbn [app map chained] in Hch; destruct Hch as [Hr Hch].
  - apply tc_once, HE, use_pairs_app, use_pairs_here, Hr.
  - eapply tc_l; [apply HE, use_pairs_app, use_pairs_here, Hr|].
    apply (IH (l1 ++ [u])); [|exact Hch]. intros e He. apply HE. by rewrite <- app_assoc in He.
Qed.

Lemma pass_order_tc g order p q :
  pass_order g order -> tc (edge (graph_edges g)) p q -> q ∈ order -> precedes order p q.
Proof.
  intros [Hl _] Hpq [l1 [l3 Heq]]%list_elem_of_split.
  assert (Hp : p ∈ l1); [|apply list_elem_of_split in Hp as (a & b & ->)].
  - revert l1 l3 Heq. induction Hpq as [p q He|p x q He _ IH]; intros l1 l3 Heq.
    { by eapply least_first_edge. }
    specialize (IH l1 l3 Heq) as (a & b & ->)%list_elem_of_split.
    rewrite <- app_assoc in Heq. pose proof (least_first_edge _ _ _ _ _ _ _ Hl Heq He). set_solver.
  - exists a, b, l3. by rewrite Heq, <- app_assoc.
Qed.

Lemma chained_precedes g order r l1 u m v l2 :
  graph_ok g -> pass_order g order -> r ∈ m_resources g ->
  touches r = l1 ++ u :: m ++ v :: l2 -> chained (map t_isRead (u :: m ++ [v])) ->
  precedes order (t_pass u) (t_pass v).
Proof.
  intros (_ & _ & Hres) Hord Hr Ht Hch. rewrite Forall_forall in Hres.
  eapply pass_order_tc; [done| |].
  - apply (chained_edges _ v l2 m l1 u); [|done]. intros e He. unfold graph_edges, edges_of.
    apply elem_of_concat. exists (use_pairs (touches r)). split; [by rewrite Ht|].
    by apply (list_elem_of_fmap_2 (fun r => use_pairs (touches r))).
  - apply (order_elem _ _ _ Hord). pose proof (touches_in_range _ _ (Hres _ Hr)) as Hin.
    rewrite Forall_forall in Hin. apply Hin, list_elem_of_fmap. exists v. split; [done|].
    rewrite Ht. set_solver.
Qed.

(** Two consecutive surviving uses have the transition between them among the
    barriers when one of them writes or the access changes. *)
Lemma consecutive_images g out message i r l1 u v l2 :
  graph_ok g -> few_edges g -> Compile g = Ok (S_OK, out, message) ->
  m_resources g !! i = Some r -> surviving_uses out r = l1 ++ u :: v :: l2 ->
  iu_isRead u = false \/ iu_isRead v = false \/ iu_access u <> iu_access v ->
  transition (Z.of_nat i) u v ∈ imageBarriers out.
Proof.
  intros Hok Hfew Hc Hr Hus Hneed.
  destruct (Compile_compiled _ _ _ Hok Hfew Hc) as (_ & _ & order & surviving & Hcomp).
  assert (Hin : r ∈ m_resources g) by by eapply list_elem_of_lookup_2.
  rewrite (surviving_uses_live _ _ _ _ Hok Hcomp r Hin) in Hus.
  eapply (image_barrier_in g); [done..|]. unfold image_barriers_of. rewrite Hus.
  apply elem_of_app. left. rewrite barriers_from_app. apply elem_of_app. right.
  cbn [barriers_from]. apply elem_of_app. right. apply elem_of_app. left.
  unfold use_barrier, image_cursor_after, transition. cbn.
  destruct Hneed as [->|[->|Hne]]; [by rewrite orb_true_r; left|by rewrite !orb_true_r; left|].
  rewrite bool_decide_false; [by left|].
  by destruct (iu_access u), (iu_access v).
Qed.

Lemma consecutive_buffers g out message i r l1 u v l2 :
  graph_ok g -> few_edges g -> Compile g = Ok (S_OK, out, message) ->
  m_resources g !! i = Some r -> surviving_buffer_uses out r = l1 ++ u :: v :: l2 ->
  bu_isRead u = false \/ bu_isRead v = false \/ bu_access u <> bu_access v ->
  buffer_transition (Z.of_nat i) u v ∈ bufferBarriers out.
Proof.
  intros Hok Hfew Hc Hr Hus Hneed.
  destruct (Compile_compiled _ _ _ Hok Hfew Hc) as (_ & _ & order & surviving & Hcomp).
  assert (Hin : r ∈ m_resources g) by by eapply list_elem_of_lookup_2.
  rewrite (surviving_buffer_uses_live _ _ _ _ Hok Hcomp r Hin) in Hus.
  eapply (buffer_barrier_in g); [done..|]. unfold buffer_barriers_of. rewrite Hus.
  rewrite buffer_barriers_from_app. apply elem_of_app. right.
  cbn [buffer_barriers_from]. apply elem_of_app. right. apply elem_of_app. left.
  unfold buffer_use_barrier, buffer_cursor_after, buffer_transition. cbn.
  destruct Hneed as [->|[->|Hne]]; [by left|by rewrite orb_true_r; left|].
  assert (Hinfo : bai_stage (GetBufferAccessInfo (bu_access v)) <>
                    bai_stage (GetBufferAccessInfo (bu_access u)) \/
                  bai_access (GetBufferAccessInfo (bu_access v)) <>
                    bai_access (GetBufferAccessInfo (bu_access u))).
  { destruct (bu_access u), (bu_access v); first [left; discriminate|right; discriminate|done]. }
  destruct Hinfo as [Hi|Hi]; rewrite (bool_decide_false _ Hi); rewrite ?orb_true_r; by left.
Qed.

(** Two uses of image [i], or of buffer [i], with the second's pass run after the
    first's and the barrier from the one to the other before it. *)
Definition separated (out : CompileResult) (order : list PassId) (i : ResourceId)
    (u v : ImageUse) : Prop :=
  precedes order (iu_pass u) (iu_pass v) /\ transition i u v ∈ imageBarriers out.
Definition buffer_separated (out : CompileResult) (order : list PassId) (i : ResourceId)
    (u v : BufferUse) : Prop :=
  precedes order (bu_pass u) (bu_pass v) /\ buffer_transition i u v ∈ bufferBarriers out.

(** Between two uses of a resource, [u] and the later [v], every use is by a culled
    pass. *)
Definition only_culled {A} (pass : A -> PassId) (out : CompileResult) (u : A) (m : list A) (v : A)
    : Prop :=
  survives out (pass u) /\ survives out (pass v) /\ Forall (fun w => ~ survives out (pass w)) m.

Lemma filter_only_culled {A} (pass : A -> PassId) (out : CompileResult) l1 u m v l2 :
  only_culled pass out u m v ->
  filter (fun w => survives out (pass w)) (l1 ++ u :: m ++ v :: l2) =
    filter (fun w => survives out (pass w)) l1 ++ u :: v ::
    filter (fun w => survives out (pass w)) l2.
Proof.
  intros (Hu & Hv & Hm). rewrite filter_app, filter_cons_True by done.
  rewrite filter_app, filter_cons_True by done. do 2 f_equal.
  induction Hm as [|w m Hw _ IH]; [done|]. cbn [app]. by rewrite filter_cons_False.
Qed.

(** C23. Take two uses of one resource by passes that are not culled, declared one
    after the other or with only uses by culled passes between them, of which one
    writes or whose accesses differ. If from the first to the second no two
    neighbouring declarations both only read, then the first's pass runs before
    the second's, and the result holds a barrier from the stages, accesses and
    layout of the first to those of the second, to be recorded before the second's
    pass: the two are separated. If two neighbours do both only read, nothing
    makes the passes run in the order of the declarations; where they do run in
    it, the barrier separates the two uses all the same. (A reader that runs
    before the writer declared ahead of it: [Compile_reader_before_writer].) *)
Theorem Compile_synchronizes (g : Tr2RenderGraphAL) (out : CompileResult) (message : string)
    (order : list PassId) (i : nat) (r : Resource) :
  graph_ok g -> few_edges g -> Compile g = Ok (S_OK, out, message) -> pass_order g order ->
  m_resources g !! i = Some r ->
  (forall l1 u m v l2, imageUses r = l1 ++ u :: m ++ v :: l2 -> only_culled iu_pass out u m v ->
     iu_isRead u = false \/ iu_isRead v = false \/ iu_access u <> iu_access v ->
     chained (map iu_isRead (u :: m ++ [v])) \/ precedes order (iu_pass u) (iu_pass v) ->
     separated out order (Z.of_nat i) u v) /\
  (forall l1 u m v l2, bufferUses r = l1 ++ u :: m ++ v :: l2 -> only_culled bu_pass out u m v ->
     bu_isRead u = false \/ bu_isRead v = false \/ bu_access u <> bu_access v ->
     chained (map bu_isRead (u :: m ++ [v])) \/ precedes order (bu_pass u) (bu_pass v) ->
     buffer_separated out order (Z.of_nat i) u v).
Proof.
  intros Hok Hfew Hc Hord Hr. assert (Hin : r ∈ m_resources g) by by eapply list_elem_of_lookup_2.
  pose proof Hok as (_ & _ & Hres). rewrite Forall_forall in Hres.
  destruct (Hres r Hin) as (_ & _ & Hkind). split; intros l1 u m v l2 Hus Hculled Hneed Hch.
  - split.
    + destruct Hch as [Hch|]; [|done].
      apply (chained_precedes g order r (map image_touch l1) (image_touch u) (map image_touch m)
               (image_touch v) (map image_touch l2)); [done..| |].
      * unfold touches. destruct (isImage r); [by rewrite Hus, map_app; cbn; rewrite map_app|].
        rewrite (proj1 Hkind) in Hus. by destruct l1.
      * cbn [map] in *. rewrite map_app, map_map. cbn. by rewrite map_app in Hch.
    + eapply consecutive_images; [done..| |done]. unfold surviving_uses. rewrite Hus.
      by apply (filter_only_culled iu_pass).
  - split.
    + destruct Hch as [Hch|]; [|done].
      apply (chained_precedes g order r (map buffer_touch l1) (buffer_touch u) (map buffer_touch m)
               (buffer_touch v) (map buffer_touch l2)); [done..| |].
      * unfold touches. destruct (isImage r); [rewrite Hkind in Hus; by destruct l1|].
        by rewrite Hus, map_app; cbn; rewrite map_app.
      * cbn [map] in *. rewrite map_app, map_map. cbn. by rewrite map_app in Hch.
    + eapply consecutive_buffers; [done..| |done]. unfold surviving_buffer_uses. rewrite Hus.
      by apply (filter_only_culled bu_pass).
Qed.

(** ** Attachments *)

(** The attachment writes that a pass makes of one image. *)
Definition is_write (p : PassId) (access : ImageAccess.type) (u : ImageUse) : bool :=
  (iu_pass u =? p) && negb (iu_isRead u) && bool_decide (iu_access u = access).

Definition image_writes (p : PassId) (access : ImageAccess.type) (us : list ImageUse) : Z :=
  size (List.filter (is_write p access) us).

Fixpoint attachment_writes (p : PassId) (access : ImageAccess.type) (rs : list Resource) : Z :=
  match rs with
  | [] => 0
  | r :: rs => (if isImage r then image_writes p access (imageUses r) else 0)
               + attachment_writes p access rs
  end.

Definition slots (depth : bool) (l : list PassAttachment) : list Z :=
  map attachmentSlot (List.filter (fun a => eqb (pa_isDepth a) depth) l).

Lemma slots_app depth l l' : slots depth (l ++ l') = slots depth l ++ slots depth l'.
Proof. unfold slots. by rewrite List.filter_app, map_app. Qed.

Lemma image_writes_cons p access u us :
  image_writes p access (u :: us) = (if is_write p access u then 1 else 0) + image_writes p access us.
Proof. unfold image_writes, size. cbn. destruct (is_write p access u); cbn [length]; lia. Qed.

Lemma image_writes_nonneg p access us : 0 <= image_writes p access us.
Proof. unfold image_writes, size. lia. Qed.

Lemma seqZ_first k n : 0 < n -> seqZ k n = k :: seqZ (k + 1) (n - 1).
Proof. intros Hn. rewrite seqZ_cons by done. f_equal. Qed.

Lemma image_attachments_slots p i us k :
  0 <= k <= 4 ->
  let '(here, n) := image_attachments p i us k in
  let c := image_writes p ImageAccess.COLOR_ATTACHMENT us in
  n = k + Z.min (4 - k) c /\ slots false here = seqZ k (Z.min (4 - k) c) /\
  slots true here = replicate (Z.to_nat (image_writes p ImageAccess.DEPTH_ATTACHMENT us)) 4 /\
  Forall (fun a => pa_pass a = p) here.
Proof.
  revert k. induction us as [|u us IH]; intros k Hk.
  { unfold image_writes, size. cbn. rewrite Z.min_r by lia. split_and!; [lia|done|done|constructor]. }
  cbn [image_attachments]. rewrite !image_writes_cons. unfold is_write.
  pose proof (image_writes_nonneg p ImageAccess.COLOR_ATTACHMENT us) as Hc.
  pose proof (image_writes_nonneg p ImageAccess.DEPTH_ATTACHMENT us) as Hd.
  destruct (iu_pass u =? p), (iu_isRead u); cbn [negb orb andb]; rewrite ?Z.add_0_l; try by apply IH.
  destruct (iu_access u);
    repeat first [rewrite bool_decide_true by done|rewrite bool_decide_false by done];
    cbn [andb]; rewrite ?Z.add_0_l; try by apply IH.
  - destruct (Z.ltb_spec k 4).
    + specialize (IH (k + 1)). destruct (image_attachments p i us (k + 1)) as [rest n].
      destruct IH as (-> & Hs & Ht & Hf); [lia|]. split_and!; [lia| |done|by constructor].
      unfold slots in *. cbn. rewrite Hs. rewrite (seqZ_first k) by lia. do 2 f_equal. lia.
    + specialize (IH k). destruct (image_attachments p i us k) as [rest n].
      destruct IH as (-> & Hs & Ht & Hf); [lia|]. rewrite !Z.min_l in * by lia.
      split_and!; [done|done|done|done].
  - specialize (IH k Hk). destruct (image_attachments p i us k) as [rest n].
    destruct IH as (-> & Hs & Ht & Hf). split_and!; [done|done| |by constructor].
    rewrite Z2Nat.inj_add by lia. unfold slots in *. cbn. by rewrite Ht.
Qed.

Lemma attachment_writes_nonneg p access rs : 0 <= attachment_writes p access rs.
Proof.
  induction rs as [|r rs IH]; cbn; [done|].
  pose proof (image_writes_nonneg p access (imageUses r)). destruct (isImage r); lia.
Qed.

Lemma pass_attachments_slots p i rs k :
  0 <= k <= 4 ->
  slots false (pass_attachments p i rs k) =
    seqZ k (Z.min (4 - k) (attachment_writes p ImageAccess.COLOR_ATTACHMENT rs)) /\
  slots true (pass_attachments p i rs k) =
    replicate (Z.to_nat (attachment_writes p ImageAccess.DEPTH_ATTACHMENT rs)) 4 /\
  Forall (fun a => pa_pass a = p) (pass_attachments p i rs k).
Proof.
  revert i k. induction rs as [|r rs IH]; intros i k Hk.
  { cbn. rewrite Z.min_r by lia. split_and!; [done..|constructor]. }
  cbn [pass_attachments attachment_writes].
  pose proof (attachment_writes_nonneg p ImageAccess.COLOR_ATTACHMENT rs) as Hc.
  pose proof (attachment_writes_nonneg p ImageAccess.DEPTH_ATTACHMENT rs) as Hd.
  destruct (isImage r); cbn [negb]; [|by rewrite !Z.add_0_l; apply IH].
  pose proof (image_attachments_slots p i (imageUses r) k Hk) as Hhere.
  destruct (image_attachments p i (imageUses r) k) as [here n]. destruct Hhere as (-> & Hs & Ht & Hf).
  pose proof (image_writes_nonneg p ImageAccess.COLOR_ATTACHMENT (imageUses r)) as Hic.
  pose proof (image_writes_nonneg p ImageAccess.DEPTH_ATTACHMENT (imageUses r)) as Hid.
  edestruct (IH (i + 1)) as (Hs' & Ht' & Hf'); [|split_and!].
  2: { rewrite slots_app, Hs, Hs', <- seqZ_app by lia. f_equal. lia. }
  2: { by rewrite slots_app, Ht, Ht', <- replicate_add, <- Z2Nat.inj_add by lia. }
  2: { by apply Forall_app. }
  lia.
Qed.

Lemma filter_pass_none p q l :
  q <> p -> Forall (fun a => pa_pass a = q) l -> List.filter (fun a => pa_pass a =? p) l = [].
Proof.
  intros Hne. induction 1 as [|a l Ha _ IH]; [done|]. cbn. rewrite Ha.
  by rewrite (proj2 (Z.eqb_neq _ _) Hne).
Qed.

Lemma filter_pass_all p l :
  Forall (fun a => pa_pass a = p) l -> List.filter (fun a => pa_pass a =? p) l = l.
Proof. induction 1 as [|a l Ha _ IH]; [done|]. cbn. by rewrite Ha, Z.eqb_refl, IH. Qed.

Lemma attachments_of_pass rs k surviving p :
  k <= p -> List.filter (fun a => pa_pass a =? p) (attachments rs k surviving) =
    if default false (surviving !! Z.to_nat (p - k)) then pass_attachments p 0 rs 0 else [].
Proof.
  revert k. induction surviving as [|b surviving IH]; intros k Hk; [done|].
  cbn [attachments]. rewrite List.filter_app.
  destruct (pass_attachments_slots k 0 rs 0) as (_ & _ & Hf); [lia|].
  destruct (Z.eq_dec p k) as [->|Hne].
  - rewrite Z.sub_diag. cbn. replace (List.filter _ (attachments rs (k + 1) surviving)) with (@nil PassAttachment).
    + rewrite app_nil_r. destruct b; [by apply filter_pass_all|done].
    + symmetry. clear. assert (Hgt : forall j, k < j ->
        List.filter (fun a => pa_pass a =? k) (attachments rs j surviving) = []).
      { induction surviving as [|b surviving IH]; intros j Hj; [done|]. cbn [attachments].
        rewrite List.filter_app, IH by lia.
        destruct (pass_attachments_slots j 0 rs 0) as (_ & _ & Hf); [lia|].
        destruct b; [by rewrite (filter_pass_none k j) by (lia || done)|done]. }
      apply Hgt. lia.
  - rewrite IH by lia. replace (Z.to_nat (p - k)) with (S (Z.to_nat (p - (k + 1)))) by lia. cbn.
    destruct b; [by rewrite (filter_pass_none p k) by (lia || done)|done].
Qed.

(** The attachments of a surviving pass: its color writes fill the slots 0
    to 3 in the order of the resources, those beyond the fourth are dropped, and
    every depth write has slot 4. A culled pass has none. *)
Theorem Compile_attachments (g : Tr2RenderGraphAL) (out : CompileResult) (message : string)
    (p : PassId) :
  graph_ok g -> few_edges g -> Compile g = Ok (S_OK, out, message) -> 0 <= p < size (m_passes g) ->
  let mine := List.filter (fun a => pa_pass a =? p) (passAttachments out) in
  if decide (survives out p) then
    slots false mine =
      seqZ 0 (Z.min 4 (attachment_writes p ImageAccess.COLOR_ATTACHMENT (m_resources g))) /\
    slots true mine =
      replicate (Z.to_nat (attachment_writes p ImageAccess.DEPTH_ATTACHMENT (m_resources g))) 4
  else mine = [].
Proof.
  intros Hok Hfew Hc Hp mine.
  destruct (Compile_compiled _ _ _ Hok Hfew Hc) as (_ & _ & order & surviving & Hcomp).
  assert (Hin : p ∈ order) by by apply (order_elem g); [apply Hcomp|].
  pose proof (compiled_survives _ _ _ _ _ Hcomp Hin) as Hs.
  subst mine. rewrite (c_attachments _ _ _ _ Hcomp), attachments_of_pass by lia.
  rewrite Z.sub_0_r. fold (alive surviving p). destruct (decide (survives out p)) as [Ha|Ha].
  - apply Hs in Ha as ->. destruct (pass_attachments_slots p 0 (m_resources g) 0) as (-> & -> & _); [lia|done].
  - destruct (alive surviving p); [|done]. by destruct Ha; apply Hs.
Qed.

(** ** Examples

    A frame: a texture is uploaded, a prepass fills the depth buffer, the scene
    samples the texture into the presented image, and a debug pass writes an
    image that nobody reads. *)

Definition color_desc : ImageDesc := mkImageDesc 800 600 44 VK_IMAGE_LAYOUT_UNDEFINED false.
Definition depth_desc : ImageDesc := mkImageDesc 800 600 126 VK_IMAGE_LAYOUT_UNDEFINED true.

Definition frame_declarations : list declaration :=
  [DAddImage (Some "backbuffer") color_desc; DAddImage (Some "texture") color_desc;
   DAddBuffer (Some "vertices") (mkBufferDesc 4096); DAddImage (Some "scratch") color_desc;
   DAddPass (Some "upload") GRAPHICS; DAddPass (Some "scene") GRAPHICS;
   DAddPass (Some "debug") GRAPHICS;
   DWritesImage 0 1 ImageAccess.TRANSFER_WRITE; DWritesBuffer 0 2 BufferAccess.TRANSFER_WRITE;
   DReadsImage 1 1 ImageAccess.SHADER_READ; DReadsBuffer 1 2 BufferAccess.VERTEX_READ;
   DWritesImage 1 0 ImageAccess.COLOR_ATTACHMENT; DWritesImage 2 3 ImageAccess.COLOR_ATTACHMENT;
   DClear 1 0 VK_ATTACHMENT_LOAD_OP_CLEAR zero_clear; DPresented 0; DCullable 2].

Definition frame_graph : Tr2RenderGraphAL :=
  Eval vm_compute in (declare_all frame_declarations new_Tr2RenderGraphAL).2.

Definition frame_result : CompileResult :=
  Eval vm_compute in match Compile frame_graph with Ok (_, out, _) => out | _ => new_CompileResult end.

Lemma frame_graph_ok : graph_ok frame_graph.
Proof.
  split_and!; [by vm_compute|by vm_compute|].
  repeat constructor; cbn; try done; unfold in_range; lia.
Qed.

Lemma frame_few_edges : few_edges frame_graph.
Proof. by vm_compute. Qed.

Lemma frame_compiles : Compile frame_graph = Ok (S_OK, frame_result, "").
Proof. vm_compute. reflexivity. Qed.

Lemma frame_order : pass_order frame_graph [0; 1; 2].
Proof.
  destruct (Compile_compiled _ _ _ frame_graph_ok frame_few_edges frame_compiles)
    as (_ & _ & order & surviving & Hcomp).
  assert (Hord : pass_order frame_graph order) by apply Hcomp.
  replace [0; 1; 2] with order; [done|].
  apply (least_first_increasing 3 (graph_edges frame_graph)); [|apply Hord..].
  intros p q Hpq. unfold edge in Hpq. cbn in Hpq. set_solver by lia.
Qed.

Lemma declarations_well_formed_witness :
  Forall unsigned frame_declarations /\
  exists g, declare_all frame_declarations new_Tr2RenderGraphAL = (Ok tt, g) /\ graph_ok g.
Proof.
  assert (Hu : Forall unsigned frame_declarations) by by repeat constructor.
  split; [done|]. apply (declarations_well_formed frame_declarations Hu).
Defined.

Lemma Compile_accepts_witness :
  (accepted frame_graph /\ exists out, Compile frame_graph = Ok (S_OK, out, "")) \/
  (~ accepted frame_graph /\ exists message, message <> "" /\
     Compile frame_graph = Ok (E_INVALIDCALL, new_CompileResult, message)).
Proof. apply (Compile_accepts frame_graph frame_graph_ok frame_few_edges). Defined.

Lemma Compile_order_witness : exists order, pass_order frame_graph order /\ order ≡ₚ [0; 1; 2].
Proof.
  destruct (Compile_order frame_graph frame_result "" frame_graph_ok frame_few_edges frame_compiles)
    as (order & Hord & Hperm & _).
  exists order. split; [exact Hord|exact Hperm].
Defined.

Lemma Compile_culling_witness :
  survives frame_result 2 <-> needed frame_graph (fun q => q ∈ [] /\ survives frame_result q) 2.
Proof.
  apply (Compile_culling frame_graph frame_result "" [0; 1; 2] [0; 1] 2 [] frame_graph_ok
           frame_few_edges frame_compiles frame_order eq_refl).
Defined.

Lemma Compile_synchronizes_witness :
  separated frame_result [0; 1; 2] 1 (new_ImageUse 0 false ImageAccess.TRANSFER_WRITE)
    (new_ImageUse 1 true ImageAccess.SHADER_READ).
Proof.
  destruct (Compile_synchronizes frame_graph frame_result "" [0; 1; 2] 1
              (default (mkResource "" true new_ImageDesc new_BufferDesc false [] [])
                 (m_resources frame_graph !! 1%nat)) frame_graph_ok frame_few_edges frame_compiles
              frame_order)
    as [Hi _]; [reflexivity|].
  apply (Hi [] _ [] _ []); [reflexivity| |by left|by left].
  split_and!; [reflexivity..|constructor].
Defined.

Lemma Compile_attachments_witness :
  slots false (List.filter (fun a => pa_pass a =? 1) (passAttachments frame_result)) = [0] /\
  List.filter (fun a => pa_pass a =? 2) (passAttachments frame_result) = [].
Proof.
  pose proof (Compile_attachments frame_graph frame_result "" 1 frame_graph_ok frame_few_edges
                frame_compiles ltac:(vm_compute; split; congruence)) as H1.
  pose proof (Compile_attachments frame_graph frame_result "" 2 frame_graph_ok frame_few_edges
                frame_compiles ltac:(vm_compute; split; congruence)) as H2.
  split; [apply H1|exact H2].
Defined.

(** ** What the graph does not order or keep *)

(** A graph in which the image of pass 1 is read by pass 2 and then by pass 0. *)
Definition late_graph : Tr2RenderGraphAL :=
  Eval vm_compute in
    (declare_all
       [DAddImage (Some "shadow") color_desc; DAddPass (Some "reflections") GRAPHICS;
        DAddPass (Some "shadow") GRAPHICS; DAddPass (Some "scene") GRAPHICS;
        DWritesImage 1 0 ImageAccess.COLOR_ATTACHMENT; DReadsImage 2 0 ImageAccess.SHADER_READ;
        DReadsImage 0 0 ImageAccess.SHADER_READ] new_Tr2RenderGraphAL).2.

(** No dependency ties the second of two consecutive readers to the writer
    before them: this graph, in which pass 0 is declared to read what pass 1
    writes, compiles without an error, pass 0 runs first and no barrier precedes
    it, so it reads the image before it is written and in an undefined layout. *)
Theorem Compile_reader_before_writer :
  graph_ok late_graph /\
  exists out, Compile late_graph = Ok (S_OK, out, "") /\
    map orderIndex (passes out) = [0; 1; 2] /\
    Forall (fun b => ib_beforePass b <> 0) (imageBarriers out).
Proof.
  split.
  - split_and!; [by vm_compute|by vm_compute|].
    repeat constructor; cbn; try done; unfold in_range; lia.
  - eexists. split; [vm_compute; reflexivity|]. split; [reflexivity|]. by repeat constructor.
Qed.

(** A depth prepass that may be culled, and the scene that loads its depth. *)
Definition prepass_graph : Tr2RenderGraphAL :=
  Eval vm_compute in
    (declare_all
       [DAddImage (Some "depth") depth_desc; DAddPass (Some "prepass") GRAPHICS;
        DAddPass (Some "scene") GRAPHICS; DCullable 0;
        DWritesImage 0 0 ImageAccess.DEPTH_ATTACHMENT;
        DClear 0 0 VK_ATTACHMENT_LOAD_OP_CLEAR zero_clear;
        DWritesImage 1 0 ImageAccess.DEPTH_ATTACHMENT] new_Tr2RenderGraphAL).2.

(** A pass whose output a surviving pass loads is culled all the same: here
    the prepass that clears the depth buffer is dropped, and the scene loads the
    contents of an image that nothing wrote. *)
Theorem Compile_culls_loaded :
  graph_ok prepass_graph /\
  exists out, Compile prepass_graph = Ok (S_OK, out, "") /\ ~ survives out 0 /\ survives out 1 /\
    map (fun a => (pa_pass a, pa_loadOp a)) (passAttachments out) = [(1, VK_ATTACHMENT_LOAD_OP_LOAD)] /\
    map (fun b => (ib_beforePass b, oldLayout b)) (imageBarriers out) =
      [(1, VK_IMAGE_LAYOUT_UNDEFINED)].
Proof.
  split.
  - split_and!; [by vm_compute|by vm_compute|].
    repeat constructor; cbn; try done; unfold in_range; lia.
  - eexists. split; [vm_compute; reflexivity|]. by split_and!.
Qed.
