(* ===== verification/GraphRecorder.v ===== *)
(** * Recording a compiled graph

    The part of [src/src/trinityal-vulkan/Tr2RenderContextVulkan.cpp] that records
    a frame from a compiled graph: [BeginGraphFrame], [SetGraphResult],
    [RegisterGraphTexture], [RegisterGraphBuffer], [BeginGraphPass],
    [EndGraphPass] and [EndGraphFrame], and the members of [Tr2TextureAL] and
    [Tr2BufferAL] they use.

    The state is the members of the render context the functions touch, the
    texture and buffer objects (by identity, since two resources may be
    registered with one object), and the commands recorded so far. *)

From stdpp Require Import base numbers list option strings gmap.
From S2P Require Import Prelude RenderGraph.

#[local] Open Scope Z_scope.

(** The two enumerators of [Tr2RenderContextEnum::ColorSpace] that the code
    names: their values are the engine's. *)
Class ColorSpaces := { COLOR_SPACE_LINEAR : Z; COLOR_SPACE_SRGB : Z }.

(** [Tr2TextureAL]: handles are numbers and [VK_NULL_HANDLE] is 0. *)
Record Tr2TextureAL := mkTr2TextureAL
  { m_image : Z; m_linearView : Z; m_srgbView : Z; m_layout : VkImageLayout }.

Record Tr2BufferAL := mkTr2BufferAL { m_buffer : Z }.

Definition VK_NULL_HANDLE : Z := 0.

Definition Texture_IsValid (t : Tr2TextureAL) : bool := negb (m_image t =? VK_NULL_HANDLE).
Definition Buffer_IsValid (b : Tr2BufferAL) : bool := negb (m_buffer b =? VK_NULL_HANDLE).
Definition SetLayout (layout : VkImageLayout) (t : Tr2TextureAL) : Tr2TextureAL :=
  mkTr2TextureAL (m_image t) (m_linearView t) (m_srgbView t) layout.

Record AttachmentInfo := mkAttachmentInfo
  { imageView : Z; imageLayout : VkImageLayout; loadOp : VkAttachmentLoadOp;
    storeOp : VkAttachmentStoreOp; clearValue : VkClearValue }.

(** What is recorded into the command buffer. *)
Inductive command :=
| CmdImageBarrier (image : Z) (srcStage : VkPipelineStageFlags2) (srcAccess : VkAccessFlags2)
    (dstStage : VkPipelineStageFlags2) (dstAccess : VkAccessFlags2)
    (oldLayout newLayout : VkImageLayout)
| CmdBufferBarrier (buffer : Z) (srcStage : VkPipelineStageFlags2) (srcAccess : VkAccessFlags2)
    (dstStage : VkPipelineStageFlags2) (dstAccess : VkAccessFlags2)
| CmdBeginRendering (area : Z * Z) (colors : list AttachmentInfo) (depth : option AttachmentInfo)
| CmdSetScissor (area : Z * Z)
| CmdEndRendering.

(** A wrapper refers to an object, or to the shared null object, which is never
    valid. *)
Definition handle : Type := option Z.

Record Recorder := mkRecorder
  { m_graphFrameActive : bool; m_graph : CompileResult;
    m_graphTextures : list handle; m_graphColorSpaces : list Z; m_graphBuffers : list handle;
    m_graphResourceIsImage : list bool; m_graphLayouts : list VkImageLayout;
    m_graphActivePass : PassId; m_graphPassHasRendering : bool; m_renderingActive : bool;
    extent : Z * Z;
    texture_objects : gmap Z Tr2TextureAL; buffer_objects : gmap Z Tr2BufferAL;
    commands : list command }.

(** The members a frame starts with. *)
Definition set_frame (active : bool) (s : Recorder) : Recorder :=
  mkRecorder active (m_graph s) (m_graphTextures s) (m_graphColorSpaces s) (m_graphBuffers s)
    (m_graphResourceIsImage s) (m_graphLayouts s) (m_graphActivePass s)
    (m_graphPassHasRendering s) (m_renderingActive s) (extent s) (texture_objects s)
    (buffer_objects s) (commands s).

Definition set_graph (graph : CompileResult) (s : Recorder) : Recorder :=
  mkRecorder (m_graphFrameActive s) graph (m_graphTextures s) (m_graphColorSpaces s)
    (m_graphBuffers s) (m_graphResourceIsImage s) (m_graphLayouts s) (m_graphActivePass s)
    (m_graphPassHasRendering s) (m_renderingActive s) (extent s) (texture_objects s)
    (buffer_objects s) (commands s).

Definition set_registered (textures : list handle) (spaces : list Z) (buffers : list handle)
    (images : list bool) (layouts : list VkImageLayout) (s : Recorder) : Recorder :=
  mkRecorder (m_graphFrameActive s) (m_graph s) textures spaces buffers images layouts
    (m_graphActivePass s) (m_graphPassHasRendering s) (m_renderingActive s) (extent s)
    (texture_objects s) (buffer_objects s) (commands s).

Definition set_layouts (layouts : list VkImageLayout) (s : Recorder) : Recorder :=
  set_registered (m_graphTextures s) (m_graphColorSpaces s) (m_graphBuffers s)
    (m_graphResourceIsImage s) layouts s.

Definition set_active (pass : PassId) (rendering : bool) (s : Recorder) : Recorder :=
  mkRecorder (m_graphFrameActive s) (m_graph s) (m_graphTextures s) (m_graphColorSpaces s)
    (m_graphBuffers s) (m_graphResourceIsImage s) (m_graphLayouts s) pass rendering
    (m_renderingActive s) (extent s) (texture_objects s) (buffer_objects s) (commands s).

Definition set_rendering (b : bool) (s : Recorder) : Recorder :=
  mkRecorder (m_graphFrameActive s) (m_graph s) (m_graphTextures s) (m_graphColorSpaces s)
    (m_graphBuffers s) (m_graphResourceIsImage s) (m_graphLayouts s) (m_graphActivePass s)
    (m_graphPassHasRendering s) b (extent s) (texture_objects s) (buffer_objects s) (commands s).

Definition set_texture (id : Z) (t : Tr2TextureAL) (s : Recorder) : Recorder :=
  mkRecorder (m_graphFrameActive s) (m_graph s) (m_graphTextures s) (m_graphColorSpaces s)
    (m_graphBuffers s) (m_graphResourceIsImage s) (m_graphLayouts s) (m_graphActivePass s)
    (m_graphPassHasRendering s) (m_renderingActive s) (extent s) (<[id := t]> (texture_objects s))
    (buffer_objects s) (commands s).

Definition emit (c : command) (s : Recorder) : Recorder :=
  mkRecorder (m_graphFrameActive s) (m_graph s) (m_graphTextures s) (m_graphColorSpaces s)
    (m_graphBuffers s) (m_graphResourceIsImage s) (m_graphLayouts s) (m_graphActivePass s)
    (m_graphPassHasRendering s) (m_renderingActive s) (extent s) (texture_objects s)
    (buffer_objects s) (commands s ++ [c]).

(** The valid object a wrapper refers to: [texture == nullptr ||
    !texture->IsValid()] is its absence. *)
Definition valid_texture (h : handle) (s : Recorder) : option (Z * Tr2TextureAL) :=
  id ← h; t ← texture_objects s !! id; if Texture_IsValid t then Some (id, t) else None.
Definition valid_buffer (h : handle) (s : Recorder) : option Tr2BufferAL :=
  id ← h; b ← buffer_objects s !! id; if Buffer_IsValid b then Some b else None.

(** ** Frames and registration *)

Definition BeginGraphFrame : M Recorder ALResult :=
  modify (set_frame false);;
  modify (set_graph new_CompileResult);;
  modify (set_registered [] [] [] [] []);;
  modify (fun s => set_active INVALID_PASS (m_graphPassHasRendering s) s);;
  modify (set_frame true);;
  mret S_OK.

Definition SetGraphResult (result : CompileResult) : M Recorder ALResult :=
  modify (set_graph result);; mret S_OK.

(** [v.resize( n, x )]. *)
Definition vec_resize {A} (n : Z) (x : A) (v : list A) : list A :=
  take (Z.to_nat n) v ++ replicate (Z.to_nat n - length v) x.

(** [v[index] = x]. *)
Definition vec_assign {A} (index : Z) (x : A) (v : list A) : res (list A) :=
  if index <? size v then Ok (vec_set index x v) else Undefined.

(** The five vectors grow together; [resource + 1] is 32 bits wide. *)
Definition grow (resource : ResourceId) : M Recorder unit :=
  let n := u32 (resource + 1) in
  modify (fun s =>
    set_registered (vec_resize n None (m_graphTextures s)) (vec_resize n 0 (m_graphColorSpaces s))
      (vec_resize n None (m_graphBuffers s)) (vec_resize n false (m_graphResourceIsImage s))
      (vec_resize n VK_IMAGE_LAYOUT_UNDEFINED (m_graphLayouts s)) s).

(** The layout member of the object a wrapper refers to; the null object has
    the initial one. *)
Definition handle_layout (h : handle) (s : Recorder) : VkImageLayout :=
  match h ≫= (texture_objects s !!.) with
  | Some t => m_layout t
  | None => VK_IMAGE_LAYOUT_UNDEFINED
  end.

Definition RegisterGraphTexture (resource : ResourceId) (texture : handle) (colorSpace : Z)
    : M Recorder ALResult :=
  s ← get;
  if negb (m_graphFrameActive s) then mret E_INVALIDCALL
  else
    (if size (m_graphTextures s) <=? resource then grow resource else mret tt);;
    s ← get;
    textures ← lift (vec_assign resource texture (m_graphTextures s));
    spaces ← lift (vec_assign resource colorSpace (m_graphColorSpaces s));
    images ← lift (vec_assign resource true (m_graphResourceIsImage s));
    layouts ← lift (vec_assign resource (handle_layout texture s) (m_graphLayouts s));
    modify (set_registered textures spaces (m_graphBuffers s) images layouts);;
    mret S_OK.

Definition RegisterGraphBuffer (resource : ResourceId) (buffer : handle) : M Recorder ALResult :=
  s ← get;
  if negb (m_graphFrameActive s) then mret E_INVALIDCALL
  else
    (if size (m_graphBuffers s) <=? resource then grow resource else mret tt);;
    s ← get;
    buffers ← lift (vec_assign resource buffer (m_graphBuffers s));
    images ← lift (vec_assign resource false (m_graphResourceIsImage s));
    modify (set_registered (m_graphTextures s) (m_graphColorSpaces s) buffers images
              (m_graphLayouts s));;
    mret S_OK.

(** ** Passes *)

Section recording.
Context `{ColorSpaces}.

Definition GetView (colorSpace : Z) (t : Tr2TextureAL) : Z :=
  if (colorSpace =? COLOR_SPACE_SRGB) && negb (m_srgbView t =? VK_NULL_HANDLE)
  then m_srgbView t else m_linearView t.

(** The loop over the image barriers: [false] when it returns early. *)
Fixpoint emit_image_barriers (pass : PassId) (barriers : list ImageBarrier) : M Recorder bool :=
  match barriers with
  | [] => mret true
  | barrier :: barriers =>
      if negb (ib_beforePass barrier =? pass) then emit_image_barriers pass barriers
      else
        s ← get;
        h ← lift (vec_at (m_graphTextures s) (ib_resource barrier));
        match valid_texture h s with
        | None => mret false
        | Some (id, texture) =>
            modify (emit (CmdImageBarrier (m_image texture) (ib_srcStage barrier)
              (ib_srcAccess barrier) (ib_dstStage barrier) (ib_dstAccess barrier)
              (oldLayout barrier) (newLayout barrier)));;
            layouts ← lift (vec_assign (ib_resource barrier) (newLayout barrier) (m_graphLayouts s));
            modify (set_layouts layouts);;
            modify (set_texture id (SetLayout (newLayout barrier) texture));;
            emit_image_barriers pass barriers
        end
  end.

Fixpoint emit_buffer_barriers (pass : PassId) (barriers : list BufferBarrier) : M Recorder bool :=
  match barriers with
  | [] => mret true
  | barrier :: barriers =>
      if negb (bb_beforePass barrier =? pass) then emit_buffer_barriers pass barriers
      else
        s ← get;
        h ← lift (vec_at (m_graphBuffers s) (bb_resource barrier));
        match valid_buffer h s with
        | None => mret false
        | Some buffer =>
            modify (emit (CmdBufferBarrier (m_buffer buffer) (bb_srcStage barrier)
              (bb_srcAccess barrier) (bb_dstStage barrier) (bb_dstAccess barrier)));;
            emit_buffer_barriers pass barriers
        end
  end.

(** The variables of the loop over the attachments. *)
Record Attached := mkAttached
  { att_colors : list AttachmentInfo; att_depth : option AttachmentInfo; hasAttachment : bool }.

Fixpoint attach (pass : PassId) (l : list PassAttachment) (a : Attached)
    : M Recorder (option Attached) :=
  match l with
  | [] => mret (Some a)
  | attachment :: l =>
      if negb (pa_pass attachment =? pass) then attach pass l a
      else
        s ← get;
        h ← lift (vec_at (m_graphTextures s) (pa_image attachment));
        match valid_texture h s with
        | None => mret None
        | Some (_, texture) =>
            if pa_isDepth attachment then
              attach pass l (mkAttached (att_colors a)
                (Some (mkAttachmentInfo (GetView COLOR_SPACE_LINEAR texture)
                   VK_IMAGE_LAYOUT_DEPTH_STENCIL_ATTACHMENT_OPTIMAL (pa_loadOp attachment)
                   (pa_storeOp attachment) (pa_clearValue attachment))) true)
            else
              space ← lift (vec_at (m_graphColorSpaces s) (pa_image attachment));
              attach pass l (mkAttached
                (att_colors a ++ [mkAttachmentInfo (GetView space texture)
                   VK_IMAGE_LAYOUT_COLOR_ATTACHMENT_OPTIMAL (pa_loadOp attachment)
                   (pa_storeOp attachment) (pa_clearValue attachment)]) (att_depth a) true)
        end
  end.

Definition BeginGraphPass (pass : PassId) : M Recorder ALResult :=
  s ← get;
  if negb (m_graphFrameActive s) then mret E_INVALIDCALL
  else if negb (m_graphActivePass s =? INVALID_PASS) then mret E_INVALIDCALL
  else
    ok ← emit_image_barriers pass (imageBarriers (m_graph s));
    if negb ok then mret E_INVALIDCALL
    else
      ok ← emit_buffer_barriers pass (bufferBarriers (m_graph s));
      if negb ok then mret E_INVALIDCALL
      else
        attached ← attach pass (passAttachments (m_graph s)) (mkAttached [] None false);
        match attached with
        | None => mret E_INVALIDCALL
        | Some a =>
            modify (fun s => set_active (m_graphActivePass s) (hasAttachment a) s);;
            (if hasAttachment a then
               modify (emit (CmdBeginRendering (extent s) (att_colors a) (att_depth a)));;
               modify (emit (CmdSetScissor (extent s)))
             else mret tt);;
            modify (fun s => set_active pass (m_graphPassHasRendering s) s);;
            mret S_OK
        end.
End recording.

Definition EndGraphPass : M Recorder ALResult :=
  s ← get;
  if m_graphActivePass s =? INVALID_PASS then mret E_INVALIDCALL
  else
    (if m_graphPassHasRendering s then modify (emit CmdEndRendering) else mret tt);;
    modify (set_active INVALID_PASS false);;
    mret S_OK.

(** The early return of [EndGraphFrame] on a failed [EndGraphPass] is kept,
    although the guard excludes it. *)
Definition EndGraphFrame : M Recorder ALResult :=
  s ← get;
  if negb (m_graphFrameActive s) then mret E_INVALIDCALL
  else
    result ← (if negb (m_graphActivePass s =? INVALID_PASS) then EndGraphPass else mret S_OK);
    match result with
    | S_OK =>
        modify (set_frame false);;
        modify (fun s => set_active INVALID_PASS (m_graphPassHasRendering s) s);;
        modify (set_rendering false);;
        mret S_OK
    | failed => mret failed
    end.
