(* ===== verification/GraphRecorderSpec.v ===== *)
(** * Compiled graphs as they are recorded

    [RenderGraph] and [GraphRecorder] composed: recording the passes of a
    compiled graph in its order brings every image into the layout each pass
    declared, through barriers that start from the layout the image is in. *)

From stdpp Require Import base numbers list option strings gmap relations sorting.
From S2P Require Import Prelude RenderGraph RenderGraphOrder RenderGraphSpec GraphRecorder.

#[local] Open Scope Z_scope.

(** ** Lists without duplicates *)

Lemma NoDup_split_unique {A} (p : A) l1 l2 k1 k2 :
  NoDup (l1 ++ p :: l2) -> l1 ++ p :: l2 = k1 ++ p :: k2 -> l1 = k1 /\ l2 = k2.
Proof.
  revert k1. induction l1 as [|x l1 IH]; intros [|y k1] Hnd [= Heq]; subst; cbn in *.
  - done.
  - apply NoDup_cons in Hnd as [Hnd _]. set_solver.
  - apply NoDup_cons in Hnd as [Hnd _]. set_solver.
  - apply NoDup_cons in Hnd as [_ Hnd]. destruct (IH k1 Hnd) as [-> ->]; done.
Qed.

(** Around an element both have, a sublist's parts lie in the list's parts. *)
Lemma sublist_around {A} (p : A) a b l1 l2 :
  NoDup (l1 ++ p :: l2) -> a ++ p :: b `sublist_of` l1 ++ p :: l2 ->
  (forall x, x ∈ a -> x ∈ l1) /\ (forall x, x ∈ b -> x ∈ l2).
Proof.
  intros Hnd (E1 & E2 & Heq & Ha & Hb)%sublist_app_l.
  apply sublist_cons_l in Hb as (F1 & F2 & -> & Hb).
  rewrite app_assoc in Heq. destruct (NoDup_split_unique p l1 l2 (E1 ++ F1) F2) as [-> ->]; [done..|].
  apply sublist_submseteq in Ha, Hb. split; intros x Hx.
  - apply elem_of_app. left. by eapply elem_of_submseteq.
  - by eapply elem_of_submseteq.
Qed.

(** ** The recorder's view of the images *)

Definition layout_of (s : Recorder) (i : nat) : option VkImageLayout :=
  h ← m_graphTextures s !! i; id ← h; m_layout <$> texture_objects s !! id.

(** What [s'] keeps of [s] while a pass is begun or ended. *)
Record keeps (s s' : Recorder) : Prop := mkKeeps
  { k_frame : m_graphFrameActive s' = m_graphFrameActive s;
    k_graph : m_graph s' = m_graph s;
    k_textures : m_graphTextures s' = m_graphTextures s;
    k_spaces : m_graphColorSpaces s' = m_graphColorSpaces s;
    k_buffers : m_graphBuffers s' = m_graphBuffers s;
    k_layouts : length (m_graphLayouts s') = length (m_graphLayouts s);
    k_buffer_objects : buffer_objects s' = buffer_objects s;
    k_objects : forall id t, texture_objects s !! id = Some t ->
      exists layout, texture_objects s' !! id = Some (SetLayout layout t) }.

Lemma SetLayout_same t : SetLayout (m_layout t) t = t.
Proof. by destruct t. Qed.

Lemma keeps_refl s : keeps s s.
Proof. split; try done. intros id t Ht. exists (m_layout t). by rewrite SetLayout_same. Qed.

Lemma keeps_trans s1 s2 s3 : keeps s1 s2 -> keeps s2 s3 -> keeps s1 s3.
Proof.
  intros [] []. split; try congruence. intros id t Ht.
  destruct (k_objects0 id t Ht) as [l Hl]. destruct (k_objects1 _ _ Hl) as [l' Hl'].
  by exists l'.
Qed.

(** What the objects and registrations are is all that [keeps] looks at. *)
Lemma keeps_view s s' :
  m_graphFrameActive s' = m_graphFrameActive s -> m_graph s' = m_graph s ->
  m_graphTextures s' = m_graphTextures s -> m_graphColorSpaces s' = m_graphColorSpaces s ->
  m_graphBuffers s' = m_graphBuffers s -> m_graphLayouts s' = m_graphLayouts s ->
  buffer_objects s' = buffer_objects s -> texture_objects s' = texture_objects s -> keeps s s'.
Proof.
  intros. split; try done; [congruence|]. intros id t Ht. exists (m_layout t).
  rewrite SetLayout_same. congruence.
Qed.

(** Every declared resource is registered with a valid object, the images with
    different ones. *)
Record registered (g : Tr2RenderGraphAL) (s : Recorder) : Prop := mkRegistered
  { reg_images : forall i r, m_resources g !! i = Some r -> isImage r = true ->
      exists id t, m_graphTextures s !! i = Some (Some id) /\
        texture_objects s !! id = Some t /\ Texture_IsValid t = true;
    reg_distinct : forall i j id, m_graphTextures s !! i = Some (Some id) ->
      m_graphTextures s !! j = Some (Some id) -> i = j;
    reg_buffers : forall i r, m_resources g !! i = Some r -> isImage r = false ->
      exists id b, m_graphBuffers s !! i = Some (Some id) /\
        buffer_objects s !! id = Some b /\ Buffer_IsValid b = true;
    reg_spaces : (length (m_resources g) <= length (m_graphColorSpaces s))%nat;
    reg_layouts : (length (m_resources g) <= length (m_graphLayouts s))%nat }.

Lemma registered_keeps g s s' : registered g s -> keeps s s' -> registered g s'.
Proof.
  intros [] []. split.
  - intros i r Hr Hi. destruct (reg_images0 i r Hr Hi) as (id & t & Hid & Ht & Hv).
    destruct (k_objects0 id t Ht) as [l Hl]. exists id, (SetLayout l t).
    by rewrite k_textures0.
  - by rewrite k_textures0.
  - rewrite k_buffers0, k_buffer_objects0. done.
  - by rewrite k_spaces0.
  - by rewrite k_layouts0.
Qed.

(** ** One barrier *)

(** The state after the barrier [b] of the texture [t] registered as [id]. *)
Definition apply_barrier (b : ImageBarrier) (id : Z) (t : Tr2TextureAL) (s : Recorder) : Recorder :=
  set_texture id (SetLayout (newLayout b) t)
    (set_layouts (vec_set (ib_resource b) (newLayout b) (m_graphLayouts s))
      (emit (CmdImageBarrier (m_image t) (ib_srcStage b) (ib_srcAccess b) (ib_dstStage b)
               (ib_dstAccess b) (oldLayout b) (newLayout b)) s)).

Section recorded.
Context (g : Tr2RenderGraphAL).

Lemma apply_barrier_keeps b id t s :
  texture_objects s !! id = Some t -> keeps s (apply_barrier b id t s).
Proof.
  intros Ht. split; cbn; try done; [by rewrite length_vec_set|].
  intros id' t' Ht'. destruct (decide (id' = id)) as [->|Hne].
  - rewrite lookup_insert_eq. exists (newLayout b). congruence.
  - rewrite lookup_insert_ne by done. exists (m_layout t'). by rewrite SetLayout_same.
Qed.

Lemma apply_barrier_layout b id t s i j :
  registered g s -> m_graphTextures s !! i = Some (Some id) ->
  layout_of (apply_barrier b id t s) j = if decide (j = i) then Some (newLayout b) else layout_of s j.
Proof.
  intros Hreg Hi. unfold layout_of. cbn. destruct (decide (j = i)) as [->|Hne].
  - by rewrite Hi; cbn; rewrite lookup_insert_eq.
  - destruct (m_graphTextures s !! j) as [[id'|]|] eqn:Hj; try done. cbn.
    rewrite lookup_insert_ne; [done|]. intros ->. by apply Hne, (reg_distinct _ _ Hreg j i id').
Qed.

(** Emitting one barrier of a registered image. *)
Lemma emit_image_barrier pass b bs s i r :
  registered g s -> m_resources g !! i = Some r -> isImage r = true ->
  ib_resource b = Z.of_nat i -> ib_beforePass b = pass ->
  exists id t, m_graphTextures s !! i = Some (Some id) /\ texture_objects s !! id = Some t /\
    emit_image_barriers pass (b :: bs) s = emit_image_barriers pass bs (apply_barrier b id t s).
Proof.
  intros Hreg Hr Himg Hres Hpass.
  destruct (reg_images _ _ Hreg i r Hr Himg) as (id & t & Hid & Ht & Hv).
  exists id, t. split_and!; [done..|]. cbn [emit_image_barriers].
  rewrite Hpass, Z.eqb_refl. cbn [negb]. unfold mbind at 1, M_bind at 1, get.
  rewrite Hres, (vec_at_is _ _ (Some id)) by by rewrite Nat2Z.id.
  unfold mbind at 1, M_bind at 1, lift at 1. unfold valid_texture. cbn.
  rewrite Ht. cbn. rewrite Hv. unfold mbind, M_bind, modify, lift, vec_assign. cbn.
  rewrite (proj2 (Z.ltb_lt _ _)).
  2: { apply lookup_lt_Some in Hr. pose proof (reg_layouts _ _ Hreg). unfold size. lia. }
  unfold apply_barrier. by rewrite Hres.
Qed.

(** A state the loops over a pass's barriers and attachments lead to. *)
Definition emits (s s' : Recorder) : Prop :=
  keeps s s' /\ m_graphActivePass s' = m_graphActivePass s.

Lemma emits_refl s : emits s s.
Proof. split; [apply keeps_refl|done]. Qed.

Lemma emits_trans s1 s2 s3 : emits s1 s2 -> emits s2 s3 -> emits s1 s3.
Proof. intros [] []. split; [by eapply keeps_trans|congruence]. Qed.

Lemma skip_image_barriers pass bs bs' s :
  Forall (fun b => ib_beforePass b <> pass) bs ->
  emit_image_barriers pass (bs ++ bs') s = emit_image_barriers pass bs' s.
Proof.
  induction 1 as [|b bs Hb _ IH]; [done|]. cbn [app emit_image_barriers].
  by rewrite (proj2 (Z.eqb_neq _ _) Hb).
Qed.

Lemma use_barrier_before i c u b :
  use_barrier i c u = Some b -> ib_beforePass b = iu_pass u /\ ib_resource b = i /\
    oldLayout b = currentLayout c /\ newLayout b = iai_layout (GetImageAccessInfo (iu_access u)).
Proof. unfold use_barrier. destruct (if havePrevious c then _ else _); [|done]. by intros [= <-]. Qed.

Lemma use_barrier_none i c u :
  use_barrier i c u = None -> iai_layout (GetImageAccessInfo (iu_access u)) = currentLayout c.
Proof.
  destruct (decide (iai_layout (GetImageAccessInfo (iu_access u)) = currentLayout c)) as [|Hne]; [done|].
  unfold use_barrier. rewrite (bool_decide_false _ Hne). by destruct (havePrevious c).
Qed.

(** ** The barriers of one image *)

Definition use_layout (u : ImageUse) : VkImageLayout := iai_layout (GetImageAccessInfo (iu_access u)).

Lemma barriers_from_in i c us b :
  b ∈ barriers_from i c us ->
  exists k1 u k2, us = k1 ++ u :: k2 /\ ib_beforePass b = iu_pass u /\ ib_resource b = i /\
    oldLayout b = currentLayout (cursor_after c k1).
Proof.
  revert c. induction us as [|u us IH]; intros c Hb; [by apply not_elem_of_nil in Hb|].
  cbn [barriers_from] in Hb. apply elem_of_app in Hb as [Hb|Hb].
  - destruct (use_barrier i c u) as [b'|] eqn:Hu; [|by apply not_elem_of_nil in Hb].
    apply list_elem_of_singleton in Hb as ->. apply use_barrier_before in Hu as (? & ? & ? & _).
    by exists [], u, us.
  - destruct (IH _ Hb) as (k1 & v & k2 & -> & ? & ? & Hl). exists (u :: k1), v, k2.
    split_and!; [done..|]. rewrite Hl. unfold cursor_after. rewrite last_cons. by destruct (last k1).
Qed.

(** Emitting the barriers of image [i] before [pass] brings it into the layout
    of the use that [pass] makes of it, if it makes one. *)
Lemma emit_image pass i r us c bs s :
  registered g s -> m_resources g !! i = Some r -> isImage r = true ->
  NoDup (map iu_pass us) ->
  (forall k1 u k2, us = k1 ++ u :: k2 -> iu_pass u = pass ->
     layout_of s i = Some (currentLayout (cursor_after c k1))) ->
  exists s', emit_image_barriers pass (barriers_from (Z.of_nat i) c us ++ bs) s =
      emit_image_barriers pass bs s' /\
    emits s s' /\ (forall j, j <> i -> layout_of s' j = layout_of s j) /\
    (pass ∉ map iu_pass us -> layout_of s' i = layout_of s i) /\
    (forall u, u ∈ us -> iu_pass u = pass -> layout_of s' i = Some (use_layout u)).
Proof.
  intros Hreg Hr Himg. revert c s Hreg. induction us as [|u us IH]; intros c s Hreg Hnd Hl.
  { exists s. split_and!; [done|apply emits_refl|done|done|set_solver]. }
  cbn [map] in Hnd. apply NoDup_cons in Hnd as [Hu Hnd]. cbn [barriers_from].
  rewrite <- app_assoc. destruct (decide (iu_pass u = pass)) as [Heq|Hne].
  - specialize (Hl [] u us eq_refl Heq) as Hc. cbn in Hc.
    assert (Hrest : forall s0, registered g s0 -> exists s',
      emit_image_barriers pass (barriers_from (Z.of_nat i) (image_cursor_after u) us ++ bs) s0 =
        emit_image_barriers pass bs s' /\ emits s0 s' /\
      forall j, layout_of s' j = layout_of s0 j).
    { intros s0 Hreg0. destruct (IH (image_cursor_after u) s0) as (s' & He & Hem & Hj & Hi & _); [done..| |].
      - intros k1 v k2 -> Hv. destruct Hu. rewrite Heq, <- Hv, map_app. set_solver.
      - exists s'. split_and!; [done..|]. intros j. destruct (decide (j = i)) as [->|]; [|by auto].
        apply Hi. by rewrite <- Heq. }
    destruct (use_barrier (Z.of_nat i) c u) as [b|] eqn:Hb; simpl option_list; simpl app.
    + pose proof (use_barrier_before _ _ _ _ Hb) as (Hbp & Hbr & _ & Hnew).
      destruct (emit_image_barrier pass b
                  (barriers_from (Z.of_nat i) (image_cursor_after u) us ++ bs) s i r)
        as (id & t & Hid & Ht & ->); [done..|congruence|].
      pose proof (apply_barrier_keeps b id t s Ht) as Hk.
      destruct (Hrest (apply_barrier b id t s)) as (s' & -> & Hem & Hall);
        [by eapply registered_keeps|].
      exists s'. split_and!; [done|by eapply emits_trans; [split|]| |set_solver|].
      * intros j Hj. rewrite Hall, (apply_barrier_layout b id t s i) by done. by rewrite decide_False.
      * intros v [->|Hv]%elem_of_cons Hvp.
        -- rewrite Hall, (apply_barrier_layout b id t s i) by done.
           rewrite decide_True by done. by rewrite Hnew.
        -- destruct Hu. rewrite Heq, <- Hvp. by apply list_elem_of_fmap_2.
    + destruct (Hrest s Hreg) as (s' & -> & Hem & Hall).
      exists s'. split_and!; [done|done|by intros j _|by intros _|].
      intros v [->|Hv]%elem_of_cons Hvp.
      * rewrite Hall, Hc. unfold use_layout. by erewrite use_barrier_none.
      * destruct Hu. rewrite Heq, <- Hvp. by apply list_elem_of_fmap_2.
  - rewrite skip_image_barriers.
    2: { destruct (use_barrier _ c u) as [b|] eqn:Hb; [|constructor].
         apply use_barrier_before in Hb as [Hb _]. repeat constructor. congruence. }
    destruct (IH (image_cursor_after u) s Hreg Hnd) as (s' & -> & Hem & Hj & Hi & Hin).
    { intros k1 v k2 -> Hv. rewrite (Hl (u :: k1) v k2) by done. unfold cursor_after.
      rewrite last_cons. by destruct (last k1). }
    exists s'. split_and!; [done..| |].
    + intros Hn. apply Hi. set_solver.
    + intros v [->|Hv]%elem_of_cons Hvp; [done|by apply Hin].
Qed.

(** ** All the barriers of a pass *)

Section surviving.
Context (surviving : list bool) (pass : PassId).
Context (Hok : Forall (resource_ok (length (m_passes g))) (m_resources g)).
Context (Hpass : pass <> INVALID_PASS).

Definition live_of (r : Resource) : list ImageUse := live_uses surviving (imageUses r).

(** What [pass] finds: the layout that the uses before its own leave. *)
Definition expects (s : Recorder) (i : nat) (r : Resource) : Prop :=
  NoDup (map iu_pass (live_of r)) /\
  forall k1 u k2, live_of r = k1 ++ u :: k2 -> iu_pass u = pass ->
    layout_of s i = Some (currentLayout (cursor_after (first_cursor r) k1)).

(** What its barriers leave. *)
Definition leaves (s s' : Recorder) (i : nat) (r : Resource) : Prop :=
  (pass ∉ map iu_pass (live_of r) -> layout_of s' i = layout_of s i) /\
  (forall u, u ∈ live_of r -> iu_pass u = pass -> layout_of s' i = Some (use_layout u)).

Lemma emit_resource i r bs s :
  registered g s -> m_resources g !! i = Some r -> (isImage r = true -> expects s i r) ->
  exists s', emit_image_barriers pass (image_barriers_of surviving (Z.of_nat i) r ++ bs) s =
      emit_image_barriers pass bs s' /\
    emits s s' /\ (forall j, j <> i -> layout_of s' j = layout_of s j) /\
    (isImage r = true -> leaves s s' i r).
Proof.
  intros Hreg Hr Hexp. unfold image_barriers_of. destruct (isImage r) eqn:Himg.
  - destruct (Hexp eq_refl) as [Hnd Hl]. cbv zeta.
    change (live_uses surviving (imageUses r)) with (live_of r). rewrite <- app_assoc.
    destruct (emit_image pass i r (live_of r) (first_cursor r)
                ((if presented r then
                    [present_barrier (Z.of_nat i) (cursor_after (first_cursor r) (live_of r))]
                  else []) ++ bs) s) as (s' & -> & Hem & Hj & Hleave); [done..|].
    exists s'. split_and!; [|done|done|by intros _]. apply skip_image_barriers.
    destruct (presented r); repeat constructor. cbn. congruence.
  - rewrite Forall_forall in Hok. destruct (Hok r) as (_ & _ & Ht); [by eapply list_elem_of_lookup_2|].
    rewrite Himg in Ht. destruct Ht as [-> ->]. exists s. split_and!; [done|apply emits_refl|done|done].
Qed.

Lemma emit_resources rs k s :
  registered g s -> (forall i r, rs !! i = Some r -> m_resources g !! (k + i)%nat = Some r) ->
  (forall i r, rs !! i = Some r -> isImage r = true -> expects s (k + i) r) ->
  exists s', emit_image_barriers pass
      (concat (imap (fun i r => image_barriers_of surviving (Z.of_nat (k + i)) r) rs)) s = (Ok true, s') /\
    emits s s' /\ (forall j, (j < k)%nat -> layout_of s' j = layout_of s j) /\
    (forall i r, rs !! i = Some r -> isImage r = true -> leaves s s' (k + i) r).
Proof.
  revert k s. induction rs as [|r rs IH]; intros k s Hreg Hrs Hexp.
  { exists s. split_and!; [done|apply emits_refl|done|done]. }
  cbn [imap concat].
  destruct (emit_resource (k + 0) r
              (concat (imap ((fun i r => image_barriers_of surviving (Z.of_nat (k + i)) r) ∘ S) rs)) s)
    as (s1 & -> & Hem1 & Hj1 & Hl1); [done|by apply Hrs|by intros; apply Hexp|].
  rewrite Nat.add_0_r in *.
  rewrite (imap_ext _ (fun i r => image_barriers_of surviving (Z.of_nat (S k + i)) r)).
  2: { intros i r' _. cbn. do 2 f_equal. lia. }
  destruct (IH (S k) s1) as (s2 & -> & Hem2 & Hj2 & Hl2).
  - eapply registered_keeps; [done|apply Hem1].
  - intros i r' Hi. replace (S k + i)%nat with (k + S i)%nat by lia. by apply Hrs.
  - intros i r' Hi Himg. replace (S k + i)%nat with (k + S i)%nat by lia.
    destruct (Hexp (S i) r' Hi Himg) as [Hnd Hl]. split; [done|].
    intros k1 u k2 Heq Hu. rewrite Hj1 by lia. by eapply Hl.
  - exists s2. split_and!; [done|by eapply emits_trans| |].
    + intros j Hj. rewrite Hj2, Hj1 by lia. done.
    + intros [|i] r' Hi Himg; cbn in Hi.
      * injection Hi as ->. rewrite Nat.add_0_r. destruct (Hl1 Himg) as [Hn Hu].
        unfold leaves. rewrite Hj2 by lia. done.
      * replace (k + S i)%nat with (S k + i)%nat by lia.
        destruct (Hl2 i r' Hi Himg) as [Hn Hu].
        unfold leaves. rewrite <- (Hj1 (S k + i)%nat) by lia. done.
Qed.

Lemma emit_buffers bs s :
  registered g s ->
  Forall (fun b => exists i r, m_resources g !! i = Some r /\ isImage r = false /\
            bb_resource b = Z.of_nat i) bs ->
  exists s', emit_buffer_barriers pass bs s = (Ok true, s') /\ emits s s' /\
    forall j, layout_of s' j = layout_of s j.
Proof.
  intros Hreg Hbs. revert s Hreg. induction Hbs as [|b bs (i & r & Hr & Himg & Hb) _ IH]; intros s Hreg.
  { exists s. split_and!; [done|apply emits_refl|done]. }
  cbn [emit_buffer_barriers]. destruct (negb (bb_beforePass b =? pass)); [by apply IH|].
  unfold mbind at 1, M_bind at 1, get.
  destruct (reg_buffers _ _ Hreg i r Hr Himg) as (id & buf & Hid & Hbuf & Hv).
  rewrite Hb, (vec_at_is _ _ (Some id)) by by rewrite Nat2Z.id.
  unfold mbind at 1, M_bind at 1, lift at 1. unfold valid_buffer. cbn. rewrite Hbuf. cbn. rewrite Hv.
  unfold mbind at 1, M_bind at 1, modify at 1.
  match goal with |- context [emit ?c s] => set (s1 := emit c s) end.
  assert (Hem : emits s s1).
  { split; [|done]. split; try done. intros id' t' Ht. exists (m_layout t'). by rewrite SetLayout_same. }
  destruct (IH s1) as (s' & -> & Hem' & Hl); [by eapply registered_keeps; [|apply Hem]|].
  exists s'. split_and!; [done|by eapply emits_trans|done].
Qed.
End surviving.

(** ** Attachments *)

Definition image_attachment (a : PassAttachment) : Prop :=
  exists i r, m_resources g !! i = Some r /\ isImage r = true /\ pa_image a = Z.of_nat i.

Lemma attach_registered `{ColorSpaces} pass l a s :
  registered g s -> Forall image_attachment l ->
  exists a', attach pass l a s = (Ok (Some a'), s).
Proof.
  intros Hreg Hl. revert a. induction Hl as [|x l (i & r & Hr & Himg & Hx) _ IH]; intros a.
  { by exists a. }
  cbn [attach]. destruct (negb (pa_pass x =? pass)); [done|].
  unfold mbind at 1, M_bind at 1, get.
  destruct (reg_images _ _ Hreg i r Hr Himg) as (id & t & Hid & Ht & Hv).
  rewrite Hx, (vec_at_is _ _ (Some id)) by by rewrite Nat2Z.id.
  unfold mbind at 1, M_bind at 1, lift at 1. unfold valid_texture. cbn. rewrite Ht. cbn. rewrite Hv.
  destruct (pa_isDepth x); [done|]. unfold mbind, M_bind, lift.
  destruct (vec_at_in_range (m_graphColorSpaces s) (Z.of_nat i)) as (c & _ & ->); [|done].
  apply lookup_lt_Some in Hr. pose proof (reg_spaces _ _ Hreg). unfold in_range. lia.
Qed.

Lemma image_attachments_in pass i us slot a :
  a ∈ (image_attachments pass i us slot).1 -> pa_image a = i.
Proof.
  revert slot. induction us as [|u us IH]; intros slot Ha; [by apply not_elem_of_nil in Ha|].
  cbn [image_attachments] in Ha. destruct (_ || _); [by eapply IH|].
  destruct (bool_decide _).
  { destruct (image_attachments pass i us slot) as [rest n] eqn:Hrest.
    apply elem_of_cons in Ha as [->|Ha]; [done|]. apply (IH slot). by rewrite Hrest. }
  destruct (_ && _); [|by eapply IH].
  destruct (image_attachments pass i us (slot + 1)) as [rest n] eqn:Hrest.
  apply elem_of_cons in Ha as [->|Ha]; [done|]. apply (IH (slot + 1)). by rewrite Hrest.
Qed.

Lemma pass_attachments_image pass rs k slot :
  (forall i r, rs !! i = Some r -> m_resources g !! (k + i)%nat = Some r) ->
  Forall image_attachment (pass_attachments pass (Z.of_nat k) rs slot).
Proof.
  revert k slot. induction rs as [|r rs IH]; intros k slot Hrs; [constructor|].
  cbn [pass_attachments].
  assert (Hrest : forall n, Forall image_attachment (pass_attachments pass (Z.of_nat k + 1) rs n)).
  { intros n. replace (Z.of_nat k + 1) with (Z.of_nat (S k)) by lia. apply IH.
    intros i r' Hi. replace (S k + i)%nat with (k + S i)%nat by lia. by apply Hrs. }
  destruct (isImage r) eqn:Himg; cbn [negb]; [|apply Hrest].
  pose proof (image_attachments_in pass (Z.of_nat k) (imageUses r) slot) as Hin.
  destruct (image_attachments _ _ _ _) as [here n]. apply Forall_app. split; [|apply Hrest].
  apply Forall_forall. intros a Ha. exists k, r. split_and!; [|done|by apply Hin].
  rewrite <- (Nat.add_0_r k). by apply Hrs.
Qed.

Lemma attachments_image pass surviving :
  Forall image_attachment (attachments (m_resources g) pass surviving).
Proof.
  revert pass. induction surviving as [|b surviving IH]; intros pass; [constructor|].
  cbn [attachments]. apply Forall_app. split; [|done].
  destruct b; [|constructor]. by apply (pass_attachments_image pass _ 0).
Qed.
End recorded.

(** ** Recording in order *)

Section frame.
Context `{ColorSpaces}.

(** One pass begun and ended; the first result that is not [S_OK]. *)
Definition record_pass (p : PassId) : M Recorder ALResult :=
  result ← BeginGraphPass p;
  match result with S_OK => EndGraphPass | failed => mret failed end.

Fixpoint record_passes (ps : list PassId) : M Recorder ALResult :=
  match ps with
  | [] => mret S_OK
  | p :: ps =>
      result ← record_pass p;
      match result with S_OK => record_passes ps | failed => mret failed end
  end.

Lemma record_passes_snoc ps p s s1 :
  record_passes ps s = (Ok S_OK, s1) -> record_passes (ps ++ [p]) s = record_pass p s1.
Proof.
  revert s. induction ps as [|q ps IH]; intros s Hs; cbn [record_passes app] in *.
  - injection Hs as ->. unfold mbind, M_bind. by destruct (record_pass p s1) as [[[]|e| |] s2].
  - apply bind_Ok in Hs as (r & s' & Hq & Hs). rewrite (bind_eq _ _ _ _ _ Hq).
    destruct r; [by apply IH|done..].
Qed.

(** The surviving passes in the order of execution. *)
Definition execution (out : CompileResult) (order : list PassId) : list PassId :=
  filter (survives out) order.

(** The surviving users of each image were declared in the order of execution. *)
Definition users_in_order (g : Tr2RenderGraphAL) (out : CompileResult) (order : list PassId) : Prop :=
  forall r, r ∈ m_resources g -> isImage r = true ->
    map iu_pass (surviving_uses out r) `sublist_of` execution out order.

(** A recorder ready for the first pass. *)
Definition ready (g : Tr2RenderGraphAL) (out : CompileResult) (s : Recorder) : Prop :=
  registered g s /\ m_graphFrameActive s = true /\ m_graphActivePass s = INVALID_PASS /\
  m_graph s = out /\
  forall i r, m_resources g !! i = Some r -> isImage r = true ->
    layout_of s i = Some (initialLayout (imageDesc r)).

Section track.
Context (g : Tr2RenderGraphAL) (order : list PassId) (surviving : list bool) (out : CompileResult).
Context (Hok : graph_ok g) (Hcomp : compiled g order surviving out)
        (Husers : users_in_order g out order).

Definition used_by (l : list PassId) (r : Resource) : list ImageUse :=
  filter (fun u => iu_pass u ∈ l) (live_of surviving r).

(** What holds after recording the passes [l]. *)
Definition tracked (l : list PassId) (s : Recorder) : Prop :=
  registered g s /\ m_graphFrameActive s = true /\ m_graphActivePass s = INVALID_PASS /\
  m_graph s = out /\
  forall i r, m_resources g !! i = Some r -> isImage r = true ->
    layout_of s i = Some (currentLayout (cursor_after (first_cursor r) (used_by l r))).

Lemma users_sublist r : r ∈ m_resources g -> isImage r = true ->
  map iu_pass (live_of surviving r) `sublist_of` execution out order.
Proof.
  intros Hr Himg. unfold live_of. rewrite <- (surviving_uses_live g order surviving out Hok Hcomp r Hr).
  by apply Husers.
Qed.

Lemma execution_NoDup : NoDup (execution out order).
Proof. apply NoDup_filter, (order_NoDup g), Hcomp. Qed.

(** The users before, at and after a pass. *)
Lemma used_by_user r l1 p l2 k1 u k2 :
  r ∈ m_resources g -> isImage r = true -> execution out order = l1 ++ p :: l2 ->
  live_of surviving r = k1 ++ u :: k2 -> iu_pass u = p ->
  used_by l1 r = k1 /\ used_by (l1 ++ [p]) r = k1 ++ [u].
Proof.
  intros Hr Himg Hexec Hus Hu. pose proof (users_sublist r Hr Himg) as Hsub.
  pose proof execution_NoDup as Hnd. rewrite Hexec in Hsub, Hnd.
  rewrite Hus, map_app in Hsub. cbn [map] in Hsub. rewrite Hu in Hsub.
  destruct (sublist_around _ _ _ _ _ Hnd Hsub) as [Hk1 Hk2].
  assert (Hdis : forall x, x ∈ l2 -> x ∉ l1 ++ [p]).
  { rewrite (cons_middle p l1 l2), app_assoc in Hnd. apply NoDup_app in Hnd as (_ & Hd & _).
    intros x Hx Hx'. by apply (Hd x). }
  assert (Hp : p ∉ l1).
  { apply NoDup_app in Hnd as (_ & Hd & _). intros Hp. apply (Hd p Hp). set_solver. }
  assert (H1 : forall v, v ∈ k1 -> iu_pass v ∈ l1).
  { intros v Hv. apply Hk1. by apply list_elem_of_fmap_2. }
  assert (H2 : forall v, v ∈ k2 -> iu_pass v ∉ l1 ++ [p]).
  { intros v Hv. apply Hdis, Hk2. by apply list_elem_of_fmap_2. }
  unfold used_by. rewrite Hus, !filter_app, !filter_cons. split.
  - rewrite decide_False by by rewrite Hu. rewrite filter_all by done.
    rewrite filter_none by set_solver. by rewrite app_nil_r.
  - rewrite decide_True by (rewrite Hu; set_solver). rewrite filter_all by set_solver.
    by rewrite filter_none by done.
Qed.

Lemma used_by_other r l1 p :
  p ∉ map iu_pass (live_of surviving r) -> used_by (l1 ++ [p]) r = used_by l1 r.
Proof.
  intros Hp. unfold used_by. induction (live_of surviving r) as [|u us IH]; [done|].
  cbn [map] in Hp. apply not_elem_of_cons in Hp as [Hu Hp]. rewrite !filter_cons, IH by done.
  destruct (decide (iu_pass u ∈ l1 ++ [p])), (decide (iu_pass u ∈ l1)); set_solver.
Qed.

Lemma tracked_expects l1 p l2 s i r :
  tracked l1 s -> execution out order = l1 ++ p :: l2 ->
  m_resources g !! i = Some r -> isImage r = true -> expects surviving p s i r.
Proof.
  intros (_ & _ & _ & _ & Hl) Hexec Hr Himg.
  assert (Hin : r ∈ m_resources g) by by eapply list_elem_of_lookup_2. split.
  - eapply sublist_NoDup; [apply execution_NoDup|by apply users_sublist].
  - intros k1 u k2 Hus Hu. rewrite (Hl i r) by done.
    by destruct (used_by_user r l1 p l2 k1 u k2) as [-> _].
Qed.

Lemma buffer_barriers_buffer :
  Forall (fun b => exists i r, m_resources g !! i = Some r /\ isImage r = false /\
            bb_resource b = Z.of_nat i) (bufferBarriers out).
Proof.
  rewrite (c_buffers _ _ _ _ Hcomp). apply Forall_forall. intros b (l & Hb & Hl)%elem_of_concat.
  apply list_elem_of_lookup in Hl as [i Hi]. rewrite list_lookup_imap in Hi.
  destruct (m_resources g !! i) as [r|] eqn:Hr; [|done]. injection Hi as <-.
  exists i, r. split; [done|]. destruct Hok as (_ & _ & Hres). rewrite Forall_forall in Hres.
  destruct (Hres r) as (_ & _ & Ht); [by eapply list_elem_of_lookup_2|].
  unfold buffer_barriers_of in Hb. destruct (isImage r).
  { rewrite Ht in Hb. by apply not_elem_of_nil in Hb. }
  split; [done|]. revert Hb. generalize (mkBufferCursor [] [] true false).
  induction (live_buffer_uses surviving (bufferUses r)) as [|u us IH]; intros c Hb;
    [by apply not_elem_of_nil in Hb|].
  cbn [buffer_barriers_from] in Hb. apply elem_of_app in Hb as [Hb|Hb]; [|by eapply IH].
  unfold buffer_use_barrier in Hb. destruct (_ && _); [|by apply not_elem_of_nil in Hb].
  by apply list_elem_of_singleton in Hb as ->.
Qed.

Lemma valid_pass l1 p l2 : execution out order = l1 ++ p :: l2 -> p <> INVALID_PASS.
Proof.
  intros Hexec. assert (Hin : p ∈ order).
  { apply (list_elem_of_filter (survives out)). unfold execution in Hexec. rewrite Hexec. set_solver. }
  pose proof (order_in_range _ _ (c_order _ _ _ _ Hcomp)) as Hr. rewrite Forall_forall in Hr.
  specialize (Hr _ Hin). destruct Hok as (Hmax & _).
  unfold in_range, size, MAX_PASS_COUNT, INVALID_PASS, UINT32_MAX in *. lia.
Qed.

(** Beginning the next pass, and ending it. *)
Lemma begin_pass l1 p l2 s :
  tracked l1 s -> execution out order = l1 ++ p :: l2 ->
  exists s2, BeginGraphPass p s = (Ok S_OK, s2) /\ keeps s s2 /\ m_graphActivePass s2 = p /\
    forall i r, m_resources g !! i = Some r -> isImage r = true -> leaves surviving p s s2 i r.
Proof.
  intros Htr Hexec. pose proof Htr as (Hreg & Hframe & Hact & Hgraph & _).
  pose proof (valid_pass _ _ _ Hexec) as Hp.
  unfold BeginGraphPass, mbind at 1, M_bind at 1, get. rewrite Hframe, Hact, Hgraph. cbn [negb Z.eqb].
  rewrite Z.eqb_refl. cbn [negb]. rewrite (c_images _ _ _ _ Hcomp).
  destruct (emit_resources g surviving p (proj2 (proj2 Hok)) Hp (m_resources g) 0 s)
    as (s1 & He & [Hk1 Ha1] & _ & Hl1); [done|done|by intros; eapply tracked_expects|].
  rewrite (bind_eq _ _ _ _ _ He). cbn [negb].
  assert (Hreg1 : registered g s1) by by eapply registered_keeps.
  destruct (emit_buffers g p (bufferBarriers out) s1) as (s2 & Heb & [Hk2 Ha2] & Hl2);
    [done|apply buffer_barriers_buffer|].
  rewrite (bind_eq _ _ _ _ _ Heb). cbn [negb].
  destruct (attach_registered g p (passAttachments out) (mkAttached [] None false) s2) as (a & Hat);
    [by eapply registered_keeps|rewrite (c_attachments _ _ _ _ Hcomp); apply attachments_image|].
  rewrite (bind_eq _ _ _ _ _ Hat).
  assert (Hleave : forall i r, m_resources g !! i = Some r -> isImage r = true ->
    leaves surviving p s s2 i r).
  { intros i r Hr Himg. destruct (Hl1 i r Hr Himg) as [Hn Hu]. unfold leaves.
    cbn in Hn, Hu. by rewrite Hl2. }
  assert (Hk : keeps s s2) by by eapply keeps_trans.
  destruct (hasAttachment a); eexists; (split; [reflexivity|]);
    (split; [eapply keeps_trans; [exact Hk|]; apply keeps_view; done|]; by split).
Qed.

Lemma end_pass p s s2 :
  BeginGraphPass p s = (Ok S_OK, s2) -> m_graphActivePass s2 = p -> p <> INVALID_PASS ->
  exists s3, record_pass p s = (Ok S_OK, s3) /\ keeps s2 s3 /\
    m_graphActivePass s3 = INVALID_PASS /\ forall i, layout_of s3 i = layout_of s2 i.
Proof.
  intros Hb Ha Hp. unfold record_pass. rewrite (bind_eq _ _ _ _ _ Hb).
  unfold EndGraphPass, mbind at 1, M_bind at 1, get. rewrite Ha, (proj2 (Z.eqb_neq _ _) Hp).
  destruct (m_graphPassHasRendering s2); eexists; (split; [reflexivity|]);
    (split; [apply keeps_view; done|done]).
Qed.

(** One more pass recorded. *)
Lemma tracked_step l1 p l2 s s2 s3 :
  tracked l1 s -> execution out order = l1 ++ p :: l2 ->
  keeps s s2 -> (forall i r, m_resources g !! i = Some r -> isImage r = true -> leaves surviving p s s2 i r) ->
  keeps s2 s3 -> m_graphActivePass s3 = INVALID_PASS ->
  (forall i, layout_of s3 i = layout_of s2 i) -> tracked (l1 ++ [p]) s3.
Proof.
  intros (Hreg & Hframe & _ & Hgraph & Hl) Hexec Hk Hleave Hk' Hact Hsame.
  pose proof (keeps_trans _ _ _ Hk Hk') as Hk3. split_and!.
  - by eapply registered_keeps.
  - by rewrite (k_frame _ _ Hk3).
  - done.
  - by rewrite (k_graph _ _ Hk3).
  - intros i r Hr Himg. rewrite Hsame. destruct (Hleave i r Hr Himg) as [Hn Hu].
    assert (Hin : r ∈ m_resources g) by by eapply list_elem_of_lookup_2.
    destruct (decide (p ∈ map iu_pass (live_of surviving r))) as [Hp|Hp].
    + apply list_elem_of_fmap in Hp as (u & Hpu & Huin).
      pose proof (list_elem_of_split _ _ Huin) as (k1 & k2 & Hus).
      destruct (used_by_user r l1 p l2 k1 u k2) as [_ ->]; [done..|].
      rewrite (Hu u) by done. unfold cursor_after. by rewrite last_snoc.
    + rewrite used_by_other, Hn by done. by apply Hl.
Qed.

Lemma record_prefix l1 l2 s :
  ready g out s -> execution out order = l1 ++ l2 ->
  exists s1, record_passes l1 s = (Ok S_OK, s1) /\ tracked l1 s1.
Proof.
  intros (Hreg & Hframe & Hact & Hgraph & Hl). revert l2.
  induction l1 as [|p l1 IH] using rev_ind; intros l2 Hexec.
  - exists s. split; [done|]. split_and!; [done..|]. intros i r Hr Himg.
    unfold used_by. rewrite filter_none by set_solver. by apply Hl.
  - rewrite <- app_assoc in Hexec. cbn in Hexec.
    destruct (IH _ Hexec) as (s1 & Hrec & Htr).
    rewrite (record_passes_snoc _ _ _ _ Hrec).
    destruct (begin_pass l1 p l2 s1 Htr Hexec) as (s2 & Hb & Hk & Ha & Hleave).
    destruct (end_pass p s1 s2 Hb Ha) as (s3 & -> & Hk' & Ha' & Hsame); [by eapply valid_pass|].
    exists s3. split; [done|]. by eapply tracked_step.
Qed.
End track.
End frame.

(** C24. Recording the passes of a compiled graph in its order succeeds and
    tracks the layouts, under these conditions: the recorder is inside a graph
    frame, with this result and no pass begun; every image of the graph is
    registered to a texture, no two to the same, and every buffer to a buffer;
    each registered texture is in the layout its image was declared to begin in
    (the recorder does not look at the registered layout, and the barriers start
    from the declared one); and the surviving passes that use an image use it once
    each and were declared in the order they run in. Then every barrier emitted
    before a pass starts from the layout the image is in at that point, and once
    the pass has begun each image it uses is in the layout of that use. *)
Theorem Compile_recorded `{ColorSpaces} (g : Tr2RenderGraphAL) (out : CompileResult)
    (message : string) (order l1 : list PassId) (p : PassId) (l2 : list PassId) (s : Recorder) :
  graph_ok g -> few_edges g -> Compile g = Ok (S_OK, out, message) -> pass_order g order ->
  users_in_order g out order -> execution out order = l1 ++ p :: l2 -> ready g out s ->
  exists s1 s2, record_passes l1 s = (Ok S_OK, s1) /\
    BeginGraphPass p s1 = (Ok S_OK, s2) /\
    (forall b, b ∈ imageBarriers out -> ib_beforePass b = p ->
       layout_of s1 (Z.to_nat (ib_resource b)) = Some (oldLayout b)) /\
    (forall i r u, m_resources g !! i = Some r -> isImage r = true -> u ∈ imageUses r ->
       iu_pass u = p -> layout_of s2 i = Some (use_layout u)).
Proof.
  intros Hok Hfew Hc Hord Husers Hexec Hready.
  destruct (Compile_compiled _ _ _ Hok Hfew Hc) as (_ & _ & order' & surviving & Hcomp).
  rewrite (pass_order_unique g order' order) in Hcomp by (done || apply Hcomp).
  destruct (record_prefix g order surviving out Hok Hcomp Husers l1 (p :: l2) s)
    as (s1 & Hrec & Htr); [done..|].
  destruct (begin_pass g order surviving out Hok Hcomp Husers l1 p l2 s1 Htr Hexec)
    as (s2 & Hb & _ & _ & Hleave).
  exists s1, s2. split_and!; [done..| |].
  - intros b Hb' Hbp. rewrite (c_images _ _ _ _ Hcomp) in Hb'.
    apply elem_of_concat in Hb' as (l & Hb' & Hl).
    apply list_elem_of_lookup in Hl as [i Hi]. rewrite list_lookup_imap in Hi.
    destruct (m_resources g !! i) as [r|] eqn:Hr; [|done]. injection Hi as <-.
    pose proof (valid_pass g order surviving out Hok Hcomp Husers l1 p l2 Hexec) as Hvalid.
    unfold image_barriers_of in Hb'. apply elem_of_app in Hb' as [Hb'|Hb'].
    2: { destruct (presented r); [|by apply not_elem_of_nil in Hb'].
         apply list_elem_of_singleton in Hb' as ->. by destruct Hvalid. }
    apply barriers_from_in in Hb' as (k1 & u & k2 & Hus & Hpass & -> & ->).
    rewrite Nat2Z.id. destruct (isImage r) eqn:Himg.
    + destruct (tracked_expects g order surviving out Hok Hcomp Husers l1 p l2 s1 i r)
        as [_ Hl]; [done..|]. eapply Hl; [exact Hus|congruence].
    + destruct Hok as (_ & _ & Hres). rewrite Forall_forall in Hres.
      destruct (Hres r) as (_ & _ & Ht); [by eapply list_elem_of_lookup_2|].
      rewrite Himg in Ht. destruct Ht as [Ht _]. rewrite Ht in Hus. by destruct k1.
  - intros i r u Hr Himg Hu Hup. destruct (Hleave i r Hr Himg) as [_ Hin]. apply Hin; [|done].
    assert (Hir : r ∈ m_resources g) by by eapply list_elem_of_lookup_2.
    unfold live_of. rewrite <- (surviving_uses_live g order surviving out Hok Hcomp r Hir).
    apply list_elem_of_filter. split; [|done]. rewrite Hup.
    assert (Hex : p ∈ execution out order) by (rewrite Hexec; set_solver).
    by apply list_elem_of_filter in Hex as [? _].
Qed.

(** ** Graphs declared in the order of execution *)

(** The uses of each resource are declared in the order of the passes. *)
Definition in_pass_order (g : Tr2RenderGraphAL) : Prop :=
  forall r, r ∈ m_resources g -> StronglySorted Z.lt (map t_pass (touches r)).

Lemma use_pairs_increasing us e :
  StronglySorted Z.lt (map t_pass us) -> e ∈ use_pairs us -> from e < to e.
Proof.
  induction us as [|u [|v us] IH]; intros Hs He; [set_solver..|]. cbn [map] in Hs.
  apply StronglySorted_inv in Hs as [Hs Hu]. apply Forall_cons in Hu as [Huv _].
  cbn [use_pairs] in He. destruct (_ && _); [by apply IH|].
  apply elem_of_cons in He as [->|He]; [done|by apply IH].
Qed.

Lemma sorted_sublist_seq (l : list Z) k n :
  StronglySorted Z.lt l -> Forall (fun p => k <= p < k + Z.of_nat n) l -> l `sublist_of` seqZ k (Z.of_nat n).
Proof.
  revert k l. induction n as [|n IH]; intros k l Hs Hr.
  - destruct l as [|p l]; [apply sublist_nil|]. apply Forall_cons in Hr as [Hp _]. lia.
  - rewrite seqZ_cons by lia. replace (Z.pred (Z.of_nat (S n))) with (Z.of_nat n) by lia.
    destruct l as [|p l]; [apply sublist_nil_l|].
    apply StronglySorted_inv in Hs as [Hs Hp]. apply Forall_cons in Hr as [Hpr Hr].
    rewrite Forall_forall in Hp, Hr. destruct (decide (p = k)) as [->|Hne].
    + apply sublist_skip, IH; [done|]. apply Forall_forall. intros q Hq.
      specialize (Hp q Hq). specialize (Hr q Hq). lia.
    + apply sublist_cons, IH; [by constructor; [|apply Forall_forall]|].
      apply Forall_cons. split; [lia|]. apply Forall_forall. intros q Hq.
      specialize (Hp q Hq). specialize (Hr q Hq). lia.
Qed.

Lemma sublist_filter {A} (P : A -> Prop) `{!forall x, Decision (P x)} l l' :
  l `sublist_of` l' -> filter P l `sublist_of` filter P l'.
Proof.
  induction 1 as [|x l l' _ IH|x l l' _ IH]; [done|..]; rewrite ?filter_cons.
  - destruct (decide (P x)); [by constructor|done].
  - destruct (decide (P x)); [by constructor|done].
Qed.

Lemma map_filter_pass (P : PassId -> Prop) `{!forall x, Decision (P x)} us :
  map iu_pass (filter (fun u => P (iu_pass u)) us) = filter P (map iu_pass us).
Proof.
  induction us as [|u us IH]; [done|]. cbn [map]. rewrite !filter_cons.
  destruct (decide (P (iu_pass u))); cbn [map]; by rewrite IH.
Qed.

Lemma declared_order (g : Tr2RenderGraphAL) :
  graph_ok g -> few_edges g -> m_passes g <> [] -> m_resources g <> [] ->
  (forall r, r ∈ m_resources g -> ~ invalid_resource r) -> in_pass_order g ->
  exists out, Compile g = Ok (S_OK, out, "") /\
    pass_order g (seqZ 0 (size (m_passes g))) /\
    users_in_order g out (seqZ 0 (size (m_passes g))).
Proof.
  intros Hok Hfew Hps Hrs Hvalid Hinc. pose proof Hok as (_ & _ & Hres).
  assert (Hedge : forall p q, edge (graph_edges g) p q -> 0 <= p < q).
  { intros p q He. pose proof (edges_in_range _ _ _ Hres He) as [[? ?] _]. cbn in *.
    split; [done|]. unfold edge, graph_edges, edges_of in He.
    apply elem_of_concat in He as (l & He & Hl). apply list_elem_of_fmap in Hl as (r & -> & Hr).
    by apply (use_pairs_increasing _ _ (Hinc r Hr) He). }
  assert (Hac : acyclic (graph_edges g)).
  { intros p Hp. assert (Hlt : forall a b, tc (edge (graph_edges g)) a b -> a < b).
    { induction 1 as [a b Hab|a b c Hab _ IH]; apply Hedge in Hab; lia. }
    specialize (Hlt p p Hp). lia. }
  destruct (Compile_spec g Hok Hfew) as [(_ & order & surviving & out & Hc & Hcomp)|(Hn & _)];
    [|by destruct Hn].
  destruct Hcomp as [[Hl Hn] _ _ _ _ _ _ _ _].
  pose proof (least_first_increasing _ _ _ Hedge Hl Hn) as Horder. fold (size (m_passes g)) in Horder.
  exists out. rewrite <- Horder. split_and!; [done..|]. intros r Hr Himg.
  unfold surviving_uses, execution. rewrite map_filter_pass. apply sublist_filter.
  rewrite Horder. apply sorted_sublist_seq.
  - specialize (Hinc r Hr). unfold touches in Hinc. rewrite Himg, map_map in Hinc. done.
  - rewrite Forall_forall in Hres. destruct (Hres r Hr) as (Hi & _ & _).
    eapply Forall_impl; [exact Hi|]. unfold in_range. lia.
Qed.

(** A valid graph whose resources are used in the order of the passes
    compiles; the passes run in the order they were declared, and the users of
    every image are in the order of execution. *)
Theorem Compile_declared_order (g : Tr2RenderGraphAL) :
  graph_ok g -> few_edges g -> m_passes g <> [] -> m_resources g <> [] ->
  (forall r, r ∈ m_resources g -> ~ invalid_resource r) -> in_pass_order g ->
  exists out, Compile g = Ok (S_OK, out, "") /\
    pass_order g (seqZ 0 (size (m_passes g))) /\
    users_in_order g out (seqZ 0 (size (m_passes g))).
Proof. apply declared_order. Qed.

(** ** Registration *)

(** [AddImage] returns [INVALID_RESOURCE] when the graph is full; registering
    that identifier resizes the vectors to nothing and writes out of range. *)
Lemma RegisterGraphTexture_invalid s texture colorSpace :
  m_graphFrameActive s = true -> size (m_graphTextures s) < 2 ^ 32 ->
  (RegisterGraphTexture INVALID_RESOURCE texture colorSpace s).1 = Undefined.
Proof.
  intros Hactive Hsize. unfold RegisterGraphTexture, mbind, M_bind, get. rewrite Hactive. cbn [negb].
  destruct (Z.leb_spec (size (m_graphTextures s)) INVALID_RESOURCE).
  - unfold grow. replace (u32 (INVALID_RESOURCE + 1)) with 0 by done. cbn.
    done.
  - unfold INVALID_RESOURCE, UINT32_MAX in *. lia.
Qed.

(** ** Examples *)

#[local] Instance two_color_spaces : ColorSpaces :=
  {| COLOR_SPACE_LINEAR := 0; COLOR_SPACE_SRGB := 1 |}.

Definition idle_recorder : Recorder :=
  mkRecorder false new_CompileResult [] [] [] [] [] INVALID_PASS false false (800, 600)
    {[ 10 := mkTr2TextureAL 1 2 3 VK_IMAGE_LAYOUT_UNDEFINED;
       11 := mkTr2TextureAL 4 5 6 VK_IMAGE_LAYOUT_UNDEFINED;
       12 := mkTr2TextureAL 7 8 9 VK_IMAGE_LAYOUT_UNDEFINED ]}
    {[ 20 := mkTr2BufferAL 10 ]} [].

Definition frame_recorder : Recorder :=
  Eval vm_compute in
    ((BeginGraphFrame;; RegisterGraphTexture 0 (Some 10) 1;; RegisterGraphTexture 1 (Some 11) 0;;
      RegisterGraphBuffer 2 (Some 20);; RegisterGraphTexture 3 (Some 12) 0;;
      SetGraphResult frame_result) idle_recorder).2.

Lemma frame_ready : ready frame_graph frame_result frame_recorder.
Proof.
  split_and!; [|done..|].
  - split.
    + intros i r Hr Himg. do 4 (destruct i as [|i]; [injection Hr as <-; try done; by eauto 10|]). done.
    + intros i j id Hi Hj.
      destruct i as [|[|[|[|i]]]], j as [|[|[|[|j]]]]; cbn in Hi, Hj; simplify_eq; done.
    + intros i r Hr Himg. do 4 (destruct i as [|i]; [injection Hr as <-; try done; by eauto 10|]). done.
    + by vm_compute.
    + by vm_compute.
  - intros i r Hr Himg. do 4 (destruct i as [|i]; [injection Hr as <-; try done|]). done.
Qed.

Lemma frame_declared_order :
  in_pass_order frame_graph /\ (forall r, r ∈ m_resources frame_graph -> ~ invalid_resource r).
Proof.
  split.
  - intros r Hr.
    do 4 (apply elem_of_cons in Hr as [->|Hr]; [by repeat constructor|]). by apply not_elem_of_nil in Hr.
  - pose proof (validate_spec (m_resources frame_graph)) as Hv.
    by replace (validate (m_resources frame_graph)) with (@None string) in Hv by by vm_compute.
Qed.

Lemma Compile_declared_order_witness :
  exists out, Compile frame_graph = Ok (S_OK, out, "") /\ pass_order frame_graph [0; 1; 2] /\
    users_in_order frame_graph out [0; 1; 2].
Proof.
  destruct frame_declared_order as [Hord Hvalid].
  apply (Compile_declared_order frame_graph frame_graph_ok frame_few_edges ltac:(discriminate)
           ltac:(discriminate) Hvalid Hord).
Defined.

Lemma frame_users : users_in_order frame_graph frame_result [0; 1; 2].
Proof.
  destruct frame_declared_order as [Hord Hvalid].
  destruct (declared_order frame_graph frame_graph_ok frame_few_edges) as (out & Hc & _ & Hu);
    [done..|]. rewrite frame_compiles in Hc. by injection Hc as <-.
Qed.

Lemma Compile_recorded_witness :
  exists s1 s2, record_passes [0] frame_recorder = (Ok S_OK, s1) /\
    BeginGraphPass 1 s1 = (Ok S_OK, s2) /\
    layout_of s2 0 = Some VK_IMAGE_LAYOUT_COLOR_ATTACHMENT_OPTIMAL /\
    layout_of s2 1 = Some VK_IMAGE_LAYOUT_SHADER_READ_ONLY_OPTIMAL.
Proof.
  destruct (Compile_recorded frame_graph frame_result "" [0; 1; 2] [0] 1 [] frame_recorder
              frame_graph_ok frame_few_edges frame_compiles frame_order frame_users eq_refl frame_ready)
    as (s1 & s2 & Hrec & Hb & _ & Hl).
  exists s1, s2. split; [exact Hrec|]. split; [exact Hb|]. split.
  - apply (Hl 0%nat _ (mkImageUse 1 false ImageAccess.COLOR_ATTACHMENT VK_ATTACHMENT_LOAD_OP_CLEAR
                 VK_ATTACHMENT_STORE_OP_STORE zero_clear) eq_refl eq_refl); [by left|reflexivity].
  - apply (Hl 1%nat _ (new_ImageUse 1 true ImageAccess.SHADER_READ) eq_refl eq_refl);
      [by right; left|reflexivity].
Defined.
