(* ===== verification/ThreadBudget.v ===== *)
(** * The thread budget

    [src/src/thread_budget.cpp]: what a process measures of its threads and
    processors, the snapshots it keeps, and how many workers are left.

    The source measures with the interface of the operating system it is built
    for: [Linux] and [Windows] hold the two versions, over what the system calls
    return; [Platform] is what the budget uses of them, and [PlatformBounds] the
    law its theorems rest on, which both versions satisfy. *)

From stdpp Require Import base numbers list option strings pretty.
From S2P Require Import Prelude.

#[local] Open Scope Z_scope.

Definition DEFAULT_HARD_RESERVATIONS : Z := 1.
Definition DEFAULT_SOFT_RESERVATIONS : Z := 0.
Definition DEFAULT_HEADROOM : Z := 1.
Definition MAX_CPU_SET_IDS : Z := 1024.
Definition MAX_LABEL_LENGTH : Z := 64.
Definition MAX_SNAPSHOT_COUNT : Z := 4096.
Definition UINT32_MAX : Z := 2 ^ 32 - 1.

Inductive ReservationKind := Hard | Soft | Unknown.

Record ThreadBudgetPolicy := mkThreadBudgetPolicy
  { hard_reservations : Z; soft_reservations : Z; headroom : Z }.

Definition new_ThreadBudgetPolicy : ThreadBudgetPolicy :=
  mkThreadBudgetPolicy DEFAULT_HARD_RESERVATIONS DEFAULT_SOFT_RESERVATIONS DEFAULT_HEADROOM.

Record ThreadBudgetSnapshot := mkThreadBudgetSnapshot
  { phase : string; owner : string; subsystem : string; configured_threads : Z;
    observed_threads : Z; peak_observed_threads : Z; sn_cpu_set_count : Z;
    sn_cpu_set_ids : list Z; sn_affinity_mask : Z; sn_cpu_set_source : string;
    timestamp_utc : string; reservation : ReservationKind }.

Record PlatformSnapshot := mkPlatformSnapshot
  { process_threads : Z; process_cpu_set_count : Z; cpu_set_ids : list Z;
    process_affinity_mask : Z; cpu_set_source : string }.

Definition vec_size {A} (v : list A) : Z := Z.of_nat (length v).

Definition ErrorMessage (operation : string) (code : Z) : string :=
  operation +:+ " failed with error " +:+ pretty code.

Definition count_overflow {A} : res A :=
  raise ThreadBudgetError "process thread count exceeded its measurement bound".
Definition cpu_set_overflow {A} : res A :=
  raise ThreadBudgetError "process CPU-set count exceeded its measurement bound".

(** ** The measurement on Linux *)

Module Linux.

(** What the system calls return: the entries of [/proc/self/task], or why the
    directory cannot be read; an exception that advancing the iterator ends
    with; the error of [sched_getaffinity], or the mask it fills in. *)
Record reading := mkReading
  { task_error : option string; tasks : nat; advance_error : option exn;
    affinity_error : option Z; mask : Z }.

Definition CPU_SETSIZE : nat := 1024.

Fixpoint count_entries (entries : nat) (count : Z) : res Z :=
  match entries with
  | O => Ok count
  | S entries =>
      if count =? UINT32_MAX then count_overflow
      else count_entries entries (u32 (count + 1))
  end.

Definition CountProcessThreads (os : reading) : res Z :=
  let entries := match task_error os with Some _ => O | None => tasks os end in
  count ← count_entries entries 0;
  match advance_error os, task_error os with
  | Some e, None => Throw e
  | _, Some message =>
      raise ThreadBudgetError ("reading /proc/self/task failed: " +:+ message)
  | None, None => Ok count
  end.

(** The loop from [cpu] on, over the [n] processors left. *)
Fixpoint collect_cpus (mask : Z) (n : nat) (cpu : Z) (ids : list Z) : res (list Z) :=
  match n with
  | O => Ok ids
  | S n =>
      if Z.testbit mask cpu then
        if MAX_CPU_SET_IDS <=? vec_size ids then cpu_set_overflow
        else collect_cpus mask n (u32 (cpu + 1)) (ids ++ [cpu])
      else collect_cpus mask n (u32 (cpu + 1)) ids
  end.

Definition CapturePlatformSnapshot (os : reading) : res PlatformSnapshot :=
  threads ← CountProcessThreads os;
  match affinity_error os with
  | Some errno => raise ThreadBudgetError (ErrorMessage "sched_getaffinity" errno)
  | None =>
      ids ← collect_cpus (mask os) CPU_SETSIZE 0 [];
      Ok (mkPlatformSnapshot threads (u32 (vec_size ids)) ids 0 "sched_getaffinity")
  end.

End Linux.

(** ** The measurement on Windows *)

Module Windows.

(** What the system calls return: the process and the threads of the system
    with the process of each; the errors; the CPU sets of the process and how
    many the first call announces; the affinity mask. *)
Record reading := mkReading
  { process_id : Z; snapshot_error : option Z; owners : list Z; last_error : Z;
    announced : Z; default_sets : Z + (list Z * Z); affinity : Z + Z }.

Definition ERROR_NO_MORE_FILES : Z := 18.

Fixpoint count_owned (process_id : Z) (owners : list Z) (count : Z) : res Z :=
  match owners with
  | [] => Ok count
  | o :: owners =>
      if o =? process_id then
        if count =? UINT32_MAX then count_overflow
        else count_owned process_id owners (u32 (count + 1))
      else count_owned process_id owners count
  end.

Definition CountProcessThreads (os : reading) : res Z :=
  match snapshot_error os with
  | Some error => raise ThreadBudgetError (ErrorMessage "CreateToolhelp32Snapshot" error)
  | None =>
      match owners os with
      | [] =>
          if last_error os =? ERROR_NO_MORE_FILES then Ok 0
          else raise ThreadBudgetError (ErrorMessage "Thread32First" (last_error os))
      | _ =>
          count ← count_owned (process_id os) (owners os) 0;
          if negb (last_error os =? ERROR_NO_MORE_FILES)
          then raise ThreadBudgetError (ErrorMessage "Thread32Next" (last_error os))
          else Ok count
      end
  end.

(** The bits of the 64-bit mask from [bit] on, [n] of them left. *)
Fixpoint mask_bits (mask : Z) (n : nat) (bit : Z) (ids : list Z) : list Z :=
  match n with
  | O => ids
  | S n =>
      mask_bits mask n (bit + 1)
        (if negb (Z.land mask (u64 (Z.shiftl 1 bit)) =? 0) then ids ++ [u32 bit] else ids)
  end.

Definition CapturePlatformSnapshot (os : reading) : res PlatformSnapshot :=
  threads ← CountProcessThreads os;
  if MAX_CPU_SET_IDS <? announced os then cpu_set_overflow
  else if 0 <? announced os then
    match default_sets os with
    | inl error => raise ThreadBudgetError (ErrorMessage "GetProcessDefaultCpuSets" error)
    | inr (cpu_set_ids, required) =>
        Ok (mkPlatformSnapshot threads (u32 required) (u32 <$> cpu_set_ids) 0
              "process_default_cpu_sets")
    end
  else
    match affinity os with
    | inl error => raise ThreadBudgetError (ErrorMessage "GetProcessAffinityMask" error)
    | inr processMask =>
        let ids := mask_bits processMask 64 0 [] in
        Ok (mkPlatformSnapshot threads (u32 (vec_size ids)) ids (u64 processMask)
              "process_affinity_mask")
    end.

End Windows.

(** ** The clock *)

(** The members of [std::tm] that are printed. *)
Record tm := mkTm
  { tm_year : Z; tm_mon : Z; tm_mday : Z; tm_hour : Z; tm_min : Z; tm_sec : Z }.

(** [setfill('0') << setw(width)]. *)
Definition padded (width : nat) (n : Z) : string :=
  let s := pretty n in
  String.concat "" (replicate (width - String.length s) "0") +:+ s.

(** [now] is the count of nanoseconds of the clock; [gmtime] is the function of
    the C library, which fails by returning null. *)
Definition TimestampUtc (gmtime : Z -> option tm) (now : Z) : res string :=
  let seconds := Z.quot now 1000000000 in
  let milliseconds := Z.quot (now - seconds * 1000000000) 1000000 in
  match gmtime seconds with
  | None => raise ThreadBudgetError "gmtime_r failed"
  | Some t =>
      Ok (pretty (1900 + tm_year t) +:+ "-" +:+ padded 2 (1 + tm_mon t) +:+ "-" +:+
          padded 2 (tm_mday t) +:+ "T" +:+ padded 2 (tm_hour t) +:+ ":" +:+
          padded 2 (tm_min t) +:+ ":" +:+ padded 2 (tm_sec t) +:+ "." +:+
          padded 3 milliseconds +:+ "Z")
  end.

(** ** The budget *)

(** What the budget uses of the platform it runs on: a measurement of what the
    system returns at the time, and the clock. *)
Class Platform (os : Type) :=
  { CapturePlatformSnapshot : os -> res PlatformSnapshot; Timestamp : os -> res string }.

Record ThreadBudget := mkThreadBudget
  { m_policy : ThreadBudgetPolicy; m_processCpuSetCount : Z; m_peakObservedThreads : Z;
    m_snapshots : list ThreadBudgetSnapshot }.

Definition new_ThreadBudget (policy : ThreadBudgetPolicy) : ThreadBudget :=
  mkThreadBudget policy 0 0 [].

Definition ReservationKindName (kind : ReservationKind) : string :=
  match kind with Hard => "hard" | Soft => "soft" | Unknown => "unknown" end.

Definition label_byte (character : Byte.byte) : bool :=
  negb ((u8 character <? 0x20) || (0x7e <? u8 character)).

Definition ValidateLabel (label : string) : res unit :=
  if str_empty label || (MAX_LABEL_LENGTH <? str_size label)
  then raise ThreadBudgetError "thread budget label is outside its bound"
  else if forallb label_byte (bytes_of_string label) then Ok tt
  else raise ThreadBudgetError "thread budget label contains a control byte".

Definition AvailableWorkerCount (b : ThreadBudget) : Z :=
  let reserved :=
    u64 (u64 (hard_reservations (m_policy b) + soft_reservations (m_policy b)) +
         headroom (m_policy b)) in
  if m_processCpuSetCount b <=? reserved then 0
  else u32 (m_processCpuSetCount b - u32 reserved).

Definition CanReserveWorkers (requested : Z) (b : ThreadBudget) : bool :=
  (0 <? requested) && (requested <=? AvailableWorkerCount b).

Section budget.
Context {os : Type} `{Platform os}.

Definition QueryProcessCpuSetCount (now : os) : res Z :=
  platform ← CapturePlatformSnapshot now;
  if process_cpu_set_count platform =? 0
  then raise ThreadBudgetError "platform returned an empty CPU set"
  else Ok (process_cpu_set_count platform).

(** The snapshot that a measurement makes, and the budget that holds it. *)
Definition snapshot_of (phase owner subsystem : string) (configured_threads : Z)
    (reservation : ReservationKind) (platform : PlatformSnapshot) (timestamp : string)
    (b : ThreadBudget) : ThreadBudgetSnapshot :=
  mkThreadBudgetSnapshot phase owner subsystem configured_threads (process_threads platform)
    (Z.max (m_peakObservedThreads b) (process_threads platform))
    (process_cpu_set_count platform) (cpu_set_ids platform) (process_affinity_mask platform)
    (cpu_set_source platform) timestamp reservation.

Definition record_snapshot (snapshot : ThreadBudgetSnapshot) (b : ThreadBudget) : ThreadBudget :=
  mkThreadBudget (m_policy b) (sn_cpu_set_count snapshot) (peak_observed_threads snapshot)
    (m_snapshots b ++ [snapshot]).

Definition Capture (now : os) (phase owner subsystem : string) (configured_threads : Z)
    (reservation : ReservationKind) : M ThreadBudget ThreadBudgetSnapshot :=
  b ← get;
  if MAX_SNAPSHOT_COUNT <=? vec_size (m_snapshots b)
  then throw ThreadBudgetError "thread budget snapshot limit was exceeded"
  else
    lift (ValidateLabel phase);;
    lift (ValidateLabel owner);;
    lift (ValidateLabel subsystem);;
    platform ← lift (CapturePlatformSnapshot now);
    if (process_threads platform =? 0) || (process_cpu_set_count platform =? 0)
    then throw ThreadBudgetError "platform returned an empty thread budget"
    else
      timestamp ← lift (Timestamp now);
      let snapshot :=
        snapshot_of phase owner subsystem configured_threads reservation platform timestamp b in
      modify (record_snapshot snapshot);;
      mret snapshot.

End budget.

(** ** What the platforms promise *)

(** The measurements fit the types they are stored in. *)
Class PlatformBounds (os : Type) `{Platform os} :=
  measured_range : forall now s, CapturePlatformSnapshot now = Ok s ->
    in_u 32 (process_threads s) /\ in_u 32 (process_cpu_set_count s) /\
    Forall (in_u 32) (cpu_set_ids s).

(** A reading of the system and of the clock. *)
Definition linux (gmtime : Z -> option tm) : Platform (Linux.reading * Z) :=
  {| CapturePlatformSnapshot os := Linux.CapturePlatformSnapshot os.1;
     Timestamp os := TimestampUtc gmtime os.2 |}.
Definition windows (gmtime : Z -> option tm) : Platform (Windows.reading * Z) :=
  {| CapturePlatformSnapshot os := Windows.CapturePlatformSnapshot os.1;
     Timestamp os := TimestampUtc gmtime os.2 |}.

Lemma count_entries_range n count c :
  in_u 32 count -> Linux.count_entries n count = Ok c -> in_u 32 c.
Proof.
  revert count. induction n as [|n IH]; intros count Hc; cbn; [by intros [= <-]|].
  destruct (Z.eqb_spec count UINT32_MAX); [done|]. apply IH. by apply wrap_u_range.
Qed.

Lemma count_owned_range p owners count c :
  in_u 32 count -> Windows.count_owned p owners count = Ok c -> in_u 32 c.
Proof.
  revert count. induction owners as [|o owners IH]; intros count Hc; cbn; [by intros [= <-]|].
  destruct (o =? p); [|by apply IH].
  destruct (Z.eqb_spec count UINT32_MAX); [done|]. apply IH. by apply wrap_u_range.
Qed.

(** The processors of a mask are collected in increasing order, each once. *)
Lemma collect_cpus_spec mask n cpu ids :
  0 <= cpu -> cpu + Z.of_nat n < 2 ^ 32 -> vec_size ids + Z.of_nat n <= MAX_CPU_SET_IDS ->
  Linux.collect_cpus mask n cpu ids = Ok (ids ++ filter (Z.testbit mask) (seqZ cpu (Z.of_nat n))).
Proof.
  revert cpu ids. induction n as [|n IH]; intros cpu ids H0 Hlt Hsz; cbn [Linux.collect_cpus].
  { by rewrite app_nil_r. }
  rewrite seqZ_cons by lia. unfold vec_size in *. rewrite wrap_u_small by (split; lia).
  replace (Z.pred (Z.of_nat (S n))) with (Z.of_nat n) by lia.
  destruct (Z.testbit mask cpu) eqn:Ht.
  - destruct (Z.leb_spec MAX_CPU_SET_IDS (Z.of_nat (length ids))); [lia|].
    rewrite IH; [|lia|lia|rewrite length_app; cbn; lia].
    rewrite <- app_assoc, filter_cons_True by (by rewrite Ht). done.
  - rewrite IH by lia. rewrite filter_cons_False; [done|]. rewrite Ht. tauto.
Qed.

Lemma mask_bits_spec mask n bit ids :
  0 <= bit -> bit + Z.of_nat n <= 64 -> Forall (in_u 32) ids ->
  Forall (in_u 32) (Windows.mask_bits mask n bit ids) /\
  (length (Windows.mask_bits mask n bit ids) <= length ids + n)%nat.
Proof.
  revert bit ids. induction n as [|n IH]; intros bit ids H0 Hlt Hids; cbn [Windows.mask_bits].
  { split; [done|lia]. }
  destruct (negb _).
  - destruct (IH (bit + 1) (ids ++ [u32 bit])) as [Hf Hl]; [lia|lia| |].
    { apply Forall_app. split; [done|]. constructor; [by apply wrap_u_range|done]. }
    split; [done|]. rewrite length_app in Hl. cbn in Hl. lia.
  - destruct (IH (bit + 1) ids) as [Hf Hl]; [lia..|done|]. split; [done|lia].
Qed.

#[export] Instance linux_bounds gmtime : @PlatformBounds _ (linux gmtime).
Proof.
  intros [os now] s. cbn. unfold Linux.CapturePlatformSnapshot. intros H. res_inv.
  destruct (Linux.affinity_error os); [done|]. rewrite collect_cpus_spec in H by done.
  injection H as <-. cbn. split_and!.
  - unfold Linux.CountProcessThreads in Ha. res_inv.
    destruct (Linux.advance_error os), (Linux.task_error os); try done;
      injection Ha as <-; by eapply count_entries_range.
  - by apply wrap_u_range.
  - apply Forall_forall. intros c [_ Hc%elem_of_seqZ]%list_elem_of_filter.
    unfold Linux.CPU_SETSIZE in Hc. split; lia.
Qed.


#[export] Instance windows_bounds gmtime : @PlatformBounds _ (windows gmtime).
Proof.
  intros [os now] s. cbn. unfold Windows.CapturePlatformSnapshot. intros H. res_inv.
  assert (in_u 32 a).
  { unfold Windows.CountProcessThreads in Ha. destruct (Windows.snapshot_error os); [done|].
    destruct (Windows.owners os) as [|o owners]; [by destruct (_ =? _); simplify_eq|].
    res_inv. destruct (negb _); [done|]. injection Ha as <-. by eapply count_owned_range. }
  destruct (_ <? _); [done|]. destruct (0 <? _).
  - destruct (Windows.default_sets os) as [|[ids required]]; [done|]. injection H as <-. cbn.
    split_and!; [done|by apply wrap_u_range|]. apply Forall_fmap, Forall_true.
    intros c. by apply wrap_u_range.
  - destruct (Windows.affinity os) as [|mask]; [done|].
    assert (Forall (in_u 32) (Windows.mask_bits mask 64 0 [])) as Hids.
    { apply mask_bits_spec; [lia|lia|constructor]. }
    revert Hids H. generalize (Windows.mask_bits mask 64 0 []). intros ids Hids [= <-].
    split_and!; [done|by apply wrap_u_range|exact Hids].
Qed.

(** On Linux the count is that of the processors listed, each listed once. *)
Lemma linux_count os s :
  Linux.CapturePlatformSnapshot os = Ok s ->
  process_cpu_set_count s = vec_size (cpu_set_ids s) /\ NoDup (cpu_set_ids s).
Proof.
  unfold Linux.CapturePlatformSnapshot. intros H. res_inv.
  destruct (Linux.affinity_error os); [done|]. rewrite collect_cpus_spec in H by done.
  injection H as <-. cbn [process_cpu_set_count cpu_set_ids app]. split.
  - apply wrap_u_small. unfold in_u, vec_size.
    pose proof (length_filter (Z.testbit (Linux.mask os)) (seqZ 0 (Z.of_nat Linux.CPU_SETSIZE))) as Hl.
    rewrite length_seqZ in Hl. unfold Linux.CPU_SETSIZE in *. lia.
  - apply NoDup_filter, NoDup_seqZ.
Qed.

(** ** The budget keeps its bounds *)

Section budget_spec.
Context {os : Type} `{PlatformBounds os}.

Definition policy_ok (p : ThreadBudgetPolicy) : Prop :=
  in_u 32 (hard_reservations p) /\ in_u 32 (soft_reservations p) /\ in_u 32 (headroom p).

(** The peak is the greatest count observed, and the count of processors is the
    one measured last. *)
Record budget_ok (b : ThreadBudget) : Prop := mkBudgetOk
  { bo_policy : policy_ok (m_policy b);
    bo_cpus : in_u 32 (m_processCpuSetCount b);
    bo_snapshots : vec_size (m_snapshots b) <= MAX_SNAPSHOT_COUNT;
    bo_last : m_processCpuSetCount b = default 0 (sn_cpu_set_count <$> last (m_snapshots b));
    bo_peak : m_peakObservedThreads b =
      foldl Z.max 0 (observed_threads <$> m_snapshots b) }.

Lemma new_budget_ok p : policy_ok p -> budget_ok (new_ThreadBudget p).
Proof. intros Hp. by split. Qed.

(** What the reservations leave of the processors, which no sum overflows. *)
Definition reserved (p : ThreadBudgetPolicy) : Z :=
  hard_reservations p + soft_reservations p + headroom p.

Lemma AvailableWorkerCount_eq b :
  budget_ok b -> AvailableWorkerCount b = Z.max 0 (m_processCpuSetCount b - reserved (m_policy b)).
Proof.
  intros [(Hh & Hs & Hr) Hc _ _ _]. unfold AvailableWorkerCount, reserved, in_u in *.
  rewrite !(wrap_u_small 64) by (unfold in_u; rewrite ?wrap_u_small; unfold in_u; lia).
  destruct (Z.leb_spec (m_processCpuSetCount b)
    (hard_reservations (m_policy b) + soft_reservations (m_policy b) + headroom (m_policy b))); [lia|].
  rewrite !wrap_u_small by (unfold in_u; rewrite ?wrap_u_small; unfold in_u; lia). lia.
Qed.

(** When a snapshot can be taken, and what it then holds. *)
Definition capturable (now : os) (phase owner subsystem : string) (b : ThreadBudget)
    (platform : PlatformSnapshot) (timestamp : string) : Prop :=
  vec_size (m_snapshots b) < MAX_SNAPSHOT_COUNT /\
  ValidateLabel phase = Ok tt /\ ValidateLabel owner = Ok tt /\ ValidateLabel subsystem = Ok tt /\
  CapturePlatformSnapshot now = Ok platform /\
  process_threads platform <> 0 /\ process_cpu_set_count platform <> 0 /\
  Timestamp now = Ok timestamp.

Lemma Capture_captures now phase owner subsystem n kind b platform timestamp :
  capturable now phase owner subsystem b platform timestamp ->
  let snapshot := snapshot_of phase owner subsystem n kind platform timestamp b in
  Capture now phase owner subsystem n kind b = (Ok snapshot, record_snapshot snapshot b).
Proof.
  intros (Hn & Hp & Ho & Hs & Hc & Ht & Hcpu & Hts) snapshot.
  unfold Capture, mbind, M_bind, get, lift. rewrite (proj2 (Z.leb_gt _ _)) by done.
  rewrite Hp, Ho, Hs, Hc. rewrite (proj2 (Z.eqb_neq _ _) Ht), (proj2 (Z.eqb_neq _ _) Hcpu).
  cbn [orb]. by rewrite Hts.
Qed.

(** The other way around: nothing else returns, and nothing else changes the
    budget. *)
Lemma Capture_inv now phase owner subsystem n kind b :
  (exists platform timestamp, capturable now phase owner subsystem b platform timestamp) \/
  ((Capture now phase owner subsystem n kind b).2 = b /\
   forall sn, (Capture now phase owner subsystem n kind b).1 <> Ok sn).
Proof.
  unfold Capture, mbind, M_bind, get, lift, throw.
  destruct (Z.leb_spec MAX_SNAPSHOT_COUNT (vec_size (m_snapshots b))); [by right|].
  destruct (ValidateLabel phase) as [[]| | |] eqn:Hp; [|by right..].
  destruct (ValidateLabel owner) as [[]| | |] eqn:Ho; [|by right..].
  destruct (ValidateLabel subsystem) as [[]| | |] eqn:Hs; [|by right..].
  destruct (CapturePlatformSnapshot now) as [platform| | |] eqn:Hc; [|by right..].
  destruct (Z.eqb_spec (process_threads platform) 0); [by right|].
  destruct (Z.eqb_spec (process_cpu_set_count platform) 0); [by right|]. cbn [orb].
  destruct (Timestamp now) as [timestamp| | |] eqn:Hts; [|by right..].
  left. exists platform, timestamp. by split_and!.
Qed.

Lemma record_snapshot_ok now phase owner subsystem n kind b platform timestamp :
  capturable now phase owner subsystem b platform timestamp -> budget_ok b ->
  budget_ok (record_snapshot (snapshot_of phase owner subsystem n kind platform timestamp b) b).
Proof.
  intros (Hn & _ & _ & _ & Hc & _) [Hp _ _ _ Hpeak].
  destruct (measured_range now platform Hc) as (Ht & Hcpu & _). split; cbn.
  - done.
  - done.
  - unfold vec_size in *. rewrite length_app. cbn. lia.
  - by rewrite last_snoc.
  - rewrite fmap_app, foldl_app, <- Hpeak. done.
Qed.

Lemma Capture_ok now phase owner subsystem n kind b :
  budget_ok b -> budget_ok (Capture now phase owner subsystem n kind b).2.
Proof.
  intros Hb. destruct (Capture_inv now phase owner subsystem n kind b) as [(p & t & Hc)|[-> _]];
    [|done]. erewrite Capture_captures by done. by eapply record_snapshot_ok.
Qed.

End budget_spec.
