(* ===== verification/JobRuntime.v ===== *)
(** * The job runtime

    [src/src/jobs/job_runtime.{h,cpp}]: the executor of jobs behind a lifecycle,
    and the handles of the jobs submitted.

    The executor is Taskflow's, a third-party library: [Executor] is what the
    runtime uses of it, and [ExecutorLaws] the documented behaviour the theorems
    rest on. *)

From stdpp Require Import base numbers list option strings.
From S2P Require Import Prelude ThreadBudget.

#[local] Open Scope Z_scope.

Definition MAX_PARALLEL_FOR_ITEMS : Z := 1000000.
Definition MAX_JOB_WORKERS : Z := 64.

(** [tf::Executor] and [tf::Taskflow]. A future is the number of a run;
    [result] is what [get] of a future will do, once it is ready: return, or
    throw. [wait_for_all] is [None] while it blocks. [advance] is what the
    workers do on their own. *)
Class Executor :=
  { executor : Type; taskflow : Type; callable : Type;
    new_executor : Z -> executor;
    run : taskflow -> M executor nat;
    for_each_index : Z -> Z -> Z -> callable -> taskflow;
    issued : executor -> list nat;
    result : executor -> nat -> option (option exn);
    cancel : nat -> executor -> bool * executor;
    wait_for_all : executor -> option (res unit);
    advance : executor -> executor -> Prop }.

(** A run is new, or throws and starts nothing; a result never changes; waiting
    for all jobs returns when every run has its result. *)
Class ExecutorLaws `{Executor} :=
  { run_returns e t : wp (run t)
      (fun f e' => f ∉ issued e /\ issued e' = f :: issued e /\
         forall g r, result e g = Some r -> result e' g = Some r)
      (fun _ e' => e' = e) e;
    advance_keeps e e' f r : advance e e' -> result e f = Some r -> result e' f = Some r;
    advance_issued e e' : advance e e' -> issued e' = issued e;
    wait_for_all_defined e r : wait_for_all e = Some r -> defined r;
    wait_for_all_returns e : (forall f, f ∈ issued e -> result e f <> None) ->
      wait_for_all e <> None }.

Inductive RuntimeState := Running | StopRequested | Draining | Stopped.

#[export] Instance RuntimeState_eq_dec : EqDecision RuntimeState.
Proof. solve_decision. Defined.

(** ** Handles *)

(** A future is valid until its result is taken. *)
Record TaskHandle := mkTaskHandle { m_future : option nat }.

Definition Valid (h : TaskHandle) : bool := if m_future h is Some _ then true else false.

Section runtime.
Context `{Executor}.

Definition Cancel (h : TaskHandle) (e : executor) : bool * executor :=
  match m_future h with
  | None => (false, e)
  | Some f => cancel f e
  end.

(** [Wait] blocks until the result is there, and leaves the future invalid. *)
Definition TaskHandle_Wait (h : TaskHandle) (e : executor) : option (res unit * TaskHandle) :=
  match m_future h with
  | None => Some (raise JobRuntimeError "job handle has no unconsumed result", h)
  | Some f =>
      match result e f with
      | None => None
      | Some None => Some (Ok tt, mkTaskHandle None)
      | Some (Some error) =>
          Some (Throw (NestedExn JobExecutionError "job execution failed" (Some error)),
                mkTaskHandle None)
      end
  end.

(** ** The runtime *)

Record JobRuntime := mkJobRuntime
  { m_worker_count : Z; m_executor : executor; m_state : RuntimeState }.

Definition set_state (state : RuntimeState) (j : JobRuntime) : JobRuntime :=
  mkJobRuntime (m_worker_count j) (m_executor j) state.
Definition set_executor (e : executor) (j : JobRuntime) : JobRuntime :=
  mkJobRuntime (m_worker_count j) e (m_state j).

Definition PrepareWorkerCount {os} `{Platform os} (now : os) (requested : Z)
    : M ThreadBudget Z :=
  if (requested =? 0) || (MAX_JOB_WORKERS <? requested)
  then throw JobRuntimeError "job worker count is outside its bound"
  else
    Capture now "job-runtime-preflight" "runtime-owner" "taskflow" requested Hard;;
    b ← get;
    if negb (CanReserveWorkers requested b)
    then throw JobRuntimeError "job workers exceed measured thread headroom"
    else mret requested.

Definition new_JobRuntime {os} `{Platform os} (now : os) (worker_count : Z)
    : M ThreadBudget JobRuntime :=
  count ← PrepareWorkerCount now worker_count;
  mret (mkJobRuntime count (new_executor count) Running).

(** The [catch] of [Submit]: an exception of the executor is nested in one of
    the runtime. *)
Definition submission {A} (m : M executor A) : M JobRuntime A := fun j =>
  match m (m_executor j) with
  | (Throw e, e') =>
      (Throw (NestedExn JobRuntimeError "job submission failed" (Some e)), set_executor e' j)
  | (r, e') => (r, set_executor e' j)
  end.

Definition Submit (flow : taskflow) : M JobRuntime TaskHandle :=
  j ← get;
  if negb (bool_decide (m_state j = Running))
  then throw JobRuntimeError "job submission rejected after stop request"
  else f ← submission (run flow); mret (mkTaskHandle (Some f)).

Definition SubmitReusable (flow : taskflow) : M JobRuntime TaskHandle :=
  j ← get;
  if negb (bool_decide (m_state j = Running))
  then throw JobRuntimeError "job submission rejected after stop request"
  else f ← submission (run flow); mret (mkTaskHandle (Some f)).

Definition ParallelFor (first last : Z) (f : callable) : M JobRuntime TaskHandle :=
  if last <? first then throw JobRuntimeError "parallel-for range is reversed"
  else if MAX_PARALLEL_FOR_ITEMS <? u64 (last - first)
  then throw JobRuntimeError "parallel-for range exceeds its bound"
  else Submit (for_each_index first last 1 f).

Definition RequestStop : M JobRuntime unit :=
  j ← get;
  if bool_decide (m_state j = Running) then modify (set_state StopRequested) else mret tt.

(** [Drain] up to the wait: whether it goes on. *)
Definition Drain_begin : M JobRuntime bool :=
  j ← get;
  if bool_decide (m_state j = Stopped) then mret false
  else
    (if bool_decide (m_state j = Running) then modify (set_state StopRequested) else mret tt);;
    modify (set_state Draining);;
    mret true.

(** [Drain] after the wait. *)
Definition Drain_end : M JobRuntime unit := modify (set_state Stopped).

(** The whole of [Drain] when nothing runs beside it; [None] while it blocks. *)
Definition Drain (j : JobRuntime) : option (res unit * JobRuntime) :=
  match Drain_begin j with
  | (Ok true, j) =>
      r ← wait_for_all (m_executor j);
      match r with
      | Ok _ => Some (Drain_end j)
      | r => Some (r, j)
      end
  | (Ok false, j) => Some (Ok tt, j)
  | (Throw e, j) => Some (Throw e, j)
  | (Undefined, j) => Some (Undefined, j)
  | (OutOfFuel, j) => Some (OutOfFuel, j)
  end.

Definition State (j : JobRuntime) : RuntimeState := m_state j.
Definition WorkerCount (j : JobRuntime) : Z := m_worker_count j.

(** The destructor: an exception terminates. *)
Definition ShutdownNoexcept (j : JobRuntime) : option (res unit * JobRuntime) :=
  match Drain j with
  | Some (Throw _, j) => Some (Undefined, j)
  | r => r
  end.

End runtime.

(** ** Workers within the budget *)

Section workers.
Context {os : Type} `{PlatformBounds os}.

(** When [requested] workers can be had: the measurement succeeds and finds
    room for them beside the reservations. *)
Definition available (now : os) (requested : Z) (b : ThreadBudget) : Prop :=
  1 <= requested <= MAX_JOB_WORKERS /\
  exists platform timestamp,
    capturable now "job-runtime-preflight" "runtime-owner" "taskflow" b platform timestamp /\
    requested + reserved (m_policy b) <= process_cpu_set_count platform.

(** A job runtime starts exactly when the number of workers is within its
    bound and the processors just measured have room for them beside the
    reservations and the headroom, no sum wrapping around; the budget then holds
    one more snapshot, and whatever happens its bounds are kept. *)
Theorem PrepareWorkerCount_headroom now requested b :
  budget_ok b -> in_u 32 requested ->
  budget_ok (PrepareWorkerCount now requested b).2 /\
  ((PrepareWorkerCount now requested b).1 = Ok requested <-> available now requested b) /\
  (forall n, (PrepareWorkerCount now requested b).1 = Ok n ->
     n = requested /\ exists sn, (PrepareWorkerCount now requested b).2 = record_snapshot sn b).
Proof.
  intros Hb Hr. unfold PrepareWorkerCount, available, in_u, MAX_JOB_WORKERS in *.
  destruct (Z.eqb_spec requested 0); cbn [orb].
  { split_and!; [done| |done]. split; [done|lia]. }
  destruct (Z.ltb_spec 64 requested); [split_and!; [done| |done]; split; [done|lia]|].
  unfold mbind, M_bind, get, throw.
  destruct (Capture_inv now "job-runtime-preflight" "runtime-owner" "taskflow" requested Hard b)
    as [(platform & timestamp & Hc)|[Heq Hno]].
  - pose proof (record_snapshot_ok _ _ _ _ requested Hard _ _ _ Hc Hb) as Hok.
    rewrite (Capture_captures _ _ _ _ requested Hard _ _ _ Hc).
    unfold CanReserveWorkers. rewrite (AvailableWorkerCount_eq _ Hok).
    cbn [m_policy m_processCpuSetCount record_snapshot sn_cpu_set_count snapshot_of].
    assert (Hu : forall p t, capturable now "job-runtime-preflight" "runtime-owner" "taskflow" b p t ->
      p = platform).
    { intros p t (_ & _ & _ & _ & Hp & _). destruct Hc as (_ & _ & _ & _ & Hc & _). congruence. }
    destruct (Z.ltb_spec 0 requested); [|lia]. cbn [andb].
    destruct (Z.leb_spec requested
      (Z.max 0 (process_cpu_set_count platform - reserved (m_policy b)))); cbn [negb].
    + split_and!; [done| |by intros k [= <-]; eauto].
      split; [|done]. intros _. split; [lia|]. exists platform, timestamp. split; [done|lia].
    + split_and!; [done| |done]. split; [done|].
      intros (_ & p & t & Hp%Hu & Hle). subst p. lia.
  - destruct (Capture now _ _ _ _ _ b) as [[sn|e| |] b'] eqn:Hcap; cbn in Heq; subst b';
      [by destruct (Hno sn)|..].
    all: split_and!; [done| |done]; split; [done|]; intros (_ & p & t & Hp & _);
      rewrite (Capture_captures _ _ _ _ requested Hard _ _ _ Hp) in Hcap; done.
Qed.

End workers.

(** ** Example

    Eight processors, the reservations of the default policy, and four workers. *)

Definition example_gmtime (seconds : Z) : option tm := Some (mkTm 126 0 1 0 0 (seconds mod 60)).
Definition example_reading : Linux.reading * Z := (Linux.mkReading None 3 None None 255, 1500000000).
Definition example_budget : ThreadBudget := new_ThreadBudget new_ThreadBudgetPolicy.

Lemma PrepareWorkerCount_headroom_witness :
  budget_ok (@PrepareWorkerCount _ (linux example_gmtime) example_reading 4 example_budget).2 /\
  (@PrepareWorkerCount _ (linux example_gmtime) example_reading 4 example_budget).1 = Ok 4.
Proof.
  assert (Hb : budget_ok example_budget) by (apply new_budget_ok; by split_and!).
  destruct (@PrepareWorkerCount_headroom _ (linux example_gmtime) (linux_bounds example_gmtime)
              example_reading 4 example_budget Hb ltac:(done)) as (Hok & _ & _).
  split; [exact Hok|vm_compute; reflexivity].
Defined.
