(* ===== verification/RuntimeSupervisor.v ===== *)
(** * The runtime supervisor

    [src/src/runtime/runtime_supervisor.{h,cpp}]: the lifecycle of a runtime over
    its job runtime, the tasks submitted and not yet waited for, and the first
    failure of any of them.

    The supervisor is called from several threads. What it does under its
    submission mutex is one step; between the steps of a call the other threads
    run. [action] is where a thread is in a call: the constructors are the
    points of the source between two critical sections. One access is outside the
    mutex, the clearing of the pending tasks: two threads at conflicting accesses
    race ([racing]), and their steps go wrong. *)

From stdpp Require Import base numbers list option strings gmap.
From S2P Require Import Prelude FramePacketChannel JobRuntime.

#[local] Open Scope Z_scope.

Definition MAX_PENDING_RUNTIME_TASKS : Z := 4096.
Definition TASK_ID_MAX : Z := 2 ^ 64 - 1.

Abbreviation TaskId := Z (only parsing).

Module LifecycleState.
Inductive type := Starting | Running | StopRequested | Draining | Stopped | Failed.
End LifecycleState.
Import (notations) LifecycleState.

#[export] Instance LifecycleState_eq_dec : EqDecision LifecycleState.type.
Proof. solve_decision. Defined.

Inductive FailureSource := Job | Owner | FrameChannel.

(** An [exception_ptr] that is not null is the exception. *)
Record RuntimeFailure := mkRuntimeFailure { source : FailureSource; error : exn }.

Record PendingTask := mkPendingTask { id : TaskId; task_handle : TaskHandle }.

Definition vec_size {A} (v : list A) : Z := Z.of_nat (length v).

Section supervisor.
Context `{Executor}.

(** The members, with the owner of [m_drain_mutex]. *)
Record RuntimeSupervisor := mkRuntimeSupervisor
  { m_jobs : JobRuntime; stop_requested : bool; drain_owner : option thread_id;
    m_lifecycle : LifecycleState.type; m_failure : option RuntimeFailure;
    m_pending_tasks : list PendingTask; m_next_task_id : TaskId; m_active_consumers : Z }.

Implicit Types (s : RuntimeSupervisor).

Definition set_jobs (j : JobRuntime) s : RuntimeSupervisor :=
  mkRuntimeSupervisor j (stop_requested s) (drain_owner s) (m_lifecycle s) (m_failure s)
    (m_pending_tasks s) (m_next_task_id s) (m_active_consumers s).
Definition set_stop_requested s : RuntimeSupervisor :=
  mkRuntimeSupervisor (m_jobs s) true (drain_owner s) (m_lifecycle s) (m_failure s)
    (m_pending_tasks s) (m_next_task_id s) (m_active_consumers s).
Definition set_drain_owner (t : option thread_id) s : RuntimeSupervisor :=
  mkRuntimeSupervisor (m_jobs s) (stop_requested s) t (m_lifecycle s) (m_failure s)
    (m_pending_tasks s) (m_next_task_id s) (m_active_consumers s).
Definition set_lifecycle (l : LifecycleState.type) s : RuntimeSupervisor :=
  mkRuntimeSupervisor (m_jobs s) (stop_requested s) (drain_owner s) l (m_failure s)
    (m_pending_tasks s) (m_next_task_id s) (m_active_consumers s).
Definition set_failure (f : RuntimeFailure) s : RuntimeSupervisor :=
  mkRuntimeSupervisor (m_jobs s) (stop_requested s) (drain_owner s) (m_lifecycle s) (Some f)
    (m_pending_tasks s) (m_next_task_id s) (m_active_consumers s).
Definition set_pending (l : list PendingTask) s : RuntimeSupervisor :=
  mkRuntimeSupervisor (m_jobs s) (stop_requested s) (drain_owner s) (m_lifecycle s) (m_failure s)
    l (m_next_task_id s) (m_active_consumers s).
Definition set_next_task_id (n : TaskId) s : RuntimeSupervisor :=
  mkRuntimeSupervisor (m_jobs s) (stop_requested s) (drain_owner s) (m_lifecycle s) (m_failure s)
    (m_pending_tasks s) n (m_active_consumers s).
Definition set_consumers (n : Z) s : RuntimeSupervisor :=
  mkRuntimeSupervisor (m_jobs s) (stop_requested s) (drain_owner s) (m_lifecycle s) (m_failure s)
    (m_pending_tasks s) (m_next_task_id s) n.

Definition with_jobs {A} (m : M JobRuntime A) : M RuntimeSupervisor A := on m_jobs set_jobs m.

Definition state_in (l : list LifecycleState.type) s : bool := bool_decide (m_lifecycle s ∈ l).

(** The constructor, over the job runtime it makes. *)
Definition new_RuntimeSupervisor {os} `{ThreadBudget.Platform os} (now : os) (worker_count : Z)
    : M ThreadBudget.ThreadBudget RuntimeSupervisor :=
  jobs ← new_JobRuntime now worker_count;
  mret (mkRuntimeSupervisor jobs false None LifecycleState.Starting None [] 1 0).

(** ** The critical sections *)

Definition Start : M RuntimeSupervisor unit :=
  s ← get;
  if negb (state_in [LifecycleState.Starting] s)
  then throw RuntimeSupervisorError "runtime supervisor was already started"
  else if (if m_failure s is Some _ then true else false)
  then throw RuntimeSupervisorError "runtime supervisor cannot start after a failure"
  else modify (set_lifecycle LifecycleState.Running).

(** The body of [Submit] and of [SubmitReusable] after the guards: [m] submits
    to the job runtime. *)
Definition submit_task (m : M JobRuntime TaskHandle) : M RuntimeSupervisor TaskId :=
  handle ← with_jobs m;
  s ← get;
  let task_id := m_next_task_id s in
  modify (set_next_task_id (u64 (task_id + 1)));;
  modify (fun s => set_pending (m_pending_tasks s ++ [mkPendingTask task_id handle]) s);;
  mret task_id.

Definition Submit (flow : taskflow) : M RuntimeSupervisor TaskId :=
  s ← get;
  if negb (state_in [LifecycleState.Running] s)
  then throw RuntimeSupervisorError "runtime submission rejected outside the running state"
  else if MAX_PENDING_RUNTIME_TASKS <=? vec_size (m_pending_tasks s)
  then throw RuntimeSupervisorError "runtime pending-task bound was exceeded"
  else if m_next_task_id s =? TASK_ID_MAX
  then throw RuntimeSupervisorError "runtime task identifier exhausted"
  else submit_task (JobRuntime.Submit flow).

Definition SubmitReusable (flow : taskflow) : M RuntimeSupervisor TaskId :=
  s ← get;
  if negb (state_in [LifecycleState.Running] s)
  then throw RuntimeSupervisorError "runtime submission rejected outside the running state"
  else if MAX_PENDING_RUNTIME_TASKS <=? vec_size (m_pending_tasks s)
  then throw RuntimeSupervisorError "runtime pending-task bound was exceeded"
  else if m_next_task_id s =? TASK_ID_MAX
  then throw RuntimeSupervisorError "runtime task identifier exhausted"
  else submit_task (JobRuntime.SubmitReusable flow).

(** [std::find_if] and [erase]: the first task of the number, and the others. *)
Fixpoint take_task (task_id : TaskId) (tasks : list PendingTask)
    : option (PendingTask * list PendingTask) :=
  match tasks with
  | [] => None
  | task :: tasks =>
      if id task =? task_id then Some (task, tasks)
      else '(found, rest) ← take_task task_id tasks; Some (found, task :: rest)
  end.

(** [Wait] up to the end of its critical section. *)
Definition Wait_take (task_id : TaskId) : M RuntimeSupervisor PendingTask :=
  if task_id =? 0 then throw RuntimeSupervisorError "runtime task identifier is invalid"
  else
    s ← get;
    match take_task task_id (m_pending_tasks s) with
    | None => throw RuntimeSupervisorError "runtime task identifier was not pending"
    | Some (task, rest) =>
        modify (set_pending rest);;
        modify (fun s => set_consumers (u64 (m_active_consumers s + 1)) s);;
        mret task
    end.

Definition RecordFailure (src : FailureSource) (error : option exn) : M RuntimeSupervisor unit :=
  match error with
  | None => throw RuntimeSupervisorError "runtime failure has no exception"
  | Some error =>
      s ← get;
      if state_in [LifecycleState.Stopped] s
      then throw RuntimeSupervisorError "runtime failure was reported after shutdown"
      else
        (if m_failure s is None then modify (set_failure (mkRuntimeFailure src error))
         else mret tt);;
        (if state_in [LifecycleState.Starting; LifecycleState.Running] s
         then modify (set_lifecycle LifecycleState.StopRequested) else mret tt)
  end.

(** [RequestStop] under the mutex; [m_stop_source.request_stop()] comes first. *)
Definition RequestStop_locked : M RuntimeSupervisor unit :=
  s ← get;
  (if state_in [LifecycleState.Starting; LifecycleState.Running] s
   then modify (set_lifecycle LifecycleState.StopRequested) else mret tt);;
  s ← get;
  if state_in [LifecycleState.Stopped] s then mret tt else with_jobs RequestStop.

(** [ReleaseConsumer]: whether the threads waiting for the consumers are
    notified. *)
Definition ReleaseConsumer : M RuntimeSupervisor bool :=
  s ← get;
  if m_active_consumers s =? 0
  then throw RuntimeSupervisorError "runtime consumer count underflowed"
  else
    modify (fun s => set_consumers (m_active_consumers s - 1) s);;
    s ← get;
    mret (m_active_consumers s =? 0).

(** [Drain] under the submission mutex: the tasks taken over, or nothing when
    the supervisor has stopped already. *)
Definition Drain_take : M RuntimeSupervisor (option (list PendingTask)) :=
  s ← get;
  if state_in [LifecycleState.Stopped] s then mret None
  else
    (if state_in [LifecycleState.Starting; LifecycleState.Running; LifecycleState.StopRequested] s
     then modify (set_lifecycle LifecycleState.Draining) else mret tt);;
    with_jobs RequestStop;;
    s ← get;
    modify (set_pending []);;
    mret (Some (m_pending_tasks s)).

(** The end of [Drain], once no consumer is left. *)
Definition Drain_settle : M RuntimeSupervisor unit :=
  modify (fun s => set_lifecycle
    (if m_failure s is Some _ then LifecycleState.Failed else LifecycleState.Stopped) s).

Definition State s : LifecycleState.type := m_lifecycle s.
Definition Failure s : option RuntimeFailure := m_failure s.
Definition PendingTaskCount s : Z := vec_size (m_pending_tasks s).
Definition RethrowFailure s : res unit :=
  match Failure s with Some failure => Throw (error failure) | None => Ok tt end.

(** ** Calls *)

(** What a thread does after [RequestStop]: return from the call, release the
    consumer of the task it waited for and rethrow, go on with the tasks of a drain, go on to wait for the
    consumers, or close the channel. *)
Inductive continuation :=
| KReturn | KRelease (task : PendingTask) (error : exn) | KConsume (tasks : list PendingTask) | KIdle | KClose.

Inductive action :=
| AStart | ASubmit (flow : taskflow) | ASubmitReusable (flow : taskflow)
| AWait (task_id : TaskId)              (** [Wait], before its critical section *)
| AWaitTask (task : PendingTask)        (** [task->handle.Wait()] *)
| AReport (src : FailureSource) (error : option exn)
| ARecord (src : FailureSource) (error : option exn) (k : continuation)
| ARequestStop (k : continuation)       (** [m_stop_source.request_stop()] *)
| AStop (k : continuation)              (** the rest of [RequestStop] *)
| ARelease (task : PendingTask) (rethrow : option exn)   (** [ReleaseConsumer()] *)
| ACloseChannel                         (** [channel.Close()] *)
| ADrain                                (** the lock of [m_drain_mutex] *)
| ADrainRequest | ADrainTake
| AConsume (tasks : list PendingTask)   (** the loop of [ConsumePendingTasks] *)
| AClear                                (** [m_pending_tasks.clear()] *)
| AJobsDrain | AJobsWait | AJobsEnd     (** [m_jobs.Drain()] *)
| AIdle | AAsleep                       (** [m_consumers_idle.wait] *)
| APendingTaskCount.

(** Where a call starts. *)
Definition entry (a : action) : bool :=
  match a with
  | AStart | ASubmit _ | ASubmitReusable _ | AWait _ | AReport _ _ | APendingTaskCount
  | ARequestStop KReturn | ARequestStop KClose | ADrain => true
  | _ => false
  end.

(** How a step ends: at another point of the call, or with the call; [Wrong] is
    undefined behaviour. *)
Inductive next := Next (a : action) | Returned (value : Z) | Threw (e : exn) | Wrong.

Definition resume (k : continuation) : next :=
  match k with
  | KReturn => Returned 0
  | KRelease task e => Next (ARelease task (Some e))
  | KConsume tasks => Next (AConsume tasks)
  | KIdle => Next AIdle
  | KClose => Next ACloseChannel
  end.

(** An exception of [RecordFailure] or [RequestStop]: [Wait] releases the
    consumer and rethrows it, the others propagate it. *)
Definition unwind (k : continuation) (e : exn) : next :=
  match k with
  | KRelease task _ => Next (ARelease task (Some e))
  | _ => Threw e
  end.

(** A step that runs a critical section. *)
Definition settle {A} (m : M RuntimeSupervisor A) (k : A -> next) (handler : exn -> next) s
    : option (next * RuntimeSupervisor) :=
  match m s with
  | (Ok a, s') => Some (k a, s')
  | (Throw e, s') => Some (handler e, s')
  | (Undefined, s') | (OutOfFuel, s') => Some (Wrong, s')
  end.

(** A step that waits for a task, and its result. *)
Definition wait_task (task : PendingTask) (returns : next) (catches : exn -> next) s
    : option (next * RuntimeSupervisor) :=
  r ← TaskHandle_Wait (task_handle task) (m_executor (m_jobs s));
  match r.1 with
  | Ok _ => Some (returns, s)
  | Throw e => Some (catches e, s)
  | Undefined | OutOfFuel => Some (Wrong, s)
  end.

(** The step of thread [t] at [a]; [None] while it blocks. The channel is closed
    by the system. *)
Definition act (t : thread_id) (a : action) s : option (next * RuntimeSupervisor) :=
  match a with
  | AStart => settle Start (fun _ => Returned 0) Threw s
  | ASubmit flow => settle (Submit flow) Returned Threw s
  | ASubmitReusable flow => settle (SubmitReusable flow) Returned Threw s
  | AWait task_id => settle (Wait_take task_id) (fun task => Next (AWaitTask task)) Threw s
  | AWaitTask task =>
      wait_task task (Next (ARelease task None))
        (fun e => Next (ARecord Job (Some e) (KRelease task e))) s
  | AReport _ None => Some (Threw (Exn RuntimeSupervisorError "runtime failure has no exception"), s)
  | AReport src (Some e) => Some (Next (ARecord src (Some e) KReturn), s)
  | ARecord src e k => settle (RecordFailure src e) (fun _ => Next (ARequestStop k)) (unwind k) s
  | ARequestStop k => Some (Next (AStop k), set_stop_requested s)
  | AStop k => settle RequestStop_locked (fun _ => resume k) (unwind k) s
  | ARelease _ rethrow =>
      settle ReleaseConsumer
        (fun _ => match rethrow with Some e => Threw e | None => Returned 0 end) Threw s
  | ACloseChannel => Some (Returned 0, s)
  | ADrain =>
      match drain_owner s with
      | None => Some (Next ADrainRequest, set_drain_owner (Some t) s)
      | Some _ => None
      end
  | ADrainRequest => Some (Next ADrainTake, set_stop_requested s)
  | ADrainTake =>
      settle Drain_take
        (fun r => match r with Some tasks => Next (AConsume tasks) | None => Returned 0 end) Threw s
  | AConsume [] => Some (Next AClear, s)
  | AConsume (task :: tasks) =>
      wait_task task (Next (AConsume tasks))
        (fun e => Next (ARecord Job (Some e) (KConsume tasks))) s
  | AClear => Some (Next AJobsDrain, set_pending [] s)
  | AJobsDrain =>
      settle (with_jobs Drain_begin) (fun on => Next (if on : bool then AJobsWait else AIdle))
        (fun e => Next (ARecord Job (Some e) KIdle)) s
  | AJobsWait =>
      r ← wait_for_all (m_executor (m_jobs s));
      match r with
      | Ok _ => Some (Next AJobsEnd, s)
      | Throw e => Some (Next (ARecord Job (Some e) KIdle), s)
      | Undefined | OutOfFuel => Some (Wrong, s)
      end
  | AJobsEnd => settle (with_jobs Drain_end) (fun _ => Next AIdle) Threw s
  | AIdle =>
      if m_active_consumers s =? 0 then settle Drain_settle (fun _ => Returned 0) Threw s
      else Some (Next AAsleep, s)
  | AAsleep => None
  | APendingTaskCount => Some (Returned (PendingTaskCount s), s)
  end.

(** ** The system *)

(** The supervisor, the channel of [RequestStop], and the threads in a call. *)
Record System := mkSystem
  { sup : RuntimeSupervisor; chan : FramePacketChannel; threads : gmap thread_id action }.

(** A thread that leaves [Drain] unlocks its mutex. *)
Definition leave (t : thread_id) (n : next) s : RuntimeSupervisor :=
  match n with
  | Next _ => s
  | _ => if bool_decide (drain_owner s = Some t) then set_drain_owner None s else s
  end.

(** [notify_all]. *)
Definition wake (a : action) : action := match a with AAsleep => AIdle | _ => a end.

(** The threads after a step at [a] that leaves the supervisor as [s]. *)
Definition notify a s (l : gmap thread_id action) : gmap thread_id action :=
  match a with
  | ARelease _ _ => if m_active_consumers s =? 0 then wake <$> l else l
  | _ => l
  end.

(** The critical sections that read or change [m_pending_tasks]. *)
Definition touches a s : bool :=
  match a with
  | AWait task_id => negb (task_id =? 0)
  | ASubmit _ | ASubmitReusable _ => state_in [LifecycleState.Running] s
  | ADrainTake => negb (state_in [LifecycleState.Stopped] s)
  | APendingTaskCount => true
  | _ => false
  end.

Definition is_clear a : bool := match a with AClear => true | _ => false end.

(** [ConsumePendingTasks] clears [m_pending_tasks] without the mutex: nothing orders
    that access and those of the other threads. *)
Definition conflicts a a' s : bool :=
  is_clear a && (is_clear a' || touches a' s) || touches a s && is_clear a'.

(** Thread [t], at [a], races with another thread. *)
Definition racing (t : thread_id) a (w : System) : bool :=
  existsb (fun p => bool_decide (p.1 <> t) && conflicts a p.2 (sup w)) (map_to_list (threads w)).

(** The step of thread [t] in the system: a data race is undefined behaviour, and
    a release of the last consumer notifies. *)
Definition perform (t : thread_id) (w : System) : option (next * System) :=
  a ← threads w !! t;
  if racing t a w
  then Some (Wrong, mkSystem (leave t Wrong (sup w)) (chan w) (delete t (threads w)))
  else
  '(n, s) ← act t a (sup w);
  let woken := notify a s (threads w) in
  let c := match a with ACloseChannel => (Close (chan w)).2 | _ => chan w end in
  Some (n, mkSystem (leave t n s) c
             (match n with Next a => <[t := a]> woken | _ => delete t woken end)).

Definition set_threads (l : gmap thread_id action) (w : System) : System :=
  mkSystem (sup w) (chan w) l.
Definition set_sup s (w : System) : System := mkSystem s (chan w) (threads w).

Inductive step (w : System) : System -> Prop :=
| step_call t a : threads w !! t = None -> entry a = true ->
    step w (set_threads (<[t := a]> (threads w)) w)
| step_thread t n w' : perform t w = Some (n, w') -> step w w'
| step_spurious t : threads w !! t = Some AAsleep ->
    step w (set_threads (<[t := AIdle]> (threads w)) w)
| step_advance e : advance (m_executor (m_jobs (sup w))) e ->
    step w (set_sup (set_jobs (set_executor e (m_jobs (sup w))) (sup w)) w).

(** What a system starts as: a supervisor just constructed, and no calls. *)
Inductive initial : System -> Prop :=
| initial_intro j c : m_state j = Running -> issued (m_executor j) = [] ->
    initial (mkSystem (mkRuntimeSupervisor j false None LifecycleState.Starting None [] 1 0) c ∅).

Definition reachable (w : System) : Prop := exists w0, initial w0 /\ rtc step w0 w.

End supervisor.
