(* ===== verification/RuntimeSupervisorInv.v ===== *)
(** * The runtime supervisor: its invariant

    The invariant of the supervisor and its threads, and that every step of every
    thread keeps it: [thread_ok] is what holds of a thread at a point of a call,
    [sup_ok] of the members, [inv] of the system, with the account of every run
    of the executor. *)

From stdpp Require Import base numbers list option strings gmap relations.
From S2P Require Import Prelude FramePacketChannel JobRuntime RuntimeSupervisor.

#[local] Open Scope Z_scope.

(** Splits the outcome of a critical section along its branches. *)
Ltac m_unfold :=
  unfold mbind, M_bind, mret, M_ret, get, modify, throw, with_jobs, on in *; cbn in *.

(** Evaluates the tests of a state that is a constructor. *)
Ltac lifecycle_cases s :=
  unfold state_in; destruct (m_lifecycle s) eqn:Hlc; cbn;
  repeat match goal with
  | Hl : m_lifecycle s = _ |- context [bool_decide (m_lifecycle s ∈ _)] => rewrite Hl
  | |- context [bool_decide (?c ∈ ?l)] =>
      let b := eval vm_compute in (bool_decide (c ∈ l)) in
      match b with
      | true => change (bool_decide (c ∈ l)) with true
      | false => change (bool_decide (c ∈ l)) with false
      end; cbn
  end.

Section spec.
Context `{ExecutorLaws}.
Implicit Types (s : RuntimeSupervisor) (a : action) (w : System).

(** ** Where a thread is *)

(** Between the two changes of [m_active_consumers] that a [Wait] makes. *)
Definition consuming a : bool :=
  match a with
  | AWaitTask _ | ARelease _ _
  | ARecord _ _ (KRelease _ _) | ARequestStop (KRelease _ _) | AStop (KRelease _ _) => true
  | _ => false
  end.

(** Past the critical section of a [Drain]. *)
Definition taken a : bool :=
  match a with
  | AConsume _ | AClear | AJobsDrain | AJobsWait | AJobsEnd | AIdle | AAsleep
  | ARecord _ _ (KConsume _ | KIdle) | ARequestStop (KConsume _ | KIdle)
  | AStop (KConsume _ | KIdle) => true
  | _ => false
  end.

(** Inside [m_drain_mutex]. *)
Definition draining a : bool :=
  match a with ADrainRequest | ADrainTake => true | _ => taken a end.

(** The tasks a thread is to wait for. *)
Definition held a : list PendingTask :=
  match a with
  | AWaitTask task => [task]
  | AConsume tasks | ARecord _ _ (KConsume tasks) | ARequestStop (KConsume tasks)
  | AStop (KConsume tasks) => tasks
  | _ => []
  end.

(** About to record the failure of a job. *)
Definition recording a : bool :=
  match a with ARecord _ _ (KRelease _ _ | KConsume _ | KIdle) => true | _ => false end.

(** The failure of a job that the thread handles has been recorded. *)
Definition recorded a : bool :=
  match a with
  | ARequestStop (KRelease _ _ | KConsume _ | KIdle) | AStop (KRelease _ _ | KConsume _ | KIdle)
  | ARelease _ (Some _) => true
  | _ => false
  end.

(** The task whose [Wait] the thread is in, and the exception it is to rethrow. *)
Definition waits_for a : option PendingTask :=
  match a with
  | AWaitTask task | ARelease task _
  | ARecord _ _ (KRelease task _) | ARequestStop (KRelease task _) | AStop (KRelease task _) => Some task
  | _ => None
  end.

Definition rethrown a : option (PendingTask * exn) :=
  match a with
  | ARecord _ _ (KRelease task e) | ARequestStop (KRelease task e) | AStop (KRelease task e)
  | ARelease task (Some e) => Some (task, e)
  | _ => None
  end.

(** The executor of a supervisor, and the failure of the run of a task. *)
Definition exec s : executor := m_executor (m_jobs s).

Definition task_failure s (task : PendingTask) (e : exn) : Prop :=
  exists f inner, m_future (task_handle task) = Some f /\ f ∈ issued (exec s) /\ result (exec s) f = Some (Some inner) /\
    e = NestedExn JobExecutionError "job execution failed" (Some inner).

Definition task_success s (task : PendingTask) : Prop :=
  exists f, m_future (task_handle task) = Some f /\ result (exec s) f = Some None.

Definition valid_task s (task : PendingTask) : Prop :=
  exists f, m_future (task_handle task) = Some f /\ f ∈ issued (exec s).

Definition futures (tasks : list PendingTask) : list nat :=
  omap (fun task => m_future (task_handle task)) tasks.

Definition after_take s : Prop :=
  (m_lifecycle s = LifecycleState.Draining \/ m_lifecycle s = LifecycleState.Failed) /\
  m_pending_tasks s = [].

(** ** The invariant *)

Record thread_ok s (t : thread_id) a : Prop := mkThreadOk
  { t_owner : draining a = true <-> drain_owner s = Some t;
    t_taken : taken a = true -> after_take s;
    t_held : Forall (valid_task s) (held a);
    t_recorded : recorded a = true -> m_failure s <> None;
    t_rethrown : forall task e, rethrown a = Some (task, e) -> task_failure s task e;
    t_error : match a with
              | ARecord _ error k => error <> None /\ k <> KClose
              | AIdle | AAsleep => m_state (m_jobs s) = Stopped \/ m_failure s <> None
              | ARelease task None => task_success s task
              | _ => True
              end }.

Record sup_ok s : Prop := mkSupOk
  { s_ids : m_active_consumers s + vec_size (m_pending_tasks s) < m_next_task_id s <= TASK_ID_MAX;
    s_count : 0 <= m_active_consumers s;
    s_pending : Forall (valid_task s) (m_pending_tasks s);
    s_lifecycle : match m_lifecycle s with
      | LifecycleState.Starting | LifecycleState.Running =>
          m_failure s = None /\ m_state (m_jobs s) = Running
      | LifecycleState.StopRequested =>
          m_state (m_jobs s) = Running \/ m_state (m_jobs s) = StopRequested
      | LifecycleState.Draining => True
      | LifecycleState.Stopped =>
          m_failure s = None /\ m_active_consumers s = 0 /\ m_pending_tasks s = [] /\
          m_state (m_jobs s) = Stopped
      | LifecycleState.Failed => m_failure s <> None /\ m_pending_tasks s = []
      end }.

(** A run is accounted for: it returned, a failure is recorded or about to be, or
    somebody is to wait for it. *)
Definition covered s a (f : nat) : Prop :=
  result (exec s) f = Some None \/ m_failure s <> None \/ f ∈ futures (m_pending_tasks s) \/
  f ∈ futures (held a) \/ recording a = true.

Definition consumers (l : gmap thread_id action) : nat :=
  size (filter (fun p => consuming p.2 = true) l).

Record inv w : Prop := mkInv
  { i_sup : sup_ok (sup w);
    i_threads : forall t a, threads w !! t = Some a -> thread_ok (sup w) t a;
    i_owner : forall t, drain_owner (sup w) = Some t -> is_Some (threads w !! t);
    i_count : m_active_consumers (sup w) = Z.of_nat (consumers (threads w));
    i_asleep : forall t, threads w !! t = Some AAsleep -> m_active_consumers (sup w) <> 0;
    i_tasks : forall f, f ∈ issued (exec (sup w)) ->
      covered (sup w) AStart f \/
      exists t a, threads w !! t = Some a /\ covered (sup w) a f }.

(** ** What a step of one thread leaves to the others *)

Record keeps (t : thread_id) s s' : Prop := mkKeeps
  { k_owner : forall t', t' <> t -> drain_owner s = Some t' <-> drain_owner s' = Some t';
    k_taken : (exists t', t' <> t /\ drain_owner s = Some t') -> after_take s -> after_take s';
    k_failure : m_failure s <> None -> m_failure s' = m_failure s;
    k_stopped : m_state (m_jobs s) = Stopped -> m_state (m_jobs s') = Stopped;
    k_issued : forall f, f ∈ issued (exec s) -> f ∈ issued (exec s');
    k_result : forall f r, result (exec s) f = Some r -> result (exec s') f = Some r }.

Lemma keeps_id t s : keeps t s s.
Proof. by split. Qed.

Lemma valid_task_keeps t s s' task : keeps t s s' -> valid_task s task -> valid_task s' task.
Proof. intros Hk (f & Hf & Hi). exists f. split; [done|]. by apply Hk. Qed.

Lemma task_failure_keeps t s s' task e :
  keeps t s s' -> task_failure s task e -> task_failure s' task e.
Proof.
  intros Hk (f & inner & Hf & Hi & Hr & He). exists f, inner.
  split_and!; [done|by apply Hk|by apply Hk|done].
Qed.

Lemma thread_ok_keeps t t' s s' a :
  keeps t s s' -> t' <> t -> thread_ok s t' a -> thread_ok s' t' a.
Proof.
  intros Hk Hne [Ho Ht Hh Hr Hre He]. split.
  - rewrite Ho. by apply (k_owner _ _ _ Hk).
  - intros Ha. apply (k_taken _ _ _ Hk); [|by apply Ht]. exists t'. split; [done|].
    apply Ho. by destruct a.
  - eapply Forall_impl; [exact Hh|]. intros task. by eapply valid_task_keeps.
  - intros Ha. specialize (Hr Ha). by rewrite (k_failure _ _ _ Hk Hr).
  - intros task e Ha. eapply task_failure_keeps; [done|]. by apply Hre.
  - destruct a; try done; try (destruct He as [He|He];
      [left; by apply (k_stopped _ _ _ Hk)|right; by rewrite (k_failure _ _ _ Hk He)]).
    destruct rethrow; [done|]. destruct He as (f & Hf & Hres). exists f. split; [done|by apply Hk].
Qed.

Lemma thread_ok_wake s t a : thread_ok s t a -> thread_ok s t (wake a).
Proof. intros [Ho Ht Hh Hr Hre He]. by destruct a. Qed.

Lemma covered_keeps t s s' a f :
  keeps t s s' -> covered s a f ->
  (f ∈ futures (m_pending_tasks s) -> covered s' a f) -> covered s' a f.
Proof.
  intros Hk [Hc|[Hc|[Hc|[Hc|Hc]]]] Hp; [..|by auto|by right; right; right; left|by do 4 right].
  - left. by apply Hk.
  - right; left. by rewrite (k_failure _ _ _ Hk Hc).
Qed.

(** ** The critical sections *)

Definition stop_lifecycle (l : LifecycleState.type) : LifecycleState.type :=
  match l with
  | LifecycleState.Starting | LifecycleState.Running => LifecycleState.StopRequested
  | l => l
  end.

Definition stop_jobs (j : JobRuntime) : JobRuntime :=
  match m_state j with Running => JobRuntime.set_state StopRequested j | _ => j end.

Lemma jobs_RequestStop j : RequestStop j = (Ok tt, stop_jobs j).
Proof.
  unfold RequestStop, stop_jobs. m_unfold. destruct (m_state j) eqn:Hj; case_bool_decide; try done.
Qed.

Lemma RequestStop_run s :
  RequestStop_locked s =
    (Ok tt, match m_lifecycle s with
            | LifecycleState.Stopped => s
            | l => set_jobs (stop_jobs (m_jobs s)) (set_lifecycle (stop_lifecycle l) s)
            end).
Proof.
  unfold RequestStop_locked. m_unfold. lifecycle_cases s; rewrite ?jobs_RequestStop;
    destruct s; cbn in *; by subst.
Qed.

Lemma RecordFailure_run src e s : m_lifecycle s <> LifecycleState.Stopped ->
  RecordFailure src (Some e) s =
    (Ok tt, set_lifecycle (stop_lifecycle (m_lifecycle s))
              (set_failure (default (mkRuntimeFailure src e) (m_failure s)) s)).
Proof.
  intros Hs. unfold RecordFailure. m_unfold. lifecycle_cases s; try done;
    destruct (m_failure s) eqn:Hf; cbn; try done;
    destruct s; cbn in *; by subst.
Qed.

Lemma RecordFailure_late src e s : m_lifecycle s = LifecycleState.Stopped ->
  RecordFailure src (Some e) s =
    (Throw (Exn RuntimeSupervisorError "runtime failure was reported after shutdown"), s).
Proof. intros Hs. unfold RecordFailure. m_unfold. lifecycle_cases s; done. Qed.

(** ** A step of a thread *)

(** The action a thread goes on with; one that has left its call owes nothing. *)
Definition next_action (n : next) : action := match n with Next a => a | _ => AStart end.

(** When a step ends its call with the exception [e]. *)
Definition rejected (what : string) : exn := Exn RuntimeSupervisorError what.

Definition fails s a (e : exn) : Prop :=
  match a with
  | AStart => m_lifecycle s <> LifecycleState.Starting /\
      e = rejected "runtime supervisor was already started"
  | ASubmit flow | ASubmitReusable flow =>
      (m_lifecycle s <> LifecycleState.Running /\
       e = rejected "runtime submission rejected outside the running state") \/
      (m_lifecycle s = LifecycleState.Running /\
       ((MAX_PENDING_RUNTIME_TASKS <= vec_size (m_pending_tasks s) /\
         e = rejected "runtime pending-task bound was exceeded") \/
        (vec_size (m_pending_tasks s) < MAX_PENDING_RUNTIME_TASKS /\
         ((m_next_task_id s = TASK_ID_MAX /\ e = rejected "runtime task identifier exhausted") \/
          (m_next_task_id s <> TASK_ID_MAX /\
           exists refused, (run flow (exec s)).1 = Throw refused /\
             e = NestedExn JobRuntimeError "job submission failed" (Some refused))))))
  | AWait task_id =>
      (task_id = 0 /\ e = rejected "runtime task identifier is invalid") \/
      (task_id <> 0 /\ task_id ∉ map id (m_pending_tasks s) /\
       e = rejected "runtime task identifier was not pending")
  | AReport _ error => error = None /\ e = rejected "runtime failure has no exception"
  | ARecord _ _ k => k = KReturn /\ m_lifecycle s = LifecycleState.Stopped /\
      e = rejected "runtime failure was reported after shutdown"
  | ARelease _ rethrow => rethrow = Some e
  | _ => False
  end.

Record stepped (t : thread_id) s a (n : next) s' : Prop := mkStepped
  { st_keeps : keeps t s s';
    st_sup : sup_ok s';
    st_next : match n with
              | Next a' => thread_ok s' t a'
              | Wrong => False
              | Threw e => drain_owner s' = drain_owner s /\ fails s a e
              | Returned _ => drain_owner s' = drain_owner s
              end;
    st_count : m_active_consumers s' + Z.b2z (consuming a) =
               m_active_consumers s + Z.b2z (consuming (next_action n));
    st_release : consuming a = true ->
                 consuming (next_action n) = true \/ exists task rethrow, a = ARelease task rethrow;
    st_cover : forall f, f ∈ issued (exec s') -> (f ∈ issued (exec s) -> covered s a f) ->
               covered s' (next_action n) f;
    st_asleep : n = Next AAsleep -> m_active_consumers s' <> 0 }.

(** A step that leaves the members of the supervisor the invariant reads. *)
Lemma stepped_same t s a n :
  sup_ok s ->
  match n with
  | Next a' => thread_ok s t a' | Wrong => False | Threw e => fails s a e | Returned _ => True
  end ->
  consuming a = consuming (next_action n) ->
  (forall f, f ∈ issued (exec s) -> covered s a f -> covered s (next_action n) f) ->
  n <> Next AAsleep -> stepped t s a n s.
Proof.
  intros Hs Hn Hc Hf Ha. split; [apply keeps_id|done| |by rewrite Hc|by left; rewrite <- Hc| |done].
  - by destruct n.
  - intros f Hi Hcov. by apply Hf, Hcov.
Qed.

Lemma stepped_start t s n s' :
  sup_ok s -> settle Start (fun _ => Returned 0) Threw s = Some (n, s') -> stepped t s AStart n s'.
Proof.
  intros Hs. unfold settle, Start. m_unfold. lifecycle_cases s.
  all: try (intros [= <- <-]; apply stepped_same; cbn; try done; rewrite Hlc; by split).
  pose proof Hs as [Hids Hc Hp Hl]. rewrite Hlc in Hl. destruct Hl as [Hf Hj]. rewrite Hf. cbn.
  intros [= <- <-]. split; cbn; try done; try lia.
  - split; try done. intros _ [Hl _]. rewrite Hlc in Hl. by destruct Hl.
  - intros f Hi Hcov. by apply Hcov.
Qed.

Lemma jobs_submit flow j : m_state j = Running ->
  match JobRuntime.Submit flow j with
  | (Ok h, j') => exists f, m_future h = Some f /\ f ∉ issued (m_executor j) /\
      issued (m_executor j') = f :: issued (m_executor j) /\ m_state j' = Running /\
      forall g r, result (m_executor j) g = Some r -> result (m_executor j') g = Some r
  | (Throw e, j') => j' = j /\
      exists refused, (run flow (m_executor j)).1 = Throw refused /\
        e = NestedExn JobRuntimeError "job submission failed" (Some refused)
  | _ => False
  end.
Proof.
  intros Hj. unfold JobRuntime.Submit, submission. m_unfold. rewrite Hj, bool_decide_eq_true_2 by done. cbn.
  pose proof (run_returns (m_executor j) flow) as Hrun. unfold wp in Hrun.
  destruct (run flow (m_executor j)) as [[f|e| |] e']; cbn in *; try done.
  - destruct Hrun as (Hf & Hi & Hr). by exists f.
  - subst e'. split; [by destruct j|]. by exists e.
Qed.

Lemma elem_of_futures f l :
  f ∈ futures l <-> exists task, task ∈ l /\ m_future (task_handle task) = Some f.
Proof. apply list_elem_of_omap. Qed.

Lemma futures_app l1 l2 : futures (l1 ++ l2) = futures l1 ++ futures l2.
Proof. apply omap_app. Qed.

Lemma stepped_submit t s flow n s' :
  sup_ok s -> settle (Submit flow) Returned Threw s = Some (n, s') ->
  stepped t s (ASubmit flow) n s'.
Proof.
  intros Hs. unfold settle, Submit, submit_task. m_unfold. lifecycle_cases s.
  all: try (intros [= <- <-]; apply stepped_same; cbn; try done; left; rewrite Hlc; by split).
  destruct (Z.leb_spec MAX_PENDING_RUNTIME_TASKS (vec_size (m_pending_tasks s))).
  { intros [= <- <-]. apply stepped_same; cbn; try done. right. split; [done|by left]. }
  destruct (Z.eqb_spec (m_next_task_id s) TASK_ID_MAX).
  { intros [= <- <-]. apply stepped_same; cbn; try done.
    right. split; [done|]. right. split; [lia|by left]. }
  pose proof Hs as [Hids Hc Hp Hl]. rewrite Hlc in Hl. destruct Hl as [Hf Hj].
  pose proof (jobs_submit flow (m_jobs s) Hj) as Hsub.
  destruct (JobRuntime.Submit flow (m_jobs s)) as [[h|e| |] j']; try done; cbn.
  2: { destruct Hsub as [-> Hr]. replace (set_jobs (m_jobs s) s) with s by (by destruct s).
       intros [= <- <-]. apply stepped_same; cbn; try done.
       right. split; [done|]. right. split; [lia|by right]. }
  destruct Hsub as (f & Hh & Hnew & Hi & Hj' & Hres). intros [= <- <-].
  assert (Hk : keeps t s (set_pending (m_pending_tasks s ++ [mkPendingTask (m_next_task_id s) h])
    (set_next_task_id (u64 (m_next_task_id s + 1)) (set_jobs j' s)))).
  { split; unfold exec; cbn; try done.
    - intros _ [[Hd|Hd] _]; by rewrite Hlc in Hd.
    - by rewrite Hj.
    - intros g Hg. rewrite Hi. by right. }
  assert (Hval : valid_task (set_pending (m_pending_tasks s ++ [mkPendingTask (m_next_task_id s) h])
    (set_next_task_id (u64 (m_next_task_id s + 1)) (set_jobs j' s))) (mkPendingTask (m_next_task_id s) h)).
  { exists f. unfold exec. cbn. rewrite Hi. split; [done|left]. }
  split; [done| |done|done|done| |done].
  - split; cbn.
    + unfold vec_size in *. rewrite length_app, wrap_u_small by (split; unfold TASK_ID_MAX in *; lia).
      cbn. unfold TASK_ID_MAX in *. lia.
    + done.
    + apply Forall_app. split; [|by constructor].
      eapply Forall_impl; [exact Hp|]. intros task. by eapply valid_task_keeps.
    + by rewrite Hlc.
  - intros g Hg Hcov. unfold exec in Hg. cbn in Hg. rewrite Hi in Hg.
    apply elem_of_cons in Hg as [->|Hg].
    + right; right; left. cbn. rewrite futures_app. apply elem_of_app. right. cbn. rewrite Hh. left.
    + eapply covered_keeps; [exact Hk|by apply Hcov|]. intros Hin. right; right; left. cbn.
      rewrite futures_app. apply elem_of_app. by left.
Qed.

Lemma take_task_Some task_id l task rest : take_task task_id l = Some (task, rest) ->
  exists l1 l2, l = l1 ++ task :: l2 /\ rest = l1 ++ l2 /\ id task = task_id.
Proof.
  revert rest. induction l as [|x l IH]; intros rest; cbn [take_task]; [done|].
  destruct (Z.eqb_spec (id x) task_id) as [Hx|Hx].
  { intros [= <- <-]. by exists [], l. }
  destruct (take_task task_id l) as [[found rest']|]; [|done]. cbn. intros [= <- <-].
  destruct (IH rest' eq_refl) as (l1 & l2 & -> & -> & Hid). by exists (x :: l1), l2.
Qed.

Lemma take_task_None task_id l : take_task task_id l = None -> task_id ∉ map id l.
Proof.
  induction l as [|x l IH]; cbn [take_task map]; [intros _; apply not_elem_of_nil|].
  destruct (Z.eqb_spec (id x) task_id) as [Hx|Hx]; [done|].
  destruct (take_task task_id l) as [[found rest']|]; [done|]. intros _ Hin.
  apply elem_of_cons in Hin as [->|Hin]; [done|]. by apply IH.
Qed.

Lemma stepped_wait t s task_id n s' :
  sup_ok s -> thread_ok s t (AWait task_id) ->
  settle (Wait_take task_id) (fun task => Next (AWaitTask task)) Threw s = Some (n, s') ->
  stepped t s (AWait task_id) n s'.
Proof.
  intros Hs Ht. unfold settle, Wait_take. m_unfold.
  destruct (Z.eqb_spec task_id 0).
  { intros [= <- <-]. apply stepped_same; cbn; try done. by left. }
  destruct (take_task task_id (m_pending_tasks s)) as [[task rest]|] eqn:Htake.
  2: { intros [= <- <-]. apply stepped_same; cbn; try done. right.
       split_and!; [done|by apply take_task_None|done]. }
  apply take_task_Some in Htake as (l1 & l2 & Hl & -> & Hid). intros [= <- <-].
  pose proof Hs as [Hids Hc Hp Hlc]. unfold vec_size in Hids. rewrite Hl, length_app in Hids. cbn in Hids.
  assert (Hw : u64 (m_active_consumers s + 1) = m_active_consumers s + 1).
  { apply wrap_u_small. split; unfold TASK_ID_MAX in *; lia. }
  assert (Hne : m_pending_tasks s <> []) by (rewrite Hl; by destruct l1).
  assert (Hk : keeps t s (set_consumers (m_active_consumers s + 1) (set_pending (l1 ++ l2) s))).
  { split; try done. intros _ [_ Hn]. done. }
  rewrite Hl in Hp. apply Forall_app in Hp as [Hp1 [Hp2 Hp3]%Forall_cons]. rewrite Hw.
  split; [done| |cbn| |by left| |done]; [| |cbn; lia|].
  - split; cbn; unfold vec_size; rewrite ?length_app; [lia|lia|by apply Forall_app|].
    destruct (m_lifecycle s); naive_solver.
  - split; cbn; try done; [|by constructor]. apply Ht.
  - intros f Hi Hcov. destruct (Hcov Hi) as [Hr|[Hf|[Hin|[Hin|Hr]]]];
      [by left|by right; left| |by apply elem_of_nil in Hin|done].
    apply elem_of_futures in Hin as (task' & Hin & Hf). rewrite Hl in Hin.
    unfold covered. rewrite !elem_of_futures. cbn. set_solver.
Qed.

Lemma wait_task_inv task returns catches s n s' :
  valid_task s task -> wait_task task returns catches s = Some (n, s') ->
  s' = s /\
  ((n = returns /\ exists f, m_future (task_handle task) = Some f /\ result (exec s) f = Some None) \/
   (exists e, n = catches e /\ task_failure s task e)).
Proof.
  intros (f & Hf & Hi). unfold wait_task, TaskHandle_Wait. rewrite Hf. fold (exec s).
  destruct (result (exec s) f) as [[inner|]|] eqn:Hr; cbn; [| |done].
  - intros [= <- <-]. split; [done|]. right. eexists. split; [done|]. by exists f, inner.
  - intros [= <- <-]. split; [done|]. left. split; [done|]. by exists f.
Qed.

Lemma stepped_wait_task t s task n s' :
  sup_ok s -> thread_ok s t (AWaitTask task) ->
  act t (AWaitTask task) s = Some (n, s') -> stepped t s (AWaitTask task) n s'.
Proof.
  intros Hs [Ho _ Hh _ _ _] Hact. cbn in Hact, Hh. apply Forall_cons in Hh as [Hv _].
  apply (wait_task_inv _ _ _ _ _ _ Hv) in Hact as [-> [[-> (f & Hf & Hr)]|(e & -> & He)]];
    apply stepped_same; try done.
  - split; try done. by exists f.
  - intros g Hi [?|[?|[?|[Hin|?]]]]; [by left|by right; left|by right; right; left| |done].
    cbn [held] in Hin. apply elem_of_futures in Hin as (task' & ->%list_elem_of_singleton & Hg).
    left. congruence.
  - split; try done. by intros task' e' [= <- <-].
  - intros g Hi _. by do 4 right.
Qed.

Lemma stepped_consume t s tasks n s' :
  sup_ok s -> thread_ok s t (AConsume tasks) ->
  act t (AConsume tasks) s = Some (n, s') -> stepped t s (AConsume tasks) n s'.
Proof.
  intros Hs [Ho Ht Hh _ _ _] Hact. destruct tasks as [|task tasks].
  { injection Hact as <- <-. by apply stepped_same. }
  cbn in Hact, Hh. apply Forall_cons in Hh as [Hv Hvs].
  apply (wait_task_inv _ _ _ _ _ _ Hv) in Hact as [-> [[-> (f & Hf & Hr)]|(e & -> & He)]];
    apply stepped_same; try done.
  - intros g Hi [?|[?|[?|[Hin|?]]]]; [by left|by right; left|by right; right; left| |done].
    cbn [held] in Hin. apply elem_of_futures in Hin as (task' & [->|Hin]%elem_of_cons & Hg).
    + left. congruence.
    + do 3 right. left. apply elem_of_futures. by exists task'.
  - intros g Hi _. by do 4 right.
Qed.

Lemma keeps_stop t s x :
  keeps t s (set_lifecycle (stop_lifecycle (m_lifecycle s))
               (set_failure (default x (m_failure s)) s)).
Proof.
  split; try done.
  - intros _ [Hl Hp]. split; [|done]. cbn. destruct Hl as [->| ->]; auto.
  - cbn. by destruct (m_failure s).
Qed.

Lemma stepped_record t s src err k n s' :
  sup_ok s -> thread_ok s t (ARecord src err k) ->
  (consuming (ARecord src err k) = true -> 1 <= m_active_consumers s) ->
  act t (ARecord src err k) s = Some (n, s') -> stepped t s (ARecord src err k) n s'.
Proof.
  intros Hs [Ho Ht Hh Hr Hre [He Hk]] Hcount. cbn [act]. destruct err as [e|]; [|done].
  unfold settle. destruct (decide (m_lifecycle s = LifecycleState.Stopped)) as [Hst|Hst].
  - rewrite RecordFailure_late by done. intros [= <- <-].
    pose proof Hs as [_ _ _ Hl]. rewrite Hst in Hl. destruct Hl as (_ & Hc & _).
    destruct k; [by apply stepped_same|specialize (Hcount eq_refl); lia| | |done].
    + destruct (Ht eq_refl) as [[Hl|Hl] _]; congruence.
    + destruct (Ht eq_refl) as [[Hl|Hl] _]; congruence.
  - rewrite RecordFailure_run by done. intros [= <- <-].
    pose proof (keeps_stop t s (mkRuntimeFailure src e)) as Hkeep.
    split; [done| | |by destruct k|by destruct k; left| |done].
    + destruct Hs as [Hids Hc Hp Hl]. split; cbn; [done|done|done|].
      destruct (m_lifecycle s); cbn; naive_solver.
    + destruct Hkeep. split; cbn.
      * destruct k; exact Ho.
      * intros Ha. assert (Ha' : taken (ARecord src (Some e) k) = true) by (by destruct k).
        destruct (Ht Ha') as [[Hl|Hl] Hp]; split; cbn; rewrite ?Hl; auto.
      * destruct k; exact Hh.
      * intros _. done.
      * intros task e' He'. destruct k; try done. apply (Hre task e'). exact He'.
      * done.
    + intros f _ _. by right; left.
Qed.

Lemma stepped_request_stop t s k :
  sup_ok s -> thread_ok s t (ARequestStop k) ->
  stepped t s (ARequestStop k) (Next (AStop k)) (set_stop_requested s).
Proof.
  intros [Hids Hc Hp Hl] [Ho Ht Hh Hr Hre _].
  split; [done|done| |by destruct k|by destruct k; left| |done].
  - split; cbn; by destruct k.
  - intros f Hi Hcov. destruct (Hcov Hi) as [?|[?|[?|[?|?]]]];
      [by left|by right; left|by do 2 right; left|do 3 right; left; by destruct k|by destruct k].
Qed.

(** [RequestStop] under its mutex, as a change of the state. *)
Definition after_stop s : RuntimeSupervisor :=
  match m_lifecycle s with
  | LifecycleState.Stopped => s
  | l => set_jobs (stop_jobs (m_jobs s)) (set_lifecycle (stop_lifecycle l) s)
  end.

Lemma stop_jobs_executor j : m_executor (stop_jobs j) = m_executor j.
Proof. unfold stop_jobs. by destruct (m_state j). Qed.

Lemma stop_jobs_stopped j : m_state j = Stopped -> m_state (stop_jobs j) = Stopped.
Proof. unfold stop_jobs. intros Hj. by rewrite Hj. Qed.

Lemma after_stop_same s :
  m_failure (after_stop s) = m_failure s /\ m_pending_tasks (after_stop s) = m_pending_tasks s /\
  drain_owner (after_stop s) = drain_owner s /\ exec (after_stop s) = exec s /\
  m_active_consumers (after_stop s) = m_active_consumers s /\
  m_next_task_id (after_stop s) = m_next_task_id s /\
  (after_take s -> after_take (after_stop s)) /\
  (m_state (m_jobs s) = Stopped -> m_state (m_jobs (after_stop s)) = Stopped).
Proof.
  unfold after_stop, exec, after_take. destruct (m_lifecycle s) eqn:Hl; cbn; rewrite ?stop_jobs_executor;
    split_and!; auto using stop_jobs_stopped; intros [[?|?] ?]; by auto.
Qed.

Lemma keeps_after_stop t s : keeps t s (after_stop s).
Proof.
  destruct (after_stop_same s) as (Hf & Hp & Ho & He & _ & _ & Ht & Hj).
  split; rewrite ?Hf, ?Ho, ?He; auto.
Qed.

Lemma sup_ok_after_stop s : sup_ok s -> sup_ok (after_stop s).
Proof.
  intros [Hids Hc Hp Hl]. destruct (after_stop_same s) as (Hf & Hps & _ & He & Hac & Hn & _ & _).
  split; rewrite ?Hps, ?Hac, ?Hn; [done|done| |].
  - eapply Forall_impl; [exact Hp|]. intros task.
    apply (valid_task_keeps 0), keeps_after_stop.
  - clear -Hl. unfold after_stop, stop_jobs. destruct (m_lifecycle s) eqn:Hlc; cbn; rewrite ?Hlc; try done.
    + destruct Hl as [_ ->]. by right.
    + destruct Hl as [_ ->]. by right.
    + destruct Hl as [-> | Hj]; [by right|]. rewrite Hj. by right.
Qed.

Lemma stepped_stop t s k n s' :
  sup_ok s -> thread_ok s t (AStop k) ->
  act t (AStop k) s = Some (n, s') -> stepped t s (AStop k) n s'.
Proof.
  intros Hs Hok. cbn [act]. unfold settle. rewrite RequestStop_run. fold (after_stop s).
  intros [= <- <-]. pose proof (keeps_after_stop t s) as Hkeep.
  destruct (after_stop_same s) as (Hf & Hps & Ho' & He & Hac & Hn & Htk & Hj).
  destruct Hok as [Ho Ht Hh Hr Hre _].
  split; [done|by apply sup_ok_after_stop| |rewrite Hac; by destruct k| | |by destruct k].
  - destruct k; cbn [resume]; [done| | | |].
    all: split; cbn in *; rewrite ?Ho', ?Hf; try done; try (by auto);
      try (by intros ? ? [= <- <-]; eapply task_failure_keeps, Hre).
    + eapply Forall_impl; [exact Hh|]. intros task. by eapply valid_task_keeps.
  - destruct k; cbn; try done. intros _. by left.
  - unfold covered in *. rewrite He, Hf, Hps. intros f Hi Hcov. specialize (Hcov Hi).
    destruct k; cbn in *; try done.
Qed.

Lemma stepped_release t s task rethrow n s' :
  sup_ok s -> thread_ok s t (ARelease task rethrow) -> 1 <= m_active_consumers s ->
  act t (ARelease task rethrow) s = Some (n, s') -> stepped t s (ARelease task rethrow) n s'.
Proof.
  intros Hs [Ho _ _ _ Hre _] Hcount. cbn [act]. unfold settle, ReleaseConsumer. m_unfold.
  destruct (Z.eqb_spec (m_active_consumers s) 0); [lia|]. intros [= <- <-].
  assert (Hk : keeps t s (set_consumers (m_active_consumers s - 1) s)) by done.
  split; [done| | | |by right; do 2 eexists| |by destruct rethrow].
  - destruct Hs as [Hids Hc Hp Hl]. split; cbn; [lia|lia|done|].
    destruct (m_lifecycle s); naive_solver lia.
  - by destruct rethrow as [e|].
  - destruct rethrow; cbn; lia.
  - intros f Hi Hcov. destruct rethrow; by apply Hcov.
Qed.

(** The thread that holds the drain mutex is the only one. *)
Lemma other_owner t s : drain_owner s = Some t -> ~ exists t', t' <> t /\ drain_owner s = Some t'.
Proof. intros Ho (t' & Hne & Ho'). congruence. Qed.

Lemma stepped_drain t s n s' :
  sup_ok s -> act t ADrain s = Some (n, s') -> stepped t s ADrain n s'.
Proof.
  intros [Hids Hc Hp Hl]. cbn [act]. destruct (drain_owner s) eqn:Ho; [done|]. intros [= <- <-].
  split; [|done| |done|done| |done].
  - split; try done.
    intros t' Hne. cbn. rewrite Ho. split; [done|]. by intros [= ->].
  - by split.
  - intros f Hi Hcov. by apply Hcov.
Qed.

Lemma stepped_drain_request t s :
  sup_ok s -> thread_ok s t ADrainRequest ->
  stepped t s ADrainRequest (Next ADrainTake) (set_stop_requested s).
Proof.
  intros [Hids Hc Hp Hl] [Ho _ _ _ _ _]. split; try done.
  intros f Hi Hcov. by apply Hcov.
Qed.

Lemma Drain_take_run s : Drain_take s =
  match m_lifecycle s with
  | LifecycleState.Stopped => (Ok None, s)
  | LifecycleState.Draining | LifecycleState.Failed =>
      (Ok (Some (m_pending_tasks s)), set_pending [] (set_jobs (stop_jobs (m_jobs s)) s))
  | _ => (Ok (Some (m_pending_tasks s)),
          set_pending [] (set_jobs (stop_jobs (m_jobs s)) (set_lifecycle LifecycleState.Draining s)))
  end.
Proof. unfold Drain_take. m_unfold. lifecycle_cases s; by rewrite ?jobs_RequestStop. Qed.

(** The state a [Drain] leaves when it takes the tasks over. *)
Lemma stepped_take t s s' :
  sup_ok s -> thread_ok s t ADrainTake ->
  (m_lifecycle s <> LifecycleState.Stopped) ->
  (m_lifecycle s' = LifecycleState.Draining \/
   m_lifecycle s' = LifecycleState.Failed /\ m_lifecycle s = LifecycleState.Failed) ->
  s' = set_pending [] (set_jobs (stop_jobs (m_jobs s)) (set_lifecycle (m_lifecycle s') s)) ->
  stepped t s ADrainTake (Next (AConsume (m_pending_tasks s))) s'.
Proof.
  intros [Hids Hc Hp Hl] [Ho _ _ _ _ _] Hst Hlc Heq. pose proof (proj1 Ho eq_refl) as Hown.
  assert (Hk : keeps t s s').
  { rewrite Heq. split; unfold exec; cbn; rewrite ?stop_jobs_executor; try done.
    - intros Hex. by destruct (other_owner _ _ Hown).
    - apply stop_jobs_stopped. }
  assert (Hsame : m_failure s' = m_failure s /\ m_active_consumers s' = m_active_consumers s /\
    m_next_task_id s' = m_next_task_id s /\ m_pending_tasks s' = [] /\ drain_owner s' = Some t /\
    exec s' = exec s).
  { rewrite Heq. unfold exec. cbn. by rewrite stop_jobs_executor. }
  destruct Hsame as (Hf & Hac & Hn & Hps & How & He).
  split; [done| | |cbn; lia|done| |done].
  - split; rewrite ?Hac, ?Hn, ?Hps; [unfold vec_size in *; cbn; lia|done|constructor|].
    destruct Hlc as [-> | [-> Hlc]]; [done|]. rewrite Hlc in Hl. rewrite Hf. by destruct Hl.
  - split; try done.
    + intros _. split; [|done]. naive_solver.
    + eapply Forall_impl; [exact Hp|]. intros task. by eapply valid_task_keeps.
  - unfold covered. rewrite He, Hf. intros f Hi Hcov. specialize (Hcov Hi). cbn in *.
    destruct Hcov as [?|[?|[?|[?%elem_of_nil|?]]]]; [by left|by right; left|by do 3 right; left|done..].
Qed.

Lemma stepped_drain_take t s n s' :
  sup_ok s -> thread_ok s t ADrainTake ->
  act t ADrainTake s = Some (n, s') -> stepped t s ADrainTake n s'.
Proof.
  intros Hs Hok. cbn [act]. unfold settle. rewrite Drain_take_run.
  destruct (m_lifecycle s) eqn:Hl; intros [= <- <-]; [| | | |by apply stepped_same|];
    (apply stepped_take; rewrite ?Hl; [done|done|done|cbn; rewrite ?Hl; by auto|]);
    destruct s; cbn in *; by subst.
Qed.

Lemma stepped_clear t s :
  sup_ok s -> thread_ok s t AClear -> stepped t s AClear (Next AJobsDrain) (set_pending [] s).
Proof.
  intros Hs Hok. destruct (t_taken _ _ _ Hok eq_refl) as [Hl Hp].
  replace (set_pending [] s) with s by (destruct s; cbn in *; by subst).
  apply stepped_same; try done. destruct Hok. by split.
Qed.

(** A step that moves the job runtime on, by the thread that drains. *)
Lemma stepped_jobs t s a a' st :
  sup_ok s -> thread_ok s t a -> taken a = true -> taken a' = true ->
  held a = held a' -> recording a = recording a' -> rethrown a' = None -> recorded a' = false ->
  consuming a = false -> consuming a' = false -> a' <> AAsleep ->
  (m_state (m_jobs s) = Stopped -> st = Stopped) ->
  (a' = AIdle -> st = Stopped) -> (forall src e k, a' <> ARecord src e k) ->
  stepped t s a (Next a') (set_jobs (JobRuntime.set_state st (m_jobs s)) s).
Proof.
  intros Hs [Ho Ht Hh _ _ _] Hta Hta' Hheld Hrec Hre Hrd Hca Hca' Has Hst Hidle Hnr.
  destruct (Ht Hta) as [Hl Hp]. split.
  - by split.
  - destruct Hs as [Hids Hc Hps Hlc]. split; cbn; [done|done|done|].
    destruct Hl as [Hl|Hl]; rewrite Hl in *; done.
  - split; cbn.
    + rewrite <- Ho. unfold draining. destruct a; try done; by destruct a'.
    + intros _. by split.
    + rewrite <- Hheld. exact Hh.
    + by rewrite Hrd.
    + by rewrite Hre.
    + destruct a'; try done; [by destruct (Hnr src error k)|]. left. by apply Hidle.
  - cbn. by rewrite Hca, Hca'.
  - by rewrite Hca.
  - intros f Hi Hcov. specialize (Hcov Hi). unfold covered in *. cbn. by rewrite <- Hheld, <- Hrec.
  - by intros [= ->].
Qed.

Lemma stepped_jobs_drain t s n s' :
  sup_ok s -> thread_ok s t AJobsDrain ->
  act t AJobsDrain s = Some (n, s') -> stepped t s AJobsDrain n s'.
Proof.
  intros Hs Hok. cbn [act]. unfold settle, Drain_begin. m_unfold.
  destruct (m_state (m_jobs s)) eqn:Hj; cbn.
  4: { intros [= <- <-]. replace (set_jobs (m_jobs s) s) with s by (by destruct s).
       apply stepped_same; try done. destruct Hok. split; try done. by left. }
  all: intros [= <- <-]; apply (stepped_jobs _ _ _ _ Draining); try done; by rewrite Hj.
Qed.

Lemma stepped_jobs_wait t s n s' :
  sup_ok s -> thread_ok s t AJobsWait ->
  act t AJobsWait s = Some (n, s') -> stepped t s AJobsWait n s'.
Proof.
  intros Hs [Ho Ht Hh _ _ _]. cbn [act]. fold (exec s).
  destruct (wait_for_all (exec s)) as [r|] eqn:Hw; [|done]. cbn.
  pose proof (wait_for_all_defined _ _ Hw) as Hd. destruct r as [[]|e| |]; try done.
  - intros [= <- <-]. by apply stepped_same.
  - intros [= <- <-]. apply stepped_same; try done. intros f _ _. by do 4 right.
Qed.

Lemma stepped_idle t s n s' :
  sup_ok s -> thread_ok s t AIdle -> act t AIdle s = Some (n, s') -> stepped t s AIdle n s'.
Proof.
  intros Hs Hok. pose proof Hok as [Ho Ht _ _ _ Hj]. destruct (Ht eq_refl) as [Hl Hp].
  pose proof (proj1 Ho eq_refl) as Hown. cbn [act].
  destruct (Z.eqb_spec (m_active_consumers s) 0) as [Hc|Hc].
  - unfold settle, Drain_settle. m_unfold. intros [= <- <-].
    split; [| |done|done|done| |done].
    + split; try done. intros Hex. by destruct (other_owner _ _ Hown).
    + destruct Hs as [Hids Hc0 Hps Hlc]. split; cbn; [done|done|done|].
      destruct (m_failure s) as [f|] eqn:Hf; [done|]. split_and!; try done. by destruct Hj.
    + intros f Hi Hcov. by apply Hcov.
  - intros [= <- <-]. split; [apply keeps_id|done| |done|done| |done].
    + by split.
    + intros f Hi Hcov. by apply Hcov.
Qed.

(** Every step of a thread keeps what the invariant says of the supervisor and
    of the thread. *)
Lemma act_stepped t s a n s' :
  sup_ok s -> thread_ok s t a -> (consuming a = true -> 1 <= m_active_consumers s) ->
  act t a s = Some (n, s') -> stepped t s a n s'.
Proof.
  intros Hs Hok Hc Hact. destruct a; cbn [act] in Hact.
  - by apply stepped_start.
  - by apply stepped_submit.
  - destruct (stepped_submit t s flow n s' Hs Hact). by split.
  - by apply stepped_wait.
  - by apply stepped_wait_task.
  - destruct error as [e|]; injection Hact as <- <-; apply stepped_same; try done.
    destruct Hok. by split.
  - by apply stepped_record.
  - injection Hact as <- <-. by apply stepped_request_stop.
  - by apply stepped_stop.
  - apply stepped_release; auto.
  - injection Hact as <- <-. by apply stepped_same.
  - by apply stepped_drain.
  - injection Hact as <- <-. by apply stepped_drain_request.
  - by apply stepped_drain_take.
  - by apply stepped_consume.
  - injection Hact as <- <-. by apply stepped_clear.
  - by apply stepped_jobs_drain.
  - by apply stepped_jobs_wait.
  - unfold settle, Drain_end in Hact. m_unfold. injection Hact as <- <-.
    by apply (stepped_jobs _ _ _ _ Stopped).
  - by apply stepped_idle.
  - done.
  - injection Hact as <- <-. by apply stepped_same.
Qed.

(** ** The invariant is kept *)

Definition one (b : bool) : nat := if b then 1 else 0.

Lemma consumers_insert l t a : l !! t = None ->
  consumers (<[t := a]> l) = (consumers l + one (consuming a))%nat.
Proof.
  intros Ht. unfold consumers, one. destruct (consuming a) eqn:Ha.
  - rewrite map_filter_insert_True by done. rewrite map_size_insert_None; [lia|].
    apply map_lookup_filter_None. by left.
  - rewrite map_filter_insert_False by (cbn; by rewrite Ha). rewrite delete_id by done. lia.
Qed.

Lemma consumers_lookup l t a : l !! t = Some a ->
  consumers l = (consumers (delete t l) + one (consuming a))%nat.
Proof.
  intros Ht. rewrite <- (consumers_insert _ t a) by apply lookup_delete_eq.
  by rewrite insert_delete_id.
Qed.

Lemma consumers_wake l : consumers (wake <$> l) = consumers l.
Proof.
  unfold consumers. rewrite map_filter_fmap, map_size_fmap. f_equal.
  apply map_filter_ext. intros t a _. by destruct a.
Qed.

Lemma leave_same t n s :
  m_jobs (leave t n s) = m_jobs s /\ m_lifecycle (leave t n s) = m_lifecycle s /\
  m_failure (leave t n s) = m_failure s /\ m_pending_tasks (leave t n s) = m_pending_tasks s /\
  m_next_task_id (leave t n s) = m_next_task_id s /\
  m_active_consumers (leave t n s) = m_active_consumers s.
Proof. unfold leave. destruct n; try done; by case_bool_decide. Qed.

Lemma leave_owner t n s t' : t' <> t ->
  drain_owner (leave t n s) = Some t' <-> drain_owner s = Some t'.
Proof.
  intros Hne. unfold leave. destruct n; try done; case_bool_decide as Ho; try done; cbn; rewrite Ho;
    (split; [done|]); by intros [= ->].
Qed.

Lemma leave_exit t n s : (forall a, n <> Next a) -> drain_owner (leave t n s) <> Some t.
Proof.
  intros Hn. unfold leave. destruct n as [a| | |]; [by destruct (Hn a)|..]; by case_bool_decide.
Qed.

Lemma keeps_leave t n s s' : keeps t s s' -> keeps t s (leave t n s').
Proof.
  intros [Ho Ht Hf Hs Hi Hr]. destruct (leave_same t n s') as (Hj & Hl & Hfl & Hp & _ & _).
  split; unfold exec, after_take in *; rewrite ?Hj, ?Hl, ?Hfl, ?Hp; try done.
  intros t' Hne. rewrite leave_owner by done. by apply Ho.
Qed.

Lemma sup_ok_leave t n s : sup_ok s -> sup_ok (leave t n s).
Proof.
  intros [Hids Hc Hps Hlc]. destruct (leave_same t n s) as (Hj & Hl & Hf & Hp & Hn & Hac).
  split; unfold valid_task, exec; rewrite ?Hj, ?Hl, ?Hf, ?Hp, ?Hn, ?Hac; done.
Qed.

Lemma covered_leave t n s a f : covered (leave t n s) a f <-> covered s a f.
Proof.
  destruct (leave_same t n s) as (Hj & Hl & Hf & Hp & _ & _). unfold covered, exec.
  by rewrite Hj, Hf, Hp.
Qed.

(** A run that no other thread accounts for is accounted for by [t]. *)
Lemma covered_by w t a f :
  threads w !! t = Some a ->
  (covered (sup w) AStart f \/ exists t a, threads w !! t = Some a /\ covered (sup w) a f) ->
  covered (sup w) a f \/
  exists t' a', t' <> t /\ threads w !! t' = Some a' /\ (f ∈ futures (held a') \/ recording a' = true).
Proof.
  intros Ht [Hc|(t' & a' & Ht' & Hc)].
  - left. destruct Hc as [?|[?|[?|[?%elem_of_nil|?]]]];
      [by left|by right; left|by do 2 right; left|done..].
  - destruct (decide (t' = t)) as [->|Hne]; [left; congruence|].
    destruct Hc as [?|[?|[?|[?|?]]]]; [left; by left|left; by right; left|left; by do 2 right; left| |];
      right; exists t', a'; auto.
Qed.

Lemma notify_lookup a s l t a' : notify a s l !! t = Some a' ->
  exists a0, l !! t = Some a0 /\ (a' = a0 \/ a' = wake a0).
Proof.
  unfold notify. destruct a; eauto. destruct (_ =? 0); [|by eauto].
  rewrite lookup_fmap. intros (a0 & -> & Ha0)%fmap_Some. eauto.
Qed.

Lemma notify_some a s l t a0 : l !! t = Some a0 ->
  exists a', notify a s l !! t = Some a' /\ held a' = held a0 /\ recording a' = recording a0.
Proof.
  unfold notify. intros Hl. destruct a; eauto. destruct (_ =? 0); [|by eauto].
  exists (wake a0). rewrite lookup_fmap, Hl. by destruct a0.
Qed.

Lemma notify_delete a s l t : delete t (notify a s l) = notify a s (delete t l).
Proof. unfold notify. destruct a; try done. destruct (_ =? 0); [|done]. by rewrite fmap_delete. Qed.

Lemma notify_consumers a s l : consumers (notify a s l) = consumers l.
Proof. unfold notify. destruct a; try done. destruct (_ =? 0); [|done]. apply consumers_wake. Qed.

(** Nobody is left asleep when no consumer is. *)
Lemma notify_asleep t s a n s' l t' :
  stepped t s a n s' -> 0 <= m_active_consumers s ->
  (l !! t' = Some AAsleep -> m_active_consumers s <> 0) ->
  notify a s' l !! t' = Some AAsleep -> m_active_consumers s' <> 0.
Proof.
  intros [_ _ _ Hc Hr _ _] Hpos Hl. unfold notify.
  assert (Hnot : consuming a = false \/ consuming (next_action n) = true ->
    l !! t' = Some AAsleep -> m_active_consumers s' <> 0).
  { intros Hca Hin. specialize (Hl Hin). destruct Hca as [Hca|Hca]; rewrite Hca in Hc;
      [destruct (consuming (next_action n))|destruct (consuming a)]; cbn in Hc; lia. }
  destruct a; try (apply Hnot; by auto);
    try (destruct (consuming _) eqn:Hca; apply Hnot; [|by left]; right; destruct (Hr eq_refl) as [|(? & ? & ?)]; done).
  destruct (Z.eqb_spec (m_active_consumers s') 0); [|done].
  rewrite lookup_fmap. intros (a0 & Ha0 & Hw)%fmap_Some. by destruct a0.
Qed.

(** A thread that races owes nothing: without it the others go on. *)
Lemma racing_action t a w : racing t a w = true ->
  held a = [] /\ recording a = false /\ consuming a = false.
Proof.
  unfold racing. intros (p & _ & [_ Hc]%andb_true_iff)%existsb_exists.
  by destruct a; rewrite ?andb_false_r in Hc; cbn in *.
Qed.

Lemma inv_leave w t a :
  inv w -> threads w !! t = Some a -> held a = [] -> recording a = false -> consuming a = false ->
  inv (mkSystem (leave t Wrong (sup w)) (chan w) (delete t (threads w))).
Proof.
  intros [Hs Hth How Hcnt Has Htk] Ht Hheld Hrec Hcons.
  pose proof (keeps_leave t Wrong _ _ (keeps_id t (sup w))) as Hkeep.
  destruct (leave_same t Wrong (sup w)) as (Hj & _ & _ & _ & _ & Hac). split; cbn [sup threads].
  - by apply sup_ok_leave.
  - intros t' a' [Hne Ha']%lookup_delete_Some. by eapply thread_ok_keeps, Hth.
  - intros t' Ho. destruct (decide (t' = t)) as [->|Hne]; [by apply leave_exit in Ho|].
    apply leave_owner in Ho; [|done]. rewrite lookup_delete_ne by done. by apply How.
  - rewrite Hac, Hcnt, (consumers_lookup _ _ _ Ht), Hcons. cbn. lia.
  - rewrite Hac. intros t' [_ Ha']%lookup_delete_Some. by apply (Has t').
  - unfold exec. rewrite Hj. fold (exec (sup w)). intros f Hf.
    destruct (covered_by _ _ _ _ Ht (Htk f Hf)) as [Hc|(t' & a' & Hne & Ha' & Hc)].
    + left. apply covered_leave. unfold covered in *. rewrite Hheld, Hrec in Hc. naive_solver.
    + right. exists t', a'. rewrite lookup_delete_ne by done. split; [done|].
      unfold covered. by do 3 right.
Qed.

Lemma inv_perform w t n w' : inv w -> perform t w = Some (n, w') -> inv w'.
Proof.
  intros Hw. pose proof Hw as [Hs Hth How Hcnt Has Htk]. unfold perform.
  destruct (threads w !! t) as [a|] eqn:Ht; [|done]. cbn.
  destruct (racing t a w) eqn:Hrace.
  { intros [= <- <-]. apply racing_action in Hrace as (? & ? & ?). by eapply inv_leave. }
  destruct (act t a (sup w)) as [[n' s']|] eqn:Hact; [|done]. cbn. intros [= -> <-].
  assert (Hcons : m_active_consumers (sup w) =
    Z.of_nat (consumers (delete t (threads w))) + Z.b2z (consuming a)).
  { rewrite Hcnt, (consumers_lookup _ _ _ Ht). unfold one. destruct (consuming a); cbn; lia. }
  assert (Hst : stepped t (sup w) a n s').
  { apply act_stepped; [done|by apply Hth| |done]. intros Ha. rewrite Ha in Hcons. cbn in Hcons. lia. }
  pose proof (keeps_leave t n _ _ (st_keeps _ _ _ _ _ Hst)) as Hkeep.
  destruct (leave_same t n s') as (_ & _ & _ & _ & _ & Hac).
  set (l := match n with Next a => _ | _ => _ end).
  assert (Hl : forall t', t' <> t -> l !! t' = notify a s' (threads w) !! t').
  { intros t' Hne. unfold l. destruct n; [by rewrite lookup_insert_ne|by rewrite lookup_delete_ne..]. }
  assert (Hlt : l !! t = match n with Next a => Some a | _ => None end).
  { unfold l. destruct n; [by rewrite lookup_insert_eq|by rewrite lookup_delete_eq..]. }
  split; cbn.
  - by apply sup_ok_leave, Hst.
  - intros t' a' Ha'. destruct (decide (t' = t)) as [->|Hne].
    + rewrite Hlt in Ha'. destruct n; [|done..]. injection Ha' as ->. apply Hst.
    + rewrite Hl in Ha' by done. apply notify_lookup in Ha' as (a0 & Ha0 & Ha').
      pose proof (thread_ok_keeps t t' _ _ a0 Hkeep Hne (Hth _ _ Ha0)) as Hok.
      destruct Ha' as [->| ->]; [done|by apply thread_ok_wake].
  - intros t' Ho'. destruct (decide (t' = t)) as [->|Hne].
    + rewrite Hlt. destruct n as [a'| | |]; [done|by apply leave_exit in Ho'..].
    + apply (k_owner _ _ _ Hkeep) in Ho'; [|done]. destruct (How t' Ho') as [a0 Ha0].
      rewrite Hl by done. destruct (notify_some a s' _ _ _ Ha0) as (a' & -> & _). done.
  - rewrite Hac. pose proof (st_count _ _ _ _ _ Hst) as Hc.
    assert (Hsz : consumers l = (consumers (delete t (threads w)) + one (consuming (next_action n)))%nat).
    { rewrite <- (notify_consumers a s' (delete _ _)), <- notify_delete. unfold l. destruct n as [a0| | |]; cbn [next_action];
        [|by rewrite Nat.add_0_r..].
      rewrite <- (consumers_insert _ t a0) by apply lookup_delete_eq. by rewrite insert_delete_eq. }
    rewrite Hsz. unfold one. destruct (consuming (next_action n)), (consuming a); cbn in *; lia.
  - rewrite Hac. intros t' Ha'. destruct (decide (t' = t)) as [->|Hne].
    + rewrite Hlt in Ha'. destruct n; [|done..]. injection Ha' as ->. by apply (st_asleep _ _ _ _ _ Hst).
    + rewrite Hl in Ha' by done. eapply notify_asleep; [exact Hst|apply Hs|apply Has|exact Ha'].
  - destruct (leave_same t n s') as (Hj & _). unfold exec. rewrite Hj. fold (exec s'). intros f Hf.
    assert (Hmine : (f ∈ issued (exec (sup w)) -> covered (sup w) a f) ->
      covered (leave t n s') AStart f \/ exists t' a', l !! t' = Some a' /\ covered (leave t n s') a' f).
    { intros Hcov%(st_cover _ _ _ _ _ Hst); [|done]. destruct n as [a'| | |];
        [right; exists t, a'; by rewrite Hlt, covered_leave|left; by rewrite covered_leave..]. }
    destruct (decide (f ∈ issued (exec (sup w)))) as [Hin|Hin]; [|by apply Hmine].
    destruct (covered_by _ _ _ _ Ht (Htk f Hin)) as [Hc|(t' & a' & Hne & Ha' & Hc)]; [by apply Hmine|].
    right. destruct (notify_some a s' _ _ _ Ha') as (a'' & Ha'' & Hh & Hr).
    exists t', a''. rewrite Hl by done. split; [done|]. unfold covered. rewrite Hh, Hr.
    destruct Hc; [by do 3 right; left|by do 4 right].
Qed.

Lemma inv_call w t a :
  inv w -> threads w !! t = None -> entry a = true -> inv (set_threads (<[t := a]> (threads w)) w).
Proof.
  intros [Hs Hth How Hcnt Has Htk] Ht Ha.
  assert (Hfree : drain_owner (sup w) <> Some t).
  { intros Ho. destruct (How t Ho) as [a0 Ha0]. congruence. }
  split; cbn.
  - done.
  - intros t' a' Ha'. apply lookup_insert_Some in Ha' as [[<- <-]|[_ Ha']]; [|by apply Hth].
    assert (Hneutral : draining a = false /\ taken a = false /\ held a = [] /\ recorded a = false /\
      rethrown a = None /\ consuming a = false) by (by destruct a as [| | | | | | |[]|[]| | | | | | | | | | | | |]).
    destruct Hneutral as (Hd & Htk' & Hh & Hr & Hre & _).
    split; rewrite ?Hd, ?Htk', ?Hh, ?Hr, ?Hre; try done. by destruct a.
  - intros t' Ho. destruct (How t' Ho) as [a0 Ha0]. rewrite lookup_insert_ne by congruence. done.
  - rewrite consumers_insert, Hcnt by done.
    by destruct a as [| | | | | | |[]|[]| | | | | | | | | | | | |]; cbn; rewrite ?Nat.add_0_r.
  - intros t' Ha'. apply lookup_insert_Some in Ha' as [[<- ->]|[_ Ha']]; [done|by apply (Has t')].
  - intros f Hf. destruct (Htk f Hf) as [?|(t' & a' & Ha' & Hc)]; [by left|]. right. exists t', a'.
    rewrite lookup_insert_ne by congruence. done.
Qed.

Lemma inv_spurious w t :
  inv w -> threads w !! t = Some AAsleep -> inv (set_threads (<[t := AIdle]> (threads w)) w).
Proof.
  intros [Hs Hth How Hcnt Has Htk] Ht. split; cbn.
  - done.
  - intros t' a' Ha'. apply lookup_insert_Some in Ha' as [[<- <-]|[_ Ha']]; [|by apply Hth].
    apply (thread_ok_wake _ _ AAsleep). by apply Hth.
  - intros t' Ho. destruct (How t' Ho) as [a0 Ha0]. destruct (decide (t = t')) as [<-|Hne];
      [by rewrite lookup_insert_eq|by rewrite lookup_insert_ne].
  - rewrite Hcnt, <- insert_delete_eq, (consumers_insert _ t AIdle) by apply lookup_delete_eq.
    rewrite (consumers_lookup _ _ _ Ht). done.
  - intros t' Ha'. apply lookup_insert_Some in Ha' as [[<- ?]|[_ Ha']]; [done|by apply (Has t')].
  - intros f Hf. destruct (Htk f Hf) as [?|(t' & a' & Ha' & Hc)]; [by left|]. right.
    destruct (decide (t = t')) as [<-|Hne].
    + exists t, AIdle. rewrite lookup_insert_eq. split; [done|]. rewrite Ht in Ha'. by injection Ha' as <-.
    + exists t', a'. by rewrite lookup_insert_ne.
Qed.

Lemma inv_advance w e :
  inv w -> advance (exec (sup w)) e ->
  inv (set_sup (set_jobs (set_executor e (m_jobs (sup w))) (sup w)) w).
Proof.
  intros [Hs Hth How Hcnt Has Htk] Hadv.
  pose proof (advance_issued _ _ Hadv) as Hi.
  pose proof (fun f r => advance_keeps _ _ f r Hadv) as Hr.
  assert (Hk : forall t, keeps t (sup w) (set_jobs (set_executor e (m_jobs (sup w))) (sup w))).
  { intros t. split; try done. unfold exec. cbn. by rewrite Hi. }
  split; cbn; [| |done|done|done|].
  - destruct Hs as [Hids Hc Hps Hlc]. split; cbn; try done.
    eapply Forall_impl; [exact Hps|]. intros task. apply (valid_task_keeps 0), Hk.
  - intros t a Ha. apply (thread_ok_keeps (t + 1) _ (sup w)); [done|lia|by apply Hth].
  - rewrite Hi. intros f Hf.
    destruct (Htk f Hf) as [Hc|(t & a & Ha & Hc)]; [left|right; exists t, a; split; [done|]];
      (eapply covered_keeps; [apply (Hk 0)|exact Hc|]); intros Hp; by do 2 right; left.
Qed.

Lemma inv_step w w' : inv w -> step w w' -> inv w'.
Proof.
  intros Hw [t a Ht Ha|t n w'' Hp|t Ht|e Ha];
    eauto using inv_call, inv_perform, inv_spurious, inv_advance.
Qed.

Lemma inv_initial w : initial w -> inv w.
Proof.
  intros [j c Hj Hi]. split; cbn.
  - by split.
  - intros t a. by rewrite lookup_empty.
  - done.
  - done.
  - intros t. by rewrite lookup_empty.
  - unfold exec. cbn. rewrite Hi. by intros f ?%elem_of_nil.
Qed.

Lemma inv_rtc w w' : inv w -> rtc step w w' -> inv w'.
Proof. intros Hw. induction 1; eauto using inv_step. Qed.

Lemma reachable_inv w : reachable w -> inv w.
Proof. intros (w0 & H1 & H2). eauto using inv_rtc, inv_initial. Qed.

(** What the invariant gives for a step of a thread. *)
Lemma inv_stepped w t a n s' :
  inv w -> threads w !! t = Some a -> act t a (sup w) = Some (n, s') -> stepped t (sup w) a n s'.
Proof.
  intros [Hs Hth How Hcnt Has Htk] Ht. apply act_stepped; [done|by apply Hth|].
  intros Ha. rewrite Hcnt, (consumers_lookup _ _ _ Ht), Ha. cbn. lia.
Qed.

End spec.
