(* ===== verification/RuntimeSupervisorSpec.v ===== *)
(** * The runtime supervisor: its theorems

    What a supervisor that has stopped guarantees of its tasks, exactly when a call
    ends with which exception, the one data race, the direction of the lifecycle, and the absence of
    deadlocks, with examples on a small executor. *)

From stdpp Require Import base numbers list option strings gmap relations.
From S2P Require Import Prelude FramePacketChannel JobRuntime RuntimeSupervisor RuntimeSupervisorInv.

#[local] Open Scope Z_scope.

Section theorems.
Context `{ExecutorLaws}.
Implicit Types (s : RuntimeSupervisor) (a : action) (w : System).

(** A thread that accounts for a run is between taking it over and the end. *)
Lemma busy a f : f ∈ futures (held a) \/ recording a = true -> consuming a = true \/ taken a = true.
Proof.
  intros [Hf|Hr]; destruct a as [| | | | | |? ? []|[]|[]| | | | | | | | | | | | |]; auto;
    cbn in Hf; by apply elem_of_nil in Hf.
Qed.

Lemma consumers_positive w t a :
  inv w -> threads w !! t = Some a -> consuming a = true -> 1 <= m_active_consumers (sup w).
Proof.
  intros Hw Ht Ha. rewrite (i_count _ Hw), (consumers_lookup _ _ _ Ht), Ha. cbn. lia.
Qed.

(** Once the supervisor has stopped, nobody holds a task. *)
Lemma stopped_idle w t a f :
  inv w -> m_lifecycle (sup w) = LifecycleState.Stopped -> threads w !! t = Some a ->
  ~ (f ∈ futures (held a) \/ recording a = true).
Proof.
  intros Hw Hl Ht Hb. pose proof (s_lifecycle _ (i_sup _ Hw)) as Hs. rewrite Hl in Hs.
  destruct Hs as (_ & Hc & _). destruct (busy a f Hb) as [Ha|Ha].
  - pose proof (consumers_positive _ _ _ Hw Ht Ha). lia.
  - destruct (t_taken _ _ _ (i_threads _ Hw _ _ Ht) Ha) as [[Hd|Hd] _]; congruence.
Qed.

(** C34. A supervisor that has stopped has lost nothing: no failure is recorded,
    no task is pending, no thread is waiting for one, the job runtime has
    stopped, and every run it ever submitted finished without an exception. *)
Theorem Stopped_clean w :
  reachable w -> m_lifecycle (sup w) = LifecycleState.Stopped ->
  m_failure (sup w) = None /\ m_pending_tasks (sup w) = [] /\ m_active_consumers (sup w) = 0 /\
  m_state (m_jobs (sup w)) = Stopped /\
  forall f, f ∈ issued (exec (sup w)) -> result (exec (sup w)) f = Some None.
Proof.
  intros Hw%reachable_inv Hl. pose proof (s_lifecycle _ (i_sup _ Hw)) as Hs. rewrite Hl in Hs.
  destruct Hs as (Hf & Hc & Hp & Hj). split_and!; try done. intros f Hi.
  destruct (i_tasks _ Hw f Hi) as [Hcov|(t & a & Ht & Hcov)];
    destruct Hcov as [?|[?|[Hin|Hb]]]; try done; try (rewrite Hp in Hin; by apply elem_of_nil in Hin).
  - by destruct Hb as [?%elem_of_nil|?].
  - by destruct (stopped_idle _ _ _ f Hw Hl Ht).
Qed.

(** ** Exceptions and races *)

Lemma submit_threw s flow e n s' :
  sup_ok s -> fails s (ASubmit flow) e -> settle (Submit flow) Returned Threw s = Some (n, s') ->
  n = Threw e.
Proof.
  intros Hs Hf. cbn [fails] in Hf. unfold settle, Submit, submit_task. m_unfold.
  destruct Hf as [[Hl ->]|[Hl Hf]]; [by lifecycle_cases s; try done; intros [= <- _]|].
  pose proof (s_lifecycle _ Hs) as Hj. rewrite Hl in Hj. destruct Hj as [_ Hj].
  unfold state_in. rewrite bool_decide_eq_true_2 by (rewrite Hl; left). cbn.
  destruct Hf as [[Hb ->]|[Hb Hf]]; [rewrite (proj2 (Z.leb_le _ _)) by done; by intros [= <- _]|].
  rewrite (proj2 (Z.leb_gt _ _)) by done.
  destruct Hf as [[Hn ->]|[Hn (refused & Hr & ->)]].
  { rewrite Hn, Z.eqb_refl. by intros [= <- _]. }
  rewrite (proj2 (Z.eqb_neq _ _)) by done. unfold JobRuntime.Submit, submission, exec in *. m_unfold.
  rewrite Hj, bool_decide_eq_true_2 by done. cbn.
  destruct (run flow (m_executor (m_jobs s))) as [r e']. cbn in Hr. subst r. cbn. by intros [= <- _].
Qed.

(** When an exception is due, the step throws it. *)
Lemma fails_threw t s a e n s' :
  sup_ok s -> thread_ok s t a -> (consuming a = true -> 1 <= m_active_consumers s) ->
  fails s a e -> act t a s = Some (n, s') -> n = Threw e.
Proof.
  intros Hs Hok Hc Hf Hact. pose proof (t_error _ _ _ Hok) as He.
  destruct a; cbn [act fails] in *; try done.
  - destruct Hf as [Hl ->]. revert Hact. unfold settle, Start. m_unfold.
    lifecycle_cases s; try done; by intros [= <- _].
  - by eapply submit_threw.
  - by eapply submit_threw.
  - revert Hact. unfold settle, Wait_take. m_unfold. destruct Hf as [[-> ->]|(Hz & Hin & ->)].
    { by intros [= <- _]. }
    rewrite (proj2 (Z.eqb_neq _ _) Hz).
    destruct (take_task task_id (m_pending_tasks s)) as [[task rest]|] eqn:Ht; [|by intros [= <- _]].
    apply take_task_Some in Ht as (l1 & l2 & Hl & _ & Hid). exfalso. apply Hin.
    rewrite Hl, map_app, <- Hid. apply elem_of_app. right. left.
  - destruct Hf as [-> ->]. by injection Hact as <- _.
  - destruct Hf as (-> & Hl & ->). revert Hact. unfold settle. destruct error as [e|]; [|naive_solver].
    rewrite RecordFailure_late by done. by intros [= <- _].
  - subst rethrow. specialize (Hc eq_refl). revert Hact. unfold settle, ReleaseConsumer. m_unfold.
    destruct (Z.eqb_spec (m_active_consumers s) 0); [lia|]. by intros [= <- _].
Qed.

(** The calls that look at the pending tasks without draining. *)
Definition reads_pending a : Prop :=
  a = APendingTaskCount \/ exists task_id, a = AWait task_id /\ task_id <> 0.

(** Two threads race when one clears the pending tasks and the other looks at them. *)
Definition race_with a a' : Prop :=
  (a = AClear /\ reads_pending a') \/ (reads_pending a /\ a' = AClear).

Lemma reads_touches s a : reads_pending a -> touches a s = true.
Proof. intros [->|(i & -> & Hi)]; [done|]. cbn. by rewrite (proj2 (Z.eqb_neq _ _) Hi). Qed.

(** While a thread is about to clear, the others that touch the tasks only look. *)
Lemma touches_reads w t a t' : inv w ->
  threads w !! t = Some AClear -> t' <> t -> threads w !! t' = Some a ->
  touches a (sup w) = true -> reads_pending a.
Proof.
  intros Hw Ht Hne Ha Htouch. pose proof (i_threads _ Hw _ _ Ht) as [Ho Htk _ _ _ _].
  destruct (Htk eq_refl) as [Hl _]. destruct a; cbn in Htouch; try done; try (by left).
  - unfold state_in in Htouch. apply bool_decide_eq_true, list_elem_of_singleton in Htouch.
    destruct Hl; congruence.
  - unfold state_in in Htouch. apply bool_decide_eq_true, list_elem_of_singleton in Htouch.
    destruct Hl; congruence.
  - right. exists task_id. split; [done|]. by destruct (Z.eqb_spec task_id 0).
  - pose proof (proj1 Ho eq_refl) as Hown.
    pose proof (proj1 (t_owner _ _ _ (i_threads _ Hw _ _ Ha)) eq_refl) as Hown'. congruence.
Qed.

Lemma racing_with w t a : inv w -> threads w !! t = Some a ->
  racing t a w = true <-> exists t' a', t' <> t /\ threads w !! t' = Some a' /\ race_with a a'.
Proof.
  intros Hw Ht. unfold racing. rewrite existsb_exists. split.
  - intros ([t' a'] & Hin & [Hne%bool_decide_eq_true Hc]%andb_true_iff). cbn in *.
    apply list_elem_of_In, elem_of_map_to_list in Hin. exists t', a'. split_and!; [done..|].
    unfold conflicts in Hc. apply orb_true_iff in Hc as [[Ha Hc]%andb_true_iff|[Hc Ha]%andb_true_iff].
    + assert (a = AClear) as -> by (by destruct a). left. split; [done|].
      apply orb_true_iff in Hc as [Hc|Hc]; [|by eapply (touches_reads w t)].
      assert (a' = AClear) as -> by (by destruct a').
      pose proof (proj1 (t_owner _ _ _ (i_threads _ Hw _ _ Ht)) eq_refl) as Hown.
      pose proof (proj1 (t_owner _ _ _ (i_threads _ Hw _ _ Hin)) eq_refl) as Hown'. congruence.
    + assert (a' = AClear) as -> by (by destruct a'). right. split; [|done].
      by eapply (touches_reads w t' a t).
  - intros (t' & a' & Hne & Ha' & Hr). exists (t', a'). split.
    + by apply list_elem_of_In, elem_of_map_to_list.
    + cbn. rewrite bool_decide_eq_true_2 by done. unfold conflicts.
      destruct Hr as [[-> Hr]|[Hr ->]]; rewrite (reads_touches _ _ Hr); cbn;
        by rewrite ?orb_true_r, ?andb_true_r.
Qed.

(** What a wait takes over, keeps to its end and ends with. *)
Lemma wait_takes t s s' task_id task :
  act t (AWait task_id) s = Some (Next (AWaitTask task), s') ->
  id task = task_id /\ task ∈ m_pending_tasks s.
Proof.
  cbn [act]. unfold settle, Wait_take. m_unfold. destruct (task_id =? 0); [done|].
  destruct (take_task task_id (m_pending_tasks s)) as [[task' rest]|] eqn:Ht; [|done].
  intros [= -> _]. apply take_task_Some in Ht as (l1 & l2 & -> & _ & Hid). split; [done|].
  apply elem_of_app. right. left.
Qed.

Lemma wait_keeps t s a n s' task :
  sup_ok s -> thread_ok s t a -> 1 <= m_active_consumers s -> waits_for a = Some task ->
  act t a s = Some (n, s') ->
  match n with
  | Next a' => waits_for a' = Some task
  | Returned _ => task_success s task
  | Threw e => task_failure s task e
  | Wrong => False
  end.
Proof.
  intros Hs Hok Hc Hwait Hact. pose proof Hok as [_ _ Hh _ Hre He].
  destruct a as [| | | | task'| |src err [|task' e| | |]|[|task' e| | |]|[|task' e| | |]|task' rethrow
                | | | | | | | | | | | |]; try done; injection Hwait as ->; cbn [act] in Hact.
  - cbn in Hh. apply Forall_cons in Hh as [Hv _].
    apply (wait_task_inv _ _ _ _ _ _ Hv) in Hact as [_ [[-> _]|(e & -> & _)]]; done.
  - destruct err as [e'|]; [|naive_solver]. unfold settle in Hact.
    destruct (decide (m_lifecycle s = LifecycleState.Stopped)) as [Hl|Hl];
      [rewrite RecordFailure_late in Hact by done|rewrite RecordFailure_run in Hact by done];
      by injection Hact as <- _.
  - by injection Hact as <- _.
  - unfold settle in Hact. rewrite RequestStop_run in Hact. by injection Hact as <- _.
  - unfold settle, ReleaseConsumer in Hact. revert Hact. m_unfold.
    destruct (Z.eqb_spec (m_active_consumers s) 0); [lia|].
    destruct rethrow as [e|]; intros [= <- _]; [by apply Hre|done].
Qed.

(** C36. How calls fail. A step of a call throws exactly in these cases, and exactly
    this exception: [Start] after the start; a submission outside the running state,
    at the bound of pending tasks, at the last identifier, or when the executor
    refuses the run (the exception nested in one of the job runtime); a wait for
    identifier 0 or one that is not pending; a report without an exception or after
    shutdown; and the end of a wait whose task failed. A wait keeps the task of its
    identifier to its end, throws only the failure of that task's own run and
    returns only when that run has returned. A stop request and a drain never
    throw, so the destructor never terminates. Behaviour is undefined in one case: a
    drain clears the pending tasks, without the mutex, while another thread is in a
    wait or in [PendingTaskCount] at its look at them. *)
Theorem calls_fail w t a n w' :
  reachable w -> threads w !! t = Some a -> perform t w = Some (n, w') ->
  (n = Wrong <-> exists t' a', t' <> t /\ threads w !! t' = Some a' /\ race_with a a') /\
  (n <> Wrong -> forall e, n = Threw e <-> fails (sup w) a e) /\
  (forall task_id task, a = AWait task_id -> n = Next (AWaitTask task) ->
     id task = task_id /\ task ∈ m_pending_tasks (sup w)) /\
  (forall task, waits_for a = Some task ->
     match n with
     | Next a' => waits_for a' = Some task
     | Returned _ => task_success (sup w) task
     | Threw e => task_failure (sup w) task e
     | Wrong => False
     end).
Proof.
  intros Hw%reachable_inv Ht Hp. rewrite <- (racing_with w t a Hw Ht).
  pose proof (i_threads _ Hw _ _ Ht) as Hok. unfold perform in Hp. rewrite Ht in Hp. cbn in Hp.
  destruct (racing t a w) eqn:Hrace.
  { injection Hp as <- <-. split_and!; [done|done|done|]. intros task Htask.
    apply racing_action in Hrace as (_ & _ & Hc). by destruct a as [| | | | | |? ? []|[]|[]| | | | | | | | | | | | |]. }
  destruct (act t a (sup w)) as [[n' s']|] eqn:Hact; [|done]. cbn in Hp. injection Hp as -> _.
  pose proof (inv_stepped _ _ _ _ _ Hw Ht Hact) as Hst.
  assert (Hdef : n <> Wrong) by (intros ->; by apply (st_next _ _ _ _ _ Hst)).
  split; [by split|]. split; [|split].
  - intros _ e. split; [|by intros Hf; eapply fails_threw; eauto using i_sup, consumers_positive].
    intros ->. apply (st_next _ _ _ _ _ Hst).
  - intros task_id task -> ->. by apply (wait_takes t (sup w) s').
  - intros task Htask. eapply (wait_keeps t (sup w) a n s'); eauto using i_sup.
    eapply consumers_positive; [done..|]. by destruct a as [| | | | | |? ? []|[]|[]| | | | | | | | | | | | |].
Qed.

(** ** The direction of the lifecycle *)

Definition rank (l : LifecycleState.type) : nat :=
  match l with
  | LifecycleState.Starting => 0
  | LifecycleState.Running => 1
  | LifecycleState.StopRequested => 2
  | LifecycleState.Draining => 3
  | LifecycleState.Stopped | LifecycleState.Failed => 4
  end.

Record forward s s' : Prop := mkForward
  { f_rank : (rank (m_lifecycle s) <= rank (m_lifecycle s'))%nat;
    f_final : rank (m_lifecycle s) = 4%nat -> m_lifecycle s' = m_lifecycle s;
    f_failure : m_failure s <> None -> m_failure s' = m_failure s;
    f_issued : (2 <= rank (m_lifecycle s))%nat -> issued (exec s') = issued (exec s) }.

Lemma forward_refl s : forward s s.
Proof. by split. Qed.

Lemma forward_trans s1 s2 s3 : forward s1 s2 -> forward s2 s3 -> forward s1 s3.
Proof.
  intros [Hr Hf Hx Hi] [Hr' Hf' Hx' Hi']. split; [lia| | |].
  - intros H4. rewrite <- (Hf H4). apply Hf'. by rewrite (Hf H4).
  - intros Hn. rewrite <- (Hx Hn). apply Hx'. by rewrite (Hx Hn).
  - intros H2. rewrite <- (Hi H2). apply Hi'. lia.
Qed.

(** A step that leaves the lifecycle or moves it on, and keeps the runs. *)
Lemma forward_same s s' :
  (m_lifecycle s' = m_lifecycle s \/ (rank (m_lifecycle s) < rank (m_lifecycle s'))%nat) ->
  (m_failure s <> None -> m_failure s' = m_failure s) ->
  issued (exec s') = issued (exec s) -> forward s s'.
Proof. intros [Hl|Hl] Hf Hi; split; try done; rewrite ?Hl; try done; destruct (m_lifecycle s'); cbn in *; lia. Qed.

Lemma forward_submit flow n s s' :
  sup_ok s -> settle (Submit flow) Returned Threw s = Some (n, s') -> forward s s'.
Proof.
  intros Hs. unfold settle, Submit, submit_task. m_unfold. lifecycle_cases s.
  all: try (intros [= <- <-]; apply forward_refl).
  pose proof (s_lifecycle _ Hs) as Hl. rewrite Hlc in Hl. destruct Hl as [_ Hj].
  destruct (_ <=? _); [intros [= <- <-]; apply forward_refl|].
  destruct (_ =? _); [intros [= <- <-]; apply forward_refl|].
  pose proof (jobs_submit flow (m_jobs s) Hj) as Hsub.
  destruct (JobRuntime.Submit flow (m_jobs s)) as [[h|e| |] j']; cbn in *; try done;
    intros [= <- <-]; (split; cbn; rewrite ?Hlc; [done|done|done|cbn; lia]).
Qed.

Lemma forward_take task_id n s s' :
  settle (Wait_take task_id) (fun task => Next (AWaitTask task)) Threw s = Some (n, s') -> forward s s'.
Proof.
  unfold settle, Wait_take. m_unfold. destruct (_ =? _); [intros [= <- <-]; apply forward_refl|].
  destruct (take_task task_id (m_pending_tasks s)) as [[task rest]|];
    intros [= <- <-]; (apply forward_same; [by left|done|done]).
Qed.

Lemma forward_record src err k n s s' :
  settle (RecordFailure src err) (fun _ => Next (ARequestStop k)) (unwind k) s = Some (n, s') ->
  forward s s'.
Proof.
  unfold settle. destruct err as [e|]; [|intros [= <- <-]; apply forward_refl].
  destruct (decide (m_lifecycle s = LifecycleState.Stopped)) as [Hl|Hl].
  - rewrite RecordFailure_late by done. intros [= <- <-]. apply forward_refl.
  - rewrite RecordFailure_run by done. intros [= <- <-].
    apply forward_same; [|by destruct (m_failure s)|done]. cbn.
    destruct (m_lifecycle s); cbn; auto; right; lia.
Qed.

Lemma forward_stop k n s s' :
  settle RequestStop_locked (fun _ => resume k) (unwind k) s = Some (n, s') -> forward s s'.
Proof.
  unfold settle. rewrite RequestStop_run. fold (after_stop s). intros [= <- <-].
  destruct (after_stop_same s) as (Hf & _ & _ & He & _). apply forward_same; [|done|by rewrite He].
  unfold after_stop. destruct (m_lifecycle s) eqn:Hl; cbn; auto; right; lia.
Qed.

Lemma forward_drain_take n s s' :
  settle Drain_take
    (fun r => match r with Some tasks => Next (AConsume tasks) | None => Returned 0 end) Threw s =
    Some (n, s') -> forward s s'.
Proof.
  unfold settle. rewrite Drain_take_run. destruct (m_lifecycle s) eqn:Hl; intros [= <- <-];
    (apply forward_same; [cbn; rewrite ?Hl; cbn; auto; right; lia|done|]);
    unfold exec; cbn; by rewrite ?stop_jobs_executor.
Qed.

Lemma forward_wait_task task returns catches n s s' :
  wait_task task returns catches s = Some (n, s') -> s' = s.
Proof.
  unfold wait_task. destruct (TaskHandle_Wait _ _) as [[[] h]|]; cbn; [| | | |done]; by intros [= _ <-].
Qed.

Lemma act_forward t a n s s' :
  sup_ok s -> thread_ok s t a -> act t a s = Some (n, s') -> forward s s'.
Proof.
  intros Hs Hok Hact. destruct a; cbn [act] in Hact.
  - unfold settle, Start in Hact. revert Hact. m_unfold. lifecycle_cases s;
      try (intros [= <- <-]; apply forward_refl).
    destruct (m_failure s) eqn:Hf; intros [= <- <-]; [apply forward_refl|].
    apply forward_same; [right; cbn; rewrite Hlc; cbn; lia|done|done].
  - by eapply forward_submit.
  - by eapply forward_submit.
  - by eapply forward_take.
  - apply forward_wait_task in Hact as ->. apply forward_refl.
  - destruct error; injection Hact as <- <-; apply forward_refl.
  - by eapply forward_record.
  - injection Hact as <- <-. by apply forward_same; [left| |].
  - by eapply forward_stop.
  - revert Hact. unfold settle, ReleaseConsumer. m_unfold. destruct (_ =? _); intros [= <- <-];
      by apply forward_same; [left| |].
  - injection Hact as <- <-. apply forward_refl.
  - destruct (drain_owner s); [done|]. injection Hact as <- <-. by apply forward_same; [left| |].
  - injection Hact as <- <-. by apply forward_same; [left| |].
  - by eapply forward_drain_take.
  - destruct tasks; [injection Hact as <- <-; apply forward_refl|].
    apply forward_wait_task in Hact as ->. apply forward_refl.
  - injection Hact as <- <-. by apply forward_same; [left| |].
  - revert Hact. unfold settle, Drain_begin. m_unfold.
    destruct (m_state (m_jobs s)); cbn; intros [= <- <-]; by apply forward_same; [left| |].
  - destruct (wait_for_all _) as [[]|]; cbn in Hact; try done; injection Hact as <- <-; apply forward_refl.
  - injection Hact as <- <-. by apply forward_same; [left| |].
  - destruct (_ =? _); [|injection Hact as <- <-; apply forward_refl].
    injection Hact as <- <-. destruct (t_taken _ _ _ Hok eq_refl) as [[Hl|Hl] _].
    + apply forward_same; [right; cbn; rewrite Hl; destruct (m_failure s); cbn; lia|done|done].
    + pose proof (s_lifecycle _ Hs) as Hsl. rewrite Hl in Hsl. destruct Hsl as [Hf _].
      apply forward_same; [left; cbn; rewrite Hl; by destruct (m_failure s)|done|done].
  - done.
  - injection Hact as <- <-. apply forward_refl.
Qed.

Lemma forward_leave t n s : forward s (leave t n s).
Proof.
  destruct (leave_same t n s) as (Hj & Hl & Hfl & _).
  apply forward_same; [by left|done|]. unfold exec. by rewrite Hj.
Qed.

Lemma step_forward w w' : inv w -> step w w' -> forward (sup w) (sup w').
Proof.
  intros Hw [t a Ht Ha|t n w'' Hp|t Ht|e Ha]; [apply forward_refl| |apply forward_refl|].
  - unfold perform in Hp. destruct (threads w !! t) as [a|] eqn:Ht; [|done]. cbn in Hp.
    destruct (racing t a w).
    { injection Hp as <- <-. apply (forward_leave t Wrong (sup w)). }
    destruct (act t a (sup w)) as [[n' s']|] eqn:Hact; [|done]. injection Hp as -> <-. cbn.
    pose proof (act_forward _ _ _ _ _ (i_sup _ Hw) (i_threads _ Hw _ _ Ht) Hact) as Hf.
    eapply forward_trans; [exact Hf|]. apply forward_leave.
  - apply forward_same; [by left|done|]. unfold exec. cbn. by apply advance_issued.
Qed.

(** C37. The lifecycle goes one way: no step moves it back, a supervisor that has
    stopped or failed stays so, the first failure recorded stays the failure,
    and from the stop request on no run is started. *)
Theorem lifecycle_forward w w' :
  reachable w -> rtc step w w' ->
  (rank (m_lifecycle (sup w)) <= rank (m_lifecycle (sup w')))%nat /\
  (rank (m_lifecycle (sup w)) = 4%nat -> m_lifecycle (sup w') = m_lifecycle (sup w)) /\
  (m_failure (sup w) <> None -> m_failure (sup w') = m_failure (sup w)) /\
  ((2 <= rank (m_lifecycle (sup w)))%nat -> issued (exec (sup w')) = issued (exec (sup w))).
Proof.
  intros Hw%reachable_inv Hsteps.
  assert (Hf : forward (sup w) (sup w')); [|by destruct Hf].
  revert Hw. induction Hsteps as [w|w1 w2 w3 H12 _ IH]; intros Hw; [apply forward_refl|].
  eapply forward_trans; [by apply step_forward|]. apply IH. by eapply inv_step.
Qed.

(** ** Calls end *)

(** How many steps of its thread an action still takes, counting 4 for every
    task that is to be waited for; a release may wake a thread. *)
Definition k_work (k : continuation) : nat :=
  match k with
  | KReturn => 0 | KRelease _ _ => 3 | KConsume tasks => 9 + 4 * length tasks | KIdle => 2 | KClose => 1
  end.

Definition a_work a : nat :=
  match a with
  | AStart => 1
  | ASubmit _ | ASubmitReusable _ => 5
  | AWait _ => 8
  | AWaitTask _ => 7
  | AReport _ _ => 4
  | ARecord _ _ k => 3 + k_work k
  | ARequestStop k => 2 + k_work k
  | AStop k => 1 + k_work k
  | ARelease _ _ => 3
  | ACloseChannel => 1
  | ADrain => 12 | ADrainRequest => 11 | ADrainTake => 10
  | AConsume tasks => 9 + 4 * length tasks
  | AClear => 8
  | AJobsDrain => 7 | AJobsWait => 6 | AJobsEnd => 3
  | AIdle => 2 | AAsleep => 1
  | APendingTaskCount => 1
  end.

Definition n_work (n : next) : nat := match n with Next a => a_work a | _ => 0 end.

Definition threads_work (l : gmap thread_id action) : nat :=
  map_fold (fun _ a n => a_work a + n)%nat 0%nat l.

Definition work w : nat :=
  (threads_work (threads w) + 4 * length (m_pending_tasks (sup w)))%nat.

Lemma threads_work_insert l t a : l !! t = None ->
  threads_work (<[t := a]> l) = (a_work a + threads_work l)%nat.
Proof. intros Ht. unfold threads_work. by rewrite map_fold_insert_L by (intros; lia || done). Qed.

Lemma threads_work_lookup l t a : l !! t = Some a ->
  threads_work l = (a_work a + threads_work (delete t l))%nat.
Proof.
  intros Ht. rewrite <- (threads_work_insert _ t a) by apply lookup_delete_eq.
  by rewrite insert_delete_id.
Qed.

Definition asleep a : bool := match a with AAsleep => true | _ => false end.

(** Waking adds one step for each thread asleep, and only the owner of the drain
    mutex is asleep. *)
Lemma threads_work_wake l :
  (forall t t', l !! t = Some AAsleep -> l !! t' = Some AAsleep -> t = t') ->
  (threads_work (wake <$> l) <= threads_work l + 1)%nat.
Proof.
  intros Huniq.
  destruct (decide (map_Exists (fun _ a => asleep a = true) l)) as [(t & a & Ht & Ha)|Hno].
  - assert (a = AAsleep) as -> by (by destruct a).
    rewrite <- (insert_delete_id l t AAsleep Ht), fmap_insert, !threads_work_insert
      by (rewrite ?lookup_fmap, ?lookup_delete_eq; done).
    replace (wake <$> delete t l) with (delete t l); [cbn; lia|].
    apply map_eq. intros t'. rewrite lookup_fmap.
    destruct (delete t l !! t') as [a'|] eqn:Ha'; [|done]. cbn. f_equal.
    apply lookup_delete_Some in Ha' as [Hne Ha']. destruct a'; try done.
    by destruct (Hne (Huniq _ _ Ht Ha')).
  - replace (wake <$> l) with l; [lia|]. apply map_eq. intros t. rewrite lookup_fmap.
    destruct (l !! t) as [a|] eqn:Ha; [|done]. cbn. f_equal.
    destruct a; try done. destruct Hno. by exists t, AAsleep.
Qed.

Lemma work_submit flow n s s' : settle (Submit flow) Returned Threw s = Some (n, s') ->
  n_work n = 0%nat /\ (length (m_pending_tasks s') <= length (m_pending_tasks s) + 1)%nat.
Proof.
  unfold settle, Submit, submit_task. m_unfold. lifecycle_cases s; try (intros [= <- <-]; cbn; lia).
  destruct (_ <=? _); [intros [= <- <-]; cbn; lia|].
  destruct (_ =? _); [intros [= <- <-]; cbn; lia|].
  destruct (JobRuntime.Submit flow (m_jobs s)) as [[h|e| |] j']; cbn;
    intros [= <- <-]; cbn; rewrite ?length_app; cbn; lia.
Qed.

Lemma work_unwind k e : (n_work (unwind k e) <= k_work k)%nat.
Proof. destruct k; cbn; lia. Qed.

Lemma work_resume k : (n_work (resume k) <= k_work k)%nat.
Proof. destruct k; cbn; lia. Qed.

(** A step of a thread leaves it less to do. *)
Lemma act_work t a n s s' : act t a s = Some (n, s') ->
  (n_work n + 4 * length (m_pending_tasks s') + (if a is ARelease _ _ then 2 else 0) <
   a_work a + 4 * length (m_pending_tasks s))%nat.
Proof.
  intros Hact. destruct a; cbn [act] in Hact.
  - revert Hact. unfold settle, Start. m_unfold. lifecycle_cases s; destruct (m_failure s);
      intros [= <- <-]; cbn; lia.
  - apply work_submit in Hact. cbn. lia.
  - apply work_submit in Hact. cbn. lia.
  - revert Hact. unfold settle, Wait_take. m_unfold. destruct (_ =? _); [intros [= <- <-]; cbn; lia|].
    destruct (take_task task_id (m_pending_tasks s)) as [[task rest]|] eqn:Htake;
      intros [= <- <-]; cbn; [|lia].
    apply take_task_Some in Htake as (l1 & l2 & -> & -> & _). rewrite !length_app. cbn. lia.
  - revert Hact. unfold wait_task.
    destruct (TaskHandle_Wait _ _) as [[[] h]|]; cbn; [| | | |done]; intros [= <- <-]; cbn; lia.
  - destruct error; injection Hact as <- <-; cbn; lia.
  - revert Hact. unfold settle. pose proof (work_unwind k) as Hu. destruct error as [e|].
    + destruct (decide (m_lifecycle s = LifecycleState.Stopped)) as [Hl|Hl];
        [rewrite RecordFailure_late by done|rewrite RecordFailure_run by done]; intros [= <- <-];
        [|cbn; lia]. specialize (Hu (Exn RuntimeSupervisorError
          "runtime failure was reported after shutdown")). cbn in *. lia.
    + intros [= <- <-]. specialize (Hu (Exn RuntimeSupervisorError "runtime failure has no exception")).
      cbn in *. lia.
  - injection Hact as <- <-. cbn. lia.
  - revert Hact. unfold settle. rewrite RequestStop_run. fold (after_stop s). intros [= <- <-].
    destruct (after_stop_same s) as (_ & -> & _). pose proof (work_resume k). cbn. lia.
  - revert Hact. unfold settle, ReleaseConsumer. m_unfold. destruct (_ =? _); intros [= <- <-];
      destruct rethrow; cbn; lia.
  - injection Hact as <- <-. cbn. lia.
  - destruct (drain_owner s); [done|]. injection Hact as <- <-. cbn. lia.
  - injection Hact as <- <-. cbn. lia.
  - revert Hact. unfold settle. rewrite Drain_take_run. destruct (m_lifecycle s); intros [= <- <-]; cbn; lia.
  - destruct tasks as [|task tasks]; [injection Hact as <- <-; cbn; lia|]. revert Hact. unfold wait_task.
    destruct (TaskHandle_Wait _ _) as [[[] h]|]; cbn; [| | | |done]; intros [= <- <-]; cbn; lia.
  - injection Hact as <- <-. cbn. lia.
  - revert Hact. unfold settle, Drain_begin. m_unfold.
    destruct (m_state (m_jobs s)); cbn; intros [= <- <-]; cbn; lia.
  - destruct (wait_for_all _) as [[]|]; cbn in Hact; try done; injection Hact as <- <-; cbn; lia.
  - injection Hact as <- <-. cbn. lia.
  - destruct (_ =? _); injection Hact as <- <-; cbn; lia.
  - done.
  - injection Hact as <- <-. cbn. lia.
Qed.

Lemma a_work_pos a : (0 < a_work a)%nat.
Proof. destruct a; cbn; lia. Qed.

(** A step of a thread of the system. *)
Definition thread_step w w' : Prop := exists t n, perform t w = Some (n, w').

Lemma asleep_unique w t t' : inv w ->
  threads w !! t = Some AAsleep -> threads w !! t' = Some AAsleep -> t = t'.
Proof.
  intros Hw Ht Ht'.
  pose proof (proj1 (t_owner _ _ _ (i_threads _ Hw _ _ Ht)) eq_refl) as Ho.
  pose proof (proj1 (t_owner _ _ _ (i_threads _ Hw _ _ Ht')) eq_refl) as Ho'. congruence.
Qed.

Lemma thread_step_work w w' : inv w -> thread_step w w' -> (work w' < work w)%nat.
Proof.
  intros Hw (t & n & Hp). unfold perform in Hp.
  destruct (threads w !! t) as [a|] eqn:Ht; [|done]. cbn in Hp. destruct (racing t a w).
  { injection Hp as <- <-. unfold work. cbn [sup threads].
    destruct (leave_same t Wrong (sup w)) as (_ & _ & _ & Hpend & _). cbn [leave] in Hpend.
    rewrite Hpend.
    rewrite (threads_work_lookup _ _ _ Ht). pose proof (a_work_pos a). lia. }
  destruct (act t a (sup w)) as [[n' s']|] eqn:Hact; [|done]. injection Hp as -> <-.
  apply act_work in Hact. unfold work. cbn. destruct (leave_same t n s') as (_ & _ & _ & -> & _).
  rewrite (threads_work_lookup _ _ _ Ht).
  assert (Hn : (threads_work (delete t (notify a s' (threads w))) <=
    threads_work (delete t (threads w)) + (if a is ARelease _ _ then 1 else 0))%nat).
  { rewrite notify_delete. unfold notify. destruct a; try lia. destruct (_ =? 0); [|lia].
    apply threads_work_wake. intros t1 t2 [_ H1]%lookup_delete_Some [_ H2]%lookup_delete_Some.
    by apply (asleep_unique w). }
  destruct n as [a'| | |]; cbn [n_work] in Hact; [|destruct a; lia..].
  rewrite <- insert_delete_eq, (threads_work_insert _ t a') by apply lookup_delete_eq.
  destruct a; lia.
Qed.

Lemma nsteps_work m w w' : inv w -> nsteps thread_step m w w' -> (m + work w' <= work w)%nat /\ inv w'.
Proof.
  intros Hw Hn. revert Hw. induction Hn as [w|m w1 w2 w3 H12 _ IH]; intros Hw; [by split|].
  pose proof (thread_step_work _ _ Hw H12). destruct H12 as (t & n & Hp).
  destruct IH as [Hm H3]; [by eapply inv_perform|]. split; [lia|done].
Qed.

(** Every run has its result. *)
Definition settled w : Prop :=
  forall f, f ∈ issued (exec (sup w)) -> result (exec (sup w)) f <> None.

Lemma settle_some {A} (m : M RuntimeSupervisor A) k h s : is_Some (settle m k h s).
Proof. unfold settle. by destruct (m s) as [[] ?]. Qed.

Lemma wait_task_some s task returns catches :
  valid_task s task -> (forall f, f ∈ issued (exec s) -> result (exec s) f <> None) ->
  is_Some (wait_task task returns catches s).
Proof.
  intros (f & Hf & Hi) Hset. specialize (Hset f Hi). unfold wait_task, TaskHandle_Wait. rewrite Hf.
  fold (exec s). by destruct (result (exec s) f) as [[]|].
Qed.

(** Only a thread asleep, or one at the lock of a drain, cannot go on. *)
Lemma act_enabled w t a : inv w -> settled w -> threads w !! t = Some a ->
  a <> AAsleep -> (a = ADrain -> drain_owner (sup w) = None) -> is_Some (act t a (sup w)).
Proof.
  intros Hw Hset Ht Ha Hd. pose proof (i_threads _ Hw _ _ Ht) as [_ _ Hh _ _ _].
  destruct a; cbn [act]; try apply settle_some; try done.
  - apply wait_task_some; [|done]. by apply Forall_cons in Hh as [? _].
  - by destruct error.
  - by rewrite Hd.
  - destruct tasks as [|task tasks]; [done|]. apply wait_task_some; [|done]. by apply Forall_cons in Hh as [? _].
  - pose proof (wait_for_all_returns (exec (sup w)) Hset) as Hr. fold (exec (sup w)).
    destruct (wait_for_all (exec (sup w))) as [[]|]; cbn; try done; by destruct Hr.
  - by destruct (_ =? _).
Qed.

Lemma enabled_step w t a : threads w !! t = Some a -> is_Some (act t a (sup w)) -> exists w', thread_step w w'.
Proof.
  intros Ht [[n s'] Hact]. unfold thread_step, perform. destruct (racing t a w) eqn:Hr.
  - eexists. exists t, Wrong. rewrite Ht. cbn. by rewrite Hr.
  - eexists. exists t, n. rewrite Ht. cbn. by rewrite Hr, Hact.
Qed.

Lemma consumers_pick l : (0 < consumers l)%nat -> exists t a, l !! t = Some a /\ consuming a = true.
Proof.
  unfold consumers. intros Hsz.
  destruct (map_choose (filter (fun p => consuming p.2 = true) l)) as (t & a & Hl).
  { intros He. rewrite He, map_size_empty in Hsz. lia. }
  apply map_lookup_filter_Some in Hl. eauto.
Qed.

Lemma some_enabled w : inv w -> settled w -> threads w <> ∅ -> exists w', thread_step w w'.
Proof.
  intros Hw Hset Hne. destruct (decide (0 < consumers (threads w))%nat) as [Hc|Hc].
  { apply consumers_pick in Hc as (t & a & Ht & Ha). apply (enabled_step w t a Ht).
    apply act_enabled; try done; by intros ->. }
  assert (Hna : forall t a, threads w !! t = Some a -> a <> AAsleep).
  { intros t a Ht ->. apply (i_asleep _ Hw t Ht). rewrite (i_count _ Hw). lia. }
  destruct (drain_owner (sup w)) as [t|] eqn:Ho.
  - destruct (i_owner _ Hw t Ho) as [a Ht]. apply (enabled_step w t a Ht).
    apply act_enabled; try done; [by eapply Hna|]. intros ->.
    by apply (t_owner _ _ _ (i_threads _ Hw _ _ Ht)) in Ho.
  - destruct (map_choose _ Hne) as (t & a & Ht). apply (enabled_step w t a Ht).
    apply act_enabled; try done. by eapply Hna.
Qed.

(** C35. Calls end: whatever the order in which the threads run, they can take
    only so many steps among them (spurious wakeups and new calls apart), and
    once every run has its result some thread can go on as long as a call has
    not ended. So no call is ever deadlocked, and a drain completes. (The race of
    [calls_fail] counts as an end of the calls in it.) *)
Theorem calls_end w :
  reachable w ->
  (forall m w', nsteps thread_step m w w' -> (m <= work w)%nat) /\
  (settled w -> threads w <> ∅ -> exists w', thread_step w w').
Proof.
  intros Hw%reachable_inv. split; [|by apply some_enabled].
  intros m w' Hm. apply nsteps_work in Hm as [Hm _]; [lia|done].
Qed.

End theorems.

(** ** A small executor

    A run is its outcome, and whether it has ended; the last run comes first. *)

Fixpoint small_issued (e : list (option exn * bool)) : list nat :=
  match e with [] => [] | _ :: e => length e :: small_issued e end.

Definition small_run (t : option exn) : M (list (option exn * bool)) nat :=
  fun e => (Ok (length e), (t, false) :: e).

Definition small_result (e : list (option exn * bool)) (f : nat) : option (option exn) :=
  match reverse e !! f with Some (t, true) => Some t | _ => None end.

Definition small_complete (f : nat) (e : list (option exn * bool)) : list (option exn * bool) :=
  reverse (alter (fun r => (r.1, true)) f (reverse e)).

#[export] Instance small_executor : Executor :=
  {| executor := list (option exn * bool); taskflow := option exn; callable := unit;
     new_executor _ := []; run := small_run; for_each_index _ _ _ _ := None;
     issued := small_issued; result := small_result; cancel _ e := (false, e);
     wait_for_all e := if forallb snd e then Some (Ok tt) else None;
     advance e e' := exists f, e' = small_complete f e |}.

Lemma small_issued_lt e f : f ∈ small_issued e <-> (f < length e)%nat.
Proof.
  induction e as [|r e IH]; cbn; [rewrite elem_of_nil; lia|]. rewrite elem_of_cons, IH. lia.
Qed.

Lemma small_issued_length e e' : length e = length e' -> small_issued e = small_issued e'.
Proof.
  revert e'. induction e as [|r e IH]; intros [|r' e'] Hl; try done; cbn in *.
  injection Hl as Hl. by rewrite Hl, (IH e').
Qed.

#[export] Instance small_laws : ExecutorLaws.
Proof.
  split; cbn.
  - intros e t. cbn. split_and!; [rewrite small_issued_lt; lia|done|].
    intros g r. unfold small_result. rewrite reverse_cons.
    destruct (reverse e !! g) as [x|] eqn:Hx; [|done]. by erewrite lookup_app_l_Some.
  - intros e e' f r [g ->]. unfold small_result, small_complete. rewrite reverse_involutive.
    destruct (decide (f = g)) as [->|Hne]; [|by rewrite list_lookup_alter_ne].
    rewrite list_lookup_alter_eq. destruct (reverse e !! g) as [[t b]|]; cbn; [|done]. by destruct b.
  - intros e e' [f ->]. apply small_issued_length. unfold small_complete.
    by rewrite length_reverse, length_alter, length_reverse.
  - intros e r. destruct (forallb snd e); [|done]. by intros [= <-].
  - intros e Hall. destruct (forallb snd e) eqn:He; [done|]. exfalso.
    apply not_true_iff_false in He. apply He, forallb_forall. intros [t b] Hin.
    apply list_elem_of_In, elem_of_reverse, list_elem_of_lookup in Hin as [f Hf].
    specialize (Hall f). rewrite small_issued_lt, <- (length_reverse e) in Hall.
    specialize (Hall (lookup_lt_Some _ _ _ Hf)). unfold small_result in Hall. rewrite Hf in Hall.
    by destruct b.
Qed.

(** ** Examples

    Two tasks, one of which fails in the second example; a consumer waits for the
    first while another thread drains. *)

Inductive move := Call (t : thread_id) (a : action) | Run (t : thread_id) | Complete (f : nat).

Definition make (m : move) (w : System) : option System :=
  match m with
  | Call t a =>
      match threads w !! t with
      | None => if entry a then Some (set_threads (<[t := a]> (threads w)) w) else None
      | Some _ => None
      end
  | Run t => snd <$> perform t w
  | Complete f =>
      Some (set_sup (set_jobs (set_executor (small_complete f (exec (sup w))) (m_jobs (sup w)))
                       (sup w)) w)
  end.

Fixpoint drive (l : list move) (w : System) : option System :=
  match l with
  | [] => Some w
  | m :: l => w ← make m w; drive l w
  end.

Lemma make_step m w w' : make m w = Some w' -> step w w'.
Proof.
  destruct m as [t a|t|f]; cbn.
  - destruct (threads w !! t) eqn:Ht; [done|]. destruct (entry a) eqn:Ha; [|done].
    intros [= <-]. by apply step_call.
  - destruct (perform t w) as [[n w'']|] eqn:Hp; [|done]. intros [= <-]. by eapply step_thread.
  - intros [= <-]. apply (step_advance w). by exists f.
Qed.

Lemma drive_steps l w w' : drive l w = Some w' -> rtc step w w'.
Proof.
  revert w. induction l as [|m l IH]; intros w; cbn; [by intros [= ->]|].
  destruct (make m w) as [w''|] eqn:Hm; [|done]. cbn. intros Hd.
  eapply rtc_l; [by eapply make_step|by apply IH].
Qed.

Definition example_start : System :=
  mkSystem (mkRuntimeSupervisor (mkJobRuntime 4 [] Running) false None LifecycleState.Starting
              None [] 1 0)
    (mkFramePacketChannel [new_FramePacket] 0 0 0 false false false 0 0) ∅.

(** The system after the moves. *)
Definition after (l : list move) : System := default example_start (drive l example_start).

Lemma after_steps l1 l2 w : drive l1 example_start = Some w -> is_Some (drive l2 w) ->
  reachable (after l1) /\ rtc step (after l1) (after (l1 ++ l2)).
Proof.
  intros H1 [w2 H2]. assert (H12 : drive (l1 ++ l2) example_start = Some w2).
  { revert H1. generalize example_start. induction l1 as [|m l1 IH]; intros w0; cbn; [by intros [= ->]|].
    destruct (make m w0) as [w0'|]; [|done]. cbn. apply IH. }
  unfold after. rewrite H1, H12. cbn. split; [|by eapply drive_steps].
  exists example_start. split; [by apply initial_intro|by apply (drive_steps l1)].
Qed.

Definition example_submits (second : option exn) : list move :=
  [Call 1 AStart; Run 1; Call 1 (ASubmit None); Run 1; Call 1 (ASubmit second); Run 1;
   Call 2 (AWait 1); Run 2; Call 1 ADrain; Run 1; Run 1; Run 1; Complete 0; Complete 1].
(** The second thread ends its wait between the steps of the drain. *)
Definition example_drains : list move :=
  [Run 1; Run 1; Run 1; Run 1; Run 1; Run 1; Run 1; Run 2; Run 2; Run 1].

Lemma example_stops :
  reachable (after (example_submits None ++ example_drains)) /\
  m_lifecycle (sup (after (example_submits None ++ example_drains))) = LifecycleState.Stopped.
Proof.
  split; [|by vm_compute].
  destruct (after_steps (example_submits None ++ example_drains) []
              (after (example_submits None ++ example_drains))) as [Hr _];
    [by vm_compute|by eexists|done].
Qed.

Lemma Stopped_clean_witness :
  let w := after (example_submits None ++ example_drains) in
  m_failure (sup w) = None /\ result (exec (sup w)) 1%nat = Some None.
Proof.
  destruct (Stopped_clean (after (example_submits None ++ example_drains)) (proj1 example_stops)
              (proj2 example_stops)) as (Hf & _ & _ & _ & Hr).
  split; [exact Hf|]. apply Hr. vm_compute. left.
Defined.

(** The failure of the second task; the drain records it, and ends as failed. *)
Definition example_error : exn := Exn OtherException "task failed".
Definition example_fails : list move :=
  [Call 1 AStart; Run 1; Call 1 (ASubmit (Some example_error)); Run 1; Complete 0;
   Call 2 (AWait 1); Run 2; Run 2; Run 2; Run 2; Run 2].

Lemma example_fails_steps :
  reachable (after example_fails) /\
  rtc step (after example_fails) (after (example_fails ++ [Call 1 (ASubmit None); Run 1])).
Proof. apply (after_steps _ _ (after example_fails)); [by vm_compute|by vm_compute; eexists]. Qed.

Lemma calls_fail_witness :
  exists e task, perform 2 (after example_fails) = Some (Threw e, (after (example_fails ++ [Run 2]))) /\
    id task = 1 /\ task_failure (sup (after example_fails)) task e.
Proof.
  exists (NestedExn JobExecutionError "job execution failed" (Some example_error)),
    (mkPendingTask 1 (mkTaskHandle (Some 0%nat))).
  assert (Hp : perform 2 (after example_fails) =
    Some (Threw (NestedExn JobExecutionError "job execution failed" (Some example_error)),
          after (example_fails ++ [Run 2]))) by (vm_compute; reflexivity).
  split; [exact Hp|]. split; [reflexivity|].
  destruct (calls_fail (after example_fails) 2 _ _ _ (proj1 example_fails_steps)
              ltac:(vm_compute; reflexivity) Hp) as (_ & _ & _ & Hw).
  apply (Hw (mkPendingTask 1 (mkTaskHandle (Some 0%nat)))). reflexivity.
Defined.

(** A drain that is about to clear the pending tasks while another thread begins a wait:
    whichever goes next, the two accesses race. *)
Definition example_race : list move :=
  [Call 1 AStart; Run 1; Call 1 (ASubmit None); Run 1; Complete 0;
   Call 1 ADrain; Run 1; Run 1; Run 1; Run 1; Run 1; Call 2 (AWait 1)].

Lemma clear_races :
  reachable (after example_race) /\
  fst <$> perform 1 (after example_race) = Some Wrong /\
  fst <$> perform 2 (after example_race) = Some Wrong.
Proof.
  split; [|by vm_compute].
  destruct (after_steps example_race [] (after example_race)) as [Hr _]; [by vm_compute|by eexists|done].
Qed.

Lemma lifecycle_forward_witness :
  m_failure (sup (after (example_fails ++ [Call 1 (ASubmit None); Run 1]))) =
    m_failure (sup (after example_fails)) /\
  issued (exec (sup (after (example_fails ++ [Call 1 (ASubmit None); Run 1])))) =
    issued (exec (sup (after example_fails))).
Proof.
  destruct (lifecycle_forward _ _ (proj1 example_fails_steps) (proj2 example_fails_steps))
    as (_ & _ & Hf & Hi).
  split; [apply Hf; vm_compute; discriminate|apply Hi; vm_compute; lia].
Defined.

Lemma calls_end_witness :
  exists w', thread_step (after (example_submits None)) w'.
Proof.
  assert (Hr : reachable (after (example_submits None))).
  { destruct (after_steps (example_submits None) [] (after (example_submits None))) as [Hr _];
      [by vm_compute|by eexists|done]. }
  apply (calls_end _ Hr).
  - assert (Hi : issued (exec (sup (after (example_submits None)))) = [1%nat; 0%nat])
      by (vm_compute; reflexivity).
    intros f Hf. rewrite Hi in Hf.
    apply elem_of_cons in Hf as [->|Hf%list_elem_of_singleton]; [|subst f]; vm_compute; discriminate.
  - vm_compute. discriminate.
Defined.
