(* ===== verification/VulkanFormats.v ===== *)
(** * Formats and enumerations of the renderer

    The conversions at the end of
    [src/src/trinityal-vulkan/Tr2VulkanContext.cpp] between the engine's
    enumerations and Vulkan's, as tables in the order of the source.

    Both sides are enumerations of headers outside the repository: a type has
    the enumerators the code names, and one constructor for all others where the
    source has a default. *)

From stdpp Require Import base numbers list option.
From S2P Require Import Prelude RenderGraph.

#[local] Open Scope Z_scope.

Module VkFormat.
Inductive type :=
  | VK_FORMAT_UNDEFINED | VK_FORMAT_R32G32B32A32_SFLOAT | VK_FORMAT_R32G32B32A32_UINT
  | VK_FORMAT_R32G32B32A32_SINT | VK_FORMAT_R32G32B32_SFLOAT | VK_FORMAT_R32G32B32_UINT
  | VK_FORMAT_R32G32B32_SINT | VK_FORMAT_R16G16B16A16_SFLOAT | VK_FORMAT_R16G16B16A16_UNORM
  | VK_FORMAT_R16G16B16A16_UINT | VK_FORMAT_R16G16B16A16_SNORM | VK_FORMAT_R16G16B16A16_SINT
  | VK_FORMAT_R32G32_SFLOAT | VK_FORMAT_R32G32_UINT | VK_FORMAT_R32G32_SINT
  | VK_FORMAT_A2B10G10R10_UNORM_PACK32 | VK_FORMAT_A2B10G10R10_UINT_PACK32
  | VK_FORMAT_B10G11R11_UFLOAT_PACK32 | VK_FORMAT_R8G8B8A8_UNORM | VK_FORMAT_R8G8B8A8_SRGB
  | VK_FORMAT_R8G8B8A8_UINT | VK_FORMAT_R8G8B8A8_SNORM | VK_FORMAT_R8G8B8A8_SINT
  | VK_FORMAT_R16G16_SFLOAT | VK_FORMAT_R16G16_UNORM | VK_FORMAT_R16G16_UINT
  | VK_FORMAT_R16G16_SNORM | VK_FORMAT_R16G16_SINT | VK_FORMAT_R32_SFLOAT
  | VK_FORMAT_D32_SFLOAT | VK_FORMAT_R32_UINT | VK_FORMAT_R32_SINT
  | VK_FORMAT_D24_UNORM_S8_UINT | VK_FORMAT_R8G8_UNORM | VK_FORMAT_R8G8_UINT
  | VK_FORMAT_R8G8_SNORM | VK_FORMAT_R8G8_SINT | VK_FORMAT_R16_SFLOAT | VK_FORMAT_D16_UNORM
  | VK_FORMAT_R16_UNORM | VK_FORMAT_R16_UINT | VK_FORMAT_R16_SNORM | VK_FORMAT_R16_SINT
  | VK_FORMAT_R8_UNORM | VK_FORMAT_R8_UINT | VK_FORMAT_R8_SNORM | VK_FORMAT_R8_SINT
  | VK_FORMAT_BC1_RGBA_UNORM_BLOCK | VK_FORMAT_BC1_RGBA_SRGB_BLOCK | VK_FORMAT_BC2_UNORM_BLOCK
  | VK_FORMAT_BC2_SRGB_BLOCK | VK_FORMAT_BC3_UNORM_BLOCK | VK_FORMAT_BC3_SRGB_BLOCK
  | VK_FORMAT_BC4_UNORM_BLOCK | VK_FORMAT_BC4_SNORM_BLOCK | VK_FORMAT_BC5_UNORM_BLOCK
  | VK_FORMAT_BC5_SNORM_BLOCK | VK_FORMAT_B5G6R5_UNORM_PACK16 | VK_FORMAT_B5G5R5A1_UNORM_PACK16
  | VK_FORMAT_B8G8R8A8_UNORM | VK_FORMAT_B8G8R8A8_SRGB | VK_FORMAT_BC6H_UFLOAT_BLOCK
  | VK_FORMAT_BC6H_SFLOAT_BLOCK | VK_FORMAT_BC7_UNORM_BLOCK | VK_FORMAT_BC7_SRGB_BLOCK
  | VK_FORMAT_R8G8B8_UNORM | VK_FORMAT_R8G8B8_UINT | VK_FORMAT_R8G8B8_SNORM
  | VK_FORMAT_R8G8B8_SINT | VK_FORMAT_R16G16B16_UNORM | VK_FORMAT_R16G16B16_UINT
  | VK_FORMAT_R16G16B16_SNORM | VK_FORMAT_R16G16B16_SINT | VK_FORMAT_R16G16B16_SFLOAT
  | VK_FORMAT_D16_UNORM_S8_UINT | VK_FORMAT_D32_SFLOAT_S8_UINT | VK_FORMAT_OTHER (value : Z).
End VkFormat.
Import VkFormat.

#[export] Instance VkFormat_eq_dec : EqDecision VkFormat.type.
Proof. solve_decision. Defined.

(** ** Pixel formats *)

Inductive PixelFormat :=
  | PIXEL_FORMAT_UNKNOWN | PIXEL_FORMAT_R32G32B32A32_TYPELESS | PIXEL_FORMAT_R32G32B32A32_FLOAT
  | PIXEL_FORMAT_R32G32B32A32_UINT | PIXEL_FORMAT_R32G32B32A32_SINT
  | PIXEL_FORMAT_R32G32B32_TYPELESS | PIXEL_FORMAT_R32G32B32_FLOAT
  | PIXEL_FORMAT_R32G32B32_UINT | PIXEL_FORMAT_R32G32B32_SINT
  | PIXEL_FORMAT_R16G16B16A16_TYPELESS | PIXEL_FORMAT_R16G16B16A16_FLOAT
  | PIXEL_FORMAT_R16G16B16A16_UNORM | PIXEL_FORMAT_R16G16B16A16_UINT
  | PIXEL_FORMAT_R16G16B16A16_SNORM | PIXEL_FORMAT_R16G16B16A16_SINT
  | PIXEL_FORMAT_R32G32_TYPELESS | PIXEL_FORMAT_R32G32_FLOAT | PIXEL_FORMAT_R32G32_UINT
  | PIXEL_FORMAT_R32G32_SINT | PIXEL_FORMAT_R10G10B10A2_TYPELESS
  | PIXEL_FORMAT_R10G10B10A2_UNORM | PIXEL_FORMAT_R10G10B10A2_UINT
  | PIXEL_FORMAT_R11G11B10_FLOAT | PIXEL_FORMAT_R8G8B8A8_TYPELESS | PIXEL_FORMAT_R8G8B8A8_UNORM
  | PIXEL_FORMAT_R8G8B8A8_UNORM_SRGB | PIXEL_FORMAT_R8G8B8A8_UINT | PIXEL_FORMAT_R8G8B8A8_SNORM
  | PIXEL_FORMAT_R8G8B8A8_SINT | PIXEL_FORMAT_R16G16_TYPELESS | PIXEL_FORMAT_R16G16_FLOAT
  | PIXEL_FORMAT_R16G16_UNORM | PIXEL_FORMAT_R16G16_UINT | PIXEL_FORMAT_R16G16_SNORM
  | PIXEL_FORMAT_R16G16_SINT | PIXEL_FORMAT_R32_TYPELESS | PIXEL_FORMAT_D32_FLOAT
  | PIXEL_FORMAT_R32_FLOAT | PIXEL_FORMAT_R32_UINT | PIXEL_FORMAT_R32_SINT
  | PIXEL_FORMAT_R24G8_TYPELESS | PIXEL_FORMAT_D24_UNORM_S8_UINT | PIXEL_FORMAT_R8G8_TYPELESS
  | PIXEL_FORMAT_R8G8_UNORM | PIXEL_FORMAT_R8G8_UINT | PIXEL_FORMAT_R8G8_SNORM
  | PIXEL_FORMAT_R8G8_SINT | PIXEL_FORMAT_R16_TYPELESS | PIXEL_FORMAT_R16_FLOAT
  | PIXEL_FORMAT_D16_UNORM | PIXEL_FORMAT_R16_UNORM | PIXEL_FORMAT_R16_UINT
  | PIXEL_FORMAT_R16_SNORM | PIXEL_FORMAT_R16_SINT | PIXEL_FORMAT_R8_TYPELESS
  | PIXEL_FORMAT_R8_UNORM | PIXEL_FORMAT_R8_UINT | PIXEL_FORMAT_R8_SNORM | PIXEL_FORMAT_R8_SINT
  | PIXEL_FORMAT_A8_UNORM | PIXEL_FORMAT_BC1_TYPELESS | PIXEL_FORMAT_BC1_UNORM
  | PIXEL_FORMAT_BC1_UNORM_SRGB | PIXEL_FORMAT_BC2_TYPELESS | PIXEL_FORMAT_BC2_UNORM
  | PIXEL_FORMAT_BC2_UNORM_SRGB | PIXEL_FORMAT_BC3_TYPELESS | PIXEL_FORMAT_BC3_UNORM
  | PIXEL_FORMAT_BC3_UNORM_SRGB | PIXEL_FORMAT_BC4_TYPELESS | PIXEL_FORMAT_BC4_UNORM
  | PIXEL_FORMAT_BC4_SNORM | PIXEL_FORMAT_BC5_TYPELESS | PIXEL_FORMAT_BC5_UNORM
  | PIXEL_FORMAT_BC5_SNORM | PIXEL_FORMAT_B5G6R5_UNORM | PIXEL_FORMAT_B5G5R5A1_UNORM
  | PIXEL_FORMAT_B8G8R8A8_UNORM | PIXEL_FORMAT_B8G8R8X8_UNORM | PIXEL_FORMAT_B8G8R8A8_TYPELESS
  | PIXEL_FORMAT_B8G8R8A8_UNORM_SRGB | PIXEL_FORMAT_B8G8R8X8_TYPELESS
  | PIXEL_FORMAT_B8G8R8X8_UNORM_SRGB | PIXEL_FORMAT_BC6H_TYPELESS | PIXEL_FORMAT_BC6H_UF16
  | PIXEL_FORMAT_BC6H_SF16 | PIXEL_FORMAT_BC7_TYPELESS | PIXEL_FORMAT_BC7_UNORM
  | PIXEL_FORMAT_BC7_UNORM_SRGB | PIXEL_FORMAT_OTHER (value : Z).

#[export] Instance PixelFormat_eq_dec : EqDecision PixelFormat.
Proof. solve_decision. Defined.

Definition ConvertPixelFormat (format : PixelFormat) : VkFormat.type :=
  match format with
  | PIXEL_FORMAT_R32G32B32A32_TYPELESS
  | PIXEL_FORMAT_R32G32B32A32_FLOAT => VK_FORMAT_R32G32B32A32_SFLOAT
  | PIXEL_FORMAT_R32G32B32A32_UINT => VK_FORMAT_R32G32B32A32_UINT
  | PIXEL_FORMAT_R32G32B32A32_SINT => VK_FORMAT_R32G32B32A32_SINT
  | PIXEL_FORMAT_R32G32B32_TYPELESS | PIXEL_FORMAT_R32G32B32_FLOAT => VK_FORMAT_R32G32B32_SFLOAT
  | PIXEL_FORMAT_R32G32B32_UINT => VK_FORMAT_R32G32B32_UINT
  | PIXEL_FORMAT_R32G32B32_SINT => VK_FORMAT_R32G32B32_SINT
  | PIXEL_FORMAT_R16G16B16A16_TYPELESS
  | PIXEL_FORMAT_R16G16B16A16_FLOAT => VK_FORMAT_R16G16B16A16_SFLOAT
  | PIXEL_FORMAT_R16G16B16A16_UNORM => VK_FORMAT_R16G16B16A16_UNORM
  | PIXEL_FORMAT_R16G16B16A16_UINT => VK_FORMAT_R16G16B16A16_UINT
  | PIXEL_FORMAT_R16G16B16A16_SNORM => VK_FORMAT_R16G16B16A16_SNORM
  | PIXEL_FORMAT_R16G16B16A16_SINT => VK_FORMAT_R16G16B16A16_SINT
  | PIXEL_FORMAT_R32G32_TYPELESS | PIXEL_FORMAT_R32G32_FLOAT => VK_FORMAT_R32G32_SFLOAT
  | PIXEL_FORMAT_R32G32_UINT => VK_FORMAT_R32G32_UINT
  | PIXEL_FORMAT_R32G32_SINT => VK_FORMAT_R32G32_SINT
  | PIXEL_FORMAT_R10G10B10A2_TYPELESS
  | PIXEL_FORMAT_R10G10B10A2_UNORM => VK_FORMAT_A2B10G10R10_UNORM_PACK32
  | PIXEL_FORMAT_R10G10B10A2_UINT => VK_FORMAT_A2B10G10R10_UINT_PACK32
  | PIXEL_FORMAT_R11G11B10_FLOAT => VK_FORMAT_B10G11R11_UFLOAT_PACK32
  | PIXEL_FORMAT_R8G8B8A8_TYPELESS | PIXEL_FORMAT_R8G8B8A8_UNORM => VK_FORMAT_R8G8B8A8_UNORM
  | PIXEL_FORMAT_R8G8B8A8_UNORM_SRGB => VK_FORMAT_R8G8B8A8_SRGB
  | PIXEL_FORMAT_R8G8B8A8_UINT => VK_FORMAT_R8G8B8A8_UINT
  | PIXEL_FORMAT_R8G8B8A8_SNORM => VK_FORMAT_R8G8B8A8_SNORM
  | PIXEL_FORMAT_R8G8B8A8_SINT => VK_FORMAT_R8G8B8A8_SINT
  | PIXEL_FORMAT_R16G16_TYPELESS | PIXEL_FORMAT_R16G16_FLOAT => VK_FORMAT_R16G16_SFLOAT
  | PIXEL_FORMAT_R16G16_UNORM => VK_FORMAT_R16G16_UNORM
  | PIXEL_FORMAT_R16G16_UINT => VK_FORMAT_R16G16_UINT
  | PIXEL_FORMAT_R16G16_SNORM => VK_FORMAT_R16G16_SNORM
  | PIXEL_FORMAT_R16G16_SINT => VK_FORMAT_R16G16_SINT
  | PIXEL_FORMAT_R32_TYPELESS => VK_FORMAT_R32_SFLOAT
  | PIXEL_FORMAT_D32_FLOAT => VK_FORMAT_D32_SFLOAT
  | PIXEL_FORMAT_R32_FLOAT => VK_FORMAT_R32_SFLOAT
  | PIXEL_FORMAT_R32_UINT => VK_FORMAT_R32_UINT
  | PIXEL_FORMAT_R32_SINT => VK_FORMAT_R32_SINT
  | PIXEL_FORMAT_R24G8_TYPELESS | PIXEL_FORMAT_D24_UNORM_S8_UINT => VK_FORMAT_D24_UNORM_S8_UINT
  | PIXEL_FORMAT_R8G8_TYPELESS | PIXEL_FORMAT_R8G8_UNORM => VK_FORMAT_R8G8_UNORM
  | PIXEL_FORMAT_R8G8_UINT => VK_FORMAT_R8G8_UINT
  | PIXEL_FORMAT_R8G8_SNORM => VK_FORMAT_R8G8_SNORM
  | PIXEL_FORMAT_R8G8_SINT => VK_FORMAT_R8G8_SINT
  | PIXEL_FORMAT_R16_TYPELESS | PIXEL_FORMAT_R16_FLOAT => VK_FORMAT_R16_SFLOAT
  | PIXEL_FORMAT_D16_UNORM => VK_FORMAT_D16_UNORM
  | PIXEL_FORMAT_R16_UNORM => VK_FORMAT_R16_UNORM
  | PIXEL_FORMAT_R16_UINT => VK_FORMAT_R16_UINT
  | PIXEL_FORMAT_R16_SNORM => VK_FORMAT_R16_SNORM
  | PIXEL_FORMAT_R16_SINT => VK_FORMAT_R16_SINT
  | PIXEL_FORMAT_R8_TYPELESS | PIXEL_FORMAT_R8_UNORM => VK_FORMAT_R8_UNORM
  | PIXEL_FORMAT_R8_UINT => VK_FORMAT_R8_UINT
  | PIXEL_FORMAT_R8_SNORM => VK_FORMAT_R8_SNORM
  | PIXEL_FORMAT_R8_SINT => VK_FORMAT_R8_SINT
  | PIXEL_FORMAT_A8_UNORM => VK_FORMAT_R8_UNORM
  | PIXEL_FORMAT_BC1_TYPELESS | PIXEL_FORMAT_BC1_UNORM => VK_FORMAT_BC1_RGBA_UNORM_BLOCK
  | PIXEL_FORMAT_BC1_UNORM_SRGB => VK_FORMAT_BC1_RGBA_SRGB_BLOCK
  | PIXEL_FORMAT_BC2_TYPELESS | PIXEL_FORMAT_BC2_UNORM => VK_FORMAT_BC2_UNORM_BLOCK
  | PIXEL_FORMAT_BC2_UNORM_SRGB => VK_FORMAT_BC2_SRGB_BLOCK
  | PIXEL_FORMAT_BC3_TYPELESS | PIXEL_FORMAT_BC3_UNORM => VK_FORMAT_BC3_UNORM_BLOCK
  | PIXEL_FORMAT_BC3_UNORM_SRGB => VK_FORMAT_BC3_SRGB_BLOCK
  | PIXEL_FORMAT_BC4_TYPELESS | PIXEL_FORMAT_BC4_UNORM => VK_FORMAT_BC4_UNORM_BLOCK
  | PIXEL_FORMAT_BC4_SNORM => VK_FORMAT_BC4_SNORM_BLOCK
  | PIXEL_FORMAT_BC5_TYPELESS | PIXEL_FORMAT_BC5_UNORM => VK_FORMAT_BC5_UNORM_BLOCK
  | PIXEL_FORMAT_BC5_SNORM => VK_FORMAT_BC5_SNORM_BLOCK
  | PIXEL_FORMAT_B5G6R5_UNORM => VK_FORMAT_B5G6R5_UNORM_PACK16
  | PIXEL_FORMAT_B5G5R5A1_UNORM => VK_FORMAT_B5G5R5A1_UNORM_PACK16
  | PIXEL_FORMAT_B8G8R8A8_UNORM
  | PIXEL_FORMAT_B8G8R8X8_UNORM
  | PIXEL_FORMAT_B8G8R8A8_TYPELESS => VK_FORMAT_B8G8R8A8_UNORM
  | PIXEL_FORMAT_B8G8R8A8_UNORM_SRGB => VK_FORMAT_B8G8R8A8_SRGB
  | PIXEL_FORMAT_B8G8R8X8_TYPELESS => VK_FORMAT_B8G8R8A8_UNORM
  | PIXEL_FORMAT_B8G8R8X8_UNORM_SRGB => VK_FORMAT_B8G8R8A8_SRGB
  | PIXEL_FORMAT_BC6H_TYPELESS | PIXEL_FORMAT_BC6H_UF16 => VK_FORMAT_BC6H_UFLOAT_BLOCK
  | PIXEL_FORMAT_BC6H_SF16 => VK_FORMAT_BC6H_SFLOAT_BLOCK
  | PIXEL_FORMAT_BC7_TYPELESS | PIXEL_FORMAT_BC7_UNORM => VK_FORMAT_BC7_UNORM_BLOCK
  | PIXEL_FORMAT_BC7_UNORM_SRGB => VK_FORMAT_BC7_SRGB_BLOCK
  | _ => VK_FORMAT_UNDEFINED
  end.

Definition ConvertVkFormat (format : VkFormat.type) : PixelFormat :=
  match format with
  | VK_FORMAT_R32G32B32A32_SFLOAT => PIXEL_FORMAT_R32G32B32A32_FLOAT
  | VK_FORMAT_R32G32B32A32_UINT => PIXEL_FORMAT_R32G32B32A32_UINT
  | VK_FORMAT_R32G32B32A32_SINT => PIXEL_FORMAT_R32G32B32A32_SINT
  | VK_FORMAT_R32G32B32_SFLOAT => PIXEL_FORMAT_R32G32B32_FLOAT
  | VK_FORMAT_R32G32B32_UINT => PIXEL_FORMAT_R32G32B32_UINT
  | VK_FORMAT_R32G32B32_SINT => PIXEL_FORMAT_R32G32B32_SINT
  | VK_FORMAT_R16G16B16A16_SFLOAT => PIXEL_FORMAT_R16G16B16A16_FLOAT
  | VK_FORMAT_R16G16B16A16_UNORM => PIXEL_FORMAT_R16G16B16A16_UNORM
  | VK_FORMAT_R16G16B16A16_UINT => PIXEL_FORMAT_R16G16B16A16_UINT
  | VK_FORMAT_R16G16B16A16_SNORM => PIXEL_FORMAT_R16G16B16A16_SNORM
  | VK_FORMAT_R16G16B16A16_SINT => PIXEL_FORMAT_R16G16B16A16_SINT
  | VK_FORMAT_R32G32_SFLOAT => PIXEL_FORMAT_R32G32_FLOAT
  | VK_FORMAT_R32G32_UINT => PIXEL_FORMAT_R32G32_UINT
  | VK_FORMAT_R32G32_SINT => PIXEL_FORMAT_R32G32_SINT
  | VK_FORMAT_A2B10G10R10_UNORM_PACK32 => PIXEL_FORMAT_R10G10B10A2_UNORM
  | VK_FORMAT_A2B10G10R10_UINT_PACK32 => PIXEL_FORMAT_R10G10B10A2_UINT
  | VK_FORMAT_B10G11R11_UFLOAT_PACK32 => PIXEL_FORMAT_R11G11B10_FLOAT
  | VK_FORMAT_R8G8B8A8_UNORM => PIXEL_FORMAT_R8G8B8A8_UNORM
  | VK_FORMAT_R8G8B8A8_SRGB => PIXEL_FORMAT_R8G8B8A8_UNORM_SRGB
  | VK_FORMAT_R8G8B8A8_UINT => PIXEL_FORMAT_R8G8B8A8_UINT
  | VK_FORMAT_R8G8B8A8_SNORM => PIXEL_FORMAT_R8G8B8A8_SNORM
  | VK_FORMAT_R8G8B8A8_SINT => PIXEL_FORMAT_R8G8B8A8_SINT
  | VK_FORMAT_R16G16_SFLOAT => PIXEL_FORMAT_R16G16_FLOAT
  | VK_FORMAT_R16G16_UNORM => PIXEL_FORMAT_R16G16_UNORM
  | VK_FORMAT_R16G16_UINT => PIXEL_FORMAT_R16G16_UINT
  | VK_FORMAT_R16G16_SNORM => PIXEL_FORMAT_R16G16_SNORM
  | VK_FORMAT_R16G16_SINT => PIXEL_FORMAT_R16G16_SINT
  | VK_FORMAT_D32_SFLOAT => PIXEL_FORMAT_D32_FLOAT
  | VK_FORMAT_R32_SFLOAT => PIXEL_FORMAT_R32_FLOAT
  | VK_FORMAT_R32_UINT => PIXEL_FORMAT_R32_UINT
  | VK_FORMAT_R32_SINT => PIXEL_FORMAT_R32_SINT
  | VK_FORMAT_D24_UNORM_S8_UINT => PIXEL_FORMAT_D24_UNORM_S8_UINT
  | VK_FORMAT_R8G8_UNORM => PIXEL_FORMAT_R8G8_UNORM
  | VK_FORMAT_R8G8_UINT => PIXEL_FORMAT_R8G8_UINT
  | VK_FORMAT_R8G8_SNORM => PIXEL_FORMAT_R8G8_SNORM
  | VK_FORMAT_R8G8_SINT => PIXEL_FORMAT_R8G8_SINT
  | VK_FORMAT_R16_SFLOAT => PIXEL_FORMAT_R16_FLOAT
  | VK_FORMAT_D16_UNORM => PIXEL_FORMAT_D16_UNORM
  | VK_FORMAT_R16_UNORM => PIXEL_FORMAT_R16_UNORM
  | VK_FORMAT_R16_UINT => PIXEL_FORMAT_R16_UINT
  | VK_FORMAT_R16_SNORM => PIXEL_FORMAT_R16_SNORM
  | VK_FORMAT_R16_SINT => PIXEL_FORMAT_R16_SINT
  | VK_FORMAT_R8_UNORM => PIXEL_FORMAT_R8_UNORM
  | VK_FORMAT_R8_UINT => PIXEL_FORMAT_R8_UINT
  | VK_FORMAT_R8_SNORM => PIXEL_FORMAT_R8_SNORM
  | VK_FORMAT_R8_SINT => PIXEL_FORMAT_R8_SINT
  | VK_FORMAT_BC1_RGBA_UNORM_BLOCK => PIXEL_FORMAT_BC1_UNORM
  | VK_FORMAT_BC1_RGBA_SRGB_BLOCK => PIXEL_FORMAT_BC1_UNORM_SRGB
  | VK_FORMAT_BC2_UNORM_BLOCK => PIXEL_FORMAT_BC2_UNORM
  | VK_FORMAT_BC2_SRGB_BLOCK => PIXEL_FORMAT_BC2_UNORM_SRGB
  | VK_FORMAT_BC3_UNORM_BLOCK => PIXEL_FORMAT_BC3_UNORM
  | VK_FORMAT_BC3_SRGB_BLOCK => PIXEL_FORMAT_BC3_UNORM_SRGB
  | VK_FORMAT_BC4_UNORM_BLOCK => PIXEL_FORMAT_BC4_UNORM
  | VK_FORMAT_BC4_SNORM_BLOCK => PIXEL_FORMAT_BC4_SNORM
  | VK_FORMAT_BC5_UNORM_BLOCK => PIXEL_FORMAT_BC5_UNORM
  | VK_FORMAT_BC5_SNORM_BLOCK => PIXEL_FORMAT_BC5_SNORM
  | VK_FORMAT_B5G6R5_UNORM_PACK16 => PIXEL_FORMAT_B5G6R5_UNORM
  | VK_FORMAT_B5G5R5A1_UNORM_PACK16 => PIXEL_FORMAT_B5G5R5A1_UNORM
  | VK_FORMAT_B8G8R8A8_UNORM => PIXEL_FORMAT_B8G8R8A8_UNORM
  | VK_FORMAT_B8G8R8A8_SRGB => PIXEL_FORMAT_B8G8R8A8_UNORM_SRGB
  | VK_FORMAT_BC6H_UFLOAT_BLOCK => PIXEL_FORMAT_BC6H_UF16
  | VK_FORMAT_BC6H_SFLOAT_BLOCK => PIXEL_FORMAT_BC6H_SF16
  | VK_FORMAT_BC7_UNORM_BLOCK => PIXEL_FORMAT_BC7_UNORM
  | VK_FORMAT_BC7_SRGB_BLOCK => PIXEL_FORMAT_BC7_UNORM_SRGB
  | _ => PIXEL_FORMAT_UNKNOWN
  end.

Inductive DepthStencilFormat :=
  | DSFMT_D24S8 | DSFMT_D24X8 | DSFMT_D24FS8 | DSFMT_D32F | DSFMT_D32 | DSFMT_D16
  | DSFMT_D16_LOCKABLE | DSFMT_OTHER (value : Z).

Definition ConvertDepthStencilFormat (format : DepthStencilFormat) : VkFormat.type :=
  match format with
  | DSFMT_D24S8 | DSFMT_D24X8 | DSFMT_D24FS8 => VK_FORMAT_D24_UNORM_S8_UINT
  | DSFMT_D32F | DSFMT_D32 => VK_FORMAT_D32_SFLOAT
  | DSFMT_D16 | DSFMT_D16_LOCKABLE => VK_FORMAT_D16_UNORM
  | _ => VK_FORMAT_UNDEFINED
  end.

(** ** Pipeline state *)

Inductive Topology :=
  | TOP_TRIANGLES | TOP_TRIANGLE_STRIP | TOP_LINES | TOP_LINE_STRIP | TOP_POINTS
  | TOP_OTHER (value : Z).

Inductive VkPrimitiveTopology :=
  | VK_PRIMITIVE_TOPOLOGY_TRIANGLE_LIST | VK_PRIMITIVE_TOPOLOGY_TRIANGLE_STRIP
  | VK_PRIMITIVE_TOPOLOGY_LINE_LIST | VK_PRIMITIVE_TOPOLOGY_LINE_STRIP
  | VK_PRIMITIVE_TOPOLOGY_POINT_LIST.

Definition ConvertTopology (topology : Topology) : VkPrimitiveTopology :=
  match topology with
  | TOP_TRIANGLES => VK_PRIMITIVE_TOPOLOGY_TRIANGLE_LIST
  | TOP_TRIANGLE_STRIP => VK_PRIMITIVE_TOPOLOGY_TRIANGLE_STRIP
  | TOP_LINES => VK_PRIMITIVE_TOPOLOGY_LINE_LIST
  | TOP_LINE_STRIP => VK_PRIMITIVE_TOPOLOGY_LINE_STRIP
  | TOP_POINTS => VK_PRIMITIVE_TOPOLOGY_POINT_LIST
  | _ => VK_PRIMITIVE_TOPOLOGY_TRIANGLE_LIST
  end.

Inductive CompareFunc :=
  | CMP_NEVER | CMP_LESS | CMP_EQUAL | CMP_LESSEQUAL | CMP_GREATER | CMP_NOTEQUAL
  | CMP_GREATEREQUAL | CMP_ALWAYS | CMP_OTHER (value : Z).

Inductive VkCompareOp :=
  | VK_COMPARE_OP_NEVER | VK_COMPARE_OP_LESS | VK_COMPARE_OP_EQUAL
  | VK_COMPARE_OP_LESS_OR_EQUAL | VK_COMPARE_OP_GREATER | VK_COMPARE_OP_NOT_EQUAL
  | VK_COMPARE_OP_GREATER_OR_EQUAL | VK_COMPARE_OP_ALWAYS.

Definition ConvertCompareFunc (func : CompareFunc) : VkCompareOp :=
  match func with
  | CMP_NEVER => VK_COMPARE_OP_NEVER
  | CMP_LESS => VK_COMPARE_OP_LESS
  | CMP_EQUAL => VK_COMPARE_OP_EQUAL
  | CMP_LESSEQUAL => VK_COMPARE_OP_LESS_OR_EQUAL
  | CMP_GREATER => VK_COMPARE_OP_GREATER
  | CMP_NOTEQUAL => VK_COMPARE_OP_NOT_EQUAL
  | CMP_GREATEREQUAL => VK_COMPARE_OP_GREATER_OR_EQUAL
  | CMP_ALWAYS => VK_COMPARE_OP_ALWAYS
  | _ => VK_COMPARE_OP_ALWAYS
  end.

Inductive BlendMode :=
  | BM_ZERO | BM_ONE | BM_SRCCOLOR | BM_INVSRCCOLOR | BM_SRCALPHA | BM_INVSRCALPHA
  | BM_DESTALPHA | BM_INVDESTALPHA | BM_DESTCOLOR | BM_INVDESTCOLOR | BM_SRCALPHASAT
  | BM_BLENDFACTOR | BM_INVBLENDFACTOR | BM_OTHER (value : Z).

Inductive VkBlendFactor :=
  | VK_BLEND_FACTOR_ZERO | VK_BLEND_FACTOR_ONE | VK_BLEND_FACTOR_SRC_COLOR
  | VK_BLEND_FACTOR_ONE_MINUS_SRC_COLOR | VK_BLEND_FACTOR_SRC_ALPHA
  | VK_BLEND_FACTOR_ONE_MINUS_SRC_ALPHA | VK_BLEND_FACTOR_DST_ALPHA
  | VK_BLEND_FACTOR_ONE_MINUS_DST_ALPHA | VK_BLEND_FACTOR_DST_COLOR
  | VK_BLEND_FACTOR_ONE_MINUS_DST_COLOR | VK_BLEND_FACTOR_SRC_ALPHA_SATURATE
  | VK_BLEND_FACTOR_CONSTANT_COLOR | VK_BLEND_FACTOR_ONE_MINUS_CONSTANT_COLOR.

Definition ConvertBlendMode (mode : BlendMode) : VkBlendFactor :=
  match mode with
  | BM_ZERO => VK_BLEND_FACTOR_ZERO
  | BM_ONE => VK_BLEND_FACTOR_ONE
  | BM_SRCCOLOR => VK_BLEND_FACTOR_SRC_COLOR
  | BM_INVSRCCOLOR => VK_BLEND_FACTOR_ONE_MINUS_SRC_COLOR
  | BM_SRCALPHA => VK_BLEND_FACTOR_SRC_ALPHA
  | BM_INVSRCALPHA => VK_BLEND_FACTOR_ONE_MINUS_SRC_ALPHA
  | BM_DESTALPHA => VK_BLEND_FACTOR_DST_ALPHA
  | BM_INVDESTALPHA => VK_BLEND_FACTOR_ONE_MINUS_DST_ALPHA
  | BM_DESTCOLOR => VK_BLEND_FACTOR_DST_COLOR
  | BM_INVDESTCOLOR => VK_BLEND_FACTOR_ONE_MINUS_DST_COLOR
  | BM_SRCALPHASAT => VK_BLEND_FACTOR_SRC_ALPHA_SATURATE
  | BM_BLENDFACTOR => VK_BLEND_FACTOR_CONSTANT_COLOR
  | BM_INVBLENDFACTOR => VK_BLEND_FACTOR_ONE_MINUS_CONSTANT_COLOR
  | _ => VK_BLEND_FACTOR_ONE
  end.

Inductive BlendOperation :=
  | BO_ADD | BO_SUBTRACT | BO_REVSUBTRACT | BO_MIN | BO_MAX | BO_OTHER (value : Z).

Inductive VkBlendOp :=
  | VK_BLEND_OP_ADD | VK_BLEND_OP_SUBTRACT | VK_BLEND_OP_REVERSE_SUBTRACT | VK_BLEND_OP_MIN
  | VK_BLEND_OP_MAX.

Definition ConvertBlendOperation (op : BlendOperation) : VkBlendOp :=
  match op with
  | BO_ADD => VK_BLEND_OP_ADD
  | BO_SUBTRACT => VK_BLEND_OP_SUBTRACT
  | BO_REVSUBTRACT => VK_BLEND_OP_REVERSE_SUBTRACT
  | BO_MIN => VK_BLEND_OP_MIN
  | BO_MAX => VK_BLEND_OP_MAX
  | _ => VK_BLEND_OP_ADD
  end.

Inductive StencilOperation :=
  | STENCILOP_KEEP | STENCILOP_ZERO | STENCILOP_REPLACE | STENCILOP_INCRSAT | STENCILOP_DECRSAT
  | STENCILOP_INVERT | STENCILOP_INCR | STENCILOP_DECR | STENCILOP_OTHER (value : Z).

Inductive VkStencilOp :=
  | VK_STENCIL_OP_KEEP | VK_STENCIL_OP_ZERO | VK_STENCIL_OP_REPLACE
  | VK_STENCIL_OP_INCREMENT_AND_CLAMP | VK_STENCIL_OP_DECREMENT_AND_CLAMP
  | VK_STENCIL_OP_INVERT | VK_STENCIL_OP_INCREMENT_AND_WRAP | VK_STENCIL_OP_DECREMENT_AND_WRAP.

Definition ConvertStencilOperation (op : StencilOperation) : VkStencilOp :=
  match op with
  | STENCILOP_KEEP => VK_STENCIL_OP_KEEP
  | STENCILOP_ZERO => VK_STENCIL_OP_ZERO
  | STENCILOP_REPLACE => VK_STENCIL_OP_REPLACE
  | STENCILOP_INCRSAT => VK_STENCIL_OP_INCREMENT_AND_CLAMP
  | STENCILOP_DECRSAT => VK_STENCIL_OP_DECREMENT_AND_CLAMP
  | STENCILOP_INVERT => VK_STENCIL_OP_INVERT
  | STENCILOP_INCR => VK_STENCIL_OP_INCREMENT_AND_WRAP
  | STENCILOP_DECR => VK_STENCIL_OP_DECREMENT_AND_WRAP
  | _ => VK_STENCIL_OP_KEEP
  end.

Inductive TextureAddressMode :=
  | TA_WRAP | TA_MIRROR | TA_CLAMP | TA_BORDER | TA_MIRROR_ONCE | TA_OTHER (value : Z).

Inductive VkSamplerAddressMode :=
  | VK_SAMPLER_ADDRESS_MODE_REPEAT | VK_SAMPLER_ADDRESS_MODE_MIRRORED_REPEAT
  | VK_SAMPLER_ADDRESS_MODE_CLAMP_TO_EDGE | VK_SAMPLER_ADDRESS_MODE_CLAMP_TO_BORDER
  | VK_SAMPLER_ADDRESS_MODE_MIRROR_CLAMP_TO_EDGE.

Definition ConvertAddressMode (mode : TextureAddressMode) : VkSamplerAddressMode :=
  match mode with
  | TA_WRAP => VK_SAMPLER_ADDRESS_MODE_REPEAT
  | TA_MIRROR => VK_SAMPLER_ADDRESS_MODE_MIRRORED_REPEAT
  | TA_CLAMP => VK_SAMPLER_ADDRESS_MODE_CLAMP_TO_EDGE
  | TA_BORDER => VK_SAMPLER_ADDRESS_MODE_CLAMP_TO_BORDER
  | TA_MIRROR_ONCE => VK_SAMPLER_ADDRESS_MODE_MIRROR_CLAMP_TO_EDGE
  | _ => VK_SAMPLER_ADDRESS_MODE_REPEAT
  end.

Inductive ShaderType :=
  | VERTEX_SHADER | PIXEL_SHADER | COMPUTE_SHADER | GEOMETRY_SHADER | HULL_SHADER
  | DOMAIN_SHADER | INVALID_SHADER | SHADER_OTHER (value : Z).

Inductive VkShaderStageFlagBits :=
  | VK_SHADER_STAGE_VERTEX_BIT | VK_SHADER_STAGE_FRAGMENT_BIT | VK_SHADER_STAGE_COMPUTE_BIT
  | VK_SHADER_STAGE_GEOMETRY_BIT | VK_SHADER_STAGE_TESSELLATION_CONTROL_BIT
  | VK_SHADER_STAGE_TESSELLATION_EVALUATION_BIT | VK_SHADER_STAGE_ALL
  | VK_SHADER_STAGE_OTHER (value : Z).

Definition ConvertShaderType (type : ShaderType) : VkShaderStageFlagBits :=
  match type with
  | VERTEX_SHADER => VK_SHADER_STAGE_VERTEX_BIT
  | PIXEL_SHADER => VK_SHADER_STAGE_FRAGMENT_BIT
  | COMPUTE_SHADER => VK_SHADER_STAGE_COMPUTE_BIT
  | GEOMETRY_SHADER => VK_SHADER_STAGE_GEOMETRY_BIT
  | HULL_SHADER => VK_SHADER_STAGE_TESSELLATION_CONTROL_BIT
  | DOMAIN_SHADER => VK_SHADER_STAGE_TESSELLATION_EVALUATION_BIT
  | _ => VK_SHADER_STAGE_ALL
  end.

Definition ConvertVkShaderStage (stage : VkShaderStageFlagBits) : ShaderType :=
  match stage with
  | VK_SHADER_STAGE_VERTEX_BIT => VERTEX_SHADER
  | VK_SHADER_STAGE_FRAGMENT_BIT => PIXEL_SHADER
  | VK_SHADER_STAGE_COMPUTE_BIT => COMPUTE_SHADER
  | VK_SHADER_STAGE_GEOMETRY_BIT => GEOMETRY_SHADER
  | VK_SHADER_STAGE_TESSELLATION_CONTROL_BIT => HULL_SHADER
  | VK_SHADER_STAGE_TESSELLATION_EVALUATION_BIT => DOMAIN_SHADER
  | _ => INVALID_SHADER
  end.

(** ** Depth formats *)

Definition IsDepthFormat (format : VkFormat.type) : bool :=
  match format with
  | VK_FORMAT_D16_UNORM
  | VK_FORMAT_D16_UNORM_S8_UINT
  | VK_FORMAT_D24_UNORM_S8_UINT
  | VK_FORMAT_D32_SFLOAT
  | VK_FORMAT_D32_SFLOAT_S8_UINT => true
  | _ => false
  end.

Inductive image_aspect := VK_IMAGE_ASPECT_DEPTH_BIT | VK_IMAGE_ASPECT_COLOR_BIT.

Definition GetImageAspectFlags (format : VkFormat.type) : list image_aspect :=
  if IsDepthFormat format then [VK_IMAGE_ASPECT_DEPTH_BIT] else [VK_IMAGE_ASPECT_COLOR_BIT].

(** ** Usage flags

    A usage is a word of the engine's flags, which the code tests with the
    engine's [HasFlag]; the words of Vulkan are the bits or-ed into them. *)

Inductive Tr2GpuUsage :=
| RENDER_TARGET | DEPTH_STENCIL | SHADER_RESOURCE | UNORDERED_ACCESS | COPY_DESTINATION
| VERTEX_BUFFER | INDEX_BUFFER | DRAW_INDIRECT_ARGS.

Inductive Tr2CpuUsage := READ | WRITE.

Inductive image_usage :=
| VK_IMAGE_USAGE_COLOR_ATTACHMENT_BIT | VK_IMAGE_USAGE_DEPTH_STENCIL_ATTACHMENT_BIT
| VK_IMAGE_USAGE_SAMPLED_BIT | VK_IMAGE_USAGE_STORAGE_BIT | VK_IMAGE_USAGE_TRANSFER_DST_BIT
| VK_IMAGE_USAGE_TRANSFER_SRC_BIT.

#[export] Instance image_usage_eq_dec : EqDecision image_usage.
Proof. solve_decision. Defined.

Inductive buffer_usage :=
| VK_BUFFER_USAGE_TRANSFER_DST_BIT | VK_BUFFER_USAGE_VERTEX_BUFFER_BIT
| VK_BUFFER_USAGE_INDEX_BUFFER_BIT | VK_BUFFER_USAGE_UNIFORM_BUFFER_BIT
| VK_BUFFER_USAGE_STORAGE_BUFFER_BIT | VK_BUFFER_USAGE_INDIRECT_BUFFER_BIT
| VK_BUFFER_USAGE_TRANSFER_SRC_BIT.

#[export] Instance buffer_usage_eq_dec : EqDecision buffer_usage.
Proof. solve_decision. Defined.

Inductive memory_property :=
| VK_MEMORY_PROPERTY_HOST_VISIBLE_BIT | VK_MEMORY_PROPERTY_HOST_CACHED_BIT
| VK_MEMORY_PROPERTY_HOST_COHERENT_BIT | VK_MEMORY_PROPERTY_DEVICE_LOCAL_BIT.

#[export] Instance memory_property_eq_dec : EqDecision memory_property.
Proof. solve_decision. Defined.

(** [if( c ) flags |= bits]. *)
Definition or_if {A} (c : bool) (bits flags : list A) : list A :=
  if c then flags ++ bits else flags.

(** [VK_IMAGE_LAYOUT_GENERAL] is 1. *)
Definition VK_IMAGE_LAYOUT_GENERAL : VkImageLayout := VK_IMAGE_LAYOUT_OTHER 1.

Section usage.
Context (HasFlag : Tr2GpuUsage -> bool) (HasCpuFlag : Tr2CpuUsage -> bool).

Definition ConvertGpuUsageToLayout : VkImageLayout :=
  if HasFlag RENDER_TARGET then VK_IMAGE_LAYOUT_COLOR_ATTACHMENT_OPTIMAL
  else if HasFlag DEPTH_STENCIL then VK_IMAGE_LAYOUT_DEPTH_STENCIL_ATTACHMENT_OPTIMAL
  else if HasFlag UNORDERED_ACCESS then VK_IMAGE_LAYOUT_GENERAL
  else if HasFlag COPY_DESTINATION then VK_IMAGE_LAYOUT_TRANSFER_DST_OPTIMAL
  else VK_IMAGE_LAYOUT_SHADER_READ_ONLY_OPTIMAL.

Definition ConvertGpuUsageToImageUsage : list image_usage :=
  let flags := [] in
  let flags := or_if (HasFlag RENDER_TARGET) [VK_IMAGE_USAGE_COLOR_ATTACHMENT_BIT] flags in
  let flags := or_if (HasFlag DEPTH_STENCIL) [VK_IMAGE_USAGE_DEPTH_STENCIL_ATTACHMENT_BIT] flags in
  let flags := or_if (HasFlag SHADER_RESOURCE) [VK_IMAGE_USAGE_SAMPLED_BIT] flags in
  let flags := or_if (HasFlag UNORDERED_ACCESS) [VK_IMAGE_USAGE_STORAGE_BIT] flags in
  let flags := or_if (HasFlag COPY_DESTINATION) [VK_IMAGE_USAGE_TRANSFER_DST_BIT] flags in
  match flags with
  | [] => [VK_IMAGE_USAGE_TRANSFER_DST_BIT; VK_IMAGE_USAGE_SAMPLED_BIT]
  | _ => flags
  end.

(** The last test compares the word with its initial bit: every other bit of the
    list is absent. *)
Definition ConvertGpuUsageToBufferUsage : list buffer_usage :=
  let flags := [VK_BUFFER_USAGE_TRANSFER_DST_BIT] in
  let flags := or_if (HasFlag VERTEX_BUFFER) [VK_BUFFER_USAGE_VERTEX_BUFFER_BIT] flags in
  let flags := or_if (HasFlag INDEX_BUFFER) [VK_BUFFER_USAGE_INDEX_BUFFER_BIT] flags in
  let flags := or_if (HasFlag SHADER_RESOURCE)
    [VK_BUFFER_USAGE_UNIFORM_BUFFER_BIT; VK_BUFFER_USAGE_STORAGE_BUFFER_BIT] flags in
  let flags := or_if (HasFlag UNORDERED_ACCESS) [VK_BUFFER_USAGE_STORAGE_BUFFER_BIT] flags in
  let flags := or_if (HasFlag COPY_DESTINATION) [VK_BUFFER_USAGE_TRANSFER_DST_BIT] flags in
  let flags := or_if (HasFlag DRAW_INDIRECT_ARGS) [VK_BUFFER_USAGE_INDIRECT_BUFFER_BIT] flags in
  if forallb (fun b => match b with VK_BUFFER_USAGE_TRANSFER_DST_BIT => true | _ => false end) flags
  then [VK_BUFFER_USAGE_TRANSFER_DST_BIT; VK_BUFFER_USAGE_STORAGE_BUFFER_BIT]
  else flags.

Definition ConvertCpuUsageToMemoryFlags : list memory_property :=
  if HasCpuFlag READ then [VK_MEMORY_PROPERTY_HOST_VISIBLE_BIT; VK_MEMORY_PROPERTY_HOST_CACHED_BIT]
  else if HasCpuFlag WRITE
  then [VK_MEMORY_PROPERTY_HOST_VISIBLE_BIT; VK_MEMORY_PROPERTY_HOST_COHERENT_BIT]
  else [VK_MEMORY_PROPERTY_DEVICE_LOCAL_BIT].

End usage.

(** ** Vertex data

    The values of the engine's data types and filters are parameters, and so is
    [GetDataTypeSizeInMembers]. *)

Class Tr2VertexDefinition :=
  { DT_NORMALIZED_BIT : Z; DT_UNSIGNED_BIT : Z; DT_TYPE_MASK : Z;
    DT_INT8 : Z; DT_INT16 : Z; DT_INT32 : Z; DT_FLOAT16 : Z; DT_FLOAT32 : Z;
    GetDataTypeSizeInMembers : Z -> Z }.

(** [if( size == 1 ) ...]: one, two, three, or any other number of members. *)
Definition by_size {A} (size : Z) (one two three other : A) : A :=
  if size =? 1 then one else if size =? 2 then two else if size =? 3 then three else other.

Definition ConvertVertexDataType `{Tr2VertexDefinition} (dataType : Z) : VkFormat.type :=
  let size := GetDataTypeSizeInMembers dataType in
  let normalized := negb (Z.land dataType DT_NORMALIZED_BIT =? 0) in
  let isUnsigned := negb (Z.land dataType DT_UNSIGNED_BIT =? 0) in
  let choose (unorm uint snorm sint : VkFormat.type) :=
    if isUnsigned then (if normalized then unorm else uint)
    else (if normalized then snorm else sint) in
  let type := Z.land dataType DT_TYPE_MASK in
  if type =? DT_INT8 then
    by_size size
      (choose VK_FORMAT_R8_UNORM VK_FORMAT_R8_UINT VK_FORMAT_R8_SNORM VK_FORMAT_R8_SINT)
      (choose VK_FORMAT_R8G8_UNORM VK_FORMAT_R8G8_UINT VK_FORMAT_R8G8_SNORM VK_FORMAT_R8G8_SINT)
      (choose VK_FORMAT_R8G8B8_UNORM VK_FORMAT_R8G8B8_UINT VK_FORMAT_R8G8B8_SNORM
         VK_FORMAT_R8G8B8_SINT)
      (choose VK_FORMAT_R8G8B8A8_UNORM VK_FORMAT_R8G8B8A8_UINT VK_FORMAT_R8G8B8A8_SNORM
         VK_FORMAT_R8G8B8A8_SINT)
  else if type =? DT_INT16 then
    by_size size
      (choose VK_FORMAT_R16_UNORM VK_FORMAT_R16_UINT VK_FORMAT_R16_SNORM VK_FORMAT_R16_SINT)
      (choose VK_FORMAT_R16G16_UNORM VK_FORMAT_R16G16_UINT VK_FORMAT_R16G16_SNORM
         VK_FORMAT_R16G16_SINT)
      (choose VK_FORMAT_R16G16B16_UNORM VK_FORMAT_R16G16B16_UINT VK_FORMAT_R16G16B16_SNORM
         VK_FORMAT_R16G16B16_SINT)
      (choose VK_FORMAT_R16G16B16A16_UNORM VK_FORMAT_R16G16B16A16_UINT VK_FORMAT_R16G16B16A16_SNORM
         VK_FORMAT_R16G16B16A16_SINT)
  else if type =? DT_INT32 then
    by_size size
      (if isUnsigned then VK_FORMAT_R32_UINT else VK_FORMAT_R32_SINT)
      (if isUnsigned then VK_FORMAT_R32G32_UINT else VK_FORMAT_R32G32_SINT)
      (if isUnsigned then VK_FORMAT_R32G32B32_UINT else VK_FORMAT_R32G32B32_SINT)
      (if isUnsigned then VK_FORMAT_R32G32B32A32_UINT else VK_FORMAT_R32G32B32A32_SINT)
  else if type =? DT_FLOAT16 then
    by_size size VK_FORMAT_R16_SFLOAT VK_FORMAT_R16G16_SFLOAT VK_FORMAT_R16G16B16_SFLOAT
      VK_FORMAT_R16G16B16A16_SFLOAT
  else if type =? DT_FLOAT32 then
    by_size size VK_FORMAT_R32_SFLOAT VK_FORMAT_R32G32_SFLOAT VK_FORMAT_R32G32B32_SFLOAT
      VK_FORMAT_R32G32B32A32_SFLOAT
  else VK_FORMAT_UNDEFINED.

Class Tr2TextureFilters := { TF_COMPARISON : Z; TF_POINT : Z; TF_LINEAR : Z; TF_ANISOTROPIC : Z }.

Inductive VkFilter := VK_FILTER_NEAREST | VK_FILTER_LINEAR.

Definition ConvertTextureFilter `{Tr2TextureFilters} (filter : Z) : VkFilter :=
  let filter := Z.land filter (Z.lnot TF_COMPARISON) in
  if filter =? TF_POINT then VK_FILTER_NEAREST
  else if filter =? TF_LINEAR then VK_FILTER_LINEAR
  else if filter =? TF_ANISOTROPIC then VK_FILTER_LINEAR
  else VK_FILTER_LINEAR.

(** ** The tables fit together *)

(** The formats of the tables, and what the other table makes of them. *)
Definition known (v : VkFormat.type) : Prop := ConvertVkFormat v <> PIXEL_FORMAT_UNKNOWN.
Definition supported (p : PixelFormat) : Prop := ConvertPixelFormat p <> VK_FORMAT_UNDEFINED.

#[export] Instance known_dec v : Decision (known v).
Proof. unfold known. apply _. Defined.
#[export] Instance supported_dec p : Decision (supported p).
Proof. unfold supported. apply _. Defined.

(** The two tables of pixel formats are inverse where they can be: a Vulkan
    format with a pixel format is what that pixel format converts to; every
    supported pixel format converts to a known Vulkan format, and the pixel
    format it comes back as (the typed one, for a typeless one) is stored in that
    same Vulkan format; the depth
    formats of the engine are depth formats of Vulkan. *)
Theorem format_roundtrip :
  (forall v, known v -> ConvertPixelFormat (ConvertVkFormat v) = v) /\
  (forall p, supported p -> known (ConvertPixelFormat p) /\
     ConvertPixelFormat (ConvertVkFormat (ConvertPixelFormat p)) = ConvertPixelFormat p) /\
  (forall d, ConvertDepthStencilFormat d <> VK_FORMAT_UNDEFINED ->
     GetImageAspectFlags (ConvertDepthStencilFormat d) = [VK_IMAGE_ASPECT_DEPTH_BIT]).
Proof.
  assert (Hv : forall v, known v -> ConvertPixelFormat (ConvertVkFormat v) = v).
  { intros v. unfold known. by destruct v. }
  split; [exact Hv|]. split.
  - intros p Hp. assert (Hk : known (ConvertPixelFormat p)).
    { revert Hp. unfold supported, known. by destruct p. }
    split; [exact Hk|by apply Hv].
  - intros d. by destruct d.
Qed.

Example format_roundtrip_witness :
  ConvertPixelFormat (ConvertVkFormat VkFormat.VK_FORMAT_B8G8R8A8_UNORM) = VkFormat.VK_FORMAT_B8G8R8A8_UNORM /\
  known (ConvertPixelFormat (ConvertVkFormat VkFormat.VK_FORMAT_B8G8R8A8_UNORM)).
Proof.
  destruct format_roundtrip as (Hv & Hp & _). split; [apply Hv; vm_compute; discriminate|].
  apply Hp. vm_compute. discriminate.
Defined.

(** The shader stages the engine names convert and come back. *)
Lemma shader_stage_roundtrip s :
  ConvertShaderType s <> VK_SHADER_STAGE_ALL -> ConvertVkShaderStage (ConvertShaderType s) = s.
Proof. by destruct s. Qed.

(** Neither a texture nor a buffer is created without any use. *)
Lemma usage_not_empty HasFlag :
  ConvertGpuUsageToImageUsage HasFlag <> [] /\
  exists b, b ∈ ConvertGpuUsageToBufferUsage HasFlag /\ b <> VK_BUFFER_USAGE_TRANSFER_DST_BIT.
Proof.
  split.
  - unfold ConvertGpuUsageToImageUsage. by destruct (or_if _ _ _).
  - unfold ConvertGpuUsageToBufferUsage. cbv zeta.
    match goal with |- context [forallb ?f ?l] => destruct (forallb f l) eqn:Hall; set (flags := l) in * end.
    + exists VK_BUFFER_USAGE_STORAGE_BUFFER_BIT. split; [by right; left|done].
    + apply not_true_iff_false in Hall.
      destruct (decide (Exists (fun b => b <> VK_BUFFER_USAGE_TRANSFER_DST_BIT) flags)) as [Hex|Hno].
      * apply List.Exists_exists in Hex as (b & Hb & Hne). exists b. by rewrite list_elem_of_In.
      * destruct Hall. apply forallb_forall. intros b Hb. destruct (decide (b = VK_BUFFER_USAGE_TRANSFER_DST_BIT)) as [->|Hne];
          [done|]. destruct Hno. apply List.Exists_exists. by exists b.
Qed.
