(* ===== verification/Vulkan.v ===== *)
(** * Calls to Vulkan

    The language in which [VulkanContext] is written: the functions of the
    Vulkan API and of its memory allocator that
    [src/src/trinityal-vulkan/Tr2VulkanContext.cpp] calls, with the parameters the
    code varies and the type of what they answer; the driver, a parameter, which
    may answer anything that depends on everything asked before; and code that
    calls it, with the early returns of the macros [VK_CHECK] and [CR_RETURN_HR].

    A handle is a number and [VK_NULL_HANDLE] is 0. An output parameter of a
    creation is written or left as it is, whatever the result; a call that
    enumerates writes a count and the elements. [vkQueueSubmitSignal] is
    [vkQueueSubmit2] of a submission without commands that signals a timeline, and
    [memcpy] is that of the host into memory that is mapped. *)

From Stdlib Require Import Strings.Byte.
From Corelib Require SpecFloat.
From stdpp Require Import base numbers list option strings.
From S2P Require Import Prelude RenderGraph VulkanFormats.

#[local] Open Scope Z_scope.

(** ** Updating records

    [s <| member := value |>]: the setter of a member is found by abstracting the
    projection in the eta-expansion of its record. *)

Class Eta (R : Type) := eta : R -> R.
Class Setter {R E : Type} (member : R -> E) := set_member : (E -> E) -> R -> R.
Arguments set_member {R E} member {_} f r /.

Ltac find_setter R member :=
  let expanded := eval hnf in (@eta R _) in
  match eval pattern member in expanded with
  | ?build _ => exact (fun f => build (fun r => f (member r)))
  end.

#[export] Hint Extern 1 (@Setter ?R _ ?member) => find_setter R member : typeclass_instances.

Declare Scope record_scope.
Notation "r <| member := value |>" := (set_member member (fun _ => value) r)
  (at level 1, left associativity, value at level 99) : record_scope.
Notation "r <| member ::= f |>" := (set_member member f r)
  (at level 1, left associativity, f at level 99) : record_scope.
#[global] Open Scope record_scope.

(** ** Names of [vulkan.h] *)

Inductive VkResult :=
| VK_SUCCESS
| VK_SUBOPTIMAL_KHR
| VK_ERROR_OUT_OF_HOST_MEMORY
| VK_ERROR_OUT_OF_DEVICE_MEMORY
| VK_ERROR_DEVICE_LOST
| VK_ERROR_SURFACE_LOST_KHR
| VK_ERROR_OUT_OF_DATE_KHR
| VK_NOT_READY
| VK_RESULT_OTHER (value : Z).

#[export] Instance VkResult_eq_dec : EqDecision VkResult.
Proof. solve_decision. Defined.

Definition VkHandle : Type := Z.
Definition VK_NULL_HANDLE : VkHandle := 0.
Definition is_null (h : VkHandle) : bool := h =? VK_NULL_HANDLE.

Definition VK_QUEUE_FAMILY_IGNORED : Z := 2 ^ 32 - 1.
Definition VK_MAX_MEMORY_TYPES : Z := 32.
Definition VK_QUEUE_GRAPHICS_BIT : Z := 1.
Definition VK_FORMAT_FEATURE_DEPTH_STENCIL_ATTACHMENT_BIT : Z := 512.

Inductive VkImageTiling := VK_IMAGE_TILING_OPTIMAL | VK_IMAGE_TILING_LINEAR.
Inductive VkPresentModeKHR :=
| VK_PRESENT_MODE_IMMEDIATE_KHR | VK_PRESENT_MODE_FIFO_KHR | VK_PRESENT_MODE_OTHER (value : Z).
Inductive VkColorSpaceKHR :=
| VK_COLOR_SPACE_SRGB_NONLINEAR_KHR | VK_COLOR_SPACE_OTHER (value : Z).
Inductive VkSharingMode :=
| VK_SHARING_MODE_EXCLUSIVE
| VK_SHARING_MODE_CONCURRENT (families : list Z).

#[export] Instance VkPresentModeKHR_eq_dec : EqDecision VkPresentModeKHR.
Proof. solve_decision. Defined.
#[export] Instance VkColorSpaceKHR_eq_dec : EqDecision VkColorSpaceKHR.
Proof. solve_decision. Defined.

Record VkExtent2D := mkVkExtent2D { extent_width : Z; extent_height : Z }.

Record VkSurfaceFormatKHR := mkVkSurfaceFormatKHR
  { sf_format : VkFormat.type; sf_colorSpace : VkColorSpaceKHR }.

Record VkSurfaceCapabilitiesKHR := mkVkSurfaceCapabilitiesKHR
  { minImageCount : Z; maxImageCount : Z; currentExtent : VkExtent2D;
    minImageExtent : VkExtent2D; maxImageExtent : VkExtent2D; currentTransform : Z }.

Record VkPhysicalDeviceProperties := mkVkPhysicalDeviceProperties
  { apiVersion : Z; driverVersion : Z; vendorID : Z; deviceID : Z; deviceName : string;
    limits_maxImageDimension2D : Z; limits_timestampPeriod : Z; limits_timestampComputeAndGraphics : Z }.
Record VkPhysicalDeviceFeatures := mkVkPhysicalDeviceFeatures { largePoints : bool }.
Record VkPhysicalDeviceVulkan13Features := mkVkPhysicalDeviceVulkan13Features
  { dynamicRendering : bool; synchronization2 : bool }.
Record VkPhysicalDeviceVulkan12Features := mkVkPhysicalDeviceVulkan12Features
  { hostQueryReset : bool; timelineSemaphore12 : bool }.

(** What [vkCreateDevice] is asked for: the families of its queues, the
    extensions, and the features of the chain. *)
Record VkDeviceCreateInfo := mkVkDeviceCreateInfo
  { dci_families : list Z; dci_extensions : list string;
    dci_features : VkPhysicalDeviceFeatures; dci_vulkan13 : VkPhysicalDeviceVulkan13Features;
    dci_vulkan12 : VkPhysicalDeviceVulkan12Features; dci_deviceFault : bool }.

Record VkSwapchainCreateInfoKHR := mkVkSwapchainCreateInfoKHR
  { sci_surface : VkHandle; sci_minImageCount : Z; sci_imageFormat : VkFormat.type;
    sci_imageColorSpace : VkColorSpaceKHR; sci_imageExtent : VkExtent2D; sci_preTransform : Z;
    sci_presentMode : VkPresentModeKHR; sci_sharing : VkSharingMode; sci_oldSwapchain : VkHandle }.

Record VkSubmitInfo2 := mkVkSubmitInfo2
  { si_waitSemaphore : VkHandle; si_commandBuffer : VkHandle;
    si_signalSemaphore : VkHandle; si_timelineSemaphore : VkHandle; si_timelineValue : Z }.

Record VkDeviceFaultCountsEXT := mkVkDeviceFaultCountsEXT
  { addressInfoCount : Z; vendorInfoCount : Z; vendorBinarySize : Z }.

(** *** Images, buffers and their memory *)

(** A pointer of the host: the memory it points into, named by the allocation that
    is mapped there, and the distance from its start. *)
Record pointer := Pointer { block : VkHandle; displacement : Z }.
Definition nullptr : pointer := Pointer 0 0.
Definition advance (p : pointer) (n : Z) : pointer := Pointer (block p) (displacement p + n).

Record VkBufferCreateInfo := mkVkBufferCreateInfo { bci_size : Z; bci_usage : list buffer_usage }.

Inductive host_access :=
| VMA_ALLOCATION_CREATE_HOST_ACCESS_SEQUENTIAL_WRITE_BIT
| VMA_ALLOCATION_CREATE_HOST_ACCESS_RANDOM_BIT.

(** The hint on the kind of memory is left out. *)
Record VmaAllocationCreateInfo := mkVmaAllocationCreateInfo
  { aci_flags : option host_access; aci_requiredFlags : list memory_property }.

Inductive VkImageType := VK_IMAGE_TYPE_1D | VK_IMAGE_TYPE_2D | VK_IMAGE_TYPE_3D.
Inductive VkImageViewType := VK_IMAGE_VIEW_TYPE_2D.
Inductive image_create_flag := VK_IMAGE_CREATE_MUTABLE_FORMAT_BIT | VK_IMAGE_CREATE_CUBE_COMPATIBLE_BIT.

Record VkExtent3D := mkVkExtent3D { width3 : Z; height3 : Z; depth3 : Z }.
Record VkOffset3D := mkVkOffset3D { offset_x : Z; offset_y : Z; offset_z : Z }.

Record VkImageCreateInfo := mkVkImageCreateInfo
  { ici_flags : list image_create_flag; ici_imageType : VkImageType; ici_format : VkFormat.type;
    ici_extent : VkExtent3D; ici_mipLevels : Z; ici_arrayLayers : Z; ici_samples : Z;
    ici_usage : list image_usage }.

Record VkImageSubresourceRange := mkVkImageSubresourceRange
  { isr_aspectMask : list image_aspect; isr_baseMipLevel : Z; isr_levelCount : Z;
    isr_baseArrayLayer : Z; isr_layerCount : Z }.

Record VkImageViewCreateInfo := mkVkImageViewCreateInfo
  { vci_image : VkHandle; vci_viewType : VkImageViewType; vci_format : VkFormat.type;
    vci_range : VkImageSubresourceRange }.

(** One level and one layer. *)
Definition whole_image (aspect : image_aspect) : VkImageSubresourceRange :=
  mkVkImageSubresourceRange [aspect] 0 1 0 1.

Record VkBufferCopy := mkVkBufferCopy { bc_srcOffset : Z; bc_dstOffset : Z; bc_size : Z }.

Record VkImageSubresourceLayers := mkVkImageSubresourceLayers
  { isl_aspectMask : list image_aspect; isl_mipLevel : Z; isl_baseArrayLayer : Z; isl_layerCount : Z }.

(** The rows of the buffer follow each other without a gap. *)
Record VkBufferImageCopy := mkVkBufferImageCopy
  { bic_imageSubresource : VkImageSubresourceLayers; bic_imageOffset : VkOffset3D;
    bic_imageExtent : VkExtent3D }.

Record VkImageCopy := mkVkImageCopy
  { ic_srcSubresource : VkImageSubresourceLayers; ic_srcOffset : VkOffset3D;
    ic_dstSubresource : VkImageSubresourceLayers; ic_dstOffset : VkOffset3D; ic_extent : VkExtent3D }.

(** Whether the device reads or writes what it accesses. *)
Inductive access :=
| MEMORY_READ | MEMORY_WRITE | TRANSFER_READ | TRANSFER_WRITE | HOST_READ | COLOR_ATTACHMENT_WRITE
| DEPTH_STENCIL_ATTACHMENT_READ | DEPTH_STENCIL_ATTACHMENT_WRITE.

Record VkImageMemoryBarrier2 := mkVkImageMemoryBarrier2
  { imb_srcAccessMask : list access; imb_dstAccessMask : list access;
    imb_oldLayout : VkImageLayout; imb_newLayout : VkImageLayout; imb_image : VkHandle;
    imb_subresourceRange : VkImageSubresourceRange }.

Record VkBufferMemoryBarrier2 := mkVkBufferMemoryBarrier2
  { bmb_srcAccessMask : list access; bmb_dstAccessMask : list access; bmb_buffer : VkHandle;
    bmb_offset : Z; bmb_size : Z }.

Inductive VkQueryType :=
| VK_QUERY_TYPE_TIMESTAMP | VK_QUERY_TYPE_OCCLUSION | VK_QUERY_TYPE_PIPELINE_STATISTICS.

(** [VK_QUERY_PIPELINE_STATISTIC_..._BIT]. *)
Inductive VkQueryPipelineStatistic :=
| INPUT_ASSEMBLY_VERTICES_BIT | INPUT_ASSEMBLY_PRIMITIVES_BIT | VERTEX_SHADER_INVOCATIONS_BIT
| GEOMETRY_SHADER_INVOCATIONS_BIT | GEOMETRY_SHADER_PRIMITIVES_BIT | CLIPPING_INVOCATIONS_BIT
| CLIPPING_PRIMITIVES_BIT | FRAGMENT_SHADER_INVOCATIONS_BIT | TESSELLATION_CONTROL_SHADER_PATCHES_BIT
| TESSELLATION_EVALUATION_SHADER_INVOCATIONS_BIT | COMPUTE_SHADER_INVOCATIONS_BIT.

(** [queryType] and [pipelineStatistics] of a pool; a flag word is the list of its bits. *)
Definition query_kind : Type := VkQueryType * list VkQueryPipelineStatistic.

(** *** Shaders, pipelines and descriptors *)

Inductive VkSamplerMipmapMode := VK_SAMPLER_MIPMAP_MODE_NEAREST | VK_SAMPLER_MIPMAP_MODE_LINEAR.

(** The members that are given constants are left out. *)
Record VkSamplerCreateInfo := mkVkSamplerCreateInfo
  { smi_magFilter : VkFilter; smi_minFilter : VkFilter; smi_mipmapMode : VkSamplerMipmapMode;
    smi_addressModeU : VkSamplerAddressMode; smi_addressModeV : VkSamplerAddressMode;
    smi_addressModeW : VkSamplerAddressMode; smi_mipLodBias : SpecFloat.spec_float;
    smi_anisotropyEnable : bool; smi_maxAnisotropy : SpecFloat.spec_float;
    smi_compareEnable : bool; smi_compareOp : VkCompareOp; smi_minLod : SpecFloat.spec_float;
    smi_maxLod : SpecFloat.spec_float }.

Inductive VkDescriptorType :=
| VK_DESCRIPTOR_TYPE_SAMPLER | VK_DESCRIPTOR_TYPE_COMBINED_IMAGE_SAMPLER
| VK_DESCRIPTOR_TYPE_STORAGE_IMAGE | VK_DESCRIPTOR_TYPE_UNIFORM_BUFFER
| VK_DESCRIPTOR_TYPE_STORAGE_BUFFER.

#[export] Instance VkDescriptorType_eq_dec : EqDecision VkDescriptorType.
Proof. solve_decision. Defined.
#[export] Instance VkShaderStageFlagBits_eq_dec : EqDecision VkShaderStageFlagBits.
Proof. solve_decision. Defined.

Record VkDescriptorSetLayoutBinding := mkVkDescriptorSetLayoutBinding
  { slb_binding : Z; slb_descriptorType : VkDescriptorType; slb_descriptorCount : Z;
    slb_stageFlags : list VkShaderStageFlagBits }.

(** A buffer with an offset and a range; an image with its sampler, view and layout. *)
Record VkDescriptorBufferInfo := mkVkDescriptorBufferInfo
  { dbi_buffer : VkHandle; dbi_offset : Z; dbi_range : Z }.
Record VkDescriptorImageInfo := mkVkDescriptorImageInfo
  { dii_sampler : VkHandle; dii_imageView : VkHandle; dii_imageLayout : VkImageLayout }.
Inductive descriptor :=
| DescribesBuffer (info : VkDescriptorBufferInfo) | DescribesImage (info : VkDescriptorImageInfo).

(** The array that the write points to is in it. *)
Record VkWriteDescriptorSet := mkVkWriteDescriptorSet
  { wds_dstSet : VkHandle; wds_dstBinding : Z; wds_dstArrayElement : Z;
    wds_descriptorType : VkDescriptorType; wds_descriptors : list descriptor }.

Record VkVertexInputBindingDescription := mkVkVertexInputBindingDescription
  { vib_binding : Z; vib_stride : Z }.
Record VkVertexInputAttributeDescription := mkVkVertexInputAttributeDescription
  { via_location : Z; via_binding : Z; via_format : VkFormat.type; via_offset : Z }.

(** What varies from one pipeline to another: one color attachment, and the depth is
    tested and written where [gpi_depth] holds. *)
Record VkGraphicsPipelineCreateInfo := mkVkGraphicsPipelineCreateInfo
  { gpi_stages : list (VkShaderStageFlagBits * VkHandle);
    gpi_bindings : list VkVertexInputBindingDescription;
    gpi_attributes : list VkVertexInputAttributeDescription;
    gpi_topology : VkPrimitiveTopology; gpi_depth : bool; gpi_layout : VkHandle;
    gpi_colorFormat : VkFormat.type; gpi_depthFormat : VkFormat.type }.

(** *** Drawing *)

Record VkViewport := mkVkViewport
  { vp_x : SpecFloat.spec_float; vp_y : SpecFloat.spec_float; vp_width : SpecFloat.spec_float;
    vp_height : SpecFloat.spec_float; vp_minDepth : SpecFloat.spec_float; vp_maxDepth : SpecFloat.spec_float }.

Inductive VkIndexType := VK_INDEX_TYPE_UINT16 | VK_INDEX_TYPE_UINT32.

(** An attachment is loaded and stored; an area at the origin, a color and a depth
    attachment. *)
Record VkRenderingAttachmentInfo := mkVkRenderingAttachmentInfo
  { rai_imageView : VkHandle; rai_imageLayout : VkImageLayout }.
Record VkRenderingInfo := mkVkRenderingInfo
  { ri_extent : VkExtent2D; ri_color : VkRenderingAttachmentInfo; ri_depth : VkRenderingAttachmentInfo }.

(** The kinds of object that are destroyed by a function of their own with the
    same parameters. *)
Inductive object_kind :=
| DebugUtilsMessengerEXT | SurfaceKHR | SwapchainKHR | ImageView | Image | Buffer | ShaderModule
| DescriptorSetLayout | PipelineLayout | Pipeline | Sampler | QueryPool | Semaphore | Fence
| CommandPool | DescriptorPool | PipelineCache | Allocator | Device | Instance.

(** ** The functions

    What a creation answers: the result, and what it writes. *)
Definition created : Type := VkResult * option VkHandle.
(** What an enumeration answers: the count it writes, and the elements it writes
    when it is given an array. *)
Definition enumerated (A : Type) : Type := VkResult * (nat * list A).

(** An array of an enumeration: the null pointer, or room for so many elements. *)
Definition capacity : Type := option nat.

Inductive vk : Type -> Type :=
| vkEnumerateInstanceLayerProperties (room : capacity) : vk (enumerated string)
| vkEnumerateInstanceExtensionProperties (room : capacity) : vk (enumerated string)
| vkCreateInstance (layers extensions : list string) : vk created
| vkGetInstanceProcAddr (instance : VkHandle) (name : string) : vk bool
| vkCreateDebugUtilsMessengerEXT (instance : VkHandle) : vk created
| vkCreateWin32SurfaceKHR (instance window : VkHandle) : vk created
| vkEnumeratePhysicalDevices (instance : VkHandle) (room : capacity) : vk (enumerated VkHandle)
| vkGetPhysicalDeviceProperties (device : VkHandle) : vk VkPhysicalDeviceProperties
| vkEnumerateDeviceExtensionProperties (device : VkHandle) (room : capacity) : vk (enumerated string)
| vkGetPhysicalDeviceFeatures (device : VkHandle) : vk VkPhysicalDeviceFeatures
| vkGetPhysicalDeviceFeatures2 (device : VkHandle)
    : vk (VkPhysicalDeviceVulkan13Features * VkPhysicalDeviceVulkan12Features)
| vkGetPhysicalDeviceProperties2 (device : VkHandle) : vk unit
| vkGetPhysicalDeviceQueueFamilyProperties (device : VkHandle) (room : capacity) : vk (nat * list Z)
| vkGetPhysicalDeviceSurfaceSupportKHR (device : VkHandle) (family : Z) (surface : VkHandle)
    : vk (VkResult * bool)
| vkGetPhysicalDeviceMemoryProperties (device : VkHandle) : vk (list Z)
| vkGetPhysicalDeviceFormatProperties (device : VkHandle) (format : VkFormat.type) : vk (Z * Z)
| vkCreateDevice (device : VkHandle) (info : VkDeviceCreateInfo) : vk created
| vkGetDeviceQueue (device : VkHandle) (family : Z) : vk VkHandle
| vmaCreateAllocator (physicalDevice device instance : VkHandle) : vk created
| vkCreatePipelineCache (device : VkHandle) : vk created
| vkCreateSampler (device : VkHandle) (info : VkSamplerCreateInfo) : vk created
| vkCreateShaderModule (device : VkHandle) (code : list byte) : vk created
| vkCreateDescriptorSetLayout (device : VkHandle) (bindings : list VkDescriptorSetLayoutBinding) : vk created
| vkCreatePipelineLayout (device : VkHandle) (setLayouts : list VkHandle) : vk created
| vkCreateGraphicsPipelines (device cache : VkHandle) (info : VkGraphicsPipelineCreateInfo) : vk created
| vkAllocateDescriptorSets (device pool layout : VkHandle) : vk created
| vkUpdateDescriptorSets (device : VkHandle) (writes : list VkWriteDescriptorSet) : vk unit
| vkFreeDescriptorSets (device pool set : VkHandle) : vk VkResult
| vkCreateQueryPool (device : VkHandle) (kind : query_kind) (count : Z) : vk created
| vkGetPhysicalDeviceSurfaceCapabilitiesKHR (device surface : VkHandle)
    : vk (VkResult * VkSurfaceCapabilitiesKHR)
| vkGetPhysicalDeviceSurfaceFormatsKHR (device surface : VkHandle) (room : capacity)
    : vk (enumerated VkSurfaceFormatKHR)
| vkGetPhysicalDeviceSurfacePresentModesKHR (device surface : VkHandle) (room : capacity)
    : vk (enumerated VkPresentModeKHR)
| vkCreateSwapchainKHR (device : VkHandle) (info : VkSwapchainCreateInfoKHR) : vk created
| vkGetSwapchainImagesKHR (device swapchain : VkHandle) (room : capacity) : vk (enumerated VkHandle)
| vkCreateImageView (device : VkHandle) (info : VkImageViewCreateInfo) : vk created
| vmaCreateImage (allocator : VkHandle) (info : VkImageCreateInfo) (memory : VmaAllocationCreateInfo)
    : vk (VkResult * option (VkHandle * VkHandle))
| vmaCreateBuffer (allocator : VkHandle) (info : VkBufferCreateInfo) (memory : VmaAllocationCreateInfo)
    : vk (VkResult * option (VkHandle * VkHandle))
| vmaMapMemory (allocator allocation : VkHandle) : vk (VkResult * option pointer)
| vmaUnmapMemory (allocator allocation : VkHandle) : vk unit
| vmaFlushAllocation (allocator allocation : VkHandle) : vk unit
| vmaInvalidateAllocation (allocator allocation : VkHandle) (offset size : Z) : vk unit
| memcpy (destination : pointer) (bytes : list byte) : vk unit
| vkCmdCopyBuffer (command source destination : VkHandle) (region : VkBufferCopy) : vk unit
| vkCmdPipelineBarrier2 (command : VkHandle) (images : list VkImageMemoryBarrier2)
    (buffers : list VkBufferMemoryBarrier2) : vk unit
| vkCmdCopyImageToBuffer (command image : VkHandle) (layout : VkImageLayout) (buffer : VkHandle)
    (region : VkBufferImageCopy) : vk unit
| vkCmdCopyBufferToImage (command buffer image : VkHandle) (layout : VkImageLayout)
    (region : VkBufferImageCopy) : vk unit
| vkCmdCopyImage (command source : VkHandle) (sourceLayout : VkImageLayout) (destination : VkHandle)
    (destinationLayout : VkImageLayout) (region : VkImageCopy) : vk unit
| vkCmdClearColorImage (command image : VkHandle) (layout : VkImageLayout)
    (color : list SpecFloat.spec_float) (range : VkImageSubresourceRange) : vk unit
| vkCmdClearDepthStencilImage (command image : VkHandle) (layout : VkImageLayout)
    (depth : SpecFloat.spec_float) (range : VkImageSubresourceRange) : vk unit
| vkCmdBeginRendering (command : VkHandle) (info : VkRenderingInfo) : vk unit
| vkCmdEndRendering (command : VkHandle) : vk unit
| vkCmdSetViewport (command : VkHandle) (viewport : VkViewport) : vk unit
| vkCmdSetScissor (command : VkHandle) (extent : VkExtent2D) : vk unit
| vkCmdBindPipeline (command pipeline : VkHandle) : vk unit
| vkCmdBindDescriptorSets (command layout set : VkHandle) : vk unit
| vkCmdBindVertexBuffers (command : VkHandle) (binding : Z) (buffer : VkHandle) (offset : Z) : vk unit
| vkCmdBindIndexBuffer (command buffer : VkHandle) (type : VkIndexType) : vk unit
| vkCmdDraw (command : VkHandle) (vertices instances firstVertex firstInstance : Z) : vk unit
| vkCmdDrawIndexed (command : VkHandle) (indices instances firstIndex vertexOffset firstInstance : Z) : vk unit
| vkCmdBeginDebugUtilsLabelEXT (command : VkHandle) (label : string) : vk unit
| vkCmdEndDebugUtilsLabelEXT (command : VkHandle) : vk unit
| vkCmdResetQueryPool (command pool : VkHandle) (first count : Z) : vk unit
| vkCmdWriteTimestamp2 (command pool : VkHandle) (query : Z) : vk unit
| vkCmdBeginQuery (command pool : VkHandle) (query : Z) : vk unit
| vkCmdEndQuery (command pool : VkHandle) (query : Z) : vk unit
| vkGetQueryPoolResults (device pool : VkHandle) (first count room : Z) (availability : bool)
    : vk (VkResult * list Z)
| vmaDestroyImage (allocator image allocation : VkHandle) : vk unit
| vmaDestroyBuffer (allocator buffer allocation : VkHandle) : vk unit
| vkCreateCommandPool (device : VkHandle) (family : Z) : vk created
| vkAllocateCommandBuffers (device pool : VkHandle) : vk created
| vkCreateDescriptorPool (device : VkHandle) (maxSets : Z) (sizes : list (VkDescriptorType * Z)) : vk created
| vkCreateSemaphore (device : VkHandle) (timeline : bool) : vk created
| vkCreateFence (device : VkHandle) (signaled : bool) : vk created
| vkDestroy (kind : object_kind) (parent handle : VkHandle) : vk unit
| vkWaitForFences (device fence : VkHandle) : vk VkResult
| vkResetFences (device fence : VkHandle) : vk VkResult
| vkGetSemaphoreCounterValue (device semaphore : VkHandle) : vk (VkResult * Z)
| vkResetCommandPool (device pool : VkHandle) : vk VkResult
| vkBeginCommandBuffer (buffer : VkHandle) : vk VkResult
| vkEndCommandBuffer (buffer : VkHandle) : vk VkResult
| vkAcquireNextImageKHR (device swapchain semaphore : VkHandle) : vk (VkResult * option Z)
| vkQueueSubmit2 (queue : VkHandle) (info : VkSubmitInfo2) (fence : VkHandle) : vk VkResult
| vkQueueSubmitSignal (queue semaphore : VkHandle) (value : Z) : vk VkResult
| vkWaitSemaphores (device semaphore : VkHandle) (value : Z) : vk VkResult
| vkQueuePresentKHR (queue swapchain : VkHandle) (image : Z) (waitSemaphore : VkHandle) : vk VkResult
| vkDeviceWaitIdle (device : VkHandle) : vk VkResult
| vkGetDeviceProcAddr (device : VkHandle) (name : string) : vk bool
| vkGetDeviceFaultInfoEXT (device : VkHandle) (counts : VkDeviceFaultCountsEXT) (info : bool)
    : vk (VkResult * VkDeviceFaultCountsEXT)
| vkSetDebugUtilsObjectNameEXT (device object : VkHandle) (type : Z) (name : string) : vk unit.

(** A call and what it answered. *)
Record event := Event { ev_type : Type; ev_call : vk ev_type; ev_answer : ev_type }.
Arguments Event {_} _ _.

(** The driver: what it answers to a call, given all earlier ones, the latest
    first. *)
Class Driver := answer : forall A, list event -> vk A -> A.
Arguments answer {_ _} _ _.

(** ** Code that calls the driver

    A piece of a member function goes on with a value, leaves the function with
    a result, or does what the language leaves undefined. It runs on the object
    and the calls made so far. *)

Inductive flow (A : Type) :=
| Next (a : A)
| Return (hr : ALResult)
| Wrong.
Arguments Next {A} a.
Arguments Return {A} hr.
Arguments Wrong {A}.

Record world (S : Type) := mkWorld { object : S; trace : list event }.
Arguments mkWorld {S} _ _.
Arguments object {S} _.
Arguments trace {S} _.

Definition Code (S A : Type) : Type := world S -> flow A * world S.

#[export] Instance Code_ret {S} : MRet (Code S) := fun A a w => (Next a, w).
#[export] Instance Code_bind {S} : MBind (Code S) := fun A B k m w =>
  match m w with
  | (Next a, w) => k a w
  | (Return hr, w) => (Return hr, w)
  | (Wrong, w) => (Wrong, w)
  end.

#[export] Instance ALResult_eq_dec : EqDecision ALResult.
Proof. solve_decision. Defined.

Definition SUCCEEDED (hr : ALResult) : bool := match hr with S_OK => true | _ => false end.
Definition FAILED (hr : ALResult) : bool := negb (SUCCEEDED hr).

Section code.
Context `{Driver} {S : Type}.

Definition early {A} (hr : ALResult) : Code S A := fun w => (Return hr, w).
Definition wrong {A} : Code S A := fun w => (Wrong, w).
Definition this {A} (f : S -> A) : Code S A := fun w => (Next (f (object w)), w).
Definition update (f : S -> S) : Code S unit := fun w => (Next tt, mkWorld (f (object w)) (trace w)).

(** A member function that returns an [ALResult]. *)
Definition function (m : Code S ALResult) : Code S ALResult := fun w =>
  match m w with
  | (Return hr, w) => (Next hr, w)
  | (r, w) => (r, w)
  end.

(** [CR_RETURN_HR( m )]. *)
Definition CR_RETURN_HR (m : Code S ALResult) : Code S unit :=
  hr ← m; if FAILED hr then early hr else mret tt.

(** [for( x : xs ) f( x );] *)
Fixpoint for_each {A} (f : A -> Code S unit) (xs : list A) : Code S unit :=
  match xs with
  | [] => mret tt
  | x :: xs => f x;; for_each f xs
  end.

Definition call {A} (c : vk A) : Code S A := fun w =>
  let a := answer (trace w) c in (Next a, mkWorld (object w) (Event c a :: trace w)).

(** A call whose output parameter is a member: [set] stores what it writes. *)
Definition call_out {A} (set : A -> S -> S) (c : vk (VkResult * option A)) : Code S VkResult :=
  r ← call c;
  update (match r.2 with Some a => set a | None => id end);;
  mret r.1.

End code.

Definition MapVkResult (result : VkResult) : ALResult :=
  match result with
  | VK_SUCCESS | VK_SUBOPTIMAL_KHR => S_OK
  | VK_ERROR_OUT_OF_HOST_MEMORY | VK_ERROR_OUT_OF_DEVICE_MEMORY => E_OUTOFMEMORY
  | VK_ERROR_DEVICE_LOST => E_DEVICELOST
  | VK_ERROR_SURFACE_LOST_KHR => E_INVALIDCALL
  | VK_ERROR_OUT_OF_DATE_KHR => E_INVALIDCALL
  | VK_NOT_READY | VK_RESULT_OTHER _ => E_FAIL
  end.

Section macros.
Context `{Driver} {S : Type}.

(** [VK_CHECK( expr )]: any result but success leaves the function with what it
    maps to, which is [S_OK] for [VK_SUBOPTIMAL_KHR]. *)
Definition VK_CHECK (expr : Code S VkResult) : Code S unit :=
  result ← expr;
  if bool_decide (result = VK_SUCCESS) then mret tt else early (MapVkResult result).

(** [VK_CHECK] of a call that also answers a value. *)
Definition VK_CHECK_value {A} (c : vk (VkResult * A)) : Code S A :=
  r ← call c; VK_CHECK (mret r.1);; mret r.2.

(** An array after a call has written elements into it. *)
Definition fill {A} (array written : list A) : list A :=
  take (length array) written ++ drop (length written) array.

(** The two calls of an enumeration under [VK_CHECK] into a new array: the count
    the second call leaves, and the array. *)
Definition enumerate {A} (f : capacity -> vk (enumerated A)) (unset : A) : Code S (nat * list A) :=
  first ← VK_CHECK_value (f None);
  let count := first.1 in
  second ← VK_CHECK_value (f (Some count));
  mret (second.1, fill (replicate count unset) second.2).

End macros.
