(* ===== verification/VulkanContext.v ===== *)
(** * The Vulkan context

    [src/src/trinityal-vulkan/Tr2VulkanContext.cpp], less the conversions at its
    end: the instance, the device, the surface and the swap chain with their
    creation, recreation and destruction, the two frame contexts, and the frame
    itself, [BeginFrame], [EndFrame] and [Present], with the objects whose
    destruction waits for the device. One definition per member function, in the
    order of its calls. Messages of the log are left out, and so are members
    that are written and never read. *)

From stdpp Require Import base numbers list option strings.
From S2P Require Import Prelude RenderGraph VulkanFormats Vulkan.
Import VkFormat.

#[local] Open Scope string_scope.
#[local] Open Scope list_scope.
#[local] Open Scope Z_scope.

(** ** The state *)

Definition MAX_DEFERRED_ENTRIES : Z := 4096.
Definition VULKAN_FRAME_CONTEXT_COUNT : Z := 2.
Definition UINT64_MAX : Z := 2 ^ 64 - 1.
Definition REQUIRED_DEVICE_EXTENSIONS : list string := ["VK_KHR_swapchain"].
Definition OPTIONAL_DEVICE_EXTENSIONS : list string :=
  ["VK_EXT_device_fault"; "VK_EXT_swapchain_maintenance1"].

Inductive PresentInterval :=
| PRESENT_INTERVAL_IMMEDIATE | PRESENT_INTERVAL_ONE | PRESENT_INTERVAL_OTHER (value : Z).

Record Tr2PresentParametersAL := mkTr2PresentParametersAL
  { mode_width : Z; mode_height : Z; presentInterval : PresentInterval }.

Record VulkanFrameContext := mkVulkanFrameContext
  { commandPool : VkHandle; commandBuffer : VkHandle; descriptorPool : VkHandle;
    acquireSemaphore : VkHandle; renderFinishedSemaphore : VkHandle; inFlightFence : VkHandle;
    timelineSemaphore : VkHandle; timelineValue : Z }.

#[export] Instance VulkanFrameContext_eta : Eta VulkanFrameContext := fun f =>
  mkVulkanFrameContext (commandPool f) (commandBuffer f) (descriptorPool f) (acquireSemaphore f)
    (renderFinishedSemaphore f) (inFlightFence f) (timelineSemaphore f) (timelineValue f).

Definition new_VulkanFrameContext : VulkanFrameContext := mkVulkanFrameContext 0 0 0 0 0 0 0 0.

Record VulkanSwapchainState := mkVulkanSwapchainState
  { swapchain_ : VkHandle; format : VkFormat.type; colorSpace : VkColorSpaceKHR;
    extent : VkExtent2D; imageCount : nat; images : list VkHandle; imageViews : list VkHandle;
    depthImage : VkHandle; depthAllocation : VkHandle; depthView : VkHandle;
    depthFormat : VkFormat.type; depthLayout : VkImageLayout; currentImageIndex : Z;
    suspended : bool }.

#[export] Instance VulkanSwapchainState_eta : Eta VulkanSwapchainState := fun s =>
  mkVulkanSwapchainState (swapchain_ s) (format s) (colorSpace s) (extent s) (imageCount s)
    (images s) (imageViews s) (depthImage s) (depthAllocation s) (depthView s) (depthFormat s)
    (depthLayout s) (currentImageIndex s) (suspended s).

Definition new_VulkanSwapchainState : VulkanSwapchainState :=
  mkVulkanSwapchainState 0 VK_FORMAT_UNDEFINED VK_COLOR_SPACE_SRGB_NONLINEAR_KHR
    (mkVkExtent2D 0 0) 0 [] [] 0 0 0 VK_FORMAT_D32_SFLOAT VK_IMAGE_LAYOUT_UNDEFINED 0 false.

Record VulkanDeviceState := mkVulkanDeviceState
  { instance : VkHandle; physicalDevice : VkHandle; device : VkHandle; surface : VkHandle;
    graphicsQueue : VkHandle; presentQueue : VkHandle; graphicsFamily : Z; presentFamily : Z;
    allocator : VkHandle; properties : VkPhysicalDeviceProperties;
    features : VkPhysicalDeviceFeatures; memoryProperties : list Z;
    vulkan13Features : VkPhysicalDeviceVulkan13Features;
    vulkan12Features : VkPhysicalDeviceVulkan12Features; debugMessenger : VkHandle;
    pipelineCache : VkHandle; timestampQueryPool : VkHandle; timestampValidBits : Z;
    timestampPeriod : Z; validationEnabled : bool; deviceFaultEnabled : bool;
    swapchainMaintenance1 : bool; surfaceFormat : VkSurfaceFormatKHR;
    presentMode : VkPresentModeKHR; swapchain : VulkanSwapchainState;
    frames : list VulkanFrameContext; frameIndex : Z; lastPresentedImageIndex : Z;
    frameNumber : Z; renderedFrameNumber : Z; window : VkHandle;
    presentParameters : Tr2PresentParametersAL; windowless : bool; deviceLost : bool;
    deviceLostAdapter : Z; surfaceLossReason : string }.

#[export] Instance VulkanDeviceState_eta : Eta VulkanDeviceState := fun s =>
  mkVulkanDeviceState (instance s) (physicalDevice s) (device s) (surface s) (graphicsQueue s)
    (presentQueue s) (graphicsFamily s) (presentFamily s) (allocator s) (properties s) (features s)
    (memoryProperties s) (vulkan13Features s) (vulkan12Features s) (debugMessenger s)
    (pipelineCache s) (timestampQueryPool s) (timestampValidBits s) (timestampPeriod s)
    (validationEnabled s) (deviceFaultEnabled s) (swapchainMaintenance1 s) (surfaceFormat s)
    (presentMode s) (swapchain s) (frames s) (frameIndex s) (lastPresentedImageIndex s)
    (frameNumber s) (renderedFrameNumber s) (window s) (presentParameters s) (windowless s)
    (deviceLost s) (deviceLostAdapter s) (surfaceLossReason s).

(** [timestampPeriod] is a float: the pattern of [1.0f]. *)
Definition new_VulkanDeviceState : VulkanDeviceState :=
  mkVulkanDeviceState 0 0 0 0 0 0 VK_QUEUE_FAMILY_IGNORED VK_QUEUE_FAMILY_IGNORED 0
    (mkVkPhysicalDeviceProperties 0 0 0 0 "" 0 0 0) (mkVkPhysicalDeviceFeatures false) []
    (mkVkPhysicalDeviceVulkan13Features false false)
    (mkVkPhysicalDeviceVulkan12Features false false) 0 0 0 0 0x3f800000 false false false
    (mkVkSurfaceFormatKHR VK_FORMAT_UNDEFINED VK_COLOR_SPACE_SRGB_NONLINEAR_KHR)
    VK_PRESENT_MODE_FIFO_KHR new_VulkanSwapchainState
    (replicate (Z.to_nat VULKAN_FRAME_CONTEXT_COUNT) new_VulkanFrameContext) 0 0 0 0 0
    (mkTr2PresentParametersAL 0 0 (PRESENT_INTERVAL_OTHER 0)) false false 0 "".

Record VulkanDeferredDestroy := mkVulkanDeferredDestroy
  { dd_device : VkHandle; dd_allocator : VkHandle; dd_timelineValue : Z; dd_image : VkHandle;
    dd_imageView : VkHandle; dd_buffer : VkHandle; dd_allocation : VkHandle;
    dd_descriptorSetLayout : VkHandle; dd_pipelineLayout : VkHandle; dd_pipeline : VkHandle;
    dd_sampler : VkHandle; dd_queryPool : VkHandle; dd_swapchain : VkHandle;
    dd_semaphore : VkHandle; dd_fence : VkHandle; dd_commandPool : VkHandle }.

Record VulkanContext := mkVulkanContext
  { state : VulkanDeviceState; m_deferred : list VulkanDeferredDestroy }.

#[export] Instance VulkanContext_eta : Eta VulkanContext := fun c =>
  mkVulkanContext (state c) (m_deferred c).

Definition new_VulkanContext : VulkanContext := mkVulkanContext new_VulkanDeviceState [].

Section context.
Context `{Driver}.

Abbreviation C := (Code VulkanContext).

(** A member of [state], and assignments to members of [state], of
    [state.swapchain] and of [state.frames[i]]. *)
Definition get {A} (f : VulkanDeviceState -> A) : C A := this (fun c => f (state c)).
Definition put (f : VulkanDeviceState -> VulkanDeviceState) : C unit :=
  update (fun c => c <| state ::= f |>).
Definition put_swapchain (f : VulkanSwapchainState -> VulkanSwapchainState) : C unit :=
  put (fun s => s <| swapchain ::= f |>).
Definition out {A} (set : A -> VulkanDeviceState -> VulkanDeviceState)
    (c : vk (VkResult * option A)) : C VkResult :=
  call_out (fun a => set_member state (set a)) c.
Definition in_swapchain {A} (set : A -> VulkanSwapchainState -> VulkanSwapchainState) (a : A)
    (s : VulkanDeviceState) : VulkanDeviceState :=
  s <| swapchain ::= set a |>.
Definition in_frame {A} (i : nat) (set : A -> VulkanFrameContext -> VulkanFrameContext) (a : A)
    (s : VulkanDeviceState) : VulkanDeviceState :=
  s <| frames ::= alter (set a) i |>.

(** [frames[i]]. *)
Definition frame_at (i : nat) : C VulkanFrameContext :=
  fs ← get frames; match fs !! i with Some f => mret f | None => wrong end.

Definition unless_null (h : VkHandle) (m : C unit) : C unit :=
  if is_null h then mret tt else m.

(** [vkDestroyX( device, h, nullptr )]. *)
Definition destroy (kind : object_kind) (h : VkHandle) : C unit :=
  d ← get device; call (vkDestroy kind d h).

Definition HasExtension (available : list string) (name : string) : bool :=
  existsb (String.eqb name) available.
Definition HasLayer (available : list string) (name : string) : bool :=
  existsb (String.eqb name) available.

(** ** Waiting, and objects whose destruction is deferred *)

Definition WaitIdle : C unit :=
  d ← get device;
  if is_null d then mret tt else (call (vkDeviceWaitIdle d);; mret tt).

(** The objects of one entry, in the order of the source. *)
Definition destroy_entry (e : VulkanDeferredDestroy) : C unit :=
  let destroy_it kind h := unless_null h (call (vkDestroy kind (dd_device e) h)) in
  destroy_it ImageView (dd_imageView e);;
  unless_null (dd_image e) (call (vmaDestroyImage (dd_allocator e) (dd_image e) (dd_allocation e)));;
  unless_null (dd_buffer e) (call (vmaDestroyBuffer (dd_allocator e) (dd_buffer e) (dd_allocation e)));;
  destroy_it DescriptorSetLayout (dd_descriptorSetLayout e);;
  destroy_it PipelineLayout (dd_pipelineLayout e);;
  destroy_it Pipeline (dd_pipeline e);;
  destroy_it Sampler (dd_sampler e);;
  destroy_it QueryPool (dd_queryPool e);;
  destroy_it SwapchainKHR (dd_swapchain e);;
  destroy_it Semaphore (dd_semaphore e);;
  destroy_it Fence (dd_fence e);;
  destroy_it CommandPool (dd_commandPool e).

(** The loop of [DrainDeferred]: the entries it leaves. *)
Fixpoint drain_entries (completedValue : Z) (es : list VulkanDeferredDestroy)
    : C (list VulkanDeferredDestroy) :=
  match es with
  | [] => mret []
  | e :: es =>
      if completedValue <? dd_timelineValue e then
        kept ← drain_entries completedValue es; mret (e :: kept)
      else (destroy_entry e;; drain_entries completedValue es)
  end.

Definition DrainDeferred (completedValue : Z) : C unit :=
  es ← this m_deferred;
  kept ← drain_entries completedValue es;
  update (fun c => c <| m_deferred := kept |>).

Definition Retire (entry : VulkanDeferredDestroy) : C unit :=
  es ← this m_deferred;
  (if MAX_DEFERRED_ENTRIES <=? Z.of_nat (length es)
   then WaitIdle;; DrainDeferred UINT64_MAX else mret tt);;
  update (fun c => c <| m_deferred ::= fun es => es ++ [entry] |>).

(** ** The instance *)

Definition CreateDebugMessenger : C ALResult := function (
  i ← get instance;
  createFn ← call (vkGetInstanceProcAddr i "vkCreateDebugUtilsMessengerEXT");
  if negb createFn then mret E_FAIL
  else
    result ← out (fun h s => s <| debugMessenger := h |>) (vkCreateDebugUtilsMessengerEXT i);
    mret (MapVkResult result)).

Definition DestroyDebugMessenger : C unit :=
  m ← get debugMessenger;
  unless_null m (
    i ← get instance;
    destroyFn ← call (vkGetInstanceProcAddr i "vkDestroyDebugUtilsMessengerEXT");
    (if (destroyFn : bool) then call (vkDestroy DebugUtilsMessengerEXT i m) else mret tt);;
    put (fun s => s <| debugMessenger := VK_NULL_HANDLE |>)).

Definition CreateInstance (enableValidation : bool) : C ALResult := function (
  instanceLayers ← enumerate vkEnumerateInstanceLayerProperties "";
  instanceExtensions ← enumerate vkEnumerateInstanceExtensionProperties "";
  let validation := enableValidation && HasLayer instanceLayers.2 "VK_LAYER_KHRONOS_validation" in
  let enabledLayers := if validation then ["VK_LAYER_KHRONOS_validation"] else [] in
  (if validation then put (fun s => s <| validationEnabled := true |>) else mret tt);;
  let enabledExtensions := List.filter (HasExtension instanceExtensions.2)
    ["VK_KHR_surface"; "VK_KHR_win32_surface"; "VK_EXT_debug_utils"] in
  result ← out (fun h s => s <| instance := h |>) (vkCreateInstance enabledLayers enabledExtensions);
  if negb (bool_decide (result = VK_SUCCESS)) then mret E_FAIL
  else
    v ← get validationEnabled;
    (if (v : bool) then (CreateDebugMessenger;; mret tt) else mret tt);;
    mret S_OK).

Definition CreateSurface (w : VkHandle) : C ALResult :=
  i ← get instance;
  result ← out (fun h s => s <| surface := h |>) (vkCreateWin32SurfaceKHR i w);
  mret (MapVkResult result).

Definition DestroySurface : C unit :=
  h ← get surface;
  unless_null h (
    i ← get instance;
    call (vkDestroy SurfaceKHR i h);;
    put (fun s => s <| surface := VK_NULL_HANDLE |>)).

(** ** The device *)

(** The last family with graphics. *)
Fixpoint graphics_family (i : Z) (queueFlags : list Z) (found : Z) : Z :=
  match queueFlags with
  | [] => found
  | flags :: queueFlags =>
      graphics_family (i + 1) queueFlags
        (if Z.land flags VK_QUEUE_GRAPHICS_BIT =? 0 then found else i)
  end.

(** The first family that presents to the surface. *)
Fixpoint present_family (candidate surface : VkHandle) (families : list Z) : C Z :=
  match families with
  | [] => mret VK_QUEUE_FAMILY_IGNORED
  | i :: families =>
      supported ← VK_CHECK_value (vkGetPhysicalDeviceSurfaceSupportKHR candidate i surface);
      if (supported : bool) then mret i else present_family candidate surface families
  end.

(** The queue families of a device, as an array and the count of its loop. *)
Definition queue_families (candidate : VkHandle) : C (list Z) :=
  first ← call (vkGetPhysicalDeviceQueueFamilyProperties candidate None);
  second ← call (vkGetPhysicalDeviceQueueFamilyProperties candidate (Some first.1));
  if (first.1 <? second.1)%nat then wrong
  else mret (take second.1 (fill (replicate first.1 0) second.2)).

Definition choose_present (candidate : VkHandle) (graphics : Z) (families : nat) : C Z :=
  s ← get surface;
  supported ← VK_CHECK_value (vkGetPhysicalDeviceSurfaceSupportKHR candidate graphics s);
  if (supported : bool) then mret graphics
  else present_family candidate s (Z.of_nat <$> seq 0 families).

(** The end of [PickPhysicalDevice]: the device and its families are kept. *)
Definition take_device (candidate : VkHandle) (candidateProperties : VkPhysicalDeviceProperties) (candidateFeatures : VkPhysicalDeviceFeatures)
    (vulkan13 : VkPhysicalDeviceVulkan13Features) (vulkan12 : VkPhysicalDeviceVulkan12Features) (graphics present : Z) : C ALResult :=
  put (fun s => s <| physicalDevice := candidate |> <| properties := candidateProperties |>
    <| features := candidateFeatures |> <| vulkan13Features := vulkan13 |>
    <| vulkan12Features := vulkan12 |> <| graphicsFamily := graphics |>
    <| presentFamily := present |>);;
  memory ← call (vkGetPhysicalDeviceMemoryProperties candidate);
  put (fun s => s <| memoryProperties := memory |>);;
  mret S_OK.

Definition PickPhysicalDevice (adapter : Z) (requireSurface : bool) : C ALResult := function (
  i ← get instance;
  first ← VK_CHECK_value (vkEnumeratePhysicalDevices i None);
  if (first.1 =? 0)%nat then mret E_FAIL else
  second ← VK_CHECK_value (vkEnumeratePhysicalDevices i (Some first.1));
  let devices := fill (replicate first.1 VK_NULL_HANDLE) second.2 in
  if Z.of_nat second.1 <=? adapter then mret E_INVALIDARG else
  candidate ← match devices !! Z.to_nat adapter with Some d => mret d | None => wrong end;
  candidateProperties ← call (vkGetPhysicalDeviceProperties candidate);
  availableExtensions ← enumerate (vkEnumerateDeviceExtensionProperties candidate) "";
  if negb (forallb (HasExtension availableExtensions.2) REQUIRED_DEVICE_EXTENSIONS)
  then mret E_FAIL else
  candidateFeatures ← call (vkGetPhysicalDeviceFeatures candidate);
  features2 ← call (vkGetPhysicalDeviceFeatures2 candidate);
  call (vkGetPhysicalDeviceProperties2 candidate);;
  let vulkan13 := features2.1 in
  let vulkan12 := features2.2 in
  if negb (dynamicRendering vulkan13) || negb (synchronization2 vulkan13) ||
    negb (timelineSemaphore12 vulkan12) then mret E_FAIL else
  queueFamilies ← queue_families candidate;
  let graphics := graphics_family 0 queueFamilies VK_QUEUE_FAMILY_IGNORED in
  if graphics =? VK_QUEUE_FAMILY_IGNORED then mret E_FAIL else
  present ← (if requireSurface then choose_present candidate graphics (length queueFamilies)
             else mret graphics);
  if present =? VK_QUEUE_FAMILY_IGNORED then mret E_FAIL else
  take_device candidate candidateProperties candidateFeatures vulkan13 vulkan12 graphics present).

Definition CreateLogicalDevice : C ALResult := function (
  pd ← get physicalDevice;
  availableExtensions ← enumerate (vkEnumerateDeviceExtensionProperties pd) "";
  let available := HasExtension availableExtensions.2 in
  let enabledExtensions :=
    REQUIRED_DEVICE_EXTENSIONS ++ List.filter available OPTIONAL_DEVICE_EXTENSIONS in
  put (fun s => s <| deviceFaultEnabled := available "VK_EXT_device_fault" |>
    <| swapchainMaintenance1 := available "VK_EXT_swapchain_maintenance1" |>);;
  s ← get id;
  let add (families : list Z) (family : Z) :=
    if existsb (Z.eqb family) families then families else families ++ [family] in
  let queueFamilies := foldl add [] [graphicsFamily s; presentFamily s] in
  let createInfo := mkVkDeviceCreateInfo queueFamilies enabledExtensions
    (mkVkPhysicalDeviceFeatures (largePoints (features s)))
    (mkVkPhysicalDeviceVulkan13Features true true) (mkVkPhysicalDeviceVulkan12Features true true)
    (deviceFaultEnabled s) in
  result ← out (fun h s => s <| device := h |>) (vkCreateDevice pd createInfo);
  if negb (bool_decide (result = VK_SUCCESS)) then mret E_FAIL
  else
    d ← get device;
    graphics ← call (vkGetDeviceQueue d (graphicsFamily s));
    put (fun s => s <| graphicsQueue := graphics |>);;
    present ← call (vkGetDeviceQueue d (presentFamily s));
    put (fun s => s <| presentQueue := present |>);;
    put (fun s => s <| timestampPeriod := limits_timestampPeriod (properties s) |>
      <| timestampValidBits := limits_timestampComputeAndGraphics (properties s) |>);;
    mret S_OK).

Definition CreateAllocator : C ALResult :=
  s ← get id;
  result ← out (fun h s => s <| allocator := h |>)
    (vmaCreateAllocator (physicalDevice s) (device s) (instance s));
  mret (MapVkResult result).

Definition CreateTimestampQueryPool : C ALResult :=
  d ← get device;
  result ← out (fun h s => s <| timestampQueryPool := h |>)
    (vkCreateQueryPool d (VK_QUERY_TYPE_TIMESTAMP, []) (VULKAN_FRAME_CONTEXT_COUNT * 2));
  mret (MapVkResult result).

Definition DestroyTimestampQueryPool : C unit :=
  h ← get timestampQueryPool;
  unless_null h (destroy QueryPool h;; put (fun s => s <| timestampQueryPool := VK_NULL_HANDLE |>)).

Definition CreatePipelineCache : C ALResult :=
  d ← get device;
  result ← out (fun h s => s <| pipelineCache := h |>) (vkCreatePipelineCache d);
  mret (MapVkResult result).

Definition DestroyPipelineCache : C unit :=
  h ← get pipelineCache;
  unless_null h (destroy PipelineCache h;; put (fun s => s <| pipelineCache := VK_NULL_HANDLE |>)).

(** ** Choices *)

Fixpoint FindSupportedFormat (candidates : list VkFormat.type) (tiling : VkImageTiling)
    (features : Z) : C VkFormat.type :=
  match candidates with
  | [] => mret VK_FORMAT_UNDEFINED
  | format :: candidates =>
      pd ← get physicalDevice;
      props ← call (vkGetPhysicalDeviceFormatProperties pd format);
      let tilingFeatures :=
        match tiling with VK_IMAGE_TILING_LINEAR => props.1 | VK_IMAGE_TILING_OPTIMAL => props.2 end in
      if Z.land tilingFeatures features =? features then mret format
      else FindSupportedFormat candidates tiling features
  end.

Definition FindDepthFormat : C VkFormat.type :=
  FindSupportedFormat [VK_FORMAT_D32_SFLOAT; VK_FORMAT_D32_SFLOAT_S8_UINT;
    VK_FORMAT_D24_UNORM_S8_UINT] VK_IMAGE_TILING_OPTIMAL
    VK_FORMAT_FEATURE_DEPTH_STENCIL_ATTACHMENT_BIT.

Fixpoint find_memory_type (i typeFilter wanted : Z) (memoryTypes : list Z) : Z :=
  match memoryTypes with
  | [] => VK_MAX_MEMORY_TYPES
  | propertyFlags :: memoryTypes =>
      if Z.testbit typeFilter i && (Z.land propertyFlags wanted =? wanted) then i
      else find_memory_type (i + 1) typeFilter wanted memoryTypes
  end.

Definition FindMemoryType (typeFilter wanted : Z) : C Z :=
  types ← get memoryProperties;
  mret (find_memory_type 0 typeFilter wanted types).

Definition is_format (f : VkFormat.type) (format : VkSurfaceFormatKHR) : bool :=
  bool_decide (sf_format format = f) &&
  bool_decide (sf_colorSpace format = VK_COLOR_SPACE_SRGB_NONLINEAR_KHR).

Definition SelectSurfaceFormat (formats : list VkSurfaceFormatKHR) : VkSurfaceFormatKHR :=
  match List.find (is_format VK_FORMAT_B8G8R8A8_UNORM) formats with
  | Some format => format
  | None =>
      match List.find (is_format VK_FORMAT_B8G8R8A8_SRGB) formats with
      | Some format => format
      | None =>
          match formats with
          | [] => mkVkSurfaceFormatKHR VK_FORMAT_UNDEFINED VK_COLOR_SPACE_SRGB_NONLINEAR_KHR
          | format :: _ => format
          end
      end
  end.

Definition SelectPresentMode (interval : PresentInterval) (modes : list VkPresentModeKHR)
    : VkPresentModeKHR :=
  let preferred :=
    match interval with
    | PRESENT_INTERVAL_IMMEDIATE => VK_PRESENT_MODE_IMMEDIATE_KHR
    | _ => VK_PRESENT_MODE_FIFO_KHR
    end in
  match List.find (fun mode => bool_decide (mode = preferred)) modes with
  | Some mode => mode
  | None => VK_PRESENT_MODE_FIFO_KHR
  end.

(** [std::clamp]: undefined when the bounds cross. *)
Definition clamp (v lo hi : Z) : C Z :=
  if hi <? lo then wrong else mret (if v <? lo then lo else if hi <? v then hi else v).

Definition SelectExtent (caps : VkSurfaceCapabilitiesKHR) : C VkExtent2D :=
  if negb (extent_width (currentExtent caps) =? UINT32_MAX) then mret (currentExtent caps)
  else
    p ← get presentParameters;
    w ← clamp (mode_width p) (extent_width (minImageExtent caps)) (extent_width (maxImageExtent caps));
    h ← clamp (mode_height p) (extent_height (minImageExtent caps)) (extent_height (maxImageExtent caps));
    mret (mkVkExtent2D w h).

(** [CreateSwapchainInternal]: the number of images asked for. *)
Definition swapchain_image_count (caps : VkSurfaceCapabilitiesKHR) : Z :=
  let imageCount := u32 (minImageCount caps + 1) in
  if (0 <? maxImageCount caps) && (maxImageCount caps <? imageCount)
  then maxImageCount caps else imageCount.

(** The capabilities, the formats and the modes, which are output parameters. An
    early return leaves the caller too, whose [CR_RETURN_HR] would return the same
    result: the one result that is not a failure, that of [VK_SUBOPTIMAL_KHR], is
    not an answer of these functions. *)
Definition QuerySurfaceCapabilities
    : C (VkSurfaceCapabilitiesKHR * list VkSurfaceFormatKHR * list VkPresentModeKHR) :=
  s ← get id;
  caps ← VK_CHECK_value (vkGetPhysicalDeviceSurfaceCapabilitiesKHR (physicalDevice s) (surface s));
  formats ← enumerate (vkGetPhysicalDeviceSurfaceFormatsKHR (physicalDevice s) (surface s))
    (mkVkSurfaceFormatKHR VK_FORMAT_UNDEFINED VK_COLOR_SPACE_SRGB_NONLINEAR_KHR);
  modes ← enumerate (vkGetPhysicalDeviceSurfacePresentModesKHR (physicalDevice s) (surface s))
    VK_PRESENT_MODE_IMMEDIATE_KHR;
  mret (caps, formats.2, modes.2).

(** ** The swap chain *)

Definition CreateDepthResources : C ALResult := function (
  chosen ← FindDepthFormat;
  put_swapchain (fun w => w <| depthFormat := chosen |>);;
  s ← get id;
  result ← out (in_swapchain (fun p w =>
      w <| depthImage := p.1 |> <| depthAllocation := p.2 |>))
    (vmaCreateImage (allocator s)
      (mkVkImageCreateInfo [] VK_IMAGE_TYPE_2D (depthFormat (swapchain s))
        (mkVkExtent3D (extent_width (extent (swapchain s))) (extent_height (extent (swapchain s))) 1)
        1 1 1 [VK_IMAGE_USAGE_DEPTH_STENCIL_ATTACHMENT_BIT; VK_IMAGE_USAGE_TRANSFER_DST_BIT])
      (mkVmaAllocationCreateInfo None []));
  if negb (bool_decide (result = VK_SUCCESS)) then mret E_FAIL else
  put_swapchain (fun w => w <| depthLayout := VK_IMAGE_LAYOUT_UNDEFINED |>);;
  s ← get id;
  VK_CHECK (out (in_swapchain (fun h w => w <| depthView := h |>))
    (vkCreateImageView (device s) (mkVkImageViewCreateInfo (depthImage (swapchain s))
      VK_IMAGE_VIEW_TYPE_2D (depthFormat (swapchain s)) (whole_image VK_IMAGE_ASPECT_DEPTH_BIT))));;
  mret S_OK).

Definition DestroyDepthResources : C unit :=
  w ← get swapchain;
  unless_null (depthView w) (
    destroy ImageView (depthView w);;
    put_swapchain (fun w => w <| depthView := VK_NULL_HANDLE |>));;
  unless_null (depthImage w) (
    a ← get allocator;
    call (vmaDestroyImage a (depthImage w) (depthAllocation w));;
    put_swapchain (fun w => w <| depthImage := VK_NULL_HANDLE |>
      <| depthAllocation := VK_NULL_HANDLE |>)).

(** The calls [vkDestroyImageView] and the two [clear]s of [RecreateSwapchain] and
    [DestroySwapchain]. *)
Definition destroy_views : C unit :=
  w ← get swapchain;
  for_each (destroy ImageView) (imageViews w);;
  put_swapchain (fun w => w <| imageViews := [] |>);;
  put_swapchain (fun w => w <| images := [] |>).

(** One turn of the loop that creates the views. *)
Definition create_view (i : nat) : C unit :=
  s ← get id;
  match images (swapchain s) !! i, imageViews (swapchain s) !! i with
  | Some image, Some _ =>
      VK_CHECK (out (in_swapchain (fun h w => w <| imageViews ::= <[i := h]> |>))
        (vkCreateImageView (device s) (mkVkImageViewCreateInfo image VK_IMAGE_VIEW_TYPE_2D
          (format (swapchain s)) (whole_image VK_IMAGE_ASPECT_COLOR_BIT))))
  | _, _ => wrong
  end.

(** [vkGetSwapchainImagesKHR] with [imageCount] as its count, and the images it
    writes. *)
Definition get_swapchain_images (room : capacity) : C unit :=
  s ← get id;
  r ← call (vkGetSwapchainImagesKHR (device s) (swapchain_ (swapchain s)) room);
  put_swapchain (fun w => w <| imageCount := r.2.1 |>);;
  match room with
  | None => mret tt
  | Some _ => put_swapchain (fun w => w <| images ::= fun array => fill array r.2.2 |>)
  end;;
  VK_CHECK (mret r.1).

(** How the images are shared. With two families, [pQueueFamilyIndices] is the
    address of an array of a block that has ended when [vkCreateSwapchainKHR] reads
    it. *)
Definition sharing_mode : C VkSharingMode :=
  s ← get id;
  if graphicsFamily s =? presentFamily s then mret VK_SHARING_MODE_EXCLUSIVE else wrong.

(** [CreateSwapchainInternal] from the call that creates the swap chain. *)
Definition create_swapchain (caps : VkSurfaceCapabilitiesKHR) (chosen : VkExtent2D)
    (oldSwapchain : VkHandle) : C ALResult :=
  s ← get id;
  sharing ← sharing_mode;
  let createInfo := mkVkSwapchainCreateInfoKHR (surface s) (swapchain_image_count caps)
    (sf_format (surfaceFormat s)) (sf_colorSpace (surfaceFormat s)) chosen (currentTransform caps)
    (presentMode s) sharing oldSwapchain in
  result ← out (in_swapchain (fun h w => w <| swapchain_ := h |>))
    (vkCreateSwapchainKHR (device s) createInfo);
  if negb (bool_decide (result = VK_SUCCESS)) then mret E_FAIL else
  put_swapchain (fun w => w <| format := sf_format (surfaceFormat s) |>
    <| colorSpace := sf_colorSpace (surfaceFormat s) |> <| extent := chosen |>
    <| currentImageIndex := 0 |>);;
  get_swapchain_images None;;
  put_swapchain (fun w => w <| images ::= resize (imageCount w) VK_NULL_HANDLE |>);;
  count ← get (fun s => imageCount (swapchain s));
  get_swapchain_images (Some count);;
  put_swapchain (fun w => w <| imageViews ::= resize (imageCount w) VK_NULL_HANDLE |>);;
  count ← get (fun s => imageCount (swapchain s));
  for_each create_view (seq 0 count);;
  CR_RETURN_HR CreateDepthResources;;
  mret S_OK.

(** [CreateSwapchainInternal] when the window has no extent. *)
Definition suspend (chosen : VkExtent2D) (oldSwapchain : VkHandle) : C ALResult :=
  put_swapchain (fun w => w <| suspended := true |> <| extent := chosen |>
    <| imageCount := 0%nat |> <| images := [] |> <| imageViews := [] |>);;
  unless_null oldSwapchain (destroy SwapchainKHR oldSwapchain);;
  put_swapchain (fun w => w <| swapchain_ := VK_NULL_HANDLE |>);;
  mret S_OK.

Definition CreateSwapchainInternal (oldSwapchain : VkHandle) : C ALResult := function (
  q ← QuerySurfaceCapabilities;
  let '(caps, formats, modes) := q in
  put (fun s => s <| surfaceFormat := SelectSurfaceFormat formats |>);;
  put (fun s => s <| presentMode := SelectPresentMode (presentInterval (presentParameters s)) modes |>);;
  chosen ← SelectExtent caps;
  if (extent_width chosen =? 0) || (extent_height chosen =? 0)
  then suspend chosen oldSwapchain
  else
    put_swapchain (fun w => w <| suspended := false |>);;
    create_swapchain caps chosen oldSwapchain).

Definition CreateSwapchain : C ALResult := CreateSwapchainInternal VK_NULL_HANDLE.

Definition RecreateSwapchain : C ALResult :=
  WaitIdle;;
  oldSwapchain ← get (fun s => swapchain_ (swapchain s));
  DestroyDepthResources;;
  destroy_views;;
  result ← CreateSwapchainInternal oldSwapchain;
  current ← get (fun s => swapchain_ (swapchain s));
  if FAILED result then
    (if negb (current =? oldSwapchain) then destroy SwapchainKHR oldSwapchain else mret tt);;
    put_swapchain (fun w => w <| swapchain_ := VK_NULL_HANDLE |>);;
    mret result
  else
    (if negb (is_null current) && negb (current =? oldSwapchain)
     then destroy SwapchainKHR oldSwapchain else mret tt);;
    mret S_OK.

Definition DestroySwapchain : C unit :=
  DestroyDepthResources;;
  destroy_views;;
  h ← get (fun s => swapchain_ (swapchain s));
  unless_null h (
    destroy SwapchainKHR h;;
    put_swapchain (fun w => w <| swapchain_ := VK_NULL_HANDLE |>)).

Definition RecreateSurface : C ALResult := function (
  s ← get id;
  if windowless s || is_null (window s) then mret E_INVALIDCALL else
  put (fun s => s <| surfaceLossReason := "" |>);;
  WaitIdle;;
  DestroySwapchain;;
  DestroySurface;;
  CR_RETURN_HR (CreateSurface (window s));;
  CR_RETURN_HR (PickPhysicalDevice (deviceLostAdapter s) true);;
  CR_RETURN_HR RecreateSwapchain;;
  mret S_OK).

(** ** The frame contexts *)

Definition DESCRIPTOR_POOL_MAX_SETS : Z := 64.
Definition poolSizes : list (VkDescriptorType * Z) :=
  [(VK_DESCRIPTOR_TYPE_UNIFORM_BUFFER, 64); (VK_DESCRIPTOR_TYPE_COMBINED_IMAGE_SAMPLER, 64);
   (VK_DESCRIPTOR_TYPE_STORAGE_BUFFER, 64); (VK_DESCRIPTOR_TYPE_STORAGE_IMAGE, 64);
   (VK_DESCRIPTOR_TYPE_SAMPLER, 64)].

Definition create_frame_context (i : nat) : C unit :=
  s ← get id;
  let d := device s in
  VK_CHECK (out (in_frame i (fun h f => f <| commandPool := h |>))
    (vkCreateCommandPool d (graphicsFamily s)));;
  f ← frame_at i;
  VK_CHECK (out (in_frame i (fun h f => f <| commandBuffer := h |>))
    (vkAllocateCommandBuffers d (commandPool f)));;
  VK_CHECK (out (in_frame i (fun h f => f <| descriptorPool := h |>))
    (vkCreateDescriptorPool d DESCRIPTOR_POOL_MAX_SETS poolSizes));;
  VK_CHECK (out (in_frame i (fun h f => f <| acquireSemaphore := h |>)) (vkCreateSemaphore d false));;
  VK_CHECK (out (in_frame i (fun h f => f <| renderFinishedSemaphore := h |>))
    (vkCreateSemaphore d false));;
  VK_CHECK (out (in_frame i (fun h f => f <| timelineSemaphore := h |>)) (vkCreateSemaphore d true));;
  VK_CHECK (out (in_frame i (fun h f => f <| inFlightFence := h |>)) (vkCreateFence d true)).

Definition CreateFrameContexts : C ALResult := function (
  for_each create_frame_context (seq 0 (Z.to_nat VULKAN_FRAME_CONTEXT_COUNT));;
  mret S_OK).

(** [if( frame.x != VK_NULL_HANDLE ) { vkDestroyX( ... ); frame.x = VK_NULL_HANDLE; }] *)
Definition destroy_member (i : nat) (kind : object_kind) (member : VulkanFrameContext -> VkHandle)
    (set : VkHandle -> VulkanFrameContext -> VulkanFrameContext) : C unit :=
  f ← frame_at i;
  unless_null (member f) (destroy kind (member f);; put (in_frame i set VK_NULL_HANDLE)).

Definition destroy_frame_context (i : nat) : C unit :=
  destroy_member i Fence inFlightFence (fun h f => f <| inFlightFence := h |>);;
  destroy_member i Semaphore timelineSemaphore (fun h f => f <| timelineSemaphore := h |>);;
  destroy_member i Semaphore renderFinishedSemaphore (fun h f => f <| renderFinishedSemaphore := h |>);;
  destroy_member i Semaphore acquireSemaphore (fun h f => f <| acquireSemaphore := h |>);;
  destroy_member i DescriptorPool descriptorPool (fun h f => f <| descriptorPool := h |>);;
  destroy_member i CommandPool commandPool (fun h f => f <| commandPool := h |>).

Definition DestroyFrameContexts : C unit :=
  for_each destroy_frame_context (seq 0 (Z.to_nat VULKAN_FRAME_CONTEXT_COUNT)).

(** ** Creation and destruction of the whole *)

Definition CreateDevice (adapter : Z) (w : VkHandle) (params : Tr2PresentParametersAL) : C ALResult :=
  function (
    put (fun s => s <| window := w |> <| presentParameters := params |>
      <| windowless := is_null w |> <| deviceLostAdapter := adapter |>);;
    s ← get id;
    (if is_null (surface s) && negb (windowless s) then CR_RETURN_HR (CreateSurface w) else mret tt);;
    CR_RETURN_HR (PickPhysicalDevice adapter (negb (windowless s)));;
    CR_RETURN_HR CreateLogicalDevice;;
    CR_RETURN_HR CreateAllocator;;
    CR_RETURN_HR CreatePipelineCache;;
    CR_RETURN_HR CreateTimestampQueryPool;;
    (if windowless s then mret tt else CR_RETURN_HR CreateSwapchain);;
    CR_RETURN_HR CreateFrameContexts;;
    mret S_OK).

Definition DestroyDevice : C unit :=
  d ← get device;
  if is_null d then mret tt
  else
    DestroyTimestampQueryPool;;
    DestroyPipelineCache;;
    a ← get allocator;
    unless_null a (
      call (vkDestroy Allocator VK_NULL_HANDLE a);;
      put (fun s => s <| allocator := VK_NULL_HANDLE |>));;
    call (vkDestroy Device VK_NULL_HANDLE d);;
    put (fun s => s <| device := VK_NULL_HANDLE |> <| physicalDevice := VK_NULL_HANDLE |>
      <| graphicsQueue := VK_NULL_HANDLE |> <| presentQueue := VK_NULL_HANDLE |>).

Definition DestroyInstance : C unit :=
  DestroyDebugMessenger;;
  DestroySurface;;
  i ← get instance;
  unless_null i (
    call (vkDestroy Instance VK_NULL_HANDLE i);;
    put (fun s => s <| instance := VK_NULL_HANDLE |>)).

Definition Destroy : C unit :=
  WaitIdle;;
  DrainDeferred UINT64_MAX;;
  DestroyFrameContexts;;
  DestroySwapchain;;
  DestroyDevice;;
  DestroyInstance.

(** ** The frame *)

Definition current_frame : C VulkanFrameContext :=
  i ← get frameIndex; frame_at (Z.to_nat i).

Definition GatherDeviceFaultData : C unit :=
  s ← get id;
  if negb (deviceFaultEnabled s) || is_null (device s) then mret tt else
  getFaultDataFn ← call (vkGetDeviceProcAddr (device s) "vkGetDeviceFaultInfoEXT");
  if negb getFaultDataFn then mret tt else
  first ← call (vkGetDeviceFaultInfoEXT (device s) (mkVkDeviceFaultCountsEXT 0 0 0) false);
  let counts := first.2 in
  if negb (bool_decide (first.1 = VK_SUCCESS)) || ((addressInfoCount counts =? 0) &&
    (vendorInfoCount counts =? 0) && (vendorBinarySize counts =? 0)) then mret tt else
  second ← call (vkGetDeviceFaultInfoEXT (device s) counts true);
  if negb (bool_decide (second.1 = VK_SUCCESS)) then mret tt else
  if (addressInfoCount counts <? addressInfoCount second.2) ||
    (vendorInfoCount counts <? vendorInfoCount second.2) then wrong else mret tt.

(** What the functions of a frame do when the device is lost. *)
Definition device_lost : C ALResult :=
  put (fun s => s <| deviceLost := true |>);; GatherDeviceFaultData;; mret E_DEVICELOST.

(** [vkResetCommandPool] and [vkBeginCommandBuffer], as [BeginFrame] has them at
    each of its ends. *)
Definition begin_recording (frame : VulkanFrameContext) : C unit :=
  d ← get device;
  VK_CHECK (call (vkResetCommandPool d (commandPool frame)));;
  VK_CHECK (call (vkBeginCommandBuffer (commandBuffer frame))).

Definition is_suspended : C bool := get (fun s => suspended (swapchain s)).

Definition acquire_image (frame : VulkanFrameContext) : C VkResult :=
  s ← get id;
  out (in_swapchain (fun i w => w <| currentImageIndex := i |>))
    (vkAcquireNextImageKHR (device s) (swapchain_ (swapchain s)) (acquireSemaphore frame)).

(** The part of [BeginFrame] that runs while the swap chain is suspended. *)
Definition resume_suspended (frame : VulkanFrameContext) : C unit :=
  let still_suspended : C unit :=
    b ← is_suspended; if (b : bool) then begin_recording frame;; early S_OK else mret tt in
  s ← get id;
  caps ← call (vkGetPhysicalDeviceSurfaceCapabilitiesKHR (physicalDevice s) (surface s));
  if bool_decide (caps.1 = VK_ERROR_SURFACE_LOST_KHR) then
    put (fun s => s <| surfaceLossReason := "surface caps returned VK_ERROR_SURFACE_LOST_KHR" |>);;
    CR_RETURN_HR RecreateSurface;;
    still_suspended
  else if bool_decide (caps.1 = VK_SUCCESS) && negb (extent_width (currentExtent caps.2) =? 0) &&
    negb (extent_height (currentExtent caps.2) =? 0) then
    CR_RETURN_HR RecreateSwapchain;;
    still_suspended
  else (begin_recording frame;; early S_OK).

(** A failed [vkAcquireNextImageKHR] whose cause [recreate] removes: the image is
    acquired again unless the swap chain is suspended by then. *)
Definition acquire_again (recreate : C ALResult) (frame : VulkanFrameContext) : C VkResult :=
  CR_RETURN_HR recreate;;
  b ← is_suspended;
  if (b : bool) then early S_OK else acquire_image frame.

Definition BeginFrame : C ALResult := function (
  frame ← current_frame;
  s ← get id;
  if deviceLost s then mret E_DEVICELOST else
  (if negb (str_empty (surfaceLossReason s)) && negb (is_null (swapchain_ (swapchain s)))
   then CR_RETURN_HR RecreateSurface else mret tt);;
  VK_CHECK (call (vkWaitForFences (device s) (inFlightFence frame)));;
  completedValue ← VK_CHECK_value (vkGetSemaphoreCounterValue (device s) (timelineSemaphore frame));
  DrainDeferred completedValue;;
  b ← is_suspended;
  (if (b : bool) then resume_suspended frame else mret tt);;
  acquireResult ← acquire_image frame;
  acquireResult ← (
    if bool_decide (acquireResult = VK_ERROR_OUT_OF_DATE_KHR \/ acquireResult = VK_SUBOPTIMAL_KHR)
    then acquire_again RecreateSwapchain frame else mret acquireResult);
  acquireResult ← (
    if bool_decide (acquireResult = VK_ERROR_SURFACE_LOST_KHR) then
      put (fun s => s <| surfaceLossReason := "acquire returned VK_ERROR_SURFACE_LOST_KHR" |>);;
      acquire_again RecreateSurface frame
    else mret acquireResult);
  if bool_decide (acquireResult = VK_ERROR_DEVICE_LOST) then device_lost
  else if negb (bool_decide (acquireResult = VK_SUCCESS)) then mret E_FAIL
  else
    VK_CHECK (call (vkResetFences (device s) (inFlightFence frame)));;
    begin_recording frame;;
    mret S_OK).

Definition EndFrame : C ALResult := function (
  frame ← current_frame;
  s ← get id;
  if suspended (swapchain s) then
    VK_CHECK (call (vkResetCommandPool (device s) (commandPool frame)));;
    put (fun s => s <| frameNumber ::= fun n => u64 (n + 1) |>);;
    mret S_OK
  else
    VK_CHECK (call (vkEndCommandBuffer (commandBuffer frame)));;
    let value := u64 (timelineValue frame + 1) in
    put (in_frame (Z.to_nat (frameIndex s)) (fun v f => f <| timelineValue := v |>) value);;
    let submitInfo := mkVkSubmitInfo2 (acquireSemaphore frame) (commandBuffer frame)
      (renderFinishedSemaphore frame) (timelineSemaphore frame) value in
    result ← call (vkQueueSubmit2 (graphicsQueue s) submitInfo (inFlightFence frame));
    if bool_decide (result = VK_ERROR_DEVICE_LOST) then device_lost
    else if negb (bool_decide (result = VK_SUCCESS)) then mret E_FAIL
    else put (fun s => s <| frameNumber ::= fun n => u64 (n + 1) |>);; mret S_OK).

Definition next_frame : C unit :=
  put (fun s => s <| frameIndex ::= fun i => u32 (i + 1) mod VULKAN_FRAME_CONTEXT_COUNT |>).

Definition Present : C ALResult := function (
  s ← get id;
  if suspended (swapchain s) then next_frame;; mret S_OK
  else
    frame ← current_frame;
    result ← call (vkQueuePresentKHR (presentQueue s) (swapchain_ (swapchain s))
      (currentImageIndex (swapchain s)) (renderFinishedSemaphore frame));
    put (fun s => s <| renderedFrameNumber := frameNumber s |>);;
    put (fun s => s <| lastPresentedImageIndex := currentImageIndex (swapchain s) |>);;
    if bool_decide (result = VK_ERROR_OUT_OF_DATE_KHR \/ result = VK_SUBOPTIMAL_KHR)
    then next_frame;; mret S_OK
    else if bool_decide (result = VK_ERROR_SURFACE_LOST_KHR) then
      put (fun s => s <| surfaceLossReason := "present returned VK_ERROR_SURFACE_LOST_KHR" |>);;
      next_frame;; mret S_OK
    else if bool_decide (result = VK_ERROR_DEVICE_LOST) then device_lost
    else if negb (bool_decide (result = VK_SUCCESS)) then mret E_FAIL
    else next_frame;; mret S_OK).

(** ** Accessors *)

Definition GetCurrentCommandBuffer : C VkHandle := f ← current_frame; mret (commandBuffer f).
Definition GetCurrentDescriptorPool : C VkHandle := f ← current_frame; mret (descriptorPool f).
Definition GetCurrentTimelineValue : C Z := f ← current_frame; mret (timelineValue f).
Definition GetCurrentImageIndex : C Z := get (fun s => currentImageIndex (swapchain s)).
Definition GetLastPresentedImageIndex : C Z := get lastPresentedImageIndex.

Definition SetVulkanObjectName (device objectHandle type : Z) (name : option string) : C unit :=
  match name with
  | None => mret tt
  | Some name =>
      if is_null device || (objectHandle =? 0) then mret tt else
      setFn ← call (vkGetDeviceProcAddr device "vkSetDebugUtilsObjectNameEXT");
      if (setFn : bool) then call (vkSetDebugUtilsObjectNameEXT device objectHandle type name)
      else mret tt
  end.

End context.
