(* ===== verification/VulkanUsage.v ===== *)
(** * What Vulkan asks of its callers

    The rules of the Vulkan specification on fences, binary semaphores, command
    buffers and swap chains, as an automaton over the calls made: [check] takes the
    state of these objects through one call and is undefined where the call breaks
    a rule or would wait for ever. [Valid] usage is a sequence of calls it accepts.
    The laws of a driver, and what code leaves alone, follow. *)

From stdpp Require Import base numbers list option strings gmap fin_maps sets.
From S2P Require Import Prelude RenderGraph VulkanFormats Vulkan VulkanContext.

#[local] Open Scope Z_scope.

(** ** The automaton *)

(** A fence is pending from the submission of a command buffer to its completion. *)
Inductive fence_state := Unsignaled | Pending (buffer : VkHandle) | Signaled.
Inductive semaphore_state := Binary (signaled : bool) | Timeline.
Inductive buffer_state := Initial | Recording | Executable | InFlight.

#[export] Instance fence_state_eq_dec : EqDecision fence_state.
Proof. solve_decision. Defined.
#[export] Instance semaphore_state_eq_dec : EqDecision semaphore_state.
Proof. solve_decision. Defined.
#[export] Instance buffer_state_eq_dec : EqDecision buffer_state.
Proof. solve_decision. Defined.

(** The objects alive with their states, the pool of each command buffer, and the
    images acquired from each swap chain. *)
Record gpu := mkGpu
  { fences : gmap VkHandle fence_state; semaphores : gmap VkHandle semaphore_state;
    pools : gset VkHandle; buffers : gmap VkHandle (VkHandle * buffer_state);
    swapchains : gset VkHandle; acquired : gset (VkHandle * Z) }.

#[export] Instance gpu_eta : Eta gpu := fun g =>
  mkGpu (fences g) (semaphores g) (pools g) (buffers g) (swapchains g) (acquired g).

Definition new_gpu : gpu := mkGpu ∅ ∅ ∅ ∅ ∅ ∅.

Definition is_pending (s : fence_state) : bool := match s with Pending _ => true | _ => false end.
Definition in_flight (s : buffer_state) : bool := match s with InFlight => true | _ => false end.

(** Nothing is pending. *)
Definition idle (g : gpu) : Prop := map_Forall (fun _ s => is_pending s = false) (fences g).
#[export] Instance idle_dec g : Decision (idle g).
Proof. unfold idle. apply _. Defined.

(** No command buffer of the pool is executing. *)
Definition pool_idle (g : gpu) (pool : VkHandle) : Prop :=
  map_Forall (fun _ (b : VkHandle * buffer_state) => b.1 = pool -> in_flight b.2 = false) (buffers g).
#[export] Instance pool_idle_dec g pool : Decision (pool_idle g pool).
Proof. unfold pool_idle. apply _. Defined.

(** What was submitted with a fence completes. *)
Definition finish_fence (s : fence_state) : fence_state :=
  match s with Pending _ => Signaled | s => s end.
Definition finish_buffer (b : VkHandle * buffer_state) : VkHandle * buffer_state :=
  if in_flight b.2 then (b.1, Initial) else b.

Definition complete_all (g : gpu) : gpu :=
  g <| fences ::= fmap finish_fence |> <| buffers ::= fmap finish_buffer |>.
Definition complete (fence : VkHandle) (g : gpu) : gpu :=
  match fences g !! fence with
  | Some (Pending buffer) =>
      g <| fences ::= insert fence Signaled |> <| buffers ::= alter finish_buffer buffer |>
  | _ => g
  end.

(** What a creation adds. *)
Definition add_created (r : created) (add : VkHandle -> gpu -> gpu) (g : gpu) : gpu :=
  match r with (VK_SUCCESS, Some h) => add h g | _ => g end.

(** The image that [vkQueuePresentKHR] was given is released, and its semaphore
    waited for, by every result that means that the request was queued. *)
Definition present_queued (result : VkResult) : bool :=
  match result with
  | VK_SUCCESS | VK_SUBOPTIMAL_KHR | VK_ERROR_OUT_OF_DATE_KHR | VK_ERROR_SURFACE_LOST_KHR => true
  | _ => false
  end.

Definition succeeded (result : VkResult) : bool := bool_decide (result = VK_SUCCESS).

Definition when (b : bool) (f : gpu -> gpu) (g : gpu) : gpu := if b then f g else g.

(** Destruction: a fence, a pool or a swap chain must not be in use, and no swap
    chain may be left when the surface goes. *)
Definition check_destroy (g : gpu) (kind : object_kind) (h : VkHandle) : option gpu :=
  if is_null h then Some g else
  match kind with
  | Fence =>
      s ← fences g !! h; guard (is_pending s = false);; Some (g <| fences ::= delete h |>)
  | Semaphore =>
      s ← semaphores g !! h; guard (idle g);; Some (g <| semaphores ::= delete h |>)
  | CommandPool =>
      guard (h ∈ pools g);; guard (pool_idle g h);;
      Some (g <| pools ::= fun ps => ps ∖ {[h]} |>
        <| buffers ::= filter (fun b => b.2.1 <> h) |>)
  | SwapchainKHR =>
      guard (h ∈ swapchains g);; guard (idle g);;
      Some (g <| swapchains ::= fun cs => cs ∖ {[h]} |>
        <| acquired ::= filter (fun a => a.1 <> h) |>)
  | SurfaceKHR => guard (swapchains g = ∅);; Some g
  | _ => Some g
  end.

(** A submission: the command buffer has been recorded, the semaphore it waits
    for will be signaled, that which it signals is not, and its fence is free. *)
Definition check_submit (g : gpu) (info : VkSubmitInfo2) (fence : VkHandle) (result : VkResult)
    : option gpu :=
  b ← buffers g !! si_commandBuffer info;
  guard (b.2 = Executable);;
  guard (semaphores g !! si_waitSemaphore info = Some (Binary true));;
  guard (semaphores g !! si_signalSemaphore info = Some (Binary false));;
  guard (semaphores g !! si_timelineSemaphore info = Some Timeline);;
  guard (fences g !! fence = Some Unsignaled);;
  Some (when (succeeded result) (fun g =>
    g <| buffers ::= insert (si_commandBuffer info) (b.1, InFlight) |>
      <| semaphores ::= fun m =>
           <[si_signalSemaphore info := Binary true]> (<[si_waitSemaphore info := Binary false]> m) |>
      <| fences ::= insert fence (Pending (si_commandBuffer info)) |>) g).

Definition check (g : gpu) (e : event) : option gpu :=
  match ev_call e in vk A return A -> option gpu with
  | vkCreateFence _ signaled => fun r => Some (add_created r (fun h g =>
      g <| fences ::= insert h (if signaled then Signaled else Unsignaled) |>) g)
  | vkCreateSemaphore _ timeline => fun r => Some (add_created r (fun h g =>
      g <| semaphores ::= insert h (if timeline then Timeline else Binary false) |>) g)
  | vkCreateCommandPool _ _ => fun r => Some (add_created r (fun h g =>
      g <| pools ::= fun ps => {[h]} ∪ ps |>) g)
  | vkAllocateCommandBuffers _ pool => fun r =>
      guard (pool ∈ pools g);;
      Some (add_created r (fun h g => g <| buffers ::= insert h (pool, Initial) |>) g)
  | vkCreateSwapchainKHR _ info => fun r =>
      guard (sci_oldSwapchain info = VK_NULL_HANDLE \/ sci_oldSwapchain info ∈ swapchains g);;
      Some (add_created r (fun h g => g <| swapchains ::= fun cs => {[h]} ∪ cs |>) g)
  | vkDestroy kind _ h => fun _ => check_destroy g kind h
  | vkDeviceWaitIdle _ => fun result => Some (when (succeeded result) complete_all g)
  | vkWaitForFences _ fence => fun result =>
      s ← fences g !! fence;
      guard (s <> Unsignaled);;
      Some (when (succeeded result) (complete fence) g)
  | vkResetFences _ fence => fun result =>
      s ← fences g !! fence;
      guard (is_pending s = false);;
      Some (when (succeeded result) (fun g => g <| fences ::= insert fence Unsignaled |>) g)
  | vkGetSemaphoreCounterValue _ semaphore => fun _ =>
      guard (semaphores g !! semaphore = Some Timeline);; Some g
  | vkQueueSubmitSignal _ semaphore _ => fun _ =>
      guard (semaphores g !! semaphore = Some Timeline);; Some g
  | vkWaitSemaphores _ semaphore _ => fun _ =>
      guard (semaphores g !! semaphore = Some Timeline);; Some g
  | vkResetCommandPool _ pool => fun result =>
      guard (pool ∈ pools g);; guard (pool_idle g pool);;
      Some (when (succeeded result) (fun g => g <| buffers ::= fmap (fun b : VkHandle * buffer_state =>
        if bool_decide (b.1 = pool) then (pool, Initial) else b) |>) g)
  | vkBeginCommandBuffer buffer => fun result =>
      b ← buffers g !! buffer;
      guard (b.2 = Initial);;
      Some (when (succeeded result) (fun g => g <| buffers ::= insert buffer (b.1, Recording) |>) g)
  | vkEndCommandBuffer buffer => fun result =>
      b ← buffers g !! buffer;
      guard (b.2 = Recording);;
      Some (when (succeeded result) (fun g => g <| buffers ::= insert buffer (b.1, Executable) |>) g)
  | vkAcquireNextImageKHR _ swapchain semaphore => fun r =>
      guard (swapchain ∈ swapchains g);;
      guard (semaphores g !! semaphore = Some (Binary false));;
      Some (match r with
        | (VK_SUCCESS, Some i) | (VK_SUBOPTIMAL_KHR, Some i) =>
            g <| semaphores ::= insert semaphore (Binary true) |>
              <| acquired ::= fun imgs => {[(swapchain, i)]} ∪ imgs |>
        | _ => g
        end)
  | vkQueueSubmit2 _ info fence => fun result => check_submit g info fence result
  | vkQueuePresentKHR _ swapchain image semaphore => fun result =>
      guard ((swapchain, image) ∈ acquired g);;
      guard (semaphores g !! semaphore = Some (Binary true));;
      Some (when (present_queued result) (fun g =>
        g <| semaphores ::= insert semaphore (Binary false) |>
          <| acquired ::= fun imgs => imgs ∖ {[(swapchain, image)]} |>) g)
  | vkGetSwapchainImagesKHR _ swapchain _ => fun _ => guard (swapchain ∈ swapchains g);; Some g
  | _ => fun _ => Some g
  end (ev_answer e).

(** The objects after the calls made, the latest first. *)
Fixpoint usage (calls : list event) : option gpu :=
  match calls with
  | [] => Some new_gpu
  | e :: earlier => g ← usage earlier; check g e
  end.

Definition valid (calls : list event) : Prop := is_Some (usage calls).

(** ** Laws of a driver

    Handles are new among the objects alive and not null, an acquisition that
    succeeds says which image, only the two functions of presentation answer
    [VK_SUBOPTIMAL_KHR], an enumeration does not write more than there is room
    for, and the extents of a surface are an interval. *)

(** The result of a call that can answer no other success than [VK_SUCCESS], as
    only those of presentation can. *)
Definition reports {A} (c : vk A) : A -> option VkResult :=
  match c in vk A return A -> option VkResult with
  | vkEnumerateInstanceLayerProperties _ => fun r => Some r.1
  | vkEnumerateInstanceExtensionProperties _ => fun r => Some r.1
  | vkCreateInstance _ _ => fun r => Some r.1
  | vkCreateDebugUtilsMessengerEXT _ => fun r => Some r.1
  | vkCreateWin32SurfaceKHR _ _ => fun r => Some r.1
  | vkEnumeratePhysicalDevices _ _ => fun r => Some r.1
  | vkEnumerateDeviceExtensionProperties _ _ => fun r => Some r.1
  | vkGetPhysicalDeviceSurfaceSupportKHR _ _ _ => fun r => Some r.1
  | vkCreateDevice _ _ => fun r => Some r.1
  | vmaCreateAllocator _ _ _ => fun r => Some r.1
  | vkCreatePipelineCache _ => fun r => Some r.1
  | vkCreateQueryPool _ _ _ => fun r => Some r.1
  | vkGetPhysicalDeviceSurfaceCapabilitiesKHR _ _ => fun r => Some r.1
  | vkGetPhysicalDeviceSurfaceFormatsKHR _ _ _ => fun r => Some r.1
  | vkGetPhysicalDeviceSurfacePresentModesKHR _ _ _ => fun r => Some r.1
  | vkCreateSwapchainKHR _ _ => fun r => Some r.1
  | vkGetSwapchainImagesKHR _ _ _ => fun r => Some r.1
  | vkCreateImageView _ _ => fun r => Some r.1
  | vmaCreateImage _ _ _ => fun r => Some r.1
  | vmaCreateBuffer _ _ _ => fun r => Some r.1
  | vmaMapMemory _ _ => fun r => Some r.1
  | vkGetQueryPoolResults _ _ _ _ _ _ => fun r => Some r.1
  | vkQueueSubmitSignal _ _ _ => fun r => Some r
  | vkWaitSemaphores _ _ _ => fun r => Some r
  | vkCreateCommandPool _ _ => fun r => Some r.1
  | vkAllocateCommandBuffers _ _ => fun r => Some r.1
  | vkCreateDescriptorPool _ _ _ => fun r => Some r.1
  | vkCreateSemaphore _ _ => fun r => Some r.1
  | vkCreateFence _ _ => fun r => Some r.1
  | vkWaitForFences _ _ => fun r => Some r
  | vkResetFences _ _ => fun r => Some r
  | vkGetSemaphoreCounterValue _ _ => fun r => Some r.1
  | vkResetCommandPool _ _ => fun r => Some r
  | vkBeginCommandBuffer _ => fun r => Some r
  | vkEndCommandBuffer _ => fun r => Some r
  | vkQueueSubmit2 _ _ _ => fun r => Some r
  | _ => fun _ => None
  end.

Definition new_in (alive : gset VkHandle) (r : created) : Prop :=
  r.1 = VK_SUCCESS -> exists h, r.2 = Some h /\ h <> VK_NULL_HANDLE /\ h ∉ alive.

Class DriverLaws `{Driver} := {
  fence_new tr g d s : usage tr = Some g -> new_in (dom (fences g)) (answer tr (vkCreateFence d s));
  semaphore_new tr g d t :
    usage tr = Some g -> new_in (dom (semaphores g)) (answer tr (vkCreateSemaphore d t));
  pool_new tr g d q : usage tr = Some g -> new_in (pools g) (answer tr (vkCreateCommandPool d q));
  buffer_new tr g d p :
    usage tr = Some g -> new_in (dom (buffers g)) (answer tr (vkAllocateCommandBuffers d p));
  swapchain_new tr g d info :
    usage tr = Some g -> new_in (swapchains g) (answer tr (vkCreateSwapchainKHR d info));
  device_new tr d info : new_in ∅ (answer tr (vkCreateDevice d info));
  image_given tr d sc sem :
    (answer tr (vkAcquireNextImageKHR d sc sem)).1 = VK_SUCCESS ->
    exists i, (answer tr (vkAcquireNextImageKHR d sc sem)).2 = Some i;
  optimal tr A (c : vk A) : reports c (answer tr c) <> Some VK_SUBOPTIMAL_KHR;
  devices_room tr i n : ((answer tr (vkEnumeratePhysicalDevices i (Some n))).2.1 <= n)%nat;
  families_room tr d n :
    ((answer tr (vkGetPhysicalDeviceQueueFamilyProperties d (Some n))).1 <= n)%nat;
  images_room tr d sc n : ((answer tr (vkGetSwapchainImagesKHR d sc (Some n))).2.1 <= n)%nat;
  faults_room tr d c :
    addressInfoCount (answer tr (vkGetDeviceFaultInfoEXT d c true)).2 <= addressInfoCount c /\
    vendorInfoCount (answer tr (vkGetDeviceFaultInfoEXT d c true)).2 <= vendorInfoCount c;
  extents tr d s (caps := (answer tr (vkGetPhysicalDeviceSurfaceCapabilitiesKHR d s)).2) :
    extent_width (minImageExtent caps) <= extent_width (maxImageExtent caps) /\
    extent_height (minImageExtent caps) <= extent_height (maxImageExtent caps) }.

(** ** Reasoning about code

    [runs m Q R w]: from [w], [m] does nothing undefined, [Q] holds where it goes
    on, and [R] where it leaves the function. *)
Definition runs {S A} (m : Code S A) (Q : A -> world S -> Prop) (R : ALResult -> world S -> Prop)
    (w : world S) : Prop :=
  match m w with
  | (Next a, w') => Q a w'
  | (Return hr, w') => R hr w'
  | (Wrong, _) => False
  end.

Arguments runs {S A} m Q R w : simpl never.

Section runs.
Context `{Driver} {S : Type}.
Implicit Types (w : world S) (R : ALResult -> world S -> Prop).

Lemma runs_ret {A} (a : A) Q R w : Q a w -> runs (mret a) Q R w.
Proof. done. Qed.

Lemma runs_bind {A B} (m : Code S A) (k : A -> Code S B) Q R w :
  runs m (fun a => runs (k a) Q R) R w -> runs (m ≫= k) Q R w.
Proof. unfold runs, mbind, Code_bind. by destruct (m w) as [[a|hr|] w']. Qed.

Lemma runs_early {A} hr (Q : A -> world S -> Prop) R w : R hr w -> runs (early hr) Q R w.
Proof. done. Qed.

Lemma runs_this {A} (f : S -> A) Q R w : Q (f (object w)) w -> runs (this f) Q R w.
Proof. done. Qed.

Lemma runs_update (f : S -> S) Q R w :
  Q tt (mkWorld (f (object w)) (trace w)) -> runs (update f) Q R w.
Proof. done. Qed.

Lemma runs_call {A} (c : vk A) Q R w :
  (forall a, a = answer (trace w) c -> Q a (mkWorld (object w) (Event c a :: trace w))) ->
  runs (call c) Q R w.
Proof. intros HQ. by apply HQ. Qed.

Lemma runs_call_out {A} (set : A -> S -> S) c Q R w :
  (forall r o, (r, o) = answer (trace w) c ->
     Q r (mkWorld (match o with Some a => set a (object w) | None => object w end)
            (Event c (r, o) :: trace w))) ->
  runs (call_out set c) Q R w.
Proof.
  intros HQ. unfold call_out. apply runs_bind, runs_call. intros [r o] Ha.
  specialize (HQ r o Ha). by destruct o.
Qed.

Lemma runs_function (m : Code S ALResult) Q R w :
  runs m Q (fun hr => Q hr) w -> runs (function m) Q R w.
Proof. unfold runs, function. by destruct (m w) as [[a|hr|] w']. Qed.

Lemma runs_CR_RETURN_HR (m : Code S ALResult) Q R w :
  runs m (fun hr w => if FAILED hr then R hr w else Q tt w) R w -> runs (CR_RETURN_HR m) Q R w.
Proof.
  intros Hm. apply runs_bind. revert Hm. unfold runs at 1 2.
  destruct (m w) as [[hr|hr|] w']; [|done..]. by destruct (FAILED hr).
Qed.

Lemma runs_VK_CHECK (m : Code S VkResult) Q R w :
  runs m (fun r w => if bool_decide (r = VK_SUCCESS) then Q tt w else R (MapVkResult r) w) R w ->
  runs (VK_CHECK m) Q R w.
Proof.
  intros Hm. apply runs_bind. revert Hm. unfold runs at 1 2.
  destruct (m w) as [[r|hr|] w']; [|done..]. by destruct (bool_decide _).
Qed.

Lemma runs_mono {A} (m : Code S A) (Q Q' : A -> world S -> Prop) R R' w :
  runs m Q R w -> (forall a w', Q a w' -> Q' a w') -> (forall hr w', R hr w' -> R' hr w') ->
  runs m Q' R' w.
Proof. unfold runs. destruct (m w) as [[a|hr|] w']; naive_solver. Qed.

Lemma runs_conj {A} (m : Code S A) (Q Q' : A -> world S -> Prop) R R' w :
  runs m Q R w -> runs m Q' R' w -> runs m (fun a v => Q a v /\ Q' a v) (fun hr v => R hr v /\ R' hr v) w.
Proof. unfold runs. by destruct (m w) as [[a|hr|] w']. Qed.
End runs.

Lemma MapVkResult_fails r : r <> VK_SUCCESS -> r <> VK_SUBOPTIMAL_KHR -> MapVkResult r <> S_OK.
Proof. by destruct r. Qed.

(** A call whose answer is, or starts with, a result that it reports. *)
Definition checked (c : vk VkResult) : Prop := forall r, reports c r = Some r.
Definition checked_value {A} (c : vk (VkResult * A)) : Prop := forall r, reports c r = Some r.1.

Section checked.
Context `{DriverLaws} {S : Type}.
Implicit Types (w : world S) (R : ALResult -> world S -> Prop).

(** [VK_CHECK] of a call leaves the function only with a failure. *)
Lemma runs_VK_CHECK_call (c : vk VkResult) Q R w :
  checked c ->
  (answer (trace w) c = VK_SUCCESS -> Q tt (mkWorld (object w) (Event c VK_SUCCESS :: trace w))) ->
  (forall r hr, r = answer (trace w) c -> r <> VK_SUCCESS -> hr <> S_OK ->
     R hr (mkWorld (object w) (Event c r :: trace w))) ->
  runs (VK_CHECK (call c)) Q R w.
Proof.
  intros Hc HQ HR. apply runs_VK_CHECK, runs_call. intros r Hr. case_bool_decide as Hs.
  - subst r. rewrite Hs. by apply HQ.
  - apply HR; [done|done|]. apply MapVkResult_fails; [done|]. subst r. intros E. apply (optimal (trace w) _ c). rewrite Hc. by f_equal.
Qed.

Lemma runs_VK_CHECK_value {A} (c : vk (VkResult * A)) Q R w :
  checked_value c ->
  (forall a, (VK_SUCCESS, a) = answer (trace w) c ->
     Q a (mkWorld (object w) (Event c (VK_SUCCESS, a) :: trace w))) ->
  (forall r hr, r = answer (trace w) c -> hr <> S_OK ->
     R hr (mkWorld (object w) (Event c r :: trace w))) ->
  runs (VK_CHECK_value c) Q R w.
Proof.
  intros Hc HQ HR. apply runs_bind, runs_call. intros [r a] Hr.
  apply runs_bind, runs_VK_CHECK, runs_ret. cbn [fst snd]. case_bool_decide as Hs.
  - apply runs_ret. subst r. by apply HQ.
  - apply HR; [done|]. apply MapVkResult_fails; [done|].
    intros E. apply (optimal (trace w) _ c). rewrite Hc, <- Hr. by rewrite E.
Qed.

Lemma runs_VK_CHECK_out {A} (set : A -> S -> S) (c : vk (VkResult * option A)) Q R w :
  checked_value c ->
  (forall o, (VK_SUCCESS, o) = answer (trace w) c ->
     Q tt (mkWorld (match o with Some a => set a (object w) | None => object w end)
            (Event c (VK_SUCCESS, o) :: trace w))) ->
  (forall r o hr, (r, o) = answer (trace w) c -> r <> VK_SUCCESS -> hr <> S_OK ->
     R hr (mkWorld (match o with Some a => set a (object w) | None => object w end)
            (Event c (r, o) :: trace w))) ->
  runs (VK_CHECK (call_out set c)) Q R w.
Proof.
  intros Hc HQ HR. apply runs_VK_CHECK, runs_call_out. intros r o Hr. case_bool_decide as Hs.
  - subst r. by apply HQ.
  - apply HR; [done|done|]. apply MapVkResult_fails; [done|].
    intros E. apply (optimal (trace w) _ c). rewrite Hc, <- Hr. by rewrite E.
Qed.
End checked.

