(* ===== verification/VulkanMemory.v ===== *)
(** * Memory, as Vulkan and its allocator keep it

    The images and buffers with the memory they are bound to, as an automaton over
    the calls made: [allocate] takes them through one call, and is undefined where
    the call uses what is not there, unmaps what is not mapped, writes outside of
    what is mapped, frees what is mapped, or copies an image that is in another
    layout. The contents of the memory of buffers are followed, and the copies that
    command buffers hold. The laws of an allocator follow, and the account of what is
    alive: what objects own, and what waits in the list of [VulkanContext]. *)

From Stdlib Require Import Strings.Byte.
From stdpp Require Import base numbers list option strings gmap fin_maps sets.
From S2P Require Import Prelude RenderGraph VulkanFormats Vulkan VulkanContext VulkanUsage.

#[local] Open Scope Z_scope.

(** ** The automaton *)

Inductive resource := ABuffer (h : VkHandle) | AnImage (h : VkHandle).

#[export] Instance resource_eq_dec : EqDecision resource.
Proof. solve_decision. Defined.
#[export] Instance resource_countable : Countable resource.
Proof.
  refine (inj_countable' (fun r => match r with ABuffer h => inl h | AnImage h => inr h end)
    (fun s => match s with inl h => ABuffer h | inr h => AnImage h end) _).
  by intros [].
Defined.
#[export] Instance VkImageLayout_eq_dec : EqDecision VkImageLayout.
Proof. solve_decision. Defined.

(** The bytes of an allocation, [None] where nothing has been written, and how many
    times it is mapped. *)
Record allocation := mkAllocation { content : list (option byte); mappings : nat }.
#[export] Instance allocation_eta : Eta allocation := fun a => mkAllocation (content a) (mappings a).

(** A copy that a command buffer holds. *)
Inductive transfer :=
| BufferToBuffer (source destination : VkHandle) (region : VkBufferCopy)
| BufferToImage (buffer image : VkHandle) (region : VkBufferImageCopy)
| ImageToBuffer (image buffer : VkHandle) (region : VkBufferImageCopy)
| ImageToImage (source destination : VkHandle) (region : VkImageCopy).

Record memory := mkMemory
  { allocations : gmap VkHandle allocation; bound : gmap resource VkHandle;
    layouts : gmap VkHandle VkImageLayout; recorded : gmap VkHandle (list transfer) }.
#[export] Instance memory_eta : Eta memory := fun m =>
  mkMemory (allocations m) (bound m) (layouts m) (recorded m).

Definition new_memory : memory := mkMemory ∅ ∅ ∅ ∅.

(** [bs] written at [n]. *)
Definition splice {A} (n : nat) (bs old : list A) : list A :=
  take n old ++ bs ++ drop (n + length bs) old.

Definition size_of (m : memory) (r : resource) : option Z :=
  a ← bound m !! r; al ← allocations m !! a; Some (Z.of_nat (length (content al))).

(** [n] bytes at [offset] are within [size]. *)
Definition within (offset n size : Z) : bool := (0 <=? offset) && (0 <=? n) && (offset + n <=? size).

Definition record_transfer (command : VkHandle) (t : transfer) (m : memory) : memory :=
  m <| recorded ::= fun r => <[command := default [] (r !! command) ++ [t]]> r |>.

(** A barrier: the image must be in the layout it says, unless what it holds may be
    lost. *)
Definition pass_barrier (m : memory) (b : VkImageMemoryBarrier2) : option memory :=
  layout ← layouts m !! imb_image b;
  guard (imb_oldLayout b = VK_IMAGE_LAYOUT_UNDEFINED \/ imb_oldLayout b = layout);;
  Some (m <| layouts ::= <[imb_image b := imb_newLayout b]> |>).

Fixpoint pass_barriers (m : memory) (bs : list VkImageMemoryBarrier2) : option memory :=
  match bs with
  | [] => Some m
  | b :: bs => m ← pass_barrier m b; pass_barriers m bs
  end.

Definition place (r : resource) (a : VkHandle) (size : Z) (m : memory) : memory :=
  m <| bound ::= insert r a |>
    <| allocations ::= insert a (mkAllocation (replicate (Z.to_nat size) None) 0) |>.

Definition release (r : resource) (a : VkHandle) (m : memory) : memory :=
  m <| bound ::= delete r |> <| allocations ::= delete a |>.

(** What is freed is bound to the resource freed with it, and not mapped. *)
Definition check_release (r : resource) (a : VkHandle) (m : memory) : option memory :=
  guard (bound m !! r = Some a);;
  al ← allocations m !! a;
  guard (mappings al = 0%nat);;
  Some (release r a m).

Definition allocate (m : memory) (e : event) : option memory :=
  match ev_call e in vk A return A -> option memory with
  | vmaCreateBuffer _ info _ => fun r => Some (match r with
      | (VK_SUCCESS, Some (b, a)) => place (ABuffer b) a (bci_size info) m
      | _ => m
      end)
  | vmaCreateImage _ info _ => fun r => Some (match r with
      | (VK_SUCCESS, Some (i, a)) =>
          (place (AnImage i) a 0 m) <| layouts ::= insert i VK_IMAGE_LAYOUT_UNDEFINED |>
      | _ => m
      end)
  | vmaDestroyBuffer _ b a => fun _ => check_release (ABuffer b) a m
  | vmaDestroyImage _ i a => fun _ =>
      m ← check_release (AnImage i) a m; Some (m <| layouts ::= delete i |>)
  | vmaMapMemory _ a => fun r =>
      al ← allocations m !! a;
      Some (if succeeded r.1 then m <| allocations ::= insert a (al <| mappings ::= S |>) |> else m)
  | vmaUnmapMemory _ a => fun _ =>
      al ← allocations m !! a;
      guard (mappings al <> 0%nat);;
      Some (m <| allocations ::= insert a (al <| mappings ::= pred |>) |>)
  | vmaFlushAllocation _ a => fun _ => guard (is_Some (allocations m !! a));; Some m
  | vmaInvalidateAllocation _ a _ _ => fun _ => guard (is_Some (allocations m !! a));; Some m
  | memcpy p bytes => fun _ =>
      al ← allocations m !! block p;
      guard (mappings al <> 0%nat);;
      guard (within (displacement p) (Z.of_nat (length bytes)) (Z.of_nat (length (content al))) = true);;
      Some (m <| allocations ::= insert (block p)
        (al <| content ::= splice (Z.to_nat (displacement p)) (Some <$> bytes) |>) |>)
  | vkCmdCopyBuffer command source destination region => fun _ =>
      from ← size_of m (ABuffer source);
      to ← size_of m (ABuffer destination);
      guard (within (bc_srcOffset region) (bc_size region) from = true);;
      guard (within (bc_dstOffset region) (bc_size region) to = true);;
      Some (record_transfer command (BufferToBuffer source destination region) m)
  | vkCmdPipelineBarrier2 _ images _ => fun _ => pass_barriers m images
  | vkCmdCopyImageToBuffer command image layout buffer region => fun _ =>
      guard (layouts m !! image = Some layout);;
      guard (is_Some (bound m !! ABuffer buffer));;
      Some (record_transfer command (ImageToBuffer image buffer region) m)
  | vkCmdCopyBufferToImage command buffer image layout region => fun _ =>
      guard (layouts m !! image = Some layout);;
      guard (is_Some (bound m !! ABuffer buffer));;
      Some (record_transfer command (BufferToImage buffer image region) m)
  | vkCmdCopyImage command source sourceLayout destination destinationLayout region => fun _ =>
      guard (layouts m !! source = Some sourceLayout);;
      guard (layouts m !! destination = Some destinationLayout);;
      Some (record_transfer command (ImageToImage source destination region) m)
  | vkGetSwapchainImagesKHR _ _ _ => fun r =>
      Some (m <| layouts ::= fun ls =>
        ls ∪ gset_to_gmap VK_IMAGE_LAYOUT_UNDEFINED (list_to_set r.2.2) |>)
  | vkBeginCommandBuffer command => fun _ => Some (m <| recorded ::= delete command |>)
  | _ => fun _ => Some m
  end (ev_answer e).

(** The memory after the calls made, the latest first. *)
Fixpoint memory_after (calls : list event) : option memory :=
  match calls with
  | [] => Some new_memory
  | e :: earlier => m ← memory_after earlier; allocate m e
  end.

(** The calls that [allocate] lets through unchanged. *)
Definition spares {A} (c : vk A) : bool :=
  match c with
  | vmaCreateBuffer _ _ _ | vmaCreateImage _ _ _ | vmaDestroyBuffer _ _ _ | vmaDestroyImage _ _ _
  | vmaMapMemory _ _ | vmaUnmapMemory _ _ | vmaFlushAllocation _ _
  | vmaInvalidateAllocation _ _ _ _ | memcpy _ _ | vkCmdCopyBuffer _ _ _ _
  | vkCmdPipelineBarrier2 _ _ _ | vkCmdCopyImageToBuffer _ _ _ _ _
  | vkCmdCopyBufferToImage _ _ _ _ _ | vkCmdCopyImage _ _ _ _ _ _
  | vkGetSwapchainImagesKHR _ _ _ | vkBeginCommandBuffer _ => false
  | _ => true
  end.

Lemma spares_memory {A} (c : vk A) a tr : spares c = true -> memory_after (Event c a :: tr) = memory_after tr.
Proof. intros Hc. cbn [memory_after]. destruct (memory_after tr) as [m|]; [|done]. by destruct c. Qed.

(** ** Carrying out a copy *)

Definition perform (t : transfer) (m : memory) : option memory :=
  match t with
  | BufferToBuffer source destination region =>
      sa ← bound m !! ABuffer source; from ← allocations m !! sa;
      da ← bound m !! ABuffer destination; to ← allocations m !! da;
      let bytes := take (Z.to_nat (bc_size region)) (drop (Z.to_nat (bc_srcOffset region)) (content from)) in
      Some (m <| allocations ::= insert da
        (to <| content ::= splice (Z.to_nat (bc_dstOffset region)) bytes |>) |>)
  | _ => Some m
  end.

(** The bytes of a buffer. *)
Definition bytes_of (m : memory) (b : VkHandle) : option (list (option byte)) :=
  a ← bound m !! ABuffer b; al ← allocations m !! a; Some (content al).

Lemma length_splice {A} n (bs old : list A) :
  (n + length bs <= length old)%nat -> length (splice n bs old) = length old.
Proof. intros. unfold splice. rewrite !length_app, length_take, length_drop. lia. Qed.

Lemma splice_all {A} (bs old : list A) : length bs = length old -> splice 0 bs old = bs.
Proof. intros Hl. unfold splice. rewrite take_0, Nat.add_0_l, Hl, drop_all. apply app_nil_r. Qed.

(** Where it was written, [bs]; elsewhere, what was there. *)
Lemma lookup_splice {A} n (bs old : list A) i :
  (n + length bs <= length old)%nat ->
  splice n bs old !! i = if decide (n <= i < n + length bs)%nat then bs !! (i - n)%nat else old !! i.
Proof.
  intros Hn. unfold splice. destruct (decide (i < n)%nat) as [Hi|Hi].
  - rewrite decide_False by lia. rewrite lookup_app_l by (rewrite length_take; lia).
    by apply lookup_take_lt.
  - rewrite lookup_app_r by (rewrite length_take; lia). rewrite length_take.
    replace (n `min` length old)%nat with n by lia. case_decide as Hc.
    + by rewrite lookup_app_l by lia.
    + rewrite lookup_app_r, lookup_drop by lia. f_equal. lia.
Qed.

(** ** Laws of an allocator

    A creation that succeeds gives a resource and memory that are new, and one that
    fails no handles; memory is mapped where it starts. *)

Definition placed (m : memory) (kind : VkHandle -> resource) (r : VkResult * option (VkHandle * VkHandle)) : Prop :=
  if succeeded r.1 then
    exists h a, r.2 = Some (h, a) /\ h <> VK_NULL_HANDLE /\ a <> VK_NULL_HANDLE /\
      kind h ∉ dom (bound m) /\ a ∉ dom (allocations m)
  else r.2 = None \/ r.2 = Some (VK_NULL_HANDLE, VK_NULL_HANDLE).

Class AllocatorLaws `{Driver} := {
  buffer_placed tr m al info mi :
    memory_after tr = Some m -> placed m ABuffer (answer tr (vmaCreateBuffer al info mi));
  image_placed tr m al info mi :
    memory_after tr = Some m -> placed m AnImage (answer tr (vmaCreateImage al info mi));
  mapped_at tr al a (r := answer tr (vmaMapMemory al a)) :
    r.1 = VK_SUCCESS -> r.2 = Some (Pointer a 0) }.

(** ** The account

    A resource with the memory bound to it is a holding. [holds m l]: the
    resources alive are those of [l], each with memory of its own. *)

Definition holding : Type := resource * VkHandle.

Record holds (m : memory) (l : list holding) : Prop := mk_holds
  { distinct_resources : NoDup l.*1;
    distinct_allocations : NoDup l.*2;
    holds_bound : forall r a, bound m !! r = Some a <-> (r, a) ∈ l;
    holds_alive : forall a, is_Some (allocations m !! a) <-> a ∈ l.*2 }.

#[export] Instance holds_proper m : Proper ((≡ₚ) ==> iff) (holds m).
Proof.
  assert (Hp : forall l l', l ≡ₚ l' -> holds m l -> holds m l').
  { intros l l' Hl [H1 H2 H3 H4]. constructor; [by rewrite <- Hl..| |].
    - intros r a. by rewrite <- Hl.
    - intros a. by rewrite <- Hl. }
  intros l l' Hl. split; apply Hp; [done|by symmetry].
Qed.

(** The memory of these is not mapped. *)
Definition unmapped (m : memory) (l : list holding) : Prop :=
  Forall (fun p => exists al, allocations m !! p.2 = Some al /\ mappings al = 0%nat) l.

#[export] Instance unmapped_proper m : Proper ((≡ₚ) ==> iff) (unmapped m).
Proof. intros l l' Hl. unfold unmapped. by rewrite Hl. Qed.

Lemma holds_allocation m r a l : holds m ((r, a) :: l) -> is_Some (allocations m !! a).
Proof. intros [_ _ _ Ha]. apply Ha. cbn. set_solver. Qed.

Lemma holds_lookup m r a l : holds m ((r, a) :: l) -> bound m !! r = Some a.
Proof. intros [_ _ Hb _]. apply Hb. set_solver. Qed.

Lemma holds_other m r a l p : holds m ((r, a) :: l) -> p ∈ l -> p.1 <> r /\ p.2 <> a.
Proof.
  intros [Hr Ha _ _] Hp. cbn in *. apply NoDup_cons in Hr as [Hr _], Ha as [Ha _].
  split; intros <-; [apply Hr|apply Ha]; by apply list_elem_of_fmap_2.
Qed.

Lemma holds_place m r a size l :
  holds m l -> r ∉ dom (bound m) -> a ∉ dom (allocations m) -> holds (place r a size m) ((r, a) :: l).
Proof.
  intros [Hr Ha Hb Hm] Hnr Hna. apply not_elem_of_dom in Hnr, Hna. constructor; cbn.
  - apply NoDup_cons. split; [|done]. intros ([r' a'] & -> & Hin)%list_elem_of_fmap.
    apply Hb in Hin. cbn in Hnr. congruence.
  - apply NoDup_cons. split; [|done]. intros [al Hal]%Hm. congruence.
  - intros r' a'. rewrite lookup_insert_Some, elem_of_cons, <- Hb, pair_eq. split.
    + intros [[-> ->]|[? ?]]; [by left|by right].
    + intros [[-> ->]|Hin]; [by left|]. right. split; [|done]. intros ->. congruence.
  - intros a'. rewrite lookup_insert_is_Some', elem_of_cons, <- Hm. naive_solver.
Qed.

Lemma holds_release m r a l : holds m ((r, a) :: l) -> holds (release r a m) l.
Proof.
  intros Hh. pose proof (fun p => holds_other m r a l p Hh) as Ho. destruct Hh as [Hr Ha Hb Hm].
  cbn in Hr, Ha. apply NoDup_cons in Hr as [Hr Hr'], Ha as [Ha Ha']. constructor; [done..| |]; cbn.
  - intros r' a'. rewrite lookup_delete_Some, Hb, elem_of_cons, pair_eq. split; [naive_solver|].
    intros Hin. destruct (Ho _ Hin). naive_solver.
  - intros a'. rewrite lookup_delete_is_Some, Hm. cbn. rewrite elem_of_cons. split; [naive_solver|].
    intros Hin. split; [|by right]. by intros ->.
Qed.

(** What does not change which memory is alive, nor what it is bound to. *)
Lemma holds_same m m' l :
  bound m' = bound m -> dom (allocations m') = dom (allocations m) -> holds m l -> holds m' l.
Proof.
  intros Hb Ha [H1 H2 H3 H4]. constructor; [done..| |].
  - intros r a. by rewrite Hb.
  - intros a. rewrite <- H4, <- !elem_of_dom. by rewrite Ha.
Qed.

Lemma unmapped_cons m p l al :
  allocations m !! p.2 = Some al -> mappings al = 0%nat -> unmapped m l -> unmapped m (p :: l).
Proof. intros. constructor; [|done]. by exists al. Qed.

(** Memory that is not that of [l] does not matter to it. *)
Lemma unmapped_agree m m' l :
  (forall p, p ∈ l -> allocations m' !! p.2 = allocations m !! p.2) -> unmapped m l -> unmapped m' l.
Proof.
  intros Hag. unfold unmapped. rewrite !Forall_forall. intros Hl p Hp. rewrite Hag by done. by apply Hl.
Qed.

(** What the entries of the list of [VulkanContext] will free. *)
Definition unless_absent (h : VkHandle) (r : resource) (a : VkHandle) : list holding :=
  if is_null h then [] else [(r, a)].
Definition entry_holdings (e : VulkanDeferredDestroy) : list holding :=
  unless_absent (dd_image e) (AnImage (dd_image e)) (dd_allocation e) ++
  unless_absent (dd_buffer e) (ABuffer (dd_buffer e)) (dd_allocation e).
Definition retired (es : list VulkanDeferredDestroy) : list holding := es ≫= entry_holdings.

(** [l] is alive beside what waits in the list of [c], which is not mapped. *)
Definition accounts (c : VulkanContext) (m : memory) (l : list holding) : Prop :=
  holds m (l ++ retired (m_deferred c)) /\ unmapped m (retired (m_deferred c)).

#[export] Instance accounts_proper c m : Proper ((≡ₚ) ==> iff) (accounts c m).
Proof. intros l l' Hl. unfold accounts. by rewrite Hl. Qed.

(** From [m] to [m'], what holds the resources of [l] has not changed, nor have the
    command buffers. *)
Record kept (m m' : memory) (l : list holding) : Prop := mk_kept
  { kept_allocations : forall p, p ∈ l -> allocations m' !! p.2 = allocations m !! p.2;
    kept_layouts : forall i a, (AnImage i, a) ∈ l -> layouts m' !! i = layouts m !! i;
    kept_recorded : recorded m' = recorded m }.

Lemma kept_refl m l : kept m m l.
Proof. by constructor. Qed.

Lemma kept_trans m1 m2 m3 l : kept m1 m2 l -> kept m2 m3 l -> kept m1 m3 l.
Proof.
  intros [A1 L1 R1] [A2 L2 R2]. constructor; [..|congruence].
  - intros p Hp. by rewrite A2, A1.
  - intros i a Hi. by rewrite (L2 i a), (L1 i a).
Qed.

Lemma kept_subset m m' l l' : l' ⊆ l -> kept m m' l -> kept m m' l'.
Proof. intros Hl [A L R]. constructor; [..|done]; eauto. Qed.

Lemma kept_unmapped m m' l : kept m m' l -> unmapped m l -> unmapped m' l.
Proof. intros [A _ _]. by apply unmapped_agree. Qed.

(** The memory of [l] and the layouts of its images are as they were; command buffers
    may hold more. *)
Record undisturbed (l : list holding) (m m' : memory) : Prop := mk_undisturbed
  { undisturbed_allocations : forall p, p ∈ l -> allocations m' !! p.2 = allocations m !! p.2;
    undisturbed_layouts : forall i a, (AnImage i, a) ∈ l -> layouts m' !! i = layouts m !! i }.

#[export] Instance undisturbed_preorder l : PreOrder (undisturbed l).
Proof.
  split; [done|]. intros m1 m2 m3 [A1 L1] [A2 L2]. constructor; [intros p Hp; by rewrite A2, A1|].
  intros i a Hi. by rewrite (L2 i a), (L1 i a).
Qed.

Lemma undisturbed_subset l l' m m' : undisturbed l' m m' -> l ⊆ l' -> undisturbed l m m'.
Proof. intros [A L] Hl. constructor; eauto. Qed.

Lemma kept_undisturbed l l' m m' : kept m m' l' -> l ⊆ l' -> undisturbed l m m'.
Proof. intros [A L _] Hl. constructor; eauto. Qed.

Section account.
Context `{Driver} {S : Type}.

Lemma runs_spares {A} (c : vk A) (Q : A -> world S -> Prop) R w m :
  memory_after (trace w) = Some m -> spares c = true ->
  (forall a tr, a = answer (trace w) c -> memory_after tr = Some m -> Q a (mkWorld (object w) tr)) ->
  runs (call c) Q R w.
Proof.
  intros Hm Hc HQ. apply runs_call. intros a Ha. apply HQ; [done|]. by rewrite spares_memory.
Qed.

(** Freeing a holding that is not mapped. *)
Lemma check_release_holds m r a l :
  holds m ((r, a) :: l) -> unmapped m [(r, a)] -> check_release r a m = Some (release r a m).
Proof.
  intros Hh Hu. unfold check_release. rewrite (holds_lookup _ _ _ _ Hh).
  rewrite option_guard_True by done. unfold unmapped in Hu. rewrite Forall_singleton in Hu. cbn in Hu.
  destruct Hu as (al & Hal & H0). cbn. rewrite Hal. cbn. by rewrite option_guard_True.
Qed.

Lemma kept_release m r a l : holds m ((r, a) :: l) -> kept m (release r a m) l.
Proof.
  intros Hh. constructor; [|done..]. intros p Hp. cbn.
  destruct (holds_other _ _ _ _ _ Hh Hp). by rewrite lookup_delete_ne.
Qed.

Definition freed (m : memory) (l : list holding) (Q : unit -> world S -> Prop) (w : world S) : Prop :=
  forall tr m', memory_after tr = Some m' -> holds m' l -> kept m m' l -> Q tt (mkWorld (object w) tr).

Lemma runs_vmaDestroyBuffer al b a l (Q : unit -> world S -> Prop) R w m :
  memory_after (trace w) = Some m -> holds m ((ABuffer b, a) :: l) -> unmapped m [(ABuffer b, a)] ->
  freed m l Q w -> runs (call (vmaDestroyBuffer al b a)) Q R w.
Proof.
  intros Hm Hh Hu HQ. apply runs_call. intros [] _. eapply HQ; [|by eapply holds_release|by eapply kept_release].
  cbn. rewrite Hm. cbn. by eapply check_release_holds.
Qed.

Lemma runs_vmaDestroyImage al i a l (Q : unit -> world S -> Prop) R w m :
  memory_after (trace w) = Some m -> holds m ((AnImage i, a) :: l) -> unmapped m [(AnImage i, a)] ->
  freed m l Q w -> runs (call (vmaDestroyImage al i a)) Q R w.
Proof.
  intros Hm Hh Hu HQ. apply runs_call. intros [] _.
  eapply (HQ _ ((release (AnImage i) a m) <| layouts ::= delete i |>)).
  - cbn. rewrite Hm. cbn. by erewrite check_release_holds.
  - eapply (holds_same (release (AnImage i) a m)); [done..|by eapply holds_release].
  - eapply kept_trans; [by eapply kept_release|]. constructor; [done| |done].
    intros j b Hj. cbn. destruct (holds_other _ _ _ _ _ Hh Hj). rewrite lookup_delete_ne; [done|].
    cbn in *. congruence.
Qed.
End account.

(** ** What waits in the list *)

Section list.
Context `{Driver}.
Implicit Types (w : world VulkanContext).

Lemma runs_unless_spares h (c : vk unit) (Q : unit -> world VulkanContext -> Prop) R w m :
  memory_after (trace w) = Some m -> spares c = true ->
  (forall tr, memory_after tr = Some m -> Q tt (mkWorld (object w) tr)) ->
  runs (unless_null h (call c)) Q R w.
Proof.
  intros Hm Hc HQ. unfold unless_null. destruct (is_null h).
  - apply runs_ret. destruct w. by apply HQ.
  - eapply runs_spares; [done..|]. intros [] tr _. apply HQ.
Qed.

Lemma runs_unless_freed h r a (c : vk unit) l (Q : unit -> world VulkanContext -> Prop) R w m :
  memory_after (trace w) = Some m -> holds m (unless_absent h r a ++ l) -> unmapped m (unless_absent h r a) ->
  (is_null h = false -> forall Q' : unit -> world VulkanContext -> Prop,
    holds m ((r, a) :: l) -> unmapped m [(r, a)] -> freed m l Q' w -> runs (call c) Q' R w) ->
  freed m l Q w -> runs (unless_null h (call c)) Q R w.
Proof.
  intros Hm Hh Hu Hc HQ. unfold unless_null, unless_absent in *. destruct (is_null h).
  - apply runs_ret. destruct w. eapply HQ; [done..|]. apply kept_refl.
  - by apply Hc.
Qed.

Lemma runs_destroy_entry e l (Q : unit -> world VulkanContext -> Prop) R w m :
  memory_after (trace w) = Some m -> holds m (entry_holdings e ++ l) -> unmapped m (entry_holdings e) ->
  freed m l Q w -> runs (destroy_entry e) Q R w.
Proof.
  intros Hm Hh Hu HQ. unfold entry_holdings in *. unfold unmapped in Hu.
  apply Forall_app in Hu as [Hui Hub]. rewrite <- app_assoc in Hh. unfold destroy_entry.
  apply runs_bind. eapply runs_unless_spares; [done..|]. clear Hm. intros tr1 Hm.
  apply runs_bind. eapply (runs_unless_freed _ _ _ _ _ _ _ _ m); [exact Hm|exact Hh|exact Hui| |].
  { intros _ Q' Hh' Hu' HQ'. by eapply runs_vmaDestroyImage. }
  intros tr2 m2 Hm2 Hh2 Hk2. cbn [object trace] in *.
  apply runs_bind. eapply (runs_unless_freed _ _ _ _ _ _ _ _ m2); [exact Hm2|exact Hh2| | |].
  { eapply unmapped_agree; [|exact Hub]. intros p Hp. apply Hk2. set_solver. }
  { intros _ Q' Hh' Hu' HQ'. by eapply runs_vmaDestroyBuffer. }
  intros tr3 m3 Hm3 Hh3 Hk3. cbn [object trace] in *. clear Hm.
  assert (Hk : kept m m3 l).
  { eapply kept_trans; [|exact Hk3]. eapply kept_subset; [|exact Hk2]. set_solver. }
  assert (HQ' : forall tr, memory_after tr = Some m3 -> Q tt (mkWorld (object w) tr)).
  { intros tr Htr. by eapply HQ. }
  clear HQ. revert tr3 Hm3.
  do 8 (intros tr Htr; apply runs_bind; eapply runs_unless_spares; [exact Htr|done|]; cbn [object]; clear tr Htr).
  intros tr Htr. eapply runs_unless_spares; [exact Htr|done|]. cbn [object]. exact HQ'.
Qed.

(** The entries that [drain_entries] leaves, and what it frees. *)
Lemma runs_drain_entries v es l (Q : list VulkanDeferredDestroy -> world VulkanContext -> Prop) R w m :
  memory_after (trace w) = Some m -> holds m (l ++ retired es) -> unmapped m (retired es) ->
  (forall tr m' kept_es, kept_es = filter (fun e => v < dd_timelineValue e) es ->
     memory_after tr = Some m' -> holds m' (l ++ retired kept_es) -> unmapped m' (retired kept_es) ->
     kept m m' l -> Q kept_es (mkWorld (object w) tr)) ->
  runs (drain_entries v es) Q R w.
Proof.
  revert l Q w m. induction es as [|e es IH]; intros l Q w m Hm Hh Hu HQ; cbn [drain_entries].
  - apply runs_ret. destruct w. by eapply HQ; [done..|apply kept_refl].
  - cbn [retired] in Hh, Hu. unfold retired in Hh, Hu. cbn in Hh, Hu. fold (retired es) in *.
    unfold unmapped in Hu. apply Forall_app in Hu as [Hue Hu].
    rewrite filter_cons in HQ. case_decide as Hd.
    + rewrite (proj2 (Z.ltb_lt _ _) Hd). apply runs_bind.
      eapply (IH (l ++ entry_holdings e)); [exact Hm|by rewrite <- app_assoc|exact Hu|].
      intros tr m' es' -> Hm' Hh' Hu' Hk. apply runs_ret. eapply HQ; [done|exact Hm'|..].
      * cbn. by rewrite app_assoc.
      * apply Forall_app. split; [|exact Hu']. eapply kept_unmapped; [|exact Hue].
        eapply kept_subset; [|exact Hk]. set_solver.
      * eapply kept_subset; [|exact Hk]. set_solver.
    + rewrite (proj2 (Z.ltb_nlt _ _) Hd). apply runs_bind.
      eapply runs_destroy_entry; [exact Hm| |exact Hue|].
      { by rewrite Permutation_app_swap_app. }
      intros tr m1 Hm1 Hh1 Hk1. eapply IH; [exact Hm1|exact Hh1| |].
      { eapply kept_unmapped; [|exact Hu]. eapply kept_subset; [|exact Hk1]. set_solver. }
      cbn [object]. intros tr' m' es' -> Hm' Hh' Hu' Hk'. eapply HQ; try done.
      eapply kept_trans; [|exact Hk']. eapply kept_subset; [|exact Hk1]. set_solver.
Qed.

Lemma runs_DrainDeferred_accounts v l (Q : unit -> world VulkanContext -> Prop) R w m :
  memory_after (trace w) = Some m -> accounts (object w) m l ->
  (forall tr m' c, memory_after tr = Some m' ->
     c = (object w) <| m_deferred := filter (fun e => v < dd_timelineValue e) (m_deferred (object w)) |> ->
     accounts c m' l -> kept m m' l -> Q tt (mkWorld c tr)) ->
  runs (DrainDeferred v) Q R w.
Proof.
  intros Hm [Hh Hu] HQ. unfold DrainDeferred. apply runs_bind, runs_this, runs_bind.
  eapply runs_drain_entries; [done..|]. intros tr m' es -> Hm' Hh' Hu' Hk.
  apply runs_update. cbn [object trace]. eapply HQ; [exact Hm'|done|by split|exact Hk].
Qed.

(** [e] changes hands: what it holds is the context's to free. *)
Lemma runs_Retire_accounts e l (Q : unit -> world VulkanContext -> Prop) R w m :
  memory_after (trace w) = Some m -> accounts (object w) m (entry_holdings e ++ l) ->
  unmapped m (entry_holdings e) ->
  (forall tr m' c, memory_after tr = Some m' -> state c = state (object w) ->
     last (m_deferred c) = Some e -> accounts c m' l ->
     kept m m' (entry_holdings e ++ l) -> Q tt (mkWorld c tr)) ->
  runs (Retire e) Q R w.
Proof.
  intros Hm Ha Hu HQ. unfold Retire. apply runs_bind, runs_this.
  assert (Happend : forall tr m' c, memory_after tr = Some m' -> state c = state (object w) ->
      accounts c m' (entry_holdings e ++ l) -> kept m m' (entry_holdings e ++ l) ->
      runs (update (fun c => c <| m_deferred ::= fun es => es ++ [e] |>)) Q R (mkWorld c tr)).
  { intros tr m' c Hm' Hs [Hh Hr] Hk. apply runs_update. eapply HQ; [done..|by cbn; rewrite last_snoc| |done].
    unfold accounts. cbn. unfold retired. rewrite bind_app. fold (retired (m_deferred c)).
    cbn [mbind list_bind]. rewrite app_nil_r. split.
    - rewrite app_assoc, Permutation_app_comm, app_assoc. exact Hh.
    - apply Forall_app. split; [exact Hr|]. eapply kept_unmapped; [|exact Hu].
      eapply kept_subset; [|exact Hk]. set_solver. }
  apply runs_bind. case_match.
  - unfold WaitIdle. apply runs_bind, runs_bind, runs_this. case_match.
    + apply runs_ret. eapply runs_DrainDeferred_accounts; [done..|].
      intros tr m' c Hm' -> Ha' Hk. by eapply Happend.
    + apply runs_bind. eapply runs_spares; [done..|]. intros r tr1 _ Hm1. apply runs_ret.
      eapply runs_DrainDeferred_accounts; [done..|]. cbn [object].
      intros tr m' c Hm' -> Ha' Hk. by eapply Happend.
  - apply runs_ret. destruct w. by eapply Happend; [..|apply kept_refl].
Qed.
End list.

(** ** Calls of the allocator *)

Definition with_allocation (a : VkHandle) (al : allocation) (m : memory) : memory :=
  m <| allocations ::= insert a al |>.

Lemma with_allocation_lookup a al m : allocations (with_allocation a al m) !! a = Some al.
Proof. cbn. by rewrite lookup_insert_eq. Qed.

Lemma with_allocation_twice a al al' m : with_allocation a al' (with_allocation a al m) = with_allocation a al' m.
Proof. unfold with_allocation. destruct m. cbn. by rewrite insert_insert_eq. Qed.

Lemma with_allocation_same a al m : allocations m !! a = Some al -> with_allocation a al m = m.
Proof. intros Ha. unfold with_allocation. destruct m. cbn in *. by rewrite insert_id. Qed.

Lemma holds_with_allocation m l r a al :
  (r, a) ∈ l -> holds m l -> holds (with_allocation a al m) l.
Proof.
  intros Hin Hh. eapply holds_same; [..|exact Hh]; [done|]. cbn. rewrite dom_insert_L.
  assert (is_Some (allocations m !! a)) as ?%elem_of_dom; [|set_solver].
  apply (holds_alive _ _ Hh). by apply (list_elem_of_fmap_2 snd _ (r, a)).
Qed.

Lemma kept_with_allocation m a al l : (forall p, p ∈ l -> p.2 <> a) -> kept m (with_allocation a al m) l.
Proof.
  intros Ha. constructor; [|done..]. intros p Hp. cbn. by rewrite lookup_insert_ne by (intros E; by apply (Ha p)).
Qed.

Lemma kept_place m r a size l : (forall p, p ∈ l -> p.2 <> a) -> kept m (place r a size m) l.
Proof.
  intros Ha. constructor; [|done..]. intros p Hp. cbn. by rewrite lookup_insert_ne by (intros E; by apply (Ha p)).
Qed.

(** Memory of [l] is not what waits in the list. *)
Lemma accounts_apart c m r a l :
  accounts c m ((r, a) :: l) -> forall p, p ∈ l ++ retired (m_deferred c) -> p.1 <> r /\ p.2 <> a.
Proof. intros [Hh _] p Hp. by eapply holds_other. Qed.

Lemma accounts_with_allocation c m r a al l :
  accounts c m ((r, a) :: l) -> accounts c (with_allocation a al m) ((r, a) :: l).
Proof.
  intros Ha. pose proof (accounts_apart _ _ _ _ _ Ha) as Ho. destruct Ha as [Hh Hu]. split.
  - apply (holds_with_allocation _ _ r); [|exact Hh]. set_solver.
  - eapply kept_unmapped; [|exact Hu]. apply kept_with_allocation. intros p Hp. apply Ho. set_solver.
Qed.

Lemma undisturbed_with_allocation c m r a al l :
  accounts c m ((r, a) :: l) -> undisturbed l m (with_allocation a al m).
Proof.
  intros Ha. eapply kept_undisturbed; [apply kept_with_allocation|done]. intros p Hp.
  apply (accounts_apart _ _ _ _ _ Ha). set_solver.
Qed.

(** What waits in the list is alive. *)
Lemma retired_bound c m l e r a :
  accounts c m l -> last (m_deferred c) = Some e -> (r, a) ∈ entry_holdings e -> bound m !! r = Some a.
Proof.
  intros [Hh _] [es Hes]%last_Some He. apply (holds_bound _ _ Hh). unfold retired.
  rewrite Hes, bind_app. cbn [mbind list_bind]. set_solver.
Qed.

Lemma accounts_allocation c m r a l : accounts c m ((r, a) :: l) -> is_Some (allocations m !! a).
Proof. intros [Hh _]. by eapply holds_allocation. Qed.

Lemma accounts_bound c m r a l : accounts c m ((r, a) :: l) -> bound m !! r = Some a.
Proof. intros [Hh _]. by eapply holds_lookup. Qed.

(** An image in another layout. *)
Definition with_layout (i : VkHandle) (layout : VkImageLayout) (m : memory) : memory :=
  m <| layouts ::= insert i layout |>.

Lemma accounts_with_layout c m i layout l : accounts c m l -> accounts c (with_layout i layout m) l.
Proof. intros [Hh Hu]. split; [by apply (holds_same m)|done]. Qed.

Lemma undisturbed_with_layout c m i a layout l :
  accounts c m ((AnImage i, a) :: l) -> undisturbed l m (with_layout i layout m).
Proof.
  intros Ha. constructor; [done|]. intros j b Hj.
  destruct (accounts_apart _ _ _ _ _ Ha (AnImage j, b)) as [Hne _]; [set_solver|].
  cbn in *. by rewrite lookup_insert_ne by congruence.
Qed.

(** A new image with its memory. *)
Definition place_image (i a : VkHandle) (m : memory) : memory :=
  with_layout i VK_IMAGE_LAYOUT_UNDEFINED (place (AnImage i) a 0 m).

(** The driver does not map some memory. *)
Definition mapping_fails `{Driver} : Prop := exists tr al a, (answer tr (vmaMapMemory al a)).1 <> VK_SUCCESS.

Section calls.
Context `{AllocatorLaws} {S : Type}.
Implicit Types (w : world S) (R : ALResult -> world S -> Prop).

Lemma runs_vmaMapMemory {al a} {Q : _ -> world S -> Prop} {R w m x} :
  memory_after (trace w) = Some m -> allocations m !! a = Some x ->
  (forall tr, memory_after tr = Some (with_allocation a (x <| mappings ::= Datatypes.S |>) m) ->
     Q (VK_SUCCESS, Some (Pointer a 0)) (mkWorld (object w) tr)) ->
  (forall r o (tr := Event (vmaMapMemory al a) (r, o) :: trace w),
     (r, o) = answer (trace w) (vmaMapMemory al a) -> r <> VK_SUCCESS ->
     memory_after tr = Some m -> Q (r, o) (mkWorld (object w) tr)) ->
  runs (call (vmaMapMemory al a)) Q R w.
Proof.
  intros Hm Hx Hok Hfail. apply runs_call. intros [r o] Hr.
  assert (Hafter : memory_after (Event (vmaMapMemory al a) (r, o) :: trace w) =
    Some (if succeeded r then with_allocation a (x <| mappings ::= Datatypes.S |>) m else m)).
  { cbn. rewrite Hm. cbn. by rewrite Hx. }
  unfold succeeded in Hafter. case_bool_decide as Hs.
  - subst r. pose proof (mapped_at (trace w) al a) as Hat. rewrite <- Hr in Hat. cbn in Hat.
    rewrite Hat by done. by apply Hok.
  - by apply Hfail.
Qed.

Lemma runs_vmaUnmapMemory {al a} {Q : unit -> world S -> Prop} {R w m x} :
  memory_after (trace w) = Some m -> allocations m !! a = Some x -> mappings x <> 0%nat ->
  (forall tr, memory_after tr = Some (with_allocation a (x <| mappings ::= pred |>) m) ->
     Q tt (mkWorld (object w) tr)) ->
  runs (call (vmaUnmapMemory al a)) Q R w.
Proof.
  intros Hm Hx Hnz HQ. apply runs_call. intros [] _. apply HQ. cbn. rewrite Hm. cbn. rewrite Hx. cbn.
  by rewrite option_guard_True.
Qed.

Lemma runs_memcpy {p bytes} {Q : unit -> world S -> Prop} {R w m x} :
  memory_after (trace w) = Some m -> allocations m !! block p = Some x -> mappings x <> 0%nat ->
  0 <= displacement p -> displacement p + Z.of_nat (length bytes) <= Z.of_nat (length (content x)) ->
  (forall tr, memory_after tr = Some (with_allocation (block p)
       (x <| content ::= splice (Z.to_nat (displacement p)) (Some <$> bytes) |>) m) ->
     Q tt (mkWorld (object w) tr)) ->
  runs (call (memcpy p bytes)) Q R w.
Proof.
  intros Hm Hx Hnz Hp Hn HQ. apply runs_call. intros [] _. apply HQ. cbn. rewrite Hm. cbn. rewrite Hx. cbn.
  rewrite option_guard_True by done. cbn. rewrite option_guard_True; [done|].
  unfold within. by rewrite !(proj2 (Z.leb_le _ _)) by lia.
Qed.

(** All that happened is that a buffer was refused. *)
Definition buffer_refused (al : VkHandle) (tr tr' : list event) : Prop :=
  exists info mi r o, tr' = Event (vmaCreateBuffer al info mi) (r, o) :: tr /\ r <> VK_SUCCESS.

Lemma runs_vmaCreateBuffer {al info mi} {Q : _ -> world S -> Prop} {R w m c l} :
  memory_after (trace w) = Some m -> accounts c m l ->
  (forall b a tr (m' := place (ABuffer b) a (bci_size info) m), memory_after tr = Some m' ->
     b <> VK_NULL_HANDLE -> a <> VK_NULL_HANDLE -> accounts c m' ((ABuffer b, a) :: l) -> kept m m' (l ++ retired (m_deferred c)) ->
     Q (VK_SUCCESS, Some (b, a)) (mkWorld (object w) tr)) ->
  (forall r o (tr := Event (vmaCreateBuffer al info mi) (r, o) :: trace w),
     r <> VK_SUCCESS -> o = None \/ o = Some (VK_NULL_HANDLE, VK_NULL_HANDLE) ->
     memory_after tr = Some m -> Q (r, o) (mkWorld (object w) tr)) ->
  runs (call (vmaCreateBuffer al info mi)) Q R w.
Proof.
  intros Hm [Hh Hu] Hok Hfail. apply runs_call. intros [r o] Hr.
  pose proof (buffer_placed _ _ al info mi Hm) as Hp. rewrite <- Hr in Hp. unfold placed in Hp. cbn in Hp.
  unfold succeeded in Hp. case_bool_decide as Hs.
  - subst r. destruct Hp as (b & a & -> & Hb & Haz & Hnb & Hna).
    assert (Hk : kept m (place (ABuffer b) a (bci_size info) m) (l ++ retired (m_deferred c))).
    { apply kept_place. intros p Hp <-. apply Hna, elem_of_dom, (holds_alive _ _ Hh).
      by apply list_elem_of_fmap_2. }
    apply Hok; [cbn; by rewrite Hm|done..| |done]. split; [by apply holds_place|].
    eapply kept_unmapped; [|exact Hu]. eapply kept_subset; [|exact Hk]. set_solver.
  - apply Hfail; [done..|]. cbn. rewrite Hm. by destruct r.
Qed.

Lemma runs_vmaCreateImage {al info mi} {Q : _ -> world S -> Prop} {R w m c l} :
  memory_after (trace w) = Some m -> accounts c m l ->
  (forall i a tr (m' := place_image i a m), memory_after tr = Some m' ->
     i <> VK_NULL_HANDLE -> a <> VK_NULL_HANDLE -> accounts c m' ((AnImage i, a) :: l) ->
     kept m m' (l ++ retired (m_deferred c)) -> Q (VK_SUCCESS, Some (i, a)) (mkWorld (object w) tr)) ->
  (forall r o tr, r <> VK_SUCCESS -> o = None \/ o = Some (VK_NULL_HANDLE, VK_NULL_HANDLE) ->
     memory_after tr = Some m -> Q (r, o) (mkWorld (object w) tr)) ->
  runs (call (vmaCreateImage al info mi)) Q R w.
Proof.
  intros Hm [Hh Hu] Hok Hfail. apply runs_call. intros [r o] Hr.
  pose proof (image_placed _ _ al info mi Hm) as Hp. rewrite <- Hr in Hp. unfold placed in Hp. cbn in Hp.
  unfold succeeded in Hp. case_bool_decide as Hs.
  - subst r. destruct Hp as (i & a & -> & Hi & Haz & Hni & Hna).
    assert (Hkp : kept m (place (AnImage i) a 0 m) (l ++ retired (m_deferred c))).
    { apply kept_place. intros p Hp <-. apply Hna, elem_of_dom, (holds_alive _ _ Hh).
      by apply list_elem_of_fmap_2. }
    assert (Hk : kept m (place_image i a m) (l ++ retired (m_deferred c))).
    { pose proof Hkp as [A L R']. constructor; [done| |done]. intros j b Hj. cbn. rewrite lookup_insert_ne; [done|].
      intros <-. apply Hni, elem_of_dom. exists b. by apply (holds_bound _ _ Hh). }
    apply Hok; [cbn; by rewrite Hm|done..| |done]. apply accounts_with_layout. split; [by apply holds_place|].
    eapply kept_unmapped; [|exact Hu]. eapply kept_subset; [|exact Hkp]. set_solver.
  - apply Hfail; [done..|]. cbn. rewrite Hm. by destruct r.
Qed.

(** The transition of an image that is in the layout the barrier says. *)
Lemma runs_transition {cmd b} {Q : unit -> world S -> Prop} {R w m} :
  memory_after (trace w) = Some m -> layouts m !! imb_image b = Some (imb_oldLayout b) ->
  (forall tr, memory_after tr = Some (with_layout (imb_image b) (imb_newLayout b) m) ->
     Q tt (mkWorld (object w) tr)) ->
  runs (call (vkCmdPipelineBarrier2 cmd [b] [])) Q R w.
Proof.
  intros Hm Hl HQ. apply runs_call. intros [] _. apply HQ. cbn. rewrite Hm. cbn. unfold pass_barrier.
  rewrite Hl. cbn. rewrite option_guard_True by by right. done.
Qed.

Lemma runs_buffer_barrier {cmd bs} {Q : unit -> world S -> Prop} {R w m} :
  memory_after (trace w) = Some m ->
  (forall tr, memory_after tr = Some m -> Q tt (mkWorld (object w) tr)) ->
  runs (call (vkCmdPipelineBarrier2 cmd [] bs)) Q R w.
Proof. intros Hm HQ. apply runs_call. intros [] _. apply HQ. cbn. by rewrite Hm. Qed.

Lemma runs_vkCmdCopyBufferToImage {cmd b i layout region} {Q : unit -> world S -> Prop} {R w m} :
  memory_after (trace w) = Some m -> layouts m !! i = Some layout -> is_Some (bound m !! ABuffer b) ->
  (forall tr, memory_after tr = Some (record_transfer cmd (BufferToImage b i region) m) ->
     Q tt (mkWorld (object w) tr)) ->
  runs (call (vkCmdCopyBufferToImage cmd b i layout region)) Q R w.
Proof.
  intros Hm Hl Hb HQ. apply runs_call. intros [] _. apply HQ. cbn. rewrite Hm. cbn. by rewrite !option_guard_True.
Qed.

Lemma runs_vkCmdCopyImageToBuffer {cmd i layout b region} {Q : unit -> world S -> Prop} {R w m} :
  memory_after (trace w) = Some m -> layouts m !! i = Some layout -> is_Some (bound m !! ABuffer b) ->
  (forall tr, memory_after tr = Some (record_transfer cmd (ImageToBuffer i b region) m) ->
     Q tt (mkWorld (object w) tr)) ->
  runs (call (vkCmdCopyImageToBuffer cmd i layout b region)) Q R w.
Proof.
  intros Hm Hl Hb HQ. apply runs_call. intros [] _. apply HQ. cbn. rewrite Hm. cbn. by rewrite !option_guard_True.
Qed.

Lemma runs_vkCmdCopyBuffer {cmd b b' region} {Q : unit -> world S -> Prop} {R w m x y} :
  memory_after (trace w) = Some m -> size_of m (ABuffer b) = Some x -> size_of m (ABuffer b') = Some y ->
  within (bc_srcOffset region) (bc_size region) x = true ->
  within (bc_dstOffset region) (bc_size region) y = true ->
  (forall tr, memory_after tr = Some (record_transfer cmd (BufferToBuffer b b' region) m) ->
     Q tt (mkWorld (object w) tr)) ->
  runs (call (vkCmdCopyBuffer cmd b b' region)) Q R w.
Proof.
  intros Hm Hx Hy Hi Hi' HQ. apply runs_call. intros [] _. apply HQ. cbn. rewrite Hm. cbn. rewrite Hx. cbn.
  rewrite Hy. cbn. by rewrite !option_guard_True.
Qed.
End calls.

Lemma accounts_record c m l cmd t : accounts c m l -> accounts c (record_transfer cmd t m) l.
Proof. intros [Hh Hu]. split; [by apply (holds_same m)|done]. Qed.

Lemma new_accounts c : m_deferred c = [] -> accounts c new_memory [].
Proof.
  intros Hc. unfold accounts. rewrite Hc. split; [|by constructor]. constructor; [constructor..| |]; cbn.
  - intros r a. rewrite lookup_empty. split; [done|]. by intros ?%not_elem_of_nil.
  - intros a. rewrite lookup_empty. split; [by intros []|]. by intros ?%not_elem_of_nil.
Qed.
