(* ===== verification/VulkanQueryRules.v ===== *)
(** * What Vulkan asks of queries

    The queries of the pools alive, as an automaton over the calls made: a query has
    to be reset before it is written or begun, a query that is begun is ended in the
    command buffer it was begun in, and results are read of queries that have been
    reset, into an array that has room for them. *)

From stdpp Require Import base numbers list option strings gmap fin_maps sets.
From S2P Require Import Prelude RenderGraph VulkanFormats Vulkan VulkanContext VulkanUsage.

#[local] Open Scope Z_scope.

Inductive query_state := Uninitialized | Unavailable | Active (command : VkHandle) | Ended.

#[export] Instance query_state_eq_dec : EqDecision query_state.
Proof. solve_decision. Defined.

Definition is_active (q : query_state) : bool := match q with Active _ => true | _ => false end.

Abbreviation queries := (gmap VkHandle (query_kind * list query_state)).

(** How many numbers the result of a query has: one for each statistic asked for. *)
Definition result_values (kind : query_kind) : Z :=
  match kind.1 with
  | VK_QUERY_TYPE_PIPELINE_STATISTICS => Z.of_nat (length kind.2)
  | _ => 1
  end.

(** The [n] queries from [first] on. *)
Definition query_range (first n : Z) (qs : list query_state) : option (list query_state) :=
  guard (0 <= first /\ 0 <= n /\ first + n <= Z.of_nat (length qs));;
  Some (take (Z.to_nat n) (drop (Z.to_nat first) qs)).

(** One query changes from a state in which [from] holds. *)
Definition change_query (from : query_state -> bool) (to : query_state) (pool : VkHandle) (query : Z)
    (m : queries) : option queries :=
  p ← m !! pool;
  guard (0 <= query);;
  q ← p.2 !! Z.to_nat query;
  guard (from q = true);;
  Some (<[pool := (p.1, <[Z.to_nat query := to]> p.2)]> m).

Definition reset_queries (first n : Z) (qs : list query_state) : list query_state :=
  take (Z.to_nat first) qs ++ replicate (Z.to_nat n) Unavailable ++ drop (Z.to_nat first + Z.to_nat n) qs.

Definition check_query (m : queries) (e : event) : option queries :=
  match ev_call e in vk A return A -> option queries with
  | vkCreateQueryPool _ type n => fun r => Some (match r with
      | (VK_SUCCESS, Some h) => <[h := (type, replicate (Z.to_nat n) Uninitialized)]> m
      | _ => m
      end)
  | vkDestroy QueryPool _ h => fun _ => guard (is_Some (m !! h));; Some (delete h m)
  | vkCmdResetQueryPool _ pool first n => fun _ =>
      p ← m !! pool;
      qs ← query_range first n p.2;
      guard (Forall (fun q => is_active q = false) qs);;
      Some (<[pool := (p.1, reset_queries first n p.2)]> m)
  | vkCmdWriteTimestamp2 _ pool query => fun _ =>
      change_query (fun q => bool_decide (q = Unavailable)) Ended pool query m
  | vkCmdBeginQuery command pool query => fun _ =>
      change_query (fun q => bool_decide (q = Unavailable)) (Active command) pool query m
  | vkCmdEndQuery command pool query => fun _ =>
      change_query (fun q => bool_decide (q = Active command)) Ended pool query m
  | vkGetQueryPoolResults _ pool first n room availability => fun _ =>
      p ← m !! pool;
      qs ← query_range first n p.2;
      guard (Forall (fun q => q <> Uninitialized) qs);;
      guard (n * (result_values p.1 + (if availability then 1 else 0)) <= room);;
      Some m
  | _ => fun _ => Some m
  end (ev_answer e).

(** The queries after the calls made, the latest first. *)
Fixpoint queries_after (calls : list event) : option queries :=
  match calls with
  | [] => Some ∅
  | e :: earlier => m ← queries_after earlier; check_query m e
  end.

(** A pool is new. *)
Class QueryLaws `{Driver} :=
  query_pool_new : forall tr m d type n,
    queries_after tr = Some m -> new_in (dom m) (answer tr (vkCreateQueryPool d type n)).
