(* ===== verification/VulkanPipelineRules.v ===== *)
(** * What Vulkan asks of shaders, pipelines and descriptors

    The samplers, shader modules, layouts, pipelines and descriptor sets alive, as an
    automaton over the calls made: what is created is created of what is alive and in
    the form that is asked for, a descriptor is written into a set alive, in a binding
    of its layout, with the type of the binding, and what is destroyed is alive. What
    the descriptors of a set hold is followed. *)

From Stdlib Require Import Strings.Byte.
From stdpp Require Import base numbers list option strings gmap fin_maps sets.
From S2P Require Import Prelude RenderGraph VulkanFormats Vulkan VulkanContext VulkanUsage.

#[local] Open Scope Z_scope.

(** ** The automaton *)

Record descriptor_set := mkDescriptorSet
  { ds_pool : VkHandle; ds_bindings : list VkDescriptorSetLayoutBinding;
    ds_content : gmap (Z * Z) descriptor }.
#[export] Instance descriptor_set_eta : Eta descriptor_set := fun s =>
  mkDescriptorSet (ds_pool s) (ds_bindings s) (ds_content s).

Record pipeline_objects := mkPipelineObjects
  { shader_modules : gset VkHandle; alive_samplers : gset VkHandle;
    set_layouts : gmap VkHandle (list VkDescriptorSetLayoutBinding);
    pipeline_layouts : gset VkHandle;
    pipelines : gmap VkHandle VkGraphicsPipelineCreateInfo;
    descriptor_pools : gmap VkHandle (Z * list (VkDescriptorType * Z));
    descriptor_sets : gmap VkHandle descriptor_set }.
#[export] Instance pipeline_objects_eta : Eta pipeline_objects := fun p =>
  mkPipelineObjects (shader_modules p) (alive_samplers p) (set_layouts p) (pipeline_layouts p)
    (pipelines p) (descriptor_pools p) (descriptor_sets p).

Definition new_pipeline_objects : pipeline_objects := mkPipelineObjects ∅ ∅ ∅ ∅ ∅ ∅ ∅.

(** What a creation adds. *)
Definition add_made (r : created) (add : VkHandle -> pipeline_objects -> pipeline_objects)
    (p : pipeline_objects) : pipeline_objects :=
  match r with (VK_SUCCESS, Some h) => add h p | _ => p end.

(** *** Descriptors *)

(** A binding that samples names a sampler alive. *)
Definition describes (p : pipeline_objects) (type : VkDescriptorType) (d : descriptor) : Prop :=
  match type, d with
  | VK_DESCRIPTOR_TYPE_UNIFORM_BUFFER, DescribesBuffer _ => True
  | VK_DESCRIPTOR_TYPE_STORAGE_BUFFER, DescribesBuffer _ => True
  | VK_DESCRIPTOR_TYPE_STORAGE_IMAGE, DescribesImage _ => True
  | VK_DESCRIPTOR_TYPE_SAMPLER, DescribesImage info => dii_sampler info ∈ alive_samplers p
  | VK_DESCRIPTOR_TYPE_COMBINED_IMAGE_SAMPLER, DescribesImage info => dii_sampler info ∈ alive_samplers p
  | _, _ => False
  end.
#[export] Instance describes_dec p type d : Decision (describes p type d).
Proof. destruct type, d; cbn; apply _. Defined.

(** [ds] from an element of a binding on. *)
Fixpoint store (binding element : Z) (ds : list descriptor) (content : gmap (Z * Z) descriptor)
    : gmap (Z * Z) descriptor :=
  match ds with
  | [] => content
  | d :: ds => store binding (element + 1) ds (<[(binding, element) := d]> content)
  end.

Definition binding_of (bindings : list VkDescriptorSetLayoutBinding) (n : Z)
    : option VkDescriptorSetLayoutBinding :=
  List.find (fun b => slb_binding b =? n) bindings.

Definition write_descriptors (w : VkWriteDescriptorSet) (p : pipeline_objects) : option pipeline_objects :=
  s ← descriptor_sets p !! wds_dstSet w;
  b ← binding_of (ds_bindings s) (wds_dstBinding w);
  guard (slb_descriptorType b = wds_descriptorType w);;
  guard (wds_descriptors w <> []);;
  guard (0 <= wds_dstArrayElement w);;
  guard (wds_dstArrayElement w + Z.of_nat (length (wds_descriptors w)) <= slb_descriptorCount b);;
  guard (Forall (describes p (wds_descriptorType w)) (wds_descriptors w));;
  Some (p <| descriptor_sets ::= insert (wds_dstSet w)
    (s <| ds_content ::= store (wds_dstBinding w) (wds_dstArrayElement w) (wds_descriptors w) |>) |>).

Fixpoint write_all (ws : list VkWriteDescriptorSet) (p : pipeline_objects) : option pipeline_objects :=
  match ws with
  | [] => Some p
  | w :: ws => p ← write_descriptors w p; write_all ws p
  end.

(** *** Pipelines *)

Definition is_graphics_stage (s : VkShaderStageFlagBits) : bool :=
  match s with
  | VK_SHADER_STAGE_VERTEX_BIT | VK_SHADER_STAGE_FRAGMENT_BIT | VK_SHADER_STAGE_GEOMETRY_BIT
  | VK_SHADER_STAGE_TESSELLATION_CONTROL_BIT | VK_SHADER_STAGE_TESSELLATION_EVALUATION_BIT => true
  | _ => false
  end.

(** The stages are different ones of the graphics pipeline, with a vertex shader among
    them. *)
Definition stages_sound (p : pipeline_objects) (stages : list (VkShaderStageFlagBits * VkHandle)) : Prop :=
  NoDup stages.*1 /\ VK_SHADER_STAGE_VERTEX_BIT ∈ stages.*1 /\
  Forall (fun s => is_graphics_stage s.1 = true /\ s.2 ∈ shader_modules p) stages.

(** Bindings and locations have different numbers, and what an attribute is read from
    is a binding. *)
Definition vertex_input_sound (bindings : list VkVertexInputBindingDescription)
    (attributes : list VkVertexInputAttributeDescription) : Prop :=
  NoDup (vib_binding <$> bindings) /\ NoDup (via_location <$> attributes) /\
  Forall (fun a => via_binding a ∈ vib_binding <$> bindings) attributes.

Definition check_pipeline (p : pipeline_objects) (info : VkGraphicsPipelineCreateInfo) : Prop :=
  gpi_layout info ∈ pipeline_layouts p /\ stages_sound p (gpi_stages info) /\
  vertex_input_sound (gpi_bindings info) (gpi_attributes info).
#[export] Instance check_pipeline_dec p info : Decision (check_pipeline p info).
Proof. unfold check_pipeline, stages_sound, vertex_input_sound. apply _. Defined.

(** *** Destruction *)

Definition check_destroyed (p : pipeline_objects) (kind : object_kind) (h : VkHandle)
    : option pipeline_objects :=
  if is_null h then Some p else
  match kind with
  | ShaderModule => guard (h ∈ shader_modules p);; Some (p <| shader_modules ::= fun s => s ∖ {[h]} |>)
  | Sampler => guard (h ∈ alive_samplers p);; Some (p <| alive_samplers ::= fun s => s ∖ {[h]} |>)
  | DescriptorSetLayout => guard (is_Some (set_layouts p !! h));; Some (p <| set_layouts ::= delete h |>)
  | PipelineLayout =>
      guard (h ∈ pipeline_layouts p);; Some (p <| pipeline_layouts ::= fun s => s ∖ {[h]} |>)
  | Pipeline => guard (is_Some (pipelines p !! h));; Some (p <| pipelines ::= delete h |>)
  | DescriptorPool =>
      guard (is_Some (descriptor_pools p !! h));;
      Some (p <| descriptor_pools ::= delete h |> <| descriptor_sets ::= filter (fun s => ds_pool s.2 <> h) |>)
  | _ => Some p
  end.

(** A sampler is not anisotropic, as the devices that [CreateLogicalDevice] creates
    cannot be; the code of a shader is in words. *)
Definition operate (p : pipeline_objects) (e : event) : option pipeline_objects :=
  match ev_call e in vk A return A -> option pipeline_objects with
  | vkCreateSampler _ info => fun r =>
      guard (smi_anisotropyEnable info = false);;
      Some (add_made r (fun h p => p <| alive_samplers ::= union {[h]} |>) p)
  | vkCreateShaderModule _ code => fun r =>
      guard (code <> []);;
      guard (Z.of_nat (length code) mod 4 = 0);;
      Some (add_made r (fun h p => p <| shader_modules ::= union {[h]} |>) p)
  | vkCreateDescriptorSetLayout _ bindings => fun r =>
      guard (NoDup (slb_binding <$> bindings));;
      Some (add_made r (fun h p => p <| set_layouts ::= insert h bindings |>) p)
  | vkCreatePipelineLayout _ layouts => fun r =>
      guard (Forall (fun l => is_Some (set_layouts p !! l)) layouts);;
      Some (add_made r (fun h p => p <| pipeline_layouts ::= union {[h]} |>) p)
  | vkCreateGraphicsPipelines _ _ info => fun r =>
      guard (check_pipeline p info);;
      Some (add_made r (fun h p => p <| pipelines ::= insert h info |>) p)
  | vkCreateDescriptorPool _ n sizes => fun r =>
      Some (add_made r (fun h p => p <| descriptor_pools ::= insert h (n, sizes) |>) p)
  | vkAllocateDescriptorSets _ pool layout => fun r =>
      guard (is_Some (descriptor_pools p !! pool));;
      bindings ← set_layouts p !! layout;
      Some (add_made r (fun h p => p <| descriptor_sets ::= insert h (mkDescriptorSet pool bindings ∅) |>) p)
  | vkUpdateDescriptorSets _ writes => fun _ => write_all writes p
  | vkFreeDescriptorSets _ pool set => fun _ =>
      s ← descriptor_sets p !! set;
      guard (ds_pool s = pool);;
      Some (p <| descriptor_sets ::= delete set |>)
  | vkDestroy kind _ h => fun _ => check_destroyed p kind h
  | _ => fun _ => Some p
  end (ev_answer e).

(** The objects after the calls made, the latest first. *)
Fixpoint objects_after (calls : list event) : option pipeline_objects :=
  match calls with
  | [] => Some new_pipeline_objects
  | e :: earlier => p ← objects_after earlier; operate p e
  end.

(** ** Laws of a driver: what it creates is new. *)
Class PipelineLaws `{Driver} :=
  { sampler_new tr p d info :
      objects_after tr = Some p -> new_in (alive_samplers p) (answer tr (vkCreateSampler d info));
    shader_new tr p d code :
      objects_after tr = Some p -> new_in (shader_modules p) (answer tr (vkCreateShaderModule d code));
    set_layout_new tr p d bs :
      objects_after tr = Some p -> new_in (dom (set_layouts p)) (answer tr (vkCreateDescriptorSetLayout d bs));
    pipeline_layout_new tr p d ls :
      objects_after tr = Some p -> new_in (pipeline_layouts p) (answer tr (vkCreatePipelineLayout d ls));
    pipeline_new tr p d c info :
      objects_after tr = Some p -> new_in (dom (pipelines p)) (answer tr (vkCreateGraphicsPipelines d c info));
    descriptor_set_new tr p d pool l :
      objects_after tr = Some p -> new_in (dom (descriptor_sets p)) (answer tr (vkAllocateDescriptorSets d pool l)) }.

(** A creation that fails writes no handle. Vulkan leaves what it writes then undefined,
    so this is a habit of drivers, and what relies on it says so. *)
Definition tidy (r : created) : Prop := r.1 <> VK_SUCCESS -> r.2 = None \/ r.2 = Some VK_NULL_HANDLE.

Class TidyCreations `{Driver} :=
  { sampler_tidy tr d info : tidy (answer tr (vkCreateSampler d info));
    shader_tidy tr d code : tidy (answer tr (vkCreateShaderModule d code));
    set_layout_tidy tr d bs : tidy (answer tr (vkCreateDescriptorSetLayout d bs));
    pipeline_layout_tidy tr d ls : tidy (answer tr (vkCreatePipelineLayout d ls));
    descriptor_set_tidy tr d pool l : tidy (answer tr (vkAllocateDescriptorSets d pool l)) }.

(** ** How much of a pool is taken *)

Definition count_of (type : VkDescriptorType) (bindings : list VkDescriptorSetLayoutBinding) : Z :=
  foldr (fun b n => (if bool_decide (slb_descriptorType b = type) then slb_descriptorCount b else 0) + n) 0 bindings.

(** The sets of a pool. *)
Definition sets_of (p : pipeline_objects) (pool : VkHandle) : list descriptor_set :=
  List.filter (fun s => ds_pool s =? pool) (map_to_list (descriptor_sets p)).*2.

(** The pool was made for one more set with these bindings. *)
Definition has_room (p : pipeline_objects) (pool : VkHandle) (bindings : list VkDescriptorSetLayoutBinding) : bool :=
  match descriptor_pools p !! pool with
  | None => false
  | Some (n, sizes) =>
      let sets := sets_of p pool in
      (Z.of_nat (length sets) <? n) &&
      forallb (fun size => foldr (fun s m => count_of size.1 (ds_bindings s) + m) 0 sets
        + count_of size.1 bindings <=? size.2) sizes
  end.
