(* ===== verification/VulkanRenderRules.v ===== *)
(** * What Vulkan asks of the commands of a frame

    What is recorded into command buffers and the layouts of images, as an automaton
    over the calls made: a command buffer is being recorded, images change their layout
    and are copied or cleared outside of rendering and drawing happens inside, with a
    pipeline and a viewport; an image is in the layout that a command says it is in;
    and a pipeline is not destroyed while a command buffer that is being recorded
    uses it. What is bound is followed. *)

From stdpp Require Import base numbers list option strings gmap fin_maps sets.
From S2P Require Import Prelude RenderGraph VulkanFormats Vulkan VulkanContext VulkanUsage.

#[local] Open Scope Z_scope.

(** ** The automaton *)

(** A command buffer that is being recorded. *)
Record recording_state := mkRecordingState
  { rendering : bool; viewport : option VkViewport; scissor : option VkExtent2D;
    bound_pipeline : option VkHandle; bound_set : option (VkHandle * VkHandle);
    bound_vertices : gmap Z (VkHandle * Z); bound_indices : option (VkHandle * VkIndexType);
    used_pipelines : gset VkHandle }.
#[export] Instance recording_state_eta : Eta recording_state := fun k =>
  mkRecordingState (rendering k) (viewport k) (scissor k) (bound_pipeline k) (bound_set k)
    (bound_vertices k) (bound_indices k) (used_pipelines k).
Definition new_recording : recording_state := mkRecordingState false None None None None ∅ None ∅.

Record commands := mkCommands
  { recorded : gmap VkHandle recording_state; layouts : gmap VkHandle VkImageLayout;
    view_images : gmap VkHandle VkHandle }.
#[export] Instance commands_eta : Eta commands := fun s =>
  mkCommands (recorded s) (layouts s) (view_images s).
Definition new_commands : commands := mkCommands ∅ ∅ ∅.

(** An image starts without a layout. *)
Definition layout_of (s : commands) (image : VkHandle) : VkImageLayout :=
  default VK_IMAGE_LAYOUT_UNDEFINED (layouts s !! image).

(** A command in a buffer, in a state where [allowed], which changes the state. *)
Definition command (b : VkHandle) (allowed : recording_state -> bool)
    (change : recording_state -> recording_state) (s : commands) : option commands :=
  k ← recorded s !! b;
  guard (allowed k = true);;
  Some (s <| recorded ::= insert b (change k) |>).

Definition outside (k : recording_state) : bool := negb (rendering k).
Definition always (k : recording_state) : bool := true.

(** An image changes its layout from the one it is in, or loses its contents. *)
Definition change_layout (s : commands) (barrier : VkImageMemoryBarrier2) : option commands :=
  guard (imb_oldLayout barrier = VK_IMAGE_LAYOUT_UNDEFINED \/
         imb_oldLayout barrier = layout_of s (imb_image barrier));;
  Some (s <| layouts ::= insert (imb_image barrier) (imb_newLayout barrier) |>).

Fixpoint change_layouts (s : commands) (barriers : list VkImageMemoryBarrier2) : option commands :=
  match barriers with
  | [] => Some s
  | barrier :: barriers => s ← change_layout s barrier; change_layouts s barriers
  end.

(** A command outside of rendering on an image in a layout. *)
Definition on_image (b image : VkHandle) (layout : VkImageLayout) (s : commands) : option commands :=
  guard (layout_of s image = layout);; command b outside id s.

(** An attachment is a view of an image in the layout that is said. *)
Definition attached (s : commands) (a : VkRenderingAttachmentInfo) : Prop :=
  layout_of s <$> (view_images s !! rai_imageView a) = Some (rai_imageLayout a).
#[export] Instance attached_dec s a : Decision (attached s a).
Proof. unfold attached. apply _. Defined.

Definition can_draw (k : recording_state) : bool :=
  rendering k && bool_decide (is_Some (bound_pipeline k)) && bool_decide (is_Some (viewport k)) &&
  bool_decide (is_Some (scissor k)).
Definition can_draw_indexed (k : recording_state) : bool :=
  can_draw k && bool_decide (is_Some (bound_indices k)).

(** No buffer that is being recorded uses a pipeline. *)
Definition unused (s : commands) (h : VkHandle) : Prop :=
  map_Forall (fun _ k => h ∉ used_pipelines k) (recorded s).
#[export] Instance unused_dec s h : Decision (unused s h).
Proof. unfold unused. apply _. Defined.

Definition record (s : commands) (e : event) : option commands :=
  match ev_call e in vk A return A -> option commands with
  | vkBeginCommandBuffer b => fun result => Some (
      if succeeded result then s <| recorded ::= insert b new_recording |> else s)
  | vkEndCommandBuffer b => fun _ =>
      k ← recorded s !! b;
      guard (rendering k = false);;
      Some (s <| recorded ::= delete b |>)
  | vkCmdPipelineBarrier2 b images _ => fun _ => s ← command b outside id s; change_layouts s images
  | vkCmdCopyBuffer b _ _ _ => fun _ => command b outside id s
  | vkCmdCopyImageToBuffer b image layout _ _ => fun _ => on_image b image layout s
  | vkCmdCopyBufferToImage b _ image layout _ => fun _ => on_image b image layout s
  | vkCmdCopyImage b source layout destination layout' _ => fun _ =>
      s ← on_image b source layout s; on_image b destination layout' s
  | vkCmdClearColorImage b image layout _ _ => fun _ => on_image b image layout s
  | vkCmdClearDepthStencilImage b image layout _ _ => fun _ => on_image b image layout s
  | vkCmdBeginRendering b info => fun _ =>
      guard (attached s (ri_color info) /\ attached s (ri_depth info));;
      command b outside (fun k => k <| rendering := true |>) s
  | vkCmdEndRendering b => fun _ => command b rendering (fun k => k <| rendering := false |>) s
  | vkCmdSetViewport b v => fun _ => command b always (fun k => k <| viewport := Some v |>) s
  | vkCmdSetScissor b e => fun _ => command b always (fun k => k <| scissor := Some e |>) s
  | vkCmdBindPipeline b p => fun _ =>
      command b always (fun k => k <| bound_pipeline := Some p |> <| used_pipelines ::= union {[p]} |>) s
  | vkCmdBindDescriptorSets b layout set => fun _ =>
      command b always (fun k => k <| bound_set := Some (layout, set) |>) s
  | vkCmdBindVertexBuffers b i buffer offset => fun _ =>
      command b always (fun k => k <| bound_vertices ::= insert i (buffer, offset) |>) s
  | vkCmdBindIndexBuffer b buffer type => fun _ =>
      guard (buffer <> VK_NULL_HANDLE);;
      command b always (fun k => k <| bound_indices := Some (buffer, type) |>) s
  | vkCmdDraw b _ _ _ _ => fun _ => command b can_draw id s
  | vkCmdDrawIndexed b _ _ _ _ _ => fun _ => command b can_draw_indexed id s
  | vkCreateImageView _ info => fun r => Some (match r with
      | (VK_SUCCESS, Some h) => s <| view_images ::= insert h (vci_image info) |>
      | _ => s
      end)
  | vmaCreateImage _ _ _ => fun r => Some (match r with
      | (VK_SUCCESS, Some (h, _)) => s <| layouts ::= delete h |>
      | _ => s
      end)
  | vkDestroy kind _ h => fun _ =>
      match kind with
      | Pipeline => guard (unused s h);; Some s
      | ImageView => Some (s <| view_images ::= delete h |>)
      | _ => Some s
      end
  | _ => fun _ => Some s
  end (ev_answer e).

(** The state after the calls made, the latest first. *)
Fixpoint commands_after (calls : list event) : option commands :=
  match calls with
  | [] => Some new_commands
  | e :: earlier => s ← commands_after earlier; record s e
  end.
