(* ===== verification/VulkanDriver.v ===== *)
(** * A driver

    A concrete driver, in which the examples of the theorems are evaluated: it
    has one device with one queue family, every creation succeeds with a new
    handle, and a few of its answers are parameters. *)

From stdpp Require Import base numbers list option strings gmap fin_maps sets.
From S2P Require Import Prelude RenderGraph VulkanFormats Vulkan VulkanContext VulkanUsage VulkanMemory VulkanQueryRules VulkanPipelineRules VulkanRenderRules.
Import VkFormat.

#[local] Open Scope Z_scope.

(** What varies: the result of a call and the extent of the window, given the
    calls made before. *)
Record conditions := mkConditions
  { result_of : forall A, list event -> vk A -> VkResult;
    extent_of : list event -> VkExtent2D }.

(** Every call succeeds, and the window has an extent. *)
Definition calm : conditions := mkConditions (fun _ _ _ => VK_SUCCESS) (fun _ => mkVkExtent2D 800 600).

(** A handle that is not among those alive. *)
Definition alive (g : gpu) : gset VkHandle :=
  dom (fences g) ∪ dom (semaphores g) ∪ pools g ∪ dom (buffers g) ∪ swapchains g.
Definition fresh_handle (hs : gset VkHandle) : VkHandle := 1 + foldr Z.max 0 (elements hs).

Lemma fresh_handle_above hs h : h ∈ hs -> h < fresh_handle hs.
Proof.
  unfold fresh_handle. rewrite <- elem_of_elements. induction (elements hs) as [|x l IH]; [by intros ?%not_elem_of_nil|].
  cbn. intros [->|Hh]%elem_of_cons; [lia|]. specialize (IH Hh). lia.
Qed.

Lemma fresh_handle_given hs : fresh_handle hs <> VK_NULL_HANDLE.
Proof.
  unfold fresh_handle. enough (0 <= foldr Z.max 0 (elements hs)) by (unfold VK_NULL_HANDLE; lia).
  induction (elements hs); cbn; lia.
Qed.

(** The numbers of the memory there is and of what is bound to it. *)
Definition handle_of (r : resource) : VkHandle := match r with ABuffer h | AnImage h => h end.
Definition handles_of (m : memory) : gset VkHandle :=
  dom (allocations m) ∪ set_map handle_of (dom (bound m)).

(** The numbers of shaders, samplers, layouts, pipelines and descriptor sets. *)
Definition made (p : pipeline_objects) : gset VkHandle :=
  shader_modules p ∪ alive_samplers p ∪ dom (set_layouts p) ∪ pipeline_layouts p ∪ dom (pipelines p) ∪
  dom (descriptor_sets p).

(** The submissions that signal a timeline semaphore. *)
Definition signals (semaphore : VkHandle) (e : event) : bool :=
  match ev_call e with
  | vkQueueSubmit2 _ info _ => si_timelineSemaphore info =? semaphore
  | _ => false
  end.

Section driver.
Context (c : conditions).

Definition result (tr : list event) {A} (f : vk A) : VkResult := result_of c A tr f.
Definition new_handle (tr : list event) : VkHandle :=
  match usage tr with Some g => fresh_handle (alive g) | None => 1 end.
Definition creation (tr : list event) {A} (f : vk A) : created :=
  let r := result tr f in (r, if succeeded r then Some (new_handle tr) else None).
(** What an enumeration of [xs] writes where there is [room]. *)
Definition written {A} (room : capacity) (xs : list A) : nat * list A :=
  match room with None => (length xs, []) | Some n => (Nat.min n (length xs), take n xs) end.
Definition elements {A B} (tr : list event) (f : vk B) (room : capacity) (xs : list A) : enumerated A :=
  (result tr f, written room xs).

(** An image or a buffer, and its memory: a number that nothing there has. *)
Definition placement (tr : list event) {A} (f : vk A) : VkResult * option (VkHandle * VkHandle) :=
  let r := result tr f in
  let h := match memory_after tr with Some m => fresh_handle (handles_of m) | None => 1 end in
  (r, if succeeded r then Some (h, h) else None).

(** A pool of queries: a number that no pool alive has. *)
Definition pool_creation (tr : list event) {A} (f : vk A) : created :=
  let r := result tr f in
  let h := match queries_after tr with Some m => fresh_handle (dom m) | None => 1 end in
  (r, if succeeded r then Some h else None).

(** A shader, a sampler, a layout, a pipeline or a descriptor set: a number that none
    of them alive has. *)
Definition object_creation (tr : list event) {A} (f : vk A) : created :=
  let r := result tr f in
  let h := match objects_after tr with Some p => fresh_handle (made p) | None => 1 end in
  (r, if succeeded r then Some h else None).

(** A view: a number that no view alive has. *)
Definition view_creation (tr : list event) {A} (f : vk A) : created :=
  let r := result tr f in
  let h := match commands_after tr with Some s => fresh_handle (dom (view_images s)) | None => 1 end in
  (r, if succeeded r then Some h else None).

Definition respond : Driver := fun A tr f =>
  match f in vk A return A with
  | vkEnumerateInstanceLayerProperties room as f => elements tr f room []
  | vkEnumerateInstanceExtensionProperties room as f => elements tr f room []
  | vkCreateInstance _ _ as f => creation tr f
  | vkGetInstanceProcAddr _ _ => false
  | vkCreateDebugUtilsMessengerEXT _ as f => creation tr f
  | vkCreateWin32SurfaceKHR _ _ as f => creation tr f
  | vkEnumeratePhysicalDevices _ room as f => elements tr f room [1]
  | vkGetPhysicalDeviceProperties _ => mkVkPhysicalDeviceProperties 0x403000 7 0x10de 0x12345678 "device" 16384 0x3f800000 1
  | vkEnumerateDeviceExtensionProperties _ room as f => elements tr f room REQUIRED_DEVICE_EXTENSIONS
  | vkGetPhysicalDeviceFeatures _ => mkVkPhysicalDeviceFeatures true
  | vkGetPhysicalDeviceFeatures2 _ =>
      (mkVkPhysicalDeviceVulkan13Features true true, mkVkPhysicalDeviceVulkan12Features true true)
  | vkGetPhysicalDeviceProperties2 _ => tt
  | vkGetPhysicalDeviceQueueFamilyProperties _ room => written room [VK_QUEUE_GRAPHICS_BIT]
  | vkGetPhysicalDeviceSurfaceSupportKHR _ _ _ as f => (result tr f, true)
  | vkGetPhysicalDeviceMemoryProperties _ => []
  | vkGetPhysicalDeviceFormatProperties _ _ => (0, VK_FORMAT_FEATURE_DEPTH_STENCIL_ATTACHMENT_BIT)
  | vkCreateDevice _ _ as f => creation tr f
  | vkGetDeviceQueue _ _ => 1
  | vmaCreateAllocator _ _ _ as f => creation tr f
  | vkCreatePipelineCache _ as f => creation tr f
  | vkCreateSampler _ _ as f => object_creation tr f
  | vkCreateShaderModule _ _ as f => object_creation tr f
  | vkCreateDescriptorSetLayout _ _ as f => object_creation tr f
  | vkCreatePipelineLayout _ _ as f => object_creation tr f
  | vkCreateGraphicsPipelines _ _ _ as f => object_creation tr f
  | vkAllocateDescriptorSets _ _ _ as f => object_creation tr f
  | vkUpdateDescriptorSets _ _ => tt
  | vkFreeDescriptorSets _ _ _ as f => result tr f
  | vkCreateQueryPool _ _ _ as f => pool_creation tr f
  | vkGetPhysicalDeviceSurfaceCapabilitiesKHR _ _ as f =>
      (result tr f, mkVkSurfaceCapabilitiesKHR 2 0 (extent_of c tr) (mkVkExtent2D 1 1)
         (mkVkExtent2D 4096 4096) 0)
  | vkGetPhysicalDeviceSurfaceFormatsKHR _ _ room as f =>
      elements tr f room [mkVkSurfaceFormatKHR VK_FORMAT_B8G8R8A8_UNORM VK_COLOR_SPACE_SRGB_NONLINEAR_KHR]
  | vkGetPhysicalDeviceSurfacePresentModesKHR _ _ room as f => elements tr f room [VK_PRESENT_MODE_FIFO_KHR]
  | vkCreateSwapchainKHR _ _ as f => creation tr f
  | vkGetSwapchainImagesKHR _ _ room as f => elements tr f room [101; 102]
  | vkCreateImageView _ _ as f => view_creation tr f
  | vmaCreateImage _ _ _ as f => placement tr f
  | vmaCreateBuffer _ _ _ as f => placement tr f
  | vmaMapMemory _ a as f =>
      let r := result tr f in (r, if succeeded r then Some (Pointer a 0) else None)
  | vmaUnmapMemory _ _ => tt
  | vmaFlushAllocation _ _ => tt
  | vmaInvalidateAllocation _ _ _ _ => tt
  | memcpy _ _ => tt
  | vkCmdCopyBuffer _ _ _ _ => tt
  | vkCmdPipelineBarrier2 _ _ _ => tt
  | vkCmdCopyImageToBuffer _ _ _ _ _ => tt
  | vkCmdCopyBufferToImage _ _ _ _ _ => tt
  | vkCmdCopyImage _ _ _ _ _ _ => tt
  | vkCmdResetQueryPool _ _ _ _ => tt
  | vkCmdWriteTimestamp2 _ _ _ => tt
  | vkCmdBeginQuery _ _ _ => tt
  | vkCmdEndQuery _ _ _ => tt
  | vkCmdClearColorImage _ _ _ _ _ => tt
  | vkCmdClearDepthStencilImage _ _ _ _ _ => tt
  | vkCmdBeginRendering _ _ => tt
  | vkCmdEndRendering _ => tt
  | vkCmdSetViewport _ _ => tt
  | vkCmdSetScissor _ _ => tt
  | vkCmdBindPipeline _ _ => tt
  | vkCmdBindDescriptorSets _ _ _ => tt
  | vkCmdBindVertexBuffers _ _ _ _ => tt
  | vkCmdBindIndexBuffer _ _ _ => tt
  | vkCmdDraw _ _ _ _ _ => tt
  | vkCmdDrawIndexed _ _ _ _ _ _ => tt
  | vkCmdBeginDebugUtilsLabelEXT _ _ => tt
  | vkCmdEndDebugUtilsLabelEXT _ => tt
  | vkGetQueryPoolResults _ _ _ _ _ _ as f => (result tr f, [])
  | vmaDestroyImage _ _ _ => tt
  | vmaDestroyBuffer _ _ _ => tt
  | vkCreateCommandPool _ _ as f => creation tr f
  | vkAllocateCommandBuffers _ _ as f => creation tr f
  | vkCreateDescriptorPool _ _ _ as f => creation tr f
  | vkCreateSemaphore _ _ as f => creation tr f
  | vkCreateFence _ _ as f => creation tr f
  | vkDestroy _ _ _ => tt
  | vkWaitForFences _ _ as f => result tr f
  | vkResetFences _ _ as f => result tr f
  | vkGetSemaphoreCounterValue _ semaphore as f =>
      (result tr f, Z.of_nat (length (List.filter (signals semaphore) tr)))
  | vkResetCommandPool _ _ as f => result tr f
  | vkBeginCommandBuffer _ as f => result tr f
  | vkEndCommandBuffer _ as f => result tr f
  | vkAcquireNextImageKHR _ _ _ as f =>
      let r := result tr f in
      (r, if succeeded r || bool_decide (r = VK_SUBOPTIMAL_KHR) then Some 0 else None)
  | vkQueueSubmit2 _ _ _ as f => result tr f
  | vkQueueSubmitSignal _ _ _ as f => result tr f
  | vkWaitSemaphores _ _ _ as f => result tr f
  | vkQueuePresentKHR _ _ _ _ as f => result tr f
  | vkDeviceWaitIdle _ => VK_SUCCESS
  | vkGetDeviceProcAddr _ _ => false
  | vkGetDeviceFaultInfoEXT _ counts info as f =>
      (result tr f, if info then counts else mkVkDeviceFaultCountsEXT 0 0 0)
  | vkSetDebugUtilsObjectNameEXT _ _ _ _ => tt
  end.


(** ** Its laws *)

Lemma placement_placed {A} tr m kind (f : vk A) :
  (forall h, handle_of (kind h) = h) -> memory_after tr = Some m -> placed m kind (placement tr f).
Proof.
  intros Hk Hm. unfold placed, placement. rewrite Hm. cbn [fst snd]. destruct (succeeded _); [|by left].
  set (h := fresh_handle _). exists h, h. split; [done|].
  do 2 (split; [apply fresh_handle_given|]). assert (Hh : h ∉ handles_of m) by (intros Hin%fresh_handle_above; unfold h in Hin; lia).
  unfold handles_of in Hh. split; [|set_solver].
  intros Hin. apply Hh, elem_of_union_r, elem_of_map. exists (kind h). by rewrite Hk.
Qed.

Lemma respond_queries : @QueryLaws respond.
Proof.
  intros tr m d type n Hm. cbn. unfold new_in, pool_creation. rewrite Hm. cbn. intros ->.
  eexists. split; [done|]. split; [apply fresh_handle_given|]. intros Hin%fresh_handle_above. lia.
Qed.

Lemma object_creation_new {A} tr p hs (f : vk A) :
  objects_after tr = Some p -> hs ⊆ made p -> new_in hs (object_creation tr f).
Proof.
  intros Hp Hhs. unfold new_in, object_creation. rewrite Hp. cbn. intros ->.
  eexists. split; [done|]. split; [apply fresh_handle_given|]. intros Hin%Hhs%fresh_handle_above. lia.
Qed.

Lemma respond_makes : @PipelineLaws respond.
Proof. split; intros; (eapply object_creation_new; [eassumption|]); unfold made; set_solver +. Qed.

Lemma object_creation_tidy {A} tr (f : vk A) : tidy (object_creation tr f).
Proof.
  unfold tidy, object_creation, succeeded. cbn. intros Hr. left. by rewrite bool_decide_eq_false_2.
Qed.

Lemma respond_tidy : @TidyCreations respond.
Proof. split; intros; apply object_creation_tidy. Qed.

Lemma respond_allocates : @AllocatorLaws respond.
Proof.
  split; [intros; by apply placement_placed..|]. intros tr al a. cbn. intros ->. done.
Qed.
Context (never_suboptimal : forall A tr (f : vk A), result_of c A tr f = VK_SUBOPTIMAL_KHR ->
  forall r, reports f r = None).

Lemma creation_new {A} tr g hs (f : vk A) :
  usage tr = Some g -> hs ⊆ alive g -> new_in hs (creation tr f).
Proof.
  intros Hu Hhs. unfold new_in, creation. cbn. intros ->. cbn. unfold new_handle. rewrite Hu.
  eexists. split; [done|]. split; [apply fresh_handle_given|].
  intros Hh%Hhs%fresh_handle_above. lia.
Qed.

Lemma respond_laws : @DriverLaws respond.
Proof.
  assert (Halive : forall g, dom (fences g) ⊆ alive g /\ dom (semaphores g) ⊆ alive g /\
    pools g ⊆ alive g /\ dom (buffers g) ⊆ alive g /\ swapchains g ⊆ alive g).
  { intros g. unfold alive. set_solver +. }
  split; try (intros tr g; intros; destruct (Halive g) as (? & ? & ? & ? & ?); by eapply creation_new).
  - intros tr d info. cbn. unfold new_in, creation. cbn. intros ->. cbn.
    eexists. split; [done|]. split; [|apply not_elem_of_empty].
    unfold new_handle. destruct (usage tr); [apply fresh_handle_given|done].
  - intros tr d sc sem. cbn. intros ->. by exists 0.
  - intros tr A f E. pose proof (never_suboptimal A tr f) as Hnever.
    pose proof (fun Hr => Hnever Hr (respond A tr f)) as Hnone.
    destruct f; cbn in E, Hnone; try done; injection E as E; by specialize (Hnone E).
  - intros tr i n. cbn. lia.
  - intros tr d n. cbn. lia.
  - intros tr d sc n. cbn. lia.
  - by intros tr d counts.
  - done.
Qed.

End driver.

Lemma calm_maps : ~ @mapping_fails (respond calm).
Proof. intros (tr & al & a & Hf). by apply Hf. Qed.

Lemma calm_laws : @DriverLaws (respond calm).
Proof. by apply respond_laws. Qed.
