(* ===== verification/VulkanObject.v ===== *)
(** * Objects of the abstraction layer

    A buffer, a texture or a query is an object of its own whose functions are given
    the context: their code runs on the pair of the two. Code of the context runs in
    it, and host data is copied into memory that is mapped. *)

From Stdlib Require Import Strings.Byte.
From stdpp Require Import base numbers list option strings gmap.
From S2P Require Import Prelude RenderGraph VulkanFormats Vulkan VulkanContext VulkanUsage VulkanMemory.

#[local] Open Scope Z_scope.

(** The context and an object. *)
Definition with_context (O : Type) : Type := VulkanContext * O.

Definition at_ {O} (c : VulkanContext) (o : O) (tr : list event) : world (with_context O) := mkWorld (c, o) tr.

(** [Tr2DeviceResourceDescriptionAL]: what an object says about itself. *)
Definition Description : Type := gmap string string.

(** No object: the members that stay null in an entry. *)
Definition new_VulkanDeferredDestroy : VulkanDeferredDestroy :=
  mkVulkanDeferredDestroy 0 0 0 0 0 0 0 0 0 0 0 0 0 0 0 0.

(** An entry with a buffer and its memory. *)
Definition deferred_buffer (device allocator timelineValue buffer allocation : Z) : VulkanDeferredDestroy :=
  mkVulkanDeferredDestroy device allocator timelineValue 0 0 buffer allocation 0 0 0 0 0 0 0 0 0.

Lemma is_null_false h : h <> VK_NULL_HANDLE -> is_null h = false.
Proof. apply Z.eqb_neq. Qed.

Lemma deferred_buffer_holdings device allocator v b a :
  b <> VK_NULL_HANDLE -> entry_holdings (deferred_buffer device allocator v b a) = [(ABuffer b, a)].
Proof.
  intros Hb. unfold entry_holdings, unless_absent. cbn. unfold is_null.
  by rewrite (proj2 (Z.eqb_neq b VK_NULL_HANDLE) Hb).
Qed.

Section object.
Context `{Driver} {O : Type}.

Definition in_context {A} (m : Code VulkanContext A) : Code (with_context O) A := fun w =>
  let (r, w') := m (mkWorld (fst (object w)) (trace w)) in
  (r, mkWorld (object w', snd (object w)) (trace w')).

(** Code of an object that the object holds: where it finds it, and how it keeps it. *)
Definition in_member {P A} (find : O -> P) (store : P -> O -> O) (m : Code (with_context P) A)
    : Code (with_context O) A := fun w =>
  let (r, w') := m (mkWorld (fst (object w), find (snd (object w))) (trace w)) in
  (r, mkWorld (fst (object w'), store (snd (object w')) (snd (object w))) (trace w')).

(** A member of the object, an assignment to it, and an output parameter that is one. *)
Definition member {A} (f : O -> A) : Code (with_context O) A := this (fun o => f (snd o)).
Definition assign (f : O -> O) : Code (with_context O) unit := update (fun o => (fst o, f (snd o))).
Definition out_member {A} (set : A -> O -> O) (c : vk (VkResult * option A)) : Code (with_context O) VkResult :=
  call_out (fun a o => (fst o, set a (snd o))) c.

(** Reading [n] bytes where [data] points: undefined when there are fewer. *)
Definition read_bytes (data : list byte) (offset n : Z) : Code (with_context O) (list byte) :=
  if within offset n (Z.of_nat (length data))
  then mret (take (Z.to_nat n) (drop (Z.to_nat offset) data)) else wrong.

Implicit Types (w : world (with_context O)).

Lemma runs_in_context {A} (m : Code VulkanContext A) Q R w :
  runs m (fun a v => Q a (mkWorld (object v, snd (object w)) (trace v)))
    (fun hr v => R hr (mkWorld (object v, snd (object w)) (trace v)))
    (mkWorld (fst (object w)) (trace w)) ->
  runs (in_context m) Q R w.
Proof. unfold runs, in_context. by destruct (m _) as [[a|hr|] w']. Qed.

Lemma runs_in_member {P A} (find : O -> P) store (m : Code (with_context P) A) Q R w :
  runs m (fun a v => Q a (mkWorld (fst (object v), store (snd (object v)) (snd (object w))) (trace v)))
    (fun hr v => R hr (mkWorld (fst (object v), store (snd (object v)) (snd (object w))) (trace v)))
    (mkWorld (fst (object w), find (snd (object w))) (trace w)) ->
  runs (in_member find store m) Q R w.
Proof. unfold runs, in_member. by destruct (m _) as [[a|hr|] w']. Qed.

Lemma runs_member {A} (f : O -> A) Q R w : Q (f (snd (object w))) w -> runs (member f) Q R w.
Proof. done. Qed.

Lemma runs_assign (f : O -> O) Q R w :
  Q tt (mkWorld (fst (object w), f (snd (object w))) (trace w)) -> runs (assign f) Q R w.
Proof. done. Qed.

Lemma runs_read_bytes data offset n Q R w :
  0 <= offset -> 0 <= n -> offset + n <= Z.of_nat (length data) ->
  Q (take (Z.to_nat n) (drop (Z.to_nat offset) data)) w -> runs (read_bytes data offset n) Q R w.
Proof.
  intros. unfold read_bytes, within. rewrite !(proj2 (Z.leb_le _ _)) by lia. by apply runs_ret.
Qed.

(** The current frame. *)
Definition frame_of (c : VulkanContext) : option VulkanFrameContext :=
  frames (state c) !! Z.to_nat (frameIndex (state c)).

Lemma runs_frame_of f (Q : _ -> world VulkanContext -> Prop) R (v : world VulkanContext) :
  frame_of (object v) = Some f -> Q f v -> runs current_frame Q R v.
Proof.
  intros Hf HQ. unfold current_frame, frame_at. apply runs_bind, runs_this, runs_bind, runs_this.
  unfold frame_of in Hf. rewrite Hf. by apply runs_ret.
Qed.

Lemma runs_GetCurrentCommandBuffer f (Q : _ -> world VulkanContext -> Prop) R (v : world VulkanContext) :
  frame_of (object v) = Some f -> Q (commandBuffer f) v -> runs GetCurrentCommandBuffer Q R v.
Proof. intros Hf HQ. apply runs_bind. eapply runs_frame_of; [done|]. by apply runs_ret. Qed.

Lemma runs_GetCurrentTimelineValue f (Q : _ -> world VulkanContext -> Prop) R (v : world VulkanContext) :
  frame_of (object v) = Some f -> Q (timelineValue f) v -> runs GetCurrentTimelineValue Q R v.
Proof. intros Hf HQ. apply runs_bind. eapply runs_frame_of; [done|]. by apply runs_ret. Qed.

End object.

(** The calls made so far. *)
Definition calls {S} : Code S (list event) := fun w => (Next (trace w), w).

Lemma runs_calls {S} (Q : _ -> world S -> Prop) R w : Q (trace w) w -> runs calls Q R w.
Proof. done. Qed.

(** A loop whose invariant is of what has been done. *)
Lemma runs_for_each {S A} (f : A -> Code S unit) (I : list A -> world S -> Prop) R xs w :
  I [] w ->
  (forall before x after w, xs = before ++ x :: after -> I before w -> runs (f x) (fun _ => I (before ++ [x])) R w) ->
  runs (for_each f xs) (fun _ => I xs) R w.
Proof.
  intros H0 Hstep. enough (Hgen : forall before after w, xs = before ++ after -> I before w ->
    runs (for_each f after) (fun _ => I xs) R w) by by apply (Hgen []).
  clear H0 w. intros before after. revert before. induction after as [|x after IH]; intros before w Hxs HI; cbn [for_each].
  - apply runs_ret. by rewrite Hxs, app_nil_r.
  - apply runs_bind. eapply runs_mono; [by eapply Hstep| |done]. intros [] v Hv. eapply (IH (before ++ [x])); [|exact Hv].
    by rewrite <- app_assoc.
Qed.

Lemma runs_then_tt {S A} (n : Code S A) (Q : world S -> Prop) R w :
  runs n (fun _ => Q) R w -> runs (n;; mret tt) (fun _ => Q) R w.
Proof. intros Hn. apply runs_bind. eapply runs_mono; [exact Hn|..]; [|done]. intros a v Hv. by apply runs_ret. Qed.
