(* ===== verification/VulkanBuffer.v ===== *)
(** * Buffers

    [src/src/trinityal-vulkan/Tr2BufferALVulkan.cpp] and
    [Tr2ConstantBufferALVulkan.cpp]: buffers for vertices, indices and storage, that
    the host reads and writes where their memory is visible to it and that it fills
    through a staging buffer where it is not; and buffers for constants. Messages of
    the log are left out, and so are members that are written and never read. *)

From Stdlib Require Import Strings.Byte.
From stdpp Require Import base numbers list option strings gmap pretty.
From S2P Require Import Prelude RenderGraph VulkanFormats Vulkan VulkanContext VulkanUsage VulkanMemory VulkanObject.

#[local] Open Scope string_scope.
#[local] Open Scope Z_scope.

(** [ImageIO::GetBytesPerPixel], of the engine. *)
Class ImageIO := GetBytesPerPixel : PixelFormat -> Z.

(** The members of [Tr2BufferDescriptionAL] that are read. *)
Record Tr2BufferDescriptionAL := mkTr2BufferDescriptionAL
  { bd_format : PixelFormat; bd_stride : Z; bd_count : Z;
    bd_gpuUsage : Tr2GpuUsage -> bool; bd_cpuUsage : Tr2CpuUsage -> bool }.

Definition VK_OBJECT_TYPE_BUFFER : Z := 9.

Module Tr2BufferAL.

Record t := mk
  { m_desc : option Tr2BufferDescriptionAL; m_buffer : VkHandle; m_allocation : VkHandle;
    m_sizeBytes : Z; m_usageFlags : list buffer_usage; m_memoryFlags : list memory_property;
    m_mappedData : pointer; m_isMapped : bool; m_device : VkHandle; m_allocator : VkHandle }.

#[export] Instance t_eta : Eta t := fun o =>
  mk (m_desc o) (m_buffer o) (m_allocation o) (m_sizeBytes o) (m_usageFlags o) (m_memoryFlags o)
    (m_mappedData o) (m_isMapped o) (m_device o) (m_allocator o).

Definition new : t := mk None 0 0 0 [] [] nullptr false 0 0.

(** [m_memoryFlags & VK_MEMORY_PROPERTY_HOST_VISIBLE_BIT]. *)
Definition host_visible (o : t) : bool :=
  bool_decide (VK_MEMORY_PROPERTY_HOST_VISIBLE_BIT ∈ m_memoryFlags o).

Section code.
Context `{Driver} `{ImageIO}.
Abbreviation C := (Code (with_context t)).

Definition map : C VkResult :=
  o ← member id;
  out_member (fun p o => o <| m_mappedData := p |>) (vmaMapMemory (m_allocator o) (m_allocation o)).

(** [UnmapForReading], [UnmapForWriting], and the first part of [Destroy]. *)
Definition unmap : C unit :=
  o ← member id;
  if m_isMapped o then
    call (vmaUnmapMemory (m_allocator o) (m_allocation o));;
    assign (fun o => o <| m_isMapped := false |> <| m_mappedData := nullptr |>)
  else mret tt.

Definition Destroy : C unit :=
  o ← member id;
  if is_null (m_buffer o) then mret tt else
  unmap;;
  call (vmaDestroyBuffer (m_allocator o) (m_buffer o) (m_allocation o));;
  assign (fun o => o <| m_buffer := VK_NULL_HANDLE |> <| m_allocation := VK_NULL_HANDLE |>).

(** The mapping that the functions below share: whether there is one then. *)
Definition ensure_mapped : C bool :=
  o ← member id;
  if m_isMapped o then mret true else
  result ← map;
  if succeeded result then assign (fun o => o <| m_isMapped := true |>);; mret true
  else mret false.

(** The result, and [data] where it is assigned. *)
Definition MapForReading_range (offset size : Z) : C (ALResult * option pointer) :=
  o ← member id;
  if m_sizeBytes o <? u32 (offset + size) then mret (E_INVALIDARG, None) else
  mapped ← ensure_mapped;
  if negb mapped then mret (E_FAIL, None) else
  o ← member id;
  mret (S_OK, Some (advance (m_mappedData o) offset)).

Definition MapForReading : C (ALResult * option pointer) :=
  o ← member id; MapForReading_range 0 (u32 (m_sizeBytes o)).

Definition UnmapForReading : C unit := unmap.

Definition MapForWriting : C (ALResult * option pointer) :=
  mapped ← ensure_mapped;
  if negb mapped then mret (E_FAIL, None) else
  o ← member id; mret (S_OK, Some (m_mappedData o)).

Definition UnmapForWriting : C unit := unmap.

(** [data] copied to [offset] of memory that is mapped for it. *)
Definition update_mapped (offset size : Z) (data : list byte) : C ALResult :=
  o ← member id;
  mapped ← call (vmaMapMemory (m_allocator o) (m_allocation o));
  if negb (succeeded mapped.1) then mret E_FAIL else
  source ← read_bytes data 0 size;
  call (memcpy (advance (default nullptr mapped.2) offset) source);;
  call (vmaUnmapMemory (m_allocator o) (m_allocation o));;
  mret S_OK.

(** The copy of [data] into a staging buffer: without one when it cannot be mapped. *)
Definition fill_staging (allocator allocation size : Z) (data : list byte) : C unit :=
  mapped ← call (vmaMapMemory allocator allocation);
  if succeeded mapped.1 then
    source ← read_bytes data 0 size;
    call (memcpy (default nullptr mapped.2) source);;
    call (vmaUnmapMemory allocator allocation)
  else mret tt.

Definition update_staged (offset size : Z) (data : list byte) : C ALResult :=
  o ← member id;
  commandBuffer ← in_context GetCurrentCommandBuffer;
  created ← call (vmaCreateBuffer (m_allocator o)
    (mkVkBufferCreateInfo size [VK_BUFFER_USAGE_TRANSFER_SRC_BIT])
    (mkVmaAllocationCreateInfo (Some VMA_ALLOCATION_CREATE_HOST_ACCESS_SEQUENTIAL_WRITE_BIT) []));
  if negb (succeeded created.1) then mret E_OUTOFMEMORY else
  let staging := default (VK_NULL_HANDLE, VK_NULL_HANDLE) created.2 in
  fill_staging (m_allocator o) staging.2 size data;;
  call (vkCmdCopyBuffer commandBuffer staging.1 (m_buffer o) (mkVkBufferCopy 0 offset size));;
  value ← in_context GetCurrentTimelineValue;
  in_context (Retire
    (deferred_buffer (m_device o) (m_allocator o) (u64 (value + 1)) staging.1 staging.2));;
  mret S_OK.

Definition UpdateBuffer (offset size : Z) (data : option (list byte)) : C ALResult :=
  o ← member id;
  match data with
  | None => mret E_INVALIDARG
  | Some data =>
      if m_sizeBytes o <? u32 (offset + size) then mret E_INVALIDARG
      else if host_visible o then update_mapped offset size data
      else update_staged offset size data
  end.

Definition Create (desc : Tr2BufferDescriptionAL) (initialData : option (list byte)) : C ALResult :=
  s ← in_context (get id);
  let stride :=
    if bool_decide (bd_format desc = PIXEL_FORMAT_UNKNOWN) then bd_stride desc
    else GetBytesPerPixel (bd_format desc) in
  assign (fun o => o <| m_desc := Some desc |> <| m_device := device s |>
    <| m_allocator := allocator s |> <| m_sizeBytes := u64 (stride * bd_count desc) |>
    <| m_usageFlags := ConvertGpuUsageToBufferUsage (bd_gpuUsage desc) |>
    <| m_memoryFlags := ConvertCpuUsageToMemoryFlags (bd_cpuUsage desc) |>);;
  o ← member id;
  result ← out_member (fun p o => o <| m_buffer := p.1 |> <| m_allocation := p.2 |>)
    (vmaCreateBuffer (m_allocator o) (mkVkBufferCreateInfo (m_sizeBytes o) (m_usageFlags o))
      (mkVmaAllocationCreateInfo None (m_memoryFlags o)));
  if negb (succeeded result) then mret E_OUTOFMEMORY else
  match initialData with
  | None => mret S_OK
  | Some data =>
      updateResult ← UpdateBuffer 0 (u32 (m_sizeBytes o)) (Some data);
      if FAILED updateResult then Destroy;; mret updateResult else mret S_OK
  end.

Definition SetName (name : option string) : C ALResult :=
  o ← member id;
  in_context (SetVulkanObjectName (m_device o) (m_buffer o) VK_OBJECT_TYPE_BUFFER name);;
  mret S_OK.

End code.

Definition IsValid (o : t) : bool := negb (is_null (m_buffer o)).

Definition Describe (o : t) (description : Description) : Description :=
  <["size" := pretty (m_sizeBytes o)]> (<["type" := "buffer"]> description).

(** The buffer, its first byte and its size. *)
Definition GetDescriptorInfo (o : t) : VkHandle * Z * Z := (m_buffer o, 0, m_sizeBytes o).

End Tr2BufferAL.

(** ** Buffers for constants *)

Module Tr2ConstantBufferAL.

Record t := mk
  { m_size : Z; m_buffer : VkHandle; m_allocation : VkHandle; m_device : VkHandle;
    m_allocator : VkHandle; m_mappedData : pointer; m_isMapped : bool }.

#[export] Instance t_eta : Eta t := fun o =>
  mk (m_size o) (m_buffer o) (m_allocation o) (m_device o) (m_allocator o) (m_mappedData o) (m_isMapped o).

Definition new : t := mk 0 0 0 0 0 nullptr false.

Section code.
Context `{Driver}.
Abbreviation C := (Code (with_context t)).

(** [initialData] is copied if the memory can be mapped. *)
Definition copy_initial (size : Z) (data : list byte) : C unit :=
  o ← member id;
  mapped ← call (vmaMapMemory (m_allocator o) (m_allocation o));
  if succeeded mapped.1 then
    source ← read_bytes data 0 size;
    call (memcpy (default nullptr mapped.2) source);;
    call (vmaUnmapMemory (m_allocator o) (m_allocation o))
  else mret tt.

Definition Create (size : Z) (initialData : option (list byte)) : C ALResult :=
  s ← in_context (get id);
  assign (fun o => o <| m_size := size |> <| m_device := device s |> <| m_allocator := allocator s |>);;
  result ← out_member (fun p o => o <| m_buffer := p.1 |> <| m_allocation := p.2 |>)
    (vmaCreateBuffer (allocator s) (mkVkBufferCreateInfo size [VK_BUFFER_USAGE_UNIFORM_BUFFER_BIT])
      (mkVmaAllocationCreateInfo (Some VMA_ALLOCATION_CREATE_HOST_ACCESS_SEQUENTIAL_WRITE_BIT) []));
  if negb (succeeded result) then mret E_OUTOFMEMORY else
  (match initialData with None => mret tt | Some data => copy_initial size data end);;
  mret S_OK.

Definition Destroy : C unit :=
  o ← member id;
  if is_null (m_buffer o) then mret tt else
  (if m_isMapped o then
     call (vmaUnmapMemory (m_allocator o) (m_allocation o));;
     assign (fun o => o <| m_isMapped := false |> <| m_mappedData := nullptr |>)
   else mret tt);;
  call (vmaDestroyBuffer (m_allocator o) (m_buffer o) (m_allocation o));;
  assign (fun o => o <| m_buffer := VK_NULL_HANDLE |> <| m_allocation := VK_NULL_HANDLE |>).

(** [given]: the caller wants the pointer. The result, and the pointer where it is
    assigned. *)
Definition Lock (given : bool) : C (ALResult * option pointer) :=
  if negb given then mret (E_INVALIDARG, None) else
  o ← member id;
  locked ← (if m_isMapped o then mret true else
    result ← out_member (fun p o => o <| m_mappedData := p |>) (vmaMapMemory (m_allocator o) (m_allocation o));
    if succeeded result then assign (fun o => o <| m_isMapped := true |>);; mret true else mret false);
  if negb (locked : bool) then mret (E_FAIL, None) else
  o ← member id;
  mret (S_OK, Some (m_mappedData o)).

Definition Unlock : C ALResult :=
  o ← member id;
  (if m_isMapped o then
     call (vmaFlushAllocation (m_allocator o) (m_allocation o));;
     call (vmaUnmapMemory (m_allocator o) (m_allocation o));;
     assign (fun o => o <| m_isMapped := false |> <| m_mappedData := nullptr |>)
   else mret tt);;
  mret S_OK.

Definition SetName (name : option string) : C ALResult :=
  o ← member id;
  in_context (SetVulkanObjectName (m_device o) (m_buffer o) VK_OBJECT_TYPE_BUFFER name);;
  mret S_OK.

End code.

Definition IsValid (o : t) : bool := negb (is_null (m_buffer o)).

Definition Describe (o : t) (description : Description) : Description :=
  <["size" := pretty (m_size o)]> (<["type" := "constant_buffer"]> description).

Definition GetDescriptorInfo (o : t) : VkHandle * Z * Z := (m_buffer o, 0, m_size o).

End Tr2ConstantBufferAL.
