(* ===== verification/VulkanBufferSpec.v ===== *)
(** * Buffers keep their promises

    What the functions of [VulkanBuffer] do to the memory of [VulkanMemory]: a
    pointer they give is to memory that is mapped, an update writes the bytes it was
    given where it was told to, or has a command buffer do so, and from its creation
    to its destruction a buffer uses memory as it may and leaves none behind. *)

From Stdlib Require Import Strings.Byte.
From stdpp Require Import base numbers list option strings gmap fin_maps sets.
From S2P Require Import Prelude RenderGraph VulkanFormats Vulkan VulkanContext VulkanUsage VulkanMemory VulkanDriver VulkanObject VulkanBuffer.
Import Tr2BufferAL.

#[local] Open Scope Z_scope.

(** ** The invariant *)

(** What the buffer has to free. *)
Definition owns (o : t) : list holding := unless_absent (m_buffer o) (ABuffer (m_buffer o)) (m_allocation o).

(** The memory of a buffer has its size, and is mapped exactly when the buffer says
    so, where it says. *)
Record allocated (o : t) (x : allocation) : Prop := mk_allocated
  { allocated_size : Z.of_nat (length (content x)) = m_sizeBytes o;
    allocated_maps : mappings x = if m_isMapped o then 1%nat else 0%nat;
    allocated_data : m_isMapped o = true -> m_mappedData o = Pointer (m_allocation o) 0 }.

(** [F] is what other objects own. *)
Record sound (F : list holding) (c : VulkanContext) (o : t) (m : memory) : Prop := mk_sound
  { sound_accounts : accounts c m (owns o ++ F);
    sound_frame : is_Some (frame_of c);
    sound_memory : if is_null (m_buffer o) then m_isMapped o = false
      else exists x, allocations m !! m_allocation o = Some x /\ allocated o x }.

(** The same buffer, mapped or not. *)
Definition alike (o o' : t) : Prop :=
  m_buffer o' = m_buffer o /\ m_allocation o' = m_allocation o /\ m_sizeBytes o' = m_sizeBytes o /\
  m_memoryFlags o' = m_memoryFlags o.

Definition live (o : t) : Prop := is_null (m_buffer o) = false.

Lemma owns_live o : live o -> owns o = [(ABuffer (m_buffer o), m_allocation o)].
Proof. unfold live, owns, unless_absent. by intros ->. Qed.

Lemma alike_live o o' : live o -> alike o o' -> live o'.
Proof. unfold live. intros Hl [-> _]. exact Hl. Qed.

Section spec.
Context `{AllocatorLaws} `{ImageIO} (F : list holding).
Implicit Types (c : VulkanContext) (o : t) (m : memory) (tr : list event).
Implicit Types (R : ALResult -> world (with_context t) -> Prop).

Lemma sound_live c o m :
  live o -> sound F c o m ->
  accounts c m ((ABuffer (m_buffer o), m_allocation o) :: F) /\ is_Some (frame_of c) /\
  exists x, allocations m !! m_allocation o = Some x /\ allocated o x.
Proof. intros Hl [Ha Hf Hm]. rewrite (owns_live _ Hl) in Ha. unfold live in Hl. by rewrite Hl in Hm. Qed.

Lemma live_sound c o m x :
  live o -> accounts c m ((ABuffer (m_buffer o), m_allocation o) :: F) -> is_Some (frame_of c) ->
  allocations m !! m_allocation o = Some x -> allocated o x -> sound F c o m.
Proof.
  intros Hl Ha Hf Hx Hal. constructor; [by rewrite owns_live|done|]. unfold live in Hl. rewrite Hl. by exists x.
Qed.

(** Another mapping of the memory. *)
Lemma sound_remapped c o o' m x :
  live o -> sound F c o m -> alike o o' ->
  allocated o' x -> sound F c o' (with_allocation (m_allocation o) x m).
Proof.
  intros Hl Hs (Eb & Ea & Es & _) Hx. destruct (sound_live _ _ _ Hl Hs) as (Hacc & Hf & _).
  eapply live_sound; [by unfold live; rewrite Eb| |done| |done].
  - rewrite Eb, Ea. by apply accounts_with_allocation.
  - rewrite Ea. apply with_allocation_lookup.
Qed.

(** [m'] differs from [m] in the mappings of the buffer at most. *)
Definition remapped (o : t) (m m' : memory) : Prop :=
  exists x n, allocations m !! m_allocation o = Some x /\
    m' = with_allocation (m_allocation o) (mkAllocation (content x) n) m.

Lemma remapped_refl o m x : allocations m !! m_allocation o = Some x -> remapped o m m.
Proof. intros Hx. exists x, (mappings x). split; [done|]. destruct x. by rewrite with_allocation_same. Qed.

Lemma runs_ensure_mapped {Q : bool -> world (with_context t) -> Prop} {R c o m tr} :
  live o -> memory_after tr = Some m -> sound F c o m ->
  (forall tr' m' o', memory_after tr' = Some m' -> sound F c o' m' -> remapped o m m' -> alike o o' ->
     m_isMapped o' = true -> m_mappedData o' = Pointer (m_allocation o) 0 -> Q true (at_ c o' tr')) ->
  (forall tr' o', memory_after tr' = Some m -> sound F c o' m -> alike o o' -> Q false (at_ c o' tr')) ->
  runs ensure_mapped Q R (at_ c o tr).
Proof.
  intros Hl Hm Hs Hok Hfail. destruct (sound_live _ _ _ Hl Hs) as (Hacc & Hf & x & Hx & Hal).
  unfold ensure_mapped. apply runs_bind, runs_member. cbn [object snd at_].
  destruct (m_isMapped (id o)) eqn:Hmap; cbn in Hmap.
  - apply runs_ret. apply (Hok _ m); [done..|by eapply remapped_refl|done|done|by apply Hal].
  - apply runs_bind. unfold map. apply runs_bind, runs_member. cbn [object snd at_].
    unfold out_member, call_out. apply runs_bind. eapply runs_vmaMapMemory; [exact Hm|exact Hx|..].
    + intros tr' Htr'. apply runs_bind, runs_update, runs_ret. cbn -[memory_after].
      apply runs_bind, runs_assign, runs_ret. cbn [object trace fst snd].
      eapply Hok; [exact Htr'| | |done..].
      * eapply sound_remapped; [done..|]. destruct Hal as [Hsz Hmp _]. constructor; cbn; [done| |done].
        by rewrite Hmp, Hmap.
      * by exists x, (S (mappings x)).
    + intros r p tr' _ Hr Htr'. apply runs_bind, runs_update, runs_ret. cbn -[memory_after].
      unfold succeeded. rewrite bool_decide_false by done. apply runs_ret.
      destruct p as [p|]; cbn [object trace]; apply Hfail; try done.
      eapply live_sound; [done..|]. destruct Hal as [Hsz Hmp _]. constructor; [done..|].
      cbn. congruence.
Qed.

Lemma runs_unmap {Q : unit -> world (with_context t) -> Prop} {R c o m tr} :
  live o -> memory_after tr = Some m -> sound F c o m ->
  (forall tr' m' o', memory_after tr' = Some m' -> sound F c o' m' -> remapped o m m' -> alike o o' ->
     m_isMapped o' = false -> Q tt (at_ c o' tr')) ->
  runs unmap Q R (at_ c o tr).
Proof.
  intros Hl Hm Hs HQ. destruct (sound_live _ _ _ Hl Hs) as (Hacc & Hf & x & Hx & Hal).
  unfold unmap. apply runs_bind, runs_member. cbn [object snd at_].
  destruct (m_isMapped (id o)) eqn:Hmap; cbn in Hmap.
  - destruct Hal as [Hsz Hmp Hd]. rewrite Hmap in Hmp. apply runs_bind.
    eapply runs_vmaUnmapMemory; [exact Hm|exact Hx|by rewrite Hmp|]. intros tr' Htr'.
    apply runs_assign. cbn [object trace fst snd]. eapply HQ; [exact Htr'| | |done..].
    + eapply sound_remapped; [done..|]. constructor; cbn; [done|by rewrite Hmp|done].
    + by exists x, (pred (mappings x)).
  - apply runs_ret. apply (HQ _ m); [done..|by eapply remapped_refl|done|done].
Qed.

(** The bytes that a reader of [p] finds, up to the end of the mapping. *)
Definition mapped_at_offset (b : VkHandle) (m : memory) (p : pointer) (offset : Z) : Prop :=
  exists x, allocations m !! block p = Some x /\ mappings x <> 0%nat /\ displacement p = offset /\
    bytes_of m b = Some (content x).

Lemma sound_mapped_at c o m offset :
  live o -> sound F c o m -> m_isMapped o = true -> m_mappedData o = Pointer (m_allocation o) 0 ->
  mapped_at_offset (m_buffer o) m (advance (m_mappedData o) offset) offset.
Proof.
  intros Hl Hs Hmap Hd. destruct (sound_live _ _ _ Hl Hs) as (Hacc & _ & x & Hx & [Hsz Hmp _]).
  rewrite Hmap in Hmp. exists x. rewrite Hd. cbn. rewrite Hx, Hmp. split; [done|]. split; [done|].
  split; [lia|]. unfold bytes_of. rewrite (accounts_bound _ _ _ _ _ Hacc). cbn. by rewrite Hx.
Qed.

(** What a function that maps the buffer leaves: where it succeeds, [ok] of the
    pointer; where it fails, no pointer. *)
Definition map_result (c : VulkanContext) (o : t) (m : memory) (error : ALResult -> Prop) (offset : Z)
    (r : ALResult * option pointer) (w : world (with_context t)) : Prop :=
  exists m' o', w = at_ c o' (trace w) /\ memory_after (trace w) = Some m' /\ sound F c o' m' /\ alike o o' /\
    remapped o m m' /\
    match r with
    | (S_OK, Some p) => m_isMapped o' = true /\ mapped_at_offset (m_buffer o) m' p offset
    | (hr, None) => error hr /\ m' = m
    | _ => False
    end.

Lemma runs_MapForReading_range {R c o m tr} offset size :
  live o -> memory_after tr = Some m -> sound F c o m ->
  runs (MapForReading_range offset size)
    (map_result c o m (fun hr => hr = E_FAIL \/ (hr = E_INVALIDARG /\ m_sizeBytes o < u32 (offset + size))) offset)
    R (at_ c o tr).
Proof.
  intros Hl Hm Hs. destruct (sound_live _ _ _ Hl Hs) as (_ & _ & x & Hx & _).
  unfold MapForReading_range. apply runs_bind, runs_member. cbn [object snd at_ id].
  destruct (Z.ltb_spec (m_sizeBytes o) (u32 (offset + size))) as [Hlt|Hge].
  - apply runs_ret. exists m, o. split; [done|]. split; [exact Hm|]. split; [done|]. split; [done|].
    split; [by eapply remapped_refl|]. split; [|done]. by right.
  - apply runs_bind. eapply runs_ensure_mapped; [done|exact Hm|done|..].
    + intros tr' m' o' Hm' Hs' Hr Ho Hmap Hd. apply runs_bind, runs_member, runs_ret. exists m', o'.
      repeat (split; [done|]). cbn. rewrite <- (proj1 Ho). eapply sound_mapped_at; [by eapply alike_live|done..|].
      by rewrite Hd, (proj1 (proj2 Ho)).
    + intros tr' o' Hm' Hs' Ho. apply runs_ret. exists m, o'. split; [done|]. split; [exact Hm'|].
      split; [done|]. split; [done|]. split; [by eapply remapped_refl|]. split; [|done]. by left.
Qed.

Lemma runs_MapForWriting {R c o m tr} :
  live o -> memory_after tr = Some m -> sound F c o m ->
  runs MapForWriting (map_result c o m (fun hr => hr = E_FAIL) 0) R (at_ c o tr).
Proof.
  intros Hl Hm Hs. destruct (sound_live _ _ _ Hl Hs) as (_ & _ & x & Hx & _).
  unfold MapForWriting. apply runs_bind. eapply runs_ensure_mapped; [done|exact Hm|done|..].
  - intros tr' m' o' Hm' Hs' Hr Ho Hmap Hd. apply runs_bind, runs_member, runs_ret. exists m', o'.
    repeat (split; [done|]). cbn.
    replace (m_mappedData o') with (advance (m_mappedData o') 0) by by rewrite Hd.
    rewrite <- (proj1 Ho). eapply sound_mapped_at; [by eapply alike_live|done..|].
    by rewrite Hd, (proj1 (proj2 Ho)).
  - intros tr' o' Hm' Hs' Ho. apply runs_ret. exists m, o'. split; [done|]. split; [exact Hm'|].
    repeat (split; [done|]). split; [by eapply remapped_refl|done].
Qed.

Lemma runs_buffer_Destroy {Q : unit -> world (with_context t) -> Prop} {R c o m tr} :
  memory_after tr = Some m -> sound F c o m ->
  (forall tr' m' o', memory_after tr' = Some m' -> accounts c m' F -> kept m m' F ->
     is_null (m_buffer o') = true -> m_isMapped o' = false -> Q tt (at_ c o' tr')) ->
  runs Destroy Q R (at_ c o tr).
Proof.
  intros Hm Hs HQ. unfold Destroy. apply runs_bind, runs_member. cbn [object snd at_ id].
  destruct (is_null (m_buffer o)) eqn:Hl.
  - apply runs_ret. eapply HQ; [exact Hm| |by apply kept_refl|done|].
    all: destruct Hs as [Ha _ Hi]. unfold owns, unless_absent in Ha. all: by rewrite Hl in *.
  - apply runs_bind. eapply runs_unmap; [done|exact Hm|done|].
    intros tr1 m1 o1 Hm1 Hs1 (x & n & Hx & ->) Ho Hmap.
    pose proof Ho as (Eb & Ea & _). assert (Hl1 : live o1) by (by eapply alike_live).
    destruct (sound_live _ _ _ Hl1 Hs1) as ([Hh Hu] & _ & y & Hy & [_ Hmp _]). rewrite Hmap in Hmp.
    rewrite Eb, Ea in Hh. rewrite Ea in Hy. cbn [app] in Hh.
    apply runs_bind. eapply runs_vmaDestroyBuffer; [exact Hm1|exact Hh| |].
    { apply Forall_singleton. by exists y. }
    intros tr2 m2 Hm2 Hh2 Hk2. apply runs_assign. cbn [object trace fst snd at_]. eapply HQ; [exact Hm2| | |done|done].
    + split; [exact Hh2|]. eapply kept_unmapped; [|exact Hu]. eapply kept_subset; [|exact Hk2]. set_solver.
    + eapply kept_trans; [|eapply kept_subset; [|exact Hk2]; set_solver].
      apply kept_with_allocation. intros p Hp. eapply (holds_other _ _ _ _ p Hh). set_solver.
Qed.

(** The buffer after [bytes] have been written at [offset] of its memory. *)
Definition written (o : t) (offset : Z) (bytes : list byte) (m : memory) : memory :=
  match allocations m !! m_allocation o with
  | Some x => with_allocation (m_allocation o) (x <| content ::= splice (Z.to_nat offset) (Some <$> bytes) |>) m
  | None => m
  end.

Lemma length_source size (data : list byte) :
  0 <= size -> size <= Z.of_nat (length data) -> Z.of_nat (length (take (Z.to_nat size) data)) = size.
Proof. rewrite length_take. lia. Qed.

Lemma runs_update_mapped {Q : ALResult -> world (with_context t) -> Prop} {R c o m tr} offset size data :
  live o -> memory_after tr = Some m -> sound F c o m ->
  0 <= offset -> 0 <= size -> offset + size <= m_sizeBytes o -> size <= Z.of_nat (length data) ->
  (forall tr', memory_after tr' = Some (written o offset (take (Z.to_nat size) data) m) -> Q S_OK (at_ c o tr')) ->
  (forall tr', memory_after tr' = Some m -> mapping_fails -> Q E_FAIL (at_ c o tr')) ->
  runs (update_mapped offset size data) Q R (at_ c o tr).
Proof.
  intros Hl Hm Hs Ho Hsz Hfit Hdata Hok Hfail.
  destruct (sound_live _ _ _ Hl Hs) as (Hacc & _ & x & Hx & [Hlen _ _]). unfold written in Hok. rewrite Hx in Hok.
  unfold update_mapped. apply runs_bind, runs_member. cbn [object snd at_ id].
  apply runs_bind. eapply runs_vmaMapMemory; [exact Hm|exact Hx|..].
  - intros tr1 Hm1. cbn [fst snd]. unfold succeeded. rewrite bool_decide_true by done. cbn [negb].
    apply runs_bind, runs_read_bytes; [lia..|]. rewrite drop_0. apply runs_bind.
    eapply runs_memcpy; [exact Hm1|apply with_allocation_lookup|done|..].
    { cbn. lia. }
    { cbn. rewrite length_source by done. lia. }
    intros tr2 Hm2. apply runs_bind. eapply runs_vmaUnmapMemory; [exact Hm2|apply with_allocation_lookup|done|].
    intros tr3 Hm3. apply runs_ret. apply Hok. cbn [object]. rewrite !with_allocation_twice in Hm3.
    exact Hm3.
  - intros r p tr1 Hans Hr Hm1. cbn [fst snd]. unfold succeeded. rewrite bool_decide_false by done. cbn [negb].
    apply runs_ret. apply Hfail; [done|]. exists tr, (m_allocator o), (m_allocation o). cbn in Hans. by rewrite <- Hans.
Qed.

Lemma written_lookup o offset bytes m x :
  allocations m !! m_allocation o = Some x ->
  allocations (written o offset bytes m) !! m_allocation o =
    Some (x <| content ::= splice (Z.to_nat offset) (Some <$> bytes) |>).
Proof. unfold written. intros ->. apply with_allocation_lookup. Qed.

Lemma sound_written c o m offset bytes :
  live o -> sound F c o m -> 0 <= offset -> offset + Z.of_nat (length bytes) <= m_sizeBytes o ->
  sound F c o (written o offset bytes m).
Proof.
  intros Hl Hs Ho Hfit. destruct (sound_live _ _ _ Hl Hs) as (Hacc & _ & x & Hx & [Hsz Hmp Hd]).
  unfold written. rewrite Hx. eapply sound_remapped; [done..|]. constructor; cbn; [|done..].
  rewrite length_splice; [done|]. rewrite length_fmap. lia.
Qed.

Lemma undisturbed_written c o m offset bytes : live o -> sound F c o m -> undisturbed F m (written o offset bytes m).
Proof.
  intros Hl Hs. destruct (sound_live _ _ _ Hl Hs) as (Ha & _ & x & Hx & _). unfold written. rewrite Hx.
  by eapply undisturbed_with_allocation.
Qed.

(** The memory of a staging buffer that has been filled, or could not be mapped. *)
Definition staged (filled : bool) (size : Z) (data : list byte) : allocation :=
  mkAllocation (if filled then Some <$> take (Z.to_nat size) data else replicate (Z.to_nat size) None) 0.

Lemma runs_fill_staging {Q : unit -> world (with_context t) -> Prop} {R w m} al a size data :
  memory_after (trace w) = Some m -> allocations m !! a = Some (staged false size data) ->
  0 <= size -> size <= Z.of_nat (length data) ->
  (forall tr filled, memory_after tr = Some (with_allocation a (staged filled size data) m) ->
     filled = true \/ mapping_fails -> Q tt (mkWorld (object w) tr)) ->
  runs (fill_staging al a size data) Q R w.
Proof.
  intros Hm Hx Hsz Hdata HQ. unfold fill_staging. apply runs_bind.
  eapply runs_vmaMapMemory; [exact Hm|exact Hx|..].
  - intros tr1 Hm1. cbn [fst snd]. unfold succeeded. rewrite bool_decide_true by done.
    apply runs_bind, runs_read_bytes; [lia..|]. rewrite drop_0. apply runs_bind.
    eapply runs_memcpy; [exact Hm1|apply with_allocation_lookup|done|..].
    { cbn. lia. }
    { cbn. rewrite length_source, length_replicate by done. lia. }
    intros tr2 Hm2. eapply runs_vmaUnmapMemory; [exact Hm2|apply with_allocation_lookup|done|].
    intros tr3 Hm3. apply (HQ _ true); [|by left]. rewrite Hm3, !with_allocation_twice.
    cbn. rewrite splice_all; [done|]. rewrite length_fmap, length_replicate.
    pose proof (length_source size data Hsz Hdata). lia.
  - intros r p tr1 Hr Hf Hm1. cbn [fst snd]. unfold succeeded. rewrite bool_decide_false by done.
    apply runs_ret. apply (HQ _ false).
    + by rewrite with_allocation_same.
    + right. exists (trace w), al, a. by rewrite <- Hr.
Qed.

(** What a staged update leaves: a copy from a new staging buffer, which the context
    will free, at the end of what the command buffer [cmd] holds. *)
Record copy_recorded (c c' : VulkanContext) (o : t) (m m' : memory) (cmd : VkHandle) (offset size : Z)
    (data : list byte) (filled : bool) (staging : holding) : Prop := mk_copy_recorded
  { recorded_command : exists b, staging.1 = ABuffer b /\ recorded m' =
      <[cmd := default [] (recorded m !! cmd) ++
         [BufferToBuffer b (m_buffer o) (mkVkBufferCopy 0 offset size)]]> (recorded m);
    recorded_source : bound m' !! staging.1 = Some staging.2 /\
      allocations m' !! staging.2 = Some (staged filled size data);
    recorded_retired : exists e, last (m_deferred c') = Some e /\ entry_holdings e = [staging];
    recorded_target : allocations m' !! m_allocation o = allocations m !! m_allocation o;
    recorded_others : undisturbed F m m';
    recorded_context : state c' = state c }.

Lemma accounts_size c m b a l x :
  accounts c m ((ABuffer b, a) :: l) -> allocations m !! a = Some x ->
  size_of m (ABuffer b) = Some (Z.of_nat (length (content x))).
Proof. intros Ha Hx. unfold size_of. rewrite (accounts_bound _ _ _ _ _ Ha). cbn. by rewrite Hx. Qed.

Lemma within_range offset n size : 0 <= offset -> 0 <= n -> offset + n <= size -> within offset n size = true.
Proof. intros. unfold within. by rewrite !(proj2 (Z.leb_le _ _)) by lia. Qed.

Lemma length_staged filled size data :
  0 <= size -> size <= Z.of_nat (length data) -> Z.of_nat (length (content (staged filled size data))) = size.
Proof.
  intros. destruct filled; cbn; [rewrite length_fmap; by apply length_source|rewrite length_replicate; lia].
Qed.

Lemma runs_update_staged {Q : ALResult -> world (with_context t) -> Prop} {R c o m tr} offset size data f :
  live o -> memory_after tr = Some m -> sound F c o m -> frame_of c = Some f ->
  0 <= offset -> 0 <= size -> offset + size <= m_sizeBytes o -> size <= Z.of_nat (length data) ->
  (forall tr' m' c' filled staging, memory_after tr' = Some m' -> sound F c' o m' ->
     filled = true \/ mapping_fails ->
     copy_recorded c c' o m m' (commandBuffer f) offset size data filled staging -> Q S_OK (at_ c' o tr')) ->
  (forall tr', memory_after tr' = Some m -> buffer_refused (m_allocator o) tr tr' -> Q E_OUTOFMEMORY (at_ c o tr')) ->
  runs (update_staged offset size data) Q R (at_ c o tr).
Proof.
  intros Hl Hm Hs Hf Ho Hsz Hfit Hdata Hok Hfail.
  destruct (sound_live _ _ _ Hl Hs) as (Hacc & _ & x & Hx & Hal).
  unfold update_staged. apply runs_bind, runs_member. cbn [object snd at_ id].
  apply runs_bind, runs_in_context. eapply runs_GetCurrentCommandBuffer; [exact Hf|]. cbn [object trace fst snd].
  apply runs_bind. eapply runs_vmaCreateBuffer; [exact Hm|exact Hacc|..].
  2: { intros r p tr1 Hr _ Hm1. cbn [fst snd]. unfold succeeded. rewrite bool_decide_false by done. cbn [negb].
       apply runs_ret. apply Hfail; [done|]. by eexists _, _, r, p. }
  intros b a tr1 m1 Hm1 Hb _ Hacc1 Hk1. cbn [fst snd]. unfold succeeded. rewrite bool_decide_true by done.
  cbn [negb default]. cbv zeta. apply runs_bind.
  eapply runs_fill_staging; [exact Hm1|by apply (with_allocation_lookup a)|done..|].
  intros tr2 filled Hm2 Hfilled. set (m2 := with_allocation a (staged filled size data) m1) in *.
  assert (Hacc2 : accounts c m2 ((ABuffer b, a) :: (ABuffer (m_buffer o), m_allocation o) :: F)).
  { by apply accounts_with_allocation. }
  assert (Hx2 : allocations m2 !! m_allocation o = Some x).
  { destruct (accounts_apart _ _ _ _ _ Hacc1 (ABuffer (m_buffer o), m_allocation o)) as [_ Hne]; [set_solver|].
    cbn in Hne |- *. by rewrite !lookup_insert_ne by congruence. }
  cbn [object] in *.
  apply runs_bind. eapply runs_vkCmdCopyBuffer; [exact Hm2| | |..].
  { eapply accounts_size; [exact Hacc2|apply with_allocation_lookup]. }
  { eapply (accounts_size c _ _ (m_allocation o)); [|exact Hx2].
    by rewrite Permutation_swap in Hacc2. }
  { apply within_range; cbn [bc_srcOffset bc_size]; [done..|]. rewrite length_staged by done. lia. }
  { apply within_range; [done..|]. cbn. by rewrite (allocated_size _ _ Hal). }
  intros tr3 Hm3.
  apply runs_bind, runs_in_context. eapply runs_GetCurrentTimelineValue; [exact Hf|]. cbn [object trace fst snd].
  apply runs_bind, runs_in_context. set (e := deferred_buffer _ _ _ _ _).
  assert (He : entry_holdings e = [(ABuffer b, a)]) by by apply deferred_buffer_holdings.
  eapply runs_Retire_accounts; [exact Hm3| | |].
  { rewrite He. apply accounts_record. exact Hacc2. }
  { rewrite He. apply Forall_singleton. exists (staged filled size data). split; [|done].
    apply with_allocation_lookup. }
  rewrite He. intros tr4 m4 c4 Hm4 Hst Hlast Hacc4 [Ka Kl Kr]. apply runs_ret. cbn [object trace fst snd] in *.
  assert (Hx4 : allocations m4 !! m_allocation o = Some x).
  { rewrite <- Hx2. apply (Ka (ABuffer (m_buffer o), m_allocation o)). set_solver. }
  eapply (Hok _ _ _ filled (ABuffer b, a)); [exact Hm4| |done|].
  - eapply live_sound; [done|exact Hacc4| |exact Hx4|exact Hal]. exists f. unfold frame_of. by rewrite Hst.
  - constructor; cbn [fst snd].
    + exists b. split; [done|]. by rewrite Kr.
    + split; cycle 1.
      { etransitivity; [apply (Ka (ABuffer b, a)); set_solver|]. apply (with_allocation_lookup a). }
      eapply retired_bound; [exact Hacc4|exact Hlast|rewrite He; set_solver].
    + by exists e.
    + by rewrite Hx4, Hx.
    + transitivity m1; [by eapply kept_undisturbed; [exact Hk1|set_solver]|]. transitivity m2.
      * eapply undisturbed_subset; [exact (undisturbed_with_allocation _ _ _ _ _ _ Hacc1)|set_solver].
      * constructor; [intros p Hp; apply (Ka p)|intros i j Hi; apply (Kl i j)]; set_solver.
    + done.
Qed.

(** The results of [UpdateBuffer], with what each means. *)
Definition update_result (c : VulkanContext) (o : t) (m : memory) (tr : list event) (f : VulkanFrameContext) (offset size : Z)
    (data : option (list byte)) (hr : ALResult) (w : world (with_context t)) : Prop :=
  exists m' c', w = at_ c' o (trace w) /\ memory_after (trace w) = Some m' /\ sound F c' o m' /\
    undisturbed F m m' /\
    match hr with
    | S_OK => exists bytes, data = Some bytes /\ offset + size <= m_sizeBytes o /\
        if host_visible o then c' = c /\ m' = written o offset (take (Z.to_nat size) bytes) m
        else exists filled staging, (filled = true \/ mapping_fails) /\
          copy_recorded c c' o m m' (commandBuffer f) offset size bytes filled staging
    | E_INVALIDARG => (data = None \/ m_sizeBytes o < offset + size) /\ c' = c /\ m' = m
    | E_FAIL => (host_visible o = true /\ offset + size <= m_sizeBytes o /\ mapping_fails) /\ c' = c /\ m' = m
    | E_OUTOFMEMORY => (host_visible o = false /\ offset + size <= m_sizeBytes o /\
        buffer_refused (m_allocator o) tr (trace w)) /\ c' = c /\ m' = m
    | _ => False
    end.

Lemma runs_UpdateBuffer {R c o m tr} offset size data f :
  live o -> memory_after tr = Some m -> sound F c o m -> frame_of c = Some f ->
  0 <= offset -> 0 <= size -> offset + size < 2 ^ 32 ->
  (forall bytes, data = Some bytes -> size <= Z.of_nat (length bytes)) ->
  runs (UpdateBuffer offset size data) (update_result c o m tr f offset size data) R (at_ c o tr).
Proof.
  intros Hl Hm Hs Hf Ho Hsz Hwrap Hdata. unfold UpdateBuffer. apply runs_bind, runs_member. cbn [object snd at_ id].
  destruct data as [bytes|]; cycle 1.
  { apply runs_ret. exists m, c. repeat (split; [done|]). split; [by left|done]. }
  specialize (Hdata bytes eq_refl). rewrite wrap_u_small by (unfold in_u; lia).
  destruct (Z.ltb_spec (m_sizeBytes o) (offset + size)) as [Hlt|Hge].
  { apply runs_ret. exists m, c. repeat (split; [done|]). split; [by right|done]. }
  destruct (host_visible o) eqn:Hv.
  - eapply runs_update_mapped; [done|exact Hm|done..| |].
    + intros tr' Hm'. exists (written o offset (take (Z.to_nat size) bytes) m), c. split; [done|].
      split; [exact Hm'|]. split; [apply sound_written; [done..|by rewrite length_source]|].
      split; [by eapply undisturbed_written|]. exists bytes. rewrite Hv. done.
    + intros tr' Hm'. exists m, c. repeat (split; [done|]). done.
  - eapply runs_update_staged; [done|exact Hm|done|exact Hf|done..| |].
    + intros tr' m' c' filled staging Hm' Hs' Hfill Hrec. exists m', c'. split; [done|]. split; [exact Hm'|].
      split; [done|]. split; [apply Hrec|]. exists bytes. rewrite Hv. split; [done|]. split; [done|]. by exists filled, staging.
    + intros tr' Hm'. exists m, c. repeat (split; [done|]). done.
Qed.

(** Carrying out what a staged update recorded. *)
Lemma copy_carried b offset size (bytes : list byte) old target m :
  0 <= offset -> 0 <= size -> size <= Z.of_nat (length bytes) ->
  bytes_of m b = Some (content (staged true size bytes)) -> bytes_of m target = Some old ->
  perform (BufferToBuffer b target (mkVkBufferCopy 0 offset size)) m ≫= (fun m => bytes_of m target) =
    Some (splice (Z.to_nat offset) (Some <$> take (Z.to_nat size) bytes) old).
Proof.
  intros Ho Hsz Hd Hb Ht. unfold bytes_of in Hb, Ht. cbn [perform].
  apply bind_Some in Hb as (sa & Hsa & (x & Hx & [= Ex])%bind_Some).
  apply bind_Some in Ht as (da & Hda & (y & Hy & [= Ey])%bind_Some).
  rewrite Hsa. cbn. rewrite Hx. cbn. rewrite Hda. cbn. rewrite Hy. cbn.
  unfold bytes_of. cbn. rewrite Hda. cbn. rewrite lookup_insert_eq. cbn. rewrite Ex, Ey. f_equal.
  unfold splice. rewrite drop_0. rewrite (take_ge (Some <$> _)); [done|].
  rewrite length_fmap, length_take. lia.
Qed.

(** ** From creation to destruction *)

Inductive use :=
| UseMapForReading
| UseMapForReadingRange (offset size : Z)
| UseMapForWriting
| UseUnmap
| UseUpdate (offset size : Z) (data : option (list byte)).

Definition run_use (u : use) : Code (with_context t) unit :=
  match u with
  | UseMapForReading => MapForReading;; mret tt
  | UseMapForReadingRange offset size => MapForReading_range offset size;; mret tt
  | UseMapForWriting => MapForWriting;; mret tt
  | UseUnmap => UnmapForReading
  | UseUpdate offset size data => UpdateBuffer offset size data;; mret tt
  end.

(** The range of an update is one of 32 bits, and the data has so many bytes. *)
Definition fits (u : use) : Prop :=
  match u with
  | UseUpdate offset size data =>
      0 <= offset /\ 0 <= size /\ offset + size < 2 ^ 32 /\
      forall bytes, data = Some bytes -> size <= Z.of_nat (length bytes)
  | _ => True
  end.

(** [Create], [uses] if it succeeds, and [Destroy]. *)
Definition lifetime (desc : Tr2BufferDescriptionAL) (initialData : option (list byte)) (uses : list use)
    : Code (with_context t) unit :=
  hr ← Create desc initialData;
  if SUCCEEDED hr then for_each run_use uses;; Destroy else mret tt.

(** After a use of [o]. *)
Definition used (o : t) (m : memory) (w : world (with_context t)) : Prop :=
  exists m' c' o', w = at_ c' o' (trace w) /\ memory_after (trace w) = Some m' /\ sound F c' o' m' /\
    alike o o' /\ undisturbed F m m'.

Lemma used_remapped c o o' m m' tr :
  live o -> sound F c o m -> memory_after tr = Some m' -> sound F c o' m' -> alike o o' -> remapped o m m' ->
  used o m (at_ c o' tr).
Proof.
  intros Hl Hs Hm' Hs' Ho (x & n & Hx & ->). exists (with_allocation (m_allocation o) (mkAllocation (content x) n) m), c, o'.
  repeat (split; [done|]). eapply undisturbed_with_allocation. by eapply sound_live.
Qed.

Lemma used_mapped error c o m offset r w :
  live o -> sound F c o m -> map_result c o m error offset r w -> used o m w.
Proof.
  intros Hl Hs (m' & o' & Hw & Hm' & Hs' & Ho & Hr & _). rewrite Hw. by eapply used_remapped.
Qed.

Lemma used_updated c o m tr f offset size data hr w : update_result c o m tr f offset size data hr w -> used o m w.
Proof. intros (m' & c' & Hw & Hm' & Hs' & Hd & _). exists m', c', o. by repeat (split; [done|]). Qed.

Lemma runs_run_use {R c o m tr} u :
  live o -> memory_after tr = Some m -> sound F c o m -> fits u ->
  runs (run_use u) (fun _ => used o m) R (at_ c o tr).
Proof.
  intros Hl Hm Hs Hu. destruct u as [|offset size| | |offset size data]; cbn [run_use].
  - apply runs_then_tt. unfold MapForReading. apply runs_bind, runs_member.
    eapply runs_mono; [by eapply runs_MapForReading_range|..]; [|done]. intros r v. by apply used_mapped.
  - apply runs_then_tt. eapply runs_mono; [by eapply runs_MapForReading_range|..]; [|done].
    intros r v. by apply used_mapped.
  - apply runs_then_tt. eapply runs_mono; [by eapply runs_MapForWriting|..]; [|done].
    intros r v. by apply used_mapped.
  - eapply runs_unmap; [done|exact Hm|done|]. intros tr' m' o' Hm' Hs' Hr Ho _. by eapply used_remapped.
  - destruct Hu as (Ho & Hsz & Hwrap & Hdata). destruct (sound_live _ _ _ Hl Hs) as (_ & [f Hf] & _).
    apply runs_then_tt. eapply runs_mono; [by eapply runs_UpdateBuffer|..]; [|done].
    intros hr v. by eapply used_updated.
Qed.

Lemma runs_run_uses {Q : unit -> world (with_context t) -> Prop} {R c o m tr} us :
  live o -> memory_after tr = Some m -> sound F c o m -> Forall fits us ->
  (forall w, used o m w -> Q tt w) -> runs (for_each run_use us) Q R (at_ c o tr).
Proof.
  intros Hl Hm Hs Hus. revert c o m tr Hl Hm Hs. induction Hus as [|u us Hu _ IH]; intros c o m tr Hl Hm Hs HQ.
  - apply runs_ret, HQ. exists m, c, o. by repeat (split; [done|]).
  - cbn [for_each]. apply runs_bind. eapply runs_mono; [by eapply runs_run_use|..].
    + intros [] w (m1 & c1 & o1 & Hw & Hm1 & Hs1 & Ho1 & Hd1). rewrite Hw.
      eapply IH; [by eapply alike_live|exact Hm1|done|].
      intros w2 (m2 & c2 & o2 & Hw2 & Hm2 & Hs2 & Ho2 & Hd2). apply HQ. exists m2, c2, o2.
      repeat (split; [done|]). split; [|by transitivity m1].
      destruct Ho1 as (? & ? & ? & ?), Ho2 as (? & ? & ? & ?). repeat split; congruence.
    + instantiate (1 := fun _ _ => False). done.
Qed.

(** The size a description asks for. *)
Definition size_asked (desc : Tr2BufferDescriptionAL) : Z :=
  u64 ((if bool_decide (bd_format desc = PIXEL_FORMAT_UNKNOWN) then bd_stride desc
        else GetBytesPerPixel (bd_format desc)) * bd_count desc).

Lemma size_asked_range desc : 0 <= size_asked desc < 2 ^ 64.
Proof. by apply wrap_u_range. Qed.

(** There is as much initial data as [Create] will copy. *)
Definition enough (desc : Tr2BufferDescriptionAL) (initialData : option (list byte)) : Prop :=
  forall bytes, initialData = Some bytes -> u32 (size_asked desc) <= Z.of_nat (length bytes).

(** A buffer that could not be made has nothing to free. *)
Lemma null_sound c o m :
  is_null (m_buffer o) = true -> m_isMapped o = false -> accounts c m F -> is_Some (frame_of c) -> sound F c o m.
Proof.
  intros Hn Hmap Ha Hf. constructor; [|done|by rewrite Hn]. unfold owns, unless_absent. by rewrite Hn.
Qed.

Definition created (m : memory) (desc : Tr2BufferDescriptionAL) (initialData : option (list byte))
    (hr : ALResult) (w : world (with_context t)) : Prop :=
  exists m' c' o', w = at_ c' o' (trace w) /\ memory_after (trace w) = Some m' /\ sound F c' o' m' /\
    undisturbed F m m' /\
    match hr with
    | S_OK => live o' /\ m_sizeBytes o' = size_asked desc
    | E_OUTOFMEMORY => is_null (m_buffer o') = true
    | E_FAIL => is_null (m_buffer o') = true /\ initialData <> None
    | _ => False
    end.

Lemma created_update c o m1 m tr desc initialData f hr w :
  live o -> m_sizeBytes o = size_asked desc -> is_Some initialData -> undisturbed F m m1 ->
  update_result c o m1 tr f 0 (u32 (size_asked desc)) initialData hr w ->
  forall R, runs (if FAILED hr then Destroy;; mret hr else mret S_OK) (created m desc initialData) R w.
Proof.
  intros Hl Hsize [bytes ->] Hd (m2 & c2 & Hw & Hm2 & Hs2 & Hd2 & Hres) R. rewrite Hw.
  destruct (FAILED hr) eqn:Hfail; cycle 1.
  { apply runs_ret. exists m2, c2, o. destruct hr; try done.
    repeat (split; [done|]). split; [by transitivity m1|done]. }
  apply runs_bind. eapply runs_buffer_Destroy; [exact Hm2|done|]. intros tr3 m3 o3 Hm3 Ha3 Hk3 Hn3 Hmap3.
  apply runs_ret. exists m3, c2, o3. split; [done|]. split; [exact Hm3|].
  split; [apply null_sound; [done..|by apply Hs2]|]. split.
  { transitivity m1; [done|]. transitivity m2; [done|]. by eapply kept_undisturbed. }
  destruct hr; try done. destruct Hres as ([?|Hlt] & _ & _); [done|].
  pose proof (size_asked_range desc). pose proof (Z.mod_le (size_asked desc) (2 ^ 32)).
  unfold wrap_u in Hlt. lia.
Qed.

Lemma runs_Create {R c o m tr} desc initialData :
  is_null (m_buffer o) = true -> m_isMapped o = false -> memory_after tr = Some m -> accounts c m F ->
  is_Some (frame_of c) -> enough desc initialData ->
  runs (Create desc initialData) (created m desc initialData) R (at_ c o tr).
Proof.
  intros Hn Hmap Hm Ha [f Hf] Hen. unfold Create.
  apply runs_bind, runs_in_context, runs_this. cbn [object trace fst snd at_ id].
  apply runs_bind, runs_assign. fold (size_asked desc). cbn [object trace fst snd].
  set (o1 := _ <| m_memoryFlags := _ |>).
  apply runs_bind, runs_member. cbn [object snd id].
  apply runs_bind. unfold out_member, call_out. apply runs_bind. eapply runs_vmaCreateBuffer; [exact Hm|exact Ha|..].
  - intros b a tr1 m1 Hm1 Hb _ Ha1 Hk. apply runs_bind, runs_update, runs_ret. cbn [fst snd object trace].
    unfold succeeded. rewrite bool_decide_true by done. cbn [negb]. set (o2 := o1 <| m_buffer := b |> <| m_allocation := a |>).
    assert (Hl : live o2) by by apply Z.eqb_neq.
    assert (Hs : sound F c o2 m1).
    { eapply live_sound; [done|exact Ha1|by exists f|apply (with_allocation_lookup a)|].
      constructor; [|by cbn; rewrite Hmap|by cbn; rewrite Hmap]. cbn. rewrite length_replicate.
      pose proof (size_asked_range desc). lia. }
    assert (Hd : undisturbed F m m1) by (eapply kept_undisturbed; [exact Hk|set_solver]).
    change (mkWorld (c, o2) tr1) with (at_ c o2 tr1).
    destruct initialData as [bytes|]; cycle 1.
    { apply runs_ret. exists m1, c, o2. by repeat (split; [done|]). }
    pose proof (wrap_u_range 32 (size_asked desc) ltac:(lia)) as Hr. unfold in_u in Hr.
    apply runs_bind. eapply runs_mono; [eapply (runs_UpdateBuffer 0 (u32 (m_sizeBytes o1)) (Some bytes));
      [done|exact Hm1|done|exact Hf|done|apply Hr|cbn; lia|by intros ? [= <-]; apply Hen]|..].
    + intros hr w Hres. by eapply created_update.
    + instantiate (1 := fun _ _ => False). done.
  - intros r p tr1 Hr Hp Hm1. apply runs_bind, runs_update, runs_ret. cbn [fst snd object trace].
    unfold succeeded. rewrite bool_decide_false by done. cbn [negb]. apply runs_ret.
    destruct Hp as [-> | ->]; eexists m, c, _; (split; [done|]; split; [exact Hm1|]; split;
      [apply null_sound; [done..|by exists f]|]; split; [done|]; done).
Qed.

Lemma runs_lifetime {R c m tr} desc initialData us :
  memory_after tr = Some m -> accounts c m F -> is_Some (frame_of c) ->
  enough desc initialData -> Forall fits us ->
  runs (lifetime desc initialData us)
    (fun _ w => exists m', memory_after (trace w) = Some m' /\ accounts (fst (object w)) m' F /\ undisturbed F m m')
    R (at_ c new tr).
Proof.
  intros Hm Ha Hf Hen Hus. unfold lifetime. apply runs_bind.
  eapply runs_mono; [by eapply runs_Create|..].
  - intros hr w (m1 & c1 & o1 & Hw & Hm1 & Hs1 & Hd1 & Hres). rewrite Hw.
    destruct hr; cbn [SUCCEEDED]; try done.
    1: { destruct Hres as [Hl _]. apply runs_bind. eapply runs_run_uses; [done|exact Hm1|done..|].
      intros w2 (m2 & c2 & o2 & Hw2 & Hm2 & Hs2 & _ & Hd2). rewrite Hw2.
      eapply runs_buffer_Destroy; [exact Hm2|done|]. intros tr3 m3 o3 Hm3 Ha3 Hk3 _ _. exists m3.
      split; [exact Hm3|]. split; [done|]. transitivity m1; [done|]. transitivity m2; [done|].
      by eapply kept_undisturbed. }
    all: apply runs_ret; exists m1; split; [exact Hm1|]; split; [|done].
    all: assert (Hn : is_null (m_buffer o1) = true) by (destruct Hres; done || done).
    all: pose proof (sound_accounts _ _ _ _ Hs1) as Ha1; unfold owns, unless_absent in Ha1; by rewrite Hn in Ha1.
  - instantiate (1 := fun _ _ => False). done.
Qed.
End spec.

(** ** The contract *)

(** C12. With a driver that never refuses to map memory: an update of a range that ends
    below 2^32, with enough bytes, of a buffer that is alive, is refused exactly when
    the range does not fit the buffer, and fails otherwise only when the host does not
    see the memory and the driver refuses a staging buffer, no other call being made. If
    it succeeds, the bytes given are written where they were to be: at once where the
    host sees the memory; elsewhere, by a copy that the command buffer of the frame
    holds after all that it held, whenever it is carried out while the staging buffer
    is as the update left it. Nothing else changes. *)
Theorem UpdateBuffer_writes `{AllocatorLaws} `{ImageIO} F c o m tr offset size bytes f
    (Hl : live o) (Hm : memory_after tr = Some m) (Hs : sound F c o m) (Hf : frame_of c = Some f)
    (Hoffset : 0 <= offset) (Hsize : 0 <= size) (Hwrap : offset + size < 2 ^ 32)
    (Hdata : size <= Z.of_nat (length bytes)) (Hmaps : ~ mapping_fails)
    (now := Some <$> take (Z.to_nat size) bytes) (held := fun m => default [] (recorded m !! commandBuffer f)) :
  runs (UpdateBuffer offset size (Some bytes)) (fun hr w => exists m',
      memory_after (trace w) = Some m' /\ sound F (fst (object w)) o m' /\ undisturbed F m m' /\
      snd (object w) = o /\ state (fst (object w)) = state c /\
      (hr = E_INVALIDARG <-> m_sizeBytes o < offset + size) /\
      (hr <> S_OK -> hr = E_INVALIDARG \/
         hr = E_OUTOFMEMORY /\ host_visible o = false /\ buffer_refused (m_allocator o) tr (trace w)) /\
      (hr = S_OK ->
        if host_visible o then
          held m' = held m /\
          forall old, bytes_of m (m_buffer o) = Some old ->
            bytes_of m' (m_buffer o) = Some (splice (Z.to_nat offset) now old)
        else exists b t, t = BufferToBuffer b (m_buffer o) (mkVkBufferCopy 0 offset size) /\
          held m' = held m ++ [t] /\ bytes_of m' (m_buffer o) = bytes_of m (m_buffer o) /\
          forall m2 old, bytes_of m2 b = bytes_of m' b -> bytes_of m2 (m_buffer o) = Some old ->
            perform t m2 ≫= (fun m => bytes_of m (m_buffer o)) = Some (splice (Z.to_nat offset) now old)))
    (fun _ _ => False) (at_ c o tr).
Proof.
  eapply runs_mono; [eapply (runs_UpdateBuffer (R := fun _ _ => False) F offset size (Some bytes) f); try done|..];
    [by intros ? [= <-]| |done].
  intros hr w (m' & c' & Hw & Hm' & Hs' & Hd & Hres). rewrite Hw. cbn [object trace at_ fst snd] in *.
  destruct (sound_live _ _ _ _ Hl Hs) as (Ha & _ & x & Hx & _).
  destruct (sound_live _ _ _ _ Hl Hs') as (Ha' & _).
  assert (Hb : bytes_of m (m_buffer o) = Some (content x)).
  { unfold bytes_of. rewrite (accounts_bound _ _ _ _ _ Ha). cbn. by rewrite Hx. }
  exists m'. repeat (split; [done|]). destruct hr; try done.
  - destruct Hres as (? & [= <-] & Hfit & Hres). destruct (host_visible o) eqn:Hv.
    + destruct Hres as [-> ->]. split; [done|]. split; [split; [done|lia]|]. split; [done|]. intros _.
      split; [unfold held, written; by rewrite Hx|]. intros old Hold. rewrite Hb in Hold. injection Hold as <-.
      unfold bytes_of. rewrite (accounts_bound _ _ _ _ _ Ha'). cbn. by erewrite written_lookup.
    + destruct Hres as (filled & staging & Hfill & [(b & Hst & Hrec) [Hsb Hsa] _ Ht _ Hc]).
      destruct Hfill as [->|]; [|done]. split; [done|]. split; [split; [done|lia]|]. split; [done|]. intros _.
      exists b. eexists. split; [done|]. split; [unfold held; by rewrite Hrec, lookup_insert_eq|]. split.
      * rewrite Hb. unfold bytes_of. rewrite (accounts_bound _ _ _ _ _ Ha'). cbn. by rewrite Ht, Hx.
      * intros m2 old Hm2 Hold. apply copy_carried; [done..| |done]. rewrite Hm2. unfold bytes_of.
        rewrite <- Hst, Hsb. cbn. by rewrite Hsa.
  - destruct Hres as ([?|Hlt] & -> & ->); [done|]. split; [done|]. split; [done|]. split; [by left|done].
  - by destruct Hres as ((_ & _ & ?) & _).
  - destruct Hres as ((Hv & Hfit & Hno) & -> & ->). split; [done|]. split; [split; [done|lia]|]. split; [by right|done].
Qed.

(** C13. A buffer is created, read, written and updated in any order, and destroyed,
    where each range that is updated ends below 2^32 and the bytes for it are there: its
    calls keep the rules of [allocate], it changes nothing that others own, and none of
    its memory is left, except what it handed to the context to free. The rules are:
    what is mapped, unmapped or freed is alive; only what is mapped is unmapped and
    written, within its bounds; nothing is freed while it is mapped, nor twice; and a
    copy is recorded of a range within two buffers that are alive then. That a command
    buffer holds a copy to what is freed is not against these rules, and
    [buffer_freed_while_copied] shows that it happens; without the bound on ranges
    [wrapped_update_overflows] breaks them. *)
Theorem buffer_lifetime `{AllocatorLaws} `{ImageIO} F c m tr desc initialData us
    (Hm : memory_after tr = Some m) (Ha : accounts c m F) (Hf : is_Some (frame_of c))
    (Hdata : enough desc initialData) (Hus : Forall fits us) :
  runs (lifetime desc initialData us) (fun _ w => exists m', memory_after (trace w) = Some m' /\
      accounts (fst (object w)) m' F /\ undisturbed F m m')
    (fun _ _ => False) (at_ c new tr).
Proof. by apply runs_lifetime. Qed.

(** ** Instances *)

(** A buffer of four bytes, and how it came about. *)
Definition four_bytes (flags : list memory_property) : t := mk None 1 1 4 [] flags nullptr false 1 1.
Definition four_bytes_made : list event :=
  [Event (vmaCreateBuffer 1 (mkVkBufferCreateInfo 4 []) (mkVmaAllocationCreateInfo None []))
    (VK_SUCCESS, Some (1, 1))].

Lemma four_bytes_sound flags :
  sound [] new_VulkanContext (four_bytes flags) (place (ABuffer 1) 1 4 new_memory).
Proof.
  assert (Ha : accounts new_VulkanContext (place (ABuffer 1) 1 4 new_memory) [(ABuffer 1, 1)]).
  { destruct (new_accounts new_VulkanContext eq_refl) as [Hh Hu]. split; [|by constructor].
    apply holds_place; [exact Hh|by apply not_elem_of_dom..]. }
  eapply live_sound; [done|exact Ha|by eexists|apply (with_allocation_lookup 1)|]. by constructor.
Qed.

#[local] Instance one_byte : ImageIO := fun _ => 1.

Definition hello : list byte := [x68; x69].

(** Two bytes of a buffer that the host does not see. *)
Example UpdateBuffer_writes_witness :
  @runs (with_context t) ALResult (@UpdateBuffer (respond calm) 1 2 (Some hello)) (fun hr w => exists m',
      memory_after (trace w) = Some m' /\ hr <> E_INVALIDARG) (fun _ _ => False)
    (at_ new_VulkanContext (four_bytes [VK_MEMORY_PROPERTY_DEVICE_LOCAL_BIT]) four_bytes_made).
Proof.
  eapply runs_mono; [eapply (@UpdateBuffer_writes (respond calm) (respond_allocates calm) one_byte [] new_VulkanContext
    (four_bytes [VK_MEMORY_PROPERTY_DEVICE_LOCAL_BIT]) (place (ABuffer 1) 1 4 new_memory) four_bytes_made
    1 2 hello new_VulkanFrameContext); [done|vm_compute; reflexivity|apply four_bytes_sound|done|done|done|done|
    vm_compute; discriminate|apply calm_maps]|..]; [|done].
  intros hr w (m' & Hm' & _ & _ & _ & _ & Hiff & _ & _). exists m'. split; [exact Hm'|].
  intros ->. by assert (4 < 3) by by apply Hiff.
Defined.

Definition sample_desc : Tr2BufferDescriptionAL :=
  mkTr2BufferDescriptionAL PIXEL_FORMAT_UNKNOWN 2 2 (fun _ => false) (fun u => match u with WRITE => true | _ => false end).

Example buffer_lifetime_witness :
  @runs (with_context t) unit (@lifetime (respond calm) one_byte sample_desc (Some (hello ++ hello))
      [UseMapForWriting; UseUpdate 1 2 (Some hello); UseUnmap; UseMapForReadingRange 3 2])
    (fun _ w => exists m', memory_after (trace w) = Some m') (fun _ _ => False)
    (at_ new_VulkanContext new []).
Proof.
  eapply runs_mono; [eapply (@buffer_lifetime (respond calm) (respond_allocates calm) one_byte [] new_VulkanContext
    new_memory []); [done| |by eexists| |]|..].
  - by apply new_accounts.
  - intros bytes [= <-]. vm_compute. discriminate.
  - repeat constructor; cbn; try lia. intros bytes [= <-]. vm_compute. discriminate.
  - intros [] w (m' & Hm' & _). by exists m'.
  - done.
Defined.
