(* ===== verification/VulkanConstantBufferSpec.v ===== *)
(** * Constant buffers keep their promises

    What the functions of [Tr2ConstantBufferAL] do to the memory of [VulkanMemory]: a
    lock gives memory of the size of the buffer, mapped until it is unlocked, and from
    its creation to its destruction a buffer uses memory as it may and leaves none
    behind. *)

From Stdlib Require Import Strings.Byte.
From stdpp Require Import base numbers list option strings gmap fin_maps sets.
From S2P Require Import Prelude RenderGraph VulkanFormats Vulkan VulkanContext VulkanUsage VulkanMemory VulkanDriver VulkanObject VulkanBuffer.
Import Tr2ConstantBufferAL.

#[local] Open Scope Z_scope.

(** ** The invariant *)

Definition owns (o : t) : list holding := unless_absent (m_buffer o) (ABuffer (m_buffer o)) (m_allocation o).

Record allocated (o : t) (x : allocation) : Prop := mk_allocated
  { allocated_size : length (content x) = Z.to_nat (m_size o);
    allocated_maps : mappings x = if m_isMapped o then 1%nat else 0%nat;
    allocated_data : m_isMapped o = true -> m_mappedData o = Pointer (m_allocation o) 0 }.

Definition live (o : t) : Prop := is_null (m_buffer o) = false.

(** A buffer that is there; [F] is what other objects own. *)
Record constant_sound (F : list holding) (c : VulkanContext) (o : t) (m : memory) : Prop := mk_constant_sound
  { constant_live : live o;
    constant_accounts : accounts c m ((ABuffer (m_buffer o), m_allocation o) :: F);
    constant_memory : exists x, allocations m !! m_allocation o = Some x /\ allocated o x }.

Section spec.
Context `{AllocatorLaws} (F : list holding).
Implicit Types (c : VulkanContext) (o : t) (m : memory) (tr : list event).
Implicit Types (R : ALResult -> world (with_context t) -> Prop).

(** Another content or mapping of the memory. *)
Lemma constant_remapped c o o' m x :
  constant_sound F c o m -> m_buffer o' = m_buffer o -> m_allocation o' = m_allocation o -> allocated o' x ->
  constant_sound F c o' (with_allocation (m_allocation o) x m) /\
  undisturbed F m (with_allocation (m_allocation o) x m).
Proof.
  intros [Hl Ha _] Eb Ea Hx. split; [|by eapply undisturbed_with_allocation].
  constructor; [by unfold live; rewrite Eb|rewrite Eb, Ea; by apply accounts_with_allocation|].
  rewrite Ea. exists x. split; [apply with_allocation_lookup|done].
Qed.

(** What a lock leaves: memory of the size of the buffer, mapped where it starts. *)
Definition locked (c : VulkanContext) (o : t) (m : memory) (r : ALResult * option pointer)
    (w : world (with_context t)) : Prop :=
  exists m' o', w = at_ c o' (trace w) /\ memory_after (trace w) = Some m' /\ constant_sound F c o' m' /\
    undisturbed F m m' /\ m_size o' = m_size o /\
    match r with
    | (S_OK, Some p) => exists x, p = Pointer (m_allocation o) 0 /\ allocations m' !! m_allocation o = Some x /\
        mappings x = 1%nat /\ length (content x) = Z.to_nat (m_size o)
    | (E_FAIL, None) => m' = m
    | _ => False
    end.

Lemma runs_Lock {R c o m tr} :
  memory_after tr = Some m -> constant_sound F c o m -> runs (Lock true) (locked c o m) R (at_ c o tr).
Proof.
  intros Hm Hs. pose proof Hs as [Hl Ha (x & Hx & [Hsz Hmp Hd])]. unfold Lock. cbn [negb].
  apply runs_bind, runs_member. cbn [object snd at_ id]. apply runs_bind.
  destruct (m_isMapped o) eqn:Hmap.
  - apply runs_ret. cbn [negb]. apply runs_bind, runs_member, runs_ret. exists m, o. repeat (split; [done|]).
    exists x. cbn. rewrite Hd by done. by repeat (split; [done|]).
  - apply runs_bind, runs_bind. eapply runs_vmaMapMemory; [exact Hm|exact Hx|..].
    + intros tr' Hm'. apply runs_bind, runs_update, runs_ret. cbn [fst snd object trace].
      unfold succeeded. rewrite bool_decide_true by done. apply runs_bind, runs_assign, runs_ret. cbn [negb].
      apply runs_bind, runs_member, runs_ret. cbn [object trace fst snd id at_]. set (o' := o <| m_mappedData := _ |> <| m_isMapped := true |>).
      destruct (constant_remapped c o o' m (x <| mappings ::= S |>)) as [Hs' Hd']; [done..| |].
      { constructor; [done| |done]. cbn. by rewrite Hmp. }
      eexists _, o'. split; [done|]. split; [exact Hm'|]. repeat (split; [done|]). eexists. split; [done|].
      split; [apply with_allocation_lookup|]. cbn. by rewrite Hmp.
    + intros r p tr' Hr Hne Hm'. apply runs_bind, runs_update, runs_ret. cbn [fst snd object trace].
      unfold succeeded. rewrite bool_decide_false by done. apply runs_ret. cbn [negb]. apply runs_ret.
      assert (Hs' : forall o', m_buffer o' = m_buffer o -> m_allocation o' = m_allocation o -> m_size o' = m_size o ->
        m_isMapped o' = false -> constant_sound F c o' m).
      { intros o' Eb Ea Es Ei. constructor; [by unfold live; rewrite Eb|by rewrite Eb, Ea|].
        rewrite Ea. exists x. split; [done|]. constructor; [by rewrite Es|by rewrite Ei, Hmp|by rewrite Ei]. }
      destruct p as [p|]; eexists m, _; (split; [done|]; split; [exact Hm'|]; split; [by apply Hs'|done]).
Qed.

(** The result is that of the function; the buffer is not mapped. *)
Lemma runs_Unlock {Q : ALResult -> world (with_context t) -> Prop} {R c o m tr} :
  memory_after tr = Some m -> constant_sound F c o m ->
  (forall tr' m' o', memory_after tr' = Some m' -> constant_sound F c o' m' -> undisturbed F m m' ->
     m_isMapped o' = false -> m_size o' = m_size o -> Q S_OK (at_ c o' tr')) ->
  runs Unlock Q R (at_ c o tr).
Proof.
  intros Hm Hs HQ. pose proof Hs as [Hl Ha (x & Hx & [Hsz Hmp Hd])]. unfold Unlock.
  apply runs_bind, runs_member. cbn [object snd at_ id]. apply runs_bind. destruct (m_isMapped o) eqn:Hmap.
  - apply runs_bind, runs_call. intros [] _.
    assert (Hm1 : memory_after (Event (vmaFlushAllocation (m_allocator o) (m_allocation o)) tt :: tr) = Some m).
    { cbn. rewrite Hm. cbn. by rewrite option_guard_True by (by eexists). }
    apply runs_bind. eapply runs_vmaUnmapMemory; [exact Hm1|exact Hx|by rewrite Hmp|]. intros tr2 Hm2.
    apply runs_assign, runs_ret. cbn [object trace fst snd at_]. set (o' := o <| m_isMapped := false |> <| m_mappedData := nullptr |>).
    destruct (constant_remapped c o o' m (x <| mappings ::= pred |>)) as [Hs' Hd']; [done..| |].
    { constructor; [done| |done]. cbn. by rewrite Hmp. }
    by eapply HQ.
  - apply runs_ret, runs_ret. by eapply HQ.
Qed.

Lemma runs_constant_Destroy {Q : unit -> world (with_context t) -> Prop} {R c o m tr} :
  memory_after tr = Some m -> constant_sound F c o m ->
  (forall tr' m' o', memory_after tr' = Some m' -> accounts c m' F -> undisturbed F m m' -> Q tt (at_ c o' tr')) ->
  runs Destroy Q R (at_ c o tr).
Proof.
  intros Hm Hs HQ. pose proof Hs as [Hl Ha (x & Hx & [Hsz Hmp Hd])]. unfold Destroy.
  apply runs_bind, runs_member. cbn [object snd at_ id]. rewrite Hl.
  assert (Hfree : forall tr1 m1 o1, memory_after tr1 = Some m1 -> undisturbed F m m1 ->
    accounts c m1 ((ABuffer (m_buffer o), m_allocation o) :: F) -> unmapped m1 [(ABuffer (m_buffer o), m_allocation o)] ->
    runs (call (vmaDestroyBuffer (m_allocator o) (m_buffer o) (m_allocation o));;
      assign (fun o => o <| m_buffer := VK_NULL_HANDLE |> <| m_allocation := VK_NULL_HANDLE |>)) Q R (at_ c o1 tr1)).
  { intros tr1 m1 o1 Hm1 Hd1 [Hh1 Hu1] Hfree. apply runs_bind. eapply runs_vmaDestroyBuffer; [exact Hm1|exact Hh1|done|].
    intros tr2 m2 Hm2 Hh2 Hk2. apply runs_assign. cbn [object trace fst snd at_]. eapply HQ; [exact Hm2| |].
    - split; [exact Hh2|]. eapply kept_unmapped; [|exact Hu1]. eapply kept_subset; [|exact Hk2]. set_solver.
    - transitivity m1; [done|]. eapply kept_undisturbed; [exact Hk2|set_solver]. }
  apply runs_bind. destruct (m_isMapped o) eqn:Hmap.
  - apply runs_bind. eapply runs_vmaUnmapMemory; [exact Hm|exact Hx|by rewrite Hmp|]. intros tr1 Hm1.
    apply runs_assign. eapply Hfree; [exact Hm1|by eapply undisturbed_with_allocation|by apply accounts_with_allocation|].
    apply Forall_singleton. eexists. split; [apply with_allocation_lookup|]. cbn. by rewrite Hmp.
  - apply runs_ret. eapply Hfree; [exact Hm|done|exact Ha|]. apply Forall_singleton. by exists x.
Qed.

(** ** Creation *)

(** The buffer holds [data] after it has been copied, unless it could not be mapped. *)
Lemma runs_copy_initial {Q : unit -> world (with_context t) -> Prop} {R c o m tr} size data x :
  memory_after tr = Some m -> allocations m !! m_allocation o = Some x -> mappings x = 0%nat ->
  length (content x) = Z.to_nat size -> 0 <= size -> size <= Z.of_nat (length data) ->
  (forall tr' content', memory_after tr' = Some (with_allocation (m_allocation o) (mkAllocation content' 0) m) ->
     length content' = Z.to_nat size ->
     content' = Some <$> take (Z.to_nat size) data \/ mapping_fails -> Q tt (at_ c o tr')) ->
  runs (copy_initial size data) Q R (at_ c o tr).
Proof.
  intros Hm Hx Hmp Hlen Hsz Hdata HQ. unfold copy_initial. apply runs_bind, runs_member. cbn [object snd at_ id].
  apply runs_bind. eapply runs_vmaMapMemory; [exact Hm|exact Hx|..].
  - intros tr1 Hm1. cbn [fst snd]. unfold succeeded. rewrite bool_decide_true by done. cbn [default].
    apply runs_bind, runs_read_bytes; [lia..|]. rewrite drop_0. apply runs_bind.
    assert (Hl : length (Some <$> take (Z.to_nat size) data) = length (content x)).
    { rewrite length_fmap, length_take. lia. }
    eapply runs_memcpy; [exact Hm1|apply with_allocation_lookup|done|done| |].
    { rewrite length_fmap in Hl. rewrite Hl. cbn. lia. }
    intros tr2 Hm2. eapply runs_vmaUnmapMemory; [exact Hm2|apply with_allocation_lookup|done|].
    intros tr3 Hm3. rewrite !with_allocation_twice in Hm3. cbn in Hm3. rewrite splice_all, Hmp in Hm3 by done.
    eapply HQ; [exact Hm3| |by left]. by rewrite Hl.
  - intros r p tr1 Hr Hne Hm1. cbn [fst snd]. unfold succeeded. rewrite bool_decide_false by done.
    apply runs_ret. apply (HQ _ (content x)); [|done|].
    + rewrite with_allocation_same; [exact Hm1|]. rewrite Hx. destruct x as [bytes n]. cbn in *. by rewrite Hmp.
    + right. exists tr, (m_allocator o), (m_allocation o). intros E. exact (Hne (eq_trans (f_equal fst Hr) E)).
Qed.

(** After [Create]: a buffer that holds its initial data, or none. *)
Definition constant_created (m : memory) (size : Z) (initialData : option (list byte)) (hr : ALResult)
    (w : world (with_context t)) : Prop :=
  exists m' c o', w = at_ c o' (trace w) /\ memory_after (trace w) = Some m' /\ undisturbed F m m' /\
    match hr with
    | S_OK => constant_sound F c o' m' /\ m_size o' = size /\
        (forall data, initialData = Some data ->
           bytes_of m' (m_buffer o') = Some (Some <$> take (Z.to_nat size) data) \/ mapping_fails)
    | E_OUTOFMEMORY => accounts c m' F
    | _ => False
    end.

Lemma runs_constant_Create {R c m tr} size initialData :
  memory_after tr = Some m -> accounts c m F -> 0 <= size ->
  (forall data, initialData = Some data -> size <= Z.of_nat (length data)) ->
  runs (Create size initialData) (constant_created m size initialData) R (at_ c new tr).
Proof.
  intros Hm Ha Hsz Hdata. unfold Create. apply runs_bind, runs_in_context, runs_this. cbn [object trace fst snd at_ id].
  apply runs_bind, runs_assign. cbn [object trace fst snd]. set (o1 := _ <| m_allocator := _ |>).
  apply runs_bind, runs_bind. eapply runs_vmaCreateBuffer; [exact Hm|exact Ha|..].
  2: { intros r p tr1 Hr _ Hm1. apply runs_bind, runs_update, runs_ret. cbn [fst snd object trace].
       unfold succeeded. rewrite bool_decide_false by done. cbn [negb]. apply runs_ret.
       destruct p as [p|]; eexists m, c, _; (split; [done|]; split; [exact Hm1|]; by split). }
  intros b a tr1 m1 Hm1 Hb Hane Ha1 Hk1. apply runs_bind, runs_update, runs_ret. cbn [fst snd object trace].
  unfold succeeded. rewrite bool_decide_true by done. cbn [negb bci_size] in *.
  set (o2 := o1 <| m_buffer := b |> <| m_allocation := a |>).
  assert (Hd1 : undisturbed F m m1) by (eapply kept_undisturbed; [exact Hk1|set_solver]).
  assert (Hx1 : allocations m1 !! m_allocation o2 = Some (mkAllocation (replicate (Z.to_nat size) None) 0)).
  { apply (with_allocation_lookup a). }
  assert (Hs1 : constant_sound F c o2 m1).
  { constructor; [by apply Z.eqb_neq|exact Ha1|]. eexists. split; [exact Hx1|]. constructor; [apply length_replicate|done..]. }
  change (mkWorld (c, o2) tr1) with (at_ c o2 tr1). apply runs_bind. destruct initialData as [data|]; cycle 1.
  { apply runs_ret, runs_ret. exists m1, c, o2. by repeat (split; [done|]). }
  eapply runs_copy_initial; [exact Hm1|exact Hx1|done|apply length_replicate|done|by apply Hdata|].
  intros tr2 content' Hm2 Hlen Hcontent. apply runs_ret.
  destruct (constant_remapped c o2 o2 m1 (mkAllocation content' 0)) as [Hs2 Hd2]; [done..| |].
  { by constructor. }
  eexists _, c, o2. split; [done|]. split; [exact Hm2|]. split; [by transitivity m1|]. split; [done|]. split; [done|].
  intros ? [= <-]. destruct Hcontent as [->|]; [left|by right].
  unfold bytes_of. rewrite (accounts_bound _ _ _ _ _ (constant_accounts _ _ _ _ Hs2)). cbn. by rewrite lookup_insert_eq.
Qed.

(** ** From creation to destruction *)

Inductive constant_use := UseLock | UseUnlock.
Definition run_constant_use (u : constant_use) : Code (with_context t) unit :=
  match u with UseLock => Lock true;; mret tt | UseUnlock => Unlock;; mret tt end.

(** [Create], [uses] if it succeeds, and [Destroy]. *)
Definition constant_lifetime (size : Z) (initialData : option (list byte)) (uses : list constant_use)
    : Code (with_context t) unit :=
  hr ← Create size initialData;
  if SUCCEEDED hr then for_each run_constant_use uses;; Destroy else mret tt.

(** The buffer between two uses. *)
Definition constant_in_use (m : memory) (w : world (with_context t)) : Prop :=
  exists m' c o, w = at_ c o (trace w) /\ memory_after (trace w) = Some m' /\ constant_sound F c o m' /\
    undisturbed F m m'.

Lemma runs_run_constant_use {R} m u w :
  constant_in_use m w -> runs (run_constant_use u) (fun _ => constant_in_use m) R w.
Proof.
  intros (m1 & c & o & -> & Hm1 & Hs1 & Hd1). cbn [trace at_] in Hm1. destruct u; apply runs_then_tt.
  - eapply runs_mono; [by apply (runs_Lock (R := fun _ _ => False) Hm1)| |done].
    intros r w' (m2 & o2 & Hw & Hm2 & Hs2 & Hd2 & _). rewrite Hw. exists m2, c, o2.
    split; [done|]. split; [exact Hm2|]. split; [done|by transitivity m1].
  - eapply runs_Unlock; [exact Hm1|done|]. intros tr2 m2 o2 Hm2 Hs2 Hd2 _ _. exists m2, c, o2.
    split; [done|]. split; [exact Hm2|]. split; [done|by transitivity m1].
Qed.

Lemma runs_constant_lifetime {R c m tr} size initialData us :
  memory_after tr = Some m -> accounts c m F -> 0 <= size ->
  (forall data, initialData = Some data -> size <= Z.of_nat (length data)) ->
  runs (constant_lifetime size initialData us)
    (fun _ w => exists m', memory_after (trace w) = Some m' /\ accounts (fst (object w)) m' F /\ undisturbed F m m')
    R (at_ c new tr).
Proof.
  intros Hm Ha Hsz Hdata. unfold constant_lifetime. apply runs_bind.
  eapply runs_mono; [by eapply (runs_constant_Create (R := fun _ _ => False))| |done].
  intros hr w (m1 & c1 & o1 & Hw & Hm1 & Hd1 & Hres). rewrite Hw. destruct hr; cbn [SUCCEEDED]; try done.
  - destruct Hres as (Hs1 & _). apply runs_bind.
    eapply (runs_mono _ (fun _ => constant_in_use m) _ (fun _ _ => False)); [| |done].
    { apply (runs_for_each _ (fun _ => constant_in_use m)).
      - exists m1, c1, o1. split; [done|]. split; [exact Hm1|]. by split.
      - intros before u after v _ Hv. by apply runs_run_constant_use. }
    intros [] v (m2 & c2 & o2 & Hv & Hm2 & Hs2 & Hd2). rewrite Hv.
    eapply runs_constant_Destroy; [exact Hm2|done|]. intros tr3 m3 o3 Hm3 Ha3 Hd3. exists m3.
    split; [exact Hm3|]. split; [done|]. by transitivity m2.
  - apply runs_ret. exists m1. split; [exact Hm1|]. by split.
Qed.
End spec.

(** ** The contract *)

(** A constant buffer holds its initial data when it has been created, a lock of it
    gives memory of its size, and after any locks, unlocks and its destruction none
    of its memory is left, nor has what others own been touched. *)
Theorem constant_buffer_lifetime `{AllocatorLaws} F c m tr size initialData us
    (Hm : memory_after tr = Some m) (Ha : accounts c m F) (Hsize : 0 <= size)
    (Hdata : forall data, initialData = Some data -> size <= Z.of_nat (length data)) :
  runs (Create size initialData) (constant_created F m size initialData) (fun _ _ => False) (at_ c new tr) /\
  (forall c o m tr, memory_after tr = Some m -> constant_sound F c o m ->
     runs (Lock true) (locked F c o m) (fun _ _ => False) (at_ c o tr)) /\
  runs (constant_lifetime size initialData us) (fun _ w => exists m', memory_after (trace w) = Some m' /\
      accounts (fst (object w)) m' F /\ undisturbed F m m')
    (fun _ _ => False) (at_ c new tr).
Proof.
  split; [by apply runs_constant_Create|]. split; [|by apply runs_constant_lifetime].
  intros. by apply runs_Lock.
Qed.

Example constant_buffer_lifetime_witness :
  @runs (with_context t) unit (@constant_lifetime (respond calm) 2 (Some [x68; x69]) [UseLock; UseLock; UseUnlock; UseLock])
    (fun _ w => exists m', memory_after (trace w) = Some m') (fun _ _ => False) (at_ new_VulkanContext new []).
Proof.
  destruct (@constant_buffer_lifetime (respond calm) (respond_allocates calm) [] new_VulkanContext new_memory [] 2
    (Some [x68; x69]) [UseLock; UseLock; UseUnlock; UseLock]) as (_ & _ & Hlife).
  - done.
  - by apply new_accounts.
  - done.
  - by intros ? [= <-].
  - eapply runs_mono; [exact Hlife| |by intros]. intros [] w (m' & Hm' & _). exists m'. exact Hm'.
Defined.
