(* ===== verification/VulkanQueries.v ===== *)
(** * Fences and queries

    [src/src/trinityal-vulkan/Tr2FenceALVulkan.cpp], [Tr2GpuTimerALVulkan.cpp],
    [Tr2OcclusionQueryALVulkan.cpp] and [Tr2PipelineStatsQueryALVulkan.cpp]: a
    timeline that the queue signals, two timestamps, the samples that pass the depth
    test, and the counters of the pipeline. Messages of the log are left out, and so
    are members that are written and never read. *)

From Corelib Require SpecFloat.
From stdpp Require Import base numbers list option strings gmap.
From S2P Require Import Prelude RenderGraph VulkanFormats Vulkan VulkanContext VulkanUsage VulkanObject.

#[local] Open Scope string_scope.
#[local] Open Scope list_scope.
#[local] Open Scope Z_scope.

Definition VK_OBJECT_TYPE_SEMAPHORE : Z := 5.
Definition VK_OBJECT_TYPE_QUERY_POOL : Z := 12.

(** ** Fences *)

Module Tr2FenceAL.

Record t := mk { m_device : VkHandle; m_semaphore : VkHandle; m_signaledValue : Z; m_hasFence : bool }.
#[export] Instance t_eta : Eta t := fun o => mk (m_device o) (m_semaphore o) (m_signaledValue o) (m_hasFence o).
Definition new : t := mk 0 0 0 false.

Section code.
Context `{Driver}.
Abbreviation C := (Code (with_context t)).

Definition Create : C ALResult :=
  s ← in_context (get id);
  assign (fun o => o <| m_device := device s |>);;
  result ← out_member (fun h o => o <| m_semaphore := h |>) (vkCreateSemaphore (device s) true);
  if negb (succeeded result) then mret E_FAIL else mret S_OK.

Definition Destroy : C unit :=
  o ← member id;
  (if is_null (m_semaphore o) then mret tt else
     call (vkDestroy Semaphore (m_device o) (m_semaphore o));;
     assign (fun o => o <| m_semaphore := VK_NULL_HANDLE |>));;
  assign (fun o => o <| m_hasFence := false |>).

Definition PutFence : C ALResult :=
  s ← in_context (get id);
  in_context current_frame;;
  assign (fun o => o <| m_signaledValue ::= fun v => u64 (v + 1) |>);;
  o ← member id;
  result ← call (vkQueueSubmitSignal (graphicsQueue s) (m_semaphore o) (m_signaledValue o));
  if negb (succeeded result) then mret E_FAIL else
  assign (fun o => o <| m_hasFence := true |>);; mret S_OK.

(** The result, and [isReached] where it is assigned. *)
Definition IsReached : C (ALResult * option bool) :=
  o ← member id;
  if negb (m_hasFence o) then mret (S_OK, Some true) else
  counter ← call (vkGetSemaphoreCounterValue (m_device o) (m_semaphore o));
  if negb (succeeded counter.1) then mret (E_FAIL, None) else
  mret (S_OK, Some (m_signaledValue o <=? counter.2)).

Definition Wait : C ALResult :=
  o ← member id;
  if negb (m_hasFence o) then mret S_OK else
  result ← call (vkWaitSemaphores (m_device o) (m_semaphore o) (m_signaledValue o));
  if negb (succeeded result) then mret E_FAIL else mret S_OK.

Definition SetName (name : option string) : C ALResult :=
  o ← member id;
  in_context (SetVulkanObjectName (m_device o) (m_semaphore o) VK_OBJECT_TYPE_SEMAPHORE name);;
  mret S_OK.

End code.

Definition IsValid (o : t) : bool := negb (is_null (m_semaphore o)).
Definition Describe (description : Description) : Description := <["type" := "fence"]> description.

End Tr2FenceAL.

(** ** Queries

    The members that the three kinds have in common. *)

Record query := mk_query { m_device : VkHandle; m_queryPool : VkHandle; m_isRunning : bool }.
#[export] Instance query_eta : Eta query := fun o => mk_query (m_device o) (m_queryPool o) (m_isRunning o).
Definition new_query : query := mk_query 0 0 false.

Section code.
Context `{Driver}.
Abbreviation C := (Code (with_context query)).

(** [Create] with the type, the statistics and the number of queries. *)
Definition create_query (queryType : VkQueryType) (pipelineStatistics : list VkQueryPipelineStatistic)
    (queryCount : Z) : C ALResult :=
  s ← in_context (get id);
  assign (fun o => o <| m_device := device s |>);;
  result ← out_member (fun h o => o <| m_queryPool := h |>)
    (vkCreateQueryPool (device s) (queryType, pipelineStatistics) queryCount);
  if negb (succeeded result) then mret E_FAIL else mret S_OK.

Definition destroy_query : C unit :=
  o ← member id;
  (if is_null (m_queryPool o) then mret tt else
     call (vkDestroy QueryPool (m_device o) (m_queryPool o));;
     assign (fun o => o <| m_queryPool := VK_NULL_HANDLE |>));;
  assign (fun o => o <| m_isRunning := false |>).

Definition begin_query : C ALResult :=
  o ← member id;
  if is_null (m_queryPool o) || m_isRunning o then mret E_INVALIDCALL else
  commandBuffer ← in_context GetCurrentCommandBuffer;
  call (vkCmdResetQueryPool commandBuffer (m_queryPool o) 0 1);;
  call (vkCmdBeginQuery commandBuffer (m_queryPool o) 0);;
  assign (fun o => o <| m_isRunning := true |>);;
  mret S_OK.

Definition end_query : C ALResult :=
  o ← member id;
  if is_null (m_queryPool o) || negb (m_isRunning o) then mret E_INVALIDCALL else
  commandBuffer ← in_context GetCurrentCommandBuffer;
  call (vkCmdEndQuery commandBuffer (m_queryPool o) 0);;
  assign (fun o => o <| m_isRunning := false |>);;
  mret S_OK.

Definition name_query (name : option string) : C ALResult :=
  o ← member id;
  in_context (SetVulkanObjectName (m_device o) (m_queryPool o) VK_OBJECT_TYPE_QUERY_POOL name);;
  mret S_OK.

End code.

Definition is_valid_query (o : query) : bool := negb (is_null (m_queryPool o)).

Module Tr2OcclusionQueryAL.

(** [Tr2OcclusionQueryAL::WaitMode], of the engine. *)
Inductive WaitMode := DO_NOT_WAIT | WAIT_OTHER.
#[global] Instance WaitMode_eq_dec : EqDecision WaitMode.
Proof. solve_decision. Defined.

Section code.
Context `{Driver}.
Abbreviation C := (Code (with_context query)).

Definition Create : C ALResult := create_query VK_QUERY_TYPE_OCCLUSION [] 1.
Definition Destroy : C unit := destroy_query.
Definition Begin : C ALResult := begin_query.
Definition End_ : C ALResult := end_query.
Definition SetName (name : option string) : C ALResult := name_query name.

(** The result, and [count] where it is assigned. *)
Definition GetPixelCount (waitMode : WaitMode) : C (ALResult * option Z) :=
  o ← member id;
  if is_null (m_queryPool o) then mret (E_INVALIDCALL, None) else
  let availability := bool_decide (waitMode = DO_NOT_WAIT) in
  r ← call (vkGetQueryPoolResults (m_device o) (m_queryPool o) 0 1 2 availability);
  let results := fill [0; 0] r.2 in
  if bool_decide (r.1 = VK_NOT_READY) then mret (S_OK, Some 0)
  else if negb (succeeded r.1) then mret (E_FAIL, None)
  else if availability then
    if nth 1 results 0 =? 0 then mret (S_OK, Some 0) else mret (S_OK, Some (u32 (nth 0 results 0)))
  else mret (S_OK, Some (u32 (nth 0 results 0))).

End code.

Definition Describe (description : Description) : Description := <["type" := "occlusion_query"]> description.

End Tr2OcclusionQueryAL.

Module Tr2GpuTimerAL.

(** The value of a [float], given its bits. *)
Definition float_of_bits (bits : Z) : SpecFloat.spec_float :=
  let s := Z.testbit bits 31 in
  let e := Z.land (Z.shiftr bits 23) 0xFF in
  let m := Z.land bits (Z.ones 23) in
  if e =? 0xFF then (if m =? 0 then SpecFloat.S754_infinity s else SpecFloat.S754_nan)
  else
    let n := if e =? 0 then m else m + 2 ^ 23 in
    match n with
    | Zpos p => SpecFloat.S754_finite s p (if e =? 0 then -149 else e - 150)
    | _ => SpecFloat.S754_zero s
    end.

(** [static_cast<float>] of an integer, and the product of two floats. *)
Definition float_of_Z (z : Z) : SpecFloat.spec_float := SpecFloat.binary_normalize 24 128 z 0 false.
Definition float_mul : SpecFloat.spec_float -> SpecFloat.spec_float -> SpecFloat.spec_float :=
  SpecFloat.SFmul 24 128.
Definition zero_float : SpecFloat.spec_float := SpecFloat.S754_zero false.

Section code.
Context `{Driver}.
Abbreviation C := (Code (with_context query)).

Definition Create : C ALResult := create_query VK_QUERY_TYPE_TIMESTAMP [] 2.
Definition Destroy : C unit := destroy_query.
Definition SetName (name : option string) : C ALResult := name_query name.

Definition Begin : C bool :=
  o ← member id;
  if is_null (m_queryPool o) || m_isRunning o then mret false else
  commandBuffer ← in_context GetCurrentCommandBuffer;
  call (vkCmdResetQueryPool commandBuffer (m_queryPool o) 0 2);;
  call (vkCmdWriteTimestamp2 commandBuffer (m_queryPool o) 0);;
  assign (fun o => o <| m_isRunning := true |>);;
  mret true.

Definition End_ : C unit :=
  o ← member id;
  if is_null (m_queryPool o) || negb (m_isRunning o) then mret tt else
  commandBuffer ← in_context GetCurrentCommandBuffer;
  call (vkCmdWriteTimestamp2 commandBuffer (m_queryPool o) 1);;
  assign (fun o => o <| m_isRunning := false |>).

Definition GetTime : C SpecFloat.spec_float :=
  o ← member id;
  if is_null (m_queryPool o) then mret zero_float else
  r ← call (vkGetQueryPoolResults (m_device o) (m_queryPool o) 0 2 2 false);
  if negb (succeeded r.1) then mret zero_float else
  s ← in_context (get id);
  let period := if is_null (device s) then 0x3f800000 else timestampPeriod s in
  let timestamps := fill [0; 0] r.2 in
  mret (float_mul (float_of_Z (u64 (nth 1 timestamps 0 - nth 0 timestamps 0))) (float_of_bits period)).

End code.

Definition Describe (description : Description) : Description := <["type" := "gpu_timer"]> description.

End Tr2GpuTimerAL.

Module Tr2PipelineStatsQueryAL.

Definition PIPELINE_STAT_QUERY_COUNT : Z := 11.

Record Tr2PipelineStatsDataAL := mk_data
  { inputAssemblyVertices : Z; inputAssemblyPrimitives : Z; vertexShaderInvocations : Z;
    geometryShaderInvocations : Z; geometryShaderPrimitives : Z; clippingInvocations : Z;
    clippingPrimitives : Z; fragmentShaderInvocations : Z; tessControlShaderPatches : Z;
    tessEvaluationShaderInvocations : Z; computeShaderInvocations : Z }.

Definition new_data : Tr2PipelineStatsDataAL := mk_data 0 0 0 0 0 0 0 0 0 0 0.

(** The members in memory, one after the other. *)
Definition words_of (d : Tr2PipelineStatsDataAL) : list Z :=
  [inputAssemblyVertices d; inputAssemblyPrimitives d; vertexShaderInvocations d;
   geometryShaderInvocations d; geometryShaderPrimitives d; clippingInvocations d;
   clippingPrimitives d; fragmentShaderInvocations d; tessControlShaderPatches d;
   tessEvaluationShaderInvocations d; computeShaderInvocations d].
Definition of_words (ws : list Z) : Tr2PipelineStatsDataAL :=
  let w i := nth i ws 0 in mk_data (w 0%nat) (w 1%nat) (w 2%nat) (w 3%nat) (w 4%nat) (w 5%nat) (w 6%nat) (w 7%nat) (w 8%nat) (w 9%nat) (w 10%nat).

(** The statistics asked for. *)
Definition pipelineStatistics : list VkQueryPipelineStatistic :=
  [INPUT_ASSEMBLY_VERTICES_BIT; INPUT_ASSEMBLY_PRIMITIVES_BIT; VERTEX_SHADER_INVOCATIONS_BIT;
   GEOMETRY_SHADER_INVOCATIONS_BIT; GEOMETRY_SHADER_PRIMITIVES_BIT; CLIPPING_INVOCATIONS_BIT;
   CLIPPING_PRIMITIVES_BIT; FRAGMENT_SHADER_INVOCATIONS_BIT;
   TESSELLATION_CONTROL_SHADER_PATCHES_BIT; TESSELLATION_EVALUATION_SHADER_INVOCATIONS_BIT;
   COMPUTE_SHADER_INVOCATIONS_BIT].

(** Labels, descriptions, and the member of each entry. *)
Definition STAT_ENTRIES : list (string * string * (Tr2PipelineStatsDataAL -> Z)) :=
  [("IAVertices", "Input assembler vertices", inputAssemblyVertices);
   ("IAPrimitives", "Input assembler primitives", inputAssemblyPrimitives);
   ("VSInvocations", "Vertex shader invocations", vertexShaderInvocations);
   ("GSInvocations", "Geometry shader invocations", geometryShaderInvocations);
   ("GSPrimitives", "Geometry shader primitives", geometryShaderPrimitives);
   ("CInvocations", "Clipping invocations", clippingInvocations);
   ("CPrimitives", "Clipping primitives", clippingPrimitives);
   ("PSInvocations", "Pixel shader invocations", fragmentShaderInvocations);
   ("HSInvocations", "Hull shader invocations", tessControlShaderPatches);
   ("DSInvocations", "Domain shader invocations", tessEvaluationShaderInvocations);
   ("CSInvocations", "Compute shader invocations", computeShaderInvocations)].

Section code.
Context `{Driver}.
Abbreviation C := (Code (with_context query)).

Definition Create : C ALResult :=
  create_query VK_QUERY_TYPE_PIPELINE_STATISTICS pipelineStatistics 1.
Definition Destroy : C unit := destroy_query.
Definition Begin : C ALResult := begin_query.
Definition End_ : C ALResult := end_query.
Definition SetName (name : option string) : C ALResult := name_query name.

(** The result, and [data] after the call. *)
Definition GetStats (data : Tr2PipelineStatsDataAL) : C (ALResult * Tr2PipelineStatsDataAL) :=
  o ← member id;
  if is_null (m_queryPool o) then mret (E_INVALIDCALL, data) else
  r ← call (vkGetQueryPoolResults (m_device o) (m_queryPool o) 0 1 (Z.of_nat (length (words_of data))) false);
  let data := of_words (fill (words_of data) r.2) in
  if negb (succeeded r.1) then mret (E_FAIL, data) else mret (S_OK, data).

End code.

Definition GetValueCount : Z := PIPELINE_STAT_QUERY_COUNT.

(** [STAT_ENTRIES[index]], undefined beyond its end. *)
Definition GetLabel (index : Z) : option string :=
  if PIPELINE_STAT_QUERY_COUNT <=? index then Some "" else
  e ← STAT_ENTRIES !! Z.to_nat index; Some e.1.1.
Definition GetDescription (index : Z) : option string :=
  if PIPELINE_STAT_QUERY_COUNT <=? index then Some "" else
  e ← STAT_ENTRIES !! Z.to_nat index; Some e.1.2.
Definition GetValue (data : Tr2PipelineStatsDataAL) (index : Z) : option Z :=
  if PIPELINE_STAT_QUERY_COUNT <=? index then Some 0 else
  e ← STAT_ENTRIES !! Z.to_nat index; Some (e.2 data).

Definition Describe (description : Description) : Description :=
  <["type" := "pipeline_stats_query"]> description.

End Tr2PipelineStatsQueryAL.
