(* ===== verification/VulkanQueriesSpec.v ===== *)
(** * Fences and queries keep to the rules

    The values of a fence grow, and it waits for what has been submitted; a query is
    reset, begun and ended in turn, whatever is asked of it in between, and its pool
    is destroyed with it. *)

From stdpp Require Import base numbers list option strings gmap fin_maps sets sorting.
From S2P Require Import Prelude RenderGraph VulkanFormats Vulkan VulkanContext VulkanUsage VulkanQueryRules VulkanDriver VulkanObject VulkanQueries.

#[local] Open Scope Z_scope.

(** ** Fences *)

(** The value that a submission of the semaphore signals, if it was accepted. *)
Definition signaled (semaphore : VkHandle) (e : event) : option Z :=
  match ev_call e in vk A return A -> option Z with
  | vkQueueSubmitSignal _ s v => fun r => if (s =? semaphore) && succeeded r then Some v else None
  | _ => fun _ => None
  end (ev_answer e).

(** The creation of the semaphore. *)
Definition makes (semaphore : VkHandle) (e : event) : bool :=
  match ev_call e in vk A return A -> bool with
  | vkCreateSemaphore _ _ => fun r =>
      match r with (VK_SUCCESS, Some h) => h =? semaphore | _ => false end
  | _ => fun _ => false
  end (ev_answer e).

(** The values submitted since then, the latest first. *)
Fixpoint submitted_values (semaphore : VkHandle) (tr : list event) : list Z :=
  match tr with
  | [] => []
  | e :: earlier =>
      if makes semaphore e then [] else
      match signaled semaphore e with
      | Some v => v :: submitted_values semaphore earlier
      | None => submitted_values semaphore earlier
      end
  end.

(** Every wait since then is for a value that had been submitted. *)
Fixpoint waits_submitted (semaphore : VkHandle) (tr : list event) : Prop :=
  match tr with
  | [] => True
  | e :: earlier =>
      if makes semaphore e then True else
      match ev_call e with
      | vkWaitSemaphores _ s v => s = semaphore -> v ∈ submitted_values semaphore earlier
      | _ => True
      end /\ waits_submitted semaphore earlier
  end.

Section fence.
Context `{Driver}.
Import Tr2FenceAL.

Inductive fence_use := UsePut | UseIsReached | UseWait.

Definition use_fence (u : fence_use) : Code (with_context t) unit :=
  match u with
  | UsePut => PutFence;; mret tt
  | UseIsReached => IsReached;; mret tt
  | UseWait => Wait;; mret tt
  end.

(** No submission has been refused. *)
Definition submissions_accepted : Prop :=
  forall tr q s v, answer tr (vkQueueSubmitSignal q s v) = VK_SUCCESS.

(** [n] more values can be signaled. *)
Record fence_sound (n : nat) (o : t) (tr : list event) : Prop := mk_fence_sound
  { fence_alive : exists g, usage tr = Some g /\ semaphores g !! m_semaphore o = Some Timeline;
    fence_values : Forall (fun v => v <= m_signaledValue o) (submitted_values (m_semaphore o) tr);
    fence_grows : StronglySorted Z.gt (submitted_values (m_semaphore o) tr);
    fence_room : 0 <= m_signaledValue o /\ m_signaledValue o + Z.of_nat n < 2 ^ 64;
    fence_waits : submissions_accepted -> waits_submitted (m_semaphore o) tr /\
      (m_hasFence o = true -> m_signaledValue o ∈ submitted_values (m_semaphore o) tr) }.

Implicit Types (tr : list event).

Lemma fence_sound_le n n' o tr : (n' <= n)%nat -> fence_sound n o tr -> fence_sound n' o tr.
Proof. intros Hn []. constructor; try done. lia. Qed.

(** A call that the fence makes of its semaphore and that signals nothing. *)
Lemma fence_sound_call {A} n o tr (c : vk A) (r : A) :
  fence_sound n o tr -> signaled (m_semaphore o) (Event c r) = None -> makes (m_semaphore o) (Event c r) = false ->
  (forall g, usage tr = Some g -> semaphores g !! m_semaphore o = Some Timeline -> check g (Event c r) = Some g) ->
  (submissions_accepted -> waits_submitted (m_semaphore o) tr -> waits_submitted (m_semaphore o) (Event c r :: tr)) ->
  fence_sound n o (Event c r :: tr).
Proof.
  intros [(g & Hg & Ht) Hv Hs Hr Hw] Hc Hnew Hu Hwait.
  assert (Hsub : submitted_values (m_semaphore o) (Event c r :: tr) = submitted_values (m_semaphore o) tr).
  { cbn [submitted_values]. by rewrite Hnew, Hc. }
  constructor; rewrite ?Hsub; try done.
  - exists g. cbn [usage]. rewrite Hg. by split; [apply Hu|].
  - intros Ha. destruct (Hw Ha) as [Hw1 Hw2]. by split; [apply Hwait|].
Qed.

Lemma runs_PutFence {R c n o tr} :
  is_Some (frame_of c) -> fence_sound (S n) o tr ->
  runs PutFence (fun _ w => exists o' tr', w = mkWorld (c, o') tr' /\ fence_sound n o' tr') R (mkWorld (c, o) tr).
Proof.
  intros [f Hf] [(g & Hg & Ht) Hv Hs Hr Hw]. unfold PutFence.
  apply runs_bind, runs_in_context, runs_this. cbn [object trace fst snd].
  apply runs_bind, runs_in_context. eapply runs_frame_of; [exact Hf|]. cbn [object trace fst snd].
  apply runs_bind, runs_assign. cbn [object trace fst snd]. set (v := u64 (m_signaledValue o + 1)).
  assert (Ev : v = m_signaledValue o + 1) by (apply wrap_u_small; unfold in_u; lia).
  apply runs_bind, runs_member. cbn [object snd]. apply runs_bind, runs_call. intros r Ha.
  set (o1 := o <| m_signaledValue ::= _ |>) in *. cbn [id object trace] in *.
  set (e := Event _ r).
  assert (Hsub : submitted_values (m_semaphore o) (e :: tr) =
      if succeeded r then v :: submitted_values (m_semaphore o) tr else submitted_values (m_semaphore o) tr).
  { cbn. rewrite Z.eqb_refl. cbn. by destruct (succeeded r). }
  assert (Hu : exists g, usage (e :: tr) = Some g /\ semaphores g !! m_semaphore o = Some Timeline).
  { exists g. cbn. rewrite Hg. cbn. by rewrite option_guard_True. }
  assert (Hle : Forall (fun x => x <= v) (submitted_values (m_semaphore o) tr)).
  { eapply Forall_impl; [exact Hv|]. cbn. lia. }
  assert (Hgrow : StronglySorted Z.gt (submitted_values (m_semaphore o) (e :: tr))).
  { rewrite Hsub. destruct (succeeded r); [|done]. constructor; [done|].
    eapply Forall_impl; [exact Hv|]. cbn. lia. }
  assert (Hall : Forall (fun x => x <= v) (submitted_values (m_semaphore o) (e :: tr))).
  { rewrite Hsub. destruct (succeeded r); [|done]. by constructor. }
  unfold succeeded in *. case_bool_decide as Hres; cbn [negb].
  - apply runs_bind, runs_assign, runs_ret. cbn [object trace fst snd]. eexists _, _. split; [done|].
    constructor; cbn -[submitted_values waits_submitted usage]; fold v; try done; [lia|].
    intros Hacc. split; [by split; [done|apply Hw]|]. intros _. rewrite Hsub. set_solver.
  - apply runs_ret. eexists _, _. split; [done|].
    constructor; cbn -[submitted_values waits_submitted usage]; fold v; try done; [lia|].
    intros Hacc. exfalso. apply Hres. rewrite Ha. apply Hacc.
Qed.

Lemma runs_IsReached {R c n o tr} :
  fence_sound n o tr ->
  runs IsReached (fun r w => (exists tr', w = mkWorld (c, o) tr' /\ fence_sound n o tr') /\
      (r.2 = Some true -> m_hasFence o = true ->
       exists counter, m_signaledValue o <= counter /\
         answer tr (vkGetSemaphoreCounterValue (m_device o) (m_semaphore o)) = (VK_SUCCESS, counter))) R
    (mkWorld (c, o) tr).
Proof.
  intros Hs. unfold IsReached. apply runs_bind, runs_member. cbn [object snd id].
  destruct (m_hasFence o) eqn:Hf; cbn [negb].
  2: { apply runs_ret. split; [|done]. by exists tr. }
  apply runs_bind, runs_call. intros [r v] Hr. cbn [object trace fst snd] in *.
  assert (Hs' : fence_sound n o (Event (vkGetSemaphoreCounterValue (m_device o) (m_semaphore o)) (r, v) :: tr)).
  { apply fence_sound_call; [done..| |by split].
    intros g Hg Ht. cbn. by rewrite option_guard_True. }
  unfold succeeded. case_bool_decide as Hres; cbn [negb]; apply runs_ret; (split; [by eexists|]); cbn; [|done].
  intros [= Hle%Z.leb_le] _. exists v. by rewrite <- Hr, Hres.
Qed.

Lemma runs_Wait {R c n o tr} :
  fence_sound n o tr ->
  runs Wait (fun _ w => exists tr', w = mkWorld (c, o) tr' /\ fence_sound n o tr') R (mkWorld (c, o) tr).
Proof.
  intros Hs. unfold Wait. apply runs_bind, runs_member. cbn [object snd id].
  destruct (m_hasFence o) eqn:Hf; cbn [negb].
  2: { apply runs_ret. by exists tr. }
  apply runs_bind, runs_call. intros r _. cbn [object trace].
  assert (Hs' : fence_sound n o (Event (vkWaitSemaphores (m_device o) (m_semaphore o) (m_signaledValue o)) r :: tr)).
  { apply fence_sound_call; [done..| |].
    - intros g Hg Ht. cbn. by rewrite option_guard_True.
    - intros Ha Hw. split; [|done]. intros _. by apply (fence_waits _ _ _ Hs). }
  unfold succeeded. case_bool_decide; apply runs_ret; by eexists.
Qed.

Lemma runs_use_fences {R c o tr} us :
  is_Some (frame_of c) -> fence_sound (length us) o tr ->
  runs (for_each use_fence us) (fun _ w => exists o' tr', w = mkWorld (c, o') tr' /\ fence_sound 0 o' tr') R
    (mkWorld (c, o) tr).
Proof.
  intros Hf. revert o tr. induction us as [|u us IH]; intros o tr Hs; cbn [for_each length] in *.
  { apply runs_ret. by exists o, tr. }
  apply runs_bind. eapply (runs_mono _ (fun _ w => exists o' tr', w = mkWorld (c, o') tr' /\ fence_sound (length us) o' tr') _ (fun _ _ => False)).
  - destruct u; cbn [use_fence]; apply runs_bind.
    + eapply runs_mono; [by eapply (runs_PutFence (R := fun _ _ => False))|..|done]. intros hr w Hw. by apply runs_ret.
    + eapply runs_mono; [by eapply (runs_IsReached (R := fun _ _ => False))|..|done].
      intros r w [(tr' & -> & Hs') _]. apply runs_ret. exists o, tr'. split; [done|]. by eapply fence_sound_le; [|exact Hs']; lia.
    + eapply runs_mono; [by eapply (runs_Wait (R := fun _ _ => False))|..|done].
      intros r w (tr' & -> & Hs'). apply runs_ret. exists o, tr'. split; [done|]. by eapply fence_sound_le; [|exact Hs']; lia.
  - intros [] w (o' & tr' & -> & Hs'). by apply IH.
  - done.
Qed.

Lemma runs_fence_Create {R c o tr g} n :
  @DriverLaws _ -> usage tr = Some g -> 0 <= m_signaledValue o -> m_signaledValue o + Z.of_nat n < 2 ^ 64 ->
  m_hasFence o = false ->
  runs Create (fun hr w => exists o' tr', w = mkWorld (c, o') tr' /\
      (hr = S_OK -> fence_sound n o' tr') /\ (hr <> S_OK -> hr = E_FAIL /\ is_Some (usage tr'))) R (mkWorld (c, o) tr).
Proof.
  intros HD Hg H0 Hn Hf. unfold Create. apply runs_bind, runs_in_context, runs_this. cbn [object trace fst snd id].
  apply runs_bind, runs_assign. cbn [object trace fst snd]. apply runs_bind. unfold out_member.
  apply runs_call_out. cbn [object trace fst snd]. intros r p Hr.
  pose proof (semaphore_new tr g (device (state c)) true Hg) as Hnew.
  unfold new_in, created in Hnew. rewrite <- Hr in Hnew. cbn in Hnew.
  unfold succeeded. case_bool_decide as Hs; cbn [negb]; apply runs_ret.
  - subst r. destruct (Hnew eq_refl) as (h & -> & _ & _). eexists _, _. split; [done|]. split; [|done]. intros _.
    constructor; cbn; rewrite ?Z.eqb_refl; try done.
    + rewrite Hg. eexists. split; [done|]. cbn. by rewrite lookup_insert_eq.
    + constructor.
    + by rewrite Hf.
  - destruct p; (eexists _, _; split; [done|]; split; [done|]; intros _; split; [done|]; cbn; rewrite Hg; by destruct r).
Qed.
End fence.

(** C17. A fence is made and used in any order, fewer than 2^64 times: its calls are
    valid, each value it submits is greater than those before, as a timeline demands,
    and, if no submission is refused, it waits only for values that it submitted. *)
Theorem fence_protocol `{DriverLaws} c tr us
    (Hv : valid tr) (Hf : is_Some (frame_of c)) (Hus : Z.of_nat (length us) < 2 ^ 64) :
  runs (CR_RETURN_HR Tr2FenceAL.Create;; for_each use_fence us)
    (fun _ w => let sem := Tr2FenceAL.m_semaphore (snd (object w)) in
       valid (trace w) /\ StronglySorted Z.gt (submitted_values sem (trace w)) /\
       (submissions_accepted -> waits_submitted sem (trace w)))
    (fun hr w => hr = E_FAIL /\ valid (trace w)) (mkWorld (c, Tr2FenceAL.new) tr).
Proof.
  destruct Hv as [g Hg]. apply runs_bind, runs_CR_RETURN_HR.
  eapply runs_mono; [eapply (runs_fence_Create (R := fun _ _ => False) (length us)); done| |done].
  intros hr w (o & tr' & -> & Hok & Hfail). destruct (FAILED hr) eqn:Hhr.
  { destruct hr; try done; by apply Hfail. }
  destruct hr; try done. specialize (Hok eq_refl).
  eapply runs_mono; [by apply (runs_use_fences (R := fun _ _ => False))| |done].
  intros _ w (o' & tr2 & -> & [(g' & Hg' & _) _ Hs _ Hw]). cbn. split; [by exists g'|]. split; [done|].
  intros Ha. by apply Hw.
Qed.

(** ** Queries *)

Inductive query_use := UseBegin | UseEnd | UseGet.

Lemma change_query_one from to pool type q m :
  m !! pool = Some (type, [q]) -> from q = true ->
  change_query from to pool 0 m = Some (<[pool := (type, [to])]> m).
Proof.
  intros Hm Hq. unfold change_query. rewrite Hm. cbn. rewrite option_guard_True by done.
  change (Z.to_nat 0) with 0%nat. cbn. by rewrite option_guard_True.
Qed.

(** The query of [o], in the command buffer of the frame when it runs, beside the
    pools of [base]. *)
Record query_is (f : VulkanFrameContext) (type : query_kind) (base : queries) (o : query) (q : query_state)
    (tr : list event) : Prop := mk_query_is
  { query_after : queries_after tr = Some (<[m_queryPool o := (type, [q])]> base);
    query_new : base !! m_queryPool o = None;
    query_given : is_null (m_queryPool o) = false;
    query_running : if m_isRunning o then q = Active (commandBuffer f) else is_active q = false }.

Section queries.
Context `{QueryLaws}.
Implicit Types (tr : list event) (o : query).

Lemma runs_begin_query {R c f type base o q tr} :
  frame_of c = Some f -> query_is f type base o q tr ->
  runs begin_query (fun _ w => exists o' q' tr', w = mkWorld (c, o') tr' /\ q' <> Uninitialized /\
    query_is f type base o' q' tr') R (mkWorld (c, o) tr).
Proof.
  intros Hf [Hq Hn Hg Hr]. unfold begin_query. apply runs_bind, runs_member. cbn [object snd id].
  rewrite Hg. cbn [orb]. destruct (m_isRunning o) eqn:Hrun.
  { apply runs_ret. exists o, q, tr. split; [done|]. split; [by rewrite Hr|]. constructor; try done. by rewrite Hrun. }
  apply runs_bind, runs_in_context. eapply runs_GetCurrentCommandBuffer; [exact Hf|]. cbn [object trace fst snd].
  apply runs_bind, runs_call. intros [] _. apply runs_bind, runs_call. intros [] _.
  apply runs_bind, runs_assign, runs_ret. cbn [object trace fst snd].
  eexists _, _, _. split; [done|]. split; cycle 1.
  - constructor; cbn [m_queryPool m_isRunning]; [|done..]. cbn -[change_query]. rewrite Hq. cbn -[change_query].
    rewrite lookup_insert_eq. cbn -[change_query]. unfold query_range. rewrite option_guard_True by (cbn; lia).
    cbn -[change_query]. rewrite option_guard_True by (by repeat constructor). cbn -[change_query].
    erewrite change_query_one; [|by rewrite lookup_insert_eq|done]. by rewrite !insert_insert_eq.
  - done.
Qed.

Lemma runs_end_query {R c f type base o q tr} :
  frame_of c = Some f -> query_is f type base o q tr -> q <> Uninitialized ->
  runs end_query (fun _ w => exists o' q' tr', w = mkWorld (c, o') tr' /\ q' <> Uninitialized /\
    query_is f type base o' q' tr') R (mkWorld (c, o) tr).
Proof.
  intros Hf [Hq Hn Hg Hr] Hi. unfold end_query. apply runs_bind, runs_member. cbn [object snd id].
  rewrite Hg. cbn [orb]. destruct (m_isRunning o) eqn:Hrun; cbn [negb].
  2: { apply runs_ret. exists o, q, tr. split; [done|]. split; [done|]. constructor; try done. by rewrite Hrun. }
  apply runs_bind, runs_in_context. eapply runs_GetCurrentCommandBuffer; [exact Hf|]. cbn [object trace fst snd].
  apply runs_bind, runs_call. intros [] _.
  apply runs_bind, runs_assign, runs_ret. cbn [object trace fst snd].
  eexists _, Ended, _. split; [done|]. split; cycle 1.
  - constructor; cbn [m_queryPool m_isRunning]; [|done..]. cbn -[change_query]. rewrite Hq. cbn -[change_query].
    erewrite change_query_one; [|by rewrite lookup_insert_eq|rewrite Hr; by apply bool_decide_eq_true].
    by rewrite !insert_insert_eq.
  - done.
Qed.

(** Reading the results into an array with room for them. *)
Lemma query_is_read f type base o q tr d room (availability : bool) (r : VkResult * list Z) :
  query_is f type base o q tr -> q <> Uninitialized ->
  result_values type + (if availability then 1 else 0) <= room ->
  query_is f type base o q
    (Event (vkGetQueryPoolResults d (m_queryPool o) 0 1 room availability) r :: tr).
Proof.
  intros [Hq Hn Hg Hr] Hi Hroom. constructor; try done. cbn -[result_values Z.mul Z.add]. rewrite Hq. cbn -[result_values Z.mul Z.add].
  rewrite lookup_insert_eq. cbn -[result_values Z.mul Z.add]. unfold query_range. rewrite option_guard_True by (cbn; lia).
  cbn -[result_values Z.mul Z.add]. rewrite option_guard_True by (cbn; lia). cbn -[result_values Z.mul Z.add].
  by rewrite option_guard_True by (by repeat constructor).
Qed.

(** The pool after its creation, beside those of [base]. *)
Record pool_made (type : query_kind) (qs : list query_state) (base : queries) (o : query) (tr : list event)
    : Prop := mk_pool_made
  { made_after : queries_after tr = Some (<[m_queryPool o := (type, qs)]> base);
    made_new : base !! m_queryPool o = None;
    made_given : is_null (m_queryPool o) = false;
    made_still : m_isRunning o = false }.

Lemma runs_create_query {R c base tr} (type : query_kind) n :
  queries_after tr = Some base ->
  runs (create_query type.1 type.2 n) (fun hr w => exists o' tr', w = mkWorld (c, o') tr' /\
      if FAILED hr then hr = E_FAIL /\ queries_after tr' = Some base
      else pool_made type (replicate (Z.to_nat n) Uninitialized) base o' tr') R (mkWorld (c, new_query) tr).
Proof.
  intros Hb. destruct type as [queryType statistics]. unfold create_query.
  apply runs_bind, runs_in_context, runs_this. cbn [object trace fst snd id].
  apply runs_bind, runs_assign. cbn [object trace fst snd]. apply runs_bind. unfold out_member.
  apply runs_call_out. cbn [object trace fst snd]. intros r p Hr.
  pose proof (query_pool_new tr base (device (state c)) (queryType, statistics) n Hb) as Hnew.
  unfold new_in, created in Hnew. rewrite <- Hr in Hnew. cbn in Hnew.
  unfold succeeded. case_bool_decide as Hs; cbn [negb]; apply runs_ret.
  - subst r. destruct (Hnew eq_refl) as (h & -> & Hh & Hin). eexists _, _. split; [done|]. cbn [FAILED SUCCEEDED negb].
    constructor; cbn; [by rewrite Hb|by apply not_elem_of_dom|by apply Z.eqb_neq|done].
  - destruct p; (eexists _, _; split; [done|]; split; [done|]; cbn; rewrite Hb; by destruct r).
Qed.

Lemma runs_destroy_query {R c p base o tr} :
  queries_after tr = Some (<[m_queryPool o := p]> base) -> base !! m_queryPool o = None ->
  is_null (m_queryPool o) = false ->
  runs destroy_query (fun _ w => queries_after (trace w) = Some base) R (mkWorld (c, o) tr).
Proof.
  intros Hq Hn Hg. unfold destroy_query. apply runs_bind, runs_member. cbn [object snd id].
  rewrite Hg. apply runs_bind, runs_bind, runs_call. intros [] _. apply runs_assign, runs_assign.
  cbn. rewrite Hq. cbn. rewrite lookup_insert_eq, option_guard_True by done. cbn.
  by rewrite delete_insert_eq, delete_id.
Qed.

Section uses.
Context (type : query_kind) (get_results : Code (with_context query) unit).

(** [get_results] only reads. *)
Definition reads : Prop := forall R c f base o q tr,
  query_is f type base o q tr -> q <> Uninitialized ->
  runs get_results (fun _ w => exists tr', w = mkWorld (c, o) tr' /\ query_is f type base o q tr') R
    (mkWorld (c, o) tr).

Definition use_query (u : query_use) : Code (with_context query) unit :=
  match u with
  | UseBegin => begin_query;; mret tt
  | UseEnd => end_query;; mret tt
  | UseGet => get_results
  end.

(** [Create], a first [Begin], [uses], and [Destroy]. *)
Definition query_lifetime (us : list query_use) : Code (with_context query) unit :=
  CR_RETURN_HR (create_query type.1 type.2 1);; use_query UseBegin;; for_each use_query us;; destroy_query.

Lemma runs_use_queries {R c f base o q tr} us :
  reads -> frame_of c = Some f -> query_is f type base o q tr -> q <> Uninitialized ->
  runs (for_each use_query us) (fun _ w => exists o' q' tr', w = mkWorld (c, o') tr' /\ query_is f type base o' q' tr')
    R (mkWorld (c, o) tr).
Proof.
  intros Hreads Hf. revert o q tr. induction us as [|u us IH]; intros o q tr Hq Hi; cbn [for_each].
  { apply runs_ret. by exists o, q, tr. }
  apply runs_bind. eapply (runs_mono _ (fun _ w => exists o' q' tr', w = mkWorld (c, o') tr' /\ q' <> Uninitialized /\
    query_is f type base o' q' tr') _ (fun _ _ => False)); [|..|done].
  - destruct u; cbn [use_query].
    + apply runs_bind. eapply runs_mono; [by eapply (runs_begin_query (R := fun _ _ => False))|..|done].
      intros hr w Hw. by apply runs_ret.
    + apply runs_bind. eapply runs_mono; [by eapply (runs_end_query (R := fun _ _ => False))|..|done].
      intros hr w Hw. by apply runs_ret.
    + eapply runs_mono; [by eapply (Hreads (fun _ _ => False))|..|done].
      intros [] w (tr' & -> & Hq'). by exists o, q, tr'.
  - intros [] w (o' & q' & tr' & -> & Hi' & Hq'). by eapply IH.
Qed.

Lemma runs_query_lifetime c base tr us :
  reads -> is_Some (frame_of c) -> queries_after tr = Some base ->
  runs (query_lifetime us) (fun _ w => queries_after (trace w) = Some base)
    (fun hr w => hr = E_FAIL /\ queries_after (trace w) = Some base) (mkWorld (c, new_query) tr).
Proof.
  intros Hreads [f Hf] Hb. apply runs_bind, runs_CR_RETURN_HR.
  eapply runs_mono; [by eapply (runs_create_query (R := fun _ _ => False))| |done].
  intros hr w (o & tr' & -> & Hq). destruct (FAILED hr); [done|].
  assert (Hq0 : query_is f type base o Uninitialized tr').
  { destruct Hq as [Ha Hn Hg Hr]. constructor; [done..|]. by rewrite Hr. }
  apply runs_bind, runs_bind. eapply runs_mono; [by eapply (runs_begin_query (R := fun _ _ => False))| |done].
  intros _ w (o1 & q1 & tr1 & -> & Hi1 & Hq1). apply runs_ret, runs_bind.
  eapply runs_mono; [by eapply (runs_use_queries (R := fun _ _ => False))| |done].
  intros _ w (o2 & q2 & tr2 & -> & [Ha Hn Hg _]). by eapply runs_destroy_query.
Qed.
End uses.
End queries.

(** ** Timestamps *)

(** The queries of a timer that runs, and of one that has run. *)
Definition timer_queries (running : bool) : list query_state :=
  if running then [Ended; Unavailable] else [Ended; Ended].

Record timer_is (base : queries) (o : query) (qs : list query_state) (tr : list event) : Prop := mk_timer_is
  { timer_after : queries_after tr = Some (<[m_queryPool o := ((VK_QUERY_TYPE_TIMESTAMP, []), qs)]> base);
    timer_new : base !! m_queryPool o = None;
    timer_given : is_null (m_queryPool o) = false }.

Section timers.
Context `{QueryLaws}.
Import Tr2GpuTimerAL.
Implicit Types (tr : list event) (o : query).

Definition timer_used (c : VulkanContext) (base : queries) (w : world (with_context query)) : Prop :=
  exists o tr, w = mkWorld (c, o) tr /\ timer_is base o (timer_queries (m_isRunning o)) tr.

Lemma change_query_at from to pool type qs i q m :
  m !! pool = Some (type, qs) -> qs !! i = Some q -> from q = true ->
  change_query from to pool (Z.of_nat i) m = Some (<[pool := (type, <[i := to]> qs)]> m).
Proof.
  intros Hm Hi Hq. unfold change_query. rewrite Hm. cbn. rewrite option_guard_True by lia.
  rewrite Nat2Z.id. cbn. rewrite Hi. cbn. by rewrite option_guard_True.
Qed.

Lemma runs_timer_Begin {R c f base o qs tr} :
  frame_of c = Some f -> timer_is base o qs tr -> length qs = 2%nat ->
  (if m_isRunning o then qs = timer_queries true else Forall (fun q => is_active q = false) qs) ->
  runs Begin (fun _ => timer_used c base) R (mkWorld (c, o) tr).
Proof.
  intros Hf [Hq Hn Hg] Hlen Hr. unfold Begin. apply runs_bind, runs_member. cbn [object snd id].
  rewrite Hg. cbn [orb]. destruct (m_isRunning o) eqn:Hrun.
  { apply runs_ret. exists o, tr. split; [done|]. rewrite Hrun. by subst qs. }
  apply runs_bind, runs_in_context. eapply runs_GetCurrentCommandBuffer; [exact Hf|]. cbn [object trace fst snd].
  apply runs_bind, runs_call. intros [] _. apply runs_bind, runs_call. intros [] _.
  apply runs_bind, runs_assign, runs_ret. cbn [object trace fst snd].
  eexists _, _. split; [done|]. constructor; cbn [m_queryPool m_isRunning timer_queries]; [|done..].
  cbn -[change_query]. rewrite Hq. cbn -[change_query].
  rewrite lookup_insert_eq. cbn -[change_query]. unfold query_range. rewrite option_guard_True by (rewrite Hlen; lia).
  cbn -[change_query]. rewrite option_guard_True by by apply Forall_take, Forall_drop. cbn -[change_query].
  destruct qs as [|q0 [|q1 [|]]]; try done.
  rewrite (change_query_at _ _ _ (VK_QUERY_TYPE_TIMESTAMP, []) [Unavailable; Unavailable] 0 Unavailable);
    [by rewrite !insert_insert_eq|by rewrite lookup_insert_eq|done..].
Qed.

Lemma runs_timer_End {R c f base o tr} :
  frame_of c = Some f -> timer_is base o (timer_queries (m_isRunning o)) tr ->
  runs End_ (fun _ => timer_used c base) R (mkWorld (c, o) tr).
Proof.
  intros Hf [Hq Hn Hg]. unfold End_. apply runs_bind, runs_member. cbn [object snd id].
  rewrite Hg. cbn [orb]. destruct (m_isRunning o) eqn:Hrun; cbn [negb].
  2: { apply runs_ret. exists o, tr. split; [done|]. by rewrite Hrun. }
  apply runs_bind, runs_in_context. eapply runs_GetCurrentCommandBuffer; [exact Hf|]. cbn [object trace fst snd].
  apply runs_bind, runs_call. intros [] _. apply runs_assign. cbn [object trace fst snd].
  eexists _, _. split; [done|]. constructor; cbn [m_queryPool m_isRunning timer_queries]; [|done..].
  cbn -[change_query]. rewrite Hq. cbn -[change_query].
  rewrite (change_query_at _ _ _ (VK_QUERY_TYPE_TIMESTAMP, []) (timer_queries true) 1 Unavailable);
    [by rewrite !insert_insert_eq|by rewrite lookup_insert_eq|done..].
Qed.

Lemma runs_timer_GetTime {R c base o tr} :
  timer_is base o (timer_queries (m_isRunning o)) tr ->
  runs GetTime (fun _ => timer_used c base) R (mkWorld (c, o) tr).
Proof.
  intros [Hq Hn Hg]. unfold GetTime. apply runs_bind, runs_member. cbn [object snd id]. rewrite Hg.
  apply runs_bind, runs_call. intros r _. cbn [object trace].
  assert (Hu : timer_used c base (mkWorld (c, o) (Event (vkGetQueryPoolResults (m_device o) (m_queryPool o) 0 2 2 false) r :: tr))).
  { eexists _, _. split; [done|]. constructor; try done. cbn. rewrite Hq. cbn. rewrite lookup_insert_eq. cbn.
    by destruct (m_isRunning o). }
  case_match; [by apply runs_ret|]. apply runs_bind, runs_in_context, runs_this, runs_ret. exact Hu.
Qed.

Definition use_timer (u : query_use) : Code (with_context query) unit :=
  match u with
  | UseBegin => Begin;; mret tt
  | UseEnd => End_
  | UseGet => GetTime;; mret tt
  end.

Definition timer_lifetime (us : list query_use) : Code (with_context query) unit :=
  CR_RETURN_HR Create;; use_timer UseBegin;; for_each use_timer us;; Destroy.

Lemma runs_use_timers {R c f base o tr} us :
  frame_of c = Some f -> timer_is base o (timer_queries (m_isRunning o)) tr ->
  runs (for_each use_timer us) (fun _ => timer_used c base) R (mkWorld (c, o) tr).
Proof.
  intros Hf. revert o tr. induction us as [|u us IH]; intros o tr Ht; cbn [for_each].
  { apply runs_ret. by exists o, tr. }
  apply runs_bind. eapply (runs_mono _ (fun _ => timer_used c base) _ (fun _ _ => False)); [|..|done].
  - destruct u; cbn [use_timer].
    + apply runs_bind. eapply runs_mono; [eapply (runs_timer_Begin (R := fun _ _ => False)); [done..| |]|..|done].
      * by destruct (m_isRunning o).
      * destruct (m_isRunning o); [done|by repeat constructor].
      * intros b w Hw. by apply runs_ret.
    + by eapply runs_timer_End.
    + apply runs_bind. eapply runs_mono; [by eapply (runs_timer_GetTime (R := fun _ _ => False))|..|done].
      intros b w Hw. by apply runs_ret.
  - intros [] w (o' & tr' & -> & Ht'). by apply IH.
Qed.

Lemma runs_timer_lifetime c base tr us :
  is_Some (frame_of c) -> queries_after tr = Some base ->
  runs (timer_lifetime us) (fun _ w => queries_after (trace w) = Some base)
    (fun hr w => hr = E_FAIL /\ queries_after (trace w) = Some base) (mkWorld (c, new_query) tr).
Proof.
  intros [f Hf] Hb. apply runs_bind, runs_CR_RETURN_HR.
  eapply runs_mono; [by eapply (runs_create_query (R := fun _ _ => False) (VK_QUERY_TYPE_TIMESTAMP, []) 2)| |done].
  intros hr w (o & tr' & -> & Hq). destruct (FAILED hr); [done|]. destruct Hq as [Hq Hn Hg Hr].
  apply runs_bind, runs_bind. eapply runs_mono; [eapply (runs_timer_Begin (R := fun _ _ => False)); [done|by constructor|done|]| |done].
  { rewrite Hr. by repeat constructor. }
  intros _ w (o1 & tr1 & -> & Ht1). apply runs_ret, runs_bind.
  eapply runs_mono; [by eapply (runs_use_timers (R := fun _ _ => False))| |done].
  intros _ w (o2 & tr2 & -> & [Hq2 Hn2 Hg2]). by eapply runs_destroy_query.
Qed.
End timers.

(** ** The three kinds *)

Section kinds.
Context `{QueryLaws}.

Lemma reads_pixel_count waitMode :
  reads (VK_QUERY_TYPE_OCCLUSION, []) (Tr2OcclusionQueryAL.GetPixelCount waitMode;; mret tt).
Proof.
  intros R c f base o q tr Hq Hi. apply runs_bind. unfold Tr2OcclusionQueryAL.GetPixelCount.
  apply runs_bind, runs_member. cbn [object snd id]. rewrite (query_given _ _ _ _ _ _ Hq).
  apply runs_bind, runs_call. intros r _. cbn [object trace].
  assert (Hq' := query_is_read _ _ _ _ _ _ (m_device o) 2 (bool_decide (waitMode = Tr2OcclusionQueryAL.DO_NOT_WAIT)) r Hq Hi ltac:(by case_bool_decide)).
  repeat case_match; apply runs_ret, runs_ret; by eexists.
Qed.

Lemma reads_stats data :
  reads (VK_QUERY_TYPE_PIPELINE_STATISTICS, Tr2PipelineStatsQueryAL.pipelineStatistics)
    (Tr2PipelineStatsQueryAL.GetStats data;; mret tt).
Proof.
  intros R c f base o q tr Hq Hi. apply runs_bind. unfold Tr2PipelineStatsQueryAL.GetStats.
  apply runs_bind, runs_member. cbn [object snd id]. rewrite (query_given _ _ _ _ _ _ Hq).
  apply runs_bind, runs_call. intros r _. cbn [object trace].
  assert (Hq' := query_is_read _ _ _ _ _ _ (m_device o) 11 false r Hq Hi ltac:(done)).
  case_match; apply runs_ret, runs_ret; by eexists.
Qed.

End kinds.

(** C18. Occlusion queries and queries of statistics are made, begun, and begun, ended and
    read in any order, and destroyed: each is reset before it begins, ended while it
    is active, read into an array with room for its result, and no pool is left.
    A timer resets and writes
    its two timestamps likewise. *)
Theorem query_protocol `{QueryLaws} c base tr us waitMode data
    (Hf : is_Some (frame_of c)) (Hb : queries_after tr = Some base)
    (ok := fun (_ : unit) (w : world (with_context query)) => queries_after (trace w) = Some base)
    (failed := fun hr (w : world (with_context query)) => hr = E_FAIL /\ queries_after (trace w) = Some base) :
  runs (query_lifetime (VK_QUERY_TYPE_OCCLUSION, []) (Tr2OcclusionQueryAL.GetPixelCount waitMode;; mret tt) us)
    ok failed (mkWorld (c, new_query) tr) /\
  runs (query_lifetime (VK_QUERY_TYPE_PIPELINE_STATISTICS, Tr2PipelineStatsQueryAL.pipelineStatistics)
      (Tr2PipelineStatsQueryAL.GetStats data;; mret tt) us)
    ok failed (mkWorld (c, new_query) tr) /\
  runs (timer_lifetime us) ok failed (mkWorld (c, new_query) tr).
Proof.
  split; [|split; [|by apply runs_timer_lifetime]]; apply runs_query_lifetime; try done; [apply reads_pixel_count|apply reads_stats].
Qed.

(** The counters read are the values of the entries, under their labels; beyond the
    last entry there is nothing. *)
Theorem stats_roundtrip (ws : list Z) (Hws : length ws = 11%nat) :
  let data := Tr2PipelineStatsQueryAL.of_words ws in
  Tr2PipelineStatsQueryAL.words_of data = ws /\
  (forall i, 0 <= i < Tr2PipelineStatsQueryAL.GetValueCount ->
     Tr2PipelineStatsQueryAL.GetValue data i = ws !! Z.to_nat i /\
     is_Some (Tr2PipelineStatsQueryAL.GetLabel i) /\ is_Some (Tr2PipelineStatsQueryAL.GetDescription i)) /\
  (forall i, Tr2PipelineStatsQueryAL.GetValueCount <= i ->
     Tr2PipelineStatsQueryAL.GetValue data i = Some 0 /\ Tr2PipelineStatsQueryAL.GetLabel i = Some EmptyString).
Proof.
  do 12 (destruct ws as [|? ws]; [try done|]); [|done]. cbv zeta. split; [done|]. split.
  - unfold Tr2PipelineStatsQueryAL.GetValueCount, Tr2PipelineStatsQueryAL.PIPELINE_STAT_QUERY_COUNT. intros i Hi.
    assert (Hn : exists n, i = Z.of_nat n /\ (n < 11)%nat) by (exists (Z.to_nat i); lia).
    destruct Hn as (n & -> & Hn). do 11 (destruct n as [|n]; [repeat split; by eexists|]). lia.
  - intros i Hi. unfold Tr2PipelineStatsQueryAL.GetValueCount in Hi.
    unfold Tr2PipelineStatsQueryAL.GetValue, Tr2PipelineStatsQueryAL.GetLabel. by rewrite (proj2 (Z.leb_le _ _) Hi).
Qed.

(** ** Instances *)

Example fence_protocol_witness :
  @runs (with_context Tr2FenceAL.t) unit
    (CR_RETURN_HR (@Tr2FenceAL.Create (respond calm));; for_each (@use_fence (respond calm)) [UsePut; UsePut; UseWait; UseIsReached])
    (fun _ w => waits_submitted (Tr2FenceAL.m_semaphore (snd (object w))) (trace w))
    (fun hr _ => hr = E_FAIL) (mkWorld (new_VulkanContext, Tr2FenceAL.new) []).
Proof.
  assert (Hv : valid []) by by eexists.
  assert (Hf : is_Some (frame_of new_VulkanContext)) by by eexists.
  refine (runs_mono _ _ _ _ _ _ (@fence_protocol (respond calm) calm_laws new_VulkanContext []
    [UsePut; UsePut; UseWait; UseIsReached] Hv Hf _) _ _).
  - reflexivity.
  - intros _ w (_ & _ & Hw). by apply Hw.
  - by intros hr w [-> _].
Defined.

Example query_protocol_witness :
  @runs (with_context query) unit
    (@query_lifetime (respond calm) (VK_QUERY_TYPE_OCCLUSION, [])
      (@Tr2OcclusionQueryAL.GetPixelCount (respond calm) Tr2OcclusionQueryAL.DO_NOT_WAIT;; mret tt)
      [UseEnd; UseGet; UseBegin; UseGet; UseBegin; UseEnd; UseEnd])
    (fun _ w => queries_after (trace w) = Some ∅) (fun hr w => hr = E_FAIL /\ queries_after (trace w) = Some ∅)
    (mkWorld (new_VulkanContext, new_query) []).
Proof.
  assert (Hf : is_Some (frame_of new_VulkanContext)) by by eexists.
  destruct (@query_protocol (respond calm) (respond_queries calm) new_VulkanContext ∅ []
    [UseEnd; UseGet; UseBegin; UseGet; UseBegin; UseEnd; UseEnd] Tr2OcclusionQueryAL.DO_NOT_WAIT
    Tr2PipelineStatsQueryAL.new_data Hf eq_refl) as (Hp & _ & _).
  exact Hp.
Defined.

Example stats_roundtrip_witness :
  Tr2PipelineStatsQueryAL.GetValue (Tr2PipelineStatsQueryAL.of_words [5; 6; 7; 8; 9; 10; 11; 12; 13; 14; 15]) 10 = Some 15.
Proof. by apply (stats_roundtrip [5; 6; 7; 8; 9; 10; 11; 12; 13; 14; 15] eq_refl). Defined.
