(* ===== verification/VulkanPipelines.v ===== *)
(** * Samplers, shaders, programs and vertex layouts

    [src/src/trinityal-vulkan/Tr2SamplerStateALVulkan.cpp], [Tr2ShaderALVulkan.cpp],
    [Tr2ShaderProgramALVulkan.cpp], [Tr2VertexLayoutALVulkan.cpp] and
    [Tr2CapsALVulkan.cpp]: how textures are sampled, the code of a stage, the stages of
    a pipeline with the layout of what they read, and the vertices they are given, with
    the pipeline made for both. Messages of the log are left out, and so are members
    that are written and never read. *)

From Stdlib Require Import Strings.Byte.
From Corelib Require SpecFloat.
From stdpp Require Import base numbers list option strings gmap pretty.
From S2P Require Import Prelude RenderGraph VulkanFormats Vulkan VulkanContext VulkanUsage VulkanMemory VulkanObject VulkanQueries.
Import VkFormat.

#[local] Open Scope string_scope.
#[local] Open Scope list_scope.
#[local] Open Scope Z_scope.

Definition VK_OBJECT_TYPE_SHADER_MODULE : Z := 15.
Definition VK_OBJECT_TYPE_PIPELINE_LAYOUT : Z := 17.
Definition VK_OBJECT_TYPE_PIPELINE : Z := 19.
Definition VK_OBJECT_TYPE_SAMPLER : Z := 21.

(** [SetName] with the object and its type. *)
Definition name_object `{Driver} {O} (device object : O -> VkHandle) (type : Z) (name : option string)
    : Code (with_context O) ALResult :=
  o ← member id;
  in_context (SetVulkanObjectName (device o) (object o) type name);;
  mret S_OK.

(** ** Samplers *)

Record Tr2SamplerDescription := mkTr2SamplerDescription
  { m_magFilter : Z; m_minFilter : Z; m_mipFilter : Z; m_addressU : TextureAddressMode;
    m_addressV : TextureAddressMode; m_addressW : TextureAddressMode;
    m_mipLODBias : SpecFloat.spec_float; m_maxAnisotropy : Z; m_isComparisonFilter : bool;
    m_comparisonFunc : CompareFunc; m_minLOD : SpecFloat.spec_float; m_maxLOD : SpecFloat.spec_float }.

Module Tr2SamplerStateAL.

Record t := mk { m_sampler : VkHandle; m_device : VkHandle }.
#[export] Instance t_eta : Eta t := fun o => mk (m_sampler o) (m_device o).
Definition new : t := mk 0 0.

Definition create_info `{Tr2TextureFilters} (description : Tr2SamplerDescription) : VkSamplerCreateInfo :=
  mkVkSamplerCreateInfo
    (ConvertTextureFilter (m_magFilter description)) (ConvertTextureFilter (m_minFilter description))
    (if m_mipFilter description =? TF_POINT then VK_SAMPLER_MIPMAP_MODE_NEAREST
     else VK_SAMPLER_MIPMAP_MODE_LINEAR)
    (ConvertAddressMode (m_addressU description)) (ConvertAddressMode (m_addressV description))
    (ConvertAddressMode (m_addressW description)) (m_mipLODBias description)
    (1 <? m_maxAnisotropy description) (Tr2GpuTimerAL.float_of_Z (Z.max (m_maxAnisotropy description) 1))
    (m_isComparisonFilter description) (ConvertCompareFunc (m_comparisonFunc description))
    (m_minLOD description) (m_maxLOD description).

Section code.
Context `{Driver} `{Tr2TextureFilters}.
Abbreviation C := (Code (with_context t)).

Definition Create (description : Tr2SamplerDescription) : C ALResult :=
  s ← in_context (get id);
  assign (fun o => o <| m_device := device s |>);;
  result ← out_member (fun h o => o <| m_sampler := h |>) (vkCreateSampler (device s) (create_info description));
  if negb (succeeded result) then mret E_FAIL else mret S_OK.

Definition Destroy : C unit :=
  o ← member id;
  if is_null (m_sampler o) then mret tt else
    call (vkDestroy Sampler (m_device o) (m_sampler o));;
    assign (fun o => o <| m_sampler := VK_NULL_HANDLE |>).

Definition SetName (name : option string) : C ALResult :=
  name_object m_device m_sampler VK_OBJECT_TYPE_SAMPLER name.

End code.

Definition GetIndexInHeap : Z := 0xffffffff.
Definition IsValid (o : t) : bool := negb (is_null (m_sampler o)).
Definition Describe (description : Description) : Description := <["type" := "sampler"]> description.
Definition GetSampler (o : t) : VkHandle := m_sampler o.

End Tr2SamplerStateAL.

(** ** Shaders *)

(** The signature of a shader is the engine's, with the value it starts with; the
    number of registers a stage has of each kind, the number of stages, and the number
    of a type of shader. *)
Class ShaderTypes :=
  { Tr2ShaderSignatureAL : Type;
    default_signature : Tr2ShaderSignatureAL;
    shader_type_number : ShaderType -> Z;
    MAX_RESOURCES_IN_STAGE : nat;
    SHADER_TYPE_COUNT : nat }.

(** A pointer to the code, and its size. *)
Record Tr2ShaderBytecodeAL := mkTr2ShaderBytecodeAL { bytecode : option (list byte); bytecode_size : Z }.

Module Tr2ShaderAL.
Section shader.
Context `{ShaderTypes}.

Record t := mk
  { m_type : ShaderType; m_bytecode : list byte; m_signature : Tr2ShaderSignatureAL;
    m_module : VkHandle; m_device : VkHandle }.
#[export] Instance t_eta : Eta t := fun o =>
  mk (m_type o) (m_bytecode o) (m_signature o) (m_module o) (m_device o).
Definition new : t := mk INVALID_SHADER [] default_signature 0 0.

Context `{Driver}.
Abbreviation C := (Code (with_context t)).

(** [allocated] says whether [m_bytecode.resize] finds memory. *)
Definition Create (allocated : bool) (type : ShaderType) (code : Tr2ShaderBytecodeAL)
    (signature : Tr2ShaderSignatureAL) : C ALResult :=
  assign (fun o => o <| m_type := type |> <| m_signature := signature |>);;
  s ← in_context (get id);
  assign (fun o => o <| m_device := device s |>);;
  match bytecode code with
  | None => mret E_INVALIDARG
  | Some data =>
      if bytecode_size code =? 0 then mret E_INVALIDARG else
      if negb allocated then assign (fun o => o <| m_bytecode := [] |>);; mret E_OUTOFMEMORY else
      words ← read_bytes data 0 (bytecode_size code);
      assign (fun o => o <| m_bytecode := words |>);;
      result ← out_member (fun h o => o <| m_module := h |>) (vkCreateShaderModule (device s) words);
      if negb (succeeded result) then mret E_FAIL else mret S_OK
  end.

Definition Destroy : C unit :=
  o ← member id;
  (if is_null (m_module o) then mret tt else
     call (vkDestroy ShaderModule (m_device o) (m_module o));;
     assign (fun o => o <| m_module := VK_NULL_HANDLE |>));;
  assign (fun o => o <| m_bytecode := [] |>).

Definition SetName (name : option string) : C ALResult :=
  name_object m_device m_module VK_OBJECT_TYPE_SHADER_MODULE name.

Definition IsValid (o : t) : bool := negb (is_null (m_module o)).
Definition GetType (o : t) : ShaderType := m_type o.
Definition GetBytecode (o : t) : ALResult * Tr2ShaderBytecodeAL :=
  (S_OK, mkTr2ShaderBytecodeAL (Some (m_bytecode o)) (Z.of_nat (length (m_bytecode o)))).
Definition GetSignature (o : t) : Tr2ShaderSignatureAL := m_signature o.
Definition SetNullShaderType (type : ShaderType) (o : t) : t := o <| m_type := type |>.
Definition Describe (o : t) (description : Description) : Description :=
  <["shader_type" := pretty (shader_type_number (m_type o))]> (<["type" := "shader"]> description).
Definition GetModule (o : t) : VkHandle := m_module o.
Definition GetStage (o : t) : VkShaderStageFlagBits := ConvertShaderType (m_type o).

End shader.
End Tr2ShaderAL.

(** ** Programs *)

(** [Tr2RegisterMapAL]: for each stage and register the index of a resource, if it is
    below the count. The constructor from shaders is the engine's. *)
Record Tr2RegisterMapAL := mkTr2RegisterMapAL
  { srvs : nat -> nat -> Z; uavs : nat -> nat -> Z; samplers : nat -> nat -> Z;
    srvCount : Z; uavCount : Z; samplerCount : Z }.
Class RegisterMaps `{ShaderTypes} :=
  { default_register_map : Tr2RegisterMapAL;
    register_map_of : list Tr2ShaderAL.t -> Tr2RegisterMapAL }.

Definition BINDING_CONSTANT_BUFFER : Z := 0.
Definition BINDING_SRV : Z := 1.
Definition BINDING_UAV : Z := 2.
Definition BINDING_SAMPLER : Z := 3.

Module Tr2ShaderProgramAL.
Section program.
Context `{ShaderTypes} `{!RegisterMaps}.

Record t := mk
  { m_registerMap : Tr2RegisterMapAL; m_isValid : bool; m_pipelineLayout : VkHandle;
    m_descriptorSetLayout : VkHandle; m_device : VkHandle; m_modules : list VkHandle;
    m_stages : list VkShaderStageFlagBits; m_stageMask : list VkShaderStageFlagBits }.
#[export] Instance t_eta : Eta t := fun o =>
  mk (m_registerMap o) (m_isValid o) (m_pipelineLayout o) (m_descriptorSetLayout o) (m_device o)
    (m_modules o) (m_stages o) (m_stageMask o).
Definition new : t := mk default_register_map false 0 0 0 [] [] [].

Definition set_bindings (stageMask : list VkShaderStageFlagBits) : list VkDescriptorSetLayoutBinding :=
  let resources := Z.of_nat MAX_RESOURCES_IN_STAGE in
  [mkVkDescriptorSetLayoutBinding BINDING_CONSTANT_BUFFER VK_DESCRIPTOR_TYPE_UNIFORM_BUFFER 1 stageMask;
   mkVkDescriptorSetLayoutBinding BINDING_SRV VK_DESCRIPTOR_TYPE_COMBINED_IMAGE_SAMPLER resources stageMask;
   mkVkDescriptorSetLayoutBinding BINDING_UAV VK_DESCRIPTOR_TYPE_STORAGE_BUFFER resources stageMask;
   mkVkDescriptorSetLayoutBinding BINDING_SAMPLER VK_DESCRIPTOR_TYPE_SAMPLER resources stageMask].

Context `{Driver}.
Abbreviation C := (Code (with_context t)).

(** One turn of the loop over the shaders. *)
Definition add_shader (shader : Tr2ShaderAL.t) : C unit :=
  if negb (Tr2ShaderAL.IsValid shader) then early E_INVALIDARG else
  assign (fun o => o <| m_modules ::= fun ms => ms ++ [Tr2ShaderAL.GetModule shader] |>);;
  assign (fun o => o <| m_stages ::= fun ss => ss ++ [Tr2ShaderAL.GetStage shader] |>);;
  assign (fun o => o <| m_stageMask ::= or_if true [Tr2ShaderAL.GetStage shader] |>).

(** [count] shaders of the array. *)
Definition Create (shaders : option (list Tr2ShaderAL.t)) (count : nat) : C ALResult := function (
  match shaders with
  | None => mret E_INVALIDARG
  | Some shaders =>
      if (count =? 0)%nat then mret E_INVALIDARG else
      if (length shaders <? count)%nat then wrong else
      s ← in_context (get id);
      assign (fun o => o <| m_device := device s |>
        <| m_registerMap := register_map_of (take count shaders) |>);;
      for_each add_shader (take count shaders);;
      o ← member id;
      result ← out_member (fun h o => o <| m_descriptorSetLayout := h |>)
        (vkCreateDescriptorSetLayout (m_device o) (set_bindings (m_stageMask o)));
      if negb (succeeded result) then mret E_FAIL else
      o ← member id;
      result ← out_member (fun h o => o <| m_pipelineLayout := h |>)
        (vkCreatePipelineLayout (m_device o) [m_descriptorSetLayout o]);
      if negb (succeeded result) then mret E_FAIL else
      assign (fun o => o <| m_isValid := true |>);;
      mret S_OK
  end).

Definition Destroy : C unit :=
  o ← member id;
  (if is_null (m_pipelineLayout o) then mret tt else
     call (vkDestroy PipelineLayout (m_device o) (m_pipelineLayout o));;
     assign (fun o => o <| m_pipelineLayout := VK_NULL_HANDLE |>));;
  (if is_null (m_descriptorSetLayout o) then mret tt else
     call (vkDestroy DescriptorSetLayout (m_device o) (m_descriptorSetLayout o));;
     assign (fun o => o <| m_descriptorSetLayout := VK_NULL_HANDLE |>));;
  assign (fun o => o <| m_modules := [] |> <| m_stages := [] |> <| m_stageMask := [] |>
    <| m_isValid := false |>).

Definition SetName (name : option string) : C ALResult :=
  name_object m_device m_pipelineLayout VK_OBJECT_TYPE_PIPELINE_LAYOUT name.

Definition IsValid (o : t) : bool := m_isValid o.
Definition GetRegisterMap (o : t) : Tr2RegisterMapAL := m_registerMap o.
Definition Describe (o : t) (description : Description) : Description :=
  <["shader_count" := pretty (Z.of_nat (length (m_modules o)))]> (<["type" := "shader_program"]> description).
Definition GetPipelineLayout (o : t) : VkHandle := m_pipelineLayout o.
Definition GetDescriptorSetLayout (o : t) : VkHandle := m_descriptorSetLayout o.
Definition GetStageMask (o : t) : list VkShaderStageFlagBits := m_stageMask o.
Definition GetShaderCount (o : t) : nat := length (m_modules o).
Definition GetModule (o : t) (index : nat) : option VkHandle := m_modules o !! index.
Definition GetStage (o : t) (index : nat) : option VkShaderStageFlagBits := m_stages o !! index.

End program.
End Tr2ShaderProgramAL.
