(* ===== verification/VulkanVertexLayout.v ===== *)
(** * Vertex layouts

    [src/src/trinityal-vulkan/Tr2VertexLayoutALVulkan.cpp]: the bindings and the
    attributes of vertices, and the pipeline made last for them, which is kept while
    the same program, topology and formats are asked for; and what the device can do,
    of [Tr2CapsALVulkan.cpp]. Messages of the log are left out, and so are members that
    are written and never read. *)

From stdpp Require Import base numbers list option strings gmap pretty.
From S2P Require Import Prelude RenderGraph VulkanFormats Vulkan VulkanContext VulkanUsage VulkanMemory VulkanObject VulkanPipelines.
Import VkFormat.

#[local] Open Scope string_scope.
#[local] Open Scope list_scope.
#[local] Open Scope Z_scope.

#[export] Instance Topology_eq_dec : EqDecision Topology.
Proof. solve_decision. Defined.
#[export] Instance VkFormat_eq_dec : EqDecision VkFormat.type.
Proof. solve_decision. Defined.

(** An element of a vertex: [Tr2VertexDefinition::Item]. The size of a data type is
    the engine's. *)
Record vertex_item := mkItem { m_stream : Z; m_offset : Z; m_dataType : Z }.
Class VertexSizes := GetDataTypeSizeInBytes : Z -> Z.

Inductive UsageCode :=
  | POSITION | COLOR | NORMAL | TANGENT | BITANGENT | TEXCOORD | BLENDINDICES | BLENDWEIGHTS
  | USAGE_OTHER (value : Z).

Definition GetSemanticName (usage : UsageCode) : string :=
  match usage with
  | POSITION => "POSITION"
  | COLOR => "COLOR"
  | NORMAL => "NORMAL"
  | TANGENT => "TANGENT"
  | BITANGENT => "BINORMAL"
  | TEXCOORD => "TEXCOORD"
  | BLENDINDICES => "BLENDINDICES"
  | BLENDWEIGHTS => "BLENDWEIGHT"
  | _ => "UNKNOWN"
  end.

(** ** Strides *)

(** [map[stream] = max( map[stream], n )] of a map in the order of its keys, where an
    entry starts with 0. *)
Fixpoint raise_to (stream n : Z) (m : list (Z * Z)) : list (Z * Z) :=
  match m with
  | [] => [(stream, Z.max 0 n)]
  | (k, v) :: m' =>
      if k =? stream then (k, Z.max v n) :: m'
      else if stream <? k then (stream, Z.max 0 n) :: m
      else (k, v) :: raise_to stream n m'
  end.

Definition item_end `{VertexSizes} (item : vertex_item) : Z :=
  u32 (m_offset item + GetDataTypeSizeInBytes (m_dataType item)).

Definition streamMaxOffset `{VertexSizes} (items : list vertex_item) : list (Z * Z) :=
  foldl (fun m item => raise_to (m_stream item) (item_end item) m) [] items.

Module Tr2VertexLayoutAL.

Record t := mk
  { m_device : VkHandle; m_bindings : list VkVertexInputBindingDescription;
    m_attributes : list VkVertexInputAttributeDescription; m_isValid : bool;
    m_cachedPipeline : VkHandle; m_cachedProgram : Z; m_cachedTopology : option Topology;
    m_cachedColorFormat : VkFormat.type; m_cachedDepthFormat : VkFormat.type;
    m_cachedUsesDepth : bool }.
#[export] Instance t_eta : Eta t := fun o =>
  mk (m_device o) (m_bindings o) (m_attributes o) (m_isValid o) (m_cachedPipeline o) (m_cachedProgram o)
    (m_cachedTopology o) (m_cachedColorFormat o) (m_cachedDepthFormat o) (m_cachedUsesDepth o).

(** [None] is the topology [TOP_INVALID], which is not one of a pipeline. *)
Definition new : t := mk 0 [] [] false 0 0 None VK_FORMAT_UNDEFINED VK_FORMAT_UNDEFINED false.

Definition has_format (f : VkFormat.type) : bool := negb (bool_decide (f = VK_FORMAT_UNDEFINED)).

Section code.
Context `{Driver} `{Tr2VertexDefinition} `{VertexSizes}.
Abbreviation C := (Code (with_context t)).

(** The loop over the items, from a location on. *)
Fixpoint add_attributes (location : Z) (items : list vertex_item) : C unit :=
  match items with
  | [] => mret tt
  | item :: items =>
      let attribute := mkVkVertexInputAttributeDescription location (m_stream item)
        (ConvertVertexDataType (m_dataType item)) (m_offset item) in
      if negb (has_format (via_format attribute)) then early E_INVALIDARG else
      assign (fun o => o <| m_attributes ::= fun l => l ++ [attribute] |>);;
      add_attributes (u32 (location + 1)) items
  end.

Definition Create (items : list vertex_item) : C ALResult := function (
  s ← in_context (get id);
  assign (fun o => o <| m_device := device s |>);;
  assign (fun o => o <| m_bindings ::= fun l => l ++
    ((fun e => mkVkVertexInputBindingDescription e.1 e.2) <$> streamMaxOffset items) |>);;
  add_attributes 0 items;;
  assign (fun o => o <| m_isValid := true |>);;
  mret S_OK).

Definition destroy_cached : C unit :=
  o ← member id;
  if is_null (m_cachedPipeline o) then mret tt else
    call (vkDestroy Pipeline (m_device o) (m_cachedPipeline o));;
    assign (fun o => o <| m_cachedPipeline := VK_NULL_HANDLE |>).

Definition Destroy : C unit :=
  destroy_cached;;
  assign (fun o => o <| m_cachedProgram := 0 |> <| m_bindings := [] |> <| m_attributes := [] |>
    <| m_isValid := false |>).

Definition SetName (name : option string) : C ALResult :=
  name_object m_device m_cachedPipeline VK_OBJECT_TYPE_PIPELINE name.

(** The pipeline kept was asked for in the same way. *)
Definition is_cached (program : Z) (topology : Topology) (colorFormat depthFormat : VkFormat.type) (o : t) : bool :=
  negb (is_null (m_cachedPipeline o)) && (m_cachedProgram o =? program) &&
  bool_decide (m_cachedTopology o = Some topology) && bool_decide (m_cachedColorFormat o = colorFormat) &&
  bool_decide (m_cachedDepthFormat o = depthFormat) && Bool.eqb (m_cachedUsesDepth o) (has_format depthFormat).

Context `{ShaderTypes} `{!RegisterMaps}.

(** The description of the pipeline: [None] where the program has more stages than
    the array. *)
Definition pipeline_info (program : Tr2ShaderProgramAL.t) (topology : Topology)
    (colorFormat depthFormat : VkFormat.type) (o : t) : option VkGraphicsPipelineCreateInfo :=
  stages ← mapM (fun i =>
    stage ← Tr2ShaderProgramAL.GetStage program i;
    module ← Tr2ShaderProgramAL.GetModule program i;
    guard (i < 6)%nat;; Some (stage, module)) (seq 0 (Tr2ShaderProgramAL.GetShaderCount program));
  Some (mkVkGraphicsPipelineCreateInfo stages (m_bindings o) (m_attributes o) (ConvertTopology topology)
    (has_format depthFormat) (Tr2ShaderProgramAL.GetPipelineLayout program) colorFormat depthFormat).

(** [address] is where the program is: all that the pipeline kept is compared by. *)
Definition GetPipeline (address : Z) (program : Tr2ShaderProgramAL.t) (topology : Topology)
    (colorFormat depthFormat : VkFormat.type) (cache : VkHandle) : C VkHandle :=
  o ← member id;
  if is_cached address topology colorFormat depthFormat o then mret (m_cachedPipeline o) else
  destroy_cached;;
  o ← member id;
  match pipeline_info program topology colorFormat depthFormat o with
  | None => wrong
  | Some info =>
      r ← call (vkCreateGraphicsPipelines (m_device o) cache info);
      if negb (succeeded r.1) then mret VK_NULL_HANDLE else
      let pipeline := default VK_NULL_HANDLE r.2 in
      assign (fun o => o <| m_cachedPipeline := pipeline |> <| m_cachedProgram := address |>
        <| m_cachedTopology := Some topology |> <| m_cachedColorFormat := colorFormat |>
        <| m_cachedDepthFormat := depthFormat |> <| m_cachedUsesDepth := has_format depthFormat |>);;
      mret pipeline
  end.

Definition GetPipelineNoDepth (address : Z) (program : Tr2ShaderProgramAL.t) (topology : Topology)
    (colorFormat : VkFormat.type) (cache : VkHandle) : C VkHandle :=
  GetPipeline address program topology colorFormat VK_FORMAT_UNDEFINED cache.

End code.

Definition IsValid (o : t) : bool := m_isValid o.
Definition Describe (o : t) (description : Description) : Description :=
  <["attribute_count" := pretty (Z.of_nat (length (m_attributes o)))]>
    (<["type" := "vertex_layout"]> description).

End Tr2VertexLayoutAL.

(** ** Capabilities *)

Module Tr2CapsAL.

Definition SupportsFloat16 : bool := true.
Definition SupportsGpuBuffer : bool := true.
Definition SupportsStandaloneSwapChain : bool := true.
Definition SupportsVertexShaderTextures : bool := true.
Definition SupportsVariableRefreshRate : bool := false.
Definition SupportsRaytracing : bool := false.

End Tr2CapsAL.
