(* ===== verification/VulkanTexture.v ===== *)
(** * Textures

    [src/src/trinityal-vulkan/Tr2TextureALVulkan.cpp]: an image with its views and
    the layout it is in, filled through a staging buffer, copied to another, and
    read back through a buffer that the host maps; or an image of the swap chain,
    which it borrows. Messages of the log are left out, with the budgets they show,
    and so are members that are written and never read. *)

From Stdlib Require Import Strings.Byte.
From stdpp Require Import base numbers list option strings gmap pretty.
From S2P Require Import Prelude RenderGraph VulkanFormats Vulkan VulkanContext VulkanUsage VulkanMemory VulkanObject VulkanBuffer.
Import VkFormat.

#[local] Open Scope string_scope.
#[local] Open Scope Z_scope.

Definition VK_OBJECT_TYPE_IMAGE : Z := 10.

(** ** What the engine says about textures *)

Inductive TextureType := TEX_TYPE_1D | TEX_TYPE_2D | TEX_TYPE_3D | TEX_TYPE_CUBE | TEX_TYPE_OTHER (value : Z).
#[export] Instance TextureType_eq_dec : EqDecision TextureType.
Proof. solve_decision. Defined.

Inductive ColorSpace := COLOR_SPACE_SRGB | COLOR_SPACE_LINEAR.

(** [Tr2BitmapDimensions] and [Tr2TextureSubresource], with the functions and the
    members of theirs that are used. The last two arguments of the constructor are
    1 where it is called. *)
Class TextureTypes :=
  { Tr2BitmapDimensions : Type;
    default_dimensions : Tr2BitmapDimensions;
    new_dimensions : TextureType -> PixelFormat -> Z -> Z -> Z -> Z -> Tr2BitmapDimensions;
    GetType : Tr2BitmapDimensions -> TextureType;
    GetFormat : Tr2BitmapDimensions -> PixelFormat;
    GetWidth : Tr2BitmapDimensions -> Z;
    GetHeight : Tr2BitmapDimensions -> Z;
    GetDepth : Tr2BitmapDimensions -> Z;
    GetMipCount : Tr2BitmapDimensions -> Z;
    GetArraySize : Tr2BitmapDimensions -> Z;
    Tr2TextureSubresource : Type;
    new_subresource : Z -> Tr2TextureSubresource;
    ClampToTexture : Tr2TextureSubresource -> Tr2BitmapDimensions -> Tr2TextureSubresource;
    region_width : Tr2TextureSubresource -> Z;
    region_height : Tr2TextureSubresource -> Z;
    region_depth : Tr2TextureSubresource -> Z;
    GetFaceCount : Tr2TextureSubresource -> Z;
    m_startMipLevel : Tr2TextureSubresource -> Z;
    m_startFace : Tr2TextureSubresource -> Z;
    box_left : Tr2TextureSubresource -> Z;
    box_top : Tr2TextureSubresource -> Z;
    box_front : Tr2TextureSubresource -> Z;
    (** The number of a format in the enumeration of the engine. *)
    format_number : PixelFormat -> Z }.

(** [Tr2SubresourceData]. *)
Record Tr2SubresourceData := mkTr2SubresourceData
  { m_sysMem : option (list byte); m_sysMemPitch : Z; m_sysMemSlicePitch : Z }.

(** ** Tables *)

(** [CreateImage]: the formats whose images may have views of another format. *)
Definition has_srgb_variant (format : VkFormat.type) : bool :=
  match format with
  | VK_FORMAT_R8G8B8A8_UNORM | VK_FORMAT_B8G8R8A8_UNORM | VK_FORMAT_BC1_RGBA_UNORM_BLOCK
  | VK_FORMAT_BC2_UNORM_BLOCK | VK_FORMAT_BC3_UNORM_BLOCK | VK_FORMAT_BC7_UNORM_BLOCK => true
  | _ => false
  end.

(** [CreateViews]: the format of the view for [COLOR_SPACE_SRGB]. *)
Definition srgb_format (format : VkFormat.type) : VkFormat.type :=
  match format with
  | VK_FORMAT_R8G8B8A8_UNORM => VK_FORMAT_R8G8B8A8_SRGB
  | VK_FORMAT_B8G8R8A8_UNORM => VK_FORMAT_B8G8R8A8_SRGB
  | VK_FORMAT_BC1_RGBA_UNORM_BLOCK => VK_FORMAT_BC1_RGBA_SRGB_BLOCK
  | VK_FORMAT_BC2_UNORM_BLOCK => VK_FORMAT_BC2_SRGB_BLOCK
  | VK_FORMAT_BC3_UNORM_BLOCK => VK_FORMAT_BC3_SRGB_BLOCK
  | VK_FORMAT_BC7_UNORM_BLOCK => VK_FORMAT_BC7_SRGB_BLOCK
  | _ => format
  end.

Definition image_type (type : TextureType) : VkImageType :=
  match type with
  | TEX_TYPE_1D => VK_IMAGE_TYPE_1D
  | TEX_TYPE_3D => VK_IMAGE_TYPE_3D
  | _ => VK_IMAGE_TYPE_2D
  end.

Definition image_flags (format : VkFormat.type) (type : TextureType) : list image_create_flag :=
  or_if (bool_decide (type = TEX_TYPE_CUBE)) [VK_IMAGE_CREATE_CUBE_COMPATIBLE_BIT]
    (or_if (has_srgb_variant format) [VK_IMAGE_CREATE_MUTABLE_FORMAT_BIT] []).

Module Tr2TextureAL.
Section texture.
Context `{TextureTypes} `{ImageIO}.

Record t := mk
  { m_desc : Tr2BitmapDimensions; m_samples : Z; m_gpuUsage : Tr2GpuUsage -> bool;
    m_cpuUsage : Tr2CpuUsage -> bool; m_image : VkHandle; m_allocation : VkHandle;
    m_format : VkFormat.type; m_layout : VkImageLayout; m_linearView : VkHandle;
    m_srgbView : VkHandle; m_uavView : VkHandle; m_device : VkHandle; m_allocator : VkHandle;
    m_ownsViews : bool; m_name : string; m_readbackBuffer : VkHandle;
    m_readbackAllocation : VkHandle; m_readbackMapped : pointer; m_readbackPitch : Z;
    m_readbackHeight : Z }.

#[export] Instance t_eta : Eta t := fun o =>
  mk (m_desc o) (m_samples o) (m_gpuUsage o) (m_cpuUsage o) (m_image o) (m_allocation o) (m_format o)
    (m_layout o) (m_linearView o) (m_srgbView o) (m_uavView o) (m_device o) (m_allocator o)
    (m_ownsViews o) (m_name o) (m_readbackBuffer o) (m_readbackAllocation o) (m_readbackMapped o)
    (m_readbackPitch o) (m_readbackHeight o).

Definition no_usage {A} (_ : A) : bool := false.

Definition new : t :=
  mk default_dimensions 0 no_usage no_usage 0 0 VK_FORMAT_UNDEFINED VK_IMAGE_LAYOUT_UNDEFINED
    0 0 0 0 0 true "" 0 0 nullptr 0 0.

Definition GetSubresourceRange (o : t) : VkImageSubresourceRange :=
  mkVkImageSubresourceRange (GetImageAspectFlags (m_format o)) 0 (GetMipCount (m_desc o)) 0
    (GetArraySize (m_desc o)).

(** The layers, the offset and the extent of a copy of a region. *)
Definition layers_of (format : VkFormat.type) (region : Tr2TextureSubresource) : VkImageSubresourceLayers :=
  mkVkImageSubresourceLayers (GetImageAspectFlags format) (m_startMipLevel region) (m_startFace region)
    (GetFaceCount region).
Definition offset_of (region : Tr2TextureSubresource) : VkOffset3D :=
  mkVkOffset3D (i32 (box_left region)) (i32 (box_top region)) (i32 (box_front region)).
Definition extent_of_region (region : Tr2TextureSubresource) : VkExtent3D :=
  mkVkExtent3D (region_width region) (region_height region) (region_depth region).

(** The transition of the whole image to [to] for a transfer. *)
Definition transition (o : t) (from by_transfer : list access) (to : VkImageLayout) : VkImageMemoryBarrier2 :=
  mkVkImageMemoryBarrier2 from by_transfer (m_layout o) to (m_image o) (GetSubresourceRange o).

Definition is_nullptr (p : pointer) : bool := (block p =? 0) && (displacement p =? 0).

Section code.
Context `{Driver}.
Abbreviation C := (Code (with_context t)).

Definition when_given (h : VkHandle) (m : C unit) : C unit := if is_null h then mret tt else m.

(** ** Views *)

Definition create_view (set : VkHandle -> t -> t) (format : VkFormat.type) (levels : Z) : C unit :=
  o ← member id;
  result ← out_member set (vkCreateImageView (m_device o)
    (mkVkImageViewCreateInfo (m_image o) VK_IMAGE_VIEW_TYPE_2D format
      (mkVkImageSubresourceRange (GetImageAspectFlags (m_format o)) 0 levels 0 (GetArraySize (m_desc o)))));
  if negb (succeeded result) then early E_FAIL else mret tt.

Definition CreateViews : C ALResult := function (
  o ← member id;
  create_view (fun h o => o <| m_linearView := h |>) (m_format o) (GetMipCount (m_desc o));;
  (if bool_decide (srgb_format (m_format o) = m_format o) then mret tt
   else create_view (fun h o => o <| m_srgbView := h |>) (srgb_format (m_format o)) (GetMipCount (m_desc o)));;
  (if m_gpuUsage o UNORDERED_ACCESS
   then create_view (fun h o => o <| m_uavView := h |>) (m_format o) 1 else mret tt);;
  mret S_OK).

Definition destroy_view (view : t -> VkHandle) (clear : t -> t) : C unit :=
  o ← member id;
  when_given (view o) (call (vkDestroy ImageView (m_device o) (view o));; assign clear).

Definition DestroyViews : C unit :=
  o ← member id;
  if negb (m_ownsViews o) then
    assign (fun o => o <| m_linearView := VK_NULL_HANDLE |> <| m_srgbView := VK_NULL_HANDLE |>
      <| m_uavView := VK_NULL_HANDLE |>)
  else
    destroy_view m_uavView (fun o => o <| m_uavView := VK_NULL_HANDLE |>);;
    destroy_view m_srgbView (fun o => o <| m_srgbView := VK_NULL_HANDLE |>);;
    destroy_view m_linearView (fun o => o <| m_linearView := VK_NULL_HANDLE |>).

(** ** Reading back *)

(** [UnmapForReading], and a part of [Destroy]. *)
Definition UnmapForReading : C unit :=
  o ← member id;
  when_given (m_readbackBuffer o) (
    (if is_nullptr (m_readbackMapped o) then mret tt else
       call (vmaUnmapMemory (m_allocator o) (m_readbackAllocation o));;
       assign (fun o => o <| m_readbackMapped := nullptr |>));;
    call (vmaDestroyBuffer (m_allocator o) (m_readbackBuffer o) (m_readbackAllocation o));;
    assign (fun o => o <| m_readbackBuffer := VK_NULL_HANDLE |> <| m_readbackAllocation := VK_NULL_HANDLE |>)).

Definition Destroy : C unit :=
  DestroyViews;;
  UnmapForReading;;
  o ← member id;
  (if negb (is_null (m_image o)) && negb (is_null (m_allocation o))
   then call (vmaDestroyImage (m_allocator o) (m_image o) (m_allocation o)) else mret tt);;
  assign (fun o => o <| m_image := VK_NULL_HANDLE |> <| m_allocation := VK_NULL_HANDLE |>).

(** The part of [MapForReading] that records the copy of [region] into the buffer:
    the image changes its layout, is copied, and the host may read the copy. *)
Definition record_readback (o : t) (region : Tr2TextureSubresource) (stagingBuffer bufferSize : Z) : C unit :=
  commandBuffer ← in_context GetCurrentCommandBuffer;
  call (vkCmdPipelineBarrier2 commandBuffer
    [transition o [MEMORY_READ; MEMORY_WRITE] [TRANSFER_READ] VK_IMAGE_LAYOUT_TRANSFER_SRC_OPTIMAL] []);;
  call (vkCmdCopyImageToBuffer commandBuffer (m_image o) VK_IMAGE_LAYOUT_TRANSFER_SRC_OPTIMAL stagingBuffer
    (mkVkBufferImageCopy (layers_of (m_format o) region) (offset_of region) (extent_of_region region)));;
  call (vkCmdPipelineBarrier2 commandBuffer []
    [mkVkBufferMemoryBarrier2 [TRANSFER_WRITE] [HOST_READ] stagingBuffer 0 bufferSize]);;
  assign (fun o => o <| m_layout := VK_IMAGE_LAYOUT_TRANSFER_SRC_OPTIMAL |>).

(** The result, with [data] and [pitch] where they are assigned; both functions of
    that name. *)
Definition MapForReading (region : Tr2TextureSubresource) : C (ALResult * option pointer * option Z) :=
  o ← member id;
  if is_null (m_image o) then mret (E_INVALIDCALL, None, None) else
  let clampedRegion := ClampToTexture region (m_desc o) in
  let bytesPerPixel := GetBytesPerPixel (GetFormat (m_desc o)) in
  if bytesPerPixel =? 0 then mret (E_INVALIDARG, None, None) else
  let pitch := u32 (region_width clampedRegion * bytesPerPixel) in
  let bufferSize := u64 (u64 (pitch * region_height clampedRegion) * region_depth clampedRegion) in
  if bufferSize =? 0 then mret (E_INVALIDARG, None, Some pitch) else
  created ← call (vmaCreateBuffer (m_allocator o)
    (mkVkBufferCreateInfo bufferSize [VK_BUFFER_USAGE_TRANSFER_DST_BIT])
    (mkVmaAllocationCreateInfo (Some VMA_ALLOCATION_CREATE_HOST_ACCESS_RANDOM_BIT) []));
  if negb (succeeded created.1) then mret (E_OUTOFMEMORY, None, Some pitch) else
  let staging := default (VK_NULL_HANDLE, VK_NULL_HANDLE) created.2 in
  record_readback o clampedRegion staging.1 bufferSize;;
  mapped ← call (vmaMapMemory (m_allocator o) staging.2);
  if negb (succeeded mapped.1) then
    call (vmaDestroyBuffer (m_allocator o) staging.1 staging.2);; mret (E_FAIL, None, Some pitch)
  else
    let data := default nullptr mapped.2 in
    assign (fun o => o <| m_readbackBuffer := staging.1 |> <| m_readbackAllocation := staging.2 |>
      <| m_readbackMapped := data |> <| m_readbackPitch := pitch |>
      <| m_readbackHeight := region_height clampedRegion |>);;
    mret (S_OK, Some data, Some pitch).

Definition InvalidateReadback : C ALResult :=
  o ← member id;
  if is_null (m_readbackBuffer o) || is_nullptr (m_readbackMapped o) then mret E_INVALIDCALL else
  call (vmaInvalidateAllocation (m_allocator o) (m_readbackAllocation o) 0
    (u64 (m_readbackPitch o * m_readbackHeight o)));;
  mret S_OK.

(** ** Writing *)

(** One row: [pitch] bytes of [source] to the same place of what is mapped. *)
Definition copy_row (mapped : pointer) (source : list byte) (pitch slicePitch z y : Z) : C unit :=
  let at_ := u32 (z * slicePitch) + u32 (y * pitch) in
  bytes ← read_bytes source at_ pitch;
  call (memcpy (advance mapped at_) bytes).

Definition copy_rows (mapped : pointer) (source : list byte) (pitch slicePitch height depth : Z) : C unit :=
  for_each (fun z => for_each (copy_row mapped source pitch slicePitch z) (seqZ 0 height)) (seqZ 0 depth).

(** The staging buffer is filled if it can be mapped. *)
Definition fill_rows (allocation : VkHandle) (source : list byte) (pitch slicePitch height depth : Z) : C unit :=
  o ← member id;
  mapped ← call (vmaMapMemory (m_allocator o) allocation);
  if succeeded mapped.1 then
    copy_rows (default nullptr mapped.2) source pitch slicePitch height depth;;
    call (vmaUnmapMemory (m_allocator o) allocation)
  else mret tt.

Definition UpdateSubresource (region : Tr2TextureSubresource) (source : option (list byte)) (pitch slicePitch : Z)
    : C ALResult :=
  match source with
  | None => mret E_INVALIDARG
  | Some source =>
      commandBuffer ← in_context GetCurrentCommandBuffer;
      o ← member id;
      created ← call (vmaCreateBuffer (m_allocator o)
        (mkVkBufferCreateInfo (u64 (slicePitch * region_depth region)) [VK_BUFFER_USAGE_TRANSFER_SRC_BIT])
        (mkVmaAllocationCreateInfo (Some VMA_ALLOCATION_CREATE_HOST_ACCESS_SEQUENTIAL_WRITE_BIT) []));
      if negb (succeeded created.1) then mret E_OUTOFMEMORY else
      let staging := default (VK_NULL_HANDLE, VK_NULL_HANDLE) created.2 in
      fill_rows staging.2 source pitch slicePitch (region_height region) (region_depth region);;
      call (vkCmdPipelineBarrier2 commandBuffer
        [transition o [MEMORY_READ] [TRANSFER_WRITE] VK_IMAGE_LAYOUT_TRANSFER_DST_OPTIMAL] []);;
      call (vkCmdCopyBufferToImage commandBuffer staging.1 (m_image o) VK_IMAGE_LAYOUT_TRANSFER_DST_OPTIMAL
        (mkVkBufferImageCopy (layers_of (m_format o) region) (offset_of region) (extent_of_region region)));;
      value ← in_context GetCurrentTimelineValue;
      in_context (Retire (deferred_buffer (m_device o) (m_allocator o) (u64 (value + 1)) staging.1 staging.2));;
      assign (fun o => o <| m_layout := VK_IMAGE_LAYOUT_TRANSFER_DST_OPTIMAL |>);;
      mret S_OK
  end.

(** ** Creation *)

Definition CreateImage (desc : Tr2BitmapDimensions) (samples : Z) (gpuUsage : Tr2GpuUsage -> bool)
    (cpuUsage : Tr2CpuUsage -> bool) (initialData : option Tr2SubresourceData) : C ALResult := function (
  s ← in_context (get id);
  let format := ConvertPixelFormat (GetFormat desc) in
  assign (fun o => o <| m_desc := desc |> <| m_samples := samples |> <| m_gpuUsage := gpuUsage |>
    <| m_cpuUsage := cpuUsage |> <| m_device := device s |> <| m_allocator := allocator s |>
    <| m_format := format |> <| m_layout := VK_IMAGE_LAYOUT_UNDEFINED |>);;
  if bool_decide (format = VK_FORMAT_UNDEFINED) then mret E_INVALIDARG else
  result ← out_member (fun p o => o <| m_image := p.1 |> <| m_allocation := p.2 |>)
    (vmaCreateImage (allocator s)
      (mkVkImageCreateInfo (image_flags format (GetType desc)) (image_type (GetType desc)) format
        (mkVkExtent3D (GetWidth desc) (GetHeight desc) (GetDepth desc)) (GetMipCount desc)
        (GetArraySize desc) samples (ConvertGpuUsageToImageUsage gpuUsage))
      (mkVmaAllocationCreateInfo None (ConvertCpuUsageToMemoryFlags cpuUsage)));
  if negb (succeeded result) then mret E_OUTOFMEMORY else
  CR_RETURN_HR CreateViews;;
  match initialData with
  | None => mret S_OK
  | Some data =>
      updateResult ← UpdateSubresource (new_subresource 0) (m_sysMem data) (m_sysMemPitch data)
        (m_sysMemSlicePitch data);
      if FAILED updateResult then Destroy;; mret updateResult else mret S_OK
  end).

Definition Create := CreateImage.

(** An image of the swap chain, with its view, takes the place of what there was. *)
Definition AttachSwapchainImage (image view : VkHandle) (format : VkFormat.type) (width height : Z)
    (layout : VkImageLayout) : C unit :=
  o ← member id;
  (if m_ownsViews o then
     when_given (m_uavView o) (call (vkDestroy ImageView (m_device o) (m_uavView o)));;
     when_given (m_srgbView o) (call (vkDestroy ImageView (m_device o) (m_srgbView o)));;
     when_given (m_linearView o) (call (vkDestroy ImageView (m_device o) (m_linearView o)));;
     (if negb (is_null (m_image o)) && negb (is_null (m_allocation o))
      then call (vmaDestroyImage (m_allocator o) (m_image o) (m_allocation o)) else mret tt)
   else mret tt);;
  assign (fun o => o <| m_image := image |> <| m_allocation := VK_NULL_HANDLE |> <| m_format := format |>
    <| m_layout := layout |> <| m_linearView := view |> <| m_srgbView := VK_NULL_HANDLE |>
    <| m_uavView := VK_NULL_HANDLE |> <| m_ownsViews := false |>
    <| m_desc := new_dimensions TEX_TYPE_2D (ConvertVkFormat format) width height 1 1 |>
    <| m_samples := 1 |>
    <| m_gpuUsage := fun u => match u with RENDER_TARGET => true | _ => false end |>
    <| m_cpuUsage := no_usage |>).

Definition SetName (name : option string) : C ALResult :=
  assign (fun o => o <| m_name := default "" name |>);;
  o ← member id;
  in_context (SetVulkanObjectName (m_device o) (m_image o) VK_OBJECT_TYPE_IMAGE name);;
  mret S_OK.

(** ** Copying

    The destination and the source are two textures of a store, or one. *)

Definition textures : Type := gmap Z t.

Definition texture (i : Z) : Code (with_context textures) t :=
  os ← member id;
  match os !! i with Some o => mret o | None => wrong end.

Definition CopySubresourceRegion (this : Z) (destSubresource : Tr2TextureSubresource) (source : Z)
    (sourceSubresource : Tr2TextureSubresource) : Code (with_context textures) ALResult :=
  commandBuffer ← in_context GetCurrentCommandBuffer;
  src ← texture source;
  dst ← texture this;
  call (vkCmdPipelineBarrier2 commandBuffer
    [transition src [MEMORY_READ] [TRANSFER_READ] VK_IMAGE_LAYOUT_TRANSFER_SRC_OPTIMAL;
     transition dst [MEMORY_READ] [TRANSFER_WRITE] VK_IMAGE_LAYOUT_TRANSFER_DST_OPTIMAL] []);;
  call (vkCmdCopyImage commandBuffer (m_image src) VK_IMAGE_LAYOUT_TRANSFER_SRC_OPTIMAL
    (m_image dst) VK_IMAGE_LAYOUT_TRANSFER_DST_OPTIMAL
    (mkVkImageCopy (layers_of (m_format src) sourceSubresource) (offset_of sourceSubresource)
      (layers_of (m_format dst) destSubresource) (offset_of destSubresource)
      (extent_of_region destSubresource)));;
  assign (alter (fun o => o <| m_layout := VK_IMAGE_LAYOUT_TRANSFER_SRC_OPTIMAL |>) source);;
  assign (alter (fun o => o <| m_layout := VK_IMAGE_LAYOUT_TRANSFER_DST_OPTIMAL |>) this);;
  mret S_OK.

End code.

(** ** What is not implemented *)

Definition OpenShared : ALResult := E_NOTIMPL.
(** The result, [data] and [pitch]. *)
Definition MapForWriting : ALResult * pointer * Z := (E_NOTIMPL, nullptr, 0).
Definition GenerateMipMaps : ALResult := E_NOTIMPL.
Definition Resolve : ALResult := E_NOTIMPL.

(** ** Accessors *)

Definition IsValid (o : t) : bool := negb (is_null (m_image o)).

(** [GetView( colorSpace )]. *)
Definition GetView (o : t) (colorSpace : ColorSpace) : VkHandle :=
  match colorSpace with
  | COLOR_SPACE_SRGB => if is_null (m_srgbView o) then m_linearView o else m_srgbView o
  | COLOR_SPACE_LINEAR => m_linearView o
  end.

(** [GetView( mip )]: there is one view for shaders to write through. *)
Definition GetUavView (o : t) (mip : Z) : VkHandle := m_uavView o.

Definition Describe (o : t) (description : Description) : Description :=
  <["height" := pretty (GetHeight (m_desc o))]> (<["width" := pretty (GetWidth (m_desc o))]>
    (<["format" := pretty (format_number (GetFormat (m_desc o)))]> (<["type" := "texture"]> description))).

(** The layout, the view; a texture is described for shaders to read. *)
Definition GetDescriptorInfo (o : t) (colorSpace : ColorSpace) : VkImageLayout * VkHandle :=
  (VK_IMAGE_LAYOUT_SHADER_READ_ONLY_OPTIMAL, GetView o colorSpace).

Definition SetLayout (layout : VkImageLayout) (o : t) : t := o <| m_layout := layout |>.
Definition SetDevice (device allocator : VkHandle) (o : t) : t :=
  o <| m_device := device |> <| m_allocator := allocator |>.

End texture.
Arguments t _ : assert.
End Tr2TextureAL.
