(* ===== verification/VulkanTextureRows.v ===== *)
(** * Rows of textures

    The loops of [UpdateSubresource] that copy row after row to memory that is mapped:
    every row comes to be where it was, whatever lies between the rows. *)

From Stdlib Require Import Strings.Byte.
From stdpp Require Import base numbers list option strings gmap fin_maps sets.
From S2P Require Import Prelude RenderGraph VulkanFormats Vulkan VulkanContext VulkanUsage VulkanMemory VulkanDriver VulkanObject VulkanBuffer VulkanTexture.
Import VkFormat Tr2TextureAL.

#[local] Open Scope Z_scope.

(** ** Views *)

(** The view for [COLOR_SPACE_SRGB] is of another format exactly where the image was
    created to allow it. *)
Lemma srgb_view_allowed format type :
  srgb_format format <> format <-> VK_IMAGE_CREATE_MUTABLE_FORMAT_BIT ∈ image_flags format type.
Proof.
  unfold image_flags, or_if. destruct format; cbn; split; try done; case_bool_decide; set_solver.
Qed.

(** ** Rows *)

(** From [first] on, [n] bytes of [content] are those of [source]. *)
Definition copied (source : list byte) (content : list (option byte)) (first n : nat) : Prop :=
  forall k, (first <= k < first + n)%nat -> content !! k = Some <$> source !! k.

(** Writing bytes of [source] at their own place. *)
Definition copy_at (source : list byte) (first n : nat) (content : list (option byte)) : list (option byte) :=
  splice first (Some <$> take n (drop first source)) content.

Lemma length_copy_at source first n content :
  (first + n <= length source)%nat -> (first + n <= length content)%nat ->
  length (copy_at source first n content) = length content.
Proof. intros. apply length_splice. rewrite length_fmap, length_take, length_drop. lia. Qed.

Lemma copy_at_lookup source first n content k :
  (first + n <= length source)%nat -> (first + n <= length content)%nat ->
  copy_at source first n content !! k =
    if decide (first <= k < first + n)%nat then Some <$> source !! k else content !! k.
Proof.
  intros Hs Hc. assert (Hlen : length (Some <$> take n (drop first source)) = n).
  { rewrite length_fmap, length_take, length_drop. lia. }
  unfold copy_at. rewrite lookup_splice by (rewrite Hlen; lia). rewrite Hlen. case_decide as Hk; [|done].
  rewrite list_lookup_fmap, lookup_take_lt, lookup_drop by lia. do 2 f_equal. lia.
Qed.

Lemma copied_copy_at source first n content :
  (first + n <= length source)%nat -> (first + n <= length content)%nat ->
  copied source (copy_at source first n content) first n.
Proof. intros Hs Hc k Hk. rewrite copy_at_lookup by done. by rewrite decide_True. Qed.

(** What has been copied stays. *)
Lemma copied_stays source first n content first' n' :
  (first + n <= length source)%nat -> (first + n <= length content)%nat ->
  copied source content first' n' -> copied source (copy_at source first n content) first' n'.
Proof. intros Hs Hc Hcop k Hk. rewrite copy_at_lookup by done. case_decide; [done|]. by apply Hcop. Qed.

Section spec.
Context `{AllocatorLaws} `{TextureTypes} `{ImageIO}.
Implicit Types (c : VulkanContext) (m : memory) (tr : list event).
Implicit Types (R : ALResult -> world (with_context t) -> Prop).

(** The memory [a], mapped, with what [holds] says of its bytes. *)
Definition mapped_with (m : memory) (a : VkHandle) (maps size : nat) (holds : list (option byte) -> Prop)
    (c : VulkanContext) (o : t) (w : world (with_context t)) : Prop :=
  exists content, memory_after (trace w) = Some (with_allocation a (mkAllocation content maps) m) /\
    length content = size /\ holds content /\ object w = (c, o).

(** The rows and slices that [UpdateSubresource] copies: where they are, and what
    they need. *)
Record rows_fit (source : list byte) (pitch slicePitch height depth : Z) : Prop := mk_rows_fit
  { pitch_range : 0 <= pitch;
    height_range : 0 <= height;
    depth_range : 0 <= depth;
    rows_in_slice : height * pitch <= slicePitch;
    slices_range : depth * slicePitch < 2 ^ 32;
    slices_given : depth * slicePitch <= Z.of_nat (length source) }.

Definition row_at (pitch slicePitch z y : Z) : nat := Z.to_nat (z * slicePitch + y * pitch).

Lemma row_range source pitch slicePitch height depth z y :
  rows_fit source pitch slicePitch height depth -> 0 <= z < depth -> 0 <= y < height ->
  0 <= z * slicePitch /\ 0 <= y * pitch /\ z * slicePitch + y * pitch + pitch <= depth * slicePitch.
Proof. intros [] Hz Hy. assert (0 <= slicePitch) by nia. nia. Qed.

Lemma runs_copy_row {R w} m a maps source pitch slicePitch height depth z y (P : list (option byte) -> Prop) c o
    (first := row_at pitch slicePitch z y) (size := Z.to_nat (depth * slicePitch)) :
  rows_fit source pitch slicePitch height depth -> 0 <= z < depth -> 0 <= y < height ->
  maps <> 0%nat -> mapped_with m a maps size P c o w ->
  runs (copy_row (Pointer a 0) source pitch slicePitch z y)
    (fun _ => mapped_with m a maps size (fun content => exists old, length old = size /\ P old /\
       content = copy_at source first (Z.to_nat pitch) old) c o) R w.
Proof.
  intros Hfit Hz Hy Hmaps (content & Hm & Hlen & HP & Hobj).
  pose proof (row_range _ _ _ _ _ _ _ Hfit Hz Hy) as (H1' & H2' & H3'). destruct Hfit as [Hp Hh Hd Hr Hs Hg].
  unfold copy_row. assert (Eat : u32 (z * slicePitch) + u32 (y * pitch) = z * slicePitch + y * pitch).
  { rewrite !wrap_u_small by (unfold in_u; lia). done. }
  rewrite Eat. apply runs_bind, runs_read_bytes; [lia..|].
  assert (Hl : Z.of_nat (length (take (Z.to_nat pitch) (drop (Z.to_nat (z * slicePitch + y * pitch)) source))) = pitch).
  { rewrite length_take, length_drop. lia. }
  eapply runs_memcpy; [exact Hm|apply with_allocation_lookup|done|cbn; lia|cbn; rewrite Hl, Hlen; lia|].
  intros tr Htr. cbn [block advance] in Htr. rewrite with_allocation_twice in Htr.
  exists (copy_at source first (Z.to_nat pitch) content). split; [exact Htr|]. split.
  { rewrite length_copy_at; [done|..]; unfold first, row_at, size in *; lia. }
  split; [by exists content|done].
Qed.

(** All rows of the slices below [z], and of slice [z] those below [y]. *)
Definition rows_copied (source : list byte) (pitch slicePitch : Z) (zs ys : list Z) (content : list (option byte)) : Prop :=
  forall z y, z ∈ zs -> y ∈ ys -> copied source content (row_at pitch slicePitch z y) (Z.to_nat pitch).

Lemma mapped_with_mono m a maps size (P Q : list (option byte) -> Prop) c o w :
  (forall content, length content = size -> P content -> Q content) ->
  mapped_with m a maps size P c o w -> mapped_with m a maps size Q c o w.
Proof. intros HPQ (content & Hm & Hl & HP & Hobj). exists content. repeat (split; [done|]). split; [by apply HPQ|done]. Qed.

Lemma runs_copy_rows {R w} m a maps source pitch slicePitch height depth c o
    (size := Z.to_nat (depth * slicePitch)) :
  rows_fit source pitch slicePitch height depth -> maps <> 0%nat ->
  mapped_with m a maps size (fun _ => True) c o w ->
  runs (copy_rows (Pointer a 0) source pitch slicePitch height depth)
    (fun _ => mapped_with m a maps size (rows_copied source pitch slicePitch (seqZ 0 depth) (seqZ 0 height)) c o) R w.
Proof.
  intros Hfit Hmaps Hw. unfold copy_rows.
  apply (runs_for_each _ (fun zs => mapped_with m a maps size
    (rows_copied source pitch slicePitch zs (seqZ 0 height)) c o)).
  { eapply mapped_with_mono; [|exact Hw]. intros content _ _ z y Hz. by apply not_elem_of_nil in Hz. }
  intros zs z zs' v Hzs Hv. assert (Hz : 0 <= z < depth).
  { assert (z ∈ seqZ 0 depth) as Hin%elem_of_seqZ by (rewrite Hzs; set_solver). lia. }
  eapply (runs_mono _ (fun _ => mapped_with m a maps size (fun content =>
    rows_copied source pitch slicePitch zs (seqZ 0 height) content /\
    rows_copied source pitch slicePitch [z] (seqZ 0 height) content) c o)); [| |by intros].
  2: { intros [] v'. apply mapped_with_mono. intros content _ [Hr1 Hr2] z' y' Hz' Hy'.
       apply elem_of_app in Hz' as [Hz'|Hz']; eauto. }
  apply (runs_for_each _ (fun ys => mapped_with m a maps size (fun content =>
    rows_copied source pitch slicePitch zs (seqZ 0 height) content /\
    rows_copied source pitch slicePitch [z] ys content) c o)).
  { eapply mapped_with_mono; [|exact Hv]. intros content _ Hr. split; [done|].
    intros z' y' _ Hy. by apply not_elem_of_nil in Hy. }
  intros ys y ys' u Hys Hu. assert (Hy : 0 <= y < height).
  { assert (y ∈ seqZ 0 height) as Hin%elem_of_seqZ by (rewrite Hys; set_solver). lia. }
  eapply runs_mono; [by eapply runs_copy_row| |by intros].
  intros [] u'. apply mapped_with_mono. intros content _ (old & Hold & [Hr1 Hr2] & ->).
  pose proof (row_range _ _ _ _ _ _ _ Hfit Hz Hy) as (H1' & H2' & H3'). destruct Hfit as [Hp Hh Hd Hr Hs Hg].
  assert (Hin : (row_at pitch slicePitch z y + Z.to_nat pitch <= length source)%nat) by (unfold row_at; lia).
  assert (Hin' : (row_at pitch slicePitch z y + Z.to_nat pitch <= length old)%nat) by (unfold row_at, size in *; lia).
  split.
  - intros z' y' Hz' Hy'. apply copied_stays; [done..|by apply Hr1].
  - intros z' y' Hz' Hy'. apply elem_of_app in Hy' as [Hy'|Hy'].
    + apply copied_stays; [done..|by apply Hr2].
    + apply list_elem_of_singleton in Hz' as ->. apply list_elem_of_singleton in Hy' as ->. by apply copied_copy_at.
Qed.

Lemma runs_fill_rows {Q : unit -> world (with_context t) -> Prop} {R m a old} source pitch slicePitch height depth c o tr
    (size := Z.to_nat (depth * slicePitch)) :
  rows_fit source pitch slicePitch height depth -> memory_after tr = Some m ->
  allocations m !! a = Some (mkAllocation old 0) -> length old = size ->
  (forall tr' content, memory_after tr' = Some (with_allocation a (mkAllocation content 0) m) ->
     length content = size ->
     rows_copied source pitch slicePitch (seqZ 0 depth) (seqZ 0 height) content \/ mapping_fails ->
     Q tt (at_ c o tr')) ->
  runs (fill_rows a source pitch slicePitch height depth) Q R (at_ c o tr).
Proof.
  intros Hfit Hm Ha Hold HQ. unfold fill_rows. apply runs_bind, runs_member. cbn [object snd at_ id].
  apply runs_bind. eapply runs_vmaMapMemory; [exact Hm|exact Ha|..].
  - intros tr1 Hm1. cbn [fst snd]. unfold succeeded. rewrite bool_decide_true by done. cbn [default].
    apply runs_bind. eapply runs_mono; [eapply (runs_copy_rows m a 1 _ _ _ _ _ c o); [done|done|by exists old]|..].
    + intros [] w (content & Hm2 & Hlen & Hr & Hobj). destruct w as [ob tr2]. cbn [object] in Hobj. subst ob.
      eapply runs_vmaUnmapMemory; [exact Hm2|apply with_allocation_lookup|done|].
      intros tr3 Hm3. rewrite with_allocation_twice in Hm3. eapply HQ; [exact Hm3|done|by left].
    + instantiate (1 := fun _ _ => False). done.
  - intros r p tr1 Hr Hf Hm1. cbn [fst snd]. unfold succeeded. rewrite bool_decide_false by done.
    apply runs_ret. apply (HQ _ old); [by rewrite with_allocation_same|done|].
    right. exists tr, (m_allocator o), a. intros E. exact (Hf (eq_trans (f_equal fst Hr) E)).
Qed.
End spec.
