(* ===== verification/VulkanTextureInv.v ===== *)
(** * Textures and their memory

    The invariant of the textures of [VulkanTexture], in the memory of [VulkanMemory]:
    an image of its own, which is in the layout that the texture says, and a buffer
    that is mapped while it is read back. Every function keeps it. *)

From Stdlib Require Import Strings.Byte.
From stdpp Require Import base numbers list option strings gmap fin_maps sets.
From S2P Require Import Prelude RenderGraph VulkanFormats Vulkan VulkanContext VulkanUsage VulkanMemory VulkanDriver VulkanObject VulkanBuffer VulkanTexture VulkanTextureRows.
Import VkFormat Tr2TextureAL.

#[local] Open Scope Z_scope.

Section spec.
Context `{AllocatorLaws} `{TextureTypes} `{ImageIO}.
Implicit Types (c : VulkanContext) (m : memory) (tr : list event).
Implicit Types (R : ALResult -> world (with_context t) -> Prop).

(** ** The invariant *)

Definition image_holdings (o : t) : list holding :=
  unless_absent (m_image o) (AnImage (m_image o)) (m_allocation o).
Definition readback_holdings (o : t) : list holding :=
  unless_absent (m_readbackBuffer o) (ABuffer (m_readbackBuffer o)) (m_readbackAllocation o).

(** A texture with an image of its own, or none: it has memory where it has an
    image, which is in the layout that the texture says; and the buffer for reading
    it back is mapped. *)
Record sound (F : list holding) (c : VulkanContext) (o : t) (m : memory) : Prop := mk_sound
  { texture_accounts : accounts c m (image_holdings o ++ readback_holdings o ++ F);
    texture_frame : is_Some (frame_of c);
    texture_memory : is_null (m_allocation o) = is_null (m_image o);
    texture_unmapped : unmapped m (image_holdings o);
    texture_layout : is_null (m_image o) = false -> layouts m !! m_image o = Some (m_layout o);
    texture_readback : is_null (m_readbackBuffer o) = false ->
      exists x, allocations m !! m_readbackAllocation o = Some x /\ mappings x = 1%nat /\
        m_readbackAllocation o <> VK_NULL_HANDLE /\ m_readbackMapped o = Pointer (m_readbackAllocation o) 0 }.

Definition live (o : t) : Prop := is_null (m_image o) = false.

Lemma image_live o : live o -> image_holdings o = [(AnImage (m_image o), m_allocation o)].
Proof. unfold live, image_holdings, unless_absent. by intros ->. Qed.

(** Nothing that the invariant is about has changed. *)
Definition same_resources (o o' : t) : Prop :=
  m_image o' = m_image o /\ m_allocation o' = m_allocation o /\ m_layout o' = m_layout o /\
  m_readbackBuffer o' = m_readbackBuffer o /\ m_readbackAllocation o' = m_readbackAllocation o /\
  m_readbackMapped o' = m_readbackMapped o.

Lemma sound_same F c o o' m : same_resources o o' -> sound F c o m -> sound F c o' m.
Proof.
  intros (Ei & Ea & El & Eb & Era & Em) [Ha Hf Hw Hu Hl Hr]. unfold image_holdings, readback_holdings in *.
  constructor; unfold image_holdings, readback_holdings; rewrite ?Ei, ?Ea, ?El, ?Eb, ?Era, ?Em; done.
Qed.

(** Memory that has not changed where the texture uses it; others may own others. *)
Lemma sound_undisturbed F F' c c' o m m' :
  sound F c o m -> accounts c' m' (image_holdings o ++ readback_holdings o ++ F') -> is_Some (frame_of c') ->
  undisturbed (image_holdings o ++ readback_holdings o) m m' -> sound F' c' o m'.
Proof.
  intros [_ _ Hw Hu Hl Hr] Ha Hf [HA HL]. constructor; [done..| | |].
  - eapply unmapped_agree; [|exact Hu]. intros p Hp. apply HA. set_solver.
  - intros Hi. rewrite (HL _ (m_allocation o)); [by apply Hl|]. rewrite (image_live _ Hi). set_solver.
  - intros Hb. destruct (Hr Hb) as (x & Hx & ?). exists x. split; [|done].
    rewrite <- Hx. apply (HA (ABuffer (m_readbackBuffer o), m_readbackAllocation o)).
    apply elem_of_app. right. unfold readback_holdings, unless_absent. rewrite Hb. set_solver.
Qed.

(** A resource of others beside those of the texture. *)
Lemma accounts_beside c m o p F :
  accounts c m (image_holdings o ++ readback_holdings o ++ p :: F) <->
  accounts c m (p :: image_holdings o ++ readback_holdings o ++ F).
Proof.
  apply accounts_proper. rewrite app_assoc, <- Permutation_middle. by rewrite <- app_assoc.
Qed.

Lemma sound_with_allocation F c o m r a al :
  sound ((r, a) :: F) c o m -> sound ((r, a) :: F) c o (with_allocation a al m).
Proof.
  intros Hs. pose proof (proj1 (accounts_beside _ _ _ _ _) (texture_accounts _ _ _ _ Hs)) as Ha.
  eapply sound_undisturbed; [exact Hs|by apply accounts_beside, accounts_with_allocation|apply Hs|].
  eapply undisturbed_subset; [by eapply undisturbed_with_allocation|set_solver].
Qed.

Lemma sound_recorded F c o m cmd transfer : sound F c o m -> sound F c o (record_transfer cmd transfer m).
Proof. intros Hs. eapply sound_undisturbed; [exact Hs|apply accounts_record, Hs|apply Hs|done]. Qed.

Lemma undisturbed_beside F c o m r a al : sound ((r, a) :: F) c o m -> undisturbed F m (with_allocation a al m).
Proof.
  intros Hs. pose proof (proj1 (accounts_beside _ _ _ _ _) (texture_accounts _ _ _ _ Hs)) as Ha.
  eapply undisturbed_subset; [by eapply undisturbed_with_allocation|set_solver].
Qed.

(** The image changes its layout, and the texture says so. *)
Lemma sound_transition F c o m layout :
  sound F c o m -> live o -> sound F c (o <| m_layout := layout |>) (with_layout (m_image o) layout m).
Proof.
  intros [Ha Hf Hw Hu Hl Hr] Hlive. constructor; [by apply accounts_with_layout|done..| |done].
  intros _. cbn. by rewrite lookup_insert_eq.
Qed.

Lemma undisturbed_transition F c o m layout :
  sound F c o m -> live o -> undisturbed F m (with_layout (m_image o) layout m).
Proof.
  intros Hs Hl. pose proof (texture_accounts _ _ _ _ Hs) as Ha. rewrite (image_live _ Hl) in Ha.
  eapply undisturbed_subset; [by eapply undisturbed_with_layout|set_solver].
Qed.

(** ** Reading back *)

Lemma runs_UnmapForReading {Q : unit -> world (with_context t) -> Prop} {R F c o m tr} :
  memory_after tr = Some m -> sound F c o m ->
  (forall tr' m' o', memory_after tr' = Some m' -> sound F c o' m' -> is_null (m_readbackBuffer o') = true ->
     m_image o' = m_image o -> m_allocation o' = m_allocation o -> undisturbed F m m' -> Q tt (at_ c o' tr')) ->
  runs UnmapForReading Q R (at_ c o tr).
Proof.
  intros Hm Hs HQ. unfold UnmapForReading. apply runs_bind, runs_member. cbn [object snd at_ id]. unfold when_given.
  destruct (is_null (m_readbackBuffer o)) eqn:Hb.
  { apply runs_ret. by eapply HQ. }
  destruct (texture_readback _ _ _ _ Hs Hb) as (x & Hx & Hmaps & Hne & Hp).
  assert (Eb : readback_holdings o = [(ABuffer (m_readbackBuffer o), m_readbackAllocation o)]).
  { unfold readback_holdings, unless_absent. by rewrite Hb. }
  pose proof (texture_accounts _ _ _ _ Hs) as Ha. rewrite Eb in Ha. cbn [app] in Ha.
  rewrite <- Permutation_middle in Ha.
  assert (En : is_nullptr (m_readbackMapped o) = false).
  { unfold is_nullptr. rewrite Hp. cbn [block displacement]. by rewrite (proj2 (Z.eqb_neq _ 0) Hne). }
  rewrite En. apply runs_bind, runs_bind. eapply runs_vmaUnmapMemory; [exact Hm|exact Hx|by rewrite Hmaps|].
  intros tr1 Hm1. apply runs_assign. set (x1 := x <| mappings ::= pred |>) in *.
  apply runs_bind.
  pose proof (accounts_with_allocation _ _ _ _ x1 _ Ha) as [Hh1 Hu1].
  eapply runs_vmaDestroyBuffer; [exact Hm1|exact Hh1| |].
  { apply Forall_singleton. exists x1. split; [apply with_allocation_lookup|]. cbn. by rewrite Hmaps. }
  intros tr2 m2 Hm2 Hh2 Hk2. apply runs_assign. cbn [object trace fst snd at_].
  assert (Hd : undisturbed (image_holdings o ++ F) m m2).
  { transitivity (with_allocation (m_readbackAllocation o) x1 m); [by eapply undisturbed_with_allocation|].
    eapply kept_undisturbed; [exact Hk2|set_solver]. }
  eapply HQ; [exact Hm2| |done|done|done|by eapply undisturbed_subset; [exact Hd|set_solver]].
  destruct Hs as [_ Hf Hw Hu Hl Hr]. constructor; [|done..| | |done].
  - split; [exact Hh2|]. eapply kept_unmapped; [|exact Hu1]. eapply kept_subset; [|exact Hk2]. set_solver.
  - eapply unmapped_agree; [|exact Hu]. intros p Hp'. apply Hd. set_solver.
  - intros Hi. rewrite (undisturbed_layouts _ _ _ Hd _ (m_allocation o)); [by apply Hl|].
    rewrite (image_live o Hi). cbn. set_solver.
Qed.

(** ** Destruction *)

(** Code that leaves memory alone and what the invariant is about. *)
Definition leaves (c : VulkanContext) (o : t) (m : memory) (w : world (with_context t)) : Prop :=
  exists o', object w = (c, o') /\ same_resources o o' /\ memory_after (trace w) = Some m.

Lemma leaves_at c o m tr : memory_after tr = Some m -> leaves c o m (at_ c o tr).
Proof. intros Hm. exists o. by repeat (split; [done|]). Qed.

Lemma runs_destroy_view {R} view clear c o m w :
  (forall o, same_resources o (clear o)) -> leaves c o m w ->
  runs (destroy_view view clear) (fun _ => leaves c o m) R w.
Proof.
  intros Hc (o1 & Ho1 & Hsame & Hm). unfold destroy_view. apply runs_bind, runs_member. rewrite Ho1. cbn [snd id].
  unfold when_given. destruct (is_null (view o1)).
  - apply runs_ret. by exists o1.
  - apply runs_bind. eapply runs_spares; [exact Hm|done|]. intros _ tr1 _ Hm1. apply runs_assign.
    rewrite Ho1. cbn [object trace fst snd]. exists (clear o1). split; [done|]. split; [|done].
    destruct (Hc o1) as (? & ? & ? & ? & ? & ?), Hsame as (? & ? & ? & ? & ? & ?). repeat split; congruence.
Qed.

Lemma runs_DestroyViews {R c o m tr} :
  memory_after tr = Some m -> runs DestroyViews (fun _ => leaves c o m) R (at_ c o tr).
Proof.
  intros Hm. unfold DestroyViews. apply runs_bind, runs_member. cbn [object snd at_ id].
  destruct (m_ownsViews o); cbn [negb]; cycle 1.
  { apply runs_assign. cbn [object trace fst snd at_]. by eexists. }
  apply runs_bind. eapply (runs_mono _ (fun _ => leaves c o m) _ R); [| |done].
  { apply runs_destroy_view; [by intros ?|by apply leaves_at]. }
  intros _ w1 Hw1. apply runs_bind. eapply (runs_mono _ (fun _ => leaves c o m) _ R); [| |done].
  { by apply runs_destroy_view. }
  intros _ w2 Hw2. by apply runs_destroy_view.
Qed.

Lemma runs_texture_Destroy {Q : unit -> world (with_context t) -> Prop} {R F c o m tr} :
  memory_after tr = Some m -> sound F c o m ->
  (forall tr' m' o', memory_after tr' = Some m' -> accounts c m' F -> is_null (m_image o') = true ->
     is_null (m_readbackBuffer o') = true -> m_allocation o' = VK_NULL_HANDLE -> undisturbed F m m' ->
     Q tt (at_ c o' tr')) ->
  runs Destroy Q R (at_ c o tr).
Proof.
  intros Hm Hs HQ. unfold Destroy. apply runs_bind.
  eapply (runs_mono _ (fun _ => leaves c o m) _ R); [by apply runs_DestroyViews| |done].
  intros _ [? tr1] (o1 & [= ->] & Ho1 & Hm1). apply sound_same with (o' := o1) in Hs; [|done].
  apply runs_bind. eapply runs_UnmapForReading; [exact Hm1|exact Hs|].
  intros tr2 m2 o2 Hm2 Hs2 Hb2 _ _ Hd2. apply runs_bind, runs_member. cbn [object snd at_ id].
  assert (Hrb : readback_holdings o2 = []) by (unfold readback_holdings, unless_absent; by rewrite Hb2).
  rewrite (texture_memory _ _ _ _ Hs2), andb_diag.
  pose proof (texture_accounts _ _ _ _ Hs2) as Ha2. rewrite Hrb in Ha2.
  destruct (is_null (m_image o2)) eqn:Hi; cbn [negb]; apply runs_bind.
  - apply runs_ret, runs_assign. cbn [object trace fst snd at_]. eapply HQ; [exact Hm2| |done..].
    unfold image_holdings, unless_absent in Ha2. by rewrite Hi in Ha2.
  - rewrite (image_live _ Hi) in Ha2. destruct Ha2 as [Hh2 Hu2].
    eapply runs_vmaDestroyImage; [exact Hm2|exact Hh2|..].
    { rewrite <- (image_live _ Hi). apply Hs2. }
    intros tr3 m3 Hm3 Hh3 Hk3. apply runs_assign. cbn [object trace fst snd at_]. eapply HQ; [exact Hm3| |done..|].
    + split; [exact Hh3|]. eapply kept_unmapped; [|exact Hu2]. eapply kept_subset; [|exact Hk3]. set_solver.
    + transitivity m2; [done|]. eapply kept_undisturbed; [exact Hk3|set_solver].
Qed.

(** ** Staging buffers *)

(** A new buffer, which is beside the texture. *)
Lemma runs_staging {Q : _ -> world (with_context t) -> Prop} {R F c o m tr al info mi} :
  memory_after tr = Some m -> sound F c o m ->
  (forall b a tr' (m' := place (ABuffer b) a (bci_size info) m), memory_after tr' = Some m' ->
     b <> VK_NULL_HANDLE -> a <> VK_NULL_HANDLE -> sound ((ABuffer b, a) :: F) c o m' -> undisturbed F m m' ->
     Q (VK_SUCCESS, Some (b, a)) (at_ c o tr')) ->
  (forall r p (tr' := Event (vmaCreateBuffer al info mi) (r, p) :: tr),
     r <> VK_SUCCESS -> memory_after tr' = Some m -> Q (r, p) (at_ c o tr')) ->
  runs (call (vmaCreateBuffer al info mi)) Q R (at_ c o tr).
Proof.
  intros Hm Hs Hok Hfail. eapply runs_vmaCreateBuffer; [exact Hm|exact (texture_accounts _ _ _ _ Hs)|..].
  - intros b a tr1 m1 Hm1 Hb Ha Hacc Hk. apply Hok; [done..| |by eapply kept_undisturbed; [exact Hk|set_solver]].
    eapply sound_undisturbed; [exact Hs|by apply accounts_beside|apply Hs|].
    eapply kept_undisturbed; [exact Hk|set_solver].
  - intros r p tr1 Hr _ Hm1. by apply Hfail.
Qed.

(** What the command buffer of the frame holds. *)
Definition held (f : VulkanFrameContext) (m : memory) : list transfer := default [] (recorded m !! commandBuffer f).

Lemma held_recorded f transfer m : held f (record_transfer (commandBuffer f) transfer m) = held f m ++ [transfer].
Proof. unfold held. cbn. by rewrite lookup_insert_eq. Qed.

(** The copy of a region. *)
Definition copy_of (o : t) (region : Tr2TextureSubresource) : VkBufferImageCopy :=
  mkVkBufferImageCopy (layers_of (m_format o) region) (offset_of region) (extent_of_region region).

(** The copy of a region into a buffer beside the texture. *)
Lemma runs_record_readback {Q : unit -> world (with_context t) -> Prop} {R F c o m tr} region b a size f :
  memory_after tr = Some m -> sound ((ABuffer b, a) :: F) c o m -> live o -> frame_of c = Some f ->
  (forall tr' (m' := record_transfer (commandBuffer f) (ImageToBuffer (m_image o) b (copy_of o region))
       (with_layout (m_image o) VK_IMAGE_LAYOUT_TRANSFER_SRC_OPTIMAL m))
     (o' := o <| m_layout := VK_IMAGE_LAYOUT_TRANSFER_SRC_OPTIMAL |>),
     memory_after tr' = Some m' -> sound ((ABuffer b, a) :: F) c o' m' -> Q tt (at_ c o' tr')) ->
  runs (record_readback o region b size) Q R (at_ c o tr).
Proof.
  intros Hm Hs Hl Hf HQ. unfold record_readback.
  apply runs_bind, runs_in_context. eapply runs_GetCurrentCommandBuffer; [exact Hf|]. cbn [object trace fst snd].
  apply runs_bind. eapply runs_transition; [exact Hm|by apply (texture_layout _ _ _ _ Hs)|]. intros tr1 Hm1.
  apply runs_bind. eapply runs_vkCmdCopyImageToBuffer; [exact Hm1|apply lookup_insert_eq| |].
  { exists a. pose proof (proj1 (accounts_beside _ _ _ _ _) (texture_accounts _ _ _ _ Hs)) as Ha.
    by apply (accounts_bound _ _ _ _ _ Ha). }
  intros tr2 Hm2. apply runs_bind. eapply runs_buffer_barrier; [exact Hm2|]. intros tr3 Hm3.
  apply runs_assign. cbn [object trace fst snd at_]. apply HQ; [exact Hm3|].
  by apply sound_recorded, sound_transition.
Qed.

(** The buffer becomes one of the texture's. *)
Lemma sound_keeps F c o m b a size pitch height :
  sound ((ABuffer b, a) :: F) c o m -> is_null (m_readbackBuffer o) = true -> b <> VK_NULL_HANDLE ->
  a <> VK_NULL_HANDLE -> allocations m !! a = Some (mkAllocation size 1) ->
  sound F c (o <| m_readbackBuffer := b |> <| m_readbackAllocation := a |> <| m_readbackMapped := Pointer a 0 |>
    <| m_readbackPitch := pitch |> <| m_readbackHeight := height |>) m.
Proof.
  intros [Ha Hf Hw Hu Hl _] Hnull Hb Hane Hx. constructor; [|done..|].
  - unfold readback_holdings, unless_absent in *. rewrite Hnull in Ha. change (accounts c m (image_holdings o ++ (if is_null b then [] else [(ABuffer b, a)]) ++ F)).
    by rewrite is_null_false by done.
  - intros _. by exists (mkAllocation size 1).
Qed.

(** The size of what [MapForReading] reads, and of a row of it. *)
Definition read_pitch (o : t) (region : Tr2TextureSubresource) : Z :=
  u32 (region_width (ClampToTexture region (m_desc o)) * GetBytesPerPixel (GetFormat (m_desc o))).
Definition read_size (o : t) (region : Tr2TextureSubresource) : Z :=
  let clamped := ClampToTexture region (m_desc o) in
  u64 (u64 (read_pitch o region * region_height clamped) * region_depth clamped).

(** The buffer could not be mapped, and was destroyed. *)
Definition map_refused (al : VkHandle) (tr : list event) : Prop :=
  exists b a r p earlier, tr = Event (vmaDestroyBuffer al b a) tt :: Event (vmaMapMemory al a) (r, p) :: earlier /\
    r <> VK_SUCCESS.

(** Why there is nothing to read. *)
Definition read_error (o : t) (region : Tr2TextureSubresource) (hr : ALResult) (tr tr' : list event) : Prop :=
  let empty := GetBytesPerPixel (GetFormat (m_desc o)) = 0 \/ read_size o region = 0 in
  match hr with
  | E_INVALIDCALL => is_null (m_image o) = true
  | E_INVALIDARG => is_null (m_image o) = false /\ empty
  | E_OUTOFMEMORY => is_null (m_image o) = false /\ ~ empty /\ buffer_refused (m_allocator o) tr tr'
  | E_FAIL => is_null (m_image o) = false /\ ~ empty /\ map_refused (m_allocator o) tr'
  | _ => False
  end.

(** The results of [MapForReading], with what each means. *)
Definition read_result (F : list holding) (c : VulkanContext) (o : t) (m : memory) (tr : list event) (f : VulkanFrameContext)
    (region : Tr2TextureSubresource) (r : ALResult * option pointer * option Z) (w : world (with_context t)) : Prop :=
  exists m' o', w = at_ c o' (trace w) /\ memory_after (trace w) = Some m' /\ sound F c o' m' /\
    undisturbed F m m' /\ m_image o' = m_image o /\
    match r with
    | (S_OK, Some p, Some pitch) => exists b a,
        p = Pointer a 0 /\ pitch = read_pitch o region /\ bound m' !! ABuffer b = Some a /\
        allocations m' !! a = Some (mkAllocation (replicate (Z.to_nat (read_size o region)) None) 1) /\
        held f m' = held f m ++ [ImageToBuffer (m_image o) b (copy_of o (ClampToTexture region (m_desc o)))] /\
        m_layout o' = VK_IMAGE_LAYOUT_TRANSFER_SRC_OPTIMAL /\ m_readbackBuffer o' = b /\
        is_null (m_image o) = false /\
        ~ (GetBytesPerPixel (GetFormat (m_desc o)) = 0 \/ read_size o region = 0)
    | (hr, None, _) => read_error o region hr tr (trace w) /\ is_null (m_readbackBuffer o') = true /\
        (hr <> E_FAIL -> m' = m /\ o' = o)
    | _ => False
    end.

(** A buffer beside the texture is freed. *)
Lemma runs_free_beside {Q : unit -> world (with_context t) -> Prop} {R F c o m tr} al b a x :
  memory_after tr = Some m -> sound ((ABuffer b, a) :: F) c o m ->
  allocations m !! a = Some x -> mappings x = 0%nat ->
  (forall (tr' := Event (vmaDestroyBuffer al b a) tt :: tr) m',
     memory_after tr' = Some m' -> sound F c o m' -> undisturbed F m m' -> Q tt (at_ c o tr')) ->
  runs (call (vmaDestroyBuffer al b a)) Q R (at_ c o tr).
Proof.
  intros Hm Hs Hx Hmaps HQ.
  pose proof (proj1 (accounts_beside _ _ _ _ _) (texture_accounts _ _ _ _ Hs)) as [Hh Hu].
  apply runs_call. intros [] _. pose proof (holds_release _ _ _ _ Hh) as Hh1. pose proof (kept_release _ _ _ _ Hh) as Hk1.
  eapply HQ; [| |by eapply kept_undisturbed; [exact Hk1|set_solver]].
  { cbn. rewrite Hm. cbn. eapply check_release_holds; [exact Hh|]. apply Forall_singleton. by exists x. }
  eapply sound_undisturbed; [exact Hs| |apply Hs|eapply kept_undisturbed; [exact Hk1|set_solver]].
  split; [exact Hh1|]. eapply kept_unmapped; [|exact Hu]. eapply kept_subset; [|exact Hk1]. set_solver.
Qed.

Lemma undisturbed_recorded F m m' cmd transfer :
  undisturbed F m m' -> undisturbed F m (record_transfer cmd transfer m').
Proof. by intros []. Qed.

Lemma runs_MapForReading {R F c o m tr} region f :
  memory_after tr = Some m -> sound F c o m -> is_null (m_readbackBuffer o) = true -> frame_of c = Some f ->
  runs (MapForReading region) (read_result F c o m tr f region) R (at_ c o tr).
Proof.
  intros Hm Hs Hnull Hf. unfold MapForReading. apply runs_bind, runs_member. cbn [object snd at_ id].
  assert (Hnone : forall hr pitch tr', read_error o region hr tr tr' -> memory_after tr' = Some m ->
    read_result F c o m tr f region (hr, None, pitch) (at_ c o tr')).
  { intros hr pitch tr' Hhr Hm'. exists m, o. repeat (split; [done|]). by destruct hr. }
  destruct (is_null (m_image o)) eqn:Hi; [by apply runs_ret, Hnone|].
  destruct (Z.eqb_spec (GetBytesPerPixel (GetFormat (m_desc o))) 0) as [Hbpp|Hbpp].
  { apply runs_ret, Hnone; [|done]. split; [done|]. by left. }
  fold (read_pitch o region). fold (read_size o region). set (clamped := ClampToTexture region (m_desc o)).
  destruct (Z.eqb_spec (read_size o region) 0) as [Hsize|Hsize].
  { apply runs_ret, Hnone; [|done]. split; [done|]. by right. }
  assert (Hfull : ~ (GetBytesPerPixel (GetFormat (m_desc o)) = 0 \/ read_size o region = 0)) by (by intros []).
  apply runs_bind. eapply runs_staging; [exact Hm|exact Hs|..].
  2: { intros r p tr1 Hr Hm1. cbn [fst snd]. unfold succeeded. rewrite bool_decide_false by done. cbn [negb].
       apply runs_ret, Hnone; [|done]. do 2 (split; [done|]). by eexists _, _, r, p. }
  intros b a tr1 m1 Hm1 Hb Ha Hs1 Hd1. cbn [fst snd]. unfold succeeded at 1. rewrite bool_decide_true by done.
  cbn [negb default]. apply runs_bind. eapply (runs_record_readback clamped b a); [exact Hm1|exact Hs1|exact Hi|exact Hf|].
  intros tr2 m2 o2 Hm2 Hs2.
  set (free := mkAllocation (replicate (Z.to_nat (read_size o region)) None) 0).
  assert (Ha2 : allocations m2 !! a = Some free) by apply (with_allocation_lookup a).
  assert (Hd2 : undisturbed F m m2).
  { apply undisturbed_recorded. transitivity m1; [done|].
    eapply undisturbed_subset; [by eapply undisturbed_transition|set_solver]. }
  assert (Hnull2 : is_null (m_readbackBuffer o2) = true) by done.
  apply runs_bind. eapply runs_vmaMapMemory; [exact Hm2|exact Ha2|..].
  - intros tr3 Hm3. cbn [fst snd]. unfold succeeded. rewrite bool_decide_true by done. cbn [negb default].
    apply runs_bind, runs_assign, runs_ret. cbn [object trace fst snd at_]. eexists _, _. split; [done|].
    split; [exact Hm3|]. split.
    { eapply sound_keeps; [by apply sound_with_allocation|done..|]. apply with_allocation_lookup. }
    split.
    { transitivity m2; [done|]. by eapply undisturbed_beside. }
    split; [done|]. exists b, a. split; [done|]. split; [done|]. split; [apply lookup_insert_eq|].
    split; [apply (with_allocation_lookup a)|]. split; [|by repeat (split; [done|])].
    exact (held_recorded f (ImageToBuffer (m_image o) b (copy_of o clamped)) m).
  - intros r p tr3 _ Hr Hm3. cbn [fst snd]. unfold succeeded. rewrite bool_decide_false by done. cbn [negb].
    apply runs_bind. eapply runs_free_beside; [exact Hm3|exact Hs2|exact Ha2|done|].
    intros tr4 m4 Hm4 Hs4 Hd4. apply runs_ret. exists m4, o2. split; [done|]. split; [exact Hm4|].
    split; [done|]. split; [by transitivity m2|]. split; [done|]. split; [|by split].
    do 2 (split; [done|]). by exists b, a, r, p, tr2.
Qed.

(** ** Uploads *)

(** What an upload that succeeded leaves: a copy from a new buffer, which the context
    will free, at the end of what the command buffer holds. *)
Record uploaded (o o' : t) (m m' : memory) (f : VulkanFrameContext) (region : Tr2TextureSubresource)
    (bytes : list byte) (pitch slicePitch : Z) : Prop := mk_uploaded
  { uploaded_layout : o' = o <| m_layout := VK_IMAGE_LAYOUT_TRANSFER_DST_OPTIMAL |>;
    uploaded_copy : exists b content,
      held f m' = held f m ++ [BufferToImage b (m_image o) (copy_of o region)] /\
      bytes_of m' b = Some content /\
      length content = Z.to_nat (region_depth region * slicePitch) /\
      (rows_copied bytes pitch slicePitch (seqZ 0 (region_depth region)) (seqZ 0 (region_height region)) content \/
       mapping_fails) }.

Definition upload_result (F : list holding) (c : VulkanContext) (o : t) (m : memory) (tr : list event) (f : VulkanFrameContext)
    (region : Tr2TextureSubresource) (source : option (list byte)) (pitch slicePitch : Z) (hr : ALResult)
    (w : world (with_context t)) : Prop :=
  exists m' c' o', w = at_ c' o' (trace w) /\ memory_after (trace w) = Some m' /\ sound F c' o' m' /\
    undisturbed F m m' /\ state c' = state c /\ m_image o' = m_image o /\ m_readbackBuffer o' = m_readbackBuffer o /\
    match hr with
    | S_OK => exists bytes, source = Some bytes /\ uploaded o o' m m' f region bytes pitch slicePitch
    | E_INVALIDARG => source = None /\ m' = m /\ o' = o
    | E_OUTOFMEMORY => source <> None /\ m' = m /\ o' = o /\ buffer_refused (m_allocator o) tr (trace w)
    | _ => False
    end.

Lemma runs_UpdateSubresource {R F c o m tr} region source pitch slicePitch f :
  memory_after tr = Some m -> sound F c o m -> live o -> frame_of c = Some f ->
  (forall bytes, source = Some bytes ->
     rows_fit bytes pitch slicePitch (region_height region) (region_depth region)) ->
  runs (UpdateSubresource region source pitch slicePitch) (upload_result F c o m tr f region source pitch slicePitch) R
    (at_ c o tr).
Proof.
  intros Hm Hs Hl Hf Hfit. unfold UpdateSubresource. destruct source as [bytes|]; cycle 1.
  { apply runs_ret. exists m, c, o. by repeat (split; [done|]). }
  specialize (Hfit bytes eq_refl).
  apply runs_bind, runs_in_context. eapply runs_GetCurrentCommandBuffer; [exact Hf|]. cbn [object trace fst snd at_].
  apply runs_bind, runs_member. cbn [object snd id]. change (mkWorld (c, o) tr) with (at_ c o tr).
  assert (Esize : u64 (slicePitch * region_depth region) = region_depth region * slicePitch).
  { destruct Hfit. rewrite wrap_u_small; [lia|]. unfold in_u. nia. }
  rewrite Esize. apply runs_bind. eapply runs_staging; [exact Hm|exact Hs|..].
  2: { intros r p tr1 Hr Hm1. cbn [fst snd]. unfold succeeded. rewrite bool_decide_false by done. cbn [negb].
       apply runs_ret. exists m, c, o. repeat (split; [done|]). by eexists _, _, r, p. }
  intros b a tr1 m1 Hm1 Hb Ha Hs1 Hd1. cbn [fst snd]. unfold succeeded at 1. rewrite bool_decide_true by done.
  cbn [negb default bci_size] in *. apply runs_bind.
  eapply runs_fill_rows; [exact Hfit|exact Hm1|apply (with_allocation_lookup a)|apply length_replicate|].
  intros tr2 content Hm2 Hlen Hrows. cbn [id fst snd] in Hm2.
  set (m2 := with_allocation a (mkAllocation content 0) m1) in *.
  assert (Hs2 : sound ((ABuffer b, a) :: F) c o m2) by by apply sound_with_allocation.
  apply runs_bind. eapply runs_transition; [exact Hm2|by apply (texture_layout _ _ _ _ Hs2)|]. intros tr3 Hm3.
  apply sound_transition with (layout := VK_IMAGE_LAYOUT_TRANSFER_DST_OPTIMAL) in Hs2 as Hs3; [|done].
  cbn [imb_image imb_newLayout transition] in Hm3.
  set (m3 := with_layout (m_image o) VK_IMAGE_LAYOUT_TRANSFER_DST_OPTIMAL m2) in *. set (o' := o <| m_layout := _ |>) in *.
  apply runs_bind. eapply runs_vkCmdCopyBufferToImage; [exact Hm3|apply lookup_insert_eq| |].
  { exists a. eapply accounts_bound, accounts_beside, Hs3. }
  intros tr4 Hm4. fold (copy_of o region) in Hm4. cbn [id fst snd] in Hm4.
  set (m4 := record_transfer (commandBuffer f) (BufferToImage b (m_image o) (copy_of o region)) m3) in *.
  assert (Hs4 : sound ((ABuffer b, a) :: F) c o' m4) by by apply sound_recorded.
  apply runs_bind, runs_in_context. eapply runs_GetCurrentTimelineValue; [exact Hf|]. cbn [object trace fst snd].
  apply runs_bind, runs_in_context. set (e := deferred_buffer _ _ _ _ _).
  assert (He : entry_holdings e = [(ABuffer b, a)]) by by apply deferred_buffer_holdings.
  eapply runs_Retire_accounts; [exact Hm4|rewrite He; by apply accounts_beside, Hs4|..].
  { rewrite He. apply Forall_singleton. exists (mkAllocation content 0). split; [|done].
    apply (with_allocation_lookup a _ m1). }
  rewrite He. intros tr5 m5 c5 Hm5 Hst Hlast Hacc5 Hk5. apply runs_bind, runs_assign, runs_ret.
  cbn [object trace fst snd at_] in *.
  exists m5, c5, o'. split; [done|]. split; [exact Hm5|]. split.
  { eapply sound_undisturbed; [exact Hs4|exact Hacc5| |eapply kept_undisturbed; [exact Hk5|set_solver]].
    exists f. unfold frame_of. by rewrite Hst. }
  split.
  { transitivity m1; [done|]. transitivity m2; [by eapply undisturbed_beside|].
    transitivity m4; [|by eapply kept_undisturbed; [exact Hk5|set_solver]].
    apply undisturbed_recorded. eapply undisturbed_subset; [by eapply undisturbed_transition|set_solver]. }
  repeat (split; [done|]). exists bytes. split; [done|]. constructor; [done|]. exists b, content.
  split; [|split; [|done]].
  - unfold held at 1. rewrite (kept_recorded _ _ _ Hk5). exact (held_recorded f _ m3).
  - unfold bytes_of. rewrite (retired_bound _ _ _ _ (ABuffer b) a Hacc5 Hlast) by (rewrite He; set_solver). cbn.
    assert (Hx5 : allocations m5 !! a = Some (mkAllocation content 0)); [|by rewrite Hx5].
    etransitivity; [apply (kept_allocations _ _ _ Hk5 (ABuffer b, a)); set_solver|].
    apply (with_allocation_lookup a _ m1).
Qed.

(** ** Creation *)

Lemma runs_create_view {Q : unit -> world (with_context t) -> Prop} {R} set format levels c o m w :
  (forall h o, same_resources o (set h o)) -> leaves c o m w ->
  (forall w', leaves c o m w' -> Q tt w') -> (forall w', leaves c o m w' -> R E_FAIL w') ->
  runs (create_view set format levels) Q R w.
Proof.
  intros Hset (o1 & Ho1 & Hsame & Hm) HQ HR. unfold create_view. apply runs_bind, runs_member. rewrite Ho1. cbn [snd id].
  apply runs_bind, runs_bind. eapply runs_spares; [exact Hm|done|]. intros [r v] tr1 _ Hm1.
  apply runs_bind, runs_update, runs_ret. cbn [fst snd object trace].
  assert (Hw : forall o2, same_resources o1 o2 -> leaves c o m (mkWorld (c, o2) tr1)).
  { intros o2 H12. exists o2. split; [done|]. split; [|done].
    destruct H12 as (? & ? & ? & ? & ? & ?), Hsame as (? & ? & ? & ? & ? & ?). repeat split; congruence. }
  rewrite Ho1. destruct (succeeded r); cbn [negb]; [apply runs_ret, HQ|apply runs_early, HR].
  all: destruct v; cbn; by apply Hw.
Qed.

Lemma runs_CreateViews {R c o m tr} :
  memory_after tr = Some m ->
  runs CreateViews (fun hr w => (hr = S_OK \/ hr = E_FAIL) /\ leaves c o m w) R (at_ c o tr).
Proof.
  intros Hm. unfold CreateViews. apply runs_function, runs_bind, runs_member. cbn [object snd at_ id].
  apply runs_bind. eapply runs_create_view; [by intros ??|by apply leaves_at| |by auto].
  intros w1 Hw1. apply runs_bind.
  assert (Hlast : forall w2, leaves c o m w2 ->
    runs ((if m_gpuUsage o UNORDERED_ACCESS then create_view (fun h o => o <| m_uavView := h |>) (m_format o) 1
           else mret tt);; mret S_OK)
      (fun hr w => (hr = S_OK \/ hr = E_FAIL) /\ leaves c o m w)
      (fun hr w => (hr = S_OK \/ hr = E_FAIL) /\ leaves c o m w) w2).
  { intros w2 Hw2. apply runs_bind. case_match.
    - eapply runs_create_view; [by intros ??|exact Hw2| |by auto]. intros w3 Hw3. apply runs_ret. by auto.
    - apply runs_ret, runs_ret. by auto. }
  case_bool_decide.
  - apply runs_ret. by apply Hlast.
  - eapply runs_create_view; [by intros ??|exact Hw1|exact Hlast|by auto].
Qed.

(** There is as much initial data as [CreateImage] will copy. *)
Definition enough (desc : Tr2BitmapDimensions) (initialData : option Tr2SubresourceData) : Prop :=
  forall data bytes, initialData = Some data -> m_sysMem data = Some bytes ->
    rows_fit bytes (m_sysMemPitch data) (m_sysMemSlicePitch data) (region_height (new_subresource 0))
      (region_depth (new_subresource 0)).

(** After [CreateImage]: where a view could not be created the image stays for
    [Destroy] to free, in the other cases of failure there is none. *)
Definition texture_created (F : list holding) (m : memory) (hr : ALResult) (w : world (with_context t)) : Prop :=
  exists m' c' o', w = at_ c' o' (trace w) /\ memory_after (trace w) = Some m' /\ sound F c' o' m' /\
    undisturbed F m m' /\ is_null (m_readbackBuffer o') = true /\
    match hr with
    | S_OK | E_FAIL => live o'
    | E_INVALIDARG | E_OUTOFMEMORY => is_null (m_image o') = true
    | _ => False
    end.

(** No image, nor a buffer. *)
Lemma null_texture_sound F c o m :
  m_image o = VK_NULL_HANDLE -> m_allocation o = VK_NULL_HANDLE -> is_null (m_readbackBuffer o) = true ->
  accounts c m F -> is_Some (frame_of c) -> sound F c o m.
Proof.
  intros Ei Ea Eb Ha Hf. constructor; unfold image_holdings, readback_holdings, unless_absent;
    rewrite ?Ei, ?Ea, ?Eb; try done. by constructor.
Qed.

Lemma sound_placed_image F c m o i a :
  accounts c (place_image i a m) ((AnImage i, a) :: F) -> is_Some (frame_of c) -> i <> VK_NULL_HANDLE ->
  a <> VK_NULL_HANDLE -> m_image o = i -> m_allocation o = a -> m_layout o = VK_IMAGE_LAYOUT_UNDEFINED ->
  is_null (m_readbackBuffer o) = true -> sound F c o (place_image i a m).
Proof.
  intros Ha Hf Hi Hne <- <- El Eb.
  constructor; unfold image_holdings, readback_holdings, unless_absent; rewrite ?Eb, ?is_null_false by done; try done.
  - apply Forall_singleton. exists (mkAllocation (replicate 0 None) 0). split; [|done]. cbn. by rewrite lookup_insert_eq.
  - intros _. cbn. by rewrite lookup_insert_eq, El.
Qed.

Lemma texture_created_update F c o m m1 tr f region source pitch slicePitch hr w :
  is_null (m_readbackBuffer o) = true -> live o -> undisturbed F m m1 ->
  upload_result F c o m1 tr f region source pitch slicePitch hr w ->
  forall R, runs (if FAILED hr then Destroy;; mret hr else mret S_OK) (texture_created F m) R w.
Proof.
  intros Hb Hl Hd (m2 & c2 & o2 & Hw & Hm2 & Hs2 & Hd2 & _ & Ei & Eb & Hres) R. rewrite Hw.
  destruct (FAILED hr) eqn:Hfail; cycle 1.
  { apply runs_ret. exists m2, c2, o2. split; [done|]. split; [exact Hm2|]. split; [done|].
    split; [by transitivity m1|]. unfold live. by rewrite Ei, Eb. }
  apply runs_bind. eapply runs_texture_Destroy; [exact Hm2|exact Hs2|].
  intros tr3 m3 o3 Hm3 Ha3 Hi3 Hb3 Ea3 Hd3. apply runs_ret. exists m3, c2, o3. split; [done|]. split; [exact Hm3|].
  split; [apply null_texture_sound; [by apply Z.eqb_eq|done..|apply Hs2]|].
  split; [transitivity m1; [done|]; by transitivity m2|]. split; [done|]. by destruct hr.
Qed.

Lemma runs_texture_Create {R F c o m tr} desc samples gpuUsage cpuUsage initialData :
  m_image o = VK_NULL_HANDLE -> m_allocation o = VK_NULL_HANDLE -> is_null (m_readbackBuffer o) = true ->
  memory_after tr = Some m -> accounts c m F -> is_Some (frame_of c) -> enough desc initialData ->
  runs (Create desc samples gpuUsage cpuUsage initialData) (texture_created F m) R (at_ c o tr).
Proof.
  intros Ei Ea Eb Hm Ha [f Hf] Hen. unfold Create, CreateImage. apply runs_function.
  apply runs_bind, runs_in_context, runs_this. cbn [object trace fst snd at_ id].
  apply runs_bind, runs_assign. cbn [object trace fst snd]. set (o1 := _ <| m_layout := _ |>).
  assert (Hnull : forall o' tr', m_image o' = VK_NULL_HANDLE -> m_allocation o' = VK_NULL_HANDLE ->
    is_null (m_readbackBuffer o') = true -> memory_after tr' = Some m ->
    forall hr, (hr = E_INVALIDARG \/ hr = E_OUTOFMEMORY) -> texture_created F m hr (at_ c o' tr')).
  { intros o' tr' Ei' Ea' Eb' Hm' hr Hhr. exists m, c, o'. split; [done|]. split; [exact Hm'|].
    split; [apply null_texture_sound; [done..|by exists f]|]. split; [done|]. split; [done|].
    destruct Hhr as [-> | ->]; by rewrite Ei'. }
  case_bool_decide; [apply runs_ret, Hnull; by auto|].
  apply runs_bind, runs_bind. eapply runs_vmaCreateImage; [exact Hm|exact Ha|..].
  2: { intros r p tr1 Hr Hp Hm1. apply runs_bind, runs_update, runs_ret. cbn [fst snd object trace].
       unfold succeeded. rewrite bool_decide_false by done. cbn [negb]. apply runs_ret.
       destruct Hp as [-> | ->]; apply Hnull; by auto. }
  intros i a tr1 m1 Hm1 Hi Hane Ha1 Hk1. apply runs_bind, runs_update, runs_ret. cbn [fst snd object trace].
  unfold succeeded. rewrite bool_decide_true by done. cbn [negb]. set (o2 := o1 <| m_image := i |> <| m_allocation := a |>).
  assert (Hs2 : sound F c o2 m1) by (apply sound_placed_image with (a := a); [done|by exists f|done..]).
  assert (Hd1 : undisturbed F m m1) by (eapply kept_undisturbed; [exact Hk1|set_solver]).
  change (mkWorld (c, o2) tr1) with (at_ c o2 tr1). apply runs_bind, runs_CR_RETURN_HR.
  eapply runs_mono; [by eapply (runs_CreateViews (R := fun _ _ => False))| |done].
  intros hr [? tr2] ([-> | ->] & o3 & [= ->] & Hsame & Hm2); cbn [FAILED].
  all: apply sound_same with (o' := o3) in Hs2 as Hs3; [|done]; destruct Hsame as (Ei3 & _ & _ & Eb3 & _).
  all: assert (Hl3 : live o3) by (unfold live; rewrite Ei3; by apply is_null_false).
  2: { exists m1, c, o3. repeat (split; [done|]). by rewrite Eb3. }
  destruct initialData as [data|]; cycle 1.
  { apply runs_ret. exists m1, c, o3. repeat (split; [done|]). by rewrite Eb3. }
  apply runs_bind. eapply runs_mono; [eapply (runs_UpdateSubresource (R := fun _ _ => False)); [exact Hm2|exact Hs3|done|exact Hf|]| |done].
  { intros bytes Hbytes. by eapply Hen. }
  intros hr w Hres. eapply texture_created_update; [by rewrite Eb3|exact Hl3|exact Hd1|exact Hres].
Qed.

(** ** From creation to destruction *)

Inductive texture_use :=
| UseMapForReading (region : Tr2TextureSubresource)
| UseInvalidateReadback
| UseUnmapForReading
| UseUpdateSubresource (region : Tr2TextureSubresource) (source : option (list byte)) (pitch slicePitch : Z)
| UseSetName (name : option string).

Definition run_texture_use (u : texture_use) : Code (with_context t) unit :=
  match u with
  | UseMapForReading region => MapForReading region;; mret tt
  | UseInvalidateReadback => InvalidateReadback;; mret tt
  | UseUnmapForReading => UnmapForReading
  | UseUpdateSubresource region source pitch slicePitch =>
      UpdateSubresource region source pitch slicePitch;; mret tt
  | UseSetName name => SetName name;; mret tt
  end.

(** The rows of an upload are there. *)
Definition texture_fits (u : texture_use) : Prop :=
  match u with
  | UseUpdateSubresource region source pitch slicePitch =>
      forall bytes, source = Some bytes ->
        rows_fit bytes pitch slicePitch (region_height region) (region_depth region)
  | _ => True
  end.

(** The texture is not mapped for reading while it may be mapped ([reading]). *)
Fixpoint reads_apart (reading : bool) (us : list texture_use) : Prop :=
  match us with
  | [] => True
  | UseMapForReading _ :: us => reading = false /\ reads_apart true us
  | UseUnmapForReading :: us => reads_apart false us
  | _ :: us => reads_apart reading us
  end.

Definition reading_after (reading : bool) (u : texture_use) : bool :=
  match u with UseMapForReading _ => true | UseUnmapForReading => false | _ => reading end.

Lemma reads_apart_cons reading u us :
  reads_apart reading (u :: us) ->
  (forall region, u = UseMapForReading region -> reading = false) /\ reads_apart (reading_after reading u) us.
Proof. destruct u; cbn; naive_solver. Qed.

(** [Create], [uses] if it succeeds, and the destructor. *)
Definition texture_lifetime_of (desc : Tr2BitmapDimensions) (samples : Z) (gpuUsage : Tr2GpuUsage -> bool)
    (cpuUsage : Tr2CpuUsage -> bool) (initialData : option Tr2SubresourceData) (uses : list texture_use)
    : Code (with_context t) unit :=
  hr ← Create desc samples gpuUsage cpuUsage initialData;
  (if SUCCEEDED hr then for_each run_texture_use uses else mret tt);;
  Destroy.

(** The texture between two uses. *)
Definition in_use (F : list holding) (m : memory) (reading : bool) (w : world (with_context t)) : Prop :=
  exists m' c' o', w = at_ c' o' (trace w) /\ memory_after (trace w) = Some m' /\ sound F c' o' m' /\ live o' /\
    undisturbed F m m' /\ (reading = false -> is_null (m_readbackBuffer o') = true).

Lemma runs_InvalidateReadback {F c o m tr} {Q : ALResult -> world (with_context t) -> Prop} {R} :
  memory_after tr = Some m -> sound F c o m ->
  (forall hr tr', memory_after tr' = Some m -> Q hr (at_ c o tr')) -> runs InvalidateReadback Q R (at_ c o tr).
Proof.
  intros Hm Hs HQ. unfold InvalidateReadback. apply runs_bind, runs_member. cbn [object snd at_ id].
  destruct (is_null (m_readbackBuffer o)) eqn:Hb; cbn [orb]; [by apply runs_ret, HQ|].
  case_match; [by apply runs_ret, HQ|]. destruct (texture_readback _ _ _ _ Hs Hb) as (x & Hx & _).
  apply runs_bind, runs_call. intros [] _. apply runs_ret, HQ. cbn. rewrite Hm. cbn.
  by rewrite option_guard_True by (rewrite Hx; by eexists).
Qed.

Lemma runs_texture_SetName {R c o m tr} name :
  memory_after tr = Some m -> runs (SetName name) (fun _ => leaves c o m) R (at_ c o tr).
Proof.
  intros Hm. unfold SetName. apply runs_bind, runs_assign. cbn [object trace fst snd at_].
  set (o' := o <| m_name := _ |>). apply runs_bind, runs_member, runs_bind, runs_in_context.
  cbn [object snd fst trace id].
  assert (Hw : forall tr', memory_after tr' = Some m ->
    runs (mret S_OK) (fun _ => leaves c o m) R (mkWorld (c, o') tr')).
  { intros tr' Hm'. apply runs_ret. exists o'. by repeat (split; [done|]). }
  unfold SetVulkanObjectName. destruct name as [name|]; [|by apply runs_ret, Hw].
  case_match; [by apply runs_ret, Hw|]. apply runs_bind. eapply runs_spares; [exact Hm|done|].
  intros [] tr1 _ Hm1; [|by apply runs_ret, Hw]. eapply runs_spares; [exact Hm1|done|]. intros [] tr2 _ Hm2. by apply Hw.
Qed.

Lemma runs_run_texture_use {R F c o m tr} (m0 : memory) reading u :
  memory_after tr = Some m -> sound F c o m -> live o -> undisturbed F m0 m ->
  (reading = false -> is_null (m_readbackBuffer o) = true) -> texture_fits u ->
  (forall region, u = UseMapForReading region -> reading = false) ->
  runs (run_texture_use u) (fun _ => in_use F m0 (reading_after reading u)) R (at_ c o tr).
Proof.
  intros Hm Hs Hl Hd Hr Hu Hapart. destruct (texture_frame _ _ _ _ Hs) as [f Hf].
  destruct u as [region| | |region source pitch slicePitch|name]; cbn [run_texture_use reading_after].
  - apply runs_then_tt. eapply runs_mono; [eapply (runs_MapForReading (R := fun _ _ => False)); try done| |done].
    { by eapply Hr, Hapart. }
    intros r w (m1 & o1 & Hw & Hm1 & Hs1 & Hd1 & Ei & _). rewrite Hw. exists m1, c, o1. split; [done|].
    split; [exact Hm1|]. split; [done|]. split; [by unfold live; rewrite Ei|]. split; [by transitivity m|done].
  - apply runs_then_tt. eapply runs_InvalidateReadback; [exact Hm|exact Hs|]. intros hr tr' Hm'. exists m, c, o.
    by repeat (split; [done|]).
  - eapply runs_UnmapForReading; [exact Hm|exact Hs|]. intros tr1 m1 o1 Hm1 Hs1 Hb1 Ei _ Hd1. exists m1, c, o1.
    split; [done|]. split; [exact Hm1|]. split; [done|]. split; [by unfold live; rewrite Ei|].
    split; [by transitivity m|done].
  - apply runs_then_tt. eapply runs_mono; [eapply (runs_UpdateSubresource (R := fun _ _ => False)); try done| |done].
    intros hr w (m1 & c1 & o1 & Hw & Hm1 & Hs1 & Hd1 & _ & Ei & Eb & _). exists m1, c1, o1. split; [done|].
    split; [exact Hm1|]. split; [done|]. split; [by unfold live; rewrite Ei|]. split; [by transitivity m|by rewrite Eb].
  - apply runs_then_tt. eapply runs_mono; [by eapply (runs_texture_SetName (R := fun _ _ => False))| |done].
    intros hr [? tr1] (o1 & [= ->] & Hsame & Hm1). exists m, c, o1. split; [done|]. split; [exact Hm1|].
    split; [by eapply sound_same|]. destruct Hsame as (Ei & _ & _ & Eb & _). split; [by unfold live; rewrite Ei|].
    split; [done|by rewrite Eb].
Qed.

Lemma runs_run_texture_uses {R F} m0 reading us w :
  in_use F m0 reading w -> Forall texture_fits us -> reads_apart reading us ->
  runs (for_each run_texture_use us) (fun _ v => exists reading', in_use F m0 reading' v) R w.
Proof.
  intros Hw Hus. revert reading w Hw. induction Hus as [|u us Hu _ IH]; intros reading w Hw Hapart.
  - apply runs_ret. by exists reading.
  - apply reads_apart_cons in Hapart as [Hmap Hapart]. destruct Hw as (m & c & o & Hw & Hm & Hs & Hl & Hd & Hr).
    rewrite Hw. cbn [for_each]. apply runs_bind.
    eapply runs_mono; [by eapply (runs_run_texture_use (R := fun _ _ => False))| |done].
    intros [] v Hv. by eapply IH.
Qed.

Lemma runs_texture_lifetime {R F c m tr} desc samples gpuUsage cpuUsage initialData us :
  memory_after tr = Some m -> accounts c m F -> is_Some (frame_of c) -> enough desc initialData ->
  Forall texture_fits us -> reads_apart false us ->
  runs (texture_lifetime_of desc samples gpuUsage cpuUsage initialData us)
    (fun _ w => exists m', memory_after (trace w) = Some m' /\ accounts (fst (object w)) m' F /\ undisturbed F m m')
    R (at_ c new tr).
Proof.
  intros Hm Ha Hf Hen Hus Hapart. unfold texture_lifetime_of.
  assert (Hdestroy : forall m1 c1 o1 tr1, memory_after tr1 = Some m1 -> sound F c1 o1 m1 -> undisturbed F m m1 ->
    runs Destroy (fun _ w => exists m', memory_after (trace w) = Some m' /\ accounts (fst (object w)) m' F /\
      undisturbed F m m') R (at_ c1 o1 tr1)).
  { intros m1 c1 o1 tr1 Hm1 Hs1 Hd1. eapply runs_texture_Destroy; [exact Hm1|exact Hs1|].
    intros tr2 m2 o2 Hm2 Ha2 _ _ _ Hd2. exists m2. split; [exact Hm2|]. split; [done|by transitivity m1]. }
  apply runs_bind. eapply runs_mono; [by eapply (runs_texture_Create (R := fun _ _ => False))| |done].
  intros hr w (m1 & c1 & o1 & Hw & Hm1 & Hs1 & Hd1 & Hb1 & Hres). rewrite Hw. apply runs_bind.
  destruct (SUCCEEDED hr) eqn:Hok; cycle 1.
  { apply runs_ret. by eapply Hdestroy. }
  eapply runs_mono; [eapply (runs_run_texture_uses (R := fun _ _ => False) m false)| |done]; [|done..|].
  - exists m1, c1, o1. split; [done|]. split; [exact Hm1|]. split; [done|]. split; [by destruct hr|]. by split.
  - intros [] v (reading & m2 & c2 & o2 & Hv & Hm2 & Hs2 & _ & Hd2 & _). rewrite Hv. by eapply Hdestroy.
Qed.
End spec.
