(* ===== verification/VulkanTextureSpec.v ===== *)
(** * Textures keep their promises

    What the functions of [VulkanTexture] do to the memory of [VulkanMemory]: what is
    uploaded are the rows given, what is read back is where the pointer points, and
    from its creation to its destruction a texture leaves no memory behind, provided
    that it is not mapped for reading twice. *)

From Stdlib Require Import Strings.Byte.
From stdpp Require Import base numbers list option strings gmap fin_maps sets.
From S2P Require Import Prelude RenderGraph VulkanFormats Vulkan VulkanContext VulkanUsage VulkanMemory VulkanDriver VulkanObject VulkanBuffer VulkanTexture VulkanTextureRows VulkanTextureInv.
Import VkFormat Tr2TextureAL.

#[local] Open Scope Z_scope.

(** ** The contract *)

(** C9. With a driver that never refuses to map memory, and rows that lie within the
    source, as many in each slice as it has, of less than 2^32 bytes in all: an upload to an
    image succeeds unless the driver refuses the staging buffer, in which case that is
    the only call made. When it succeeds, the command buffer of the frame ends with a
    copy to the region from a buffer of which every row has the bytes given; the image
    is in the layout that the texture says, and nothing of others has changed. *)
Theorem UpdateSubresource_uploads `{AllocatorLaws} `{TextureTypes} `{ImageIO} F c o m tr region bytes pitch slicePitch f
    (Hm : memory_after tr = Some m) (Hs : sound F c o m) (Hl : live o) (Hf : frame_of c = Some f)
    (Hfit : rows_fit bytes pitch slicePitch (region_height region) (region_depth region))
    (Hmaps : ~ mapping_fails) :
  runs (UpdateSubresource region (Some bytes) pitch slicePitch) (fun hr w => exists m',
      memory_after (trace w) = Some m' /\ sound F (fst (object w)) (snd (object w)) m' /\ undisturbed F m m' /\
      (hr = E_OUTOFMEMORY /\ m' = m /\ snd (object w) = o /\ buffer_refused (m_allocator o) tr (trace w) \/
       hr = S_OK /\ snd (object w) = o <| m_layout := VK_IMAGE_LAYOUT_TRANSFER_DST_OPTIMAL |> /\
       layouts m' !! m_image o = Some VK_IMAGE_LAYOUT_TRANSFER_DST_OPTIMAL /\
       exists b content, held f m' = held f m ++ [BufferToImage b (m_image o) (copy_of o region)] /\
         bytes_of m' b = Some content /\
         forall z y x, 0 <= z < region_depth region -> 0 <= y < region_height region -> 0 <= x < pitch ->
           content !! Z.to_nat (z * slicePitch + y * pitch + x) =
             Some <$> bytes !! Z.to_nat (z * slicePitch + y * pitch + x)))
    (fun _ _ => False) (at_ c o tr).
Proof.
  eapply runs_mono; [eapply (runs_UpdateSubresource (R := fun _ _ => False) region (Some bytes) pitch slicePitch f);
    [exact Hm|exact Hs|done|exact Hf|by intros ? [= <-]]| |done].
  intros hr w (m' & c' & o' & Hw & Hm' & Hs' & Hd & _ & _ & _ & Hres). exists m'. rewrite Hw. cbn [object trace at_ fst snd].
  split; [exact Hm'|]. split; [done|]. split; [done|]. destruct hr; try done.
  - destruct Hres as (? & [= <-] & [-> (b & content & Hheld & Hb & _ & Hrows)]). destruct Hrows as [Hrows|]; [|done].
    right. split; [done|]. split; [done|]. split; [by apply (texture_layout _ _ _ _ Hs')|]. exists b, content.
    split; [done|]. split; [done|]. intros z y x Hz Hy Hx. pose proof (row_range _ _ _ _ _ _ _ Hfit Hz Hy) as (? & ? & ?).
    apply (Hrows z y); [apply elem_of_seqZ; lia..|]. unfold row_at. lia.
  - by destruct Hres.
  - destruct Hres as (_ & -> & -> & Hno). by left.
Qed.

(** C11. A texture that is not mapped is mapped for reading, or there is the error that
    says why not: [E_INVALIDCALL] exactly without an image, [E_INVALIDARG] exactly for
    an image of which there is nothing to read, [E_OUTOFMEMORY] when the driver refuses
    the buffer and no other call is made, and [E_FAIL] when it refuses to map it. If it
    is mapped, the pointer is to memory for one layer of the clamped region (its pitch
    by its height by its depth, modulo 2^64), which stays mapped and unwritten, and
    which the command buffer of the frame ends with copying the clamped region to. The
    copy names as many layers as the region has faces; only one has room. *)
Theorem MapForReading_maps `{AllocatorLaws} `{TextureTypes} `{ImageIO} F c o m tr region f
    (Hm : memory_after tr = Some m) (Hs : sound F c o m) (Hnull : is_null (m_readbackBuffer o) = true)
    (Hf : frame_of c = Some f)
    (empty := GetBytesPerPixel (GetFormat (m_desc o)) = 0 \/ read_size o region = 0) :
  runs (MapForReading region) (fun r w => exists m',
      memory_after (trace w) = Some m' /\ sound F (fst (object w)) (snd (object w)) m' /\ undisturbed F m m' /\
      (r.1.1 = S_OK <-> is_Some r.1.2) /\
      (r.1.1 = E_INVALIDCALL <-> is_null (m_image o) = true) /\
      (r.1.1 = E_INVALIDARG <-> is_null (m_image o) = false /\ empty) /\
      (r.1.2 = None -> read_error o region r.1.1 tr (trace w)) /\
      forall p, r.1.2 = Some p -> r.2 = Some (read_pitch o region) /\
        exists b a, p = Pointer a 0 /\
          bytes_of m' b = Some (replicate (Z.to_nat (read_size o region)) None) /\
          (mappings <$> allocations m' !! a) = Some 1%nat /\
          held f m' = held f m ++ [ImageToBuffer (m_image o) b (copy_of o (ClampToTexture region (m_desc o)))])
    (fun _ _ => False) (at_ c o tr).
Proof.
  eapply runs_mono; [by eapply (runs_MapForReading (R := fun _ _ => False))| |done].
  intros [[hr p] pitch] w (m' & o' & Hw & Hm' & Hs' & Hd & _ & Hres). exists m'. rewrite Hw. cbn [object trace at_ fst snd].
  split; [exact Hm'|]. split; [done|]. split; [done|]. cbn [fst snd]. destruct p as [p|].
  - destruct hr; try done. destruct pitch as [pitch|]; [|done].
    destruct Hres as (b & a & -> & -> & Hb & Ha & Hheld & _ & _ & Hi & Hfull). split; [by split|].
    split; [by rewrite Hi|]. split; [split; [done|by intros [_ ?]]|]. split; [done|]. intros ? [= <-]. split; [done|].
    exists b, a. split; [done|]. split; [|split; [by rewrite Ha|done]]. unfold bytes_of. by rewrite Hb; cbn; rewrite Ha.
  - assert (Herr : read_error o region hr tr (trace w)) by by destruct hr, Hres. clear Hres.
    split; [split; [by intros ->|by intros []]|].
    split; [|split; [|by split]]; unfold empty; destruct hr; try done; cbn in Herr; naive_solver congruence.
Qed.


(** ** Instances *)

#[local] Instance four_bytes : ImageIO := fun _ => 4.

(** Plain images: what the engine says is what it was told. *)
#[local] Instance plain : TextureTypes := {|
  Tr2BitmapDimensions := Z * Z; default_dimensions := (0, 0); new_dimensions _ _ w h _ _ := (w, h);
  GetType _ := TEX_TYPE_2D; GetFormat _ := PIXEL_FORMAT_R8G8B8A8_UNORM; GetWidth := fst; GetHeight := snd;
  GetDepth _ := 1; GetMipCount _ := 1; GetArraySize _ := 1;
  Tr2TextureSubresource := Z * Z; new_subresource _ := (2, 2);
  ClampToTexture region dims := (Z.min region.1 dims.1, Z.min region.2 dims.2);
  region_width := fst; region_height := snd; region_depth _ := 1; GetFaceCount _ := 1;
  m_startMipLevel _ := 0; m_startFace _ := 0; box_left _ := 0; box_top _ := 0; box_front _ := 0;
  format_number _ := 28 |}.

(** A texture of two by two, and how its image came about. *)
Definition small_texture : t :=
  new <| m_desc := (2, 2) : Tr2BitmapDimensions |> <| m_image := 1 |> <| m_allocation := 1 |>
    <| m_format := VK_FORMAT_R8G8B8A8_UNORM |>.
Definition small_texture_made : list event :=
  [Event (vmaCreateImage 1 (mkVkImageCreateInfo [] VK_IMAGE_TYPE_2D VK_FORMAT_R8G8B8A8_UNORM (mkVkExtent3D 2 2 1) 1 1 1 [])
     (mkVmaAllocationCreateInfo None [])) (VK_SUCCESS, Some (1, 1))].

Lemma small_texture_sound : sound [] new_VulkanContext small_texture (place_image 1 1 new_memory).
Proof.
  apply sound_placed_image; try done.
  destruct (new_accounts new_VulkanContext eq_refl) as [Hh Hu]. apply accounts_with_layout. split; [|by constructor].
  apply holds_place; [exact Hh|by apply not_elem_of_dom..].
Qed.

(** Two rows of eight bytes, sixteen apart. *)
Definition two_rows : list byte := replicate 32 x2a.

Lemma two_rows_fit : rows_fit two_rows 8 32 2 1.
Proof. by split. Qed.

Example UpdateSubresource_uploads_witness :
  @runs (with_context t) ALResult (@UpdateSubresource plain (respond calm) (2, 2) (Some two_rows) 8 32)
    (fun hr w => exists m', memory_after (trace w) = Some m' /\ (hr = S_OK \/ hr = E_OUTOFMEMORY)) (fun _ _ => False)
    (at_ new_VulkanContext small_texture small_texture_made).
Proof.
  eapply runs_mono; [eapply (@UpdateSubresource_uploads (respond calm) (respond_allocates calm) plain four_bytes []
    new_VulkanContext small_texture (place_image 1 1 new_memory) small_texture_made (2, 2) two_rows 8 32
    new_VulkanFrameContext); [vm_compute; reflexivity|apply small_texture_sound|done|done|apply two_rows_fit|
    apply calm_maps]|..]; [|done].
  intros hr w (m' & Hm' & _ & _ & Hres). exists m'. split; [exact Hm'|].
  destruct Hres as [[? _]|[? _]]; [by right|by left].
Defined.

Example MapForReading_maps_witness :
  @runs (with_context t) (ALResult * option pointer * option Z) (@MapForReading plain four_bytes (respond calm) (2, 1))
    (fun r w => forall p, r.1.2 = Some p -> r.2 = Some 8) (fun _ _ => False)
    (at_ new_VulkanContext small_texture small_texture_made).
Proof.
  eapply runs_mono; [eapply (@MapForReading_maps (respond calm) (respond_allocates calm) plain four_bytes []
    new_VulkanContext small_texture (place_image 1 1 new_memory) small_texture_made (2, 1)
    new_VulkanFrameContext); [vm_compute; reflexivity|apply small_texture_sound|done|done]|..]; [|done].
  intros r w (m' & _ & _ & _ & _ & _ & _ & _ & Hres) p Hp. by destruct (Hres p Hp) as [-> _].
Defined.

