(* ===== verification/VulkanResourceScenarios.v ===== *)
(** * Uses of buffers, textures and fences that break the rules

    Runs in which what the hypotheses of [VulkanBufferSpec], [VulkanTextureSpec] and
    [VulkanQueriesSpec] exclude happens: why those theorems need them. *)

From Stdlib Require Import Strings.Byte.
From stdpp Require Import base numbers list option strings gmap fin_maps sets.
From S2P Require Import Prelude RenderGraph VulkanFormats Vulkan VulkanContext VulkanUsage VulkanMemory VulkanDriver VulkanObject VulkanBuffer VulkanBufferSpec VulkanQueries VulkanQueriesSpec VulkanTexture VulkanTextureSpec.

#[local] Open Scope Z_scope.

(** What some code returns, and the memory when it is done. *)
Definition memory_left {S A} (r : flow A * world S) : option memory := memory_after (trace r.2).

(** ** Buffers *)

#[local] Abbreviation host_buffer := (VulkanBufferSpec.four_bytes [VK_MEMORY_PROPERTY_HOST_VISIBLE_BIT]).

(** The sum of offset and size wraps around: the update is accepted, and writes
    outside of the buffer. *)
Lemma wrapped_update_overflows
    (run := @Tr2BufferAL.UpdateBuffer (respond calm) 4294967294 4 (Some (hello ++ hello))
       (at_ new_VulkanContext host_buffer four_bytes_made)) :
  run.1 = Next S_OK /\ memory_left run = None.
Proof. by vm_compute. Qed.

(** A driver that maps no memory. *)
Definition is_map {A} (c : vk A) : bool := match c with vmaMapMemory _ _ => true | _ => false end.
Definition maps_nothing : conditions :=
  mkConditions (fun _ _ c => if is_map c then VK_ERROR_OUT_OF_HOST_MEMORY else VK_SUCCESS)
    (fun _ => mkVkExtent2D 800 600).

(** The staging buffer cannot be mapped: the update succeeds, and what is copied is
    what nothing has written. *)
Lemma unmapped_update_succeeds
    (run := @Tr2BufferAL.UpdateBuffer (respond maps_nothing) 0 2 (Some hello)
       (at_ new_VulkanContext (VulkanBufferSpec.four_bytes [VK_MEMORY_PROPERTY_DEVICE_LOCAL_BIT]) four_bytes_made)) :
  run.1 = Next S_OK /\
  exists m b, memory_left run = Some m /\ recorded m !! 0 = Some [BufferToBuffer b 1 (mkVkBufferCopy 0 0 2)] /\
    bytes_of m b = Some [None; None].
Proof. split; [by vm_compute|]. eexists _, 2. split; [vm_compute; reflexivity|]. by split. Qed.

(** ** Textures *)

Import Tr2TextureAL.

#[local] Existing Instances plain VulkanTextureSpec.four_bytes.

(** Mapped for reading twice, the first buffer is never freed. *)
Lemma second_read_leaks
    (run := (@Tr2TextureAL.MapForReading _ _ (respond calm) (2, 2);; @Tr2TextureAL.MapForReading _ _ (respond calm) (2, 2);;
        @Tr2TextureAL.Destroy _ (respond calm)) (at_ new_VulkanContext small_texture small_texture_made)) :
  run.1 = Next tt /\ (allocations <$> memory_left run) = Some {[2 := mkAllocation (replicate 16 None) 1]}.
Proof. by vm_compute. Qed.

(** A texture copied to itself: the image is to be in two layouts at once. *)
Lemma copy_within_texture
    (run := @Tr2TextureAL.CopySubresourceRegion plain (respond calm) 7 (1, 1) 7 (1, 1)
       (at_ new_VulkanContext {[7 := small_texture]} small_texture_made)) :
  run.1 = Next S_OK /\ memory_left run = None.
Proof. by vm_compute. Qed.

(** Two textures: the copy is as it should be. *)
Lemma copy_between_textures
    (run := @Tr2TextureAL.CopySubresourceRegion plain (respond calm) 8 (1, 1) 7 (1, 1)
       (at_ new_VulkanContext {[7 := small_texture; 8 := small_texture <| m_image := 2 |>]}
          (Event (vmaCreateImage 1 (mkVkImageCreateInfo [] VK_IMAGE_TYPE_2D VkFormat.VK_FORMAT_R8G8B8A8_UNORM
             (mkVkExtent3D 2 2 1) 1 1 1 []) (mkVmaAllocationCreateInfo None [])) (VK_SUCCESS, Some (2, 2)) ::
           small_texture_made))) :
  run.1 = Next S_OK /\ (layouts <$> memory_left run) =
    Some {[1 := VK_IMAGE_LAYOUT_TRANSFER_SRC_OPTIMAL; 2 := VK_IMAGE_LAYOUT_TRANSFER_DST_OPTIMAL]}.
Proof. by vm_compute. Qed.

(** ** Freed while a command buffer holds a copy

    The copies of the frame that name a buffer or an image, and whether it is alive. *)
Definition held_and_gone {S A} (r : flow A * world S) (h : resource) : option (bool * bool) :=
  m ← memory_left r;
  Some (existsb (fun x => match x with
    | BufferToBuffer _ b _ => bool_decide (h = ABuffer b)
    | BufferToImage _ i _ => bool_decide (h = AnImage i)
    | ImageToBuffer _ b _ => bool_decide (h = ABuffer b)
    | ImageToImage _ i _ => bool_decide (h = AnImage i)
    end) (default [] (recorded m !! 0)), bool_decide (bound m !! h = None)).

(** A buffer that is updated and destroyed in one frame. *)
Lemma buffer_freed_while_copied
    (run := (@Tr2BufferAL.UpdateBuffer (respond calm) 0 2 (Some hello);; @Tr2BufferAL.Destroy (respond calm))
       (at_ new_VulkanContext (VulkanBufferSpec.four_bytes [VK_MEMORY_PROPERTY_DEVICE_LOCAL_BIT]) four_bytes_made)) :
  run.1 = Next tt /\ held_and_gone run (ABuffer 1) = Some (true, true).
Proof. by vm_compute. Qed.

(** A texture that is read back and unmapped in one frame, or read back where nothing
    can be mapped; and one that is filled and destroyed. *)
Lemma readback_freed_while_copied
    (run := (@Tr2TextureAL.MapForReading _ _ (respond calm) (2, 2);; @Tr2TextureAL.UnmapForReading _ (respond calm))
       (at_ new_VulkanContext small_texture small_texture_made))
    (run' := @Tr2TextureAL.MapForReading _ _ (respond maps_nothing) (2, 2)
       (at_ new_VulkanContext small_texture small_texture_made)) :
  run.1 = Next tt /\ held_and_gone run (ABuffer 2) = Some (true, true) /\
  run'.1 = Next (E_FAIL, None, Some 8) /\ held_and_gone run' (ABuffer 2) = Some (true, true).
Proof. by vm_compute. Qed.

Lemma image_freed_while_copied
    (run := (@Tr2TextureAL.UpdateSubresource plain (respond calm) (2, 2) (Some two_rows) 8 32;;
        @Tr2TextureAL.Destroy _ (respond calm)) (at_ new_VulkanContext small_texture small_texture_made)) :
  run.1 = Next tt /\ held_and_gone run (AnImage 1) = Some (true, true).
Proof. by vm_compute. Qed.

(** ** Fences *)

Definition is_signal {A} (c : vk A) : bool := match c with vkQueueSubmitSignal _ _ _ => true | _ => false end.

(** The first signal is submitted, later ones are not. *)
Definition one_signal : conditions :=
  mkConditions (fun _ tr c =>
    if is_signal c && existsb (fun e => is_signal (ev_call e)) tr then VK_ERROR_OUT_OF_HOST_MEMORY else VK_SUCCESS)
    (fun _ => mkVkExtent2D 800 600).

(** A fence that was put, and then could not be put again, waits for a value that
    nothing will signal. *)
Lemma refused_fence_waits
    (run := (@Tr2FenceAL.Create (respond one_signal);; @Tr2FenceAL.PutFence (respond one_signal);;
        @Tr2FenceAL.PutFence (respond one_signal);; @Tr2FenceAL.Wait (respond one_signal))
       (mkWorld (new_VulkanContext, Tr2FenceAL.new) [])) :
  exists d s r tr, trace run.2 = Event (vkWaitSemaphores d s 2) r :: tr /\ submitted_values s tr = [1].
Proof. eexists _, _, _, _. split; [vm_compute; reflexivity|]. by vm_compute. Qed.
