(* ===== verification/VulkanResourceSet.v ===== *)
(** * Resource sets

    [src/src/trinityal-vulkan/Tr2ResourceSetALVulkan.cpp]: the descriptors of the
    buffers, textures and samplers that the shaders of a program read. The code
    collects them in three vectors and what is to be written in a fourth, which points
    into the three: a vector is a block of memory, with the room in it, that grows by
    moving to another block, and a pointer into a block that has been left is not one
    to read through. Messages of the log are left out. *)

From stdpp Require Import base numbers list option strings gmap.
From S2P Require Import Prelude RenderGraph VulkanFormats Vulkan VulkanContext VulkanUsage VulkanMemory VulkanObject VulkanBuffer VulkanTexture VulkanPipelines.
Import VkFormat.

#[local] Open Scope string_scope.
#[local] Open Scope list_scope.
#[local] Open Scope Z_scope.

Definition VK_OBJECT_TYPE_DESCRIPTOR_SET : Z := 23.

(** ** Vectors

    How much room a vector has after [reserve], which is enough, and after it has
    grown. *)
Class VectorGrowth :=
  { reserved : nat -> nat; grown : nat -> nat -> nat; reserved_enough n : (n <= reserved n)%nat }.

Record vector := mkVector { block : nat; room : nat; contents : list descriptor }.
#[export] Instance vector_eta : Eta vector := fun v => mkVector (block v) (room v) (contents v).

Definition reserve `{VectorGrowth} (n : nat) : vector := mkVector 0 (reserved n) [].

Definition append `{VectorGrowth} (ds : list descriptor) (v : vector) : vector :=
  let all := contents v ++ ds in
  if (length all <=? room v)%nat then v <| contents := all |>
  else mkVector (S (block v)) (grown (room v) (length all)) all.

(** [n] elements of an array at [index] in a block. *)
Definition read_block (v : vector) (b index n : nat) : option (list descriptor) :=
  guard (b = block v);; guard (index + n <= length (contents v))%nat;;
  Some (take n (drop index (contents v))).

(** ** What a set is made of *)

Section set.
Context `{TextureTypes} `{ShaderTypes}.

Inductive Resource :=
| BUFFER (buffer : Tr2BufferAL.t)
| TEXTURE (texture : Tr2TextureAL.t) (colorSpace : ColorSpace) (mip : Z)
| RESOURCE_OTHER.
Inductive SamplerEntry := SAMPLER (sampler : Tr2SamplerStateAL.t) | SAMPLER_OTHER.

Record Tr2ResourceSetDescriptionAL := mkTr2ResourceSetDescriptionAL
  { m_registerMap : Tr2RegisterMapAL; m_srv : list Resource; m_uav : list Resource;
    m_samplers : list SamplerEntry }.

Definition buffer_descriptor (buffer : Tr2BufferAL.t) : descriptor :=
  let '(b, offset, range) := Tr2BufferAL.GetDescriptorInfo buffer in
  DescribesBuffer (mkVkDescriptorBufferInfo b offset range).

(** A sampler alone, or none. *)
Definition sampler_descriptor (sampler : VkHandle) : descriptor :=
  DescribesImage (mkVkDescriptorImageInfo sampler VK_NULL_HANDLE VK_IMAGE_LAYOUT_UNDEFINED).

(** *** The writes of a register *)

Inductive info_array := BufferInfos | ImageInfos | SamplerInfos.

(** What is written, and the array it is collected in. *)
Record intent := mkIntent
  { i_array : info_array; i_binding : Z; i_element : Z; i_type : VkDescriptorType;
    i_descriptors : list descriptor }.

(** The sampler of a register, if it is registered. *)
Definition register_sampler (d : Tr2ResourceSetDescriptionAL) (stage reg : nat) : option (option VkHandle) :=
  let map := m_registerMap d in
  if samplers map stage reg <? samplerCount map then
    entry ← m_samplers d !! Z.to_nat (samplers map stage reg);
    Some (match entry with SAMPLER sampler => Some (Tr2SamplerStateAL.GetSampler sampler) | SAMPLER_OTHER => None end)
  else Some None.

Definition srv_writes (d : Tr2ResourceSetDescriptionAL) (stage reg : nat) : option (list intent) :=
  let map := m_registerMap d in
  let srvIndex := srvs map stage reg in
  if negb (srvIndex <? srvCount map) then Some [] else
  resource ← m_srv d !! Z.to_nat srvIndex;
  match resource with
  | BUFFER buffer =>
      Some [mkIntent BufferInfos BINDING_SRV srvIndex VK_DESCRIPTOR_TYPE_UNIFORM_BUFFER [buffer_descriptor buffer]]
  | TEXTURE texture colorSpace _ =>
      let '(layout, view) := Tr2TextureAL.GetDescriptorInfo texture colorSpace in
      sampler ← register_sampler d stage reg;
      let info := mkVkDescriptorImageInfo (default VK_NULL_HANDLE sampler) view layout in
      Some [mkIntent ImageInfos BINDING_SRV 0 VK_DESCRIPTOR_TYPE_COMBINED_IMAGE_SAMPLER
        (replicate MAX_RESOURCES_IN_STAGE (DescribesImage info))]
  | RESOURCE_OTHER => Some []
  end.

Definition uav_writes (d : Tr2ResourceSetDescriptionAL) (stage reg : nat) : option (list intent) :=
  let map := m_registerMap d in
  let uavIndex := uavs map stage reg in
  if negb (uavIndex <? uavCount map) then Some [] else
  resource ← m_uav d !! Z.to_nat uavIndex;
  match resource with
  | BUFFER buffer =>
      Some [mkIntent BufferInfos BINDING_UAV uavIndex VK_DESCRIPTOR_TYPE_STORAGE_BUFFER [buffer_descriptor buffer]]
  | TEXTURE texture _ mip =>
      Some [mkIntent ImageInfos BINDING_UAV uavIndex VK_DESCRIPTOR_TYPE_STORAGE_IMAGE
        [DescribesImage (mkVkDescriptorImageInfo VK_NULL_HANDLE
          (Tr2TextureAL.GetUavView texture mip) VK_IMAGE_LAYOUT_GENERAL)]]
  | RESOURCE_OTHER => Some []
  end.

Definition sampler_writes (d : Tr2ResourceSetDescriptionAL) (stage reg : nat) : option (list intent) :=
  sampler ← register_sampler d stage reg;
  Some (match sampler with
    | Some h => [mkIntent SamplerInfos BINDING_SAMPLER 0 VK_DESCRIPTOR_TYPE_SAMPLER
        (replicate MAX_RESOURCES_IN_STAGE (sampler_descriptor h))]
    | None => []
    end).

Definition register_writes (d : Tr2ResourceSetDescriptionAL) (stage reg : nat) : option (list intent) :=
  srv ← srv_writes d stage reg;
  uav ← uav_writes d stage reg;
  sampler ← sampler_writes d stage reg;
  Some (srv ++ uav ++ sampler).

(** *** Collecting them *)

(** A write that points to [pw_count] elements of an array. *)
Record pending_write := mkPendingWrite
  { pw_binding : Z; pw_element : Z; pw_type : VkDescriptorType; pw_array : info_array;
    pw_block : nat; pw_index : nat; pw_count : nat }.

Record arrays := mkArrays
  { writes : list pending_write; bufferInfos : vector; imageInfos : vector; samplerInfos : vector }.
#[export] Instance arrays_eta : Eta arrays := fun a =>
  mkArrays (writes a) (bufferInfos a) (imageInfos a) (samplerInfos a).

Definition array_of (k : info_array) (a : arrays) : vector :=
  match k with BufferInfos => bufferInfos a | ImageInfos => imageInfos a | SamplerInfos => samplerInfos a end.
Definition set_array (k : info_array) (v : vector) (a : arrays) : arrays :=
  match k with
  | BufferInfos => a <| bufferInfos := v |>
  | ImageInfos => a <| imageInfos := v |>
  | SamplerInfos => a <| samplerInfos := v |>
  end.

Context `{VectorGrowth}.

Definition new_arrays : arrays :=
  mkArrays [] (reserve 8) (reserve (MAX_RESOURCES_IN_STAGE + 8)) (reserve MAX_RESOURCES_IN_STAGE).

Definition push_write (a : arrays) (i : intent) : arrays :=
  let before := array_of (i_array i) a in
  let after := append (i_descriptors i) before in
  (set_array (i_array i) after a) <| writes ::= fun ws => ws ++
    [mkPendingWrite (i_binding i) (i_element i) (i_type i) (i_array i)
      (block after) (length (contents before)) (length (i_descriptors i))] |>.

(** The registers in the order of the loops. *)
Definition all_registers : list (nat * nat) :=
  stage ← seq 0 SHADER_TYPE_COUNT; reg ← seq 0 MAX_RESOURCES_IN_STAGE; [(stage, reg)].

Fixpoint collect (d : Tr2ResourceSetDescriptionAL) (registers : list (nat * nat)) (a : arrays) : option arrays :=
  match registers with
  | [] => Some a
  | (stage, reg) :: registers =>
      intents ← register_writes d stage reg;
      collect d registers (foldl push_write a intents)
  end.

(** What is read through the pointers of the writes. *)
Definition resolve (a : arrays) (set : VkHandle) : option (list VkWriteDescriptorSet) :=
  mapM (fun w =>
    ds ← read_block (array_of (pw_array w) a) (pw_block w) (pw_index w) (pw_count w);
    Some (mkVkWriteDescriptorSet set (pw_binding w) (pw_element w) (pw_type w) ds)) (writes a).
End set.

(** ** The object *)

Module Tr2ResourceSetAL.

Record t := mk
  { m_isValid : bool; m_descriptorSet : VkHandle; m_layout : VkHandle; m_device : VkHandle; m_pool : VkHandle }.
#[export] Instance t_eta : Eta t := fun o =>
  mk (m_isValid o) (m_descriptorSet o) (m_layout o) (m_device o) (m_pool o).
Definition new : t := mk false 0 0 0 0.

Section code.
Context `{Driver} `{TextureTypes} `{ShaderTypes} `{VectorGrowth} `{!RegisterMaps}.
Abbreviation C := (Code (with_context t)).

Definition Create (description : Tr2ResourceSetDescriptionAL) (program : Tr2ShaderProgramAL.t) : C ALResult :=
  s ← in_context (get id);
  pool ← in_context GetCurrentDescriptorPool;
  assign (fun o => o <| m_device := device s |> <| m_pool := pool |>
    <| m_layout := Tr2ShaderProgramAL.GetDescriptorSetLayout program |>);;
  o ← member id;
  result ← out_member (fun h o => o <| m_descriptorSet := h |>)
    (vkAllocateDescriptorSets (m_device o) (m_pool o) (m_layout o));
  if negb (succeeded result) then mret E_FAIL else
  match collect description all_registers new_arrays with
  | None => wrong
  | Some a =>
      o ← member id;
      (match writes a with
       | [] => mret tt
       | _ => match resolve a (m_descriptorSet o) with
              | None => wrong
              | Some ws => call (vkUpdateDescriptorSets (m_device o) ws)
              end
       end);;
      assign (fun o => o <| m_isValid := true |>);;
      mret S_OK
  end.

Definition Destroy : C unit :=
  o ← member id;
  (if is_null (m_descriptorSet o) || is_null (m_pool o) then mret tt else
     call (vkFreeDescriptorSets (m_device o) (m_pool o) (m_descriptorSet o));;
     assign (fun o => o <| m_descriptorSet := VK_NULL_HANDLE |>));;
  assign (fun o => o <| m_isValid := false |>).

Definition SetName (name : option string) : C ALResult :=
  name_object m_device m_descriptorSet VK_OBJECT_TYPE_DESCRIPTOR_SET name.

End code.

Definition IsValid (o : t) : bool := m_isValid o.
Definition Describe (description : Description) : Description := <["type" := "resource_set"]> description.
Definition GetDescriptorSet (o : t) : VkHandle := m_descriptorSet o.
Definition GetLayout (o : t) : VkHandle := m_layout o.

End Tr2ResourceSetAL.
