(* ===== verification/VulkanPresentation.v ===== *)
(** * Other swap chains, and adapters

    [src/src/trinityal-vulkan/Tr2SwapChainALVulkan.cpp], the swap chain of a window of its
    own, and [Tr2VideoAdapterInfoALVulkan.cpp], what is said about the devices there are.
    The texture of a swap chain is taken to be its own: no other wrapper refers to it, so
    that it is destroyed when the swap chain is given another. *)

From Stdlib Require Import Ascii.
From stdpp Require Import base numbers list option strings gmap.
From S2P Require Import Prelude RenderGraph VulkanFormats Vulkan VulkanContext VulkanUsage VulkanMemory VulkanObject VulkanTexture.
Import VkFormat.

#[local] Open Scope string_scope.
#[local] Open Scope list_scope.
#[local] Open Scope Z_scope.

Module Tr2SwapChainAL.
#[local] Existing Instance Tr2TextureAL.t_eta.

Section swap_chain.
Context `{TextureTypes}.

Record t := mk { m_backBuffer : Tr2TextureAL.t; m_windowHandle : VkHandle; m_device : VkHandle }.
#[export] Instance t_eta : Eta t := fun o => mk (m_backBuffer o) (m_windowHandle o) (m_device o).
Definition new : t := mk Tr2TextureAL.new VK_NULL_HANDLE VK_NULL_HANDLE.

Context `{Driver}.
Abbreviation C := (Code (with_context t)).

(** An answer, or [E_FAIL] after [undo]. *)
Definition checked {A} (undo : C unit) (c : vk (VkResult * A)) : C A :=
  r ← call c; if succeeded r.1 then mret r.2 else undo;; early E_FAIL.

(** The two calls of an enumeration into a new array. *)
Definition enumerated_all {A} (undo : C unit) (f : capacity -> vk (enumerated A)) (unset : A) : C (list A) :=
  first ← checked undo (f None);
  second ← checked undo (f (Some first.1));
  mret (fill (replicate first.1 unset) second.2).

Definition select_format (formats : list VkSurfaceFormatKHR) : VkSurfaceFormatKHR :=
  default (default (mkVkSurfaceFormatKHR VK_FORMAT_UNDEFINED VK_COLOR_SPACE_SRGB_NONLINEAR_KHR) (head formats))
    (List.find (fun f => bool_decide (sf_format f = VK_FORMAT_B8G8R8A8_UNORM) &&
       bool_decide (sf_colorSpace f = VK_COLOR_SPACE_SRGB_NONLINEAR_KHR)) formats).

Definition select_extent (caps : VkSurfaceCapabilitiesKHR) : VkExtent2D :=
  let extent := currentExtent caps in
  if (extent_width extent =? 0) || (extent_height extent =? 0) then mkVkExtent2D 800 600 else extent.

Definition swapchain_info (caps : VkSurfaceCapabilitiesKHR) (surface : VkHandle) (format : VkSurfaceFormatKHR)
    : VkSwapchainCreateInfoKHR :=
  mkVkSwapchainCreateInfoKHR surface (swapchain_image_count caps) (sf_format format) (sf_colorSpace format)
    (select_extent caps) (currentTransform caps) VK_PRESENT_MODE_FIFO_KHR VK_SHARING_MODE_EXCLUSIVE VK_NULL_HANDLE.

(** The texture of [image], before it has a view. *)
Definition back_buffer (device allocator image : VkHandle) (format : VkFormat.type) (extent : VkExtent2D) : Tr2TextureAL.t :=
  Tr2TextureAL.new
    <| Tr2TextureAL.m_desc :=
         new_dimensions TEX_TYPE_2D (ConvertVkFormat format) (extent_width extent) (extent_height extent) 1 1 |>
    <| Tr2TextureAL.m_samples := 1 |>
    <| Tr2TextureAL.m_gpuUsage := fun u => match u with RENDER_TARGET => true | _ => false end |>
    <| Tr2TextureAL.m_cpuUsage := Tr2TextureAL.no_usage |> <| Tr2TextureAL.m_device := device |>
    <| Tr2TextureAL.m_allocator := allocator |> <| Tr2TextureAL.m_format := format |>
    <| Tr2TextureAL.m_layout := VK_IMAGE_LAYOUT_UNDEFINED |> <| Tr2TextureAL.m_image := image |>.

(** The texture that there was is destroyed. *)
Definition set_back_buffer (x : Tr2TextureAL.t) : C unit :=
  in_member m_backBuffer (fun y o => o <| m_backBuffer := y |>) Tr2TextureAL.Destroy;;
  assign (fun o => o <| m_backBuffer := x |>).

(** A texture that no member refers to is deleted. *)
Definition delete_texture (x : Tr2TextureAL.t) : C unit :=
  in_member (fun _ => x) (fun _ o => o) Tr2TextureAL.Destroy.

Definition deferred_swapchain (device allocator timelineValue swapchain : VkHandle) : VulkanDeferredDestroy :=
  mkVulkanDeferredDestroy device allocator timelineValue 0 0 0 0 0 0 0 0 0 swapchain 0 0 0.

Definition Create (windowHandle : VkHandle) : C ALResult := function (
  s ← in_context (get id);
  let d := device s in
  assign (fun o => o <| m_windowHandle := windowHandle |> <| m_device := d |>);;
  if is_null windowHandle then mret E_INVALIDARG else
  created ← checked (mret tt) (vkCreateWin32SurfaceKHR (instance s) windowHandle);
  let surface := default VK_NULL_HANDLE created in
  let drop_surface := call (vkDestroy SurfaceKHR (instance s) surface) in
  caps ← checked drop_surface (vkGetPhysicalDeviceSurfaceCapabilitiesKHR (physicalDevice s) surface);
  formats ← enumerated_all drop_surface (vkGetPhysicalDeviceSurfaceFormatsKHR (physicalDevice s) surface)
    (mkVkSurfaceFormatKHR VK_FORMAT_UNDEFINED VK_COLOR_SPACE_SRGB_NONLINEAR_KHR);
  modes ← enumerated_all drop_surface (vkGetPhysicalDeviceSurfacePresentModesKHR (physicalDevice s) surface)
    VK_PRESENT_MODE_IMMEDIATE_KHR;
  let format := select_format formats in
  created ← checked drop_surface (vkCreateSwapchainKHR d (swapchain_info caps surface format));
  let swapchain := default VK_NULL_HANDLE created in
  let drop_both := call (vkDestroy SwapchainKHR d swapchain);; drop_surface in
  images ← enumerated_all drop_both (vkGetSwapchainImagesKHR d swapchain) VK_NULL_HANDLE;
  match images with
  | [] => wrong
  | image :: _ =>
      let backBuffer := back_buffer d (allocator s) image (sf_format format) (select_extent caps) in
      view ← call (vkCreateImageView d (mkVkImageViewCreateInfo image VK_IMAGE_VIEW_TYPE_2D (sf_format format)
        (whole_image VK_IMAGE_ASPECT_COLOR_BIT)));
      let backBuffer := backBuffer <| Tr2TextureAL.m_linearView := default VK_NULL_HANDLE view.2 |> in
      if negb (succeeded view.1) then delete_texture backBuffer;; drop_both;; mret E_FAIL else
      set_back_buffer backBuffer;;
      v ← in_context GetCurrentTimelineValue;
      in_context (Retire (deferred_swapchain d (allocator s) v swapchain));;
      mret S_OK
  end).

Definition Destroy : C unit := set_back_buffer Tr2TextureAL.new.

Definition IsValid (o : t) : bool := Tr2TextureAL.IsValid (m_backBuffer o).
Definition Present : ALResult := S_OK.
Definition Width (o : t) : Z := GetWidth (Tr2TextureAL.m_desc (m_backBuffer o)).
Definition Height (o : t) : Z := GetHeight (Tr2TextureAL.m_desc (m_backBuffer o)).
Definition Describe (description : Description) : Description := <["type" := "swapchain"]> description.
Definition SetName : ALResult := S_OK.
End swap_chain.
Arguments t _ : assert.
End Tr2SwapChainAL.

(** ** Adapters

    The array [s_adapters] is what the code runs on. *)

Module Tr2VideoAdapterInfo.

Record AdapterRecord := mkAdapterRecord { adapter_device : VkHandle; adapter_properties : VkPhysicalDeviceProperties }.

(** A wide character is 16 bits, and a character has a sign. *)
Definition wide (c : ascii) : Z :=
  let n := Z.of_nat (nat_of_ascii c) in wrap_u 16 (if n <? 128 then n else n - 256).

Record Tr2AdapterInfo := mkTr2AdapterInfo
  { info_driver : string; info_description : list Z; info_deviceName : string; info_driverVersion : Z;
    info_vendorID : Z; info_deviceID : Z; info_subSystemID : Z; info_revision : Z;
    info_deviceIdentifier : Z * Z * Z }.

Record Tr2DisplayModeInfo := mkTr2DisplayModeInfo
  { mode_width : Z; mode_height : Z; refreshRateNumerator : Z; refreshRateDenominator : Z;
    mode_format : PixelFormat }.

Definition info_of (p : VkPhysicalDeviceProperties) : Tr2AdapterInfo :=
  mkTr2AdapterInfo "Vulkan" (wide <$> String.list_ascii_of_string (deviceName p)) (deviceName p) (driverVersion p)
    (vendorID p) (deviceID p) 0 (apiVersion p)
    (vendorID p, Z.land (deviceID p) 0xffff, Z.land (Z.shiftr (deviceID p) 16) 0xffff).

Section adapters.
Context `{Driver}.
Abbreviation C := (Code (list AdapterRecord)).

Definition add_adapter (device : VkHandle) : C unit :=
  properties ← call (vkGetPhysicalDeviceProperties device);
  update (fun l => l ++ [mkAdapterRecord device properties]).

Definition RefreshAdapters : C ALResult :=
  update (fun _ => []);;
  created ← call (vkCreateInstance [] []);
  if negb (succeeded created.1) then mret E_FAIL else
  let instance := default VK_NULL_HANDLE created.2 in
  let drop_instance := call (vkDestroy Instance VK_NULL_HANDLE instance) in
  first ← call (vkEnumeratePhysicalDevices instance None);
  if negb (succeeded first.1) then drop_instance;; mret E_FAIL else
  second ← call (vkEnumeratePhysicalDevices instance (Some first.2.1));
  if negb (succeeded second.1) then drop_instance;; mret E_FAIL else
  for_each add_adapter (fill (replicate first.2.1 VK_NULL_HANDLE) second.2.2);;
  drop_instance;;
  mret S_OK.

Definition GetAdapterCount : C (ALResult * Z) :=
  result ← RefreshAdapters;
  if FAILED result then mret (result, 0) else
  adapters ← this id;
  mret (S_OK, u32 (Z.of_nat (length adapters))).

Definition RefreshData : C ALResult := RefreshAdapters.
End adapters.

Implicit Types adapters : list AdapterRecord.

Definition adapter_at adapters (adapterIndex : Z) : option AdapterRecord := adapters !! Z.to_nat adapterIndex.

Definition GetAdapterInfo adapters (adapterIndex : Z) : ALResult * option Tr2AdapterInfo :=
  match adapter_at adapters adapterIndex with
  | Some record => (S_OK, Some (info_of (adapter_properties record)))
  | None => (E_INVALIDARG, None)
  end.

Definition GetAdapterMaxTextureWidth adapters (adapterIndex : Z) : ALResult * option Z :=
  match adapter_at adapters adapterIndex with
  | Some record => (S_OK, Some (limits_maxImageDimension2D (adapter_properties record)))
  | None => (E_INVALIDARG, None)
  end.

Definition GetAdapterMonitor : ALResult * option pointer := (S_OK, None).
Definition GetAdapterDisplayMode : ALResult * Tr2DisplayModeInfo :=
  (S_OK, mkTr2DisplayModeInfo 0 0 0 0 PIXEL_FORMAT_B8G8R8A8_UNORM).
Definition GetAdapterModeCount : ALResult * Z := (S_OK, 0).
Definition GetAdapterMode : ALResult := E_INVALIDARG.
Definition SupportsBackBufferFormat (format : PixelFormat) : bool :=
  negb (bool_decide (ConvertPixelFormat format = VK_FORMAT_UNDEFINED)).
Definition SupportsRenderTargetFormat (format : PixelFormat) : bool :=
  negb (bool_decide (ConvertPixelFormat format = VK_FORMAT_UNDEFINED)).
Definition AreAdaptersDifferent (adapter1 adapter2 : Z) : bool := negb (adapter1 =? adapter2).
End Tr2VideoAdapterInfo.
