(* ===== verification/VulkanPresentationSpec.v ===== *)
(** * What other swap chains and adapters leave

    What was created and not destroyed is followed as a stack. The creation of a swap
    chain that fails leaves nothing behind; one that succeeds leaves a surface that
    nothing refers to, and has the swap chain wait for destruction already. The list of
    adapters is that of the last enumeration, of an instance that is gone. *)

From stdpp Require Import base numbers list option strings gmap.
From S2P Require Import Prelude RenderGraph VulkanFormats Vulkan VulkanContext VulkanUsage VulkanMemory VulkanPipelineRules VulkanDriver VulkanObject VulkanTexture VulkanTextureSpec VulkanPresentation.
Import VkFormat.

#[local] Open Scope Z_scope.

(** ** What was created *)

#[export] Instance object_kind_eq_dec : EqDecision object_kind.
Proof. solve_decision. Defined.

Definition an_object : Type := object_kind * VkHandle.

Definition given (kind : object_kind) (r : created) : option an_object :=
  match r with (VK_SUCCESS, Some h) => Some (kind, h) | _ => None end.

Definition created_by (e : event) : option an_object :=
  match ev_call e in vk A return A -> option an_object with
  | vkCreateInstance _ _ => given Instance
  | vkCreateWin32SurfaceKHR _ _ => given SurfaceKHR
  | vkCreateSwapchainKHR _ _ => given SwapchainKHR
  | vkCreateImageView _ _ => given ImageView
  | _ => fun _ => None
  end (ev_answer e).

Definition destroyed_by (e : event) : option an_object :=
  match ev_call e with vkDestroy kind _ h => Some (kind, h) | _ => None end.

Fixpoint remove_one (x : an_object) (l : list an_object) : list an_object :=
  match l with
  | [] => []
  | y :: l => if bool_decide (x = y) then l else y :: remove_one x l
  end.

(** The instances, surfaces, swap chains and views that are alive, the latest first. *)
Fixpoint outstanding (tr : list event) : list an_object :=
  match tr with
  | [] => []
  | e :: earlier =>
      let alive := outstanding earlier in
      match created_by e, destroyed_by e with
      | Some x, _ => x :: alive
      | None, Some x => remove_one x alive
      | None, None => alive
      end
  end.

(** A creation that succeeds writes a handle, and a view that is refused none; the
    surface has images. *)
Class PresentationLaws `{Driver} :=
  { instance_given tr ls es : (answer tr (vkCreateInstance ls es)).1 = VK_SUCCESS -> is_Some (answer tr (vkCreateInstance ls es)).2;
    surface_given tr i w : (answer tr (vkCreateWin32SurfaceKHR i w)).1 = VK_SUCCESS -> is_Some (answer tr (vkCreateWin32SurfaceKHR i w)).2;
    chain_given tr d info : (answer tr (vkCreateSwapchainKHR d info)).1 = VK_SUCCESS -> is_Some (answer tr (vkCreateSwapchainKHR d info)).2;
    view_given tr d info : (answer tr (vkCreateImageView d info)).1 = VK_SUCCESS -> is_Some (answer tr (vkCreateImageView d info)).2;
    view_refused tr d info : tidy (answer tr (vkCreateImageView d info));
    has_images tr d sc : (answer tr (vkGetSwapchainImagesKHR d sc None)).1 = VK_SUCCESS ->
      ((answer tr (vkGetSwapchainImagesKHR d sc None)).2.1 > 0)%nat }.

Lemma outstanding_destroyed kind d h tr l :
  outstanding tr = (kind, h) :: l -> outstanding (Event (vkDestroy kind d h) tt :: tr) = l.
Proof. intros Hl. cbn. rewrite Hl. cbn. by rewrite bool_decide_eq_true_2. Qed.

Section chains.
Context `{PresentationLaws} `{TextureTypes}.
Import Tr2SwapChainAL.
#[local] Existing Instance Tr2TextureAL.t_eta.
Implicit Types (c : VulkanContext) (o : t) (tr : list event).

Lemma runs_checked {c o tr A} undo (e : vk (VkResult * A)) (Q : A -> world (with_context t) -> Prop) R :
  (forall a, answer tr e = (VK_SUCCESS, a) -> Q a (mkWorld (c, o) (Event e (VK_SUCCESS, a) :: tr))) ->
  (forall r a, r <> VK_SUCCESS -> runs undo (fun _ => R E_FAIL) R (mkWorld (c, o) (Event e (r, a) :: tr))) ->
  runs (checked undo e) Q R (mkWorld (c, o) tr).
Proof.
  intros HQ HR. unfold checked. apply runs_bind, runs_call. intros [r a] Ha. cbn [object trace fst snd].
  unfold succeeded. case_bool_decide as Hr.
  - subst r. apply runs_ret, HQ. done.
  - apply runs_bind. eapply runs_mono; [by apply HR| |done]. intros [] w Hw. by apply runs_early.
Qed.

(** An enumeration changes nothing that is alive. *)
Lemma runs_enumerated_all {c o tr A l} undo (f : capacity -> vk (enumerated A)) unset
    (Q : list A -> world (with_context t) -> Prop) R :
  outstanding tr = l ->
  (forall room a tr, outstanding (Event (f room) a :: tr) = outstanding tr) ->
  (forall n m written tr', answer tr (f None) = (VK_SUCCESS, n) -> outstanding tr' = l -> tr ⊆ tr' ->
     Event (f (Some n.1)) (VK_SUCCESS, (m, written)) ∈ tr' ->
     Q (fill (replicate n.1 unset) written) (mkWorld (c, o) tr')) ->
  (forall tr', outstanding tr' = l -> runs undo (fun _ => R E_FAIL) R (mkWorld (c, o) tr')) ->
  runs (enumerated_all undo f unset) Q R (mkWorld (c, o) tr).
Proof.
  intros Hl Hf HQ HR. unfold enumerated_all. apply runs_bind, runs_checked.
  2: { intros r a _. apply HR. by rewrite Hf. }
  intros n Hn. apply runs_bind, runs_checked.
  2: { intros r a _. apply HR. by rewrite !Hf. }
  intros [m xs] _. apply runs_ret. eapply HQ; [exact Hn|by rewrite !Hf|set_solver|left].
Qed.

(** A texture without a view, a memory or a buffer to read back has nothing to destroy. *)
Lemma runs_Destroy_nothing {c x tr} (Q : unit -> world (with_context Tr2TextureAL.t) -> Prop) R :
  Tr2TextureAL.m_linearView x = VK_NULL_HANDLE -> Tr2TextureAL.m_srgbView x = VK_NULL_HANDLE ->
  Tr2TextureAL.m_uavView x = VK_NULL_HANDLE -> Tr2TextureAL.m_readbackBuffer x = VK_NULL_HANDLE ->
  Tr2TextureAL.m_allocation x = VK_NULL_HANDLE ->
  (forall x', Q tt (mkWorld (c, x') tr)) -> runs Tr2TextureAL.Destroy Q R (mkWorld (c, x) tr).
Proof.
  destruct x as [? ? ? ? [|?|?] ? ? ? ? ? ? ? ? [] ? ? ? ? ? ?]. all: cbn; intros -> -> -> -> -> HQ; unfold runs; lazy; apply HQ.
Qed.

Lemma runs_set_back_buffer {c o tr} x (Q : unit -> world (with_context t) -> Prop) R :
  m_backBuffer o = Tr2TextureAL.new -> Q tt (mkWorld (c, o <| m_backBuffer := x |>) tr) ->
  runs (set_back_buffer x) Q R (mkWorld (c, o) tr).
Proof.
  intros Ho HQ. unfold set_back_buffer. apply runs_bind, runs_in_member. cbn [object trace fst snd]. rewrite Ho.
  apply runs_Destroy_nothing; try done.
Qed.

Lemma runs_Retire_room {c tr} e (Q : unit -> world VulkanContext -> Prop) R :
  Z.of_nat (length (m_deferred c)) < MAX_DEFERRED_ENTRIES ->
  Q tt (mkWorld (c <| m_deferred ::= fun es => es ++ [e] |>) tr) -> runs (Retire e) Q R (mkWorld c tr).
Proof.
  intros Hlen HQ. unfold Retire. apply runs_bind, runs_this, runs_bind. cbn [object].
  rewrite (proj2 (Z.leb_gt _ _)) by done. apply runs_ret, runs_update. exact HQ.
Qed.

(** The surface of a window; its swap chain, with the capabilities of the surface and a
    format of those it lists; the first of the images of the chain; and its view. *)
Record made_for c (windowHandle : VkHandle) tr (surface swapchain image view : VkHandle) (x : Tr2TextureAL.t) : Prop := mk_made_for
  { md_surface : Event (vkCreateWin32SurfaceKHR (instance (state c)) windowHandle) (VK_SUCCESS, Some surface) ∈ tr;
    md_chain : exists caps formats n m,
      let format := select_format (fill (replicate n (mkVkSurfaceFormatKHR VK_FORMAT_UNDEFINED VK_COLOR_SPACE_SRGB_NONLINEAR_KHR)) formats) in
      Event (vkGetPhysicalDeviceSurfaceCapabilitiesKHR (physicalDevice (state c)) surface) (VK_SUCCESS, caps) ∈ tr /\
      Event (vkGetPhysicalDeviceSurfaceFormatsKHR (physicalDevice (state c)) surface (Some n)) (VK_SUCCESS, (m, formats)) ∈ tr /\
      Event (vkCreateSwapchainKHR (device (state c)) (swapchain_info caps surface format)) (VK_SUCCESS, Some swapchain) ∈ tr /\
      Event (vkCreateImageView (device (state c)) (mkVkImageViewCreateInfo image VK_IMAGE_VIEW_TYPE_2D (sf_format format)
        (whole_image VK_IMAGE_ASPECT_COLOR_BIT))) (VK_SUCCESS, Some view) ∈ tr /\
      x = (back_buffer (device (state c)) (allocator (state c)) image (sf_format format) (select_extent caps))
        <| Tr2TextureAL.m_linearView := view |>;
    md_image : exists n m written,
      Event (vkGetSwapchainImagesKHR (device (state c)) swapchain (Some n)) (VK_SUCCESS, (m, written)) ∈ tr /\
      head (fill (replicate n VK_NULL_HANDLE) written) = Some image }.

(** What the creation of a swap chain leaves of [c] and of what was outstanding in [l]. *)
Definition settled c (f : VulkanFrameContext) (windowHandle : VkHandle) (l : list an_object) (hr : ALResult)
    (w : world (with_context t)) : Prop :=
  if bool_decide (hr = S_OK) then
    exists surface swapchain view image,
      outstanding (trace w) = (ImageView, view) :: (SwapchainKHR, swapchain) :: (SurfaceKHR, surface) :: l /\
      made_for c windowHandle (trace w) surface swapchain image view (m_backBuffer (snd (object w))) /\
      m_deferred (fst (object w)) =
        m_deferred c ++ [deferred_swapchain (device (state c)) (allocator (state c)) (timelineValue f) swapchain]
  else outstanding (trace w) = l /\ IsValid (snd (object w)) = false.

Lemma given_some {r : created} {a} : (r.1 = VK_SUCCESS -> is_Some r.2) -> r = (VK_SUCCESS, a) -> is_Some a.
Proof. intros Hr ->. by apply Hr. Qed.

Lemma settled_not {c f h l hr o tr} :
  hr <> S_OK -> outstanding tr = l -> m_backBuffer o = Tr2TextureAL.new -> settled c f h l hr (mkWorld (c, o) tr).
Proof. intros Hhr Hl Ho. unfold settled. rewrite bool_decide_eq_false_2 by done. split; [done|]. unfold IsValid. cbn. by rewrite Ho. Qed.

Lemma given_none {r : created} {result a} :
  tidy r -> r = (result, a) -> result <> VK_SUCCESS -> default VK_NULL_HANDLE a = VK_NULL_HANDLE.
Proof. intros Ht -> Hr. by destruct (Ht Hr) as [E|E]; cbn in E; subst. Qed.

Section creation.
Context c (f : VulkanFrameContext) (l : list an_object) o (windowHandle : VkHandle).
Context (Hf : frame_of c = Some f) (Ho : m_backBuffer o = Tr2TextureAL.new).
Context (Hroom : Z.of_nat (length (m_deferred c)) < MAX_DEFERRED_ENTRIES) (Hw : windowHandle <> VK_NULL_HANDLE).

(** The results that [Create] may end with. *)
Let ends (hr : ALResult) (w : world (with_context t)) : Prop :=
  (hr = E_INVALIDARG <-> windowHandle = VK_NULL_HANDLE) /\ settled c f windowHandle l hr w.

Let fails (m : Code (with_context t) unit) alive : Prop := forall o' tr, m_backBuffer o' = Tr2TextureAL.new ->
  outstanding tr = alive -> runs m (fun _ => ends E_FAIL) ends (mkWorld (c, o') tr).

Lemma drop_surface surface :
  fails (call (vkDestroy SurfaceKHR (instance (state c)) surface)) ((SurfaceKHR, surface) :: l).
Proof.
  intros o' tr Ho' Ht. apply runs_call. intros [] _. split; [done|]. apply settled_not; [done| |done].
  by eapply outstanding_destroyed.
Qed.

Lemma drop_both surface sc :
  fails (call (vkDestroy SwapchainKHR (device (state c)) sc);; call (vkDestroy SurfaceKHR (instance (state c)) surface))
    ((SwapchainKHR, sc) :: (SurfaceKHR, surface) :: l).
Proof.
  intros o' tr Ho' Ht. apply runs_bind, runs_call. intros [] _. apply drop_surface; [done|].
  by eapply outstanding_destroyed.
Qed.

(** From the images on. *)
Lemma runs_view_image {surface sc tr caps formats n m n' m' written} undo images :
  let format := select_format (fill (replicate n (mkVkSurfaceFormatKHR VK_FORMAT_UNDEFINED VK_COLOR_SPACE_SRGB_NONLINEAR_KHR)) formats) in
  let x image := back_buffer (device (state c)) (allocator (state c)) image (sf_format format) (select_extent caps) in
  outstanding tr = (SwapchainKHR, sc) :: (SurfaceKHR, surface) :: l ->
  fails undo ((SwapchainKHR, sc) :: (SurfaceKHR, surface) :: l) ->
  Event (vkCreateWin32SurfaceKHR (instance (state c)) windowHandle) (VK_SUCCESS, Some surface) ∈ tr ->
  Event (vkGetPhysicalDeviceSurfaceCapabilitiesKHR (physicalDevice (state c)) surface) (VK_SUCCESS, caps) ∈ tr ->
  Event (vkGetPhysicalDeviceSurfaceFormatsKHR (physicalDevice (state c)) surface (Some n)) (VK_SUCCESS, (m, formats)) ∈ tr ->
  Event (vkCreateSwapchainKHR (device (state c)) (swapchain_info caps surface format)) (VK_SUCCESS, Some sc) ∈ tr ->
  Event (vkGetSwapchainImagesKHR (device (state c)) sc (Some n')) (VK_SUCCESS, (m', written)) ∈ tr ->
  images = fill (replicate n' VK_NULL_HANDLE) written -> (n' > 0)%nat ->
  runs (match images with
    | [] => wrong
    | image :: _ =>
        view ← call (vkCreateImageView (device (state c)) (mkVkImageViewCreateInfo image VK_IMAGE_VIEW_TYPE_2D (sf_format format)
          (whole_image VK_IMAGE_ASPECT_COLOR_BIT)));
        let backBuffer := (x image) <| Tr2TextureAL.m_linearView := default VK_NULL_HANDLE view.2 |> in
        if negb (succeeded view.1) then delete_texture backBuffer;; undo;; mret E_FAIL else
        set_back_buffer backBuffer;;
        v ← in_context GetCurrentTimelineValue;
        in_context (Retire (deferred_swapchain (device (state c)) (allocator (state c)) v sc));;
        mret S_OK
    end) ends ends (mkWorld (c, o) tr).
Proof.
  intros format x H5 Hundo Es Ec Ef Esc Ei Him Hpos.
  destruct images as [|image images].
  { apply (f_equal length) in Him. unfold fill in Him. cbn in Him.
    rewrite length_app, length_take, length_drop, length_replicate in Him. lia. }
  apply runs_bind, runs_call. intros [r view] Hv. cbn [object trace fst snd]. cbv zeta.
  unfold succeeded. case_bool_decide as Hr; cbn [negb].
  2: { apply runs_bind. unfold delete_texture. apply runs_in_member. cbn [object trace fst snd].
       pose proof (given_none (view_refused _ _ _) (eq_sym Hv) Hr) as Hnone.
       apply runs_Destroy_nothing; [exact Hnone|done..|]. intros x'. cbn [object trace fst snd].
       apply runs_bind. eapply runs_mono; [apply Hundo; [exact Ho|]; cbn; destruct r; done| |done].
       intros [] w Hfin. by apply runs_ret. }
  subst r. destruct (given_some (view_given _ _ _) (eq_sym Hv)) as [v ->]. cbn [default].
  apply runs_bind, runs_set_back_buffer; [exact Ho|].
  apply runs_bind, runs_in_context. eapply runs_GetCurrentTimelineValue; [exact Hf|]. cbn [object trace fst snd].
  apply runs_bind, runs_in_context, runs_Retire_room; [exact Hroom|]. apply runs_ret. split; [done|].
  unfold settled. rewrite bool_decide_eq_true_2 by done. exists surface, sc, v, image.
  split; [cbn [trace outstanding]; by rewrite H5|]. split; [|done]. cbn [object trace fst snd]. split.
  - by right.
  - exists caps, formats, n, m. do 3 (split; [by right|]). split; [left|done].
  - exists n', m', written. split; [by right|]. by rewrite <- Him.
Qed.
End creation.

End chains.

(** ** Adapters *)

Section adapters.
Context `{PresentationLaws}.
Import Tr2VideoAdapterInfo.

(** The record of a device has the properties that the driver answered for it. *)
Definition records (tr : list event) (device : VkHandle) (record : AdapterRecord) : Prop :=
  adapter_device record = device /\ Event (vkGetPhysicalDeviceProperties device) (adapter_properties record) ∈ tr.

Lemma runs_add_adapters {tr l} devices (Q : unit -> world (list AdapterRecord) -> Prop) R :
  outstanding tr = l ->
  (forall adapters tr', outstanding tr' = l -> tr ⊆ tr' -> Forall2 (records tr') devices adapters ->
     Q tt (mkWorld adapters tr')) ->
  runs (for_each add_adapter devices) Q R (mkWorld [] tr).
Proof.
  intros Hl HQ.
  set (I := fun (before : list VkHandle) (w : world (list AdapterRecord)) =>
    outstanding (trace w) = l /\ tr ⊆ trace w /\ Forall2 (records (trace w)) before (object w)).
  eapply runs_mono; [apply (runs_for_each _ I)| |done].
  - split; [exact Hl|]. by split.
  - intros before d after [adapters tr1] _ (Hl1 & Htr & Hall). cbn [object trace] in *. unfold add_adapter.
    apply runs_bind, runs_call. intros p _. apply runs_update. cbn [object trace]. split; [exact Hl1|].
    split; [set_solver|]. apply Forall2_app.
    + eapply Forall2_impl; [exact Hall|]. intros d' r [Hd Hin]. split; [exact Hd|]. cbn [object trace]. by right.
    + constructor; [|constructor]. split; [done|]. cbn. by left.
  - intros [] [adapters tr'] (Hl' & Htr & Hall). by apply HQ.
Qed.

(** What is known of the adapters, of which [r] is the count. *)
Definition listed (tr : list event) (r : ALResult * Z) (w : world (list AdapterRecord)) : Prop :=
  outstanding (trace w) = outstanding tr /\
  if bool_decide (r.1 = S_OK) then
    r.2 = u32 (Z.of_nat (length (object w))) /\
    exists instance n m written,
      Event (vkEnumeratePhysicalDevices instance (Some n)) (VK_SUCCESS, (m, written)) ∈ trace w /\
      Forall2 (records (trace w)) (fill (replicate n VK_NULL_HANDLE) written) (object w)
  else r.2 = 0 /\ object w = [].

Lemma runs_RefreshAdapters tr adapters (Q : ALResult -> world (list AdapterRecord) -> Prop) R :
  (forall tr', outstanding tr' = outstanding tr -> Q E_FAIL (mkWorld [] tr')) ->
  (forall tr' l instance n m written, outstanding tr' = outstanding tr ->
     Event (vkEnumeratePhysicalDevices instance (Some n)) (VK_SUCCESS, (m, written)) ∈ tr' ->
     Forall2 (records tr') (fill (replicate n VK_NULL_HANDLE) written) l -> Q S_OK (mkWorld l tr')) ->
  runs RefreshAdapters Q R (mkWorld adapters tr).
Proof.
  intros Hfail HQ. unfold RefreshAdapters. apply runs_bind, runs_update, runs_bind, runs_call.
  intros [r created] Hc. cbn [object trace fst snd]. unfold succeeded at 1. case_bool_decide as Hr; cbn [negb].
  2: { apply runs_ret, Hfail. cbn. by destruct r. }
  subst r. destruct (given_some (instance_given _ _ _) (eq_sym Hc)) as [i ->].
  assert (Hdrop : forall tr' l (P : unit -> world (list AdapterRecord) -> Prop), outstanding tr' = (Instance, i) :: outstanding tr ->
    P tt (mkWorld l (Event (vkDestroy Instance VK_NULL_HANDLE i) tt :: tr')) ->
    runs (call (vkDestroy Instance VK_NULL_HANDLE i)) P R (mkWorld l tr')).
  { intros tr' l P _ HP. apply runs_call. by intros [] _. }
  apply runs_bind, runs_call. intros [r1 [n first]] _. cbn [object trace fst snd].
  destruct (succeeded r1); cbn [negb].
  2: { apply runs_bind, Hdrop; [done|]. apply runs_ret, Hfail. by apply outstanding_destroyed. }
  apply runs_bind, runs_call. intros [r2 [m written]] _. cbn [object trace fst snd].
  unfold succeeded. case_bool_decide as Hr2; cbn [negb].
  2: { apply runs_bind, Hdrop; [done|]. apply runs_ret, Hfail. by apply outstanding_destroyed. }
  subst r2. apply runs_bind, (runs_add_adapters (l := (Instance, i) :: outstanding tr)); [done|].
  intros l tr' Ht Hsub Hall. apply runs_bind, Hdrop; [exact Ht|]. apply runs_ret.
  eapply HQ; [by eapply outstanding_destroyed| |].
  - right. apply Hsub. left.
  - eapply Forall2_impl; [exact Hall|]. intros d x [Hd Hx]. split; [exact Hd|]. by right.
Qed.

(** The devices that the driver enumerates are listed with the properties that it answers
    for them; an index below the number of them, and no other, has an adapter. When the
    enumeration fails there are none. The instance that was created for it is gone. *)
Theorem adapters_listed tr (adapters : list AdapterRecord) :
  runs GetAdapterCount
    (fun r w => listed tr r w /\
       forall i, 0 <= i -> (GetAdapterInfo (object w) i).1 = S_OK <-> i < Z.of_nat (length (object w)))
    (fun _ _ => False) (mkWorld adapters tr).
Proof.
  assert (Hbound : forall l i, 0 <= i -> (GetAdapterInfo l i).1 = S_OK <-> i < Z.of_nat (length l)).
  { intros l i Hi. unfold GetAdapterInfo, adapter_at. destruct (l !! Z.to_nat i) as [r|] eqn:E.
    - apply lookup_lt_Some in E. split; [lia|done].
    - apply lookup_ge_None in E. split; [done|lia]. }
  unfold GetAdapterCount. apply runs_bind, runs_RefreshAdapters.
  - intros tr' Ht. cbn [FAILED SUCCEEDED negb]. apply runs_ret. split; [by split|]. intros i. apply Hbound.
  - intros tr' l i n m written Ht Hin Hall. cbn [FAILED SUCCEEDED negb]. apply runs_bind, runs_this, runs_ret.
    split; [|intros j; apply Hbound]. split; [exact Ht|]. cbn. split; [done|]. by exists i, n, m, written.
Qed.
End adapters.

(** ** Instances *)

Lemma creation_given c tr {A} (f : vk A) :
  (creation c tr f).1 = VK_SUCCESS -> is_Some (creation c tr f).2.
Proof. unfold creation. cbn. intros ->. by eexists. Qed.

Lemma respond_presents c : @PresentationLaws (respond c).
Proof.
  constructor; intros *; cbn; try (intros ->; by eexists); try lia.
  intros Hr. cbn in *. left. unfold succeeded. by rewrite bool_decide_eq_false_2.
Qed.

#[local] Instance calm_driver : Driver := respond calm.
#[local] Existing Instances VulkanTextureSpec.plain VulkanFrameContext_eta.

(** A context with a frame. *)
Definition frame_context : VulkanContext :=
  new_VulkanContext <| state ::= fun s => s <| frames := [mkVulkanFrameContext 1 2 3 4 5 6 7 8] |> |>.


Example adapters_listed_witness :
  runs Tr2VideoAdapterInfo.GetAdapterCount
    (fun r w => r = (S_OK, 1) /\ (Tr2VideoAdapterInfo.GetAdapterInfo (object w) 0).1 = S_OK) (fun _ _ => False)
    (mkWorld [] []).
Proof.
  pose proof (respond_presents calm) as Hlaws.
  assert (Hok : runs Tr2VideoAdapterInfo.GetAdapterCount (fun r w => r = (S_OK, 1) /\ length (object w) = 1%nat) (fun _ _ => False)
    (mkWorld [] [])) by (vm_compute; split; reflexivity).
  refine (runs_mono _ _ _ _ _ _ (runs_conj _ _ _ _ _ _ Hok (adapters_listed [] [])) _ (fun _ _ no => proj1 no)).
  intros r w [[Hr Hlen] [_ Hb]]. split; [exact Hr|]. apply (proj2 (Hb 0 ltac:(lia))). rewrite Hlen. reflexivity.
Defined.

(** ** What goes wrong

    The swap chain of a window is destroyed with the other objects that wait, and its
    texture is valid all the while; and nothing destroys the surface. *)
Lemma swap_chain_destroyed
    (run := (hr ← Tr2SwapChainAL.Create 77; in_context (O := Tr2SwapChainAL.t) (DrainDeferred 8);; Tr2SwapChainAL.Destroy;; mret hr)
       (mkWorld (frame_context, Tr2SwapChainAL.new) []))
    (before := (hr ← Tr2SwapChainAL.Create 77; in_context (O := Tr2SwapChainAL.t) (DrainDeferred 8);; mret hr)
       (mkWorld (frame_context, Tr2SwapChainAL.new) [])) :
  run.1 = Next S_OK /\ outstanding (trace run.2) = [(SurfaceKHR, 1)] /\
  Tr2SwapChainAL.IsValid (snd (object before.2)) = true /\
  ~ exists h, (SwapchainKHR, h) ∈ outstanding (trace before.2).
Proof.
  repeat (split; [vm_compute; reflexivity|]). intros [h Hh]. vm_compute outstanding in Hh.
  repeat (apply elem_of_cons in Hh as [Hh|Hh]; [discriminate Hh|]). by apply elem_of_nil in Hh.
Qed.
