(* ===== verification/VulkanRenderContext.v ===== *)
(** * The render context

    [src/src/trinityal-vulkan/Tr2RenderContextVulkan.cpp], apart from the recording of
    graphs that [GraphRecorder] models: what is bound, clearing and drawing, the frame
    from one presentation to the next, and the texture of the image that is drawn to.
    The wrappers of the engine refer to objects, which the context keeps in stores;
    objects that no wrapper refers to any more stay there. Messages of the log are left
    out, and so are the flags that are written and never read. *)

From Corelib Require SpecFloat.
From stdpp Require Import base numbers list option strings gmap.
From S2P Require Import Prelude RenderGraph VulkanFormats Vulkan VulkanContext VulkanUsage VulkanMemory VulkanObject VulkanBuffer VulkanQueries VulkanPipelines VulkanVertexLayout VulkanTexture VulkanResourceSet.
Import VkFormat.

#[local] Open Scope string_scope.
#[local] Open Scope list_scope.
#[local] Open Scope Z_scope.

(** ** What the engine says *)

Record Tr2Viewport := mkTr2Viewport
  { m_x : SpecFloat.spec_float; m_y : SpecFloat.spec_float; m_width : SpecFloat.spec_float;
    m_height : SpecFloat.spec_float; m_minZ : SpecFloat.spec_float; m_maxZ : SpecFloat.spec_float }.

(** The constructor of a viewport from its width and height, the flags of [Clear] and
    the number of render states. *)
Class ContextTypes :=
  { new_Tr2Viewport : Z -> Z -> Tr2Viewport;
    CLEARFLAGS_TARGET : Z; CLEARFLAGS_ZBUFFER : Z; RS_MAX_STATE : Z }.

Definition vk_viewport (v : Tr2Viewport) : VkViewport :=
  mkVkViewport (m_x v) (m_y v) (m_width v) (m_height v) (m_minZ v) (m_maxZ v).

(** [static_cast<float>( n ) / 255.0f]. *)
Definition unit_float (n : Z) : SpecFloat.spec_float :=
  SpecFloat.SFdiv 24 128 (Tr2GpuTimerAL.float_of_Z n) (Tr2GpuTimerAL.float_of_Z 255).

Definition clear_color (color : Z) : list SpecFloat.spec_float :=
  (fun shift => unit_float (Z.land (Z.shiftr color shift) 0xff)) <$> [16; 8; 0; 24].

(** The number of vertices of [n] primitives. *)
Definition vertex_count (topology : Topology) (n : Z) : Z :=
  match topology with
  | TOP_TRIANGLE_STRIP => u32 (n + 2)
  | TOP_LINES => u32 (n * 2)
  | TOP_LINE_STRIP => u32 (n + 1)
  | TOP_POINTS => n
  | _ => u32 (n * 3)
  end.

Module Tr2RenderContextAL.
Section context.
Context `{TextureTypes} `{ShaderTypes} `{!RegisterMaps}.

(** ** The members *)

(** A wrapper is the number of its object: new ones share the null object. *)
Definition wrapper : Type := Z.
Definition null_object : wrapper := 0.

Definition MAX_RENDER_TARGET : nat := 8.
Record BoundRT := mkBoundRT { texture : wrapper; slice : Z }.

Record t := mk
  { m_isValid : bool; m_boundRenderTarget : list BoundRT; m_boundDepthStencil : wrapper;
    m_defaultBackBuffer : wrapper; m_depthTexture : wrapper; m_viewport : Tr2Viewport;
    m_stackRT : list (list wrapper); m_stackDS : list wrapper; m_renderedFrameNumber : Z;
    m_vertexBuffers : list wrapper; m_vertexBufferOffsets : list Z; m_vertexBufferStrides : list Z;
    m_indexBuffer : wrapper; m_indexBufferStride : Z; m_topology : Topology;
    m_vertexLayout : wrapper; m_shaderProgram : wrapper; m_resourceSet : wrapper;
    m_constantBuffers : gmap (Z * Z) wrapper; m_allRenderStates : gmap Z Z;
    m_useReadOnlyDepth : bool; m_renderingActive : bool; m_frameTimer : query;
    m_graph : CompileResult; m_graphActivePass : PassId; m_graphFrameActive : bool;
    (** Whether the context is the primary one. *)
    primary : bool;
    (** The address of [m_shaderProgram]. *)
    program_address : Z;
    texture_objects : gmap Z Tr2TextureAL.t; buffer_objects : gmap Z Tr2BufferAL.t;
    constant_objects : gmap Z Tr2ConstantBufferAL.t; layout_objects : gmap Z Tr2VertexLayoutAL.t;
    program_objects : gmap Z Tr2ShaderProgramAL.t; set_objects : gmap Z Tr2ResourceSetAL.t;
    (** The number of the next object. *)
    next_object : Z }.

#[export] Instance t_eta : Eta t := fun o =>
  mk (m_isValid o) (m_boundRenderTarget o) (m_boundDepthStencil o) (m_defaultBackBuffer o)
    (m_depthTexture o) (m_viewport o) (m_stackRT o) (m_stackDS o) (m_renderedFrameNumber o)
    (m_vertexBuffers o) (m_vertexBufferOffsets o) (m_vertexBufferStrides o) (m_indexBuffer o)
    (m_indexBufferStride o) (m_topology o) (m_vertexLayout o) (m_shaderProgram o) (m_resourceSet o)
    (m_constantBuffers o) (m_allRenderStates o) (m_useReadOnlyDepth o) (m_renderingActive o)
    (m_frameTimer o) (m_graph o) (m_graphActivePass o) (m_graphFrameActive o) (primary o)
    (program_address o) (texture_objects o) (buffer_objects o) (constant_objects o) (layout_objects o)
    (program_objects o) (set_objects o) (next_object o).

(** Two members of the graph are not initialized: what they hold is an argument. *)
Definition new `{ContextTypes} (active : bool) (pass : PassId) (address : Z) : t :=
  mk false (replicate MAX_RENDER_TARGET (mkBoundRT null_object 0)) null_object null_object null_object
    (new_Tr2Viewport 0 0) (replicate MAX_RENDER_TARGET []) [] 0 (replicate 4 null_object)
    (replicate 4 0) (replicate 4 0) null_object 0 TOP_TRIANGLES null_object null_object null_object
    ∅ ∅ false false new_query new_CompileResult pass active false address ∅ ∅ ∅ ∅ ∅ ∅ 1.

(** The object of a wrapper. *)
Definition texture_at (h : wrapper) (o : t) : Tr2TextureAL.t := default Tr2TextureAL.new (texture_objects o !! h).
Definition buffer_at (h : wrapper) (o : t) : Tr2BufferAL.t := default Tr2BufferAL.new (buffer_objects o !! h).
Definition constants_at (h : wrapper) (o : t) : Tr2ConstantBufferAL.t :=
  default Tr2ConstantBufferAL.new (constant_objects o !! h).
Definition layout_at (h : wrapper) (o : t) : Tr2VertexLayoutAL.t :=
  default Tr2VertexLayoutAL.new (layout_objects o !! h).
Definition program_at (h : wrapper) (o : t) : Tr2ShaderProgramAL.t :=
  default Tr2ShaderProgramAL.new (program_objects o !! h).
Definition set_at (h : wrapper) (o : t) : Tr2ResourceSetAL.t := default Tr2ResourceSetAL.new (set_objects o !! h).

Definition store_texture (h : wrapper) (x : Tr2TextureAL.t) (o : t) : t := o <| texture_objects ::= insert h x |>.
Definition store_layout (h : wrapper) (x : Tr2VertexLayoutAL.t) (o : t) : t := o <| layout_objects ::= insert h x |>.

Definition is_texture (h : wrapper) (o : t) : bool := Tr2TextureAL.IsValid (texture_at h o).

(** ** What is bound *)

(** The target of a slot: the image of the swap chain where the first has none. *)
Definition target_of (slot : nat) (o : t) : option wrapper :=
  bound ← m_boundRenderTarget o !! slot;
  Some (if (slot =? 0)%nat && negb (is_texture (texture bound) o) then m_defaultBackBuffer o else texture bound).

Definition SetStreamSource (stream : nat) (buffer : wrapper) (offset stride : Z) (o : t) : ALResult * t :=
  if (4 <=? stream)%nat then (E_INVALIDARG, o) else
  (S_OK, o <| m_vertexBuffers ::= <[stream := buffer]> |> <| m_vertexBufferOffsets ::= <[stream := offset]> |>
    <| m_vertexBufferStrides ::= <[stream := stride]> |>).

(** Both functions of that name: the stride of the first is 2. *)
Definition SetIndices_stride (buffer : wrapper) (stride : Z) (o : t) : ALResult * t :=
  (S_OK, o <| m_indexBuffer := buffer |> <| m_indexBufferStride := stride |>).
Definition SetIndices (buffer : wrapper) (o : t) : ALResult * t := SetIndices_stride buffer 2 o.

Definition SetTopology (topology : Topology) (o : t) : ALResult * t := (S_OK, o <| m_topology := topology |>).
Definition SetShaderProgram (program : wrapper) (o : t) : ALResult * t := (S_OK, o <| m_shaderProgram := program |>).
Definition SetResourceSet (set : wrapper) (o : t) : ALResult * t := (S_OK, o <| m_resourceSet := set |>).
Definition SetVertexLayout (layout : wrapper) (o : t) : ALResult * t := (S_OK, o <| m_vertexLayout := layout |>).
Definition SetDepthStencil (depthStencil : wrapper) (o : t) : ALResult * t :=
  (S_OK, o <| m_boundDepthStencil := depthStencil |>).
Definition SetReadOnlyDepth (enable : bool) (o : t) : t := o <| m_useReadOnlyDepth := enable |>.
Definition GetReadOnlyDepth (o : t) : bool := m_useReadOnlyDepth o.

Definition SetRenderTarget (renderTarget : wrapper) (slot : nat) (slice : Z) (o : t) : ALResult * t :=
  if (MAX_RENDER_TARGET <=? slot)%nat then (E_INVALIDARG, o) else
  (S_OK, o <| m_boundRenderTarget ::= <[slot := mkBoundRT renderTarget slice]> |>).

Definition PushRenderTarget (slot : nat) (o : t) : ALResult * t :=
  if (MAX_RENDER_TARGET <=? slot)%nat then (E_INVALIDARG, o) else
  (S_OK, o <| m_stackRT ::= alter (cons (from_option texture null_object (m_boundRenderTarget o !! slot))) slot |>).

(** The slice stays the one that is bound. *)
Definition PopRenderTarget (slot : nat) (o : t) : ALResult * t :=
  match m_stackRT o !! slot with
  | Some (top :: rest) => (S_OK,
      o <| m_boundRenderTarget ::= alter (fun bound => mkBoundRT top (slice bound)) slot |>
        <| m_stackRT ::= <[slot := rest]> |>)
  | _ => (E_INVALIDCALL, o)
  end.

Definition PushDepthStencil (o : t) : ALResult * t := (S_OK, o <| m_stackDS ::= cons (m_boundDepthStencil o) |>).
Definition PopDepthStencil (o : t) : ALResult * t :=
  match m_stackDS o with
  | top :: rest => (S_OK, o <| m_boundDepthStencil := top |> <| m_stackDS := rest |>)
  | [] => (E_INVALIDCALL, o)
  end.

Definition SetConstants (buffer : wrapper) (constantType registerIndex : Z) (o : t) : ALResult * t :=
  if (Z.of_nat SHADER_TYPE_COUNT <=? constantType) || (16 <=? registerIndex) then (E_INVALIDARG, o) else
  (S_OK, o <| m_constantBuffers ::= insert (constantType, registerIndex) buffer |>).

Definition SetRenderState `{ContextTypes} (state value : Z) (o : t) : ALResult * t :=
  (S_OK, if state <? RS_MAX_STATE then o <| m_allRenderStates ::= insert state value |> else o).

Definition GetViewport (o : t) : ALResult * Tr2Viewport := (S_OK, m_viewport o).
Definition GetRecordingFrameNumber (c : VulkanContext) : Z := frameNumber (state c).
Definition GetRenderedFrameNumber (o : t) : Z := m_renderedFrameNumber o.
Definition GetBackBufferFormat (c : VulkanContext) : PixelFormat := ConvertVkFormat (format (swapchain (state c))).
Definition GetStackSizeRT : nat := 0.
Definition GetStackSizeDS : nat := 0.
Definition SupportsBindlessTextures : bool := false.

(** ** Code

    Functions of an object that a wrapper or a member refers to run on it. *)

Context `{Driver} `{ContextTypes}.
Abbreviation C := (Code (with_context t)).

Definition in_texture {A} (h : wrapper) (m : Code (with_context Tr2TextureAL.t) A) : C A :=
  in_member (texture_at h) (store_texture h) m.
Definition in_layout {A} (h : wrapper) (m : Code (with_context Tr2VertexLayoutAL.t) A) : C A :=
  in_member (layout_at h) (store_layout h) m.

(** A function of the members. *)
Definition pure {A} (f : t -> A * t) : C A := r ← member f; assign (fun _ => r.2);; mret r.1.

(** *** Rendering *)

(** The transition of the depth image of the swap chain. *)
Definition depth_transition (sc : VulkanSwapchainState) (from by_ : list access) (to : VkImageLayout)
    : VkImageMemoryBarrier2 :=
  mkVkImageMemoryBarrier2 from by_ (depthLayout sc) to (depthImage sc) (whole_image VK_IMAGE_ASPECT_DEPTH_BIT).

Definition set_depth_layout (layout : VkImageLayout) : C unit :=
  in_context (put_swapchain (fun w => w <| depthLayout := layout |>)).

Definition BeginRendering : C ALResult :=
  s ← in_context (get swapchain);
  if suspended s then mret E_FAIL else
  o ← member id;
  if m_graphFrameActive o then mret S_OK else
  commandBuffer ← in_context GetCurrentCommandBuffer;
  let target := texture_at (m_defaultBackBuffer o) o in
  if negb (Tr2TextureAL.IsValid target) then mret E_INVALIDCALL else
  (if bool_decide (Tr2TextureAL.m_layout target = VK_IMAGE_LAYOUT_COLOR_ATTACHMENT_OPTIMAL) then mret tt else
     call (vkCmdPipelineBarrier2 commandBuffer
       [Tr2TextureAL.transition target [MEMORY_READ; MEMORY_WRITE] [COLOR_ATTACHMENT_WRITE]
          VK_IMAGE_LAYOUT_COLOR_ATTACHMENT_OPTIMAL] []);;
     in_texture (m_defaultBackBuffer o)
       (assign (Tr2TextureAL.SetLayout VK_IMAGE_LAYOUT_COLOR_ATTACHMENT_OPTIMAL)));;
  let colorAttachment := mkVkRenderingAttachmentInfo (Tr2TextureAL.GetView target COLOR_SPACE_LINEAR)
    VK_IMAGE_LAYOUT_COLOR_ATTACHMENT_OPTIMAL in
  let depthAttachment := mkVkRenderingAttachmentInfo (depthView s)
    VK_IMAGE_LAYOUT_DEPTH_STENCIL_ATTACHMENT_OPTIMAL in
  (if bool_decide (depthLayout s = VK_IMAGE_LAYOUT_DEPTH_STENCIL_ATTACHMENT_OPTIMAL) then mret tt else
     call (vkCmdPipelineBarrier2 commandBuffer
       [depth_transition s [MEMORY_READ; MEMORY_WRITE]
          [DEPTH_STENCIL_ATTACHMENT_READ; DEPTH_STENCIL_ATTACHMENT_WRITE]
          VK_IMAGE_LAYOUT_DEPTH_STENCIL_ATTACHMENT_OPTIMAL] []);;
     set_depth_layout VK_IMAGE_LAYOUT_DEPTH_STENCIL_ATTACHMENT_OPTIMAL);;
  call (vkCmdBeginRendering commandBuffer (mkVkRenderingInfo (extent s) colorAttachment depthAttachment));;
  call (vkCmdSetViewport commandBuffer (vk_viewport (m_viewport o)));;
  call (vkCmdSetScissor commandBuffer (extent s));;
  mret S_OK.

Definition EndRendering : C ALResult :=
  o ← member id;
  if m_graphFrameActive o then mret S_OK else
  commandBuffer ← in_context GetCurrentCommandBuffer;
  call (vkCmdEndRendering commandBuffer);;
  mret S_OK.

(** Whether the pass of the graph that is recorded draws with depth; outside of
    graphs there is depth. *)
Definition passUsesDepth (o : t) : bool :=
  if m_graphFrameActive o && negb (m_graphActivePass o =? INVALID_PASS)
  then existsb (fun attachment => (pa_pass attachment =? m_graphActivePass o) && pa_isDepth attachment)
    (passAttachments (m_graph o))
  else true.

(** One turn of the loop over the vertex buffers. *)
Definition bind_vertex_buffer (commandBuffer : VkHandle) (i : nat) : C unit :=
  o ← member id;
  match m_vertexBuffers o !! i, m_vertexBufferOffsets o !! i with
  | Some buffer, Some offset =>
      if Tr2BufferAL.IsValid (buffer_at buffer o)
      then call (vkCmdBindVertexBuffers commandBuffer (Z.of_nat i) (Tr2BufferAL.m_buffer (buffer_at buffer o)) offset)
      else mret tt
  | _, _ => wrong
  end.

Definition bind_pipeline (commandBuffer : VkHandle) : C unit :=
  o ← member id;
  if negb (Tr2VertexLayoutAL.IsValid (layout_at (m_vertexLayout o) o)) then mret tt else
  s ← in_context (get id);
  let program := program_at (m_shaderProgram o) o in
  let format := format (swapchain s) in
  pipeline ← in_layout (m_vertexLayout o)
    (if passUsesDepth o
     then Tr2VertexLayoutAL.GetPipeline (program_address o) program (m_topology o) format
       (depthFormat (swapchain s)) (pipelineCache s)
     else Tr2VertexLayoutAL.GetPipelineNoDepth (program_address o) program (m_topology o) format
       (pipelineCache s));
  if is_null pipeline then early E_FAIL else call (vkCmdBindPipeline commandBuffer pipeline).

Definition BindFrameResources : C ALResult := function (
  commandBuffer ← in_context GetCurrentCommandBuffer;
  o ← member id;
  let program := program_at (m_shaderProgram o) o in
  if negb (Tr2ShaderProgramAL.IsValid program) then mret E_INVALIDCALL else
  let set := set_at (m_resourceSet o) o in
  let descriptorSet :=
    if Tr2ResourceSetAL.IsValid set then Tr2ResourceSetAL.GetDescriptorSet set else VK_NULL_HANDLE in
  (if is_null descriptorSet then mret tt else call (vkCmdBindDescriptorSets commandBuffer
    (Tr2ShaderProgramAL.GetPipelineLayout program) descriptorSet));;
  bind_pipeline commandBuffer;;
  for_each (bind_vertex_buffer commandBuffer) (seq 0 4);;
  mret S_OK).

(** *** Drawing *)

(** What all drawing begins with, then [draw] in the command buffer. *)
Definition with_rendering (draw : VkHandle -> C unit) : C ALResult := function (
  commandBuffer ← in_context GetCurrentCommandBuffer;
  active ← member m_renderingActive;
  (if (active : bool) then mret tt else
     CR_RETURN_HR BeginRendering;;
     assign (fun o => o <| m_renderingActive := true |>));;
  CR_RETURN_HR BindFrameResources;;
  draw commandBuffer;;
  mret S_OK).

Definition DrawPrimitive (startVertex primitiveCount : Z) : C ALResult :=
  with_rendering (fun commandBuffer =>
    o ← member id;
    call (vkCmdDraw commandBuffer (vertex_count (m_topology o) primitiveCount) 1 startVertex 0)).

Definition DrawInstanced (vertexCountPerInstance instanceCount startVertexLocation startInstanceLocation : Z)
    : C ALResult :=
  with_rendering (fun commandBuffer =>
    call (vkCmdDraw commandBuffer vertexCountPerInstance instanceCount startVertexLocation startInstanceLocation)).

Definition bind_index_buffer (commandBuffer : VkHandle) : C unit :=
  o ← member id;
  call (vkCmdBindIndexBuffer commandBuffer (Tr2BufferAL.m_buffer (buffer_at (m_indexBuffer o) o))
    (if m_indexBufferStride o =? 4 then VK_INDEX_TYPE_UINT32 else VK_INDEX_TYPE_UINT16)).

Definition DrawIndexedPrimitive (startIndex primitiveCount : Z) : C ALResult :=
  with_rendering (fun commandBuffer =>
    o ← member id;
    bind_index_buffer commandBuffer;;
    call (vkCmdDrawIndexed commandBuffer (vertex_count (m_topology o) primitiveCount) 1 startIndex 0 0)).

(** Both functions of that name: the first counts primitives, of triangles or of a
    strip of them only. *)
Definition DrawIndexedInstanced (startIndex primitiveCount numInstances : Z) : C ALResult :=
  with_rendering (fun commandBuffer =>
    o ← member id;
    let indexCount := match m_topology o with
      | TOP_TRIANGLE_STRIP => u32 (primitiveCount + 2)
      | _ => u32 (primitiveCount * 3)
      end in
    bind_index_buffer commandBuffer;;
    call (vkCmdDrawIndexed commandBuffer indexCount numInstances startIndex 0 0)).

Definition DrawIndexedInstanced_indices (indexCountPerInstance instanceCount startIndexLocation
    baseVertexLocation startInstanceLocation : Z) : C ALResult :=
  with_rendering (fun commandBuffer =>
    bind_index_buffer commandBuffer;;
    call (vkCmdDrawIndexed commandBuffer indexCountPerInstance instanceCount startIndexLocation
      baseVertexLocation startInstanceLocation)).

(** *** Clearing and copying *)

Definition clear_target (commandBuffer : VkHandle) (target : wrapper) (color : Z) : C unit :=
  x ← member (texture_at target);
  call (vkCmdPipelineBarrier2 commandBuffer
    [Tr2TextureAL.transition x [MEMORY_READ] [TRANSFER_WRITE] VK_IMAGE_LAYOUT_TRANSFER_DST_OPTIMAL] []);;
  call (vkCmdClearColorImage commandBuffer (Tr2TextureAL.m_image x) VK_IMAGE_LAYOUT_TRANSFER_DST_OPTIMAL
    (clear_color color) (Tr2TextureAL.GetSubresourceRange x));;
  in_texture target (assign (Tr2TextureAL.SetLayout VK_IMAGE_LAYOUT_TRANSFER_DST_OPTIMAL)).

Definition clear_depth (commandBuffer : VkHandle) (depth : SpecFloat.spec_float) : C unit :=
  o ← member id;
  s ← in_context (get swapchain);
  let bound := is_texture (m_boundDepthStencil o) o in
  let x := texture_at (m_boundDepthStencil o) o in
  let image := if bound then Tr2TextureAL.m_image x else depthImage s in
  let layout := if bound then Tr2TextureAL.m_layout x else depthLayout s in
  let range := whole_image VK_IMAGE_ASPECT_DEPTH_BIT in
  call (vkCmdPipelineBarrier2 commandBuffer
    [mkVkImageMemoryBarrier2 [MEMORY_READ] [TRANSFER_WRITE] layout VK_IMAGE_LAYOUT_TRANSFER_DST_OPTIMAL image range] []);;
  call (vkCmdClearDepthStencilImage commandBuffer image VK_IMAGE_LAYOUT_TRANSFER_DST_OPTIMAL depth range);;
  if bound
  then in_texture (m_boundDepthStencil o) (assign (Tr2TextureAL.SetLayout VK_IMAGE_LAYOUT_TRANSFER_DST_OPTIMAL))
  else set_depth_layout VK_IMAGE_LAYOUT_TRANSFER_DST_OPTIMAL.

Definition has_flag (flags flag : Z) : bool := negb (Z.land flags flag =? 0).

Definition Clear (clearFlags color : Z) (depth : SpecFloat.spec_float) (slot : nat) : C ALResult :=
  s ← in_context (get swapchain);
  if suspended s then mret S_OK else
  commandBuffer ← in_context GetCurrentCommandBuffer;
  o ← member id;
  match target_of slot o with
  | None => wrong
  | Some target =>
      if negb (is_texture target o) then mret E_INVALIDCALL else
      (if has_flag clearFlags CLEARFLAGS_TARGET then clear_target commandBuffer target color else mret tt);;
      (if has_flag clearFlags CLEARFLAGS_ZBUFFER then clear_depth commandBuffer depth else mret tt);;
      mret S_OK
  end.

Definition CopySubBuffer (dest : wrapper) (destOffset : Z) (src : wrapper) (offset length : Z) : C ALResult :=
  commandBuffer ← in_context GetCurrentCommandBuffer;
  o ← member id;
  call (vkCmdCopyBuffer commandBuffer (Tr2BufferAL.m_buffer (buffer_at src o))
    (Tr2BufferAL.m_buffer (buffer_at dest o)) (mkVkBufferCopy offset destOffset length));;
  mret S_OK.

Definition SetViewport (viewport : Tr2Viewport) : C ALResult :=
  assign (fun o => o <| m_viewport := viewport |>);;
  commandBuffer ← in_context GetCurrentCommandBuffer;
  call (vkCmdSetViewport commandBuffer (vk_viewport viewport));;
  mret S_OK.

(** [SetRenderStates]: [n] pairs from [i] on, where reading past the array is
    undefined. *)
Fixpoint set_states (pairs : list Z) (i n : nat) : C unit :=
  match n with
  | O => mret tt
  | S n =>
      match pairs !! i, pairs !! S i with
      | Some state, Some value => pure (SetRenderState state value);; set_states pairs (i + 2) n
      | _, _ => wrong
      end
  end.
Definition SetRenderStates (stateValuePairs : option (list Z)) (count : Z) : C ALResult :=
  match stateValuePairs with
  | None => mret E_INVALIDARG
  | Some pairs => set_states pairs 0 (Z.to_nat (u32 (count * 2) / 2));; mret S_OK
  end.

Definition GetRenderTargetSize (slot : nat) : C (ALResult * option (Z * Z)) :=
  o ← member id;
  match target_of slot o with
  | None => wrong
  | Some target =>
      let dimensions := Tr2TextureAL.m_desc (texture_at target o) in
      mret (if negb (is_texture target o) then (E_INVALIDCALL, None)
            else (S_OK, Some (GetWidth dimensions, GetHeight dimensions)))
  end.

(** [SetSetConstantBuffer]. *)
Definition SetSetConstantBuffer (set buffer : wrapper) : C ALResult :=
  o ← member id;
  let descriptorSet := Tr2ResourceSetAL.GetDescriptorSet (set_at set o) in
  if is_null descriptorSet then mret E_INVALIDCALL else
  let '(b, offset, range) := Tr2ConstantBufferAL.GetDescriptorInfo (constants_at buffer o) in
  d ← in_context (get device);
  call (vkUpdateDescriptorSets d [mkVkWriteDescriptorSet descriptorSet 0 0 VK_DESCRIPTOR_TYPE_UNIFORM_BUFFER
    [DescribesBuffer (mkVkDescriptorBufferInfo b offset range)]]);;
  mret S_OK.

(** *** Markers *)

Definition PushGpuMarker (marker : string) : C unit :=
  commandBuffer ← in_context GetCurrentCommandBuffer;
  d ← in_context (get device);
  beginFn ← call (vkGetDeviceProcAddr d "vkCmdBeginDebugUtilsLabelEXT");
  if (beginFn : bool) then call (vkCmdBeginDebugUtilsLabelEXT commandBuffer marker) else mret tt.
Definition AddGpuMarker (marker : string) : C unit := PushGpuMarker marker.
Definition PopGpuMarker : C unit :=
  commandBuffer ← in_context GetCurrentCommandBuffer;
  d ← in_context (get device);
  endFn ← call (vkGetDeviceProcAddr d "vkCmdEndDebugUtilsLabelEXT");
  if (endFn : bool) then call (vkCmdEndDebugUtilsLabelEXT commandBuffer) else mret tt.

(** *** The image that is drawn to *)

(** A wrapper whose texture is not valid is given a new one. *)
Definition new_texture (set : wrapper -> t -> t) : C wrapper :=
  h ← member next_object;
  assign (fun o => set h (store_texture h Tr2TextureAL.new o) <| next_object := h + 1 |>);;
  mret h.

(** Image [imageIndex] of the swap chain, in a layout. *)
Definition attach_image (h : wrapper) (imageIndex : Z) (layout : VkImageLayout) : C ALResult :=
  s ← in_context (get swapchain);
  match images s !! Z.to_nat imageIndex, imageViews s !! Z.to_nat imageIndex with
  | Some image, Some view =>
      in_texture h (Tr2TextureAL.AttachSwapchainImage image view (format s) (extent_width (extent s))
        (extent_height (extent s)) layout);;
      mret S_OK
  | _, _ => wrong
  end.

Definition set_texture_device (h : wrapper) : C unit :=
  s ← in_context (get id);
  in_texture h (assign (Tr2TextureAL.SetDevice (device s) (allocator s))).

Definition CreateBackBufferTexture : C ALResult :=
  suspended ← in_context is_suspended;
  if (suspended : bool) then mret S_OK else
  o ← member id;
  h ← (if is_texture (m_defaultBackBuffer o) o then mret (m_defaultBackBuffer o)
       else new_texture (fun h o => o <| m_defaultBackBuffer := h |>));
  set_texture_device h;;
  imageIndex ← in_context GetCurrentImageIndex;
  attach_image h imageIndex VK_IMAGE_LAYOUT_UNDEFINED.

Definition DestroyBackBufferTexture : C unit := assign (fun o => o <| m_defaultBackBuffer := null_object |>).

Definition ReattachBackBuffer : C ALResult :=
  suspended ← in_context is_suspended;
  if (suspended : bool) then mret S_OK else CreateBackBufferTexture.

(** The texture is that of the wrapper, whether it is valid or not. *)
Definition AttachLastPresentedImage : C ALResult :=
  suspended ← in_context is_suspended;
  if (suspended : bool) then mret E_FAIL else
  h ← member m_defaultBackBuffer;
  set_texture_device h;;
  imageIndex ← in_context GetLastPresentedImageIndex;
  x ← member (texture_at h);
  attach_image h imageIndex (Tr2TextureAL.m_layout x).

(** The texture of [m_depthTexture] is that of the depth image. *)
Definition holds_depth (s : VulkanSwapchainState) (o : t) : bool :=
  is_texture (m_depthTexture o) o && (Tr2TextureAL.m_image (texture_at (m_depthTexture o) o) =? depthImage s).

Definition AttachDepthTexture : C ALResult :=
  s ← in_context (get swapchain);
  if is_null (depthImage s) then mret E_INVALIDCALL else
  o ← member id;
  h ← (if holds_depth s o then mret (m_depthTexture o)
       else new_texture (fun h o => o <| m_depthTexture := h |>));
  set_texture_device h;;
  in_texture h (Tr2TextureAL.AttachSwapchainImage (depthImage s) (depthView s) (depthFormat s)
    (extent_width (extent s)) (extent_height (extent s)) (depthLayout s));;
  mret S_OK.

Definition GetDepthTexture : C wrapper :=
  s ← in_context (get swapchain);
  o ← member id;
  (if is_null (depthImage s) || negb (holds_depth s o) then AttachDepthTexture;; mret tt else mret tt);;
  member m_depthTexture.

Definition TransitionBackBuffer (newLayout : VkImageLayout) : C ALResult :=
  suspended ← in_context is_suspended;
  if (suspended : bool) then mret S_OK else
  o ← member id;
  let x := texture_at (m_defaultBackBuffer o) o in
  if negb (Tr2TextureAL.IsValid x) then mret E_INVALIDCALL else
  if bool_decide (Tr2TextureAL.m_layout x = newLayout) then mret S_OK else
  commandBuffer ← in_context GetCurrentCommandBuffer;
  call (vkCmdPipelineBarrier2 commandBuffer
    [Tr2TextureAL.transition x [MEMORY_READ; MEMORY_WRITE] [MEMORY_READ; MEMORY_WRITE] newLayout] []);;
  in_texture (m_defaultBackBuffer o) (assign (Tr2TextureAL.SetLayout newLayout));;
  mret S_OK.

(** *** The frame *)

Definition BeginScene : ALResult := S_OK.

(** The end of rendering, in [EndScene] and [Present]. *)
Definition end_rendering : C unit :=
  active ← member m_renderingActive;
  if negb (active : bool) then mret tt else
  CR_RETURN_HR EndRendering;;
  assign (fun o => o <| m_renderingActive := false |>).

Definition EndScene : C ALResult := function (end_rendering;; mret S_OK).

Definition Present : C ALResult := function (
  end_rendering;;
  CR_RETURN_HR (TransitionBackBuffer VK_IMAGE_LAYOUT_PRESENT_SRC_KHR);;
  CR_RETURN_HR (in_context EndFrame);;
  CR_RETURN_HR (in_context VulkanContext.Present);;
  n ← in_context (get renderedFrameNumber);
  assign (fun o => o <| m_renderedFrameNumber := n |>);;
  CR_RETURN_HR (in_context BeginFrame);;
  CreateBackBufferTexture).

(** *** The device *)

Definition IsValid : C bool :=
  d ← in_context (get device);
  o ← member id;
  mret (m_isValid o && negb (is_null d)).

Definition SetPrimaryRenderContext : C unit := assign (fun o => o <| primary := true |>).

Definition Destroy : C unit :=
  assign (fun o => o <| primary := false |>);;
  in_context WaitIdle;;
  in_context VulkanContext.Destroy;;
  assign (fun o => o <| m_isValid := false |>).

(** [m_events], when it is not null, does [OnContextCreated]. *)
Definition CreateDevice (adapter : Z) (window : VkHandle) (params : Tr2PresentParametersAL)
    (OnContextCreated : option (C unit)) : C ALResult := function (
  Destroy;;
  in_context (put (fun s => s <| presentParameters := params |>));;
  CR_RETURN_HR (in_context (CreateInstance true));;
  CR_RETURN_HR (in_context (VulkanContext.CreateDevice adapter window params));;
  assign (fun o => o <| m_isValid := true |>);;
  SetPrimaryRenderContext;;
  in_member m_frameTimer (fun q o => o <| m_frameTimer := q |>) Tr2GpuTimerAL.Create;;
  default (mret tt) OnContextCreated;;
  CR_RETURN_HR (in_context BeginFrame);;
  CR_RETURN_HR CreateBackBufferTexture;;
  mret S_OK).

Definition SetPresentParameters (params : Tr2PresentParametersAL) : C ALResult :=
  in_context (put (fun s => s <| presentParameters := params |>));;
  result ← in_context RecreateSwapchain;
  if FAILED result then mret result else
  DestroyBackBufferTexture;;
  mret S_OK.

Definition ReleaseDeviceResources : C unit :=
  in_context WaitIdle;;
  DestroyBackBufferTexture;;
  in_context DestroySwapchain.

Definition WaitForFrameCompletion : C ALResult :=
  d ← in_context (get device);
  if is_null d then mret E_INVALIDCALL else
  result ← call (vkDeviceWaitIdle d);
  mret (MapVkResult result).

End context.
End Tr2RenderContextAL.
