(* ===== verification/VulkanPipelinesSpec.v ===== *)
(** * Samplers, shaders and programs keep to the rules

    What they create is described as they were told, and what they have created is
    destroyed with them, whichever of its creations fails. *)

From Stdlib Require Import Strings.Byte.
From stdpp Require Import base numbers list option strings gmap fin_maps sets.
From S2P Require Import Prelude RenderGraph VulkanFormats Vulkan VulkanContext VulkanUsage VulkanMemory VulkanPipelineRules VulkanDriver VulkanObject VulkanPipelines.

#[local] Open Scope Z_scope.

(** ** Creations and destructions *)

Section made.
Context `{Driver} {O : Type}.
Implicit Types (p : pipeline_objects) (o : O) (tr : list event).

(** A creation whose output is a member. *)
Lemma runs_out_made (set : VkHandle -> O -> O) (k : vk created) add hs p c o tr (Q : _ -> world (with_context O) -> Prop) R :
  objects_after tr = Some p ->
  (forall r, operate p (Event k r) = Some (add_made r add p)) ->
  new_in hs (answer tr k) ->
  (forall h tr', h <> VK_NULL_HANDLE -> h ∉ hs -> objects_after tr' = Some (add h p) ->
     Q VK_SUCCESS (mkWorld (c, set h o) tr')) ->
  (forall r out (tr' := Event k (r, out) :: tr), r <> VK_SUCCESS -> (r, out) = answer tr k ->
     objects_after tr' = Some p -> Q r (mkWorld (c, match out with Some h => set h o | None => o end) tr')) ->
  runs (out_member set k) Q R (mkWorld (c, o) tr).
Proof.
  unfold new_in, created in *. intros Hp Hop Hnew Hok Hfail. apply runs_call_out. cbn [object trace fst snd]. intros r out Hr.
  assert (Ha : objects_after (Event k (r, out) :: tr) = Some (add_made (r, out) add p)).
  { cbn [objects_after]. rewrite Hp. apply Hop. }
  destruct (decide (r = VK_SUCCESS)) as [->|Hs].
  - destruct (Hnew ltac:(by rewrite <- Hr)) as (h & Hh & Hnz & Hin). rewrite <- Hr in Hh. cbn in Hh. subst out.
    by apply Hok.
  - assert (add_made (r, out) add p = p) as E by (destruct r, out; done). rewrite E in Ha.
    specialize (Hfail r out Hs Hr Ha). by destruct out.
Qed.

(** The same of a driver that writes nothing when it fails. *)
Lemma runs_out_made_tidy (set : VkHandle -> O -> O) (k : vk created) add hs p c o tr (Q : _ -> world (with_context O) -> Prop) R :
  objects_after tr = Some p ->
  (forall r, operate p (Event k r) = Some (add_made r add p)) ->
  new_in hs (answer tr k) -> tidy (answer tr k) ->
  set VK_NULL_HANDLE o = o ->
  (forall h tr', h <> VK_NULL_HANDLE -> h ∉ hs -> objects_after tr' = Some (add h p) ->
     Q VK_SUCCESS (mkWorld (c, set h o) tr')) ->
  (forall r tr', r <> VK_SUCCESS -> objects_after tr' = Some p -> Q r (mkWorld (c, o) tr')) ->
  runs (out_member set k) Q R (mkWorld (c, o) tr).
Proof.
  unfold tidy, created in *. intros Hp Hop Hnew Htidy Hset Hok Hfail. eapply runs_out_made; [done..|]. intros r out tr' Hs Hr Ha.
  pose proof (f_equal fst Hr) as H1. pose proof (f_equal snd Hr) as H2. cbn [fst snd] in H1, H2.
  destruct Htidy as [E|E]; [by intros E; apply Hs; etrans; [exact H1|]|..]; rewrite (eq_trans H2 E), ?Hset; by apply Hfail.
Qed.

(** [if( h ) { vkDestroyX( h ); h = VK_NULL_HANDLE; }] *)
Lemma runs_destroy_made kind d h (m : Code (with_context O) unit) p p' (Q : unit -> world (with_context O) -> Prop) R w :
  objects_after (trace w) = Some p -> check_destroyed p kind h = Some p' ->
  (h = VK_NULL_HANDLE -> runs (mret tt) Q R w) ->
  (forall tr', objects_after tr' = Some p' -> runs m Q R (mkWorld (object w) tr')) ->
  runs (if is_null h then mret tt else call (vkDestroy kind d h);; m) Q R w.
Proof.
  intros Hp Hd Hnull Hm. destruct (is_null h) eqn:Hh.
  - by apply Hnull, Z.eqb_eq.
  - apply runs_bind, runs_call. intros [] _. apply Hm. cbn. by rewrite Hp.
Qed.

End made.

(** Objects differ at most in one table: what destroying what was made leaves. *)
Lemma samplers_destroyed p h :
  h ∉ alive_samplers p -> h <> VK_NULL_HANDLE ->
  check_destroyed (p <| alive_samplers ::= union {[h]} |>) Sampler h = Some p.
Proof.
  intros Hh Hnz. unfold check_destroyed. rewrite is_null_false by done. cbn.
  rewrite option_guard_True by set_solver. destruct p. cbn in *. do 2 f_equal. set_solver.
Qed.

Lemma shader_destroyed p h :
  h ∉ shader_modules p -> h <> VK_NULL_HANDLE ->
  check_destroyed (p <| shader_modules ::= union {[h]} |>) ShaderModule h = Some p.
Proof.
  intros Hh Hnz. unfold check_destroyed. rewrite is_null_false by done. cbn.
  rewrite option_guard_True by set_solver. destruct p. cbn in *. do 2 f_equal. set_solver.
Qed.

Lemma set_layout_destroyed p h bs :
  h ∉ dom (set_layouts p) -> h <> VK_NULL_HANDLE ->
  check_destroyed (p <| set_layouts ::= insert h bs |>) DescriptorSetLayout h = Some p.
Proof.
  intros Hh%not_elem_of_dom Hnz. unfold check_destroyed. rewrite is_null_false by done. cbn.
  rewrite lookup_insert_eq, option_guard_True by done. destruct p. cbn in *. do 2 f_equal.
  by rewrite delete_insert_id.
Qed.

Lemma pipeline_layout_destroyed p h :
  h ∉ pipeline_layouts p -> h <> VK_NULL_HANDLE ->
  check_destroyed (p <| pipeline_layouts ::= union {[h]} |>) PipelineLayout h = Some p.
Proof.
  intros Hh Hnz. unfold check_destroyed. rewrite is_null_false by done. cbn.
  rewrite option_guard_True by set_solver. destruct p. cbn in *. do 2 f_equal. set_solver.
Qed.

Lemma pipeline_destroyed p h info :
  h ∉ dom (pipelines p) -> h <> VK_NULL_HANDLE ->
  check_destroyed (p <| pipelines ::= insert h info |>) Pipeline h = Some p.
Proof.
  intros Hh%not_elem_of_dom Hnz. unfold check_destroyed. rewrite is_null_false by done. cbn.
  rewrite lookup_insert_eq, option_guard_True by done. destruct p. cbn in *. do 2 f_equal.
  by rewrite delete_insert_id.
Qed.

(** ** Samplers *)

Section sampler.
Context `{PipelineLaws} `{Tr2TextureFilters}.
Import Tr2SamplerStateAL.

(** A sampler that is not anisotropic is made as described, alive until it is
    destroyed. *)
Lemma runs_sampler_Create d c o tr p (R : ALResult -> world (with_context t) -> Prop) :
  objects_after tr = Some p -> m_maxAnisotropy d <= 1 ->
  runs (Create d) (fun hr w => if FAILED hr then hr = E_FAIL /\ objects_after (trace w) = Some p else
      exists h o', object w = (c, o') /\ m_sampler o' = h /\ h <> VK_NULL_HANDLE /\ h ∉ alive_samplers p /\
        objects_after (trace w) = Some (p <| alive_samplers ::= union {[h]} |>)) R (mkWorld (c, o) tr).
Proof.
  intros Hp Hd. unfold Create. apply runs_bind, runs_in_context, runs_this. cbn [object trace fst snd id].
  apply runs_bind, runs_assign. cbn [object trace fst snd]. apply runs_bind.
  eapply runs_out_made; [exact Hp| |by apply sampler_new|..].
  - intros r. cbn. rewrite option_guard_True; [done|]. by apply Z.ltb_ge.
  - intros h tr' Hnz Hh Ha. apply runs_ret. cbn. eexists h, _. by repeat split.
  - intros r out tr' Hs _ Ha. unfold succeeded. rewrite bool_decide_eq_false_2 by done. by apply runs_ret.
Qed.

Lemma runs_sampler_Destroy c o tr p (R : ALResult -> world (with_context t) -> Prop) :
  m_sampler o <> VK_NULL_HANDLE -> m_sampler o ∉ alive_samplers p ->
  objects_after tr = Some (p <| alive_samplers ::= union {[m_sampler o]} |>) ->
  runs Destroy (fun _ w => objects_after (trace w) = Some p /\ IsValid (snd (object w)) = false) R (mkWorld (c, o) tr).
Proof.
  intros Hnz Hh Hp. unfold Destroy. apply runs_bind, runs_member. cbn [object snd id].
  eapply runs_destroy_made; [exact Hp|by apply samplers_destroyed|done|].
  intros tr' Ha. by apply runs_assign.
Qed.
End sampler.

(** ** Shaders *)

Section shader.
Context `{PipelineLaws} `{ShaderTypes}.
Import Tr2ShaderAL.

(** The code is copied, as it can be read back, and a module made of it. *)
Lemma runs_shader_Create data type signature c o tr p (R : ALResult -> world (with_context t) -> Prop) :
  objects_after tr = Some p -> data <> [] -> Z.of_nat (length data) mod 4 = 0 ->
  runs (Create true type (mkTr2ShaderBytecodeAL (Some data) (Z.of_nat (length data))) signature)
    (fun hr w => exists o', object w = (c, o') /\
      GetBytecode o' = (S_OK, mkTr2ShaderBytecodeAL (Some data) (Z.of_nat (length data))) /\
      GetType o' = type /\ GetSignature o' = signature /\
      if FAILED hr then hr = E_FAIL /\ objects_after (trace w) = Some p
      else IsValid o' = true /\ GetModule o' ∉ shader_modules p /\
        objects_after (trace w) = Some (p <| shader_modules ::= union {[GetModule o']} |>)) R (mkWorld (c, o) tr).
Proof.
  intros Hp Hne Hw. unfold Create. apply runs_bind, runs_assign. cbn [object trace fst snd].
  apply runs_bind, runs_in_context, runs_this. cbn [object trace fst snd id].
  apply runs_bind, runs_assign. cbn [object trace fst snd bytecode bytecode_size].
  destruct data as [|b data]; [done|]. rewrite (proj2 (Z.eqb_neq _ 0)) by (cbn; lia). cbn [negb].
  apply runs_bind, runs_read_bytes; [lia..|]. change (Z.to_nat 0) with 0%nat. rewrite drop_0, Nat2Z.id, firstn_all.
  apply runs_bind, runs_assign. cbn [object trace fst snd]. apply runs_bind.
  eapply runs_out_made; [exact Hp| |by apply shader_new|..].
  - intros r. cbn -[Z.of_nat]. rewrite !option_guard_True by done. done.
  - intros h tr' Hnz Hh Ha. apply runs_ret. eexists. split; [done|]. repeat (split; [done|]). cbn.
    split; [|done]. unfold IsValid. cbn. by rewrite is_null_false.
  - intros r out tr' Hs _ Ha. unfold succeeded. rewrite bool_decide_eq_false_2 by done. apply runs_ret.
    destruct out; (eexists; by repeat split).
Qed.

(** Without code nothing is made. *)
Lemma runs_shader_Create_invalid allocated type code signature c o tr (R : ALResult -> world (with_context t) -> Prop) :
  bytecode code = None \/ bytecode_size code = 0 ->
  runs (Create allocated type code signature)
    (fun hr w => hr = E_INVALIDARG /\ trace w = tr /\ IsValid (snd (object w)) = IsValid o) R (mkWorld (c, o) tr).
Proof.
  intros Hc. unfold Create. apply runs_bind, runs_assign. cbn [object trace fst snd].
  apply runs_bind, runs_in_context, runs_this. cbn [object trace fst snd id].
  apply runs_bind, runs_assign. cbn [object trace fst snd].
  destruct (bytecode code); [|by apply runs_ret]. destruct Hc as [Hc|Hc]; [done|]. rewrite Hc. by apply runs_ret.
Qed.

Lemma runs_shader_Destroy c o tr p (R : ALResult -> world (with_context t) -> Prop) :
  GetModule o <> VK_NULL_HANDLE -> GetModule o ∉ shader_modules p ->
  objects_after tr = Some (p <| shader_modules ::= union {[GetModule o]} |>) ->
  runs Destroy (fun _ w => objects_after (trace w) = Some p /\ IsValid (snd (object w)) = false) R (mkWorld (c, o) tr).
Proof.
  intros Hnz Hh Hp. unfold Destroy. apply runs_bind, runs_member. cbn [object snd id]. apply runs_bind.
  eapply runs_destroy_made; [exact Hp|by apply shader_destroyed|done|].
  intros tr' Ha. apply runs_assign. cbn [object trace fst snd]. by apply runs_assign.
Qed.
End shader.

(** ** Programs *)

(** The shaders of a graphics pipeline, all alive. *)
Definition shaders_sound `{ShaderTypes} (p : pipeline_objects) (shaders : list Tr2ShaderAL.t) : Prop :=
  NoDup (Tr2ShaderAL.GetStage <$> shaders) /\ VK_SHADER_STAGE_VERTEX_BIT ∈ Tr2ShaderAL.GetStage <$> shaders /\
  Forall (fun s => is_graphics_stage (Tr2ShaderAL.GetStage s) = true /\
    Tr2ShaderAL.GetModule s ∈ shader_modules p) shaders.

Section program.
Context `{PipelineLaws} `{ShaderTypes} `{!RegisterMaps}.
Import Tr2ShaderProgramAL.

(** What a program owns, beside [p]. *)
Inductive owns (p : pipeline_objects) (o : t) : pipeline_objects -> Prop :=
| owns_nothing : m_descriptorSetLayout o = VK_NULL_HANDLE -> m_pipelineLayout o = VK_NULL_HANDLE -> owns p o p
| owns_set_layout bs :
    m_descriptorSetLayout o <> VK_NULL_HANDLE -> m_descriptorSetLayout o ∉ dom (set_layouts p) ->
    m_pipelineLayout o = VK_NULL_HANDLE -> owns p o (p <| set_layouts ::= insert (m_descriptorSetLayout o) bs |>)
| owns_both bs :
    m_descriptorSetLayout o <> VK_NULL_HANDLE -> m_descriptorSetLayout o ∉ dom (set_layouts p) ->
    m_pipelineLayout o <> VK_NULL_HANDLE -> m_pipelineLayout o ∉ pipeline_layouts p ->
    owns p o (p <| set_layouts ::= insert (m_descriptorSetLayout o) bs |>
      <| pipeline_layouts ::= union {[m_pipelineLayout o]} |>).

Lemma runs_program_Destroy {c o tr p p'} {R : ALResult -> world (with_context t) -> Prop} :
  owns p o p' -> objects_after tr = Some p' ->
  runs Destroy (fun _ w => objects_after (trace w) = Some p /\ IsValid (snd (object w)) = false) R (mkWorld (c, o) tr).
Proof.
  intros Ho Hp. unfold Destroy. apply runs_bind, runs_member. cbn [object snd id].
  destruct Ho as [Hd Hl|bs Hd Hdn Hl|bs Hd Hdn Hl Hln].
  - rewrite Hd, Hl. cbn [is_null]. by do 2 apply runs_bind, runs_ret.
  - rewrite Hl. apply runs_bind, runs_ret, runs_bind.
    eapply runs_destroy_made; [exact Hp|by apply set_layout_destroyed|done|].
    intros tr' Ha. apply runs_assign. cbn [object trace fst snd]. by apply runs_assign.
  - apply runs_bind. eapply runs_destroy_made; [exact Hp|by apply pipeline_layout_destroyed|done|].
    intros tr' Ha. apply runs_assign, runs_bind. cbn [object trace fst snd].
    eapply runs_destroy_made; [exact Ha|by apply set_layout_destroyed|done|].
    intros tr2 Ha2. apply runs_assign. cbn [object trace fst snd]. by apply runs_assign.
Qed.

(** The program with the shaders added. *)
Definition with_shaders (shaders : list Tr2ShaderAL.t) (o : t) : t :=
  o <| m_modules ::= fun l => l ++ (Tr2ShaderAL.GetModule <$> shaders) |>
    <| m_stages ::= fun l => l ++ (Tr2ShaderAL.GetStage <$> shaders) |>
    <| m_stageMask ::= fun l => l ++ (Tr2ShaderAL.GetStage <$> shaders) |>.

Lemma with_shaders_cons s shaders o :
  with_shaders shaders (o <| m_modules ::= fun l => l ++ [Tr2ShaderAL.GetModule s] |>
      <| m_stages ::= fun l => l ++ [Tr2ShaderAL.GetStage s] |>
      <| m_stageMask ::= or_if true [Tr2ShaderAL.GetStage s] |>) = with_shaders (s :: shaders) o.
Proof. unfold with_shaders. cbn. by rewrite <- !app_assoc. Qed.

Lemma runs_add_shaders {c} o tr shaders (Q : unit -> world (with_context t) -> Prop)
    (R : ALResult -> world (with_context t) -> Prop) :
  (Forall (fun s => Tr2ShaderAL.IsValid s = true) shaders -> Q tt (mkWorld (c, with_shaders shaders o) tr)) ->
  (forall before, Exists (fun s => Tr2ShaderAL.IsValid s = false) shaders ->
     R E_INVALIDARG (mkWorld (c, with_shaders before o) tr)) ->
  runs (for_each add_shader shaders) Q R (mkWorld (c, o) tr).
Proof.
  revert o. induction shaders as [|s shaders IH]; intros o HQ HR; cbn [for_each].
  { apply runs_ret. specialize (HQ (Forall_nil_2 _)). unfold with_shaders in HQ. cbn in HQ.
    rewrite !app_nil_r in HQ. by destruct o. }
  apply runs_bind. unfold add_shader. destruct (Tr2ShaderAL.IsValid s) eqn:Hs; cbn [negb].
  2: { apply runs_early. specialize (HR [] (Exists_cons_hd _ _ _ Hs)). unfold with_shaders in HR. cbn in HR.
       rewrite !app_nil_r in HR. by destruct o. }
  apply runs_bind, runs_assign, runs_bind, runs_assign, runs_assign. cbn [object trace fst snd]. apply IH.
  - intros Hall. rewrite with_shaders_cons. apply HQ. by constructor.
  - intros before Hex. rewrite with_shaders_cons. apply HR. by constructor.
Qed.

(** What [Create] leaves: the shaders in their order, and its layouts. *)
Definition program_made (shaders : list Tr2ShaderAL.t) (o : t) : Prop :=
  m_modules o = Tr2ShaderAL.GetModule <$> shaders /\ m_stages o = Tr2ShaderAL.GetStage <$> shaders /\
  m_stageMask o = Tr2ShaderAL.GetStage <$> shaders /\ m_registerMap o = register_map_of shaders /\
  IsValid o = true.

Lemma set_bindings_distinct mask : NoDup (slb_binding <$> set_bindings mask).
Proof. cbn. unfold BINDING_CONSTANT_BUFFER, BINDING_SRV, BINDING_UAV, BINDING_SAMPLER. by apply (bool_decide_unpack _). Qed.

Lemma runs_program_Create {c tr p} shaders (R : ALResult -> world (with_context t) -> Prop) :
  TidyCreations -> objects_after tr = Some p -> shaders <> [] ->
  runs (Create (Some shaders) (length shaders)) (fun hr w => exists o p', object w = (c, o) /\
      objects_after (trace w) = Some p' /\ owns p o p' /\
      match hr with
      | S_OK => Forall (fun s => Tr2ShaderAL.IsValid s = true) shaders /\ program_made shaders o /\
          set_layouts p' !! m_descriptorSetLayout o = Some (set_bindings (m_stageMask o)) /\
          m_pipelineLayout o ∈ pipeline_layouts p'
      | E_INVALIDARG => Exists (fun s => Tr2ShaderAL.IsValid s = false) shaders
      | _ => hr = E_FAIL
      end) R (mkWorld (c, new) tr).
Proof.
  intros Ht Hp Hne. unfold Create. apply runs_function.
  assert (Hlen : (length shaders =? 0)%nat = false) by by (destruct shaders). rewrite Hlen, Nat.ltb_irrefl, firstn_all.
  apply runs_bind, runs_in_context, runs_this. cbn [object trace fst snd id].
  apply runs_bind, runs_assign. cbn [object trace fst snd]. apply runs_bind, runs_add_shaders.
  2: { intros before Hex. eexists _, p. split; [done|]. split; [done|]. split; [by constructor|done]. }
  intros Hall. apply runs_bind, runs_member. cbn [object snd id]. apply runs_bind.
  eapply runs_out_made_tidy; [exact Hp| |by apply set_layout_new|by apply set_layout_tidy|done|..].
  { intros r. cbn -[set_bindings]. rewrite option_guard_True by apply set_bindings_distinct. done. }
  2: { intros r tr' Hs Ha. unfold succeeded. rewrite bool_decide_eq_false_2 by done. apply runs_ret.
       eexists _, p. split; [done|]. split; [done|]. by split; [constructor|]. }
  intros h tr1 Hh Hin Ha. change (succeeded VK_SUCCESS) with true. cbn [negb].
  apply runs_bind, runs_member. cbn [object snd id]. apply runs_bind.
  eapply runs_out_made_tidy; [exact Ha| |by apply pipeline_layout_new|by apply pipeline_layout_tidy|done|..].
  { intros r. cbn. rewrite option_guard_True; [done|]. constructor; [|constructor]. rewrite lookup_insert_eq. by eexists. }
  2: { intros r tr' Hs Ha2. unfold succeeded. rewrite bool_decide_eq_false_2 by done. apply runs_ret.
       eexists _, _. split; [done|]. split; [exact Ha2|]. split; [|done]. by apply owns_set_layout. }
  intros l tr2 Hl Hlin Ha2. change (succeeded VK_SUCCESS) with true. cbn [negb].
  apply runs_bind, runs_assign, runs_ret. cbn [object trace fst snd].
  eexists _, _. split; [done|]. split; [exact Ha2|]. split; [by apply owns_both|].
  split; [done|]. split; [by repeat split|]. cbn. split; [by rewrite lookup_insert_eq|set_solver].
Qed.
End program.

(** A program is created of shaders and destroyed. It has the stages, the modules and
    the registers of its shaders, and what it created of Vulkan is destroyed with it,
    whether [Create] succeeds or one of its steps fails; a shader that is not valid
    is refused. *)
Theorem program_lifetime `{PipelineLaws} `{ShaderTypes} `{!RegisterMaps} c tr p (shaders : list Tr2ShaderAL.t)
    (Ht : TidyCreations) (Hp : objects_after tr = Some p) (Hne : shaders <> []) :
  runs (hr ← Tr2ShaderProgramAL.Create (Some shaders) (length shaders); o ← member id;
        Tr2ShaderProgramAL.Destroy;; mret (hr, o))
    (fun r w => objects_after (trace w) = Some p /\
       Tr2ShaderProgramAL.IsValid (snd (object w)) = false /\
       match r.1 with
       | S_OK => Forall (fun s => Tr2ShaderAL.IsValid s = true) shaders /\ program_made shaders r.2
       | E_INVALIDARG => Exists (fun s => Tr2ShaderAL.IsValid s = false) shaders
       | _ => r.1 = E_FAIL
       end)
    (fun _ _ => False) (mkWorld (c, Tr2ShaderProgramAL.new) tr).
Proof.
  apply runs_bind. eapply runs_mono; [by eapply (runs_program_Create shaders (fun _ _ => False))| |done].
  intros hr [co tr'] (o & p' & E & Hp' & Ho & Hhr). cbn [object] in E. subst co. apply runs_bind, runs_member, runs_bind. cbn [object trace snd id] in *.
  eapply runs_mono; [exact (runs_program_Destroy (R := fun _ _ => False) Ho Hp')| |done]. intros [] w [Ha Hv]. apply runs_ret.
  split; [done|]. split; [done|]. cbn. destruct hr; naive_solver.
Qed.

(** ** Instances

    Programs whose registers are those of [map]; a vertex and a pixel shader. *)

Definition plain_shaders : ShaderTypes := {|
  Tr2ShaderSignatureAL := unit; default_signature := tt; shader_type_number _ := 0;
  MAX_RESOURCES_IN_STAGE := 32; SHADER_TYPE_COUNT := 6 |}.
Definition no_registers : Tr2RegisterMapAL :=
  mkTr2RegisterMapAL (fun _ _ => 255) (fun _ _ => 255) (fun _ _ => 255) 0 0 0.
Definition plain_maps : @RegisterMaps plain_shaders := {|
  default_register_map := no_registers; register_map_of _ := no_registers |}.

#[local] Existing Instances plain_shaders plain_maps.

Definition shader_of (type : ShaderType) (module : VkHandle) : Tr2ShaderAL.t := Tr2ShaderAL.mk type [x2a; x2a; x2a; x2a] tt module 1.
Definition two_shaders : list Tr2ShaderAL.t := [shader_of VERTEX_SHADER 1; shader_of PIXEL_SHADER 2].

(** How their modules came about. *)
Definition two_shaders_made : list event :=
  [Event (vkCreateShaderModule 1 [x2a; x2a; x2a; x2a]) (VK_SUCCESS, Some 2);
   Event (vkCreateShaderModule 1 [x2a; x2a; x2a; x2a]) (VK_SUCCESS, Some 1)].

Example program_lifetime_witness :
  @runs (with_context Tr2ShaderProgramAL.t) (ALResult * Tr2ShaderProgramAL.t)
    (hr ← @Tr2ShaderProgramAL.Create _ _ (respond calm) (Some two_shaders) 2; o ← member id;
     @Tr2ShaderProgramAL.Destroy (respond calm);; mret (hr, o))
    (fun r w => r.1 = S_OK -> Tr2ShaderProgramAL.GetModule r.2 1 = Some 2)
    (fun _ _ => False) (at_ new_VulkanContext Tr2ShaderProgramAL.new two_shaders_made).
Proof.
  eapply runs_mono; [eapply (@program_lifetime (respond calm) (respond_makes calm) plain_shaders plain_maps new_VulkanContext
    two_shaders_made _ two_shaders (respond_tidy calm)); [vm_compute; reflexivity|done]| |done].
  intros [hr o] w (_ & _ & Hr) Hok. cbn in Hok. subst hr. destruct Hr as [_ (Hm & _)].
  unfold Tr2ShaderProgramAL.GetModule. cbn in Hm |- *. by rewrite Hm.
Defined.
