(* ===== verification/VulkanVertexLayoutSpec.v ===== *)
(** * Vertex layouts describe vertices and serve pipelines

    The bindings that [Create] collects are the streams in their order, each as wide as
    the furthest end of its elements, and the attributes are the elements in theirs.
    The pipeline that [GetPipeline] answers is alive and made as asked for, whatever
    was asked for before, as long as an address is that of one program. *)

From stdpp Require Import base numbers list option strings gmap fin_maps sets sorting.
From S2P Require Import Prelude RenderGraph VulkanFormats Vulkan VulkanContext VulkanUsage VulkanMemory VulkanPipelineRules VulkanDriver VulkanObject VulkanPipelines VulkanVertexLayout VulkanPipelinesSpec.
Import VkFormat.

#[local] Open Scope Z_scope.

(** ** Strides *)

(** The furthest end of the elements of a stream. *)
Definition stream_end `{VertexSizes} (items : list vertex_item) (stream : Z) : Z :=
  foldr Z.max 0 (item_end <$> List.filter (fun item => m_stream item =? stream) items).

Abbreviation ascending := (StronglySorted Z.lt).

Lemma ascending_NoDup l : ascending l -> NoDup l.
Proof.
  induction 1 as [|x l Hs IH Hx]; constructor; [|done]. intros Hin. eapply Forall_forall in Hx; [|exact Hin]. lia.
Qed.

Lemma raise_to_keys stream n m :
  ascending m.*1 -> forall k, k ∈ (raise_to stream n m).*1 <-> k = stream \/ k ∈ m.*1.
Proof.
  induction m as [|[k0 v0] m IH]; intros Hs k; cbn; [set_solver|].
  inversion_clear Hs as [|? ? Hs' Hk0]. destruct (Z.eqb_spec k0 stream) as [->|Hne]; [cbn; set_solver|].
  destruct (Z.ltb_spec stream k0); cbn; [set_solver|]. rewrite !elem_of_cons, (IH Hs'). tauto.
Qed.

Lemma raise_to_ascending stream n m : ascending m.*1 -> ascending (raise_to stream n m).*1.
Proof.
  induction m as [|[k0 v0] m IH]; intros Hs; cbn; [by repeat constructor|].
  inversion_clear Hs as [|? ? Hs' Hk0]. destruct (Z.eqb_spec k0 stream) as [->|Hne]; [by constructor|].
  destruct (Z.ltb_spec stream k0) as [Hlt|Hge].
  - constructor; [by constructor|]. constructor; [done|]. eapply Forall_impl; [exact Hk0|]. cbn. lia.
  - constructor; [by apply IH|]. apply Forall_forall. intros k [->|Hk]%raise_to_keys; [|by eapply Forall_forall in Hk|done].
    cbn. lia.
Qed.

Lemma raise_to_map stream n m :
  ascending m.*1 ->
  list_to_map (raise_to stream n m) =@{gmap Z Z}
    <[stream := Z.max (default 0 ((list_to_map m : gmap Z Z) !! stream)) n]> (list_to_map m).
Proof.
  induction m as [|[k0 v0] m IH]; intros Hs; cbn; [done|].
  inversion_clear Hs as [|? ? Hs' Hk0]. destruct (Z.eqb_spec k0 stream) as [->|Hne].
  - cbn. by rewrite lookup_insert_eq, insert_insert_eq.
  - destruct (Z.ltb_spec stream k0) as [Hlt|Hge]; cbn.
    + rewrite lookup_insert_ne by done. rewrite not_elem_of_list_to_map_1; [done|].
      intros Hin. eapply Forall_forall in Hk0; [|exact Hin]. cbn in Hk0. lia.
    + rewrite (IH Hs'), lookup_insert_ne by done. by rewrite insert_insert_ne.
Qed.

Section strides.
Context `{VertexSizes}.

Lemma stream_end_snoc items item stream :
  stream_end (items ++ [item]) stream =
    if m_stream item =? stream then Z.max (stream_end items stream) (item_end item) else stream_end items stream.
Proof.
  unfold stream_end. rewrite List.filter_app, fmap_app. cbn. destruct (_ =? _); cbn; [|by rewrite app_nil_r].
  rewrite foldr_app. cbn. assert (Hr : 0 <= item_end item) by apply (wrap_u_range 32 _ ltac:(lia)).
  induction (item_end <$> _) as [|x l IH]; cbn; lia.
Qed.

(** The streams there are, with their ends. *)
Lemma streamMaxOffset_spec items :
  ascending (streamMaxOffset items).*1 /\
  forall k, (list_to_map (streamMaxOffset items) : gmap Z Z) !! k =
    if bool_decide (k ∈ m_stream <$> items) then Some (stream_end items k) else None.
Proof.
  unfold streamMaxOffset. induction items as [|item items IH] using rev_ind.
  { split; [by constructor|]. intros k. by rewrite bool_decide_eq_false_2 by apply not_elem_of_nil. }
  rewrite foldl_app. cbn. destruct IH as [Hs Hm]. split; [by apply raise_to_ascending|].
  intros k. rewrite raise_to_map by done. rewrite fmap_app. destruct (decide (m_stream item = k)) as [<-|Hne].
  - rewrite lookup_insert_eq, Hm. rewrite (bool_decide_eq_true_2 (_ ∈ _ ++ _)) by (rewrite elem_of_app; right; constructor).
    rewrite stream_end_snoc, Z.eqb_refl. do 2 f_equal. case_bool_decide as Hin; [done|]. cbn.
    unfold stream_end. replace (List.filter _ items) with (@nil vertex_item); [done|].
    symmetry. clear -Hin. induction items as [|i items IH]; [done|]. cbn.
    cbn in Hin. rewrite not_elem_of_cons in Hin. destruct Hin as [Hne Hin].
    rewrite (proj2 (Z.eqb_neq (m_stream i) (m_stream item))) by done. by apply IH.
  - rewrite lookup_insert_ne, Hm by done. rewrite stream_end_snoc, (proj2 (Z.eqb_neq _ _)) by done.
    rewrite (bool_decide_ext (k ∈ _ ++ _) (k ∈ m_stream <$> items)); [done|].
    rewrite elem_of_app. cbn. rewrite elem_of_cons, elem_of_nil. naive_solver.
Qed.
End strides.

(** ** Bindings and attributes *)

Definition attribute `{Tr2VertexDefinition} (location : Z) (item : vertex_item) : VkVertexInputAttributeDescription :=
  mkVkVertexInputAttributeDescription location (m_stream item) (ConvertVertexDataType (m_dataType item)) (m_offset item).

Definition attributes_from `{Tr2VertexDefinition} (n : Z) (items : list vertex_item)
    : list VkVertexInputAttributeDescription :=
  imap (fun i item => attribute (n + Z.of_nat i) item) items.

Definition has_data_type `{Tr2VertexDefinition} (item : vertex_item) : Prop :=
  ConvertVertexDataType (m_dataType item) <> VK_FORMAT_UNDEFINED.

Section layout.
Context `{Tr2VertexDefinition} `{VertexSizes}.
Import Tr2VertexLayoutAL.

Lemma attributes_from_cons n item items :
  attributes_from n (item :: items) = attribute n item :: attributes_from (n + 1) items.
Proof.
  unfold attributes_from. cbn. f_equal; [f_equal; lia|]. apply imap_ext. intros i x _. cbn. f_equal. lia.
Qed.

Lemma attributes_from_locations n items : via_location <$> attributes_from n items = seqZ n (Z.of_nat (length items)).
Proof.
  revert n. induction items as [|item items IH]; intros n; [done|].
  rewrite attributes_from_cons, seqZ_cons by (cbn; lia). cbn [fmap list_fmap]. f_equal. rewrite IH. f_equal; cbn; lia.
Qed.

Lemma attributes_from_streams n items : via_binding <$> attributes_from n items = m_stream <$> items.
Proof.
  revert n. induction items as [|item items IH]; intros n; [done|]. rewrite attributes_from_cons. cbn. by rewrite IH.
Qed.

Lemma runs_add_attributes {c} o tr n items (Q : unit -> world (with_context t) -> Prop)
    (R : ALResult -> world (with_context t) -> Prop) :
  0 <= n -> n + Z.of_nat (length items) < 2 ^ 32 ->
  (Forall has_data_type items -> Q tt (mkWorld (c, o <| m_attributes ::= fun l => l ++ attributes_from n items |>) tr)) ->
  (forall l, ~ Forall has_data_type items ->
     R E_INVALIDARG (mkWorld (c, o <| m_attributes := l |>) tr)) ->
  runs (add_attributes n items) Q R (mkWorld (c, o) tr).
Proof.
  revert o n. induction items as [|item items IH]; intros o n Hn Hlen HQ HR; cbn [add_attributes].
  { apply runs_ret. specialize (HQ (Forall_nil_2 _)). cbn in HQ. rewrite app_nil_r in HQ. by destruct o. }
  cbn [via_format length] in *. unfold has_format. case_bool_decide as Hf; cbn [negb].
  { apply runs_early. specialize (HR (m_attributes o)). destruct o. apply HR. intros Hall. by inversion_clear Hall. }
  apply runs_bind, runs_assign. cbn [object trace fst snd].
  assert (E : u32 (n + 1) = n + 1) by (apply wrap_u_small; unfold in_u; lia). rewrite E. apply IH; [lia..| |].
  - intros Hall. specialize (HQ (Forall_cons_2 has_data_type item items Hf Hall)). rewrite attributes_from_cons in HQ. cbn in HQ.
    cbn. by rewrite <- app_assoc.
  - intros l Hno. apply (HR l). intros Hall. by inversion_clear Hall.
Qed.

(** The bindings of the streams. *)
Lemma bindings_spec items (bs := (fun e : Z * Z => mkVkVertexInputBindingDescription e.1 e.2) <$> streamMaxOffset items) :
  ascending (vib_binding <$> bs) /\
  forall b, b ∈ bs <-> vib_binding b ∈ m_stream <$> items /\ vib_stride b = stream_end items (vib_binding b).
Proof.
  destruct (streamMaxOffset_spec items) as [Hs Hm].
  assert (Hk : vib_binding <$> bs = (streamMaxOffset items).*1) by (unfold bs; by rewrite <- list_fmap_compose).
  rewrite Hk. split; [done|]. intros [k v]. cbn.
  assert (Hnd : NoDup (streamMaxOffset items).*1) by by apply ascending_NoDup.
  assert (Hin : mkVkVertexInputBindingDescription k v ∈ bs <-> (k, v) ∈ streamMaxOffset items).
  { unfold bs. rewrite list_elem_of_fmap. split; [intros ([] & [= -> ->] & ?); done|intros; by exists (k, v)]. }
  rewrite Hin, (elem_of_list_to_map (M := gmap Z) _ _ _ Hnd), Hm. case_bool_decide; naive_solver.
Qed.
End layout.

(** What a layout says about the elements of a vertex. *)
Definition describes_items `{Tr2VertexDefinition} `{VertexSizes} (items : list vertex_item) (o : Tr2VertexLayoutAL.t) : Prop :=
  let bindings := Tr2VertexLayoutAL.m_bindings o in
  ascending (vib_binding <$> bindings) /\
  (forall b, b ∈ bindings <->
     (vib_binding b ∈ m_stream <$> items /\ vib_stride b = stream_end items (vib_binding b))) /\
  Tr2VertexLayoutAL.m_attributes o = imap (fun i item => attribute (Z.of_nat i) item) items /\
  vertex_input_sound bindings (Tr2VertexLayoutAL.m_attributes o).

(** C16. The creation of a new layout, of fewer than 2^32 elements, describes the
    vertices: a binding for each stream, in ascending order and as wide as the furthest
    end of its elements, and an attribute for each element, at the locations from 0 on,
    of a binding there is. An element whose data type has no format is refused, and then
    the layout is not valid. (A layout created again says everything twice,
    [layout_created_twice].) *)
Theorem layout_describes `{Tr2VertexDefinition} `{VertexSizes} c tr items
    (Hn : Z.of_nat (length items) < 2 ^ 32) :
  runs (Tr2VertexLayoutAL.Create items)
    (fun hr w => trace w = tr /\
       if bool_decide (Forall has_data_type items) then
         hr = S_OK /\ describes_items items (snd (object w)) /\ Tr2VertexLayoutAL.IsValid (snd (object w)) = true
       else hr = E_INVALIDARG /\ Tr2VertexLayoutAL.IsValid (snd (object w)) = false)
    (fun _ _ => False) (mkWorld (c, Tr2VertexLayoutAL.new) tr).
Proof.
  unfold Tr2VertexLayoutAL.Create. apply runs_function.
  apply runs_bind, runs_in_context, runs_this. cbn [object trace fst snd id].
  apply runs_bind, runs_assign. cbn [object trace fst snd].
  apply runs_bind, runs_assign. cbn [object trace fst snd].
  apply runs_bind, runs_add_attributes; [lia|by cbn|..].
  2: { intros l Hno. split; [done|]. by rewrite bool_decide_eq_false_2. }
  intros Hall. apply runs_bind, runs_assign, runs_ret. cbn [object trace fst snd]. split; [done|].
  rewrite bool_decide_eq_true_2 by done. split; [done|]. split; [|done]. cbn -[attributes_from].
  destruct (bindings_spec items) as [Hs Hb]. split; [done|]. split; [done|]. split; [done|].
  split; [by apply ascending_NoDup|]. cbn [Tr2VertexLayoutAL.m_attributes].
  split; [rewrite attributes_from_locations; apply NoDup_seqZ|].
  apply Forall_forall. intros a Ha. apply list_elem_of_fmap.
  assert (Hstream : via_binding a ∈ m_stream <$> items).
  { rewrite <- (attributes_from_streams 0). by apply list_elem_of_fmap_2. }
  exists (mkVkVertexInputBindingDescription (via_binding a) (stream_end items (via_binding a))). split; [done|]. by apply Hb.
Qed.

(** ** Pipelines *)

(** The graphics pipelines of a program can be made: its stages are those of one, each
    with a module alive, there is room for them, and so is its layout alive. *)
Record program_sound (p : pipeline_objects) (program : Tr2ShaderProgramAL.t) : Prop := mk_program_sound
  { sound_stages : stages_sound p (zip (Tr2ShaderProgramAL.m_stages program) (Tr2ShaderProgramAL.m_modules program));
    sound_length : length (Tr2ShaderProgramAL.m_stages program) = length (Tr2ShaderProgramAL.m_modules program);
    sound_room : (length (Tr2ShaderProgramAL.m_modules program) <= 6)%nat;
    sound_layout : Tr2ShaderProgramAL.GetPipelineLayout program ∈ pipeline_layouts p }.

(** There is a module for each stage, and room for them in the array of [GetPipeline]. *)
Definition fits (program : Tr2ShaderProgramAL.t) : Prop :=
  length (Tr2ShaderProgramAL.m_stages program) = length (Tr2ShaderProgramAL.m_modules program) /\
  (length (Tr2ShaderProgramAL.m_modules program) <= 6)%nat.

Lemma pipeline_info_fits program topology colorFormat depthFormat o :
  fits program ->
  Tr2VertexLayoutAL.pipeline_info program topology colorFormat depthFormat o = Some (mkVkGraphicsPipelineCreateInfo
    (zip (Tr2ShaderProgramAL.m_stages program) (Tr2ShaderProgramAL.m_modules program))
    (Tr2VertexLayoutAL.m_bindings o) (Tr2VertexLayoutAL.m_attributes o) (ConvertTopology topology)
    (Tr2VertexLayoutAL.has_format depthFormat) (Tr2ShaderProgramAL.GetPipelineLayout program) colorFormat depthFormat).
Proof.
  intros [Hl Hroom]. unfold Tr2VertexLayoutAL.pipeline_info. erewrite (proj2 (mapM_Some _ _ _)); [done|].
  apply Forall2_same_length_lookup. unfold Tr2ShaderProgramAL.GetShaderCount.
  split; [rewrite length_seq, length_zip; lia|]. intros i x [stage module] [-> Hi]%lookup_seq Hz.
  apply lookup_zip_with_Some in Hz as (s & m & [= -> ->] & Hs & Hm). cbn.
  unfold Tr2ShaderProgramAL.GetStage, Tr2ShaderProgramAL.GetModule. rewrite Hs, Hm. cbn.
  by rewrite option_guard_True by lia.
Qed.

(** What is asked for. *)
Record request := mkRequest
  { r_address : Z; r_topology : Topology; r_colorFormat : VkFormat.type; r_depthFormat : VkFormat.type;
    r_cache : VkHandle }.

Section serves.
Context `{PipelineLaws}.
Import Tr2VertexLayoutAL.
Implicit Types (p : pipeline_objects) (o : t) (tr : list event).

Context (program_at : Z -> Tr2ShaderProgramAL.t).

(** The pipeline of a request, with the vertices of [o]. *)
Definition wanted (r : request) (o : t) : VkGraphicsPipelineCreateInfo :=
  let program := program_at (r_address r) in
  mkVkGraphicsPipelineCreateInfo
    (zip (Tr2ShaderProgramAL.m_stages program) (Tr2ShaderProgramAL.m_modules program))
    (m_bindings o) (m_attributes o) (ConvertTopology (r_topology r)) (has_format (r_depthFormat r))
    (Tr2ShaderProgramAL.GetPipelineLayout program) (r_colorFormat r) (r_depthFormat r).

Definition ask (r : request) : Code (with_context t) VkHandle :=
  GetPipeline (r_address r) (program_at (r_address r)) (r_topology r) (r_colorFormat r) (r_depthFormat r) (r_cache r).

(** The layout keeps the vertices of [o0], and beside [p] there is the pipeline that it
    keeps. *)
Inductive keeps p (o0 o : t) : pipeline_objects -> Prop :=
| keeps_none :
    m_bindings o = m_bindings o0 -> m_attributes o = m_attributes o0 ->
    m_cachedPipeline o = VK_NULL_HANDLE -> keeps p o0 o p
| keeps_one r :
    m_bindings o = m_bindings o0 -> m_attributes o = m_attributes o0 ->
    m_cachedPipeline o <> VK_NULL_HANDLE -> m_cachedPipeline o ∉ dom (pipelines p) ->
    m_cachedProgram o = r_address r -> m_cachedTopology o = Some (r_topology r) ->
    m_cachedColorFormat o = r_colorFormat r -> m_cachedDepthFormat o = r_depthFormat r ->
    m_cachedUsesDepth o = has_format (r_depthFormat r) ->
    keeps p o0 o (p <| pipelines ::= insert (m_cachedPipeline o) (wanted r o0) |>).

Lemma pipeline_info_wanted r o p :
  program_sound p (program_at (r_address r)) ->
  pipeline_info (program_at (r_address r)) (r_topology r) (r_colorFormat r) (r_depthFormat r) o = Some (wanted r o).
Proof. intros [_ Hl Hroom _]. exact (pipeline_info_fits _ _ _ _ _ (conj Hl Hroom)). Qed.

(** The pipeline kept is the one asked for, when it is found. *)
Lemma cached_wanted p o0 o p' r :
  keeps p o0 o p' -> is_cached (r_address r) (r_topology r) (r_colorFormat r) (r_depthFormat r) o = true ->
  p' = p <| pipelines ::= insert (m_cachedPipeline o) (wanted r o0) |> /\ m_cachedPipeline o ∉ dom (pipelines p).
Proof.
  unfold is_cached. intros Hk Hc. repeat apply andb_prop in Hc as [Hc ?].
  destruct Hk as [_ _ Hn|r' _ _ Hn Hin Ha Ht Hcf Hdf Hu].
  { rewrite Hn in Hc. done. }
  split; [|done]. destruct r as [a t cf df ca], r' as [a' t' cf' df' ca']; cbn in *.
  repeat match goal with h : bool_decide _ = true |- _ => apply bool_decide_eq_true in h end.
  repeat match goal with h : (_ =? _) = true |- _ => apply Z.eqb_eq in h end.
  unfold wanted. cbn. congruence.
Qed.

(** Asked for again, it is found. *)
Lemma is_cached_again o r :
  m_cachedPipeline o <> VK_NULL_HANDLE -> m_cachedProgram o = r_address r -> m_cachedTopology o = Some (r_topology r) ->
  m_cachedColorFormat o = r_colorFormat r -> m_cachedDepthFormat o = r_depthFormat r ->
  m_cachedUsesDepth o = has_format (r_depthFormat r) ->
  is_cached (r_address r) (r_topology r) (r_colorFormat r) (r_depthFormat r) o = true.
Proof.
  unfold is_cached. intros Hn -> -> -> -> ->. rewrite is_null_false, Z.eqb_refl by done.
  rewrite !bool_decide_eq_true_2 by done. cbn. apply eqb_reflx.
Qed.

Lemma runs_destroy_cached {c p o0 o p' tr} (Q : unit -> world (with_context t) -> Prop) R :
  keeps p o0 o p' -> objects_after tr = Some p' ->
  (forall tr', objects_after tr' = Some p -> Q tt (mkWorld (c, o <| m_cachedPipeline := VK_NULL_HANDLE |>) tr')) ->
  runs destroy_cached Q R (mkWorld (c, o) tr).
Proof.
  intros Hk Hp HQ. unfold destroy_cached. apply runs_bind, runs_member. cbn [object snd id].
  destruct Hk as [Hb Ha Hn|r' Hb Ha Hn Hin _ _ _ _ _].
  - rewrite Hn. cbn [is_null]. apply runs_ret. specialize (HQ tr Hp). destruct o; cbn in *. by subst.
  - eapply runs_destroy_made; [exact Hp|by apply pipeline_destroyed|done|].
    intros tr' Hp'. apply runs_assign. cbn [object trace fst snd]. by apply HQ.
Qed.

(** A pipeline that is refused. *)
Definition refuses_pipelines : Prop :=
  exists tr d cache info, (answer tr (vkCreateGraphicsPipelines d cache info)).1 <> VK_SUCCESS.

Lemma runs_ask {c p o0 o p' tr} r (R : ALResult -> world (with_context t) -> Prop) :
  keeps p o0 o p' -> objects_after tr = Some p' -> program_sound p (program_at (r_address r)) ->
  vertex_input_sound (m_bindings o0) (m_attributes o0) ->
  runs (ask r) (fun h w => exists o' p'' tr', w = mkWorld (c, o') tr' /\ keeps p o0 o' p'' /\
      objects_after tr' = Some p'' /\
      (h <> VK_NULL_HANDLE -> p'' = p <| pipelines ::= insert h (wanted r o0) |> /\ h = m_cachedPipeline o' /\
         is_cached (r_address r) (r_topology r) (r_colorFormat r) (r_depthFormat r) o' = true) /\
      (h = VK_NULL_HANDLE -> refuses_pipelines)) R (mkWorld (c, o) tr).
Proof.
  intros Hk Hp Hs Hv. unfold ask, GetPipeline. apply runs_bind, runs_member. cbn [object snd id].
  destruct (is_cached _ _ _ _ o) eqn:Hc.
  { apply runs_ret. exists o, p', tr. split; [done|]. split; [done|]. split; [done|]. split.
    - intros _. by destruct (cached_wanted _ _ _ _ _ Hk Hc).
    - intros Hn. unfold is_cached in Hc. rewrite Hn in Hc. done. }
  apply runs_bind. eapply runs_destroy_cached; [done..|]. intros tr1 Hp1.
  apply runs_bind, runs_member. cbn [object snd id].
  assert (Hb : m_bindings o = m_bindings o0 /\ m_attributes o = m_attributes o0) by by destruct Hk.
  destruct Hb as [Hb Ha]. rewrite (pipeline_info_wanted r _ p Hs).
  assert (Hw : wanted r (o <| m_cachedPipeline := VK_NULL_HANDLE |>) = wanted r o0).
  { unfold wanted. cbn. by rewrite Hb, Ha. }
  rewrite Hw. apply runs_bind, runs_call. intros [res out] Hr. cbn [object trace fst snd] in *.
  set (k := vkCreateGraphicsPipelines _ _ _) in *.
  assert (Hop : objects_after (Event k (res, out) :: tr1) =
      Some (add_made (res, out) (fun h p => p <| pipelines ::= insert h (wanted r o0) |>) p)).
  { cbn [objects_after]. rewrite Hp1. cbn -[check_pipeline]. rewrite option_guard_True; [done|].
    split; [apply Hs|]. split; [apply Hs|]. done. }
  pose proof (pipeline_new tr1 p (m_device (o <| m_cachedPipeline := VK_NULL_HANDLE |>)) (r_cache r) (wanted r o0) Hp1) as Hnew.
  unfold succeeded. case_bool_decide as Hres; cbn [negb].
  2: { apply runs_ret. eexists _, p, _. split; [done|]. split; [by constructor|].
       split; [etrans; [exact Hop|]; by destruct res|]. split; [done|]. intros _. eexists _, _, _, _.
       intros E. apply Hres. exact (eq_trans (f_equal fst Hr) E). }
  subst res. destruct Hnew as (h & Hh & Hnz & Hin); [exact (eq_sym (f_equal fst Hr))|].
  pose proof (eq_trans (f_equal snd Hr) Hh) as E. cbn in E. subst out. cbn [default]. apply runs_bind, runs_assign, runs_ret. cbn [object trace fst snd].
  eexists _, _, _. split; [done|]. split; [by eapply (keeps_one p o0 _ r)|]. split; [exact Hop|].
  split; [|by intros E]. intros _. split; [done|]. split; [done|]. by apply is_cached_again.
Qed.

Lemma runs_asks {c p o0 o p' tr} rs (R : ALResult -> world (with_context t) -> Prop) :
  keeps p o0 o p' -> objects_after tr = Some p' ->
  Forall (fun r => program_sound p (program_at (r_address r))) rs ->
  vertex_input_sound (m_bindings o0) (m_attributes o0) ->
  runs (for_each (fun r => ask r;; mret tt) rs) (fun _ w => exists o' p'' tr', w = mkWorld (c, o') tr' /\
      keeps p o0 o' p'' /\ objects_after tr' = Some p'') R (mkWorld (c, o) tr).
Proof.
  intros Hk Hp Hs Hv. revert o p' tr Hk Hp. induction rs as [|r rs IH]; intros o p' tr Hk Hp; cbn [for_each].
  { apply runs_ret. by exists o, p', tr. }
  apply Forall_cons in Hs as [Hr Hs]. do 2 apply runs_bind.
  eapply runs_mono; [by eapply (runs_ask r (fun _ _ => False))| |done].
  intros h w (o' & p'' & tr' & -> & Hk' & Hp' & _ & _). apply runs_ret. by eapply IH.
Qed.
End serves.

(** C14. Whatever was asked of a layout before, the pipeline that it answers is made as asked
    for, of the stages of the program and its own vertices, and is the only one it has
    alive; asked for again it is answered without a call; and it is destroyed with the
    layout. The programs of different requests have different addresses. *)
Theorem GetPipeline_serves `{PipelineLaws}
    program_at c tr p o (before : list request) (r : request)
    (Hp : objects_after tr = Some p)
    (Ho : Tr2VertexLayoutAL.m_cachedPipeline o = VK_NULL_HANDLE)
    (Hv : vertex_input_sound (Tr2VertexLayoutAL.m_bindings o) (Tr2VertexLayoutAL.m_attributes o))
    (Hs : Forall (fun r => program_sound p (program_at (r_address r))) (r :: before)) :
  runs (for_each (fun r => ask program_at r;; mret tt) before;;
        h ← ask program_at r; asked ← calls; again ← ask program_at r; asked_again ← calls;
        Tr2VertexLayoutAL.Destroy;; mret (h, asked, again, asked_again))
    (fun a w => let '(h, asked, again, asked_again) := a in
       (h <> VK_NULL_HANDLE ->
          objects_after asked = Some (p <| pipelines ::= insert h (wanted program_at r o) |>) /\
          again = h /\ asked_again = asked) /\
       (h = VK_NULL_HANDLE -> refuses_pipelines) /\
       objects_after (trace w) = Some p /\ Tr2VertexLayoutAL.IsValid (snd (object w)) = false)
    (fun _ _ => False) (mkWorld (c, o) tr).
Proof.
  apply Forall_cons in Hs as [Hr Hs]. apply runs_bind.
  eapply runs_mono; [by eapply (runs_asks program_at before (fun _ _ => False)); [by apply keeps_none| |..]| |done].
  intros [] w (o1 & p1 & tr1 & -> & Hk1 & Hp1). apply runs_bind.
  eapply runs_mono; [by eapply (runs_ask program_at r (fun _ _ => False))| |done].
  intros h w (o2 & p2 & tr2 & -> & Hk2 & Hp2 & Hh & Href). apply runs_bind, runs_calls, runs_bind. cbn [trace].
  assert (Hagain : runs (ask program_at r) (fun h' w => exists o3 p3 tr3, w = mkWorld (c, o3) tr3 /\
      keeps program_at p o o3 p3 /\ objects_after tr3 = Some p3 /\ (h <> VK_NULL_HANDLE -> h' = h /\ tr3 = tr2))
      (fun _ _ => False) (mkWorld (c, o2) tr2)).
  { destruct (decide (h = VK_NULL_HANDLE)) as [Hn|Hn].
    - eapply runs_mono; [by eapply (runs_ask program_at r (fun _ _ => False))| |done].
      intros h' w (o3 & p3 & tr3 & -> & Hk3 & Hp3 & _ & _). by exists o3, p3, tr3.
    - destruct (Hh Hn) as (_ & -> & Hc). unfold ask, Tr2VertexLayoutAL.GetPipeline. apply runs_bind, runs_member.
      cbn [object snd id]. rewrite Hc. apply runs_ret. by exists o2, p2, tr2. }
  eapply runs_mono; [exact Hagain| |done]. intros again w (o3 & p3 & tr3 & -> & Hk3 & Hp3 & Hsame).
  apply runs_bind, runs_calls, runs_bind, runs_bind. cbn [trace].
  eapply runs_destroy_cached; [exact Hk3|exact Hp3|]. intros tr4 Hp4. apply runs_assign, runs_ret. cbn [object trace fst snd].
  split; [|by split]. intros Hn. destruct (Hh Hn) as (-> & _ & _). by destruct (Hsame Hn) as [-> ->].
Qed.

(** ** Instances

    Data types are numbered by the number of their members, in tens, and their
    component. *)

Definition plain_vertices : Tr2VertexDefinition := {|
  DT_NORMALIZED_BIT := 256; DT_UNSIGNED_BIT := 512; DT_TYPE_MASK := 7; DT_INT8 := 1; DT_INT16 := 2;
  DT_INT32 := 3; DT_FLOAT16 := 4; DT_FLOAT32 := 5; GetDataTypeSizeInMembers t := Z.shiftr t 4 mod 16 |}.
Definition plain_sizes : VertexSizes := fun t => 4 * (Z.shiftr t 4 mod 16).
#[local] Existing Instances plain_vertices plain_sizes plain_shaders plain_maps.

(** A position and a coordinate in one stream, and an instance in another. *)
Definition three_items : list vertex_item := [mkItem 0 0 0x35; mkItem 0 12 0x25; mkItem 1 0 0x15].

Example layout_describes_witness :
  @runs (with_context Tr2VertexLayoutAL.t) ALResult (@Tr2VertexLayoutAL.Create _ _ three_items)
    (fun hr w => hr = S_OK /\ mkVkVertexInputBindingDescription 0 20 ∈ Tr2VertexLayoutAL.m_bindings (snd (object w)))
    (fun _ _ => False) (at_ new_VulkanContext Tr2VertexLayoutAL.new []).
Proof.
  eapply runs_mono; [apply (@layout_describes plain_vertices plain_sizes new_VulkanContext [] three_items); done| |done].
  intros hr w [_ Hw]. rewrite bool_decide_eq_true_2 in Hw by (repeat (constructor; [by vm_compute|]); constructor).
  destruct Hw as (Hhr & (_ & Hb & _) & _). split; [exact Hhr|]. apply Hb. cbn. split; [left|reflexivity].
Defined.

(** A program of the two shaders, how it came about, and a layout for it. *)
Definition two_stages : Tr2ShaderProgramAL.t :=
  Tr2ShaderProgramAL.mk no_registers true 4 3 1 [1; 2] [VK_SHADER_STAGE_VERTEX_BIT; VK_SHADER_STAGE_FRAGMENT_BIT]
    [VK_SHADER_STAGE_VERTEX_BIT; VK_SHADER_STAGE_FRAGMENT_BIT].
Definition two_stages_made : list event :=
  Event (vkCreatePipelineLayout 1 [3]) (VK_SUCCESS, Some 4) ::
  Event (vkCreateDescriptorSetLayout 1 (Tr2ShaderProgramAL.set_bindings [VK_SHADER_STAGE_VERTEX_BIT; VK_SHADER_STAGE_FRAGMENT_BIT]))
    (VK_SUCCESS, Some 3) :: two_shaders_made.
Definition one_stream : Tr2VertexLayoutAL.t :=
  Tr2VertexLayoutAL.mk 1 [mkVkVertexInputBindingDescription 0 12]
    [mkVkVertexInputAttributeDescription 0 0 VK_FORMAT_R32G32B32_SFLOAT 0] true 0 0 None
    VK_FORMAT_UNDEFINED VK_FORMAT_UNDEFINED false.
Definition request_of (address : Z) (topology : Topology) : request :=
  mkRequest address topology VK_FORMAT_B8G8R8A8_UNORM VK_FORMAT_D32_SFLOAT 0.

Lemma two_stages_sound p : objects_after two_stages_made = Some p -> program_sound p two_stages.
Proof.
  vm_compute objects_after. intros [= <-]. constructor; [|done|by cbn; lia|by apply (bool_decide_unpack _)].
  split; [by apply (bool_decide_unpack _)|]. split; [by apply (bool_decide_unpack _)|].
  repeat (constructor; [split; [done|by apply (bool_decide_unpack _)]|]). constructor.
Qed.

Example GetPipeline_serves_witness :
  @runs (with_context Tr2VertexLayoutAL.t) (VkHandle * list event * VkHandle * list event)
    (for_each (fun r => @ask (respond calm) (fun _ => two_stages) r;; mret tt) [request_of 5 TOP_TRIANGLES; request_of 5 TOP_LINES];;
     h ← @ask (respond calm) (fun _ => two_stages) (request_of 5 TOP_TRIANGLES); asked ← calls;
     again ← @ask (respond calm) (fun _ => two_stages) (request_of 5 TOP_TRIANGLES); asked_again ← calls;
     @Tr2VertexLayoutAL.Destroy (respond calm);; mret (h, asked, again, asked_again))
    (fun _ w => objects_after (trace w) = objects_after two_stages_made)
    (fun _ _ => False) (at_ new_VulkanContext one_stream two_stages_made).
Proof.
  assert (Hp : is_Some (objects_after two_stages_made)) by (vm_compute; by eexists). destruct Hp as [p Hp].
  assert (Hs := two_stages_sound p Hp).
  eapply runs_mono; [eapply (@GetPipeline_serves (respond calm) (respond_makes calm)
    (fun _ => two_stages) new_VulkanContext two_stages_made p one_stream
    [request_of 5 TOP_TRIANGLES; request_of 5 TOP_LINES] (request_of 5 TOP_TRIANGLES) Hp eq_refl)| |done].
  - split; [by apply (bool_decide_unpack _)|]. split; by apply (bool_decide_unpack _).
  - by repeat (constructor; [exact Hs|]).
  - intros [[[h asked] again] asked_again] w (_ & _ & Hw & _). by rewrite Hw.
Defined.
