(* ===== verification/VulkanResourceSetSpec.v ===== *)
(** * Resource sets bind what they are told to

    While the vectors of [Create] do not grow beyond what is reserved, the pointers of
    the writes are to the descriptors that were collected for them, and a set holds
    the descriptors of its description. *)

From stdpp Require Import base numbers list option strings gmap fin_maps sets.
From S2P Require Import Prelude RenderGraph VulkanFormats Vulkan VulkanContext VulkanUsage VulkanMemory VulkanPipelineRules VulkanDriver VulkanObject VulkanBuffer VulkanBufferSpec VulkanTexture VulkanTextureSpec VulkanPipelines VulkanResourceSet VulkanPipelinesSpec VulkanVertexLayoutSpec.

#[local] Open Scope Z_scope.

Section intended.
Context `{TextureTypes} `{ShaderTypes}.

(** The writes of all registers, one after the other. *)
Definition intended (d : Tr2ResourceSetDescriptionAL) : option (list intent) :=
  mjoin <$> mapM (fun r => register_writes d r.1 r.2) all_registers.

(** The write with its descriptors in place. *)
Definition written_to (set : VkHandle) (i : intent) : VkWriteDescriptorSet :=
  mkVkWriteDescriptorSet set (i_binding i) (i_element i) (i_type i) (i_descriptors i).

#[export] Instance info_array_eq_dec : EqDecision info_array.
Proof. solve_decision. Defined.

(** How many descriptors are collected in an array, and for how many there is room
    from the start. *)
Definition demand (k : info_array) (intents : list intent) : nat :=
  sum_list_with (length ∘ i_descriptors) (List.filter (fun i => bool_decide (i_array i = k)) intents).
Definition reserve_of (k : info_array) : nat :=
  match k with
  | BufferInfos => 8 | ImageInfos => MAX_RESOURCES_IN_STAGE + 8 | SamplerInfos => MAX_RESOURCES_IN_STAGE
  end.

Lemma demand_snoc k intents i :
  demand k (intents ++ [i]) = (demand k intents + if bool_decide (i_array i = k) then length (i_descriptors i) else 0)%nat.
Proof.
  unfold demand. rewrite List.filter_app, sum_list_with_app. cbn. case_bool_decide; cbn; lia.
Qed.

(** ** The pointers *)

Context `{VectorGrowth}.

Lemma read_append ds v b index n l :
  (length (contents v) + length ds <= room v)%nat ->
  read_block v b index n = Some l -> read_block (append ds v) b index n = Some l.
Proof.
  intros Hroom. unfold read_block, append. rewrite length_app, (proj2 (Nat.leb_le _ _)) by done. cbn.
  intros Hread. repeat case_guard; cbn in *; simplify_eq; try done; [|rewrite length_app in *; lia].
  by rewrite drop_app_le, take_app_le by (rewrite ?length_drop; lia).
Qed.

Lemma read_appended ds v :
  (length (contents v) + length ds <= room v)%nat ->
  read_block (append ds v) (block (append ds v)) (length (contents v)) (length ds) = Some ds.
Proof.
  intros Hroom. unfold read_block, append. rewrite length_app, (proj2 (Nat.leb_le _ _)) by done. cbn.
  rewrite !option_guard_True by (rewrite ?length_app; lia). cbn. f_equal.
  by rewrite drop_app_length, firstn_all.
Qed.

Lemma array_of_set k k' v a : array_of k (set_array k' v a) = if bool_decide (k' = k) then v else array_of k a.
Proof. by destruct k, k'. Qed.

(** Nothing has been moved, and the pointers are to what was collected. *)
Record in_place (intents : list intent) (a : arrays) : Prop := mk_in_place
  { place_room : forall k, room (array_of k a) = reserved (reserve_of k);
    place_length : forall k, length (contents (array_of k a)) = demand k intents;
    place_reads : Forall2 (fun w i => pw_binding w = i_binding i /\ pw_element w = i_element i /\
      pw_type w = i_type i /\
      read_block (array_of (pw_array w) a) (pw_block w) (pw_index w) (pw_count w) = Some (i_descriptors i))
      (writes a) intents }.

Lemma push_in_place intents i a :
  in_place intents a -> (demand (i_array i) (intents ++ [i]) <= reserve_of (i_array i))%nat ->
  in_place (intents ++ [i]) (push_write a i).
Proof.
  intros [Hr Hl Hw] Hd. rewrite demand_snoc, bool_decide_eq_true_2 in Hd by done.
  assert (Hfit : (length (contents (array_of (i_array i) a)) + length (i_descriptors i) <= room (array_of (i_array i) a))%nat).
  { rewrite Hl, Hr. pose proof (reserved_enough (reserve_of (i_array i))). lia. }
  assert (Hat : forall k, array_of k (push_write a i) =
    if bool_decide (i_array i = k) then append (i_descriptors i) (array_of k a) else array_of k a).
  { intros k. transitivity (array_of k (set_array (i_array i) (append (i_descriptors i) (array_of (i_array i) a)) a)); [by destruct k|].
    rewrite array_of_set. case_bool_decide as E; [by subst k|done]. }
  split.
  - intros k. rewrite Hat, <- Hr. case_bool_decide as E; [|done]. subst k. unfold append. rewrite length_app.
    by rewrite (proj2 (Nat.leb_le _ _)).
  - intros k. rewrite Hat, demand_snoc, <- Hl. case_bool_decide as E; [|lia]. subst k. unfold append. rewrite length_app.
    rewrite (proj2 (Nat.leb_le _ _)) by done. cbn. by rewrite length_app.
  - assert (E : writes (push_write a i) = writes a ++ [mkPendingWrite (i_binding i) (i_element i) (i_type i) (i_array i)
      (block (append (i_descriptors i) (array_of (i_array i) a))) (length (contents (array_of (i_array i) a)))
      (length (i_descriptors i))]) by (unfold push_write; by destruct (i_array i)).
    rewrite E. apply Forall2_app.
    + eapply Forall2_impl; [exact Hw|]. intros w j (? & ? & ? & Hread). repeat (split; [done|]).
      rewrite Hat. case_bool_decide as Ek; [|done]. rewrite <- Ek in *. by apply read_append.
    + constructor; [|constructor]. cbn. repeat (split; [done|]). rewrite Hat, bool_decide_eq_true_2 by done.
      by apply read_appended.
Qed.

Lemma pushes_in_place intents :
  (forall k, demand k intents <= reserve_of k)%nat -> in_place intents (foldl push_write new_arrays intents).
Proof.
  induction intents as [|i intents IH] using rev_ind; intros Hd.
  - split; [by intros []..|constructor].
  - rewrite foldl_app. cbn. apply push_in_place; [|apply Hd]. apply IH. intros k. specialize (Hd k).
    rewrite demand_snoc in Hd. lia.
Qed.

Lemma resolve_in_place intents a set : in_place intents a -> resolve a set = Some (written_to set <$> intents).
Proof.
  intros [_ _ Hw]. apply mapM_Some, Forall2_fmap_r. eapply Forall2_impl; [exact Hw|].
  intros w i (Hb & He & Ht & Hread). cbn. rewrite Hread. cbn. unfold written_to. by rewrite <- Hb, <- He, <- Ht.
Qed.

Lemma collect_intended d registers intents a :
  mapM (fun r => register_writes d r.1 r.2) registers = Some intents ->
  collect d registers a = Some (foldl push_write a (mjoin intents)).
Proof.
  revert intents a. induction registers as [|[stage reg] registers IH]; intros intents a; cbn.
  { by intros [= <-]. }
  destruct (register_writes d stage reg) as [l|]; [|done]. cbn. destruct (mapM _ registers) as [ls|]; [|done].
  cbn. intros [= <-]. rewrite (IH ls) by done. cbn. by rewrite foldl_app.
Qed.

(** While there is room, what the pointers are read through for is what was meant. *)
Lemma collected_intended d intents set :
  intended d = Some intents -> (forall k, demand k intents <= reserve_of k)%nat ->
  exists a, collect d all_registers new_arrays = Some a /\ resolve a set = Some (written_to set <$> intents) /\
    (writes a = [] <-> intents = []).
Proof.
  unfold intended. intros Hi Hd. destruct (mapM _ _) as [ls|] eqn:Hm; [|done]. cbn in Hi. injection Hi as <-.
  pose proof (pushes_in_place _ Hd) as Hp.
  eexists. split; [by apply collect_intended|]. split; [by apply resolve_in_place|].
  destruct Hp as [_ _ Hw]. split; intros E.
  - rewrite E in Hw. by apply Forall2_nil_inv_l in Hw.
  - by rewrite E.
Qed.


(** ** What a set holds *)

(** The write fits into the layout of a program. *)
Definition intent_sound (p : pipeline_objects) (i : intent) : Prop :=
  (i_binding i, i_type i) ∈ [(BINDING_SRV, VK_DESCRIPTOR_TYPE_COMBINED_IMAGE_SAMPLER);
    (BINDING_UAV, VK_DESCRIPTOR_TYPE_STORAGE_BUFFER); (BINDING_SAMPLER, VK_DESCRIPTOR_TYPE_SAMPLER)] /\
  i_descriptors i <> [] /\ 0 <= i_element i /\
  i_element i + Z.of_nat (length (i_descriptors i)) <= Z.of_nat MAX_RESOURCES_IN_STAGE /\
  Forall (describes p (i_type i)) (i_descriptors i).

Definition stored (intents : list intent) (content : gmap (Z * Z) descriptor) : gmap (Z * Z) descriptor :=
  foldl (fun content i => store (i_binding i) (i_element i) (i_descriptors i) content) content intents.

(** Where a write puts a descriptor. *)
Definition puts (i : intent) (key : Z * Z) (d : descriptor) : Prop :=
  exists n, key = (i_binding i, i_element i + Z.of_nat n) /\ i_descriptors i !! n = Some d.

Lemma store_lookup binding element ds content key :
  store binding element ds content !! key =
    if decide (key.1 = binding /\ element <= key.2 < element + Z.of_nat (length ds))
    then ds !! Z.to_nat (key.2 - element) else content !! key.
Proof.
  revert element content. induction ds as [|d ds IH]; intros element content; cbn [store length].
  { by rewrite decide_False by lia. }
  rewrite IH. destruct key as [b e]. cbn [fst snd]. destruct (decide (b = binding)) as [->|Hb].
  2: { rewrite !decide_False by tauto. rewrite lookup_insert_ne; [done|]. by intros [=]. }
  destruct (decide (e = element)) as [->|He].
  - rewrite decide_False, decide_True by lia. rewrite lookup_insert_eq, Z.sub_diag. done.
  - rewrite lookup_insert_ne by (intros [=]; lia).
    destruct (decide (binding = binding /\ element <= e < _)) as [Hin|Hout];
      [rewrite decide_True by lia|by rewrite decide_False by lia].
    replace (Z.to_nat (e - element)) with (S (Z.to_nat (e - (element + 1)))) by lia. done.
Qed.

Lemma puts_lookup i key content :
  (forall d, puts i key d <-> store (i_binding i) (i_element i) (i_descriptors i) content !! key = Some d) \/
  ((forall d, ~ puts i key d) /\ store (i_binding i) (i_element i) (i_descriptors i) content !! key = content !! key).
Proof.
  rewrite store_lookup. destruct (decide _) as [[Hb He]|Hout]; [left|right].
  - intros d. split.
    + intros (n & -> & Hn). cbn. by replace (Z.to_nat _) with n by lia.
    + intros Hd. exists (Z.to_nat (key.2 - i_element i)). split; [|done]. destruct key. cbn in *. subst. f_equal. lia.
  - split; [|done]. intros d (n & -> & Hn%lookup_lt_Some). cbn in Hout. lia.
Qed.

(** Writes that agree are all found. *)
Definition agree (intents : list intent) : Prop :=
  forall i j key d e, i ∈ intents -> j ∈ intents -> puts i key d -> puts j key e -> d = e.

(** So do writes of different bindings. *)
Lemma agree_distinct intents : NoDup (i_binding <$> intents) -> agree intents.
Proof.
  intros Hnd i j key d e Hi Hj (n & -> & Hd) (m & [= Hb He] & Hm).
  apply list_elem_of_lookup in Hi as [a Hi], Hj as [b Hj].
  assert (a = b) as ->.
  { eapply NoDup_lookup; [exact Hnd|rewrite list_lookup_fmap, Hi; done|rewrite list_lookup_fmap, Hj; cbn; by rewrite <- Hb]. }
  rewrite Hi in Hj. injection Hj as ->. assert (n = m) as -> by lia. congruence.
Qed.

Lemma stored_lookup intents key d :
  agree intents -> stored intents ∅ !! key = Some d <-> exists i, i ∈ intents /\ puts i key d.
Proof.
  induction intents as [|i intents IH] using rev_ind; intros Hag.
  { cbn. rewrite lookup_empty. split; [done|]. by intros (i & Hi%not_elem_of_nil & _). }
  unfold stored in *. rewrite foldl_app. cbn.
  assert (Hag' : agree intents) by (intros j k ? ? ? Hj Hk; apply Hag; apply elem_of_app; by left).
  specialize (IH Hag'). destruct (puts_lookup i key (foldl (fun c j => store (i_binding j) (i_element j) (i_descriptors j) c) ∅ intents)) as [Hput|[Hno ->]].
  - rewrite <- Hput. split; [intros Hd; exists i; split; [apply elem_of_app; right; constructor|done]|].
    intros (j & Hj & Hd). apply elem_of_app in Hj as [Hj|Hj%list_elem_of_singleton]; [|by subst j].
    destruct (store (i_binding i) _ _ _ !! key) as [e|] eqn:Hs.
    + assert (He : puts i key e) by by apply Hput. replace d with e; [done|].
      eapply (Hag i j); [apply elem_of_app; right; constructor|apply elem_of_app; by left|done|done].
    + exfalso. assert (Hm : foldl (fun c j => store (i_binding j) (i_element j) (i_descriptors j) c) ∅ intents !! key = Some d)
        by (apply IH; by exists j). rewrite store_lookup in Hs. destruct (decide _) as [[Hb He]|]; [|congruence].
      apply lookup_ge_None in Hs. destruct key. cbn in *. lia.
  - rewrite IH. split; intros (j & Hj & Hd).
    + exists j. split; [apply elem_of_app; by left|done].
    + apply elem_of_app in Hj as [Hj|Hj%list_elem_of_singleton]; [by exists j|subst j; by apply Hno in Hd].
Qed.
End intended.

(** ** The rules *)

Section binds.
Context `{TextureTypes} `{ShaderTypes}.

Lemma write_all_intents mask p set s intents :
  descriptor_sets p !! set = Some s -> ds_bindings s = Tr2ShaderProgramAL.set_bindings mask ->
  Forall (intent_sound p) intents ->
  write_all (written_to set <$> intents) p =
    Some (p <| descriptor_sets ::= insert set (s <| ds_content ::= stored intents |>) |>).
Proof.
  revert p s. induction intents as [|i intents IH]; intros p s Hs Hb Hall; cbn [fmap list_fmap write_all].
  { f_equal. destruct p, s. cbn in *. f_equal. symmetry. by apply insert_id. }
  apply Forall_cons in Hall as [(Hty & Hne & Hel & Hlen & Hd) Hall].
  assert (Hw : write_descriptors (written_to set i) p = Some (p <| descriptor_sets ::= insert set
    (s <| ds_content ::= store (i_binding i) (i_element i) (i_descriptors i) |>) |>)).
  { unfold write_descriptors. cbn [wds_dstSet written_to]. rewrite Hs. cbn -[binding_of Tr2ShaderProgramAL.set_bindings].
    rewrite Hb. assert (Hbind : exists b, binding_of (Tr2ShaderProgramAL.set_bindings mask) (i_binding i) = Some b /\
      slb_descriptorType b = i_type i /\ slb_descriptorCount b = Z.of_nat MAX_RESOURCES_IN_STAGE).
    { rewrite !elem_of_cons, elem_of_nil in Hty. destruct Hty as [[= -> ->]|[[= -> ->]|[[= -> ->]|[]]]]; by eexists. }
    destruct Hbind as (b & -> & Ht & Hc). cbn. rewrite !option_guard_True; [done|done|lia..|done|done]. }
  rewrite Hw. cbn [mbind option_bind]. erewrite IH; [|cbn; apply lookup_insert_eq|done|].
  - destruct p, s. cbn. do 2 f_equal. by rewrite insert_insert_eq.
  - eapply Forall_impl; [exact Hall|]. intros j. unfold intent_sound. by destruct p.
Qed.

(** The registers of a description that its layout can describe: a texture with a
    sampler alive, a buffer for shaders to write, a sampler alive. *)
Definition register_sound (p : pipeline_objects) (d : Tr2ResourceSetDescriptionAL) (stage reg : nat) : Prop :=
  let map := m_registerMap d in
  (srvs map stage reg < srvCount map -> exists texture colorSpace mip h,
     m_srv d !! Z.to_nat (srvs map stage reg) = Some (TEXTURE texture colorSpace mip) /\
     register_sampler d stage reg = Some (Some h)) /\
  (uavs map stage reg < uavCount map -> 0 <= uavs map stage reg < Z.of_nat MAX_RESOURCES_IN_STAGE /\
     exists buffer, m_uav d !! Z.to_nat (uavs map stage reg) = Some (BUFFER buffer)) /\
  exists sampler, register_sampler d stage reg = Some sampler /\ forall h, sampler = Some h -> h ∈ alive_samplers p.

(** All elements of a binding. *)
Lemma whole_binding_sound p k binding type x :
  (0 < MAX_RESOURCES_IN_STAGE)%nat -> describes p type x ->
  (binding, type) ∈ [(BINDING_SRV, VK_DESCRIPTOR_TYPE_COMBINED_IMAGE_SAMPLER);
    (BINDING_UAV, VK_DESCRIPTOR_TYPE_STORAGE_BUFFER); (BINDING_SAMPLER, VK_DESCRIPTOR_TYPE_SAMPLER)] ->
  intent_sound p (mkIntent k binding 0 type (replicate MAX_RESOURCES_IN_STAGE x)).
Proof.
  intros Hmax Hx Hb. split; [done|]. cbn. split; [by destruct MAX_RESOURCES_IN_STAGE; [lia|]|].
  split; [done|]. split; [rewrite length_replicate; lia|]. by apply Forall_replicate.
Qed.

Lemma srv_writes_sound p d stage reg :
  (0 < MAX_RESOURCES_IN_STAGE)%nat -> register_sound p d stage reg ->
  exists intents, srv_writes d stage reg = Some intents /\ Forall (intent_sound p) intents.
Proof.
  intros Hmax (Hsrv & _ & sampler & Hs & Halive). unfold srv_writes.
  destruct (Z.ltb_spec (srvs (m_registerMap d) stage reg) (srvCount (m_registerMap d))) as [Hi|_]; cbn [negb]; [|by eexists].
  destruct (Hsrv Hi) as (texture & cs & mip & h & Hm & Hh). rewrite Hm, Hh. cbn -[Tr2TextureAL.GetDescriptorInfo].
  destruct (Tr2TextureAL.GetDescriptorInfo texture cs) as [layout view]. eexists. split; [done|].
  constructor; [|done]. apply whole_binding_sound; [done| |left]. cbn. apply Halive. by simplify_eq.
Qed.

Lemma uav_writes_sound p d stage reg :
  register_sound p d stage reg ->
  exists intents, uav_writes d stage reg = Some intents /\ Forall (intent_sound p) intents.
Proof.
  intros (_ & Huav & _). unfold uav_writes.
  destruct (Z.ltb_spec (uavs (m_registerMap d) stage reg) (uavCount (m_registerMap d))) as [Hu|_]; cbn [negb]; [|by eexists].
  destruct (Huav Hu) as (Hr & buffer & ->). cbn. eexists. split; [done|]. constructor; [|done].
  split; [right; left|]. cbn. split; [done|]. split; [lia|]. split; [lia|]. by repeat constructor.
Qed.

Lemma sampler_writes_sound p d stage reg :
  (0 < MAX_RESOURCES_IN_STAGE)%nat -> register_sound p d stage reg ->
  exists intents, sampler_writes d stage reg = Some intents /\ Forall (intent_sound p) intents.
Proof.
  intros Hmax (_ & _ & sampler & Hs & Halive). unfold sampler_writes. rewrite Hs. cbn. eexists. split; [done|].
  destruct sampler as [h|]; [|done]. constructor; [|done]. apply whole_binding_sound; [done| |by do 2 right; left].
  by apply Halive.
Qed.

Lemma register_writes_sound p d stage reg :
  (0 < MAX_RESOURCES_IN_STAGE)%nat -> register_sound p d stage reg ->
  exists intents, register_writes d stage reg = Some intents /\ Forall (intent_sound p) intents.
Proof.
  intros Hmax Hr. destruct (srv_writes_sound p d stage reg Hmax Hr) as (l1 & E1 & H1).
  destruct (uav_writes_sound p d stage reg Hr) as (l2 & E2 & H2).
  destruct (sampler_writes_sound p d stage reg Hmax Hr) as (l3 & E3 & H3).
  unfold register_writes. rewrite E1, E2, E3. cbn. eexists. split; [done|]. by rewrite !Forall_app.
Qed.

Lemma intended_sound p d :
  (0 < MAX_RESOURCES_IN_STAGE)%nat -> Forall (fun r => register_sound p d r.1 r.2) all_registers ->
  exists intents, intended d = Some intents /\ Forall (intent_sound p) intents.
Proof.
  intros Hmax Hall. unfold intended. enough (exists ls, mapM (fun r => register_writes d r.1 r.2) all_registers = Some ls /\
    Forall (intent_sound p) (mjoin ls)) as (ls & -> & Hls) by (eexists; by split).
  induction Hall as [|[stage reg] registers Hr _ (ls & IH & Hls)]; cbn; [by exists []|].
  destruct (register_writes_sound p d stage reg Hmax Hr) as (l & -> & Hl). rewrite IH. cbn.
  exists (l :: ls). split; [done|]. by apply Forall_app.
Qed.
End binds.

(** The description of a set, for objects alive: its registers are sound, there is room
    for them, and no two of them say different things of a descriptor. *)
Record description_sound `{TextureTypes} `{ShaderTypes} (p : pipeline_objects)
    (d : Tr2ResourceSetDescriptionAL) : Prop := mk_description_sound
  { sound_registers : Forall (fun r => register_sound p d r.1 r.2) all_registers;
    sound_demand : forall intents k, intended d = Some intents -> (demand k intents <= reserve_of k)%nat;
    sound_agree : forall intents, intended d = Some intents -> agree intents }.

Section create.
Context `{PipelineLaws} `{TextureTypes} `{ShaderTypes} `{!RegisterMaps} `{VectorGrowth}.
Import Tr2ResourceSetAL.

(** Writing what was collected. *)
Lemma runs_update_descriptors {c o d tr h a p mask pool intents} (Q : unit -> world (with_context t) -> Prop) R :
  (writes a = [] <-> intents = []) -> resolve a h = Some (written_to h <$> intents) ->
  Forall (intent_sound p) intents ->
  objects_after tr = Some (p <| descriptor_sets ::=
    insert h (mkDescriptorSet pool (Tr2ShaderProgramAL.set_bindings mask) ∅) |>) ->
  (forall tr2, objects_after tr2 = Some (p <| descriptor_sets ::=
     insert h (mkDescriptorSet pool (Tr2ShaderProgramAL.set_bindings mask) (stored intents ∅)) |>) ->
     Q tt (mkWorld (c, o) tr2)) ->
  runs (match writes a with [] => mret tt | _ => match resolve a h with None => wrong
    | Some ws => call (vkUpdateDescriptorSets d ws) end end) Q R (mkWorld (c, o) tr).
Proof.
  intros Hempty Hres Hsound Hp HQ. destruct (writes a) eqn:Hw.
  - apply runs_ret, HQ. by rewrite (proj1 Hempty).
  - rewrite Hres. apply runs_call. intros [] _. apply HQ. cbn [objects_after trace object]. rewrite Hp. cbn [mbind option_bind].
    cbn -[write_all]. erewrite write_all_intents; [|apply lookup_insert_eq|done|].
    + f_equal. destruct p. cbn. f_equal. by rewrite insert_insert_eq.
    + eapply Forall_impl; [exact Hsound|]. intros i. unfold intent_sound. by destruct p.
Qed.

(** All that happened is that a set was refused. *)
Definition set_refused (c : VulkanContext) (f : VulkanFrameContext) (program : Tr2ShaderProgramAL.t) (tr tr' : list event) : Prop :=
  exists r out, tr' = Event (vkAllocateDescriptorSets (device (state c)) (descriptorPool f)
    (Tr2ShaderProgramAL.GetDescriptorSetLayout program)) (r, out) :: tr /\ r <> VK_SUCCESS.

Lemma runs_set_Create {c o tr p f d} (program : Tr2ShaderProgramAL.t) mask intents (R : ALResult -> world (with_context t) -> Prop) :
  objects_after tr = Some p -> frame_of c = Some f -> is_Some (descriptor_pools p !! descriptorPool f) ->
  set_layouts p !! Tr2ShaderProgramAL.GetDescriptorSetLayout program = Some (Tr2ShaderProgramAL.set_bindings mask) ->
  intended d = Some intents -> Forall (intent_sound p) intents -> (forall k, demand k intents <= reserve_of k)%nat ->
  runs (Create d program) (fun hr w => exists o', object w = (c, o') /\
      if FAILED hr then hr = E_FAIL /\ objects_after (trace w) = Some p /\ set_refused c f program tr (trace w)
      else m_pool o' = descriptorPool f /\ IsValid o' = true /\ GetDescriptorSet o' <> VK_NULL_HANDLE /\
        GetDescriptorSet o' ∉ dom (descriptor_sets p) /\
        objects_after (trace w) = Some (p <| descriptor_sets ::= insert (GetDescriptorSet o')
          (mkDescriptorSet (descriptorPool f) (Tr2ShaderProgramAL.set_bindings mask) (stored intents ∅)) |>)) R
    (mkWorld (c, o) tr).
Proof.
  intros Hp Hf Hpool Hlayout Hi Hsound Hroom. unfold Create.
  apply runs_bind, runs_in_context, runs_this. cbn [object trace fst snd id].
  apply runs_bind, runs_in_context, runs_bind. eapply runs_frame_of; [exact Hf|]. apply runs_ret. cbn [object trace fst snd].
  apply runs_bind, runs_assign. cbn [object trace fst snd]. apply runs_bind, runs_member. cbn [object snd id]. apply runs_bind.
  eapply runs_out_made; [exact Hp| |by apply descriptor_set_new|..].
  { intros r. cbn. rewrite option_guard_True by done. rewrite Hlayout. cbn. done. }
  2: { intros r out tr' Hs _ Ha. unfold succeeded. rewrite bool_decide_eq_false_2 by done.
       apply runs_ret. eexists. split; [done|]. split; [done|]. split; [done|]. by exists r, out. }
  intros h tr1 Hnz Hin Ha. change (succeeded VK_SUCCESS) with true. cbn [negb].
  destruct (collected_intended d intents h Hi Hroom) as (a & -> & Hres & Hempty).
  apply runs_bind, runs_member. cbn [object snd id m_descriptorSet]. apply runs_bind.
  eapply runs_update_descriptors; [exact Hempty|exact Hres|exact Hsound|exact Ha|]. intros tr2 Ha2. apply runs_bind, runs_assign, runs_ret.
  cbn [object trace fst snd]. eexists. split; [done|]. cbn. done.
Qed.

Lemma runs_set_Destroy {c o tr p s} (R : ALResult -> world (with_context t) -> Prop) :
  GetDescriptorSet o <> VK_NULL_HANDLE -> m_pool o <> VK_NULL_HANDLE -> m_pool o = ds_pool s ->
  GetDescriptorSet o ∉ dom (descriptor_sets p) ->
  objects_after tr = Some (p <| descriptor_sets ::= insert (GetDescriptorSet o) s |>) ->
  runs Destroy (fun _ w => objects_after (trace w) = Some p /\ IsValid (snd (object w)) = false) R (mkWorld (c, o) tr).
Proof.
  unfold GetDescriptorSet. intros Hn Hpn Hpool Hin%not_elem_of_dom Hp. unfold Destroy. apply runs_bind, runs_member. cbn [object snd id].
  rewrite !is_null_false by done. cbn [orb]. apply runs_bind, runs_bind, runs_call. intros r _.
  apply runs_assign, runs_assign. cbn. rewrite Hp. cbn. rewrite lookup_insert_eq. cbn.
  rewrite option_guard_True by done. split; [|done]. f_equal. destruct p. cbn in *. f_equal. by rewrite delete_insert_id.
Qed.
End create.

(** C15. A set of the layout of a program, in the pool of the current frame, both alive,
    for a description that is sound: each register that is read has a texture and a
    sampler; each that is written has a buffer, at an index below the number of
    resources of a stage; the samplers are alive; what the registers write fits the
    room that the code reserves (in effect one texture and one sampler, each of which
    takes the room of a whole stage); and no two of them write different things to one
    descriptor. Then the calls are valid, and the set holds the descriptors of the
    registers of its description and no others, until it is freed; it fails only when
    the driver refuses the set, no other call being made. Of other descriptions,
    [two_textures_dangle], [two_samplers_dangle], [buffer_read_as_image] and
    [texture_written_as_buffer] show what the code does. *)
Theorem Create_binds `{PipelineLaws} `{TextureTypes} `{ShaderTypes} `{!RegisterMaps} `{VectorGrowth}
    c tr p f d (program : Tr2ShaderProgramAL.t) mask
    (Hp : objects_after tr = Some p) (Hf : frame_of c = Some f)
    (Hpool : is_Some (descriptor_pools p !! descriptorPool f)) (Hnull : descriptorPool f <> VK_NULL_HANDLE)
    (Hlayout : set_layouts p !! Tr2ShaderProgramAL.GetDescriptorSetLayout program =
       Some (Tr2ShaderProgramAL.set_bindings mask))
    (Hmax : (0 < MAX_RESOURCES_IN_STAGE)%nat) (Hd : description_sound p d) :
  runs (hr ← Tr2ResourceSetAL.Create d program; made ← calls; o ← member id;
        (if FAILED hr then mret tt else Tr2ResourceSetAL.Destroy);; mret (hr, made, o))
    (fun r w => let '(hr, made, o) := r in
       (hr = S_OK \/ hr = E_FAIL /\ set_refused c f program tr made) /\
       (hr = S_OK -> exists content intents,
          objects_after made = Some (p <| descriptor_sets ::= insert (Tr2ResourceSetAL.GetDescriptorSet o)
            (mkDescriptorSet (descriptorPool f) (Tr2ShaderProgramAL.set_bindings mask) content) |>) /\
          Tr2ResourceSetAL.IsValid o = true /\ intended d = Some intents /\
          (forall key x, content !! key = Some x <-> exists i, i ∈ intents /\ puts i key x)) /\
       objects_after (trace w) = Some p)
    (fun _ _ => False) (mkWorld (c, Tr2ResourceSetAL.new) tr).
Proof.
  destruct (intended_sound p d Hmax (sound_registers _ _ Hd)) as (intents & Hi & Hsound).
  pose proof (fun k => sound_demand _ _ Hd intents k Hi) as Hroom. pose proof (sound_agree _ _ Hd intents Hi) as Hagree.
  apply runs_bind. eapply runs_mono; [by eapply (runs_set_Create program mask intents (fun _ _ => False))| |done].
  intros hr [co tr1] (o & E & Ho). cbn [object trace] in *. subst co.
  apply runs_bind, runs_calls, runs_bind, runs_member, runs_bind. cbn [object trace snd id].
  destruct hr; cbn [FAILED SUCCEEDED negb] in *; try (destruct Ho as [[=] ?]; fail).
  - destruct Ho as (Hpo & Hv & Hn & Hin & Ha).
    eapply runs_mono; [eapply (runs_set_Destroy (fun _ _ => False)); [done|by rewrite Hpo| |done|exact Ha]; done| |done].
    intros [] w [Hw _]. apply runs_ret. split; [by left|]. split; [|done]. intros _. exists (stored intents ∅), intents.
    split; [done|]. split; [done|]. split; [done|]. intros key x. by apply stored_lookup.
  - destruct Ho as (_ & Ha & Hno). do 2 apply runs_ret. split; [by right|]. by split.
Qed.

(** ** Instances

    Vectors that have just the room that is asked for. *)

Definition exact_growth : VectorGrowth :=
  {| reserved n := n; grown _ n := n; reserved_enough n := Nat.le_refl n |}.

#[local] Existing Instances plain_shaders plain_maps exact_growth.
#[local] Existing Instances VulkanTextureSpec.plain Tr2TextureAL.t_eta.

(** Index 0 at the first register of the pixel shader. *)
Definition first_register (stage reg : nat) : Z := if (stage =? 1)%nat && (reg =? 0)%nat then 0 else 255.

Definition seen_texture : Tr2TextureAL.t := Tr2TextureAL.new <| Tr2TextureAL.m_linearView := 7 |>.
Definition written_buffer : Tr2BufferAL.t := VulkanBufferSpec.four_bytes [].
Definition used_sampler : Tr2SamplerStateAL.t := Tr2SamplerStateAL.mk 5 1.

(** A texture, a buffer to write and a sampler. *)
Definition one_of_each : Tr2ResourceSetDescriptionAL :=
  mkTr2ResourceSetDescriptionAL (mkTr2RegisterMapAL first_register first_register first_register 1 1 1)
    [TEXTURE seen_texture COLOR_SPACE_LINEAR 0] [BUFFER written_buffer] [SAMPLER used_sampler].

(** The pool of both frames is 9. *)
Definition pool_frame : VulkanFrameContext := new_VulkanFrameContext <| descriptorPool := 9 |>.
Definition pool_context : VulkanContext :=
  new_VulkanContext <| state ::= fun s => s <| device := 1 |> <| frames := [pool_frame; pool_frame] |> |>.

(** How the pool, the sampler and the layouts of the program came about. *)
Definition set_objects_made : list event :=
  Event (vkCreateSampler 1 (mkVkSamplerCreateInfo VK_FILTER_LINEAR VK_FILTER_LINEAR VK_SAMPLER_MIPMAP_MODE_LINEAR
    VK_SAMPLER_ADDRESS_MODE_REPEAT VK_SAMPLER_ADDRESS_MODE_REPEAT VK_SAMPLER_ADDRESS_MODE_REPEAT (SpecFloat.S754_zero false)
    false (SpecFloat.S754_zero false) false VK_COMPARE_OP_ALWAYS (SpecFloat.S754_zero false) (SpecFloat.S754_zero false)))
    (VK_SUCCESS, Some 5) ::
  Event (vkCreateDescriptorPool 1 DESCRIPTOR_POOL_MAX_SETS poolSizes) (VK_SUCCESS, Some 9) :: two_stages_made.

Lemma one_of_each_sound p : alive_samplers p = {[5]} -> description_sound p one_of_each.
Proof.
  intros Hp. constructor.
  - apply Forall_forall. intros [stage reg] _. unfold register_sound, register_sampler. cbn.
    unfold first_register. destruct ((stage =? 1)%nat && (reg =? 0)%nat); cbn.
    + split; [intros _; by eexists _, _, _, _|]. split; [intros _; split; [lia|by eexists]|].
      eexists. split; [done|]. intros h [= <-]. rewrite Hp. set_solver.
    + split; [done|]. split; [done|]. by eexists.
  - intros intents k Hi. vm_compute in Hi. injection Hi as <-. destruct k; vm_compute; lia.
  - intros intents Hi. vm_compute in Hi. injection Hi as <-. apply agree_distinct.
    by apply (bool_decide_unpack _).
Qed.

Example Create_binds_witness :
  @runs (with_context Tr2ResourceSetAL.t) (ALResult * list event * Tr2ResourceSetAL.t)
    (hr ← @Tr2ResourceSetAL.Create (respond calm) _ _ _ one_of_each two_stages; made ← calls; o ← member id;
     (if FAILED hr then mret tt else @Tr2ResourceSetAL.Destroy (respond calm));; mret (hr, made, o))
    (fun r w => r.1.1 = S_OK -> exists p s, objects_after r.1.2 = Some p /\
       descriptor_sets p !! Tr2ResourceSetAL.GetDescriptorSet r.2 = Some s /\
       ds_content s !! (BINDING_UAV, 0) = Some (DescribesBuffer (mkVkDescriptorBufferInfo 1 0 4)))
    (fun _ _ => False) (at_ pool_context Tr2ResourceSetAL.new set_objects_made).
Proof.
  assert (Hp : exists p, objects_after set_objects_made = Some p /\ alive_samplers p = {[5]} /\
    is_Some (descriptor_pools p !! 9) /\ set_layouts p !! 3 =
      Some (Tr2ShaderProgramAL.set_bindings [VK_SHADER_STAGE_VERTEX_BIT; VK_SHADER_STAGE_FRAGMENT_BIT])).
  { eexists. split; [vm_compute; reflexivity|]. split; [done|]. by split; [eexists|]. }
  destruct Hp as (p & Hp & Hs & Hpool & Hlayout).
  eapply runs_mono; [eapply (@Create_binds (respond calm) (respond_makes calm) _ _ plain_maps _ pool_context set_objects_made p
    pool_frame one_of_each two_stages); [exact Hp|done|exact Hpool|done|exact Hlayout|by cbn; lia|by apply one_of_each_sound]| |done].
  intros [[hr made] o] w (_ & Hok & _) E. cbn in E |- *.
  destruct (Hok E) as (content & intents & Ha & _ & Hi & Hcontent). eexists _, _. split; [exact Ha|].
  split; [apply lookup_insert_eq|]. apply Hcontent. vm_compute in Hi. injection Hi as <-.
  eexists. split; [right; left|]. exists 0%nat. by split.
Defined.
