(* ===== verification/VulkanDrawing.v ===== *)
(** * Drawing a frame

    The invariant of a frame that is recorded: what the render context knows about its
    command buffer and its images is what the rules of [VulkanRenderRules] follow. What
    each part of drawing, clearing and copying does to it. *)

From stdpp Require Import base numbers list option strings gmap fin_maps sets.
From S2P Require Import Prelude RenderGraph VulkanFormats Vulkan VulkanContext VulkanUsage VulkanRenderRules VulkanObject VulkanBuffer VulkanPipelines VulkanVertexLayout VulkanTexture VulkanResourceSet VulkanPipelineRules VulkanVertexLayoutSpec VulkanRenderContext.
Import VkFormat.
#[local] Existing Instance Tr2VertexLayoutAL.t_eta.

#[local] Open Scope Z_scope.

(** A call without an answer. *)
Lemma runs_recorded `{Driver} {S} (e : vk unit) s s' (Q : unit -> world S -> Prop) R (o : S) tr :
  commands_after tr = Some s -> record s (Event e tt) = Some s' ->
  (commands_after (Event e tt :: tr) = Some s' -> Q tt (mkWorld o (Event e tt :: tr))) ->
  runs (call e) Q R (mkWorld o tr).
Proof.
  intros Hs He HQ. apply runs_call. intros [] _. apply HQ. cbn [commands_after]. by rewrite Hs.
Qed.

(** ** Images *)

(** What is known of the layout of an image. *)
Definition follows (s : commands) (layout : VkImageLayout) (image : VkHandle) : Prop :=
  layout = VK_IMAGE_LAYOUT_UNDEFINED \/ layout = layout_of s image.

Definition relayout (image : VkHandle) (layout : VkImageLayout) (s : commands) : commands :=
  s <| layouts ::= insert image layout |>.

Lemma layout_of_relayout s image image' layout :
  layout_of (relayout image layout s) image' = if decide (image = image') then layout else layout_of s image'.
Proof.
  unfold layout_of. cbn. destruct (decide _) as [->|Hne]; [by rewrite lookup_insert_eq|by rewrite lookup_insert_ne].
Qed.

Lemma follows_relayout s image image' layout l :
  image <> image' -> follows s l image' -> follows (relayout image layout s) l image'.
Proof. intros Hne [?|?]; [by left|right]. by rewrite layout_of_relayout, decide_False. Qed.

Lemma follows_now s image layout : follows (relayout image layout s) layout image.
Proof. right. by rewrite layout_of_relayout, decide_True. Qed.

(** A command that changes nothing. *)
Lemma command_id s b k allowed : recorded s !! b = Some k -> allowed k = true -> command b allowed id s = Some s.
Proof.
  intros Hk Ha. unfold command. rewrite Hk. cbn. rewrite option_guard_True by done. cbn.
  f_equal. destruct s. cbn in *. f_equal. by rewrite insert_id.
Qed.

(** A barrier outside of rendering. *)
Lemma record_barrier s b k image from by_ old new range :
  recorded s !! b = Some k -> rendering k = false -> follows s old image ->
  record s (Event (vkCmdPipelineBarrier2 b [mkVkImageMemoryBarrier2 from by_ old new image range] []) tt) =
    Some (relayout image new s).
Proof.
  intros Hk Hr Hf. unfold record. cbn [ev_call ev_answer]. erewrite command_id by (first [done|unfold outside; by rewrite Hr]).
  cbn. unfold change_layout. by rewrite option_guard_True.
Qed.

(** A copy or a clearing outside of rendering. *)
Lemma on_image_now s b k image layout :
  recorded s !! b = Some k -> rendering k = false ->
  on_image b image layout (relayout image layout s) = Some (relayout image layout s).
Proof.
  intros Hk Hr. unfold on_image. rewrite layout_of_relayout, decide_True by done.
  rewrite option_guard_True by done. cbn [mbind option_bind]. eapply command_id; [done|]. unfold outside. by rewrite Hr.
Qed.

Section drawing.
Context `{Driver} `{TextureTypes} `{ShaderTypes} `{!RegisterMaps} `{ContextTypes}.
Import Tr2RenderContextAL.
Implicit Types (c : VulkanContext) (o : t) (s : commands) (k : recording_state) (tr : list event) (h : wrapper).

Lemma texture_at_store h h' x o :
  texture_at h' (store_texture h x o) = if decide (h = h') then x else texture_at h' o.
Proof.
  unfold texture_at. cbn. destruct (decide _) as [->|Hne]; [by rewrite lookup_insert_eq|by rewrite lookup_insert_ne].
Qed.

(** The textures and the depth image of the swap chain know the layouts of their
    images, which are different ones, and the attachments are views of them. *)
Record tracks (s : commands) (sc : VulkanSwapchainState) (o : t) : Prop := mk_tracks
  { tr_target : is_texture (m_defaultBackBuffer o) o = true;
    tr_view : let x := texture_at (m_defaultBackBuffer o) o in
      view_images s !! Tr2TextureAL.m_linearView x = Some (Tr2TextureAL.m_image x);
    tr_depth_view : view_images s !! depthView sc = Some (depthImage sc);
    tr_depth : follows s (depthLayout sc) (depthImage sc);
    tr_textures : forall h, is_texture h o = true ->
      follows s (Tr2TextureAL.m_layout (texture_at h o)) (Tr2TextureAL.m_image (texture_at h o));
    tr_apart : forall h h', is_texture h o = true -> is_texture h' o = true ->
      Tr2TextureAL.m_image (texture_at h o) = Tr2TextureAL.m_image (texture_at h' o) -> h = h';
    tr_not_depth : forall h, is_texture h o = true -> Tr2TextureAL.m_image (texture_at h o) <> depthImage sc }.

Lemma tracks_same s s' sc o o' :
  tracks s sc o -> layouts s' = layouts s -> view_images s' = view_images s ->
  texture_objects o' = texture_objects o -> m_defaultBackBuffer o' = m_defaultBackBuffer o -> tracks s' sc o'.
Proof.
  intros [Ht Hv Hdv Hd Htx Ha Hn] Hl Hvi Hto Hb.
  assert (Hx : forall h, texture_at h o' = texture_at h o) by (intros h; unfold texture_at; by rewrite Hto).
  assert (Hi : forall h, is_texture h o' = is_texture h o) by (intros h; unfold is_texture; by rewrite Hx).
  assert (Hlo : forall image, layout_of s' image = layout_of s image) by (intros; unfold layout_of; by rewrite Hl).
  split; cbv zeta in *; try rewrite Hb; try rewrite Hi; try rewrite Hx; try rewrite Hvi; unfold follows in *;
    try setoid_rewrite Hlo; try setoid_rewrite Hx; try setoid_rewrite Hi; done.
Qed.

(** A texture changes its layout with its image. *)
Lemma is_texture_relaid h h' l o :
  is_texture h' (store_texture h (Tr2TextureAL.SetLayout l (texture_at h o)) o) = is_texture h' o.
Proof. unfold is_texture. rewrite texture_at_store. destruct (decide _) as [->|]; done. Qed.

Lemma image_relaid h h' l o :
  Tr2TextureAL.m_image (texture_at h' (store_texture h (Tr2TextureAL.SetLayout l (texture_at h o)) o)) =
  Tr2TextureAL.m_image (texture_at h' o).
Proof. rewrite texture_at_store. destruct (decide _) as [->|]; done. Qed.

Lemma tracks_relaid s sc o h l :
  tracks s sc o -> is_texture h o = true ->
  tracks (relayout (Tr2TextureAL.m_image (texture_at h o)) l s) sc
    (store_texture h (Tr2TextureAL.SetLayout l (texture_at h o)) o).
Proof.
  intros [Ht Hv Hdv Hd Htx Ha Hn] Hh. split.
  - cbn [m_defaultBackBuffer store_texture set_member eta t_eta]. by rewrite is_texture_relaid.
  - cbv zeta. cbn [m_defaultBackBuffer store_texture set_member eta t_eta]. rewrite image_relaid, texture_at_store.
    cbv zeta in Hv. cbn [view_images relayout set_member eta commands_eta]. destruct (decide _) as [->|]; done.
  - done.
  - apply follows_relayout; [by apply Hn|done].
  - intros h' Hh'. rewrite is_texture_relaid in Hh'. rewrite image_relaid, texture_at_store.
    destruct (decide (h = h')) as [<-|Hne]; [apply follows_now|]. apply follows_relayout; [|by apply Htx].
    intros E. by apply Hne, Ha.
  - intros h1 h2. rewrite !is_texture_relaid, !image_relaid. apply Ha.
  - intros h'. rewrite is_texture_relaid, image_relaid. apply Hn.
Qed.

Lemma tracks_depth s sc o l :
  tracks s sc o -> tracks (relayout (depthImage sc) l s) (sc <| depthLayout := l |>) o.
Proof.
  intros [Ht Hv Hdv Hd Htx Ha Hn]. split; try done; [apply follows_now|].
  intros h Hh. apply follows_relayout; [by apply not_eq_sym, Hn|by apply Htx].
Qed.

(** ** The frame *)

(** The command buffer of [f] is recorded. *)
Record drawing (f : VulkanFrameContext) (c : VulkanContext) (o : t) (s : commands) (k : recording_state) : Prop := mk_drawing
  { dw_frame : frame_of c = Some f;
    dw_provided : suspended (swapchain (state c)) = false;
    dw_graph : m_graphFrameActive o = false;
    dw_targets : length (m_boundRenderTarget o) = MAX_RENDER_TARGET;
    dw_streams : length (m_vertexBuffers o) = 4%nat;
    dw_offsets : length (m_vertexBufferOffsets o) = 4%nat;
    dw_recorded : recorded s !! commandBuffer f = Some k;
    dw_tracks : tracks s (swapchain (state c)) o }.

(** What the context says about the rendering is so. *)
Definition in_step (o : t) (k : recording_state) : Prop :=
  rendering k = m_renderingActive o /\ (rendering k = true -> is_Some (viewport k) /\ is_Some (scissor k)).

Definition in_frame_of (f : VulkanFrameContext) (w : world (with_context t)) : Prop :=
  exists s k, commands_after (trace w) = Some s /\ drawing f (fst (object w)) (snd (object w)) s k /\
    in_step (snd (object w)) k.

Lemma runs_frame_buffer {f c o s k tr} (Q : VkHandle -> world (with_context t) -> Prop) R :
  drawing f c o s k -> Q (commandBuffer f) (mkWorld (c, o) tr) ->
  runs (in_context GetCurrentCommandBuffer) Q R (mkWorld (c, o) tr).
Proof.
  intros Hd HQ. apply runs_in_context. eapply runs_GetCurrentCommandBuffer; [|exact HQ].
  by apply (dw_frame _ _ _ _ _ Hd).
Qed.

(** A command that only changes what is recorded. *)
Lemma drawing_command {f c o s k} k' :
  drawing f c o s k -> drawing f c o (s <| recorded ::= insert (commandBuffer f) k' |>) k'.
Proof.
  intros [Hf Hp Hg Ht Hs Ho Hr Htr]. split; try done; [cbn; by rewrite lookup_insert_eq|].
  eapply tracks_same; done.
Qed.

Lemma record_command {f c o s k} allowed change :
  drawing f c o s k -> allowed k = true ->
  command (commandBuffer f) allowed change s = Some (s <| recorded ::= insert (commandBuffer f) (change k) |>).
Proof. intros Hd Ha. unfold command. rewrite (dw_recorded _ _ _ _ _ Hd). cbn. by rewrite option_guard_True. Qed.

(** The members that drawing reads, apart from the objects. *)
Definition steady_members o :=
  (m_defaultBackBuffer o, m_renderingActive o, m_graphFrameActive o, length (m_boundRenderTarget o),
   length (m_vertexBuffers o), length (m_vertexBufferOffsets o), texture_objects o).

Lemma drawing_members {f c o s k} o' :
  drawing f c o s k -> steady_members o' = steady_members o -> drawing f c o' s k.
Proof.
  intros [Hf Hp Hg Ht Hs Ho Hr Htr] [=]. split; try congruence. by eapply tracks_same.
Qed.

(** The pipelines that are used. *)
Definition users (s : commands) : gmap VkHandle (gset VkHandle) := used_pipelines <$> recorded s.

Lemma unused_users s s' h : users s' = users s -> unused s h -> unused s' h.
Proof.
  unfold users, unused. intros Hu Hs b k Hb.
  assert (Hl : (used_pipelines <$> recorded s') !! b = Some (used_pipelines k)) by by rewrite lookup_fmap, Hb.
  rewrite Hu, lookup_fmap in Hl. apply fmap_Some in Hl as (k' & Hk' & ->). by apply (Hs b).
Qed.

Lemma users_insert s b k k' :
  recorded s !! b = Some k -> used_pipelines k' = used_pipelines k ->
  users (s <| recorded ::= insert b k' |>) = users s.
Proof.
  intros Hb Hu. unfold users. cbn. rewrite fmap_insert, Hu. apply insert_id. by rewrite lookup_fmap, Hb.
Qed.

(** ** Rendering *)

(** What rendering does not change. *)
Definition but_objects o : t := o <| texture_objects := ∅ |> <| layout_objects := ∅ |>.
Definition but_depth c : VulkanContext :=
  c <| state ::= fun d => d <| swapchain ::= fun w => w <| depthLayout := VK_IMAGE_LAYOUT_UNDEFINED |> |> |>.

(** From one point of the recording to a later one. *)
Record advanced (c : VulkanContext) (o : t) (s : commands) (tr : list event)
    (c' : VulkanContext) (o' : t) (s' : commands) (tr' : list event) : Prop := mk_advanced
  { ad_context : but_depth c' = but_depth c; ad_members : but_objects o' = but_objects o;
    ad_layouts : layout_objects o' = layout_objects o; ad_users : users s' = users s;
    ad_objects : objects_after tr' = objects_after tr; ad_commands : commands_after tr' = Some s' }.

Lemma advanced_refl c o s tr : commands_after tr = Some s -> advanced c o s tr c o s tr.
Proof. by split. Qed.

Lemma advanced_trans c o s tr c1 o1 s1 tr1 c2 o2 s2 tr2 :
  advanced c o s tr c1 o1 s1 tr1 -> advanced c1 o1 s1 tr1 c2 o2 s2 tr2 -> advanced c o s tr c2 o2 s2 tr2.
Proof. intros [] []. split; congruence. Qed.

(** The target in [layout], unless it was already. *)
Lemma runs_transition_target {f c o s k tr} from by_ layout (Q : unit -> world (with_context t) -> Prop) R :
  drawing f c o s k -> commands_after tr = Some s -> rendering k = false ->
  (forall o' s' tr', advanced c o s tr c o' s' tr' -> drawing f c o' s' k ->
     m_renderingActive o' = m_renderingActive o ->
     Tr2TextureAL.m_linearView (texture_at (m_defaultBackBuffer o') o') =
       Tr2TextureAL.m_linearView (texture_at (m_defaultBackBuffer o) o) ->
     Tr2TextureAL.m_image (texture_at (m_defaultBackBuffer o') o') =
       Tr2TextureAL.m_image (texture_at (m_defaultBackBuffer o) o) ->
     Tr2TextureAL.m_layout (texture_at (m_defaultBackBuffer o') o') = layout ->
     Q tt (mkWorld (c, o') tr')) ->
  runs (call (vkCmdPipelineBarrier2 (commandBuffer f)
          [Tr2TextureAL.transition (texture_at (m_defaultBackBuffer o) o) from by_ layout] []);;
        in_texture (m_defaultBackBuffer o) (assign (Tr2TextureAL.SetLayout layout))) Q R (mkWorld (c, o) tr).
Proof.
  intros Hd Hs Hr HQ. pose proof Hd as [Hf Hp Hg Ht Hst Ho Hk Htr]. pose proof (tr_target _ _ _ Htr) as Hv.
  apply runs_bind. eapply runs_recorded; [exact Hs|eapply record_barrier; [done..|by apply (tr_textures _ _ _ Htr)]|].
  intros Hs'. apply runs_in_member, runs_assign. cbn [object trace fst snd].
  set (h := m_defaultBackBuffer o) in *. eapply HQ with (s' := relayout _ layout s).
  - split; [done..| |exact Hs']. cbn. by destruct (objects_after tr).
  - split; try done. by apply tracks_relaid.
  - done.
  - cbn [m_defaultBackBuffer store_texture set_member eta t_eta]. fold h. by rewrite texture_at_store, decide_True.
  - cbn [m_defaultBackBuffer store_texture set_member eta t_eta]. fold h. by rewrite texture_at_store, decide_True.
  - cbn [m_defaultBackBuffer store_texture set_member eta t_eta]. fold h. by rewrite texture_at_store, decide_True.
Qed.

(** So with the depth image. *)
Lemma runs_transition_depth {f c o s k tr} from by_ layout (Q : unit -> world (with_context t) -> Prop) R :
  drawing f c o s k -> commands_after tr = Some s -> rendering k = false ->
  (forall c' s' tr', advanced c o s tr c' o s' tr' -> drawing f c' o s' k ->
     depthLayout (swapchain (state c')) = layout -> layouts s' = insert (depthImage (swapchain (state c))) layout (layouts s) ->
     Q tt (mkWorld (c', o) tr')) ->
  runs (call (vkCmdPipelineBarrier2 (commandBuffer f) [depth_transition (swapchain (state c)) from by_ layout] []);;
        set_depth_layout layout) Q R (mkWorld (c, o) tr).
Proof.
  intros Hd Hs Hr HQ. pose proof Hd as [Hf Hp Hg Ht Hst Ho Hk Htr].
  apply runs_bind. eapply runs_recorded; [exact Hs|eapply record_barrier; [done..|by apply (tr_depth _ _ _ Htr)]|].
  intros Hs'. apply runs_in_context, runs_update. cbn [object trace fst snd].
  eapply HQ with (s' := relayout _ layout s).
  - split; [done..| |exact Hs']. cbn. by destruct (objects_after tr).
  - split; try done. cbn. by apply tracks_depth.
  - done.
  - done.
Qed.

(** Rendering has begun, with a viewport and a scissor. *)
Definition set_up (k : recording_state) : Prop :=
  rendering k = true /\ is_Some (viewport k) /\ is_Some (scissor k).

(** A command that only changes what is recorded. *)
Lemma runs_recording {f c o s k tr} (e : vk unit) allowed change (Q : unit -> world (with_context t) -> Prop) R :
  drawing f c o s k -> commands_after tr = Some s ->
  record s (Event e tt) = command (commandBuffer f) allowed change s ->
  (forall p, operate p (Event e tt) = Some p) -> allowed k = true ->
  (forall s', drawing f c o s' (change k) -> objects_after (Event e tt :: tr) = objects_after tr ->
     (used_pipelines (change k) = used_pipelines k -> users s' = users s) ->
     commands_after (Event e tt :: tr) = Some s' -> Q tt (mkWorld (c, o) (Event e tt :: tr))) ->
  runs (call e) Q R (mkWorld (c, o) tr).
Proof.
  intros Hd Hs He Hp Ha HQ. eapply runs_recorded; [exact Hs|rewrite He; by eapply record_command|]. intros Hs'.
  eapply HQ; [exact (drawing_command (change k) Hd)| | |exact Hs'].
  - cbn [objects_after]. destruct (objects_after tr); [|done]. apply Hp.
  - intros Hu. eapply users_insert; [by apply (dw_recorded _ _ _ _ _ Hd)|exact Hu].
Qed.

(** The two attachments, in the layouts that rendering asks for. *)
Lemma target_attachable {c o s} layout :
  tracks s (swapchain (state c)) o -> layout <> VK_IMAGE_LAYOUT_UNDEFINED ->
  Tr2TextureAL.m_layout (texture_at (m_defaultBackBuffer o) o) = layout ->
  attached s (mkVkRenderingAttachmentInfo (Tr2TextureAL.m_linearView (texture_at (m_defaultBackBuffer o) o)) layout).
Proof.
  intros [Ht Hv _ _ Htx _ _] Hne Hl. unfold attached. cbn. cbv zeta in Hv. rewrite Hv. cbn. f_equal.
  destruct (Htx _ Ht) as [E|E]; congruence.
Qed.

Lemma runs_prepare_target {f c o s k tr} from by_ (Q : unit -> world (with_context t) -> Prop) R :
  drawing f c o s k -> commands_after tr = Some s -> rendering k = false ->
  (forall o' s' tr', advanced c o s tr c o' s' tr' -> drawing f c o' s' k ->
     Tr2TextureAL.m_linearView (texture_at (m_defaultBackBuffer o') o') =
       Tr2TextureAL.m_linearView (texture_at (m_defaultBackBuffer o) o) ->
     Tr2TextureAL.m_layout (texture_at (m_defaultBackBuffer o') o') = VK_IMAGE_LAYOUT_COLOR_ATTACHMENT_OPTIMAL ->
     Q tt (mkWorld (c, o') tr')) ->
  runs (if bool_decide (Tr2TextureAL.m_layout (texture_at (m_defaultBackBuffer o) o) = VK_IMAGE_LAYOUT_COLOR_ATTACHMENT_OPTIMAL)
    then mret tt else
      call (vkCmdPipelineBarrier2 (commandBuffer f) [Tr2TextureAL.transition (texture_at (m_defaultBackBuffer o) o)
        from by_ VK_IMAGE_LAYOUT_COLOR_ATTACHMENT_OPTIMAL] []);;
      in_texture (m_defaultBackBuffer o) (assign (Tr2TextureAL.SetLayout VK_IMAGE_LAYOUT_COLOR_ATTACHMENT_OPTIMAL)))
    Q R (mkWorld (c, o) tr).
Proof.
  intros Hd Hs Hr HQ. case_bool_decide as Hl.
  - apply runs_ret. eapply HQ; [by apply advanced_refl|exact Hd|done|done].
  - eapply runs_transition_target; [exact Hd|exact Hs|exact Hr|]. intros o1 s1 tr1 Had Hd1 _ Hvw _ Hly. by eapply HQ.
Qed.

Lemma runs_prepare_depth {f c o s k tr} sc from by_ (Q : unit -> world (with_context t) -> Prop) R :
  drawing f c o s k -> commands_after tr = Some s -> rendering k = false -> sc = swapchain (state c) ->
  (forall c' s' tr', advanced c o s tr c' o s' tr' -> drawing f c' o s' k ->
     depthLayout (swapchain (state c')) = VK_IMAGE_LAYOUT_DEPTH_STENCIL_ATTACHMENT_OPTIMAL ->
     Q tt (mkWorld (c', o) tr')) ->
  runs (if bool_decide (depthLayout sc = VK_IMAGE_LAYOUT_DEPTH_STENCIL_ATTACHMENT_OPTIMAL) then mret tt else
      call (vkCmdPipelineBarrier2 (commandBuffer f)
        [depth_transition sc from by_ VK_IMAGE_LAYOUT_DEPTH_STENCIL_ATTACHMENT_OPTIMAL] []);;
      set_depth_layout VK_IMAGE_LAYOUT_DEPTH_STENCIL_ATTACHMENT_OPTIMAL)
    Q R (mkWorld (c, o) tr).
Proof.
  intros Hd Hs Hr -> HQ. case_bool_decide as Hl.
  - apply runs_ret. eapply HQ; [by apply advanced_refl|exact Hd|done].
  - eapply runs_transition_depth; [exact Hd|exact Hs|exact Hr|]. intros c1 s1 tr1 Had Hd1 Hly _. by eapply HQ.
Qed.

Lemma depth_attachable {c o s} :
  tracks s (swapchain (state c)) o ->
  depthLayout (swapchain (state c)) = VK_IMAGE_LAYOUT_DEPTH_STENCIL_ATTACHMENT_OPTIMAL ->
  attached s (mkVkRenderingAttachmentInfo (depthView (swapchain (state c))) VK_IMAGE_LAYOUT_DEPTH_STENCIL_ATTACHMENT_OPTIMAL).
Proof.
  intros [_ _ Hv Hf _ _ _] Hl. unfold attached. cbn. rewrite Hv. cbn. f_equal. destruct Hf as [E|E]; congruence.
Qed.

Lemma but_depth_view c c' : but_depth c' = but_depth c -> depthView (swapchain (state c')) = depthView (swapchain (state c)).
Proof. intros E. by apply (f_equal (fun c => depthView (swapchain (state c)))) in E. Qed.

Lemma runs_BeginRendering {f c o s k tr} (Q : ALResult -> world (with_context t) -> Prop) R :
  drawing f c o s k -> commands_after tr = Some s -> rendering k = false ->
  (forall c' o' s' k' tr', advanced c o s tr c' o' s' tr' -> drawing f c' o' s' k' -> set_up k' ->
     used_pipelines k' = used_pipelines k -> Q S_OK (mkWorld (c', o') tr')) ->
  runs BeginRendering Q R (mkWorld (c, o) tr).
Proof.
  intros Hd Hs Hr HQ. unfold BeginRendering.
  apply runs_bind, runs_in_context, runs_this. cbn [object trace fst snd].
  rewrite (dw_provided _ _ _ _ _ Hd). apply runs_bind, runs_member. cbn [object snd id].
  rewrite (dw_graph _ _ _ _ _ Hd). apply runs_bind. eapply runs_frame_buffer; [exact Hd|]. cbv zeta.
  pose proof (tr_target _ _ _ (dw_tracks _ _ _ _ _ Hd)) as Hv. unfold is_texture in Hv. rewrite Hv. cbn [negb].
  apply runs_bind. eapply runs_prepare_target; [exact Hd|exact Hs|exact Hr|]. intros o1 s1 tr1 Had1 Hd1 Hvw Hly.
  apply runs_bind. eapply runs_prepare_depth; [exact Hd1|apply Had1|exact Hr|done|]. intros c2 s2 tr2 Had2 Hd2 Hdl.
  pose proof (dw_tracks _ _ _ _ _ Hd2) as Ht2. pose proof (but_depth_view _ _ (ad_context _ _ _ _ _ _ _ _ Had2)) as Hdv.
  apply runs_bind. eapply (runs_recording _ outside (fun k => k <| rendering := true |>)); [exact Hd2|apply Had2|..].
  { unfold record. cbn [ev_call ev_answer]. cbn [ri_color ri_depth]. rewrite option_guard_True; [done|]. split.
    - unfold Tr2TextureAL.GetView. rewrite <- Hvw. refine (target_attachable (c := c2) _ Ht2 _ Hly); done.
    - rewrite <- Hdv. exact (depth_attachable Ht2 Hdl). }
  { done. } { unfold outside. by rewrite Hr. }
  intros s3 Hd3 Hp3 Hu3 Hs3. apply runs_bind.
  eapply (runs_recording _ always); [exact Hd3|exact Hs3|done..|]. intros s4 Hd4 Hp4 Hu4 Hs4. apply runs_bind.
  eapply (runs_recording _ always); [exact Hd4|exact Hs4|done..|]. intros s5 Hd5 Hp5 Hu5 Hs5. apply runs_ret.
  eapply HQ; [|exact Hd5| |done].
  - eapply advanced_trans; [exact Had1|]. eapply advanced_trans; [exact Had2|].
    split; [done..| | |exact Hs5].
    + by rewrite Hu5, Hu4, Hu3.
    + by rewrite Hp5, Hp4, Hp3.
  - split; [done|]. cbn. split; by eexists.
Qed.

(** ** Binding

    [X] is what is known of a pipeline that the layout answered, [Y] why it answers none. *)

Section binding.
Context (X : VkHandle -> Tr2VertexLayoutAL.t -> option pipeline_objects -> Prop) (Y : Prop).

(** What drawing asks the layout for. *)
Definition draw_request c o : request :=
  mkRequest (program_address o) (m_topology o) (format (swapchain (state c))) (depthFormat (swapchain (state c)))
    (pipelineCache (state c)).
Definition ask_pipeline c o : Code (with_context Tr2VertexLayoutAL.t) VkHandle :=
  ask (fun _ => program_at (m_shaderProgram o) o) (draw_request c o).

Definition answers c s (h : VkHandle) (w : world (with_context Tr2VertexLayoutAL.t)) : Prop :=
  exists l tr, w = mkWorld (c, l) tr /\ commands_after tr = Some s /\ Tr2VertexLayoutAL.m_isValid l = true /\
    (h <> VK_NULL_HANDLE -> h = Tr2VertexLayoutAL.m_cachedPipeline l /\ X h l (objects_after tr)) /\
    (h = VK_NULL_HANDLE -> Y).

(** Nothing of the context changes but the object of the layout. *)
Definition with_layout o (l : Tr2VertexLayoutAL.t) : t := store_layout (m_vertexLayout o) l o.

Lemma runs_bind_pipeline {f c o s k tr} (Q : unit -> world (with_context t) -> Prop) R :
  drawing f c o s k -> commands_after tr = Some s -> Tr2VertexLayoutAL.IsValid (layout_at (m_vertexLayout o) o) = true ->
  runs (ask_pipeline c o) (answers c s) (fun _ _ => False) (mkWorld (c, layout_at (m_vertexLayout o) o) tr) ->
  (forall l tr', Y -> Tr2VertexLayoutAL.m_isValid l = true -> commands_after tr' = Some s -> R E_FAIL (mkWorld (c, with_layout o l) tr')) ->
  (forall h l s' tr', Tr2VertexLayoutAL.m_isValid l = true -> h <> VK_NULL_HANDLE ->
     h = Tr2VertexLayoutAL.m_cachedPipeline l -> X h l (objects_after tr') ->
     drawing f c (with_layout o l) s' (k <| bound_pipeline := Some h |> <| used_pipelines ::= union {[h]} |>) ->
     commands_after tr' = Some s' -> Q tt (mkWorld (c, with_layout o l) tr')) ->
  runs (bind_pipeline (commandBuffer f)) Q R (mkWorld (c, o) tr).
Proof.
  intros Hd Hs Hv HG HR HQ. unfold bind_pipeline. apply runs_bind, runs_member. cbn [object snd id]. rewrite Hv. cbn [negb].
  apply runs_bind, runs_in_context, runs_this. cbn [object trace fst snd id]. cbv zeta.
  assert (Hu : passUsesDepth o = true) by (unfold passUsesDepth; by rewrite (dw_graph _ _ _ _ _ Hd)).
  rewrite Hu. apply runs_bind, runs_in_member. cbn [object trace fst snd].
  eapply runs_mono; [exact HG| |done]. intros h w (l & tr' & -> & Hs' & Hl & Hh & Hy). cbn [object trace fst snd].
  destruct (is_null h) eqn:Hn; [by apply runs_early, HR; [apply Hy, Z.eqb_eq|..]|]. apply Z.eqb_neq in Hn. destruct (Hh Hn) as [Hc HX].
  eapply (runs_recording _ always (fun k => k <| bound_pipeline := Some h |> <| used_pipelines ::= union {[h]} |>));
    [by apply (drawing_members _ Hd)|exact Hs'|done..|].
  intros s' Hd' Hp' _ Hs''. eapply HQ; [exact Hl|exact Hn|exact Hc| |exact Hd'|exact Hs''].
  by rewrite Hp'.
Qed.

(** *** Vertex buffers *)

Definition stream_bound o k (i : nat) : Prop :=
  forall buffer offset, m_vertexBuffers o !! i = Some buffer -> m_vertexBufferOffsets o !! i = Some offset ->
    Tr2BufferAL.IsValid (buffer_at buffer o) = true ->
    bound_vertices k !! Z.of_nat i = Some (Tr2BufferAL.m_buffer (buffer_at buffer o), offset).

Definition but_vertices k : recording_state := k <| bound_vertices := ∅ |>.

Lemma runs_bind_vertex_buffers {f c o s k tr} (Q : unit -> world (with_context t) -> Prop) R :
  drawing f c o s k -> commands_after tr = Some s ->
  (forall s' k' tr', drawing f c o s' k' -> commands_after tr' = Some s' -> but_vertices k' = but_vertices k ->
     objects_after tr' = objects_after tr -> (forall i, (i < 4)%nat -> stream_bound o k' i) ->
     Q tt (mkWorld (c, o) tr')) ->
  runs (for_each (bind_vertex_buffer (commandBuffer f)) (seq 0 4)) Q R (mkWorld (c, o) tr).
Proof.
  intros Hd Hs HQ.
  set (I := fun (before : list nat) (w : world (with_context t)) => exists s' k' tr', w = mkWorld (c, o) tr' /\
    drawing f c o s' k' /\ commands_after tr' = Some s' /\ but_vertices k' = but_vertices k /\
    objects_after tr' = objects_after tr /\ forall i, i ∈ before -> stream_bound o k' i).
  eapply runs_mono; [apply (runs_for_each _ I)| |done].
  - exists s, k, tr. repeat (split; [done|]). intros i Hi. by apply not_elem_of_nil in Hi.
  - clear Hd Hs HQ. intros before i after w Hxs (s' & k' & tr' & -> & Hd & Hs & Hk & Hp & Hb).
    assert (Hi : (i < 4)%nat).
    { assert (Hin : i ∈ seq 0 4) by (rewrite Hxs; set_solver). apply elem_of_seq in Hin. lia. }
    unfold bind_vertex_buffer. apply runs_bind, runs_member. cbn [object snd id].
    destruct (lookup_lt_is_Some_2 (m_vertexBuffers o) i) as [buffer Hbuf]; [by rewrite (dw_streams _ _ _ _ _ Hd)|].
    destruct (lookup_lt_is_Some_2 (m_vertexBufferOffsets o) i) as [offset Hoff]; [by rewrite (dw_offsets _ _ _ _ _ Hd)|].
    rewrite Hbuf, Hoff. destruct (Tr2BufferAL.IsValid _) eqn:Hv.
    + eapply (runs_recording _ always (fun k => k <| bound_vertices ::= insert (Z.of_nat i) _ |>));
        [exact Hd|exact Hs|done..|].
      intros s'' Hd' Hp' _ Hs''. eexists s'', _, _. split; [done|]. split; [exact Hd'|]. split; [exact Hs''|].
      split; [exact Hk|]. split; [by rewrite Hp'|]. intros j Hj b off Hbj Hoj Hvj. cbn.
      destruct (decide (i = j)) as [<-|Hne].
      * rewrite lookup_insert_eq. congruence.
      * rewrite lookup_insert_ne by lia. apply elem_of_app in Hj as [Hj|Hj]; [by apply Hb|]. set_solver.
    + apply runs_ret. exists s', k', tr'. repeat (split; [done|]). intros j Hj. apply elem_of_app in Hj as [Hj|Hj]; [by apply Hb|].
      apply list_elem_of_singleton in Hj as ->. intros b off Hbj Hoj Hvj. congruence.
  - intros [] w (s' & k' & tr' & -> & Hd' & Hs' & Hk' & Hp' & Hb'). eapply HQ; [done..|].
    intros i Hi. apply Hb', elem_of_seq. lia.
Qed.

(** *** All that is bound *)

Lemma runs_bind_set {f c o s k tr} (Q : unit -> world (with_context t) -> Prop) R layout (h : VkHandle) :
  drawing f c o s k -> commands_after tr = Some s ->
  (forall s' k' tr', drawing f c o s' k' -> commands_after tr' = Some s' -> objects_after tr' = objects_after tr ->
     users s' = users s -> k' = (if is_null h then k else k <| bound_set := Some (layout, h) |>) ->
     Q tt (mkWorld (c, o) tr')) ->
  runs (if is_null h then mret tt else call (vkCmdBindDescriptorSets (commandBuffer f) layout h)) Q R (mkWorld (c, o) tr).
Proof.
  intros Hd Hs HQ. destruct (is_null h); [by eapply runs_ret, HQ|].
  eapply (runs_recording _ always (fun k => k <| bound_set := Some (layout, h) |>)); [exact Hd|exact Hs|done..|].
  intros s' Hd' Hp' Hu' Hs'. eapply HQ; [exact Hd'|exact Hs'|done|by apply Hu'|done].
Qed.

(** The set that drawing binds. *)
Definition draw_set o : VkHandle :=
  let set := set_at (m_resourceSet o) o in
  if Tr2ResourceSetAL.IsValid set then Tr2ResourceSetAL.GetDescriptorSet set else VK_NULL_HANDLE.

(** What is bound for [o] when it answers [h]. *)
Record binds o k k' (h : VkHandle) : Prop := mk_binds
  { bi_pipeline : bound_pipeline k' = Some h;
    bi_set : bound_set k' = if is_null (draw_set o) then bound_set k
      else Some (Tr2ShaderProgramAL.GetPipelineLayout (program_at (m_shaderProgram o) o), draw_set o);
    bi_streams : forall i, (i < 4)%nat -> stream_bound o k' i;
    bi_rendering : rendering k' = rendering k; bi_viewport : viewport k' = viewport k;
    bi_scissor : scissor k' = scissor k; bi_indices : bound_indices k' = bound_indices k }.

(** Why nothing is drawn. *)
Definition undrawable o : Prop := Tr2ShaderProgramAL.IsValid (program_at (m_shaderProgram o) o) = false \/ Y.

Lemma runs_BindFrameResources {f c o s k tr} (Q : ALResult -> world (with_context t) -> Prop) R :
  drawing f c o s k -> commands_after tr = Some s -> Tr2VertexLayoutAL.IsValid (layout_at (m_vertexLayout o) o) = true ->
  (forall tr' s', objects_after tr' = objects_after tr -> commands_after tr' = Some s' -> users s' = users s ->
     runs (ask_pipeline c o) (answers c s') (fun _ _ => False) (mkWorld (c, layout_at (m_vertexLayout o) o) tr')) ->
  (forall hr o' s' k' tr', hr <> S_OK -> undrawable o -> drawing f c o' s' k' -> commands_after tr' = Some s' -> but_objects o' = but_objects o ->
     rendering k' = rendering k -> viewport k' = viewport k -> scissor k' = scissor k -> Q hr (mkWorld (c, o') tr')) ->
  (forall h l s' k' tr', h <> VK_NULL_HANDLE ->
     h = Tr2VertexLayoutAL.m_cachedPipeline l -> X h l (objects_after tr') -> Tr2VertexLayoutAL.m_isValid l = true ->
     drawing f c (with_layout o l) s' k' -> commands_after tr' = Some s' -> binds o k k' h ->
     Q S_OK (mkWorld (c, with_layout o l) tr')) ->
  runs BindFrameResources Q R (mkWorld (c, o) tr).
Proof.
  intros Hd Hs Hv HG Hno HQ. unfold BindFrameResources. apply runs_function.
  apply runs_bind. eapply runs_frame_buffer; [exact Hd|]. apply runs_bind, runs_member. cbn [object snd id]. cbv zeta.
  destruct (Tr2ShaderProgramAL.IsValid _) eqn:Hval; cbn [negb]; [|by eapply runs_ret, Hno; [|left|..]].
  change (if Tr2ResourceSetAL.IsValid (set_at (m_resourceSet o) o) then _ else VK_NULL_HANDLE) with (draw_set o).
  apply runs_bind. eapply runs_bind_set; [exact Hd|exact Hs|]. intros s1 k1 tr1 Hd1 Hs1 Hp1 Hu1 Hk1.
  assert (Hk1' : rendering k1 = rendering k /\ viewport k1 = viewport k /\ scissor k1 = scissor k).
  { rewrite Hk1. by destruct (is_null _). }
  apply runs_bind. eapply runs_bind_pipeline; [exact Hd1|exact Hs1|exact Hv|by apply HG|..].
  - intros l tr2 Hy Hl Hs2. eapply Hno with (s' := s1) (k' := k1); [done|by right|by apply (drawing_members _ Hd1)|done|done|apply Hk1'..].
  - intros h l s2 tr2 Hl Hn Hc HX Hd2 Hs2. apply runs_bind.
    eapply runs_bind_vertex_buffers; [exact Hd2|exact Hs2|]. intros s3 k3 tr3 Hd3 Hs3 Hk3 Hp3 Hb3.
    apply runs_ret. eapply HQ; [exact Hn|exact Hc|by rewrite Hp3|exact Hl|exact Hd3|exact Hs3|].
    unfold but_vertices in Hk3. cbn in Hk3. injection Hk3 as E1 E2 E3 E4 E5 E6 E7.
    split; [done| |exact Hb3|..].
    + rewrite E5, Hk1. by destruct (is_null _).
    + rewrite E1. apply Hk1'.
    + rewrite E2. apply Hk1'.
    + rewrite E3. apply Hk1'.
    + rewrite E6, Hk1. by destruct (is_null _).
Qed.

(** *** Drawing *)

Definition but_active o : t := (but_objects o) <| m_renderingActive := false |>.

(** The pipeline, the set and the vertex buffers of [o] are bound. *)
Record bound_for o k (h : VkHandle) : Prop := mk_bound_for
  { bf_pipeline : bound_pipeline k = Some h;
    bf_set : draw_set o <> VK_NULL_HANDLE ->
      bound_set k = Some (Tr2ShaderProgramAL.GetPipelineLayout (program_at (m_shaderProgram o) o), draw_set o);
    bf_streams : forall i, (i < 4)%nat -> stream_bound o k i }.

Lemma binds_for o o' k k' h : binds o k k' h -> but_active o = but_active o' -> bound_for o' k' h.
Proof.
  intros [Hp Hs Hst _ _ _ _] E.
  assert (Hb : bound_for (but_active o) k' h).
  { split; [exact Hp| |exact Hst]. change (draw_set (but_active o)) with (draw_set o).
    intros Hn. rewrite Hs. by rewrite (is_null_false _ Hn). }
  rewrite E in Hb. destruct Hb as [H1' H2' H3']. split; [exact H1'|exact H2'|exact H3'].
Qed.

(** A command can draw what is bound for [o]. *)
Record ready_to_draw (f : VulkanFrameContext) (c : VulkanContext) (o : t) (h : VkHandle)
    (c' : VulkanContext) (o' : t) (tr' : list event) : Prop := mk_ready_to_draw
  { rd_state : exists s' k', commands_after tr' = Some s' /\ drawing f c' o' s' k' /\ set_up k' /\ bound_for o k' h;
    rd_active : m_renderingActive o' = true;
    rd_context : but_depth c' = but_depth c;
    rd_members : but_active o' = but_active o;
    rd_pipeline : h <> VK_NULL_HANDLE /\ h = Tr2VertexLayoutAL.m_cachedPipeline (layout_at (m_vertexLayout o) o');
    rd_known : X h (layout_at (m_vertexLayout o) o') (objects_after tr') }.

Lemma layout_at_with o l : layout_at (m_vertexLayout o) (with_layout o l) = l.
Proof. unfold layout_at, with_layout. cbn. by rewrite lookup_insert_eq. Qed.

(** Rendering begins unless it has. *)
Lemma runs_activate {f c o s k tr} (Q : unit -> world (with_context t) -> Prop) R :
  drawing f c o s k -> in_step o k -> commands_after tr = Some s ->
  (forall c' o' s' k' tr', but_depth c' = but_depth c -> but_active o' = but_active o ->
     layout_objects o' = layout_objects o -> users s' = users s -> objects_after tr' = objects_after tr ->
     commands_after tr' = Some s' -> m_renderingActive o' = true -> drawing f c' o' s' k' -> set_up k' ->
     Q tt (mkWorld (c', o') tr')) ->
  runs (if m_renderingActive o then mret tt else
    CR_RETURN_HR BeginRendering;; assign (fun o => o <| m_renderingActive := true |>)) Q R (mkWorld (c, o) tr).
Proof.
  intros Hd [Hact Hset] Hs HQ. destruct (m_renderingActive o) eqn:Ha.
  - eapply runs_ret, HQ; try done. by split; [|apply Hset].
  - apply runs_bind, runs_CR_RETURN_HR. eapply runs_BeginRendering; [exact Hd|exact Hs|congruence|].
    intros c1 o1 s1 k1 tr1 [Hc Hm Hl Hu Hp Hs1] Hd1 Hk1 _. cbn [FAILED SUCCEEDED negb].
    apply runs_assign. cbn [object trace fst snd]. eapply HQ; try done.
    + exact (f_equal (fun o => o <| m_renderingActive := false |>) Hm).
    + destruct Hd1. split; try done. by eapply tracks_same.
Qed.

Lemma undrawable_same o o' : but_active o = but_active o' -> undrawable o <-> undrawable o'.
Proof. intros E. change (undrawable (but_active o) <-> undrawable (but_active o')). by rewrite E. Qed.

Lemma runs_with_rendering {f c o s k tr} draw (Q : ALResult -> world (with_context t) -> Prop) R :
  drawing f c o s k -> in_step o k -> commands_after tr = Some s ->
  Tr2VertexLayoutAL.IsValid (layout_at (m_vertexLayout o) o) = true ->
  (forall c' tr' s', objects_after tr' = objects_after tr -> commands_after tr' = Some s' -> users s' = users s ->
     runs (ask_pipeline c o) (answers c' s') (fun _ _ => False) (mkWorld (c', layout_at (m_vertexLayout o) o) tr')) ->
  (forall hr w, hr <> S_OK -> undrawable o -> in_frame_of f w -> Q hr w) ->
  (forall c' o' h tr', ready_to_draw f c o h c' o' tr' ->
     runs (draw (commandBuffer f)) (fun _ => Q S_OK) (fun _ _ => False) (mkWorld (c', o') tr')) ->
  runs (with_rendering draw) Q R (mkWorld (c, o) tr).
Proof.
  intros Hd Hin Hs Hv HG Hno HQ. unfold with_rendering. apply runs_function.
  apply runs_bind. eapply runs_frame_buffer; [exact Hd|]. apply runs_bind, runs_member. cbn [object snd].
  apply runs_bind. eapply runs_activate; [exact Hd|exact Hin|exact Hs|].
  intros c1 o1 s1 k1 tr1 Hc1 Hm1 Hl1 Hu1 Hp1 Hs1 Ha1 Hd1 [Hr1 Hk1].
  assert (Hlw : m_vertexLayout o1 = m_vertexLayout o) by exact (f_equal m_vertexLayout Hm1).
  assert (Hlay : layout_at (m_vertexLayout o1) o1 = layout_at (m_vertexLayout o) o).
  { unfold layout_at. by rewrite Hl1, Hlw. }
  assert (Hask : ask_pipeline c1 o1 = ask_pipeline c o).
  { change (ask_pipeline (but_depth c1) (but_active o1) = ask_pipeline (but_depth c) (but_active o)). by rewrite Hc1, Hm1. }
  apply runs_bind, runs_CR_RETURN_HR. eapply runs_BindFrameResources; [exact Hd1|exact Hs1|by rewrite Hlay|..].
  - intros tr2 s2 Hp2 Hs2 Hu2. rewrite Hlay, Hask. apply HG; [congruence|done|congruence].
  - intros hr o2 s2 k2 tr2 Hhr Hno2 Hd2 Hs2 Hm2 Hr2 Hv2 Hsc2. replace (FAILED hr) with true by by destruct hr.
    apply Hno; [done|by rewrite <- (undrawable_same _ _ Hm1)|]. exists s2, k2. split; [done|]. split; [exact Hd2|].
    assert (Ha2 : m_renderingActive o2 = true) by (rewrite <- Ha1; exact (f_equal m_renderingActive Hm2)).
    unfold in_step. cbn [object snd]. rewrite Ha2, Hr2, Hv2, Hsc2. done.
  - intros h l s2 k2 tr2 Hn Hc HX Hl Hd2 Hs2 Hb. cbn [FAILED SUCCEEDED negb]. apply runs_bind.
    eapply runs_mono; [apply (HQ _ _ h)| |done].
    + split.
      * exists s2, k2. split; [done|]. split; [exact Hd2|]. pose proof Hb as [_ _ _ Hbr Hbv Hbsc _].
        split; [|exact (binds_for _ _ _ _ _ Hb Hm1)]. unfold set_up. rewrite Hbr, Hbv, Hbsc. done.
      * done.
      * done.
      * exact Hm1.
      * split; [done|]. by rewrite <- Hlw, layout_at_with.
      * by rewrite <- Hlw, layout_at_with.
    + intros [] w Hw. by apply runs_ret.
Qed.
End binding.

(** ** The pipeline

    That of a layout is not used by what is recorded, or is the one that is asked for. *)
Definition replaceable (r : request) (l : Tr2VertexLayoutAL.t) (s : commands) : Prop :=
  Tr2VertexLayoutAL.m_cachedPipeline l = VK_NULL_HANDLE \/
  Tr2VertexLayoutAL.is_cached (r_address r) (r_topology r) (r_colorFormat r) (r_depthFormat r) l = true \/
  unused s (Tr2VertexLayoutAL.m_cachedPipeline l).

Lemma commands_skip {A} (e : vk A) a tr s :
  commands_after tr = Some s -> (forall s, record s (Event e a) = Some s) -> commands_after (Event e a :: tr) = Some s.
Proof. intros Hs He. cbn [commands_after]. rewrite Hs. apply He. Qed.

Lemma runs_ask_commands program (r : request) l c s tr R :
  commands_after tr = Some s -> fits program -> replaceable r l s -> Tr2VertexLayoutAL.m_isValid l = true ->
  runs (ask (fun _ => program) r) (answers (fun _ _ _ => True) True c s) R (mkWorld (c, l) tr).
Proof.
  intros Hs Hfit Hrep Hv. unfold ask, Tr2VertexLayoutAL.GetPipeline. apply runs_bind, runs_member. cbn [object snd id].
  destruct (Tr2VertexLayoutAL.is_cached _ _ _ _ l) eqn:Hc; [by apply runs_ret; eexists l, tr|].
  apply runs_bind.
  assert (Hdestroy : forall (Q : unit -> world (with_context Tr2VertexLayoutAL.t) -> Prop) R,
    (forall tr', commands_after tr' = Some s ->
       Q tt (mkWorld (c, l <| Tr2VertexLayoutAL.m_cachedPipeline := VK_NULL_HANDLE |>) tr')) ->
    runs Tr2VertexLayoutAL.destroy_cached Q R (mkWorld (c, l) tr)).
  { intros Q R' HQ. unfold Tr2VertexLayoutAL.destroy_cached. apply runs_bind, runs_member. cbn [object snd id].
    destruct (is_null _) eqn:Hn.
    - apply Z.eqb_eq in Hn. apply runs_ret. specialize (HQ tr Hs). by destruct l; cbn in *; subst.
    - apply runs_bind. eapply runs_recorded; [exact Hs| |].
      + cbn. rewrite option_guard_True; [done|]. destruct Hrep as [E|[E|E]]; [by rewrite E in Hn|by rewrite E in Hc|exact E].
      + intros Hs'. apply runs_assign. by apply HQ. }
  apply Hdestroy. clear Hdestroy. intros tr1 Hs1. apply runs_bind, runs_member. cbn [object snd id].
  rewrite pipeline_info_fits by done. apply runs_bind, runs_call. intros [res out] _. cbn [object trace fst snd].
  assert (Hs2 : forall e, commands_after (Event (vkCreateGraphicsPipelines (Tr2VertexLayoutAL.m_device
     (l <| Tr2VertexLayoutAL.m_cachedPipeline := VK_NULL_HANDLE |>)) (r_cache r) e) (res, out) :: tr1) = Some s).
  { intros e. by apply commands_skip. }
  destruct (negb (succeeded res)).
  - apply runs_ret. eexists _, _. split; [done|]. by split; [apply Hs2|].
  - apply runs_bind, runs_assign, runs_ret. cbn [object trace fst snd]. eexists _, _. split; [done|]. by split; [apply Hs2|].
Qed.

(** ** The other commands *)

(** What a drawing command leaves. *)
Lemma in_frame_now {f c o s k tr} :
  commands_after tr = Some s -> drawing f c o s k -> in_step o k -> in_frame_of f (mkWorld (c, o) tr).
Proof. intros. by exists s, k. Qed.

Lemma runs_SetViewport {f c o s k tr} v (Q : ALResult -> world (with_context t) -> Prop) R :
  drawing f c o s k -> in_step o k -> commands_after tr = Some s ->
  (forall w, in_frame_of f w -> Q S_OK w) -> runs (SetViewport v) Q R (mkWorld (c, o) tr).
Proof.
  intros Hd [Hr Hk] Hs HQ. unfold SetViewport. apply runs_bind, runs_assign. cbn [object trace fst snd].
  assert (Hd' : drawing f c (o <| m_viewport := v |>) s k) by by apply (drawing_members _ Hd).
  apply runs_bind. eapply runs_frame_buffer; [exact Hd'|]. apply runs_bind.
  eapply (runs_recording _ always (fun k => k <| viewport := Some (vk_viewport v) |>)); [exact Hd'|exact Hs|done..|].
  intros s' Hd'' _ _ Hs'. apply runs_ret, HQ. eapply in_frame_now; [exact Hs'|exact Hd''|].
  split; [done|]. cbn. intros E. split; [by eexists|by apply Hk].
Qed.

Lemma runs_CopySubBuffer {f c o s k tr} dest destOffset src offset length (Q : ALResult -> world (with_context t) -> Prop) R :
  drawing f c o s k -> in_step o k -> commands_after tr = Some s -> m_renderingActive o = false ->
  (forall w, in_frame_of f w -> Q S_OK w) ->
  runs (CopySubBuffer dest destOffset src offset length) Q R (mkWorld (c, o) tr).
Proof.
  intros Hd [Hr Hk] Hs Ha HQ. unfold CopySubBuffer. apply runs_bind. eapply runs_frame_buffer; [exact Hd|].
  apply runs_bind, runs_member, runs_bind. cbn [object snd id].
  eapply (runs_recording _ outside id); [exact Hd|exact Hs|done..|by unfold outside; rewrite Hr, Ha|].
  intros s' Hd' _ _ Hs'. apply runs_ret, HQ. by eapply in_frame_now.
Qed.

Lemma runs_marker {f c o s k tr} (m : Code (with_context t) unit) name e (Q : unit -> world (with_context t) -> Prop) R :
  drawing f c o s k -> in_step o k -> commands_after tr = Some s ->
  m = (commandBuffer ← in_context GetCurrentCommandBuffer; d ← in_context (get device);
       fn ← call (vkGetDeviceProcAddr d name); if (fn : bool) then call (e commandBuffer) else mret tt) ->
  (forall s, record s (Event (e (commandBuffer f)) tt) = Some s) ->
  (forall w, in_frame_of f w -> Q tt w) -> runs m Q R (mkWorld (c, o) tr).
Proof.
  intros Hd Hin Hs -> He HQ. apply runs_bind. eapply runs_frame_buffer; [exact Hd|].
  apply runs_bind, runs_in_context, runs_this. cbn [object trace fst snd]. apply runs_bind, runs_call. intros fn _.
  cbn [object trace]. assert (Hs1 := commands_skip (vkGetDeviceProcAddr (device (state c)) name) fn tr s Hs (fun _ => eq_refl)).
  destruct fn; [|by apply runs_ret, HQ; eapply in_frame_now].
  apply runs_call. intros [] _. cbn [object trace]. apply HQ. eapply in_frame_now; [|exact Hd|exact Hin].
  by apply commands_skip.
Qed.

Lemma runs_end_rendering {f c o s k tr} (Q : unit -> world (with_context t) -> Prop) R :
  drawing f c o s k -> in_step o k -> commands_after tr = Some s ->
  (forall s' k' tr', commands_after tr' = Some s' -> drawing f c (o <| m_renderingActive := false |>) s' k' ->
     rendering k' = false -> Q tt (mkWorld (c, o <| m_renderingActive := false |>) tr')) ->
  runs end_rendering Q R (mkWorld (c, o) tr).
Proof.
  intros Hd [Hr Hk] Hs HQ. unfold end_rendering. apply runs_bind, runs_member. cbn [object snd].
  destruct (m_renderingActive o) eqn:Ha; cbn [negb].
  - unfold EndRendering. apply runs_bind, runs_CR_RETURN_HR, runs_bind, runs_member. cbn [object snd id].
    rewrite (dw_graph _ _ _ _ _ Hd). apply runs_bind. eapply runs_frame_buffer; [exact Hd|]. apply runs_bind.
    eapply (runs_recording _ rendering (fun k => k <| rendering := false |>)); [exact Hd|exact Hs|done..|].
    intros s' Hd' _ _ Hs'. apply runs_ret. cbn [FAILED SUCCEEDED negb]. apply runs_assign. cbn [object trace fst snd].
    apply (HQ s' (k <| rendering := false |>)); [exact Hs'| |done]. destruct Hd'. split; try done. by eapply tracks_same.
  - apply runs_ret. assert (E : o <| m_renderingActive := false |> = o) by (destruct o; cbn in *; by subst).
    specialize (HQ s k tr Hs). rewrite E in HQ. by apply HQ.
Qed.

(** *** Clearing *)

Lemma runs_clear_target {f c o s k tr} h color (Q : unit -> world (with_context t) -> Prop) R :
  drawing f c o s k -> commands_after tr = Some s -> rendering k = false -> is_texture h o = true ->
  (forall o' s' tr', commands_after tr' = Some s' -> drawing f c o' s' k -> but_objects o' = but_objects o ->
     (forall h, is_texture h o' = is_texture h o) -> Q tt (mkWorld (c, o') tr')) ->
  runs (clear_target (commandBuffer f) h color) Q R (mkWorld (c, o) tr).
Proof.
  intros Hd Hs Hr Hh HQ. pose proof Hd as [Hf Hp Hg Ht Hst Ho Hk Htr]. unfold clear_target.
  apply runs_bind, runs_member, runs_bind. cbn [object snd].
  eapply runs_recorded; [exact Hs|eapply record_barrier; [done..|by apply (tr_textures _ _ _ Htr)]|]. intros Hs1.
  apply runs_bind. eapply runs_recorded; [exact Hs1|cbn -[on_image]; by eapply on_image_now|]. intros Hs2.
  apply runs_in_member, runs_assign. cbn [object trace fst snd]. eapply HQ; [exact Hs2| |done|].
  - split; try done. by apply tracks_relaid.
  - intros h'. apply is_texture_relaid.
Qed.

Lemma runs_clear_depth {f c o s k tr} depth (Q : unit -> world (with_context t) -> Prop) R :
  drawing f c o s k -> commands_after tr = Some s -> rendering k = false ->
  (forall c' o' s' tr', commands_after tr' = Some s' -> drawing f c' o' s' k -> but_objects o' = but_objects o ->
     Q tt (mkWorld (c', o') tr')) ->
  runs (clear_depth (commandBuffer f) depth) Q R (mkWorld (c, o) tr).
Proof.
  intros Hd Hs Hr HQ. pose proof Hd as [Hf Hp Hg Ht Hst Ho Hk Htr]. unfold clear_depth.
  apply runs_bind, runs_member. cbn [object snd id]. apply runs_bind, runs_in_context, runs_this. cbn [object trace fst snd].
  cbv zeta. apply runs_bind. destruct (is_texture (m_boundDepthStencil o) o) eqn:Hb.
  - eapply runs_recorded; [exact Hs|eapply record_barrier; [done..|by apply (tr_textures _ _ _ Htr)]|]. intros Hs1.
    apply runs_bind. eapply runs_recorded; [exact Hs1|cbn -[on_image]; by eapply on_image_now|]. intros Hs2.
    apply runs_in_member, runs_assign. cbn [object trace fst snd]. eapply HQ; [exact Hs2| |done].
    split; try done. by apply tracks_relaid.
  - eapply runs_recorded; [exact Hs|eapply record_barrier; [done..|by apply (tr_depth _ _ _ Htr)]|]. intros Hs1.
    apply runs_bind. eapply runs_recorded; [exact Hs1|cbn -[on_image]; by eapply on_image_now|]. intros Hs2.
    apply runs_in_context, runs_update. cbn [object trace fst snd]. eapply HQ; [exact Hs2| |done].
    split; try done. by apply tracks_depth.
Qed.

Lemma runs_Clear {f c o s k tr} flags color depth slot (Q : ALResult -> world (with_context t) -> Prop) R :
  drawing f c o s k -> in_step o k -> commands_after tr = Some s -> m_renderingActive o = false ->
  (slot < MAX_RENDER_TARGET)%nat -> (forall hr w, in_frame_of f w -> Q hr w) ->
  runs (Clear flags color depth slot) Q R (mkWorld (c, o) tr).
Proof.
  intros Hd [Hr Hk] Hs Ha Hslot HQ. unfold Clear. apply runs_bind, runs_in_context, runs_this. cbn [object trace fst snd].
  rewrite (dw_provided _ _ _ _ _ Hd). apply runs_bind. eapply runs_frame_buffer; [exact Hd|].
  apply runs_bind, runs_member. cbn [object snd id]. unfold target_of.
  destruct (lookup_lt_is_Some_2 (m_boundRenderTarget o) slot) as [b ->]; [by rewrite (dw_targets _ _ _ _ _ Hd)|].
  cbn [mbind option_bind].
  set (target := if ((slot =? 0)%nat && negb (is_texture (texture b) o))%bool then m_defaultBackBuffer o else texture b).
  destruct (is_texture target o) eqn:Ht; cbn [negb]; [|by eapply runs_ret, HQ, in_frame_now].
  rewrite Ha in Hr.
  assert (Hin : forall c' o' s' tr', commands_after tr' = Some s' -> drawing f c' o' s' k ->
    but_objects o' = but_objects o -> in_frame_of f (mkWorld (c', o') tr')).
  { intros c' o' s' tr' Hs' Hd' Hm. eapply in_frame_now; [exact Hs'|exact Hd'|].
    pose proof (f_equal m_renderingActive Hm) as E. cbn in E. split; [congruence|done]. }
  assert (Hdepth : forall o1 s1 tr1, commands_after tr1 = Some s1 -> drawing f c o1 s1 k -> but_objects o1 = but_objects o ->
    runs ((if has_flag flags CLEARFLAGS_ZBUFFER then clear_depth (commandBuffer f) depth else mret tt : Code (with_context t) unit);; mret S_OK)
      Q R (mkWorld (c, o1) tr1)).
  { intros o1 s1 tr1 Hs1 Hd1 Hm1. apply runs_bind. destruct (has_flag flags CLEARFLAGS_ZBUFFER).
    - eapply runs_clear_depth; [exact Hd1|exact Hs1|exact Hr|]. intros c2 o2 s2 tr2 Hs2 Hd2 Hm2.
      apply runs_ret, HQ. eapply Hin; [exact Hs2|exact Hd2|congruence].
    - by eapply runs_ret, runs_ret, HQ, Hin. }
  apply runs_bind. destruct (has_flag flags CLEARFLAGS_TARGET).
  - eapply runs_clear_target; [exact Hd|exact Hs|exact Hr|exact Ht|]. intros o1 s1 tr1 Hs1 Hd1 Hm1 _. by eapply Hdepth.
  - by eapply runs_ret, Hdepth.
Qed.

(** *** Ready to be presented *)

Lemma runs_TransitionBackBuffer {f c o s k tr} layout (Q : ALResult -> world (with_context t) -> Prop) R :
  drawing f c o s k -> commands_after tr = Some s -> rendering k = false -> layout <> VK_IMAGE_LAYOUT_UNDEFINED ->
  (forall o' s' tr', commands_after tr' = Some s' -> drawing f c o' s' k ->
     m_renderingActive o' = m_renderingActive o ->
     layout_of s' (Tr2TextureAL.m_image (texture_at (m_defaultBackBuffer o) o)) = layout -> Q S_OK (mkWorld (c, o') tr')) ->
  runs (TransitionBackBuffer layout) Q R (mkWorld (c, o) tr).
Proof.
  intros Hd Hs Hr Hne HQ. unfold TransitionBackBuffer. apply runs_bind, runs_in_context, runs_this. cbn [object trace fst snd].
  rewrite (dw_provided _ _ _ _ _ Hd). apply runs_bind, runs_member. cbn [object snd id]. cbv zeta.
  pose proof (dw_tracks _ _ _ _ _ Hd) as Htr. pose proof (tr_target _ _ _ Htr) as Hv.
  change (Tr2TextureAL.IsValid _) with (is_texture (m_defaultBackBuffer o) o). rewrite Hv. cbn [negb].
  case_bool_decide as Hl.
  - apply runs_ret. eapply HQ; [exact Hs|exact Hd|done|].
    destruct (tr_textures _ _ _ Htr _ Hv) as [E|E]; congruence.
  - apply runs_bind. eapply runs_frame_buffer; [exact Hd|].
    apply runs_bind. eapply runs_recorded; [exact Hs|eapply record_barrier;
      [exact (dw_recorded _ _ _ _ _ Hd)|exact Hr|by apply (tr_textures _ _ _ Htr)]|].
    intros Hs1. apply runs_bind, runs_in_member, runs_assign. cbn [object trace fst snd]. apply runs_ret.
    eapply HQ with (s' := relayout _ layout s); [exact Hs1| |done|by rewrite layout_of_relayout, decide_True].
    pose proof Hd as [Hf Hp Hg Ht Hst Ho Hk _]. split; try done. by apply tracks_relaid.
Qed.
End drawing.
