(* ===== verification/VulkanRenderContextSpec.v ===== *)
(** * A frame keeps the rules, and draws what is bound

    The operations of the render context within a frame, as steps: after any sequence
    of those that are permitted, what is recorded keeps the rules of
    [VulkanRenderRules], and the frame can be ended and presented; inside rendering,
    copies, clearings and changes of layout break them. A draw that succeeds is a
    command whose pipeline is that of the bound program for the bound vertices, whose
    set and buffers are those bound, and which draws the number of vertices that the
    code computes for its primitives. *)

From stdpp Require Import base numbers list option strings gmap fin_maps sets relations.
From S2P Require Import Prelude RenderGraph VulkanFormats Vulkan VulkanContext VulkanUsage VulkanDriver VulkanMemory VulkanRenderRules VulkanObject VulkanBuffer VulkanQueries VulkanPipelines VulkanVertexLayout VulkanTexture VulkanTextureSpec VulkanResourceSet VulkanPipelineRules VulkanPipelinesSpec VulkanVertexLayoutSpec VulkanRenderContext VulkanDrawing.
Import VkFormat.

#[local] Open Scope Z_scope.
#[local] Existing Instance Tr2VertexLayoutAL.t_eta.

Section frame.
Context `{Driver} `{TextureTypes} `{ShaderTypes} `{!RegisterMaps} `{ContextTypes}.
Import Tr2RenderContextAL.

(** ** Operations *)

Inductive drawing_op :=
| Draw (startVertex primitiveCount : Z)
| DrawInstances (vertexCount instanceCount startVertex startInstance : Z)
| DrawIndexed (startIndex primitiveCount : Z)
| DrawIndexedInstances (startIndex primitiveCount numInstances : Z)
| DrawIndices (indexCount instanceCount startIndex baseVertex startInstance : Z).

Inductive op :=
| Sets (g : t -> ALResult * t)
| Drawing (d : drawing_op)
| Clears (flags color : Z) (depth : SpecFloat.spec_float) (slot : nat)
| Copies (dest : wrapper) (destOffset : Z) (src : wrapper) (offset length : Z)
| Views (v : Tr2Viewport)
| Marks (marker : string)
| Unmarks
| Transitions (layout : VkImageLayout)
| Ends.

(** The functions that only set members. *)
Inductive setter : (t -> ALResult * t) -> Prop :=
| sets_stream stream buffer offset stride : setter (SetStreamSource stream buffer offset stride)
| sets_indices buffer stride : setter (SetIndices_stride buffer stride)
| sets_topology topology : setter (SetTopology topology)
| sets_program program : setter (SetShaderProgram program)
| sets_set set : setter (SetResourceSet set)
| sets_layout layout : setter (SetVertexLayout layout)
| sets_depth depth : setter (SetDepthStencil depth)
| sets_target target slot slice : setter (SetRenderTarget target slot slice)
| pushes_target slot : setter (PushRenderTarget slot)
| pops_target slot : setter (PopRenderTarget slot)
| pushes_depth : setter PushDepthStencil
| pops_depth : setter PopDepthStencil
| sets_constants buffer constantType registerIndex : setter (SetConstants buffer constantType registerIndex)
| sets_state state value : setter (SetRenderState state value).

Definition draw (d : drawing_op) : Code (with_context t) ALResult :=
  match d with
  | Draw start count => DrawPrimitive start count
  | DrawInstances n m start start' => DrawInstanced n m start start'
  | DrawIndexed start count => DrawIndexedPrimitive start count
  | DrawIndexedInstances start count n => DrawIndexedInstanced start count n
  | DrawIndices n m start base start' => DrawIndexedInstanced_indices n m start base start'
  end.

Definition indexed (d : drawing_op) : bool :=
  match d with Draw _ _ | DrawInstances _ _ _ _ => false | _ => true end.

Definition perform (e : op) : Code (with_context t) ALResult :=
  match e with
  | Sets g => pure g
  | Drawing d => draw d
  | Clears flags color depth slot => Clear flags color depth slot
  | Copies dest destOffset src offset length => CopySubBuffer dest destOffset src offset length
  | Views v => SetViewport v
  | Marks marker => PushGpuMarker marker;; mret S_OK
  | Unmarks => PopGpuMarker;; mret S_OK
  | Transitions layout => TransitionBackBuffer layout
  | Ends => EndScene
  end.

(** What is asked of the one who draws: a vertex layout, a program with a module for each
    stage, an index buffer for indexed drawing, and that the pipeline the layout keeps is
    the one to draw with, or that nothing that is recorded uses it. *)
Definition drawable (d : drawing_op) (w : world (with_context t)) : Prop :=
  let c := fst (object w) in
  let o := snd (object w) in
  Tr2VertexLayoutAL.IsValid (layout_at (m_vertexLayout o) o) = true /\
  fits (program_at (m_shaderProgram o) o) /\
  (indexed d = true -> Tr2BufferAL.m_buffer (buffer_at (m_indexBuffer o) o) <> VK_NULL_HANDLE) /\
  forall s, commands_after (trace w) = Some s ->
    replaceable (draw_request c o) (layout_at (m_vertexLayout o) o) s.

(** Clearing, copying and changing the layout of the target come before drawing. *)
Definition permitted (e : op) (w : world (with_context t)) : Prop :=
  match e with
  | Sets g => setter g
  | Drawing d => drawable d w
  | Clears _ _ _ slot => (slot < MAX_RENDER_TARGET)%nat /\ m_renderingActive (snd (object w)) = false
  | Copies _ _ _ _ _ => m_renderingActive (snd (object w)) = false
  | Transitions layout => m_renderingActive (snd (object w)) = false /\ layout <> VK_IMAGE_LAYOUT_UNDEFINED
  | Views _ | Marks _ | Unmarks | Ends => True
  end.

(** One step of a frame. *)
Inductive step (w : world (with_context t)) : world (with_context t) -> Prop :=
| step_perform e hr w' : permitted e w -> perform e w = (Next hr, w') -> step w w'.

(** ** Each keeps the rules *)

Lemma setter_steady g o : setter g -> steady_members (g o).2 = steady_members o.
Proof.
  intros [stream buffer offset stride| | | | | | |target slot slice|slot|slot| | |buffer type register|state value]; try done.
  - unfold SetStreamSource. case_match; [done|]. unfold steady_members. cbn. by rewrite !length_insert.
  - unfold SetRenderTarget. case_match; [done|]. unfold steady_members. cbn. by rewrite length_insert.
  - unfold PushRenderTarget. by case_match.
  - unfold PopRenderTarget. destruct (_ !! slot) as [[]|]; try done. unfold steady_members. cbn. by rewrite length_alter.
  - unfold PopDepthStencil. by case_match.
  - unfold SetConstants. by case_match.
  - unfold SetRenderState. cbn. by case_match.
Qed.

Lemma in_frame_steady f c o o' tr :
  in_frame_of f (mkWorld (c, o) tr) -> steady_members o' = steady_members o -> in_frame_of f (mkWorld (c, o') tr).
Proof.
  intros (s & k & Hs & Hd & Hin) Hst. exists s, k. split; [done|]. split; [by apply (drawing_members _ Hd)|].
  cbn in Hin. unfold in_step. injection Hst as _ E _ _ _ _. cbn. by rewrite E.
Qed.

Lemma runs_pure {f c o tr} g (Q : ALResult -> world (with_context t) -> Prop) R :
  in_frame_of f (mkWorld (c, o) tr) -> setter g -> (forall hr w, in_frame_of f w -> Q hr w) ->
  runs (pure g) Q R (mkWorld (c, o) tr).
Proof.
  intros Hin Hg HQ. unfold pure. apply runs_bind, runs_member, runs_bind, runs_assign, runs_ret. cbn [object trace fst snd].
  apply HQ. eapply in_frame_steady; [exact Hin|by apply setter_steady].
Qed.

(** The call that a draw ends with. *)
Definition draw_call (b : VkHandle) (o : t) (d : drawing_op) : vk unit :=
  match d with
  | Draw start count => vkCmdDraw b (vertex_count (m_topology o) count) 1 start 0
  | DrawInstances n m start start' => vkCmdDraw b n m start start'
  | DrawIndexed start count => vkCmdDrawIndexed b (vertex_count (m_topology o) count) 1 start 0 0
  | DrawIndexedInstances start count n =>
      vkCmdDrawIndexed b (match m_topology o with TOP_TRIANGLE_STRIP => u32 (count + 2) | _ => u32 (count * 3) end)
        n start 0 0
  | DrawIndices n m start base start' => vkCmdDrawIndexed b n m start base start'
  end.

(** The index buffer that is bound. *)
Definition index_binding (o : t) : VkHandle * VkIndexType :=
  (Tr2BufferAL.m_buffer (buffer_at (m_indexBuffer o) o),
   if m_indexBufferStride o =? 4 then VK_INDEX_TYPE_UINT32 else VK_INDEX_TYPE_UINT16).

Definition draw_command (d : drawing_op) (b : VkHandle) : Code (with_context t) unit :=
  o ← member id;
  (if indexed d then bind_index_buffer b else mret tt);;
  call (draw_call b o d).

Lemma runs_draw_command {d Q R w} :
  runs (with_rendering (draw_command d)) Q R w -> runs (draw d) Q R w.
Proof. destruct d; exact id. Qed.

(** What a draw leaves: the last call draws, with what is bound for [o]. *)
Record drawn (f : VulkanFrameContext) (o : t) (d : drawing_op) (h : VkHandle) (w : world (with_context t)) : Prop := mk_drawn
  { dn_frame : in_frame_of f w;
    dn_call : exists earlier s k, trace w = Event (draw_call (commandBuffer f) o d) tt :: earlier /\
      commands_after earlier = Some s /\ recorded s !! commandBuffer f = Some k /\ set_up k /\ bound_for o k h /\
      (indexed d = true -> bound_indices k = Some (index_binding o)) }.

Lemma index_binding_same o o' : but_active o = but_active o' -> index_binding o = index_binding o'.
Proof. intros E. change (index_binding (but_active o) = index_binding (but_active o')). by rewrite E. Qed.

Lemma draw_call_same b o o' d : but_active o = but_active o' -> draw_call b o d = draw_call b o' d.
Proof.
  intros E. assert (Ht : m_topology o = m_topology o') by exact (f_equal m_topology E).
  destruct d; cbn; by rewrite ?Ht.
Qed.

Lemma bound_can_draw {o k h} : set_up k -> bound_for o k h -> can_draw k = true.
Proof.
  intros (Hr & Hv & Hs) [Hp _ _]. unfold can_draw. rewrite Hr, Hp, !bool_decide_eq_true_2 by done. done.
Qed.

Lemma objects_skip {A} (e : vk A) a tr :
  (forall p, operate p (Event e a) = Some p) -> objects_after (Event e a :: tr) = objects_after tr.
Proof. intros Hp. cbn [objects_after]. destruct (objects_after tr); [|done]. apply Hp. Qed.

Lemma runs_a_draw {f c o s k tr} X Y d (Q : ALResult -> world (with_context t) -> Prop) R :
  drawing f c o s k -> in_step o k -> commands_after tr = Some s -> drawable d (mkWorld (c, o) tr) ->
  (forall c' tr' s', objects_after tr' = objects_after tr -> commands_after tr' = Some s' -> users s' = users s ->
     runs (ask_pipeline c o) (answers X Y c' s') (fun _ _ => False) (mkWorld (c', layout_at (m_vertexLayout o) o) tr')) ->
  (forall hr w, hr <> S_OK -> undrawable Y o -> in_frame_of f w -> Q hr w) ->
  (forall h w, drawn f o d h w -> X h (layout_at (m_vertexLayout o) (snd (object w))) (objects_after (trace w)) -> Q S_OK w) ->
  runs (draw d) Q R (mkWorld (c, o) tr).
Proof.
  intros Hd Hin Hs (Hv & Hfit & Hix & Hrep) HG Hno HQ. cbn [object fst snd] in Hix. apply runs_draw_command.
  eapply (runs_with_rendering X Y); [exact Hd|exact Hin|exact Hs|exact Hv|exact HG|exact Hno|].
  intros c1 o1 h tr1 [(s1 & k1 & Hs1 & Hd1 & Hset & Hb) Ha Hc Hm Hp HX].
  unfold draw_command. apply runs_bind, runs_member, runs_bind. cbn [object snd id].
  rewrite (draw_call_same _ _ _ d Hm). destruct (indexed d) eqn:Hi.
  - unfold bind_index_buffer. apply runs_bind, runs_member. cbn [object snd id].
    change (Tr2BufferAL.m_buffer (buffer_at (m_indexBuffer o1) o1)) with (index_binding o1).1.
    change (if m_indexBufferStride o1 =? 4 then VK_INDEX_TYPE_UINT32 else VK_INDEX_TYPE_UINT16) with (index_binding o1).2.
    rewrite (index_binding_same _ _ Hm).
    eapply (runs_recording _ always (fun k => k <| bound_indices := Some (index_binding o) |>)); [exact Hd1|exact Hs1| |done..|].
    { cbn -[command]. rewrite option_guard_True by by apply Hix. reflexivity. }
    intros s2 Hd2 Hp2 _ Hs2.
    eapply (runs_recording _ can_draw_indexed id); [exact Hd2|exact Hs2|by destruct d|by destruct d|..].
    { unfold can_draw_indexed. change (can_draw _) with (can_draw k1). rewrite (bound_can_draw Hset Hb). done. }
    intros s3 Hd3 Hp3 _ Hs3. apply (HQ h).
    + split; [exists s3, (k1 <| bound_indices := Some (index_binding o) |>); split; [exact Hs3|]; split; [exact Hd3|];
        split; cbn; [destruct Hset as [-> _]; by rewrite Ha|intros _; apply Hset]|].
      eexists _, s2, _. split; [done|]. split; [exact Hs2|]. split; [apply (dw_recorded _ _ _ _ _ Hd2)|].
      split; [exact Hset|]. split; [|done]. destruct Hb as [Hb1 Hb2 Hb3]. split; [exact Hb1|exact Hb2|exact Hb3].
    + cbn [object trace snd]. rewrite Hp3, Hp2. exact HX.
  - apply runs_ret. eapply (runs_recording _ can_draw id); [exact Hd1|exact Hs1|by destruct d|by destruct d|by eapply bound_can_draw|].
    intros s3 Hd3 Hp3 _ Hs3. apply (HQ h).
    + split; [exists s3, k1; split; [exact Hs3|]; split; [exact Hd3|];
        split; cbn; [destruct Hset as [-> _]; by rewrite Ha|intros _; apply Hset]|].
      eexists _, s1, k1. split; [done|]. split; [exact Hs1|]. split; [apply (dw_recorded _ _ _ _ _ Hd1)|].
      split; [exact Hset|]. split; [exact Hb|congruence].
    + cbn [object trace snd]. rewrite Hp3. exact HX.
Qed.

Lemma runs_perform {f w} e :
  in_frame_of f w -> permitted e w -> runs (perform e) (fun _ => in_frame_of f) (fun _ _ => False) w.
Proof.
  destruct w as [[c o] tr]. intros Hf Hp. pose proof Hf as (s & k & Hs & Hd & Hin).
  destruct e as [g|d|flags color depth slot|dest destOffset src offset length|v|marker| |layout|]; cbn [perform permitted] in *.
  - by eapply runs_pure.
  - eapply (runs_a_draw (fun _ _ _ => True) True); [exact Hd|exact Hin|exact Hs|exact Hp| |done|by intros h w []].
    destruct Hp as (Hv & Hfit & _ & Hrep). intros c' tr' s' _ Hs' Hu. eapply runs_ask_commands; [exact Hs'|exact Hfit| |exact Hv].
    destruct (Hrep s Hs) as [?|[?|Hun]]; [by left|by right; left|]. right; right. by eapply unused_users.
  - destruct Hp as [Hslot Ha]. eapply runs_Clear; [exact Hd|exact Hin|exact Hs|exact Ha|exact Hslot|done].
  - eapply runs_CopySubBuffer; [exact Hd|exact Hin|exact Hs|exact Hp|done].
  - eapply runs_SetViewport; [exact Hd|exact Hin|exact Hs|done].
  - apply runs_bind. eapply runs_marker with (name := "vkCmdBeginDebugUtilsLabelEXT"%string)
      (e := fun b => vkCmdBeginDebugUtilsLabelEXT b marker); [exact Hd|exact Hin|exact Hs|done|done|].
    intros w Hw. by apply runs_ret.
  - apply runs_bind. eapply runs_marker with (name := "vkCmdEndDebugUtilsLabelEXT"%string)
      (e := vkCmdEndDebugUtilsLabelEXT); [exact Hd|exact Hin|exact Hs|done|done|].
    intros w Hw. by apply runs_ret.
  - destruct Hp as [Ha Hne], Hin as [Hr Hk]. cbn in Ha, Hr, Hk. rewrite Ha in Hr.
    eapply runs_TransitionBackBuffer; [exact Hd|exact Hs|exact Hr|exact Hne|].
    intros o' s' tr' Hs' Hd' Hact _. eapply in_frame_now; [exact Hs'|exact Hd'|]. split; [congruence|done].
  - unfold EndScene. apply runs_function, runs_bind. eapply runs_end_rendering; [exact Hd|exact Hin|exact Hs|].
    intros s' k' tr' Hs' Hd' Hr'. apply runs_ret. eapply in_frame_now; [exact Hs'|exact Hd'|]. split; [by rewrite Hr'|congruence].
Qed.

Lemma steps_keep {f w w'} : rtc step w w' -> in_frame_of f w -> in_frame_of f w'.
Proof.
  induction 1 as [|w w1 w' [e hr w1' He Hw] _ IH]; [done|]. intros Hf. apply IH.
  pose proof (runs_perform e Hf He) as Hr. unfold runs in Hr. by rewrite Hw in Hr.
Qed.

(** ** What is not permitted

    Inside rendering, a copy, a clearing or a change of the target's layout. *)
Definition breaking (e : op) (o : t) : Prop :=
  match e with
  | Copies _ _ _ _ _ => True
  | Clears flags _ _ slot =>
      (exists h, target_of slot o = Some h /\ is_texture h o = true) /\
      has_flag flags CLEARFLAGS_TARGET || has_flag flags CLEARFLAGS_ZBUFFER = true
  | Transitions layout => Tr2TextureAL.m_layout (texture_at (m_defaultBackBuffer o) o) <> layout
  | _ => False
  end.

Definition broken (w : world (with_context t)) : Prop := commands_after (trace w) = None.

Lemma runs_broken_call {A w} (e : vk A) (Q : A -> world (with_context t) -> Prop) R :
  (forall s, commands_after (trace w) = Some s -> forall a, record s (Event e a) = None) ->
  (forall a w', object w' = object w -> broken w' -> Q a w') -> runs (call e) Q R w.
Proof.
  intros He HQ. apply runs_call. intros a _. apply HQ; [done|]. unfold broken. cbn [trace commands_after].
  destruct (commands_after (trace w)) as [s|] eqn:E; [by apply He|done].
Qed.

(** Only outside of rendering, or not at all any more. *)
Definition past (f : VulkanFrameContext) (w : world (with_context t)) : Prop :=
  forall s, commands_after (trace w) = Some s ->
    exists k, recorded s !! commandBuffer f = Some k /\ rendering k = true.

Lemma broken_past f w : broken w -> past f w.
Proof. unfold broken, past. intros -> s. done. Qed.

Lemma past_outside f w s :
  past f w -> commands_after (trace w) = Some s -> command (commandBuffer f) outside id s = None.
Proof. intros Hp Hs. destruct (Hp s Hs) as (k & Hk & Hr). unfold command, outside. rewrite Hk. cbn. by rewrite Hr. Qed.

Lemma runs_past_barrier {f w} images buffers (Q : unit -> world (with_context t) -> Prop) R :
  past f w -> (forall w', object w' = object w -> broken w' -> Q tt w') ->
  runs (call (vkCmdPipelineBarrier2 (commandBuffer f) images buffers)) Q R w.
Proof.
  intros Hp HQ. apply runs_broken_call; [|by intros []]. intros s Hs a. cbn.
  by rewrite (past_outside _ _ _ Hp Hs).
Qed.

Lemma runs_broken {A w} (e : vk A) (Q : A -> world (with_context t) -> Prop) R :
  broken w -> (forall a w', object w' = object w -> broken w' -> Q a w') -> runs (call e) Q R w.
Proof. intros Hw HQ. apply runs_broken_call; [|done]. unfold broken in Hw. rewrite Hw. done. Qed.

Lemma runs_past_clear_target {f w} h color (Q : unit -> world (with_context t) -> Prop) R :
  past f w -> (forall w', fst (object w') = fst (object w) -> broken w' -> Q tt w') ->
  runs (clear_target (commandBuffer f) h color) Q R w.
Proof.
  intros Hp HQ. unfold clear_target. apply runs_bind, runs_member, runs_bind.
  apply (runs_past_barrier _ _ _ _ Hp). intros w1 Ho1 Hb1. apply runs_bind, runs_broken; [exact Hb1|].
  intros _ w2 Ho2 Hb2. apply runs_in_member, runs_assign, HQ; [cbn; congruence|exact Hb2].
Qed.

Lemma runs_past_clear_depth {f w} depth (Q : unit -> world (with_context t) -> Prop) R :
  past f w -> (forall w', broken w' -> Q tt w') -> runs (clear_depth (commandBuffer f) depth) Q R w.
Proof.
  intros Hp HQ. unfold clear_depth. apply runs_bind, runs_member, runs_bind, runs_in_context, runs_this. cbv zeta.
  apply runs_bind, (runs_past_barrier (f := f)); [by destruct w as [[]]|]. intros w1 _ Hb1.
  apply runs_bind, runs_broken; [exact Hb1|]. intros _ w2 _ Hb2. destruct (is_texture _ _).
  - by apply runs_in_member, runs_assign, HQ.
  - by apply runs_in_context, runs_update, HQ.
Qed.

(** What is not permitted inside rendering breaks the rules. *)
Lemma runs_breaking {f w} e :
  in_frame_of f w -> m_renderingActive (snd (object w)) = true -> breaking e (snd (object w)) ->
  runs (perform e) (fun _ => broken) (fun _ _ => False) w.
Proof.
  destruct w as [[c o] tr]. intros (s & k & Hs & Hd & Hr & _) Ha He. cbn [object trace fst snd] in *.
  assert (Hp : forall o', past f (mkWorld (c, o') tr)).
  { intros o' s' Hs'. cbn in Hs'. rewrite Hs in Hs'. injection Hs' as <-. exists k.
    split; [apply (dw_recorded _ _ _ _ _ Hd)|congruence]. }
  destruct e as [| |flags color depth slot|dest destOffset src offset length| | | |layout|]; try done; cbn [perform breaking] in *.
  - destruct He as [(h & Hh & Ht) Hflags]. unfold Clear. apply runs_bind, runs_in_context, runs_this. cbn [object trace fst snd].
    rewrite (dw_provided _ _ _ _ _ Hd). apply runs_bind. eapply runs_frame_buffer; [exact Hd|].
    apply runs_bind, runs_member. cbn [object snd id]. rewrite Hh, Ht. cbn [negb].
    apply runs_bind. destruct (has_flag flags CLEARFLAGS_TARGET).
    + apply (runs_past_clear_target _ _ _ _ (Hp o)). intros w1 _ Hb1. apply runs_bind.
      destruct (has_flag flags CLEARFLAGS_ZBUFFER); [|by apply runs_ret, runs_ret].
      apply (runs_past_clear_depth (f := f)); [by apply broken_past|]. intros w2 Hb2. by apply runs_ret.
    + cbn in Hflags. rewrite Hflags. apply runs_ret, runs_bind, (runs_past_clear_depth _ _ _ (Hp o)).
      intros w2 Hb2. by apply runs_ret.
  - unfold CopySubBuffer. apply runs_bind. eapply runs_frame_buffer; [exact Hd|].
    apply runs_bind, runs_member, runs_bind. apply runs_broken_call.
    + intros s' Hs' a. cbn. by rewrite (past_outside _ _ _ (Hp o) Hs').
    + intros _ w' _ Hb. by apply runs_ret.
  - unfold TransitionBackBuffer. apply runs_bind, runs_in_context, runs_this. cbn [object trace fst snd].
    rewrite (dw_provided _ _ _ _ _ Hd). apply runs_bind, runs_member. cbn [object snd id]. cbv zeta.
    pose proof (tr_target _ _ _ (dw_tracks _ _ _ _ _ Hd)) as Hv.
    change (Tr2TextureAL.IsValid _) with (is_texture (m_defaultBackBuffer o) o). rewrite Hv. cbn [negb].
    rewrite bool_decide_eq_false_2 by done. apply runs_bind. eapply runs_frame_buffer; [exact Hd|].
    apply runs_bind, (runs_past_barrier _ _ _ _ (Hp o)). intros w1 _ Hb1.
    by apply runs_bind, runs_in_member, runs_assign, runs_ret.
Qed.

(** The frame has ended: its commands are complete, and its image can be presented. *)
Definition presentable (f : VulkanFrameContext) (image : VkHandle) (w : world (with_context t)) : Prop :=
  exists s k, commands_after (trace w) = Some s /\ recorded s !! commandBuffer f = Some k /\
    rendering k = false /\ layout_of s image = VK_IMAGE_LAYOUT_PRESENT_SRC_KHR.

(** What [Present] does before the frame is submitted. *)
Definition finish : Code (with_context t) ALResult :=
  end_rendering;; TransitionBackBuffer VK_IMAGE_LAYOUT_PRESENT_SRC_KHR.

Definition target_image (o : t) : VkHandle := Tr2TextureAL.m_image (texture_at (m_defaultBackBuffer o) o).

(** ** From the beginning to the end of a frame *)

(** The frame [f] is recorded, and the image it acquired and its view are there, which no
    other texture has. *)
Record begun (f : VulkanFrameContext) (c : VulkanContext) (o : t) (s : commands) (image view : VkHandle) : Prop := mk_begun
  { bg_frame : frame_of c = Some f;
    bg_provided : suspended (swapchain (state c)) = false;
    bg_graph : m_graphFrameActive o = false;
    bg_outside : m_renderingActive o = false;
    bg_targets : length (m_boundRenderTarget o) = MAX_RENDER_TARGET;
    bg_streams : length (m_vertexBuffers o) = 4%nat;
    bg_offsets : length (m_vertexBufferOffsets o) = 4%nat;
    bg_recorded : recorded s !! commandBuffer f = Some new_recording;
    bg_image : images (swapchain (state c)) !! Z.to_nat (currentImageIndex (swapchain (state c))) = Some image;
    bg_image_view : imageViews (swapchain (state c)) !! Z.to_nat (currentImageIndex (swapchain (state c))) = Some view;
    bg_given : image <> VK_NULL_HANDLE;
    bg_view : view_images s !! view = Some image;
    bg_depth_view : view_images s !! depthView (swapchain (state c)) = Some (depthImage (swapchain (state c)));
    bg_depth : follows s (depthLayout (swapchain (state c))) (depthImage (swapchain (state c)));
    bg_not_depth : image <> depthImage (swapchain (state c));
    bg_target : is_texture (m_defaultBackBuffer o) o = true ->
      Tr2TextureAL.m_ownsViews (texture_at (m_defaultBackBuffer o) o) = false;
    bg_others : forall h, is_texture h o = true -> h <> m_defaultBackBuffer o ->
      let x := texture_at h o in
      follows s (Tr2TextureAL.m_layout x) (Tr2TextureAL.m_image x) /\ Tr2TextureAL.m_image x <> image /\
      Tr2TextureAL.m_image x <> depthImage (swapchain (state c)) /\
      forall h', is_texture h' o = true -> h' <> m_defaultBackBuffer o ->
        Tr2TextureAL.m_image x = Tr2TextureAL.m_image (texture_at h' o) -> h = h' }.

Definition frame_begun (f : VulkanFrameContext) (w : world (with_context t)) : Prop :=
  exists s image view, commands_after (trace w) = Some s /\ begun f (fst (object w)) (snd (object w)) s image view.

(** A texture that owns nothing is given an image. *)
Lemma runs_AttachSwapchainImage {c x tr} image view format width height layout (Q : unit -> world (with_context Tr2TextureAL.t) -> Prop) R :
  Tr2TextureAL.m_ownsViews x = false \/ x = Tr2TextureAL.SetDevice (device (state c)) (allocator (state c)) Tr2TextureAL.new ->
  (forall x', Tr2TextureAL.m_image x' = image -> Tr2TextureAL.m_linearView x' = view -> Tr2TextureAL.m_layout x' = layout ->
     Q tt (mkWorld (c, x') tr)) ->
  runs (Tr2TextureAL.AttachSwapchainImage image view format width height layout) Q R (mkWorld (c, x) tr).
Proof.
  intros Hx HQ. unfold Tr2TextureAL.AttachSwapchainImage. apply runs_bind, runs_member, runs_bind. cbn [object snd id].
  destruct Hx as [Hx| ->].
  - rewrite Hx. apply runs_ret, runs_assign. by apply HQ.
  - repeat (apply runs_bind, runs_ret). apply runs_ret, runs_assign. by apply HQ.
Qed.
(** The wrapper of the target is [h] now, whose texture has the image. *)
Lemma attached_drawing {f c o s image view} o' h :
  begun f c o s image view ->
  (m_graphFrameActive o', m_boundRenderTarget o', m_vertexBuffers o', m_vertexBufferOffsets o') =
    (m_graphFrameActive o, m_boundRenderTarget o, m_vertexBuffers o, m_vertexBufferOffsets o) ->
  m_defaultBackBuffer o' = h ->
  Tr2TextureAL.m_image (texture_at h o') = image -> Tr2TextureAL.m_linearView (texture_at h o') = view ->
  Tr2TextureAL.m_layout (texture_at h o') = VK_IMAGE_LAYOUT_UNDEFINED ->
  (forall h', h' <> h -> texture_at h' o' = texture_at h' o /\ (is_texture h' o = true -> h' <> m_defaultBackBuffer o)) ->
  drawing f c o' s new_recording.
Proof.
  intros [Hf Hp Hg _ Ht Hs Ho Hr Hi Hiv Hn Hv Hdv Hd Hnd _ Hot] [= E1 E2 E3 E4] Hh Hxi Hxv Hxl Hsame.
  assert (Hother : forall h', is_texture h' o' = true -> h' <> h ->
    texture_at h' o' = texture_at h' o /\ is_texture h' o = true /\ h' <> m_defaultBackBuffer o).
  { intros h' Hh' Hne. destruct (Hsame h' Hne) as [Hx Hb]. unfold is_texture in *. rewrite Hx in Hh'. by auto. }
  split; try congruence. split.
  - rewrite Hh. unfold is_texture, Tr2TextureAL.IsValid. by rewrite Hxi, is_null_false.
  - cbv zeta. by rewrite Hh, Hxv, Hxi.
  - done.
  - done.
  - intros h' Hh'. destruct (decide (h' = h)) as [->|Hne]; [by left|].
    destruct (Hother h' Hh' Hne) as (-> & Hv' & Hb). by apply Hot.
  - intros h1 h2 Hh1 Hh2 E. destruct (decide (h1 = h)) as [->|Hn1], (decide (h2 = h)) as [->|Hn2]; [done|..].
    + destruct (Hother h2 Hh2 Hn2) as (Hx & Hv' & Hb). destruct (Hot h2 Hv' Hb) as (_ & Hni & _). congruence.
    + destruct (Hother h1 Hh1 Hn1) as (Hx & Hv' & Hb). destruct (Hot h1 Hv' Hb) as (_ & Hni & _). congruence.
    + destruct (Hother h1 Hh1 Hn1) as (Hx1 & Hv1 & Hb1), (Hother h2 Hh2 Hn2) as (Hx2 & Hv2 & Hb2).
      rewrite Hx1, Hx2 in E. by apply (Hot h1 Hv1 Hb1).
  - intros h' Hh'. destruct (decide (h' = h)) as [->|Hne]; [congruence|].
    destruct (Hother h' Hh' Hne) as (-> & Hv' & Hb). by apply Hot.
Qed.

Lemma runs_attach_image {f c o o1 s image view tr} h (Q : ALResult -> world (with_context t) -> Prop) R :
  begun f c o s image view ->
  (forall x', Tr2TextureAL.m_image x' = image -> Tr2TextureAL.m_linearView x' = view ->
     Tr2TextureAL.m_layout x' = VK_IMAGE_LAYOUT_UNDEFINED -> Q S_OK (mkWorld (c, store_texture h x' o1) tr)) ->
  Tr2TextureAL.m_ownsViews (texture_at h o1) = false \/ texture_at h o1 = Tr2TextureAL.new ->
  runs (set_texture_device h;; imageIndex ← in_context GetCurrentImageIndex;
        attach_image h imageIndex VK_IMAGE_LAYOUT_UNDEFINED) Q R (mkWorld (c, o1) tr).
Proof.
  intros Hb HQ Hx. unfold set_texture_device, attach_image.
  apply runs_bind, runs_bind, runs_in_context, runs_this, runs_in_member, runs_assign. cbn [object trace fst snd id].
  apply runs_bind, runs_in_context, runs_this, runs_bind, runs_in_context, runs_this. cbn [object trace fst snd id].
  rewrite (bg_image _ _ _ _ _ _ Hb), (bg_image_view _ _ _ _ _ _ Hb). apply runs_bind, runs_in_member. cbn [object trace fst snd].
  rewrite texture_at_store, decide_True by done. apply runs_AttachSwapchainImage.
  - destruct Hx as [Hx|Hx]; [by left|right; by rewrite Hx].
  - intros x' Hi Hv Hl. apply runs_ret. cbn [object trace fst snd].
    assert (E : forall y, store_texture h x' (store_texture h y o1) = store_texture h x' o1).
    { intros y. unfold store_texture. cbn. by rewrite insert_insert_eq. }
    rewrite E. by apply HQ.
Qed.

Lemma runs_CreateBackBufferTexture {f w} (Q : ALResult -> world (with_context t) -> Prop) R :
  frame_begun f w -> (forall w', in_frame_of f w' -> Q S_OK w') -> runs CreateBackBufferTexture Q R w.
Proof.
  destruct w as [[c o] tr]. intros (s & image & view & Hs & Hb) HQ. cbn [object trace fst snd] in *.
  unfold CreateBackBufferTexture. apply runs_bind, runs_in_context, runs_this. cbn [object trace fst snd].
  rewrite (bg_provided _ _ _ _ _ _ Hb). apply runs_bind, runs_member, runs_bind. cbn [object snd id].
  destruct (is_texture (m_defaultBackBuffer o) o) eqn:Hv.
  - apply runs_ret. eapply (runs_attach_image _ _ _ Hb); [|left; by apply (bg_target _ _ _ _ _ _ Hb)].
    intros x' Hi Hvw Hl. apply HQ. eapply (in_frame_now (k := new_recording)); [exact Hs| |split; [symmetry; exact (bg_outside _ _ _ _ _ _ Hb)|done]].
    eapply (attached_drawing _ (m_defaultBackBuffer o) Hb); [done|done|by rewrite texture_at_store, decide_True..|].
    intros h' Hne. rewrite texture_at_store, decide_False by congruence. done.
  - unfold new_texture. apply runs_bind, runs_member, runs_bind, runs_assign, runs_ret. cbn [object trace fst snd].
    set (h := next_object o). set (o1 := (store_texture h Tr2TextureAL.new o) <| m_defaultBackBuffer := h |> <| next_object := h + 1 |>).
    assert (Hx : forall h', texture_at h' o1 = if decide (h = h') then Tr2TextureAL.new else texture_at h' o).
    { intros h'. change (texture_at h' o1) with (texture_at h' (store_texture h Tr2TextureAL.new o)). apply texture_at_store. }
    eapply (runs_attach_image _ _ _ Hb); [|right; by rewrite Hx, decide_True].
    intros x' Hi Hvw Hl. apply HQ. eapply (in_frame_now (k := new_recording)); [exact Hs| |split; [symmetry; exact (bg_outside _ _ _ _ _ _ Hb)|done]].
    eapply (attached_drawing _ h Hb); [done|done|by rewrite texture_at_store, decide_True..|].
    intros h' Hne. assert (E : texture_at h' (store_texture h x' o1) = texture_at h' o).
    { by rewrite texture_at_store, Hx, !decide_False by congruence. }
    split; [exact E|]. intros Hh' ->. congruence.
Qed.
Lemma runs_finish {f w} :
  in_frame_of f w ->
  runs finish (fun hr v => hr = S_OK /\ presentable f (target_image (snd (object w))) v) (fun _ _ => False) w.
Proof.
  destruct w as [[c o] tr]. intros (s & k & Hs & Hd & Hin).
  apply runs_bind. eapply runs_end_rendering; [exact Hd|exact Hin|exact Hs|].
  intros s1 k1 tr1 Hs1 Hd1 Hr1. eapply runs_TransitionBackBuffer; [exact Hd1|exact Hs1|exact Hr1|done|].
  intros o2 s2 tr2 Hs2 Hd2 _ Hl. split; [done|]. exists s2, k1. split; [exact Hs2|].
  split; [apply (dw_recorded _ _ _ _ _ Hd2)|]. by split.
Qed.

End frame.

(** ** What is drawn *)

Section draws.
Context `{PipelineLaws} `{TextureTypes} `{ShaderTypes} `{!RegisterMaps} `{ContextTypes}.
Import Tr2RenderContextAL.

(** The layout keeps a pipeline of [program], or none, and new ones can be made. *)
Definition serves (o : t) (tr : list event) (p : pipeline_objects) (l : Tr2VertexLayoutAL.t) : Prop :=
  let program := program_at (m_shaderProgram o) o in
  (exists p', objects_after tr = Some p' /\ keeps (fun _ => program) p l (layout_at (m_vertexLayout o) o) p') /\
  program_sound p program /\
  vertex_input_sound (Tr2VertexLayoutAL.m_bindings l) (Tr2VertexLayoutAL.m_attributes l).

(** The pipeline that is to be drawn with. *)
Definition wanted_pipeline (c : VulkanContext) (o : t) (l : Tr2VertexLayoutAL.t) : VkGraphicsPipelineCreateInfo :=
  wanted (fun _ => program_at (m_shaderProgram o) o) (draw_request c o) l.

Lemma answers_wanted {c o p l tr} c' tr' s' :
  serves o tr p l -> Tr2VertexLayoutAL.m_isValid (layout_at (m_vertexLayout o) o) = true ->
  replaceable (draw_request c o) (layout_at (m_vertexLayout o) o) s' ->
  objects_after tr' = objects_after tr -> commands_after tr' = Some s' ->
  runs (ask_pipeline c o)
    (answers (fun h _ objects => objects = Some (p <| pipelines ::= insert h (wanted_pipeline c o l) |>))
       refuses_pipelines c' s')
    (fun _ _ => False) (mkWorld (c', layout_at (m_vertexLayout o) o) tr').
Proof.
  intros [(p' & Hp' & Hk) [Hs Hv]] Hl Hrep Ho Hs'.
  eapply runs_mono; [eapply runs_conj;
    [eapply (runs_ask (fun _ => program_at (m_shaderProgram o) o) (draw_request c o) (fun _ _ => False));
       [exact Hk|by rewrite Ho|exact Hs|exact Hv]
    |eapply (runs_ask_commands (program_at (m_shaderProgram o) o) (draw_request c o) _ _ _ _ (fun _ _ => False));
       [exact Hs'|split; apply Hs|exact Hrep|exact Hl]]|..].
  - intros h w [(l1 & p1 & tr1 & -> & Hk1 & Hp1 & Hh & Hno) (l2 & tr2 & [= <- <-] & Hs2 & Hl2 & Hc & _)].
    exists l1, tr1. split; [done|]. split; [done|]. split; [done|]. split; [|exact Hno]. intros Hn. split; [by apply Hc|].
    destruct (Hh Hn) as (-> & _ & _). exact Hp1.
  - by intros hr w [].
Qed.

End draws.

(** ** Instances

    A device under the driver of [VulkanDriver], with its first frame, a program of two
    shaders and a vertex layout. *)

#[local] Existing Instances plain_shaders plain_maps plain_vertices plain_sizes VulkanTextureSpec.plain.
#[local] Instance calm_driver : Driver := respond calm.
Definition plain_context : ContextTypes := {|
  new_Tr2Viewport w h := mkTr2Viewport (SpecFloat.S754_zero false) (SpecFloat.S754_zero false)
    (Tr2GpuTimerAL.float_of_Z w) (Tr2GpuTimerAL.float_of_Z h) (SpecFloat.S754_zero false) (Tr2GpuTimerAL.float_of_Z 1);
  CLEARFLAGS_TARGET := 1; CLEARFLAGS_ZBUFFER := 2; RS_MAX_STATE := 210 |}.
#[local] Existing Instance plain_context.
#[local] Existing Instance Tr2RenderContextAL.t_eta.

Abbreviation context := (with_context Tr2RenderContextAL.t).

(** A program and a vertex layout, as objects 2 and 3, set. *)
Definition make_program : Code context unit :=
  in_member (Tr2RenderContextAL.program_at 2) (fun x o => o <| Tr2RenderContextAL.program_objects ::= insert 2 x |>)
    (Tr2ShaderProgramAL.Create (Some two_shaders) 2);;
  in_member (Tr2RenderContextAL.layout_at 3) (Tr2RenderContextAL.store_layout 3) (Tr2VertexLayoutAL.Create three_items);;
  Tr2RenderContextAL.pure (Tr2RenderContextAL.SetShaderProgram 2);;
  Tr2RenderContextAL.pure (Tr2RenderContextAL.SetVertexLayout 3);;
  mret tt.

Definition open_frame : Code context ALResult :=
  hr ← Tr2RenderContextAL.CreateDevice 0 77 (mkTr2PresentParametersAL 800 600 PRESENT_INTERVAL_ONE) None;
  make_program;; mret hr.
Definition prepared_frame : world context :=
  (open_frame (mkWorld (new_VulkanContext, Tr2RenderContextAL.new false INVALID_PASS 5) two_shaders_made)).2.
Definition opened_frame : world context := (Tr2RenderContextAL.CreateBackBufferTexture prepared_frame).2.

Lemma runs_to {S A} {m : Code S A} {Q R w a w'} : runs m Q R w -> m w = (Next a, w') -> Q a w'.
Proof. unfold runs. intros HQ E. by rewrite E in HQ. Qed.

(** Nothing is a texture but the one there is. *)
Lemma only_texture {o h0 x} h :
  Tr2RenderContextAL.texture_objects o = {[h0 := x]} -> Tr2RenderContextAL.is_texture h o = true -> h = h0.
Proof.
  intros Ho. unfold Tr2RenderContextAL.is_texture, Tr2RenderContextAL.texture_at. rewrite Ho.
  destruct (decide (h0 = h)) as [->|Hne]; [done|]. by rewrite lookup_singleton_ne.
Qed.

Lemma prepared_begun : exists f, frame_begun f prepared_frame.
Proof.
  eexists (mkVulkanFrameContext _ _ _ _ _ _ _ _), _, 101, _. split; [vm_compute; reflexivity|].
  assert (Hone : forall h, Tr2RenderContextAL.is_texture h (snd (object prepared_frame)) = true -> h = 1).
  { intros h. eapply only_texture. vm_compute. reflexivity. }
  split; try (vm_compute; reflexivity).
  - intros E. discriminate E.
  - left. vm_compute; reflexivity.
  - intros E. vm_compute in E. discriminate E.
  - intros h Hh Hne. destruct Hne. rewrite (Hone h Hh). vm_compute. reflexivity.
Qed.

Lemma opened_outcome : Tr2RenderContextAL.CreateBackBufferTexture prepared_frame = (Next S_OK, opened_frame).
Proof.
  assert (Hok : (Tr2RenderContextAL.CreateBackBufferTexture prepared_frame).1 = Next S_OK) by (vm_compute; reflexivity).
  unfold opened_frame. by rewrite <- Hok, <- surjective_pairing.
Qed.

Lemma opened_in_frame : exists f, in_frame_of f opened_frame.
Proof.
  destruct prepared_begun as [f Hf]. exists f.
  pose proof (runs_CreateBackBufferTexture (fun _ w => in_frame_of f w) (fun _ _ => False) Hf (fun w Hw => Hw)) as Hr.
  exact (runs_to Hr opened_outcome).
Qed.

(** Operations that are permitted, one after the other. *)
Definition performed (e : op) (w : world context) : world context := (perform e w).2.

Lemma step_performed e hr w : permitted e w -> (perform e w).1 = Next hr -> step w (performed e w).
Proof. intros He Hr. apply (step_perform _ e hr); [done|]. unfold performed. by destruct (perform e w); cbn in *; subst. Qed.

(** A clearing of target and depth, and a draw of two triangles. *)
Definition cleared : world context := performed (Clears 3 0xff0000ff (SpecFloat.S754_zero false) 0) opened_frame.
Definition triangles_drawn : world context := performed (Drawing (Draw 0 2)) cleared.

Lemma cleared_drawable : drawable (Draw 0 2) cleared.
Proof.
  split; [vm_compute; reflexivity|]. split; [split; [vm_compute; reflexivity|vm_compute; lia]|].
  split; [intros E; discriminate E|]. intros s _. left. vm_compute. reflexivity.
Qed.

Lemma cleared_steps : rtc step opened_frame cleared.
Proof. eapply rtc_once, (step_performed _ S_OK); [split; [vm_compute; lia|vm_compute; reflexivity]|vm_compute; reflexivity]. Qed.

Lemma drawn_steps : rtc step opened_frame triangles_drawn.
Proof.
  eapply rtc_r; [exact cleared_steps|]. eapply (step_performed _ S_OK); [exact cleared_drawable|vm_compute; reflexivity].
Qed.


Lemma world_eta (w : world context) : mkWorld (fst (object w), snd (object w)) (trace w) = w.
Proof. by destruct w as [[]]. Qed.

(** The vertex layout that was made. *)
Definition made_layout : Tr2VertexLayoutAL.t := Tr2RenderContextAL.layout_at 3 (snd (object cleared)).

Lemma cleared_serves : exists p, serves (snd (object cleared)) (trace cleared) p made_layout.
Proof.
  assert (Hp : Tr2RenderContextAL.program_at (Tr2RenderContextAL.m_shaderProgram (snd (object cleared))) (snd (object cleared)) =
    two_stages) by (vm_compute; reflexivity).
  eexists. split; [|rewrite Hp; split].
  - eexists. split; [vm_compute; reflexivity|]. apply keeps_none; vm_compute; reflexivity.
  - constructor; [|reflexivity|cbn; lia|by apply (bool_decide_unpack _)].
    split; [by apply (bool_decide_unpack _)|]. split; [by apply (bool_decide_unpack _)|].
    repeat (constructor; [split; [done|by apply (bool_decide_unpack _)]|]). constructor.
  - split; [apply (bool_decide_unpack _); vm_compute; reflexivity|].
    split; apply (bool_decide_unpack _); vm_compute; exact I.
Qed.

