(* ===== verification/VulkanRenderScenarios.v ===== *)
(** * Frames that break the rules

    Runs of the render context in which what the hypotheses of [VulkanRenderContextSpec]
    exclude happens, or in which what is set has no effect; and one of two frames that
    are drawn and presented. *)

From stdpp Require Import base numbers list option strings gmap fin_maps sets relations.
From S2P Require Import Prelude RenderGraph VulkanFormats Vulkan VulkanContext VulkanUsage VulkanDriver VulkanMemory VulkanRenderRules VulkanObject VulkanBuffer VulkanQueries VulkanPipelines VulkanVertexLayout VulkanTexture VulkanTextureSpec VulkanResourceSet VulkanPipelineRules VulkanPipelinesSpec VulkanVertexLayoutSpec VulkanRenderContext VulkanDrawing VulkanRenderContextSpec.
Import VkFormat Tr2RenderContextAL.

#[local] Open Scope Z_scope.
#[local] Existing Instances plain_shaders plain_maps plain_vertices plain_sizes VulkanTextureSpec.plain plain_context.
#[local] Existing Instances Tr2RenderContextAL.t_eta Tr2TextureAL.t_eta Tr2ShaderProgramAL.t_eta.
#[local] Instance calm_driver : Driver := respond calm.

(** Operations from the first frame on, all of which succeed, and what they leave. *)
Fixpoint all_succeed (ops : list (Code context ALResult)) : Code context ALResult :=
  match ops with
  | [] => mret S_OK
  | m :: ops => hr ← m; if bool_decide (hr = S_OK) then all_succeed ops else mret hr
  end.
Definition run_frame (ops : list (Code context ALResult)) : flow ALResult * world context :=
  all_succeed ops opened_frame.

(** Whether what is recorded keeps the rules. *)
Definition keeps_rules {A} (r : flow A * world context) : bool :=
  bool_decide (is_Some (commands_after (trace r.2))) && bool_decide (is_Some (usage (trace r.2))).

Definition triangle : Code context ALResult := DrawPrimitive 0 1.
Definition black : SpecFloat.spec_float := SpecFloat.S754_zero false.

(** Two frames are drawn and presented, and a third has begun. *)
Lemma two_frames (run := run_frame [Clear 3 0 black 0; triangle; triangle; Present; triangle; EndScene; Present]) :
  run.1 = Next S_OK /\ keeps_rules run = true /\
  Tr2TextureAL.m_image (texture_at (m_defaultBackBuffer (snd (object run.2))) (snd (object run.2))) = 101.
Proof. by vm_compute. Qed.

(** A target is cleared, or a buffer copied, while rendering. *)
Lemma cleared_while_rendering (run := run_frame [triangle; Clear 1 0 black 0]) :
  run.1 = Next S_OK /\ keeps_rules run = false.
Proof. by vm_compute. Qed.

Lemma copied_while_rendering (run := run_frame [triangle; CopySubBuffer 6 0 5 0 16]) :
  run.1 = Next S_OK /\ keeps_rules run = false.
Proof. by vm_compute. Qed.

(** Without a vertex layout there is a draw without a pipeline. *)
Lemma drawn_without_layout (run := run_frame [pure (SetVertexLayout 9); triangle]) :
  run.1 = Next S_OK /\ keeps_rules run = false.
Proof. by vm_compute. Qed.

(** With another topology the layout destroys the pipeline that the frame draws with. *)
Lemma pipeline_destroyed_in_use (run := run_frame [triangle; pure (SetTopology TOP_LINES); triangle]) :
  run.1 = Next S_OK /\ keeps_rules run = false.
Proof. by vm_compute. Qed.

(** A render target that is set is not rendered to. *)
Definition rendered_to (e : event) : option VkHandle :=
  match ev_call e with
  | vkCmdBeginRendering _ info => Some (rai_imageView (ri_color info))
  | _ => None
  end.
Definition other_target : Code context ALResult :=
  assign (store_texture 7 (Tr2TextureAL.new <| Tr2TextureAL.m_image := 55 |> <| Tr2TextureAL.m_linearView := 66 |>));;
  pure (SetRenderTarget 7 0 0).
Lemma target_ignored (run := run_frame [other_target; triangle]) :
  run.1 = Next S_OK /\ omap rendered_to (trace run.2) =
    [Tr2TextureAL.m_linearView (texture_at (m_defaultBackBuffer (snd (object run.2))) (snd (object run.2)))] /\
  target_of 0 (snd (object run.2)) = Some 7.
Proof. by vm_compute. Qed.

(** The pipeline of the program before is drawn with. *)
Definition bound_stages (w : world context) : option (list (VkShaderStageFlagBits * VkHandle)) :=
  s ← commands_after (trace w);
  f ← frame_of (fst (object w));
  k ← recorded s !! commandBuffer f;
  h ← bound_pipeline k;
  p ← objects_after (trace w);
  gpi_stages <$> pipelines p !! h.
Definition other_program : Code context ALResult :=
  assign (fun o => o <| program_objects ::= insert 8 ((program_at 2 o) <| Tr2ShaderProgramAL.m_modules := [2; 1] |>) |>);;
  pure (SetShaderProgram 8).
Lemma program_ignored (run := run_frame [triangle; other_program; triangle]) :
  run.1 = Next S_OK /\ bound_stages run.2 = Some [(VK_SHADER_STAGE_VERTEX_BIT, 1); (VK_SHADER_STAGE_FRAGMENT_BIT, 2)] /\
  Tr2ShaderProgramAL.m_modules (program_at (m_shaderProgram (snd (object run.2))) (snd (object run.2))) = [2; 1].
Proof. by vm_compute. Qed.

(** After the parameters of presentation were set there is no image to draw to and
    nothing is presented. *)
Lemma detached_until_attached
    (run := run_frame [SetPresentParameters (mkTr2PresentParametersAL 800 600 PRESENT_INTERVAL_ONE)]) :
  run.1 = Next S_OK /\ (Present run.2).1 = Next E_INVALIDCALL /\
  length (trace (Present run.2).2) = length (trace run.2) /\ (triangle run.2).1 = Next E_INVALIDCALL.
Proof. by vm_compute. Qed.
