(* ===== verification/VulkanPipelineScenarios.v ===== *)
(** * Uses of samplers, pipelines and resource sets that break the rules

    Runs in which what the hypotheses of [VulkanPipelinesSpec], [VulkanVertexLayoutSpec]
    and [VulkanResourceSetSpec] exclude happens: why those theorems need them. *)

From stdpp Require Import base numbers list option strings gmap fin_maps sets.
From S2P Require Import Prelude RenderGraph VulkanFormats Vulkan VulkanContext VulkanUsage VulkanMemory VulkanPipelineRules VulkanDriver VulkanObject VulkanBuffer VulkanTexture VulkanTextureSpec VulkanPipelines VulkanVertexLayout VulkanResourceSet VulkanPipelinesSpec VulkanVertexLayoutSpec VulkanResourceSetSpec.
Import VkFormat.

#[local] Open Scope Z_scope.

#[local] Existing Instances plain_shaders plain_maps exact_growth VulkanTextureSpec.plain.

(** What some code leaves. *)
Definition objects_left {S A} (r : flow A * world S) : option pipeline_objects := objects_after (trace r.2).

(** ** Pipelines *)

(** Another program at the same address, of two modules that are copies. *)
Definition other_stages : Tr2ShaderProgramAL.t :=
  Tr2ShaderProgramAL.mk no_registers true 4 3 1 [2; 1] [VK_SHADER_STAGE_VERTEX_BIT; VK_SHADER_STAGE_FRAGMENT_BIT]
    [VK_SHADER_STAGE_VERTEX_BIT; VK_SHADER_STAGE_FRAGMENT_BIT].

Definition get (program : Tr2ShaderProgramAL.t) : Code (with_context Tr2VertexLayoutAL.t) VkHandle :=
  @Tr2VertexLayoutAL.GetPipeline (respond calm) 5 program TOP_TRIANGLES VK_FORMAT_B8G8R8A8_UNORM VK_FORMAT_D32_SFLOAT 0.

(** The pipeline of the first program is answered for the second. *)
Lemma stale_pipeline
    (run := (first ← get two_stages; second ← get other_stages; mret (first, second))
       (at_ new_VulkanContext one_stream two_stages_made)) :
  exists h p info, run.1 = Next (h, h) /\ objects_left run = Some p /\ pipelines p !! h = Some info /\
    gpi_stages info = [(VK_SHADER_STAGE_VERTEX_BIT, 1); (VK_SHADER_STAGE_FRAGMENT_BIT, 2)].
Proof. eexists 5, _, _. repeat (split; [vm_compute; reflexivity|]). done. Qed.

(** A vertex layout that is created again keeps the bindings it had: their numbers are
    no longer different. *)
Lemma layout_created_twice
    (run := (@Tr2VertexLayoutAL.Create plain_vertices plain_sizes three_items;;
             @Tr2VertexLayoutAL.Create plain_vertices plain_sizes three_items)
       (at_ new_VulkanContext Tr2VertexLayoutAL.new [])) :
  run.1 = Next S_OK /\
  ~ vertex_input_sound (Tr2VertexLayoutAL.m_bindings (snd (object run.2))) (Tr2VertexLayoutAL.m_attributes (snd (object run.2))).
Proof. split; [by vm_compute|]. intros [Hnd _]. revert Hnd. by apply (bool_decide_unpack _). Qed.

(** ** Samplers *)

Definition plain_filters : Tr2TextureFilters :=
  {| TF_COMPARISON := 128; TF_POINT := 1; TF_LINEAR := 2; TF_ANISOTROPIC := 3 |}.

(** The device has no anisotropy, yet a sampler asks for it. *)
Lemma anisotropic_sampler
    (run := @Tr2SamplerStateAL.Create (respond calm) plain_filters
       (mkTr2SamplerDescription 3 3 2 TA_WRAP TA_WRAP TA_WRAP (SpecFloat.S754_zero false) 4 false CMP_ALWAYS
          (SpecFloat.S754_zero false) (SpecFloat.S754_zero false))
       (at_ new_VulkanContext Tr2SamplerStateAL.new [])) :
  run.1 = Next S_OK /\ objects_left run = None.
Proof. by vm_compute. Qed.

(** ** Resource sets *)

Definition create_set (d : Tr2ResourceSetDescriptionAL) : Code (with_context Tr2ResourceSetAL.t) ALResult :=
  @Tr2ResourceSetAL.Create (respond calm) _ _ _ d two_stages.

(** Indices 0 and 1 at the first two registers of the pixel shader, or index 0 at the
    first, and no others. *)
Definition two_registers (stage reg : nat) : Z := if (stage =? 1)%nat && (reg <? 2)%nat then Z.of_nat reg else 255.
Definition no_register (stage reg : nat) : Z := 255.

Definition two_textures : Tr2ResourceSetDescriptionAL :=
  mkTr2ResourceSetDescriptionAL (mkTr2RegisterMapAL two_registers no_register first_register 2 0 1)
    [TEXTURE seen_texture COLOR_SPACE_LINEAR 0; TEXTURE seen_texture COLOR_SPACE_LINEAR 0] [] [SAMPLER used_sampler].
Definition two_samplers : Tr2ResourceSetDescriptionAL :=
  mkTr2ResourceSetDescriptionAL (mkTr2RegisterMapAL no_register no_register two_registers 0 0 2)
    [] [] [SAMPLER used_sampler; SAMPLER used_sampler].

(** Each texture takes as many elements as there are registers: with a second one the
    array has moved, and the pointer of the first write is to where it was. *)
Lemma two_textures_dangle :
  (create_set two_textures (at_ pool_context Tr2ResourceSetAL.new set_objects_made)).1 = Wrong.
Proof. by vm_compute. Qed.

Lemma two_samplers_dangle :
  (create_set two_samplers (at_ pool_context Tr2ResourceSetAL.new set_objects_made)).1 = Wrong.
Proof. by vm_compute. Qed.

Definition read_buffer : Tr2ResourceSetDescriptionAL :=
  mkTr2ResourceSetDescriptionAL (mkTr2RegisterMapAL first_register no_register no_register 1 0 0)
    [BUFFER written_buffer] [] [].
Definition written_texture : Tr2ResourceSetDescriptionAL :=
  mkTr2ResourceSetDescriptionAL (mkTr2RegisterMapAL no_register first_register no_register 0 1 0)
    [] [TEXTURE seen_texture COLOR_SPACE_LINEAR 0] [].

(** A buffer to read and a texture to write are described with other types than the
    layout of every program has there. *)
Lemma buffer_read_as_image (run := create_set read_buffer (at_ pool_context Tr2ResourceSetAL.new set_objects_made)) :
  run.1 = Next S_OK /\ objects_left run = None.
Proof. by vm_compute. Qed.

Lemma texture_written_as_buffer (run := create_set written_texture (at_ pool_context Tr2ResourceSetAL.new set_objects_made)) :
  run.1 = Next S_OK /\ objects_left run = None.
Proof. by vm_compute. Qed.

(** A pool is made for 64 sets, and after two it has no room for a third: each has as
    many samplers as there are registers. *)
Lemma pool_full_after_two
    (run := (create_set one_of_each;; create_set one_of_each) (at_ pool_context Tr2ResourceSetAL.new set_objects_made))
    (bindings := Tr2ShaderProgramAL.set_bindings [VK_SHADER_STAGE_VERTEX_BIT; VK_SHADER_STAGE_FRAGMENT_BIT]) :
  exists p, objects_left run = Some p /\ length (sets_of p 9) = 2%nat /\ has_room p 9 bindings = false.
Proof. eexists. repeat (split; [vm_compute; reflexivity|]). by vm_compute. Qed.
