(* ===== verification/VulkanQuiet.v ===== *)
(** * What leaves the frames alone

    Most of [VulkanContext] has no part in the synchronization of frames. [quiet]
    code makes calls that the rules of [VulkanUsage] do not mention, leaves the
    members of the context that take part as they are, and does nothing
    undefined. *)

From stdpp Require Import base numbers list option strings gmap fin_maps sets.
From S2P Require Import Prelude RenderGraph VulkanFormats Vulkan VulkanContext VulkanUsage.

#[local] Open Scope Z_scope.

(** The family that draws is the one that presents. *)
Definition one_family (c : VulkanContext) : bool :=
  graphicsFamily (state c) =? presentFamily (state c).

(** The members of the context that frames synchronize by. *)
Definition sync_of (c : VulkanContext)
    : list VulkanFrameContext * Z * VkHandle * bool * Z * VkHandle * list VulkanDeferredDestroy * bool :=
  let s := state c in
  (frames s, frameIndex s, swapchain_ (swapchain s), suspended (swapchain s),
   currentImageIndex (swapchain s), device s, m_deferred c, one_family c).

(** The calls that [check] lets through unchanged. *)
Definition neutral {A} (c : vk A) : bool :=
  match c with
  | vkCreateFence _ _ | vkCreateSemaphore _ _ | vkCreateCommandPool _ _
  | vkAllocateCommandBuffers _ _ | vkCreateSwapchainKHR _ _ | vkDeviceWaitIdle _
  | vkWaitForFences _ _ | vkResetFences _ _ | vkGetSemaphoreCounterValue _ _
  | vkQueueSubmitSignal _ _ _ | vkWaitSemaphores _ _ _
  | vkResetCommandPool _ _ | vkBeginCommandBuffer _ | vkEndCommandBuffer _
  | vkAcquireNextImageKHR _ _ _ | vkQueueSubmit2 _ _ _ | vkQueuePresentKHR _ _ _ _
  | vkGetSwapchainImagesKHR _ _ _ => false
  | vkDestroy kind _ _ =>
      match kind with Fence | Semaphore | CommandPool | SwapchainKHR | SurfaceKHR => false | _ => true end
  | _ => true
  end.

Lemma neutral_usage {A} (c : vk A) a tr : neutral c = true -> usage (Event c a :: tr) = usage tr.
Proof.
  intros Hc. cbn [usage]. destruct (usage tr) as [g|]; [|done].
  cbn. destruct c; try done. cbn. unfold check_destroy.
  by destruct (is_null _), kind.
Qed.

(** [w'] differs from [w] in nothing that concerns the frames. *)
Definition leaves (w w' : world VulkanContext) : Prop :=
  sync_of (object w') = sync_of (object w) /\ usage (trace w') = usage (trace w).

#[export] Instance leaves_preorder : PreOrder leaves.
Proof.
  split; [by split|]. intros w1 w2 w3 [H1 H2] [H3 H4]. split; congruence.
Qed.

Section quiet.
Context `{Driver}.

Definition quiet {A} (m : Code VulkanContext A) : Prop :=
  forall w, runs m (fun _ => leaves w) (fun _ => leaves w) w.

(** Quiet code, run from what only differs from [w] as [leaves] allows. *)
Lemma quiet_from {A} (m : Code VulkanContext A) w w' :
  quiet m -> leaves w w' -> runs m (fun _ => leaves w) (fun _ => leaves w) w'.
Proof.
  intros Hm Hw. eapply runs_mono; [apply Hm|..]; cbn; intros ? w'' Hw'; by transitivity w'.
Qed.

Lemma leaves_call {A} (c : vk A) a (w : world VulkanContext) :
  neutral c = true -> leaves w (mkWorld (object w) (Event c a :: trace w)).
Proof. split; [done|by apply neutral_usage]. Qed.

Lemma quiet_ret {A} (a : A) : quiet (mret a).
Proof. intros w. by apply runs_ret. Qed.

Lemma quiet_early {A} hr : quiet (early (A:=A) hr).
Proof. intros w. by apply runs_early. Qed.

Lemma quiet_bind {A B} (m : Code VulkanContext A) (k : A -> Code VulkanContext B) :
  quiet m -> (forall a, quiet (k a)) -> quiet (m ≫= k).
Proof.
  intros Hm Hk w. apply runs_bind. eapply runs_mono; [apply Hm|..|done].
  cbn. intros a w' Hw. by apply quiet_from.
Qed.

(** A call whose answer is known to obey a law. *)
Lemma quiet_bind_call {A B} (c : vk A) (k : A -> Code VulkanContext B) :
  neutral c = true -> (forall tr, quiet (k (answer tr c))) -> quiet (call c ≫= k).
Proof.
  intros Hc Hk w. apply runs_bind, runs_call. intros a ->.
  apply quiet_from; [apply Hk|by apply leaves_call].
Qed.

Lemma quiet_call {A} (c : vk A) : neutral c = true -> quiet (call c).
Proof. intros Hc w. apply runs_call. intros a _. by apply leaves_call. Qed.

Lemma quiet_this {A} (f : VulkanContext -> A) : quiet (this f).
Proof. intros w. by apply runs_this. Qed.

Lemma quiet_get {A} (f : VulkanDeviceState -> A) : quiet (get f).
Proof. apply quiet_this. Qed.

Lemma quiet_update f : (forall c, sync_of (f c) = sync_of c) -> quiet (update f).
Proof. intros Hf w. apply runs_update. split; [apply Hf|done]. Qed.

Lemma quiet_put f :
  (forall c, sync_of (c <| state ::= f |>) = sync_of c) -> quiet (put f).
Proof. apply quiet_update. Qed.

Lemma quiet_put_swapchain f :
  (forall c, sync_of (c <| state ::= fun s => s <| swapchain ::= f |> |>) = sync_of c) ->
  quiet (put_swapchain f).
Proof. apply quiet_update. Qed.

Lemma quiet_out {A} (set : A -> VulkanDeviceState -> VulkanDeviceState) c :
  neutral c = true -> (forall a d, sync_of (d <| state ::= set a |>) = sync_of d) ->
  quiet (out set c).
Proof.
  intros Hc Hs w. apply runs_call_out. intros r o _. split; [|by apply neutral_usage].
  cbn. destruct o; [apply Hs|done].
Qed.

Lemma quiet_function (m : Code VulkanContext ALResult) : quiet m -> quiet (function m).
Proof. intros Hm w. apply runs_function, Hm. Qed.

Lemma quiet_CR_RETURN_HR (m : Code VulkanContext ALResult) : quiet m -> quiet (CR_RETURN_HR m).
Proof. intros Hm. apply quiet_bind; [done|]. intros hr. destruct (FAILED hr); [apply quiet_early|apply quiet_ret]. Qed.

Lemma quiet_VK_CHECK (m : Code VulkanContext VkResult) : quiet m -> quiet (VK_CHECK m).
Proof. intros Hm. apply quiet_bind; [done|]. intros r. case_bool_decide; [apply quiet_ret|apply quiet_early]. Qed.

Lemma quiet_VK_CHECK_value {A} (c : vk (VkResult * A)) : neutral c = true -> quiet (VK_CHECK_value c).
Proof.
  intros Hc. apply quiet_bind; [by apply quiet_call|]. intros r.
  apply quiet_bind; [apply quiet_VK_CHECK, quiet_ret|]. intros _. apply quiet_ret.
Qed.

Lemma quiet_enumerate {A} (f : capacity -> vk (enumerated A)) unset :
  (forall room, neutral (f room) = true) -> quiet (enumerate f unset).
Proof.
  intros Hf. apply quiet_bind; [by apply quiet_VK_CHECK_value|]. intros first. cbv zeta.
  apply quiet_bind; [by apply quiet_VK_CHECK_value|]. intros second. apply quiet_ret.
Qed.

Lemma quiet_for_each {A} (f : A -> Code VulkanContext unit) xs :
  (forall x, quiet (f x)) -> quiet (for_each f xs).
Proof.
  intros Hf. induction xs as [|x xs IH]; [apply quiet_ret|].
  apply quiet_bind; [apply Hf|done].
Qed.

Lemma quiet_unless_null h m : quiet m -> quiet (unless_null h m).
Proof. intros Hm. unfold unless_null. destruct (is_null h); [apply quiet_ret|done]. Qed.

(** [VK_CHECK_value] of a call whose answer obeys a law. *)
Lemma quiet_bind_VK_CHECK_value {A B} (c : vk (VkResult * A)) (k : A -> Code VulkanContext B) :
  neutral c = true -> (forall tr, quiet (k (answer tr c).2)) -> quiet (VK_CHECK_value c ≫= k).
Proof.
  intros Hc Hk w. apply runs_bind, runs_bind, runs_call. intros r ->.
  pose proof (leaves_call c (answer (trace w) c) w Hc) as Hl.
  apply runs_bind, runs_VK_CHECK, runs_ret. case_bool_decide; [|done].
  apply runs_ret, quiet_from; [apply Hk|done].
Qed.

End quiet.

Create HintDb quiet discriminated.

(** One step towards a goal [quiet m]. *)
Ltac quiet_step :=
  match goal with
  | |- forall _, _ => intro
  | |- quiet (mret _) => apply quiet_ret
  | |- quiet (early _) => apply quiet_early
  | |- quiet (function _) => apply quiet_function
  | |- quiet (CR_RETURN_HR _) => apply quiet_CR_RETURN_HR
  | |- quiet (VK_CHECK _) => apply quiet_VK_CHECK
  | |- quiet (VK_CHECK_value _) => apply quiet_VK_CHECK_value; reflexivity
  | |- quiet (enumerate _ _) => apply quiet_enumerate; reflexivity
  | |- quiet (unless_null _ _) => apply quiet_unless_null
  | |- quiet (for_each _ _) => apply quiet_for_each
  | |- quiet (call _) => apply quiet_call; reflexivity
  | |- quiet (this _) => apply quiet_this
  | |- quiet (get _) => apply quiet_get
  | |- quiet (out _ _) => apply quiet_out; [reflexivity|by intros [??] ?|]
  | |- quiet (out _ _) => apply quiet_out; [reflexivity|reflexivity]
  | |- quiet (put_swapchain _) => apply quiet_put_swapchain; reflexivity
  | |- quiet (put _) => apply quiet_put; reflexivity
  | |- quiet (update _) => apply quiet_update; reflexivity
  | |- quiet _ => solve [eauto with quiet nocore]
  | |- quiet (mbind _ _) => apply quiet_bind
  | |- quiet (match ?x with _ => _ end) => destruct x eqn:?
  | |- quiet (let _ := _ in _) => cbv zeta
  end.
Ltac quiet_code := repeat quiet_step.

(** ** Code that does not leave its function early *)

Section steady.
Context `{Driver} {S : Type}.

Definition steady {A} (m : Code S A) : Prop :=
  forall w, match (m w).1 with Return _ => False | _ => True end.

Lemma steady_ret {A} (a : A) : steady (mret a).
Proof. done. Qed.

Lemma steady_bind {A B} (m : Code S A) (k : A -> Code S B) :
  steady m -> (forall a, steady (k a)) -> steady (m ≫= k).
Proof.
  intros Hm Hk w. unfold mbind, Code_bind. specialize (Hm w). destruct (m w) as [[a|hr|] w']; [|done..].
  apply Hk.
Qed.

Lemma steady_call {A} (c : vk A) : steady (call c).
Proof. done. Qed.

Lemma steady_this {A} (f : S -> A) : steady (this f).
Proof. done. Qed.

Lemma steady_update f : steady (update f).
Proof. done. Qed.

Lemma steady_function (m : Code S ALResult) : steady (function m).
Proof. intros w. unfold function. by destruct (m w) as [[a|hr|] w']. Qed.

Lemma steady_for_each {A} (f : A -> Code S unit) xs : (forall x, steady (f x)) -> steady (for_each f xs).
Proof.
  intros Hf. induction xs as [|x xs IH]; [done|]. apply steady_bind; [apply Hf|done].
Qed.

Lemma runs_steady {A} (m : Code S A) Q R R' w : steady m -> runs m Q R w -> runs m Q R' w.
Proof. intros Hm. specialize (Hm w). unfold runs. by destruct (m w) as [[a|hr|] w']. Qed.
End steady.

(** One step towards a goal [steady m]. *)
Ltac steady_step :=
  match goal with
  | |- forall _, _ => intro
  | |- steady (mbind _ _) => apply steady_bind
  | |- steady (for_each _ _) => apply steady_for_each
  | |- steady (function _) => apply steady_function
  | |- steady (call _) => done
  | |- steady (this _) => done
  | |- steady (update _) => done
  | |- steady (get _) => done
  | |- steady (put _) => done
  | |- steady (put_swapchain _) => done
  | |- steady (mret _) => done
  | |- steady wrong => done
  | |- steady (unless_null ?h _) => unfold unless_null; destruct (is_null h)
  | |- steady (match ?x with _ => _ end) => destruct x
  | |- steady (let _ := _ in _) => cbv zeta
  end.
Ltac steady_code := repeat steady_step.

(** ** The quiet operations *)

Section operations.
Context `{DriverLaws}.

Lemma quiet_destroy kind h :
  (forall d, neutral (vkDestroy kind d h) = true) -> quiet (destroy kind h).
Proof. intros Hk. unfold destroy. apply quiet_bind; [apply quiet_get|]. intros d. by apply quiet_call. Qed.

Lemma quiet_CreateDebugMessenger : quiet CreateDebugMessenger.
Proof. unfold CreateDebugMessenger. quiet_code. Qed.
#[local] Hint Resolve quiet_CreateDebugMessenger : quiet.

Lemma quiet_DestroyDebugMessenger : quiet DestroyDebugMessenger.
Proof. unfold DestroyDebugMessenger. quiet_code. Qed.

Lemma quiet_CreateInstance enableValidation : quiet (CreateInstance enableValidation).
Proof. unfold CreateInstance. quiet_code. Qed.

Lemma quiet_CreateSurface w : quiet (CreateSurface w).
Proof. unfold CreateSurface. quiet_code. Qed.

Lemma quiet_queue_families candidate : quiet (queue_families candidate).
Proof.
  unfold queue_families. apply quiet_bind; [quiet_code|]. intros first.
  apply quiet_bind_call; [done|]. intros tr. pose proof (families_room tr candidate first.1).
  destruct (_ <? _)%nat eqn:E; [apply Nat.ltb_lt in E; lia|quiet_code].
Qed.

Lemma quiet_present_family candidate s families : quiet (present_family candidate s families).
Proof. induction families as [|i families IH]; cbn; quiet_code; done. Qed.
#[local] Hint Resolve quiet_queue_families quiet_present_family : quiet.

Lemma length_fill {A} (array written : list A) : length (fill array written) = length array.
Proof. unfold fill. rewrite length_app, length_take, length_drop. lia. Qed.

(** Quiet code, and what follows it. *)
Lemma runs_bind_quiet {A B} (m : Code VulkanContext A) (k : A -> Code VulkanContext B)
    (Q : B -> world VulkanContext -> Prop) (R : ALResult -> world VulkanContext -> Prop) w0 w :
  quiet m -> leaves w0 w -> (forall hr w', leaves w0 w' -> R hr w') ->
  (forall a w', leaves w0 w' -> runs (k a) Q R w') -> runs (m ≫= k) Q R w.
Proof.
  intros Hm Hw HR HQ. apply runs_bind. eapply runs_mono; [by apply (quiet_from m w0)| |]; cbn; auto.
Qed.

Lemma quiet_FindSupportedFormat candidates tiling wanted :
  quiet (FindSupportedFormat candidates tiling wanted).
Proof. induction candidates as [|f candidates IH]; cbn; quiet_code; done. Qed.
#[local] Hint Resolve quiet_FindSupportedFormat : quiet.

Lemma quiet_FindDepthFormat : quiet FindDepthFormat.
Proof. apply quiet_FindSupportedFormat. Qed.
#[local] Hint Resolve quiet_FindDepthFormat : quiet.

Lemma quiet_CreateDepthResources : quiet CreateDepthResources.
Proof. unfold CreateDepthResources. quiet_code. Qed.

Lemma quiet_DestroyDepthResources : quiet DestroyDepthResources.
Proof. unfold DestroyDepthResources, destroy. quiet_code. Qed.

Lemma quiet_destroy_views : quiet destroy_views.
Proof. unfold destroy_views, destroy. quiet_code. Qed.

Lemma quiet_CreateAllocator : quiet CreateAllocator.
Proof. unfold CreateAllocator. quiet_code. Qed.

Lemma quiet_CreateTimestampQueryPool : quiet CreateTimestampQueryPool.
Proof. unfold CreateTimestampQueryPool. quiet_code. Qed.

Lemma quiet_CreatePipelineCache : quiet CreatePipelineCache.
Proof. unfold CreatePipelineCache. quiet_code. Qed.

Lemma quiet_DestroyTimestampQueryPool : quiet DestroyTimestampQueryPool.
Proof. unfold DestroyTimestampQueryPool, destroy. quiet_code. Qed.

Lemma quiet_DestroyPipelineCache : quiet DestroyPipelineCache.
Proof. unfold DestroyPipelineCache, destroy. quiet_code. Qed.

Lemma quiet_GatherDeviceFaultData : quiet GatherDeviceFaultData.
Proof.
  unfold GatherDeviceFaultData. apply quiet_bind; [quiet_code|]. intros s.
  destruct (_ || _); [quiet_code|]. apply quiet_bind; [quiet_code|]. intros fn.
  destruct (negb fn); [quiet_code|]. apply quiet_bind; [quiet_code|]. intros first. cbv zeta.
  destruct (_ || _); [quiet_code|]. apply quiet_bind_call; [done|]. intros tr.
  destruct (faults_room tr (device s) first.2) as [Ha Hv].
  destruct (negb _); [quiet_code|]. apply Z.ltb_ge in Ha, Hv. rewrite Ha, Hv. cbn [orb]. quiet_code.
Qed.
#[local] Hint Resolve quiet_GatherDeviceFaultData : quiet.

Lemma quiet_device_lost : quiet device_lost.
Proof. unfold device_lost. quiet_code. Qed.

Lemma steady_DestroyDepthResources : steady DestroyDepthResources.
Proof. unfold DestroyDepthResources, destroy. steady_code. Qed.

Lemma steady_destroy_views : steady destroy_views.
Proof. unfold destroy_views, destroy. steady_code. Qed.

Lemma steady_GatherDeviceFaultData : steady GatherDeviceFaultData.
Proof. unfold GatherDeviceFaultData. steady_code. Qed.

(** Every family of queues presents to the surface that it is asked about. *)
Definition families_present : Prop := forall tr candidate family s,
  let r := answer tr (vkGetPhysicalDeviceSurfaceSupportKHR candidate family s) in
  r.1 = VK_SUCCESS -> r.2 = true.

Lemma runs_choose_present (Q : Z -> world VulkanContext -> Prop) (R : ALResult -> world VulkanContext -> Prop)
    candidate graphics families w0 w :
  families_present -> leaves w0 w -> (forall w', leaves w0 w' -> Q graphics w') ->
  (forall hr w', leaves w0 w' -> R hr w') -> runs (choose_present candidate graphics families) Q R w.
Proof.
  intros Hp Hw HQ HR. unfold choose_present. apply runs_bind, runs_this. cbn beta.
  apply runs_bind, runs_bind, runs_call. intros r ->.
  match goal with |- runs _ _ _ (mkWorld _ (Event ?c ?a :: _)) =>
    assert (Hl : leaves w0 (mkWorld (object w) (Event c a :: trace w)))
      by (etrans; [exact Hw|by apply leaves_call]);
    pose proof (Hp (trace w) candidate graphics (surface (state (object w)))) as Hyes
  end.
  apply runs_bind, runs_VK_CHECK, runs_ret. case_bool_decide as Hr; [|by apply HR].
  apply runs_ret. cbn zeta in Hyes. rewrite (Hyes Hr). by apply runs_ret, HQ.
Qed.

(** Taking the families of a device that draws and presents with one. *)
Lemma runs_take_device candidate ps fs vulkan13 vulkan12 graphics
    (R : ALResult -> world VulkanContext -> Prop) w0 w :
  one_family (object w0) = true -> leaves w0 w -> (forall hr w', leaves w0 w' -> R hr w') ->
  runs (take_device candidate ps fs vulkan13 vulkan12 graphics graphics) R R w.
Proof.
  intros Hone [Hs Hu] HR. unfold take_device. apply runs_bind, runs_update. set (w1 := mkWorld _ _).
  assert (Hl1 : leaves w0 w1).
  { split; [|done]. unfold sync_of, one_family in *. cbn. rewrite Z.eqb_refl, Hone in *.
    injection Hs. congruence. }
  apply (runs_bind_quiet _ _ _ _ w0); [quiet_code|done|exact HR|]. intros memory w2 Hl2.
  apply (runs_bind_quiet _ _ _ _ w0); [quiet_code|done|exact HR|]. intros _ w3 Hl3.
  by apply runs_ret, HR.
Qed.

(** A device whose families present keeps the one family. *)
Lemma runs_PickPhysicalDevice adapter requireSurface w :
  families_present -> one_family (object w) = true ->
  runs (PickPhysicalDevice adapter requireSurface) (fun _ => leaves w) (fun _ _ => False) w.
Proof.
  intros Hp Hone. unfold PickPhysicalDevice. apply runs_function.
  assert (HR : forall (hr : ALResult) w', leaves w w' -> leaves w w') by done.
  assert (Hend : forall hr w', leaves w w' -> runs (mret hr) (fun _ : ALResult => leaves w) (fun _ => leaves w) w')
    by (intros; by apply runs_ret).
  apply (runs_bind_quiet _ _ _ _ w); [quiet_code|done|exact HR|]. intros i w1 Hl1.
  apply (runs_bind_quiet _ _ _ _ w); [quiet_code|done|exact HR|]. intros first w2 Hl2.
  destruct (Nat.eqb_spec first.1 0) as [|Hfirst]; [by apply Hend|].
  apply runs_bind, runs_VK_CHECK_value; [done| |].
  2:{ intros r hr _ _. etrans; [exact Hl2|]. by apply leaves_call. }
  intros second Hsecond. set (w3 := mkWorld _ _).
  assert (Hl3 : leaves w w3) by (etrans; [exact Hl2|by apply leaves_call]). cbv zeta.
  assert (Hroom : (second.1 <= first.1)%nat).
  { change second with (VK_SUCCESS, second).2. rewrite Hsecond. apply devices_room. }
  destruct (_ <=? adapter) eqn:Hadapter; [by apply Hend|]. apply Z.leb_gt in Hadapter.
  destruct (fill _ _ !! Z.to_nat adapter) eqn:Hfill.
  2:{ apply lookup_ge_None in Hfill. rewrite length_fill, length_replicate in Hfill. lia. }
  apply runs_bind, runs_ret.
  do 2 (apply (runs_bind_quiet _ _ _ _ w); [quiet_code|done|exact HR|]; intros ? ? ?).
  destruct (negb _); [by apply Hend|].
  do 3 (apply (runs_bind_quiet _ _ _ _ w); [quiet_code|done|exact HR|]; intros ? ? ?).
  destruct (_ || _ || _); [by apply Hend|].
  apply (runs_bind_quiet _ _ _ _ w); [quiet_code|done|exact HR|]. intros queueFamilies w9 Hl9.
  destruct (_ =? _) eqn:Hg; [by apply Hend|]. apply runs_bind.
  assert (Hrest : forall ps fs v13 v12 w', leaves w w' ->
    runs (take_device v ps fs v13 v12 (graphics_family 0 queueFamilies VK_QUEUE_FAMILY_IGNORED)
      (graphics_family 0 queueFamilies VK_QUEUE_FAMILY_IGNORED)) (fun _ => leaves w) (fun _ => leaves w) w').
  { intros. by eapply runs_take_device. }
  destruct requireSurface; [|apply runs_ret; rewrite Hg; by apply Hrest].
  eapply runs_choose_present; [done|exact Hl9| |done]. intros w10 Hl10. cbn beta. rewrite Hg. by apply Hrest.
Qed.

End operations.

#[export] Hint Resolve quiet_CreateDebugMessenger quiet_DestroyDebugMessenger quiet_CreateInstance
  quiet_CreateSurface quiet_CreateDepthResources
  quiet_DestroyDepthResources quiet_destroy_views quiet_CreateAllocator
  quiet_CreateTimestampQueryPool quiet_CreatePipelineCache quiet_DestroyTimestampQueryPool
  quiet_DestroyPipelineCache quiet_GatherDeviceFaultData quiet_device_lost : quiet.
