(* ===== verification/VulkanFrameInv.v ===== *)
(** * The objects of a frame

    The state in which the frames of a [VulkanContext] leave their fences,
    semaphores, command buffers and swap chain, what one call does to it, and
    what waiting and recreating the swap chain do. *)

From stdpp Require Import base numbers list option strings gmap fin_maps sets.
From S2P Require Import Prelude RenderGraph VulkanFormats Vulkan VulkanContext VulkanUsage VulkanQuiet.

#[local] Open Scope Z_scope.

(** ** The invariant *)

Definition semaphores_of (f : VulkanFrameContext) : list VkHandle :=
  [acquireSemaphore f; renderFinishedSemaphore f; timelineSemaphore f].

Lemma acquire_of f : acquireSemaphore f ∈ semaphores_of f.
Proof. apply list_elem_of_here. Qed.
Lemma finished_of f : renderFinishedSemaphore f ∈ semaphores_of f.
Proof. apply list_elem_of_further, list_elem_of_here. Qed.
Lemma timeline_of f : timelineSemaphore f ∈ semaphores_of f.
Proof. do 2 apply list_elem_of_further. apply list_elem_of_here. Qed.

(** The objects alive are those of the two frames, all different. *)
Record owned (g : gpu) (f f' : VulkanFrameContext) : Prop := mk_owned
  { owned_fences : dom (fences g) = {[inFlightFence f; inFlightFence f']};
    owned_semaphores : dom (semaphores g) = list_to_set (semaphores_of f ++ semaphores_of f');
    owned_pools : pools g = {[commandPool f; commandPool f']};
    owned_buffers : dom (buffers g) = {[commandBuffer f; commandBuffer f']};
    fences_differ : inFlightFence f <> inFlightFence f';
    pools_differ : commandPool f <> commandPool f';
    buffers_differ : commandBuffer f <> commandBuffer f';
    semaphores_differ : NoDup (semaphores_of f ++ semaphores_of f');
    handles_given : Forall (fun h => h <> VK_NULL_HANDLE)
      ([inFlightFence f; inFlightFence f'; commandPool f; commandPool f'] ++
       semaphores_of f ++ semaphores_of f') }.

(** The state of a frame's objects. *)
Record frame_state (g : gpu) (f : VulkanFrameContext) (fence : fence_state) (buffer : buffer_state)
    (acquire finished : bool) : Prop := mk_frame_state
  { fs_fence : fences g !! inFlightFence f = Some fence;
    fs_buffer : buffers g !! commandBuffer f = Some (commandPool f, buffer);
    fs_acquire : semaphores g !! acquireSemaphore f = Some (Binary acquire);
    fs_finished : semaphores g !! renderFinishedSemaphore f = Some (Binary finished);
    fs_timeline : semaphores g !! timelineSemaphore f = Some Timeline }.

(** A fence is pending exactly while its frame's command buffer executes. *)
Inductive paired (f : VulkanFrameContext) : fence_state -> buffer_state -> Prop :=
| paired_done b : b <> InFlight -> paired f Signaled b
| paired_pending : paired f (Pending (commandBuffer f)) InFlight.

(** Between its presentation and its next turn. *)
Definition at_rest (g : gpu) (f : VulkanFrameContext) : Prop :=
  exists fence buffer, paired f fence buffer /\ frame_state g f fence buffer false false.

(** The current frame, and the other. *)
Definition frames_are (c : VulkanContext) (f f' : VulkanFrameContext) : Prop :=
  (frameIndex (state c) = 0 /\ frames (state c) = [f; f']) \/
  (frameIndex (state c) = 1 /\ frames (state c) = [f'; f]).

(** The swap chain: there is none while it is suspended. *)
Definition chain (c : VulkanContext) (g : gpu) : Prop :=
  let w := swapchain (state c) in
  if suspended w then swapchain_ w = VK_NULL_HANDLE /\ swapchains g = ∅
  else swapchain_ w <> VK_NULL_HANDLE /\ swapchains g = {[swapchain_ w]}.

(** An entry of the deferred objects without fences, semaphores, pools and swap
    chains. *)
Definition resource_only (e : VulkanDeferredDestroy) : Prop :=
  dd_swapchain e = VK_NULL_HANDLE /\ dd_semaphore e = VK_NULL_HANDLE /\
  dd_fence e = VK_NULL_HANDLE /\ dd_commandPool e = VK_NULL_HANDLE.

(** What holds throughout, and what the current frame's state is: [current]. *)
Record invariant (current : VulkanContext -> gpu -> VulkanFrameContext -> Prop)
    (w : world VulkanContext) : Prop := mk_invariant
  { inv_device : device (state (object w)) <> VK_NULL_HANDLE;
    inv_family : one_family (object w) = true;
    inv_deferred : Forall resource_only (m_deferred (object w));
    inv_frames : exists f f' g, usage (trace w) = Some g /\ frames_are (object w) f f' /\
      owned g f f' /\ at_rest g f' /\ chain (object w) g /\ current (object w) g f }.

(** Between two frames. *)
Definition resting (c : VulkanContext) (g : gpu) (f : VulkanFrameContext) : Prop := at_rest g f.

(** The last submission of the frame has completed. *)
Definition ready (f : VulkanFrameContext) (g : gpu) : Prop :=
  exists b, b <> InFlight /\ frame_state g f Signaled b false false.

(** While a frame is recorded, and after it was submitted. *)
Definition image_held (c : VulkanContext) (g : gpu) : Prop :=
  (swapchain_ (swapchain (state c)), currentImageIndex (swapchain (state c))) ∈ acquired g.
Definition recording (c : VulkanContext) (g : gpu) (f : VulkanFrameContext) : Prop :=
  if suspended (swapchain (state c)) then ready f g
  else frame_state g f Unsignaled Recording true false /\ image_held c g.
Definition submitted (c : VulkanContext) (g : gpu) (f : VulkanFrameContext) : Prop :=
  if suspended (swapchain (state c)) then at_rest g f
  else frame_state g f (Pending (commandBuffer f)) InFlight false true /\ image_held c g.

(** ** What changes the objects *)

(** The same but for swap chains and their images. *)
Definition same_objects (g g' : gpu) : Prop :=
  fences g' = fences g /\ semaphores g' = semaphores g /\ pools g' = pools g /\ buffers g' = buffers g.

#[export] Instance same_objects_preorder : PreOrder same_objects.
Proof. split; [done|]. unfold same_objects. intros g1 g2 g3 ? ?. naive_solver congruence. Qed.

Lemma same_objects_owned g g' f f' : same_objects g g' -> owned g f f' -> owned g' f f'.
Proof. intros (Hf & Hs & Hp & Hb) []. by constructor; rewrite ?Hf, ?Hs, ?Hp, ?Hb. Qed.

Lemma same_objects_frame_state g g' f x b a r :
  same_objects g g' -> frame_state g f x b a r -> frame_state g' f x b a r.
Proof. intros (Hf & Hs & Hp & Hb) []. by constructor; rewrite ?Hf, ?Hs, ?Hp, ?Hb. Qed.

Lemma same_objects_at_rest g g' f : same_objects g g' -> at_rest g f -> at_rest g' f.
Proof.
  intros Hs (x & b & Hp & Hf). exists x, b. split; [done|]. by eapply same_objects_frame_state.
Qed.

Lemma same_objects_idle g g' : same_objects g g' -> idle g -> idle g'.
Proof. unfold idle. by intros (-> & _). Qed.

Lemma complete_all_idle g : idle (complete_all g).
Proof.
  intros h x Hx. cbn in Hx. apply lookup_fmap_Some in Hx as (y & <- & _). by destruct y.
Qed.

Lemma complete_all_owned g f f' : owned g f f' -> owned (complete_all g) f f'.
Proof. intros []. by constructor; cbn; rewrite ?dom_fmap_L. Qed.

Lemma complete_all_frame_state g f x b a r :
  frame_state g f x b a r ->
  frame_state (complete_all g) f (finish_fence x) (if in_flight b then Initial else b) a r.
Proof.
  intros []. constructor; cbn; rewrite ?lookup_fmap.
  - by rewrite fs_fence0.
  - rewrite fs_buffer0. cbn. by destruct b.
  - done.
  - done.
  - done.
Qed.

Lemma complete_all_at_rest g f : at_rest g f -> at_rest (complete_all g) f.
Proof.
  intros (x & b & Hp & Hf). exists (finish_fence x), (if in_flight b then Initial else b).
  split; [|by apply complete_all_frame_state]. destruct Hp as [b Hb|]; [|by constructor].
  cbn. destruct b; try done; by constructor.
Qed.

(** A change to the objects of [f] only. *)
Record frame_step (g g' : gpu) (f f' : VulkanFrameContext) : Prop := mk_frame_step
  { step_owned : owned g f f' -> owned g' f f';
    step_other : owned g f f' -> forall x b a r, frame_state g f' x b a r -> frame_state g' f' x b a r;
    step_swapchains : swapchains g' = swapchains g }.

Lemma frame_step_refl g f f' : frame_step g g f f'.
Proof. by constructor. Qed.

Lemma frame_step_trans g1 g2 g3 f f' :
  frame_step g1 g2 f f' -> frame_step g2 g3 f f' -> frame_step g1 g3 f f'.
Proof. intros [] []. constructor; [auto..|congruence]. Qed.

Lemma frame_step_at_rest g g' f f' :
  frame_step g g' f f' -> owned g f f' -> at_rest g f' -> at_rest g' f'.
Proof. intros Hs Ho (x & b & Hp & Hf). exists x, b. split; [done|]. by eapply step_other. Qed.

Definition with_fence (f : VulkanFrameContext) (x : fence_state) (g : gpu) : gpu :=
  g <| fences ::= insert (inFlightFence f) x |>.
Definition with_buffer (f : VulkanFrameContext) (b : buffer_state) (g : gpu) : gpu :=
  g <| buffers ::= insert (commandBuffer f) (commandPool f, b) |>.
Definition with_semaphore (h : VkHandle) (b : bool) (g : gpu) : gpu :=
  g <| semaphores ::= insert h (Binary b) |>.

Lemma semaphores_of_differ g f f' h h' :
  owned g f f' -> h ∈ semaphores_of f -> h' ∈ semaphores_of f' -> h <> h'.
Proof.
  intros Ho Hh Hh' ->. pose proof (semaphores_differ _ _ _ Ho) as HN.
  apply NoDup_app in HN as (_ & HN & _). by apply (HN h').
Qed.

Lemma with_fence_step f f' x g : frame_step g (with_fence f x g) f f'.
Proof.
  constructor; [|intros Ho y b a r Hf'|done].
  - intros []. constructor; cbn; try done. rewrite dom_insert_L. set_solver.
  - destruct Hf'. constructor; cbn; try done.
    rewrite lookup_insert_ne; [done|]. by apply Ho.
Qed.

Lemma with_buffer_step f f' b g : frame_step g (with_buffer f b g) f f'.
Proof.
  constructor; [|intros Ho y b' a r Hf'|done].
  - intros []. constructor; cbn; try done. rewrite dom_insert_L. set_solver.
  - destruct Hf'. constructor; cbn; try done.
    rewrite lookup_insert_ne; [done|]. by apply Ho.
Qed.

Lemma with_semaphore_step f f' h b g :
  h ∈ semaphores_of f -> frame_step g (with_semaphore h b g) f f'.
Proof.
  intros Hh. constructor; [|intros Ho y b' a r Hf'|done].
  - intros []. constructor; cbn -[semaphores_of]; try done.
    rewrite dom_insert_L, owned_semaphores0. apply subseteq_union_1_L, singleton_subseteq_l.
    apply elem_of_list_to_set, elem_of_app. by left.
  - pose proof (fun h' => semaphores_of_differ g f f' h h' Ho Hh) as Hne.
    destruct Hf'. constructor; cbn; try done; (rewrite lookup_insert_ne; [done|]);
      apply Hne; auto using acquire_of, finished_of, timeline_of.
Qed.

Lemma with_fence_state f x y b a r g :
  frame_state g f y b a r -> frame_state (with_fence f x g) f x b a r.
Proof. intros []. constructor; cbn; try done. by rewrite lookup_insert_eq. Qed.

Lemma with_buffer_state f b b' x a r g :
  frame_state g f x b' a r -> frame_state (with_buffer f b g) f x b a r.
Proof. intros []. constructor; cbn; try done. by rewrite lookup_insert_eq. Qed.

Lemma own_semaphores_differ g f f' :
  owned g f f' -> acquireSemaphore f <> renderFinishedSemaphore f /\
    acquireSemaphore f <> timelineSemaphore f /\ renderFinishedSemaphore f <> timelineSemaphore f.
Proof.
  intros Ho. pose proof (semaphores_differ _ _ _ Ho) as HN. apply NoDup_app in HN as (HN & _ & _).
  unfold semaphores_of in HN. rewrite !NoDup_cons in HN. set_solver.
Qed.

Lemma with_acquire_state f f' b x c a r g :
  owned g f f' -> frame_state g f x c a r ->
  frame_state (with_semaphore (acquireSemaphore f) b g) f x c b r.
Proof.
  intros (Har & Hat & _)%own_semaphores_differ []. constructor; cbn; try done.
  - by rewrite lookup_insert_eq.
  - by rewrite lookup_insert_ne.
  - by rewrite lookup_insert_ne.
Qed.

Lemma with_finished_state f f' b x c a r g :
  owned g f f' -> frame_state g f x c a r ->
  frame_state (with_semaphore (renderFinishedSemaphore f) b g) f x c a b.
Proof.
  intros (Har & _ & Hrt)%own_semaphores_differ []. constructor; cbn; try done.
  - by rewrite lookup_insert_ne.
  - by rewrite lookup_insert_eq.
  - by rewrite lookup_insert_ne.
Qed.

(** ** One call on the objects of a frame *)

Lemma succeeded_true r : succeeded r = true <-> r = VK_SUCCESS.
Proof. unfold succeeded. apply bool_decide_eq_true. Qed.

Section calls.
Context (tr : list event) (g : gpu) (f f' : VulkanFrameContext).
Context (Hg : usage tr = Some g) (Ho : owned g f f').

Lemma usage_wait d r : at_rest g f -> exists g',
  usage (Event (vkWaitForFences d (inFlightFence f)) r :: tr) = Some g' /\
  frame_step g g' f f' /\ at_rest g' f /\
  (r = VK_SUCCESS -> exists b, b <> InFlight /\ frame_state g' f Signaled b false false).
Proof.
  intros (x & b & Hp & Hf). cbn. rewrite Hg. cbn. rewrite (fs_fence _ _ _ _ _ _ Hf). cbn.
  rewrite option_guard_True by (by destruct Hp). cbn. unfold when.
  destruct (succeeded r) eqn:Hr.
  2:{ exists g. split; [done|]. split; [apply frame_step_refl|]. split; [by exists x, b|].
      intros ->. done. }
  unfold complete. rewrite (fs_fence _ _ _ _ _ _ Hf). destruct Hp as [b Hb|].
  { exists g. split; [done|]. split; [apply frame_step_refl|].
    split; [|by exists b]. exists Signaled, b. by split; [constructor|]. }
  exists (with_buffer f Initial (with_fence f Signaled g)).
  assert (Heq : alter finish_buffer (commandBuffer f) (buffers g) =
    <[commandBuffer f := (commandPool f, Initial)]> (buffers g)).
  { apply map_eq. intros h. destruct (decide (h = commandBuffer f)) as [->|Hne].
    - by rewrite lookup_alter_eq, lookup_insert_eq, (fs_buffer _ _ _ _ _ _ Hf).
    - by rewrite lookup_alter_ne, lookup_insert_ne by done. }
  split; [by cbn; rewrite Heq|].
  assert (Hs : frame_state (with_buffer f Initial (with_fence f Signaled g)) f Signaled Initial false false).
  { eapply with_buffer_state, with_fence_state, Hf. }
  split; [eapply frame_step_trans; [apply with_fence_step|apply with_buffer_step]|].
  split; [|by exists Initial]. exists Signaled, Initial. by split; [constructor|].
Qed.

Lemma usage_reset_fence d r b a e : frame_state g f Signaled b a e -> exists g',
  usage (Event (vkResetFences d (inFlightFence f)) r :: tr) = Some g' /\
  frame_step g g' f f' /\ acquired g' = acquired g /\
  (r = VK_SUCCESS -> frame_state g' f Unsignaled b a e).
Proof.
  intros Hf. cbn. rewrite Hg. cbn. rewrite (fs_fence _ _ _ _ _ _ Hf). cbn. unfold when.
  destruct (succeeded r) eqn:Hr.
  - exists (with_fence f Unsignaled g). split; [done|]. split; [apply with_fence_step|].
    split; [done|]. intros _. by eapply with_fence_state.
  - exists g. split; [done|]. split; [apply frame_step_refl|]. split; [done|]. by intros ->.
Qed.

Lemma own_buffer h pool s : at_rest g f' -> buffers g !! h = Some (pool, s) ->
  pool = commandPool f -> forall x b a e, frame_state g f x b a e -> h = commandBuffer f /\ s = b.
Proof.
  intros (x' & b' & _ & Hf') Hh -> x b a e Hf.
  assert (Hdom : h ∈ dom (buffers g)) by by apply elem_of_dom.
  rewrite (owned_buffers _ _ _ Ho) in Hdom. rewrite elem_of_union, !elem_of_singleton in Hdom.
  destruct Hdom as [->| ->].
  - rewrite (fs_buffer _ _ _ _ _ _ Hf) in Hh. naive_solver.
  - rewrite (fs_buffer _ _ _ _ _ _ Hf') in Hh. injection Hh as Hpool _.
    by destruct (pools_differ _ _ _ Ho).
Qed.

Lemma usage_reset_pool d r x b a e : at_rest g f' -> frame_state g f x b a e -> b <> InFlight ->
  exists g', usage (Event (vkResetCommandPool d (commandPool f)) r :: tr) = Some g' /\
  frame_step g g' f f' /\ acquired g' = acquired g /\
  exists b', b' <> InFlight /\ frame_state g' f x b' a e /\ (r = VK_SUCCESS -> b' = Initial).
Proof.
  intros Hrest Hf Hb. cbn. rewrite Hg. cbn.
  rewrite option_guard_True by (rewrite (owned_pools _ _ _ Ho); set_solver). cbn.
  rewrite option_guard_True.
  2:{ intros h [p s] Hh Hp. cbn in *. destruct (own_buffer h p s Hrest Hh Hp _ _ _ _ Hf) as [_ ->]. by destruct b. }
  cbn. unfold when. destruct (succeeded r) eqn:Hr.
  2:{ exists g. split; [done|]. split; [apply frame_step_refl|]. split; [done|].
      exists b. split; [done|]. split; [done|]. by intros ->. }
  exists (with_buffer f Initial g).
  assert (Heq : ((fun p : VkHandle * buffer_state =>
      if bool_decide (p.1 = commandPool f) then (commandPool f, Initial) else p) <$> buffers g) =
    <[commandBuffer f := (commandPool f, Initial)]> (buffers g)).
  { apply map_eq. intros h. rewrite lookup_fmap.
    destruct (decide (h = commandBuffer f)) as [->|Hne].
    - rewrite lookup_insert_eq, (fs_buffer _ _ _ _ _ _ Hf). cbn. by rewrite bool_decide_true.
    - rewrite lookup_insert_ne by done. destruct (buffers g !! h) as [[p s]|] eqn:Hh; [|done].
      cbn. case_bool_decide as Hp; [|done].
      destruct (own_buffer h p s Hrest Hh Hp _ _ _ _ Hf). done. }
  split; [by cbn; rewrite Heq|]. split; [apply with_buffer_step|]. split; [done|].
  exists Initial. split; [done|]. split; [by eapply with_buffer_state|done].
Qed.

Lemma usage_begin_buffer r x a e : frame_state g f x Initial a e -> exists g',
  usage (Event (vkBeginCommandBuffer (commandBuffer f)) r :: tr) = Some g' /\
  frame_step g g' f f' /\ acquired g' = acquired g /\
  frame_state g' f x (if succeeded r then Recording else Initial) a e.
Proof.
  intros Hf. cbn. rewrite Hg. cbn. rewrite (fs_buffer _ _ _ _ _ _ Hf). cbn. unfold when.
  destruct (succeeded r) eqn:Hr.
  - exists (with_buffer f Recording g). split; [done|]. split; [apply with_buffer_step|].
    split; [done|]. by eapply with_buffer_state.
  - exists g. split; [done|]. split; [apply frame_step_refl|]. by split.
Qed.

Lemma usage_end_buffer r x a e : frame_state g f x Recording a e -> exists g',
  usage (Event (vkEndCommandBuffer (commandBuffer f)) r :: tr) = Some g' /\
  frame_step g g' f f' /\ acquired g' = acquired g /\
  frame_state g' f x (if succeeded r then Executable else Recording) a e.
Proof.
  intros Hf. cbn. rewrite Hg. cbn. rewrite (fs_buffer _ _ _ _ _ _ Hf). cbn. unfold when.
  destruct (succeeded r) eqn:Hr.
  - exists (with_buffer f Executable g). split; [done|]. split; [apply with_buffer_step|].
    split; [done|]. by eapply with_buffer_state.
  - exists g. split; [done|]. split; [apply frame_step_refl|]. by split.
Qed.

Lemma usage_counter d r x b a e : frame_state g f x b a e ->
  usage (Event (vkGetSemaphoreCounterValue d (timelineSemaphore f)) r :: tr) = Some g.
Proof.
  intros Hf. cbn. rewrite Hg. cbn. by rewrite option_guard_True by apply Hf.
Qed.

Lemma usage_acquire d sc r x b : sc ∈ swapchains g -> r.1 <> VK_SUBOPTIMAL_KHR ->
  (r.1 = VK_SUCCESS -> exists i, r.2 = Some i) -> frame_state g f x b false false -> exists g',
  usage (Event (vkAcquireNextImageKHR d sc (acquireSemaphore f)) r :: tr) = Some g' /\
  (if succeeded r.1 then frame_step g g' f f' /\ frame_state g' f x b true false /\
     exists i, r.2 = Some i /\ (sc, i) ∈ acquired g' else g' = g).
Proof.
  intros Hsc Hsub Himg Hf. cbn. rewrite Hg. cbn. rewrite option_guard_True by done. cbn.
  rewrite option_guard_True by apply Hf. cbn. destruct r as [r o]. cbn in *.
  destruct r; try by exists g.
  destruct (Himg eq_refl) as [i ->].
  eexists. split; [done|]. cbn.
  pose proof (acquire_of f) as Hacq.
  split; [|split; [|exists i; split; [done|cbn; set_solver]]].
  - destruct (with_semaphore_step f f' (acquireSemaphore f) true g Hacq) as [H1 H2 H3].
    constructor; [|intros _ y c a e Hy|done].
    + intros _. destruct (H1 Ho). by constructor.
    + destruct (H2 Ho y c a e Hy). by constructor.
  - destruct (with_acquire_state f f' true x b false false g Ho Hf). by constructor.
Qed.

Lemma usage_submit q info r : frame_state g f Unsignaled Executable true false ->
  si_commandBuffer info = commandBuffer f -> si_waitSemaphore info = acquireSemaphore f ->
  si_signalSemaphore info = renderFinishedSemaphore f -> si_timelineSemaphore info = timelineSemaphore f ->
  exists g', usage (Event (vkQueueSubmit2 q info (inFlightFence f)) r :: tr) = Some g' /\
  frame_step g g' f f' /\ acquired g' = acquired g /\
  (r = VK_SUCCESS -> frame_state g' f (Pending (commandBuffer f)) InFlight false true).
Proof.
  intros Hf Hb Hw Hs Ht. cbn. rewrite Hg. cbn. unfold check_submit. rewrite Hb, Hw, Hs, Ht.
  rewrite (fs_buffer _ _ _ _ _ _ Hf). cbn. rewrite option_guard_True by done. cbn.
  rewrite option_guard_True by apply Hf. cbn. rewrite option_guard_True by apply Hf. cbn.
  rewrite option_guard_True by apply Hf. cbn. rewrite option_guard_True by apply Hf. cbn.
  unfold when.
  destruct (succeeded r) eqn:Hr.
  2:{ exists g. split; [done|]. split; [apply frame_step_refl|]. split; [done|]. by intros ->. }
  exists (with_fence f (Pending (commandBuffer f))
    (with_semaphore (renderFinishedSemaphore f) true
      (with_semaphore (acquireSemaphore f) false (with_buffer f InFlight g)))).
  split; [done|]. split; [|split; [done|intros _]].
  - eapply frame_step_trans; [apply with_buffer_step|].
    eapply frame_step_trans; [apply with_semaphore_step, acquire_of|].
    eapply frame_step_trans; [apply with_semaphore_step, finished_of|].
    apply with_fence_step.
  - assert (Ho1 : owned (with_buffer f InFlight g) f f') by by apply with_buffer_step.
    assert (Ho2 : owned (with_semaphore (acquireSemaphore f) false (with_buffer f InFlight g)) f f').
    { apply with_semaphore_step; [apply acquire_of|done]. }
    eapply with_fence_state, with_finished_state, with_acquire_state, with_buffer_state, Hf; done.
Qed.

Lemma usage_present q sc i r :
  frame_state g f (Pending (commandBuffer f)) InFlight false true -> (sc, i) ∈ acquired g ->
  exists g', usage (Event (vkQueuePresentKHR q sc i (renderFinishedSemaphore f)) r :: tr) = Some g' /\
  frame_step g g' f f' /\ (present_queued r = true -> at_rest g' f).
Proof.
  intros Hf Hi. cbn. rewrite Hg. cbn. rewrite option_guard_True by done. cbn.
  rewrite option_guard_True by apply Hf. cbn. unfold when.
  destruct (present_queued r) eqn:Hr.
  2:{ exists g. split; [done|]. by split; [apply frame_step_refl|]. }
  pose proof (finished_of f) as Hfin.
  destruct (with_semaphore_step f f' (renderFinishedSemaphore f) false g Hfin) as [H1 H2 H3].
  destruct (with_finished_state f f' false _ _ _ _ g Ho Hf).
  eexists. split; [done|]. split.
  - constructor; [intros _; destruct (H1 Ho); by constructor| |done].
    intros _ y c a e Hy. destruct (H2 Ho y c a e Hy). by constructor.
  - intros _. exists (Pending (commandBuffer f)), InFlight. split; [constructor|by constructor].
Qed.
End calls.
