(* ===== verification/VulkanSwapchain.v ===== *)
(** * Recreating the swap chain

    What waiting for the device and creating, recreating and destroying the swap
    chain and the surface do to the objects of [VulkanUsage]: fences, semaphores
    and command buffers are at most completed, and when the functions succeed the
    context holds the one swap chain alive, or none and is suspended. *)

From stdpp Require Import base numbers list option strings gmap fin_maps sets.
From S2P Require Import Prelude RenderGraph VulkanFormats Vulkan VulkanContext VulkanUsage VulkanQuiet VulkanFrameInv.

#[local] Open Scope Z_scope.

(** The members that these functions leave alone. *)
Definition core_of (c : VulkanContext)
    : list VulkanFrameContext * Z * VkHandle * list VulkanDeferredDestroy * bool :=
  (frames (state c), frameIndex (state c), device (state c), m_deferred c, one_family c).

Definition chain_of (c : VulkanContext) : VkHandle * bool :=
  (swapchain_ (swapchain (state c)), suspended (swapchain (state c))).

Lemma leaves_core w w' : leaves w w' -> core_of (object w') = core_of (object w).
Proof. intros [[=] _]. unfold core_of. congruence. Qed.

Lemma core_one_family c c' : core_of c' = core_of c -> one_family c = true -> one_family c' = true.
Proof. intros [=]. congruence. Qed.

Lemma leaves_chain w w' : leaves w w' -> chain_of (object w') = chain_of (object w).
Proof. intros [[=] _]. unfold chain_of. congruence. Qed.

(** From [g] and [c], only swap chains have changed. *)
Record rechained (g : gpu) (c : VulkanContext) (P : VulkanContext -> gpu -> Prop)
    (w : world VulkanContext) : Prop := mk_rechained
  { re_core : core_of (object w) = core_of c;
    re_usage : exists g', usage (trace w) = Some g' /\ same_objects g g' /\ P (object w) g' }.

(** A swap chain that can be replaced: none, or the only one alive. *)
Definition sole (old : VkHandle) (g : gpu) : Prop :=
  swapchains g = if is_null old then ∅ else {[old]}.

Lemma chain_sole c g : chain c g -> sole (swapchain_ (swapchain (state c))) g.
Proof.
  unfold chain, sole, is_null. destruct (suspended _); intros [Hs Hg]; rewrite Hg.
  - by rewrite Hs.
  - by destruct (Z.eqb_spec (swapchain_ (swapchain (state c))) VK_NULL_HANDLE).
Qed.

Section swapchain.
Context `{DriverLaws} (wait_succeeds : forall tr d, answer tr (vkDeviceWaitIdle d) = VK_SUCCESS).

Lemma runs_WaitIdle (Q : unit -> world VulkanContext -> Prop) R w :
  device (state (object w)) <> VK_NULL_HANDLE ->
  (forall tr, usage tr = complete_all <$> usage (trace w) -> Q tt (mkWorld (object w) tr)) ->
  runs WaitIdle Q R w.
Proof.
  intros Hd HQ. unfold WaitIdle. apply runs_bind, runs_this. cbn.
  destruct (is_null _) eqn:E; [by apply Z.eqb_eq in E|].
  apply runs_bind, runs_call. intros a ->. apply runs_ret, HQ. rewrite wait_succeeds. cbn.
  by destruct (usage (trace w)).
Qed.

(** Code that leaves the frames alone, then [Q]. *)
Lemma runs_quiet {A} (m : Code VulkanContext A) Q R w :
  quiet m -> (forall a w', leaves w w' -> Q a w') -> (forall hr w', leaves w w' -> R hr w') ->
  runs m Q R w.
Proof. intros Hm HQ HR. eapply runs_mono; [apply Hm|done..]. Qed.

Lemma runs_quiet_steady {A} (m : Code VulkanContext A) Q R w :
  quiet m -> steady m -> (forall a w', leaves w w' -> Q a w') -> runs m Q R w.
Proof. intros Hm Hs HQ. eapply runs_steady; [done|]. by apply (runs_quiet m Q (fun _ => leaves w)). Qed.

(** [CR_RETURN_HR] of such a function. *)
Lemma runs_CR_quiet (m : Code VulkanContext ALResult) (Q : unit -> world VulkanContext -> Prop) R w :
  quiet m -> steady m -> (forall w', leaves w w' -> Q tt w') ->
  (forall hr w', leaves w w' -> hr <> S_OK -> R hr w') -> runs (CR_RETURN_HR m) Q R w.
Proof.
  intros Hm Hs HQ HR. apply runs_CR_RETURN_HR, runs_quiet_steady; [done|done|].
  intros hr w' Hl. destruct hr; cbn; auto; by apply HR.
Qed.

Lemma runs_CR_leaves (m : Code VulkanContext ALResult) (Q : unit -> world VulkanContext -> Prop) R w :
  runs m (fun _ => leaves w) (fun _ _ => False) w -> (forall w', leaves w w' -> Q tt w') ->
  (forall hr w', leaves w w' -> hr <> S_OK -> R hr w') -> runs (CR_RETURN_HR m) Q R w.
Proof.
  intros Hm HQ HR. apply runs_CR_RETURN_HR. eapply runs_mono; [exact Hm| |done].
  intros hr w' Hl. destruct hr; cbn; auto; by apply HR.
Qed.

Lemma runs_get_swapchain_images room (Q : unit -> world VulkanContext -> Prop) R w g :
  usage (trace w) = Some g -> swapchain_ (swapchain (state (object w))) ∈ swapchains g ->
  (forall w' d sc, leaves w w' ->
     let r := answer (trace w) (vkGetSwapchainImagesKHR d sc room) in
     imageCount (swapchain (state (object w'))) = r.2.1 ->
     images (swapchain (state (object w'))) =
       (match room with None => images (swapchain (state (object w)))
        | Some _ => fill (images (swapchain (state (object w)))) r.2.2 end) -> Q tt w') ->
  (forall hr w', leaves w w' -> R hr w') ->
  runs (get_swapchain_images room) Q R w.
Proof.
  intros Hg Hin HQ HR. unfold get_swapchain_images.
  apply runs_bind, runs_this. cbn. apply runs_bind, runs_call. intros r Hr.
  pose proof (fun w' => HQ w' (device (state (object w))) (swapchain_ (swapchain (state (object w))))) as HQ'.
  clear HQ. cbv zeta in HQ'. unfold enumerated in *. rewrite <- Hr in HQ'.
  apply runs_bind, runs_update. cbn.
  assert (Hu : usage (Event (vkGetSwapchainImagesKHR (device (state (object w)))
    (swapchain_ (swapchain (state (object w)))) room) r :: trace w) = usage (trace w)).
  { cbn. rewrite Hg. cbn. by rewrite option_guard_True. }
  apply runs_bind.
  destruct room as [n|]; [apply runs_update|apply runs_ret]; cbn; apply runs_VK_CHECK, runs_ret;
    (case_bool_decide; [by apply HQ'|by apply HR]).
Qed.

(** The loop over the views. *)
Lemma runs_create_views (Q : unit -> world VulkanContext -> Prop) R w l :
  (forall i, i ∈ l -> i < length (images (swapchain (state (object w)))) /\
     i < length (imageViews (swapchain (state (object w)))))%nat ->
  (forall w', leaves w w' -> Q tt w') -> (forall hr w', leaves w w' -> R hr w') ->
  runs (for_each create_view l) Q R w.
Proof.
  revert w Q R. induction l as [|i l IH]; intros w Q R Hl HQ HR.
  { cbn. by apply runs_ret, HQ. }
  cbn. apply runs_bind. unfold create_view. apply runs_bind, runs_this. cbn.
  destruct (Hl i) as [Hi Hv]; [by left|].
  destruct (lookup_lt_is_Some_2 _ _ Hi) as [image ->].
  destruct (lookup_lt_is_Some_2 _ _ Hv) as [view ->].
  apply runs_VK_CHECK, runs_call_out. intros r o _. cbn.
  match goal with |- context [if _ then runs _ _ _ ?w1 else _] =>
    assert (Hw1 : leaves w w1 /\ images (swapchain (state (object w1))) = images (swapchain (state (object w)))
      /\ length (imageViews (swapchain (state (object w1)))) = length (imageViews (swapchain (state (object w)))))
  end.
  { destruct o; cbn; [rewrite length_insert|]; (split; [split; [done|by apply neutral_usage]|done]). }
  destruct Hw1 as (Hlv & Him & Hvw). case_bool_decide; [|by apply HR].
  apply IH.
  - intros j Hj. rewrite Him, Hvw. apply Hl. by right.
  - intros w' Hw'. apply HQ. by etrans.
  - intros hr w' Hw'. apply HR. by etrans.
Qed.

(** [create_swapchain] from the first query of the images. *)
Lemma runs_swapchain_resources (P : ALResult -> world VulkanContext -> Prop) w g :
  usage (trace w) = Some g -> swapchain_ (swapchain (state (object w))) ∈ swapchains g ->
  (forall hr w', leaves w w' -> P hr w') ->
  runs (get_swapchain_images None;;
    put_swapchain (fun w => w <| images ::= resize (imageCount w) VK_NULL_HANDLE |>);;
    count ← get (fun s => imageCount (swapchain s));
    get_swapchain_images (Some count);;
    put_swapchain (fun w => w <| imageViews ::= resize (imageCount w) VK_NULL_HANDLE |>);;
    count ← get (fun s => imageCount (swapchain s));
    for_each create_view (seq 0 count);;
    CR_RETURN_HR CreateDepthResources;;
    mret S_OK) P P w.
Proof.
  intros Hg Hin HP. apply runs_bind. eapply runs_get_swapchain_images; [exact Hg|exact Hin| |by auto].
  intros w1 d1 sc1 Hl1 r1 _ _. apply runs_bind, runs_update. apply runs_bind, runs_this. cbn.
  match goal with |- runs _ _ _ ?w2 => set (w2' := w2) end.
  assert (Hl2 : leaves w w2') by (etrans; [exact Hl1|by split]).
  pose proof (leaves_chain _ _ Hl2) as Hch. injection Hch as Hsc _.
  apply runs_bind. eapply runs_get_swapchain_images;
    [by destruct Hl2 as [_ ->]|exact (eq_ind_r (fun h => h ∈ swapchains g) Hin Hsc)| |by intros ?? Hl; apply HP; etrans].
  intros w3 d3 sc3 Hl3 r3 Hc3 Hi3. subst r1 r3.
  pose proof (images_room (trace w2') d3 sc3 (imageCount (swapchain (state (object w1))))) as Hroom.
  apply runs_bind, runs_update. apply runs_bind, runs_this. cbn.
  assert (Hl : forall w4, leaves (mkWorld ((object w3) <| state ::= fun s =>
      s <| swapchain ::= fun w => w <| imageViews ::= resize (imageCount w) VK_NULL_HANDLE |> |> |>)
      (trace w3)) w4 -> leaves w w4).
  { intros w4 Hl4. transitivity w2'; [exact Hl2|]. transitivity w3; [exact Hl3|].
    etrans; [|exact Hl4]. by split. }
  apply runs_bind. apply runs_create_views.
  - intros i Hi%elem_of_seq. cbn. rewrite length_resize, Hi3, length_fill. cbn. rewrite length_resize.
    unfold enumerated in *. lia.
  - intros w4 Hl4. apply Hl in Hl4. apply runs_bind, runs_CR_RETURN_HR.
    assert (HP4 : forall hr w5, leaves w4 w5 -> P hr w5) by (intros hr w5 Hl5; apply HP; by etrans).
    apply runs_quiet; [apply quiet_CreateDepthResources| |done].
    intros hr w5 Hl5. destruct (FAILED hr); [|apply runs_ret]; by apply HP4.
  - intros hr w4 Hl4. by apply HP, Hl.
Qed.

Lemma usage_destroy_swapchain tr g d h a :
  usage tr = Some g -> idle g -> (h = VK_NULL_HANDLE \/ h ∈ swapchains g) -> exists g',
  usage (Event (vkDestroy SwapchainKHR d h) a :: tr) = Some g' /\ same_objects g g' /\
  swapchains g' = swapchains g ∖ (if is_null h then ∅ else {[h]}).
Proof.
  intros Hg Hidle Hh. cbn. rewrite Hg. cbn. unfold check_destroy. destruct (is_null h) eqn:Hn.
  { exists g. split; [done|]. split; [done|]. by rewrite difference_empty_L. }
  destruct Hh as [->|Hh]; [done|].
  rewrite option_guard_True by done. cbn. rewrite option_guard_True by done. cbn.
  eexists. by split.
Qed.

Lemma runs_destroy_swapchain h (Q : unit -> world VulkanContext -> Prop) R w g :
  usage (trace w) = Some g -> idle g -> (h = VK_NULL_HANDLE \/ h ∈ swapchains g) ->
  (forall tr g', usage tr = Some g' -> same_objects g g' ->
     swapchains g' = swapchains g ∖ (if is_null h then ∅ else {[h]}) -> Q tt (mkWorld (object w) tr)) ->
  runs (destroy SwapchainKHR h) Q R w.
Proof.
  intros Hg Hidle Hh HQ. unfold destroy. apply runs_bind, runs_this. cbn. apply runs_call. intros [] _.
  destruct (usage_destroy_swapchain _ _ (device (state (object w))) h tt Hg Hidle Hh) as (g' & Hu & Hs & Hsw).
  by eapply HQ.
Qed.

(** After an attempt to create a swap chain with [old] as the old one. *)
Definition attempted (g : gpu) (c : VulkanContext) (hr : ALResult) (w' : world VulkanContext) : Prop :=
  rechained g c (fun c' g' =>
    suspended (swapchain (state c')) = suspended (swapchain (state c)) /\
    ((swapchains g' = swapchains g /\ hr <> S_OK) \/
     (swapchain_ (swapchain (state c')) <> VK_NULL_HANDLE /\
      swapchain_ (swapchain (state c')) ∉ swapchains g /\
      swapchains g' = {[swapchain_ (swapchain (state c'))]} ∪ swapchains g))) w'.

Lemma attempted_leaves g c hr w w' : leaves w w' -> attempted g c hr w -> attempted g c hr w'.
Proof.
  intros Hl [Hc (g' & Hu & Hs & Hsus & Hsw)]. split; [by rewrite (leaves_core _ _ Hl)|].
  exists g'. pose proof (leaves_chain _ _ Hl) as Hch. injection Hch as Hsc Hss.
  destruct Hl as [_ ->]. by rewrite Hsc, Hss.
Qed.

Lemma runs_create_swapchain caps chosen old w g :
  one_family (object w) = true -> usage (trace w) = Some g -> (old = VK_NULL_HANDLE \/ old ∈ swapchains g) ->
  runs (create_swapchain caps chosen old) (attempted g (object w)) (attempted g (object w)) w.
Proof.
  intros Hone Hg Hold. unfold create_swapchain. apply runs_bind, runs_this. cbn.
  apply runs_bind, runs_bind, runs_this. cbn beta. unfold one_family in Hone. cbn in Hone |- *.
  rewrite Hone. apply runs_ret.
  apply runs_bind, runs_call_out. intros r o Hr. cbn.
  match type of Hr with context [vkCreateSwapchainKHR ?d ?i] => set (info := i) in *; set (dev := d) in * end.
  assert (Hu : usage (Event (vkCreateSwapchainKHR dev info) (r, o) :: trace w) =
    Some (add_created (r, o) (fun h g => g <| swapchains ::= fun cs => {[h]} ∪ cs |>) g)).
  { cbn. rewrite Hg. cbn. by rewrite option_guard_True. }
  case_bool_decide as Hok; cbn.
  2:{ apply runs_ret. split; [by destruct o|].
      eexists. split; [exact Hu|]. destruct r; [done|..]; cbn; (split; [done|]);
        (split; [by destruct o|]); by left. }
  subst r. pose proof (swapchain_new _ _ dev info Hg) as Hnew. unfold new_in, created in *.
  rewrite <- Hr in Hnew. destruct (Hnew eq_refl) as (new & [=] & Hnz & Hfresh). subst o. cbn.
  clear Hnew.
  apply runs_bind, runs_update. cbn.
  apply runs_swapchain_resources with (g := g <| swapchains ::= fun cs => {[new]} ∪ cs |>);
    [exact Hu|cbn; set_solver +|].
  intros hr w' Hl. apply (attempted_leaves _ _ _ _ _ Hl). split; [done|].
  eexists. split; [exact Hu|]. split; [done|]. split; [done|]. by right.
Qed.

(** The extents of a surface are an interval. *)
Definition caps_ordered (caps : VkSurfaceCapabilitiesKHR) : Prop :=
  extent_width (minImageExtent caps) <= extent_width (maxImageExtent caps) /\
  extent_height (minImageExtent caps) <= extent_height (maxImageExtent caps).

(** An enumeration that leaves the frames alone. *)
Lemma runs_enumerate {A} (f : capacity -> vk (enumerated A)) unset
    (Q : _ -> world VulkanContext -> Prop) R w :
  (forall room, neutral (f room) = true) -> (forall room, checked_value (f room)) ->
  (forall a w', leaves w w' -> Q a w') ->
  (forall hr w', leaves w w' -> hr <> S_OK -> R hr w') -> runs (enumerate f unset) Q R w.
Proof.
  intros Hn Hp HQ HR. unfold enumerate. apply runs_bind, runs_VK_CHECK_value; [apply Hp| |].
  2:{ intros. apply HR; [by apply leaves_call|done]. }
  intros first _. cbv zeta. set (w1 := mkWorld _ _).
  assert (Hl : leaves w w1) by by apply leaves_call.
  assert (Hl2 : forall c a, neutral (A:=enumerated A) c = true ->
    leaves w (mkWorld (object w1) (Event c a :: trace w1))).
  { intros c a Hc. etrans; [exact Hl|]. by apply leaves_call. }
  apply runs_bind, runs_VK_CHECK_value; [apply Hp|..].
  - intros second _. apply runs_ret, HQ, Hl2, Hn.
  - intros r hr _ Hhr. apply HR; [apply Hl2, Hn|done].
Qed.

Lemma runs_QuerySurfaceCapabilities (Q : _ -> world VulkanContext -> Prop) R w :
  (forall caps formats modes w', leaves w w' -> caps_ordered caps -> Q (caps, formats, modes) w') ->
  (forall hr w', leaves w w' -> hr <> S_OK -> R hr w') ->
  runs QuerySurfaceCapabilities Q R w.
Proof.
  intros HQ HR. unfold QuerySurfaceCapabilities. apply runs_bind, runs_this. cbn [id].
  apply runs_bind, runs_VK_CHECK_value; [done| |].
  2:{ intros r hr _ Hhr. apply HR; [by apply leaves_call|done]. }
  intros caps Hr. set (w1 := mkWorld _ _). assert (Hl : leaves w w1) by by apply leaves_call.
  assert (Hcaps : caps_ordered caps).
  { change caps with (VK_SUCCESS, caps).2. rewrite Hr. apply extents. }
  apply runs_bind, runs_enumerate; [done|done| |by intros ?? ?; apply HR; etrans].
  intros formats w2 Hl2. apply runs_bind, runs_enumerate; [done|done|..].
  - intros modes w3 Hl3. apply runs_ret, HQ; [|done]. etrans; [exact Hl|]. by etrans.
  - intros hr w3 Hl3. apply HR. etrans; [exact Hl|]. by etrans.
Qed.

Lemma runs_SelectExtent caps (Q : _ -> world VulkanContext -> Prop) R w :
  caps_ordered caps -> (forall e, Q e w) -> runs (SelectExtent caps) Q R w.
Proof.
  intros [Hw Hh] HQ. unfold SelectExtent, clamp. apply Z.ltb_ge in Hw, Hh. rewrite Hw, Hh.
  destruct (negb _); [by apply runs_ret|]. apply runs_bind, runs_this. cbn.
  do 2 apply runs_bind, runs_ret. by apply runs_ret.
Qed.

Lemma runs_suspend chosen old (Q : ALResult -> world VulkanContext -> Prop) R w g :
  usage (trace w) = Some g -> idle g -> (old = VK_NULL_HANDLE \/ old ∈ swapchains g) ->
  (forall w', rechained g (object w) (fun c' g' =>
     suspended (swapchain (state c')) = true /\ swapchain_ (swapchain (state c')) = VK_NULL_HANDLE /\
     swapchains g' = swapchains g ∖ (if is_null old then ∅ else {[old]})) w' -> Q S_OK w') ->
  runs (suspend chosen old) Q R w.
Proof.
  intros Hg Hidle Hold HQ. unfold suspend. apply runs_bind, runs_update. cbn. apply runs_bind.
  unfold unless_null. destruct (is_null old) eqn:Hn.
  - apply runs_ret, runs_bind, runs_update, runs_ret, HQ. split; [done|].
    exists g. split; [done|]. split; [done|]. by rewrite difference_empty_L.
  - eapply runs_destroy_swapchain; [exact Hg|done|done|]. intros tr g' Hu Hs Hsw. cbn.
    apply runs_bind, runs_update, runs_ret, HQ. split; [done|].
    exists g'. rewrite Hn in Hsw. by split.
Qed.

(** After [CreateSwapchainInternal] with [old]: suspended without a swap chain; or
    failed before there was a new one; or with a new one. *)
Definition created_from (old : VkHandle) (g : gpu) (hr : ALResult) (c' : VulkanContext) (g' : gpu) : Prop :=
  let w := swapchain (state c') in
  (hr = S_OK /\ suspended w = true /\ swapchain_ w = VK_NULL_HANDLE /\
   swapchains g' = swapchains g ∖ (if is_null old then ∅ else {[old]})) \/
  (hr <> S_OK /\ swapchains g' = swapchains g) \/
  (suspended w = false /\ swapchain_ w <> VK_NULL_HANDLE /\ swapchain_ w ∉ swapchains g /\
   swapchains g' = {[swapchain_ w]} ∪ swapchains g).

Lemma runs_CreateSwapchainInternal old w g :
  one_family (object w) = true -> usage (trace w) = Some g -> idle g -> (old = VK_NULL_HANDLE \/ old ∈ swapchains g) ->
  runs (CreateSwapchainInternal old)
    (fun hr => rechained g (object w) (created_from old g hr)) (fun _ _ => False) w.
Proof.
  intros Hone Hg Hidle Hold. unfold CreateSwapchainInternal. apply runs_function.
  apply runs_bind, runs_QuerySurfaceCapabilities.
  2:{ intros hr w1 Hl Hhr. split; [by apply leaves_core|]. exists g. destruct Hl as [_ ->].
      split; [done|]. split; [done|]. right; left. done. }
  intros caps formats modes w1 Hl Hcaps.
  apply runs_bind, runs_update, runs_bind, runs_update. cbn. set (w2 := mkWorld _ _).
  assert (Hl2 : leaves w w2) by (etrans; [exact Hl|by split]).
  apply runs_bind, runs_SelectExtent; [done|]. intros chosen.
  pose proof (leaves_core _ _ Hl2) as Hcore. assert (Hg2 : usage (trace w2) = Some g) by by destruct Hl2 as [_ ->].
  destruct (_ || _).
  - eapply runs_suspend; [done..|]. intros w3 [Hc (g' & Hu & Hs & Hsus & Hsc & Hsw)].
    split; [by rewrite Hc|]. exists g'. split; [done|]. split; [done|]. by left.
  - apply runs_bind, runs_update. set (w3 := mkWorld _ _).
    assert (Hatt : forall hr w', attempted g (object w3) hr w' ->
      rechained g (object w) (created_from old g hr) w').
    { intros hr w' [Hc (g' & Hu & Hs & Hsus & Hsw)]. split; [by rewrite Hc|].
      exists g'. split; [done|]. split; [done|]. right.
      destruct Hsw as [[Hsw Hhr]|Hsw]; [by left|by right]. }
    eapply runs_mono; [apply runs_create_swapchain; [|done..]|exact Hatt|exact Hatt].
    by eapply core_one_family.
Qed.

(** What is left after [old], the sole one, is destroyed. *)
Lemma sole_destroyed old g : sole old g -> swapchains g ∖ (if is_null old then ∅ else {[old]}) = ∅.
Proof. intros ->. destruct (is_null old); set_solver. Qed.

Lemma sole_alive old g : sole old g -> old = VK_NULL_HANDLE \/ old ∈ swapchains g.
Proof.
  unfold sole, is_null. intros ->. destruct (Z.eqb_spec old VK_NULL_HANDLE); [by left|set_solver].
Qed.

Lemma sole_replaced old new g :
  sole old g -> new ∉ swapchains g ->
  ({[new]} ∪ swapchains g) ∖ (if is_null old then ∅ else {[old]}) = {[new]} :> gset VkHandle.
Proof. intros ->. destruct (is_null old); set_solver. Qed.

(** The functions before the new swap chain: after [WaitIdle] nothing is pending. *)
Lemma runs_waited {A} (m : Code VulkanContext A) Q R w g :
  usage (trace w) = Some g -> device (state (object w)) <> VK_NULL_HANDLE ->
  (forall w', usage (trace w') = Some (complete_all g) -> sync_of (object w') = sync_of (object w) ->
     runs m Q R w') ->
  runs (WaitIdle;; m) Q R w.
Proof.
  intros Hg Hd Hm. apply runs_bind, runs_WaitIdle; [done|]. intros tr Htr. apply Hm; [|done].
  cbn. by rewrite Htr, Hg.
Qed.

Lemma rechained_mono g c (P P' : VulkanContext -> gpu -> Prop) w :
  rechained g c P w -> (forall c' g', P c' g' -> P' c' g') -> rechained g c P' w.
Proof. intros [Hc (g' & Hu & Hs & HP)] HPP. split; [done|]. exists g'. auto. Qed.

(** The end of [RecreateSwapchain], with the old swap chain. *)
Lemma runs_retire_swapchain hr old w0 w g :
  idle g -> sole old g -> rechained g w0 (created_from old g hr) w ->
  runs (current ← get (fun s => swapchain_ (swapchain s));
    if FAILED hr then
      (if negb (current =? old) then destroy SwapchainKHR old else mret tt);;
      put_swapchain (fun w => w <| swapchain_ := VK_NULL_HANDLE |>);;
      mret hr
    else
      (if negb (is_null current) && negb (current =? old)
       then destroy SwapchainKHR old else mret tt);;
      mret S_OK)
    (fun hr => rechained g w0 (fun c' g' => hr = S_OK -> chain c' g')) (fun _ _ => False) w.
Proof.
  intros Hidle Hsole [Hc (g' & Hu & Hs & Hfrom)].
  assert (Hidle' : idle g') by by eapply same_objects_idle.
  assert (Hold : suspended (swapchain (state (object w))) = false \/ hr <> S_OK ->
    old = VK_NULL_HANDLE \/ old ∈ swapchains g').
  { intros Hcase. destruct (sole_alive _ _ Hsole) as [->|Hin]; [by left|]. right.
    destruct Hfrom as [(-> & Hsus & _)|[[_ ->]|(_ & _ & _ & ->)]]; [|done|set_solver].
    rewrite Hsus in Hcase. by destruct Hcase. }
  apply runs_bind, runs_this. cbn. destruct (decide (hr = S_OK)) as [->|Hhr]; cbn [FAILED SUCCEEDED negb].
  - destruct Hfrom as [(_ & Hsus & Hsc & Hsw)|[[? _]|(Hsus & Hnz & Hnew & Hsw)]]; [|done|].
    + rewrite Hsc. cbn. apply runs_bind, runs_ret, runs_ret. split; [done|].
      exists g'. split; [done|]. split; [done|]. intros _. unfold chain. rewrite Hsus, Hsc, Hsw.
      by rewrite (sole_destroyed _ _ Hsole).
    + set (new := swapchain_ _) in *. assert (Hne : new <> old).
      { intros ->. destruct (sole_alive _ _ Hsole); [|done]. done. }
      unfold is_null. rewrite (proj2 (Z.eqb_neq _ _) Hnz), (proj2 (Z.eqb_neq _ _) Hne). cbn.
      apply runs_bind. eapply runs_destroy_swapchain; [exact Hu|done|by apply Hold; left|].
      intros tr g2 Hu2 Hs2 Hsw2. apply runs_ret. split; [done|]. exists g2. split; [done|].
      split; [by etrans|]. intros _. unfold chain. cbn. rewrite Hsus. split; [done|].
      rewrite Hsw2, Hsw. by apply sole_replaced.
  - replace (FAILED hr) with true by by destruct hr.
    assert (Hend : forall tr g2, usage tr = Some g2 -> same_objects g g2 ->
      runs (put_swapchain (fun w => w <| swapchain_ := VK_NULL_HANDLE |>);; mret hr)
        (fun hr => rechained g w0 (fun c' g' => hr = S_OK -> chain c' g')) (fun _ _ => False)
        (mkWorld (object w) tr)).
    { intros tr g2 Hu2 Hs2. apply runs_bind, runs_update, runs_ret. split; [done|].
      exists g2. split; [done|]. by split. }
    destruct (negb _); apply runs_bind; [|apply runs_ret; by destruct w; eapply Hend].
    eapply runs_destroy_swapchain; [exact Hu|done|by apply Hold; right|].
    intros tr g2 Hu2 Hs2 _. eapply Hend; [exact Hu2|by etrans].
Qed.

Lemma runs_RecreateSwapchain w g :
  one_family (object w) = true -> usage (trace w) = Some g -> sole (swapchain_ (swapchain (state (object w)))) g ->
  device (state (object w)) <> VK_NULL_HANDLE ->
  runs RecreateSwapchain
    (fun hr => rechained (complete_all g) (object w) (fun c' g' => hr = S_OK -> chain c' g'))
    (fun _ _ => False) w.
Proof.
  intros Hone Hg Hsole Hd. unfold RecreateSwapchain. eapply runs_waited; [done..|]. intros w1 Hg1 Hs1.
  apply runs_bind, runs_this. cbn beta.
  apply runs_bind, runs_quiet_steady; [apply quiet_DestroyDepthResources|apply steady_DestroyDepthResources|].
  intros _ w2 Hl2. apply runs_bind, runs_quiet_steady; [apply quiet_destroy_views|apply steady_destroy_views|].
  intros _ w3 Hl3. assert (Hl : leaves w1 w3) by by etrans.
  assert (Hg3 : usage (trace w3) = Some (complete_all g)) by by destruct Hl as [_ ->].
  assert (Hold : swapchain_ (swapchain (state (object w1))) = swapchain_ (swapchain (state (object w)))).
  { by injection Hs1. }
  assert (Hcore : core_of (object w3) = core_of (object w)).
  { rewrite (leaves_core _ _ Hl). unfold core_of. injection Hs1. congruence. }
  assert (Hsole1 : sole (swapchain_ (swapchain (state (object w1)))) (complete_all g)) by by rewrite Hold.
  apply runs_bind. eapply runs_mono.
  - apply runs_CreateSwapchainInternal; [|exact Hg3|apply complete_all_idle|by apply sole_alive].
    by eapply core_one_family.
  - cbn beta. intros hr w4 [Hc4 Hu4]. apply runs_retire_swapchain; [apply complete_all_idle|done|].
    split; [congruence|done].
  - done.
Qed.

(** What [BeginFrame] needs of [RecreateSwapchain] and of [RecreateSurface]. *)
Record renewed (g : gpu) (c : VulkanContext) (hr : ALResult) (w : world VulkanContext) : Prop := mk_renewed
  { rn_core : core_of (object w) = core_of c;
    rn_usage : exists g', usage (trace w) = Some g' /\
      (hr = S_OK -> same_objects (complete_all g) g' /\ chain (object w) g') }.

Lemma runs_RecreateSwapchain_renewed w g :
  one_family (object w) = true -> usage (trace w) = Some g -> sole (swapchain_ (swapchain (state (object w)))) g ->
  device (state (object w)) <> VK_NULL_HANDLE ->
  runs RecreateSwapchain (renewed g (object w)) (fun _ _ => False) w.
Proof.
  intros Hone Hg Hsole Hd. eapply runs_mono; [by apply runs_RecreateSwapchain| |done].
  cbn beta. intros hr w' [Hc (g' & Hu & Hs & Hch)]. split; [done|]. exists g'. auto.
Qed.

Lemma complete_all_twice g : complete_all (complete_all g) = complete_all g.
Proof.
  unfold complete_all. cbn. rewrite <- !map_fmap_compose. f_equal; apply map_fmap_ext.
  - intros _ s _. by destruct s.
  - intros _ [p s] _. by destruct s.
Qed.

Lemma complete_all_same g g' : same_objects g g' -> same_objects (complete_all g) (complete_all g').
Proof. intros (Hf & Hs & Hp & Hb). unfold same_objects. cbn. by rewrite Hf, Hs, Hp, Hb. Qed.

Lemma runs_DestroySwapchain (Q : unit -> world VulkanContext -> Prop) R w g :
  usage (trace w) = Some g -> idle g -> sole (swapchain_ (swapchain (state (object w)))) g ->
  (forall w', rechained g (object w) (fun c' g' =>
     swapchain_ (swapchain (state c')) = VK_NULL_HANDLE /\ swapchains g' = ∅) w' -> Q tt w') ->
  runs DestroySwapchain Q R w.
Proof.
  intros Hg Hidle Hsole HQ. unfold DestroySwapchain.
  apply runs_bind, runs_quiet_steady; [apply quiet_DestroyDepthResources|apply steady_DestroyDepthResources|].
  intros _ w1 Hl1. apply runs_bind, runs_quiet_steady; [apply quiet_destroy_views|apply steady_destroy_views|].
  intros _ w2 Hl2. assert (Hl : leaves w w2) by by etrans.
  pose proof (leaves_chain _ _ Hl) as Hch. injection Hch as Hsc _.
  apply runs_bind, runs_this. cbn beta. unfold unless_null.
  destruct (is_null (swapchain_ (swapchain (state (object w2))))) eqn:Hn.
  - apply runs_ret, HQ. split; [by apply leaves_core|]. exists g. destruct Hl as [_ ->].
    split; [done|]. split; [done|]. split; [by apply Z.eqb_eq|].
    unfold sole in Hsole. by rewrite <- Hsc, Hn in Hsole.
  - apply runs_bind. eapply runs_destroy_swapchain; [by destruct Hl as [_ ->]|done| |].
    + rewrite Hsc. by apply sole_alive.
    + intros tr g' Hu Hs Hsw. apply runs_update, HQ. split; [by apply leaves_core in Hl|].
      exists g'. split; [done|]. split; [done|]. split; [done|].
      rewrite Hsw, Hsc. by apply sole_destroyed.
Qed.

Lemma runs_DestroySurface (Q : unit -> world VulkanContext -> Prop) R w g :
  usage (trace w) = Some g -> swapchains g = ∅ -> (forall w', leaves w w' -> Q tt w') ->
  runs DestroySurface Q R w.
Proof.
  intros Hg Hempty HQ. unfold DestroySurface. apply runs_bind, runs_this. cbn beta.
  unfold unless_null. destruct (is_null _) eqn:Hn; [by apply runs_ret, HQ|].
  apply runs_bind, runs_this. cbn beta. apply runs_bind, runs_call. intros a _.
  apply runs_update, HQ. split; [done|]. cbn. rewrite Hg. cbn. unfold check_destroy. rewrite Hn.
  by rewrite option_guard_True.
Qed.

Lemma runs_RecreateSurface w g :
  families_present -> one_family (object w) = true ->
  usage (trace w) = Some g -> sole (swapchain_ (swapchain (state (object w)))) g ->
  device (state (object w)) <> VK_NULL_HANDLE ->
  runs RecreateSurface (renewed g (object w)) (fun _ _ => False) w.
Proof.
  intros Hp Hone Hg Hsole Hd. unfold RecreateSurface. apply runs_function.
  apply runs_bind, runs_this. cbn beta. destruct (windowless _ || _).
  { apply runs_ret. split; [done|]. by exists g. }
  apply runs_bind, runs_update. eapply runs_waited; [exact Hg|exact Hd|]. intros w1 Hg1 Hs1.
  assert (Hc1 : core_of (object w1) = core_of (object w)) by (unfold core_of; by injection Hs1 as -> -> _ _ _ -> -> ->).
  apply runs_bind. eapply runs_DestroySwapchain; [exact Hg1|apply complete_all_idle| |].
  { unfold sole. replace (swapchain_ _) with (swapchain_ (swapchain (state (object w)))) by by injection Hs1.
    done. }
  intros w2 [Hc2 (g2 & Hu2 & Hs2 & Hn2 & He2)]. apply runs_bind. eapply runs_DestroySurface; [done..|].
  intros w3 Hl3.
  assert (Hfail : forall hr w', leaves w3 w' -> hr <> S_OK -> renewed g (object w) hr w').
  { intros hr w' Hl Hhr. assert (Hl' : leaves w2 w') by by etrans. split.
    - by rewrite (leaves_core _ _ Hl'), Hc2.
    - exists g2. destruct Hl' as [_ ->]. by split. }
  apply runs_bind, runs_CR_quiet; [apply quiet_CreateSurface|unfold CreateSurface, out, call_out; steady_code| |exact Hfail].
  intros w4 Hl4. assert (Hone4 : one_family (object w4) = true).
  { assert (Hl : leaves w2 w4) by by etrans. eapply core_one_family; [|exact Hone].
    by rewrite (leaves_core _ _ Hl), Hc2. }
  apply runs_bind, runs_CR_leaves; [by apply runs_PickPhysicalDevice| |].
  2:{ intros hr w5 Hl5. apply Hfail. by etrans. }
  intros w5 Hl5. assert (Hl : leaves w2 w5) by (etrans; [exact Hl3|]; by etrans).
  assert (Hcore : core_of (object w5) = core_of (object w)) by (by rewrite (leaves_core _ _ Hl), Hc2).
  pose proof (leaves_chain _ _ Hl) as Hch. injection Hch as Hsc5 _.
  apply runs_bind, runs_CR_RETURN_HR. eapply runs_mono.
  - apply (runs_RecreateSwapchain_renewed _ g2); [|by destruct Hl as [_ ->]| |].
    + by eapply core_one_family.
    + unfold sole. by rewrite Hsc5, Hn2.
    + injection Hcore as _ _ -> _ _. done.
  - cbn beta. intros hr w6 [Hc6 (g6 & Hu6 & Hok)].
    assert (Hnew : renewed g (object w) hr w6).
    { split; [by rewrite Hc6|]. exists g6. split; [done|]. intros Hhr. destruct (Hok Hhr) as [Hs6 Hch6].
      split; [|done]. rewrite <- complete_all_twice. etrans; [|exact Hs6]. by apply complete_all_same. }
    destruct (decide (hr = S_OK)) as [->|Hhr]; [by apply runs_ret|]. by destruct hr.
  - done.
Qed.
End swapchain.
