(* ===== verification/VulkanFrames.v ===== *)
(** * The frames

    What [BeginFrame], [EndFrame] and [Present] promise: their calls respect the
    rules of [VulkanUsage] for any driver that obeys its laws, each leaves the
    objects of the frame as the next one needs them, and whole sessions, from the
    creation of the device to its destruction, leave nothing behind. *)

From stdpp Require Import base numbers list option strings gmap fin_maps sets.
From S2P Require Import Prelude RenderGraph VulkanFormats Vulkan VulkanContext VulkanUsage VulkanQuiet VulkanFrameInv VulkanSwapchain.

#[local] Open Scope Z_scope.

(** ** Deferred destruction *)

(** The calls that destroy the objects of an entry. *)
Definition unless_null_calls (h : VkHandle) (c : vk unit) : list (vk unit) :=
  if is_null h then [] else [c].

Definition destroy_calls (e : VulkanDeferredDestroy) : list (vk unit) :=
  let destroy_it kind h := unless_null_calls h (vkDestroy kind (dd_device e) h) in
  destroy_it ImageView (dd_imageView e) ++
  unless_null_calls (dd_image e) (vmaDestroyImage (dd_allocator e) (dd_image e) (dd_allocation e)) ++
  unless_null_calls (dd_buffer e) (vmaDestroyBuffer (dd_allocator e) (dd_buffer e) (dd_allocation e)) ++
  destroy_it DescriptorSetLayout (dd_descriptorSetLayout e) ++
  destroy_it PipelineLayout (dd_pipelineLayout e) ++ destroy_it Pipeline (dd_pipeline e) ++
  destroy_it Sampler (dd_sampler e) ++ destroy_it QueryPool (dd_queryPool e) ++
  destroy_it SwapchainKHR (dd_swapchain e) ++ destroy_it Semaphore (dd_semaphore e) ++
  destroy_it Fence (dd_fence e) ++ destroy_it CommandPool (dd_commandPool e).

(** A trace after further calls, in their order. *)
Definition called (cs : list (vk unit)) (tr : list event) : list event :=
  foldl (fun tr c => Event c tt :: tr) tr cs.

#[local] Arguments called cs tr : simpl never.
#[local] Arguments destroy_calls e : simpl never.

Lemma called_app cs cs' tr : called (cs ++ cs') tr = called cs' (called cs tr).
Proof. apply foldl_app. Qed.

Section deferred.
Context `{Driver}.

Lemma unless_null_call (h : VkHandle) (c : vk unit) (w : world VulkanContext) :
  unless_null h (call c) w = (Next tt, mkWorld (object w) (called (unless_null_calls h c) (trace w))).
Proof.
  unfold unless_null, unless_null_calls. destruct (is_null h); [by destruct w|].
  cbn. unfold call. by destruct (answer (trace w) c).
Qed.

Lemma bind_next {S A B} (m : Code S A) (k : A -> Code S B) w a w' :
  m w = (Next a, w') -> (m ≫= k) w = k a w'.
Proof. unfold mbind, Code_bind. by intros ->. Qed.

Lemma bind_called (m : Code VulkanContext unit) k cs cs' (w : world VulkanContext) :
  m w = (Next tt, mkWorld (object w) (called cs (trace w))) ->
  (forall w, k w = (Next tt, mkWorld (object w) (called cs' (trace w)))) ->
  (m;; k) w = (Next tt, mkWorld (object w) (called (cs ++ cs') (trace w))).
Proof. intros Hm Hk. rewrite (bind_next _ _ _ _ _ Hm), Hk. cbn. by rewrite called_app. Qed.

Lemma destroy_entry_calls e w :
  destroy_entry e w = (Next tt, mkWorld (object w) (called (destroy_calls e) (trace w))).
Proof.
  unfold destroy_entry, destroy_calls. cbv zeta. revert w.
  do 11 (intros w; apply bind_called; [apply unless_null_call|clear w]).
  intros w. apply unless_null_call.
Qed.

(** The entries that are due, and those that are not. *)
Definition due (completedValue : Z) (e : VulkanDeferredDestroy) : Prop :=
  dd_timelineValue e <= completedValue.
#[export] Instance due_dec v e : Decision (due v e).
Proof. unfold due. apply _. Defined.

Lemma drain_entries_spec v es w :
  drain_entries v es w = (Next (filter (fun e => ~ due v e) es),
    mkWorld (object w) (called (filter (due v) es ≫= destroy_calls) (trace w))).
Proof.
  revert w. induction es as [|e es IH]; intros w; [by destruct w|].
  cbn [drain_entries]. destruct (Z.ltb_spec v (dd_timelineValue e)) as [Hlt|Hle].
  - rewrite filter_cons_True, filter_cons_False by (unfold due; lia).
    by rewrite (bind_next _ _ _ _ _ (IH _)).
  - rewrite filter_cons_False, filter_cons_True by (unfold due; lia).
    rewrite (bind_next _ _ _ _ _ (destroy_entry_calls _ _)), IH. cbn. by rewrite called_app.
Qed.

Lemma DrainDeferred_eq v w :
  DrainDeferred v w = (Next tt, mkWorld ((object w) <| m_deferred ::= filter (fun e => ~ due v e) |>)
    (called (filter (due v) (m_deferred (object w)) ≫= destroy_calls) (trace w))).
Proof.
  unfold DrainDeferred. erewrite bind_next by reflexivity.
  by rewrite (bind_next _ _ _ _ _ (drain_entries_spec _ _ _)).
Qed.

(** [DrainDeferred] destroys the objects of the entries whose value the timeline
    has reached, each entry whole and in the order in which they were retired,
    keeps all the others, and does nothing else. *)
Theorem DrainDeferred_spec v w :
  DrainDeferred v w = (Next tt, mkWorld ((object w) <| m_deferred ::= filter (fun e => ~ due v e) |>)
    (called (filter (due v) (m_deferred (object w)) ≫= destroy_calls) (trace w))).
Proof. apply DrainDeferred_eq. Qed.

End deferred.

(** Entries without synchronization objects do not concern the rules. *)
Lemma called_neutral cs tr : Forall (fun c => neutral c = true) cs -> usage (called cs tr) = usage tr.
Proof.
  unfold called. revert tr. induction cs as [|c cs IH]; intros tr; [done|].
  intros [Hc Hcs]%Forall_cons. cbn [foldl]. rewrite IH by done. by apply neutral_usage.
Qed.

Lemma resource_only_neutral e : resource_only e -> Forall (fun c => neutral c = true) (destroy_calls e).
Proof.
  intros (Hsc & Hs & Hf & Hp). unfold destroy_calls. rewrite Hsc, Hs, Hf, Hp. cbn. rewrite app_nil_r.
  assert (Hone : forall h c, neutral c = true -> Forall (fun c => neutral c = true) (unless_null_calls h c)).
  { intros h c Hc. unfold unless_null_calls. by destruct (is_null h); auto. }
  repeat (apply Forall_app; split); by apply Hone.
Qed.

Lemma drained_neutral P `{forall e, Decision (P e)} es tr :
  Forall resource_only es -> usage (called (filter P es ≫= destroy_calls) tr) = usage tr.
Proof.
  intros Hes. apply called_neutral, Forall_bind, Forall_forall. intros e [_ He]%list_elem_of_filter.
  rewrite Forall_forall in Hes. by apply resource_only_neutral, Hes.
Qed.

Section frames.
Context `{DriverLaws} (wait_succeeds : forall tr d, answer tr (vkDeviceWaitIdle d) = VK_SUCCESS).
Context (acquire_optimal : forall tr d sc s, (answer tr (vkAcquireNextImageKHR d sc s)).1 <> VK_SUBOPTIMAL_KHR).
Context (presentable : families_present).

(** ** The state a function of a frame runs in

    [f] is the current frame, [f'] the other, [g] the state of the objects. *)
Record between (f f' : VulkanFrameContext) (g : gpu) (w : world VulkanContext) : Prop := mk_between
  { bt_device : device (state (object w)) <> VK_NULL_HANDLE;
    bt_family : one_family (object w) = true;
    bt_deferred : Forall resource_only (m_deferred (object w));
    bt_frames : frames_are (object w) f f';
    bt_usage : usage (trace w) = Some g;
    bt_owned : owned g f f';
    bt_other : at_rest g f';
    bt_chain : chain (object w) g }.

(** It has an image to draw to. *)
Definition provided (f : VulkanFrameContext) (c : VulkanContext) (g : gpu) : Prop :=
  suspended (swapchain (state c)) = false /\ image_held c g /\
  exists b, b <> InFlight /\ frame_state g f Signaled b true false.

Lemma invariant_between current w :
  invariant current w <-> exists f f' g, between f f' g w /\ current (object w) g f.
Proof.
  split.
  - intros [Hd Hone Hm (f & f' & g & Hu & Hf & Ho & Hr & Hc & Hcur)]. exists f, f', g. by split.
  - intros (f & f' & g & [Hd Hone Hm Hf Hu Ho Hr Hc] & Hcur). split; [done..|]. by exists f, f', g.
Qed.

Lemma ready_at_rest f g : ready f g -> at_rest g f.
Proof. intros (b & Hb & Hf). exists Signaled, b. by split; [constructor|]. Qed.

(** Only the objects of [f] change. *)
Lemma between_step f f' g g' w c tr :
  between f f' g w -> frame_step g g' f f' -> usage tr = Some g' ->
  core_of c = core_of (object w) -> chain_of c = chain_of (object w) ->
  between f f' g' (mkWorld c tr).
Proof.
  intros [Hd Hone Hm Hf Hu Ho Hr Hch] Hs Hu' Hcore Hchain.
  pose proof (core_one_family _ _ Hcore Hone).
  injection Hcore as Hfr Hix Hdv Hdf _. injection Hchain as Hsc Hsus. split; cbn.
  - by rewrite Hdv.
  - done.
  - by rewrite Hdf.
  - unfold frames_are. by rewrite Hfr, Hix.
  - done.
  - by apply Hs.
  - by eapply frame_step_at_rest.
  - unfold chain. rewrite Hsus, Hsc, (step_swapchains _ _ _ _ Hs). exact Hch.
Qed.

Lemma between_leaves f f' g w w' : between f f' g w -> leaves w w' -> between f f' g w'.
Proof.
  intros Hb Hl. destruct w' as [c' tr']. eapply between_step; [exact Hb|apply frame_step_refl|..].
  - destruct Hl as [_ Hu]. cbn in Hu. by rewrite Hu, (bt_usage _ _ _ _ Hb).
  - apply (leaves_core _ _ Hl).
  - apply (leaves_chain _ _ Hl).
Qed.

(** What survives the completion of all submissions. *)
Definition settles (P : gpu -> Prop) : Prop :=
  forall g g', same_objects (complete_all g) g' -> P g -> P g'.

Lemma ready_settles f : settles (ready f).
Proof.
  intros g g' Hs (b & Hb & Hf). apply complete_all_frame_state in Hf.
  eexists. split; [|by eapply same_objects_frame_state]. by destruct b.
Qed.

Lemma at_rest_settles f : settles (fun g => at_rest g f).
Proof. intros g g' Hs Hf. by eapply same_objects_at_rest, complete_all_at_rest. Qed.

(** A swap chain or surface made anew. *)
Lemma between_renewed (P : gpu -> Prop) f f' g w w' :
  settles P -> between f f' g w -> P g -> renewed g (object w) S_OK w' ->
  exists g', between f f' g' w' /\ P g'.
Proof.
  intros HP [Hd Hone Hm Hf Hu Ho Hr Hch] Hg [Hcore (g' & Hu' & Hok)].
  destruct (Hok eq_refl) as [Hs Hch']. pose proof (core_one_family _ _ Hcore Hone).
  injection Hcore as Hfr Hix Hdv Hdf _. exists g'. split; [split|by eapply HP]; cbn.
  - by rewrite Hdv.
  - done.
  - by rewrite Hdf.
  - unfold frames_are. by rewrite Hfr, Hix.
  - done.
  - by eapply same_objects_owned, complete_all_owned.
  - by eapply at_rest_settles.
  - done.
Qed.

Lemma runs_current_frame (Q : _ -> world VulkanContext -> Prop) R f f' g w :
  between f f' g w -> Q f w -> runs current_frame Q R w.
Proof.
  intros Hb HQ. unfold current_frame, frame_at. apply runs_bind, runs_this. cbn beta.
  apply runs_bind, runs_this. cbn beta.
  destruct (bt_frames _ _ _ _ Hb) as [[-> ->]|[-> ->]]; by apply runs_ret.
Qed.

(** What [RecreateSwapchain] and [RecreateSurface] have in common. *)
Definition recreates (m : Code VulkanContext ALResult) : Prop := forall w g,
  one_family (object w) = true -> usage (trace w) = Some g -> sole (swapchain_ (swapchain (state (object w)))) g ->
  device (state (object w)) <> VK_NULL_HANDLE -> runs m (renewed g (object w)) (fun _ _ => False) w.

Lemma runs_recreate (P : gpu -> Prop) m (Q : unit -> world VulkanContext -> Prop)
    (R : ALResult -> world VulkanContext -> Prop) f f' g w :
  settles P -> recreates m -> between f f' g w -> P g ->
  (forall w' g', between f f' g' w' -> P g' -> Q tt w') ->
  (forall hr w', valid (trace w') -> hr <> S_OK -> R hr w') ->
  runs (CR_RETURN_HR m) Q R w.
Proof.
  intros HP Hm Hb Hr HQ HR. apply runs_CR_RETURN_HR.
  eapply runs_mono; [apply (Hm w g); [apply Hb|apply Hb|apply chain_sole, Hb|apply Hb]| |done].
  cbn beta. intros hr w' Hn. destruct (decide (hr = S_OK)) as [->|Hhr].
  - cbn. destruct (between_renewed _ _ _ _ _ _ HP Hb Hr Hn) as (g' & Hb' & Hr'). by eapply HQ.
  - replace (FAILED hr) with true by by destruct hr. apply HR; [|done].
    destruct Hn as [_ (g' & Hu' & _)]. by exists g'.
Qed.

(** ** [BeginFrame] *)

Lemma runs_DrainDeferred v (Q : unit -> world VulkanContext -> Prop) R f f' g w :
  between f f' g w ->
  (forall w', state (object w') = state (object w) -> between f f' g w' -> Q tt w') ->
  runs (DrainDeferred v) Q R w.
Proof.
  intros [Hd Hone Hm Hf Hu Ho Hr Hch] HQ. unfold runs. rewrite DrainDeferred_eq. apply HQ; [done|].
  split; cbn; try done.
  - apply Forall_forall. intros e [_ He]%list_elem_of_filter. rewrite Forall_forall in Hm. by apply Hm.
  - by rewrite drained_neutral.
Qed.

Lemma runs_begin_recording (Q : unit -> world VulkanContext -> Prop) (R : ALResult -> world VulkanContext -> Prop)
    f f' g w x b a e :
  between f f' g w -> frame_state g f x b a e -> b <> InFlight ->
  (forall tr g', between f f' g' (mkWorld (object w) tr) -> frame_state g' f x Recording a e ->
     acquired g' = acquired g -> Q tt (mkWorld (object w) tr)) ->
  (forall hr w', valid (trace w') -> hr <> S_OK -> R hr w') ->
  runs (begin_recording f) Q R w.
Proof.
  intros Hb Hfs Hne HQ HR. unfold begin_recording. apply runs_bind, runs_this. cbn beta.
  set (d := device _). pose proof Hb as [_ _ _ _ Hu Ho Hr _].
  pose proof (fun r => usage_reset_pool _ g f f' Hu Ho d r x b a e Hr Hfs Hne) as Hreset.
  apply runs_bind, runs_VK_CHECK_call; [done|intros _|].
  2:{ intros r hr _ _ Hhr. destruct (Hreset r) as (g' & Hu' & _). apply HR; [by exists g'|done]. }
  destruct (Hreset VK_SUCCESS) as (g1 & Hu1 & Hs1 & Ha1 & b1 & _ & Hfs1 & Hinit).
  rewrite (Hinit eq_refl) in Hfs1.
  assert (Hb1 : between f f' g1 (mkWorld (object w) (Event (vkResetCommandPool d (commandPool f)) VK_SUCCESS :: trace w))).
  { eapply between_step; [exact Hb|exact Hs1|done..]. }
  pose proof (fun r => usage_begin_buffer _ g1 f f' (bt_usage _ _ _ _ Hb1) r x a e Hfs1) as Hbegin.
  apply runs_VK_CHECK_call; [done|intros _|].
  2:{ intros r hr _ _ Hhr. destruct (Hbegin r) as (g' & Hu' & _). apply HR; [by exists g'|done]. }
  destruct (Hbegin VK_SUCCESS) as (g2 & Hu2 & Hs2 & Ha2 & Hfs2). cbn in Hfs2.
  eapply HQ; [|exact Hfs2|congruence]. eapply between_step; [exact Hb1|exact Hs2|done..].
Qed.

(** What a function of the frame leaves: valid usage, and [current] when it
    succeeded. *)
Definition leaving (f f' : VulkanFrameContext) (current : VulkanContext -> gpu -> VulkanFrameContext -> Prop)
    (hr : ALResult) (w : world VulkanContext) : Prop :=
  valid (trace w) /\ (hr = S_OK -> exists g, between f f' g w /\ current (object w) g f).

Lemma leaving_failed f f' current hr w : valid (trace w) -> hr <> S_OK -> leaving f f' current hr w.
Proof. by split. Qed.

Lemma leaving_between f f' g (current : VulkanContext -> gpu -> VulkanFrameContext -> Prop) hr w :
  between f f' g w -> current (object w) g f -> leaving f f' current hr w.
Proof. intros Hb Hc. split; [exists g; apply Hb|]. intros _. by exists g. Qed.

Lemma runs_RecreateSurface_recreates : recreates RecreateSurface.
Proof. intros w g Hone Hg Hs Hd. by apply runs_RecreateSurface. Qed.
Lemma runs_RecreateSwapchain_recreates : recreates RecreateSwapchain.
Proof. intros w g Hone Hg Hs Hd. by apply runs_RecreateSwapchain_renewed. Qed.

Lemma recording_suspended f g c :
  suspended (swapchain (state c)) = true -> ready f g -> recording c g f.
Proof. unfold recording. by intros ->. Qed.

(** Ends with the frame recorded but without an image. *)
Lemma runs_record_suspended (Q : unit -> world VulkanContext -> Prop) f f' g w :
  between f f' g w -> ready f g -> suspended (swapchain (state (object w))) = true ->
  runs (begin_recording f;; early S_OK) Q (leaving f f' recording) w.
Proof.
  intros Hb (b & Hne & Hfs) Hsus. apply runs_bind. eapply runs_begin_recording; [done..| |].
  - intros tr g' Hb' Hfs' _. apply runs_early. eapply leaving_between; [done|].
    apply recording_suspended; [done|]. by exists Recording.
  - intros hr w' Hv Hhr. by apply leaving_failed.
Qed.

(** A recreation, after which the frame ends if the swap chain is suspended. *)
Lemma runs_recreate_then m (Q : unit -> world VulkanContext -> Prop) f f' g w :
  recreates m -> between f f' g w -> ready f g ->
  (forall w' g', between f f' g' w' -> ready f g' ->
     suspended (swapchain (state (object w'))) = false -> Q tt w') ->
  runs (CR_RETURN_HR m;; b ← is_suspended;
        if (b : bool) then begin_recording f;; early S_OK else mret tt)
    Q (leaving f f' recording) w.
Proof.
  intros Hm Hb Hr HQ. apply runs_bind. eapply (runs_recreate (ready f)); [apply ready_settles|done..| |].
  2:{ intros hr w' Hv Hhr. by apply leaving_failed. }
  intros w' g' Hb' Hr'. apply runs_bind, runs_this. cbn beta.
  destruct (suspended _) eqn:Hsus; [by eapply runs_record_suspended|]. apply runs_ret. by eapply HQ.
Qed.

Lemma runs_resume_suspended (Q : unit -> world VulkanContext -> Prop) f f' g w :
  between f f' g w -> ready f g -> suspended (swapchain (state (object w))) = true ->
  (forall w' g', between f f' g' w' -> ready f g' ->
     suspended (swapchain (state (object w'))) = false -> Q tt w') ->
  runs (resume_suspended f) Q (leaving f f' recording) w.
Proof.
  intros Hb Hr Hsus HQ. unfold resume_suspended. apply runs_bind, runs_this. cbn beta zeta.
  apply runs_bind, runs_call. intros caps _. set (w1 := mkWorld _ _).
  assert (Hl1 : leaves w w1) by by apply leaves_call.
  pose proof (between_leaves _ _ _ _ _ Hb Hl1) as Hb1.
  destruct (bool_decide (caps.1 = VK_ERROR_SURFACE_LOST_KHR)); [|destruct (_ && _ && _)].
  - apply runs_bind, runs_update. eapply runs_recreate_then; [|..|done|exact HQ].
    + apply runs_RecreateSurface_recreates.
    + eapply between_leaves; [exact Hb1|by split].
  - eapply runs_recreate_then; [|exact Hb1|done|exact HQ]. apply runs_RecreateSwapchain_recreates.
  - by eapply runs_record_suspended.
Qed.

(** The image that [vkAcquireNextImageKHR] answers. *)
Definition acquisition (f f' : VulkanFrameContext) (r : VkResult) (w : world VulkanContext) : Prop :=
  r <> VK_SUBOPTIMAL_KHR /\ exists g, between f f' g w /\
    if succeeded r then provided f (object w) g else ready f g.

Lemma runs_acquire_image (Q : VkResult -> world VulkanContext -> Prop) R f f' g w :
  between f f' g w -> ready f g -> suspended (swapchain (state (object w))) = false ->
  (forall r w', acquisition f f' r w' -> Q r w') -> runs (acquire_image f) Q R w.
Proof.
  intros Hb (b & Hne & Hfs) Hsus HQ. unfold acquire_image. apply runs_bind, runs_this. cbn beta.
  apply runs_call_out. intros r o Hr. apply HQ.
  pose proof Hb as [_ _ _ _ Hu Ho Hrest Hch]. unfold chain in Hch. rewrite Hsus in Hch.
  destruct Hch as [Hnz Hsw].
  pose proof (acquire_optimal (trace w) (device (state (object w)))
    (swapchain_ (swapchain (state (object w)))) (acquireSemaphore f)) as Hopt.
  pose proof (image_given (trace w) (device (state (object w)))
    (swapchain_ (swapchain (state (object w)))) (acquireSemaphore f)) as Himg.
  cbn [id] in Hr. rewrite <- Hr in Hopt, Himg. cbn in Hopt, Himg.
  destruct (usage_acquire _ g f f' Hu Ho (device (state (object w)))
    (swapchain_ (swapchain (state (object w)))) (r, o) Signaled b) as (g' & Hu' & Hres); [|done..|].
  { rewrite Hsw. set_solver. }
  cbn [fst snd] in Hres. split; [done|]. exists g'. destruct (succeeded r) eqn:Hok.
  - destruct Hres as (Hs & Hfs' & i & [=] & Hi). subst o. split.
    { eapply between_step; [exact Hb|exact Hs|exact Hu'|done..]. }
    split; [done|]. split; [exact Hi|]. by exists b.
  - subst g'. split; [|by exists b]. eapply between_step; [exact Hb|apply frame_step_refl|exact Hu'|..];
      by destruct o.
Qed.

Lemma runs_acquire_again m (Q : VkResult -> world VulkanContext -> Prop) f f' g w :
  recreates m -> between f f' g w -> ready f g ->
  (forall r w', acquisition f f' r w' -> Q r w') ->
  runs (acquire_again m f) Q (leaving f f' recording) w.
Proof.
  intros Hm Hb Hr HQ. unfold acquire_again. apply runs_bind. eapply (runs_recreate (ready f)); [apply ready_settles|done..| |].
  2:{ intros hr w' Hv Hhr. by apply leaving_failed. }
  intros w' g' Hb' Hr'. apply runs_bind, runs_this. cbn beta. destruct (suspended _) eqn:Hsus.
  - apply runs_early. eapply leaving_between; [done|].
    by apply recording_suspended.
  - by eapply runs_acquire_image.
Qed.

Lemma runs_device_lost (Q : ALResult -> world VulkanContext -> Prop) R w :
  valid (trace w) -> (forall w', valid (trace w') -> Q E_DEVICELOST w') -> runs device_lost Q R w.
Proof.
  intros Hv HQ. unfold device_lost. apply runs_bind, runs_update. set (w1 := mkWorld _ _).
  apply runs_bind, runs_quiet_steady; [apply quiet_GatherDeviceFaultData|apply steady_GatherDeviceFaultData|].
  intros _ w2 [_ Hu]. apply runs_ret, HQ. unfold valid. by rewrite Hu.
Qed.

(** The waits at the start of the frame. *)
Lemma runs_wait_fence d (Q : unit -> world VulkanContext -> Prop) f f' g w :
  between f f' g w -> at_rest g f ->
  (forall w' g', between f f' g' w' -> ready f g' -> Q tt w') ->
  runs (VK_CHECK (call (vkWaitForFences d (inFlightFence f)))) Q (leaving f f' recording) w.
Proof.
  intros Hb Hrest HQ.
  pose proof (fun r => usage_wait _ g f f' (bt_usage _ _ _ _ Hb) d r Hrest) as Hwait.
  apply runs_VK_CHECK_call; [done|intros _|].
  - destruct (Hwait VK_SUCCESS) as (g' & Hu' & Hs & _ & Hr). eapply HQ; [|exact (Hr eq_refl)].
    by eapply between_step.
  - intros r hr _ _ Hhr. destruct (Hwait r) as (g' & Hu' & _). apply leaving_failed; [by exists g'|done].
Qed.

Lemma runs_counter d (Q : Z -> world VulkanContext -> Prop) f f' g w :
  between f f' g w -> ready f g -> (forall v w', between f f' g w' -> Q v w') ->
  runs (VK_CHECK_value (vkGetSemaphoreCounterValue d (timelineSemaphore f))) Q (leaving f f' recording) w.
Proof.
  intros Hb (b & _ & Hfs) HQ.
  pose proof (fun r => usage_counter _ g f (bt_usage _ _ _ _ Hb) d r _ _ _ _ Hfs) as Hu.
  apply runs_VK_CHECK_value; [done| |].
  - intros v _. apply HQ. eapply between_step; [exact Hb|apply frame_step_refl|apply Hu|done..].
  - intros r hr _ Hhr. apply leaving_failed; [eexists; apply Hu|done].
Qed.

(** [BeginFrame] once an image was asked for. *)
Lemma runs_begin_with d r f f' w :
  acquisition f f' r w ->
  runs (if bool_decide (r = VK_ERROR_DEVICE_LOST) then device_lost
    else if negb (bool_decide (r = VK_SUCCESS)) then mret E_FAIL
    else
      VK_CHECK (call (vkResetFences d (inFlightFence f)));;
      begin_recording f;;
      mret S_OK) (leaving f f' recording) (leaving f f' recording) w.
Proof.
  intros (Hsub & g & Hb & Hres). assert (Hv : valid (trace w)) by (exists g; apply Hb).
  case_bool_decide; [by apply runs_device_lost; [|intros; apply leaving_failed]|].
  unfold succeeded in Hres. case_bool_decide; [|by apply runs_ret, leaving_failed]. cbn [negb].
  destruct Hres as (Hsus & Himg & b & Hne & Hfs).
  pose proof (fun r => usage_reset_fence _ g f f' (bt_usage _ _ _ _ Hb) d r _ _ _ Hfs) as Hreset.
  apply runs_bind, runs_VK_CHECK_call; [done|intros _|].
  2:{ intros r1 hr _ _ Hhr. destruct (Hreset r1) as (g' & Hu' & _). apply leaving_failed; [by exists g'|done]. }
  destruct (Hreset VK_SUCCESS) as (g1 & Hu1 & Hs1 & Ha1 & Hfs1).
  specialize (Hfs1 eq_refl). set (w1 := mkWorld _ _).
  assert (Hb1 : between f f' g1 w1) by (by eapply between_step).
  apply runs_bind. eapply runs_begin_recording; [exact Hb1|exact Hfs1|done| |].
  - intros tr g2 Hb2 Hfs2 Ha2. apply runs_ret. eapply leaving_between; [exact Hb2|].
    unfold recording. cbn. rewrite Hsus. split; [done|]. unfold image_held. by rewrite Ha2, Ha1.
  - intros hr w' Hv' Hhr. by apply leaving_failed.
Qed.

(** [BeginFrame] from the first acquisition. *)
Lemma runs_begin_acquiring d f f' g w :
  between f f' g w -> ready f g -> suspended (swapchain (state (object w))) = false ->
  runs (acquireResult ← acquire_image f;
    acquireResult ← (
      if bool_decide (acquireResult = VK_ERROR_OUT_OF_DATE_KHR \/ acquireResult = VK_SUBOPTIMAL_KHR)
      then acquire_again RecreateSwapchain f else mret acquireResult);
    acquireResult ← (
      if bool_decide (acquireResult = VK_ERROR_SURFACE_LOST_KHR) then
        put (fun s => s <| surfaceLossReason := "acquire returned VK_ERROR_SURFACE_LOST_KHR"%string |>);;
        acquire_again RecreateSurface f
      else mret acquireResult);
    if bool_decide (acquireResult = VK_ERROR_DEVICE_LOST) then device_lost
    else if negb (bool_decide (acquireResult = VK_SUCCESS)) then mret E_FAIL
    else
      VK_CHECK (call (vkResetFences d (inFlightFence f)));;
      begin_recording f;;
      mret S_OK) (leaving f f' recording) (leaving f f' recording) w.
Proof.
  intros Hb Hr Hsus. apply runs_bind. eapply runs_acquire_image; [done..|].
  intros r1 w1 Hacq1. apply runs_bind.
  assert (Hstep : forall (Q : VkResult -> world VulkanContext -> Prop),
    (forall r w', acquisition f f' r w' -> Q r w') ->
    runs (if bool_decide (r1 = VK_ERROR_OUT_OF_DATE_KHR \/ r1 = VK_SUBOPTIMAL_KHR)
      then acquire_again RecreateSwapchain f else mret r1) Q (leaving f f' recording) w1).
  { intros Q HQ. case_bool_decide as Hr1; [|by apply runs_ret, HQ].
    destruct Hacq1 as (Hsub & g1 & Hb1 & Hres). destruct Hr1 as [->|]; [|done].
    eapply runs_acquire_again; [apply runs_RecreateSwapchain_recreates|done..]. }
  apply Hstep. intros r2 w2 Hacq2. apply runs_bind.
  destruct (bool_decide (r2 = VK_ERROR_SURFACE_LOST_KHR)) eqn:Hr2.
  - apply bool_decide_eq_true in Hr2. subst r2. apply runs_bind, runs_update.
    destruct Hacq2 as (_ & g2 & Hb2 & Hres). cbn in Hres.
    eapply runs_acquire_again; [apply runs_RecreateSurface_recreates| |exact Hres|].
    + eapply between_leaves; [exact Hb2|by split].
    + intros r3 w3 Hacq3. by apply runs_begin_with.
  - by apply runs_ret, runs_begin_with.
Qed.

Lemma runs_BeginFrame f f' g w :
  between f f' g w -> at_rest g f ->
  runs BeginFrame (leaving f f' recording) (fun _ _ => False) w.
Proof.
  intros Hb Hrest. unfold BeginFrame. apply runs_function.
  assert (Hfail : forall hr w', valid (trace w') -> hr <> S_OK -> leaving f f' recording hr w').
  { intros. by apply leaving_failed. }
  assert (Hv : valid (trace w)) by (exists g; apply Hb).
  apply runs_bind. eapply runs_current_frame; [exact Hb|]. apply runs_bind, runs_this. cbn beta.
  destruct (deviceLost _); [by apply runs_ret, Hfail|].
  set (d := device _). apply runs_bind.
  assert (Hstart : forall (Q : unit -> world VulkanContext -> Prop),
    (forall w' g', between f f' g' w' -> at_rest g' f -> Q tt w') ->
    runs (if negb (str_empty (surfaceLossReason (state (object w)))) &&
        negb (is_null (swapchain_ (swapchain (state (object w)))))
      then CR_RETURN_HR RecreateSurface else mret tt) Q (leaving f f' recording) w).
  { intros Q HQ. destruct (_ && _); [|by eapply runs_ret, HQ].
    eapply (runs_recreate (fun g => at_rest g f)); [apply at_rest_settles| |done..].
    apply runs_RecreateSurface_recreates. }
  apply Hstart. intros w1 g1 Hb1 Hrest1.
  apply runs_bind. eapply runs_wait_fence; [done..|]. intros w2 g2 Hb2 Hr2.
  apply runs_bind. eapply runs_counter; [done..|]. intros completed w3 Hb3.
  apply runs_bind. eapply runs_DrainDeferred; [done|]. intros w4 _ Hb4.
  apply runs_bind, runs_this. cbn beta. apply runs_bind.
  destruct (suspended (swapchain (state (object w4)))) eqn:Hsus.
  - eapply runs_resume_suspended; [done..|]. intros w5 g5 Hb5 Hr5 Hsus5. by eapply runs_begin_acquiring.
  - eapply runs_ret, runs_begin_acquiring; done.
Qed.
(** The value of the timeline is not an object. *)
Lemma owned_value v g f f' : owned g f f' -> owned g (f <| timelineValue := v |>) f'.
Proof. intros []. by constructor. Qed.

Lemma frame_state_value v g f x b a e :
  frame_state g f x b a e -> frame_state g (f <| timelineValue := v |>) x b a e.
Proof. intros []. by constructor. Qed.

Lemma between_value v f f' g w tr :
  between f f' g w -> usage tr = Some g ->
  between (f <| timelineValue := v |>) f' g
    (mkWorld ((object w) <| state ::=
       in_frame (Z.to_nat (frameIndex (state (object w)))) (fun v f => f <| timelineValue := v |>) v |>) tr).
Proof.
  intros [Hd Hone Hm Hf Hu Ho Hr Hch] Hu'. split; [done|done|done| |done|by apply owned_value|done|done].
  destruct Hf as [[Hix Hfr]|[Hix Hfr]]; [left|right]; (split; [done|]); cbn; by rewrite Hix, Hfr.
Qed.

(** The current frame rests, and it is the other's turn. *)
Lemma owned_sym g f f' : owned g f f' -> owned g f' f.
Proof.
  intros [H1 H2 H3 H4 H5 H6 H7 H8 H9]. constructor; [..|done|done|done| |].
  - rewrite H1. apply union_comm_L.
  - rewrite H2, !list_to_set_app_L. apply union_comm_L.
  - rewrite H3. apply union_comm_L.
  - rewrite H4. apply union_comm_L.
  - by rewrite Permutation_app_comm.
  - revert H9. cbv [app semaphores_of]. rewrite !Forall_cons. tauto.
Qed.

Lemma between_next f f' g w :
  between f f' g w -> at_rest g f ->
  between f' f g (mkWorld ((object w) <| state ::= fun s =>
    s <| frameIndex ::= fun i => u32 (i + 1) mod VULKAN_FRAME_CONTEXT_COUNT |> |>) (trace w)).
Proof.
  intros [Hd Hone Hm Hf Hu Ho Hr Hch] Hrest. split; [done|done|done| |done|by apply owned_sym|done|done].
  destruct Hf as [[Hix Hfr]|[Hix Hfr]]; [right|left]; cbn; by rewrite Hix, Hfr.
Qed.

(** ** [EndFrame] *)

Lemma runs_EndFrame f f' g w :
  between f f' g w -> recording (object w) g f ->
  runs EndFrame (fun hr w' => valid (trace w') /\
    (hr = S_OK -> exists v g', between (f <| timelineValue := v |>) f' g' w' /\
       submitted (object w') g' (f <| timelineValue := v |>))) (fun _ _ => False) w.
Proof.
  intros Hb Hrec. unfold EndFrame. apply runs_function.
  set (post := fun hr w' => _ /\ _).
  assert (Hfail : forall hr w', valid (trace w') -> hr <> S_OK -> post hr w') by (intros hr w' Hv Hhr; by split).
  apply runs_bind. eapply runs_current_frame; [exact Hb|]. apply runs_bind, runs_this. cbn beta.
  set (d := device _). unfold recording in Hrec. cbn [id].
  destruct (suspended (swapchain (state (object w)))) eqn:Hsus.
  - destruct Hrec as (b & Hne & Hfs). pose proof Hb as [_ _ _ _ Hu Ho Hr _].
    pose proof (fun r => usage_reset_pool _ g f f' Hu Ho d r _ _ _ _ Hr Hfs Hne) as Hreset.
    apply runs_bind, runs_VK_CHECK_call; [done|intros _|].
    2:{ intros r hr _ _ Hhr. destruct (Hreset r) as (g' & Hu' & _). apply Hfail; [by exists g'|done]. }
    destruct (Hreset VK_SUCCESS) as (g1 & Hu1 & Hs1 & _ & b1 & Hne1 & Hfs1 & _).
    apply runs_bind, runs_update, runs_ret. split; [by exists g1|]. intros _.
    exists (timelineValue f), g1. replace (f <| timelineValue := timelineValue f |>) with f by by destruct f.
    split; [by eapply between_step|]. unfold submitted. cbn. rewrite Hsus.
    apply ready_at_rest. by exists b1.
  - destruct Hrec as [Hfs Himg].
    pose proof (fun r => usage_end_buffer _ g f f' (bt_usage _ _ _ _ Hb) r _ _ _ Hfs) as Hend.
    apply runs_bind, runs_VK_CHECK_call; [done|intros _|].
    2:{ intros r hr _ _ Hhr. destruct (Hend r) as (g' & Hu' & _). apply Hfail; [by exists g'|done]. }
    destruct (Hend VK_SUCCESS) as (g1 & Hu1 & Hs1 & Ha1 & Hfs1). cbn in Hfs1. cbv zeta.
    set (v := u64 _). set (tr1 := _ :: trace w).
    assert (Hb1 : between f f' g1 (mkWorld (object w) tr1)) by by eapply between_step.
    apply runs_bind, runs_update. cbn beta iota.
    pose proof (between_value v _ _ _ _ _ Hb1 Hu1) as Hb2.
    apply (frame_state_value v) in Hfs1.
    apply runs_bind, runs_call. intros r _.
    match goal with |- context [Event (vkQueueSubmit2 ?q ?i ?fe) r] =>
      destruct (usage_submit _ g1 (f <| timelineValue := v |>) f' (bt_usage _ _ _ _ Hb2)
        (bt_owned _ _ _ _ Hb2) q i r Hfs1) as (g2 & Hu2 & Hs2 & Ha2 & Hfs2); [done..|] end.
    pose proof (between_step _ _ _ _ _ _ _ Hb2 Hs2 Hu2 eq_refl eq_refl) as Hb3.
    case_bool_decide; [apply runs_device_lost; [by exists g2|]; intros; by apply Hfail|].
    case_bool_decide; [|apply runs_ret, Hfail; [by exists g2|done]]. cbn [negb].
    apply runs_bind, runs_update, runs_ret. split; [by exists g2|]. intros _.
    exists v, g2. split; [by eapply between_leaves|]. unfold submitted. cbn. rewrite Hsus.
    split; [by apply Hfs2|]. unfold image_held. cbn. by rewrite Ha2, Ha1.
Qed.

(** ** [Present] *)

Lemma runs_next_frame (Q : ALResult -> world VulkanContext -> Prop) R f f' g w :
  between f f' g w -> at_rest g f -> (forall w', between f' f g w' -> at_rest g f' -> Q S_OK w') ->
  runs (next_frame;; mret S_OK) Q R w.
Proof. intros Hb Hr HQ. apply runs_bind, runs_update, runs_ret, HQ; [by apply between_next|apply Hb]. Qed.

Lemma runs_Present f f' g w :
  between f f' g w -> submitted (object w) g f ->
  runs Present (fun hr w' => valid (trace w') /\
    (hr = S_OK -> exists g', between f' f g' w' /\ at_rest g' f')) (fun _ _ => False) w.
Proof.
  intros Hb Hsub. unfold Present. apply runs_function.
  set (post := fun hr w' => _ /\ _).
  assert (Hfail : forall hr w', valid (trace w') -> hr <> S_OK -> post hr w') by (intros hr w' Hv Hhr; by split).
  assert (Hnext : forall g' w', between f' f g' w' -> at_rest g' f' -> post S_OK w').
  { intros g' w' Hb' Hr'. split; [exists g'; apply Hb'|]. intros _. by exists g'. }
  apply runs_bind, runs_this. cbn beta. unfold submitted in Hsub. cbn [id].
  destruct (suspended (swapchain (state (object w)))) eqn:Hsus.
  { eapply runs_next_frame; [done..|apply Hnext]. }
  destruct Hsub as [Hfs Himg]. apply runs_bind. eapply runs_current_frame; [exact Hb|].
  apply runs_bind, runs_call. intros r _.
  match goal with |- context [Event (vkQueuePresentKHR ?q ?sc ?i ?s) r] =>
    destruct (usage_present _ g f f' (bt_usage _ _ _ _ Hb) (bt_owned _ _ _ _ Hb) q sc i r Hfs Himg)
      as (g1 & Hu1 & Hs1 & Hr1) end.
  pose proof (between_step _ _ _ _ _ _ _ Hb Hs1 Hu1 eq_refl eq_refl) as Hb1.
  apply runs_bind, runs_update, runs_bind, runs_update. cbn [object trace]. set (w2 := mkWorld _ _).
  assert (Hb2 : between f f' g1 w2) by (by eapply between_leaves).
  assert (Hv2 : valid (trace w2)) by by exists g1.
  case_bool_decide as Hr.
  { eapply runs_next_frame; [done| |apply Hnext]. apply Hr1. by destruct Hr as [->| ->]. }
  case_bool_decide.
  { subst r. apply runs_bind, runs_update. eapply runs_next_frame; [|by apply Hr1|apply Hnext].
    by eapply between_leaves. }
  case_bool_decide; [apply runs_device_lost; [done|]; intros; by apply Hfail|].
  case_bool_decide; [|by apply runs_ret, Hfail]. cbn [negb]. subst r.
  eapply runs_next_frame; [done|by apply Hr1|apply Hnext].
Qed.
End frames.
