(* ===== verification/VulkanSession.v ===== *)
(** * Sessions

    From the creation of the device to its destruction: [CreateDevice] makes the
    objects that the frames of [VulkanFrames] need, [Destroy] destroys them all,
    and between them any number of frames is valid usage. *)

From stdpp Require Import base numbers list option strings gmap fin_maps sets.
From S2P Require Import Prelude RenderGraph VulkanFormats Vulkan VulkanContext VulkanUsage VulkanQuiet VulkanFrameInv VulkanSwapchain VulkanFrames VulkanDriver.

#[local] Open Scope Z_scope.

(** ** Creating the frame contexts *)

(** The objects of [f], all new, beside those of [g]. *)
Record frame_made (g : gpu) (f : VulkanFrameContext) (g' : gpu) : Prop := mk_frame_made
  { made_fences : fences g' = <[inFlightFence f := Signaled]> (fences g);
    made_semaphores : semaphores g' = <[timelineSemaphore f := Timeline]>
      (<[renderFinishedSemaphore f := Binary false]>
        (<[acquireSemaphore f := Binary false]> (semaphores g)));
    made_pools : pools g' = {[commandPool f]} ∪ pools g;
    made_buffers : buffers g' = <[commandBuffer f := (commandPool f, Initial)]> (buffers g);
    made_swapchains : swapchains g' = swapchains g;
    new_fence : inFlightFence f ∉ dom (fences g);
    new_acquire : acquireSemaphore f ∉ dom (semaphores g);
    new_finished : renderFinishedSemaphore f ∉ dom (<[acquireSemaphore f := Binary false]> (semaphores g));
    new_timeline : timelineSemaphore f ∉ dom (<[renderFinishedSemaphore f := Binary false]>
      (<[acquireSemaphore f := Binary false]> (semaphores g)));
    new_pool : commandPool f ∉ pools g;
    new_buffer : commandBuffer f ∉ dom (buffers g);
    made_given : Forall (fun h => h <> VK_NULL_HANDLE)
      (inFlightFence f :: commandPool f :: semaphores_of f) }.

Section create.
Context `{DriverLaws}.

(** A creation under [VK_CHECK]. *)
Lemma runs_create (alive : gset VkHandle) (add : VkHandle -> gpu -> gpu)
    (set : VkHandle -> VulkanDeviceState -> VulkanDeviceState) (c : vk created)
    (Q : unit -> world VulkanContext -> Prop) (R : ALResult -> world VulkanContext -> Prop) w g :
  (forall r, usage (Event c r :: trace w) = Some (add_created r add g)) ->
  new_in alive (answer (trace w) c) -> checked_value c ->
  (forall h tr, h <> VK_NULL_HANDLE -> h ∉ alive -> usage tr = Some (add h g) ->
     Q tt (mkWorld ((object w) <| state ::= set h |>) tr)) ->
  (forall hr w', valid (trace w') -> hr <> S_OK -> R hr w') ->
  runs (VK_CHECK (out set c)) Q R w.
Proof.
  intros Hu Hnew Hp HQ HR. apply runs_VK_CHECK_out; [done|..].
  - intros o Ho. unfold new_in, created in Hnew. rewrite <- Ho in Hnew.
    destruct (Hnew eq_refl) as (h & [=] & Hnz & Hfresh). subst o. cbn.
    apply HQ; [done|done|apply Hu].
  - intros r o hr _ _ Hhr. apply HR; [|done]. eexists. apply Hu.
Qed.

(** The context with frame [i] replaced. *)
Definition with_frame (i : nat) (f : VulkanFrameContext) (c : VulkanContext) : VulkanContext :=
  c <| state ::= fun s => s <| frames ::= <[i := f]> |> |>.

Lemma with_frame_twice i f f' c : with_frame i f' (with_frame i f c) = with_frame i f' c.
Proof. unfold with_frame. cbn. by rewrite list_insert_insert_eq. Qed.

Lemma with_frame_lookup i f f0 c :
  frames (state c) !! i = Some f0 -> frames (state (with_frame i f c)) !! i = Some f.
Proof. intros Hi. cbn. apply list_lookup_insert_eq. by apply lookup_lt_Some in Hi. Qed.

Lemma in_frame_with i (set : VkHandle -> VulkanFrameContext -> VulkanFrameContext) h f c :
  frames (state c) !! i = Some f -> c <| state ::= in_frame i set h |> = with_frame i (set h f) c.
Proof.
  intros Hi. unfold with_frame, in_frame. cbn. do 2 f_equal. apply list_eq. intros j.
  destruct (decide (i = j)) as [->|Hne].
  - rewrite list_lookup_alter_eq, Hi, list_lookup_insert_eq; [done|by apply lookup_lt_Some in Hi].
  - by rewrite list_lookup_alter_ne, list_lookup_insert_ne.
Qed.

(** A creation for frame [i]. *)
Lemma runs_create_in (alive : gset VkHandle) (add : VkHandle -> gpu -> gpu) i
    (set : VkHandle -> VulkanFrameContext -> VulkanFrameContext) (c : vk created)
    (Q : unit -> world VulkanContext -> Prop) (R : ALResult -> world VulkanContext -> Prop) w g f f0 c0 :
  object w = with_frame i f c0 -> frames (state c0) !! i = Some f0 ->
  (forall r, usage (Event c r :: trace w) = Some (add_created r add g)) ->
  new_in alive (answer (trace w) c) -> checked_value c ->
  (forall h tr, h <> VK_NULL_HANDLE -> h ∉ alive -> usage tr = Some (add h g) ->
     Q tt (mkWorld (with_frame i (set h f) c0) tr)) ->
  (forall hr w', valid (trace w') -> hr <> S_OK -> R hr w') ->
  runs (VK_CHECK (out (in_frame i set) c)) Q R w.
Proof.
  intros Hw Hi Hu Hnew Hp HQ HR. eapply runs_create; [done..| |done].
  intros h tr Hnz Hh Htr. rewrite Hw, (in_frame_with _ _ _ f), with_frame_twice; [by apply HQ|].
  by eapply with_frame_lookup.
Qed.
Lemma with_frame_same i f c : frames (state c) !! i = Some f -> c = with_frame i f c.
Proof.
  intros Hi. destruct c as [[] ?]. unfold with_frame. cbn in *. by rewrite list_insert_id.
Qed.

Lemma runs_frame_at i f c tr (Q : _ -> world VulkanContext -> Prop) R f0 :
  frames (state c) !! i = Some f0 -> Q f (mkWorld (with_frame i f c) tr) ->
  runs (frame_at i) Q R (mkWorld (with_frame i f c) tr).
Proof.
  intros Hi HQ. unfold frame_at. apply runs_bind, runs_this. cbn beta.
  cbn [object]. rewrite (with_frame_lookup _ f _ _ Hi). by apply runs_ret.
Qed.

(** The descriptor pool has no part in the rules. *)
Lemma runs_create_descriptor_pool d n sizes i (Q : unit -> world VulkanContext -> Prop)
    (R : ALResult -> world VulkanContext -> Prop) f f0 c0 tr g :
  usage tr = Some g -> frames (state c0) !! i = Some f0 ->
  (forall h tr', usage tr' = Some g -> Q tt (mkWorld (with_frame i (f <| descriptorPool := h |>) c0) tr')) ->
  (forall hr w', valid (trace w') -> hr <> S_OK -> R hr w') ->
  runs (VK_CHECK (out (in_frame i (fun h f => f <| descriptorPool := h |>)) (vkCreateDescriptorPool d n sizes)))
    Q R (mkWorld (with_frame i f c0) tr).
Proof.
  intros Hg Hi HQ HR. apply runs_VK_CHECK_out; [done|..].
  - intros o _. destruct o as [h|]; cbn [object trace].
    + rewrite (in_frame_with _ _ _ f), with_frame_twice; [|by eapply with_frame_lookup].
      apply HQ. by rewrite neutral_usage.
    + replace f with (f <| descriptorPool := descriptorPool f |>) by by destruct f.
      apply HQ. by rewrite neutral_usage.
  - intros r o hr _ _ Hhr. apply HR; [|done]. exists g. cbn [trace]. by rewrite neutral_usage.
Qed.

Lemma runs_create_frame_context i (Q : unit -> world VulkanContext -> Prop)
    (R : ALResult -> world VulkanContext -> Prop) w g f0 :
  usage (trace w) = Some g -> frames (state (object w)) !! i = Some f0 ->
  (forall f g' tr, usage tr = Some g' -> frame_made g f g' ->
     Q tt (mkWorld (with_frame i f (object w)) tr)) ->
  (forall hr w', valid (trace w') -> hr <> S_OK -> R hr w') ->
  runs (create_frame_context i) Q R w.
Proof.
  intros Hg Hi HQ HR. unfold create_frame_context. apply runs_bind, runs_this. cbn beta zeta.
  set (s := id _). set (d := device s). set (c := object w) in *.
  apply runs_bind. eapply (runs_create_in (pools g) _ i); [by apply with_frame_same|done| |by apply pool_new|done| |done].
  { intros r. cbn. by rewrite Hg. }
  intros pool tr1 Hpnz Hpnew Hu1. apply runs_bind. eapply runs_frame_at; [done|].
  apply runs_bind. eapply (runs_create_in (dom (buffers g)) _ i); [done|done| |by apply (buffer_new _ _ _ _ Hu1)|done| |done].
  { intros r. cbn. rewrite Hu1. cbn. by rewrite option_guard_True by set_solver. }
  intros buffer tr2 Hbnz Hbnew Hu2.
  apply runs_bind. eapply runs_create_descriptor_pool; [exact Hu2|done| |done]. intros dpool tr3 Hu3.
  apply runs_bind. eapply (runs_create_in (dom (semaphores g)) _ i);
    [done|done| |by apply (semaphore_new _ _ _ _ Hu3)|done| |done].
  { intros r. cbn -[add_created]. rewrite Hu3. done. }
  intros acq tr4 Hanz Hanew Hu4. cbn in Hu4.
  apply runs_bind. eapply (runs_create_in (dom (<[acq := Binary false]> (semaphores g))) _ i);
    [done|done| |by apply (semaphore_new _ _ _ _ Hu4)|done| |done].
  { intros r. cbn -[add_created]. rewrite Hu4. done. }
  intros ren tr5 Hrnz Hrnew Hu5. cbn in Hu5.
  apply runs_bind. eapply (runs_create_in
      (dom (<[ren := Binary false]> (<[acq := Binary false]> (semaphores g)))) _ i);
    [done|done| |by apply (semaphore_new _ _ _ _ Hu5)|done| |done].
  { intros r. cbn -[add_created]. rewrite Hu5. done. }
  intros tim tr6 Htnz Htnew Hu6. cbn in Hu6.
  eapply (runs_create_in (dom (fences g)) _ i); [done|done| |by apply (fence_new _ _ _ _ Hu6)|done| |done].
  { intros r. cbn -[add_created]. rewrite Hu6. done. }
  intros fence tr7 Hfnz Hfnew Hu7. cbn in Hu7. eapply HQ; [exact Hu7|].
  constructor; cbn; try done. by repeat constructor.
Qed.

(** Two frames made one after the other own the objects. *)
#[local] Ltac differ H := rewrite ?dom_insert_L, ?not_elem_of_union, ?not_elem_of_singleton in H.

Lemma frames_made_owned g f f' g1 g2 :
  fences g = ∅ -> semaphores g = ∅ -> pools g = ∅ -> buffers g = ∅ ->
  frame_made g f g1 -> frame_made g1 f' g2 -> owned g2 f f'.
Proof.
  intros Hf Hs Hp Hb [mf1 ms1 mp1 mb1 mw1 nf1 na1 nr1 nt1 np1 nb1 gv1] [mf2 ms2 mp2 mb2 mw2 nf2 na2 nr2 nt2 np2 nb2 gv2].
  rewrite Hf in *. rewrite Hs in *. rewrite Hp in *. rewrite Hb in *.
  rewrite mf1 in *. rewrite ms1 in *. rewrite mp1 in *. rewrite mb1 in *.
  differ nf2. differ np2. differ nb2. differ na2. differ nr2. differ nt2. differ nr1. differ nt1.
  constructor.
  - rewrite mf2, !dom_insert_L, dom_empty_L. set_solver +.
  - rewrite ms2, !dom_insert_L, dom_empty_L. cbn. set_solver +.
  - rewrite mp2. set_solver +.
  - rewrite mb2, !dom_insert_L, dom_empty_L. set_solver +.
  - intros E. by destruct nf2.
  - intros E. by destruct np2 as [? _].
  - intros E. by destruct nb2.
  - cbv [app semaphores_of]. rewrite !NoDup_cons, !not_elem_of_cons. destruct_and?.
    repeat (split || apply not_elem_of_nil || apply NoDup_nil_2); congruence.
  - rewrite !Forall_cons in gv1, gv2. destruct gv1 as (? & ? & ?), gv2 as (? & ? & ?).
    rewrite !Forall_app. split; [by repeat constructor|by split].
Qed.

Lemma frame_made_state g f g' :
  frame_made g f g' -> frame_state g' f Signaled Initial false false.
Proof.
  intros [mf ms mp mb mw nf na nr nt np nb gv]. differ nr. differ nt. constructor.
  - by rewrite mf, lookup_insert_eq.
  - by rewrite mb, lookup_insert_eq.
  - rewrite ms, !lookup_insert_ne, lookup_insert_eq by (destruct_and?; congruence). done.
  - rewrite ms, lookup_insert_ne, lookup_insert_eq by (destruct_and?; congruence). done.
  - by rewrite ms, lookup_insert_eq.
Qed.

Lemma frame_made_other g1 g2 f f' x b a r :
  owned g2 f f' -> frame_made g1 f' g2 -> frame_state g1 f x b a r -> frame_state g2 f x b a r.
Proof.
  intros Ho [mf ms mp mb mw nf na nr nt np nb gv] [].
  assert (Hne : forall h h', h ∈ semaphores_of f -> h' ∈ semaphores_of f' -> h' <> h).
  { intros h h' Hh Hh' E. by eapply semaphores_of_differ. }
  constructor.
  - rewrite mf, lookup_insert_ne; [done|]. symmetry. apply Ho.
  - rewrite mb, lookup_insert_ne; [done|]. symmetry. apply Ho.
  - by rewrite ms, !lookup_insert_ne by (apply Hne; auto using acquire_of, finished_of, timeline_of).
  - by rewrite ms, !lookup_insert_ne by (apply Hne; auto using acquire_of, finished_of, timeline_of).
  - by rewrite ms, !lookup_insert_ne by (apply Hne; auto using acquire_of, finished_of, timeline_of).
Qed.

(** The frames of a context on which [CreateFrameContexts] can run. *)
Record vacant (w : world VulkanContext) (g : gpu) : Prop := mk_vacant
  { vc_usage : usage (trace w) = Some g;
    vc_frames : exists f0 f1, frames (state (object w)) = [f0; f1];
    vc_index : frameIndex (state (object w)) = 0;
    vc_family : one_family (object w) = true;
    vc_deferred : m_deferred (object w) = [];
    vc_fences : fences g = ∅;
    vc_semaphores : semaphores g = ∅;
    vc_pools : pools g = ∅;
    vc_buffers : buffers g = ∅ }.

Lemma vacant_made w g f f' g1 g2 tr :
  vacant w g -> frame_made g f g1 -> frame_made g1 f' g2 -> usage tr = Some g2 ->
  device (state (object w)) <> VK_NULL_HANDLE -> chain (object w) g ->
  between f f' g2 (mkWorld (with_frame 1 f' (with_frame 0 f (object w))) tr) /\ at_rest g2 f.
Proof.
  intros [Hu (f0 & f1 & Hf) Hi Hone Hm Hfe Hs Hp Hb] Hg1 Hg2 Htr Hd Hc.
  pose proof (frames_made_owned _ _ _ _ _ Hfe Hs Hp Hb Hg1 Hg2) as Ho.
  assert (Hrest : at_rest g2 f' /\ at_rest g2 f).
  { split; exists Signaled, Initial; (split; [by constructor|]).
    - by eapply frame_made_state.
    - eapply frame_made_other; [done..|]. by eapply frame_made_state. }
  split; [|apply Hrest]. split; cbn; [done|done|by rewrite Hm|left|done|done|apply Hrest|].
  - cbn. by rewrite Hf.
  - unfold chain in *. cbn. by rewrite (made_swapchains _ _ _ Hg2), (made_swapchains _ _ _ Hg1).
Qed.

Lemma runs_CreateFrameContexts w g :
  vacant w g -> device (state (object w)) <> VK_NULL_HANDLE -> chain (object w) g ->
  runs CreateFrameContexts (fun hr w' => valid (trace w') /\
    (hr = S_OK -> exists f f' g', between f f' g' w' /\ at_rest g' f)) (fun _ _ => False) w.
Proof.
  intros Hv Hd Hc. unfold CreateFrameContexts. apply runs_function. set (post := fun (hr : ALResult) (w' : world VulkanContext) => _ /\ _).
  assert (Hfail : forall hr w', valid (trace w') -> hr <> S_OK -> post hr w') by (intros hr w' ? ?; by split).
  destruct (vc_frames _ _ Hv) as (f0 & f1 & Hfr).
  change (seq 0 _) with [0%nat; 1%nat]. cbn [for_each].
  apply runs_bind, runs_bind. eapply runs_create_frame_context; [apply Hv|by rewrite Hfr| |done].
  intros f g1 tr1 Hu1 Hg1. apply runs_bind. eapply runs_create_frame_context; [exact Hu1|by cbn; rewrite Hfr| |done].
  intros f' g2 tr2 Hu2 Hg2. apply runs_ret, runs_ret.
  destruct (vacant_made _ _ _ _ _ _ _ Hv Hg1 Hg2 Hu2 Hd Hc) as [Hb Hr].
  split; [by exists g2|]. intros _. by exists f, f', g2.
Qed.

(** ** Creating the device *)

(** [w'] is [w] but for the members that the frames do not depend on, and the
    device. *)
Definition device_made (w w' : world VulkanContext) : Prop :=
  device (state (object w')) <> VK_NULL_HANDLE /\
  leaves (mkWorld ((object w) <| state ::= fun s => s <| device := device (state (object w')) |> |>)
    (trace w)) w'.

Lemma device_made_leaves w w' w2 : device_made w w' -> leaves w' w2 -> device_made w w2.
Proof.
  intros [Hd Hl] Hl2. assert (Hdev : device (state (object w2)) = device (state (object w'))).
  { pose proof (leaves_core _ _ Hl2) as Hc. by injection Hc. }
  split; rewrite Hdev; [done|]. by etrans.
Qed.

Lemma leaves_device_made w w1 w' : leaves w w1 -> device_made w1 w' -> device_made w w'.
Proof.
  intros [Hs Hu] [Hd Hl]. split; [done|]. etrans; [|exact Hl]. split; [|done].
  unfold sync_of, one_family in *. cbn in *. injection Hs. congruence.
Qed.

Lemma runs_CreateLogicalDevice w g :
  usage (trace w) = Some g ->
  runs CreateLogicalDevice (fun hr w' => usage (trace w') = Some g /\
    (hr = S_OK -> device_made w w')) (fun _ _ => False) w.
Proof.
  intros Hg. unfold CreateLogicalDevice. apply runs_function. set (post := fun (hr : ALResult) (w' : world VulkanContext) => _ /\ _).
  assert (Hfail : forall hr w', usage (trace w') = Some g -> hr <> S_OK -> post hr w') by (intros hr w' ? ?; by split).
  apply runs_bind, runs_this. cbn beta. apply runs_bind, runs_enumerate; [done|done| |].
  2:{ intros hr w' [_ Hu] Hhr. apply Hfail; [by rewrite Hu|done]. }
  intros exts w1 Hl1. cbv zeta. apply runs_bind, runs_update, runs_bind, runs_this. cbn beta.
  apply runs_bind, runs_call_out. intros r o Hr. cbn [object trace].
  match type of Hr with context [vkCreateDevice ?pd ?i] => set (info := i) in *; set (dev := pd) in * end.
  assert (Hg1 : usage (trace w1) = Some g) by by destruct Hl1 as [_ ->].
  case_bool_decide as Hok; cbn [negb].
  2:{ apply runs_ret, Hfail; [|done]. cbn [trace]. by rewrite neutral_usage. }
  subst r. pose proof (device_new (trace w1) dev info) as Hnew. unfold new_in, created in *.
  cbn [trace] in Hr. rewrite <- Hr in Hnew. destruct (Hnew eq_refl) as (new & [=] & Hnz & _). subst o.
  match goal with |- runs _ _ _ ?w => set (w2 := w) end.
  assert (Hmade : device_made w w2).
  { eapply leaves_device_made; [exact Hl1|]. split; [done|]. split; [done|]. by apply neutral_usage. }
  apply runs_quiet_steady.
  - quiet_code.
  - steady_code.
  - intros hr w3 Hl3. split; [|intros _; by eapply device_made_leaves].
    destruct Hl3 as [_ ->]. subst w2. cbn [trace]. by rewrite neutral_usage.
Qed.

Lemma vacant_leaves w w' g : vacant w g -> leaves w w' -> vacant w' g.
Proof.
  intros [Hu (f0 & f1 & Hf) Hi Hone Hm Hfe Hs Hp Hb] [Hl Hu']. injection Hl as ? ? ? ? ? ? ? ?.
  split; [congruence|exists f0, f1; congruence|congruence..].
Qed.

Lemma vacant_device_made w w' g : vacant w g -> device_made w w' -> vacant w' g.
Proof.
  intros Hv [_ Hl]. eapply vacant_leaves; [|exact Hl]. destruct Hv. by split.
Qed.

Lemma runs_CreateSwapchain w g :
  vacant w g -> swapchains g = ∅ ->
  runs CreateSwapchain (fun hr w' => valid (trace w') /\
    (hr = S_OK -> exists g', vacant w' g' /\ chain (object w') g' /\
       device (state (object w')) = device (state (object w)))) (fun _ _ => False) w.
Proof.
  intros Hv Hsw. assert (Hidle : idle g).
  { unfold idle. rewrite (vc_fences _ _ Hv). apply map_Forall_empty. }
  eapply runs_mono; [apply (runs_CreateSwapchainInternal _ _ g); [apply Hv|apply Hv|done|by left]| |done].
  cbn beta. intros hr w' [Hc (g' & Hu & Hs & Hfrom)]. split; [by exists g'|]. intros ->.
  exists g'. pose proof (core_one_family _ _ Hc (vc_family _ _ Hv)).
  injection Hc as Hfr Hix Hdv Hdf _. destruct Hs as (Hsf & Hss & Hsp & Hsb).
  destruct Hv as [_ (f0 & f1 & Hf) Hi _ Hm Hfe Hse Hp Hb].
  split; [split; [congruence|exists f0, f1; congruence|congruence..]|]. split; [|done]. unfold chain.
  destruct Hfrom as [(_ & -> & -> & ->)|[[? _]|(-> & Hnz & _ & ->)]]; [|done|]; rewrite Hsw.
  - cbn. by rewrite difference_empty_L.
  - split; [done|]. apply union_empty_r_L.
Qed.

Lemma steady_CreateAllocator : steady CreateAllocator.
Proof. unfold CreateAllocator, out, call_out. steady_code. Qed.
Lemma steady_CreatePipelineCache : steady CreatePipelineCache.
Proof. unfold CreatePipelineCache, out, call_out. steady_code. Qed.
Lemma steady_CreateTimestampQueryPool : steady CreateTimestampQueryPool.
Proof. unfold CreateTimestampQueryPool, out, call_out. steady_code. Qed.
Lemma steady_CreateSurface h : steady (CreateSurface h).
Proof. unfold CreateSurface, out, call_out. steady_code. Qed.

Lemma runs_CreateDevice adapter window params w g :
  families_present -> vacant w g -> swapchains g = ∅ -> window <> VK_NULL_HANDLE ->
  runs (CreateDevice adapter window params) (fun hr w' => valid (trace w') /\
    (hr = S_OK -> exists f f' g', between f f' g' w' /\ at_rest g' f)) (fun _ _ => False) w.
Proof.
  intros Hfam Hv Hsw Hwin. unfold CreateDevice. apply runs_function. set (post := fun (hr : ALResult) (w' : world VulkanContext) => _ /\ _).
  assert (Hfail : forall hr w', usage (trace w') = Some g -> hr <> S_OK -> post hr w').
  { intros hr w' Hu ?. split; [by exists g|done]. }
  assert (Hquiet : forall w' w2, vacant w' g -> leaves w' w2 -> forall hr, hr <> S_OK -> post hr w2).
  { intros w' w2 Hv' Hl hr. apply Hfail. by apply (vacant_leaves _ _ _ Hv' Hl). }
  apply runs_bind, runs_update. set (w1 := mkWorld _ _). assert (Hv1 : vacant w1 g) by by destruct Hv.
  apply runs_bind, runs_this. cbn [id object]. apply runs_bind.
  apply runs_mono with (Q := fun _ w2 => vacant w2 g) (R := post); [|cbn beta|done].
  { destruct (_ && _); [|by apply runs_ret].
    apply runs_CR_quiet; [apply quiet_CreateSurface|apply steady_CreateSurface|..].
    - intros w2. by apply vacant_leaves.
    - intros hr w2 Hl ?. by eapply Hquiet. }
  intros _ w2 Hv2. apply runs_bind, runs_CR_leaves; [apply runs_PickPhysicalDevice, Hv2; done| |].
  2:{ intros hr w3 Hl ?. by eapply Hquiet. }
  intros w3 Hl3. assert (Hv3 : vacant w3 g) by by eapply vacant_leaves.
  apply runs_bind, runs_CR_RETURN_HR. eapply runs_mono; [apply runs_CreateLogicalDevice, Hv3| |done].
  cbn beta. intros hr w4 [Hu4 Hmade]. destruct (decide (hr = S_OK)) as [->|Hhr]; [|by destruct hr; try apply Hfail].
  specialize (Hmade eq_refl). pose proof (vacant_device_made _ _ _ Hv3 Hmade) as Hv4. cbn [FAILED SUCCEEDED negb].
  apply runs_bind, runs_CR_quiet; [apply quiet_CreateAllocator|apply steady_CreateAllocator| |].
  2:{ intros hr w5 Hl ?. by eapply Hquiet. }
  intros w5 Hl5. apply runs_bind, runs_CR_quiet; [apply quiet_CreatePipelineCache|apply steady_CreatePipelineCache| |].
  2:{ intros hr w6 Hl6 ?. eapply Hquiet; [exact Hv4|by etrans|done]. }
  intros w6 Hl6. apply runs_bind, runs_CR_quiet;
    [apply quiet_CreateTimestampQueryPool|apply steady_CreateTimestampQueryPool| |].
  2:{ intros hr w7 Hl7 ?. eapply Hquiet; [exact Hv4|do 2 (etrans; [done|]); done|done]. }
  intros w7 Hl7. assert (Hl : leaves w4 w7) by (do 2 (etrans; [done|]); done).
  destruct (device_made_leaves _ _ _ Hmade Hl) as [Hd7 _]. pose proof (vacant_leaves _ _ _ Hv4 Hl) as Hv7.
  replace (windowless _) with false by (symmetry; by apply Z.eqb_neq).
  apply runs_bind, runs_CR_RETURN_HR. eapply runs_mono; [by apply (runs_CreateSwapchain _ g)| |done].
  cbn beta. intros hr w8 [Hval8 Hmade8]. destruct (decide (hr = S_OK)) as [->|Hhr]; [|by destruct hr; try done; split].
  destruct (Hmade8 eq_refl) as (g8 & Hv8 & Hch8 & Hd8). cbn [FAILED SUCCEEDED negb].
  apply runs_bind, runs_CR_RETURN_HR.
  eapply runs_mono; [apply (runs_CreateFrameContexts _ _ Hv8); [by rewrite Hd8|done]| |done].
  cbn beta. intros hr w9 [Hval9 Hok9]. destruct (decide (hr = S_OK)) as [->|Hhr]; [|by destruct hr; try done; split].
  by apply runs_ret.
Qed.

(** ** Destroying the frame contexts *)

(** Nothing executes. *)
Definition still (g : gpu) : Prop :=
  idle g /\ map_Forall (fun _ (b : VkHandle * buffer_state) => in_flight b.2 = false) (buffers g).

Lemma complete_all_still g : still (complete_all g).
Proof.
  split; [apply complete_all_idle|]. intros h b. cbn. rewrite lookup_fmap_Some.
  intros ([p s] & <- & _). unfold finish_buffer. cbn. by destruct (in_flight s) eqn:E.
Qed.

(** The objects of [f] have gone. *)
Record frame_gone (f : VulkanFrameContext) (g g' : gpu) : Prop := mk_frame_gone
  { gone_fences : fences g' = delete (inFlightFence f) (fences g);
    gone_semaphores : semaphores g' = delete (acquireSemaphore f)
      (delete (renderFinishedSemaphore f) (delete (timelineSemaphore f) (semaphores g)));
    gone_pools : pools g' = pools g ∖ {[commandPool f]};
    gone_buffers : buffers g' = filter (fun b => b.2.1 <> commandPool f) (buffers g);
    gone_swapchains : swapchains g' = swapchains g }.

Lemma frame_gone_still f g g' : frame_gone f g g' -> still g -> still g'.
Proof.
  intros [Hf _ _ Hb _] [Hi Hs]. split.
  - unfold idle. rewrite Hf. by apply map_Forall_delete.
  - rewrite Hb. intros h b [Hh _]%map_lookup_filter_Some. by apply (Hs h).
Qed.

Lemma runs_destroy_member i kind member set (Q : unit -> world VulkanContext -> Prop) R f f0 c0 tr g g' :
  frames (state c0) !! i = Some f0 -> usage tr = Some g ->
  check_destroy g kind (member f) = Some g' -> (member f = VK_NULL_HANDLE -> set VK_NULL_HANDLE f = f) ->
  (forall tr', usage tr' = Some g' ->
     Q tt (mkWorld (with_frame i (set VK_NULL_HANDLE f) c0) tr')) ->
  runs (destroy_member i kind member set) Q R (mkWorld (with_frame i f c0) tr).
Proof.
  intros Hi Hu Hc Hnull HQ. unfold destroy_member. apply runs_bind. eapply runs_frame_at; [done|].
  unfold unless_null. destruct (is_null (member f)) eqn:Hn.
  - apply runs_ret. rewrite <- Hnull by by apply Z.eqb_eq. apply HQ.
    unfold check_destroy in Hc. rewrite Hn in Hc. by simplify_eq.
  - unfold destroy. apply runs_bind, runs_bind, runs_this. cbn beta.
    apply runs_call. intros a _. apply runs_update. cbn [object trace].
    rewrite (in_frame_with _ _ _ f), with_frame_twice by by eapply with_frame_lookup.
    apply HQ. cbn. rewrite Hu. exact Hc.
Qed.

Lemma check_destroy_semaphore g h :
  h <> VK_NULL_HANDLE -> is_Some (semaphores g !! h) -> idle g ->
  check_destroy g Semaphore h = Some (g <| semaphores ::= delete h |>).
Proof.
  intros Hnz [s Hs] Hi. unfold check_destroy, is_null. rewrite (proj2 (Z.eqb_neq _ _) Hnz), Hs. cbn.
  by rewrite option_guard_True.
Qed.

(** What destroying one frame needs of its handles. *)
Record stands (g : gpu) (f : VulkanFrameContext) : Prop := mk_stands
  { stands_pool : commandPool f ∈ pools g;
    stands_differ : acquireSemaphore f <> renderFinishedSemaphore f /\
      acquireSemaphore f <> timelineSemaphore f /\ renderFinishedSemaphore f <> timelineSemaphore f;
    stands_given : Forall (fun h => h <> VK_NULL_HANDLE) (inFlightFence f :: commandPool f :: semaphores_of f) }.

Lemma owned_stands g f f' : owned g f f' -> stands g f.
Proof.
  intros Ho. split; [rewrite (owned_pools _ _ _ Ho); set_solver +|by eapply own_semaphores_differ|].
  pose proof (handles_given _ _ _ Ho) as Hnz. cbv [app semaphores_of] in *. rewrite !Forall_cons in *. tauto.
Qed.

Lemma runs_destroy_frame_context i (Q : unit -> world VulkanContext -> Prop) R f f0 c0 tr g x b a r :
  frames (state c0) !! i = Some f0 -> usage tr = Some g -> still g -> stands g f ->
  frame_state g f x b a r ->
  (forall f1 g' tr', usage tr' = Some g' -> frame_gone f g g' ->
     Q tt (mkWorld (with_frame i f1 c0) tr')) ->
  runs (destroy_frame_context i) Q R (mkWorld (with_frame i f c0) tr).
Proof.
  intros Hi Hu [Hidle Hstill] [Hpool (Har & Hat & Hrt) Hnz] Hs HQ. unfold destroy_frame_context.
  unfold semaphores_of in Hnz. rewrite !Forall_cons in Hnz.
  destruct Hnz as (Hzf & Hzp & Hza & Hzr & Hzt & _). destruct Hs as [Hsf Hsb Hsa Hsr Hst].
  assert (Hkeep : forall m, idle (g <| fences ::= delete (inFlightFence f) |> <| semaphores := m |>)).
  { intros m. by apply map_Forall_delete. }
  apply runs_bind. eapply runs_destroy_member; [done|exact Hu| |by destruct f; cbn; intros ->|].
  { unfold check_destroy, is_null. rewrite (proj2 (Z.eqb_neq _ _) Hzf), Hsf. cbn.
    rewrite option_guard_True by apply (Hidle _ _ Hsf). done. }
  intros tr1 Hu1. apply runs_bind. eapply runs_destroy_member; [done|exact Hu1| |by destruct f; cbn; intros ->|].
  { apply check_destroy_semaphore; [done|by eexists|apply (Hkeep (semaphores g))]. }
  intros tr2 Hu2. apply runs_bind. eapply runs_destroy_member; [done|exact Hu2| |by destruct f; cbn; intros ->|].
  { apply check_destroy_semaphore; [done| |apply (Hkeep _)]. cbn. rewrite lookup_delete_ne; [by eexists|done]. }
  intros tr3 Hu3. apply runs_bind. eapply runs_destroy_member; [done|exact Hu3| |by destruct f; cbn; intros ->|].
  { apply check_destroy_semaphore; [done| |apply (Hkeep _)]. cbn. rewrite !lookup_delete_ne; [by eexists|done..]. }
  intros tr4 Hu4. apply runs_bind. eapply runs_destroy_member; [done|exact Hu4| |by destruct f; cbn; intros ->|].
  { unfold check_destroy. by destruct (is_null _). }
  intros tr5 Hu5. eapply runs_destroy_member; [done|exact Hu5| |by destruct f; cbn; intros ->|].
  { unfold check_destroy, is_null. cbn -[pool_idle]. rewrite (proj2 (Z.eqb_neq _ _) Hzp).
    rewrite option_guard_True by done. cbn -[pool_idle].
    rewrite option_guard_True; [done|]. intros h p Hh _. by apply (Hstill h). }
  intros tr6 Hu6. eapply HQ; [exact Hu6|]. by split.
Qed.

(** Nothing is left of the frames. *)
Record frames_gone (g : gpu) : Prop := mk_frames_gone
  { no_fences : fences g = ∅;
    no_semaphores : semaphores g = ∅;
    no_pools : pools g = ∅;
    no_buffers : buffers g = ∅ }.

Lemma both_frames_gone g f f' g1 g2 x b a r x' b' a' r' :
  owned g f f' -> frame_state g f x b a r -> frame_state g f' x' b' a' r' ->
  frame_gone f g g1 -> frame_gone f' g1 g2 -> frames_gone g2 /\ swapchains g2 = swapchains g.
Proof.
  intros Ho Hf Hf' [gf1 gs1 gp1 gb1 gw1] [gf2 gs2 gp2 gb2 gw2]. split; [split|by rewrite gw2].
  - apply dom_empty_inv_L. rewrite gf2, gf1, !dom_delete_L, (owned_fences _ _ _ Ho). set_solver +.
  - apply dom_empty_inv_L. rewrite gs2, gs1, !dom_delete_L, (owned_semaphores _ _ _ Ho).
    cbv [app semaphores_of]. cbn. set_solver +.
  - rewrite gp2, gp1, (owned_pools _ _ _ Ho). set_solver +.
  - apply map_empty. intros h. rewrite gb2, gb1. apply eq_None_not_Some. intros [p Hp].
    apply map_lookup_filter_Some in Hp as [[Hp Hne]%map_lookup_filter_Some Hne'].
    assert (Hh : h ∈ dom (buffers g)) by (apply elem_of_dom; by eexists).
    rewrite (owned_buffers _ _ _ Ho) in Hh. apply elem_of_union in Hh as [->%elem_of_singleton| ->%elem_of_singleton].
    + rewrite (fs_buffer _ _ _ _ _ _ Hf) in Hp. by simplify_eq.
    + rewrite (fs_buffer _ _ _ _ _ _ Hf') in Hp. by simplify_eq.
Qed.

(** The other frame stands as it did. *)
Lemma frame_gone_other g g1 f f' x b a r :
  owned g f f' -> frame_gone f g g1 -> frame_state g f' x b a r ->
  stands g1 f' /\ frame_state g1 f' x b a r.
Proof.
  intros Ho [gf gs gp gb gw] [Hf Hb Ha Hr Ht]. destruct (owned_stands _ _ _ (owned_sym _ _ _ Ho)) as [Hpool Hd Hnz].
  assert (Hne : forall h h', h ∈ semaphores_of f -> h' ∈ semaphores_of f' -> h <> h').
  { intros h h' Hh Hh' E. by eapply semaphores_of_differ. }
  pose proof (pools_differ _ _ _ Ho) as Hpd. split; [split; [|done..]|split].
  - rewrite gp. apply elem_of_difference. split; [done|]. intros E%elem_of_singleton. by destruct Hpd.
  - rewrite gf, lookup_delete_ne; [done|apply Ho].
  - rewrite gb. apply map_lookup_filter_Some. split; [done|]. intros E. by destruct Hpd.
  - by rewrite gs, !lookup_delete_ne by (apply Hne; auto using acquire_of, finished_of, timeline_of).
  - by rewrite gs, !lookup_delete_ne by (apply Hne; auto using acquire_of, finished_of, timeline_of).
  - by rewrite gs, !lookup_delete_ne by (apply Hne; auto using acquire_of, finished_of, timeline_of).
Qed.

(** Any two frames, in the order of the context. *)
Lemma runs_destroy_two (Q : unit -> world VulkanContext -> Prop) R f0 f1 g w :
  frames (state (object w)) = [f0; f1] -> usage (trace w) = Some g -> owned g f0 f1 ->
  at_rest g f0 -> at_rest g f1 -> still g ->
  (forall w' g', usage (trace w') = Some g' -> frames_gone g' -> swapchains g' = swapchains g ->
     chain_of (object w') = chain_of (object w) -> Q tt w') ->
  runs DestroyFrameContexts Q R w.
Proof.
  intros Hfr Hu Ho (x0 & b0 & _ & Hs0) (x1 & b1 & _ & Hs1) Hst HQ. unfold DestroyFrameContexts.
  change (seq 0 _) with [0%nat; 1%nat]. cbn [for_each]. destruct w as [c tr]. cbn [object trace] in *.
  rewrite (with_frame_same 0 f0 c) by by rewrite Hfr.
  apply runs_bind. eapply runs_destroy_frame_context; [by rewrite Hfr|done|done|by eapply owned_stands|done|].
  intros f0' g1 tr1 Hu1 Hg1. set (c1 := with_frame 0 f0' c).
  assert (Hfr1 : frames (state c1) !! 1%nat = Some f1) by (cbn; by rewrite Hfr).
  rewrite (with_frame_same 1 f1 c1 Hfr1).
  destruct (frame_gone_other _ _ _ _ _ _ _ _ Ho Hg1 Hs1) as [Hstd1 Hs1'].
  apply runs_bind. eapply runs_destroy_frame_context; [exact Hfr1|exact Hu1|by eapply frame_gone_still|done..|].
  intros f1' g2 tr2 Hu2 Hg2. apply runs_ret.
  destruct (both_frames_gone _ _ _ _ _ _ _ _ _ _ _ _ _ Ho Hs0 Hs1 Hg1 Hg2). by eapply HQ.
Qed.

Lemma runs_DestroyFrameContexts (Q : unit -> world VulkanContext -> Prop) R f f' g w :
  between f f' g w -> at_rest g f -> still g ->
  (forall w' g', usage (trace w') = Some g' -> frames_gone g' -> swapchains g' = swapchains g ->
     chain_of (object w') = chain_of (object w) -> Q tt w') ->
  runs DestroyFrameContexts Q R w.
Proof.
  intros [_ _ _ Hf Hu Ho Hr _] Hrest Hst HQ. destruct Hf as [[_ Hfr]|[_ Hfr]].
  - by eapply runs_destroy_two.
  - eapply runs_destroy_two; [exact Hfr|exact Hu|by apply owned_sym|done..].
Qed.

(** ** Destroying the whole *)

Lemma runs_neutral_call {A} (c : vk A) (Q : A -> world VulkanContext -> Prop) R w g :
  neutral c = true -> usage (trace w) = Some g ->
  (forall a tr, usage tr = Some g -> Q a (mkWorld (object w) tr)) -> runs (call c) Q R w.
Proof. intros Hc Hu HQ. apply runs_call. intros a _. apply HQ. by rewrite neutral_usage. Qed.

Lemma runs_DestroyDevice (Q : unit -> world VulkanContext -> Prop) R w g :
  usage (trace w) = Some g -> (forall w', usage (trace w') = Some g -> Q tt w') ->
  runs DestroyDevice Q R w.
Proof.
  intros Hu HQ. unfold DestroyDevice. apply runs_bind, runs_this. cbn beta.
  destruct (is_null _); [by apply runs_ret, HQ|].
  assert (Hq : forall m (Q : unit -> world VulkanContext -> Prop) R w, quiet m -> steady m ->
    usage (trace w) = Some g -> (forall w', usage (trace w') = Some g -> Q tt w') -> runs m Q R w).
  { intros m Q' R' w' Hm Hs Hu' HQ'. apply runs_quiet_steady; [done..|]. intros [] w2 [_ Hl].
    apply HQ'. by rewrite Hl. }
  apply runs_bind, Hq; [apply quiet_DestroyTimestampQueryPool| |done|].
  { unfold DestroyTimestampQueryPool, destroy. steady_code. }
  intros w1 Hu1. apply runs_bind, Hq; [apply quiet_DestroyPipelineCache| |done|].
  { unfold DestroyPipelineCache, destroy. steady_code. }
  intros w2 Hu2. apply runs_bind, runs_this. cbn beta.
  apply runs_bind, Hq; [quiet_code|steady_code|done|].
  intros w3 Hu3. apply runs_bind. eapply runs_neutral_call; [done|exact Hu3|]. intros a tr Htr.
  by apply runs_update, HQ.
Qed.

Lemma runs_DestroyInstance (Q : unit -> world VulkanContext -> Prop) R w g :
  usage (trace w) = Some g -> swapchains g = ∅ ->
  (forall w', usage (trace w') = Some g -> Q tt w') -> runs DestroyInstance Q R w.
Proof.
  intros Hu Hsw HQ. unfold DestroyInstance.
  apply runs_bind, runs_quiet_steady; [apply quiet_DestroyDebugMessenger| |].
  { unfold DestroyDebugMessenger. steady_code. }
  intros _ w1 [_ Hu1]. apply runs_bind. eapply runs_DestroySurface; [by rewrite Hu1|done|].
  intros w2 [_ Hu2]. apply runs_bind, runs_this. cbn beta. unfold unless_null.
  destruct (is_null _); [apply runs_ret, HQ; congruence|].
  apply runs_bind. eapply runs_neutral_call; [done|by rewrite Hu2, Hu1|]. intros a tr Htr.
  by apply runs_update, HQ.
Qed.
End create.

(** ** Sessions *)

(** Frames as a renderer draws them, until one fails: [retired] are the objects
    whose destruction is asked for while each is recorded. *)
Fixpoint draw `{Driver} (retired : list (list VulkanDeferredDestroy)) : Code VulkanContext ALResult :=
  match retired with
  | [] => mret S_OK
  | entries :: retired =>
      function (
        CR_RETURN_HR BeginFrame;;
        for_each Retire entries;;
        CR_RETURN_HR EndFrame;;
        CR_RETURN_HR Present;;
        draw retired)
  end.

(** A renderer's use of a context with a window. *)
Definition open_and_draw `{Driver} (validation : bool) (adapter : Z) (window : VkHandle)
    (params : Tr2PresentParametersAL) (retired : list (list VulkanDeferredDestroy))
    : Code VulkanContext ALResult :=
  function (
    CR_RETURN_HR (CreateInstance validation);;
    CR_RETURN_HR (CreateDevice adapter window params);;
    draw retired).

Section session.
Context `{DriverLaws} (wait_succeeds : forall tr d, answer tr (vkDeviceWaitIdle d) = VK_SUCCESS).
Context (acquire_optimal : forall tr d sc s, (answer tr (vkAcquireNextImageKHR d sc s)).1 <> VK_SUBOPTIMAL_KHR).
Context (presentable : families_present).

Lemma between_waited f f' g w tr :
  between f f' g w -> usage tr = Some (complete_all g) ->
  between f f' (complete_all g) (mkWorld (object w) tr).
Proof.
  intros [Hd Hone Hm Hf Hu Ho Hr Hc] Htr.
  split; [done..|by apply complete_all_owned|by apply complete_all_at_rest|exact Hc].
Qed.

Lemma runs_wait_between (Q : unit -> world VulkanContext -> Prop) R f f' g w :
  between f f' g w -> (forall w', object w' = object w -> between f f' (complete_all g) w' -> Q tt w') ->
  runs WaitIdle Q R w.
Proof.
  intros Hb HQ. apply runs_WaitIdle; [done|apply Hb|]. intros tr Htr.
  apply HQ; [done|]. apply between_waited; [done|]. by rewrite Htr, (bt_usage _ _ _ _ Hb).
Qed.

(** Nothing of a frame that is being recorded is completed by waiting. *)
Lemma recording_waited c g f : recording c g f -> recording c (complete_all g) f.
Proof.
  unfold recording, ready. destruct (suspended _).
  - intros (b & Hne & Hf). exists (if in_flight b then Initial else b).
    split; [by destruct b|]. by apply (complete_all_frame_state _ _ _ _ _ _) in Hf.
  - intros [Hf Hi]. split; [by apply (complete_all_frame_state _ _ _ _ _ _) in Hf|exact Hi].
Qed.

Lemma runs_Retire (Q : unit -> world VulkanContext -> Prop) R f f' g w e :
  resource_only e -> between f f' g w -> recording (object w) g f ->
  (forall w' g', between f f' g' w' -> recording (object w') g' f -> Q tt w') ->
  runs (Retire e) Q R w.
Proof.
  intros He Hb Hrec HQ. unfold Retire. apply runs_bind, runs_this. cbn beta.
  assert (Hend : forall w' g', between f f' g' w' -> recording (object w') g' f ->
    runs (update (fun c => c <| m_deferred ::= fun es => es ++ [e] |>)) Q R w').
  { intros w' g' [Hd Hone Hm Hf Hu Ho Hr Hc] Hrec'. apply runs_update. apply (HQ _ g'); [|exact Hrec'].
    split; try done. cbn. by apply Forall_app; split; [|apply Forall_singleton]. }
  apply runs_bind. destruct (_ <=? _); [|by eapply runs_ret, Hend].
  apply runs_bind. eapply runs_wait_between; [exact Hb|]. intros w1 Ho1 Hb1.
  eapply runs_DrainDeferred; [exact Hb1|]. intros w2 Hst2 Hb2. eapply Hend; [exact Hb2|].
  apply recording_waited. unfold recording, image_held in *. by rewrite Hst2, Ho1.
Qed.

Lemma runs_retire_all (Q : unit -> world VulkanContext -> Prop) R f f' g w es :
  Forall resource_only es -> between f f' g w -> recording (object w) g f ->
  (forall w' g', between f f' g' w' -> recording (object w') g' f -> Q tt w') ->
  runs (for_each Retire es) Q R w.
Proof.
  revert w g. induction es as [|e es IH]; intros w g Hes Hb Hrec HQ; [by eapply runs_ret, HQ|].
  apply Forall_cons in Hes as [He Hes]. apply runs_bind. eapply runs_Retire; [done..|].
  intros w' g' Hb' Hrec'. by eapply IH.
Qed.

(** A function that fails or goes on in one of the states that it should. *)
Definition yields (P : world VulkanContext -> Prop) (hr : ALResult) (w : world VulkanContext) : Prop :=
  valid (trace w) /\ (hr = S_OK -> P w).

Lemma runs_CR_yields P m (Q : unit -> world VulkanContext -> Prop) R w :
  runs m (yields P) (fun _ _ => False) w ->
  (forall w', P w' -> Q tt w') -> (forall hr w', valid (trace w') -> hr <> S_OK -> R hr w') ->
  runs (CR_RETURN_HR m) Q R w.
Proof.
  intros Hm HQ HR. apply runs_CR_RETURN_HR. eapply runs_mono; [exact Hm| |done].
  intros hr w' [Hv HP]. destruct (decide (hr = S_OK)) as [->|Hhr]; [by apply HQ, HP|].
  replace (FAILED hr) with true by by destruct hr. by apply HR.
Qed.

Definition idle_between (w : world VulkanContext) : Prop :=
  exists f f' g, between f f' g w /\ at_rest g f.

Lemma runs_draw retired w :
  Forall (Forall resource_only) retired -> idle_between w ->
  runs (draw retired) (yields idle_between) (fun _ _ => False) w.
Proof.
  revert w. induction retired as [|es retired IH]; intros w Hes (f & f' & g & Hb & Hr).
  { apply runs_ret. split; [exists g; apply Hb|]. intros _. by exists f, f', g. }
  apply Forall_cons in Hes as [Hes Hall]. cbn [draw]. apply runs_function.
  assert (Hfail : forall hr w', valid (trace w') -> hr <> S_OK -> yields idle_between hr w').
  { intros hr w' Hv Hhr. by split. }
  apply runs_bind. eapply runs_CR_yields with (P := fun w' => exists g', between f f' g' w' /\ recording (object w') g' f);
    [|clear w g Hb Hr; intros w (g & Hb & Hrec)|exact Hfail].
  { eapply runs_mono; [by eapply runs_BeginFrame|done..]. }
  apply runs_bind. eapply runs_retire_all; [done..|]. clear w g Hb Hrec. intros w g Hb Hrec.
  apply runs_bind. eapply runs_CR_yields; [by eapply runs_EndFrame| |exact Hfail].
  clear w g Hb Hrec. intros w (v & g & Hb & Hsub).
  apply runs_bind. eapply runs_CR_yields; [by eapply runs_Present| |exact Hfail].
  clear g Hb Hsub. intros w' (g' & Hb & Hr). eapply runs_mono; [apply IH; [done|]|done..].
  by exists f', (f <| timelineValue := v |>), g'.
Qed.

Lemma runs_open_and_draw validation adapter window params retired :
  window <> VK_NULL_HANDLE -> Forall (Forall resource_only) retired ->
  runs (open_and_draw validation adapter window params retired) (yields idle_between)
    (fun _ _ => False) (mkWorld new_VulkanContext []).
Proof.
  intros Hwin Hes. unfold open_and_draw. apply runs_function. set (w := mkWorld _ _).
  assert (Hfail : forall hr w', valid (trace w') -> hr <> S_OK -> yields idle_between hr w').
  { intros hr w' Hv Hhr. by split. }
  assert (Hvac : vacant w new_gpu).
  { split; try done. by exists new_VulkanFrameContext, new_VulkanFrameContext. }
  apply runs_bind, runs_CR_quiet; [apply quiet_CreateInstance|apply steady_function| |].
  2:{ intros hr w' [_ Hu] Hhr. apply Hfail; [|done]. by exists new_gpu; rewrite Hu. }
  intros w1 Hl1. apply runs_bind.
  eapply runs_CR_yields with (P := idle_between); [| |exact Hfail].
  { eapply runs_mono; [apply runs_CreateDevice with (g := new_gpu); [done|by eapply vacant_leaves|done..]|done..]. }
  intros w2 Hb2. eapply runs_mono; [by apply runs_draw|done..].
Qed.

(** [Destroy] between frames. *)
Lemma runs_Destroy w :
  idle_between w ->
  runs Destroy (fun _ w' => exists g, usage (trace w') = Some g /\ frames_gone g /\ swapchains g = ∅)
    (fun _ _ => False) w.
Proof.
  intros (f & f' & g & Hb & Hr). unfold Destroy. apply runs_bind.
  eapply runs_wait_between; [exact Hb|]. intros w1 Ho1 Hb1. apply runs_bind.
  eapply runs_DrainDeferred; [exact Hb1|]. intros w2 Hst2 Hb2. apply runs_bind.
  eapply runs_DestroyFrameContexts; [exact Hb2|by apply complete_all_at_rest|apply complete_all_still|].
  intros w3 g3 Hu3 Hg3 Hsw3 Hc3. apply runs_bind. eapply (runs_DestroySwapchain wait_succeeds); [exact Hu3| | |].
  - unfold idle. rewrite (no_fences _ Hg3). apply map_Forall_empty.
  - pose proof (chain_sole _ _ (bt_chain _ _ _ _ Hb2)) as Hsole. unfold sole in *. rewrite Hsw3.
    injection Hc3 as -> _. exact Hsole.
  - intros w4 [_ (g4 & Hu4 & (Hf4 & Hs4 & Hp4 & Hb4) & _ & Hsw4)].
    apply runs_bind. eapply runs_DestroyDevice; [exact Hu4|]. intros w5 Hu5.
    eapply runs_DestroyInstance; [exact Hu5|done|]. intros w6 Hu6. exists g4. split; [done|].
    destruct Hg3. split; [split; congruence|done].
Qed.
End session.
