(* ===== verification/VulkanScenarios.v ===== *)
(** * Uses of a context that break the rules

    Runs of the context under the driver of [VulkanDriver] in which the calls it
    makes are not those that [VulkanUsage] allows: what the hypotheses of the
    theorems of [VulkanSession] exclude, and why they have to. *)

From stdpp Require Import base numbers list option strings gmap fin_maps sets.
From S2P Require Import Prelude RenderGraph VulkanFormats Vulkan VulkanContext VulkanUsage VulkanFrameInv VulkanFrames VulkanDriver VulkanSession.

#[local] Open Scope Z_scope.

Definition default_parameters : Tr2PresentParametersAL :=
  mkTr2PresentParametersAL 800 600 PRESENT_INTERVAL_ONE.

(** An instance and a device for [window], and one whole frame. *)
Definition opened `{Driver} (window : VkHandle) : Code VulkanContext unit :=
  CR_RETURN_HR (CreateInstance false);;
  CR_RETURN_HR (CreateDevice 0 window default_parameters).
Definition one_frame `{Driver} : Code VulkanContext unit :=
  CR_RETURN_HR BeginFrame;; CR_RETURN_HR EndFrame;; CR_RETURN_HR Present.

(** ** Conditions *)

Definition made (is_it : forall A, vk A -> bool) (tr : list event) : bool :=
  existsb (fun e => is_it _ (ev_call e)) tr.
Definition is_acquire {A} (c : vk A) : bool :=
  match c with vkAcquireNextImageKHR _ _ _ => true | _ => false end.
Definition is_begin {A} (c : vk A) : bool :=
  match c with vkBeginCommandBuffer _ => true | _ => false end.
Definition is_submit {A} (c : vk A) : bool :=
  match c with vkQueueSubmit2 _ _ _ => true | _ => false end.
Definition is_view {A} (c : vk A) : bool :=
  match c with vkCreateImageView _ _ => true | _ => false end.

(** The calls that [is_it] picks answer [result]; [when] says from when on. *)
Definition answering (is_it : forall A, vk A -> bool) (from : list event -> bool) (result : VkResult)
    : forall A, list event -> vk A -> VkResult :=
  fun A tr c => if is_it A c && from tr then result else VK_SUCCESS.

Definition window_open (_ : list event) : VkExtent2D := mkVkExtent2D 800 600.
(** The window is minimized once [from] holds. *)
Definition minimized (from : list event -> bool) (tr : list event) : VkExtent2D :=
  if from tr then mkVkExtent2D 0 0 else mkVkExtent2D 800 600.
Definition always (_ : list event) : bool := true.

(** A swap chain that no longer matches its surface, but can be presented to. *)
Definition resized : conditions :=
  mkConditions (answering (@is_acquire) always VK_SUBOPTIMAL_KHR) window_open.
(** Minimized while the first frame is recorded. *)
Definition minimized_later : conditions :=
  mkConditions (fun _ _ _ => VK_SUCCESS) (minimized (made (@is_begin))).
(** Minimized before the first image is acquired. *)
Definition minimized_at_acquire : conditions :=
  mkConditions (answering (@is_acquire) (fun tr => negb (made (@is_acquire) tr)) VK_ERROR_OUT_OF_DATE_KHR)
    (minimized (made (@is_acquire))).
Definition submission_fails : conditions :=
  mkConditions (answering (@is_submit) always VK_ERROR_OUT_OF_HOST_MEMORY) window_open.
Definition views_fail : conditions :=
  mkConditions (answering (@is_view) (made (@is_acquire)) VK_ERROR_OUT_OF_DEVICE_MEMORY) window_open.

(** ** What happens *)

(** The run of some code on a new context under the driver in these conditions. *)
Definition from_new {A} (c : conditions) (m : Driver -> Code VulkanContext A)
    : flow A * world VulkanContext :=
  m (respond c) (mkWorld new_VulkanContext []).
Definition calls_of {A} (c : conditions) (m : Driver -> Code VulkanContext A) : list event :=
  trace (from_new c m).2.

(** The first call that is not allowed, and the objects at that time. *)
Fixpoint breach (tr : list event) : option (gpu * event) :=
  match tr with
  | [] => None
  | e :: earlier =>
      match breach earlier, usage earlier with
      | Some b, _ => Some b
      | None, Some g => match check g e with Some _ => None | None => Some (g, e) end
      | None, None => None
      end
  end.

(** [VK_SUBOPTIMAL_KHR] is a success: the image was acquired and the semaphore will
    be signaled, and the frame acquires again with the same semaphore. *)
Theorem suboptimal_acquired_twice :
  exists g d sc sem r, breach (calls_of resized (fun _ => opened 77;; BeginFrame)) =
    Some (g, Event (vkAcquireNextImageKHR d sc sem) r) /\ semaphores g !! sem = Some (Binary true).
Proof. do 5 eexists. split; vm_compute; reflexivity. Qed.

(** The window is minimized and the swap chain recreated, as [SetPresentParameters]
    does, while a frame is recorded. [EndFrame] then submits nothing, the fence of
    the frame stays unsignaled, and its next turn waits for it for ever. *)
Theorem minimized_frame_waits :
  exists g d fence r, breach (calls_of minimized_later (fun _ => opened 77;; CR_RETURN_HR BeginFrame;;
      CR_RETURN_HR RecreateSwapchain;; CR_RETURN_HR EndFrame;; CR_RETURN_HR Present;;
      one_frame;; BeginFrame)) =
    Some (g, Event (vkWaitForFences d fence) r) /\ fences g !! fence = Some Unsignaled.
Proof. do 4 eexists. split; vm_compute; reflexivity. Qed.

(** So does a frame whose submission failed. *)
Theorem failed_frame_waits :
  exists g d fence r, breach (calls_of submission_fails (fun _ => opened 77;; CR_RETURN_HR BeginFrame;; EndFrame;; BeginFrame)) =
    Some (g, Event (vkWaitForFences d fence) r) /\ fences g !! fence = Some Unsignaled.
Proof. do 4 eexists. split; vm_compute; reflexivity. Qed.

(** A swap chain recreated while a frame is recorded: the frame presents an image
    that it has not acquired. *)
Theorem recreated_presents_unacquired :
  exists g q sc i sem r, breach (calls_of calm (fun _ => opened 77;; CR_RETURN_HR BeginFrame;;
      CR_RETURN_HR RecreateSwapchain;; CR_RETURN_HR EndFrame;; Present)) =
    Some (g, Event (vkQueuePresentKHR q sc i sem) r) /\ (sc, i) ∉ acquired g.
Proof. do 6 eexists. split; [vm_compute; reflexivity|]. refine (bool_decide_unpack _ _). vm_compute. exact I. Qed.

(** A device that draws with its first family and presents with its second. *)
Definition two_families : Driver := fun A tr f =>
  match f in vk A return A with
  | vkGetPhysicalDeviceQueueFamilyProperties _ room => written room [VK_QUEUE_GRAPHICS_BIT; 0]
  | vkGetPhysicalDeviceSurfaceSupportKHR _ family _ => (VK_SUCCESS, family =? 1)
  | f => respond calm _ tr f
  end.

(** There [pQueueFamilyIndices] dangles: opening the context is undefined. *)
Theorem two_families_dangle :
  exists w, @opened two_families 77 (mkWorld new_VulkanContext []) = (Wrong, w) /\
    graphicsFamily (state (object w)) = 0 /\ presentFamily (state (object w)) = 1.
Proof. eexists. split; [vm_compute; reflexivity|]. split; vm_compute; reflexivity. Qed.

(** A context without a window has no swap chain to acquire from. *)
Theorem windowless_acquires :
  exists g d sem r, breach (calls_of calm (fun _ => opened VK_NULL_HANDLE;; BeginFrame)) =
    Some (g, Event (vkAcquireNextImageKHR d VK_NULL_HANDLE sem) r).
Proof. do 4 eexists. vm_compute. reflexivity. Qed.

(** A recreation that fails after it made the new swap chain forgets it: it outlives
    the device and the surface it presents to. *)
Theorem failed_recreation_leaks :
  exists g i h r, breach (calls_of views_fail (fun _ =>
      opened 77;; CR_RETURN_HR BeginFrame;; RecreateSwapchain;; Destroy)) =
    Some (g, Event (vkDestroy SurfaceKHR i h) r) /\ swapchains g <> ∅.
Proof.
  do 4 eexists. split; [vm_compute; reflexivity|]. refine (bool_decide_unpack _ _). vm_compute. exact I.
Qed.

(** A window minimized while [BeginFrame] acquires: it succeeds without a command
    buffer to record into. *)
Theorem minimized_acquire_unrecorded :
  exists w g, from_new minimized_at_acquire (fun _ => opened 77;; BeginFrame) = (Next S_OK, w) /\ usage (trace w) = Some g /\
    map_Forall (fun _ b => b.2 = Initial) (buffers g).
Proof.
  do 2 eexists. split; [vm_compute; reflexivity|]. split; [vm_compute; reflexivity|].
  refine (bool_decide_unpack _ _). vm_compute. exact I.
Qed.

(** ** Destroying what the device still uses

    Entries are tagged with the value that the timeline of the current frame will
    reach, and drained against the value that the timeline of another has reached. *)

(** The buffer [h], as [Tr2BufferAL] retires it while a frame is recorded. *)
Definition retire_buffer `{Driver} (h : VkHandle) : Code VulkanContext unit :=
  s ← get id;
  value ← GetCurrentTimelineValue;
  Retire (mkVulkanDeferredDestroy (device s) (allocator s) (u64 (value + 1)) 0 0 h 1 0 0 0 0 0 0 0 0 0).

Definition destroys_buffer {A} (h : VkHandle) (c : vk A) : bool :=
  match c with vmaDestroyBuffer _ b _ => b =? h | _ => false end.

(** The objects when [h] is destroyed. *)
Fixpoint when_destroyed (h : VkHandle) (tr : list event) : option gpu :=
  match tr with
  | [] => None
  | e :: earlier => if destroys_buffer h (ev_call e) then usage earlier else when_destroyed h earlier
  end.

(** A buffer retired while the second frame is recorded is destroyed by the
    [BeginFrame] of the third, against the timeline of the first: it is destroyed while the command buffer that was recorded when it was
    retired, the only one submitted since, executes. *)
Theorem retired_destroyed_early :
  exists w f g, from_new calm (fun _ => opened 77;; one_frame;; CR_RETURN_HR BeginFrame;; retire_buffer 9;;
      frame ← current_frame; CR_RETURN_HR EndFrame;; CR_RETURN_HR Present;; CR_RETURN_HR BeginFrame;;
      mret frame) = (Next f, w) /\
    when_destroyed 9 (trace w) = Some g /\ fences g !! inFlightFence f = Some (Pending (commandBuffer f)).
Proof. do 3 eexists. split; [vm_compute; reflexivity|]. split; vm_compute; reflexivity. Qed.
