(* ===== verification/VulkanSpec.v ===== *)
(** * What the Vulkan context guarantees

    The properties of [VulkanContext]: sessions use Vulkan as it allows, nothing
    outlives [Destroy], each function of the frame takes the invariant to the next
    one, deferred objects are bounded, and the choices the context makes lie within
    what the device offers. *)

From stdpp Require Import base numbers list option strings gmap fin_maps sets.
From S2P Require Import Prelude RenderGraph VulkanFormats Vulkan VulkanContext VulkanUsage VulkanQuiet VulkanFrameInv VulkanSwapchain VulkanFrames VulkanDriver VulkanSession VulkanScenarios.

#[local] Open Scope Z_scope.

(** ** Sessions *)

Lemma runs_outcome {S A} (m : Code S A) Q w :
  runs m Q (fun _ _ => False) w -> exists a w', m w = (Next a, w') /\ Q a w'.
Proof. unfold runs. destruct (m w) as [[a|hr|] w']; [|done..]. intros HQ. by exists a, w'. Qed.

Section sessions.
Context `{DriverLaws} (wait_succeeds : forall tr d, answer tr (vkDeviceWaitIdle d) = VK_SUCCESS).
Context (acquire_optimal : forall tr d sc s,
  (answer tr (vkAcquireNextImageKHR d sc s)).1 <> VK_SUBOPTIMAL_KHR).
Context (presentable : families_present).

(** C3. Under a driver for which waiting for the device succeeds, acquiring an image
    does not answer [VK_SUBOPTIMAL_KHR], and every queue family presents to the
    surfaces it is asked about: a session that creates an instance and a device for a
    window and draws any number of frames, retiring any resources (no fence,
    semaphore, command pool or swap chain) while it records them, ends with a result
    and does nothing that the language leaves undefined, and every call it made is
    one that the state of the fences, semaphores, command buffers and swap chains
    allows, whether the session succeeds or some call on the way fails. The driver
    also keeps to its documented laws: new handles are new, and arrays are filled
    within their room. Where they fail, [suboptimal_acquired_twice] and
    [two_families_dangle] show what the code does. *)
Theorem sessions_valid validation adapter window params retired :
  window <> VK_NULL_HANDLE -> Forall (Forall resource_only) retired ->
  exists hr w, open_and_draw validation adapter window params retired (mkWorld new_VulkanContext []) =
    (Next hr, w) /\ valid (trace w).
Proof.
  intros Hwin Hes.
  destruct (runs_outcome _ _ _ (runs_open_and_draw wait_succeeds acquire_optimal presentable validation adapter
    window params retired Hwin Hes)) as (hr & w & Hrun & Hv & _).
  by exists hr, w.
Qed.

(** C5. Under a driver for which waiting for the device succeeds, acquiring an image
    does not answer [VK_SUBOPTIMAL_KHR], and every queue family presents to the
    surfaces it is asked about: after a session for a window that succeeded, in which
    only resources were retired (no fence, semaphore, command pool or swap chain),
    [Destroy] ends, makes allowed calls only, and leaves no fence, semaphore, command
    pool, command buffer or swap chain alive. *)
Theorem Destroy_complete validation adapter window params retired w :
  window <> VK_NULL_HANDLE -> Forall (Forall resource_only) retired ->
  open_and_draw validation adapter window params retired (mkWorld new_VulkanContext []) =
    (Next S_OK, w) ->
  exists w' g, Destroy w = (Next tt, w') /\ usage (trace w') = Some g /\ frames_gone g /\
    swapchains g = ∅.
Proof.
  intros Hwin Hes Hok.
  pose proof (runs_open_and_draw wait_succeeds acquire_optimal presentable validation adapter window params
    retired Hwin Hes) as Hrun.
  unfold runs in Hrun. rewrite Hok in Hrun. destruct Hrun as [_ Hidle].
  destruct (runs_outcome _ _ _ (runs_Destroy wait_succeeds w (Hidle eq_refl)))
    as ([] & w' & -> & g & Hg). by exists w', g.
Qed.

(** ** The functions of the frame *)

(** What a function of the frame answers: nothing that breaks a rule, and the next
    invariant when it succeeds. *)
Definition advances (m : Code VulkanContext ALResult)
    (next : VulkanContext -> gpu -> VulkanFrameContext -> Prop) (w : world VulkanContext) : Prop :=
  exists hr w', m w = (Next hr, w') /\ valid (trace w') /\ (hr = S_OK -> invariant next w').

Lemma runs_advances m next w :
  runs m (fun hr w' => valid (trace w') /\ (hr = S_OK -> invariant next w')) (fun _ _ => False) w ->
  advances m next w.
Proof. apply runs_outcome. Qed.

(** C4. Under a driver for which waiting for the device succeeds, acquiring an image
    does not answer [VK_SUBOPTIMAL_KHR], and every queue family presents to the
    surfaces it is asked about, the functions of the frame keep the invariant of the
    two frame contexts: between frames, [BeginFrame] makes the current frame one that
    is recorded, or that has no image because the swap chain is suspended; [EndFrame]
    submits it, and [Present] makes the other frame the current one, at rest. Each
    makes allowed calls only, also when it fails. *)
Theorem frame_protocol w :
  (invariant resting w -> advances BeginFrame recording w) /\
  (invariant recording w -> advances EndFrame submitted w) /\
  (invariant submitted w -> advances Present resting w).
Proof.
  split; [|split]; intros (f & f' & g & Hb & Hcur)%invariant_between; apply runs_advances.
  - eapply runs_mono; [by eapply runs_BeginFrame| |done]. intros hr w' [Hv Hok]. split; [done|].
    intros Hhr. destruct (Hok Hhr) as (g' & Hb' & Hr'). apply invariant_between. by exists f, f', g'.
  - eapply runs_mono; [by eapply runs_EndFrame| |done]. intros hr w' [Hv Hok]. split; [done|].
    intros Hhr. destruct (Hok Hhr) as (v & g' & Hb' & Hr'). apply invariant_between. by eexists _, f', g'.
  - eapply runs_mono; [by eapply runs_Present| |done]. intros hr w' [Hv Hok]. split; [done|].
    intros Hhr. destruct (Hok Hhr) as (g' & Hb' & Hr'). apply invariant_between. by exists f', f, g'.
Qed.

End sessions.

(** ** The calm driver *)

Lemma calm_waits tr d : respond calm _ tr (vkDeviceWaitIdle d) = VK_SUCCESS.
Proof. done. Qed.
Lemma calm_acquires tr d sc s :
  (respond calm _ tr (vkAcquireNextImageKHR d sc s)).1 <> VK_SUBOPTIMAL_KHR.
Proof. done. Qed.

Lemma calm_presents : @families_present (respond calm).
Proof. done. Qed.

(** A buffer retired in the second of two frames. *)
Definition calm_retired : list (list VulkanDeferredDestroy) :=
  [[]; [mkVulkanDeferredDestroy 1 1 1 0 0 9 1 0 0 0 0 0 0 0 0 0]].
Definition calm_session : flow ALResult * world VulkanContext :=
  from_new calm (fun _ => open_and_draw false 0 77 default_parameters calm_retired).

Lemma calm_retired_only : Forall (Forall resource_only) calm_retired.
Proof. by repeat constructor. Qed.

Example sessions_valid_witness :
  exists hr w, calm_session = (Next hr, w) /\ valid (trace w).
Proof. exact (@sessions_valid _ calm_laws calm_waits calm_acquires calm_presents false 0 77 default_parameters _
  ltac:(done) calm_retired_only). Defined.

Example Destroy_complete_witness :
  exists w' g, @Destroy (respond calm) calm_session.2 = (Next tt, w') /\
    usage (trace w') = Some g /\ frames_gone g /\ swapchains g = ∅.
Proof.
  apply (@Destroy_complete _ calm_laws calm_waits calm_acquires calm_presents false 0 77 default_parameters calm_retired);
    [done|apply calm_retired_only|]. vm_compute. reflexivity.
Defined.

(** The context after those frames is between two frames. *)
Lemma calm_session_resting : invariant resting calm_session.2.
Proof.
  destruct (runs_outcome _ _ _ (@runs_open_and_draw _ calm_laws calm_waits calm_acquires calm_presents false 0 77
    default_parameters calm_retired ltac:(done) calm_retired_only)) as (hr & w & Erun & _ & Hok).
  assert (E : calm_session = (Next hr, w)) by (unfold calm_session, from_new; exact Erun).
  assert (Hok' : calm_session.1 = Next S_OK) by (vm_compute; reflexivity).
  rewrite E in Hok' |- *. injection Hok' as ->.
  apply invariant_between. destruct (Hok eq_refl) as (f & f' & g & Hb & Hr). exists f, f', g. exact (conj Hb Hr).
Qed.

Definition calm_begun : flow ALResult * world VulkanContext :=
  @BeginFrame (respond calm) calm_session.2.
Definition calm_ended : flow ALResult * world VulkanContext :=
  @EndFrame (respond calm) calm_begun.2.
Definition calm_presented : flow ALResult * world VulkanContext :=
  @Present (respond calm) calm_ended.2.

Lemma advances_ok `{Driver} (m : Code VulkanContext ALResult) next w :
  (m w).1 = Next S_OK -> advances m next w -> invariant next (m w).2.
Proof. intros Hr (hr & w' & E & _ & Hok). rewrite E in Hr |- *. apply Hok. by injection Hr. Qed.

Example frame_protocol_witness :
  invariant recording calm_begun.2 /\ invariant submitted calm_ended.2 /\
  invariant resting calm_presented.2.
Proof.
  pose proof (frame_protocol (H := respond calm) (H0 := calm_laws) calm_waits calm_acquires calm_presents) as Hp.
  assert (H1 : invariant recording calm_begun.2).
  { unfold calm_begun. apply (advances_ok (H := respond calm)); [vm_compute; reflexivity|].
    exact (proj1 (Hp calm_session.2) calm_session_resting). }
  assert (H2 : invariant submitted calm_ended.2).
  { unfold calm_ended. apply (advances_ok (H := respond calm)); [vm_compute; reflexivity|].
    exact (proj1 (proj2 (Hp calm_begun.2)) H1). }
  split; [exact H1|]. split; [exact H2|].
  unfold calm_presented. apply (advances_ok (H := respond calm)); [vm_compute; reflexivity|].
  exact (proj2 (proj2 (Hp calm_ended.2)) H2).
Defined.

(** ** Deferred objects *)

Section deferred.
Context `{Driver}.

(** The calls after waiting for the device. *)
Definition waited (c : VulkanContext) (tr : list event) : list event :=
  let wait := vkDeviceWaitIdle (device (state c)) in
  if is_null (device (state c)) then tr else Event wait (answer tr wait) :: tr.

Lemma WaitIdle_eq w : WaitIdle w = (Next tt, mkWorld (object w) (waited (object w) (trace w))).
Proof. unfold WaitIdle, waited, get, this, mbind, Code_bind. cbn. by destruct w, (is_null _). Qed.

(** The values of a 64-bit timeline. *)
Definition is_value (e : VulkanDeferredDestroy) : Prop := 0 <= dd_timelineValue e <= UINT64_MAX.

(** C40. [Retire] keeps the list of deferred objects within [MAX_DEFERRED_ENTRIES]: it
    appends the entry without a call while there is room, and when the list is full
    it waits for the device, destroys the objects of all entries in their order and
    starts a new list. *)
Theorem Retire_bounded e w (es := m_deferred (object w)) :
  Forall is_value es -> Z.of_nat (length es) <= MAX_DEFERRED_ENTRIES ->
  exists es' tr, Retire e w = (Next tt, mkWorld ((object w) <| m_deferred := es' ++ [e] |>) tr) /\
    Z.of_nat (length (es' ++ [e])) <= MAX_DEFERRED_ENTRIES /\
    ((es' = es /\ tr = trace w) \/
     (es' = [] /\ tr = called (es ≫= destroy_calls) (waited (object w) (trace w)))).
Proof.
  intros Hes Hlen. unfold Retire. erewrite bind_next by reflexivity. cbn beta.
  fold es. destruct (Z.leb_spec MAX_DEFERRED_ENTRIES (Z.of_nat (length es))) as [Hfull|Hroom].
  - exists [], (called (es ≫= destroy_calls) (waited (object w) (trace w))).
    assert (Hdue : Forall (due UINT64_MAX) es).
    { eapply Forall_impl; [exact Hes|]. intros x Hx. unfold due. apply Hx. }
    erewrite bind_next; [|erewrite bind_next; [apply DrainDeferred_eq|apply WaitIdle_eq]].
    assert (Hall : filter (due UINT64_MAX) es = es) by by apply filter_all, Forall_forall.
    assert (Hnone : filter (fun e => ~ due UINT64_MAX e) es = []).
    { apply filter_none. rewrite Forall_forall in Hdue. intros x Hx. by apply Hdue in Hx; intros []. }
    split; [|split; [cbn; unfold MAX_DEFERRED_ENTRIES; lia|by right]].
    unfold update. cbn. unfold es in Hall, Hnone. rewrite Hall, Hnone.
    done.
  - exists es, (trace w). destruct w as [c tr]. split; [done|]. split; [|by left].
    rewrite length_app. cbn. lia.
Qed.

End deferred.

Example Retire_bounded_witness (e := mkVulkanDeferredDestroy 1 1 1 0 0 9 1 0 0 0 0 0 0 0 0 0)
    (w := mkWorld (mkVulkanContext new_VulkanDeviceState [e]) []) :
  exists es' tr, @Retire (respond calm) e w = (Next tt, mkWorld ((object w) <| m_deferred := es' ++ [e] |>) tr) /\
    Z.of_nat (length (es' ++ [e])) <= MAX_DEFERRED_ENTRIES.
Proof.
  destruct (Retire_bounded (H := respond calm) e w) as (es' & tr & Hr & Hlen & _).
  - by repeat constructor.
  - done.
  - by exists es', tr.
Defined.

(** ** Choices *)

(** [SelectExtent] takes the extent of the surface when the surface has one, and
    otherwise that of the present parameters brought within the limits of the
    surface, unchanged when it is within them; it is defined because the limits are
    an interval. *)
Theorem SelectExtent_within caps w :
  let e := minImageExtent caps in let e' := maxImageExtent caps in
  extent_width e <= extent_width e' -> extent_height e <= extent_height e' ->
  exists chosen, SelectExtent caps w = (Next chosen, w) /\
    (extent_width (currentExtent caps) <> UINT32_MAX -> chosen = currentExtent caps) /\
    (extent_width (currentExtent caps) = UINT32_MAX ->
       extent_width e <= extent_width chosen <= extent_width e' /\
       extent_height e <= extent_height chosen <= extent_height e' /\
       let p := presentParameters (state (object w)) in
       (extent_width e <= mode_width p <= extent_width e' ->
        extent_height e <= mode_height p <= extent_height e' ->
        chosen = mkVkExtent2D (mode_width p) (mode_height p))).
Proof.
  intros e e' Hw Hh. subst e e'. unfold SelectExtent.
  destruct (Z.eqb_spec (extent_width (currentExtent caps)) UINT32_MAX) as [Hcur|Hcur]; cbn [negb];
    [|by exists (currentExtent caps)].
  unfold clamp. erewrite bind_next by reflexivity. cbn beta.
  rewrite (proj2 (Z.ltb_ge _ _) Hw), (proj2 (Z.ltb_ge _ _) Hh).
  do 2 (erewrite bind_next by reflexivity; cbn beta). eexists. split; [reflexivity|]. split; [done|].
  intros _. cbn [extent_width extent_height].
  repeat case_match; rewrite ?Z.ltb_lt, ?Z.ltb_ge in *; (split; [lia|]; split; [lia|]);
    cbv zeta; intros; f_equal; lia.
Qed.


Example SelectExtent_within_witness (w := mkWorld new_VulkanContext [])
    (caps := mkVkSurfaceCapabilitiesKHR 2 0 (mkVkExtent2D UINT32_MAX UINT32_MAX) (mkVkExtent2D 16 16)
      (mkVkExtent2D 4096 4096) 0) :
  exists chosen, SelectExtent caps w = (Next chosen, w) /\ 16 <= extent_width chosen <= 4096.
Proof.
  destruct (SelectExtent_within caps w) as (chosen & Hs & _ & Hin); [done..|].
  exists chosen. split; [exact Hs|apply (Hin eq_refl)].
Defined.
